(* ===== verification/_CoqProject ===== *)
-Q . S2P
Prelude.v
CppUtils.v
Stream.v
Component.v
ObjectBase.v
Objects.v
Element.v
ElementStream.v
RsType.v
FileA3D.v
Memory.v
DrvAllocation.v
RsAllocation.v
CpuCore.v
Workers.v
Launch.v
ScriptGroup.v
Transform.v
Idct.v
Affine.v
Dct.v
RoundTrip.v
Adst.v
FontCache.v
LoopFilter.v
LoopPasses.v
Wavefront.v
LoopRows.v
RpcSpec.v
ThreadIO.v
Messages.v
Matrix.v
Bits.v
ElfArchive.v
ElfObject.v
ElfReloc.v
ElfInst.v
ElfLoad.v
ElfLink.v
ElfArm.v
ElfData.v
ElfMips.v
Pixels.v
Histogram.v
InterPred.v
Client.v
ClientIntrinsics.v
ClientInit.v
