(* ===== verification/Prelude.v ===== *)
(** * RenderScript runtime: a verification library

    RenderScript runs data-parallel kernels on behalf of an application.  The application uses a
    client library (C++: [cpp/]), whose calls become commands on a socket; a core thread of the
    runtime plays the commands, which create reference-counted objects (elements, types,
    allocations, fonts, script groups, ...), copy data in and out of them and launch kernels; the
    CPU driver ([driver/], [cpu_ref/]) divides a launch among worker threads.  Some kernels are
    built in (the intrinsics), and compiled scripts are brought into memory by a link loader.  This
    library models these parts as Rocq functions, translated from the source under [src/], and
    proves what each part promises to the others.

    ** Conventions

    Integers are [Z]; where the code computes at a width, the width is written out ([u8], [u16],
    [u32], [u64], [s16], [s32], operators such as [+u32]).  Code that can fail returns an [outcome]:
    [Ok], or a [Fault] that names what the C++ program would have done wrong (out of bounds, use
    after free, null dereference, uninitialised read, division by zero, overlap, overflow, failed
    assertion).  So a theorem that ends in [Ok] also says that no such access happens.  State is
    passed explicitly; threads are step relations over a state with one program counter per
    thread, whose steps are the accesses to shared memory, in any interleaving.

    The build that is modelled: a little-endian host, the CPU driver without OpenGL
    ([RS_COMPATIBILITY_LIB]) with 64-bit sizes, the portable C code of the intrinsics, the client
    library built for the system runtime; for the link loader a 32-bit host with assertions
    enabled, the only one on which it is compiled in.

    ** Objects and their files

    - [CppUtils] ([rsCppUtils.h]): alignment, powers of two, colour conversions.
    - [Stream] ([rsStream.cpp]): [OStream] with its growing, partly uninitialised buffer and
      [IStream]; what is written is read back.
    - [Component] ([rsComponent.cpp]): sizes, padding and serialization of scalars and vectors.
    - [ObjectBase] ([rsObjectBase.cpp]): user and system counts, the list of objects, deletion and
      what it cascades to, teardown.  The interface [ObjectClass] says what a derived class adds;
      [Objects] is its instance with [Element], [Type] and opaque classes.  From an empty context,
      clients that release only what they hold never touch a deleted object, and a release deletes
      exactly what nothing holds any more.
    - [Element], [ElementStream] ([rsElement.cpp]) and [RsType] ([rsType.cpp]): elements and types
      are shared through caches, so equal ones are the same object; layout, the table of mipmap
      levels, serialization and its inverse.
    - [FileA3D] ([rsFileA3D.cpp]): files of objects are written and loaded again.

    ** Data

    - [Memory]: blocks of the C heap, with checked copies.
    - [DrvAllocation] ([driver/rsdAllocation.cpp]): the table of levels and faces, and copies to
      and from rectangles: what is written is read back, and nothing else is changed.
    - [RsAllocation] ([rsAllocation.cpp]): creation, checked element access, packing of padded
      vectors, resizing, entry points.

    ** Launches

    - [CpuCore], [Workers], [Launch] ([cpu_ref/rsCpuCore.cpp], [cpu_ref/rsCpuScript.cpp],
      [rsSignal.cpp]): a launch is set up, divided into slices and run by the pool.  Every schedule
      ends, calls the callback for each slice exactly once, and leaves the memory that the plain
      loop leaves; the cells handed to the kernel lie inside the allocations.
    - [ScriptGroup] ([rsScriptGroup.cpp], [cpu_ref/rsCpuScriptGroup.cpp]): kernels linked by
      allocations run in the order of their links.

    ** Intrinsics and run-time library

    - [Transform], [Idct], [Dct], [Adst], with [Affine] and [RoundTrip] ([driver/runtime/rs_*.c]):
      the block transforms, written once over an interface of arithmetic that is read as integers,
      as checked integers, as intervals and as linear forms: freedom from overflow, the short cuts
      against the whole transform, forward and inverse against each other.
    - [LoopFilter], [LoopPasses], [Wavefront], [LoopRows] ([cpu_ref/rsCpuIntrinsicLoopFilter.cpp]):
      the VP9 loop filter, from one edge up to the threads that filter a frame: every schedule gives
      the frame that one thread gives.
    - [InterPred] ([cpu_ref/rsCpuIntrinsicInterPred.cpp], [cpu_ref/convolve/convolve.c]): whichever
      of the 32 functions is selected, a block gets the two-dimensional eight-tap prediction.
    - [Histogram] ([cpu_ref/rsCpuIntrinsicHistogram.cpp]): the output counts the pixels.
    - [Pixels] ([cpu_ref/rsCpuIntrinsicBlend.cpp] and its siblings for LUT, 3DLUT, YuvToRGB): the
      pixels of a row against the formulas, with the rounding errors.
    - [Matrix] ([rsMatrix*.cpp], [scriptc/rs_quaternion.rsh]): matrices, quaternions and frustum
      culling, for any scalars; the theorems are over the real numbers.
    - [FontCache] ([rsFont.cpp]): text drawn through the glyph cache is the text without one.

    ** Client and core

    - [RpcSpec] ([rsg_generator.c], [rs.spec]), [ThreadIO] ([rsThreadIO.cpp], [rsFifoSocket.cpp]):
      the generator of the stubs, and the machine that runs the generated statements: calls through
      the socket observe and do what direct calls would, and nobody waits in vain.
    - [Messages] ([rsThreadIO.cpp], [cpp/RenderScript.cpp]): messages to the client arrive whole.
    - [Client], [ClientIntrinsics], [ClientInit] ([cpp/*.cpp]): what the client library checks and
      sends.  After an error nothing more is written or launched; ranges are checked, sizes agree
      with those of the runtime; the table of entry points is complete and from one library.

    ** Link loader ([cpu_ref/linkloader/])

    - [ElfArchive], [ElfObject], [ElfReloc]: the structures of the file, objects in memory with their
      stubs and tables, relocation and the interface.  [Bits] decides equations between bit
      expressions.
    - [ElfInst], [ElfLoad], [ElfLink], [ElfArm], [ElfData], [ElfMips]: arbitrary bytes are read inside
      the buffer; a file is read back; relocated instructions hold the addresses they should, with
      calls through stubs, of which there are enough.

    ** Loops and their fuel

    Loops over a counter recurse on it.  The others take fuel, and running out is the fault
    [OutOfFuel], so that a theorem that ends in [Ok] shows that the fuel was enough.  Deletion has
    the number of references that exist, walks of the object list the square of the number of
    objects (each restart follows a deletion), element trees the identity of the root when written
    and the length of the data when read, the growth of a stream 64 doublings, mipmap levels 32
    halvings, the order of a group the number of its nodes, text the number of its glyphs.  Machines
    of threads have no fuel: that they end is a theorem about their steps.

    ** Parameters

    Code outside of the repository is an argument with its documented behaviour as hypotheses:
    FreeType and the UTF-8 decoder ([FontCache]), [mmap], [mprotect], the vendor's allocator and the
    symbol lookup of the caller ([ElfObject], [ElfReloc]), [dlopen] and [dlsym] ([ClientInit]), the
    sorting routine of the C++ library ([ScriptGroup]), compiled kernels ([Launch]), the readers and
    writers of classes of objects that have no model ([FileA3D]).  The implementations behind the
    stubs ([ThreadIO]) and the answers of the runtime to the client ([Client]) are arbitrary
    functions.  Witnesses instantiate them.

    ** Not modelled

    - OpenGL and windows ([driver/rsdGL.cpp], [rsProgram*.cpp], [rsFBOCache.cpp], ...): calls into
      libraries that are not in the repository, compiled out of the modelled build.
    - Float kernels (blur, convolution, colour matrix): rounding of floats has no model here; the
      coefficients that other kernels compute with floats are arguments.
    - Assembly variants of the intrinsics ([cpu_ref/rsCpuIntrinsics_neon_Blend.S] and the like).
    - Start-up of processes and threads, priorities, properties, timing, logging ([rsContext.cpp],
      [rsDevice.cpp]), and the loading of bitcode ([cpu_ref/rsCpuScript.cpp]): I/O or third-party
      code.
    - Text generators of the build ([api/gen_runtime.cpp]).

    This file: machine integers, the outcome monad and the generic lemmas every component
    shares. *)

From Stdlib Require Export ZArith Lia.
From stdpp Require Export base tactics numbers list gmap.

Open Scope Z_scope.

(** ** Machine integers

    A [w]-bit unsigned value is a [Z] in [0, 2^w); arithmetic wraps by [u8],
    [u16], [u32], [u64] exactly where the C++ code stores into, or computes
    at, that width.  Signed 32-bit values are wrapped by [s32], signed 16-bit
    ones by [s16]. *)

Definition wrap (w z : Z) : Z := z mod 2 ^ w.
Definition u8 (z : Z) : Z := wrap 8 z.
Definition u16 (z : Z) : Z := wrap 16 z.
Definition u32 (z : Z) : Z := wrap 32 z.
Definition u64 (z : Z) : Z := wrap 64 z.
Definition swrap (w z : Z) : Z := (z + 2 ^ (w - 1)) mod 2 ^ w - 2 ^ (w - 1).
Definition s16 (z : Z) : Z := swrap 16 z.
Definition s32 (z : Z) : Z := swrap 32 z.

Declare Scope rs_scope.
Delimit Scope rs_scope with rs.
Notation "a +u32 b" := (u32 (a + b)) (at level 50, left associativity) : rs_scope.
Notation "a -u32 b" := (u32 (a - b)) (at level 50, left associativity) : rs_scope.
Notation "a *u32 b" := (u32 (a * b)) (at level 40, left associativity) : rs_scope.
Notation "a +u64 b" := (u64 (a + b)) (at level 50, left associativity) : rs_scope.
Notation "a -u64 b" := (u64 (a - b)) (at level 50, left associativity) : rs_scope.
Notation "a *u64 b" := (u64 (a * b)) (at level 40, left associativity) : rs_scope.
Open Scope rs_scope.

Create HintDb rs discriminated.
Create Rewrite HintDb rs_wrap.

Lemma wrap_range w z : 0 <= w -> 0 <= wrap w z < 2 ^ w.
Proof. intros. apply Z.mod_pos_bound, Z.pow_pos_nonneg; lia. Qed.

Lemma wrap_small w z : 0 <= z < 2 ^ w -> wrap w z = z.
Proof. apply Z.mod_small. Qed.

Lemma u8_range z : 0 <= u8 z < 256.
Proof. apply (wrap_range 8); lia. Qed.
Lemma u16_range z : 0 <= u16 z < 65536.
Proof. apply (wrap_range 16); lia. Qed.
Lemma u32_range z : 0 <= u32 z < 4294967296.
Proof. apply (wrap_range 32); lia. Qed.
Lemma u64_range z : 0 <= u64 z < 18446744073709551616.
Proof. apply (wrap_range 64); lia. Qed.

Lemma u8_small z : 0 <= z < 256 -> u8 z = z.
Proof. apply (wrap_small 8). Qed.
Lemma u16_small z : 0 <= z < 65536 -> u16 z = z.
Proof. apply (wrap_small 16). Qed.
Lemma u32_small z : 0 <= z < 4294967296 -> u32 z = z.
Proof. apply (wrap_small 32). Qed.
Lemma u64_small z : 0 <= z < 18446744073709551616 -> u64 z = z.
Proof. apply (wrap_small 64). Qed.

Lemma s16_small z : -32768 <= z < 32768 -> s16 z = z.
Proof. intros. unfold s16, swrap. rewrite Z.mod_small; lia. Qed.
Lemma s32_small z : -2147483648 <= z < 2147483648 -> s32 z = z.
Proof. intros. unfold s32, swrap. rewrite Z.mod_small; lia. Qed.

#[export] Hint Resolve u8_range u16_range u32_range u64_range : rs.
#[export] Hint Rewrite u8_small u16_small u32_small u64_small s16_small s32_small
  using lia : rs_wrap.

(** [nowrap] removes every wrap whose argument [lia] bounds. *)
Ltac nowrap := autorewrite with rs_wrap.
Tactic Notation "nowrap" "in" hyp(H) := autorewrite with rs_wrap in H.

(** [wrapb] adds the range of every wrapped subterm to the context. *)
Ltac wrapb :=
  repeat match goal with
  | |- context [u8 ?z] => lazymatch goal with H : 0 <= u8 z < 256 |- _ => fail | _ => pose proof (u8_range z) end
  | |- context [u16 ?z] => lazymatch goal with H : 0 <= u16 z < 65536 |- _ => fail | _ => pose proof (u16_range z) end
  | |- context [u32 ?z] => lazymatch goal with H : 0 <= u32 z < 4294967296 |- _ => fail | _ => pose proof (u32_range z) end
  | |- context [u64 ?z] => lazymatch goal with H : 0 <= u64 z < 18446744073709551616 |- _ => fail | _ => pose proof (u64_range z) end
  end.

(** ** Outcomes

    Code whose C++ behaviour can be undefined or can fail to return is a
    function into [outcome]: [Fault] names what goes wrong. *)

Inductive fault :=
| OutOfBounds    (** a read or write outside the object it addresses *)
| NullDeref      (** a dereference of a null pointer *)
| UseAfterFree   (** an access to an object already deleted *)
| DivByZero      (** an integer division by zero *)
| Uninitialised  (** a value that was never written is used *)
| Overflow       (** a signed overflow or a shift by the width or more *)
| BadCast        (** an object used as an object of another class *)
| Overlap        (** a [memcpy] between overlapping ranges *)
| Aborted        (** [abort], or an assertion that fails *)
| OutOfFuel.     (** the fuel given to an unbounded loop ran out *)

Inductive outcome (A : Type) :=
| Ok (a : A)
| Fault (f : fault).
Arguments Ok {A} a.
Arguments Fault {A} f.

#[global] Instance fault_eq_dec : EqDecision fault.
Proof. solve_decision. Defined.

#[global] Instance outcome_ret : MRet outcome := fun A a => Ok a.
#[global] Instance outcome_bind : MBind outcome := fun A B k m =>
  match m with Ok a => k a | Fault f => Fault f end.
#[global] Instance outcome_fmap : FMap outcome := fun A B k m =>
  match m with Ok a => Ok (k a) | Fault f => Fault f end.
#[global] Instance Ok_inj {A} : Inj (=) (=) (@Ok A).
Proof. by intros x y [= ->]. Qed.

Lemma bind_Ok {A B} (m : outcome A) (k : A -> outcome B) b :
  (m ≫= k) = Ok b <-> exists a, m = Ok a /\ k a = Ok b.
Proof. destruct m; simpl; naive_solver. Qed.

Definition of_option {A} (f : fault) (o : option A) : outcome A :=
  match o with Some a => Ok a | None => Fault f end.

(** [fwd] unpacks hypotheses of the form [m ≫= k = Ok b]. *)
Ltac fwd :=
  repeat match goal with
  | H : (_ ≫= _) = Ok _ |- _ => apply bind_Ok in H as (? & ? & ?)
  | H : Ok _ = Ok _ |- _ => injection H as H; subst
  | H : Fault _ = Ok _ |- _ => discriminate H
  | H : exists _, _ |- _ => destruct H
  | H : _ /\ _ |- _ => destruct H
  end; simplify_eq/=.

(** ** Rounding up to a power of two with masks *)

Lemma land_mask_high w k x :
  0 <= k <= w -> 0 <= x < 2 ^ w ->
  Z.land x (wrap w (Z.lnot (2 ^ k - 1))) = x - x mod 2 ^ k.
Proof.
  intros Hk Hx.
  transitivity (Z.ldiff x (Z.ones k)).
  - apply Z.bits_inj'. intros n Hn. unfold wrap.
    rewrite Z.land_spec, Z.ldiff_spec.
    destruct (decide (n < w)).
    + rewrite Z.mod_pow2_bits_low, Z.lnot_spec, Z.ones_equiv by lia.
      by rewrite Z.sub_1_r.
    + assert (Z.testbit x n = false) as ->; [|done].
      rewrite <- (Z.mod_small x (2 ^ w)) by done.
      apply Z.mod_pow2_bits_high. lia.
  - rewrite Z.ldiff_ones_r, Z.shiftl_mul_pow2, Z.shiftr_div_pow2 by lia.
    pose proof (Z.div_mod x (2 ^ k)). nia.
Qed.

Lemma lor_shiftl_add k a b :
  0 <= k -> 0 <= a < 2 ^ k -> Z.lor a (Z.shiftl b k) = a + b * 2 ^ k.
Proof.
  intros Hk Ha. rewrite <- Z.shiftl_mul_pow2 by done. symmetry.
  apply Z.add_nocarry_lor, Z.bits_inj'. intros n Hn.
  rewrite Z.land_spec, Z.shiftl_spec, Z.bits_0 by done.
  destruct (decide (n < k)).
  - rewrite (Z.testbit_neg_r b) by lia. apply andb_false_r.
  - assert (Z.testbit a n = false) as ->; [|done].
    rewrite <- (Z.mod_small a (2 ^ k)) by done. apply Z.mod_pow2_bits_high. lia.
Qed.

(** The least multiple of [m] that is at least [p]. *)
Definition roundup (m p : Z) : Z := (p + (m - 1)) - (p + (m - 1)) mod m.

Lemma roundup_bounds m p : 0 < m -> p <= roundup m p < p + m.
Proof.
  intros. unfold roundup. pose proof (Z.mod_pos_bound (p + (m - 1)) m). lia.
Qed.

Lemma roundup_divide m p : 0 < m -> (m | roundup m p).
Proof.
  intros. unfold roundup. apply Z.mod_divide; [lia|].
  rewrite Zminus_mod, Zmod_mod, Z.sub_diag, Z.mod_0_l by lia. done.
Qed.

Lemma roundup_least m p q : 0 < m -> p <= q -> (m | q) -> roundup m p <= q.
Proof.
  intros Hm Hpq [c ->]. pose proof (roundup_bounds m p Hm) as Hb.
  destruct (roundup_divide m p Hm) as [d Hd]. rewrite Hd in *.
  apply Z.mul_le_mono_nonneg_r; [lia|].
  apply Z.lt_succ_r, (Z.mul_lt_mono_pos_r m); lia.
Qed.

Lemma roundup_id m p : 0 < m -> (m | p) -> roundup m p = p.
Proof.
  intros Hm Hd. pose proof (roundup_bounds m p Hm).
  pose proof (roundup_least m p p Hm ltac:(lia) Hd). lia.
Qed.

#[export] Hint Resolve roundup_bounds roundup_divide : rs.

(** ** Lists as arrays indexed by [Z] *)

Definition zlen {A} (l : list A) : Z := Z.of_nat (length l).

(** [l[i]]: a read outside the array is a fault. *)
Definition znth {A} (l : list A) (i : Z) : outcome A :=
  if decide (0 <= i < zlen l)
  then of_option OutOfBounds (l !! Z.to_nat i) else Fault OutOfBounds.

(** [l[i] = x]: a write outside the array is a fault. *)
Definition zset {A} (l : list A) (i : Z) (x : A) : outcome (list A) :=
  if decide (0 <= i < zlen l) then Ok (<[Z.to_nat i := x]> l) else Fault OutOfBounds.

(** [memcpy] of [n] cells out of an array, and into one. *)
Definition zread {A} (l : list A) (i n : Z) : outcome (list A) :=
  if decide (0 <= i /\ 0 <= n /\ i + n <= zlen l)
  then Ok (take (Z.to_nat n) (drop (Z.to_nat i) l)) else Fault OutOfBounds.

Definition zwrite {A} (l : list A) (i : Z) (src : list A) : outcome (list A) :=
  if decide (0 <= i /\ i + zlen src <= zlen l)
  then Ok (take (Z.to_nat i) l ++ src ++ drop (Z.to_nat (i + zlen src)) l)
  else Fault OutOfBounds.

Lemma zlen_nonneg {A} (l : list A) : 0 <= zlen l.
Proof. unfold zlen. lia. Qed.
Lemma zlen_app {A} (l k : list A) : zlen (l ++ k) = zlen l + zlen k.
Proof. unfold zlen. rewrite length_app. lia. Qed.
Lemma zlen_replicate {A} n (x : A) : 0 <= n -> zlen (replicate (Z.to_nat n) x) = n.
Proof. unfold zlen. rewrite length_replicate. lia. Qed.
#[export] Hint Resolve zlen_nonneg : rs.

Lemma znth_lookup {A} (l : list A) k x : l !! k = Some x -> znth l (Z.of_nat k) = Ok x.
Proof.
  intros Hk. pose proof (lookup_lt_Some _ _ _ Hk). unfold znth, zlen.
  rewrite decide_True, Nat2Z.id, Hk by lia. done.
Qed.

Lemma zset_Ok {A} (l : list A) (k : nat) x : (k < length l)%nat -> zset l (Z.of_nat k) x = Ok (<[k := x]> l).
Proof. intros Hk. unfold zset, zlen. by rewrite decide_True, Nat2Z.id by lia. Qed.

Lemma zwrite_Ok {A} (l : list A) i src :
  0 <= i -> i + zlen src <= zlen l -> exists l', zwrite l i src = Ok l'.
Proof. intros. unfold zwrite. rewrite decide_True by lia. eauto. Qed.

Lemma zwrite_length {A} (l l' : list A) i src : zwrite l i src = Ok l' -> zlen l' = zlen l.
Proof.
  unfold zwrite, zlen. case_decide as H; [|done]. intros [= <-].
  rewrite !length_app, length_take, length_drop. lia.
Qed.

Lemma zwrite_lookup_out {A} (l l' : list A) i src (j : nat) :
  zwrite l i src = Ok l' -> (Z.of_nat j < i \/ i + zlen src <= Z.of_nat j) -> l' !! j = l !! j.
Proof.
  unfold zwrite, zlen. case_decide as H; [|done]. intros [= <-] Hj.
  destruct Hj.
  - rewrite lookup_app_l by (rewrite length_take; lia). apply lookup_take_lt. lia.
  - rewrite lookup_app_r; rewrite length_take; [|lia].
    rewrite lookup_app_r by lia. rewrite lookup_drop. f_equal. lia.
Qed.

Lemma zwrite_lookup_in {A} (l l' : list A) i src (j : nat) :
  zwrite l i src = Ok l' -> i <= Z.of_nat j < i + zlen src ->
  l' !! j = src !! Z.to_nat (Z.of_nat j - i).
Proof.
  unfold zwrite, zlen. case_decide as H; [|done]. intros [= <-] Hj.
  rewrite lookup_app_r; rewrite length_take; [|lia].
  rewrite lookup_app_l by lia. f_equal. lia.
Qed.

Lemma zread_Ok {A} (l : list A) i n :
  0 <= i -> 0 <= n -> i + n <= zlen l ->
  exists r, zread l i n = Ok r /\ zlen r = n /\
    forall j : nat, Z.of_nat j < n -> r !! j = l !! Z.to_nat (i + Z.of_nat j).
Proof.
  intros. unfold zread. rewrite decide_True by lia. eexists. split; [done|].
  unfold zlen in *. split.
  - rewrite length_take, length_drop. lia.
  - intros j Hj. rewrite lookup_take_lt, lookup_drop by lia. f_equal. lia.
Qed.

(** ** Counting the indices below a bound that satisfy a test *)

Fixpoint cnt (f : nat -> bool) (n : nat) : nat :=
  match n with O => O | S n => (cnt f n + (if f n then 1 else 0))%nat end.

Lemma cnt_ext f g n : (forall i, (i < n)%nat -> f i = g i) -> cnt f n = cnt g n.
Proof. induction n as [|n IH]; intros H; [done|]. cbn. rewrite IH, H by auto with lia. done. Qed.

Lemma cnt_le f n : (cnt f n <= n)%nat.
Proof. induction n as [|n IH]; cbn; [lia|]. destruct (f n); lia. Qed.

Lemma cnt_zero f n i : cnt f n = O -> (i < n)%nat -> f i = false.
Proof.
  induction n as [|n IH]; cbn; [lia|]. destruct (f n) eqn:E; [lia|]. intros ? ?.
  destruct (decide (i = n)) as [->|]; [done|]. apply IH; lia.
Qed.

Lemma cnt_true f n : (forall i, (i < n)%nat -> f i = true) -> cnt f n = n.
Proof. induction n as [|n IH]; intros H; [done|]. cbn. rewrite IH, H by auto with lia. lia. Qed.

Lemma cnt_false f n : (forall i, (i < n)%nat -> f i = false) -> cnt f n = O.
Proof. induction n as [|n IH]; intros H; [done|]. cbn. rewrite IH, H by auto with lia. lia. Qed.

Lemma cnt_update f g n i :
  (i < n)%nat -> (forall k, k <> i -> f k = g k) ->
  (cnt f n + (if g i then 1 else 0) = cnt g n + (if f i then 1 else 0))%nat.
Proof.
  induction n as [|n IH]; intros Hi Hk; [lia|]. cbn. destruct (decide (i = n)) as [->|].
  - rewrite (cnt_ext f g n) by (intros; apply Hk; lia). lia.
  - rewrite (Hk n) by done. specialize (IH ltac:(lia) Hk). lia.
Qed.

Lemma concat_insert_perm {A B} (f : A -> list B) (l : list A) i x y :
  l !! i = Some x -> exists r, concat (f <$> l) ≡ₚ f x ++ r /\ concat (f <$> <[i := y]> l) ≡ₚ f y ++ r.
Proof.
  intros Hi. exists (concat (f <$> take i l) ++ concat (f <$> drop (S i) l)).
  rewrite insert_take_drop by (by eapply lookup_lt_Some). rewrite <- (take_drop_middle l i x Hi) at 1.
  rewrite !fmap_app, !concat_app. cbn. split; apply Permutation_app_swap_app.
Qed.

Lemma sum_list_with_insert {A} (f : A -> nat) (l : list A) i x y :
  l !! i = Some x -> (sum_list_with f (<[i := y]> l) + f x = sum_list_with f l + f y)%nat.
Proof.
  intros Hi. rewrite insert_take_drop by (by eapply lookup_lt_Some). rewrite <- (take_drop_middle l i x Hi) at 3.
  rewrite !sum_list_with_app. cbn. lia.
Qed.

(** ** Footprints

    A state is read through [look] at its locations; [footprint A f] says that the operation [f]
    reads and writes only locations in [A]. *)

Section footprint.
Context {S L V : Type} (look : S -> L -> V).

Definition footprint (A : L -> bool) (f : S -> S) : Prop :=
  (forall s l, A l = false -> look (f s) l = look s l) /\
  (forall s s', (forall l, A l = true -> look s l = look s' l) -> forall l, A l = true -> look (f s) l = look (f s') l).

Definition same_at : relation S := fun s s' => forall l, look s l = look s' l.
#[export] Instance same_at_equivalence : Equivalence same_at.
Proof. split; [intros s l|intros s s' H l|intros s s' s'' H H' l]; [done|by rewrite H|by rewrite H, H']. Qed.

Lemma footprint_id A : footprint A (fun s => s).
Proof. split; [done|]. intros s s' Hs l Hl. by apply Hs. Qed.

Lemma footprint_comp A f g : footprint A f -> footprint A g -> footprint A (fun s => g (f s)).
Proof. intros [F1 F2] [G1 G2]. split; [intros s l Hl; by rewrite G1, F1|]. intros s s' Hs l Hl. apply G2; [|done]. intros k Hk. by apply F2. Qed.

Lemma footprint_mono A B f : (forall l, A l = true -> B l = true) -> footprint A f -> footprint B f.
Proof.
  intros HAB [F1 F2]. split; [intros s l Hl; apply F1; destruct (A l) eqn:E; [|done]; by rewrite (HAB l E) in Hl|].
  intros s s' Hs l Hl. destruct (A l) eqn:E; [apply F2; [|done]; intros k Hk; apply Hs, HAB, Hk|]. rewrite !F1 by done. by apply Hs.
Qed.

Lemma footprint_ext A f g : (forall s l, look (f s) l = look (g s) l) -> footprint A f -> footprint A g.
Proof. intros Hfg [F1 F2]. split; [intros s l Hl; rewrite <- Hfg; by apply F1|]. intros s s' Hs l Hl. rewrite <- !Hfg. by apply F2. Qed.

Lemma footprint_proper A f : footprint A f -> Proper (same_at ==> same_at) f.
Proof. intros [F1 F2] s s' Hs l. destruct (A l) eqn:E; [|by rewrite !F1]. apply F2; [|done]. intros k _. apply Hs. Qed.

(** Operations with disjoint footprints commute. *)
Lemma footprint_comm A B f g s : (forall l, A l && B l = false) -> footprint A f -> footprint B g -> same_at (f (g s)) (g (f s)).
Proof.
  intros Hd [F1 F2] [G1 G2] l.
  assert (HA : forall l, A l = true -> B l = false) by (intros k Hk; specialize (Hd k); by rewrite Hk in Hd).
  destruct (A l) eqn:EA.
  - rewrite (G1 (f s)) by auto. apply F2; [|done]. intros k Hk. apply G1. auto.
  - rewrite F1 by done. destruct (B l) eqn:EB; [|by rewrite !G1, F1 by done]. apply G2; [|done]. intros k Hk. symmetry. apply F1. destruct (A k) eqn:E; [|done]. by rewrite (HA k E) in Hk.
Qed.

End footprint.
