(* ===== verification/CppUtils.v ===== *)
(** * CppUtils: the arithmetic helpers of [rsCppUtils.h]

    The templates are modelled at the types the runtime instantiates them
    with: [T] is an unsigned integer of [w] bits, and [w] is an argument where
    the result depends on it.  [rsRound] keeps the code's integer conversions:
    its mask [~(r - 1)] is an [unsigned int], so it is 32 bits wide whatever
    [T] is. *)

From S2P Require Import Prelude.

Module CppUtils.

(** ** Definitions *)

Definition rsMin (in1 in2 : Z) : Z := if in1 >? in2 then in2 else in1.

Definition rsMax (in1 in2 : Z) : Z := if in1 <? in2 then in2 else in1.

(** [while (val > 1) { bit++; val >>= 1; }]; a 64-bit value takes at most 63
    rounds, so 64 units of fuel never run out. *)
Fixpoint rsFindHighBit_loop (fuel : nat) (bit val : Z) : Z :=
  match fuel with
  | O => bit
  | S n => if val >? 1 then rsFindHighBit_loop n (bit + 1) (Z.shiftr val 1) else bit
  end.

Definition rsFindHighBit (val : Z) : Z := rsFindHighBit_loop 64 0 val.

Definition rsIsPow2 (w val : Z) : bool := Z.land val (wrap w (val - 1)) =? 0.

(** [1 << k] at type [int], converted to [uint32_t]. *)
Definition int_shl1 (k : Z) : outcome Z :=
  if k <? 32 then Ok (u32 (s32 (Z.shiftl 1 k))) else Fault Overflow.

Definition rsHigherPow2 (v : Z) : outcome Z :=
  if rsIsPow2 32 v then Ok v else int_shl1 (rsFindHighBit v + 1).

Definition rsLowerPow2 (v : Z) : outcome Z :=
  if rsIsPow2 32 v then Ok v else int_shl1 (rsFindHighBit v).

Definition rsRound (w v r : Z) : Z :=
  if negb (Z.land r (u32 (r - 1)) =? 0) then v
  else
    let res := wrap w (v + u32 (r - 1)) in
    if res <? v then v
    else Z.land res (u32 (Z.lnot (u32 (r - 1)))).

Definition rs888to565 (r g b : Z) : Z :=
  let t := 0 in
  let t := u16 (Z.lor t (Z.shiftr b 3)) in
  let t := u16 (Z.lor t (u32 (Z.shiftl (Z.shiftr g 2) 5))) in
  let t := u16 (Z.lor t (u32 (Z.shiftl (Z.shiftr r 3) 11))) in
  t.

Definition rsBoxFilter565 (i1 i2 i3 i4 : Z) : Z :=
  let r := Z.land i1 0x1f + Z.land i2 0x1f + Z.land i3 0x1f + Z.land i4 0x1f in
  let g := Z.land (Z.shiftr i1 5) 0x3f + Z.land (Z.shiftr i2 5) 0x3f
         + Z.land (Z.shiftr i3 5) 0x3f + Z.land (Z.shiftr i4 5) 0x3f in
  let b := Z.shiftr i1 11 + Z.shiftr i2 11 + Z.shiftr i3 11 + Z.shiftr i4 11 in
  u16 (Z.lor (Z.lor (Z.shiftr r 2) (u32 (Z.shiftl (Z.shiftr g 2) 5)))
             (u32 (Z.shiftl (Z.shiftr b 2) 11))).

Definition rsBoxFilter8888 (i1 i2 i3 i4 : Z) : Z :=
  let r := Z.land i1 0xff + Z.land i2 0xff + Z.land i3 0xff + Z.land i4 0xff in
  let g := Z.land (Z.shiftr i1 8) 0xff + Z.land (Z.shiftr i2 8) 0xff
         + Z.land (Z.shiftr i3 8) 0xff + Z.land (Z.shiftr i4 8) 0xff in
  let b := Z.land (Z.shiftr i1 16) 0xff + Z.land (Z.shiftr i2 16) 0xff
         + Z.land (Z.shiftr i3 16) 0xff + Z.land (Z.shiftr i4 16) 0xff in
  let a := Z.land (Z.shiftr i1 24) 0xff + Z.land (Z.shiftr i2 24) 0xff
         + Z.land (Z.shiftr i3 24) 0xff + Z.land (Z.shiftr i4 24) 0xff in
  Z.lor (Z.lor (Z.lor (Z.shiftr r 2) (u32 (Z.shiftl (Z.shiftr g 2) 8)))
               (u32 (Z.shiftl (Z.shiftr b 2) 16)))
        (u32 (Z.shiftl (Z.shiftr a 2) 24)).

(** ** Minimum and maximum *)

Lemma rsMin_spec a b : rsMin a b = Z.min a b.
Proof. unfold rsMin. destruct (Z.gtb_spec a b); lia. Qed.

Lemma rsMax_spec a b : rsMax a b = Z.max a b.
Proof. unfold rsMax. destruct (Z.ltb_spec a b); lia. Qed.

(** ** The highest bit is the base-2 logarithm *)

Lemma rsFindHighBit_loop_spec fuel bit val :
  0 <= val < 2 ^ Z.of_nat fuel -> rsFindHighBit_loop fuel bit val = bit + Z.log2 val.
Proof.
  revert bit val. induction fuel as [|n IH]; intros bit val Hv.
  { change (2 ^ Z.of_nat 0) with 1 in Hv. replace val with 0 by lia. simpl. lia. }
  cbn [rsFindHighBit_loop]. destruct (Z.gtb_spec val 1).
  - rewrite IH.
    + rewrite Z.log2_shiftr by lia. pose proof (Z.log2_le_mono 2 val).
      change (Z.log2 2) with 1 in *. lia.
    + rewrite Z.shiftr_div_pow2 by lia. change (2 ^ 1) with 2.
      rewrite Nat2Z.inj_succ, Z.pow_succ_r in Hv by lia.
      split; [apply Z.div_pos; lia|]. apply Z.div_lt_upper_bound; lia.
  - assert (val = 0 \/ val = 1) as [-> | ->] by lia; simpl; lia.
Qed.

Lemma rsFindHighBit_log2 val : 0 <= val < 2 ^ 64 -> rsFindHighBit val = Z.log2 val.
Proof. intros. unfold rsFindHighBit. rewrite rsFindHighBit_loop_spec; lia. Qed.

(** ** Powers of two *)

Lemma land_pred_pow2 v : 0 < v -> Z.land v (v - 1) = 0 <-> v = 2 ^ Z.log2 v.
Proof.
  intros Hv. pose proof (Z.log2_spec v Hv) as [Hlo Hhi].
  pose proof (Z.log2_nonneg v). split; intros Hl.
  - destruct (decide (v = 2 ^ Z.log2 v)) as [|Hne]; [done|exfalso].
    assert (Hb : Z.testbit (Z.land v (v - 1)) (Z.log2 v) = true).
    { rewrite Z.land_spec, Z.bit_log2 by done. cbn.
      replace (Z.log2 v) with (Z.log2 (v - 1)); [apply Z.bit_log2; lia|].
      apply Z.log2_unique; [done|]. lia. }
    rewrite Hl, Z.bits_0 in Hb. done.
  - rewrite Hl at 1 2.
    replace (2 ^ Z.log2 v - 1) with (Z.ones (Z.log2 v)) by (rewrite Z.ones_equiv; lia).
    rewrite Z.land_ones, Z.mod_same; [done|lia|done].
Qed.

Lemma rsIsPow2_spec w v :
  0 < w -> 0 < v < 2 ^ w -> rsIsPow2 w v = true <-> v = 2 ^ Z.log2 v.
Proof.
  intros Hw Hv. unfold rsIsPow2. rewrite wrap_small by lia.
  rewrite Z.eqb_eq. apply land_pred_pow2. lia.
Qed.

Lemma int_shl1_Ok k : 0 <= k < 32 -> int_shl1 k = Ok (2 ^ k).
Proof.
  intros Hk. unfold int_shl1. destruct (Z.ltb_spec k 32); [|lia].
  rewrite Z.shiftl_1_l. f_equal. destruct (decide (k = 31)) as [->|]; [done|].
  pose proof (Z.pow_lt_mono_r 2 k 31). pose proof (Z.pow_pos_nonneg 2 k).
  rewrite s32_small, u32_small by lia. done.
Qed.

(** [rsHigherPow2] rounds up to the least power of two, up to [2^31]. *)
Lemma rsHigherPow2_least v :
  0 < v <= 2 ^ 31 -> exists k, 0 <= k /\ rsHigherPow2 v = Ok (2 ^ k) /\ v <= 2 ^ k /\
    (forall j, 0 <= j -> v <= 2 ^ j -> 2 ^ k <= 2 ^ j).
Proof.
  intros Hv. unfold rsHigherPow2. pose proof (Z.log2_nonneg v).
  pose proof (Z.log2_spec v) as Hlog. destruct (rsIsPow2 32 v) eqn:E.
  - apply rsIsPow2_spec in E; [|lia..]. exists (Z.log2 v).
    rewrite <- E. split_and!; [lia|done|lia|]. intros j Hj Hle. lia.
  - assert (Hne : v <> 2 ^ Z.log2 v) by (rewrite <- (rsIsPow2_spec 32) by lia; congruence).
    rewrite rsFindHighBit_log2 by lia.
    assert (Z.log2 v < 31) by (apply (Z.pow_lt_mono_r_iff 2); lia).
    exists (Z.log2 v + 1). rewrite int_shl1_Ok by lia.
    split_and!; [lia|done|rewrite Z.add_1_r; lia|]. intros j Hj Hle.
    apply Z.pow_le_mono_r; [lia|].
    assert (Z.log2 v < j); [|lia]. apply (Z.pow_lt_mono_r_iff 2); lia.
Qed.

(** Above [2^31] the code shifts an [int] by its width. *)
Lemma rsHigherPow2_overflow v : 2 ^ 31 < v < 2 ^ 32 -> rsHigherPow2 v = Fault Overflow.
Proof.
  intros Hv. unfold rsHigherPow2.
  assert (Hl : Z.log2 v = 31) by (apply Z.log2_unique; lia).
  destruct (rsIsPow2 32 v) eqn:E.
  - apply rsIsPow2_spec in E; [|lia..]. rewrite Hl in E. lia.
  - rewrite rsFindHighBit_log2, Hl by lia. done.
Qed.

(** [rsLowerPow2] rounds down to the greatest power of two. *)
Lemma rsLowerPow2_greatest v :
  0 < v < 2 ^ 32 -> rsLowerPow2 v = Ok (2 ^ Z.log2 v) /\ 2 ^ Z.log2 v <= v < 2 * 2 ^ Z.log2 v.
Proof.
  intros Hv. pose proof (Z.log2_spec v). pose proof (Z.log2_nonneg v).
  rewrite <- Z.pow_succ_r by lia. split; [|lia]. unfold rsLowerPow2.
  destruct (rsIsPow2 32 v) eqn:E.
  - apply rsIsPow2_spec in E; [|lia..]. by rewrite <- E.
  - rewrite rsFindHighBit_log2, int_shl1_Ok; [done| |lia].
    split; [lia|]. apply (Z.pow_lt_mono_r_iff 2); lia.
Qed.

(** ** Rounding up *)

Lemma rsRound_roundup w k v :
  32 <= w -> 0 <= k < 32 -> 0 <= v -> v + 2 ^ k - 1 < 2 ^ 32 ->
  rsRound w v (2 ^ k) = roundup (2 ^ k) v.
Proof.
  intros Hw Hk Hv Hmax. unfold rsRound.
  assert (Hpk : 0 < 2 ^ k < 2 ^ 32)
    by (split; [apply Z.pow_pos_nonneg; lia|apply Z.pow_lt_mono_r; lia]).
  pose proof (Z.pow_le_mono_r 2 32 w). rewrite (u32_small (2 ^ k - 1)) by lia.
  rewrite (proj2 (land_pred_pow2 (2 ^ k) ltac:(lia))) by (by rewrite Z.log2_pow2 by lia).
  cbn [Z.eqb negb]. rewrite wrap_small by lia.
  destruct (Z.ltb_spec (v + (2 ^ k - 1)) v); [lia|].
  unfold u32. rewrite land_mask_high by lia. unfold roundup. lia.
Qed.

(** On a 64-bit [size_t] the 32-bit mask clears the high half of the sum. *)
Lemma rsRound64_truncates k v :
  0 <= k < 32 -> 2 ^ 32 <= v -> v + 2 ^ k - 1 < 2 ^ 64 ->
  rsRound 64 v (2 ^ k) < 2 ^ 32.
Proof.
  intros Hk Hv Hmax. unfold rsRound.
  assert (Hpk : 0 < 2 ^ k < 2 ^ 32)
    by (split; [apply Z.pow_pos_nonneg; lia|apply Z.pow_lt_mono_r; lia]).
  rewrite (u32_small (2 ^ k - 1)) by lia.
  rewrite (proj2 (land_pred_pow2 (2 ^ k) ltac:(lia))) by (by rewrite Z.log2_pow2 by lia).
  cbn [Z.eqb negb]. rewrite wrap_small by lia.
  destruct (Z.ltb_spec (v + (2 ^ k - 1)) v); [lia|].
  set (m := u32 _). pose proof (u32_range (Z.lnot (2 ^ k - 1))).
  pose proof (Z.land_nonneg (v + (2 ^ k - 1)) m).
  rewrite <- (u32_small m) by (unfold m; lia). unfold u32 at 1, wrap.
  rewrite <- Z.land_ones, Z.land_assoc, Z.land_ones by lia.
  apply Z.mod_pos_bound. lia.
Qed.

(** ** Pixel packing *)

(** The bits [k .. k+n) of [x], as a number. *)
Definition field (x k n : Z) : Z := (x / 2 ^ k) mod 2 ^ n.

Lemma field_range x k n : 0 <= n -> 0 <= field x k n < 2 ^ n.
Proof. intros. apply Z.mod_pos_bound, Z.pow_pos_nonneg; lia. Qed.

Lemma land_field x k n m : 0 <= k -> 0 <= n -> m = Z.ones n -> Z.land (Z.shiftr x k) m = field x k n.
Proof. intros ? ? ->. unfold field. by rewrite Z.land_ones, Z.shiftr_div_pow2. Qed.

Lemma land_field0 x n m : 0 <= n -> m = Z.ones n -> Z.land x m = field x 0 n.
Proof. intros ? ->. unfold field. by rewrite Z.div_1_r, Z.land_ones. Qed.

(** The floor of the average of four [n]-bit numbers is an [n]-bit number. *)
Lemma average4_range n a b c d :
  0 <= a < n -> 0 <= b < n -> 0 <= c < n -> 0 <= d < n -> 0 <= Z.shiftr (a + b + c + d) 2 < n.
Proof.
  intros. rewrite Z.shiftr_div_pow2 by lia.
  split; [apply Z.div_pos; lia|apply Z.div_lt_upper_bound; lia].
Qed.

Definition average4 (k n i1 i2 i3 i4 : Z) : Z :=
  Z.shiftr (field i1 k n + field i2 k n + field i3 k n + field i4 k n) 2.

Lemma average4_bound k n i1 i2 i3 i4 : 0 <= n -> 0 <= average4 k n i1 i2 i3 i4 < 2 ^ n.
Proof. intros. apply average4_range; by apply field_range. Qed.

Lemma average4_div k n i1 i2 i3 i4 :
  average4 k n i1 i2 i3 i4 = (field i1 k n + field i2 k n + field i3 k n + field i4 k n) / 4.
Proof. unfold average4. by rewrite Z.shiftr_div_pow2. Qed.

(** Four bytes packed with shifts and ors are read back field by field. *)
Lemma pack8888_fields r g b a :
  0 <= r < 256 -> 0 <= g < 256 -> 0 <= b < 256 -> 0 <= a < 256 ->
  let p := Z.lor (Z.lor (Z.lor r (u32 (Z.shiftl g 8))) (u32 (Z.shiftl b 16)))
                 (u32 (Z.shiftl a 24)) in
  field p 0 8 = r /\ field p 8 8 = g /\ field p 16 8 = b /\ field p 24 8 = a.
Proof.
  intros Hr Hg Hb Ha p. subst p.
  rewrite !(u32_small (Z.shiftl _ _)) by (rewrite Z.shiftl_mul_pow2; lia).
  rewrite (lor_shiftl_add 8), (lor_shiftl_add 16), (lor_shiftl_add 24) by lia.
  unfold field. split_and!; Z.to_euclidean_division_equations; lia.
Qed.

Lemma pack565_fields r g b :
  0 <= r < 32 -> 0 <= g < 64 -> 0 <= b < 32 ->
  let p := u16 (Z.lor (Z.lor r (u32 (Z.shiftl g 5))) (u32 (Z.shiftl b 11))) in
  field p 0 5 = r /\ field p 5 6 = g /\ field p 11 5 = b.
Proof.
  intros Hr Hg Hb p. subst p.
  rewrite !(u32_small (Z.shiftl _ _)) by (rewrite Z.shiftl_mul_pow2; lia).
  rewrite (lor_shiftl_add 5), (lor_shiftl_add 11) by lia. nowrap.
  unfold field. split_and!; Z.to_euclidean_division_equations; lia.
Qed.

Lemma rsBoxFilter8888_fields i1 i2 i3 i4 k :
  k ∈ [0; 8; 16; 24] ->
  field (rsBoxFilter8888 i1 i2 i3 i4) k 8 =
    (field i1 k 8 + field i2 k 8 + field i3 k 8 + field i4 k 8) / 4.
Proof.
  intros Hk. rewrite <- average4_div. unfold rsBoxFilter8888.
  rewrite !(land_field _ _ 8), !(land_field0 _ 8) by (lia || done).
  change (Z.shiftr (field i1 ?k 8 + _ + _ + _) 2) with (average4 k 8 i1 i2 i3 i4).
  destruct (pack8888_fields (average4 0 8 i1 i2 i3 i4) (average4 8 8 i1 i2 i3 i4)
    (average4 16 8 i1 i2 i3 i4) (average4 24 8 i1 i2 i3 i4)) as (E0 & E8 & E16 & E24);
    [by apply (average4_bound _ 8)..|].
  rewrite !elem_of_cons, elem_of_nil in Hk.
  destruct Hk as [->|[->|[->|[->|[]]]]]; done.
Qed.

Lemma shiftr_field x k n : 0 <= k -> 0 <= n -> 0 <= x < 2 ^ (k + n) -> Z.shiftr x k = field x k n.
Proof.
  intros Hk Hn Hx. unfold field. rewrite Z.shiftr_div_pow2 by lia. symmetry. apply Z.mod_small.
  rewrite Z.pow_add_r in Hx by lia. pose proof (Z.pow_pos_nonneg 2 k).
  split; [apply Z.div_pos; lia|apply Z.div_lt_upper_bound; lia].
Qed.

Lemma rsBoxFilter565_fields i1 i2 i3 i4 k n :
  0 <= i1 < 65536 -> 0 <= i2 < 65536 -> 0 <= i3 < 65536 -> 0 <= i4 < 65536 ->
  (k, n) ∈ [(0, 5); (5, 6); (11, 5)] ->
  field (rsBoxFilter565 i1 i2 i3 i4) k n =
    (field i1 k n + field i2 k n + field i3 k n + field i4 k n) / 4.
Proof.
  intros H1 H2 H3 H4 Hk. rewrite <- average4_div. unfold rsBoxFilter565.
  rewrite !(land_field _ _ 6), !(land_field0 _ 5) by (lia || done).
  rewrite (shiftr_field i1 11 5), (shiftr_field i2 11 5), (shiftr_field i3 11 5),
    (shiftr_field i4 11 5) by lia.
  destruct (pack565_fields (average4 0 5 i1 i2 i3 i4) (average4 5 6 i1 i2 i3 i4)
    (average4 11 5 i1 i2 i3 i4)) as (E0 & E5 & E11);
    [by apply (average4_bound _ 5)|by apply (average4_bound _ 6)|by apply (average4_bound _ 5)|].
  rewrite !elem_of_cons, elem_of_nil in Hk.
  destruct Hk as [[= -> ->]|[[= -> ->]|[[= -> ->]|[]]]]; done.
Qed.

(** [rs888to565] keeps the high bits of each channel. *)
Lemma rs888to565_fields r g b :
  0 <= r < 256 -> 0 <= g < 256 -> 0 <= b < 256 ->
  field (rs888to565 r g b) 0 5 = b / 8 /\ field (rs888to565 r g b) 5 6 = g / 4 /\
  field (rs888to565 r g b) 11 5 = r / 8.
Proof.
  intros Hr Hg Hb. unfold rs888to565.
  rewrite Z.lor_0_l, !Z.shiftr_div_pow2 by lia. change (2 ^ 3) with 8. change (2 ^ 2) with 4.
  assert (0 <= b / 8 < 32 /\ 0 <= g / 4 < 64 /\ 0 <= r / 8 < 32) as (? & ? & ?)
    by (Z.to_euclidean_division_equations; lia).
  rewrite (u16_small (b / 8)) by lia.
  rewrite (u16_small (Z.lor (b / 8) _)).
  - by apply pack565_fields.
  - rewrite u32_small by (rewrite Z.shiftl_mul_pow2; lia). rewrite lor_shiftl_add; lia.
Qed.

(** ** What callers rely on *)

(** [rsRound] rounds up to the least multiple of a power of two, in a 32-bit
    and in a 64-bit type, as long as the sum fits in 32 bits. *)
Theorem rsRound_least_multiple (w k v : Z) :
  32 <= w -> 0 <= k < 32 -> 0 <= v -> v + 2 ^ k - 1 < 2 ^ 32 ->
  (2 ^ k | rsRound w v (2 ^ k)) /\ v <= rsRound w v (2 ^ k) /\
  forall m, v <= m -> (2 ^ k | m) -> rsRound w v (2 ^ k) <= m.
Proof.
  intros Hw Hk Hv Hmax. rewrite rsRound_roundup by done.
  pose proof (Z.pow_pos_nonneg 2 k ltac:(lia) ltac:(lia)) as Hpos.
  split_and!; [by apply roundup_divide|apply roundup_bounds; lia|].
  intros m Hm Hd. by apply roundup_least.
Qed.

Lemma rsRound_least_multiple_witness :
  (2 ^ 4 | rsRound 64 33 (2 ^ 4)) /\ 33 <= rsRound 64 33 (2 ^ 4) /\
  forall m, 33 <= m -> (2 ^ 4 | m) -> rsRound 64 33 (2 ^ 4) <= m.
Proof. apply (rsRound_least_multiple 64 4 33); lia. Defined.

(** the mask of [rsRound] is a 32-bit value: on a [size_t] of 4 GiB or more the
    result loses its upper half and is smaller than the argument. *)
Theorem rsRound_drops_high_half (k v : Z) :
  0 <= k < 32 -> 2 ^ 32 <= v -> v + 2 ^ k - 1 < 2 ^ 64 -> rsRound 64 v (2 ^ k) < v.
Proof. intros Hk Hv Hmax. pose proof (rsRound64_truncates k v Hk Hv Hmax). lia. Qed.

Lemma rsRound_drops_high_half_witness : rsRound 64 (2 ^ 32 + 5) (2 ^ 4) < 2 ^ 32 + 5.
Proof. apply (rsRound_drops_high_half 4 (2 ^ 32 + 5)); lia. Defined.

(** [rsHigherPow2] returns the least power of two that is not smaller, up to
    [2^31]; beyond, it shifts an [int] by 32. *)
Theorem rsHigherPow2_rounds (v : Z) :
  0 < v < 2 ^ 32 ->
  if v <=? 2 ^ 31 then
    exists k, 0 <= k /\ rsHigherPow2 v = Ok (2 ^ k) /\ v <= 2 ^ k /\
      (forall j, 0 <= j -> v <= 2 ^ j -> 2 ^ k <= 2 ^ j)
  else rsHigherPow2 v = Fault Overflow.
Proof.
  intros Hv. destruct (Z.leb_spec v (2 ^ 31)); [apply rsHigherPow2_least|apply rsHigherPow2_overflow]; lia.
Qed.

Lemma rsHigherPow2_rounds_witness : rsHigherPow2 (2 ^ 31 + 1) = Fault Overflow.
Proof. apply (rsHigherPow2_rounds (2 ^ 31 + 1)). lia. Defined.

(** the box filters that build a mip level average every channel of the four
    texels, for 8888 and for 565 pixels, without carries between channels. *)
Theorem box_filters_average :
  (forall i1 i2 i3 i4 k, k ∈ [0; 8; 16; 24] ->
    field (rsBoxFilter8888 i1 i2 i3 i4) k 8 = (field i1 k 8 + field i2 k 8 + field i3 k 8 + field i4 k 8) / 4) /\
  (forall i1 i2 i3 i4 k n,
    0 <= i1 < 65536 -> 0 <= i2 < 65536 -> 0 <= i3 < 65536 -> 0 <= i4 < 65536 ->
    (k, n) ∈ [(0, 5); (5, 6); (11, 5)] ->
    field (rsBoxFilter565 i1 i2 i3 i4) k n = (field i1 k n + field i2 k n + field i3 k n + field i4 k n) / 4).
Proof. split; intros; [by apply rsBoxFilter8888_fields|by apply rsBoxFilter565_fields]. Qed.

End CppUtils.
