(* ===== verification/Stream.v ===== *)
(** * Stream: the byte streams of [rsStream.h] and [rsStream.cpp]

    [OStream] is a growable buffer.  Its cells are [option Z]: [None] is a byte
    that [malloc] returned and nobody has written yet (the gaps that alignment
    leaves are such bytes).  [IStream] reads a buffer of bytes it does not know
    the length of; the model knows the length and turns a read past the end
    into a fault.  [uint64_t] positions wrap at 64 bits.  Floats are carried as
    their 32-bit pattern.  The host is little-endian, as on every Android ABI:
    [IStream] reads integers in host order and [OStream] writes them byte by
    byte in little-endian order. *)

From S2P Require Import Prelude.

Module Stream.

Abbreviation cell := (option Z).

(** A C string is the list of its bytes before the terminator. *)
Abbreviation cstr := (list Z).

(** What [strlen] and [strcmp] see of a buffer: the bytes before the first 0. *)
Fixpoint cstr_of (buf : list Z) : cstr :=
  match buf with
  | [] => []
  | b :: rest => if b =? 0 then [] else b :: cstr_of rest
  end.

Definition strlen (s : cstr) : Z := zlen s.

(** [new char[len + 1]], [memcpy] of [len] bytes, terminator. *)
Definition rsuCopyString (buf : list Z) (len : Z) : outcome cstr :=
  bs ← zread buf 0 len; Ok (cstr_of bs).

Lemma cstr_of_prefix buf : take (length (cstr_of buf)) buf = cstr_of buf.
Proof. induction buf as [|b r IH]; cbn; [done|]. destruct (b =? 0); cbn; [done|by rewrite IH]. Qed.

Lemma cstr_of_again buf : cstr_of (cstr_of buf) = cstr_of buf.
Proof. induction buf as [|b r IH]; cbn; [done|]. destruct (b =? 0) eqn:E; cbn; [done|by rewrite E, IH]. Qed.

Lemma rsuCopyString_whole buf : rsuCopyString buf (strlen (cstr_of buf)) = Ok (cstr_of buf).
Proof.
  pose proof (f_equal length (cstr_of_prefix buf)) as Hl. rewrite length_take in Hl.
  unfold rsuCopyString, zread, strlen, zlen. rewrite decide_True by lia. cbn.
  by rewrite drop_0, Nat2Z.id, cstr_of_prefix, cstr_of_again.
Qed.

(** ** Output stream *)

Record OStream := mkOStream {
  o_mData : list cell;
  o_mLength : Z;
  o_mPos : Z;
  o_mUse64 : bool
}.

Definition OStream_new (len : Z) (use64 : bool) : OStream :=
  mkOStream (replicate (Z.to_nat len) None) len 0 use64.

Definition o_set_pos (s : OStream) (p : Z) : OStream :=
  mkOStream (o_mData s) (o_mLength s) p (o_mUse64 s).

Definition growSize (s : OStream) : outcome OStream :=
  let newLength := o_mLength s *u64 2 in
  old ← zread (o_mData s) 0 (o_mLength s);
  newData ← zwrite (replicate (Z.to_nat newLength) None) 0 old;
  Ok (mkOStream newData newLength (o_mPos s) (o_mUse64 s)).

(** [mData[mPos++] = b], once for each byte of [bs]. *)
Definition o_put (s : OStream) (bs : list cell) : outcome OStream :=
  data ← zwrite (o_mData s) (o_mPos s) bs;
  Ok (mkOStream data (o_mLength s) (o_mPos s +u64 zlen bs) (o_mUse64 s)).

Definition grow_if (b : bool) (s : OStream) : outcome OStream :=
  if b then growSize s else Ok s.

(** The mask [~(bytes - 1)] is a [uint32_t]. *)
Definition align (bytes : Z) (s : OStream) : outcome OStream :=
  let s := o_set_pos s (Z.land (o_mPos s +u64 (bytes -u32 1)) (u32 (Z.lnot (bytes -u32 1)))) in
  grow_if (o_mPos s >=? o_mLength s) s.

Definition byte_at (v k : Z) : cell := Some (Z.land (Z.shiftr v k) 0xff).
Definition le32 (v : Z) : list cell := [Some (Z.land v 0xff); byte_at v 8; byte_at v 16; byte_at v 24].
Definition le64 (v : Z) : list cell :=
  [Some (Z.land v 0xff); byte_at v 8; byte_at v 16; byte_at v 24;
   byte_at v 32; byte_at v 40; byte_at v 48; byte_at v 56].

Definition addI32 (v : Z) (s : OStream) : outcome OStream :=
  let s := o_set_pos s (Z.land (o_mPos s +u64 3) (u64 (Z.lnot 3))) in
  s ← grow_if (o_mPos s +u64 4 >=? o_mLength s) s;
  o_put s (le32 v).

Definition addU32 (v : Z) (s : OStream) : outcome OStream :=
  let v := u32 v in
  let s := o_set_pos s (Z.land (o_mPos s +u64 3) (u64 (Z.lnot 3))) in
  s ← grow_if (o_mPos s +u64 4 >=? o_mLength s) s;
  o_put s (le32 v).

Definition addF (bits : Z) (s : OStream) : outcome OStream := addU32 bits s.

Definition addU16 (v : Z) (s : OStream) : outcome OStream :=
  let v := u16 v in
  let s := o_set_pos s (Z.land (o_mPos s +u64 1) (u64 (Z.lnot 1))) in
  s ← grow_if (o_mPos s +u64 2 >=? o_mLength s) s;
  o_put s [Some (Z.land v 0xff); Some (u8 (Z.shiftr v 8))].

Definition addU8 (v : Z) (s : OStream) : outcome OStream :=
  s ← grow_if (o_mPos s +u64 1 >=? o_mLength s) s;
  o_put s [Some (u8 v)].

(** [while (mPos + numBytes >= mLength) growSize();] with at most [fuel] rounds. *)
Fixpoint grow_while (fuel : nat) (numBytes : Z) (s : OStream) : outcome OStream :=
  if o_mPos s +u64 numBytes >=? o_mLength s then
    match fuel with
    | O => Fault OutOfFuel
    | S n => s ← growSize s; grow_while n numBytes s
    end
  else Ok s.

(** The capacity doubles in each round, so 64 rounds take any positive
    capacity past every 64-bit position. *)
Definition addByteArray (src : list cell) (numBytes : Z) (s : OStream) : outcome OStream :=
  s ← grow_while 64 numBytes s;
  bs ← zread src 0 numBytes;
  o_put s bs.

Definition addOffset (v : Z) (s : OStream) : outcome OStream :=
  if o_mUse64 s then
    let s := o_set_pos s (Z.land (o_mPos s +u64 7) (u64 (Z.lnot 7))) in
    s ← grow_if (o_mPos s +u64 8 >=? o_mLength s) s;
    o_put s (le64 v)
  else addU32 v s.

Definition addString_len (str : list Z) (len : Z) (s : OStream) : outcome OStream :=
  s ← addU32 len s;
  s ← grow_if (o_mPos s +u64 len >=? o_mLength s) s;
  bs ← zread str 0 len;
  o_put s (Some <$> bs).

Definition addString (str : cstr) (s : OStream) : outcome OStream :=
  addString_len str (strlen str) s.

Definition o_reset (pos : Z) (s : OStream) : OStream := o_set_pos s pos.

(** ** Input stream *)

Record IStream := mkIStream {
  i_mData : list Z;
  i_mPos : Z;
  i_mUse64 : bool
}.

Definition IStream_new (buf : list Z) (use64 : bool) : IStream := mkIStream buf 0 use64.

Definition i_set_pos (s : IStream) (p : Z) : IStream := mkIStream (i_mData s) p (i_mUse64 s).

(** The little-endian value of a list of bytes. *)
Fixpoint le_val (bs : list Z) : Z :=
  match bs with [] => 0 | b :: rest => b + 256 * le_val rest end.

Definition load_raw (n : Z) (s : IStream) : outcome (Z * IStream) :=
  bs ← zread (i_mData s) (i_mPos s) n;
  Ok (le_val bs, i_set_pos s (i_mPos s +u64 n)).

Definition loadU32 (s : IStream) : outcome (Z * IStream) :=
  load_raw 4 (i_set_pos s (Z.land (i_mPos s +u64 3) (u64 (Z.lnot 3)))).

Definition loadI32 (s : IStream) : outcome (Z * IStream) :=
  '(v, s) ← load_raw 4 (i_set_pos s (Z.land (i_mPos s +u64 3) (u64 (Z.lnot 3))));
  Ok (s32 v, s).

Definition loadF (s : IStream) : outcome (Z * IStream) :=
  load_raw 4 (i_set_pos s (Z.land (i_mPos s +u64 3) (u64 (Z.lnot 3)))).

Definition loadU16 (s : IStream) : outcome (Z * IStream) :=
  load_raw 2 (i_set_pos s (Z.land (i_mPos s +u64 1) (u64 (Z.lnot 1)))).

Definition loadU8 (s : IStream) : outcome (Z * IStream) := load_raw 1 s.

Definition loadByteArray (numBytes : Z) (s : IStream) : outcome (list Z * IStream) :=
  bs ← zread (i_mData s) (i_mPos s) numBytes;
  Ok (bs, i_set_pos s (i_mPos s +u64 numBytes)).

Definition loadOffset (s : IStream) : outcome (Z * IStream) :=
  if i_mUse64 s then load_raw 8 (i_set_pos s (Z.land (i_mPos s +u64 7) (u64 (Z.lnot 7))))
  else loadU32 s.

Definition loadString (s : IStream) : outcome (cstr * IStream) :=
  '(len, s) ← loadU32 s;
  str ← rsuCopyString (drop (Z.to_nat (i_mPos s)) (i_mData s)) len;
  Ok (str, i_set_pos s (i_mPos s +u64 len)).

Definition i_reset (pos : Z) (s : IStream) : IStream := i_set_pos s pos.

(** ** Well-formed output streams *)

(** [C] is the capacity the stream was created with: capacities only grow. *)
Record ostream_wf (C : Z) (s : OStream) : Prop := {
  wf_length : zlen (o_mData s) = o_mLength s;
  wf_capacity : C <= o_mLength s <= 2 ^ 33;
  wf_pos : 0 <= o_mPos s < o_mLength s
}.

(** [s'] continues [s]: everything written before the position of [s] is kept. *)
Record extends (s s' : OStream) : Prop := {
  ext_pos : o_mPos s <= o_mPos s';
  ext_use64 : o_mUse64 s' = o_mUse64 s;
  ext_data : forall j : nat, Z.of_nat j < o_mPos s -> o_mData s' !! j = o_mData s !! j
}.

(** [bytes] is a possible content of the buffer up to the position: it agrees
    with every byte that was written and is arbitrary on the others. *)
Record refines (s : OStream) (bytes : list Z) : Prop := {
  ref_length : o_mPos s <= zlen bytes;
  ref_data : forall (j : nat) b, Z.of_nat j < o_mPos s -> o_mData s !! j = Some (Some b) -> bytes !! j = Some b
}.

#[global] Instance extends_preorder : PreOrder extends.
Proof.
  split.
  - intros s. by split.
  - intros s1 s2 s3 [p1 u1 d1] [p2 u2 d2]. split; [lia|congruence|].
    intros j Hj. rewrite d2 by lia. by apply d1.
Qed.

Lemma refines_extends s s' bytes : extends s s' -> refines s' bytes -> refines s bytes.
Proof.
  intros [He _ Hd] [Hl Hb]. split; [lia|].
  intros j b Hj Hs. apply Hb; [lia|]. by rewrite Hd.
Qed.

#[export] Hint Resolve refines_extends : rs.

Lemma OStream_new_wf C use64 : 0 < C <= 2 ^ 33 -> ostream_wf C (OStream_new C use64).
Proof. intros. split; cbn; rewrite ?zlen_replicate; lia. Qed.

(** A stream has a possible content. *)
Lemma refines_exists C s : ostream_wf C s -> exists bytes, refines s bytes /\ zlen bytes = o_mPos s.
Proof.
  intros [Hl Hc Hp]. exists (default 0 <$> take (Z.to_nat (o_mPos s)) (o_mData s)).
  assert (E : zlen (default 0 <$> take (Z.to_nat (o_mPos s)) (o_mData s)) = o_mPos s) by (unfold zlen in *; rewrite length_fmap, length_take; lia).
  split; [|done]. split; [lia|]. intros j b Hj Hb. rewrite list_lookup_fmap, lookup_take_lt, Hb by lia. done.
Qed.

(** ** Alignment masks *)

Lemma mask64_roundup k p :
  0 <= k <= 64 -> 0 <= p -> p + (2 ^ k - 1) < 2 ^ 64 ->
  Z.land (p +u64 (2 ^ k - 1)) (u64 (Z.lnot (2 ^ k - 1))) = roundup (2 ^ k) p.
Proof.
  intros Hk Hp Hmax. pose proof (Z.pow_pos_nonneg 2 k).
  rewrite (u64_small (p + _)) by lia. unfold u64. rewrite land_mask_high by lia. done.
Qed.

Lemma align_mask_roundup k p :
  0 <= k < 32 -> 0 <= p -> p + (2 ^ k - 1) < 2 ^ 32 ->
  Z.land (p +u64 (2 ^ k -u32 1)) (u32 (Z.lnot (2 ^ k -u32 1))) = roundup (2 ^ k) p.
Proof.
  intros Hk Hp Hmax. pose proof (Z.pow_pos_nonneg 2 k).
  rewrite (u32_small (2 ^ k - 1)), (u64_small (p + _)) by lia.
  unfold u32. rewrite land_mask_high by lia. done.
Qed.

(** ** Growing *)

Lemma growSize_Ok s :
  zlen (o_mData s) = o_mLength s -> 0 <= o_mLength s < 2 ^ 63 ->
  exists s', growSize s = Ok s' /\ o_mLength s' = 2 * o_mLength s /\
    zlen (o_mData s') = o_mLength s' /\ o_mPos s' = o_mPos s /\ o_mUse64 s' = o_mUse64 s /\
    (forall j : nat, Z.of_nat j < o_mLength s -> o_mData s' !! j = o_mData s !! j).
Proof.
  intros Hl Hmax. unfold growSize. rewrite u64_small by lia.
  destruct (zread_Ok (o_mData s) 0 (o_mLength s)) as (old & Hr & Hlen & Hold); [lia..|].
  rewrite Hr. cbn [mbind outcome_bind].
  destruct (zwrite_Ok (replicate (Z.to_nat (o_mLength s * 2)) (@None Z)) 0 old) as [d Hd];
    [lia|rewrite zlen_replicate; lia|].
  rewrite Hd. cbn. eexists. split; [done|]. cbn.
  pose proof (zwrite_length _ _ _ _ Hd) as Hdl. rewrite zlen_replicate in Hdl by lia.
  split_and!; [lia|lia|done|done|]. intros j Hj.
  rewrite (zwrite_lookup_in _ _ _ _ _ Hd) by lia. rewrite Hold by lia. f_equal. lia.
Qed.

(** One conditional growth followed by a store of [n] bytes at [p].  One growth
    is enough because the store ends before twice the capacity. *)
Lemma reserve_put C s p bs :
  ostream_wf C s -> o_mPos s <= p -> p + zlen bs < 2 * o_mLength s -> p + zlen bs <= 2 ^ 32 ->
  exists s', (s1 ← grow_if (p +u64 zlen bs >=? o_mLength s) (o_set_pos s p); o_put s1 bs) = Ok s' /\
    ostream_wf C s' /\ extends s s' /\ o_mPos s' = p + zlen bs /\
    (forall j : nat, Z.of_nat j < zlen bs -> o_mData s' !! Z.to_nat (p + Z.of_nat j) = bs !! j).
Proof.
  intros [Hl [HC Hcap] Hpos] Hp H2 Hmax. pose proof (zlen_nonneg bs).
  rewrite (u64_small (p + zlen bs)) by lia.
  assert (exists s1, grow_if (p + zlen bs >=? o_mLength s) (o_set_pos s p) = Ok s1 /\
    zlen (o_mData s1) = o_mLength s1 /\ p + zlen bs < o_mLength s1 /\ C <= o_mLength s1 <= 2 ^ 33 /\
    o_mPos s1 = p /\ o_mUse64 s1 = o_mUse64 s /\
    (forall j : nat, Z.of_nat j < o_mLength s -> o_mData s1 !! j = o_mData s !! j))
    as (s1 & -> & Hl1 & Hlt & Hcap1 & Hp1 & Hu1 & Hd1).
  { unfold grow_if. destruct (Z.geb_spec (p + zlen bs) (o_mLength s)).
    - destruct (growSize_Ok (o_set_pos s p)) as (s1 & -> & ? & ? & ? & ? & ?); [done|cbn; lia|].
      exists s1. cbn in *. split_and!; [done|lia..|done|done|done].
    - eexists. split; [done|]. cbn. split_and!; (lia || done). }
  cbn [mbind outcome_bind]. unfold o_put. rewrite Hp1.
  destruct (zwrite_Ok (o_mData s1) p bs) as [d Hd]; [lia..|].
  rewrite Hd. cbn. rewrite u64_small by lia. eexists. split; [done|].
  pose proof (zwrite_length _ _ _ _ Hd). split_and!.
  - split; cbn; lia.
  - split; cbn; [lia|done|]. intros j Hj.
    rewrite (zwrite_lookup_out _ _ _ _ _ Hd) by lia. apply Hd1. lia.
  - done.
  - intros j Hj. cbn. rewrite (zwrite_lookup_in _ _ _ _ _ Hd) by lia. f_equal. lia.
Qed.

(** Bytes stored at [p] are read back at [p]. *)
Lemma refines_read s p bs bytes :
  0 <= p -> refines s bytes -> p + zlen bs <= o_mPos s ->
  (forall j : nat, Z.of_nat j < zlen bs ->
     o_mData s !! Z.to_nat (p + Z.of_nat j) = (Some <$> bs) !! j) ->
  zread bytes p (zlen bs) = Ok bs.
Proof.
  intros Hp [Hl Hb] Hend Hs. pose proof (zlen_nonneg bs).
  destruct (zread_Ok bytes p (zlen bs)) as (r & -> & Hlen & Hr); [lia..|].
  f_equal. apply list_eq. intros j. destruct (decide (Z.of_nat j < zlen bs)) as [Hj|Hj].
  - rewrite Hr by lia. specialize (Hs j Hj).
    destruct (bs !! j) as [b|] eqn:E; [|apply lookup_ge_None in E; unfold zlen in Hj; lia].
    rewrite list_lookup_fmap, E in Hs. cbn in Hs. apply Hb in Hs; [done|lia].
  - unfold zlen in *. rewrite !lookup_ge_None_2; [done|lia|lia].
Qed.

(** ** Little-endian encodings *)

Lemma land_ff v : Z.land v 0xff = v mod 256.
Proof. change 0xff with (Z.ones 8). by rewrite Z.land_ones. Qed.

Definition bytes32 (v : Z) : list Z :=
  [v mod 256; v / 2 ^ 8 mod 256; v / 2 ^ 16 mod 256; v / 2 ^ 24 mod 256].

Lemma le32_bytes v : le32 v = Some <$> bytes32 v.
Proof. unfold le32, byte_at, bytes32. rewrite !land_ff, !Z.shiftr_div_pow2 by lia. done. Qed.

Lemma le_val_bytes32 v : le_val (bytes32 v) = v mod 2 ^ 32.
Proof. unfold bytes32. cbn [le_val]. Z.to_euclidean_division_equations. lia. Qed.

Definition bytes64 (v : Z) : list Z := bytes32 v ++ bytes32 (v / 2 ^ 32).

Lemma le64_bytes v : le64 v = Some <$> bytes64 v.
Proof.
  unfold le64, byte_at, bytes64, bytes32. rewrite !land_ff, !Z.shiftr_div_pow2 by lia.
  cbn [fmap list_fmap app]. rewrite !Z.div_div by lia. done.
Qed.

Lemma le_val_app bs cs : le_val (bs ++ cs) = le_val bs + 256 ^ zlen bs * le_val cs.
Proof.
  induction bs as [|b bs IH]; cbn [app le_val].
  - change (zlen (@nil Z)) with 0. lia.
  - rewrite IH. change (b :: bs) with ([b] ++ bs). rewrite zlen_app, Z.pow_add_r by (auto with rs).
    change (zlen [b]) with 1. lia.
Qed.

Lemma le_val_bytes64 v : le_val (bytes64 v) = v mod 2 ^ 64.
Proof.
  unfold bytes64. rewrite le_val_app, !le_val_bytes32. change (256 ^ zlen (bytes32 v)) with (2 ^ 32).
  Z.to_euclidean_division_equations. lia.
Qed.

(** ** Codecs

    [codec C n enc dec a]: on every well-formed stream of capacity at least [C]
    with [n] bytes of room below [2^32], [enc] succeeds, keeps the stream
    well-formed and what was written, moves at most [n] bytes, and [dec] reads
    [a] back from any content the buffer may then have. *)

Definition codec {A} (C n : Z) (enc : OStream -> outcome OStream)
    (dec : IStream -> outcome (A * IStream)) (a : A) : Prop :=
  forall s, ostream_wf C s -> o_mPos s + n <= 2 ^ 32 ->
  exists s', enc s = Ok s' /\ ostream_wf C s' /\ extends s s' /\ o_mPos s' <= o_mPos s + n /\
    forall bytes, refines s' bytes ->
      dec (mkIStream bytes (o_mPos s) (o_mUse64 s)) = Ok (a, mkIStream bytes (o_mPos s') (o_mUse64 s)).

Lemma codec_ret {A} C (a : A) : codec C 0 Ok (fun i => Ok (a, i)) a.
Proof. intros s Hwf _. exists s. split_and!; (done || lia || eauto). Qed.

Lemma codec_weaken {A} C n m enc dec (a : A) : n <= m -> codec C n enc dec a -> codec C m enc dec a.
Proof.
  intros Hnm Hc s Hwf Hroom. destruct (Hc s Hwf) as (s' & ? & ? & ? & ? & ?); [lia|].
  exists s'. split_and!; (done || lia).
Qed.

Lemma codec_bind {A B} C n1 n2 enc1 enc2 dec1 (dec2 : A -> IStream -> outcome (B * IStream)) a b :
  0 <= n2 -> codec C n1 enc1 dec1 a -> codec C n2 enc2 (dec2 a) b ->
  codec C (n1 + n2) (fun s => s' ← enc1 s; enc2 s') (fun i => '(x, i') ← dec1 i; dec2 x i') b.
Proof.
  intros Hn2 H1 H2 s Hwf Hroom.
  destruct (H1 s Hwf) as (s1 & E1 & Hwf1 & Hx1 & Hb1 & Hd1); [lia|].
  destruct (H2 s1 Hwf1) as (s2 & E2 & Hwf2 & Hx2 & Hb2 & Hd2); [lia|].
  exists s2. rewrite E1. cbn. split_and!; [done|done|by etrans|lia|].
  intros bytes Href. rewrite Hd1 by eauto with rs. cbn.
  rewrite <- (ext_use64 _ _ Hx1). by apply Hd2.
Qed.

(** The shape every scalar writer has: align to [2^k], reserve, store. *)
Lemma codec_scalar C k n bs (v : Z) (post : Z -> Z) :
  16 <= C -> 0 <= k <= 3 -> 0 < n <= 8 -> zlen bs = n -> post (le_val bs) = v ->
  codec C (n + 7)
    (fun s => let s := o_set_pos s (roundup (2 ^ k) (o_mPos s)) in
              s1 ← grow_if (o_mPos s +u64 n >=? o_mLength s) s; o_put s1 (Some <$> bs))
    (fun i => let i := i_set_pos i (roundup (2 ^ k) (i_mPos i)) in
              '(x, i') ← load_raw n i; Ok (post x, i')) v.
Proof.
  intros HC Hk Hn Hbs Hpost s Hwf Hroom.
  assert (Hpk : 1 <= 2 ^ k <= 8).
  { split; [pose proof (Z.pow_pos_nonneg 2 k); lia|apply (Z.pow_le_mono_r 2 k 3); lia]. }
  pose proof (roundup_bounds (2 ^ k) (o_mPos s) ltac:(lia)) as Hr.
  pose proof (wf_pos _ _ Hwf). pose proof (wf_capacity _ _ Hwf).
  assert (Hlen : zlen (Some <$> bs) = n) by (unfold zlen in *; rewrite length_fmap; lia).
  destruct (reserve_put C s (roundup (2 ^ k) (o_mPos s)) (Some <$> bs))
    as (s' & E & Hwf' & Hx & Hp & Hd); [done|lia..|].
  rewrite Hlen in E, Hp, Hd. exists s'. split_and!; [done|done|done|lia|].
  intros bytes Href. cbn. unfold load_raw. cbn.
  rewrite <- Hbs in *. rewrite (refines_read s'); [|lia|done|lia|done].
  cbn. rewrite u64_small by lia. rewrite Hp. by rewrite Hpost.
Qed.

(** Two encoders, or decoders, that agree on well-formed streams are exchangeable. *)
Lemma codec_ext {A} C n enc enc' dec dec' (a : A) :
  (forall s, ostream_wf C s -> o_mPos s + n <= 2 ^ 32 -> enc' s = enc s) ->
  (forall i, 0 <= i_mPos i < 2 ^ 33 -> dec' i = dec i) ->
  codec C n enc dec a -> codec C n enc' dec' a.
Proof.
  intros He Hd Hc s Hwf Hroom. destruct (Hc s Hwf Hroom) as (s' & ? & ? & ? & ? & Hr).
  exists s'. rewrite He by done. split_and!; [done..|]. intros bytes Hb.
  rewrite Hd; [by apply Hr|]. cbn. pose proof (wf_pos _ _ Hwf). pose proof (wf_capacity _ _ Hwf). lia.
Qed.

(** Reduce a scalar writer and reader with mask [~m], [m = 2^k - 1], to [codec_scalar]. *)
Ltac scalar_codec k m n bs post :=
  eapply codec_ext; [| |eapply (codec_scalar _ k n bs _ post); try (lia || done)];
  [ let s := fresh "s" in let Hw := fresh "Hw" in
    intros s Hw _; pose proof (wf_pos _ _ Hw); pose proof (wf_capacity _ _ Hw);
    change m with (2 ^ k - 1); rewrite (mask64_roundup k) by lia; done
  | let i := fresh "i" in let Hi := fresh "Hi" in
    intros i Hi; change m with (2 ^ k - 1); rewrite (mask64_roundup k) by lia;
    unfold load_raw; by destruct (zread _ _ _)
  | unfold id ].

Lemma codec_U32 C v : 16 <= C -> 0 <= v < 2 ^ 32 -> codec C 11 (addU32 v) loadU32 v.
Proof.
  intros HC Hv. unfold addU32, loadU32. rewrite (u32_small v), le32_bytes by lia.
  scalar_codec 2 3 4 (bytes32 v) (@id Z). rewrite le_val_bytes32. apply Z.mod_small. lia.
Qed.

Lemma codec_F C v : 16 <= C -> 0 <= v < 2 ^ 32 -> codec C 11 (addF v) loadF v.
Proof. apply codec_U32. Qed.

Lemma codec_I32 C v : 16 <= C -> - 2 ^ 31 <= v < 2 ^ 31 -> codec C 11 (addI32 v) loadI32 v.
Proof.
  intros HC Hv. unfold addI32, loadI32. rewrite le32_bytes.
  scalar_codec 2 3 4 (bytes32 v) s32. rewrite le_val_bytes32. unfold s32, swrap.
  rewrite Zplus_mod_idemp_l, Z.mod_small; lia.
Qed.

Definition bytes16 (v : Z) : list Z := [v mod 256; v / 2 ^ 8 mod 256].

Lemma codec_U16 C v : 16 <= C -> 0 <= v < 2 ^ 16 -> codec C 9 (addU16 v) loadU16 v.
Proof.
  intros HC Hv. unfold addU16, loadU16. rewrite (u16_small v) by lia.
  rewrite land_ff, Z.shiftr_div_pow2 by lia.
  change [Some (v mod 256); Some (u8 (v / 2 ^ 8))] with (Some <$> bytes16 v).
  scalar_codec 1 1 2 (bytes16 v) (@id Z).
  unfold bytes16. cbn [le_val]. Z.to_euclidean_division_equations. lia.
Qed.

Lemma codec_U8 C v : 16 <= C -> 0 <= v < 2 ^ 8 -> codec C 8 (addU8 v) loadU8 v.
Proof.
  intros HC Hv. unfold addU8, loadU8. rewrite (u8_small v) by lia.
  eapply codec_ext; [| |eapply (codec_scalar _ 0 1 [v] _ id); try (lia || done)].
  - intros s Hw _. cbv beta zeta. change (2 ^ 0) with 1. rewrite roundup_id; [by destruct s|lia|apply Z.divide_1_l].
  - intros [b p u] Hi. cbv beta zeta. change (2 ^ 0) with 1. rewrite roundup_id; [|lia|apply Z.divide_1_l].
    unfold load_raw. by destruct (zread _ _ _).
  - cbn. lia.
Qed.

Lemma codec_offset C v :
  16 <= C -> 0 <= v < 2 ^ 32 -> codec C 15 (addOffset v) loadOffset v.
Proof.
  intros HC Hv s Hwf Hroom. unfold addOffset, loadOffset. cbn.
  destruct (o_mUse64 s) eqn:E.
  - assert (Hc : codec C 15
      (fun s => let s := o_set_pos s (Z.land (o_mPos s +u64 7) (u64 (Z.lnot 7))) in
                s ← grow_if (o_mPos s +u64 8 >=? o_mLength s) s; o_put s (Some <$> bytes64 v))
      (fun s => load_raw 8 (i_set_pos s (Z.land (i_mPos s +u64 7) (u64 (Z.lnot 7))))) v).
    { scalar_codec 3 7 8 (bytes64 v) (@id Z). rewrite le_val_bytes64. apply Z.mod_small. lia. }
    rewrite le64_bytes. destruct (Hc s Hwf Hroom) as (s' & ? & ? & ? & ? & Hd).
    exists s'. rewrite E in Hd. done.
  - pose proof (codec_weaken C 11 15 _ _ _ ltac:(lia) (codec_U32 C v HC Hv)) as Hc.
    destruct (Hc s Hwf Hroom) as (s' & ? & ? & ? & ? & Hd). exists s'. rewrite E in Hd. done.
Qed.

(** ** Byte arrays and strings *)

(** A store of a byte list that one growth makes room for. *)
Lemma codec_store C (bs : list Z) s :
  ostream_wf C s -> zlen bs <= o_mLength s -> o_mPos s + zlen bs <= 2 ^ 32 ->
  exists s', (s1 ← grow_if (o_mPos s +u64 zlen bs >=? o_mLength s) s; o_put s1 (Some <$> bs)) = Ok s' /\
    ostream_wf C s' /\ extends s s' /\ o_mPos s' = o_mPos s + zlen bs /\
    forall bytes, refines s' bytes -> zread bytes (o_mPos s) (zlen bs) = Ok bs.
Proof.
  intros Hwf Hle Hroom. pose proof (wf_pos _ _ Hwf).
  assert (Hlen : zlen (Some <$> bs) = zlen bs) by (unfold zlen; by rewrite length_fmap).
  destruct (reserve_put C s (o_mPos s) (Some <$> bs)) as (s' & E & Hwf' & Hx & Hp & Hd);
    [done|rewrite ?Hlen; lia..|].
  rewrite Hlen in E, Hp, Hd. exists s'. destruct s as [d l p u]. split_and!; [done..|].
  intros bytes Href. cbn in *. apply (refines_read s'); [lia|done|lia|done].
Qed.

Lemma cstr_of_nonzero (str : cstr) : Forall (fun b => b <> 0) str -> cstr_of str = str.
Proof.
  induction 1 as [|b str Hb _ IH]; cbn; [done|].
  destruct (Z.eqb_spec b 0); [done|]. by rewrite IH.
Qed.

Lemma zread_all {A} (l : list A) : zread l 0 (zlen l) = Ok l.
Proof.
  unfold zread. rewrite decide_True by (unfold zlen; lia). cbn.
  unfold zlen. rewrite Nat2Z.id. by rewrite firstn_all.
Qed.

Lemma zread_drop (l : list Z) p n :
  0 <= p -> zread (drop (Z.to_nat p) l) 0 n = zread l p n \/ zlen l < p.
Proof.
  intros Hp. destruct (decide (p <= zlen l)); [left|right; lia].
  unfold zread, zlen in *. rewrite length_drop. cbn [Z.to_nat drop].
  destruct (decide (0 <= 0 /\ 0 <= n /\ 0 + n <= Z.of_nat (length l - Z.to_nat p)));
    destruct (decide (0 <= p /\ 0 <= n /\ p + n <= Z.of_nat (length l))); (done || lia).
Qed.

Lemma codec_string C (str : cstr) :
  16 <= C -> zlen str <= C -> zlen str < 2 ^ 32 -> Forall (fun b => b <> 0) str ->
  codec C (11 + zlen str) (addString str) loadString str.
Proof.
  intros HC Hlen Hlt Hnz s Hwf Hroom. pose proof (zlen_nonneg str). unfold addString, addString_len, strlen.
  destruct (codec_U32 C (zlen str) HC ltac:(lia) s Hwf) as (s1 & -> & Hwf1 & Hx1 & Hb1 & Hd1); [lia|].
  cbn [mbind outcome_bind]. rewrite zread_all. cbn [mbind outcome_bind].
  pose proof (wf_capacity _ _ Hwf1). pose proof (wf_pos _ _ Hwf1).
  destruct (codec_store C str s1 Hwf1) as (s2 & E2 & Hwf2 & Hx2 & Hp2 & Hd2); [lia..|].
  exists s2. split_and!; [|done|by etrans|lia|].
  { destruct (grow_if _ s1); [|done]. done. }
  intros bytes Href. unfold loadString. rewrite Hd1 by eauto with rs. cbn.
  assert (o_mPos s2 <= zlen bytes) by apply Href.
  unfold rsuCopyString. destruct (zread_drop bytes (o_mPos s1) (zlen str)) as [->|]; [lia| |lia].
  rewrite Hd2 by done. cbn. rewrite cstr_of_nonzero, u64_small, Hp2 by (done || lia). done.
Qed.

(** The growth loop of [addByteArray] ends as soon as the capacity is positive. *)
Lemma grow_while_Ok C fuel n s :
  ostream_wf C s -> 0 < C -> 0 <= n -> o_mPos s + n <= 2 ^ 32 -> o_mPos s + n < o_mLength s * 2 ^ Z.of_nat fuel ->
  exists s', grow_while fuel n s = Ok s' /\ ostream_wf C s' /\ extends s s' /\
    o_mPos s' = o_mPos s /\ o_mPos s + n < o_mLength s'.
Proof.
  revert s. induction fuel as [|f IH]; intros s Hwf HC Hn Hroom Hfuel;
    pose proof (wf_pos _ _ Hwf); pose proof (wf_capacity _ _ Hwf);
    cbn [grow_while]; rewrite u64_small by lia; destruct (Z.geb_spec (o_mPos s + n) (o_mLength s)).
  - change (2 ^ Z.of_nat 0) with 1 in Hfuel. lia.
  - exists s. split_and!; (done || lia).
  - destruct (growSize_Ok s) as (s1 & -> & Hl & Hz & Hp & Hu & Hd); [apply Hwf|lia|].
    cbn [mbind outcome_bind]. rewrite Nat2Z.inj_succ, Z.pow_succ_r in Hfuel by lia.
    destruct (IH s1) as (s2 & E & ? & ? & ? & ?); [split; lia|lia|lia|lia|rewrite Hl, Hp; lia|].
    exists s2. split_and!; [done|done| |lia|lia]. etrans; [|done]. split; [lia|done|]. intros j Hj. apply Hd. lia.
  - exists s. split_and!; (done || lia).
Qed.

Lemma codec_bytes C (bs : list Z) :
  16 <= C -> codec C (zlen bs) (addByteArray (Some <$> bs) (zlen bs)) (loadByteArray (zlen bs)) bs.
Proof.
  intros HC s Hwf Hroom. pose proof (wf_pos _ _ Hwf). pose proof (wf_capacity _ _ Hwf).
  pose proof (zlen_nonneg bs). unfold addByteArray.
  destruct (grow_while_Ok C 64 (zlen bs) s) as (s1 & -> & Hwf1 & Hx1 & Hp1 & Hlt); [done|lia..|].
  cbn [mbind outcome_bind].
  assert (zread (Some <$> bs) 0 (zlen bs) = Ok (Some <$> bs)) as ->.
  { rewrite <- zread_all. f_equal. unfold zlen. by rewrite length_fmap. }
  cbn [mbind outcome_bind].
  destruct (codec_store C bs s1 Hwf1) as (s2 & E2 & Hwf2 & Hx2 & Hp2 & Hd2); [lia..|].
  rewrite u64_small in E2 by lia. unfold grow_if in E2.
  destruct (Z.geb_spec (o_mPos s1 + zlen bs) (o_mLength s1)); [lia|]. cbn in E2.
  exists s2. split_and!; [done|done|by etrans|lia|]. intros bytes Href. unfold loadByteArray. cbn.
  rewrite <- Hp1, Hd2 by done. cbn. rewrite u64_small, Hp2 by lia. done.
Qed.

(** ** Sequences of writes and their reads *)

Inductive value :=
| VU8 (v : Z) | VU16 (v : Z) | VU32 (v : Z) | VI32 (v : Z) | VF (bits : Z)
| VOffset (v : Z) | VString (str : cstr) | VBytes (bs : list Z).

(** What a reader knows before it reads: the kind, and the size of a byte array. *)
Inductive kind := KU8 | KU16 | KU32 | KI32 | KF | KOffset | KString | KBytes (n : Z).

Definition kind_of (v : value) : kind :=
  match v with
  | VU8 _ => KU8 | VU16 _ => KU16 | VU32 _ => KU32 | VI32 _ => KI32 | VF _ => KF
  | VOffset _ => KOffset | VString _ => KString | VBytes bs => KBytes (zlen bs)
  end.

Definition write (v : value) (s : OStream) : outcome OStream :=
  match v with
  | VU8 v => addU8 v s | VU16 v => addU16 v s | VU32 v => addU32 v s | VI32 v => addI32 v s
  | VF v => addF v s | VOffset v => addOffset v s | VString str => addString str s
  | VBytes bs => addByteArray (Some <$> bs) (zlen bs) s
  end.

Definition tag {A} (f : A -> value) (r : outcome (A * IStream)) : outcome (value * IStream) :=
  '(a, i) ← r; Ok (f a, i).

Definition read (k : kind) (i : IStream) : outcome (value * IStream) :=
  match k with
  | KU8 => tag VU8 (loadU8 i) | KU16 => tag VU16 (loadU16 i) | KU32 => tag VU32 (loadU32 i)
  | KI32 => tag VI32 (loadI32 i) | KF => tag VF (loadF i) | KOffset => tag VOffset (loadOffset i)
  | KString => tag VString (loadString i) | KBytes n => tag VBytes (loadByteArray n i)
  end.

Fixpoint write_all (vs : list value) (s : OStream) : outcome OStream :=
  match vs with [] => Ok s | v :: vs => s' ← write v s; write_all vs s' end.

Fixpoint read_all (ks : list kind) (i : IStream) : outcome (list value * IStream) :=
  match ks with
  | [] => Ok ([], i)
  | k :: ks => '(v, i) ← read k i; '(vs, i) ← read_all ks i; Ok (v :: vs, i)
  end.

(** Values in range; strings without an inner 0 and not longer than the
    capacity the stream was created with. *)
Definition value_ok (C : Z) (v : value) : Prop :=
  match v with
  | VU8 v => 0 <= v < 2 ^ 8 | VU16 v => 0 <= v < 2 ^ 16
  | VU32 v | VF v | VOffset v => 0 <= v < 2 ^ 32
  | VI32 v => - 2 ^ 31 <= v < 2 ^ 31
  | VString str => zlen str <= C /\ zlen str < 2 ^ 32 /\ Forall (fun b => b <> 0) str
  | VBytes _ => True
  end.

(** An upper bound of the bytes a write moves the position by. *)
Definition value_size (v : value) : Z :=
  match v with
  | VString str => 11 + zlen str
  | VBytes bs => zlen bs
  | _ => 15
  end.

Definition values_size (vs : list value) : Z := foldr (fun v n => value_size v + n) 0 vs.

Lemma codec_tag {A} C n enc dec (f : A -> value) a :
  codec C n enc dec a -> codec C n enc (fun i => tag f (dec i)) (f a).
Proof.
  intros Hc s Hwf Hroom. destruct (Hc s Hwf Hroom) as (s' & ? & ? & ? & ? & Hd).
  exists s'. split_and!; [done..|]. intros bytes Hb. by rewrite Hd.
Qed.

Lemma codec_write C v :
  16 <= C -> value_ok C v -> codec C (value_size v) (write v) (read (kind_of v)) v.
Proof.
  intros HC Hok. destruct v; cbn [write read kind_of value_size value_ok] in *;
    apply codec_tag; try (eapply codec_weaken; [|eauto using codec_U8, codec_U16, codec_U32, codec_I32, codec_F]; lia).
  - by apply codec_offset.
  - destruct Hok as (? & ? & ?). by apply codec_string.
  - by apply codec_bytes.
Qed.

Lemma values_size_nonneg vs : 0 <= values_size vs.
Proof.
  induction vs as [|v vs IH]; cbn; [lia|].
  assert (0 <= value_size v); [|unfold values_size in *; lia].
  destruct v; cbn; try lia; [pose proof (zlen_nonneg str); lia|auto with rs].
Qed.

Lemma codec_write_all C vs :
  16 <= C -> Forall (value_ok C) vs -> codec C (values_size vs) (write_all vs) (read_all (kind_of <$> vs)) vs.
Proof.
  intros HC. induction 1 as [|v vs Hv _ IH]; [apply codec_ret|].
  change (values_size (v :: vs)) with (value_size v + values_size vs).
  eapply codec_ext; cycle 2.
  - eapply (codec_bind C _ _ (write v) (write_all vs) (read (kind_of v))
    (fun v i => '(vs, i) ← read_all (kind_of <$> vs) i; Ok (v :: vs, i))).
    + apply values_size_nonneg.
    + by apply codec_write.
    + intros s Hwf Hroom. destruct (IH s Hwf Hroom) as (s' & ? & ? & ? & ? & Hd).
      exists s'. split_and!; [done..|]. intros bytes Hb. by rewrite Hd.
  - done.
  - done.
Qed.

(** C6: Writing any sequence of in-range values to a fresh stream of capacity
    [C >= 16] never writes outside the buffer and keeps the stream well-formed,
    and an [IStream] over any bytes the buffer may hold (padding is arbitrary)
    reads the same values back in the same order. *)
Theorem stream_roundtrip C use64 vs :
  16 <= C <= 2 ^ 33 -> Forall (value_ok C) vs -> values_size vs <= 2 ^ 32 ->
  exists s, write_all vs (OStream_new C use64) = Ok s /\ ostream_wf C s /\
    forall bytes, refines s bytes ->
      read_all (kind_of <$> vs) (IStream_new bytes use64) = Ok (vs, mkIStream bytes (o_mPos s) use64).
Proof.
  intros HC Hvs Hsize.
  destruct (codec_write_all C vs ltac:(lia) Hvs (OStream_new C use64)) as (s & ? & ? & _ & _ & Hd);
    [apply OStream_new_wf; lia|cbn; lia|].
  by exists s.
Qed.

Definition sample_values : list value :=
  [VU8 7; VU32 305419896; VString [97; 98; 99]; VI32 (-5); VOffset 4096; VU16 513; VBytes [1; 0; 2]].

Lemma stream_roundtrip_witness :
  Forall (value_ok 16) sample_values /\
  exists s, write_all sample_values (OStream_new 16 true) = Ok s /\ ostream_wf 16 s /\
    forall bytes, refines s bytes ->
      read_all (kind_of <$> sample_values) (IStream_new bytes true)
      = Ok (sample_values, mkIStream bytes (o_mPos s) true).
Proof.
  assert (H : Forall (value_ok 16) sample_values)
    by (repeat constructor; cbn; try lia; discriminate).
  split; [exact H|]. apply stream_roundtrip; [lia|exact H|vm_compute; discriminate].
Defined.

(** ** Where the streams go wrong *)

(** [addString] grows the buffer once only: a string at least twice as long
    as the capacity is copied past the end of the buffer. *)
Theorem addString_overflows C use64 (str : cstr) :
  16 <= C < 2 ^ 33 -> 2 * C <= zlen str < 2 ^ 32 ->
  addString str (OStream_new C use64) = Fault OutOfBounds.
Proof.
  intros HC Hlen. unfold addString, addString_len, strlen.
  destruct (codec_U32 C (zlen str) ltac:(lia) ltac:(lia) (OStream_new C use64))
    as (s1 & E & Hwf & Hx & Hb & _); [apply OStream_new_wf; lia|cbn; lia|].
  assert (Hp : 0 <= o_mPos s1 /\ o_mLength s1 = C /\ 0 < o_mPos s1).
  { unfold addU32 in E. cbn [OStream_new o_set_pos o_mPos o_mLength] in E.
    change (Z.land (0 +u64 3) (u64 (Z.lnot 3))) with 0 in E. change (0 +u64 4) with 4 in E.
    unfold grow_if in E. destruct (Z.geb_spec 4 C); [lia|]. unfold o_put in E. fwd. cbn. done. }
  rewrite E. cbn [mbind outcome_bind]. pose proof (wf_pos _ _ Hwf). pose proof (wf_length _ _ Hwf).
  rewrite u64_small by lia. unfold grow_if. destruct (Z.geb_spec (o_mPos s1 + zlen str) (o_mLength s1)); [|lia].
  destruct (growSize_Ok s1) as (s2 & -> & Hl2 & Hz2 & Hp2 & _ & _); [lia..|].
  cbn [mbind outcome_bind]. rewrite zread_all. cbn [mbind outcome_bind].
  unfold o_put, zwrite. rewrite decide_False; [done|].
  assert (zlen (Some <$> str) = zlen str) by (unfold zlen; by rewrite length_fmap). lia.
Qed.

Lemma addString_overflows_witness :
  addString (replicate 32 97) (OStream_new 16 false) = Fault OutOfBounds.
Proof. apply (addString_overflows 16 false (replicate 32 97)); vm_compute; split; congruence. Defined.

(** On a stream created with capacity 0 the growth loop of [addByteArray]
    never ends: doubling 0 gives 0, whatever the number of rounds. *)
Theorem addByteArray_diverges_on_empty fuel n use64 :
  0 <= n < 2 ^ 64 -> grow_while fuel n (OStream_new 0 use64) = Fault OutOfFuel.
Proof.
  intros Hn.
  assert (Hc : (o_mPos (OStream_new 0 use64) +u64 n >=? o_mLength (OStream_new 0 use64)) = true)
    by (apply Z.geb_le, u64_range).
  induction fuel as [|f IH]; cbn [grow_while]; rewrite Hc; [done|exact IH].
Qed.

Lemma addByteArray_diverges_on_empty_witness :
  grow_while 1000 5 (OStream_new 0 false) = Fault OutOfFuel.
Proof. apply addByteArray_diverges_on_empty. lia. Defined.

(** [align] masks with a 32-bit value: below 4 GiB it moves the position to
    the next multiple of [bytes], a power of two; from 4 GiB on it sends the
    position back into the first 4 GiB. *)
Theorem align_position k s s' :
  0 <= k < 32 -> 0 <= o_mPos s -> o_mPos s + (2 ^ k - 1) < 2 ^ 64 -> align (2 ^ k) s = Ok s' ->
  o_mPos s' < 2 ^ 32 /\
  (o_mPos s + (2 ^ k - 1) < 2 ^ 32 -> o_mPos s' = roundup (2 ^ k) (o_mPos s)).
Proof.
  intros Hk Hp Hmax Ha. unfold align in Ha.
  assert (Hs' : o_mPos s' = Z.land (o_mPos s +u64 (2 ^ k -u32 1)) (u32 (Z.lnot (2 ^ k -u32 1)))).
  { unfold grow_if in Ha. destruct (_ >=? _).
    - unfold growSize in Ha. fwd. done.
    - injection Ha as <-. done. }
  rewrite Hs'. split.
  - set (m := u32 _) in |- * at 2. rewrite <- (u32_small m) by apply u32_range.
    unfold u32 at 2, wrap. rewrite <- Z.land_ones, Z.land_assoc, Z.land_ones by lia.
    apply Z.mod_pos_bound. lia.
  - intros. apply align_mask_roundup; lia.
Qed.

Lemma align_position_witness :
  exists s', align (2 ^ 2) (mkOStream [] 0 (2 ^ 32 + 5) false) = Ok s' /\ o_mPos s' < 2 ^ 32.
Proof.
  eexists. split; [reflexivity|].
  apply (align_position 2 (mkOStream [] 0 (2 ^ 32 + 5) false)); [lia|cbn; lia|cbn; lia|reflexivity].
Defined.

End Stream.
