(* ===== verification/Component.v ===== *)
(** * Component: the scalar or small vector a cell is made of ([rsComponent.cpp])

    The enumerations of [rsDefines.h] get one constructor per enumerator and
    one for the values a cast from an integer can produce beside them.
    [mBitsUnpadded] is an [option]: the constructor and several branches of
    [set] leave it unwritten.  [rsAssert] only logs; the conditions it checks
    are collected in [set_asserts]. *)

From S2P Require Import Prelude CppUtils Stream.
From stdpp Require Import strings.
Import CppUtils Stream.
Open Scope Z_scope.

Module Component.

Inductive RsDataType :=
| RS_TYPE_NONE | RS_TYPE_FLOAT_16 | RS_TYPE_FLOAT_32 | RS_TYPE_FLOAT_64 | RS_TYPE_SIGNED_8
| RS_TYPE_SIGNED_16 | RS_TYPE_SIGNED_32 | RS_TYPE_SIGNED_64 | RS_TYPE_UNSIGNED_8
| RS_TYPE_UNSIGNED_16 | RS_TYPE_UNSIGNED_32 | RS_TYPE_UNSIGNED_64 | RS_TYPE_BOOLEAN
| RS_TYPE_UNSIGNED_5_6_5 | RS_TYPE_UNSIGNED_5_5_5_1 | RS_TYPE_UNSIGNED_4_4_4_4
| RS_TYPE_MATRIX_4X4 | RS_TYPE_MATRIX_3X3 | RS_TYPE_MATRIX_2X2 | RS_TYPE_ELEMENT
| RS_TYPE_TYPE | RS_TYPE_ALLOCATION | RS_TYPE_SAMPLER | RS_TYPE_SCRIPT | RS_TYPE_MESH
| RS_TYPE_PROGRAM_FRAGMENT | RS_TYPE_PROGRAM_VERTEX | RS_TYPE_PROGRAM_RASTER
| RS_TYPE_PROGRAM_STORE | RS_TYPE_FONT | RS_TYPE_INVALID | RsDataType_cast (v : Z).

Definition RsDataType_Z (t : RsDataType) : Z :=
  match t with
  | RS_TYPE_NONE => 0 | RS_TYPE_FLOAT_16 => 1 | RS_TYPE_FLOAT_32 => 2
  | RS_TYPE_FLOAT_64 => 3 | RS_TYPE_SIGNED_8 => 4 | RS_TYPE_SIGNED_16 => 5
  | RS_TYPE_SIGNED_32 => 6 | RS_TYPE_SIGNED_64 => 7 | RS_TYPE_UNSIGNED_8 => 8
  | RS_TYPE_UNSIGNED_16 => 9 | RS_TYPE_UNSIGNED_32 => 10 | RS_TYPE_UNSIGNED_64 => 11
  | RS_TYPE_BOOLEAN => 12 | RS_TYPE_UNSIGNED_5_6_5 => 13 | RS_TYPE_UNSIGNED_5_5_5_1 => 14
  | RS_TYPE_UNSIGNED_4_4_4_4 => 15 | RS_TYPE_MATRIX_4X4 => 16 | RS_TYPE_MATRIX_3X3 => 17
  | RS_TYPE_MATRIX_2X2 => 18 | RS_TYPE_ELEMENT => 1000 | RS_TYPE_TYPE => 1001
  | RS_TYPE_ALLOCATION => 1002 | RS_TYPE_SAMPLER => 1003 | RS_TYPE_SCRIPT => 1004
  | RS_TYPE_MESH => 1005 | RS_TYPE_PROGRAM_FRAGMENT => 1006
  | RS_TYPE_PROGRAM_VERTEX => 1007 | RS_TYPE_PROGRAM_RASTER => 1008
  | RS_TYPE_PROGRAM_STORE => 1009 | RS_TYPE_FONT => 1010 | RS_TYPE_INVALID => 10000
  | RsDataType_cast v => v
  end.

(** The cast [(RsDataType)z]. *)
Definition RsDataType_of (z : Z) : RsDataType :=
  match z with
  | 0 => RS_TYPE_NONE | 1 => RS_TYPE_FLOAT_16 | 2 => RS_TYPE_FLOAT_32
  | 3 => RS_TYPE_FLOAT_64 | 4 => RS_TYPE_SIGNED_8 | 5 => RS_TYPE_SIGNED_16
  | 6 => RS_TYPE_SIGNED_32 | 7 => RS_TYPE_SIGNED_64 | 8 => RS_TYPE_UNSIGNED_8
  | 9 => RS_TYPE_UNSIGNED_16 | 10 => RS_TYPE_UNSIGNED_32 | 11 => RS_TYPE_UNSIGNED_64
  | 12 => RS_TYPE_BOOLEAN | 13 => RS_TYPE_UNSIGNED_5_6_5 | 14 => RS_TYPE_UNSIGNED_5_5_5_1
  | 15 => RS_TYPE_UNSIGNED_4_4_4_4 | 16 => RS_TYPE_MATRIX_4X4 | 17 => RS_TYPE_MATRIX_3X3
  | 18 => RS_TYPE_MATRIX_2X2 | 1000 => RS_TYPE_ELEMENT | 1001 => RS_TYPE_TYPE
  | 1002 => RS_TYPE_ALLOCATION | 1003 => RS_TYPE_SAMPLER | 1004 => RS_TYPE_SCRIPT
  | 1005 => RS_TYPE_MESH | 1006 => RS_TYPE_PROGRAM_FRAGMENT
  | 1007 => RS_TYPE_PROGRAM_VERTEX | 1008 => RS_TYPE_PROGRAM_RASTER
  | 1009 => RS_TYPE_PROGRAM_STORE | 1010 => RS_TYPE_FONT | 10000 => RS_TYPE_INVALID
  | _ => RsDataType_cast z
  end.

#[global] Instance RsDataType_eq_dec : EqDecision RsDataType.
Proof. solve_decision. Defined.

Inductive RsDataKind :=
| RS_KIND_USER | RS_KIND_PIXEL_L | RS_KIND_PIXEL_A | RS_KIND_PIXEL_LA | RS_KIND_PIXEL_RGB
| RS_KIND_PIXEL_RGBA | RS_KIND_PIXEL_DEPTH | RS_KIND_PIXEL_YUV | RS_KIND_INVALID
| RsDataKind_cast (v : Z).

Definition RsDataKind_Z (t : RsDataKind) : Z :=
  match t with
  | RS_KIND_USER => 0 | RS_KIND_PIXEL_L => 7 | RS_KIND_PIXEL_A => 8
  | RS_KIND_PIXEL_LA => 9 | RS_KIND_PIXEL_RGB => 10 | RS_KIND_PIXEL_RGBA => 11
  | RS_KIND_PIXEL_DEPTH => 12 | RS_KIND_PIXEL_YUV => 13 | RS_KIND_INVALID => 100
  | RsDataKind_cast v => v
  end.

(** The cast [(RsDataKind)z]. *)
Definition RsDataKind_of (z : Z) : RsDataKind :=
  match z with
  | 0 => RS_KIND_USER | 7 => RS_KIND_PIXEL_L | 8 => RS_KIND_PIXEL_A
  | 9 => RS_KIND_PIXEL_LA | 10 => RS_KIND_PIXEL_RGB | 11 => RS_KIND_PIXEL_RGBA
  | 12 => RS_KIND_PIXEL_DEPTH | 13 => RS_KIND_PIXEL_YUV | 100 => RS_KIND_INVALID
  | _ => RsDataKind_cast z
  end.

#[global] Instance RsDataKind_eq_dec : EqDecision RsDataKind.
Proof. solve_decision. Defined.

Record Component := mkComponent {
  mType : RsDataType;
  mKind : RsDataKind;
  mNormalized : bool;
  mVectorSize : Z;
  mBits : Z;
  mBitsUnpadded : option Z;
  mTypeBits : Z;
  mIsFloat : bool;
  mIsSigned : bool;
  mIsPixel : bool
}.

(** The tail of [set]: the two products computed once the type is known. *)
Definition set_bits (c : Component) : outcome Component :=
  p ← rsHigherPow2 (mVectorSize c);
  Ok (mkComponent (mType c) (mKind c) (mNormalized c) (mVectorSize c) (mTypeBits c *u32 p)
        (Some (mTypeBits c *u32 mVectorSize c)) (mTypeBits c) (mIsFloat c) (mIsSigned c) (mIsPixel c)).

(** A type with [bits] bits per lane. *)
Definition lanes (c : Component) (bits : Z) (isFloat isSigned : bool) : outcome Component :=
  set_bits (mkComponent (mType c) (mKind c) (mNormalized c) (mVectorSize c) (mBits c)
              (mBitsUnpadded c) bits isFloat isSigned (mIsPixel c)).

(** A packed 16-bit pixel of [vec] channels. *)
Definition packed16 (c : Component) (vec : Z) : Component :=
  mkComponent (mType c) (mKind c) true vec 16 (mBitsUnpadded c) (mTypeBits c)
    (mIsFloat c) (mIsSigned c) (mIsPixel c).

Definition set (this : Component) (dt : RsDataType) (dk : RsDataKind) (norm : bool) (vecSize : Z)
    : outcome Component :=
  let isPixel :=
    match dk with
    | RS_KIND_PIXEL_L | RS_KIND_PIXEL_A | RS_KIND_PIXEL_LA | RS_KIND_PIXEL_RGB
    | RS_KIND_PIXEL_RGBA | RS_KIND_PIXEL_YUV => true
    | _ => false
    end in
  let c := mkComponent dt dk norm vecSize 0 (mBitsUnpadded this) 0 false false isPixel in
  match dt with
  | RS_TYPE_NONE => Ok c
  | RS_TYPE_UNSIGNED_5_6_5 => Ok (packed16 c 3)
  | RS_TYPE_UNSIGNED_5_5_5_1 => Ok (packed16 c 4)
  | RS_TYPE_UNSIGNED_4_4_4_4 => Ok (packed16 c 4)
  | RS_TYPE_MATRIX_4X4 => lanes c (16 * 32) false false
  | RS_TYPE_MATRIX_3X3 => lanes c (9 * 32) false false
  | RS_TYPE_MATRIX_2X2 => lanes c (4 * 32) false false
  | RS_TYPE_ELEMENT | RS_TYPE_TYPE | RS_TYPE_ALLOCATION | RS_TYPE_SAMPLER | RS_TYPE_SCRIPT
  | RS_TYPE_MESH | RS_TYPE_PROGRAM_FRAGMENT | RS_TYPE_PROGRAM_VERTEX | RS_TYPE_PROGRAM_RASTER
  | RS_TYPE_PROGRAM_STORE | RS_TYPE_FONT =>
      Ok (mkComponent dt dk norm vecSize 32 (mBitsUnpadded this) 32 false false isPixel)
  | RS_TYPE_FLOAT_16 => lanes c 16 true false
  | RS_TYPE_FLOAT_32 => lanes c 32 true false
  | RS_TYPE_FLOAT_64 => lanes c 64 true false
  | RS_TYPE_SIGNED_8 => lanes c 8 false true
  | RS_TYPE_SIGNED_16 => lanes c 16 false true
  | RS_TYPE_SIGNED_32 => lanes c 32 false true
  | RS_TYPE_SIGNED_64 => lanes c 64 false true
  | RS_TYPE_UNSIGNED_8 => lanes c 8 false false
  | RS_TYPE_UNSIGNED_16 => lanes c 16 false false
  | RS_TYPE_UNSIGNED_32 => lanes c 32 false false
  | RS_TYPE_UNSIGNED_64 => lanes c 64 false false
  | RS_TYPE_BOOLEAN => lanes c 8 false false
  | RS_TYPE_INVALID | RsDataType_cast _ => set_bits c
  end.

(** The conjunction of the [rsAssert] conditions [set] evaluates. *)
Definition set_asserts (dt : RsDataType) (dk : RsDataKind) (norm : bool) (vecSize : Z) : bool :=
  (vecSize <=? 4) &&
  match dk with
  | RS_KIND_PIXEL_L | RS_KIND_PIXEL_A | RS_KIND_PIXEL_YUV => (vecSize =? 1) && norm
  | RS_KIND_PIXEL_LA => (vecSize =? 2) && norm
  | RS_KIND_PIXEL_RGB => (vecSize =? 3) && norm
  | RS_KIND_PIXEL_RGBA => (vecSize =? 4) && norm
  | RS_KIND_INVALID => false
  | _ => true
  end &&
  match dt with
  | RS_TYPE_UNSIGNED_5_6_5 => bool_decide (dk = RS_KIND_PIXEL_RGB)
  | RS_TYPE_UNSIGNED_5_5_5_1 | RS_TYPE_UNSIGNED_4_4_4_4 => bool_decide (dk = RS_KIND_PIXEL_RGBA)
  | RS_TYPE_MATRIX_4X4 | RS_TYPE_MATRIX_3X3 | RS_TYPE_MATRIX_2X2
  | RS_TYPE_ELEMENT | RS_TYPE_TYPE | RS_TYPE_ALLOCATION | RS_TYPE_SAMPLER | RS_TYPE_SCRIPT
  | RS_TYPE_MESH | RS_TYPE_PROGRAM_FRAGMENT | RS_TYPE_PROGRAM_VERTEX | RS_TYPE_PROGRAM_RASTER
  | RS_TYPE_PROGRAM_STORE | RS_TYPE_FONT =>
      (vecSize =? 1) && negb norm && bool_decide (dk = RS_KIND_USER)
  | RS_TYPE_INVALID | RsDataType_cast _ => false
  | _ => true
  end.

(** [Component::Component()]: [set(RS_TYPE_NONE, RS_KIND_USER, false, 1)] on raw memory. *)
Definition Component_new : Component :=
  mkComponent RS_TYPE_NONE RS_KIND_USER false 1 0 None 0 false false false.

Definition isReference (c : Component) : bool :=
  RsDataType_Z (mType c) >=? RsDataType_Z RS_TYPE_ELEMENT.

Definition gTypeBasicStrings : list string :=
  ["NONE"; "F16"; "F32"; "F64"; "S8"; "S16"; "S32"; "S64"; "U8"; "U16"; "U32"; "U64";
   "BOOLEAN"; "UP_565"; "UP_5551"; "UP_4444"; "MATRIX_4X4"; "MATRIX_3X3"; "MATRIX_2X2"]%string.

Definition gTypeObjStrings : list string :=
  ["ELEMENT"; "TYPE"; "ALLOCATION"; "SAMPLER"; "SCRIPT"; "MESH"; "PROGRAM_FRAGMENT";
   "PROGRAM_VERTEX"; "PROGRAM_RASTER"; "PROGRAM_STORE"]%string.

Definition gKindStrings : list string :=
  ["USER"; "COLOR"; "POSITION"; "TEXTURE"; "NORMAL"; "INDEX"; "POINT_SIZE"; "PIXEL_L";
   "PIXEL_A"; "PIXEL_LA"; "PIXEL_RGB"; "PIXEL_RGBA"]%string.

(** The two table lookups of [dumpLOGV]. *)
Definition dumpLOGV (c : Component) : outcome (string * string) :=
  t ← (if RsDataType_Z (mType c) >=? RsDataType_Z RS_TYPE_ELEMENT
       then znth gTypeObjStrings (RsDataType_Z (mType c) - RsDataType_Z RS_TYPE_ELEMENT)
       else znth gTypeBasicStrings (RsDataType_Z (mType c)));
  k ← znth gKindStrings (RsDataKind_Z (mKind c));
  Ok (t, k).

Definition serialize (c : Component) (s : OStream) : outcome OStream :=
  s ← addU8 (u8 (RsDataType_Z (mType c))) s;
  s ← addU8 (u8 (RsDataKind_Z (mKind c))) s;
  s ← addU8 (if mNormalized c then 1 else 0) s;
  addU32 (mVectorSize c) s.

Definition loadFromStream (this : Component) (i : IStream) : outcome (Component * IStream) :=
  '(t, i) ← loadU8 i;
  '(k, i) ← loadU8 i;
  '(temp, i) ← loadU8 i;
  '(vec, i) ← loadU32 i;
  c ← set this (RsDataType_of t) (RsDataKind_of k) (negb (temp =? 0)) vec;
  Ok (c, i).

(** ** Layout computed by [set] *)

(** The width of one lane, for the types that are vectors of equal lanes. *)
Definition lane_bits (dt : RsDataType) : option Z :=
  match dt with
  | RS_TYPE_FLOAT_16 | RS_TYPE_SIGNED_16 | RS_TYPE_UNSIGNED_16 => Some 16
  | RS_TYPE_FLOAT_32 | RS_TYPE_SIGNED_32 | RS_TYPE_UNSIGNED_32 => Some 32
  | RS_TYPE_FLOAT_64 | RS_TYPE_SIGNED_64 | RS_TYPE_UNSIGNED_64 => Some 64
  | RS_TYPE_SIGNED_8 | RS_TYPE_UNSIGNED_8 | RS_TYPE_BOOLEAN => Some 8
  | RS_TYPE_MATRIX_4X4 => Some 512
  | RS_TYPE_MATRIX_3X3 => Some 288
  | RS_TYPE_MATRIX_2X2 => Some 128
  | _ => None
  end.

(** Vectors of three lanes take the room of four. *)
Definition padded_lanes (v : Z) : Z := if v =? 3 then 4 else v.

Lemma rsHigherPow2_vec v : 1 <= v <= 4 -> rsHigherPow2 v = Ok (padded_lanes v).
Proof. intros. assert (v = 1 \/ v = 2 \/ v = 3 \/ v = 4) as [->|[->|[->| ->]]] by lia; done. Qed.

Lemma set_lanes this dt dk norm v b :
  lane_bits dt = Some b -> 1 <= v <= 4 ->
  exists c, set this dt dk norm v = Ok c /\ mType c = dt /\ mKind c = dk /\ mNormalized c = norm /\
    mVectorSize c = v /\ mBits c = b * padded_lanes v /\ mBitsUnpadded c = Some (b * v).
Proof.
  intros Hb Hv.
  assert (Hu : forall b, 0 <= b <= 512 -> u32 (b * padded_lanes v) = b * padded_lanes v /\ u32 (b * v) = b * v).
  { intros b' Hb'. unfold padded_lanes. destruct (v =? 3); split; apply u32_small; nia. }
  destruct dt; cbn in Hb; try done; injection Hb as <-; unfold set, lanes, set_bits; cbn;
    rewrite rsHigherPow2_vec by done; cbn; eexists; (split; [reflexivity|]); cbn;
    match goal with |- context [u32 (?b * _)] => destruct (Hu b) as [-> ->]; [lia|] end; done.
Qed.

(** Only the bits that [set] leaves unwritten depend on the object it is called on. *)
Lemma set_packed this dt dk norm v :
  dt ∈ [RS_TYPE_UNSIGNED_5_6_5; RS_TYPE_UNSIGNED_5_5_5_1; RS_TYPE_UNSIGNED_4_4_4_4] ->
  exists c, set this dt dk norm v = Ok c /\ mBits c = 16 /\ mNormalized c = true /\
    mVectorSize c = (if decide (dt = RS_TYPE_UNSIGNED_5_6_5) then 3 else 4) /\
    mBitsUnpadded c = mBitsUnpadded this.
Proof.
  rewrite !elem_of_cons, elem_of_nil. intros [->|[->|[->|[]]]]; eexists; (split; [reflexivity|done]).
Qed.

(** For every lane type and every vector size from 1 to 4, [set] records
    [lanes * width] unpadded bits and pads a vector of three to four lanes. *)
Theorem component_layout this dt dk norm v b :
  lane_bits dt = Some b -> 1 <= v <= 4 ->
  exists c, set this dt dk norm v = Ok c /\
    mBitsUnpadded c = Some (b * v) /\ mBits c = b * padded_lanes v /\
    b * v <= mBits c < 2 * (b * v) /\ (mBits c = b * v <-> v <> 3).
Proof.
  intros Hb Hv. destruct (set_lanes this dt dk norm v b Hb Hv) as (c & -> & _ & _ & _ & _ & HB & HU).
  assert (0 < b) by (destruct dt; cbn in Hb; try done; injection Hb as <-; lia).
  exists c. rewrite HB, HU. unfold padded_lanes. destruct (Z.eqb_spec v 3); split_and!; (done || nia).
Qed.

Lemma component_layout_witness :
  lane_bits RS_TYPE_FLOAT_32 = Some 32 /\
  exists c, set Component_new RS_TYPE_FLOAT_32 RS_KIND_USER false 3 = Ok c /\
    mBitsUnpadded c = Some (32 * 3) /\ mBits c = 32 * padded_lanes 3 /\
    32 * 3 <= mBits c < 2 * (32 * 3) /\ (mBits c = 32 * 3 <-> 3 <> 3).
Proof. split; [reflexivity|]. apply component_layout; [reflexivity|lia]. Defined.

(** ** Serialization *)

Lemma set_bits_self c c' : set_bits c = Ok c' ->
  mType c' = mType c /\ mKind c' = mKind c /\ mNormalized c' = mNormalized c /\ mVectorSize c' = mVectorSize c.
Proof. unfold set_bits. intros H. fwd. done. Qed.

(** Running [set] on the recorded fields gives the same component. *)
Lemma set_idempotent dt dk norm v c :
  set Component_new dt dk norm v = Ok c ->
  set Component_new (mType c) (mKind c) (mNormalized c) (mVectorSize c) = Ok c.
Proof.
  intros H. assert (mType c = dt /\ mKind c = dk) as [-> ->].
  { destruct dt; cbn in H; try (injection H as <-; done); apply set_bits_self in H; naive_solver. }
  destruct dt; cbn in H; try (injection H as <-; done);
    pose proof (set_bits_self _ _ H) as (_ & _ & -> & ->); exact H.
Qed.

(** The types for which [set] overrides the vector size and the normalisation. *)
Definition packed_type (dt : RsDataType) : bool :=
  match dt with
  | RS_TYPE_UNSIGNED_5_6_5 | RS_TYPE_UNSIGNED_5_5_5_1 | RS_TYPE_UNSIGNED_4_4_4_4 => true
  | _ => false
  end.

Lemma set_total this dt dk norm v : 0 <= v <= 2 ^ 31 -> exists c, set this dt dk norm v = Ok c.
Proof.
  intros Hv. assert (exists p, rsHigherPow2 v = Ok p) as [p Hp].
  { destruct (decide (v = 0)) as [->|]; [by eexists|].
    destruct (rsHigherPow2_least v) as (k & _ & E & _); [lia|]. eauto. }
  destruct dt; unfold set, lanes, set_bits; cbn; rewrite ?Hp; cbn; eauto.
Qed.

Lemma set_key this dt dk norm v c :
  set this dt dk norm v = Ok c ->
  mType c = dt /\ mKind c = dk /\ (packed_type dt = false -> mNormalized c = norm /\ mVectorSize c = v).
Proof.
  intros E. destruct dt; cbn in E; try (injection E as <-; done);
    apply set_bits_self in E; cbn in E; naive_solver.
Qed.

Definition byte_type (dt : RsDataType) : Prop :=
  0 <= RsDataType_Z dt < 256 /\ RsDataType_of (RsDataType_Z dt) = dt.
Definition byte_kind (dk : RsDataKind) : Prop :=
  0 <= RsDataKind_Z dk < 256 /\ RsDataKind_of (RsDataKind_Z dk) = dk.

Lemma codec_serialize C c :
  16 <= C -> byte_type (mType c) -> byte_kind (mKind c) -> 0 <= mVectorSize c < 2 ^ 32 ->
  set Component_new (mType c) (mKind c) (mNormalized c) (mVectorSize c) = Ok c ->
  codec C 35 (serialize c) (loadFromStream Component_new) c.
Proof.
  intros HC [Ht Ht'] [Hk Hk'] Hv Hset. unfold serialize, loadFromStream.
  rewrite !(u8_small (_ _)) by lia.
  eapply codec_weaken; [|eapply codec_bind; [|by apply codec_U8|]; [|
    eapply codec_bind; [|by apply codec_U8|]; [|
    eapply codec_bind; [|apply codec_U8; [done|by destruct (mNormalized c)]|]]]].
  5: { intros s Hwf Hroom.
       destruct (codec_U32 C (mVectorSize c) HC Hv s Hwf Hroom) as (s' & ? & ? & ? & ? & Hd).
       exists s'. split_and!; [done..|]. intros bytes Hb. rewrite Hd by done. cbn.
       rewrite Ht', Hk'. replace (negb _) with (mNormalized c) by by destruct (mNormalized c).
       by rewrite Hset. }
  all: lia.
Qed.

(** A component [set] built is read back unchanged from its serialized form,
    provided its type and kind fit the single byte each is written as. *)
Theorem component_roundtrip C dt dk norm v c :
  16 <= C -> byte_type dt -> byte_kind dk -> 0 <= v < 2 ^ 32 ->
  set Component_new dt dk norm v = Ok c ->
  codec C 35 (serialize c) (loadFromStream Component_new) c.
Proof.
  intros HC Ht Hk Hv Hset.
  assert (mType c = dt /\ mKind c = dk /\ 0 <= mVectorSize c < 2 ^ 32) as (? & ? & ?).
  { destruct dt; cbn in Hset; try (injection Hset as <-; cbn; split_and!; (done || lia));
      apply set_bits_self in Hset; cbn in Hset; naive_solver lia. }
  apply codec_serialize; [done|congruence..|done|]. by eapply set_idempotent.
Qed.

Lemma component_roundtrip_witness :
  exists c, set Component_new RS_TYPE_UNSIGNED_8 RS_KIND_PIXEL_RGBA true 4 = Ok c /\
    codec 16 35 (serialize c) (loadFromStream Component_new) c.
Proof.
  eexists. split; [reflexivity|].
  apply (component_roundtrip 16 RS_TYPE_UNSIGNED_8 RS_KIND_PIXEL_RGBA true 4);
    [lia|split; [vm_compute; split; congruence|reflexivity]
    |split; [vm_compute; split; congruence|reflexivity]|lia|reflexivity].
Defined.

(** The object types, numbered from 1000, do not survive: the byte written
    for one is read back as a type that is no reference and takes no bits. *)
Theorem reference_component_lost C dt c :
  16 <= C -> 1000 <= RsDataType_Z dt < 1011 -> (forall v, dt <> RsDataType_cast v) ->
  set Component_new dt RS_KIND_USER false 1 = Ok c ->
  isReference c = true /\
  exists c', codec C 35 (serialize c) (loadFromStream Component_new) c' /\
    isReference c' = false /\ mBits c' = 0 /\ set_asserts (mType c') (mKind c') false 1 = false.
Proof.
  intros HC Hdt Hcast Hset.
  assert (Hb : exists b, RsDataType_of (u8 (RsDataType_Z dt)) = RsDataType_cast b /\
      u8 (RsDataType_Z dt) = b /\ 232 <= b < 243 /\ c = mkComponent dt RS_KIND_USER false 1 32 None 32 false false false).
  { destruct dt; cbn in Hdt; try lia; try (by destruct (Hcast v)); injection Hset as <-;
      (eexists; split_and!; [reflexivity|reflexivity|vm_compute; congruence|vm_compute; congruence|reflexivity]). }
  destruct Hb as (b & Hof & Hu & Hrange & ->).
  split; [unfold isReference; cbn; destruct (Z.geb_spec (RsDataType_Z dt) 1000); [done|lia]|].
  exists (mkComponent (RsDataType_cast b) RS_KIND_USER false 1 0 (Some 0) 0 false false false).
  split_and!; [|unfold isReference; cbn; destruct (Z.geb_spec b 1000); [lia|done]|done|done].
  intros s Hwf Hroom.
  destruct (codec_serialize C (mkComponent (RsDataType_cast b) RS_KIND_USER false 1 0 (Some 0) 0 false false false)
    HC) with (s := s) as (s' & E & ?); cbn; try done; try lia.
  - split; [cbn; lia|]. cbn [RsDataType_Z]. by rewrite <- Hof, Hu.
  - exists s'. split; [|done]. rewrite <- E. unfold serialize. cbn. rewrite Hu.
    by rewrite (u8_small b) by lia.
Qed.

Lemma reference_component_lost_witness :
  exists c, set Component_new RS_TYPE_ALLOCATION RS_KIND_USER false 1 = Ok c /\ isReference c = true /\
  exists c', codec 16 35 (serialize c) (loadFromStream Component_new) c' /\
    isReference c' = false /\ mBits c' = 0 /\ set_asserts (mType c') (mKind c') false 1 = false.
Proof.
  eexists. split; [reflexivity|].
  apply (reference_component_lost 16 RS_TYPE_ALLOCATION);
    [lia|vm_compute; split; congruence|discriminate|reflexivity].
Defined.

(** The name tables [dumpLOGV] indexes are shorter than the enumerations: it
    stays inside them for every basic type with a colour kind, and reads past
    the end for fonts and for depth and YUV pixels. *)
Theorem dumpLOGV_bounds c :
  (RsDataType_Z (mType c) ∈ seqZ 0 19 \/ RsDataType_Z (mType c) ∈ seqZ 1000 10) /\
    RsDataKind_Z (mKind c) ∈ seqZ 0 12 <-> exists names, dumpLOGV c = Ok names.
Proof.
  unfold dumpLOGV. rewrite !elem_of_seqZ. cbn [RsDataType_Z].
  set (t := RsDataType_Z (mType c)). set (k := RsDataKind_Z (mKind c)).
  assert (Hz : forall (l : list string) i, (exists x, znth l i = Ok x) <-> 0 <= i < zlen l).
  { intros l i. unfold znth. case_decide as Hd; [|naive_solver].
    destruct (lookup_lt_is_Some_2 l (Z.to_nat i)) as [x Hx]; [unfold zlen in Hd; lia|].
    rewrite Hx. naive_solver. }
  pose proof (Hz gTypeObjStrings (t - 1000)) as Ho. pose proof (Hz gTypeBasicStrings t) as Hb.
  pose proof (Hz gKindStrings k) as Hk.
  change (zlen gTypeObjStrings) with 10 in Ho. change (zlen gTypeBasicStrings) with 19 in Hb.
  change (zlen gKindStrings) with 12 in Hk.
  split.
  - intros [Ht Hkk]. destruct (proj2 Hk) as [kn ->]; [lia|].
    destruct (Z.geb_spec t 1000).
    + destruct (proj2 Ho) as [tn ->]; [lia|]. by eexists.
    + destruct (proj2 Hb) as [tn ->]; [lia|]. by eexists.
  - intros [names H]. fwd. assert (0 <= k < 12) by (apply Hk; eauto).
    destruct (Z.geb_spec t 1000).
    + assert (0 <= t - 1000 < 10) by (apply Ho; eauto). lia.
    + assert (0 <= t < 19) by (apply Hb; eauto). lia.
Qed.

End Component.
