(* ===== verification/ObjectBase.v ===== *)
(** * ObjectBase: reference counts, the object list and deletion
    ([rsObjectBase.h], [rsObjectBase.cpp])

    Objects live in a table keyed by identity; a key that is absent is a
    deleted object, and touching it is a [UseAfterFree] fault.  What a derived
    class adds is an argument: the interface [ObjectClass] gives the
    [ObjectBaseRef] members the destructor of an object releases and its
    [preDestroy] method, which edits the context's caches.

    [delete] takes the object out of the table and then runs the destructors of
    its references, in the order of the members; that order is a worklist, so
    a cascade of deletions is one loop.  Reference counts are [int32_t]. *)

From S2P Require Import Prelude Stream.
Import Stream.

Module ObjectBase.

Abbreviation id := positive.

(** What a class derived from [ObjectBase] provides. *)
Class ObjectClass (B G : Type) := {
  held_refs : B -> list id;               (** the [ObjectBaseRef]s it owns *)
  preDestroy : id -> B -> G -> G          (** cache management before deletion *)
}.

Record Obj (B : Type) := mkObj {
  mUserRefCount : Z;
  mSysRefCount : Z;
  mPrev : option id;
  mNext : option id;
  mName : option cstr;
  body : B
}.
Arguments mkObj {B}.
Arguments mUserRefCount {B}. Arguments mSysRefCount {B}. Arguments mPrev {B}.
Arguments mNext {B}. Arguments mName {B}. Arguments body {B}.

Record Ctx (B G : Type) := mkCtx {
  objs : gmap id (Obj B);
  mObjHead : option id;
  nextId : id;                            (** the next address the allocator returns *)
  caches : G
}.
Arguments mkCtx {B G}.
Arguments objs {B G}. Arguments mObjHead {B G}. Arguments nextId {B G}. Arguments caches {B G}.

Section ops.
Context {B G : Type} `{ObjectClass B G}.

Definition set_user (o : Obj B) (n : Z) : Obj B := mkObj n (mSysRefCount o) (mPrev o) (mNext o) (mName o) (body o).
Definition set_sys (o : Obj B) (n : Z) : Obj B := mkObj (mUserRefCount o) n (mPrev o) (mNext o) (mName o) (body o).
Definition set_prev (o : Obj B) (p : option id) : Obj B := mkObj (mUserRefCount o) (mSysRefCount o) p (mNext o) (mName o) (body o).
Definition set_next (o : Obj B) (p : option id) : Obj B := mkObj (mUserRefCount o) (mSysRefCount o) (mPrev o) p (mName o) (body o).
Definition set_name (o : Obj B) (s : option cstr) : Obj B := mkObj (mUserRefCount o) (mSysRefCount o) (mPrev o) (mNext o) s (body o).
Definition set_body (o : Obj B) (b : B) : Obj B := mkObj (mUserRefCount o) (mSysRefCount o) (mPrev o) (mNext o) (mName o) b.

Definition with_objs (c : Ctx B G) (m : gmap id (Obj B)) : Ctx B G := mkCtx m (mObjHead c) (nextId c) (caches c).
Definition with_head (c : Ctx B G) (h : option id) : Ctx B G := mkCtx (objs c) h (nextId c) (caches c).
Definition with_caches (c : Ctx B G) (g : G) : Ctx B G := mkCtx (objs c) (mObjHead c) (nextId c) g.

(** [*p]: the object at an address. *)
Definition deref (c : Ctx B G) (x : id) : outcome (Obj B) := of_option UseAfterFree (objs c !! x).

(** Update a field of the object at an address. *)
Definition upd (c : Ctx B G) (x : id) (f : Obj B -> Obj B) : outcome (Ctx B G) :=
  o ← deref c x; Ok (with_objs c (<[x := f o]> (objs c))).

(** ** The object list *)

Definition add (c : Ctx B G) (this : id) : outcome (Ctx B G) :=
  c ← upd c this (fun o => set_next o (mObjHead c));
  c ← match mObjHead c with
      | Some h => upd c h (fun o => set_prev o (Some this))
      | None => Ok c
      end;
  Ok (with_head c (Some this)).

Definition remove (c : Ctx B G) (this : id) : outcome (Ctx B G) :=
  o ← deref c this;
  let c := if decide (mObjHead c = Some this) then with_head c (mNext o) else c in
  c ← match mPrev o with
      | Some p => upd c p (fun po => set_next po (mNext o))
      | None => Ok c
      end;
  c ← match mNext o with
      | Some n => upd c n (fun no => set_prev no (mPrev o))
      | None => Ok c
      end;
  upd c this (fun o => set_next (set_prev o None) None).

(** [new T(rsc)]: the constructor [ObjectBase(rsc)] then the members of [T]. *)
Definition new_obj (c : Ctx B G) (b : B) : outcome (id * Ctx B G) :=
  let x := nextId c in
  let c := mkCtx (<[x := mkObj 0 0 None None None b]> (objs c)) (mObjHead c) (Pos.succ x) (caches c) in
  c ← add c x;
  Ok (x, c).

(** ** Reference counts *)

Definition incUserRef (c : Ctx B G) (x : id) : outcome (Ctx B G) :=
  upd c x (fun o => set_user o (s32 (mUserRefCount o + 1))).

Definition incSysRef (c : Ctx B G) (x : id) : outcome (Ctx B G) :=
  upd c x (fun o => set_sys o (s32 (mSysRefCount o + 1))).

(** [checkDelete]: deleting an object leaves the references it owned to be
    released; they are returned with the result. *)
Definition checkDelete1 (c : Ctx B G) (x : id) : outcome (bool * list id * Ctx B G) :=
  o ← deref c x;
  if negb (mUserRefCount o =? 0) || negb (mSysRefCount o =? 0) then Ok (false, [], c)
  else
    c ← remove c x;
    o ← deref c x;
    let c := with_caches c (preDestroy x (body o) (caches c)) in
    Ok (true, held_refs (body o), with_objs c (delete x (objs c))).

(** The body of [decSysRef], up to the destructors its [delete] runs. *)
Definition decSysRef1 (c : Ctx B G) (x : id) : outcome (bool * list id * Ctx B G) :=
  o ← deref c x;
  let old := mSysRefCount o in
  c ← upd c x (fun o => set_sys o (s32 (old - 1)));
  if old <=? 1 then
    o ← deref c x;
    if mUserRefCount o <=? 0 then checkDelete1 c x else Ok (false, [], c)
  else Ok (false, [], c).

(** The destructors of a list of references, and of those they delete in turn. *)
Fixpoint release (fuel : nat) (pending : list id) (c : Ctx B G) : outcome (Ctx B G) :=
  match pending with
  | [] => Ok c
  | x :: rest =>
      match fuel with
      | O => Fault OutOfFuel
      | S n =>
          '(_, more, c) ← decSysRef1 c x;
          release n (more ++ rest) c
      end
  end.

(** One release per reference held anywhere, and one for the caller's. *)
Definition total_refs (c : Ctx B G) : nat :=
  map_fold (fun _ o n => (length (held_refs (body o)) + n)%nat) 0%nat (objs c).

Definition release_all (pending : list id) (c : Ctx B G) : outcome (Ctx B G) :=
  release (length pending + total_refs c) pending c.

Definition checkDelete (c : Ctx B G) (x : id) : outcome (bool * Ctx B G) :=
  '(b, more, c') ← checkDelete1 c x;
  c'' ← release (length more + total_refs c') more c';
  Ok (b, c'').

Definition decSysRef (c : Ctx B G) (x : id) : outcome (bool * Ctx B G) :=
  '(b, more, c') ← decSysRef1 c x;
  c'' ← release (length more + total_refs c') more c';
  Ok (b, c'').

Definition decUserRef (c : Ctx B G) (x : id) : outcome (bool * Ctx B G) :=
  o ← deref c x;
  let old := mUserRefCount o in
  c ← upd c x (fun o => set_user o (s32 (old - 1)));
  if old <=? 1 then
    o ← deref c x;
    if mSysRefCount o <=? 0 then checkDelete c x else Ok (false, c)
  else Ok (false, c).

Definition zeroUserRef (c : Ctx B G) (x : id) : outcome (bool * Ctx B G) :=
  c ← upd c x (fun o => set_user o 0);
  o ← deref c x;
  if mSysRefCount o <=? 0 then checkDelete c x else Ok (false, c).

(** [while (o) { if (o->visit()) o = mObjHead; else o = o->mNext; }]: the loop of
    [zeroAllUserRef] and of [freeAllChildren]. *)
Fixpoint visit_loop (visit : Ctx B G -> id -> outcome (bool * Ctx B G))
    (fuel : nat) (c : Ctx B G) (o : option id) : outcome (Ctx B G) :=
  match o with
  | None => Ok c
  | Some x =>
      match fuel with
      | O => Fault OutOfFuel
      | S n =>
          '(deleted, c) ← visit c x;
          if (deleted : bool) then visit_loop visit n c (mObjHead c)
          else ob ← deref c x; visit_loop visit n c (mNext ob)
      end
  end.

(** A pass visits each object once and every restart follows a deletion. *)
Definition zeroAllUserRef (c : Ctx B G) : outcome (Ctx B G) :=
  visit_loop zeroUserRef (S (size (objs c)) * S (size (objs c))) c (mObjHead c).

(** [freeChildren] is virtual. *)
Definition freeAllChildren (freeChildren : Ctx B G -> id -> outcome (bool * Ctx B G))
    (c : Ctx B G) : outcome (Ctx B G) :=
  visit_loop freeChildren (S (size (objs c)) * S (size (objs c))) c (mObjHead c).

(** [while (o) { if (o == obj) return true; o = o->mNext; }] *)
Fixpoint isValid_loop (fuel : nat) (c : Ctx B G) (o : option id) (obj : id) : outcome bool :=
  match o with
  | None => Ok false
  | Some x =>
      if decide (x = obj) then Ok true
      else
        match fuel with
        | O => Fault OutOfFuel
        | S n => ob ← deref c x; isValid_loop n c (mNext ob) obj
        end
  end.

Definition isValid (c : Ctx B G) (obj : id) : outcome bool :=
  isValid_loop (size (objs c)) c (mObjHead c) obj.

(** [setName(name, len)]: [calloc(len + 1)] and a copy of [len] bytes. *)
Definition setName (c : Ctx B G) (x : id) (name : list Z) (len : Z) : outcome (Ctx B G) :=
  bs ← zread name 0 len;
  upd c x (fun o => set_name o (Some (cstr_of bs))).

Definition assignName (c : Ctx B G) (x : id) (s : option cstr) : outcome (Ctx B G) :=
  upd c x (fun o => set_name o s).

Definition strdup_name (c : Ctx B G) (x : id) (name : cstr) : outcome (Ctx B G) :=
  upd c x (fun o => set_name o (Some name)).

(** ** [ObjectBaseRef]: a member that holds a reference *)

Definition ref_new (c : Ctx B G) (ref : option id) : outcome (option id * Ctx B G) :=
  match ref with
  | Some x => c ← incSysRef c x; Ok (Some x, c)
  | None => Ok (None, c)
  end.

Definition ref_clear (c : Ctx B G) (mRef : option id) : outcome (option id * Ctx B G) :=
  match mRef with
  | Some x => '(_, c) ← decSysRef c x; Ok (None, c)
  | None => Ok (None, c)
  end.

Definition ref_set (c : Ctx B G) (mRef ref : option id) : outcome (option id * Ctx B G) :=
  if decide (mRef = ref) then Ok (mRef, c)
  else
    '(_, c) ← ref_clear c mRef;
    ref_new c ref.

(** ** The list invariant

    [dll c l]: the objects of the table are linked, in the order [l], by
    [mNext] and [mPrev], starting at [mObjHead]. *)

Record dll (c : Ctx B G) (l : list id) : Prop := {
  dll_nodup : NoDup l;
  dll_head : mObjHead c = l !! 0%nat;
  dll_dom : forall x, x ∈ l <-> is_Some (objs c !! x);
  dll_next : forall i x o, l !! i = Some x -> objs c !! x = Some o -> mNext o = l !! S i;
  dll_prev : forall i x o, l !! i = Some x -> objs c !! x = Some o ->
    mPrev o = match i with O => None | S j => l !! j end;
  dll_fresh : forall x, x ∈ l -> (x < nextId c)%positive
}.

Lemma dll_lookup c l i x : dll c l -> l !! i = Some x -> exists o, objs c !! x = Some o.
Proof. intros Hd Hi. apply (dll_dom _ _ Hd). by eapply list_elem_of_lookup_2. Qed.

Lemma dll_index c l x o : dll c l -> objs c !! x = Some o -> exists i, l !! i = Some x.
Proof. intros Hd Hx. apply list_elem_of_lookup, (dll_dom _ _ Hd). eauto. Qed.

(** Counts and bodies may change freely: the list only looks at the links. *)
Definition same_links (o o' : Obj B) : Prop := mNext o' = mNext o /\ mPrev o' = mPrev o.

Lemma is_Some_insert (m : gmap id (Obj B)) x o y :
  is_Some (<[x := o]> m !! y) <-> y = x \/ is_Some (m !! y).
Proof.
  rewrite lookup_insert. case_decide as E; [subst; split; eauto|].
  split; [by right|]. intros [->|?]; done.
Qed.

Lemma dll_upd c l x o o' :
  dll c l -> objs c !! x = Some o -> same_links o o' -> dll (with_objs c (<[x := o']> (objs c))) l.
Proof.
  intros [Hnd Hh Hdom Hn Hp Hf] Hx [En Ep]. split; cbn; try done.
  - intros y. rewrite Hdom, is_Some_insert. split; [by right|].
    intros [->|?]; [by rewrite Hx|done].
  - intros i y oy Hi Hy. destruct (decide (x = y)) as [->|]; simplify_map_eq; [|eauto].
    rewrite En. eauto.
  - intros i y oy Hi Hy. destruct (decide (x = y)) as [->|]; simplify_map_eq; [|eauto].
    rewrite Ep. eauto.
Qed.

Lemma dll_caches c l g : dll c l -> dll (with_caches c g) l.
Proof. intros []. by split. Qed.

(** What a list operation may do to an object: change its links. *)
Definition relinked (o o' : Obj B) : Prop :=
  mUserRefCount o' = mUserRefCount o /\ mSysRefCount o' = mSysRefCount o /\
  mName o' = mName o /\ body o' = body o.

(** [new_obj] pushes the new object at the front. *)
Lemma new_obj_links c b :
  objs c !! nextId c = None ->
  (forall h, mObjHead c = Some h -> is_Some (objs c !! h)) ->
  exists c', new_obj c b = Ok (nextId c, c') /\ caches c' = caches c /\
    nextId c' = Pos.succ (nextId c) /\ mObjHead c' = Some (nextId c) /\
    objs c' !! nextId c = Some (mkObj 0 0 None (mObjHead c) None b) /\
    (forall y, y <> nextId c -> objs c' !! y =
       (fun o => if decide (mObjHead c = Some y) then set_prev o (Some (nextId c)) else o) <$> objs c !! y).
Proof.
  intros Hfresh Hhead. unfold new_obj, add, upd, deref. cbn.
  rewrite lookup_insert_eq. cbn. rewrite insert_insert_eq.
  destruct (mObjHead c) as [h|] eqn:Eh; cbn.
  - destruct (Hhead h eq_refl) as [oh Hoh].
    assert (h <> nextId c) by (intros ->; congruence).
    rewrite lookup_insert_ne, Hoh by done. cbn. eexists. split; [done|]. cbn. split_and!; try done.
    + by rewrite lookup_insert_ne, lookup_insert_eq by done.
    + intros y Hy. destruct (decide (h = y)) as [->|Hne].
      * rewrite lookup_insert_eq, Hoh. cbn. by rewrite decide_True.
      * rewrite !lookup_insert_ne by done. destruct (objs c !! y); cbn; [|done].
        by rewrite decide_False by congruence.
  - eexists. split; [done|]. cbn. split_and!; try done.
    + by rewrite lookup_insert_eq.
    + intros y Hy. rewrite lookup_insert_ne by done. by destruct (objs c !! y).
Qed.

Lemma new_obj_dll c l b :
  dll c l -> objs c !! nextId c = None ->
  exists c', new_obj c b = Ok (nextId c, c') /\ dll c' (nextId c :: l) /\ caches c' = caches c /\
    objs c' !! nextId c = Some (mkObj 0 0 None (mObjHead c) None b) /\
    (forall y o', y <> nextId c -> objs c' !! y = Some o' -> exists o, objs c !! y = Some o /\ relinked o o') /\
    (forall y o, y <> nextId c -> objs c !! y = Some o -> exists o', objs c' !! y = Some o' /\ relinked o o').
Proof.
  intros [Hnd Hh Hdom Hn Hp Hf] Hfresh.
  assert (Hxl : nextId c ∉ l) by (rewrite Hdom, Hfresh; by intros [? ?]).
  destruct (new_obj_links c b Hfresh) as (c' & -> & Hc & Hid & Hhd & Hx & Hy).
  { intros h Eh. apply Hdom. eapply list_elem_of_lookup_2. by rewrite <- Hh. }
  exists c'. split; [done|]. split_and!; [split|done|done|..].
  - by constructor.
  - done.
  - intros y. rewrite elem_of_cons, Hdom. destruct (decide (y = nextId c)) as [->|Hne].
    + rewrite Hx. split; eauto.
    + rewrite Hy, fmap_is_Some by done. split; [by intros [?|?]|by right].
  - intros [|i] y o Hi Ho; cbn in Hi.
    + by simplify_eq.
    + assert (y <> nextId c) by (intros ->; by eapply Hxl, list_elem_of_lookup_2).
      rewrite Hy in Ho by done. apply fmap_Some in Ho as (oy & Hoy & ->).
      transitivity (mNext oy); [by case_decide|]. by rewrite (Hn _ _ _ Hi Hoy).
  - intros [|i] y o Hi Ho; cbn in Hi.
    + by simplify_eq.
    + assert (y <> nextId c) by (intros ->; by eapply Hxl, list_elem_of_lookup_2).
      rewrite Hy in Ho by done. apply fmap_Some in Ho as (oy & Hoy & ->). case_decide as E; cbn.
      * rewrite Hh in E. assert (i = 0%nat) as -> by (eapply NoDup_lookup; eauto). done.
      * rewrite (Hp _ _ _ Hi Hoy). destruct i; [|done]. destruct E. by rewrite Hh.
  - intros y. rewrite elem_of_cons, Hid. intros [->|Hl]; [lia|]. apply Hf in Hl. lia.
  - intros y o' Hne Ho. rewrite Hy in Ho by done. apply fmap_Some in Ho as (oy & Hoy & ->).
    exists oy. split; [done|]. by case_decide.
  - intros y o Hne Ho. rewrite Hy, Ho by done. eexists. split; [done|]. by case_decide.
Qed.

(** How unlinking [o] changes the object at [y]. *)
Definition unlink (o : Obj B) (y : id) (oy : Obj B) : Obj B :=
  let oy := if decide (mPrev o = Some y) then set_next oy (mNext o) else oy in
  if decide (mNext o = Some y) then set_prev oy (mPrev o) else oy.

Lemma unlink_relinked o y oy : relinked oy (unlink o y oy).
Proof. unfold unlink. by repeat case_decide. Qed.

Lemma remove_links c x o :
  objs c !! x = Some o -> mPrev o <> Some x -> mNext o <> Some x ->
  (forall y, mPrev o = Some y -> is_Some (objs c !! y)) ->
  (forall y, mNext o = Some y -> is_Some (objs c !! y)) ->
  exists c', remove c x = Ok c' /\ caches c' = caches c /\ nextId c' = nextId c /\
    mObjHead c' = (if decide (mObjHead c = Some x) then mNext o else mObjHead c) /\
    objs c' !! x = Some (set_next (set_prev o None) None) /\
    (forall y, y <> x -> objs c' !! y = unlink o y <$> objs c !! y).
Proof.
  intros Hx Hpx Hnx Hp Hn. unfold remove, deref. rewrite Hx. cbn.
  set (c0 := if decide (mObjHead c = Some x) then with_head c (mNext o) else c).
  assert (H0 : objs c0 = objs c /\ caches c0 = caches c /\ nextId c0 = nextId c /\
    mObjHead c0 = (if decide (mObjHead c = Some x) then mNext o else mObjHead c))
    by (subst c0; by case_decide).
  destruct H0 as (Ho0 & Hc0 & Hi0 & Hh0).
  assert (exists c1, match mPrev o with Some p => upd c0 p (fun po => set_next po (mNext o)) | None => Ok c0 end = Ok c1 /\
    caches c1 = caches c0 /\ nextId c1 = nextId c0 /\ mObjHead c1 = mObjHead c0 /\
    forall y, objs c1 !! y = (fun oy => if decide (mPrev o = Some y) then set_next oy (mNext o) else oy) <$> objs c !! y)
    as (c1 & -> & Hc1 & Hi1 & Hh1 & Ho1).
  { destruct (mPrev o) as [p|] eqn:Ep.
    - destruct (Hp p eq_refl) as [op Hop]. unfold upd, deref. rewrite Ho0, Hop. cbn.
      eexists. split; [done|]. cbn. split_and!; try done. intros y. rewrite lookup_insert.
      destruct (decide (p = y)) as [->|]; [rewrite Hop; cbn; by rewrite decide_True|].
      destruct (objs c !! y); cbn; [|done]. by rewrite decide_False by congruence.
    - eexists. split; [done|]. split_and!; try done. intros y. rewrite Ho0. by destruct (objs c !! y). }
  cbn [mbind outcome_bind].
  assert (exists c2, match mNext o with Some n => upd c1 n (fun no => set_prev no (mPrev o)) | None => Ok c1 end = Ok c2 /\
    caches c2 = caches c0 /\ nextId c2 = nextId c0 /\ mObjHead c2 = mObjHead c0 /\
    forall y, objs c2 !! y = unlink o y <$> objs c !! y) as (c2 & -> & Hc2 & Hi2 & Hh2 & Ho2).
  { unfold unlink. destruct (mNext o) as [n|] eqn:En.
    - destruct (Hn n eq_refl) as [on Hon]. unfold upd, deref. rewrite Ho1, Hon. cbn.
      eexists. split; [done|]. cbn. split_and!; [congruence..|]. intros y. rewrite lookup_insert.
      destruct (decide (n = y)) as [->|]; [rewrite Hon; cbn; by rewrite (decide_True (P := Some y = Some y))|].
      rewrite Ho1. destruct (objs c !! y); cbn; [|done]. by rewrite (decide_False (P := Some n = Some y)) by congruence.
    - eexists. split; [done|]. split_and!; [congruence..|]. intros y. rewrite Ho1. by destruct (objs c !! y). }
  cbn [mbind outcome_bind]. unfold upd, deref. rewrite Ho2, Hx. cbn.
  eexists. split; [done|]. cbn. split_and!; [congruence..| |].
  - rewrite lookup_insert_eq. unfold unlink. by rewrite !decide_False by done.
  - intros y Hy. by rewrite lookup_insert_ne, Ho2 by done.
Qed.

(** Unlinking the [i]-th object and dropping it from the table. *)
Lemma remove_dll c l i x o g :
  dll c l -> l !! i = Some x -> objs c !! x = Some o ->
  exists c', remove c x = Ok c' /\ caches c' = caches c /\ nextId c' = nextId c /\
    objs c' !! x = Some (set_next (set_prev o None) None) /\
    (forall y, y <> x -> objs c' !! y = unlink o y <$> objs c !! y) /\
    dll (with_objs (with_caches c' g) (delete x (objs c'))) (delete i l).
Proof.
  intros [Hnd Hh Hdom Hn Hp Hf] Hi Hx.
  pose proof (Hn _ _ _ Hi Hx) as En. pose proof (Hp _ _ _ Hi Hx) as Ep.
  assert (Hne : forall j, j <> i -> l !! j <> Some x).
  { intros j Hj E. apply Hj. eapply NoDup_lookup; eauto. }
  assert (Hlive : forall j y, l !! j = Some y -> is_Some (objs c !! y)).
  { intros j y E. apply Hdom. by eapply list_elem_of_lookup_2. }
  destruct (remove_links c x o Hx) as (c' & -> & Hc & Hid & Hhd & Hox & Hoy).
  { rewrite Ep. destruct i as [|i]; [done|]. apply Hne. lia. }
  { rewrite En. apply Hne. lia. }
  { rewrite Ep. destruct i as [|i]; [done|]. apply Hlive. }
  { rewrite En. apply Hlive. }
  exists c'. split_and!; try done.
  assert (Hlen : (i < length l)%nat) by by eapply lookup_lt_Some.
  assert (Hidx : forall j y, delete i l !! j = Some y ->
    y <> x /\ l !! (if decide (j < i)%nat then j else S j) = Some y).
  { intros j y E. destruct (decide (j < i)%nat).
    - rewrite list_lookup_delete_lt in E by lia. split; [|done]. intros ->. by apply (Hne j); [lia|].
    - rewrite list_lookup_delete_ge in E by lia. split; [|done]. intros ->. by apply (Hne (S j)); [lia|]. }
  split; cbn.
  - eapply sublist_NoDup; [done|apply sublist_delete].
  - rewrite Hhd, Hh. destruct i as [|i].
    + rewrite decide_True by done. rewrite En. by rewrite list_lookup_delete_ge by lia.
    + rewrite decide_False by (apply Hne; lia). by rewrite list_lookup_delete_lt by lia.
  - intros y. destruct (decide (y = x)) as [->|Hyx].
    + rewrite lookup_delete_eq. split; [|by intros [? ?]].
      intros [j Hj]%list_elem_of_lookup. by apply Hidx in Hj as [? _].
    + rewrite lookup_delete_ne, Hoy, fmap_is_Some, <- Hdom by done.
      rewrite !list_elem_of_lookup. split.
      * intros [j Hj]. apply Hidx in Hj as [_ Hj]. eauto.
      * intros [j Hj]. destruct (decide (j < i)%nat).
        -- exists j. by rewrite list_lookup_delete_lt by lia.
        -- destruct (decide (j = i)) as [->|]; [congruence|].
           exists (pred j). rewrite list_lookup_delete_ge by lia. by replace (S (pred j)) with j by lia.
  - intros j y oy Hj Hy. apply Hidx in Hj as [Hyx Hj]. rewrite lookup_delete_ne, Hoy in Hy by done.
    apply fmap_Some in Hy as (o1 & Ho1 & ->). pose proof (Hn _ _ _ Hj Ho1) as E1.
    unfold unlink. rewrite En, Ep. destruct (decide (S j = i)) as [<-|Hji].
    + rewrite (decide_True (P := (j < S j)%nat)) in Hj by lia. rewrite (decide_True (P := l !! j = Some y)) by done.
      rewrite list_lookup_delete_ge by lia. by destruct (decide (l !! S (S j) = Some y)).
    + rewrite (decide_False (P := match i with 0%nat => None | S k => l !! k end = Some y)).
      2: { destruct i as [|i]; [done|]. intros E.
           assert (i = if decide (j < S i)%nat then j else S j) by (eapply NoDup_lookup; eauto).
           destruct (decide (j < S i)%nat); lia. }
      transitivity (mNext o1); [by destruct (decide (l !! S i = Some y))|]. rewrite E1.
      destruct (decide (j < i)%nat).
      * by rewrite list_lookup_delete_lt by lia.
      * by rewrite list_lookup_delete_ge by lia.
  - intros j y oy Hj Hy. apply Hidx in Hj as [Hyx Hj]. rewrite lookup_delete_ne, Hoy in Hy by done.
    apply fmap_Some in Hy as (o1 & Ho1 & ->). pose proof (Hp _ _ _ Hj Ho1) as E1.
    unfold unlink. rewrite En, Ep. destruct (decide (j = i)) as [->|Hji].
    + rewrite (decide_False (P := (i < i)%nat)) in Hj by lia. rewrite (decide_True (P := l !! S i = Some y)) by done.
      cbn. destruct i as [|i]; [done|]. by rewrite list_lookup_delete_lt by lia.
    + rewrite (decide_False (P := l !! S i = Some y)).
      2: { intros E. assert (S i = if decide (j < i)%nat then j else S j) by (eapply NoDup_lookup; eauto).
           destruct (decide (j < i)%nat); lia. }
      transitivity (mPrev o1); [by destruct (decide (_ = Some y))|]. rewrite E1.
      destruct (decide (j < i)%nat).
      * destruct j; [done|]. by rewrite list_lookup_delete_lt by lia.
      * destruct j; [lia|]. by rewrite list_lookup_delete_ge by lia.
  - intros y [j Hj]%list_elem_of_lookup. apply Hidx in Hj as [_ Hj]. rewrite Hid.
    apply Hf. by eapply list_elem_of_lookup_2.
Qed.

(** ** Counting references *)

Definition occ (x : id) (l : list id) : nat := length (filter (fun y => y = x) l).
Arguments occ : simpl never.

Lemma occ_nil x : occ x [] = 0%nat.
Proof. done. Qed.
Lemma occ_cons x y l : occ x (y :: l) = ((if decide (y = x) then 1 else 0) + occ x l)%nat.
Proof. unfold occ. rewrite filter_cons. by case_decide. Qed.
Lemma occ_app x l k : occ x (l ++ k) = (occ x l + occ x k)%nat.
Proof. unfold occ. by rewrite filter_app, length_app. Qed.
Lemma occ_reverse x l : occ x (reverse l) = occ x l.
Proof.
  induction l as [|y l IH]; [done|]. rewrite reverse_cons, occ_app, !occ_cons, occ_nil, IH. lia.
Qed.
Lemma occ_pos x l : (0 < occ x l)%nat <-> x ∈ l.
Proof.
  induction l as [|y l IH]; [rewrite occ_nil, elem_of_nil; lia|].
  rewrite occ_cons, elem_of_cons. case_decide; subst; split; intros; (naive_solver lia).
Qed.

(** The sum of a weight over the objects of a table. *)
Definition weigh (w : B -> nat) (m : gmap id (Obj B)) : nat :=
  map_fold (fun _ o n => (w (body o) + n)%nat) 0%nat m.

Lemma weigh_delete w m x o :
  m !! x = Some o -> weigh w m = (w (body o) + weigh w (delete x m))%nat.
Proof. intros Hx. unfold weigh. rewrite (map_fold_delete_L _ _ x o m); [done|lia|done]. Qed.

Lemma weigh_insert w m x o :
  m !! x = None -> weigh w (<[x := o]> m) = (w (body o) + weigh w m)%nat.
Proof. intros Hx. unfold weigh. rewrite map_fold_insert_L; [done|lia|done]. Qed.

Lemma weigh_body w m m' :
  (forall y, body <$> m' !! y = body <$> m !! y) -> weigh w m' = weigh w m.
Proof.
  intros Hb. unfold weigh.
  rewrite <- !(map_fold_fmap (fun (_ : id) b n => (w b + n)%nat) (@body B)). f_equal.
  apply map_eq. intros y. rewrite !lookup_fmap. apply Hb.
Qed.

Definition nrefs (x : id) (m : gmap id (Obj B)) : nat := weigh (fun b => occ x (held_refs b)) m.

Lemma total_refs_weigh c : total_refs c = weigh (fun b => length (held_refs b)) (objs c).
Proof. done. Qed.

Lemma nrefs_held x y o m : m !! y = Some o -> x ∈ held_refs (body o) -> (0 < nrefs x m)%nat.
Proof. intros Hy Hx%occ_pos. unfold nrefs. rewrite (weigh_delete _ _ _ _ Hy). lia. Qed.

Lemma nrefs_pos x m : (0 < nrefs x m)%nat -> exists y o, m !! y = Some o /\ x ∈ held_refs (body o).
Proof.
  unfold nrefs. induction m as [|y o m Hy IH] using map_ind; [unfold weigh; rewrite map_fold_empty; lia|].
  rewrite weigh_insert by done. intros Hpos.
  destruct (decide (0 < occ x (held_refs (body o)))%nat) as [Ho%occ_pos|].
  - exists y, o. by rewrite lookup_insert_eq.
  - destruct IH as (z & oz & Hz & ?); [lia|]. exists z, oz.
    split; [|done]. rewrite lookup_insert_ne; [done|congruence].
Qed.

(** [rc_inv ext c]: the system count of every object is the number of
    references to it, those held by objects and those in [ext] held outside;
    no reference dangles; user counts are non-negative. *)
Record rc_inv (ext : list id) (c : Ctx B G) : Prop := {
  rc_sys : forall x o, objs c !! x = Some o ->
    mSysRefCount o = Z.of_nat (nrefs x (objs c) + occ x ext) /\ mSysRefCount o < 2 ^ 31;
  rc_user : forall x o, objs c !! x = Some o -> 0 <= mUserRefCount o < 2 ^ 31;
  rc_live : forall x, (0 < nrefs x (objs c) + occ x ext)%nat -> is_Some (objs c !! x)
}.

(** The invariant of the object table. *)
Definition obj_inv (ext : list id) (c : Ctx B G) : Prop := rc_inv ext c /\ exists l, dll c l.

Lemma rc_inv_perm ext ext' c : (forall x, occ x ext = occ x ext') -> rc_inv ext c -> rc_inv ext' c.
Proof.
  intros He [Hs Hu Hl]. split; [|done|].
  - intros x o Hx. rewrite <- He. by apply Hs.
  - intros x. rewrite <- He. apply Hl.
Qed.

Lemma upd_Ok c x o f : objs c !! x = Some o -> upd c x f = Ok (with_objs c (<[x := f o]> (objs c))).
Proof. intros Hx. unfold upd, deref. by rewrite Hx. Qed.

Lemma insert_body (m : gmap id (Obj B)) x o o' :
  m !! x = Some o -> body o' = body o -> forall y, body <$> <[x := o']> m !! y = body <$> m !! y.
Proof.
  intros Hx Hb y. rewrite lookup_insert. case_decide; subst; [|done]. rewrite Hx. cbn. by rewrite Hb.
Qed.

Lemma nrefs_upd y (m : gmap id (Obj B)) x o o' :
  m !! x = Some o -> body o' = body o -> nrefs y (<[x := o']> m) = nrefs y m.
Proof. intros. apply weigh_body. by eapply insert_body. Qed.

(** What the derived classes see of a context: the bodies and the caches.  A
    deletion drops a body and runs its [preDestroy]. *)
Definition bodies (c : Ctx B G) : gmap id B := body <$> objs c.
Definition shape (c : Ctx B G) : gmap id B * G := (bodies c, caches c).

Inductive shed : gmap id B * G -> gmap id B * G -> Prop :=
  | shed_delete m g x b : m !! x = Some b -> shed (m, g) (delete x m, preDestroy x b g).

(** What deletions may do to the table: objects without user references
    disappear, and those that stay keep everything but their system count and
    their links. *)
Record shrinks (c c' : Ctx B G) : Prop := {
  sh_shed : rtc shed (shape c) (shape c');
  sh_next : nextId c' = nextId c;
  sh_keep : forall x o, objs c !! x = Some o -> mUserRefCount o <> 0 -> is_Some (objs c' !! x);
  sh_back : forall x o', objs c' !! x = Some o' -> exists o, objs c !! x = Some o /\
    mUserRefCount o' = mUserRefCount o /\ mName o' = mName o /\ body o' = body o /\
    mSysRefCount o' <= mSysRefCount o
}.

#[local] Instance shrinks_preorder : PreOrder shrinks.
Proof.
  split; [intros c; split; [done|done|eauto|]; intros x o; eauto 8 using Z.le_refl|].
  intros c1 c2 c3 [Hr12 Hi12 Hk12 H12] [Hr23 Hi23 Hk23 H23]. split; [by transitivity (shape c2)|congruence|..].
  { intros x o1 Ho1 Hu. destruct (Hk12 _ _ Ho1 Hu) as [o2 Ho2].
    destruct (H12 _ _ Ho2) as (? & ? & ? & _). apply (Hk23 x o2); [done|congruence]. }
  intros x o3 Ho3. destruct (H23 _ _ Ho3) as (o2 & Ho2 & ? & ? & ? & ?). destruct (H12 _ _ Ho2) as (o1 & Ho1 & ? & ? & ? & ?).
  exists o1. split_and!; [done|congruence..|lia].
Qed.

Lemma bodies_upd c x o o' :
  objs c !! x = Some o -> body o' = body o ->
  shape (with_objs c (<[x := o']> (objs c))) = shape c.
Proof.
  intros Hx Hb. unfold shape, bodies. cbn. f_equal. rewrite fmap_insert, Hb. apply insert_id.
  by rewrite lookup_fmap, Hx.
Qed.

Lemma shrinks_dom c c' : shrinks c c' -> dom (objs c') ⊆ dom (objs c).
Proof. intros [_ _ _ Hsh] x. rewrite !elem_of_dom. intros [o' Ho]. destruct (Hsh _ _ Ho) as (o & ? & _). eauto. Qed.

Lemma shrinks_size c c' x :
  shrinks c c' -> is_Some (objs c !! x) -> objs c' !! x = None -> (size (objs c') < size (objs c))%nat.
Proof.
  intros Hsh%shrinks_dom Hx Hx'. rewrite <- !size_dom. apply subset_size.
  apply elem_of_dom in Hx. apply not_elem_of_dom in Hx'. set_solver.
Qed.

Lemma shrinks_gone c c' x : shrinks c c' -> objs c !! x = None -> objs c' !! x = None.
Proof. intros Hsh%shrinks_dom Hx%not_elem_of_dom. apply not_elem_of_dom. set_solver. Qed.

(** The table after the object at [x] has been unlinked from its neighbours and
    deleted. *)
Lemma delete_bodies (m m1 : gmap id (Obj B)) x o :
  m !! x = Some o -> (forall y, y <> x -> m1 !! y = unlink o y <$> m !! y) ->
  (forall y, body <$> delete x m1 !! y = body <$> delete x m !! y) /\
  (forall y oy, delete x m1 !! y = Some oy -> exists oy0, m !! y = Some oy0 /\ relinked oy0 oy).
Proof.
  intros Hx Hy1. split.
  - intros y. destruct (decide (y = x)) as [->|]; [by rewrite !lookup_delete_eq|].
    rewrite !lookup_delete_ne, Hy1 by done. destruct (m !! y) as [oy|]; [|done]. cbn.
    f_equal. apply unlink_relinked.
  - intros y oy Hy. apply lookup_delete_Some in Hy as [Hne Hy].
    rewrite Hy1 in Hy by done. apply fmap_Some in Hy as (oy0 & ? & ->). eauto using unlink_relinked.
Qed.

Lemma shed_bodies c (m1 : gmap id (Obj B)) x o :
  objs c !! x = Some o -> (forall y, body <$> delete x m1 !! y = body <$> delete x (objs c) !! y) ->
  shed (shape c) (body <$> delete x m1, preDestroy x (body o) (caches c)).
Proof.
  intros Hx Hb. replace (body <$> delete x m1) with (delete x (bodies c)).
  - constructor. unfold bodies. by rewrite lookup_fmap, Hx.
  - apply map_eq. intros y. unfold bodies. rewrite <- fmap_delete, !lookup_fmap. symmetry. apply Hb.
Qed.

(** Deleting an object nobody refers to. *)
Lemma checkDelete1_inv ext c x o :
  obj_inv ext c -> objs c !! x = Some o ->
  exists b more c', checkDelete1 c x = Ok (b, more, c') /\ obj_inv (more ++ ext) c' /\
    (length more + total_refs c' = total_refs c)%nat /\ shrinks c c' /\
    (if b then (mUserRefCount o = 0 /\ mSysRefCount o = 0) /\ objs c' !! x = None /\ more = held_refs (body o)
     else ~ (mUserRefCount o = 0 /\ mSysRefCount o = 0) /\ c' = c /\ more = []).
Proof.
  intros [[Hs Hu Hl] [l Hd]] Hx. unfold checkDelete1, deref. rewrite Hx. cbn.
  destruct (Z.eqb_spec (mUserRefCount o) 0) as [Hu0|Hu0]; cbn;
    [destruct (Z.eqb_spec (mSysRefCount o) 0) as [Hs0|Hs0]; cbn|]; cycle 1.
  1,2: (exists false, [], c; split_and!; [done|split; [by split|eauto]|done|done|by intros [? ?]|done|done]).
  destruct (dll_index _ _ _ _ Hd Hx) as [i Hi].
  destruct (remove_dll c l i x o (preDestroy x (body o) (caches c)) Hd Hi Hx) as (c1 & -> & Hc1 & Hi1 & Hx1 & Hy1 & Hd1).
  cbn [mbind outcome_bind]. rewrite Hx1. cbn. rewrite Hc1.
  destruct (delete_bodies _ _ _ _ Hx Hy1) as [Hbody Hback].
  exists true, (held_refs (body o)). eexists. split; [done|].
  assert (Hn : forall y, nrefs y (objs c) = (occ y (held_refs (body o)) + nrefs y (delete x (objs c1)))%nat).
  { intros y. unfold nrefs. rewrite (weigh_delete _ _ _ _ Hx). by rewrite (weigh_body _ _ _ Hbody). }
  pose proof (Hs _ _ Hx) as [Hsx _]. rewrite Hs0 in Hsx.
  split_and!; [split; [split|exists (delete i l); exact Hd1]|..]; cbn; try done.
  - intros y oy Hy. destruct (Hback _ _ Hy) as (oy0 & Hy0 & (_ & -> & _ & _)).
    rewrite occ_app. pose proof (Hs _ _ Hy0). rewrite Hn in *. lia.
  - intros y oy Hy. destruct (Hback _ _ Hy) as (oy0 & Hy0 & (-> & _)). eauto.
  - intros y. rewrite occ_app. intros Hpos. assert (y <> x) by (intros ->; rewrite Hn in Hsx; lia).
    rewrite lookup_delete_ne, Hy1, fmap_is_Some by done. apply Hl. rewrite Hn. lia.
  - rewrite !total_refs_weigh. cbn. rewrite (weigh_delete _ (objs c) _ _ Hx). by rewrite (weigh_body _ _ _ Hbody).
  - split; cbn; [| |intros y oy Hy Hne|].
    { apply rtc_once. by apply shed_bodies. }
    { done. }
    { cbn. rewrite lookup_delete_ne, Hy1, fmap_is_Some; [eauto|congruence..]. }
    intros y oy Hy. destruct (Hback _ _ Hy) as (oy0 & Hy0 & (? & Es & ? & ?)). exists oy0. split_and!; [done..|lia].
  - by rewrite lookup_delete_eq.
Qed.

(** Changing the counts of one object. *)
Lemma counts_inv ext ext' c x o o' :
  obj_inv ext c -> objs c !! x = Some o -> same_links o o' -> body o' = body o ->
  mSysRefCount o' = mSysRefCount o + (Z.of_nat (occ x ext') - Z.of_nat (occ x ext)) ->
  mSysRefCount o' < 2 ^ 31 -> 0 <= mUserRefCount o' < 2 ^ 31 ->
  (forall y, y <> x -> occ y ext' = occ y ext) ->
  obj_inv ext' (with_objs c (<[x := o']> (objs c))) /\
  total_refs (with_objs c (<[x := o']> (objs c))) = total_refs c.
Proof.
  intros [[Hs Hu Hl] [l Hd]] Hx Hlk Hb Hsys Hmax Hur Hocc. pose proof (Hs _ _ Hx) as [Ho _].
  split; [split; [split|exists l; by eapply dll_upd]|]; cbn.
  - intros y oy Hy. rewrite (nrefs_upd _ _ _ o) by done.
    rewrite lookup_insert in Hy. case_decide; simplify_eq; cbn; [lia|].
    rewrite Hocc by done. by apply Hs.
  - intros y oy Hy. rewrite lookup_insert in Hy. case_decide; simplify_eq; cbn; eauto.
  - intros y. rewrite (nrefs_upd _ _ _ o), is_Some_insert by done. intros Hpos.
    destruct (decide (y = x)); [by left|right]. apply Hl. rewrite <- Hocc; done.
  - rewrite !total_refs_weigh. apply weigh_body. by eapply insert_body.
Qed.

Lemma incSysRef_inv ext c x o :
  obj_inv ext c -> objs c !! x = Some o -> mSysRefCount o + 1 < 2 ^ 31 ->
  let c' := with_objs c (<[x := set_sys o (mSysRefCount o + 1)]> (objs c)) in
  incSysRef c x = Ok c' /\ obj_inv (x :: ext) c' /\ shape c' = shape c.
Proof.
  intros Hinv Hx Hmax. unfold incSysRef. rewrite (upd_Ok _ _ _ _ Hx).
  destruct Hinv as [Hrc ?]. pose proof (rc_sys _ _ Hrc _ _ Hx). pose proof (rc_user _ _ Hrc _ _ Hx).
  cbn. rewrite s32_small by lia. split; [done|]. split; [|by eapply bodies_upd].
  eapply (counts_inv ext); try done; cbn.
  - rewrite occ_cons, decide_True by done. lia.
  - intros y Hy. rewrite occ_cons, decide_False by done. lia.
Qed.

Lemma incUserRef_inv ext c x o :
  obj_inv ext c -> objs c !! x = Some o -> mUserRefCount o + 1 < 2 ^ 31 ->
  let c' := with_objs c (<[x := set_user o (mUserRefCount o + 1)]> (objs c)) in
  incUserRef c x = Ok c' /\ obj_inv ext c' /\ shape c' = shape c.
Proof.
  intros Hinv Hx Hmax. unfold incUserRef. rewrite (upd_Ok _ _ _ _ Hx).
  destruct Hinv as [Hrc ?]. pose proof (rc_sys _ _ Hrc _ _ Hx). pose proof (rc_user _ _ Hrc _ _ Hx).
  cbn. rewrite s32_small by lia. split; [done|]. split; [|by eapply bodies_upd].
  eapply (counts_inv ext); try done; cbn; lia.
Qed.

Lemma occ_drop x (ext : list id) y : y <> x -> occ y ext = occ y (x :: ext).
Proof. intros. rewrite occ_cons, decide_False by done. lia. Qed.

(** Giving a system reference back: the object is deleted exactly when that was
    the last one and no user reference is left, and then its own references
    are the ones to give back. *)
Lemma decSysRef1_inv ext c x :
  obj_inv (x :: ext) c ->
  exists b more c', decSysRef1 c x = Ok (b, more, c') /\ obj_inv (more ++ ext) c' /\
    (length more + total_refs c' = total_refs c)%nat /\ shrinks c c' /\
    exists o, objs c !! x = Some o /\
      if b then (mUserRefCount o = 0 /\ mSysRefCount o = 1) /\ objs c' !! x = None /\ more = held_refs (body o)
      else ~ (mUserRefCount o = 0 /\ mSysRefCount o = 1) /\
           objs c' !! x = Some (set_sys o (mSysRefCount o - 1)) /\ more = [].
Proof.
  intros Hinv. pose proof Hinv as [Hrc _].
  destruct (rc_live _ _ Hrc x) as [o Hx]; [rewrite occ_cons, decide_True by done; lia|].
  pose proof (rc_sys _ _ Hrc _ _ Hx) as Hsys. rewrite occ_cons, decide_True in Hsys by done.
  pose proof (rc_user _ _ Hrc _ _ Hx) as Hu.
  unfold decSysRef1, deref. rewrite Hx. cbn [of_option mbind outcome_bind].
  rewrite (upd_Ok _ _ _ _ Hx). cbn [mbind outcome_bind]. rewrite s32_small by lia.
  set (o1 := set_sys o (mSysRefCount o - 1)).
  destruct (counts_inv (x :: ext) ext c x o o1) as [Hinv1 Htot]; try done; cbn; try lia.
  { rewrite occ_cons, decide_True by done. lia. }
  { eauto using occ_drop. }
  set (c1 := with_objs c (<[x := o1]> (objs c))) in *.
  assert (Hx1 : objs c1 !! x = Some o1) by apply lookup_insert_eq.
  assert (Hsh : shrinks c c1).
  { split; [subst c1; by rewrite (bodies_upd _ _ o)|done|intros y oy Hy _; cbn; apply is_Some_insert; eauto|].
    intros y oy. cbn. rewrite lookup_insert. case_decide; intros; simplify_eq; [exists o; cbn; split_and!; try done; lia|eauto 8 using Z.le_refl]. }
  destruct (Z.leb_spec (mSysRefCount o) 1); [rewrite lookup_insert_eq; cbn; destruct (Z.leb_spec (mUserRefCount o) 0)|].
  2,3: (exists false, [], c1; split_and!; try done; exists o; split_and!; try done; lia).
  destruct (checkDelete1_inv _ _ _ _ Hinv1 Hx1) as (b & more & c' & -> & Hinv' & Htot' & Hsh' & Hb).
  exists b, more, c'. split_and!; try done; [lia|by transitivity c1|]. exists o. split; [done|].
  cbn in Hb. destruct b; [naive_solver lia|lia].
Qed.

(** A cascade of releases always finishes, never touches a deleted object, and
    gives back exactly the references it was asked to give back. *)
Lemma release_inv fuel : forall pending ext c,
  obj_inv (pending ++ ext) c -> (length pending + total_refs c <= fuel)%nat ->
  exists c', release fuel pending c = Ok c' /\ obj_inv ext c' /\ shrinks c c'.
Proof.
  induction fuel as [|n IH]; intros [|x rest] ext c Hinv Hfuel; cbn in Hfuel; try lia;
    [exists c; split_and!; [done..|reflexivity]|exists c; split_and!; [done..|reflexivity]|].
  destruct (decSysRef1_inv (rest ++ ext) c x Hinv) as (b & more & c1 & E & Hinv1 & Htot & Hsh & _).
  cbn [release]. rewrite E. cbn [mbind outcome_bind].
  destruct (IH (more ++ rest) ext c1) as (c' & -> & Hinv' & Hsh').
  - by rewrite <- app_assoc.
  - rewrite length_app. lia.
  - exists c'. split_and!; [done..|by transitivity c1].
Qed.

Lemma checkDelete_inv ext c x o :
  obj_inv ext c -> objs c !! x = Some o ->
  exists b c', checkDelete c x = Ok (b, c') /\ obj_inv ext c' /\ shrinks c c' /\
    (if b then (mUserRefCount o = 0 /\ mSysRefCount o = 0) /\ objs c' !! x = None
     else ~ (mUserRefCount o = 0 /\ mSysRefCount o = 0) /\ c' = c).
Proof.
  intros Hinv Hx. destruct (checkDelete1_inv _ _ _ _ Hinv Hx) as (b & more & c1 & E & Hinv1 & Htot & Hsh & Hb).
  unfold checkDelete. rewrite E. cbn [mbind outcome_bind].
  destruct (release_inv _ _ _ _ Hinv1 (le_n _)) as (c' & E' & Hinv' & Hsh'). rewrite E'.
  exists b, c'. split_and!; [done..|by transitivity c1|].
  destruct b; [naive_solver eauto using shrinks_gone|]. destruct Hb as (Hb & -> & ->).
  split; [done|]. destruct (length [] + total_refs c)%nat; by injection E'.
Qed.

Lemma decSysRef_inv ext c x :
  obj_inv (x :: ext) c ->
  exists b c' o, decSysRef c x = Ok (b, c') /\ obj_inv ext c' /\ shrinks c c' /\ objs c !! x = Some o /\
    (b = true <-> mUserRefCount o = 0 /\ mSysRefCount o = 1) /\ (b = true -> objs c' !! x = None).
Proof.
  intros Hinv. destruct (decSysRef1_inv ext c x Hinv) as (b & more & c1 & E & Hinv1 & Htot & Hsh & o & Hx & Hb).
  unfold decSysRef. rewrite E. cbn [mbind outcome_bind].
  destruct (release_inv _ _ _ _ Hinv1 (le_n _)) as (c' & -> & Hinv' & Hsh').
  exists b, c', o. split_and!; [done..|by transitivity c1|done| |]; destruct b; try naive_solver.
  intros _. eapply shrinks_gone; naive_solver.
Qed.

Lemma set_user_inv ext c x o n :
  obj_inv ext c -> objs c !! x = Some o -> 0 <= n < 2 ^ 31 ->
  obj_inv ext (with_objs c (<[x := set_user o n]> (objs c))).
Proof.
  intros Hinv Hx Hn. destruct Hinv as [Hrc ?]. pose proof (rc_sys _ _ Hrc _ _ Hx).
  eapply (counts_inv ext); try done; cbn; lia.
Qed.

Lemma decUserRef_inv ext c x o :
  obj_inv ext c -> objs c !! x = Some o -> 0 < mUserRefCount o ->
  exists b c', decUserRef c x = Ok (b, c') /\ obj_inv ext c' /\
    shrinks (with_objs c (<[x := set_user o (mUserRefCount o - 1)]> (objs c))) c' /\
    (b = true <-> mUserRefCount o = 1 /\ mSysRefCount o = 0) /\ (b = true -> objs c' !! x = None) /\
    (b = false -> c' = with_objs c (<[x := set_user o (mUserRefCount o - 1)]> (objs c))).
Proof.
  intros Hinv Hx Hpos. pose proof (rc_user _ _ (proj1 Hinv) _ _ Hx). pose proof (rc_sys _ _ (proj1 Hinv) _ _ Hx).
  unfold decUserRef, deref. rewrite Hx. cbn [of_option mbind outcome_bind].
  rewrite (upd_Ok _ _ _ _ Hx). cbn [mbind outcome_bind]. rewrite s32_small by lia.
  set (o1 := set_user o (mUserRefCount o - 1)).
  assert (Hinv1 := set_user_inv _ _ _ _ (mUserRefCount o - 1) Hinv Hx ltac:(lia)). fold o1 in Hinv1.
  set (c1 := with_objs c (<[x := o1]> (objs c))) in *.
  assert (Hx1 : objs c1 !! x = Some o1) by apply lookup_insert_eq.
  destruct (Z.leb_spec (mUserRefCount o) 1);
    [cbn; rewrite lookup_insert_eq; cbn; destruct (Z.leb_spec (mSysRefCount o) 0)|].
  2,3: (exists false, c1; split_and!; try done; split; [done|lia]).
  destruct (checkDelete_inv _ _ _ _ Hinv1 Hx1) as (b & c' & -> & Hinv' & Hsh & Hb).
  exists b, c'. split_and!; [done..| | |]; cbn in Hb; destruct b; naive_solver lia.
Qed.

Lemma zeroUserRef_inv ext c x o :
  obj_inv ext c -> objs c !! x = Some o ->
  exists b c', zeroUserRef c x = Ok (b, c') /\ obj_inv ext c' /\
    if b then objs c' !! x = None /\ shrinks (with_objs c (<[x := set_user o 0]> (objs c))) c'
    else 0 < mSysRefCount o /\ c' = with_objs c (<[x := set_user o 0]> (objs c)).
Proof.
  intros Hinv Hx. unfold zeroUserRef, deref. rewrite (upd_Ok _ _ _ _ Hx). cbn [mbind outcome_bind].
  assert (Hinv1 := set_user_inv _ _ _ _ 0 Hinv Hx ltac:(lia)).
  set (o1 := set_user o 0) in *. set (c1 := with_objs c (<[x := o1]> (objs c))) in *.
  assert (Hx1 : objs c1 !! x = Some o1) by apply lookup_insert_eq. rewrite Hx1. cbn.
  destruct (Z.leb_spec (mSysRefCount o) 0); [|by exists false, c1].
  destruct (checkDelete_inv _ _ _ _ Hinv1 Hx1) as (b & c' & -> & Hinv' & Hsh & Hb).
  exists b, c'. split_and!; [done..|]. cbn in Hb. destruct b; [naive_solver|].
  pose proof (rc_sys _ _ (proj1 Hinv) _ _ Hx). lia.
Qed.

(** ** Context teardown *)

Lemma dll_size c l : dll c l -> length l = size (objs c).
Proof.
  intros Hd. rewrite <- size_dom. rewrite <- (size_list_to_set (C := gset id)) by apply Hd.
  f_equal. apply set_eq. intros x. rewrite elem_of_list_to_set, elem_of_dom. apply Hd.
Qed.

(** Objects may have gone; the others hold the references they held. *)
Definition bodies_kept (c c' : Ctx B G) : Prop :=
  forall x o', objs c' !! x = Some o' -> exists o, objs c !! x = Some o /\ body o' = body o.

Lemma bodies_kept_trans c1 c2 c3 : bodies_kept c1 c2 -> bodies_kept c2 c3 -> bodies_kept c1 c3.
Proof.
  intros H12 H23 x o3 Ho3. destruct (H23 _ _ Ho3) as (o2 & Ho2 & ->).
  destruct (H12 _ _ Ho2) as (o1 & Ho1 & ->). eauto.
Qed.

Lemma bodies_kept_insert c x o o' :
  objs c !! x = Some o -> body o' = body o -> bodies_kept c (with_objs c (<[x := o']> (objs c))).
Proof. intros Hx Hb y oy. cbn. rewrite lookup_insert. case_decide; intros; simplify_eq; eauto. Qed.

Lemma shrinks_bodies c c' : shrinks c c' -> bodies_kept c c'.
Proof. intros [_ _ _ Hsh] x o' Hx. destruct (Hsh _ _ Hx) as (o & ? & ? & ? & ? & ?). eauto. Qed.

Definition user_free (o : Obj B) : Prop := mUserRefCount o = 0 /\ 0 < mSysRefCount o.

Lemma zero_loop_inv ext fuel : forall c l i,
  obj_inv ext c -> dll c l ->
  (forall j x o, (j < i)%nat -> l !! j = Some x -> objs c !! x = Some o -> user_free o) ->
  (length l * length l + (length l - i) <= fuel)%nat ->
  exists c', visit_loop zeroUserRef fuel c (l !! i) = Ok c' /\ obj_inv ext c' /\ bodies_kept c c' /\
    (forall x o, objs c' !! x = Some o -> user_free o).
Proof.
  induction fuel as [|n IH]; intros c l i Hinv Hd Hpre Hfuel.
  all: destruct (l !! i) as [x|] eqn:Hi.
  2,4: (exists c; split_and!; [done|done|by intros y oy Hy; eauto|]; intros y oy Hy;
    destruct (dll_index _ _ _ _ Hd Hy) as [j Hj]; eapply Hpre; [|done..];
    apply lookup_lt_Some in Hj; apply lookup_ge_None in Hi; lia).
  1: (apply lookup_lt_Some in Hi; lia).
  destruct (dll_lookup _ _ _ _ Hd Hi) as [o Hx]. pose proof (lookup_lt_Some _ _ _ Hi) as Hlt.
  destruct (zeroUserRef_inv _ _ _ _ Hinv Hx) as (b & c1 & E & Hinv1 & Hb).
  cbn [visit_loop]. rewrite E. cbn [mbind outcome_bind].
  pose proof (bodies_kept_insert c x o (set_user o 0) Hx eq_refl) as Hk. destruct b.
  - destruct Hb as [Hgone Hsh]. destruct (proj2 Hinv1) as [l1 Hd1].
    pose proof (shrinks_size _ _ x Hsh) as Hsz. cbn in Hsz. rewrite lookup_insert_eq in Hsz.
    rewrite map_size_insert_Some in Hsz by eauto. specialize (Hsz ltac:(eauto) Hgone).
    pose proof (dll_size _ _ Hd). pose proof (dll_size _ _ Hd1).
    rewrite (dll_head _ _ Hd1). destruct (IH c1 l1 0%nat Hinv1 Hd1) as (c' & -> & ? & Hk' & ?); [lia|nia|].
    exists c'. split_and!; [done..| |done]. eauto using bodies_kept_trans, shrinks_bodies.
  - destruct Hb as [Hsys ->]. pose proof (dll_upd _ _ _ _ (set_user o 0) Hd Hx ltac:(done)) as Hd1.
    unfold deref. cbn. rewrite lookup_insert_eq. cbn. rewrite (dll_next _ _ Hd _ _ _ Hi Hx).
    destruct (IH _ l (S i) Hinv1 Hd1) as (c' & -> & ? & Hk' & ?); [|lia|].
    + intros j y oy Hj Hy Hoy. cbn in Hoy. rewrite lookup_insert in Hoy.
      case_decide; simplify_eq; [by split|]. eapply (Hpre j); try done.
      destruct (decide (j = i)); [congruence|lia].
    + exists c'. split_and!; [done..| |done]. eauto using bodies_kept_trans.
Qed.

(** ** Clients *)

Lemma dll_next_fresh c l : dll c l -> objs c !! nextId c = None.
Proof.
  intros Hd. destruct (objs c !! nextId c) eqn:E; [|done].
  assert (nextId c ∈ l) as Hl by (apply (dll_dom _ _ Hd); eauto). apply (dll_fresh _ _ Hd) in Hl. lia.
Qed.

Lemma new_obj_inv ext ext' c b :
  obj_inv ext c -> (forall x, occ x ext = occ x (held_refs b ++ ext')) ->
  exists c' o, new_obj c b = Ok (nextId c, c') /\ obj_inv ext' c' /\ objs c !! nextId c = None /\
    shape c' = (<[nextId c := b]> (bodies c), caches c) /\
    (forall y oy, y <> nextId c -> objs c' !! y = Some oy -> exists oy0, objs c !! y = Some oy0 /\ relinked oy0 oy) /\
    objs c' !! nextId c = Some o /\ body o = b /\ mUserRefCount o = 0 /\ mSysRefCount o = 0.
Proof.
  intros [[Hs Hu Hl] [l Hd]] Hocc. pose proof (dll_next_fresh _ _ Hd) as Hfresh.
  destruct (new_obj_dll c l b Hd Hfresh) as (c' & -> & Hd' & Hg & Hx & Hback & Hfwd).
  assert (Hb : forall y, y <> nextId c -> body <$> objs c' !! y = body <$> objs c !! y).
  { intros y Hne. destruct (objs c !! y) as [oy|] eqn:Ey.
    - destruct (Hfwd _ _ Hne Ey) as (oy' & -> & (_ & _ & _ & Eb)). cbn. by rewrite Eb.
    - destruct (objs c' !! y) eqn:Ey'; [|done]. destruct (Hback _ _ Hne Ey') as (? & ? & _). congruence. }
  assert (Hn : forall y, nrefs y (objs c') = (occ y (held_refs b) + nrefs y (objs c))%nat).
  { intros y. unfold nrefs. rewrite (weigh_delete _ _ _ _ Hx). cbn. f_equal. apply weigh_body. intros z.
    destruct (decide (z = nextId c)) as [->|Hz]; [by rewrite lookup_delete_eq, Hfresh|].
    rewrite lookup_delete_ne by done. by apply Hb. }
  assert (Hz : (nrefs (nextId c) (objs c) + occ (nextId c) ext = 0)%nat).
  { destruct (decide (0 < nrefs (nextId c) (objs c) + occ (nextId c) ext)%nat) as [Hp|]; [|lia].
    apply Hl in Hp. rewrite Hfresh in Hp. by destruct Hp. }
  exists c'. eexists. split_and!; try done; [split; [split|eauto]|].
  - intros y oy Hy. specialize (Hocc y). rewrite occ_app in Hocc. rewrite Hn.
    destruct (decide (y = nextId c)) as [->|Hne]; [simplify_eq; cbn; lia|].
    destruct (Hback _ _ Hne Hy) as (o0 & Ho0 & (_ & -> & _)). pose proof (Hs _ _ Ho0). lia.
  - intros y oy Hy. destruct (decide (y = nextId c)) as [->|Hne]; [by simplify_eq|].
    destruct (Hback _ _ Hne Hy) as (o0 & Ho0 & (-> & _)). eauto.
  - intros y Hp. specialize (Hocc y). rewrite occ_app in Hocc. rewrite Hn in Hp.
    destruct (Hl y) as [o0 Ho0]; [lia|]. destruct (decide (y = nextId c)) as [->|Hne]; [eauto|].
    destruct (Hfwd _ _ Hne Ho0) as (? & ? & _). eauto.
  - unfold shape. rewrite Hg. f_equal. apply map_eq. intros y. unfold bodies. rewrite lookup_insert, !lookup_fmap.
    destruct (decide (nextId c = y)) as [<-|Hne]; [by rewrite Hx|]. by apply Hb.
Qed.

(** What code that keeps to the counting discipline may do: create an object out
    of references it owns, take references to live objects, give back the
    references and user counts it holds.  [ext] are the system references
    held outside the table. *)
Inductive client_step : list id * Ctx B G -> list id * outcome (Ctx B G) -> Prop :=
  | client_new ext ext' c b :
      (forall x, occ x ext = occ x (held_refs b ++ ext')) ->
      client_step (ext, c) (ext', snd <$> new_obj c b)
  | client_incSys ext c x o :
      objs c !! x = Some o -> mSysRefCount o + 1 < 2 ^ 31 ->
      client_step (ext, c) (x :: ext, incSysRef c x)
  | client_decSys ext ext' c x :
      (forall y, occ y ext = occ y (x :: ext')) -> client_step (ext, c) (ext', snd <$> decSysRef c x)
  | client_incUser ext c x o :
      objs c !! x = Some o -> mUserRefCount o + 1 < 2 ^ 31 ->
      client_step (ext, c) (ext, incUserRef c x)
  | client_decUser ext c x o :
      objs c !! x = Some o -> 0 < mUserRefCount o ->
      client_step (ext, c) (ext, snd <$> decUserRef c x)
  | client_zeroUser ext c x o :
      objs c !! x = Some o -> client_step (ext, c) (ext, snd <$> zeroUserRef c x).

Inductive reachable (g : G) : list id -> Ctx B G -> Prop :=
  | reach_init : reachable g [] (mkCtx ∅ None 1%positive g)
  | reach_step ext c ext' c' :
      reachable g ext c -> client_step (ext, c) (ext', Ok c') -> reachable g ext' c'.

Lemma obj_inv_init g : obj_inv [] (mkCtx ∅ None 1%positive g).
Proof.
  split; [split|exists []; split]; cbn; try done.
  - intros x. unfold nrefs, weigh. rewrite map_fold_empty, occ_nil. lia.
  - constructor.
  - intros x. rewrite elem_of_nil, lookup_empty. split; [done|by intros [? ?]].
  - intros x. by rewrite elem_of_nil.
Qed.

Lemma client_step_inv ext c ext' r :
  obj_inv ext c -> client_step (ext, c) (ext', r) -> exists c', r = Ok c' /\ obj_inv ext' c'.
Proof.
  intros Hinv Hst. inversion Hst as [? ? ? b Ho|? ? x o Hx Hm|? ? ? x Ho|? ? x o Hx Hm|? ? x o Hx Hm|? ? x o Hx]; subst.
  - destruct (new_obj_inv _ _ _ _ Hinv Ho) as (c' & o & -> & ? & _). eauto.
  - destruct (incSysRef_inv _ _ _ _ Hinv Hx Hm) as (-> & ? & _). eauto.
  - assert (obj_inv (x :: ext') c) as Hinv1 by (destruct Hinv; split; [by eapply rc_inv_perm|done]).
    destruct (decSysRef_inv _ _ _ Hinv1) as (b & c' & o & -> & ? & _). eauto.
  - destruct (incUserRef_inv _ _ _ _ Hinv Hx Hm) as (-> & ? & _). eauto.
  - destruct (decUserRef_inv _ _ _ _ Hinv Hx Hm) as (b & c' & -> & ? & _). eauto.
  - destruct (zeroUserRef_inv _ _ _ _ Hinv Hx) as (b & c' & -> & ? & _). eauto.
Qed.

Lemma reachable_inv g ext c : reachable g ext c -> obj_inv ext c.
Proof.
  induction 1 as [|ext c ext' c' _ IH Hst]; [apply obj_inv_init|].
  by destruct (client_step_inv _ _ _ _ IH Hst) as (? & [= <-] & ?).
Qed.

Lemma isValid_loop_spec c l obj : dll c l -> forall fuel i,
  (length l - i <= fuel)%nat ->
  isValid_loop fuel c (l !! i) obj = Ok (bool_decide (obj ∈ drop i l)).
Proof.
  intros Hd. induction fuel as [|n IH]; intros i Hf; destruct (l !! i) as [x|] eqn:Hi.
  2,4: (apply lookup_ge_None in Hi; rewrite drop_ge by lia; rewrite bool_decide_false; [done|apply not_elem_of_nil]).
  all: rewrite (drop_S _ _ _ Hi); cbn [isValid_loop]; destruct (decide (x = obj)) as [->|Hne];
    [rewrite bool_decide_true; [done|by left]|].
  - apply lookup_lt_Some in Hi. lia.
  - destruct (dll_lookup _ _ _ _ Hd Hi) as [o Ho]. unfold deref. rewrite Ho. cbn.
    rewrite (dll_next _ _ Hd _ _ _ Hi Ho), IH by lia. f_equal. apply bool_decide_ext.
    rewrite elem_of_cons. naive_solver.
Qed.

(** References point down a rank: no cycles. *)
Definition acyclic (c : Ctx B G) (rank : id -> nat) : Prop :=
  forall x y o, objs c !! x = Some o -> y ∈ held_refs (body o) -> (rank y < rank x)%nat.

Lemma acyclic_unreferenced c rank x0 o0 :
  acyclic c rank -> objs c !! x0 = Some o0 ->
  exists x o, objs c !! x = Some o /\ nrefs x (objs c) = 0%nat.
Proof.
  intros Ha. revert x0 o0.
  set (top := max_list (rank <$> (map_to_list (objs c)).*1)).
  assert (Htop : forall x o, objs c !! x = Some o -> (rank x <= top)%nat).
  { intros x o Hx. apply max_list_elem_of_le, list_elem_of_fmap_2.
    apply list_elem_of_fmap. exists (x, o). split; [done|]. by apply elem_of_map_to_list. }
  assert (forall n x0 o0, (top - rank x0 < n)%nat -> objs c !! x0 = Some o0 ->
    exists x o, objs c !! x = Some o /\ nrefs x (objs c) = 0%nat); [|eauto].
  induction n as [|n IH]; intros x0 o0 Hn Hx0; [lia|].
  destruct (decide (nrefs x0 (objs c) = 0%nat)); [eauto|].
  destruct (nrefs_pos x0 (objs c)) as (y & oy & Hy & Hh); [lia|].
  pose proof (Ha _ _ _ Hy Hh). pose proof (Htop _ _ Hy). eapply (IH y); [lia|done].
Qed.

Lemma zeroAllUserRef_inv ext c :
  obj_inv ext c ->
  exists c', zeroAllUserRef c = Ok c' /\ obj_inv ext c' /\ bodies_kept c c' /\
    (forall x o, objs c' !! x = Some o -> user_free o).
Proof.
  intros Hinv. destruct (proj2 Hinv) as [l Hd]. unfold zeroAllUserRef. rewrite (dll_head _ _ Hd).
  eapply zero_loop_inv; try done; [lia|]. rewrite <- (dll_size _ _ Hd). lia.
Qed.

(** Dropping the reference held by a member. *)
Lemma ref_clear_inv ext c a :
  obj_inv (a :: ext) c ->
  exists c', ref_clear c (Some a) = Ok (None, c') /\ obj_inv ext c' /\ shrinks c c'.
Proof.
  intros Hinv. destruct (decSysRef_inv _ _ _ Hinv) as (b & c' & o & E & ? & ? & _).
  unfold ref_clear. rewrite E. eauto.
Qed.

Lemma ref_set_inv ext c a b ob :
  obj_inv (a :: ext) c -> a <> b -> objs c !! b = Some ob -> 0 < mUserRefCount ob \/ b ∈ ext ->
  mSysRefCount ob + 1 < 2 ^ 31 ->
  exists c', ref_set c (Some a) (Some b) = Ok (Some b, c') /\ obj_inv (b :: ext) c'.
Proof.
  intros Hinv Hab Hb Hkeep Hmax. unfold ref_set, ref_new. rewrite decide_False by congruence.
  destruct (ref_clear_inv _ _ _ Hinv) as (c1 & -> & Hinv1 & [_ _ Hk Hsh]). cbn [mbind outcome_bind].
  assert (is_Some (objs c1 !! b)) as [o1 Hb1].
  { destruct Hkeep as [?|Hin]; [apply (Hk _ _ Hb); lia|].
    apply (rc_live _ _ (proj1 Hinv1)). apply occ_pos in Hin. lia. }
  destruct (Hsh _ _ Hb1) as (o0 & ? & _ & _ & _ & Hle). simplify_eq.
  destruct (incSysRef_inv _ _ _ _ Hinv1 Hb1) as (-> & ? & _); [lia|]. eauto.
Qed.

(** Giving back the last reference to the sole owner of [b] deletes [b]. *)
Lemma decSysRef_owner ext c a b oa ob :
  obj_inv (a :: ext) c -> objs c !! a = Some oa -> objs c !! b = Some ob -> held_refs (body oa) = [b] ->
  mUserRefCount oa = 0 -> mSysRefCount oa = 1 -> mUserRefCount ob = 0 -> mSysRefCount ob = 1 ->
  exists c', decSysRef c a = Ok (true, c') /\ objs c' !! b = None.
Proof.
  intros Hinv Ha Hb Hrefs Hua Hsa Hub Hsb.
  destruct (decSysRef1_inv _ _ _ Hinv) as (f & more & c1 & E & Hinv1 & Htot & Hsh & o & Ho & Hf).
  simplify_eq. destruct f; [|naive_solver]. destruct Hf as (_ & Hgone & ->). rewrite Hrefs in *.
  unfold decSysRef. rewrite E. cbn [mbind outcome_bind length Nat.add release].
  destruct (decSysRef1_inv _ _ _ Hinv1) as (f2 & more2 & c2 & -> & Hinv2 & Htot2 & Hsh2 & o1 & Ho1 & Hf2).
  destruct (sh_back _ _ Hsh _ _ Ho1) as (ob' & ? & Eu & _ & _ & Es). simplify_eq.
  pose proof (rc_sys _ _ (proj1 Hinv1) _ _ Ho1) as Hs1. cbn in Hs1. rewrite occ_cons, decide_True in Hs1 by done.
  destruct f2; [|destruct Hf2 as [[] _]; lia]. cbn [mbind outcome_bind]. rewrite app_nil_r.
  destruct (release_inv (total_refs c1) more2 ext c2 Hinv2) as (c3 & -> & _ & Hsh3); [lia|].
  exists c3. split; [done|]. eapply shrinks_gone; naive_solver.
Qed.

(** ** Steps of code that creates objects *)

Lemma decSysRef_keeps c x o :
  objs c !! x = Some o -> 1 <= mSysRefCount o < 2 ^ 31 -> 2 <= mSysRefCount o \/ 0 < mUserRefCount o ->
  decSysRef c x = Ok (false, with_objs c (<[x := set_sys o (mSysRefCount o - 1)]> (objs c))).
Proof.
  intros Hx Hs Hk. unfold decSysRef, decSysRef1, deref. rewrite Hx. cbn [of_option mbind outcome_bind].
  rewrite (upd_Ok _ _ _ _ Hx). cbn [mbind outcome_bind]. rewrite s32_small by lia.
  destruct (Z.leb_spec (mSysRefCount o) 1).
  - cbn. rewrite lookup_insert_eq. cbn. destruct (Z.leb_spec (mUserRefCount o) 0); [lia|]. cbn.
    by destruct (total_refs _).
  - cbn. by destruct (total_refs _).
Qed.

Lemma obj_inv_caches ext c g : obj_inv ext c -> obj_inv ext (with_caches c g).
Proof. intros [[] [l ?]]. split; [by split|eauto using dll_caches]. Qed.

(** Giving an object a new body: the references the caller held move into it. *)
Lemma set_body_inv ext ext' c x o b :
  obj_inv ext c -> objs c !! x = Some o ->
  (forall y, occ y (held_refs b) + occ y ext' = occ y (held_refs (body o)) + occ y ext)%nat ->
  let c' := with_objs c (<[x := set_body o b]> (objs c)) in
  upd c x (fun o => set_body o b) = Ok c' /\ obj_inv ext' c' /\
  shape c' = (<[x := b]> (bodies c), caches c).
Proof.
  intros [[Hs Hu Hl] [l Hd]] Hx Hocc c'. split; [by rewrite (upd_Ok _ _ _ _ Hx)|].
  assert (Hn : forall y, (nrefs y (objs c') + occ y ext' = nrefs y (objs c) + occ y ext)%nat).
  { intros y. specialize (Hocc y). unfold c', nrefs. cbn.
    rewrite (weigh_delete _ (objs c) x o Hx), (weigh_delete _ _ x (set_body o b)) by apply lookup_insert_eq.
    rewrite delete_insert_eq. cbn. lia. }
  split; [split; [split|exists l; by eapply dll_upd]|].
  - intros y oy. rewrite Hn. cbn. rewrite lookup_insert. case_decide; intros; simplify_eq; cbn; eauto.
  - intros y oy. cbn. rewrite lookup_insert. case_decide; intros; simplify_eq; cbn; eauto.
  - intros y. rewrite Hn. cbn. rewrite is_Some_insert. eauto.
  - unfold shape, bodies, c'. cbn. by rewrite fmap_insert.
Qed.

End ops.

#[global] Arguments occ : simpl never.

(** ** The contract of the object table *)

(** C1: starting from an empty context, every operation of a client that keeps to
    the counting discipline succeeds: no operation touches a deleted object,
    and afterwards the system count of every object is again the number of
    references to it, no reference dangles and the object list links exactly
    the live objects. *)
Theorem objects_safe {B G : Type} `{ObjectClass B G} (g : G) (ext ext' : list id) (c : Ctx B G) (r : outcome (Ctx B G)) :
  reachable g ext c -> client_step (ext, c) (ext', r) -> exists c', r = Ok c' /\ obj_inv ext' c'.
Proof. intros Hr%reachable_inv. by apply client_step_inv. Qed.


(** [zeroAllUserRef], which restarts at the head after every deletion,
    terminates; what it leaves has no user reference and is held by a system
    reference. *)
Theorem zeroAllUserRef_terminates {B G : Type} `{ObjectClass B G} (ext : list id) (c : Ctx B G) :
  obj_inv ext c ->
  exists c', zeroAllUserRef c = Ok c' /\ obj_inv ext c' /\
    forall x o, objs c' !! x = Some o -> mUserRefCount o = 0 /\ 0 < mSysRefCount o.
Proof. intros Hinv. destruct (zeroAllUserRef_inv _ _ Hinv) as (c' & ? & ? & _ & ?). eauto. Qed.

(** when nothing outside the table holds a reference and the objects do not
    refer to each other in a cycle, [zeroAllUserRef] deletes every object. *)
Theorem zeroAllUserRef_frees_all {B G : Type} `{ObjectClass B G} (c : Ctx B G) (rank : id -> nat) :
  obj_inv [] c -> acyclic c rank -> exists c', zeroAllUserRef c = Ok c' /\ objs c' = ∅.
Proof.
  intros Hinv Ha. destruct (zeroAllUserRef_inv _ _ Hinv) as (c' & -> & [Hrc _] & Hk & Hfree).
  exists c'. split; [done|]. apply map_empty. intros x. destruct (objs c' !! x) as [o|] eqn:Hx; [|done].
  destruct (acyclic_unreferenced c' rank x o) as (y & oy & Hy & Hn); [|done|].
  - intros u v ou Hu Hv. destruct (Hk _ _ Hu) as (ou0 & Hu0 & Eb). rewrite Eb in Hv. by eapply Ha.
  - pose proof (rc_sys _ _ Hrc _ _ Hy) as [Hs _]. rewrite Hn, occ_nil in Hs.
    destruct (Hfree _ _ Hy). lia.
Qed.

(** [isValid] walks the object list and answers whether the address is that of
    a live object. *)
Theorem isValid_spec {B G : Type} `{ObjectClass B G} (ext : list id) (c : Ctx B G) (obj : id) :
  obj_inv ext c -> isValid c obj = Ok (bool_decide (is_Some (objs c !! obj))).
Proof.
  intros [_ [l Hd]]. unfold isValid. rewrite (dll_head _ _ Hd), (isValid_loop_spec _ _ _ Hd).
  - f_equal. apply bool_decide_ext, (dll_dom _ _ Hd).
  - rewrite (dll_size _ _ Hd). lia.
Qed.

(** [ObjectBaseRef::set] moves a reference from [a] to [b] when something else
    keeps [b] alive: a user reference or a system reference of the caller. *)
Theorem ref_set_safe {B G : Type} `{ObjectClass B G} (ext : list id) (c : Ctx B G) (a b : id) (ob : Obj B) :
  obj_inv (a :: ext) c -> a <> b -> objs c !! b = Some ob -> 0 < mUserRefCount ob \/ b ∈ ext ->
  mSysRefCount ob + 1 < 2 ^ 31 ->
  exists c', ref_set c (Some a) (Some b) = Ok (Some b, c') /\ obj_inv (b :: ext) c'.
Proof. apply ref_set_inv. Qed.

(** [ObjectBaseRef::set] clears the old reference before it takes the new one:
    when the old object is the sole owner of the new one, both are deleted and
    the increment writes to freed memory. *)
Theorem ref_set_use_after_free {B G : Type} `{ObjectClass B G} (ext : list id) (c : Ctx B G) (a b : id) (oa ob : Obj B) :
  obj_inv (a :: ext) c -> a <> b -> objs c !! a = Some oa -> objs c !! b = Some ob ->
  held_refs (body oa) = [b] -> mUserRefCount oa = 0 -> mSysRefCount oa = 1 ->
  mUserRefCount ob = 0 -> mSysRefCount ob = 1 ->
  ref_set c (Some a) (Some b) = Fault UseAfterFree.
Proof.
  intros Hinv Hab Ha Hb Hrefs Hua Hsa Hub Hsb.
  destruct (decSysRef_owner ext c a b oa ob) as (c' & E & Hgone); try done.
  unfold ref_set, ref_clear, ref_new. rewrite decide_False by congruence. rewrite E. cbn.
  unfold incSysRef, upd, deref. by rewrite Hgone.
Qed.

(** ** Instances

    A class whose objects hold a list of references, and a context in which
    object 2 owns object 1 and one reference to object 2 is held outside. *)
Section example.

#[local] Instance plain_class : ObjectClass (list id) unit :=
  {| held_refs := fun refs => refs; preDestroy := fun _ _ g => g |}.

Definition empty_ctx : Ctx (list id) unit := mkCtx ∅ None 1%positive tt.

Definition chain_ctx : Ctx (list id) unit :=
  match ('(_, c) ← new_obj empty_ctx []; c ← incSysRef c 1%positive;
         '(_, c) ← new_obj c [1%positive]; incSysRef c 2%positive) with
  | Ok c => c
  | Fault _ => empty_ctx
  end.

Lemma reach_ok ext c ext' r c' :
  reachable tt ext c -> client_step (ext, c) (ext', r) -> r = Ok c' -> reachable tt ext' c'.
Proof. intros Hr Hs ->. by eapply reach_step. Qed.

Lemma chain_reachable : reachable tt [2%positive] chain_ctx.
Proof.
  eapply reach_ok; [eapply reach_ok; [eapply reach_ok; [eapply reach_ok; [apply reach_init|..]|..]|..]|..].
  - by apply (client_new [] [] _ []).
  - vm_compute. reflexivity.
  - eapply (client_incSys [] _ 1%positive); [vm_compute; reflexivity|done].
  - vm_compute. reflexivity.
  - apply (client_new [1%positive] [] _ [1%positive]). done.
  - vm_compute. reflexivity.
  - eapply (client_incSys [] _ 2%positive); [vm_compute; reflexivity|done].
  - vm_compute. reflexivity.
Qed.

Lemma chain_inv : obj_inv [2%positive] chain_ctx.
Proof. apply (reachable_inv _ _ _ chain_reachable). Qed.

Lemma objects_safe_witness :
  exists c', snd <$> decSysRef chain_ctx 2%positive = Ok c' /\ obj_inv [] c'.
Proof.
  apply (objects_safe tt [2%positive] [] chain_ctx); [apply chain_reachable|by apply client_decSys].
Defined.


Lemma zeroAllUserRef_terminates_witness :
  exists c', zeroAllUserRef chain_ctx = Ok c' /\ obj_inv [2%positive] c' /\
    forall x o, objs c' !! x = Some o -> mUserRefCount o = 0 /\ 0 < mSysRefCount o.
Proof. apply (zeroAllUserRef_terminates [2%positive] chain_ctx), chain_inv. Defined.

(** The same two objects, held by a user reference to object 2 only. *)
Definition user_ctx : Ctx (list id) unit :=
  match (c ← incUserRef chain_ctx 2%positive; snd <$> decSysRef c 2%positive) with
  | Ok c => c
  | Fault _ => empty_ctx
  end.

Lemma user_reachable : reachable tt [] user_ctx.
Proof.
  eapply reach_ok; [eapply reach_ok; [apply chain_reachable|..]|..].
  - eapply (client_incUser _ _ 2%positive); [vm_compute; reflexivity|done].
  - vm_compute. reflexivity.
  - by apply (client_decSys _ [] _ 2%positive).
  - vm_compute. reflexivity.
Qed.

Lemma user_acyclic : acyclic user_ctx Pos.to_nat.
Proof.
  intros x y o Hx Hy. destruct (decide (x = 1%positive)) as [->|]; [|destruct (decide (x = 2%positive)) as [->|]].
  - vm_compute in Hx. injection Hx as <-. cbn in Hy. by apply elem_of_nil in Hy.
  - vm_compute in Hx. injection Hx as <-. cbn in Hy. apply list_elem_of_singleton in Hy as ->. lia.
  - exfalso. assert (x ∈ dom (objs user_ctx)) as Hd by (apply elem_of_dom; eauto).
    assert (dom (objs user_ctx) = {[1%positive; 2%positive]}) as E by (vm_compute; reflexivity).
    rewrite E, elem_of_union, !elem_of_singleton in Hd. tauto.
Qed.

Lemma zeroAllUserRef_frees_all_witness : exists c', zeroAllUserRef user_ctx = Ok c' /\ objs c' = ∅.
Proof.
  apply (zeroAllUserRef_frees_all user_ctx Pos.to_nat);
    [apply (reachable_inv _ _ _ user_reachable)|apply user_acyclic].
Defined.

Lemma isValid_spec_witness :
  isValid chain_ctx 1%positive = Ok (bool_decide (is_Some (objs chain_ctx !! 1%positive))).
Proof. apply (isValid_spec [2%positive]), chain_inv. Defined.

(** A third object, with a reference to it held by the caller as well. *)
Definition three_ctx : Ctx (list id) unit :=
  match ('(_, c) ← new_obj chain_ctx []; incSysRef c 3%positive) with
  | Ok c => c
  | Fault _ => empty_ctx
  end.

Lemma three_reachable : reachable tt [3%positive; 2%positive] three_ctx.
Proof.
  eapply reach_ok; [eapply reach_ok; [apply chain_reachable|..]|..].
  - by apply (client_new _ [2%positive] _ []).
  - vm_compute. reflexivity.
  - eapply (client_incSys _ _ 3%positive); [vm_compute; reflexivity|done].
  - vm_compute. reflexivity.
Qed.

Lemma ref_set_safe_witness :
  exists c', ref_set three_ctx (Some 3%positive) (Some 2%positive) = Ok (Some 2%positive, c') /\
    obj_inv [2%positive; 2%positive] c'.
Proof.
  eapply (ref_set_safe [2%positive] three_ctx 3%positive 2%positive);
    [apply (reachable_inv _ _ _ three_reachable)|done|vm_compute; reflexivity|by right; left|done].
Defined.

Lemma ref_set_use_after_free_witness :
  ref_set chain_ctx (Some 2%positive) (Some 1%positive) = Fault UseAfterFree.
Proof.
  eapply (ref_set_use_after_free [] chain_ctx 2%positive 1%positive);
    [apply chain_inv|done|vm_compute; reflexivity|vm_compute; reflexivity|reflexivity..].
Defined.

End example.

End ObjectBase.
