(* ===== verification/Objects.v ===== *)
(** * Objects: the classes derived from [ObjectBase]

    The members of [Element] ([rsElement.h]) and [Type] ([rsType.h]), the sum of
    the object bodies, the two caches of the context ([ElementState],
    [TypeState]) and the instance of [ObjectBase.ObjectClass] that says which
    references each destructor releases and what each [preDestroy] does to the
    caches.  An object of a class that has no constructor of its own is known by
    the references it holds. *)

From S2P Require Import Prelude Stream Component ObjectBase.
Import Stream ObjectBase.

Module Objects.

(** ** [Element] *)

Record ElementField_t := mkField {
  f_name : cstr;
  f_e : option id;                        (** [ObjectBaseRef<const Element> e] *)
  f_offsetBits : Z;
  f_offsetBitsUnpadded : option Z;
  f_arraySize : Z
}.

(** [Element::Hal::State]: the arrays describe the fields whose name does not
    start with [#]. *)
Record ElementHal := mkElementHal {
  h_dataType : Component.RsDataType;
  h_dataKind : Component.RsDataKind;
  h_vectorSize : Z;
  h_elementSizeBytes : Z;
  h_fields : list (option id);
  h_fieldArraySizes : list Z;
  h_fieldNames : list cstr;
  h_fieldNameLengths : list Z;
  h_fieldOffsetBytes : list Z;
  h_fieldsCount : Z
}.

(** [mBitsUnpadded] is [None] while it holds what [Component] left unset. *)
Record Element := mkElement {
  e_mComponent : Component.Component;
  e_mFields : list ElementField_t;
  e_mHasReference : bool;
  e_mBits : Z;
  e_mBitsUnpadded : option Z;
  e_mHal : ElementHal
}.

(** ** [Type] *)

Record TypeHal := mkTypeHal {
  t_element : option id;
  dimX : Z;
  dimY : Z;
  dimZ : Z;
  lodDimX : list Z;
  lodDimY : list Z;
  lodDimZ : list Z;
  lodCount : Z;
  dimYuv : Z;
  faces : bool
}.

Record Type_ := mkType {
  t_mDimLOD : bool;
  t_mElement : option id;                 (** [ObjectBaseRef<const Element> mElement] *)
  t_mCellCount : Z;
  t_mHal : TypeHal
}.

(** ** Bodies and caches *)

Inductive obody :=
| BElement (e : Element)
| BType (t : Type_)
| BOther (refs : list id).

Record state_caches := mkCaches {
  mElements : list id;                    (** [mStateElement.mElements] *)
  mTypes : list id                        (** [mStateType.mTypes] *)
}.

Definition with_elements (g : state_caches) (l : list id) : state_caches := mkCaches l (mTypes g).
Definition with_types (g : state_caches) (l : list id) : state_caches := mkCaches (mElements g) l.

Definition set_of_opt (r : option id) : list id := match r with Some x => [x] | None => [] end.

(** [delete [] mFields] destroys the array from its last element to its first. *)
Definition element_refs (e : Element) : list id := e_mFields e ≫= (fun f => set_of_opt (f_e f)).

Definition obody_refs (b : obody) : list id :=
  match b with
  | BElement e => reverse (element_refs e)
  | BType t => set_of_opt (t_mElement t)
  | BOther refs => refs
  end.

(** The loop of [Element::preDestroy] and [Type::preDestroy]: remove the first
    entry that is [this]. *)
Fixpoint remove_first (this : id) (l : list id) : list id :=
  match l with
  | [] => []
  | x :: r => if decide (x = this) then r else x :: remove_first this r
  end.

Definition obody_preDestroy (this : id) (b : obody) (g : state_caches) : state_caches :=
  match b with
  | BElement _ => with_elements g (remove_first this (mElements g))
  | BType _ => with_types g (remove_first this (mTypes g))
  | BOther _ => g
  end.

#[global] Instance obody_class : ObjectClass obody state_caches :=
  {| held_refs := obody_refs; preDestroy := obody_preDestroy |}.

Abbreviation ctx := (Ctx obody state_caches).

Definition no_objects : ctx := mkCtx ∅ None 1%positive (mkCaches [] []).

(** ** Lemmas *)

Lemma remove_first_elem x y l : x <> y -> x ∈ remove_first y l <-> x ∈ l.
Proof.
  intros Hne. induction l as [|z l IH]; cbn; [done|]. case_decide; subst.
  - rewrite elem_of_cons. naive_solver.
  - rewrite !elem_of_cons, IH. done.
Qed.

Lemma remove_first_sublist x l : remove_first x l `sublist_of` l.
Proof.
  induction l as [|y l IH]; cbn; [done|]. case_decide; [by apply sublist_cons|by apply sublist_skip].
Qed.

Lemma remove_first_NoDup x l : NoDup l -> NoDup (remove_first x l).
Proof. intros. eapply sublist_NoDup; eauto using remove_first_sublist. Qed.

Lemma remove_first_gone x l : NoDup l -> x ∉ remove_first x l.
Proof.
  induction 1 as [|y l Hy Hnd IH]; cbn; [apply not_elem_of_nil|].
  case_decide; subst; [done|]. rewrite elem_of_cons. naive_solver.
Qed.

Lemma elem_remove_first x y l : x ∈ remove_first y l -> x ∈ l.
Proof. intros. eapply elem_of_submseteq; eauto using sublist_submseteq, remove_first_sublist. Qed.

(** Every reference of a body points to a live object. *)
Definition closed (m : gmap id obody) : Prop :=
  forall x b y, m !! x = Some b -> y ∈ obody_refs b -> is_Some (m !! y).

Lemma obj_inv_closed ext (c : ctx) : obj_inv ext c -> closed (bodies c).
Proof.
  intros [Hrc _] x b y Hx Hy. unfold bodies in *. rewrite lookup_fmap in Hx.
  apply fmap_Some in Hx as (o & Hx & ->). rewrite lookup_fmap, fmap_is_Some.
  apply (rc_live _ _ Hrc). pose proof (nrefs_held y x o (objs c) Hx Hy). lia.
Qed.

(** Deletions take the objects of a class out of the table and out of the cache
    [get] of that class together. *)
Lemma sheds_cached (get : state_caches -> list id) (sel : obody -> bool) m g m' g' :
  (forall x b g, get (obody_preDestroy x b g) = if sel b then remove_first x (get g) else get g) ->
  rtc shed (m, g) (m', g') -> NoDup (get g) ->
  (forall x, x ∈ get g <-> exists b, m !! x = Some b /\ sel b = true) ->
  m' ⊆ m /\ NoDup (get g') /\ (forall x, x ∈ get g' <-> exists b, m' !! x = Some b /\ sel b = true).
Proof.
  intros Hget Hr. remember (m, g) as s eqn:Es. remember (m', g') as s' eqn:Es'.
  revert m g m' g' Es Es'. induction Hr as [s|s1 s2 s3 Hst Hr IH]; intros m g m' g' -> Es' Hnd Hc.
  { by simplify_eq. }
  inversion Hst as [? ? x b Hx]; subst. cbn in Hr, IH.
  destruct (IH _ _ _ _ eq_refl eq_refl) as (Hsub & Hnd' & Hc').
  - rewrite Hget. destruct (sel b); [by apply remove_first_NoDup|done].
  - intros y. rewrite Hget. destruct (decide (y = x)) as [->|Hne].
    + rewrite lookup_delete_eq. split; [|by intros (? & ? & ?)]. destruct (sel b) eqn:Eb.
      * intros Hin. by apply remove_first_gone in Hin.
      * intros (b' & Hb' & Hs)%Hc. congruence.
    + rewrite lookup_delete_ne by done. destruct (sel b); [rewrite remove_first_elem by done|]; apply Hc.
  - split_and!; [|done..]. etrans; [exact Hsub|apply delete_subseteq].
Qed.

(** ** Contexts with an invariant of their own

    [W I ext us n c]: the object table of [c] is consistent, [ext] are the system
    references and [us] the user references the running code holds, every count
    has room for [n] more, and [I] holds of the bodies and caches.  [I] is
    [Stable] when deletions keep it. *)
Class Stable (I : gmap id obody -> state_caches -> Prop) :=
  stable m g m' g' : I m g -> rtc shed (m, g) (m', g') -> closed m' -> I m' g'.

Record W (I : gmap id obody -> state_caches -> Prop) (ext us : list id) (n : Z) (c : ctx) : Prop := {
  w_obj : obj_inv ext c;
  w_shape : I (bodies c) (caches c);
  w_users : forall x, (0 < occ x us)%nat ->
    exists o, objs c !! x = Some o /\ Z.of_nat (occ x us) <= mUserRefCount o;
  w_room : forall x o, objs c !! x = Some o -> mSysRefCount o + n < 2 ^ 31 /\ mUserRefCount o + n < 2 ^ 31
}.

Section world.
Context {I : gmap id obody -> state_caches -> Prop} `{!Stable I}.

Lemma W_weaken ext us n k c : k <= n -> W I ext us n c -> W I ext us k c.
Proof. intros Hk [Ho Hs Hu Hr]. split; [done..|]. intros x o Hx. specialize (Hr _ _ Hx). lia. Qed.

Lemma W_ext ext ext' us us' n c :
  (forall x, occ x ext' = occ x ext) -> (forall x, (occ x us' <= occ x us)%nat) -> W I ext us n c -> W I ext' us' n c.
Proof.
  intros He Hus [[Hrc Hd] Hs Hu Hr]. split; [|done| |done].
  - split; [|done]. by eapply rc_inv_perm; [|exact Hrc].
  - intros x Hx. specialize (Hus x). destruct (Hu x) as (o & ? & ?); [lia|]. exists o. split; [done|lia].
Qed.

Lemma bodies_live (c : ctx) x b : bodies c !! x = Some b -> exists o, objs c !! x = Some o /\ body o = b.
Proof. unfold bodies. rewrite lookup_fmap, fmap_Some. naive_solver. Qed.

Lemma W_incSys ext us n c x b :
  0 <= n -> W I ext us (n + 1) c -> bodies c !! x = Some b ->
  exists c', incSysRef c x = Ok c' /\ W I (x :: ext) us n c' /\ shape c' = shape c /\ nextId c' = nextId c.
Proof.
  intros Hn [Ho Hs Hu Hr] (o & Hx & Hb)%bodies_live. pose proof (Hr _ _ Hx) as [Hr1 Hr2].
  destruct (incSysRef_inv _ _ _ _ Ho Hx) as (-> & Ho' & Esh); [lia|].
  eexists. split; [done|]. split_and!; [|done|done]. injection Esh as Eb. split; [done|by rewrite Eb|..]; cbn.
  - intros y Hy. destruct (Hu _ Hy) as (oy & Hoy & Hle). rewrite lookup_insert.
    case_decide; simplify_eq; eauto.
  - intros y oy. rewrite lookup_insert. case_decide; intros; simplify_eq; cbn; [lia|].
    specialize (Hr _ _ ltac:(done)). lia.
Qed.

Lemma W_incUser ext us n c x b :
  0 <= n -> W I ext us (n + 1) c -> bodies c !! x = Some b ->
  exists c', incUserRef c x = Ok c' /\ W I ext (x :: us) n c' /\ shape c' = shape c /\ nextId c' = nextId c.
Proof.
  intros Hn [Ho Hs Hu Hr] (o & Hx & Hb)%bodies_live. pose proof (Hr _ _ Hx) as [Hr1 Hr2].
  pose proof (rc_user _ _ (proj1 Ho) _ _ Hx).
  destruct (incUserRef_inv _ _ _ _ Ho Hx) as (-> & Ho' & Esh); [lia|].
  eexists. split; [done|]. split_and!; [|done|done]. injection Esh as Eb. split; [done|by rewrite Eb|..]; cbn.
  - intros y. rewrite occ_cons, lookup_insert. intros Hy.
    destruct (decide (x = y)) as [->|]; [|by apply Hu].
    eexists. split; [done|]. cbn. destruct (decide (0 < occ y us)%nat) as [Hp|]; [|lia].
    destruct (Hu _ Hp) as (oy & Hoy & Hle). simplify_eq. lia.
  - intros y oy. rewrite lookup_insert. case_decide; intros; simplify_eq; cbn; [lia|].
    specialize (Hr _ _ ltac:(done)). lia.
Qed.

(** Giving back a system reference to an object the code still holds. *)
Lemma W_decSys ext us n c x :
  0 <= n -> W I (x :: ext) us n c -> x ∈ us \/ x ∈ ext ->
  exists c', decSysRef c x = Ok (false, c') /\ W I ext us n c' /\ shape c' = shape c /\ nextId c' = nextId c.
Proof.
  intros Hn [Ho Hs Hu Hr] Hk.
  destruct (rc_live _ _ (proj1 Ho) x) as [o Hx]; [rewrite occ_cons, decide_True by done; lia|].
  pose proof (rc_sys _ _ (proj1 Ho) _ _ Hx) as Hsys. rewrite occ_cons, decide_True in Hsys by done.
  pose proof (rc_user _ _ (proj1 Ho) _ _ Hx).
  rewrite (decSysRef_keeps _ _ _ Hx); [|lia|].
  2: { destruct Hk as [Hk%occ_pos|Hk%occ_pos]; [right|left; lia].
       destruct (Hu _ Hk) as (? & ? & ?). simplify_eq. lia. }
  eexists. split; [done|].
  assert (Esh := bodies_upd c x o (set_sys o (mSysRefCount o - 1)) Hx eq_refl).
  split_and!; [|done|done]. injection Esh as Eb. split; [|by rewrite Eb|..].
  - eapply (counts_inv (x :: ext)); try done; cbn; try lia.
    + rewrite occ_cons, decide_True by done. lia.
    + eauto using occ_drop.
  - cbn. intros y Hy. destruct (Hu _ Hy) as (oy & Hoy & Hle). rewrite lookup_insert.
    case_decide; simplify_eq; eauto.
  - cbn. intros y oy. rewrite lookup_insert. case_decide; intros; simplify_eq; cbn; [|eauto].
    specialize (Hr _ _ Hx). lia.
Qed.

(** Giving back a user reference may delete objects. *)
Lemma W_decUser ext us n c x :
  W I ext (x :: us) n c ->
  exists b c', decUserRef c x = Ok (b, c') /\ W I ext us n c' /\ rtc shed (shape c) (shape c') /\ nextId c' = nextId c.
Proof.
  intros [Ho Hs Hu Hr]. destruct (Hu x) as (o & Hx & Hle); [rewrite occ_cons, decide_True by done; lia|].
  rewrite occ_cons, decide_True in Hle by done.
  destruct (decUserRef_inv _ _ _ _ Ho Hx) as (b & c' & -> & Ho' & [Hsh Hi Hk Hb] & _); [lia|].
  rewrite (bodies_upd _ _ o) in Hsh by done.
  exists b, c'. split; [done|]. split_and!; [|done|done]. split; [done|..].
  - eapply stable; [exact Hs|exact Hsh|by eapply obj_inv_closed].
  - intros y Hy. assert (exists oy, objs (with_objs c (<[x := set_user o (mUserRefCount o - 1)]> (objs c))) !! y = Some oy /\
      Z.of_nat (occ y us) <= mUserRefCount oy) as (oy & Hoy & Hge).
    { cbn. rewrite lookup_insert. specialize (Hu y). rewrite occ_cons in Hu. destruct (decide (x = y)) as [->|].
      - eexists. split; [done|]. cbn. lia.
      - destruct Hu as (oy & ? & ?); [lia|]. eauto. }
    destruct (Hk _ _ Hoy) as [o' Ho1]; [lia|]. destruct (Hb _ _ Ho1) as (? & ? & ? & _). simplify_eq.
    exists o'. split; [done|lia].
  - intros y oy Hoy. destruct (Hb _ _ Hoy) as (oy0 & Hoy0 & -> & _ & _ & Hle0). cbn in Hoy0.
    rewrite lookup_insert in Hoy0. case_decide; simplify_eq; cbn in *.
    + specialize (Hr _ _ Hx). lia.
    + specialize (Hr _ _ Hoy0). lia.
Qed.

(** [checkDelete] on any object. *)
Lemma W_checkDelete ext us n c x b0 :
  W I ext us n c -> bodies c !! x = Some b0 ->
  exists b c', checkDelete c x = Ok (b, c') /\ W I ext us n c' /\ rtc shed (shape c) (shape c') /\ nextId c' = nextId c.
Proof.
  intros [Ho Hs Hu Hr] (o & Hx & _)%bodies_live.
  destruct (checkDelete_inv _ _ _ _ Ho Hx) as (b & c' & -> & Ho' & [Hsh Hi Hk Hb] & _).
  exists b, c'. split; [done|]. split_and!; [|done|done]. split; [done|..].
  - eapply stable; [exact Hs|exact Hsh|by eapply obj_inv_closed].
  - intros y Hy. destruct (Hu _ Hy) as (oy & Hoy & Hle). destruct (Hk _ _ Hoy) as [o' Ho1]; [lia|].
    destruct (Hb _ _ Ho1) as (? & ? & ? & _). simplify_eq. exists o'. split; [done|lia].
  - intros y oy Hoy. destruct (Hb _ _ Hoy) as (oy0 & Hoy0 & -> & _ & _ & Hle0). specialize (Hr _ _ Hoy0). lia.
Qed.

(** Naming an object. *)
Lemma W_assignName ext us n c x b nm :
  W I ext us n c -> bodies c !! x = Some b ->
  exists c' o, assignName c x nm = Ok c' /\ W I ext us n c' /\ shape c' = shape c /\
    objs c !! x = Some o /\ objs c' = <[x := set_name o nm]> (objs c).
Proof.
  intros [Ho Hs Hu Hr] (o & Hx & Hb)%bodies_live. unfold assignName. rewrite (upd_Ok _ _ _ _ Hx).
  assert (Esh := bodies_upd c x o (set_name o nm) Hx eq_refl).
  eexists _, o. split; [done|]. split_and!; [|done..]. injection Esh as Eb. split; [|by rewrite Eb|..]; cbn.
  - pose proof (rc_sys _ _ (proj1 Ho) _ _ Hx). pose proof (rc_user _ _ (proj1 Ho) _ _ Hx).
    eapply (counts_inv ext); try done; cbn; lia.
  - intros y Hy. destruct (Hu _ Hy) as (oy & Hoy & Hle). rewrite lookup_insert. case_decide; simplify_eq; eauto.
  - intros y oy. rewrite lookup_insert. case_decide; intros; simplify_eq; cbn; eauto.
Qed.

End world.

(** While an object is being built the bodies and caches are known exactly. *)
Definition is_shape (m : gmap id obody) (g : state_caches) (m' : gmap id obody) (g' : state_caches) : Prop :=
  m' = m /\ g' = g.

Lemma W_shape I ext us n c : W I ext us n c -> W (is_shape (bodies c) (caches c)) ext us n c.
Proof. intros [Ho Hs Hu Hr]. by split. Qed.

Lemma W_of_shape (I : gmap id obody -> state_caches -> Prop) ext us n m g c :
  W (is_shape m g) ext us n c -> I m g -> W I ext us n c.
Proof. intros [Ho [<- <-] Hu Hr] HI. by split. Qed.

Lemma shape_bodies (c : ctx) m g : shape c = (m, g) -> bodies c = m /\ caches c = g.
Proof. unfold shape. intros. by simplify_eq. Qed.

Lemma nextId_bodies ext c x b : obj_inv ext c -> bodies c !! x = Some b -> (x < nextId c)%positive.
Proof.
  intros [_ [l Hd]] (o & Hx & _)%bodies_live. apply (dll_fresh _ _ Hd), (dll_dom _ _ Hd). eauto.
Qed.

Lemma W_new m g ext us n c b :
  0 <= n < 2 ^ 31 -> W (is_shape m g) ext us n c -> obody_refs b = [] ->
  exists c', new_obj c b = Ok (nextId c, c') /\ W (is_shape (<[nextId c := b]> m) g) ext us n c' /\
    m !! nextId c = None /\ (forall y b', m !! y = Some b' -> (y < nextId c)%positive).
Proof.
  intros Hn [Ho [<- <-] Hu Hr] Hb.
  destruct (new_obj_inv ext ext c b Ho) as (c' & o & -> & Ho' & Hfresh & [Eb Ec]%shape_bodies & Hback & Hx & Ebo & Eu & Es).
  { intros y. cbn. by rewrite Hb. }
  eexists. split; [done|]. split_and!.
  - split; [done|done|..].
    + intros y Hy. destruct (Hu _ Hy) as (oy & Hoy & Hle). assert (y <> nextId c) as Hne by congruence.
      pose proof (f_equal (fun s => s !! y) Eb) as E. cbn in E.
      unfold bodies in E. rewrite lookup_insert_ne, !lookup_fmap, Hoy in E by done.
      apply fmap_Some in E as (oy' & Hoy' & _). destruct (Hback _ _ Hne Hoy') as (? & ? & (Eu' & _)).
      simplify_eq. exists oy'. split; [done|lia].
    + intros y oy Hoy. destruct (decide (y = nextId c)) as [->|Hne]; [simplify_eq; lia|].
      destruct (Hback _ _ Hne Hoy) as (o0 & Hoy0 & (-> & -> & _)). eauto.
  - unfold bodies. by rewrite lookup_fmap, Hfresh.
  - intros y b'. eauto using nextId_bodies.
Qed.

Lemma W_setbody m g ext ext' us n c x b b' :
  W (is_shape m g) ext us n c -> m !! x = Some b ->
  (forall y, occ y (obody_refs b') + occ y ext' = occ y (obody_refs b) + occ y ext)%nat ->
  exists c', upd c x (fun o => set_body o b') = Ok c' /\ W (is_shape (<[x := b']> m) g) ext' us n c' /\
    nextId c' = nextId c.
Proof.
  intros [Ho [<- <-] Hu Hr] Hx Hocc. apply bodies_live in Hx as (o & Hx & <-).
  destruct (set_body_inv ext ext' c x o b' Ho Hx Hocc) as (-> & Ho' & [Eb Ec]%shape_bodies).
  eexists. split; [done|]. split; [|done]. split; [done|done|..]; cbn.
  - intros y Hy. destruct (Hu _ Hy) as (oy & Hoy & Hle). rewrite lookup_insert. case_decide; simplify_eq; eauto.
  - intros y oy. rewrite lookup_insert. case_decide; intros; simplify_eq; cbn; eauto.
Qed.

Lemma W_caches m g g' ext us n c :
  W (is_shape m g) ext us n c -> W (is_shape m g') ext us n (with_caches c g').
Proof. intros [Ho [<- <-] Hu Hr]. split; [by apply obj_inv_caches|done..]. Qed.

End Objects.
