(* ===== verification/Element.v ===== *)
(** * Element: the description of one cell ([rsElement.h], [rsElement.cpp])

    An element is a leaf with a [Component] or a struct of named fields that are
    elements.  Elements are shared: [createRef] looks for an equal one in the
    cache of the context before it builds a new one.  [look] stands for the
    dereference of an element pointer. *)

From S2P Require Import Prelude CppUtils Stream Component ObjectBase Objects.
Import Stream ObjectBase Objects.

Module Element.

Definition RS_A3D_CLASS_ID_ELEMENT : Z := 3.

(** [static_cast<Element *>] of an object pointer, dereferenced. *)
Definition as_element (c : ctx) (x : id) : outcome Element :=
  o ← deref c x;
  match body o with BElement e => Ok e | _ => Fault BadCast end.

(** [ObjectBaseRef::operator->]. *)
Definition field_elem (f : ElementField_t) : outcome id := of_option NullDeref (f_e f).

Section layout.
Context (look : id -> outcome Element).

(** [total += mFields[ct].e->mBits * mFields[ct].arraySize]: a 32-bit product
    added to a [size_t]. *)
Fixpoint sum_bits (fs : list ElementField_t) (total : Z) : outcome Z :=
  match fs with
  | [] => Ok total
  | f :: r =>
      x ← field_elem f; s ← look x;
      sum_bits r (total +u64 (e_mBits s *u32 f_arraySize f))
  end.

Definition getSizeBits (e : Element) : outcome Z :=
  match e_mFields e with
  | [] => Ok (e_mBits e)
  | fs => sum_bits fs 0
  end.

Fixpoint sum_bits_unpadded (fs : list ElementField_t) (total : option Z) : outcome (option Z) :=
  match fs with
  | [] => Ok total
  | f :: r =>
      x ← field_elem f; s ← look x;
      sum_bits_unpadded r (t ← total; b ← e_mBitsUnpadded s; Some (t +u64 (b *u32 f_arraySize f)))
  end.

Definition getSizeBitsUnpadded (e : Element) : outcome (option Z) :=
  match e_mFields e with
  | [] => Ok (e_mBitsUnpadded e)
  | fs => sum_bits_unpadded fs (Some 0)
  end.

Definition getSizeBytes (e : Element) : outcome Z :=
  bits ← getSizeBits e; Ok (Z.shiftr (bits +u64 7) 3).

Definition getSizeBytesUnpadded (e : Element) : outcome (option Z) :=
  bits ← getSizeBitsUnpadded e; Ok (b ← bits; Some (Z.shiftr (b +u64 7) 3)).

(** [name[0] == '#']. *)
Definition is_padding (f : ElementField_t) : bool :=
  match f_name f with ch :: _ => ch =? 35 | [] => false end.

(** The field loop of [compute]: the offsets, and whether a field holds
    references. *)
Fixpoint compute_fields (fs : list ElementField_t) (bits : Z) (bitsUnpadded : option Z) (hasRef : bool)
    : outcome (list ElementField_t * bool) :=
  match fs with
  | [] => Ok ([], hasRef)
  | f :: r =>
      x ← field_elem f; s ← look x;
      sz ← getSizeBits s;
      szu ← getSizeBitsUnpadded s;
      let f' := mkField (f_name f) (f_e f) (u32 bits) (u32 <$> bitsUnpadded) (f_arraySize f) in
      '(r', h) ← compute_fields r (bits +u64 (sz *u64 f_arraySize f))
                   (b ← bitsUnpadded; z ← szu; Some (b +u64 (z *u64 f_arraySize f)))
                   (hasRef || e_mHasReference s);
      Ok (f' :: r', h)
  end.

Definition shown (fs : list ElementField_t) : list ElementField_t :=
  filter (fun f => is_padding f = false) fs.

Definition compute (e : Element) : outcome Element :=
  let cmp := e_mComponent e in
  let dt := Component.mType cmp in
  let dk := Component.mKind cmp in
  let vs := Component.mVectorSize cmp in
  let h := e_mHal e in
  match e_mFields e with
  | [] =>
      let hasRef := Component.isReference cmp in
      let bits := Component.mBits cmp in
      let bitsU := Component.mBitsUnpadded cmp in
      bytes ← getSizeBytes (mkElement cmp [] hasRef bits bitsU h);
      Ok (mkElement cmp [] hasRef bits bitsU
            (mkElementHal dt dk vs (u32 bytes) (h_fields h) (h_fieldArraySizes h) (h_fieldNames h)
               (h_fieldNameLengths h) (h_fieldOffsetBytes h) (h_fieldsCount h)))
  | fs =>
      '(fs', hasRef) ← compute_fields fs 0 (Some 0) (e_mHasReference e);
      let vis := shown fs' in
      bytes ← getSizeBytes (mkElement cmp fs' hasRef (e_mBits e) (e_mBitsUnpadded e) h);
      Ok (mkElement cmp fs' hasRef (e_mBits e) (e_mBitsUnpadded e)
            (mkElementHal dt dk vs (u32 bytes) (f_e <$> vis) (f_arraySize <$> vis) (f_name <$> vis)
               ((fun f => u32 (strlen (f_name f) + 1)) <$> vis)
               ((fun f => Z.shiftr (f_offsetBits f) 3) <$> vis) (zlen vis)))
  end.

End layout.

(** [Element::Element(rsc)]: everything zero. *)
Definition ElementHal_zero : ElementHal :=
  mkElementHal Component.RS_TYPE_NONE Component.RS_KIND_USER 0 0 [] [] [] [] [] 0.
Definition Element_new : Element := mkElement Component.Component_new [] false 0 (Some 0) ElementHal_zero.

(** ** [createRef] for a leaf *)

Definition leaf_match (e : Element) (dt : Component.RsDataType) (dk : Component.RsDataKind)
    (isNorm : bool) (vecSize : Z) : bool :=
  let cmp := e_mComponent e in
  (zlen (e_mFields e) =? 0) && bool_decide (Component.mType cmp = dt) &&
  bool_decide (Component.mKind cmp = dk) && eqb (Component.mNormalized cmp) isNorm &&
  (Component.mVectorSize cmp =? vecSize).

(** The scan of [mElements] under the lock. *)
Fixpoint find_element (c : ctx) (p : Element -> bool) (l : list id) : outcome (option id) :=
  match l with
  | [] => Ok None
  | x :: r => e ← as_element c x; if p e then Ok (Some x) else find_element c p r
  end.

(** [mElements.push(e)]. *)
Definition push_element (c : ctx) (x : id) : ctx :=
  with_caches c (with_elements (caches c) (mElements (caches c) ++ [x])).

(** The result is the reference the returned [ObjectBaseRef] holds.  On a match
    the source returns the raw pointer: a second reference is taken for the
    result and the local one is dropped. *)
Definition createRef (c : ctx) (dt : Component.RsDataType) (dk : Component.RsDataKind)
    (isNorm : bool) (vecSize : Z) : outcome (id * ctx) :=
  m ← find_element c (fun e => leaf_match e dt dk isNorm vecSize) (mElements (caches c));
  match m with
  | Some ee =>
      c ← incSysRef c ee;
      c ← incSysRef c ee;
      '(_, c) ← decSysRef c ee;
      Ok (ee, c)
  | None =>
      '(x, c) ← new_obj c (BElement Element_new);
      c ← incSysRef c x;
      cmp ← Component.set Component.Component_new dt dk isNorm vecSize;
      e ← compute (as_element c)
            (mkElement cmp [] false 0 (Some 0) ElementHal_zero);
      c ← upd c x (fun o => set_body o (BElement e));
      Ok (x, push_element c x)
  end.

(** ** [createRef] for a struct *)

(** [lengths ? lengths[i] : strlen(nin[i])] and [asin ? asin[i] : 1]. *)
Definition name_len (lengths : option (list Z)) (nin : list Z) (i : Z) : outcome Z :=
  match lengths with Some ls => znth ls i | None => Ok (strlen (cstr_of nin)) end.
Definition array_size (asin : option (list Z)) (i : Z) : outcome Z :=
  match asin with Some ls => znth ls i | None => Ok 1 end.

Fixpoint fields_match (fs : list ElementField_t) (i : Z) (ein : list (option id)) (nin : list (list Z))
    (lengths asin : option (list Z)) : outcome bool :=
  match fs with
  | [] => Ok true
  | f :: r =>
      x ← znth ein i; n ← znth nin i;
      len ← name_len lengths n i;
      asize ← array_size asin i;
      if bool_decide (f_e f = x) && (strlen (f_name f) =? len) &&
         bool_decide (f_name f = cstr_of n) && (f_arraySize f =? asize)
      then fields_match r (i + 1) ein nin lengths asin
      else Ok false
  end.

Fixpoint find_struct (c : ctx) (l : list id) (ein : list (option id)) (nin : list (list Z))
    (lengths asin : option (list Z)) : outcome (option id) :=
  match l with
  | [] => Ok None
  | x :: r =>
      e ← as_element c x;
      if zlen (e_mFields e) =? zlen ein then
        b ← fields_match (e_mFields e) 0 ein nin lengths asin;
        if (b : bool) then Ok (Some x) else find_struct c r ein nin lengths asin
      else find_struct c r ein nin lengths asin
  end.

(** The loop that fills [mFields]; each [e.set] takes a reference. *)
Fixpoint make_fields (c : ctx) (i : Z) (ein : list (option id)) (nin : list (list Z))
    (lengths asin : option (list Z)) : outcome (list ElementField_t * ctx) :=
  match ein with
  | [] => Ok ([], c)
  | x :: r =>
      n ← znth nin i;
      len ← name_len lengths n i;
      asize ← array_size asin i;
      '(_, c) ← ref_set c None x;
      name ← rsuCopyString n len;
      '(fs, c) ← make_fields c (i + 1) r nin lengths asin;
      Ok (mkField name x 0 (Some 0) asize :: fs, c)
  end.

Definition createRef2 (c : ctx) (ein : list (option id)) (nin : list (list Z))
    (lengths asin : option (list Z)) : outcome (id * ctx) :=
  m ← find_struct c (mElements (caches c)) ein nin lengths asin;
  match m with
  | Some ee => c ← incSysRef c ee; Ok (ee, c)
  | None =>
      '(x, c) ← new_obj c (BElement Element_new);
      c ← incSysRef c x;
      '(fs, c) ← make_fields c 0 ein nin lengths asin;
      e ← compute (as_element c) (mkElement Component.Component_new fs false 0 (Some 0) ElementHal_zero);
      c ← upd c x (fun o => set_body o (BElement e));
      Ok (x, push_element c x)
  end.

(** [Element::create]: a user reference replaces the local [ObjectBaseRef]. *)
Definition to_user (r : outcome (id * ctx)) : outcome (id * ctx) :=
  '(x, c) ← r;
  c ← incUserRef c x;
  '(_, c) ← decSysRef c x;
  Ok (x, c).

Definition create (c : ctx) (dt : Component.RsDataType) (dk : Component.RsDataKind)
    (isNorm : bool) (vecSize : Z) : outcome (id * ctx) :=
  to_user (createRef c dt dk isNorm vecSize).

Definition create2 (c : ctx) (ein : list (option id)) (nin : list (list Z))
    (lengths asin : option (list Z)) : outcome (id * ctx) :=
  to_user (createRef2 c ein nin lengths asin).

(** ** Serialisation *)

Fixpoint serialize_fields (ser : id -> OStream -> outcome OStream) (fs : list ElementField_t)
    (s : OStream) : outcome OStream :=
  match fs with
  | [] => Ok s
  | f :: r =>
      s ← addString (f_name f) s;
      s ← addU32 (f_arraySize f) s;
      x ← field_elem f;
      s ← ser x s;
      serialize_fields ser r s
  end.

(** The recursion follows the fields, whose elements are older than the struct. *)
Fixpoint serialize_fuel (fuel : nat) (c : ctx) (x : id) (s : OStream) : outcome OStream :=
  match fuel with
  | O => Fault OutOfFuel
  | S n =>
      o ← deref c x;
      e ← as_element c x;
      s ← addU32 RS_A3D_CLASS_ID_ELEMENT s;
      nm ← of_option NullDeref (mName o);
      s ← addString nm s;
      s ← Component.serialize (e_mComponent e) s;
      s ← addU32 (u32 (zlen (e_mFields e))) s;
      serialize_fields (serialize_fuel n c) (e_mFields e) s
  end.

Definition serialize (c : ctx) (x : id) (s : OStream) : outcome OStream :=
  serialize_fuel (Pos.to_nat x) c x s.

(** The field loop of [createFromStream]: names, array sizes and elements. *)
Fixpoint load_fields (load : ctx -> IStream -> outcome (option id * ctx * IStream)) (n : nat)
    (c : ctx) (i : IStream) : outcome (list (cstr * Z * option id) * ctx * IStream) :=
  match n with
  | O => Ok ([], c, i)
  | S n =>
      '(nm, i) ← loadString i;
      '(asz, i) ← loadU32 i;
      '(x, c, i) ← load c i;
      '(rest, c, i) ← load_fields load n c i;
      Ok ((nm, asz, x) :: rest, c, i)
  end.

(** [subElems[ct]->decUserRef()] for every field. *)
Fixpoint drop_users (c : ctx) (l : list (option id)) : outcome ctx :=
  match l with
  | [] => Ok c
  | x :: r => x ← of_option NullDeref x; '(_, c) ← decUserRef c x; drop_users c r
  end.

Fixpoint createFromStream_fuel (fuel : nat) (c : ctx) (i : IStream) : outcome (option id * ctx * IStream) :=
  match fuel with
  | O => Fault OutOfFuel
  | S n =>
      '(classID, i) ← loadU32 i;
      if negb (classID =? RS_A3D_CLASS_ID_ELEMENT) then Ok (None, c, i)
      else
        '(name, i) ← loadString i;
        '(cmp, i) ← Component.loadFromStream Component.Component_new i;
        '(fieldCount, i) ← loadU32 i;
        if fieldCount =? 0 then
          '(x, c) ← create c (Component.mType cmp) (Component.mKind cmp)
                      (Component.mNormalized cmp) (Component.mVectorSize cmp);
          Ok (Some x, c, i)
        else
          '(subs, c, i) ← load_fields (createFromStream_fuel n) (Z.to_nat fieldCount) c i;
          let names := (fun p => p.1.1) <$> subs in
          '(x, c) ← create2 c (snd <$> subs) names (Some (strlen <$> names)) (Some ((fun p => p.1.2) <$> subs));
          c ← drop_users c (snd <$> subs);
          Ok (Some x, c, i)
  end.

(** Every nested element starts further into the stream. *)
Definition createFromStream (c : ctx) (i : IStream) : outcome (option id * ctx * IStream) :=
  createFromStream_fuel (S (length (i_mData i))) c i.

(** ** References inside the data an element describes

    [mem p] is the object pointer stored at address [p]; [act] is [incSysRef] or
    [decSysRef]. *)

Fixpoint walk_array (rec : ctx -> Z -> outcome ctx) (stride : ctx -> outcome Z) (n : nat) (c : ctx) (p : Z)
    : outcome ctx :=
  match n with
  | O => Ok c
  | S n => c ← rec c p; sz ← stride c; walk_array rec stride n c (p + sz)
  end.

Fixpoint walk_fields (rec : ctx -> id -> Z -> outcome ctx) (fs : list ElementField_t) (c : ctx) (p : Z)
    : outcome ctx :=
  match fs with
  | [] => Ok c
  | f :: r =>
      x ← field_elem f; s ← as_element c x;
      c ← (if e_mHasReference s then
             walk_array (fun c q => rec c x q)
               (fun c => s ← as_element c x; getSizeBytes (as_element c) s)
               (Z.to_nat (f_arraySize f)) c (p + Z.shiftr (f_offsetBits f) 3)
           else Ok c);
      walk_fields rec r c p
  end.

Fixpoint walk_refs (act : ctx -> id -> outcome ctx) (mem : Z -> outcome (option id)) (fuel : nat)
    (c : ctx) (x : id) (p : Z) : outcome ctx :=
  match fuel with
  | O => Fault OutOfFuel
  | S n =>
      e ← as_element c x;
      match e_mFields e with
      | [] =>
          if Component.isReference (e_mComponent e) then
            ob ← mem p;
            match ob with Some y => act c y | None => Ok c end
          else Ok c
      | fs => walk_fields (walk_refs act mem n) fs c p
      end
  end.

Definition incRefs (mem : Z -> outcome (option id)) (c : ctx) (x : id) (p : Z) : outcome ctx :=
  walk_refs incSysRef mem (Pos.to_nat x) c x p.
Definition decRefs (mem : Z -> outcome (option id)) (c : ctx) (x : id) (p : Z) : outcome ctx :=
  walk_refs (fun c y => snd <$> decSysRef c y) mem (Pos.to_nat x) c x p.

(** ** Entry points *)

Definition rsi_ElementCreate := create.
Definition rsi_ElementCreate2 (c : ctx) (ein : list (option id)) (names : list (list Z))
    (nameLengths arraySizes : list Z) : outcome (id * ctx) :=
  create2 c ein names (Some nameLengths) (Some arraySizes).

(** [rsaElementGetNativeData]: the five words written to [elemData]. *)
Definition rsaElementGetNativeData (c : ctx) (x : id) : outcome (list Z) :=
  e ← as_element c x;
  let cmp := e_mComponent e in
  Ok [u32 (Component.RsDataType_Z (Component.mType cmp)); u32 (Component.RsDataKind_Z (Component.mKind cmp));
      (if Component.mNormalized cmp then 1 else 0); Component.mVectorSize cmp; u32 (zlen (e_mFields e))].

(** [rsaElementGetSubElements]: each sub-element returned gets a user reference. *)
Fixpoint sub_elements (c : ctx) (fs : list ElementField_t) (n : nat)
    : outcome (list (id * cstr * Z) * ctx) :=
  match n with
  | O => Ok ([], c)
  | S n =>
      match fs with
      | [] => Fault OutOfBounds
      | f :: r =>
          x ← field_elem f;
          c ← incUserRef c x;
          '(rest, c) ← sub_elements c r n;
          Ok ((x, f_name f, f_arraySize f) :: rest, c)
      end
  end.
Definition rsaElementGetSubElements (c : ctx) (x : id) (dataSize : Z) : outcome (list (id * cstr * Z) * ctx) :=
  e ← as_element c x; sub_elements c (e_mFields e) (Z.to_nat dataSize).

(** ** The layout depends only on the elements of the fields *)

Definition look_in (m : gmap id obody) (x : id) : outcome Element :=
  match m !! x with
  | Some (BElement e) => Ok e
  | Some _ => Fault BadCast
  | None => Fault UseAfterFree
  end.

Lemma as_element_look c x : as_element c x = look_in (bodies c) x.
Proof.
  unfold as_element, deref, look_in, bodies. rewrite lookup_fmap.
  by destruct (objs c !! x) as [o|]; [destruct (body o)|].
Qed.

Lemma look_in_Ok m x e : look_in m x = Ok e <-> m !! x = Some (BElement e).
Proof. unfold look_in. destruct (m !! x) as [[]|]; naive_solver. Qed.

Lemma look_in_insert_ne m x y b : x <> y -> look_in (<[x := b]> m) y = look_in m y.
Proof. intros. unfold look_in. by rewrite lookup_insert_ne. Qed.

Definition agree (look look' : id -> outcome Element) (fs : list ElementField_t) : Prop :=
  forall f x, f ∈ fs -> f_e f = Some x -> look x = look' x.

Lemma agree_cons look look' f fs :
  agree look look' (f :: fs) -> (forall x, f_e f = Some x -> look x = look' x) /\ agree look look' fs.
Proof. intros Ha. split; [|intros g]; intros; eapply Ha; eauto; [by left|by right]. Qed.

Lemma sum_bits_ext look look' fs : agree look look' fs -> forall t, sum_bits look fs t = sum_bits look' fs t.
Proof.
  induction fs as [|f fs IH]; intros Ha t; cbn; [done|]. apply agree_cons in Ha as [Hf Ha].
  unfold field_elem. destruct (f_e f) as [x|]; cbn; [|done]. rewrite (Hf x eq_refl).
  destruct (look' x); cbn; [|done]. by apply IH.
Qed.

Lemma sum_bits_unpadded_ext look look' fs :
  agree look look' fs -> forall t, sum_bits_unpadded look fs t = sum_bits_unpadded look' fs t.
Proof.
  induction fs as [|f fs IH]; intros Ha t; cbn; [done|]. apply agree_cons in Ha as [Hf Ha].
  unfold field_elem. destruct (f_e f) as [x|]; cbn; [|done]. rewrite (Hf x eq_refl).
  destruct (look' x); cbn; [|done]. by apply IH.
Qed.

Lemma getSizeBits_ext look look' e :
  agree look look' (e_mFields e) -> getSizeBits look e = getSizeBits look' e.
Proof. intros. unfold getSizeBits. destruct (e_mFields e); [done|by apply sum_bits_ext]. Qed.

Lemma getSizeBitsUnpadded_ext look look' e :
  agree look look' (e_mFields e) -> getSizeBitsUnpadded look e = getSizeBitsUnpadded look' e.
Proof. intros. unfold getSizeBitsUnpadded. destruct (e_mFields e); [done|by apply sum_bits_unpadded_ext]. Qed.

(** Agreement on the elements of the fields and on those of their fields. *)
Definition agree2 (look look' : id -> outcome Element) (fs : list ElementField_t) : Prop :=
  forall f x, f ∈ fs -> f_e f = Some x ->
    look x = look' x /\ forall s, look x = Ok s -> agree look look' (e_mFields s).

Lemma compute_fields_ext look look' fs : agree2 look look' fs -> forall b u h,
  compute_fields look fs b u h = compute_fields look' fs b u h.
Proof.
  induction fs as [|f fs IH]; intros Ha b u h; cbn; [done|].
  unfold field_elem. destruct (f_e f) as [x|] eqn:Ef; cbn; [|done].
  destruct (Ha f x) as [Hx Hs]; [by left|done|]. rewrite <- Hx.
  destruct (look x) as [s|]; cbn; [|done]. specialize (Hs s eq_refl).
  rewrite (getSizeBits_ext _ _ _ Hs), (getSizeBitsUnpadded_ext _ _ _ Hs).
  destruct (getSizeBits look' s); cbn; [|done]. destruct (getSizeBitsUnpadded look' s); cbn; [|done].
  rewrite IH; [done|]. intros g y Hg. apply Ha. by right.
Qed.

Lemma compute_fields_refs look fs : forall b u h fs' h',
  compute_fields look fs b u h = Ok (fs', h') ->
  (fun f => (f_name f, f_e f, f_arraySize f)) <$> fs' = (fun f => (f_name f, f_e f, f_arraySize f)) <$> fs.
Proof.
  induction fs as [|f fs IH]; intros b u h fs' h' E; cbn in E; [by simplify_eq|].
  fwd. repeat case_match; fwd. cbn. f_equal. eauto.
Qed.

Lemma agree_key look look' fs fs' :
  (fun f => (f_name f, f_e f, f_arraySize f)) <$> fs' = (fun f => (f_name f, f_e f, f_arraySize f)) <$> fs ->
  agree look look' fs -> agree look look' fs'.
Proof.
  intros E Ha f x Hf Hx.
  assert ((f_name f, f_e f, f_arraySize f) ∈ (fun f => (f_name f, f_e f, f_arraySize f)) <$> fs) as Hin
    by (rewrite <- E; apply list_elem_of_fmap; eauto).
  apply list_elem_of_fmap in Hin as (g & Eg & Hg). apply (Ha g); [done|congruence].
Qed.

Lemma agree2_agree look look' fs : agree2 look look' fs -> agree look look' fs.
Proof. intros Ha f x Hf Hx. by destruct (Ha f x Hf Hx). Qed.

Lemma compute_ext look look' e : agree2 look look' (e_mFields e) -> compute look e = compute look' e.
Proof.
  intros Ha. unfold compute. destruct (e_mFields e) as [|f fs] eqn:Ef; [done|].
  rewrite (compute_fields_ext _ _ _ Ha).
  destruct (compute_fields look' (f :: fs) 0 (Some 0) (e_mHasReference e)) as [[fs' h]|] eqn:Ec; [|done].
  cbn [mbind outcome_bind]. unfold getSizeBytes. erewrite getSizeBits_ext; [done|]. cbn.
  eapply agree_key; [by eapply compute_fields_refs|]. by apply agree2_agree.
Qed.

Lemma compute_fields_mono look fs : forall b u fs' h',
  compute_fields look fs b u true = Ok (fs', h') -> h' = true.
Proof.
  induction fs as [|f fs IH]; intros b u fs' h' E; cbn in E; [by simplify_eq|].
  fwd. repeat case_match; fwd. eauto.
Qed.

(** Laying out fields that have been laid out changes nothing. *)
Lemma compute_fields_again look fs : forall b u h fs' h' k,
  compute_fields look fs b u h = Ok (fs', h') -> (h' = true -> k = true) ->
  compute_fields look fs' b u k = Ok (fs', k).
Proof.
  induction fs as [|f fs IH]; intros b u h fs' h' k E Hk; cbn in E; [by simplify_eq|].
  apply bind_Ok in E as (x & Hx & E). apply bind_Ok in E as (s & Hs & E).
  apply bind_Ok in E as (sz & Hsz & E). apply bind_Ok in E as (szu & Hszu & E).
  apply bind_Ok in E as ([r' h1] & Hr & E). injection E as <- <-.
  cbn [compute_fields]. change (field_elem (mkField _ _ _ _ _)) with (field_elem f).
  rewrite Hx. cbn. rewrite Hs. cbn. rewrite Hsz. cbn. rewrite Hszu. cbn.
  erewrite IH; [|done|intros; rewrite Hk by done; done]. cbn.
  destruct (e_mHasReference s) eqn:Er; [|by rewrite orb_false_r].
  rewrite orb_true_r in Hr. apply compute_fields_mono in Hr as ->. by rewrite Hk.
Qed.

Lemma compute_again look e e' : compute look e = Ok e' -> compute look e' = Ok e'.
Proof.
  unfold compute. destruct (e_mFields e) as [|f fs] eqn:Ef; intros E.
  - injection E as <-. done.
  - apply bind_Ok in E as ([fs' h] & Hc & E). apply bind_Ok in E as (bytes & Hb & E). injection E as <-.
    cbn [e_mFields e_mComponent e_mHal e_mHasReference e_mBits e_mBitsUnpadded].
    pose proof (compute_fields_again _ _ _ _ _ _ _ h Hc ltac:(done)) as Hc'.
    destruct fs' as [|f' fs'']; [by apply compute_fields_refs in Hc|].
    rewrite Hc'. cbn [mbind outcome_bind]. change (getSizeBytes look _) with
      (getSizeBytes look (mkElement (e_mComponent e) (f' :: fs'') h (e_mBits e) (e_mBitsUnpadded e) (e_mHal e))).
    by rewrite Hb.
Qed.

Lemma compute_keeps look e e' :
  compute look e = Ok e' ->
  e_mComponent e' = e_mComponent e /\
  (fun f => (f_name f, f_e f, f_arraySize f)) <$> e_mFields e' =
  (fun f => (f_name f, f_e f, f_arraySize f)) <$> e_mFields e.
Proof.
  unfold compute. destruct (e_mFields e) as [|f fs] eqn:Ef; intros E.
  - injection E as <-. done.
  - apply bind_Ok in E as ([fs' h] & Hc & E). apply bind_Ok in E as (bytes & Hb & E). injection E as <-.
    split; [done|]. by apply compute_fields_refs in Hc.
Qed.

Lemma compute_bits look e e' : compute look e = Ok e' -> e_mFields e' <> [] -> e_mBits e' = e_mBits e.
Proof.
  unfold compute. destruct (e_mFields e) as [|f fs] eqn:Ef; intros E.
  - by injection E as <-.
  - apply bind_Ok in E as ([fs' h] & Hc & E). apply bind_Ok in E as (bytes & Hb & E). by injection E as <-.
Qed.

(** ** The invariant of the elements of a context *)

(** What makes two elements interchangeable: the type, kind, normalisation and
    vector size of a leaf, the names, elements and array sizes of a struct. *)
Definition leaf_key (cmp : Component.Component) :=
  (Component.mType cmp, Component.mKind cmp, Component.mNormalized cmp, Component.mVectorSize cmp).
Definition fields_key (fs : list ElementField_t) : list (cstr * option id * Z) :=
  (fun f => (f_name f, f_e f, f_arraySize f)) <$> fs.
Definition same_key (e e' : Element) : Prop :=
  fields_key (e_mFields e) = fields_key (e_mFields e') /\
  (e_mFields e = [] -> leaf_key (e_mComponent e) = leaf_key (e_mComponent e')).

Definition packed_leaf (e : Element) : bool :=
  match e_mFields e with [] => Component.packed_type (Component.mType (e_mComponent e)) | _ => false end.

Lemma same_key_fields e e' : same_key e e' -> e_mFields e = [] <-> e_mFields e' = [].
Proof. intros [Hk _]. destruct (e_mFields e), (e_mFields e'); done. Qed.

Lemma same_key_sym e e' : same_key e e' -> same_key e' e.
Proof.
  intros Hk. pose proof (same_key_fields _ _ Hk) as Hf. destruct Hk as [Hk1 Hk2].
  split; [done|]. intros E. symmetry. by apply Hk2, Hf.
Qed.

Lemma same_key_packed e e' : same_key e e' -> packed_leaf e = packed_leaf e'.
Proof.
  intros [Hk1 Hk2]. unfold packed_leaf. destruct (e_mFields e), (e_mFields e'); try done.
  specialize (Hk2 eq_refl). unfold leaf_key in Hk2. congruence.
Qed.

Record elem_inv (m : gmap id obody) (g : state_caches) : Prop := {
  ei_nodup : NoDup (mElements g);
  ei_cached : forall x, x ∈ mElements g <-> exists e, m !! x = Some (BElement e);
  ei_fields : forall x e f, m !! x = Some (BElement e) -> f ∈ e_mFields e ->
    exists y e', f_e f = Some y /\ (y < x)%positive /\ m !! y = Some (BElement e');
  ei_comp : forall x e, m !! x = Some (BElement e) -> let cmp := e_mComponent e in
    Component.set Component.Component_new (Component.mType cmp) (Component.mKind cmp)
      (Component.mNormalized cmp) (Component.mVectorSize cmp) = Ok cmp;
  ei_layout : forall x e, m !! x = Some (BElement e) -> compute (look_in m) e = Ok e;
  ei_struct : forall x e, m !! x = Some (BElement e) -> e_mFields e <> [] ->
    e_mBits e = 0 /\ e_mComponent e = Component.Component_new;
  ei_unique : forall x y e e', m !! x = Some (BElement e) -> m !! y = Some (BElement e') ->
    same_key e e' -> packed_leaf e = false -> x = y
}.

Definition is_element (b : obody) : bool := match b with BElement _ => true | _ => false end.

Lemma elements_cached (m : gmap id obody) g :
  (forall x, x ∈ mElements g <-> exists e, m !! x = Some (BElement e)) <->
  (forall x, x ∈ mElements g <-> exists b, m !! x = Some b /\ is_element b = true).
Proof.
  apply forall_proper. intros x. split; intros ->; split.
  - intros [e He]. eauto.
  - intros ([e| |] & Hb & ?); naive_solver.
  - intros ([e| |] & Hb & ?); naive_solver.
  - intros [e He]. eauto.
Qed.

Lemma elem_inv_sheds m g m' g' :
  elem_inv m g -> rtc shed (m, g) (m', g') -> closed m' -> elem_inv m' g'.
Proof.
  intros [Hnd Hc Hf Hcmp Hl Hbt Hu] Hr Hcl.
  rewrite elements_cached in Hc. destruct (sheds_cached mElements is_element _ _ _ _ ltac:(by intros ? [] ?) Hr Hnd Hc) as (Hsub & Hnd' & Hc').
  rewrite <- elements_cached in Hc'.
  assert (Hback : forall x b, m' !! x = Some b -> m !! x = Some b) by (intros; by eapply lookup_weaken).
  assert (Hlive : forall x e f y, m' !! x = Some (BElement e) -> f ∈ e_mFields e -> f_e f = Some y ->
    exists e', m' !! y = Some (BElement e') /\ m !! y = Some (BElement e')).
  { intros x e f y Hx Hin Hy. destruct (Hcl _ _ y Hx) as [b Hb].
    - cbn. rewrite elem_of_reverse. unfold element_refs. apply list_elem_of_bind. exists f. split; [|done].
      rewrite Hy. by left.
    - destruct (Hf _ _ _ (Hback _ _ Hx) Hin) as (y' & e' & Hy' & _ & He'). simplify_eq.
      pose proof (Hback _ _ Hb). simplify_eq. eauto. }
  assert (Hag : forall x e, m' !! x = Some (BElement e) -> agree (look_in m') (look_in m) (e_mFields e)).
  { intros x e Hx f y Hin Hy. destruct (Hlive _ _ _ _ Hx Hin Hy) as (e' & H1 & H2).
    by rewrite (proj2 (look_in_Ok _ _ _) H1), (proj2 (look_in_Ok _ _ _) H2). }
  split; try done.
  - intros x e f Hx Hin. destruct (Hf _ _ _ (Hback _ _ Hx) Hin) as (y & e' & Hy & Hlt & _).
    destruct (Hlive _ _ _ _ Hx Hin Hy) as (e2 & ? & _). eauto.
  - intros x e Hx. by apply Hcmp with x, Hback.
  - intros x e Hx. rewrite (compute_ext _ (look_in m)); [by apply Hl with x, Hback|].
    intros f y Hin Hy. destruct (Hlive _ _ _ _ Hx Hin Hy) as (e' & H1 & H2). split; [by apply (Hag _ _ Hx f)|].
    intros s Hs%look_in_Ok. by apply (Hag y).
  - intros x e Hx. eauto.
  - intros x y e e' Hx Hy. eauto.
Qed.

(** What another component's invariant has to satisfy to be kept by element
    creation. *)
Class ElementFrame (J : gmap id obody -> state_caches -> Prop) := {
  frame_stable :: Stable J;
  frame_push m g x e : J m g -> m !! x = None ->
    J (<[x := BElement e]> m) (with_elements g (mElements g ++ [x]))
}.

#[global] Instance frame_True : ElementFrame (fun _ _ => True).
Proof. split; [intros ? ? ? ?|intros ? ? ? ?]; done. Qed.

Definition EI (J : gmap id obody -> state_caches -> Prop) (m : gmap id obody) (g : state_caches) : Prop :=
  elem_inv m g /\ J m g.

#[global] Instance EI_stable J `{!Stable J} : Stable (EI J).
Proof. intros m g m' g' [He Hj] Hr Hc. split; [by eapply elem_inv_sheds|by eapply stable]. Qed.

(** Adding an element built from live elements that no cached one equals. *)
Lemma elem_inv_push m g x e0 e :
  elem_inv m g -> m !! x = None -> (forall y b, m !! y = Some b -> (y < x)%positive) ->
  compute (look_in m) e0 = Ok e ->
  (forall f, f ∈ e_mFields e0 -> exists y e', f_e f = Some y /\ m !! y = Some (BElement e')) ->
  (let cmp := e_mComponent e0 in
   Component.set Component.Component_new (Component.mType cmp) (Component.mKind cmp)
     (Component.mNormalized cmp) (Component.mVectorSize cmp) = Ok cmp) ->
  (e_mFields e0 <> [] -> e_mBits e0 = 0 /\ e_mComponent e0 = Component.Component_new) ->
  (forall y e', m !! y = Some (BElement e') -> packed_leaf e = false -> ~ same_key e e') ->
  elem_inv (<[x := BElement e]> m) (with_elements g (mElements g ++ [x])).
Proof.
  intros [Hnd Hc Hf Hcmp Hl Hb Hu] Hx Hlt Hcomp Hfs Hset Hb0 Hnew.
  destruct (compute_keeps _ _ _ Hcomp) as [Ecmp Ekey].
  assert (Hfs' : forall f, f ∈ e_mFields e -> exists y e', f_e f = Some y /\ m !! y = Some (BElement e')).
  { intros f Hin. assert ((f_name f, f_e f, f_arraySize f) ∈ fields_key (e_mFields e0)) as Hin'.
    { unfold fields_key. rewrite <- Ekey. apply list_elem_of_fmap. eauto. }
    apply list_elem_of_fmap in Hin' as (f0 & E0 & Hin0). destruct (Hfs _ Hin0) as (y & e' & ? & ?).
    exists y, e'. split; [congruence|done]. }
  assert (Hne : forall y b, m !! y = Some b -> y <> x) by congruence.
  assert (Hag : forall y e', m !! y = Some (BElement e') -> agree (look_in (<[x := BElement e]> m)) (look_in m) (e_mFields e')).
  { intros y e' Hy f z Hin Hz. destruct (Hf _ _ _ Hy Hin) as (z' & e2 & ? & _ & Hz2). simplify_eq.
    unfold look_in. by rewrite lookup_insert_ne by (symmetry; eauto). }
  assert (Hag2 : forall fs, (forall f, f ∈ fs -> exists y e', f_e f = Some y /\ m !! y = Some (BElement e')) ->
    agree2 (look_in (<[x := BElement e]> m)) (look_in m) fs).
  { intros fs Hall f y Hin Hy. destruct (Hall _ Hin) as (y' & e' & ? & Hm). simplify_eq.
    unfold look_in at 1 3. rewrite lookup_insert_ne by (symmetry; eauto). split; [done|].
    intros s Hs. rewrite Hm in Hs. simplify_eq. by eapply Hag. }
  split; cbn.
  - apply NoDup_app. split_and!; [done| |apply NoDup_singleton].
    intros y Hy ->%list_elem_of_singleton. apply Hc in Hy as [? ?]. congruence.
  - intros y. rewrite elem_of_app, list_elem_of_singleton, Hc, lookup_insert.
    destruct (decide (x = y)) as [->|]; split; [eauto|by right|intros [?|?]; [done|congruence]|by left].
  - intros y e' f Hy Hin. rewrite lookup_insert in Hy. destruct (decide (x = y)) as [->|].
    + simplify_eq. destruct (Hfs' _ Hin) as (z & e2 & Hz & Hmz). exists z, e2.
      rewrite lookup_insert_ne by (symmetry; eauto). eauto.
    + destruct (Hf _ _ _ Hy Hin) as (z & e2 & Hz & Hlz & Hmz). exists z, e2.
      rewrite lookup_insert_ne by (symmetry; eauto). eauto.
  - intros y e' Hy. rewrite lookup_insert in Hy. destruct (decide (x = y)) as [->|]; [|eauto].
    simplify_eq. by rewrite Ecmp.
  - intros y e' Hy. rewrite lookup_insert in Hy. destruct (decide (x = y)) as [->|].
    + simplify_eq. rewrite (compute_ext _ (look_in m)) by (by apply Hag2). by eapply compute_again.
    + rewrite (compute_ext _ (look_in m)); [by eapply Hl|]. apply Hag2. intros f Hin.
      destruct (Hf _ _ _ Hy Hin) as (z & e2 & ? & _ & ?). eauto.
  - intros y e' Hy. rewrite lookup_insert in Hy. destruct (decide (x = y)) as [->|]; [|eauto].
    simplify_eq. intros Hne0. rewrite (compute_bits _ _ _ Hcomp Hne0), Ecmp. apply Hb0.
    intros E0. rewrite E0 in Ekey. by destruct (e_mFields e').
  - intros y z e1 e2 Hy Hz Hk Hp. rewrite lookup_insert in Hy, Hz.
    destruct (decide (x = y)) as [<-|], (decide (x = z)) as [<-|]; simplify_eq; [done|..|by eapply Hu].
    + by destruct (Hnew z e2).
    + destruct (Hnew y e1); [done|by rewrite <- (same_key_packed _ _ Hk)|by apply same_key_sym].
Qed.

(** ** What [createRef] guarantees *)

Lemma find_element_spec c p l :
  (forall x, x ∈ l -> exists e, bodies c !! x = Some (BElement e)) ->
  exists o, find_element c p l = Ok o /\
    match o with
    | Some x => exists e, x ∈ l /\ bodies c !! x = Some (BElement e) /\ p e = true
    | None => forall x e, x ∈ l -> bodies c !! x = Some (BElement e) -> p e = false
    end.
Proof.
  induction l as [|x l IH]; intros Hl; cbn.
  - exists None. split; [done|]. intros x e Hx. by apply elem_of_nil in Hx.
  - destruct (Hl x) as [e He]; [by left|]. rewrite as_element_look, (proj2 (look_in_Ok _ _ _) He). cbn.
    destruct (p e) eqn:Ep.
    + exists (Some x). split; [done|]. exists e. split_and!; [by left|done|done].
    + destruct IH as (o & -> & Ho); [intros; apply Hl; by right|]. exists o. split; [done|].
      destruct o as [y|].
      * destruct Ho as (e' & ? & ?). exists e'. split; [by right|done].
      * intros y e' [->|Hy]%elem_of_cons ?; [congruence|eauto].
Qed.

Lemma leaf_match_spec e dt dk norm v :
  leaf_match e dt dk norm v = true <-> e_mFields e = [] /\ leaf_key (e_mComponent e) = (dt, dk, norm, v).
Proof.
  unfold leaf_match, leaf_key. rewrite !andb_true_iff, !bool_decide_eq_true, eqb_true_iff, !Z.eqb_eq.
  unfold zlen. destruct (e_mFields e); cbn; [naive_solver|]. split; [lia|by intros [? _]].
Qed.

Section create.
Context {J : gmap id obody -> state_caches -> Prop} `{!ElementFrame J}.

(** Finding an element takes one reference to it. *)
Lemma createRef_hit ext us n c x e :
  0 <= n -> W (EI J) ext us (n + 2) c -> bodies c !! x = Some (BElement e) ->
  exists c', (c ← incSysRef c x; c ← incSysRef c x; '(_, c) ← decSysRef c x; Ok (x, c)) = Ok (x, c') /\
    W (EI J) (x :: ext) us n c' /\ shape c' = shape c.
Proof.
  intros Hn HW Hx. replace (n + 2) with (n + 1 + 1) in HW by lia.
  destruct (W_incSys _ _ (n + 1) _ _ _ ltac:(lia) HW Hx) as (c1 & -> & HW1 & Es1 & _). cbn [mbind outcome_bind].
  pose proof (shape_bodies _ _ _ Es1) as [Eb1 _]. rewrite <- Eb1 in Hx.
  destruct (W_incSys _ _ n _ _ _ ltac:(lia) HW1 Hx) as (c2 & -> & HW2 & Es2 & _). cbn [mbind outcome_bind].
  destruct (W_decSys _ _ n _ _ ltac:(lia) HW2) as (c3 & -> & HW3 & Es3 & _); [right; by left|].
  exists c3. split; [done|]. split; [done|congruence].
Qed.

(** Building an element: from an allocated object to the pushed cache entry. *)
Lemma push_W ext ext' us n c x e0 e m g :
  W (is_shape (<[x := BElement Element_new]> m) g) ext us n c ->
  EI J m g -> m !! x = None -> (forall y b, m !! y = Some b -> (y < x)%positive) ->
  compute (look_in m) e0 = Ok e ->
  (forall f, f ∈ e_mFields e0 -> exists y e', f_e f = Some y /\ m !! y = Some (BElement e')) ->
  (let cmp := e_mComponent e0 in
   Component.set Component.Component_new (Component.mType cmp) (Component.mKind cmp)
     (Component.mNormalized cmp) (Component.mVectorSize cmp) = Ok cmp) ->
  (e_mFields e0 <> [] -> e_mBits e0 = 0 /\ e_mComponent e0 = Component.Component_new) ->
  (forall y e', m !! y = Some (BElement e') -> packed_leaf e = false -> ~ same_key e e') ->
  (forall y, occ y (element_refs e) + occ y ext' = occ y ext)%nat ->
  exists c', (c ← upd c x (fun o => set_body o (BElement e)); Ok (x, push_element c x)) = Ok (x, c') /\
    W (EI J) ext' us n c' /\ m ⊆ bodies c' /\ bodies c' !! x = Some (BElement e).
Proof.
  intros HW [He Hj] Hx Hlt Hc Hfs Hset Hb0 Hnew Hocc.
  destruct (W_setbody _ _ ext ext' us n c x _ (BElement e) HW (lookup_insert_eq _ _ _)) as (c1 & -> & HW1 & _).
  { intros y. cbn. rewrite occ_reverse. specialize (Hocc y). done. }
  cbn [mbind outcome_bind]. eexists. split; [done|]. rewrite insert_insert_eq in HW1.
  pose proof (w_shape _ _ _ _ _ HW1) as [Eb Ec].
  assert (W (EI J) ext' us n (push_element c1 x)).
  { unfold push_element. rewrite Ec. eapply W_of_shape; [by eapply W_caches|]. split.
    - by eapply elem_inv_push.
    - by apply frame_push. }
  split_and!; [done|..]; change (bodies (push_element c1 x)) with (bodies c1); rewrite Eb.
  - by apply insert_subseteq.
  - by rewrite lookup_insert_eq.
Qed.

Lemma W_elements ext us n c :
  W (EI J) ext us n c -> forall x, x ∈ mElements (caches c) -> exists e, bodies c !! x = Some (BElement e).
Proof. intros HW x Hx. by apply (ei_cached _ _ (proj1 (w_shape _ _ _ _ _ HW))). Qed.

Lemma as_element_ext c m :
  bodies c = m -> forall x, as_element c x = look_in m x.
Proof. intros <- x. apply as_element_look. Qed.

Lemma compute_leaf look look' e : e_mFields e = [] -> compute look e = compute look' e.
Proof. intros E. apply compute_ext. rewrite E. intros f x Hf. by apply elem_of_nil in Hf. Qed.

Lemma createRef_W ext us n c dt dk norm v cmp :
  0 <= n -> n + 2 < 2 ^ 31 -> Component.set Component.Component_new dt dk norm v = Ok cmp ->
  W (EI J) ext us (n + 2) c ->
  exists x c' e, createRef c dt dk norm v = Ok (x, c') /\ W (EI J) (x :: ext) us n c' /\
    bodies c ⊆ bodies c' /\ bodies c' !! x = Some (BElement e) /\ e_mFields e = [] /\ e_mComponent e = cmp.
Proof.
  intros Hn Hn2 Hset HW. unfold createRef.
  destruct (find_element_spec c (fun e => leaf_match e dt dk norm v) _ (W_elements _ _ _ _ HW)) as (o & -> & Ho).
  cbn [mbind outcome_bind]. destruct o as [x|].
  - destruct Ho as (e & _ & Hx & [Hf Hkey]%leaf_match_spec).
    destruct (createRef_hit _ _ _ _ _ _ Hn HW Hx) as (c' & -> & HW' & [Eb _]%shape_bodies).
    exists x, c', e. rewrite Eb. split_and!; try done.
    pose proof (ei_comp _ _ (proj1 (w_shape _ _ _ _ _ HW)) _ _ Hx) as Hc. cbn in Hc.
    unfold leaf_key in Hkey. injection Hkey as <- <- <- <-. congruence.
  - destruct (w_shape _ _ _ _ _ HW) as [He Hj]. apply W_shape in HW.
    destruct (W_new _ _ _ _ (n + 2) _ (BElement Element_new) ltac:(lia) HW eq_refl) as (c1 & -> & HW1 & Hfresh & Hlt).
    cbn [mbind outcome_bind]. apply (W_weaken _ _ _ (n + 1)) in HW1; [|lia].
    pose proof (w_shape _ _ _ _ _ HW1) as [Eb1 _].
    destruct (W_incSys _ _ n _ (nextId c) (BElement Element_new) Hn HW1) as (c2 & -> & HW2 & Es2 & _).
    { by rewrite Eb1, lookup_insert_eq. }
    cbn [mbind outcome_bind].
    rewrite Hset. cbn [mbind outcome_bind].
    set (e0 := mkElement cmp [] false 0 (Some 0) ElementHal_zero).
    rewrite (compute_leaf _ (look_in (bodies c)) e0) by done.
    destruct (compute (look_in (bodies c)) e0) as [e|] eqn:Ec; [|done]. cbn [mbind outcome_bind].
    destruct (compute_keeps _ _ _ Ec) as [Ecmp Ekey]. cbn in Ecmp, Ekey. destruct (e_mFields e) eqn:Ef; [|done].
    destruct (push_W _ (nextId c :: ext) us n c2 (nextId c) e0 e _ _ HW2) as (c' & -> & HW' & Hsub & Hx); try done.
    + intros f Hf. by apply elem_of_nil in Hf.
    + cbn. by eapply Component.set_idempotent.
    + intros y e' Hy Hp Hk. assert (leaf_match e' dt dk norm v = true) as Hm; [|].
      { apply leaf_match_spec. split; [by apply (same_key_fields _ _ Hk)|].
        unfold packed_leaf in Hp. rewrite Ef, Ecmp in Hp. destruct Hk as [_ Hk]. rewrite <- Hk, Ecmp by done.
        destruct (Component.set_key _ _ _ _ _ _ Hset) as (Et & Ekd & Hpk). rewrite Et in Hp.
        destruct (Hpk Hp). unfold leaf_key. congruence. }
      rewrite (Ho y e') in Hm; [done|by apply (ei_cached _ _ He); eauto|done].
    + intros y. unfold element_refs. by rewrite Ef.
    + exists (nextId c), c', e. done.
Qed.

(** [create]: the reference of the result becomes a user reference. *)
Lemma to_user_W ext us n c x b :
  0 <= n -> W (EI J) (x :: ext) us (n + 1) c -> bodies c !! x = Some b ->
  exists c', to_user (Ok (x, c)) = Ok (x, c') /\ W (EI J) ext (x :: us) n c' /\ shape c' = shape c.
Proof.
  intros Hn HW Hx. unfold to_user. cbn [mbind outcome_bind].
  destruct (W_incUser _ _ n _ _ _ Hn HW Hx) as (c1 & -> & HW1 & Es1 & _). cbn [mbind outcome_bind].
  destruct (W_decSys _ _ n _ _ Hn HW1) as (c2 & -> & HW2 & Es2 & _); [left; by left|].
  exists c2. split; [done|]. split; [done|congruence].
Qed.

Lemma create_W ext us n c dt dk norm v cmp :
  0 <= n -> n + 3 < 2 ^ 31 -> Component.set Component.Component_new dt dk norm v = Ok cmp ->
  W (EI J) ext us (n + 3) c ->
  exists x c' e, create c dt dk norm v = Ok (x, c') /\ W (EI J) ext (x :: us) n c' /\
    bodies c ⊆ bodies c' /\ bodies c' !! x = Some (BElement e) /\ e_mFields e = [] /\ e_mComponent e = cmp.
Proof.
  intros Hn Hn3 Hv HW. unfold create. replace (n + 3) with (n + 1 + 2) in HW by lia.
  destruct (createRef_W _ _ (n + 1) _ dt dk norm v cmp ltac:(lia) ltac:(lia) Hv HW) as (x & c1 & e & -> & HW1 & Hsub & Hx & Hf & Hc).
  destruct (to_user_W _ _ _ _ _ _ Hn HW1 Hx) as (c' & -> & HW' & [Eb _]%shape_bodies).
  exists x, c', e. rewrite Eb. done.
Qed.

End create.

(** *** Structs

    A request is the list of the fields: element, name buffer, array size.  The
    name lengths passed, if any, are those of the names, and the array sizes
    default to 1. *)
Abbreviation request := (list (id * list Z * Z)).
Definition req_key (r : id * list Z * Z) : cstr * option id * Z := (cstr_of r.1.2, Some r.1.1, r.2).

Record requested (reqs : request) (ein : list (option id)) (nin : list (list Z))
    (lengths asin : option (list Z)) : Prop := {
  rq_ein : ein = (fun r => Some r.1.1) <$> reqs;
  rq_nin : nin = (fun r => r.1.2) <$> reqs;
  rq_len : forall k r, reqs !! k = Some r -> name_len lengths r.1.2 (Z.of_nat k) = Ok (strlen (cstr_of r.1.2));
  rq_asz : forall k r, reqs !! k = Some r -> array_size asin (Z.of_nat k) = Ok r.2
}.

Lemma fields_key_cons f fs r reqs :
  fields_key (f :: fs) = req_key <$> (r :: reqs) <->
  (f_e f = Some r.1.1 /\ f_name f = cstr_of r.1.2 /\ f_arraySize f = r.2) /\ fields_key fs = req_key <$> reqs.
Proof.
  unfold fields_key, req_key. cbn. split; [intros E; by simplify_eq|]. by intros [(-> & -> & ->) ->].
Qed.

Lemma fields_match_spec reqs ein nin lengths asin : requested reqs ein nin lengths asin ->
  forall fs k, length fs = length (drop k reqs) ->
  fields_match fs (Z.of_nat k) ein nin lengths asin =
    Ok (bool_decide (fields_key fs = req_key <$> drop k reqs)).
Proof.
  intros [-> -> Hlen Hasz]. induction fs as [|f fs IH]; intros k Hl; cbn [fields_match].
  - symmetry in Hl. apply nil_length_inv in Hl as ->. done.
  - destruct (reqs !! k) as [r|] eqn:Hk; [|apply lookup_ge_None in Hk; rewrite drop_ge in Hl by lia; done].
    rewrite (drop_S _ _ _ Hk) in Hl |- *. cbn in Hl.
    erewrite znth_lookup by (by rewrite list_lookup_fmap, Hk). cbn.
    erewrite znth_lookup by (by rewrite list_lookup_fmap, Hk). cbn.
    rewrite (Hlen _ _ Hk). cbn. rewrite (Hasz _ _ Hk). cbn.
    replace (Z.of_nat k + 1) with (Z.of_nat (S k)) by lia. rewrite IH by lia.
    rewrite (bool_decide_ext _ _ (fields_key_cons f fs r (drop (S k) reqs))).
    destruct (bool_decide (f_e f = _)) eqn:E1; cbn.
    2: { rewrite bool_decide_eq_false in E1. rewrite bool_decide_false; [done|]. by intros [(? & _) _]. }
    destruct (Z.eqb_spec (strlen (f_name f)) (strlen (cstr_of r.1.2))); cbn.
    2: { rewrite bool_decide_false; [done|]. intros [(_ & E & _) _]. by rewrite E in *. }
    rewrite bool_decide_eq_true in E1.
    destruct (decide (f_name f = cstr_of r.1.2)) as [E2|E2].
    2: { rewrite (bool_decide_false (f_name f = _)) by done. cbn. rewrite bool_decide_false; [done|]. by intros [(_ & ? & _) _]. }
    rewrite (bool_decide_true (f_name f = _)) by done. cbn.
    destruct (Z.eqb_spec (f_arraySize f) r.2).
    + f_equal. apply bool_decide_ext. tauto.
    + rewrite bool_decide_false; [done|]. by intros [(_ & _ & ?) _].
Qed.

Lemma find_struct_spec c l reqs ein nin lengths asin :
  requested reqs ein nin lengths asin ->
  (forall x, x ∈ l -> exists e, bodies c !! x = Some (BElement e)) ->
  exists o, find_struct c l ein nin lengths asin = Ok o /\
    match o with
    | Some x => exists e, bodies c !! x = Some (BElement e) /\ fields_key (e_mFields e) = req_key <$> reqs
    | None => forall x e, x ∈ l -> bodies c !! x = Some (BElement e) -> fields_key (e_mFields e) <> req_key <$> reqs
    end.
Proof.
  intros Hrq. induction l as [|x l IH]; intros Hl; cbn.
  - exists None. split; [done|]. intros x e Hx. by apply elem_of_nil in Hx.
  - destruct IH as (o & IHE & IHo); [intros; apply Hl; by right|].
    assert (Hrest : forall e, bodies c !! x = Some (BElement e) -> fields_key (e_mFields e) <> req_key <$> reqs ->
      exists o0, Ok o = Ok o0 /\ match o0 with
        | Some x => exists e, bodies c !! x = Some (BElement e) /\ fields_key (e_mFields e) = req_key <$> reqs
        | None => forall y e, y ∈ x :: l -> bodies c !! y = Some (BElement e) -> fields_key (e_mFields e) <> req_key <$> reqs
        end).
    { intros e He Hne. exists o. split; [done|]. destruct o; [done|].
      intros y e' [->|Hy]%elem_of_cons Hb; [by simplify_eq|eauto]. }
    destruct (Hl x) as [e He]; [by left|]. rewrite as_element_look, (proj2 (look_in_Ok _ _ _) He). cbn.
    assert (length ein = length reqs) as Ein by (rewrite (rq_ein _ _ _ _ _ Hrq); apply length_fmap).
    unfold zlen. rewrite Ein.
    destruct (Z.eqb_spec (Z.of_nat (length (e_mFields e))) (Z.of_nat (length reqs))) as [El|El].
    + pose proof (fields_match_spec _ _ _ _ _ Hrq (e_mFields e) 0%nat) as Hm.
      change (Z.of_nat 0) with 0 in Hm. rewrite drop_0 in Hm.
      rewrite Hm by lia. cbn. case_bool_decide as Hk.
      * exists (Some x). split; [done|]. eauto.
      * rewrite IHE. by apply (Hrest e).
    + rewrite IHE. apply (Hrest e); [done|]. intros Ek%(f_equal length). unfold fields_key in Ek.
      rewrite !length_fmap in Ek. lia.
Qed.

(** Every element the fields point to, and every element those point to, can be
    read: the layout is defined. *)
Definition readable (look : id -> outcome Element) (fs : list ElementField_t) : Prop :=
  forall f, f ∈ fs -> exists y s, f_e f = Some y /\ look y = Ok s.

Lemma sum_bits_total look fs : readable look fs -> forall t, exists z, sum_bits look fs t = Ok z.
Proof.
  induction fs as [|f fs IH]; intros Hr t; cbn; [eauto|].
  destruct (Hr f) as (y & s & Hy & Hs); [by left|]. unfold field_elem. rewrite Hy. cbn. rewrite Hs. cbn.
  apply IH. intros g Hg. apply Hr. by right.
Qed.

Lemma sum_bits_unpadded_total look fs : readable look fs -> forall t, exists z, sum_bits_unpadded look fs t = Ok z.
Proof.
  induction fs as [|f fs IH]; intros Hr t; cbn; [eauto|].
  destruct (Hr f) as (y & s & Hy & Hs); [by left|]. unfold field_elem. rewrite Hy. cbn. rewrite Hs. cbn.
  apply IH. intros g Hg. apply Hr. by right.
Qed.

Lemma getSizeBits_total look e : readable look (e_mFields e) ->
  (exists z, getSizeBits look e = Ok z) /\ (exists z, getSizeBitsUnpadded look e = Ok z).
Proof.
  intros Hr. unfold getSizeBits, getSizeBitsUnpadded. destruct (e_mFields e); [eauto|].
  split; [by apply sum_bits_total|by apply sum_bits_unpadded_total].
Qed.

Lemma compute_total look e :
  (forall f, f ∈ e_mFields e -> exists y s, f_e f = Some y /\ look y = Ok s /\ readable look (e_mFields s)) ->
  exists e', compute look e = Ok e'.
Proof.
  intros Hr. unfold compute. destruct (e_mFields e) as [|f fs] eqn:Ef; [eauto|].
  assert (forall fs b u h,
    (forall f, f ∈ fs -> exists y s, f_e f = Some y /\ look y = Ok s /\ readable look (e_mFields s)) ->
    exists r, compute_fields look fs b u h = Ok r) as Hcf.
  { clear. induction fs as [|f fs IH]; intros b u h Hr; cbn; [eauto|].
    destruct (Hr f) as (y & s & Hy & Hs & Hrd); [by left|]. unfold field_elem. rewrite Hy. cbn. rewrite Hs. cbn.
    destruct (getSizeBits_total _ _ Hrd) as [[z ->] [zu ->]]. cbn.
    edestruct IH as [[r' h'] ->]; [intros g Hg; apply Hr; by right|]. cbn. eauto. }
  destruct (Hcf _ 0 (Some 0) (e_mHasReference e) Hr) as [[fs' h] Hc]. rewrite Hc. cbn [mbind outcome_bind].
  unfold getSizeBytes, getSizeBits. cbn [e_mFields].
  assert (readable look fs') as Hrd.
  { apply compute_fields_refs in Hc. intros g Hg.
    assert ((f_name g, f_e g, f_arraySize g) ∈ fields_key (f :: fs)) as Hin.
    { unfold fields_key. rewrite <- Hc. apply list_elem_of_fmap. eauto. }
    apply list_elem_of_fmap in Hin as (g0 & E0 & Hin0). destruct (Hr _ Hin0) as (y & s & ? & ? & _).
    exists y, s. split; [congruence|done]. }
  destruct fs' as [|f' fs'']; [cbn; eauto|].
  destruct (sum_bits_total _ _ Hrd 0) as [z ->]. cbn. eauto.
Qed.

Lemma ref_set_None (c : ctx) y : ref_set c None (Some y) = (c ← incSysRef c y; Ok (Some y, c)).
Proof. done. Qed.

Lemma make_fields_W m g us nin lengths asin reqs ein :
  requested reqs ein nin lengths asin ->
  (forall r, r ∈ reqs -> is_Some (m !! r.1.1)) ->
  forall suf k ext n c, drop k reqs = suf -> 0 <= n -> W (is_shape m g) ext us (n + zlen suf) c ->
  exists fs c', make_fields c (Z.of_nat k) ((fun r => Some r.1.1) <$> suf) nin lengths asin = Ok (fs, c') /\
    fields_key fs = req_key <$> suf /\
    W (is_shape m g) (reverse ((fun r => r.1.1) <$> suf) ++ ext) us n c'.
Proof.
  intros Hrq Hlive. induction suf as [|r suf IH]; intros k ext n c Hk Hn HW.
  { exists [], c. rewrite Z.add_0_r in HW. done. }
  assert (reqs !! k = Some r) as Hr by (rewrite <- (Nat.add_0_r k), <- lookup_drop, Hk; done).
  rewrite !fmap_cons. cbn [make_fields]. rewrite (rq_nin _ _ _ _ _ Hrq).
  erewrite znth_lookup by (by rewrite list_lookup_fmap, Hr). cbn [mbind outcome_bind].
  rewrite (rq_len _ _ _ _ _ Hrq _ _ Hr). cbn [mbind outcome_bind]. rewrite (rq_asz _ _ _ _ _ Hrq _ _ Hr). cbn [mbind outcome_bind].
  rewrite ref_set_None. destruct (Hlive r) as [b Hb]; [by eapply list_elem_of_lookup_2|].
  pose proof (w_shape _ _ _ _ _ HW) as [Eb _]. rewrite <- Eb in Hb.
  assert (0 <= zlen suf) by apply zlen_nonneg.
  replace (n + zlen (r :: suf)) with (n + zlen suf + 1) in HW by (unfold zlen; cbn; lia).
  destruct (W_incSys _ _ (n + zlen suf) _ _ _ ltac:(lia) HW Hb) as (c1 & -> & HW1 & _ & _). cbn [mbind outcome_bind].
  rewrite rsuCopyString_whole. cbn [mbind outcome_bind].
  replace (Z.of_nat k + 1) with (Z.of_nat (S k)) by lia.
  destruct (IH (S k) (r.1.1 :: ext) n c1) as (fs & c' & E & Hf & HW'); [|done|done|].
  { rewrite (drop_S _ _ _ Hr) in Hk. by injection Hk. }
  rewrite (rq_nin _ _ _ _ _ Hrq) in E. rewrite E. cbn [mbind outcome_bind].
  eexists _, c'. split; [done|]. split.
  - apply fields_key_cons. done.
  - rewrite reverse_cons, <- app_assoc. exact HW'.
Qed.

Lemma element_refs_key e reqs :
  fields_key (e_mFields e) = req_key <$> reqs -> element_refs e = (fun r => r.1.1) <$> reqs.
Proof.
  unfold element_refs. generalize (e_mFields e) as fs. intros fs. revert reqs.
  induction fs as [|f fs IH]; intros [|r reqs] E; try done.
  apply fields_key_cons in E as [(Ef & _) E]. cbn. rewrite Ef. cbn. f_equal. by apply IH.
Qed.

Section create_struct.
Context {J : gmap id obody -> state_caches -> Prop} `{!ElementFrame J}.

Lemma elem_inv_readable m g y e :
  elem_inv m g -> m !! y = Some (BElement e) -> readable (look_in m) (e_mFields e).
Proof.
  intros He Hy f Hf. destruct (ei_fields _ _ He _ _ _ Hy Hf) as (z & e' & ? & _ & Hz).
  exists z, e'. split; [done|]. by apply look_in_Ok.
Qed.

Lemma createRef2_W ext us n c reqs ein nin lengths asin :
  requested reqs ein nin lengths asin ->
  0 <= n -> n + 1 + zlen reqs < 2 ^ 31 ->
  (forall r, r ∈ reqs -> exists e, bodies c !! r.1.1 = Some (BElement e)) ->
  W (EI J) ext us (n + 1 + zlen reqs) c ->
  exists x c' e, createRef2 c ein nin lengths asin = Ok (x, c') /\ W (EI J) (x :: ext) us n c' /\
    bodies c ⊆ bodies c' /\ bodies c' !! x = Some (BElement e) /\
    fields_key (e_mFields e) = req_key <$> reqs.
Proof.
  intros Hrq Hn Hmax Hreq HW. unfold createRef2. pose proof (zlen_nonneg reqs) as Hz.
  destruct (find_struct_spec c _ _ _ _ _ _ Hrq (W_elements _ _ _ _ HW)) as (o & -> & Ho).
  cbn [mbind outcome_bind]. destruct o as [x|].
  { destruct Ho as (e & Hx & Hkey). apply (W_weaken _ _ _ (n + 1)) in HW; [|lia].
    destruct (W_incSys _ _ n _ _ _ Hn HW Hx) as (c' & -> & HW' & [Eb _]%shape_bodies & _).
    exists x, c', e. rewrite Eb. done. }
  destruct (w_shape _ _ _ _ _ HW) as [He Hj]. apply W_shape in HW.
  destruct (W_new _ _ _ _ (n + 1 + zlen reqs) _ (BElement Element_new) ltac:(lia) HW eq_refl) as (c1 & -> & HW1 & Hfresh & Hlt).
  cbn [mbind outcome_bind]. pose proof (w_shape _ _ _ _ _ HW1) as [Eb1 Ec1].
  replace (n + 1 + zlen reqs) with (n + zlen reqs + 1) in HW1 by lia.
  destruct (W_incSys _ _ (n + zlen reqs) _ (nextId c) (BElement Element_new) ltac:(lia) HW1) as (c2 & -> & HW2 & Es2 & _).
  { by rewrite Eb1, lookup_insert_eq. }
  cbn [mbind outcome_bind].
  assert (Hlive : forall r, r ∈ reqs -> is_Some (<[nextId c := BElement Element_new]> (bodies c) !! r.1.1)).
  { intros r Hr. destruct (Hreq r Hr) as [e Hre]. rewrite lookup_insert_ne, Hre by congruence. eauto. }
  destruct (make_fields_W _ _ us _ _ _ _ _ Hrq Hlive reqs 0%nat (nextId c :: ext) n c2 (drop_0 _) Hn HW2)
    as (fs & c3 & E3 & Hfs & HW3).
  rewrite (rq_ein _ _ _ _ _ Hrq). change (Z.of_nat 0) with 0 in E3. rewrite E3. cbn [mbind outcome_bind].
  set (e0 := mkElement Component.Component_new fs false 0 (Some 0) ElementHal_zero).
  pose proof (w_shape _ _ _ _ _ HW3) as [Eb3 _].
  assert (Hf0 : forall f, f ∈ fs -> exists y e', f_e f = Some y /\ bodies c !! y = Some (BElement e')).
  { intros f Hf. assert ((f_name f, f_e f, f_arraySize f) ∈ req_key <$> reqs) as Hin
      by (rewrite <- Hfs; apply list_elem_of_fmap; eauto).
    apply list_elem_of_fmap in Hin as (r & E & Hr). unfold req_key in E. simplify_eq.
    destruct (Hreq r Hr) as [e' He']. eauto. }
  destruct (compute_total (look_in (bodies c)) e0) as [e Hcomp].
  { intros f Hf. destruct (Hf0 f Hf) as (y & e' & Hy & Hm). exists y, e'. split_and!; [done|by apply look_in_Ok|].
    by eapply elem_inv_readable. }
  assert (compute (as_element c3) e0 = Ok e) as ->.
  { rewrite <- Hcomp. apply compute_ext. intros f y Hf Hy. destruct (Hf0 f Hf) as (y' & e' & ? & Hm). simplify_eq.
    rewrite as_element_look, Eb3, look_in_insert_ne, (proj2 (look_in_Ok _ _ _) Hm) by congruence. split; [done|].
    intros s [= <-] g z Hg Hz0. destruct (ei_fields _ _ He _ _ _ Hm Hg) as (z' & e2 & ? & _ & Hz').
    simplify_eq. by rewrite as_element_look, Eb3, look_in_insert_ne by congruence. }
  cbn [mbind outcome_bind]. destruct (compute_keeps _ _ _ Hcomp) as [Ecmp Ekey].
  assert (Hkey : fields_key (e_mFields e) = req_key <$> reqs) by (rewrite <- Hfs; exact Ekey).
  destruct (push_W _ (nextId c :: ext) us n c3 (nextId c) e0 e _ _ HW3) as (c' & -> & HW' & Hsub & Hx); try done.
  - intros y e' Hy _ [Hk _]. apply (Ho y e'); [by apply (ei_cached _ _ He); eauto|done|congruence].
  - intros y. rewrite (element_refs_key _ _ Hkey), occ_app, occ_reverse. done.
  - exists (nextId c), c', e. done.
Qed.

Lemma create2_W ext us n c reqs ein nin lengths asin :
  requested reqs ein nin lengths asin ->
  0 <= n -> n + 2 + zlen reqs < 2 ^ 31 ->
  (forall r, r ∈ reqs -> exists e, bodies c !! r.1.1 = Some (BElement e)) ->
  W (EI J) ext us (n + 2 + zlen reqs) c ->
  exists x c' e, create2 c ein nin lengths asin = Ok (x, c') /\ W (EI J) ext (x :: us) n c' /\
    bodies c ⊆ bodies c' /\ bodies c' !! x = Some (BElement e) /\
    fields_key (e_mFields e) = req_key <$> reqs.
Proof.
  intros Hrq Hn Hmax Hreq HW. unfold create2. replace (n + 2 + zlen reqs) with (n + 1 + 1 + zlen reqs) in * by lia.
  destruct (createRef2_W ext us (n + 1) c _ _ _ _ _ Hrq ltac:(lia) ltac:(lia) Hreq HW) as (x & c1 & e & -> & HW1 & Hsub & Hx & Hk).
  destruct (to_user_W _ _ _ _ _ _ Hn HW1 Hx) as (c' & -> & HW' & [Eb _]%shape_bodies).
  exists x, c', e. rewrite Eb. done.
Qed.

End create_struct.

(** ** Layout of a struct *)

Definition sumZ (l : list Z) : Z := foldr Z.add 0 l.

(** [b] bits are taken by a field: the size of its element times its array size. *)
Definition field_bits (look : id -> outcome Element) (f : ElementField_t) (b : Z) : Prop :=
  exists y s sz, f_e f = Some y /\ look y = Ok s /\ getSizeBits look s = Ok sz /\ b = sz * f_arraySize f.

Lemma sumZ_take k l : Forall (fun z => 0 <= z) l -> 0 <= sumZ (take k l) <= sumZ l.
Proof.
  unfold sumZ. intros Hl. revert k. induction Hl as [|z l Hz Hl IH]; intros [|k]; cbn; [lia..| |].
  - specialize (IH 0%nat). cbn in IH. lia.
  - specialize (IH k). lia.
Qed.

Lemma compute_fields_offsets look fs : forall bs b u h fs' h',
  compute_fields look fs b u h = Ok (fs', h') -> Forall2 (field_bits look) fs bs ->
  Forall (fun z => 0 <= z) bs -> 0 <= b -> b + sumZ bs < 2 ^ 32 ->
  forall k f, fs' !! k = Some f -> f_offsetBits f = b + sumZ (take k bs).
Proof.
  induction fs as [|f0 fs IH]; intros bs b u h fs' h' E HF Hpos Hb Hmax k f Hk; cbn in E; [by simplify_eq|].
  inversion HF as [|? z ? bs' (y & s & sz & Hy & Hs & Hsz & ->) HF']; subst. inversion Hpos; subst.
  unfold field_elem in E. rewrite Hy in E. cbn in E. rewrite Hs in E. cbn in E. rewrite Hsz in E. cbn in E.
  apply bind_Ok in E as (szu & _ & E). apply bind_Ok in E as ([r' h1] & Hr & E). injection E as <- <-.
  pose proof (sumZ_take 0 bs' ltac:(done)) as Hs0. cbn in Hs0, Hmax. fold (sumZ bs') in Hmax.
  rewrite (u64_small (sz * _)), u64_small in Hr by lia.
  destruct k as [|k]; cbn in Hk |- *.
  - simplify_eq. cbn. rewrite u32_small by lia. lia.
  - rewrite (IH bs' _ _ _ _ _ Hr HF' ltac:(done) ltac:(lia) ltac:(lia) _ _ Hk). fold (sumZ (take k bs')). lia.
Qed.

(** When the fields are leaves the sum of [getSizeBits] is the sum of the fields. *)
Lemma sum_bits_leaves look fs : forall bs t,
  Forall2 (field_bits look) fs bs ->
  (forall f y s, f ∈ fs -> f_e f = Some y -> look y = Ok s -> e_mFields s = []) ->
  Forall (fun z => 0 <= z) bs -> 0 <= t -> t + sumZ bs < 2 ^ 32 -> sum_bits look fs t = Ok (t + sumZ bs).
Proof.
  induction fs as [|f fs IH]; intros bs t HF Hleaf Hpos Ht Hmax; inversion HF as [|? z ? bs' Hfb HF']; subst; cbn.
  - f_equal. lia.
  - destruct Hfb as (y & s & sz & Hy & Hs & Hsz & ->). inversion Hpos; subst.
    unfold field_elem. rewrite Hy. cbn. rewrite Hs. cbn.
    assert (e_mBits s = sz) as ->.
    { unfold getSizeBits in Hsz. rewrite (Hleaf f y s) in Hsz; [by simplify_eq|by left|done..]. }
    pose proof (sumZ_take 0 bs' ltac:(done)) as Hs0. cbn in Hs0, Hmax. fold (sumZ bs') in Hmax |- *.
    rewrite (u32_small (sz * _)), u64_small by lia. rewrite (IH bs'); try done; [f_equal; lia| |lia|lia].
    intros g w sw Hg. apply Hleaf. by right.
Qed.

(** Structs count for nothing in the sum. *)
Lemma sum_bits_structs look fs t :
  0 <= t < 2 ^ 64 ->
  (forall f, f ∈ fs -> exists y s, f_e f = Some y /\ look y = Ok s /\ e_mBits s = 0) -> sum_bits look fs t = Ok t.
Proof.
  intros Ht. induction fs as [|f fs IH]; intros Hz; cbn; [done|].
  destruct (Hz f) as (y & s & Hy & Hs & Hb); [by left|].
  unfold field_elem. rewrite Hy. cbn. rewrite Hs. cbn. rewrite Hb, Z.mul_0_l.
  rewrite u64_small by (rewrite u32_small; lia). rewrite u32_small, Z.add_0_r by lia.
  apply IH. intros g Hg. apply Hz. by right.
Qed.

(** ** The contract of elements *)

Lemma W_init J n : 0 <= n -> J ∅ (mkCaches [] []) -> W (EI J) [] [] n no_objects.
Proof.
  intros Hn HJ. split; [apply obj_inv_init|split; [|done]|..].
  - unfold bodies. cbn. rewrite fmap_empty. split; try (intros *; by rewrite lookup_empty).
    + constructor.
    + intros x. rewrite elem_of_nil, lookup_empty. naive_solver.
  - intros x. rewrite occ_nil. lia.
  - intros x o. cbn. by rewrite lookup_empty.
Qed.

(** [createRef] for a leaf succeeds whatever the context holds, returns an
    element whose component is the requested one, keeps every other object,
    and leaves the table, the cache and the layouts consistent. *)
Theorem createRef_spec (J : gmap id obody -> state_caches -> Prop) `{!ElementFrame J} ext us n c dt dk norm v :
  0 <= n -> n + 2 < 2 ^ 31 -> 0 <= v <= 2 ^ 31 -> W (EI J) ext us (n + 2) c ->
  exists x c' e, createRef c dt dk norm v = Ok (x, c') /\ W (EI J) (x :: ext) us n c' /\
    bodies c ⊆ bodies c' /\ bodies c' !! x = Some (BElement e) /\ e_mFields e = [] /\
    Component.set Component.Component_new dt dk norm v = Ok (e_mComponent e).
Proof.
  intros Hn Hn2 Hv HW. destruct (Component.set_total Component.Component_new dt dk norm v Hv) as [cmp Hset].
  destruct (createRef_W _ _ _ _ _ _ _ _ _ Hn Hn2 Hset HW) as (x & c' & e & ? & ? & ? & ? & ? & <-). eauto 10.
Qed.

Lemma createRef_spec_witness :
  exists x c' e,
    createRef no_objects Component.RS_TYPE_FLOAT_32 Component.RS_KIND_USER false 3 = Ok (x, c') /\
    W (EI (fun _ _ => True)) [x] [] 98 c' /\ bodies no_objects ⊆ bodies c' /\
    bodies c' !! x = Some (BElement e) /\ e_mFields e = [] /\
    Component.set Component.Component_new Component.RS_TYPE_FLOAT_32 Component.RS_KIND_USER false 3 = Ok (e_mComponent e).
Proof. apply (createRef_spec (fun _ _ => True) [] [] 98 no_objects); [lia|lia|lia|by apply W_init]. Defined.



(** *** Examples: a vector, a struct of two vectors, a struct of two structs *)

Definition ctx_of (r : outcome (id * ctx)) : ctx := match r with Ok (_, c) => c | Fault _ => no_objects end.

Definition ex_leaf : ctx := ctx_of (createRef no_objects Component.RS_TYPE_FLOAT_32 Component.RS_KIND_USER false 3).
Definition ex_struct : ctx :=
  ctx_of (createRef2 ex_leaf [Some 1%positive; Some 1%positive] [[97]; [98]] None (Some [2; 1])).
Definition ex_nested : ctx :=
  ctx_of (createRef2 ex_struct [Some 2%positive; Some 2%positive] [[99]; [100]] None None).

Abbreviation plain := (EI (fun _ _ => True)).

Lemma ex_leaf_W : W plain [1%positive] [] 900 ex_leaf.
Proof.
  edestruct (createRef_W (J := fun _ _ => True) [] [] 900 no_objects Component.RS_TYPE_FLOAT_32 Component.RS_KIND_USER false 3)
    as (x & c' & e & E & HW & _); [lia..|reflexivity|by apply W_init|].
  unfold ex_leaf. rewrite E. cbn. assert (x = 1%positive) as -> by (vm_compute in E; congruence). done.
Qed.

Definition req_struct : request := [(1%positive, [97], 2); (1%positive, [98], 1)].
Definition req_nested : request := [(2%positive, [99], 1); (2%positive, [100], 1)].

Lemma req_struct_ok : requested req_struct [Some 1%positive; Some 1%positive] [[97]; [98]] None (Some [2; 1]).
Proof. split; try done; intros [|[|k]] r Hr; by simplify_eq/=. Qed.
Lemma req_nested_ok : requested req_nested [Some 2%positive; Some 2%positive] [[99]; [100]] None None.
Proof. split; try done; intros [|[|k]] r Hr; by simplify_eq/=. Qed.

Lemma ex_struct_W : W plain [2%positive; 1%positive] [] 800 ex_struct.
Proof.
  pose proof ex_leaf_W as HW0. apply (W_weaken _ _ _ (800 + 1 + zlen req_struct)) in HW0; [|vm_compute; congruence].
  assert (Hr : forall r, r ∈ req_struct -> exists e, bodies ex_leaf !! r.1.1 = Some (BElement e)).
  { intros r Hr. assert (r.1.1 = 1%positive) as -> by (set_unfold; naive_solver). eexists. vm_compute. reflexivity. }
  destruct (createRef2_W (J := fun _ _ => True) _ _ 800 _ _ _ _ _ _ req_struct_ok ltac:(lia) ltac:(vm_compute; done) Hr HW0)
    as (x & c' & e & E & HW & _).
  unfold ex_struct. rewrite E. cbn. assert (x = 2%positive) as -> by (vm_compute in E; congruence). done.
Qed.

Lemma ex_nested_W : W plain [3%positive; 2%positive; 1%positive] [] 700 ex_nested.
Proof.
  pose proof ex_struct_W as HW0. apply (W_weaken _ _ _ (700 + 1 + zlen req_nested)) in HW0; [|vm_compute; congruence].
  assert (Hr : forall r, r ∈ req_nested -> exists e, bodies ex_struct !! r.1.1 = Some (BElement e)).
  { intros r Hr. assert (r.1.1 = 2%positive) as -> by (set_unfold; naive_solver). eexists. vm_compute. reflexivity. }
  destruct (createRef2_W (J := fun _ _ => True) _ _ 700 _ _ _ _ _ _ req_nested_ok ltac:(lia) ltac:(vm_compute; done) Hr HW0)
    as (x & c' & e & E & HW & _).
  unfold ex_nested. rewrite E. cbn. assert (x = 3%positive) as -> by (vm_compute in E; congruence). done.
Qed.

(** in a consistent context the offset of every field of a struct is the number
    of bits its predecessors take; when the fields are leaves the size of the
    struct is the sum, so that every field lies inside the struct and no two
    overlap. *)
Theorem struct_layout (J : gmap id obody -> state_caches -> Prop) `{!ElementFrame J} ext us n c x e bs :
  W (EI J) ext us n c -> bodies c !! x = Some (BElement e) -> e_mFields e <> [] ->
  Forall2 (field_bits (as_element c)) (e_mFields e) bs -> Forall (fun z => 0 <= z) bs -> sumZ bs < 2 ^ 32 ->
  (forall k f, e_mFields e !! k = Some f -> f_offsetBits f = sumZ (take k bs)) /\
  ((forall f y s, f ∈ e_mFields e -> f_e f = Some y -> as_element c y = Ok s -> e_mFields s = []) ->
   getSizeBits (as_element c) e = Ok (sumZ bs)).
Proof.
  intros HW Hx Hne HF Hpos Hmax. destruct (w_shape _ _ _ _ _ HW) as [He _].
  pose proof (ei_layout _ _ He _ _ Hx) as Hl. destruct (e_mFields e) as [|f0 fs] eqn:Ef; [done|]. split.
  - unfold compute in Hl. rewrite Ef in Hl. apply bind_Ok in Hl as ([fs' h] & Hc & Hl).
    apply bind_Ok in Hl as (bytes & _ & Hl). injection Hl as Hl. rewrite <- Hl in Ef. cbn in Ef. subst fs'.
    intros k f Hk. rewrite <- (Z.add_0_l (sumZ _)).
    eapply (compute_fields_offsets _ _ bs 0); [exact Hc| |done|lia|lia|done].
    eapply Forall2_impl; [exact HF|]. intros f1 b (y & s & sz & ? & Hs & Hsz & ?).
    exists y, s, sz. rewrite as_element_look in Hs. split_and!; [done|done| |done].
    rewrite <- Hsz. apply getSizeBits_ext. intros ? ? ? ?. by rewrite as_element_look.
  - intros Hleaf. unfold getSizeBits. rewrite Ef. rewrite (sum_bits_leaves _ _ bs); [f_equal; lia|done..|lia|lia].
Qed.

Lemma struct_layout_witness :
  exists e, bodies ex_struct !! 2%positive = Some (BElement e) /\
  (forall k f, e_mFields e !! k = Some f -> f_offsetBits f = sumZ (take k [256; 128])) /\
  ((forall f y s, f ∈ e_mFields e -> f_e f = Some y -> as_element ex_struct y = Ok s -> e_mFields s = []) ->
   getSizeBits (as_element ex_struct) e = Ok (sumZ [256; 128])).
Proof.
  eexists. split; [vm_compute; reflexivity|].
  apply (struct_layout (fun _ _ => True) [2%positive; 1%positive] [] 800 ex_struct 2%positive).
  - apply ex_struct_W.
  - vm_compute. reflexivity.
  - discriminate.
  - repeat constructor; (eexists 1%positive, _, 128; split_and!; [reflexivity|vm_compute; reflexivity|reflexivity|reflexivity]).
  - repeat constructor; lia.
  - reflexivity.
Defined.

(** the size of a struct ignores the fields that are themselves structs: a
    struct made of structs only is recorded with a size of zero bytes. *)
Theorem nested_struct_size (J : gmap id obody -> state_caches -> Prop) `{!ElementFrame J} ext us n c x e :
  W (EI J) ext us n c -> bodies c !! x = Some (BElement e) -> e_mFields e <> [] ->
  (forall f y s, f ∈ e_mFields e -> f_e f = Some y -> as_element c y = Ok s -> e_mFields s <> []) ->
  getSizeBits (as_element c) e = Ok 0 /\ h_elementSizeBytes (e_mHal e) = 0.
Proof.
  intros HW Hx Hne Hall. destruct (w_shape _ _ _ _ _ HW) as [He _].
  assert (Hz : forall look, (forall y, look y = look_in (bodies c) y) -> getSizeBits look e = Ok 0).
  { intros look Hlook. unfold getSizeBits. destruct (e_mFields e) as [|f0 fs] eqn:Ef; [done|]. rewrite <- Ef in *.
    apply sum_bits_structs; [lia|]. intros f Hf. destruct (ei_fields _ _ He _ _ _ Hx Hf) as (y & s & Hy & _ & Hs).
    exists y, s. split_and!; [done|by rewrite Hlook; apply look_in_Ok|]. eapply (ei_struct _ _ He); [done|].
    eapply Hall; [done..|]. rewrite as_element_look. by apply look_in_Ok. }
  split; [apply Hz, as_element_look|].
  pose proof (ei_layout _ _ He _ _ Hx) as Hl. unfold compute in Hl. destruct (e_mFields e) as [|f0 fs] eqn:Ef; [done|].
  apply bind_Ok in Hl as ([fs' h] & Hc & Hl). apply bind_Ok in Hl as (bytes & Hb & Hl). injection Hl as Hl.
  pose proof (f_equal e_mFields Hl) as Efs. cbn in Efs. rewrite Efs in Hb.
  unfold getSizeBytes in Hb. unfold getSizeBits in Hb, Hz. rewrite Ef in Hb, Hz. cbn [e_mFields] in Hb.
  rewrite Hz in Hb by done. injection Hb as <-. by rewrite <- Hl.
Qed.

Lemma nested_struct_size_witness :
  exists e, bodies ex_nested !! 3%positive = Some (BElement e) /\
  getSizeBits (as_element ex_nested) e = Ok 0 /\ h_elementSizeBytes (e_mHal e) = 0.
Proof.
  eexists. split; [vm_compute; reflexivity|].
  apply (nested_struct_size (fun _ _ => True) [3%positive; 2%positive; 1%positive] [] 700 ex_nested 3%positive).
  - apply ex_nested_W.
  - vm_compute. reflexivity.
  - discriminate.
  - intros f y s Hf Hy Hs. assert (y = 2%positive) as ->.
    { apply elem_of_cons in Hf as [->|[->|[]%elem_of_nil]%elem_of_cons]; cbn in Hy; by injection Hy as <-. }
    vm_compute in Hs. injection Hs as <-. discriminate.
Defined.

(** [serialize] hands [getName()] to [strlen]; an element nobody named, which is
    what [create] returns, makes it dereference a null pointer. *)
Theorem serialize_unnamed_faults C c x e o s :
  16 <= C -> objs c !! x = Some o -> body o = BElement e -> mName o = None ->
  ostream_wf C s -> o_mPos s + 11 <= 2 ^ 32 -> serialize c x s = Fault NullDeref.
Proof.
  intros HC Ho Hb Hnm Hwf Hroom. unfold serialize. destruct (Pos2Nat.is_succ x) as [n ->]. cbn [serialize_fuel].
  unfold as_element, deref. rewrite Ho. cbn [of_option mbind outcome_bind]. rewrite Hb. cbn [mbind outcome_bind].
  destruct (codec_U32 C RS_A3D_CLASS_ID_ELEMENT HC ltac:(done) s Hwf Hroom) as (s' & -> & _). cbn [mbind outcome_bind].
  by rewrite Hnm.
Qed.

Lemma serialize_unnamed_faults_witness : serialize ex_struct 2%positive (OStream_new 64 false) = Fault NullDeref.
Proof.
  eapply (serialize_unnamed_faults 64 ex_struct 2%positive);
    [lia|vm_compute; reflexivity|reflexivity|reflexivity|apply OStream_new_wf; lia|vm_compute; congruence].
Defined.

End Element.
