(* ===== verification/ElementStream.v ===== *)
(** * ElementStream: what an element denotes, and reading it back

    An element denotes a tree: leaves are components, nodes are lists of named,
    sized fields.  The cache makes equal trees the same object, and
    [createFromStream] rebuilds the tree that [serialize] wrote.  The proof goes
    through a parser that only reads: writing and parsing are inverse, and
    [createFromStream] builds what the parser returns. *)

From S2P Require Import Prelude CppUtils Stream Component ObjectBase Objects Element.
Import Stream ObjectBase Objects Element.

#[local] Set Warnings "-register-all".

Module ElementStream.

Inductive etree :=
| TLeaf (dt : Component.RsDataType) (dk : Component.RsDataKind) (norm : bool) (vec : Z)
| TStruct (fs : list (cstr * Z * etree)).

Lemma etree_ind' (P : etree -> Prop) :
  (forall dt dk norm vec, P (TLeaf dt dk norm vec)) ->
  (forall fs, Forall (fun f => P f.2) fs -> P (TStruct fs)) -> forall t, P t.
Proof.
  intros Hl Hs. fix IH 1. intros [dt dk norm vec|fs]; [apply Hl|apply Hs].
  induction fs as [|[p t] fs IHfs]; constructor; [apply IH|apply IHfs].
Qed.

(** The trees of the fields, given what the elements they point to denote. *)
Definition field_denotes (den : id -> etree -> Prop) (f : ElementField_t) (p : cstr * Z * etree) : Prop :=
  f_name f = p.1.1 /\ f_arraySize f = p.1.2 /\ exists y, f_e f = Some y /\ den y p.2.

Fixpoint denotes (m : gmap id obody) (x : id) (t : etree) {struct t} : Prop :=
  exists e, m !! x = Some (BElement e) /\
    match t with
    | TLeaf dt dk norm vec => e_mFields e = [] /\ leaf_key (e_mComponent e) = (dt, dk, norm, vec)
    | TStruct ts =>
        ts <> [] /\
        (fix go (ts : list (cstr * Z * etree)) (fs : list ElementField_t) : Prop :=
           match ts, fs with
           | [], [] => True
           | p :: ts, f :: fs =>
               (f_name f = p.1.1 /\ f_arraySize f = p.1.2 /\ exists y, f_e f = Some y /\ denotes m y p.2) /\ go ts fs
           | _, _ => False
           end) ts (e_mFields e)
    end.

Lemma denotes_struct m x ts :
  denotes m x (TStruct ts) <->
  exists e, m !! x = Some (BElement e) /\ ts <> [] /\ Forall2 (field_denotes (denotes m)) (e_mFields e) ts.
Proof.
  cbn [denotes]. split; intros (e & Hx & Hne & Hgo); exists e; (split; [done|split; [done|]]); clear Hx Hne.
  - revert Hgo. generalize (e_mFields e) as fs. induction ts as [|p ts IH]; intros [|f fs] Hgo; try done.
    destruct Hgo as [? ?]. constructor; [done|by apply IH].
  - revert Hgo. induction 1; done.
Qed.

(** Objects that are added do not change what an element denotes. *)
Lemma denotes_mono m m' t : m ⊆ m' -> forall x, denotes m x t -> denotes m' x t.
Proof.
  intros Hsub. induction t as [dt dk norm vec|ts IH] using etree_ind'; intros x.
  - intros (e & Hx & ?). exists e. split; [by eapply lookup_weaken|done].
  - rewrite !denotes_struct. intros (e & Hx & Hne & HF). exists e. split_and!; [by eapply lookup_weaken|done|].
    clear Hx Hne. induction HF as [|f p fs ts (? & ? & y & ? & ?) HF IHF]; [constructor|].
    inversion IH; subst. constructor; [|by apply IHF]. split_and!; [done..|]. exists y. eauto.
Qed.

(** Nor does deleting others, as long as no reference dangles. *)
Lemma denotes_shrink m m' t :
  m' ⊆ m -> closed m' -> forall x, is_Some (m' !! x) -> denotes m x t -> denotes m' x t.
Proof.
  intros Hsub Hcl. induction t as [dt dk norm vec|ts IH] using etree_ind'; intros x [b Hb].
  - intros (e & Hx & ?). exists e. split; [|done]. rewrite <- Hx. rewrite Hb. symmetry. by eapply lookup_weaken.
  - rewrite !denotes_struct. intros (e & Hx & Hne & HF). pose proof (lookup_weaken _ _ _ _ Hb Hsub) as Hb'. simplify_eq.
    exists e. split_and!; [done|done|].
    assert (Hlive : forall f y, f ∈ e_mFields e -> f_e f = Some y -> is_Some (m' !! y)).
    { intros f y Hf Hy. eapply Hcl; [exact Hb|]. cbn. rewrite elem_of_reverse. unfold element_refs.
      apply list_elem_of_bind. exists f. split; [|done]. rewrite Hy. by left. }
    clear Hb Hx Hne. induction HF as [|f p fs ts (? & ? & y & ? & ?) HF IHF]; [constructor|].
    inversion IH; subst. constructor.
    + split_and!; [done..|]. exists y. split; [done|].
      match goal with Hp : forall x, is_Some _ -> denotes m x p.2 -> _ |- _ => apply Hp end; [|done].
      apply (Hlive f); [by left|done].
    + apply IHF; [done|]. intros g z Hg. apply Hlive. by right.
Qed.

(** ** Sharing *)

Fixpoint no_packed (t : etree) : bool :=
  match t with
  | TLeaf dt _ _ _ => negb (Component.packed_type dt)
  | TStruct ts => forallb (fun p => no_packed p.2) ts
  end.

Lemma denotes_inj m g t :
  elem_inv m g -> no_packed t = true -> forall x y, denotes m x t -> denotes m y t -> x = y.
Proof.
  intros He. induction t as [dt dk norm vec|ts IH] using etree_ind'; intros Hp x y.
  - intros (e & Hx & Hf & Hk) (e' & Hy & Hf' & Hk'). eapply (ei_unique _ _ He _ _ e e'); [done..| |].
    + split; [by rewrite Hf, Hf'|congruence].
    + unfold packed_leaf. rewrite Hf. unfold leaf_key in Hk. simplify_eq. cbn in Hp. by apply negb_true_iff in Hp.
  - rewrite !denotes_struct. intros (e & Hx & Hne & HF) (e' & Hy & _ & HF').
    eapply (ei_unique _ _ He _ _ e e'); [done..| |].
    + split; [|intros E; rewrite E in HF; by inversion HF; subst]. cbn in Hp. clear Hx Hy Hne.
      revert HF'. generalize (e_mFields e') as fs'. induction HF as [|f p fs ts (En & Ea & z & Hz & Hd) HF IHF]; intros fs' HF';
        inversion HF' as [|f' ? fs2 ? (En' & Ea' & z' & Hz' & Hd') HF2]; subst; [done|].
      inversion IH as [|? ? IHp IHts]; subst. cbn in Hp. apply andb_true_iff in Hp as [Hp1 Hp2].
      unfold fields_key in *. cbn. f_equal; [|by apply IHF]. rewrite Hz, Hz', (IHp Hp1 z z' Hd Hd'). congruence.
    + unfold packed_leaf. destruct (e_mFields e); [inversion HF; subst; done|done].
Qed.

(** ** The parser

    A field count is a [uint32_t]; the parser refuses data that are not bytes. *)

Fixpoint parse_list (parse : IStream -> outcome (etree * IStream)) (n : nat) (i : IStream)
    : outcome (list (cstr * Z * etree) * IStream) :=
  match n with
  | O => Ok ([], i)
  | S n =>
      '(nm, i) ← loadString i;
      '(asz, i) ← loadU32 i;
      '(t, i) ← parse i;
      '(ts, i) ← parse_list parse n i;
      Ok ((nm, asz, t) :: ts, i)
  end.

Fixpoint parse_fuel (fuel : nat) (i : IStream) : outcome (etree * IStream) :=
  match fuel with
  | O => Fault OutOfFuel
  | S n =>
      '(classID, i) ← loadU32 i;
      if negb (classID =? RS_A3D_CLASS_ID_ELEMENT) then Fault BadCast
      else
        '(name, i) ← loadString i;
        '(cmp, i) ← Component.loadFromStream Component.Component_new i;
        '(fieldCount, i) ← loadU32 i;
        if fieldCount =? 0 then
          Ok (TLeaf (Component.mType cmp) (Component.mKind cmp) (Component.mNormalized cmp) (Component.mVectorSize cmp), i)
        else if fieldCount <? 0 then Fault BadCast
        else
          '(ts, i) ← parse_list (parse_fuel n) (Z.to_nat fieldCount) i;
          Ok (TStruct ts, i)
  end.

(** Every count can be raised this often while the tree is built. *)
Fixpoint cost (t : etree) : Z :=
  match t with
  | TLeaf _ _ _ _ => 3
  | TStruct ts => foldr (fun p n => 1 + cost p.2 + n) 2 ts
  end.

Definition cost_fields (ts : list (cstr * Z * etree)) : Z := foldr (fun p n => cost p.2 + n) 0 ts.

Lemma cost_struct ts : cost (TStruct ts) = 2 + zlen ts + cost_fields ts.
Proof. cbn. unfold cost_fields, zlen. induction ts as [|p ts IH]; cbn [foldr length]; [done|]. lia. Qed.

Lemma cost_pos t : 0 <= cost t.
Proof.
  induction t as [|ts IH] using etree_ind'; [done|].
  assert (0 <= cost_fields ts).
  { unfold cost_fields. induction IH as [|p ts Hp _ IHts]; cbn; [lia|]. cbn in Hp. lia. }
  rewrite cost_struct. pose proof (zlen_nonneg ts). lia.
Qed.

Lemma cost_fields_pos ts : 0 <= cost_fields ts.
Proof. unfold cost_fields. induction ts as [|p ts IH]; cbn; [lia|]. pose proof (cost_pos p.2). lia. Qed.

(** ** [createFromStream] builds what the parser returns *)

Section build.
Context {J : gmap id obody -> state_caches -> Prop} `{!ElementFrame J}.

(** What a user reference points to keeps its meaning. *)
Definition keeps (us : list id) (c c' : ctx) : Prop :=
  forall y s, y ∈ us -> denotes (bodies c) y s -> denotes (bodies c') y s.

Lemma keeps_trans us us' c1 c2 c3 :
  (forall y, y ∈ us -> y ∈ us') -> keeps us c1 c2 -> keeps us' c2 c3 -> keeps us c1 c3.
Proof. intros Hsub H12 H23 y s Hy Hd. apply H23; [by apply Hsub|]. by apply H12. Qed.

Lemma keeps_sub us c c' : bodies c ⊆ bodies c' -> keeps us c c'.
Proof. intros Hsub y s _. by apply denotes_mono. Qed.

Lemma sheds_sub (s s' : gmap id obody * state_caches) : rtc shed s s' -> s'.1 ⊆ s.1.
Proof.
  induction 1 as [|s1 s2 s3 [m g x b Hx] _ IH]; [done|]. etrans; [exact IH|apply delete_subseteq].
Qed.

Lemma W_user_live I ext us n c y : W I ext us n c -> y ∈ us -> is_Some (bodies c !! y).
Proof.
  intros HW Hy%occ_pos. destruct (w_users _ _ _ _ _ HW y Hy) as (o & Ho & _).
  unfold bodies. rewrite lookup_fmap, Ho. eauto.
Qed.

Lemma W_sheds_keeps I ext us n c c' :
  W I ext us n c' -> rtc shed (shape c) (shape c') -> keeps us c c'.
Proof.
  intros HW Hsh%sheds_sub y s Hy. cbn in Hsh. apply denotes_shrink; [done|by eapply obj_inv_closed, (w_obj _ _ _ _ _ HW)|].
  by eapply W_user_live.
Qed.

Lemma drop_users_W ext n : forall l us c,
  W (EI J) ext (l ++ us) n c ->
  exists c', drop_users c (Some <$> l) = Ok c' /\ W (EI J) ext us n c' /\ keeps us c c'.
Proof.
  induction l as [|x l IH]; intros us c HW; cbn.
  - exists c. split_and!; [done..|]. by intros y s.
  - destruct (W_decUser _ _ _ _ _ HW) as (b & c1 & -> & HW1 & Hsh & _). cbn.
    destruct (IH us c1 HW1) as (c' & -> & HW' & Hk). exists c'. split_and!; [done..|].
    intros y s Hy Hd. apply Hk; [done|]. eapply (W_sheds_keeps _ _ (l ++ us)); [exact HW1|done| |done].
    apply elem_of_app. by right.
Qed.

(** [load] builds what [parse] reads. *)
Definition builds (load : ctx -> IStream -> outcome (option id * ctx * IStream))
    (parse : IStream -> outcome (etree * IStream)) : Prop :=
  forall i t i' n c ext us, parse i = Ok (t, i') -> 0 <= n -> n + cost t < 2 ^ 31 ->
    W (EI J) ext us (n + cost t) c ->
    exists x c', load c i = Ok (Some x, c', i') /\ W (EI J) ext (x :: us) n c' /\
      denotes (bodies c') x t /\ keeps us c c'.

Definition sub_of (y : id) (p : cstr * Z * etree) : cstr * Z * option id := (p.1.1, p.1.2, Some y).
Definition req_of (y : id) (p : cstr * Z * etree) : id * list Z * Z := (y, p.1.1, p.1.2).

Lemma loadString_cstr i nm i' : loadString i = Ok (nm, i') -> cstr_of nm = nm.
Proof.
  unfold loadString, rsuCopyString. intros E. apply bind_Ok in E as ([len i1] & _ & E).
  apply bind_Ok in E as (str & E1 & E). apply bind_Ok in E1 as (bs & _ & E1). injection E1 as <-. injection E as <- <-.
  apply cstr_of_again.
Qed.

Lemma load_fields_W load parse : builds load parse -> forall k i ts i' n c ext us,
  parse_list parse k i = Ok (ts, i') -> 0 <= n -> n + cost_fields ts < 2 ^ 31 ->
  W (EI J) ext us (n + cost_fields ts) c ->
  exists ids c', load_fields load k c i = Ok (zip_with sub_of ids ts, c', i') /\
    W (EI J) ext (ids ++ us) n c' /\ Forall2 (fun y p => denotes (bodies c') y p.2) ids ts /\
    Forall (fun p => cstr_of p.1.1 = p.1.1) ts /\ length ts = k /\ keeps us c c'.
Proof.
  intros Hb. induction k as [|k IH]; intros i ts i' n c ext us E Hn Hmax HW; cbn in E.
  { simplify_eq. exists [], c. rewrite Z.add_0_r in HW. split_and!; try done. by intros y s. }
  apply bind_Ok in E as ([nm i1] & E1 & E). apply bind_Ok in E as ([asz i2] & E2 & E).
  apply bind_Ok in E as ([t i3] & E3 & E). apply bind_Ok in E as ([ts' i4] & E4 & E). injection E as <- <-.
  pose proof (cost_pos t). pose proof (cost_fields_pos ts').
  change (cost_fields ((nm, asz, t) :: ts')) with (cost t + cost_fields ts') in *.
  replace (n + (cost t + cost_fields ts')) with ((n + cost_fields ts') + cost t) in * by lia.
  destruct (Hb _ _ _ (n + cost_fields ts') c ext us E3) as (x & c1 & El & HW1 & Hd & Hk1); [lia|lia|done|].
  destruct (IH _ _ _ n c1 ext (x :: us) E4) as (ids & c' & El2 & HW2 & HF & Hnm & Hlen & Hk2); [lia|lia|done|].
  exists (x :: ids), c'. cbn [load_fields]. rewrite E1. cbn [mbind outcome_bind]. rewrite E2. cbn [mbind outcome_bind].
  rewrite El. cbn [mbind outcome_bind]. rewrite El2. split; [done|]. split_and!.
  - eapply W_ext; [done| |exact HW2]. intros y. cbn [app]. rewrite !occ_cons, !occ_app, !occ_cons. lia.
  - constructor; [|done]. apply Hk2; [by left|done].
  - constructor; [|done]. cbn. by eapply loadString_cstr.
  - cbn. by rewrite Hlen.
  - eapply (keeps_trans _ (x :: us)); [intros; by right|done|done].
Qed.

Lemma requested_subs (den : id -> cstr * Z * etree -> Prop) ids ts :
  Forall2 den ids ts -> Forall (fun p => cstr_of p.1.1 = p.1.1) ts ->
  let subs := zip_with sub_of ids ts in
  let names := (fun p => p.1.1) <$> subs in
  requested (zip_with req_of ids ts) (snd <$> subs) names (Some (strlen <$> names)) (Some ((fun p => p.1.2) <$> subs)).
Proof.
  intros HF Hnm subs names. split.
  - subst subs names. induction HF; cbn; [done|]. inversion Hnm; subst. f_equal. eauto.
  - subst subs names. induction HF; cbn; [done|]. inversion Hnm; subst. f_equal. eauto.
  - intros k r Hr. apply lookup_zip_with_Some in Hr as (y & p & -> & Hy & Hp).
    assert (subs !! k = Some (sub_of y p)) as Hs by (subst subs; apply lookup_zip_with_Some; eauto).
    cbn. rewrite (znth_lookup _ _ (strlen p.1.1)) by (by rewrite list_lookup_fmap; subst names; rewrite list_lookup_fmap, Hs).
    rewrite Forall_forall in Hnm. rewrite (Hnm p); [done|]. by eapply list_elem_of_lookup_2.
  - intros k r Hr. apply lookup_zip_with_Some in Hr as (y & p & -> & Hy & Hp).
    assert (subs !! k = Some (sub_of y p)) as Hs by (subst subs; apply lookup_zip_with_Some; eauto).
    cbn. by rewrite (znth_lookup _ _ p.1.2) by (by rewrite list_lookup_fmap, Hs).
Qed.

Lemma fields_denote den fs ids ts :
  Forall2 (fun y (p : cstr * Z * etree) => den y p.2) ids ts -> Forall (fun p => cstr_of p.1.1 = p.1.1) ts ->
  fields_key fs = req_key <$> zip_with req_of ids ts -> Forall2 (field_denotes den) fs ts.
Proof.
  intros HF. revert fs. induction HF as [|y p ids ts Hd HF IH]; intros [|f fs] Hnm E; try done.
  cbn [zip_with] in E. apply fields_key_cons in E as [(Ee & En & Ea) E]. inversion Hnm as [|? ? Hp Hnm']; subst.
  constructor; [|by apply IH]. cbn in *. split_and!; [congruence|done|]. eauto.
Qed.

(** Writing and reading an element in the same or in another context: the reader
    gets an element with the same meaning. *)
Lemma createFromStream_builds fuel : builds (createFromStream_fuel fuel) (parse_fuel fuel).
Proof.
  induction fuel as [|fuel IH]; intros i t i' n c ext us E Hn Hmax HW; [done|]. cbn [parse_fuel] in E.
  apply bind_Ok in E as ([cid i1] & E1 & E). destruct (cid =? RS_A3D_CLASS_ID_ELEMENT) eqn:Ecid; [|done]. cbn [negb] in E.
  apply bind_Ok in E as ([name i2] & E2 & E). apply bind_Ok in E as ([cmp i3] & E3 & E).
  apply bind_Ok in E as ([cnt i4] & E4 & E).
  cbn [createFromStream_fuel]. rewrite E1. cbn [mbind outcome_bind]. rewrite Ecid. cbn [negb].
  rewrite E2. cbn [mbind outcome_bind]. rewrite E3. cbn [mbind outcome_bind]. rewrite E4. cbn [mbind outcome_bind].
  destruct (Z.eqb_spec cnt 0) as [->|Hcnt].
  - injection E as <- <-. cbn [cost] in *.
    assert (Component.set Component.Component_new (Component.mType cmp) (Component.mKind cmp)
      (Component.mNormalized cmp) (Component.mVectorSize cmp) = Ok cmp) as Hset.
    { unfold Component.loadFromStream in E3. do 4 (apply bind_Ok in E3 as ([? ?] & _ & E3)).
      apply bind_Ok in E3 as (cmp' & Hs & E3). injection E3 as <- _. by eapply Component.set_idempotent. }
    destruct (create_W ext us n c _ _ _ _ cmp Hn ltac:(lia) Hset HW) as (x & c' & e & -> & HW' & Hsub & Hx & Hf & Hc).
    exists x, c'. cbn [mbind outcome_bind]. split_and!; [done|done| |by apply keeps_sub].
    exists e. split_and!; [done|done|]. by rewrite Hc.
  - destruct (Z.ltb_spec cnt 0); [done|].
    apply bind_Ok in E as ([ts i5] & E5 & E). injection E as <- <-. rewrite cost_struct in *.
    pose proof (zlen_nonneg ts) as Hz. pose proof (cost_fields_pos ts).
    destruct (load_fields_W _ _ IH _ _ _ _ (n + 2 + zlen ts) c ext us E5) as (ids & c1 & -> & HW1 & HF & Hnm & Hlen & Hk1);
      [lia|lia|by replace (n + 2 + zlen ts + cost_fields ts) with (n + (2 + zlen ts + cost_fields ts)) by lia|].
    cbn [mbind outcome_bind]. pose proof (Forall2_length _ _ _ HF) as Hl.
    assert (zlen (zip_with req_of ids ts) = zlen ts) as Ez by (unfold zlen; rewrite length_zip_with; lia).
    destruct (create2_W ext (ids ++ us) n c1 _ _ _ _ _ (requested_subs _ _ _ HF Hnm) Hn) as (x & c2 & e & -> & HW2 & Hsub & Hx & Hkey);
      [rewrite Ez; lia| |by rewrite Ez|].
    { intros r Hr. apply list_elem_of_lookup in Hr as [k Hr]. apply lookup_zip_with_Some in Hr as (y & p & -> & Hy & Hp).
      pose proof (Forall2_lookup_lr _ _ _ _ _ _ HF Hy Hp) as Hd. cbn in Hd |- *.
      by destruct p.2; destruct Hd as (e & He & _); eauto. }
    cbn [mbind outcome_bind].
    assert (snd <$> zip_with sub_of ids ts = Some <$> ids) as ->.
    { clear -HF. induction HF; cbn; [done|]. by f_equal. }
    destruct (drop_users_W ext n ids (x :: us) c2) as (c' & -> & HW' & Hk2).
    { eapply W_ext; [done| |exact HW2]. intros y. rewrite !occ_app, !occ_cons, occ_app. lia. }
    exists x, c'. cbn [mbind outcome_bind]. split_and!; [done|done| |].
    + apply Hk2; [by left|]. apply denotes_struct. exists e. split_and!; [done| |].
      * intros ->. cbn in Hlen. lia.
      * eapply fields_denote; [|done|done]. eapply Forall2_impl; [exact HF|]. intros y p. by apply denotes_mono.
    + intros y s Hy Hd. apply Hk2; [by right|]. eapply denotes_mono; [exact Hsub|]. by apply Hk1.
Qed.

End build.

(** ** Writing and parsing are inverse *)

Fixpoint depth (t : etree) : nat :=
  match t with
  | TLeaf _ _ _ _ => 1
  | TStruct ts => S (foldr (fun p n => Nat.max (depth p.2) n) 0%nat ts)
  end.

(** Names fit the stream they are written to and hold no terminator. *)
Definition name_ok (C : Z) (nm : cstr) : Prop := zlen nm <= C /\ zlen nm < 2 ^ 32 /\ Forall (fun b => b <> 0) nm.

Fixpoint tree_ok (C : Z) (t : etree) : Prop :=
  match t with
  | TLeaf dt dk _ v => Component.byte_type dt /\ Component.byte_kind dk /\ 0 <= v < 2 ^ 32
  | TStruct ts =>
      zlen ts < 2 ^ 32 /\
      foldr (fun p P => (name_ok C p.1.1 /\ 0 <= p.1.2 < 2 ^ 32 /\ tree_ok C p.2) /\ P) True ts
  end.

(** [strlen] of a null name is a fault: every object has a name. *)
Definition names_ok (C : Z) (c : ctx) : Prop :=
  forall x o, objs c !! x = Some o -> exists nm, mName o = Some nm /\ name_ok C nm.

(** The most bytes a tree takes. *)
Fixpoint tsize (C : Z) (t : etree) : Z :=
  match t with
  | TLeaf _ _ _ _ => 68 + C
  | TStruct ts => foldr (fun p n => 22 + C + tsize C p.2 + n) (68 + C) ts
  end.
Definition fsize (C : Z) (ts : list (cstr * Z * etree)) : Z := foldr (fun p n => 22 + C + tsize C p.2 + n) 0 ts.

Lemma tsize_struct C ts : tsize C (TStruct ts) = 68 + C + fsize C ts.
Proof. cbn. unfold fsize. induction ts as [|p ts IH]; cbn [foldr]; lia. Qed.

Lemma tsize_pos C t : 0 <= C -> 0 <= tsize C t.
Proof.
  intros HC. induction t as [|ts IH] using etree_ind'; [cbn; lia|].
  assert (0 <= fsize C ts).
  { unfold fsize. induction IH as [|p ts Hp _ IHts]; cbn; [lia|]. cbn in Hp. lia. }
  rewrite tsize_struct. lia.
Qed.

Lemma codec_map {A B} C n enc dec (a : A) (f : A -> B) :
  codec C n enc dec a -> codec C n enc (fun i => '(x, i) ← dec i; Ok (f x, i)) (f a).
Proof.
  intros Hc s Hwf Hroom. destruct (Hc s Hwf Hroom) as (s' & ? & ? & ? & ? & Hd). exists s'.
  split_and!; [done..|]. intros bytes Hb. by rewrite Hd.
Qed.

(** The head of an element record, up to the number of its fields. *)
Lemma codec_head {A} C nm cmp cnt n enc (dec : Z -> Component.Component -> IStream -> outcome (A * IStream)) a :
  16 <= C -> 0 <= n -> name_ok C nm -> Component.byte_type (Component.mType cmp) -> Component.byte_kind (Component.mKind cmp) ->
  0 <= Component.mVectorSize cmp < 2 ^ 32 -> 0 <= cnt < 2 ^ 32 ->
  Component.set Component.Component_new (Component.mType cmp) (Component.mKind cmp)
    (Component.mNormalized cmp) (Component.mVectorSize cmp) = Ok cmp ->
  codec C n enc (dec cnt cmp) a ->
  codec C (68 + C + n)
    (fun s => s ← addU32 RS_A3D_CLASS_ID_ELEMENT s; s ← addString nm s; s ← Component.serialize cmp s; s ← addU32 cnt s; enc s)
    (fun i => '(classID, i) ← loadU32 i;
              if negb (classID =? RS_A3D_CLASS_ID_ELEMENT) then Fault BadCast
              else '(name, i) ← loadString i;
                   '(cmp, i) ← Component.loadFromStream Component.Component_new i;
                   '(cnt, i) ← loadU32 i; dec cnt cmp i) a.
Proof.
  intros HC Hn (Hl & Hl32 & Hnz) Ht Hk Hv Hcnt Hset Henc.
  pose proof (codec_U32 C RS_A3D_CLASS_ID_ELEMENT HC ltac:(done)) as H1.
  pose proof (codec_string C nm HC Hl Hl32 Hnz) as H2.
  pose proof (Component.codec_serialize C cmp HC Ht Hk Hv Hset) as H3.
  pose proof (codec_U32 C cnt HC Hcnt) as H4. pose proof (zlen_nonneg nm).
  eapply (codec_weaken _ (11 + ((11 + zlen nm) + (35 + (11 + n))))); [lia|].
  eapply codec_bind; [lia|exact H1|]. cbv beta. cbn [negb Z.eqb].
  change (RS_A3D_CLASS_ID_ELEMENT =? RS_A3D_CLASS_ID_ELEMENT) with true. cbn [negb].
  eapply codec_bind; [lia|exact H2|]. eapply codec_bind; [lia|exact H3|].
  eapply codec_bind; [lia|exact H4|exact Henc].
Qed.

Lemma codec_fields C ser parse fs ts :
  16 <= C -> Forall2 (field_denotes (fun y t => codec C (tsize C t) (ser y) parse t)) fs ts ->
  Forall (fun p => name_ok C p.1.1 /\ 0 <= p.1.2 < 2 ^ 32) ts ->
  codec C (fsize C ts) (serialize_fields ser fs) (parse_list parse (length ts)) ts.
Proof.
  intros HC HF Hok. induction HF as [|f [[nm asz] t] fs ts (En & Ea & y & Hy & Hc) HF IH].
  - apply codec_ret.
  - inversion Hok as [|? ? [(Hl & Hl32 & Hnz) Hasz] Hok']; subst. cbn in *.
    assert (0 <= fsize C ts).
    { clear -HC. unfold fsize. induction ts as [|p ts IHts]; cbn; [lia|]. pose proof (tsize_pos C p.2). lia. }
    pose proof (tsize_pos C t ltac:(lia)). pose proof (zlen_nonneg nm).
    pose proof (codec_string C nm HC Hl Hl32 Hnz) as Hc1. pose proof (codec_U32 C asz HC Hasz) as Hc2.
    eapply (codec_weaken _ ((11 + zlen nm) + (11 + (tsize C t + fsize C ts)))); [unfold fsize; cbn; lia|].
    subst. cbn [serialize_fields parse_list length]. unfold field_elem. rewrite Hy. cbn [of_option mbind outcome_bind].
    eapply codec_bind; [lia|exact Hc1|]. eapply codec_bind; [lia|exact Hc2|].
    eapply codec_bind; [lia|exact Hc|]. cbv beta. eapply (codec_map _ _ _ _ ts (fun r => (f_name f, f_arraySize f, t) :: r)).
    by apply IH.
Qed.

Lemma fields_ok C ts : tree_ok C (TStruct ts) ->
  zlen ts < 2 ^ 32 /\ Forall (fun p => name_ok C p.1.1 /\ 0 <= p.1.2 < 2 ^ 32) ts /\ Forall (fun p => tree_ok C p.2) ts.
Proof.
  cbn. intros [Hl Hok]. split; [done|]. clear Hl.
  induction ts as [|p ts IH]; cbn in Hok; [done|]. destruct Hok as [(? & ? & ?) Hok]. destruct (IH Hok). auto.
Qed.

Lemma codec_element C c :
  16 <= C -> elem_inv (bodies c) (caches c) -> names_ok C c -> forall t x n k,
  tree_ok C t -> denotes (bodies c) x t -> (Pos.to_nat x <= n)%nat -> (depth t <= k)%nat ->
  codec C (tsize C t) (serialize_fuel n c x) (parse_fuel k) t.
Proof.
  intros HC He Hnm. induction t as [dt dk norm vec|ts IH] using etree_ind'; intros x n k Hok Hd Hn Hk.
  all: destruct n as [|n]; [lia|]; destruct k as [|k]; [cbn in Hk; lia|].
  - destruct Hd as (e & Hx & Hf & Hkey). destruct (bodies_live _ _ _ Hx) as (o & Ho & Hb).
    destruct (Hnm _ _ Ho) as (nm & Enm & Hnok). destruct Hok as (Ht & Hdk & Hv). unfold leaf_key in Hkey.
    injection Hkey as Et Ek En Ev. cbn [tsize]. rewrite <- (Z.add_0_r (68 + C)).
    eapply codec_ext; [| |eapply (codec_head C nm (e_mComponent e) 0 0 Ok
      (fun cnt cmp i => if cnt =? 0 then _ else if cnt <? 0 then Fault BadCast
         else '(ts, i) ← parse_list (parse_fuel k) (Z.to_nat cnt) i; Ok (TStruct ts, i)))].
    + intros s _ _. cbn [serialize_fuel]. unfold deref. rewrite Ho. cbn [of_option mbind outcome_bind].
      rewrite as_element_look, (proj2 (look_in_Ok _ _ _) Hx). cbn [of_option mbind outcome_bind].
      rewrite Enm, Hf. done.
    + intros i' _. cbn [parse_fuel]. done.
    + done.
    + lia.
    + done.
    + by rewrite Et.
    + by rewrite Ek.
    + by rewrite Ev.
    + lia.
    + by eapply (ei_comp _ _ He).
    + rewrite <- Et, <- Ek, <- En, <- Ev. apply codec_ret.
  - apply denotes_struct in Hd as (e & Hx & Hne & HF). destruct (bodies_live _ _ _ Hx) as (o & Ho & Hb).
    destruct (Hnm _ _ Ho) as (nm & Enm & Hnok). destruct (fields_ok _ _ Hok) as (Hlen & Hfok & Htok).
    pose proof (Forall2_length _ _ _ HF) as Hl. pose proof (zlen_nonneg ts).
    assert (e_mFields e <> []) as Hfne by (intros E; rewrite E in Hl; by destruct ts).
    destruct (ei_struct _ _ He _ _ Hx Hfne) as [_ Ecmp].
    assert (zlen (e_mFields e) = zlen ts) as Ez by (unfold zlen; lia).
    rewrite tsize_struct.
    eapply codec_ext; [| |eapply (codec_head C nm Component.Component_new (zlen ts) (fsize C ts)
      (serialize_fields (serialize_fuel n c) (e_mFields e))
      (fun cnt cmp i => if cnt =? 0 then
           Ok (TLeaf (Component.mType cmp) (Component.mKind cmp) (Component.mNormalized cmp) (Component.mVectorSize cmp), i)
         else if cnt <? 0 then Fault BadCast
         else '(ts, i) ← parse_list (parse_fuel k) (Z.to_nat cnt) i; Ok (TStruct ts, i)))].
    + intros s _ _. cbn [serialize_fuel]. unfold deref. rewrite Ho. cbn [of_option mbind outcome_bind].
      rewrite as_element_look, (proj2 (look_in_Ok _ _ _) Hx). cbn [of_option mbind outcome_bind].
      rewrite Enm, Ecmp, Ez, (u32_small (zlen ts)) by lia. done.
    + intros i' _. cbn [parse_fuel]. done.
    + done.
    + unfold fsize. clear -HC. induction ts as [|p ts IHts]; cbn; [lia|]. pose proof (tsize_pos C p.2). lia.
    + done.
    + split; done.
    + split; done.
    + done.
    + lia.
    + done.
    + cbv beta. destruct (Z.eqb_spec (zlen ts) 0) as [E0|_]; [destruct ts; [done|unfold zlen in E0; cbn in E0; lia]|].
      destruct (Z.ltb_spec (zlen ts) 0); [lia|]. unfold zlen. rewrite Nat2Z.id.
      eapply codec_map. apply codec_fields; [done| |done].
      assert (Hsmall : forall f y, f ∈ e_mFields e -> f_e f = Some y -> (Pos.to_nat y <= n)%nat).
      { intros f y Hf Hy. destruct (ei_fields _ _ He _ _ _ Hx Hf) as (y' & e' & ? & Hlt & _). simplify_eq. lia. }
      cbn in Hk. assert (Hdep : Forall (fun p => (depth p.2 <= k)%nat) ts).
      { clear -Hk. induction ts as [|p ts IHts]; cbn in Hk; [constructor|]. constructor; [lia|]. apply IHts. lia. }
      clear -IH HF Hsmall Htok Hdep. induction HF as [|f p fs ts (En & Ea & y & Hy & Hd) HF IHF]; [constructor|].
      inversion IH; inversion Htok; inversion Hdep; subst. constructor.
      * split_and!; [done..|]. exists y. split; [done|]. match goal with Hi : forall _ _ _, tree_ok _ p.2 -> _ |- _ => apply Hi end; try done.
        apply (Hsmall f); [by left|done].
      * apply IHF; try done. intros g z Hg. apply Hsmall. by right.
Qed.

(** ** The fuel of [createFromStream]

    A reader moves forward, by at least [D] of what it read, inside the data. *)
Definition advances {A} (D : A -> Z) (dec : IStream -> outcome (A * IStream)) : Prop :=
  forall i a i', 0 <= i_mPos i <= zlen (i_mData i) -> zlen (i_mData i) < 2 ^ 63 -> dec i = Ok (a, i') ->
    i_mData i' = i_mData i /\ i_mPos i <= i_mPos i' <= zlen (i_mData i) /\ i_mPos i + D a <= i_mPos i'.

Lemma advances_ret {A} (a : A) D : D a <= 0 -> advances D (fun i => Ok (a, i)).
Proof. intros HD i b i' Hp _ E. injection E as <- <-. split; [done|lia]. Qed.

Lemma advances_fault {A} (D : A -> Z) f : advances D (fun _ => Fault f).
Proof. intros i b i' Hp _ E. done. Qed.

Lemma advances_weaken {A} (D D' : A -> Z) dec : (forall a, D' a <= D a) -> advances D dec -> advances D' dec.
Proof. intros HD Ha i a i' Hp Hl E. destruct (Ha _ _ _ Hp Hl E) as (? & ? & ?). specialize (HD a). split; [done|lia]. Qed.

Lemma advances_bind {A B} (D1 : A -> Z) (D : B -> Z) dec1 (dec2 : A -> IStream -> outcome (B * IStream)) :
  advances D1 dec1 -> (forall a, advances (fun b => D b - D1 a) (dec2 a)) ->
  advances D (fun i => '(a, i) ← dec1 i; dec2 a i).
Proof.
  intros H1 H2 i b i' Hp Hl E. apply bind_Ok in E as ([a i1] & E1 & E2).
  destruct (H1 _ _ _ Hp Hl E1) as (Ed1 & Hp1 & Hd1).
  destruct (H2 a i1 b i') as (Ed2 & Hp2 & Hd2); [rewrite Ed1; lia|by rewrite Ed1|done|].
  rewrite Ed1 in *. split; [done|lia].
Qed.

Lemma zread_inside {A} (l : list A) i n r : zread l i n = Ok r -> 0 <= i /\ 0 <= n /\ i + n <= zlen l.
Proof. unfold zread. by case_decide. Qed.

Lemma advances_U32 : advances (fun _ => 4) loadU32.
Proof.
  intros i a i' Hp Hl E. unfold loadU32, load_raw in E. change 3 with (2 ^ 2 - 1) in E.
  rewrite mask64_roundup in E by lia. change (2 ^ 2) with 4 in E.
  apply bind_Ok in E as (bs & Hr%zread_inside & E). cbn [i_set_pos i_mPos i_mData] in Hr, E.
  pose proof (roundup_bounds 4 (i_mPos i) ltac:(lia)). rewrite u64_small in E by lia. injection E as <- <-. cbn. split; [done|lia].
Qed.

Lemma advances_U8 : advances (fun _ => 1) loadU8.
Proof.
  intros i a i' Hp Hl E. unfold loadU8, load_raw in E. apply bind_Ok in E as (bs & Hr%zread_inside & E).
  rewrite u64_small in E by lia. injection E as <- <-. cbn. split; [done|lia].
Qed.

Lemma advances_String : advances (fun _ => 4) loadString.
Proof.
  eapply advances_bind; [apply advances_U32|]. intros len i a i' Hp Hl E.
  unfold rsuCopyString in E. apply bind_Ok in E as (str & Hs & E). apply bind_Ok in Hs as (bs & Hr%zread_inside & _).
  unfold zlen in Hr. rewrite length_drop in Hr. unfold zlen in *. rewrite u64_small in E by lia.
  injection E as <- <-. cbn. split; [done|lia].
Qed.

Lemma advances_Component : advances (fun _ => 0) (Component.loadFromStream Component.Component_new).
Proof.
  unfold Component.loadFromStream.
  eapply advances_bind; [eapply (advances_weaken _ (fun _ => 0)), advances_U8; done|]. intros t.
  eapply advances_bind; [eapply (advances_weaken _ (fun _ => 0)), advances_U8; done|]. intros k.
  eapply advances_bind; [eapply (advances_weaken _ (fun _ => 0)), advances_U8; done|]. intros nm.
  eapply advances_bind; [eapply (advances_weaken _ (fun _ => 0)), advances_U32; done|]. intros v.
  intros i a i' Hp Hl E. apply bind_Ok in E as (cmp & _ & E). injection E as <- <-. split; [done|lia].
Qed.

Definition max_depth (ts : list (cstr * Z * etree)) : nat := foldr (fun p n => Nat.max (depth p.2) n) 0%nat ts.

Lemma advances_list parse n :
  advances (fun t => Z.of_nat (depth t)) parse -> advances (fun ts => Z.of_nat (max_depth ts)) (parse_list parse n).
Proof.
  intros Hp. induction n as [|n IH]; cbn [parse_list]; [by apply advances_ret|].
  eapply advances_bind; [eapply (advances_weaken _ (fun _ => 0)), advances_String; done|]. intros nm.
  eapply advances_bind; [eapply (advances_weaken _ (fun _ => 0)), advances_U32; done|]. intros asz.
  intros i ts i' Hi Hl E. apply bind_Ok in E as ([t i1] & E1 & E). apply bind_Ok in E as ([ts' i2] & E2 & E).
  injection E as <- <-. destruct (Hp _ _ _ Hi Hl E1) as (Ed1 & ? & ?).
  destruct (IH i1 ts' i2) as (Ed2 & ? & ?); [rewrite Ed1; lia|by rewrite Ed1|done|].
  rewrite Ed1 in *. split; [done|]. cbn [max_depth foldr snd]. fold (max_depth ts'). lia.
Qed.

Lemma advances_parse fuel : advances (fun t => Z.of_nat (depth t)) (parse_fuel fuel).
Proof.
  induction fuel as [|n IH]; cbn [parse_fuel]; [apply advances_fault|].
  eapply advances_bind; [apply advances_U32|]. intros cid. destruct (negb _); [apply advances_fault|].
  eapply advances_bind; [eapply (advances_weaken _ (fun _ => 0)), advances_String; done|]. intros nm.
  eapply advances_bind; [apply advances_Component|]. intros cmp.
  eapply advances_bind; [eapply (advances_weaken _ (fun _ => 0)), advances_U32; done|]. intros cnt.
  destruct (cnt =? 0); [by apply advances_ret|]. destruct (cnt <? 0); [apply advances_fault|].
  eapply advances_bind; [by apply advances_list|]. intros ts. apply advances_ret. cbn [depth].
  fold (max_depth ts). lia.
Qed.

(** ** The contract *)

Lemma createFromStream_Ok (J : gmap id obody -> state_caches -> Prop) `{!ElementFrame J} C c x t s :
  16 <= C -> elem_inv (bodies c) (caches c) -> names_ok C c -> tree_ok C t -> denotes (bodies c) x t ->
  ostream_wf C s -> o_mPos s + tsize C t <= 2 ^ 32 ->
  exists s', serialize c x s = Ok s' /\ ostream_wf C s' /\ extends s s' /\ o_mPos s < o_mPos s' <= o_mPos s + tsize C t /\
    forall bytes d ext us n, refines s' bytes -> zlen bytes < 2 ^ 63 -> 0 <= n -> n + cost t < 2 ^ 31 ->
      W (EI J) ext us (n + cost t) d ->
      exists y d', createFromStream d (mkIStream bytes (o_mPos s) (o_mUse64 s)) =
          Ok (Some y, d', mkIStream bytes (o_mPos s') (o_mUse64 s)) /\
        W (EI J) ext (y :: us) n d' /\ denotes (bodies d') y t /\ keeps us d d'.
Proof.
  intros HC He Hnm Hok Hd Hwf Hroom. pose proof (fun k => codec_element C c HC He Hnm t x (Pos.to_nat x) k Hok Hd (le_n _)) as Hcodec.
  destruct (Hcodec (depth t) (le_n _) s Hwf Hroom) as (s' & E & Hwf' & Hext & Hle & Hdec).
  pose proof (wf_pos _ _ Hwf). pose proof (ext_pos _ _ Hext).
  assert (Hadv : forall bytes, refines s' bytes -> zlen bytes < 2 ^ 63 -> o_mPos s + Z.of_nat (depth t) <= o_mPos s').
  { intros bytes Hb Hlen. pose proof (ref_length _ _ Hb).
    by destruct (advances_parse _ (mkIStream bytes (o_mPos s) (o_mUse64 s)) _ _ ltac:(cbn; lia) Hlen (Hdec bytes Hb)) as (_ & _ & Hdp). }
  exists s'. split; [done|]. split; [done|]. split; [done|]. split.
  { destruct (refines_exists C s' Hwf') as (bytes & Hb & Hlb). pose proof (Hadv bytes Hb ltac:(pose proof (wf_capacity _ _ Hwf'); pose proof (wf_pos _ _ Hwf'); lia)).
    assert (1 <= depth t)%nat by (destruct t; cbn [depth]; lia). lia. }
  intros bytes d ext us n Hb Hlen Hn Hmax HW. pose proof (Hadv bytes Hb Hlen). pose proof (ref_length _ _ Hb).
  destruct (Hcodec (S (length bytes)) ltac:(unfold zlen in *; lia) s Hwf Hroom) as (s2 & E2 & _ & _ & _ & Hdec2).
  assert (s2 = s') as -> by congruence.
  eapply createFromStream_builds; [by apply Hdec2|done..].
Qed.

(** C5: an element read back from what [serialize] wrote, in any consistent context,
    denotes the tree the written one denotes: the same components, field names,
    array sizes and nesting. *)
Theorem element_roundtrip (J : gmap id obody -> state_caches -> Prop) `{!ElementFrame J} C c x t s extc usc nc :
  16 <= C -> W (EI J) extc usc nc c -> names_ok C c -> tree_ok C t -> denotes (bodies c) x t ->
  ostream_wf C s -> o_mPos s + tsize C t <= 2 ^ 32 ->
  exists s', serialize c x s = Ok s' /\ ostream_wf C s' /\
    forall bytes d ext us n, refines s' bytes -> zlen bytes < 2 ^ 63 -> 0 <= n -> n + cost t < 2 ^ 31 ->
      W (EI J) ext us (n + cost t) d ->
      exists y d', createFromStream d (mkIStream bytes (o_mPos s) (o_mUse64 s)) =
          Ok (Some y, d', mkIStream bytes (o_mPos s') (o_mUse64 s)) /\
        W (EI J) ext (y :: us) n d' /\ denotes (bodies d') y t.
Proof.
  intros HC HW Hnm Hok Hd Hwf Hroom.
  destruct (createFromStream_Ok J C c x t s) as (s' & E & Hwf' & _ & _ & Hr); try done; [apply (w_shape _ _ _ _ _ HW)|].
  exists s'. split_and!; [done..|]. intros bytes d ext us n Hb Hl Hn Hmax HWd.
  destruct (Hr bytes d ext us n Hb Hl Hn Hmax HWd) as (y & d' & ? & ? & ? & _). eauto.
Qed.

(** elements are shared: in a consistent context two elements that denote the
    same tree, without packed pixels, are one object. *)
Theorem element_sharing (J : gmap id obody -> state_caches -> Prop) ext us n c t x y :
  W (EI J) ext us n c -> no_packed t = true -> denotes (bodies c) x t -> denotes (bodies c) y t -> x = y.
Proof. intros HW Hp. apply (denotes_inj _ _ t (proj1 (w_shape _ _ _ _ _ HW)) Hp). Qed.

(** reading an element back in the context that wrote it, while the caller holds
    it, returns the very same object with one more user reference. *)
Theorem element_reload (J : gmap id obody -> state_caches -> Prop) `{!ElementFrame J} C c x t s ext us n :
  16 <= C -> 0 <= n -> n + cost t < 2 ^ 31 -> W (EI J) ext (x :: us) (n + cost t) c ->
  names_ok C c -> tree_ok C t -> no_packed t = true -> denotes (bodies c) x t ->
  ostream_wf C s -> o_mPos s + tsize C t <= 2 ^ 32 ->
  exists s', serialize c x s = Ok s' /\
    forall bytes, refines s' bytes -> zlen bytes < 2 ^ 63 ->
      exists c', createFromStream c (mkIStream bytes (o_mPos s) (o_mUse64 s)) =
          Ok (Some x, c', mkIStream bytes (o_mPos s') (o_mUse64 s)) /\
        W (EI J) ext (x :: x :: us) n c'.
Proof.
  intros HC Hn Hmax HW Hnm Hok Hp Hd Hwf Hroom.
  destruct (createFromStream_Ok J C c x t s) as (s' & E & Hwf' & _ & _ & Hr); try done; [apply (w_shape _ _ _ _ _ HW)|].
  exists s'. split; [done|]. intros bytes Hb Hl.
  destruct (Hr bytes c ext (x :: us) n Hb Hl Hn Hmax HW) as (y & c' & Ec & HW' & Hdy & Hk).
  assert (y = x) as ->.
  { eapply (denotes_inj _ _ t (proj1 (w_shape _ _ _ _ _ HW'))); [done|done|]. apply Hk; [by left|done]. }
  eauto.
Qed.

(** *** Examples: the struct of [Element], named and held by a user reference *)

Definition of_outcome (r : outcome ctx) : ctx := match r with Ok c => c | Fault _ => no_objects end.

Definition ex_named : ctx :=
  of_outcome (c ← assignName ex_struct 1%positive (Some [118]); c ← assignName c 2%positive (Some [112]);
              incUserRef c 2%positive).

Definition ex_tree : etree :=
  let v := TLeaf Component.RS_TYPE_FLOAT_32 Component.RS_KIND_USER false 3 in
  TStruct [([97], 2, v); ([98], 1, v)].

Lemma ex_named_W : W plain [2%positive; 1%positive] [2%positive] 799 ex_named.
Proof.
  assert (exists b1 b2, bodies ex_struct !! 1%positive = Some b1 /\ bodies ex_struct !! 2%positive = Some b2) as (b1 & b2 & Hb1 & Hb2).
  { eexists _, _. split; vm_compute; reflexivity. }
  destruct (W_assignName _ _ _ _ _ _ (Some [118]) ex_struct_W Hb1) as (c1 & o1 & E1 & HW1 & [Es1 _]%shape_bodies & _).
  rewrite <- Es1 in Hb2.
  destruct (W_assignName _ _ _ _ _ _ (Some [112]) HW1 Hb2) as (c2 & o2 & E2 & HW2 & [Es2 _]%shape_bodies & _).
  rewrite <- Es2 in Hb2. destruct (W_incUser _ _ 799 _ _ _ ltac:(lia) HW2 Hb2) as (c3 & E3 & HW3 & _).
  unfold ex_named. rewrite E1. cbn [mbind outcome_bind]. rewrite E2. cbn [mbind outcome_bind]. by rewrite E3.
Qed.

Lemma ex_named_objs x o : objs ex_named !! x = Some o -> x = 1%positive \/ x = 2%positive.
Proof.
  intros Hx. assert (x ∈ dom (objs ex_named)) as Hd by (apply elem_of_dom; eauto).
  assert (dom (objs ex_named) = {[1%positive; 2%positive]}) as E by (vm_compute; reflexivity).
  rewrite E, elem_of_union, !elem_of_singleton in Hd. done.
Qed.

Lemma ex_named_names : names_ok 64 ex_named.
Proof.
  intros x o Hx. destruct (ex_named_objs x o Hx) as [->| ->]; vm_compute in Hx; injection Hx as <-;
    (eexists; split; [reflexivity|]; split_and!; [vm_compute; congruence|vm_compute; reflexivity|by repeat constructor]).
Qed.

Lemma ex_tree_ok : tree_ok 64 ex_tree.
Proof.
  assert (Component.byte_type Component.RS_TYPE_FLOAT_32 /\ Component.byte_kind Component.RS_KIND_USER) as [? ?] by (split; split; (lia || done)).
  split; [done|]. cbn. split_and!; try done; by repeat constructor.
Qed.

Lemma ex_denotes : denotes (bodies ex_named) 2%positive ex_tree.
Proof.
  eexists. split; [vm_compute; reflexivity|]. split; [done|]. cbn [e_mFields].
  split_and!; try done; (exists 1%positive; split; [done|]; eexists; split; [vm_compute; reflexivity|done]).
Qed.

Definition ex_out : OStream := OStream_new 64 false.
Lemma ex_out_wf : ostream_wf 64 ex_out.
Proof. split; [reflexivity|split; vm_compute; congruence|split; vm_compute; congruence]. Qed.

Lemma element_roundtrip_witness :
  exists s', serialize ex_named 2%positive ex_out = Ok s' /\ ostream_wf 64 s' /\
    forall bytes d ext us n, refines s' bytes -> zlen bytes < 2 ^ 63 -> 0 <= n -> n + cost ex_tree < 2 ^ 31 ->
      W plain ext us (n + cost ex_tree) d ->
      exists y d', createFromStream d (mkIStream bytes (o_mPos ex_out) (o_mUse64 ex_out)) =
          Ok (Some y, d', mkIStream bytes (o_mPos s') (o_mUse64 ex_out)) /\
        W plain ext (y :: us) n d' /\ denotes (bodies d') y ex_tree.
Proof.
  apply (element_roundtrip (fun _ _ => True) 64 ex_named 2%positive ex_tree ex_out [2%positive; 1%positive] [2%positive] 799);
    [lia|apply ex_named_W|apply ex_named_names|apply ex_tree_ok|apply ex_denotes|apply ex_out_wf|vm_compute; congruence].
Defined.

Lemma element_sharing_witness : ~ exists y, y <> 2%positive /\ denotes (bodies ex_named) y ex_tree.
Proof.
  intros (y & Hne & Hd). apply Hne. symmetry.
  apply (element_sharing (fun _ _ => True) [2%positive; 1%positive] [2%positive] 799 ex_named ex_tree);
    [apply ex_named_W|reflexivity|apply ex_denotes|exact Hd].
Defined.

Lemma element_reload_witness :
  exists s', serialize ex_named 2%positive ex_out = Ok s' /\
    forall bytes, refines s' bytes -> zlen bytes < 2 ^ 63 ->
      exists c', createFromStream ex_named (mkIStream bytes (o_mPos ex_out) (o_mUse64 ex_out)) =
          Ok (Some 2%positive, c', mkIStream bytes (o_mPos s') (o_mUse64 ex_out)) /\
        W plain [2%positive; 1%positive] [2%positive; 2%positive] 700 c'.
Proof.
  apply (element_reload (fun _ _ => True) 64 ex_named 2%positive ex_tree ex_out [2%positive; 1%positive] [] 700);
    [lia|lia|vm_compute; reflexivity| |apply ex_named_names|apply ex_tree_ok|reflexivity|apply ex_denotes|apply ex_out_wf
    |vm_compute; congruence].
  eapply W_weaken; [|apply ex_named_W]. vm_compute. congruence.
Defined.

End ElementStream.
