(* ===== verification/RsType.v ===== *)
(** * RsType: the shape of the data of an allocation ([rsType.h], [rsType.cpp])

    A type is an element and up to three dimensions, with a table of the
    dimensions of each mipmap level.  Like elements, types are shared through a
    cache of the context. *)

From S2P Require Import Prelude CppUtils Stream Component ObjectBase Objects Element ElementStream.
Import CppUtils Stream ObjectBase Objects Element ElementStream.

Module RsType.

Definition RS_A3D_CLASS_ID_TYPE : Z := 2.

(** [system/graphics.h], repeated in [rsCompatibilityLib.h]. *)
Definition HAL_PIXEL_FORMAT_YCrCb_420_SP : Z := 0x11.

Definition as_type (c : ctx) (x : id) : outcome Type_ :=
  o ← deref c x;
  match body o with BType t => Ok t | _ => Fault BadCast end.

(** ** [compute] *)

(** [if (t > 1) t >>= 1]. *)
Definition halve (t : Z) : Z := if t >? 1 then Z.shiftr t 1 else t.

(** The loop over the levels; the cell count of a level is a 32-bit product. *)
Fixpoint lod_loop (n : nat) (lod tx ty tz : Z) (xs ys zs : list Z) (cells : Z)
    : outcome (list Z * list Z * list Z * Z) :=
  match n with
  | O => Ok (xs, ys, zs, cells)
  | S n =>
      xs ← zset xs lod tx;
      ys ← zset ys lod ty;
      zs ← zset zs lod tz;
      let cells := cells +u64 ((tx *u32 rsMax ty 1) *u32 rsMax tz 1) in
      lod_loop n (lod + 1) (halve tx) (halve ty) (halve tz) xs ys zs cells
  end.

(** The planes of a YUV type are stored as levels 1 and 2. *)
Definition yuv_planes (yuv : Z) (xs ys : list Z) (cells : Z) : outcome (list Z * list Z * Z) :=
  if yuv =? 0 then Ok (xs, ys, cells)
  else
    x0 ← znth xs 0; xs ← zset xs 1 (x0 / 2);
    y0 ← znth ys 0; ys ← zset ys 1 (y0 / 2);
    x0 ← znth xs 0; xs ← zset xs 2 (x0 / 2);
    y0 ← znth ys 0; ys ← zset ys 2 (y0 / 2);
    x1 ← znth xs 1; y1 ← znth ys 1;
    let cells := cells +u64 (x1 *u32 y1) in
    x2 ← znth xs 2; y2 ← znth ys 2;
    let cells := cells +u64 (x2 *u32 y2) in
    xs ← (if yuv =? HAL_PIXEL_FORMAT_YCrCb_420_SP then x0 ← znth xs 0; zset xs 1 x0 else Ok xs);
    Ok (xs, ys, cells).

Definition lod_count (dimLOD : bool) (dx dy dz : Z) : Z :=
  if dimLOD then
    let l2x := rsFindHighBit dx +u32 1 in
    let l2y := rsFindHighBit dy +u32 1 in
    let l2z := rsFindHighBit dz +u32 1 in
    rsMax (rsMax l2x l2y) l2z
  else 1.

(** [new uint32_t[n]]: the cells are written before they are read. *)
Definition fresh_table (n : Z) : list Z := replicate (Z.to_nat n) 0.

Definition compute (t : Type_) : outcome Type_ :=
  let h := t_mHal t in
  let n := lod_count (t_mDimLOD t) (dimX h) (dimY h) (dimZ h) in
  let keep := n =? lodCount h in
  let xs := if keep then lodDimX h else fresh_table n in
  let ys := if keep then lodDimY h else fresh_table n in
  let zs := if keep then lodDimZ h else fresh_table n in
  '(xs, ys, zs, cells) ← lod_loop (Z.to_nat n) 0 (dimX h) (dimY h) (dimZ h) xs ys zs 0;
  let cells := if faces h then cells *u64 6 else cells in
  '(xs, ys, cells) ← yuv_planes (dimYuv h) xs ys cells;
  Ok (mkType (t_mDimLOD t) (t_mElement t) cells
        (mkTypeHal (t_mElement t) (dimX h) (dimY h) (dimZ h) xs ys zs n (dimYuv h) (faces h))).

Definition TypeHal_zero : TypeHal := mkTypeHal None 0 0 0 [] [] [] 0 0 false.
Definition Type_new : Type_ := mkType false None 0 TypeHal_zero.

(** ** The cache *)

Definition type_match (t : Type_) (e : option id) (dx dy dz : Z) (dimLOD dimFaces : bool) (yuv : Z) : bool :=
  let h := t_mHal t in
  bool_decide (t_mElement t = e) && (dimX h =? dx) && (dimY h =? dy) && (dimZ h =? dz) &&
  eqb (t_mDimLOD t) dimLOD && eqb (faces h) dimFaces && (dimYuv h =? yuv).

Fixpoint find_type (c : ctx) (p : Type_ -> bool) (l : list id) : outcome (option id) :=
  match l with
  | [] => Ok None
  | x :: r => t ← as_type c x; if p t then Ok (Some x) else find_type c p r
  end.

Definition push_type (c : ctx) (x : id) : ctx :=
  with_caches c (with_types (caches c) (mTypes (caches c) ++ [x])).

Definition getTypeRef (c : ctx) (e : option id) (dx dy dz : Z) (dimLOD dimFaces : bool) (yuv : Z)
    : outcome (id * ctx) :=
  m ← find_type c (fun t => type_match t e dx dy dz dimLOD dimFaces yuv) (mTypes (caches c));
  match m with
  | Some t => c ← incSysRef c t; Ok (t, c)
  | None =>
      '(x, c) ← new_obj c (BType Type_new);
      c ← incSysRef c x;
      '(_, c) ← ref_set c None e;
      t ← compute (mkType dimLOD e 0 (mkTypeHal None dx dy dz [] [] [] 0 yuv dimFaces));
      c ← upd c x (fun o => set_body o (BType t));
      Ok (x, push_type c x)
  end.

Definition getType (c : ctx) (e : option id) (dx dy dz : Z) (dimLOD dimFaces : bool) (yuv : Z)
    : outcome (id * ctx) :=
  to_user (getTypeRef c e dx dy dz dimLOD dimFaces yuv).

Definition cloneAndResize1D (c : ctx) (this : id) (dx : Z) : outcome (id * ctx) :=
  t ← as_type c this;
  let h := t_mHal t in
  getTypeRef c (t_mElement t) dx (dimY h) (dimZ h) (t_mDimLOD t) (faces h) (dimYuv h).

Definition cloneAndResize2D (c : ctx) (this : id) (dx dy : Z) : outcome (id * ctx) :=
  t ← as_type c this;
  let h := t_mHal t in
  getTypeRef c (t_mElement t) dx dy (dimZ h) (t_mDimLOD t) (faces h) (dimYuv h).

(** ** Accessors *)

Definition getElementSizeBytes (c : ctx) (t : Type_) : outcome Z :=
  x ← of_option NullDeref (t_mElement t); e ← as_element c x; getSizeBytes (as_element c) e.

Definition getPackedSizeBytes (c : ctx) (t : Type_) : outcome Z :=
  sz ← getElementSizeBytes c t; Ok (t_mCellCount t *u64 sz).

Definition np2 (x : Z) : bool := negb (x =? 0) && negb (Z.land x (x -u32 1) =? 0).
Definition getIsNp2 (t : Type_) : bool :=
  let h := t_mHal t in np2 (dimX h) || np2 (dimY h) || np2 (dimZ h).

(** ** Serialisation *)

Definition serialize (c : ctx) (x : id) (s : OStream) : outcome OStream :=
  o ← deref c x;
  t ← as_type c x;
  let h := t_mHal t in
  s ← addU32 RS_A3D_CLASS_ID_TYPE s;
  nm ← of_option NullDeref (mName o);
  s ← addString nm s;
  e ← of_option NullDeref (t_mElement t);
  s ← Element.serialize c e s;
  s ← addU32 (dimX h) s;
  s ← addU32 (dimY h) s;
  s ← addU32 (dimZ h) s;
  s ← addU8 (if lodCount h =? 0 then 0 else 1) s;
  addU8 (if faces h then 1 else 0) s.

Definition createFromStream (c : ctx) (i : IStream) : outcome (option id * ctx * IStream) :=
  '(classID, i) ← loadU32 i;
  if negb (classID =? RS_A3D_CLASS_ID_TYPE) then Ok (None, c, i)
  else
    '(name, i) ← loadString i;
    '(elem, c, i) ← Element.createFromStream c i;
    match elem with
    | None => Ok (None, c, i)
    | Some elem =>
        '(x, i) ← loadU32 i;
        '(y, i) ← loadU32 i;
        '(z, i) ← loadU32 i;
        '(lod, i) ← loadU8 i;
        '(fcs, i) ← loadU8 i;
        '(t, c) ← getType c (Some elem) x y z (negb (lod =? 0)) (negb (fcs =? 0)) 0;
        '(_, c) ← decUserRef c elem;
        Ok (Some t, c, i)
    end.

(** ** References inside the cells of an allocation *)

Fixpoint walk_cells (walk : ctx -> Z -> outcome ctx) (stride : Z) (ct : nat) (c : ctx) (p : Z) : outcome ctx :=
  match ct with
  | O => Ok c
  | S n => c ← walk c p; walk_cells walk stride n c (p + stride)
  end.

Definition incRefs (mem : Z -> outcome (option id)) (c : ctx) (t : Type_) (p : Z) (ct startOff : Z) : outcome ctx :=
  x ← of_option NullDeref (t_element (t_mHal t));
  e ← as_element c x;
  sz ← getSizeBytes (as_element c) e;
  let stride := u32 sz in
  walk_cells (fun c q => Element.incRefs mem c x q) stride (Z.to_nat ct) c (p + stride * startOff).

Definition decRefs (mem : Z -> outcome (option id)) (c : ctx) (t : Type_) (p : Z) (ct startOff : Z) : outcome ctx :=
  x ← of_option NullDeref (t_element (t_mHal t));
  e ← as_element c x;
  if negb (e_mHasReference e) then Ok c
  else
    sz ← getSizeBytes (as_element c) e;
    let stride := u32 sz in
    walk_cells (fun c q => Element.decRefs mem c x q) stride (Z.to_nat ct) c (p + stride * startOff).

(** ** Entry points *)

Definition rsi_TypeCreate (c : ctx) (e : option id) (dx dy dz : Z) (mipmaps dimFaces : bool) (yuv : Z) : outcome (id * ctx) :=
  getType c e dx dy dz mipmaps dimFaces yuv.

(** The six words of [rsaTypeGetNativeData]; the element gets a user reference. *)
Definition rsaTypeGetNativeData (c : ctx) (x : id) : outcome (list Z * option id * ctx) :=
  t ← as_type c x;
  let h := t_mHal t in
  e ← of_option NullDeref (t_mElement t);
  c ← incUserRef c e;
  Ok ([dimX h; dimY h; dimZ h; (if t_mDimLOD t then 1 else 0); (if faces h then 1 else 0)], Some e, c).

(** ** The mipmap table *)

(** The size of a dimension at a level: halved, but never below 1; 0 is a missing
    dimension. *)
Definition lod_dim (d : Z) (i : nat) : Z := if d =? 0 then 0 else Z.max 1 (d / 2 ^ Z.of_nat i).

Lemma lod_dim_0 d : 0 <= d -> lod_dim d 0 = d.
Proof. intros. unfold lod_dim. rewrite Z.div_1_r. destruct (Z.eqb_spec d 0); lia. Qed.

Lemma halve_lod_dim d i : 0 <= d -> halve (lod_dim d i) = lod_dim d (S i).
Proof.
  intros Hd. unfold halve, lod_dim. destruct (Z.eqb_spec d 0); [done|].
  replace (2 ^ Z.of_nat (S i)) with (2 ^ Z.of_nat i * 2) by (rewrite Nat2Z.inj_succ, Z.pow_succ_r by lia; lia).
  pose proof (Z.pow_pos_nonneg 2 (Z.of_nat i) ltac:(lia) ltac:(lia)). rewrite <- Z.div_div by lia.
  set (q := d / 2 ^ Z.of_nat i). assert (0 <= q) by (apply Z.div_pos; lia).
  destruct (Z.gtb_spec (Z.max 1 q) 1).
  - rewrite Z.shiftr_div_pow2 by lia. change (2 ^ 1) with 2. replace (Z.max 1 q) with q by lia.
    assert (1 <= q / 2) by (apply Z.div_le_lower_bound; lia). lia.
  - assert (q / 2 <= 0) by (assert (q / 2 < 1); [apply Z.div_lt_upper_bound; lia|lia]). lia.
Qed.

(** The cells of one level. *)
Definition lod_cells (dx dy dz : Z) (i : nat) : Z :=
  lod_dim dx i * Z.max (lod_dim dy i) 1 * Z.max (lod_dim dz i) 1.

Lemma zset_spec (l : list Z) i x :
  0 <= i < zlen l -> zset l i x = Ok (<[Z.to_nat i := x]> l) /\ zlen (<[Z.to_nat i := x]> l) = zlen l.
Proof. intros Hi. unfold zset, zlen in *. rewrite decide_True by lia. by rewrite length_insert. Qed.

(** What the loop does to one of the three tables. *)
Definition filled (d : Z) (k n : nat) (l : list Z) : list Z :=
  foldl (fun l i => <[i := lod_dim d i]> l) l (seq k n).

Lemma filled_length d n : forall k l, length (filled d k n l) = length l.
Proof. induction n as [|n IH]; intros k l; cbn; [done|]. unfold filled in IH. by rewrite IH, length_insert. Qed.

Lemma filled_lookup d n : forall k l j, (k + n <= length l)%nat ->
  filled d k n l !! j = if decide (k <= j < k + n)%nat then Some (lod_dim d j) else l !! j.
Proof.
  induction n as [|n IH]; intros k l j Hl; cbn; [by rewrite decide_False by lia|].
  unfold filled in IH. rewrite IH by (rewrite length_insert; lia).
  destruct (decide (S k <= j < S k + n)%nat), (decide (k <= j < k + S n)%nat); try lia; try done.
  - assert (j = k) as -> by lia. apply list_lookup_insert_eq. lia.
  - apply list_lookup_insert_ne. lia.
Qed.

Lemma filled_again d n l : (n <= length l)%nat -> filled d 0 n (filled d 0 n l) = filled d 0 n l.
Proof.
  intros Hl. apply list_eq. intros j. rewrite filled_lookup by (rewrite filled_length; lia).
  rewrite filled_lookup by lia. by case_decide.
Qed.

Definition level_cells (dx dy dz : Z) (i : nat) : Z :=
  (lod_dim dx i *u32 rsMax (lod_dim dy i) 1) *u32 rsMax (lod_dim dz i) 1.
Definition add_cells (dx dy dz : Z) (k n : nat) (cells : Z) : Z :=
  foldl (fun s i => s +u64 level_cells dx dy dz i) cells (seq k n).

Lemma lod_loop_spec dx dy dz n : 0 <= dx -> 0 <= dy -> 0 <= dz -> forall k xs ys zs cells,
  (k + n <= length xs)%nat -> (k + n <= length ys)%nat -> (k + n <= length zs)%nat ->
  lod_loop n (Z.of_nat k) (lod_dim dx k) (lod_dim dy k) (lod_dim dz k) xs ys zs cells =
    Ok (filled dx k n xs, filled dy k n ys, filled dz k n zs, add_cells dx dy dz k n cells).
Proof.
  intros Hx Hy Hz. induction n as [|n IH]; intros k xs ys zs cells Lx Ly Lz; [done|]. cbn [lod_loop].
  destruct (zset_spec xs (Z.of_nat k) (lod_dim dx k)) as [-> _]; [unfold zlen; lia|]. cbn [mbind outcome_bind].
  destruct (zset_spec ys (Z.of_nat k) (lod_dim dy k)) as [-> _]; [unfold zlen; lia|]. cbn [mbind outcome_bind].
  destruct (zset_spec zs (Z.of_nat k) (lod_dim dz k)) as [-> _]; [unfold zlen; lia|]. cbn [mbind outcome_bind].
  rewrite !halve_lod_dim, !Nat2Z.id by done. replace (Z.of_nat k + 1) with (Z.of_nat (S k)) by lia.
  rewrite IH by (rewrite length_insert; lia). done.
Qed.

Lemma lod_count_range b dx dy dz : 0 <= dx < 2 ^ 32 -> 0 <= dy < 2 ^ 32 -> 0 <= dz < 2 ^ 32 ->
  1 <= lod_count b dx dy dz <= 32.
Proof.
  intros Hx Hy Hz. unfold lod_count. destruct b; [|lia]. rewrite !rsFindHighBit_log2 by lia.
  assert (Hl : forall d, 0 <= d < 2 ^ 32 -> 0 <= Z.log2 d < 32).
  { intros d Hd. split; [apply Z.log2_nonneg|]. destruct (decide (d = 0)) as [->|]; [done|]. apply Z.log2_lt_pow2; lia. }
  pose proof (Hl _ Hx). pose proof (Hl _ Hy). pose proof (Hl _ Hz).
  rewrite !rsMax_spec, !u32_small by lia. lia.
Qed.

(** The result of [compute] for a type that is not YUV. *)
Definition laid_out (dimLOD : bool) (e : option id) (dx dy dz : Z) (dimFaces : bool) (xs ys zs : list Z) : Type_ :=
  let n := Z.to_nat (lod_count dimLOD dx dy dz) in
  let cells := add_cells dx dy dz 0 n 0 in
  mkType dimLOD e (if dimFaces then cells *u64 6 else cells)
    (mkTypeHal e dx dy dz (filled dx 0 n xs) (filled dy 0 n ys) (filled dz 0 n zs) (Z.of_nat n) 0 dimFaces).

Definition dims_ok (t : Type_) : Prop :=
  let h := t_mHal t in 0 <= dimX h < 2 ^ 32 /\ 0 <= dimY h < 2 ^ 32 /\ 0 <= dimZ h < 2 ^ 32.

Lemma fresh_table_length n : length (fresh_table n) = Z.to_nat n.
Proof. apply length_replicate. Qed.

Lemma compute_fresh t :
  dims_ok t -> dimYuv (t_mHal t) = 0 -> lodCount (t_mHal t) = 0 ->
  let h := t_mHal t in
  let n := lod_count (t_mDimLOD t) (dimX h) (dimY h) (dimZ h) in
  compute t = Ok (laid_out (t_mDimLOD t) (t_mElement t) (dimX h) (dimY h) (dimZ h) (faces h)
                    (fresh_table n) (fresh_table n) (fresh_table n)).
Proof.
  intros (Hx & Hy & Hz) Hyuv Hold h n. unfold compute. fold h in Hx, Hy, Hz, Hyuv, Hold |- *.
  assert (1 <= n <= 32) as Hn by by apply lod_count_range. fold n.
  destruct (Z.eqb_spec n (lodCount h)) as [E|_]; [lia|].
  pose proof (lod_loop_spec (dimX h) (dimY h) (dimZ h) (Z.to_nat n) ltac:(lia) ltac:(lia) ltac:(lia) 0%nat
    (fresh_table n) (fresh_table n) (fresh_table n) 0) as Hl.
  rewrite !lod_dim_0 in Hl by lia. change (Z.of_nat 0) with 0 in Hl. rewrite Hl by (rewrite fresh_table_length; lia).
  cbn [mbind outcome_bind]. unfold yuv_planes. rewrite Hyuv. cbn [Z.eqb mbind outcome_bind].
  unfold laid_out. fold n. by rewrite Z2Nat.id by lia.
Qed.

Lemma type_compute_again t t' : dims_ok t -> dimYuv (t_mHal t) = 0 -> lodCount (t_mHal t) = 0 ->
  compute t = Ok t' -> compute t' = Ok t'.
Proof.
  intros Hd Hyuv Hold E. rewrite compute_fresh in E by done. injection E as <-.
  destruct Hd as (Hx & Hy & Hz). set (h := t_mHal t) in *.
  pose proof (lod_count_range (t_mDimLOD t) _ _ _ Hx Hy Hz) as Hn. set (n := lod_count (t_mDimLOD t) (dimX h) (dimY h) (dimZ h)) in *.
  unfold compute, laid_out. cbn. fold n. rewrite Z2Nat.id, Z.eqb_refl by lia.
  pose proof (lod_loop_spec (dimX h) (dimY h) (dimZ h) (Z.to_nat n) ltac:(lia) ltac:(lia) ltac:(lia) 0%nat) as Hl.
  rewrite !lod_dim_0 in Hl by lia. change (Z.of_nat 0) with 0 in Hl.
  rewrite Hl by (rewrite filled_length, fresh_table_length; lia). cbn [mbind outcome_bind].
  by rewrite !filled_again by (rewrite fresh_table_length; lia).
Qed.

Lemma filled_full d n l : length l = n -> filled d 0 n l = lod_dim d <$> seq 0 n.
Proof.
  intros Hl. apply list_eq. intros j. rewrite filled_lookup by lia. rewrite list_lookup_fmap.
  case_decide; [by rewrite lookup_seq_lt by lia|]. rewrite lookup_seq_ge by lia. apply lookup_ge_None_2. lia.
Qed.

(** ** The invariant of the types of a context *)

Definition type_key (t : Type_) :=
  let h := t_mHal t in (t_mElement t, dimX h, dimY h, dimZ h, t_mDimLOD t, faces h, dimYuv h).

Record type_inv (m : gmap id obody) (g : state_caches) : Prop := {
  ti_nodup : NoDup (mTypes g);
  ti_cached : forall x, x ∈ mTypes g <-> exists t, m !! x = Some (BType t);
  ti_elem : forall x t, m !! x = Some (BType t) -> exists y e, t_mElement t = Some y /\ m !! y = Some (BElement e);
  ti_layout : forall x t, m !! x = Some (BType t) ->
    dims_ok t /\ dimYuv (t_mHal t) = 0 /\ 1 <= lodCount (t_mHal t) /\
    exists t0, type_key t0 = type_key t /\ lodCount (t_mHal t0) = 0 /\ compute t0 = Ok t;
  ti_unique : forall x y t t', m !! x = Some (BType t) -> m !! y = Some (BType t') -> type_key t = type_key t' -> x = y
}.

Definition is_type (b : obody) : bool := match b with BType _ => true | _ => false end.

Lemma types_cached (m : gmap id obody) g :
  (forall x, x ∈ mTypes g <-> exists t, m !! x = Some (BType t)) <->
  (forall x, x ∈ mTypes g <-> exists b, m !! x = Some b /\ is_type b = true).
Proof.
  apply forall_proper. intros x. split; intros ->; split.
  - intros [e He]. eauto.
  - intros ([|t|] & Hb & ?); naive_solver.
  - intros ([|t|] & Hb & ?); naive_solver.
  - intros [e He]. eauto.
Qed.

#[global] Instance type_inv_stable : Stable type_inv.
Proof.
  intros m g m' g' [Hnd Hc He Hl Hu] Hr Hcl. rewrite types_cached in Hc.
  destruct (sheds_cached mTypes is_type _ _ _ _ ltac:(by intros ? [] ?) Hr Hnd Hc) as (Hsub & Hnd' & Hc').
  rewrite <- types_cached in Hc'.
  assert (Hback : forall x b, m' !! x = Some b -> m !! x = Some b) by (intros; by eapply lookup_weaken).
  split; [done|done| |eauto|].
  - intros x t Hx. destruct (He _ _ (Hback _ _ Hx)) as (y & e & Hy & Hm). exists y, e. split; [done|].
    destruct (Hcl _ _ y Hx) as [b Hb]; [cbn; rewrite Hy; by left|]. rewrite Hb. rewrite <- Hm. symmetry. by apply Hback.
  - intros x y t t' Hx Hy. eauto.
Qed.

(** An object of another class, or an element, may be added. *)
Lemma type_inv_insert m g g' x b :
  type_inv m g -> m !! x = None -> is_type b = false -> mTypes g' = mTypes g -> type_inv (<[x := b]> m) g'.
Proof.
  intros [Hnd Hc He Hl Hu] Hx Hb Hg.
  assert (Hback : forall y t, <[x := b]> m !! y = Some (BType t) -> m !! y = Some (BType t)).
  { intros y t. rewrite lookup_insert. case_decide; [intros; simplify_eq; done|done]. }
  split; [by rewrite Hg| | |eauto|].
  - intros y. rewrite Hg, Hc. split; intros [t Ht]; exists t; [|by apply Hback].
    rewrite lookup_insert_ne; [done|congruence].
  - intros y t Hy. destruct (He _ _ (Hback _ _ Hy)) as (z & e & Hz & Hm). exists z, e. split; [done|].
    rewrite lookup_insert_ne; [done|congruence].
  - intros y z t t' Hy Hz. eauto.
Qed.

(** Likewise for elements when an object of another class is added. *)
Lemma elem_inv_insert m g g' x b :
  elem_inv m g -> m !! x = None -> is_element b = false -> mElements g' = mElements g -> elem_inv (<[x := b]> m) g'.
Proof.
  intros [Hnd Hc Hf Hcmp Hl Hs Hu] Hx Hb Hg.
  assert (Hback : forall y e, <[x := b]> m !! y = Some (BElement e) -> m !! y = Some (BElement e)).
  { intros y e. rewrite lookup_insert. case_decide; [intros; simplify_eq; done|done]. }
  assert (Hfwd : forall y b', m !! y = Some b' -> <[x := b]> m !! y = Some b').
  { intros y b' Hy. rewrite lookup_insert_ne; [done|congruence]. }
  assert (Hag : forall y e, m !! y = Some (BElement e) -> agree (look_in (<[x := b]> m)) (look_in m) (e_mFields e)).
  { intros y e Hy f z Hin Hz. destruct (Hf _ _ _ Hy Hin) as (z' & e2 & ? & _ & Hz2). simplify_eq.
    unfold look_in. by rewrite (Hfwd _ _ Hz2), Hz2. }
  split; [by rewrite Hg| | | | | |].
  - intros y. rewrite Hg, Hc. split; intros [e He]; eauto.
  - intros y e f Hy Hin. destruct (Hf _ _ _ (Hback _ _ Hy) Hin) as (z & e2 & Hz & Hlz & Hmz). eauto 10.
  - intros y e Hy. eapply Hcmp. eauto.
  - intros y e Hy. rewrite (compute_ext _ (look_in m)); [eauto|]. intros f z Hin Hz. split; [by eapply Hag; eauto|].
    destruct (Hf _ _ _ (Hback _ _ Hy) Hin) as (z' & e2 & ? & _ & Hmz). simplify_eq. intros s' Hs'.
    apply look_in_Ok in Hs'. rewrite (Hfwd _ _ Hmz) in Hs'. simplify_eq. by eapply Hag.
  - intros y e Hy. eauto.
  - intros y z e e' Hy Hz. eauto.
Qed.

(** What a further component's invariant has to satisfy. *)
Class TypeFrame (J : gmap id obody -> state_caches -> Prop) := {
  tframe_element :: ElementFrame J;
  tframe_push m g x t : J m g -> m !! x = None ->
    J (<[x := BType t]> m) (with_types g (mTypes g ++ [x]))
}.

#[global] Instance tframe_True : TypeFrame (fun _ _ => True).
Proof. split; [apply _|done]. Qed.

Definition TI (J : gmap id obody -> state_caches -> Prop) (m : gmap id obody) (g : state_caches) : Prop :=
  type_inv m g /\ J m g.

#[global] Instance TI_frame J `{!TypeFrame J} : ElementFrame (TI J).
Proof.
  split.
  - intros m g m' g' [Ht Hj] Hr Hc. split; by eapply stable.
  - intros m g x e [Ht Hj] Hx. split; [by eapply type_inv_insert|by apply frame_push].
Qed.

Lemma type_inv_push m g x t0 t y e :
  type_inv m g -> m !! x = None -> compute t0 = Ok t -> dims_ok t0 -> dimYuv (t_mHal t0) = 0 -> lodCount (t_mHal t0) = 0 ->
  t_mElement t0 = Some y -> m !! y = Some (BElement e) ->
  (forall z t', m !! z = Some (BType t') -> type_key t' <> type_key t0) ->
  type_inv (<[x := BType t]> m) (with_types g (mTypes g ++ [x])) /\ type_key t = type_key t0.
Proof.
  intros [Hnd Hc He Hl Hu] Hx Ht Hd Hyuv Hlc Hel Hy Hnew.
  assert (Hk : type_key t = type_key t0 /\ dims_ok t /\ dimYuv (t_mHal t) = 0 /\ 1 <= lodCount (t_mHal t)).
  { rewrite compute_fresh in Ht by done. injection Ht as <-. unfold type_key, laid_out. cbn. rewrite Hyuv.
    destruct Hd as (Hx0 & Hy0 & Hz0). pose proof (lod_count_range (t_mDimLOD t0) _ _ _ Hx0 Hy0 Hz0). split_and!; try done; lia. }
  destruct Hk as (Hk & Hdt & Hyt & Hlt). split; [|done]. split; cbn.
  - apply NoDup_app. split_and!; [done| |apply NoDup_singleton].
    intros z Hz ->%list_elem_of_singleton. apply Hc in Hz as [? ?]. congruence.
  - intros z. rewrite elem_of_app, list_elem_of_singleton, Hc, lookup_insert.
    destruct (decide (x = z)) as [->|]; split; [eauto|by right|intros [?|?]; [done|congruence]|by left].
  - intros z t' Hz. rewrite lookup_insert in Hz. destruct (decide (x = z)) as [<-|].
    + simplify_eq. exists y, e. split; [unfold type_key in Hk; congruence|]. rewrite lookup_insert_ne; [done|congruence].
    + destruct (He _ _ Hz) as (w & e' & Hw & Hm). exists w, e'. split; [done|]. rewrite lookup_insert_ne; [done|congruence].
  - intros z t' Hz. rewrite lookup_insert in Hz. destruct (decide (x = z)) as [<-|]; [|eauto].
    injection Hz as <-. split_and!; [done|done|done|]. exists t0. done.
  - intros z w t1 t2 Hz Hw Hkk. rewrite lookup_insert in Hz, Hw.
    destruct (decide (x = z)) as [<-|], (decide (x = w)) as [<-|]; [done| | |by eapply Hu].
    + injection Hz as <-. destruct (Hnew w t2); [done|congruence].
    + injection Hw as <-. destruct (Hnew z t1); [done|congruence].
Qed.

(** ** What [getTypeRef] guarantees *)

Lemma as_type_Ok c x t : as_type c x = Ok t <-> bodies c !! x = Some (BType t).
Proof.
  unfold as_type, deref, bodies. rewrite lookup_fmap. destruct (objs c !! x) as [o|]; cbn; [|done].
  destruct (body o); naive_solver.
Qed.

Lemma find_type_spec c p l :
  (forall x, x ∈ l -> exists t, bodies c !! x = Some (BType t)) ->
  exists o, find_type c p l = Ok o /\
    match o with
    | Some x => exists t, bodies c !! x = Some (BType t) /\ p t = true
    | None => forall x t, x ∈ l -> bodies c !! x = Some (BType t) -> p t = false
    end.
Proof.
  induction l as [|x l IH]; intros Hl; cbn.
  - exists None. split; [done|]. intros x e Hx. by apply elem_of_nil in Hx.
  - destruct (Hl x) as [t Ht]; [by left|]. rewrite (proj2 (as_type_Ok _ _ _) Ht). cbn.
    destruct (p t) eqn:Ep; [exists (Some x); eauto|].
    destruct IH as (o & -> & Ho); [intros; apply Hl; by right|]. exists o. split; [done|].
    destruct o as [y|]; [done|]. intros y t' [->|Hy]%elem_of_cons ?; [congruence|eauto].
Qed.

Lemma type_match_spec t e dx dy dz l f yuv :
  type_match t e dx dy dz l f yuv = true <-> type_key t = (e, dx, dy, dz, l, f, yuv).
Proof.
  unfold type_match, type_key. rewrite !andb_true_iff, bool_decide_eq_true, !eqb_true_iff, !Z.eqb_eq. naive_solver.
Qed.

Section types.
Context {J : gmap id obody -> state_caches -> Prop} `{!TypeFrame J}.

Lemma push_type_W ext ext' us n c x t0 t m g y e :
  W (is_shape (<[x := BType Type_new]> m) g) ext us n c ->
  EI (TI J) m g -> m !! x = None -> compute t0 = Ok t -> dims_ok t0 -> dimYuv (t_mHal t0) = 0 -> lodCount (t_mHal t0) = 0 ->
  t_mElement t0 = Some y -> m !! y = Some (BElement e) ->
  (forall z t', m !! z = Some (BType t') -> type_key t' <> type_key t0) ->
  (forall z, occ z [y] + occ z ext' = occ z ext)%nat ->
  exists c', (c ← upd c x (fun o => set_body o (BType t)); Ok (x, push_type c x)) = Ok (x, c') /\
    W (EI (TI J)) ext' us n c' /\ m ⊆ bodies c' /\ bodies c' !! x = Some (BType t) /\ type_key t = type_key t0.
Proof.
  intros HW (He & Ht & Hj) Hx Hc Hd Hyuv Hlc Hel Hy Hnew Hocc.
  destruct (type_inv_push _ _ x t0 t y e Ht Hx Hc Hd Hyuv Hlc Hel Hy Hnew) as [Hti Hk].
  destruct (W_setbody _ _ ext ext' us n c x _ (BType t) HW (lookup_insert_eq _ _ _)) as (c1 & -> & HW1 & _).
  { intros z. cbn. assert (t_mElement t = Some y) as -> by (unfold type_key in Hk; congruence). cbn. by rewrite <- Hocc. }
  cbn [mbind outcome_bind]. eexists. split; [done|]. rewrite insert_insert_eq in HW1.
  pose proof (w_shape _ _ _ _ _ HW1) as [Eb Ec].
  assert (W (EI (TI J)) ext' us n (push_type c1 x)).
  { unfold push_type. rewrite Ec. eapply W_of_shape; [by eapply W_caches|].
    split; [by eapply elem_inv_insert|]. split; [done|by apply tframe_push]. }
  split_and!; [done|..|done]; change (bodies (push_type c1 x)) with (bodies c1); rewrite Eb.
  - by apply insert_subseteq.
  - by rewrite lookup_insert_eq.
Qed.

Lemma getTypeRef_W ext us n c y e dx dy dz l f :
  0 <= n -> n + 2 < 2 ^ 31 -> 0 <= dx < 2 ^ 32 -> 0 <= dy < 2 ^ 32 -> 0 <= dz < 2 ^ 32 ->
  bodies c !! y = Some (BElement e) -> W (EI (TI J)) ext us (n + 2) c ->
  exists x c' t, getTypeRef c (Some y) dx dy dz l f 0 = Ok (x, c') /\ W (EI (TI J)) (x :: ext) us n c' /\
    bodies c ⊆ bodies c' /\ bodies c' !! x = Some (BType t) /\ type_key t = (Some y, dx, dy, dz, l, f, 0).
Proof.
  intros Hn Hmax Hx Hy Hz He HW. unfold getTypeRef.
  destruct (w_shape _ _ _ _ _ HW) as (Hei & Hti & Hj).
  destruct (find_type_spec c (fun t => type_match t (Some y) dx dy dz l f 0) (mTypes (caches c))) as (o & -> & Ho).
  { intros x Hin. by apply (ti_cached _ _ Hti). }
  cbn [mbind outcome_bind]. destruct o as [x|].
  { destruct Ho as (t & Ht & Hm%type_match_spec). apply (W_weaken _ _ _ (n + 1)) in HW; [|lia].
    destruct (W_incSys _ _ n _ _ _ Hn HW Ht) as (c' & -> & HW' & [Eb _]%shape_bodies & _).
    exists x, c', t. rewrite Eb. done. }
  apply W_shape in HW.
  destruct (W_new _ _ _ _ (n + 2) _ (BType Type_new) ltac:(lia) HW eq_refl) as (c1 & -> & HW1 & Hfresh & _).
  cbn [mbind outcome_bind]. pose proof (w_shape _ _ _ _ _ HW1) as [Eb1 _]. replace (n + 2) with (n + 1 + 1) in HW1 by lia.
  destruct (W_incSys _ _ (n + 1) _ (nextId c) (BType Type_new) ltac:(lia) HW1) as (c2 & -> & HW2 & [Eb2 _]%shape_bodies & _).
  { by rewrite Eb1, lookup_insert_eq. }
  cbn [mbind outcome_bind]. rewrite ref_set_None.
  destruct (W_incSys _ _ n _ y (BElement e) Hn HW2) as (c3 & -> & HW3 & _).
  { rewrite Eb2, Eb1, lookup_insert_ne; [done|congruence]. }
  cbn [mbind outcome_bind]. set (t0 := mkType l (Some y) 0 (mkTypeHal None dx dy dz [] [] [] 0 0 f)).
  rewrite (compute_fresh t0) by done. cbn [mbind outcome_bind].
  edestruct (push_type_W (y :: nextId c :: ext) (nextId c :: ext) us n c3 (nextId c) t0) as (c' & -> & HW' & Hsub & Hb & Hk);
    [exact HW3|done|done|by apply compute_fresh|done|done|done|done|exact He| | |].
  { intros z t' Hzt Hk. assert (type_match t' (Some y) dx dy dz l f 0 = true) as Hm by by apply type_match_spec.
    rewrite (Ho z t') in Hm; [done|by apply (ti_cached _ _ Hti); eauto|done]. }
  { intros z. rewrite (occ_cons z y []), (occ_cons z y (_ :: _)), occ_nil. lia. }
  eexists (nextId c), c', _. split_and!; done.
Qed.

End types.

(** ** Cells *)

Lemma lod_dim_range d i : 0 <= d -> 0 <= lod_dim d i <= d.
Proof.
  intros Hd. unfold lod_dim. destruct (Z.eqb_spec d 0); [lia|].
  pose proof (Z.pow_pos_nonneg 2 (Z.of_nat i) ltac:(lia) ltac:(lia)).
  assert (0 <= d / 2 ^ Z.of_nat i <= d); [|lia].
  split; [apply Z.div_pos; lia|]. apply Z.div_le_upper_bound; nia.
Qed.

Lemma lod_cells_range dx dy dz i : 0 <= dx -> 0 <= dy -> 0 <= dz ->
  0 <= lod_cells dx dy dz i <= dx * Z.max dy 1 * Z.max dz 1.
Proof.
  intros Hx Hy Hz. unfold lod_cells. pose proof (lod_dim_range dx i Hx). pose proof (lod_dim_range dy i Hy).
  pose proof (lod_dim_range dz i Hz). split; [repeat apply Z.mul_nonneg_nonneg; lia|].
  apply Z.mul_le_mono_nonneg; [apply Z.mul_nonneg_nonneg; lia| |lia|lia]. apply Z.mul_le_mono_nonneg; lia.
Qed.

Lemma level_cells_small dx dy dz i : 0 <= dx -> 0 <= dy -> 0 <= dz ->
  dx * Z.max dy 1 * Z.max dz 1 < 2 ^ 32 -> level_cells dx dy dz i = lod_cells dx dy dz i.
Proof.
  intros Hx Hy Hz Hmax. unfold level_cells. rewrite !rsMax_spec. pose proof (lod_cells_range dx dy dz i Hx Hy Hz) as Hr.
  unfold lod_cells in *. set (a := lod_dim dx i * Z.max (lod_dim dy i) 1) in *.
  pose proof (lod_dim_range dx i Hx). pose proof (lod_dim_range dy i Hy). pose proof (lod_dim_range dz i Hz).
  assert (0 <= a) by (apply Z.mul_nonneg_nonneg; lia).
  assert (a * 1 <= a * Z.max (lod_dim dz i) 1) by (apply Z.mul_le_mono_nonneg_l; lia).
  rewrite (u32_small a), u32_small by lia. done.
Qed.

(** [lod_cells] summed over the levels [k .. k + n - 1]. *)
Definition cells_from (dx dy dz : Z) (k n : nat) : Z := foldr (fun i s => lod_cells dx dy dz i + s) 0 (seq k n).

Lemma add_cells_sum dx dy dz n : 0 <= dx -> 0 <= dy -> 0 <= dz -> dx * Z.max dy 1 * Z.max dz 1 < 2 ^ 32 ->
  forall k s, 0 <= s -> s + Z.of_nat n * 2 ^ 32 < 2 ^ 64 -> add_cells dx dy dz k n s = s + cells_from dx dy dz k n.
Proof.
  intros Hx Hy Hz Hmax. induction n as [|n IH]; intros k s Hs Hb; [unfold add_cells, cells_from; cbn; lia|].
  unfold add_cells, cells_from in *. cbn [seq foldl foldr]. rewrite level_cells_small by done.
  pose proof (lod_cells_range dx dy dz k Hx Hy Hz). rewrite u64_small by lia. rewrite IH by lia. lia.
Qed.

Lemma cells_from_range dx dy dz n : forall k, 0 <= dx -> 0 <= dy -> 0 <= dz ->
  0 <= cells_from dx dy dz k n <= Z.of_nat n * (dx * Z.max dy 1 * Z.max dz 1).
Proof.
  induction n as [|n IH]; intros k Hx Hy Hz; [cbn; lia|]. unfold cells_from in *. cbn [seq foldr].
  pose proof (lod_cells_range dx dy dz k Hx Hy Hz). specialize (IH (S k) Hx Hy Hz). lia.
Qed.

(** In a mipmapped type the table ends with the level that is one cell. *)
Lemma last_level dx dy dz :
  0 <= dx < 2 ^ 32 -> 0 <= dy < 2 ^ 32 -> 0 <= dz < 2 ^ 32 ->
  let n := Z.to_nat (lod_count true dx dy dz) in
  lod_dim dx (pred n) <= 1 /\ lod_dim dy (pred n) <= 1 /\ lod_dim dz (pred n) <= 1.
Proof.
  intros Hx Hy Hz n. pose proof (lod_count_range true _ _ _ Hx Hy Hz) as Hn.
  assert (Hl : forall d, 0 <= d < 2 ^ 32 -> Z.log2 d + 1 <= lod_count true dx dy dz -> lod_dim d (pred n) <= 1).
  { intros d Hd Hle. unfold lod_dim. destruct (Z.eqb_spec d 0); [lia|].
    assert (d / 2 ^ Z.of_nat (pred n) <= 1); [|lia].
    assert (d / 2 ^ Z.of_nat (pred n) < 2); [|lia]. pose proof (Z.log2_spec d ltac:(lia)) as [_ Hlt].
    pose proof (Z.pow_pos_nonneg 2 (Z.of_nat (pred n)) ltac:(lia) ltac:(lia)).
    apply Z.div_lt_upper_bound; [lia|]. rewrite Z.mul_comm, <- Z.pow_succ_r by lia.
    eapply Z.lt_le_trans; [exact Hlt|]. apply Z.pow_le_mono_r; lia. }
  assert (Hlog : forall d, 0 <= d < 2 ^ 32 -> 0 <= Z.log2 d < 32).
  { intros d Hd. split; [apply Z.log2_nonneg|]. destruct (decide (d = 0)) as [->|]; [done|]. apply Z.log2_lt_pow2; lia. }
  pose proof (Hlog _ Hx). pose proof (Hlog _ Hy). pose proof (Hlog _ Hz).
  split_and!; apply Hl; try lia; unfold lod_count; rewrite !rsFindHighBit_log2, !rsMax_spec, !u32_small by lia; lia.
Qed.

Lemma W_type_layout (J : gmap id obody -> state_caches -> Prop) ext us n c x t :
  W (EI (TI J)) ext us n c -> bodies c !! x = Some (BType t) ->
  let h := t_mHal t in
  dims_ok t /\ dimYuv h = 0 /\ exists xs ys zs,
    t = laid_out (t_mDimLOD t) (t_mElement t) (dimX h) (dimY h) (dimZ h) (faces h) xs ys zs /\
    let k := Z.to_nat (lod_count (t_mDimLOD t) (dimX h) (dimY h) (dimZ h)) in
    length xs = k /\ length ys = k /\ length zs = k.
Proof.
  intros HW Hx h. destruct (w_shape _ _ _ _ _ HW) as (_ & Hti & _).
  destruct (ti_layout _ _ Hti _ _ Hx) as (Hd & Hyuv & _ & t0 & Hk & Hlc & Hc).
  split; [done|]. split; [done|]. unfold type_key in Hk. injection Hk as Ee E1 E2 E3 El Ef Ey.
  assert (dims_ok t0) as Hd0 by (unfold dims_ok in *; by rewrite E1, E2, E3).
  rewrite compute_fresh in Hc; [|done|by rewrite Ey|done]. injection Hc as Hc. rewrite E1, E2, E3, Ee, El, Ef in Hc.
  eexists _, _, _. split; [symmetry; exact Hc|]. cbn. rewrite fresh_table_length. done.
Qed.

Lemma W_type_tables (J : gmap id obody -> state_caches -> Prop) ext us n c x t :
  W (EI (TI J)) ext us n c -> bodies c !! x = Some (BType t) ->
  let h := t_mHal t in let k := Z.to_nat (lodCount h) in
  dims_ok t /\ dimYuv h = 0 /\ lodCount h = lod_count (t_mDimLOD t) (dimX h) (dimY h) (dimZ h) /\ 1 <= lodCount h <= 32 /\
  lodDimX h = (lod_dim (dimX h)) <$> seq 0 k /\ lodDimY h = (lod_dim (dimY h)) <$> seq 0 k /\
  lodDimZ h = (lod_dim (dimZ h)) <$> seq 0 k.
Proof.
  intros HW Hx h k. destruct (W_type_layout J _ _ _ _ _ _ HW Hx) as (Hd & Hyuv & xs & ys & zs & Et & Hlx & Hly & Hlz).
  fold h in Hd, Hyuv, Et, Hlx, Hly, Hlz. pose proof Hd as (Hdx & Hdy & Hdz). fold h in Hdx, Hdy, Hdz.
  pose proof (lod_count_range (t_mDimLOD t) _ _ _ Hdx Hdy Hdz) as Hn.
  assert (Ek : lodCount h = lod_count (t_mDimLOD t) (dimX h) (dimY h) (dimZ h)).
  { unfold h at 1. rewrite Et. cbn. lia. }
  unfold k. rewrite Ek. split_and!; try done; try lia; unfold h at 1; rewrite Et; cbn; by apply filled_full.
Qed.

(** ** Reading a type back *)

Lemma codec_type_head {A} C nm n enc (dec : IStream -> outcome (A * IStream)) a :
  16 <= C -> 0 <= n -> name_ok C nm -> codec C n enc dec a ->
  codec C (22 + C + n)
    (fun s => s ← addU32 RS_A3D_CLASS_ID_TYPE s; s ← addString nm s; enc s)
    (fun i => '(classID, i) ← loadU32 i;
              if negb (classID =? RS_A3D_CLASS_ID_TYPE) then Fault BadCast else '(name, i) ← loadString i; dec i) a.
Proof.
  intros HC Hn (Hl & Hl32 & Hnz) Henc. pose proof (zlen_nonneg nm).
  pose proof (codec_U32 C RS_A3D_CLASS_ID_TYPE HC ltac:(done)) as H1. pose proof (codec_string C nm HC Hl Hl32 Hnz) as H2.
  eapply (codec_weaken _ (11 + ((11 + zlen nm) + n))); [lia|].
  eapply codec_bind; [lia|exact H1|]. cbv beta. change (RS_A3D_CLASS_ID_TYPE =? RS_A3D_CLASS_ID_TYPE) with true. cbn [negb].
  eapply codec_bind; [lia|exact H2|exact Henc].
Qed.

(** The dimensions and the two flags. *)
Lemma codec_type_tail C dx dy dz l f :
  16 <= C -> 0 <= dx < 2 ^ 32 -> 0 <= dy < 2 ^ 32 -> 0 <= dz < 2 ^ 32 -> 0 <= l < 2 ^ 8 -> 0 <= f < 2 ^ 8 ->
  codec C 49
    (fun s => s ← addU32 dx s; s ← addU32 dy s; s ← addU32 dz s; s ← addU8 l s; addU8 f s)
    (fun i => '(x, i) ← loadU32 i; '(y, i) ← loadU32 i; '(z, i) ← loadU32 i; '(lod, i) ← loadU8 i;
              '(fcs, i) ← loadU8 i; Ok ((x, y, z, lod, fcs), i)) (dx, dy, dz, l, f).
Proof.
  intros HC Hx Hy Hz Hl Hf.
  pose proof (codec_U32 C dx HC Hx) as H1. pose proof (codec_U32 C dy HC Hy) as H2. pose proof (codec_U32 C dz HC Hz) as H3.
  pose proof (codec_U8 C l HC Hl) as H4. pose proof (codec_U8 C f HC Hf) as H5.
  eapply (codec_weaken _ (11 + (11 + (11 + (8 + 8))))); [lia|].
  eapply codec_bind; [lia|exact H1|]. eapply codec_bind; [lia|exact H2|]. eapply codec_bind; [lia|exact H3|].
  eapply codec_bind; [lia|exact H4|]. cbv beta. eapply (codec_map _ _ _ _ f (fun g => (dx, dy, dz, l, g))). exact H5.
Qed.

Section reading.
Context {J : gmap id obody -> state_caches -> Prop} `{!TypeFrame J}.

(** [getType] on an element just read, then the drop of its user reference. *)
Lemma getType_read ext us n d y et dx dy dz l f :
  0 <= n -> n + 3 < 2 ^ 31 -> 0 <= dx < 2 ^ 32 -> 0 <= dy < 2 ^ 32 -> 0 <= dz < 2 ^ 32 ->
  W (EI (TI J)) ext (y :: us) (n + 3) d -> denotes (bodies d) y et ->
  exists x d' t b, ('(t, c) ← getType d (Some y) dx dy dz l f 0; '(_, c) ← decUserRef c y; Ok (t, c)) = Ok (x, d') /\
    (exists c1, getType d (Some y) dx dy dz l f 0 = Ok (x, c1) /\ decUserRef c1 y = Ok (b, d')) /\
    W (EI (TI J)) ext (x :: us) n d' /\ bodies d' !! x = Some (BType t) /\
    type_key t = (Some y, dx, dy, dz, l, f, 0) /\ denotes (bodies d') y et.
Proof.
  intros Hn Hmax Hx Hy Hz HW Hd. assert (exists e, bodies d !! y = Some (BElement e)) as [e He].
  { destruct et; destruct Hd as (e & He & _); eauto. }
  unfold getType. replace (n + 3) with (n + 1 + 2) in HW by lia.
  destruct (getTypeRef_W ext (y :: us) (n + 1) d y e dx dy dz l f) as (x & c1 & t & -> & HW1 & Hsub & Ht & Hk); [lia..|done|done|].
  destruct (to_user_W _ _ _ _ _ _ Hn HW1 Ht) as (c2 & -> & HW2 & [Eb2 _]%shape_bodies). cbn [mbind outcome_bind].
  assert (W (EI (TI J)) ext (y :: x :: us) n c2) as HW2'.
  { eapply W_ext; [done| |exact HW2]. intros z. rewrite !occ_cons. lia. }
  destruct (W_decUser _ _ _ _ _ HW2') as (b & d' & E & HW' & Hsh & _). rewrite E. cbn [mbind outcome_bind].
  apply sheds_sub in Hsh. cbn in Hsh. rewrite Eb2 in Hsh.
  destruct (W_user_live _ _ _ _ _ x HW') as [bx Hbx]; [by left|].
  pose proof (lookup_weaken _ _ _ _ Hbx Hsh) as Hbx'. simplify_eq.
  exists x, d', t, b. split_and!; try done; [by eauto|].
  eapply denotes_shrink; [exact Hsh|by eapply obj_inv_closed, (w_obj _ _ _ _ _ HW')| |by apply (denotes_mono (bodies d))].
  eapply (obj_inv_closed _ _ (w_obj _ _ _ _ _ HW') _ _ y Hbx). cbn. unfold type_key in Hk. injection Hk as -> _. by left.
Qed.

(** What [Type::serialize] writes, in the order it writes it. *)
Lemma serialize_split c x o t y nm s :
  objs c !! x = Some o -> body o = BType t -> mName o = Some nm -> t_mElement t = Some y ->
  serialize c x s =
    s1 ← (s ← addU32 RS_A3D_CLASS_ID_TYPE s; s ← addString nm s; Ok s);
    s2 ← Element.serialize c y s1;
    let h := t_mHal t in
    s ← addU32 (dimX h) s2; s ← addU32 (dimY h) s; s ← addU32 (dimZ h) s;
    s ← addU8 (if lodCount h =? 0 then 0 else 1) s; addU8 (if faces h then 1 else 0) s.
Proof.
  intros Ho Hb Hn Hy. unfold serialize, as_type, deref. rewrite Ho. cbn [of_option mbind outcome_bind]. rewrite Hb. cbn [mbind outcome_bind].
  rewrite Hn, Hy. destruct (addU32 _ s) as [s1|]; [|done]. cbn [of_option mbind outcome_bind].
  destruct (addString nm s1) as [s2|]; done.
Qed.

(** The type record is read back after the element it follows. *)
Lemma createFromStream_split d i i1 i2 i3 y d1 dx dy dz l f x d2 b d' :
  ('(classID, i) ← loadU32 i;
   if negb (classID =? RS_A3D_CLASS_ID_TYPE) then Fault BadCast else '(name, i) ← loadString i; Ok (tt, i)) = Ok (tt, i1) ->
  Element.createFromStream d i1 = Ok (Some y, d1, i2) ->
  ('(x, i) ← loadU32 i2; '(y, i) ← loadU32 i; '(z, i) ← loadU32 i; '(lod, i) ← loadU8 i;
   '(fcs, i) ← loadU8 i; Ok ((x, y, z, lod, fcs), i)) = Ok ((dx, dy, dz, l, f), i3) ->
  getType d1 (Some y) dx dy dz (negb (l =? 0)) (negb (f =? 0)) 0 = Ok (x, d2) -> decUserRef d2 y = Ok (b, d') ->
  createFromStream d i = Ok (Some x, d', i3).
Proof.
  intros E1 E2 E3 E4 E5. unfold createFromStream.
  destruct (loadU32 i) as [[cl j]|]; [|done]. cbn [mbind outcome_bind] in *.
  destruct (negb _); [done|]. destruct (loadString j) as [[nm' j']|]; [|done]. cbn [mbind outcome_bind] in *. simplify_eq.
  rewrite E2. cbn [mbind outcome_bind].
  destruct (loadU32 i2) as [[a1 j1]|]; [|done]. cbn [mbind outcome_bind] in *.
  destruct (loadU32 j1) as [[a2 j2]|]; [|done]. cbn [mbind outcome_bind] in *.
  destruct (loadU32 j2) as [[a3 j3]|]; [|done]. cbn [mbind outcome_bind] in *.
  destruct (loadU8 j3) as [[a4 j4]|]; [|done]. cbn [mbind outcome_bind] in *.
  destruct (loadU8 j4) as [[a5 j5]|]; [|done]. cbn [mbind outcome_bind] in *. simplify_eq.
  rewrite E4. cbn [mbind outcome_bind]. by rewrite E5.
Qed.

(** Writing extends the stream, and reading back, in any consistent context, finds the element
    and the dimensions. *)
Lemma type_reload C c x t y et s extc usc nc :
  16 <= C -> W (EI (TI J)) extc usc nc c -> names_ok C c -> bodies c !! x = Some (BType t) -> t_mElement t = Some y ->
  denotes (bodies c) y et -> tree_ok C et -> ostream_wf C s -> o_mPos s + 71 + C + tsize C et <= 2 ^ 32 ->
  exists s', serialize c x s = Ok s' /\ ostream_wf C s' /\ extends s s' /\ o_mPos s < o_mPos s' <= o_mPos s + (71 + C + tsize C et) /\
    forall bytes d ext us n, refines s' bytes -> zlen bytes < 2 ^ 63 -> 0 <= n -> n + 3 + cost et < 2 ^ 31 ->
      W (EI (TI J)) ext us (n + 3 + cost et) d ->
      exists x' y' d' t', createFromStream d (mkIStream bytes (o_mPos s) (o_mUse64 s)) =
          Ok (Some x', d', mkIStream bytes (o_mPos s') (o_mUse64 s)) /\
        W (EI (TI J)) ext (x' :: us) n d' /\ bodies d' !! x' = Some (BType t') /\ denotes (bodies d') y' et /\
        type_key t' = (Some y', dimX (t_mHal t), dimY (t_mHal t), dimZ (t_mHal t), true, faces (t_mHal t), 0).
Proof.
  intros HC HW Hnm Ht Hy Hd Hok Hwf Hroom. destruct (w_shape _ _ _ _ _ HW) as (Hei & Hti & _).
  pose proof Ht as Ho. unfold bodies in Ho. rewrite lookup_fmap in Ho. apply fmap_Some in Ho as (o & Ho & Hb). symmetry in Hb.
  destruct (Hnm _ _ Ho) as (nm & Hn & Hnok). destruct (ti_layout _ _ Hti _ _ Ht) as ((Hx & Hyy & Hz) & _ & Hlc & _).
  destruct (codec_type_head C nm 0 Ok (fun i => Ok (tt, i)) tt HC ltac:(lia) Hnok (codec_ret C tt) s Hwf) as (s1 & E1 & Hwf1 & Hx1 & Hp1 & Hd1).
  { pose proof (tsize_pos C et ltac:(lia)). lia. }
  destruct (createFromStream_Ok (TI J) C c y et s1) as (s2 & E2 & Hwf2 & Hx2 & Hp2 & Hd2); try done; [lia|].
  destruct (codec_type_tail C (dimX (t_mHal t)) (dimY (t_mHal t)) (dimZ (t_mHal t)) (if lodCount (t_mHal t) =? 0 then 0 else 1)
    (if faces (t_mHal t) then 1 else 0) HC Hx Hyy Hz) with s2 as (s3 & E3 & Hwf3 & Hx3 & Hp3 & Hd3); try done; try lia.
  { by destruct (_ =? _). } { by destruct (faces _). }
  exists s3. split; [rewrite (serialize_split c x o t y nm s Ho Hb Hn Hy), E1; cbn [mbind outcome_bind]; by rewrite E2|].
  split; [done|]. split; [etrans; [exact Hx1|]; by etrans|].
  split; [pose proof (ext_pos _ _ Hx1); pose proof (ext_pos _ _ Hx3); lia|].
  intros bytes d ext us n Hbytes Hlen Hn0 Hmax HWd. specialize (Hd3 bytes Hbytes).
  pose proof (refines_extends _ _ _ Hx3 Hbytes) as Hb2. pose proof (refines_extends _ _ _ Hx2 Hb2) as Hb1. specialize (Hd1 bytes Hb1).
  destruct (Hd2 bytes d ext us (n + 3) Hb2 Hlen ltac:(lia) Hmax HWd) as (y' & d1 & Ey & HW1 & Hdy & _).
  destruct (getType_read ext us n d1 y' et (dimX (t_mHal t)) (dimY (t_mHal t)) (dimZ (t_mHal t)) true (faces (t_mHal t)))
    as (x' & d' & t' & b & _ & (c1 & Eg & Eb) & HW' & Ht' & Hk & Hdy'); try done; [pose proof (cost_pos et); lia|].
  exists x', y', d', t'. split_and!; try done.
  rewrite (ext_use64 _ _ Hx2) in Hd3. rewrite (ext_use64 _ _ Hx1) in Hd3, Ey.
  eapply createFromStream_split; [exact Hd1|exact Ey|exact Hd3| |exact Eb].
  rewrite <- Eg. by destruct (Z.eqb_spec (lodCount (t_mHal t)) 0); [lia|]; destruct (faces _).
Qed.

(** C8: reading back what [Type::serialize] wrote, in any consistent context, gives a
    type of the same element, the same dimensions and the same faces flag.  The
    level-of-detail flag is not preserved: the writer stores [lodCount ? 1 : 0], every
    type has at least one level, and so each type is read back as mipmapped. *)
Theorem type_roundtrip C c x t y et s extc usc nc :
  16 <= C -> W (EI (TI J)) extc usc nc c -> names_ok C c -> bodies c !! x = Some (BType t) -> t_mElement t = Some y ->
  denotes (bodies c) y et -> tree_ok C et -> ostream_wf C s -> o_mPos s + 71 + C + tsize C et <= 2 ^ 32 ->
  exists s', serialize c x s = Ok s' /\
    forall bytes d ext us n, refines s' bytes -> zlen bytes < 2 ^ 63 -> 0 <= n -> n + 3 + cost et < 2 ^ 31 ->
      W (EI (TI J)) ext us (n + 3 + cost et) d ->
      exists x' y' d' t', createFromStream d (mkIStream bytes (o_mPos s) (o_mUse64 s)) =
          Ok (Some x', d', mkIStream bytes (o_mPos s') (o_mUse64 s)) /\
        W (EI (TI J)) ext (x' :: us) n d' /\ bodies d' !! x' = Some (BType t') /\ denotes (bodies d') y' et /\
        type_key t' = (Some y', dimX (t_mHal t), dimY (t_mHal t), dimZ (t_mHal t), true, faces (t_mHal t), 0).
Proof.
  intros HC HW Hnm Ht Hy Hd Hok Hwf Hroom. destruct (type_reload C c x t y et s extc usc nc) as (s' & E & _ & _ & _ & Hr); try done. by exists s'.
Qed.

End reading.

(** C4: types are shared: asking twice for the same element, dimensions and flags
    returns the same object, however many types and elements the context holds. *)
Theorem getTypeRef_canonical (J : gmap id obody -> state_caches -> Prop) `{!TypeFrame J} ext us n c y e dx dy dz l f :
  0 <= n -> n + 4 < 2 ^ 31 -> 0 <= dx < 2 ^ 32 -> 0 <= dy < 2 ^ 32 -> 0 <= dz < 2 ^ 32 ->
  bodies c !! y = Some (BElement e) -> W (EI (TI J)) ext us (n + 4) c ->
  exists x c1 c2, getTypeRef c (Some y) dx dy dz l f 0 = Ok (x, c1) /\ getTypeRef c1 (Some y) dx dy dz l f 0 = Ok (x, c2) /\
    W (EI (TI J)) (x :: x :: ext) us n c2.
Proof.
  intros Hn Hn4 Hx Hy Hz He HW. replace (n + 4) with (n + 2 + 2) in HW by lia.
  destruct (getTypeRef_W ext us (n + 2) c y e dx dy dz l f) as (x & c1 & t & E1 & HW1 & Hsub1 & Ht & Hk); [lia..|done|done|].
  destruct (getTypeRef_W (x :: ext) us n c1 y e dx dy dz l f) as (x' & c2 & t' & E2 & HW2 & Hsub & Ht' & Hk');
    [lia..|by eapply lookup_weaken|done|].
  assert (x' = x) as ->; [|by eauto 10]. destruct (w_shape _ _ _ _ _ HW2) as (_ & Hti & _).
  eapply (ti_unique _ _ Hti _ _ t' t); [done|by eapply lookup_weaken|congruence].
Qed.


Lemma compute_yuv_faults t :
  dims_ok t -> dimYuv (t_mHal t) <> 0 -> lodCount (t_mHal t) = 0 ->
  lod_count (t_mDimLOD t) (dimX (t_mHal t)) (dimY (t_mHal t)) (dimZ (t_mHal t)) < 3 -> compute t = Fault OutOfBounds.
Proof.
  intros (Hx & Hy & Hz) Hyuv Hold. set (h := t_mHal t) in *. intros Hn3. unfold compute. fold h.
  pose proof (lod_count_range (t_mDimLOD t) _ _ _ Hx Hy Hz) as Hn.
  set (n := lod_count (t_mDimLOD t) (dimX h) (dimY h) (dimZ h)) in *.
  destruct (Z.eqb_spec n (lodCount h)) as [E|_]; [lia|].
  pose proof (lod_loop_spec (dimX h) (dimY h) (dimZ h) (Z.to_nat n) ltac:(lia) ltac:(lia) ltac:(lia) 0%nat
    (fresh_table n) (fresh_table n) (fresh_table n) 0) as Hl.
  rewrite !lod_dim_0 in Hl by lia. change (Z.of_nat 0) with 0 in Hl. rewrite Hl by (rewrite fresh_table_length; lia).
  cbn [mbind outcome_bind]. set (xs := filled (dimX h) _ _ _). set (ys := filled (dimY h) _ _ _).
  assert (length xs = Z.to_nat n /\ length ys = Z.to_nat n) as [Lx Ly].
  { unfold xs, ys. by rewrite !filled_length, !fresh_table_length. }
  clearbody xs ys. unfold yuv_planes. destruct (Z.eqb_spec (dimYuv h) 0); [done|].
  assert (n = 1 \/ n = 2) as [E|E] by lia; rewrite E in Lx, Ly.
  - destruct xs as [|? [|]]; done.
  - destruct xs as [|? [|? [|]]]; try done. destruct ys as [|? [|? [|]]]; done.
Qed.

(** creating a YUV type overflows the level tables: [compute] stores the two
    chroma planes as levels 1 and 2, but the tables were allocated with [lodCount]
    entries, which is 1 unless the type is mipmapped with at least three levels. *)
Theorem yuv_type_overflow (J : gmap id obody -> state_caches -> Prop) `{!TypeFrame J} ext us n c y e dx dy dz l f yuv :
  0 <= n -> n + 2 < 2 ^ 31 -> 0 <= dx < 2 ^ 32 -> 0 <= dy < 2 ^ 32 -> 0 <= dz < 2 ^ 32 ->
  bodies c !! y = Some (BElement e) -> W (EI (TI J)) ext us (n + 2) c ->
  yuv <> 0 -> lod_count l dx dy dz < 3 -> rsi_TypeCreate c (Some y) dx dy dz l f yuv = Fault OutOfBounds.
Proof.
  intros Hn Hmax Hx Hy Hz He HW Hyuv Hl. unfold rsi_TypeCreate, getType, getTypeRef.
  destruct (w_shape _ _ _ _ _ HW) as (_ & Hti & _).
  destruct (find_type_spec c (fun t => type_match t (Some y) dx dy dz l f yuv) (mTypes (caches c))) as (o & -> & Ho).
  { intros x Hin. by apply (ti_cached _ _ Hti). }
  cbn [mbind outcome_bind]. destruct o as [x|].
  { destruct Ho as (t & Ht & Hm%type_match_spec). destruct (ti_layout _ _ Hti _ _ Ht) as (_ & Hy0 & _).
    exfalso. apply Hyuv. unfold type_key in Hm. congruence. }
  apply W_shape in HW.
  destruct (W_new _ _ _ _ (n + 2) _ (BType Type_new) ltac:(lia) HW eq_refl) as (c1 & -> & HW1 & Hfresh & _).
  cbn [mbind outcome_bind]. pose proof (w_shape _ _ _ _ _ HW1) as [Eb1 _]. replace (n + 2) with (n + 1 + 1) in HW1 by lia.
  destruct (W_incSys _ _ (n + 1) _ (nextId c) (BType Type_new) ltac:(lia) HW1) as (c2 & -> & HW2 & [Eb2 _]%shape_bodies & _).
  { by rewrite Eb1, lookup_insert_eq. }
  cbn [mbind outcome_bind]. rewrite ref_set_None.
  destruct (W_incSys _ _ n _ y (BElement e) Hn HW2) as (c3 & -> & HW3 & _).
  { rewrite Eb2, Eb1, lookup_insert_ne; [done|congruence]. }
  cbn [mbind outcome_bind]. by rewrite compute_yuv_faults.
Qed.

Definition Element_of (c : ctx) (x : id) : Element :=
  match as_element c x with Ok e => e | Fault _ => Element_new end.

(** *** Examples: a mipmapped 20x7 type of the vector of [ex_leaf] *)

Abbreviation plain_types := (EI (TI (fun _ _ => True))).

Lemma plain_types_init n : 0 <= n -> W plain_types [] [] n no_objects.
Proof.
  intros Hn. apply W_init; [done|]. split; [|done]. split; try (intros *; by rewrite lookup_empty); [constructor|].
  intros x. rewrite elem_of_nil. split; [done|]. intros (t & Ht). by rewrite lookup_empty in Ht.
Qed.

Lemma ex_leaf_types_W : W plain_types [1%positive] [] 900 ex_leaf.
Proof.
  edestruct (createRef_W (J := TI (fun _ _ => True)) [] [] 900 no_objects Component.RS_TYPE_FLOAT_32 Component.RS_KIND_USER false 3)
    as (x & c' & e & E & HW & _); [lia..|reflexivity|by apply plain_types_init|].
  unfold ex_leaf. rewrite E. cbn. assert (x = 1%positive) as -> by (vm_compute in E; congruence). done.
Qed.

Definition ex_mip : ctx := ctx_of (getTypeRef ex_leaf (Some 1%positive) 20 7 0 true false 0).

Lemma ex_mip_W : W plain_types [2%positive; 1%positive] [] 800 ex_mip.
Proof.
  destruct (getTypeRef_W (J := fun _ _ => True) [1%positive] [] 800 ex_leaf 1%positive (Element_of ex_leaf 1%positive) 20 7 0 true false)
    as (x & c' & t & E & HW & _); [lia..|vm_compute; reflexivity|eapply W_weaken; [|apply ex_leaf_types_W]; lia|].
  unfold ex_mip. rewrite E. cbn. assert (x = 2%positive) as -> by (vm_compute in E; congruence). done.
Qed.

Definition Type_of (c : ctx) (x : id) : Type_ := match as_type c x with Ok t => t | Fault _ => Type_new end.

Definition ex_mip_named : ctx :=
  of_outcome (c ← assignName ex_mip 1%positive (Some [118]); assignName c 2%positive (Some [116])).

Lemma ex_mip_named_W : W plain_types [2%positive; 1%positive] [] 800 ex_mip_named.
Proof.
  assert (exists b1 b2, bodies ex_mip !! 1%positive = Some b1 /\ bodies ex_mip !! 2%positive = Some b2) as (b1 & b2 & Hb1 & Hb2).
  { eexists _, _. split; vm_compute; reflexivity. }
  destruct (W_assignName _ _ _ _ _ _ (Some [118]) ex_mip_W Hb1) as (c1 & o1 & E1 & HW1 & [Es1 _]%shape_bodies & _).
  rewrite <- Es1 in Hb2.
  destruct (W_assignName _ _ _ _ _ _ (Some [116]) HW1 Hb2) as (c2 & o2 & E2 & HW2 & _).
  unfold ex_mip_named. rewrite E1. cbn [mbind outcome_bind]. by rewrite E2.
Qed.

Lemma ex_mip_named_names : names_ok 64 ex_mip_named.
Proof.
  intros x o Hx. assert (x = 1%positive \/ x = 2%positive) as Hor.
  { assert (x ∈ dom (objs ex_mip_named)) as Hd by (apply elem_of_dom; eauto).
    assert (dom (objs ex_mip_named) = {[1%positive; 2%positive]}) as E by (vm_compute; reflexivity).
    by rewrite E, elem_of_union, !elem_of_singleton in Hd. }
  destruct Hor as [->| ->]; vm_compute in Hx; injection Hx as <-;
    (eexists; split; [reflexivity|]; split_and!; [vm_compute; congruence|vm_compute; reflexivity|by repeat constructor]).
Qed.

Definition ex_vec : etree := TLeaf Component.RS_TYPE_FLOAT_32 Component.RS_KIND_USER false 3.

Lemma type_roundtrip_witness :
  exists s', serialize ex_mip_named 2%positive ex_out = Ok s' /\
    forall bytes d ext us n, refines s' bytes -> zlen bytes < 2 ^ 63 -> 0 <= n -> n + 3 + cost ex_vec < 2 ^ 31 ->
      W plain_types ext us (n + 3 + cost ex_vec) d ->
      exists x' y' d' t', createFromStream d (mkIStream bytes (o_mPos ex_out) (o_mUse64 ex_out)) =
          Ok (Some x', d', mkIStream bytes (o_mPos s') (o_mUse64 ex_out)) /\
        W plain_types ext (x' :: us) n d' /\ bodies d' !! x' = Some (BType t') /\ denotes (bodies d') y' ex_vec /\
        type_key t' = (Some y', dimX (t_mHal (Type_of ex_mip_named 2%positive)), dimY (t_mHal (Type_of ex_mip_named 2%positive)),
                       dimZ (t_mHal (Type_of ex_mip_named 2%positive)), true, faces (t_mHal (Type_of ex_mip_named 2%positive)), 0).
Proof.
  apply (type_roundtrip (J := fun _ _ => True) 64 ex_mip_named 2%positive (Type_of ex_mip_named 2%positive) 1%positive ex_vec ex_out
           [2%positive; 1%positive] [] 800);
    [lia|apply ex_mip_named_W|apply ex_mip_named_names|vm_compute; reflexivity|vm_compute; reflexivity| | |apply ex_out_wf
    |vm_compute; congruence].
  - eexists. split; [vm_compute; reflexivity|done].
  - split_and!; try done; split; (lia || done).
Defined.

Lemma getTypeRef_canonical_witness :
  exists x c1 c2, getTypeRef ex_leaf (Some 1%positive) 640 480 0 true false 0 = Ok (x, c1) /\
    getTypeRef c1 (Some 1%positive) 640 480 0 true false 0 = Ok (x, c2) /\
    W plain_types (x :: x :: [1%positive]) [] 800 c2.
Proof.
  apply (getTypeRef_canonical (fun _ _ => True) [1%positive] [] 800 ex_leaf 1%positive (Element_of ex_leaf 1%positive));
    [lia..|vm_compute; reflexivity|]. eapply W_weaken; [|apply ex_leaf_types_W]. lia.
Defined.


Lemma yuv_type_overflow_witness :
  rsi_TypeCreate ex_leaf (Some 1%positive) 640 480 0 false false HAL_PIXEL_FORMAT_YCrCb_420_SP = Fault OutOfBounds.
Proof.
  apply (yuv_type_overflow (fun _ _ => True) [1%positive] [] 800 ex_leaf 1%positive (Element_of ex_leaf 1%positive));
    [lia..|vm_compute; reflexivity| |done|vm_compute; reflexivity].
  eapply W_weaken; [|apply ex_leaf_types_W]. lia.
Defined.

End RsType.
