(* ===== verification/FileA3D.v ===== *)
(** * FileA3D: files of objects

    [rsFileA3D.h] and [rsFileA3D.cpp].  Objects are appended to a stream and described by an
    index; a file is a magic string, the index and the stream.  Loading reads the index, and an
    entry becomes an object when it is asked for.  Elements and types are the objects of
    [Element] and [RsType]; the readers and writers of the other classes are arguments. *)

From S2P Require Import Prelude CppUtils Stream Component ObjectBase Objects Element ElementStream RsType.
Import CppUtils Stream ObjectBase Objects Element ElementStream RsType.

#[local] Set Warnings "-register-all".

Module FileA3D.

Definition RS_A3D_CLASS_ID_UNKNOWN : Z := 0.
Definition RS_A3D_CLASS_ID_MESH : Z := 1.
Definition RS_A3D_CLASS_ID_ALLOCATION : Z := 4.

(** [A3D_MAGIC_KEY], "Android3D_ff". *)
Definition A3D_MAGIC_KEY : list Z := [65; 110; 100; 114; 111; 105; 100; 51; 68; 95; 102; 102].

Record A3DIndexEntry := mkEntry { mObjectName : cstr; mType : Z; mOffset : Z; mLength : Z; mRsObj : option id }.

Record FileA3D := mkFile {
  mMajorVersion : Z;
  mMinorVersion : Z;
  mUse64BitOffsets : bool;
  mData : option (list Z);
  mDataSize : Z;
  mWriteStream : option OStream;
  mWriteIndex : list A3DIndexEntry;
  mReadStream : option IStream;
  mIndex : list A3DIndexEntry
}.

(** [mUse64BitOffsets] is not initialised: it holds any value. *)
Definition FileA3D_new (use64 : bool) : FileA3D := mkFile 0 1 use64 None 0 None [] None [].

(** ** Loading *)

Fixpoint load_entries (use64 : bool) (n : nat) (i : IStream) : outcome (list A3DIndexEntry * IStream) :=
  match n with
  | O => Ok ([], i)
  | S n =>
      '(name, i) ← loadString i;
      '(type, i) ← loadU32 i;
      '(offset, i) ← (if use64 then loadOffset i else loadU32 i);
      '(length, i) ← (if use64 then loadOffset i else loadU32 i);
      '(es, i) ← load_entries use64 n i;
      Ok (mkEntry name type offset length None :: es, i)
  end.

Definition parseHeader (f : FileA3D) (headerStream : IStream) : outcome FileA3D :=
  '(major, i) ← loadU32 headerStream;
  '(minor, i) ← loadU32 i;
  '(flags, i) ← loadU32 i;
  let use64 := negb (Z.land flags 1 =? 0) in
  '(numIndexEntries, i) ← loadU32 i;
  '(es, i) ← load_entries use64 (Z.to_nat numIndexEntries) i;
  Ok (mkFile major minor use64 (mData f) (mDataSize f) (mWriteStream f) (mWriteIndex f) (mReadStream f) (mIndex f ++ es)).

Definition set_size (f : FileA3D) (n : Z) : FileA3D :=
  mkFile (mMajorVersion f) (mMinorVersion f) (mUse64BitOffsets f) (mData f) n (mWriteStream f) (mWriteIndex f) (mReadStream f) (mIndex f).
Definition set_data (f : FileA3D) (d : list Z) (rs : option IStream) : FileA3D :=
  mkFile (mMajorVersion f) (mMinorVersion f) (mUse64BitOffsets f) (Some d) (mDataSize f) (mWriteStream f) (mWriteIndex f) rs (mIndex f).

(** [load(const void *data, size_t length)] *)
Definition load_memory (f : FileA3D) (data : list Z) : outcome (bool * FileA3D) :=
  if (zlen data <? 12) || negb (bool_decide (take 12 data = A3D_MAGIC_KEY)) then Ok (false, f)
  else
    let localData := drop 12 data in
    if zlen localData <? 8 then Ok (false, f)
    else
      let headerSize := le_val (take 8 localData) in
      let localData := drop 8 localData in
      if zlen localData <? headerSize then Ok (false, f)
      else
        f ← parseHeader f (IStream_new localData false);
        let localData := drop (Z.to_nat headerSize) localData in
        if zlen localData <? 8 then Ok (false, f)
        else
          let f := set_size f (le_val (take 8 localData)) in
          let localData := drop 8 localData in
          if zlen localData <? mDataSize f then Ok (false, f)
          else Ok (true, set_data f localData (Some (IStream_new localData (mUse64BitOffsets f)))).

(** [load(FILE *f)]: the header and the data are read into buffers of their own, which [malloc]
    may refuse. *)
Definition load_file (malloc_ok : Z -> bool) (f : FileA3D) (file : list Z) : outcome (bool * FileA3D) :=
  if negb (zlen (take 12 file) =? 12) || negb (bool_decide (take 12 file = A3D_MAGIC_KEY)) then Ok (false, f)
  else
    let file := drop 12 file in
    let headerSize := le_val (take 8 file) in
    if negb (zlen (take 8 file) =? 8) || (headerSize =? 0) then Ok (false, f)
    else if negb (malloc_ok headerSize) then Ok (false, f)
    else
      let file := drop 8 file in
      let headerData := take (Z.to_nat headerSize) file in
      if negb (zlen headerData =? headerSize) then Ok (false, f)
      else
        f ← parseHeader f (IStream_new headerData false);
        let file := drop (Z.to_nat headerSize) file in
        let f := set_size f (le_val (take 8 file)) in
        if negb (zlen (take 8 file) =? 8) || (mDataSize f =? 0) then Ok (false, f)
        else if negb (malloc_ok (mDataSize f)) then Ok (false, f)
        else
          let file := drop 8 file in
          let data := take (Z.to_nat (mDataSize f)) file in
          if negb (zlen data =? mDataSize f) then Ok (false, set_data f data (mReadStream f))
          else Ok (true, set_data f data (Some (IStream_new data (mUse64BitOffsets f)))).

Definition getNumIndexEntries (f : FileA3D) : Z := zlen (mIndex f).
Definition getIndexEntry (f : FileA3D) (index : Z) : option A3DIndexEntry :=
  if index <? zlen (mIndex f) then mIndex f !! Z.to_nat index else None.

Section objects.

(** [Mesh::createFromStream] and [Allocation::createFromStream], [serialize] and [getClassId] of
    the classes that [Objects] does not tell apart. *)
Context (createMesh createAllocation : ctx -> IStream -> outcome (option id * ctx * IStream)).
Context (serializeOther : ctx -> id -> OStream -> outcome OStream) (classOther : ctx -> id -> Z).

Definition set_entry (f : FileA3D) (k : nat) (i : IStream) (y : option id) : FileA3D :=
  mkFile (mMajorVersion f) (mMinorVersion f) (mUse64BitOffsets f) (mData f) (mDataSize f) (mWriteStream f) (mWriteIndex f) (Some i)
    (alter (fun e => mkEntry (mObjectName e) (mType e) (mOffset e) (mLength e) y) k (mIndex f)).

(** The classes without a reader leave [mRsObj] null. *)
Definition createEntry (type : Z) (c : ctx) (i : IStream) : outcome (option id * ctx * IStream) :=
  if type =? RS_A3D_CLASS_ID_MESH then createMesh c i
  else if type =? RS_A3D_CLASS_ID_TYPE then RsType.createFromStream c i
  else if type =? RS_A3D_CLASS_ID_ELEMENT then Element.createFromStream c i
  else if type =? RS_A3D_CLASS_ID_ALLOCATION then createAllocation c i
  else Ok (None, c, i).

Definition initializeFromEntry (c : ctx) (f : FileA3D) (index : Z) : outcome (option id * ctx * FileA3D) :=
  if index >=? zlen (mIndex f) then Ok (None, c, f)
  else
    entry ← of_option OutOfBounds (mIndex f !! Z.to_nat index);
    match mRsObj entry with
    | Some y => c ← incUserRef c y; Ok (Some y, c, f)
    | None =>
        rs ← of_option NullDeref (mReadStream f);
        let rs := i_reset (mOffset entry) rs in
        if mType entry =? RS_A3D_CLASS_ID_UNKNOWN then Ok (None, c, set_entry f (Z.to_nat index) rs None)
        else
          '(obj, c, rs) ← createEntry (mType entry) c rs;
          let f := set_entry f (Z.to_nat index) rs obj in
          match obj with
          | Some y => c ← incUserRef c y; Ok (Some y, c, f)
          | None => Ok (None, c, f)
          end
    end.

(** ** Writing *)

Definition getClassId (c : ctx) (x : id) : outcome Z :=
  o ← deref c x;
  Ok (match body o with BElement _ => RS_A3D_CLASS_ID_ELEMENT | BType _ => RS_A3D_CLASS_ID_TYPE | BOther _ => classOther c x end).

Definition serialize (c : ctx) (x : id) (s : OStream) : outcome OStream :=
  o ← deref c x;
  match body o with BElement _ => Element.serialize c x s | BType _ => RsType.serialize c x s | BOther _ => serializeOther c x s end.

Definition appendToFile (c : ctx) (obj : option id) (f : FileA3D) : outcome FileA3D :=
  match obj with
  | None => Ok f
  | Some x =>
      let ws := default (OStream_new (256 * 1024) false) (mWriteStream f) in
      o ← deref c x;
      name ← of_option NullDeref (mName o);
      type ← getClassId c x;
      let offset := o_mPos ws in
      ws ← serialize c x ws;
      let entry := mkEntry (cstr_of name) type offset (o_mPos ws -u64 offset) (Some x) in
      ws ← align 4 ws;
      Ok (mkFile (mMajorVersion f) (mMinorVersion f) (mUse64BitOffsets f) (mData f) (mDataSize f) (Some ws) (mWriteIndex f ++ [entry])
            (mReadStream f) (mIndex f))
  end.

Fixpoint write_entries (use64 : bool) (es : list A3DIndexEntry) (s : OStream) : outcome OStream :=
  match es with
  | [] => Ok s
  | e :: es =>
      s ← addString (mObjectName e) s;
      s ← addU32 (mType e) s;
      s ← (if use64 then addOffset (mOffset e) s else addU32 (u32 (mOffset e)) s);
      s ← (if use64 then addOffset (mLength e) s else addU32 (u32 (mLength e)) s);
      write_entries use64 es s
  end.

(** What [fwrite] takes from a stream: cells that were never written have any value. *)
Definition stream_cells (s : OStream) : outcome (list cell) := zread (o_mData s) 0 (o_mPos s).

(** The bytes that end up in the file, and the result. *)
Definition writeFile (fopen_ok fclose_ok : bool) (f : FileA3D) : outcome (bool * list cell) :=
  match mWriteStream f with
  | None => Ok (false, [])
  | Some ws =>
      if o_mPos ws =? 0 then Ok (false, [])
      else if negb fopen_ok then Ok (false, [])
      else
        let h := OStream_new (5 * 1024) false in
        h ← addU32 (mMajorVersion f) h;
        h ← addU32 (mMinorVersion f) h;
        h ← addU32 0 h;
        h ← addU32 (u32 (zlen (mWriteIndex f))) h;
        h ← write_entries (mUse64BitOffsets f) (mWriteIndex f) h;
        header ← stream_cells h;
        data ← stream_cells ws;
        Ok (fclose_ok, (Some <$> A3D_MAGIC_KEY) ++ le64 (o_mPos h) ++ header ++ le64 (o_mPos ws) ++ data)
  end.

(** ** The destructor

    The streams it deletes; the last test names the write stream where it means the read stream. *)
Inductive stream := SWrite | SRead.
#[export] Instance stream_eq_dec : EqDecision stream.
Proof. solve_decision. Defined.

Definition delete_stream (s : stream) (live : list stream) : outcome (list stream) :=
  if decide (s ∈ live) then Ok (filter (fun x => x <> s) live) else Fault UseAfterFree.

Definition FileA3D_dtor (f : FileA3D) : outcome (list stream) :=
  let live := (if mWriteStream f then [SWrite] else []) ++ (if mReadStream f then [SRead] else []) in
  live ← (if mWriteStream f then delete_stream SWrite live else Ok live);
  if mReadStream f then if mWriteStream f then delete_stream SWrite live else Ok live else Ok live.

(** ** Entry points *)

Definition rsaFileA3DGetEntryByIndex (c : ctx) (index : Z) (file : option FileA3D) : outcome (option id * ctx * option FileA3D) :=
  match file with
  | None => Ok (None, c, None)
  | Some f => '(obj, c, f) ← initializeFromEntry c f index; Ok (obj, c, Some f)
  end.

Definition rsaFileA3DGetNumIndexEntries (file : option FileA3D) : Z :=
  match file with Some f => getNumIndexEntries f | None => 0 end.

(** What is stored through [fileEntries], if anything. *)
Definition rsaFileA3DGetIndexEntries (numEntries : Z) (fileEntries_null : bool) (file : option FileA3D) : option (list (Z * cstr)) :=
  match file with
  | None => None
  | Some f =>
      if negb (getNumIndexEntries f =? numEntries) || (numEntries =? 0) || fileEntries_null then None
      else Some ((fun e => (mType e, mObjectName e)) <$> mIndex f)
  end.

(** The result of loading is ignored. *)
Definition rsaFileA3DCreateFromMemory (use64 : bool) (data : option (list Z)) : outcome (option FileA3D) :=
  match data with
  | None => Ok None
  | Some d => '(_, f) ← load_memory (FileA3D_new use64) d; Ok (Some f)
  end.

Definition rsaFileA3DCreateFromFile (malloc_ok : Z -> bool) (use64 : bool) (file : option (list Z)) : outcome (option FileA3D) :=
  match file with
  | None => Ok None
  | Some d => '(_, f) ← load_file malloc_ok (FileA3D_new use64) d; Ok (Some f)
  end.

(** ** The streams *)

Lemma align4_Ok C s : ostream_wf C s -> 16 <= C -> o_mPos s + 3 < 2 ^ 32 ->
  exists s', align 4 s = Ok s' /\ ostream_wf C s' /\ extends s s' /\ o_mPos s' <= o_mPos s + 3.
Proof.
  intros Hwf HC Hp. pose proof (wf_pos _ _ Hwf) as Hp0. pose proof (wf_capacity _ _ Hwf) as Hcap. pose proof (wf_length _ _ Hwf) as Hl.
  unfold align. change 4 with (2 ^ 2). rewrite align_mask_roundup by lia. change (2 ^ 2) with 4. pose proof (roundup_bounds 4 (o_mPos s) ltac:(lia)) as Hr.
  cbv zeta. unfold grow_if. cbn [o_set_pos o_mPos o_mLength]. destruct (Z.geb_spec (roundup 4 (o_mPos s)) (o_mLength s)).
  - destruct (growSize_Ok (o_set_pos s (roundup 4 (o_mPos s)))) as (s' & E & El & Ez & Ep & Eu & Ed); [done|cbn; lia|]. cbn in *. exists s'. split; [done|]. split; [split; lia|]. split; [|lia].
    split; [lia|done|]. intros j Hj. apply Ed. lia.
  - eexists. split; [done|]. split; [split; cbn; lia|]. split; [split; [cbn; lia|done|done]|cbn; lia].
Qed.

Lemma u32_addU32_use64 v s s' : addU32 v s = Ok s' -> o_mUse64 s' = o_mUse64 s.
Proof.
  unfold addU32, grow_if. cbv zeta. intros E. apply bind_Ok in E as (s1 & E1 & E). assert (o_mUse64 s1 = o_mUse64 s) as <-.
  { destruct (_ >=? _); [|by injection E1 as <-]. unfold growSize in E1. apply bind_Ok in E1 as (? & _ & E1). apply bind_Ok in E1 as (? & _ & E1). by injection E1 as <-. }
  unfold o_put in E. apply bind_Ok in E as (? & _ & E). by injection E as <-.
Qed.

Lemma addString_use64 str s s' : addString str s = Ok s' -> o_mUse64 s' = o_mUse64 s.
Proof.
  unfold addString, addString_len, grow_if. intros E. apply bind_Ok in E as (s1 & E1 & E). rewrite <- (u32_addU32_use64 _ _ _ E1). apply bind_Ok in E as (s2 & E2 & E). assert (o_mUse64 s2 = o_mUse64 s1) as <-.
  { destruct (_ >=? _); [|by injection E2 as <-]. unfold growSize in E2. apply bind_Ok in E2 as (? & _ & E2). apply bind_Ok in E2 as (? & _ & E2). by injection E2 as <-. }
  apply bind_Ok in E as (? & _ & E). unfold o_put in E. apply bind_Ok in E as (? & _ & E). by injection E as <-.
Qed.

Lemma addOffset_32 v s : o_mUse64 s = false -> addOffset v s = addU32 v s.
Proof. unfold addOffset. by intros ->. Qed.

(** On the header stream offsets have 32 bits whatever the uninitialised flag says. *)
Lemma write_entries_use64 use64 es s : o_mUse64 s = false -> Forall (fun e => 0 <= mOffset e < 2 ^ 32 /\ 0 <= mLength e < 2 ^ 32) es ->
  write_entries use64 es s = write_entries false es s.
Proof.
  intros Hs Hes. destruct use64; [|done]. revert s Hs. induction Hes as [|e es [Ho Hl] _ IH]; intros s Hs; [done|]. cbn [write_entries]. rewrite !u32_small by lia.
  destruct (addString (mObjectName e) s) as [s1|] eqn:E1; [|done]. cbn [mbind outcome_bind]. destruct (addU32 (mType e) s1) as [s2|] eqn:E2; [|done]. cbn [mbind outcome_bind].
  apply addString_use64 in E1. apply u32_addU32_use64 in E2. rewrite addOffset_32 by congruence.
  destruct (addU32 (mOffset e) s2) as [s3|] eqn:E3; [|done]. cbn [mbind outcome_bind]. apply u32_addU32_use64 in E3. rewrite addOffset_32 by congruence.
  destruct (addU32 (mLength e) s3) as [s4|] eqn:E4; [|done]. cbn [mbind outcome_bind]. apply u32_addU32_use64 in E4. apply IH. congruence.
Qed.

Definition entry_ok (C : Z) (e : A3DIndexEntry) : Prop :=
  name_ok C (mObjectName e) /\ 0 <= mType e < 2 ^ 32 /\ 0 <= mOffset e < 2 ^ 32 /\ 0 <= mLength e < 2 ^ 32.

(** An entry as it is read: without an object. *)
Definition fresh (e : A3DIndexEntry) : A3DIndexEntry := mkEntry (mObjectName e) (mType e) (mOffset e) (mLength e) None.

Definition entries_size (es : list A3DIndexEntry) : Z := foldr (fun e n => 44 + zlen (mObjectName e) + n) 0 es.

Lemma entries_size_nonneg es : 0 <= entries_size es.
Proof. induction es as [|e es IH]; cbn; [lia|]. fold (entries_size es). pose proof (zlen_nonneg (mObjectName e)). lia. Qed.

Lemma codec_entries C es : 16 <= C -> Forall (entry_ok C) es -> codec C (entries_size es) (write_entries false es) (load_entries false (length es)) (fresh <$> es).
Proof.
  intros HC. induction 1 as [|e es ((Hl & Hl32 & Hnz) & Ht & Ho & Hn) _ IH]; [apply codec_ret|]. cbn [write_entries length load_entries fmap list_fmap]. rewrite !u32_small by lia.
  pose proof (entries_size_nonneg es). pose proof (zlen_nonneg (mObjectName e)).
  eapply (codec_weaken _ ((11 + zlen (mObjectName e)) + (11 + (11 + (11 + entries_size es))))); [cbn; fold (entries_size es); lia|].
  eapply codec_bind; [lia|by apply codec_string|]. eapply codec_bind; [lia|by apply codec_U32|]. eapply codec_bind; [lia|by apply codec_U32|]. eapply codec_bind; [lia|by apply codec_U32|]. cbv beta.
  apply (codec_map _ _ _ _ (fresh <$> es) (fun r => fresh e :: r)). exact IH.
Qed.

(** The header that [writeFile] writes, and what [parseHeader] makes of it. *)
Definition write_header (f : FileA3D) (h : OStream) : outcome OStream :=
  h ← addU32 (mMajorVersion f) h; h ← addU32 (mMinorVersion f) h; h ← addU32 0 h; h ← addU32 (u32 (zlen (mWriteIndex f))) h;
  write_entries (mUse64BitOffsets f) (mWriteIndex f) h.

Lemma header_spec f : 0 <= mMajorVersion f < 2 ^ 32 -> 0 <= mMinorVersion f < 2 ^ 32 -> Forall (entry_ok 5120) (mWriteIndex f) -> zlen (mWriteIndex f) < 2 ^ 32 ->
  44 + entries_size (mWriteIndex f) <= 2 ^ 32 ->
  exists h, write_header f (OStream_new 5120 false) = Ok h /\ ostream_wf 5120 h /\ 0 < o_mPos h <= 2 ^ 32 /\
    forall g bytes, refines h bytes -> parseHeader g (IStream_new bytes false) =
      Ok (mkFile (mMajorVersion f) (mMinorVersion f) false (mData g) (mDataSize g) (mWriteStream g) (mWriteIndex g) (mReadStream g) (mIndex g ++ (fresh <$> mWriteIndex f))).
Proof.
  intros Hma Hmi Hes Hlen Hroom. unfold write_header. rewrite (u32_small (zlen _)) by (pose proof (zlen_nonneg (mWriteIndex f)); lia). pose proof (entries_size_nonneg (mWriteIndex f)).
  assert (Hc : codec 5120 (44 + entries_size (mWriteIndex f))
    (fun s => s ← addU32 (mMajorVersion f) s; s ← addU32 (mMinorVersion f) s; s ← addU32 0 s; s ← addU32 (zlen (mWriteIndex f)) s; write_entries false (mWriteIndex f) s)
    (fun i => '(a, i) ← loadU32 i; '(b, i) ← loadU32 i; '(fl, i) ← loadU32 i; '(n, i) ← loadU32 i; '(es, i) ← load_entries (negb (Z.land fl 1 =? 0)) (Z.to_nat n) i; Ok ((a, b, fl, es), i))
    (mMajorVersion f, mMinorVersion f, 0, fresh <$> mWriteIndex f)).
  { eapply (codec_weaken _ (11 + (11 + (11 + (11 + entries_size (mWriteIndex f)))))); [lia|]. do 4 (eapply codec_bind; [lia|apply codec_U32; [lia|pose proof (zlen_nonneg (mWriteIndex f)); lia]|]). cbv beta.
    change (negb (Z.land 0 1 =? 0)) with false. unfold zlen at 1. rewrite Nat2Z.id. apply (codec_map _ _ _ _ (fresh <$> mWriteIndex f) (fun es => (mMajorVersion f, mMinorVersion f, 0, es))). by apply codec_entries. }
  destruct (Hc (OStream_new 5120 false)) as (h & E & Hwf & Hx & Hp & Hd); [by apply OStream_new_wf|cbn; lia|]. exists h. split; [|split; [done|split]].
  - rewrite <- E. destruct (addU32 (mMajorVersion f) _) as [s1|] eqn:E1; [|done]. cbn [mbind outcome_bind]. destruct (addU32 _ s1) as [s2|] eqn:E2; [|done]. cbn [mbind outcome_bind]. destruct (addU32 _ s2) as [s3|] eqn:E3; [|done]. cbn [mbind outcome_bind].
    destruct (addU32 _ s3) as [s4|] eqn:E4; [|done]. cbn [mbind outcome_bind]. apply u32_addU32_use64 in E1, E2, E3, E4. apply write_entries_use64; [by rewrite E4, E3, E2, E1|]. eapply Forall_impl; [exact Hes|]. by intros e (_ & _ & ? & ?).
  - cbn in Hp. split; [|lia]. destruct (decide (0 < o_mPos h)) as [|H0]; [done|]. assert (Href : refines h []) by (split; [change (zlen []) with 0; lia|intros j b Hj; lia]). by specialize (Hd [] Href).
  - intros g bytes Href. specialize (Hd bytes Href). cbn [OStream_new o_mPos o_mUse64] in Hd. unfold parseHeader, IStream_new. destruct (loadU32 _) as [[a i1]|]; [|done]. cbn [mbind outcome_bind] in *.
    destruct (loadU32 i1) as [[b i2]|]; [|done]. cbn [mbind outcome_bind] in *. destruct (loadU32 i2) as [[fl i3]|]; [|done]. cbn [mbind outcome_bind] in *. destruct (loadU32 i3) as [[n i4]|]; [|done]. cbn [mbind outcome_bind] in *.
    destruct (load_entries _ _ i4) as [[es i5]|]; [|done]. cbn [mbind outcome_bind] in *. by injection Hd as -> -> -> -> _.
Qed.

(** ** What a file holds *)

Inductive content := CElement (t : etree) | CType (t : etree) (dx dy dz : Z) (f : bool).

(** The object [x] is an element of the given tree, or a type over one.  The mipmap flag of a
    type does not survive a file. *)
Definition holds (c : ctx) (x : id) (k : content) : Prop :=
  match k with
  | CElement t => denotes (bodies c) x t
  | CType et dx dy dz f => exists ty y, bodies c !! x = Some (BType ty) /\ t_mElement ty = Some y /\ denotes (bodies c) y et /\
      (dimX (t_mHal ty), dimY (t_mHal ty), dimZ (t_mHal ty), faces (t_mHal ty)) = (dx, dy, dz, f)
  end.

Definition ctree (k : content) : etree := match k with CElement t => t | CType t _ _ _ _ => t end.
Definition cclass (k : content) : Z := match k with CElement _ => RS_A3D_CLASS_ID_ELEMENT | CType _ _ _ _ _ => RS_A3D_CLASS_ID_TYPE end.
Definition ccost (k : content) : Z := match k with CElement t => cost t | CType t _ _ _ _ => 3 + cost t end.
Definition DATA : Z := 256 * 1024.
Definition csize (k : content) : Z := match k with CElement t => tsize DATA t | CType t _ _ _ _ => 71 + DATA + tsize DATA t end.
Definition csizes (ks : list content) : Z := foldr (fun k n => csize k + 3 + n) 0 ks.

Lemma csize_nonneg k : 0 <= csize k.
Proof. unfold csize. pose proof (tsize_pos DATA (ctree k) ltac:(done)). destruct k; cbn in *; unfold DATA in *; lia. Qed.

Lemma csizes_nonneg ks : 0 <= csizes ks.
Proof. induction ks as [|k ks IH]; cbn; [lia|]. fold (csizes ks). pose proof (csize_nonneg k). lia. Qed.

Section files.
Context (J : gmap id obody -> state_caches -> Prop) `{!TypeFrame J}.
Notation WI := (W (EI (TI J))).

(** The entry [e] of a stream is read back as an object that holds [k]. *)
Definition reads (ws : OStream) (e : A3DIndexEntry) (k : content) : Prop :=
  mType e = cclass k /\ forall bytes d ext us n, refines ws bytes -> zlen bytes < 2 ^ 63 -> 0 <= n -> n + ccost k < 2 ^ 31 -> WI ext us (n + ccost k) d ->
    exists y d' i', createEntry (mType e) d (mkIStream bytes (mOffset e) false) = Ok (Some y, d', i') /\ WI ext (y :: us) n d' /\ holds d' y k.

Lemma reads_extends ws ws' e k : extends ws ws' -> reads ws e k -> reads ws' e k.
Proof. intros Hx [Ht H]. split; [done|]. intros bytes d ext us n Hb. apply H. by eapply refines_extends. Qed.

Context (c : ctx) (extc usc : list id) (nc : Z) (HW : WI extc usc nc c) (Hnames : names_ok 5120 c).

Lemma names_data : names_ok DATA c.
Proof. intros x o Hx. destruct (Hnames x o Hx) as (nm & E & Hl & H32 & Hz). exists nm. split; [done|]. split; [unfold DATA; lia|done]. Qed.

(** Writing an object: the stream grows by a part that is read back. *)
Lemma serialize_spec x k s : holds c x k -> tree_ok DATA (ctree k) -> ostream_wf DATA s -> o_mUse64 s = false -> o_mPos s + csize k <= 2 ^ 32 ->
  exists s', getClassId c x = Ok (cclass k) /\ serialize c x s = Ok s' /\ ostream_wf DATA s' /\ extends s s' /\ o_mPos s < o_mPos s' <= o_mPos s + csize k /\
    forall nm l r, reads s' (mkEntry nm (cclass k) (o_mPos s) l r) k.
Proof.
  intros Hk Hok Hwf H64 Hroom. destruct k as [t|et dx dy dz fc]; cbn [holds ctree csize cclass ccost] in *.
  - destruct (createFromStream_Ok (TI J) DATA c x t s) as (s' & E & Hwf' & Hx & Hp & Hr); try done; [apply (w_shape _ _ _ _ _ HW)|apply names_data|].
    assert (exists e, bodies c !! x = Some (BElement e)) as (e & He) by (destruct t; destruct Hk as (e & He & _); eauto). destruct (bodies_live _ _ _ He) as (o & Ho & Hb).
    exists s'. unfold getClassId, serialize, deref. rewrite Ho. cbn [of_option mbind outcome_bind]. rewrite Hb. split; [done|]. split; [done|]. split; [done|]. split; [done|]. split; [done|].
    intros nm l r. split; [done|]. intros bytes d ext us n Hbs Hlen Hn Hmax HWd. destruct (Hr bytes d ext us n Hbs Hlen Hn Hmax HWd) as (y & d' & Ec & HW' & Hd & _). rewrite H64 in Ec. by eexists y, d', _.
  - destruct Hk as (ty & y & Hty & Hy & Hd & Hdim).
    destruct (type_reload DATA c x ty y et s extc usc nc) as (s' & E & Hwf' & Hx & Hp & Hr); try done; [apply names_data|lia|].
    destruct (bodies_live _ _ _ Hty) as (o & Ho & Hb).
    exists s'. unfold getClassId, serialize, deref. rewrite Ho. cbn [of_option mbind outcome_bind]. rewrite Hb. split; [done|]. split; [done|]. split; [done|]. split; [done|]. split; [lia|].
    intros nm l r. split; [done|]. intros bytes d ext us n Hbs Hlen Hn Hmax HWd.
    cbn [ccost] in Hmax, HWd. destruct (Hr bytes d ext us n Hbs Hlen Hn ltac:(lia) ltac:(by replace (n + 3 + cost et) with (n + (3 + cost et)) by lia)) as (x' & y' & d' & t' & Ec & HW' & Ht' & Hd' & Hkey). rewrite H64 in Ec.
    eexists x', d', _. split; [exact Ec|]. split; [done|]. exists t', y'. unfold type_key in Hkey. injection Hkey as E1 E2 E3 E4 E5 E6 E7. split; [done|]. split; [done|]. split; [done|]. rewrite <- Hdim. congruence.
Qed.

Record file_inv (f : FileA3D) (ks : list content) : Prop := {
  fi_version : mMajorVersion f = 0 /\ mMinorVersion f = 1;
  fi_stream : exists ws, default (OStream_new (256 * 1024) false) (mWriteStream f) = ws /\ ostream_wf DATA ws /\ o_mUse64 ws = false /\ o_mPos ws <= csizes ks /\
    Forall2 (reads ws) (mWriteIndex f) ks /\ Forall (fun e => mOffset e + mLength e <= o_mPos ws) (mWriteIndex f) /\ (ks <> [] -> mWriteStream f = Some ws /\ 0 < o_mPos ws);
  fi_index : Forall (entry_ok 5120) (mWriteIndex f)
}.

Lemma csizes_snoc ks k : csizes (ks ++ [k]) = csizes ks + csize k + 3.
Proof. induction ks as [|k' ks IH]; cbn; [lia|]. fold (csizes (ks ++ [k])) (csizes ks). lia. Qed.

Lemma append_inv f ks x k : file_inv f ks -> holds c x k -> tree_ok DATA (ctree k) -> csizes (ks ++ [k]) <= 2 ^ 32 - 1 ->
  exists f' nm, appendToFile c (Some x) f = Ok f' /\ file_inv f' (ks ++ [k]) /\ mObjectName <$> mWriteIndex f' = (mObjectName <$> mWriteIndex f) ++ [nm] /\
    (exists o, objs c !! x = Some o /\ mName o = Some nm) /\ mUse64BitOffsets f' = mUse64BitOffsets f.
Proof.
  intros [Hv (ws & Ews & Hwf & H64 & Hp & Hrd & Hin & Hso) Hidx] Hk Hok Hroom. rewrite csizes_snoc in Hroom. pose proof (csizes_nonneg ks). pose proof (csize_nonneg k).
  assert (exists b, bodies c !! x = Some b) as (b & Hb) by (destruct k as [t|]; [destruct t; destruct Hk as (e & He & _); eauto|destruct Hk as (ty & y & Hty & _); eauto]).
  destruct (bodies_live _ _ _ Hb) as (o & Ho & _). destruct (Hnames _ _ Ho) as (nm & Hnm & Hnok).
  destruct (serialize_spec x k ws Hk Hok Hwf H64 ltac:(lia)) as (s1 & Ec & Es & Hwf1 & Hx1 & Hp1 & Hr1).
  destruct (align4_Ok DATA s1 Hwf1 ltac:(done) ltac:(lia)) as (s2 & Ea & Hwf2 & Hx2 & Hp2).
  eexists _, nm. unfold appendToFile. rewrite Ews. unfold deref. rewrite Ho. cbn [of_option mbind outcome_bind]. rewrite Hnm. cbn [of_option mbind outcome_bind]. rewrite Ec. cbn [mbind outcome_bind]. rewrite Es. cbn [mbind outcome_bind]. rewrite Ea. cbn [mbind outcome_bind].
  split; [reflexivity|]. rewrite cstr_of_nonzero by apply Hnok. pose proof (wf_pos _ _ Hwf). pose proof (ext_pos _ _ Hx1). pose proof (ext_pos _ _ Hx2). rewrite u64_small by lia.
  split; [|split; [cbn [mWriteIndex]; by rewrite fmap_app|split; [by exists o|done]]]. split; cbn [mMajorVersion mMinorVersion mWriteStream mWriteIndex].
  - done.
  - exists s2. split; [done|]. split; [done|]. split; [by rewrite (ext_use64 _ _ Hx2), (ext_use64 _ _ Hx1)|]. rewrite csizes_snoc. split; [lia|]. split; [|split; [|split; [done|lia]]].
    + apply Forall2_app; [|constructor; [|constructor]]; [|by eapply reads_extends]. eapply Forall2_impl; [exact Hrd|]. intros e k' He. eapply reads_extends; [|exact He]. by etrans.
    + apply Forall_app. split; [eapply Forall_impl; [exact Hin|]; cbn; intros e He; lia|]. constructor; [cbn; lia|constructor].
  - apply Forall_app. split; [done|]. constructor; [|constructor]. split; [done|]. cbn [mType mOffset mLength]. split; [destruct k; done|]. lia.
Qed.

Fixpoint append_all (xs : list id) (f : FileA3D) : outcome FileA3D :=
  match xs with [] => Ok f | x :: xs => f ← appendToFile c (Some x) f; append_all xs f end.

Definition has_name (x : id) (nm : cstr) : Prop := exists o, objs c !! x = Some o /\ mName o = Some nm.
Definition storable (x : id) (k : content) : Prop := holds c x k /\ tree_ok DATA (ctree k).

Lemma append_all_inv xs ks : Forall2 storable xs ks -> forall f ks0, file_inv f ks0 -> csizes (ks0 ++ ks) <= 2 ^ 32 - 1 ->
  exists f' nms, append_all xs f = Ok f' /\ file_inv f' (ks0 ++ ks) /\ Forall2 has_name xs nms /\ mObjectName <$> mWriteIndex f' = (mObjectName <$> mWriteIndex f) ++ nms.
Proof.
  induction 1 as [|x k xs ks [Hk Hok] HF IH]; intros f ks0 Hf Hs.
  - exists f, []. rewrite !app_nil_r. split; [done|]. split; [done|]. split; [constructor|done].
  - rewrite (app_assoc ks0 [k] ks : ks0 ++ k :: ks = _) in Hs |- *. assert (Hs1 : csizes (ks0 ++ [k]) <= 2 ^ 32 - 1).
    { assert (csizes (ks0 ++ [k]) <= csizes ((ks0 ++ [k]) ++ ks)); [|lia]. generalize (ks0 ++ [k]) as l. intros l. induction l as [|k' l IHl]; cbn; [apply csizes_nonneg|]. fold (csizes l) (csizes (l ++ ks)). lia. }
    destruct (append_inv f ks0 x k Hf Hk Hok Hs1) as (f1 & nm & E1 & Hf1 & Hn1 & Hnm & _). destruct (IH f1 _ Hf1 Hs) as (f' & nms & E' & Hf' & HF' & Hn').
    exists f', (nm :: nms). cbn [append_all]. rewrite E1. cbn [mbind outcome_bind]. split; [done|]. split; [done|]. split; [by constructor|]. rewrite Hn', Hn1, <- app_assoc. done.
Qed.

(** ** The bytes of a file *)

(** A cell that was never written may have any value in the file. *)
Definition cell_byte (x : cell) (b : Z) : Prop := match x with Some v => b = v | None => True end.

Lemma cells_known l bs : Forall2 cell_byte (Some <$> l) bs -> bs = l.
Proof. revert bs. induction l as [|v l IH]; intros bs H; [by apply Forall2_nil_inv_l in H|]. apply Forall2_cons_inv_l in H as (b & bs' & -> & H & ->). by rewrite (IH bs'). Qed.

Lemma stream_cells_spec C s : ostream_wf C s -> exists cs, stream_cells s = Ok cs /\ zlen cs = o_mPos s /\
  forall bs rest, Forall2 cell_byte cs bs -> zlen bs = o_mPos s /\ refines s (bs ++ rest).
Proof.
  intros [Hl Hc Hp]. destruct (zread_Ok (o_mData s) 0 (o_mPos s)) as (cs & E & Hz & Hd); [lia..|]. exists cs. split; [done|]. split; [done|]. intros bs rest HF. pose proof (Forall2_length _ _ _ HF) as Hlen.
  assert (zlen bs = o_mPos s) as Hb by (unfold zlen in *; lia). split; [done|]. pose proof (zlen_nonneg rest). split; [rewrite zlen_app; lia|]. intros j b Hj Ho.
  assert (Hcs : cs !! j = Some (Some b)) by (rewrite Hd by lia; rewrite <- Ho; f_equal; lia). destruct (Forall2_lookup_l _ _ _ _ _ HF Hcs) as (b' & Hb' & ->).
  rewrite lookup_app_l by (unfold zlen in *; lia). done.
Qed.

Definition file_bytes (hb db : list Z) : list Z := A3D_MAGIC_KEY ++ bytes64 (zlen hb) ++ hb ++ bytes64 (zlen db) ++ db.

Lemma writeFile_spec f ks fc : file_inv f ks -> ks <> [] -> zlen ks < 2 ^ 32 -> csizes ks <= 2 ^ 32 - 1 -> 44 + entries_size (mWriteIndex f) <= 2 ^ 32 ->
  exists cells h ws, writeFile true fc f = Ok (fc, cells) /\ Forall2 (reads ws) (mWriteIndex f) ks /\ 0 < o_mPos h <= 2 ^ 32 /\ 0 < o_mPos ws <= 2 ^ 32 /\
    (forall g bytes, refines h bytes -> parseHeader g (IStream_new bytes false) =
      Ok (mkFile 0 1 false (mData g) (mDataSize g) (mWriteStream g) (mWriteIndex g) (mReadStream g) (mIndex g ++ (fresh <$> mWriteIndex f)))) /\
    forall bytes, Forall2 cell_byte cells bytes -> exists hb db, bytes = file_bytes hb db /\ zlen hb = o_mPos h /\ zlen db = o_mPos ws /\ (forall r, refines h (hb ++ r)) /\ refines ws db.
Proof.
  intros [[Hma Hmi] (ws & Ews & Hwf & H64 & Hp & Hrd & _ & Hso) Hidx] Hne Hlen Hsz Hes. destruct (Hso Hne) as [Ew Hpos]. pose proof (Forall2_length _ _ _ Hrd) as Hl.
  destruct (header_spec f) as (h & Eh & Hwfh & Hph & Hdec); [by rewrite Hma|by rewrite Hmi|done|unfold zlen in *; lia|done|]. rewrite Hma, Hmi in Hdec.
  destruct (stream_cells_spec _ _ Hwfh) as (hc & Ehc & _ & Hhc). destruct (stream_cells_spec _ _ Hwf) as (dc & Edc & _ & Hdc).
  eexists _, h, ws. split; [|split; [done|split; [done|split; [lia|split; [exact Hdec|]]]]].
  - unfold writeFile. rewrite Ew. destruct (Z.eqb_spec (o_mPos ws) 0); [lia|]. cbn [negb]. unfold write_header in Eh. change (5 * 1024) with 5120.
    destruct (addU32 _ _) as [s1|]; [|done]. cbn [mbind outcome_bind] in *. destruct (addU32 _ s1) as [s2|]; [|done]. cbn [mbind outcome_bind] in *. destruct (addU32 _ s2) as [s3|]; [|done]. cbn [mbind outcome_bind] in *.
    destruct (addU32 _ s3) as [s4|]; [|done]. cbn [mbind outcome_bind] in *. rewrite Eh. cbn [mbind outcome_bind]. rewrite Ehc. cbn [mbind outcome_bind]. rewrite Edc. reflexivity.
  - intros bytes HF. apply Forall2_app_inv_l in HF as (b1 & r1 & H1%cells_known & HF & ->). rewrite le64_bytes in HF. apply Forall2_app_inv_l in HF as (b2 & r2 & H2%cells_known & HF & ->).
    apply Forall2_app_inv_l in HF as (hb & r3 & H3 & HF & ->). rewrite le64_bytes in HF. apply Forall2_app_inv_l in HF as (b4 & db & H4%cells_known & H5 & ->). subst.
    destruct (Hhc hb [] H3) as [Eh1 _]. destruct (Hdc db [] H5) as [Ed1 Hd1]. rewrite app_nil_r in Hd1. exists hb, db. split; [unfold file_bytes; by rewrite Eh1, Ed1|]. split; [done|]. split; [done|]. split; [|done]. intros r. by apply Hhc.
Qed.

(** ** Loading what was written *)

Lemma load_file_bytes hb db h (ws : OStream) f es malloc_ok :
  zlen hb = o_mPos h -> 0 < o_mPos h <= 2 ^ 32 -> zlen db = o_mPos ws -> 0 < o_mPos ws <= 2 ^ 32 -> (forall r, refines h (hb ++ r)) -> (forall n, malloc_ok n = true) ->
  (forall g bytes, refines h bytes -> parseHeader g (IStream_new bytes false) =
      Ok (mkFile 0 1 false (mData g) (mDataSize g) (mWriteStream g) (mWriteIndex g) (mReadStream g) (mIndex g ++ es))) ->
  let f' := mkFile 0 1 false (Some db) (zlen db) (mWriteStream f) (mWriteIndex f) (Some (IStream_new db false)) (mIndex f ++ es) in
  load_memory f (file_bytes hb db) = Ok (true, f') /\ load_file malloc_ok f (file_bytes hb db) = Ok (true, f').
Proof.
  intros Ehb Hh Edb Hd Href Hm Hdec f'. pose proof (zlen_nonneg hb). pose proof (zlen_nonneg db). set (rest := bytes64 (zlen hb) ++ hb ++ bytes64 (zlen db) ++ db).
  assert (Hlen : zlen (file_bytes hb db) = 28 + zlen hb + zlen db) by (unfold file_bytes; rewrite !zlen_app; change (zlen A3D_MAGIC_KEY) with 12; change (zlen (bytes64 (zlen hb))) with 8; change (zlen (bytes64 (zlen db))) with 8; lia).
  assert (E1 : take 12 (file_bytes hb db) = A3D_MAGIC_KEY) by done. assert (E2 : drop 12 (file_bytes hb db) = rest) by done.
  assert (E3 : take 8 rest = bytes64 (zlen hb)) by done. assert (E4 : drop 8 rest = hb ++ bytes64 (zlen db) ++ db) by done.
  assert (Eh : le_val (bytes64 (zlen hb)) = zlen hb) by (rewrite le_val_bytes64, Z.mod_small by lia; done). assert (Ed : le_val (bytes64 (zlen db)) = zlen db) by (rewrite le_val_bytes64, Z.mod_small by lia; done).
  assert (E5 : drop (Z.to_nat (zlen hb)) (hb ++ bytes64 (zlen db) ++ db) = bytes64 (zlen db) ++ db) by (unfold zlen; rewrite Nat2Z.id; apply drop_app_length).
  assert (E6 : take (Z.to_nat (zlen hb)) (hb ++ bytes64 (zlen db) ++ db) = hb) by (unfold zlen; rewrite Nat2Z.id; apply take_app_length).
  assert (E7 : take 8 (bytes64 (zlen db) ++ db) = bytes64 (zlen db)) by done. assert (E8 : drop 8 (bytes64 (zlen db) ++ db) = db) by done.
  assert (E9 : take (Z.to_nat (zlen db)) db = db) by (unfold zlen; rewrite Nat2Z.id; apply firstn_all).
  assert (L1 : zlen rest = 16 + zlen hb + zlen db) by (unfold rest; rewrite !zlen_app; change (zlen (bytes64 (zlen hb))) with 8; change (zlen (bytes64 (zlen db))) with 8; lia).
  assert (L2 : zlen (hb ++ bytes64 (zlen db) ++ db) = 8 + zlen hb + zlen db) by (rewrite !zlen_app; change (zlen (bytes64 (zlen db))) with 8; lia).
  assert (L3 : zlen (bytes64 (zlen db) ++ db) = 8 + zlen db) by (rewrite zlen_app; change (zlen (bytes64 (zlen db))) with 8; lia).
  split.
  - unfold load_memory. rewrite Hlen, E1, E2, E3, E4, Eh, L1, L2. destruct (Z.ltb_spec (28 + zlen hb + zlen db) 12); [lia|]. rewrite bool_decide_true by done. cbn [negb orb].
    destruct (Z.ltb_spec (16 + zlen hb + zlen db) 8); [lia|]. destruct (Z.ltb_spec (8 + zlen hb + zlen db) (zlen hb)); [lia|]. rewrite Hdec by apply Href. cbn [mbind outcome_bind].
    rewrite E5, E7, E8, L3, Ed. destruct (Z.ltb_spec (8 + zlen db) 8); [lia|]. cbn [set_size mDataSize]. destruct (Z.ltb_spec (zlen db) (zlen db)); [lia|]. done.
  - unfold load_file. rewrite E1, E2, E3, E4, Eh, E6. rewrite bool_decide_true by done. change (zlen A3D_MAGIC_KEY =? 12) with true. change (zlen (bytes64 (zlen hb)) =? 8) with true. cbn [negb orb].
    destruct (Z.eqb_spec (zlen hb) 0); [lia|]. rewrite Hm. cbn [negb]. rewrite Z.eqb_refl. cbn [negb]. specialize (Href []). rewrite app_nil_r in Href. rewrite Hdec by done. cbn [mbind outcome_bind].
    rewrite E5, E7, E8, Ed. cbn [set_size mDataSize]. change (zlen (bytes64 (zlen db)) =? 8) with true. cbn [negb orb]. destruct (Z.eqb_spec (zlen db) 0); [lia|]. rewrite Hm. cbn [negb]. rewrite E9, Z.eqb_refl. done.
Qed.

(** Asking for an entry of a loaded file, and asking again. *)
Lemma initialize_spec ws es ks db j k f d ext us n :
  Forall2 (reads ws) es ks -> refines ws db -> zlen db <= 2 ^ 32 -> ks !! j = Some k -> mReadStream f = Some (IStream_new db false) -> mIndex f = fresh <$> es ->
  0 <= n -> n + 2 + ccost k < 2 ^ 31 -> WI ext us (n + 2 + ccost k) d ->
  exists y d' f' d'', initializeFromEntry d f (Z.of_nat j) = Ok (Some y, d', f') /\ holds d' y k /\ WI ext (y :: y :: us) (n + 1) d' /\
    initializeFromEntry d' f' (Z.of_nat j) = Ok (Some y, d'', f') /\ WI ext (y :: y :: y :: us) n d''.
Proof.
  intros HF Hb Hl Hk Hrs Hix Hn Hmax HWd. destruct (Forall2_lookup_r _ _ _ _ _ HF Hk) as (e & He & Ht & Hrd). apply lookup_lt_Some in He as Hlt.
  assert (Hz : zlen (mIndex f) = Z.of_nat (length es)) by (rewrite Hix; unfold zlen; by rewrite length_fmap).
  destruct (Hrd db d ext us (n + 2) Hb ltac:(lia) ltac:(lia) ltac:(lia) HWd) as (y & d1 & i1 & Ec & HW1 & Hk1). rewrite Ht in Ec.
  assert (exists b, bodies d1 !! y = Some b) as (b & Hbd) by (destruct k as [t|]; [destruct t; destruct Hk1 as (? & ? & _); eauto|destruct Hk1 as (? & ? & ? & _); eauto]).
  replace (n + 2) with (n + 1 + 1) in HW1 by lia. destruct (W_incUser _ _ (n + 1) _ _ _ ltac:(lia) HW1 Hbd) as (d2 & E2 & HW2 & Es2 & _). assert (Eb2 : bodies d2 = bodies d1) by (injection Es2; done).
  rewrite <- Eb2 in Hbd. destruct (W_incUser _ _ n _ _ _ Hn HW2 Hbd) as (d3 & E3 & HW3 & _).
  exists y, d2. eexists _, d3. split; [|split; [|split; [exact HW2|split; [|exact HW3]]]].
  - unfold initializeFromEntry. rewrite Hz, Nat2Z.id. destruct (Z.geb_spec (Z.of_nat j) (Z.of_nat (length es))); [lia|]. rewrite Hix, list_lookup_fmap, He. cbn [fmap option_fmap option_map of_option mbind outcome_bind fresh mRsObj mType mOffset]. rewrite Hrs. cbn [of_option mbind outcome_bind].
    rewrite Ht. assert (cclass k =? RS_A3D_CLASS_ID_UNKNOWN = false) as -> by (destruct k; done). change (i_reset (mOffset e) (IStream_new db false)) with (mkIStream db (mOffset e) false). rewrite Ec. cbn [mbind outcome_bind]. rewrite E2. reflexivity.
  - unfold holds in *. by rewrite Eb2.
  - unfold initializeFromEntry. cbn [set_entry mIndex]. rewrite Hix. assert (zlen (alter (fun e => mkEntry (mObjectName e) (mType e) (mOffset e) (mLength e) (Some y)) j (fresh <$> es)) = Z.of_nat (length es)) as -> by (unfold zlen; by rewrite length_alter, length_fmap).
    destruct (Z.geb_spec (Z.of_nat j) (Z.of_nat (length es))); [lia|]. rewrite Nat2Z.id, list_lookup_alter_eq, list_lookup_fmap, He. cbn [fmap option_fmap option_map of_option mbind outcome_bind mRsObj]. rewrite E3. done.
Qed.

Lemma csizes_ge ks : (68 + DATA) * zlen ks <= csizes ks.
Proof.
  induction ks as [|k ks IH]; [done|]. change (k :: ks) with ([k] ++ ks). rewrite zlen_app. change (zlen [k]) with 1. cbn [csizes foldr app]. fold (csizes ks).
  assert (68 + DATA <= csize k); [|lia]. assert (68 + DATA <= tsize DATA (ctree k)).
  { destruct (ctree k) as [|ts]; [cbn; lia|]. rewrite tsize_struct. assert (0 <= fsize DATA ts); [|lia]. unfold fsize. induction ts as [|p ts IHts]; cbn; [lia|]. pose proof (tsize_pos DATA p.2 ltac:(done)). unfold DATA in *. lia. }
  destruct k; cbn in *; unfold DATA in *; lia.
Qed.

Lemma entries_size_le es : Forall (entry_ok 5120) es -> entries_size es <= 5164 * zlen es.
Proof.
  induction 1 as [|e es ((Hl & _) & _) _ IH]; [done|]. change (e :: es) with ([e] ++ es). rewrite zlen_app. change (zlen [e]) with 1. cbn [entries_size foldr app]. fold (entries_size es). lia.
Qed.

Lemma new_file_inv u : file_inv (FileA3D_new u) [].
Proof. split; [done| |constructor]. eexists. split; [reflexivity|]. split; [by apply OStream_new_wf|]. split; [done|]. split; [done|]. split; [constructor|]. split; [constructor|done]. Qed.

(** C9: a file written from any elements and types is loaded again, from memory or from disk, whatever the cells that were never
    written contain and whatever the uninitialised flag of either file object is.  The index has the names and the classes of the
    objects, and in any consistent context each entry becomes an object that holds what was written: the
    same tree, or a type of the same dimensions over the same tree.  Asking for an entry again gives the same object. *)
Theorem a3d_roundtrip xs ks u u' malloc_ok :
  Forall2 storable xs ks -> xs <> [] -> csizes ks < 2 ^ 32 -> (forall n, malloc_ok n = true) ->
  exists f cells nms, append_all xs (FileA3D_new u) = Ok f /\ writeFile true true f = Ok (true, cells) /\ Forall2 has_name xs nms /\
    forall bytes, Forall2 cell_byte cells bytes ->
      exists f', load_memory (FileA3D_new u') bytes = Ok (true, f') /\ load_file malloc_ok (FileA3D_new u') bytes = Ok (true, f') /\
        mObjectName <$> mIndex f' = nms /\ mType <$> mIndex f' = cclass <$> ks /\
        forall j k d ext us n, ks !! j = Some k -> 0 <= n -> n + 2 + ccost k < 2 ^ 31 -> WI ext us (n + 2 + ccost k) d ->
          exists y d' f'' d'', initializeFromEntry d f' (Z.of_nat j) = Ok (Some y, d', f'') /\ holds d' y k /\ WI ext (y :: y :: us) (n + 1) d' /\
            initializeFromEntry d' f'' (Z.of_nat j) = Ok (Some y, d'', f'') /\ WI ext (y :: y :: y :: us) n d''.
Proof.
  intros Hst Hne Hsz Hm. destruct (append_all_inv xs ks Hst (FileA3D_new u) [] (new_file_inv u) ltac:(cbn [app]; lia)) as (f & nms & Ea & Hf & Hnms & Hn). cbn [app FileA3D_new mWriteIndex fmap list_fmap] in Hf, Hn.
  assert (Hks : ks <> []) by (destruct Hst; done). pose proof (csizes_ge ks) as Hge. unfold DATA in Hge. pose proof (entries_size_le _ (fi_index _ _ Hf)) as Hes.
  assert (Hlen : zlen (mWriteIndex f) = zlen ks) by (destruct (fi_stream _ _ Hf) as (ws & _ & _ & _ & _ & HF & _); apply Forall2_length in HF; unfold zlen; lia). rewrite Hlen in Hes.
  destruct (writeFile_spec f ks true Hf Hks ltac:(lia) ltac:(lia) ltac:(lia)) as (cells & h & ws & Ew & HF & Hh & Hw & Hdec & Hbytes).
  exists f, cells, nms. split; [done|]. split; [done|]. split; [done|]. intros bytes Hcb. destruct (Hbytes bytes Hcb) as (hb & db & -> & Ehb & Edb & Hrh & Hrw).
  destruct (load_file_bytes hb db h ws (FileA3D_new u') (fresh <$> mWriteIndex f) malloc_ok Ehb Hh Edb Hw Hrh Hm Hdec) as [E1 E2].
  eexists. split; [exact E1|]. split; [exact E2|]. cbn [mIndex FileA3D_new app]. split; [rewrite <- list_fmap_compose; exact Hn|]. split.
  - rewrite <- list_fmap_compose. clear -HF. induction HF as [|e k es ks [Ht _] _ IH]; [done|]. cbn. rewrite IH. by f_equal.
  - intros j k d ext us n Hk Hn0 Hmax HWd. eapply initialize_spec; try done. lia.
Qed.

End files.

End objects.

(** A file that was both written and loaded: its destructor deletes the write stream twice; one that was only loaded keeps its read stream. *)
Lemma dtor_spec f ws rs : mReadStream f = Some rs ->
  (mWriteStream f = Some ws -> FileA3D_dtor f = Fault UseAfterFree) /\ (mWriteStream f = None -> FileA3D_dtor f = Ok [SRead]).
Proof. intros Hr. unfold FileA3D_dtor. rewrite Hr. split; intros ->; vm_compute; reflexivity. Qed.

(** The readers and writers of the other classes are not called in this example. *)
Definition no_create (c : ctx) (i : IStream) : outcome (option id * ctx * IStream) := Ok (None, c, i).
Definition no_serialize (c : ctx) (x : id) (s : OStream) : outcome OStream := Ok s.
Definition no_class (c : ctx) (x : id) : Z := RS_A3D_CLASS_ID_UNKNOWN.

Definition ex_contents : list content :=
  [CElement ex_vec; CType ex_vec (dimX (t_mHal (Type_of ex_mip_named 2%positive))) (dimY (t_mHal (Type_of ex_mip_named 2%positive)))
     (dimZ (t_mHal (Type_of ex_mip_named 2%positive))) (faces (t_mHal (Type_of ex_mip_named 2%positive)))].

Lemma a3d_roundtrip_witness : exists f cells,
  append_all no_serialize no_class ex_mip_named [1%positive; 2%positive] (FileA3D_new true) = Ok f /\ writeFile true true f = Ok (true, cells) /\
  forall bytes, Forall2 cell_byte cells bytes -> exists f' y d' f'',
    load_memory (FileA3D_new false) bytes = Ok (true, f') /\ zlen (mIndex f') = 2 /\
    initializeFromEntry no_create no_create no_objects f' 1 = Ok (Some y, d', f'') /\
    holds d' y (CType ex_vec (dimX (t_mHal (Type_of ex_mip_named 2%positive))) (dimY (t_mHal (Type_of ex_mip_named 2%positive)))
     (dimZ (t_mHal (Type_of ex_mip_named 2%positive))) (faces (t_mHal (Type_of ex_mip_named 2%positive)))).
Proof.
  assert (Hnm : names_ok 5120 ex_mip_named).
  { intros x o Hx. destruct (ex_mip_named_names x o Hx) as (nm & E & Hl & H32 & Hz). exists nm. split; [exact E|]. split; [lia|exact (conj H32 Hz)]. }
  assert (Hok : tree_ok DATA ex_vec) by (split_and!; try done; split; (lia || done)).
  assert (Hst : Forall2 (storable ex_mip_named) [1%positive; 2%positive] ex_contents).
  { constructor; [split; [eexists; split; [vm_compute; reflexivity|done]|done]|]. constructor; [split; [|done]|constructor].
    eexists _, 1%positive. split; [vm_compute; reflexivity|]. split; [vm_compute; reflexivity|]. split; [eexists; split; [vm_compute; reflexivity|done]|]. vm_compute. reflexivity. }
  destruct (a3d_roundtrip no_create no_create no_serialize no_class (fun _ _ => True) ex_mip_named [2%positive; 1%positive] [] 800 ex_mip_named_W Hnm
    [1%positive; 2%positive] ex_contents true false (fun _ => true) Hst ltac:(done) ltac:(vm_compute; reflexivity) ltac:(done)) as (f & cells & nms & Ea & Ew & _ & Hload).
  exists f, cells. split; [exact Ea|]. split; [exact Ew|]. intros bytes Hb. destruct (Hload bytes Hb) as (f' & E1 & _ & Hn & Ht & Hin).
  assert (HW0 : W plain_types [] [] 100 no_objects) by (apply plain_types_init; lia).
  destruct (Hin 1%nat _ no_objects [] [] 0 eq_refl ltac:(lia) ltac:(vm_compute; reflexivity) ltac:(eapply W_weaken; [|exact HW0]; vm_compute; congruence)) as (y & d' & f'' & d'' & E2 & Hk & _).
  exists f', y, d', f''. split; [exact E1|]. split; [|split; [exact E2|exact Hk]]. apply (f_equal length) in Ht. rewrite length_fmap in Ht. unfold zlen. rewrite Ht. reflexivity.
Defined.

End FileA3D.
