(* ===== verification/Memory.v ===== *)
(** * Memory: the C heap the allocations live in

    A block per [malloc], a pointer into a block, and the copies of the C library
    with every access checked against the block. *)

From S2P Require Import Prelude Stream.
Import Stream.

Module Memory.

Definition block := positive.

(** A pointer is a block and an offset; a pointer without a block is a number
    obtained from the null pointer. *)
Record ptr := mkPtr { p_block : option block; p_off : Z }.

#[global] Instance ptr_eq_dec : EqDecision ptr.
Proof. solve_decision. Defined.

Definition NULL : ptr := mkPtr None 0.
Definition is_null (p : ptr) : bool := bool_decide (p = NULL).
Definition ptr_add (p : ptr) (n : Z) : ptr := mkPtr (p_block p) (p_off p + n).

Record heap := mkHeap { blocks : gmap block (list cell); nextBlock : block }.

Definition no_heap : heap := mkHeap ∅ 1%positive.

Definition content (h : heap) (p : ptr) : outcome (block * list cell) :=
  match p_block p with
  | None => Fault NullDeref
  | Some b => match blocks h !! b with Some l => Ok (b, l) | None => Fault UseAfterFree end
  end.

Definition load (h : heap) (p : ptr) (n : Z) : outcome (list cell) :=
  '(_, l) ← content h p; zread l (p_off p) n.

Definition store (h : heap) (p : ptr) (bs : list cell) : outcome heap :=
  '(b, l) ← content h p; l ← zwrite l (p_off p) bs; Ok (mkHeap (<[b := l]> (blocks h)) (nextBlock h)).

(** The ranges of [memcpy] must not overlap. *)
Definition overlap (p q : ptr) (n : Z) : bool :=
  bool_decide (p_block p = p_block q) && (p_off p <? p_off q + n) && (p_off q <? p_off p + n).

Definition memcpy (h : heap) (dst src : ptr) (n : Z) : outcome heap :=
  bs ← load h src n;
  if overlap dst src n then Fault Overlap else store h dst bs.

Definition memset (h : heap) (p : ptr) (v n : Z) : outcome heap :=
  if n <? 0 then Fault OutOfBounds else store h p (replicate (Z.to_nat n) (Some v)).

(** [memalign]; [ok] says whether the allocator can serve the size. *)
Definition malloc (ok : Z -> bool) (h : heap) (n : Z) : ptr * heap :=
  if ok n then (mkPtr (Some (nextBlock h)) 0,
                mkHeap (<[nextBlock h := replicate (Z.to_nat n) None]> (blocks h)) (Pos.succ (nextBlock h)))
  else (NULL, h).

Definition free (h : heap) (p : ptr) : outcome heap :=
  if is_null p then Ok h
  else
    '(b, _) ← content h p;
    if p_off p =? 0 then Ok (mkHeap (delete b (blocks h)) (nextBlock h)) else Fault OutOfBounds.

Definition realloc (ok : Z -> bool) (h : heap) (p : ptr) (n : Z) : outcome (ptr * heap) :=
  if is_null p then Ok (malloc ok h n)
  else
    '(_, old) ← content h p;
    if negb (p_off p =? 0) then Fault OutOfBounds
    else
      let '(q, h) := malloc ok h n in
      if is_null q then Ok (q, h)
      else
        h ← store h q (take (Z.to_nat n) old);
        h ← free h p;
        Ok (q, h).

(** Little-endian loads and stores of whole words. *)
Fixpoint initialised (l : list cell) : outcome (list Z) :=
  match l with
  | [] => Ok []
  | None :: _ => Fault Uninitialised
  | Some b :: r => bs ← initialised r; Ok (b :: bs)
  end.

Definition load_int (h : heap) (p : ptr) (n : Z) : outcome Z :=
  cs ← load h p n; bs ← initialised cs; Ok (le_val bs).

Definition le_bytes (n : nat) (v : Z) : list cell := (fun i => Some ((v / 2 ^ (8 * Z.of_nat i)) mod 256)) <$> seq 0 n.

Definition store_int (h : heap) (p : ptr) (n : nat) (v : Z) : outcome heap := store h p (le_bytes n v).

(** ** Lemmas *)

Lemma is_null_Some b off : is_null (mkPtr (Some b) off) = false.
Proof. unfold is_null. apply bool_decide_eq_false_2. done. Qed.

Lemma content_Ok h b off l : blocks h !! b = Some l -> content h (mkPtr (Some b) off) = Ok (b, l).
Proof. intros E. unfold content. cbn. by rewrite E. Qed.

Lemma load_Ok h b l off n :
  blocks h !! b = Some l -> 0 <= off -> 0 <= n -> off + n <= zlen l ->
  exists bs, load h (mkPtr (Some b) off) n = Ok bs /\ zlen bs = n /\
    forall j : nat, Z.of_nat j < n -> bs !! j = l !! Z.to_nat (off + Z.of_nat j).
Proof. intros E Ho Hn Hl. unfold load. rewrite (content_Ok _ _ _ _ E). cbn [mbind outcome_bind p_off]. by apply zread_Ok. Qed.

Lemma store_Ok h b l off bs :
  blocks h !! b = Some l -> 0 <= off -> off + zlen bs <= zlen l ->
  exists l', zwrite l off bs = Ok l' /\ store h (mkPtr (Some b) off) bs = Ok (mkHeap (<[b := l']> (blocks h)) (nextBlock h)).
Proof.
  intros E Ho Hl. destruct (zwrite_Ok l off bs Ho Hl) as [l' Hw]. exists l'. split; [done|].
  unfold store. rewrite (content_Ok _ _ _ _ E). cbn [mbind outcome_bind p_off]. by rewrite Hw.
Qed.

(** A copy between two blocks. *)
Lemma memcpy_Ok h bd bs ld ls od os n :
  bd <> bs -> blocks h !! bd = Some ld -> blocks h !! bs = Some ls ->
  0 <= od -> 0 <= os -> 0 <= n -> od + n <= zlen ld -> os + n <= zlen ls ->
  exists ld', memcpy h (mkPtr (Some bd) od) (mkPtr (Some bs) os) n = Ok (mkHeap (<[bd := ld']> (blocks h)) (nextBlock h)) /\
    zlen ld' = zlen ld /\
    (forall j : nat, Z.of_nat j < n -> ld' !! Z.to_nat (od + Z.of_nat j) = ls !! Z.to_nat (os + Z.of_nat j)) /\
    (forall k : nat, Z.of_nat k < od \/ od + n <= Z.of_nat k -> ld' !! k = ld !! k).
Proof.
  intros Hne Ed Es Hod Hos Hn Hld Hls.
  destruct (load_Ok h bs ls os n Es Hos Hn Hls) as (d & El & Hlen & Hd).
  destruct (store_Ok h bd ld od d Ed Hod ltac:(lia)) as (ld' & Hw & Est).
  exists ld'. unfold memcpy. rewrite El. cbn [mbind outcome_bind]. unfold overlap. cbn [p_block p_off].
  rewrite bool_decide_eq_false_2 by congruence. cbn [andb]. split; [done|]. split; [by eapply zwrite_length|]. split.
  - intros j Hj. rewrite (zwrite_lookup_in _ _ _ _ _ Hw) by lia. rewrite <- Hd by done. f_equal. lia.
  - intros k Hk. apply (zwrite_lookup_out _ _ _ _ _ Hw). lia.
Qed.

(** *** Words *)

(** The value of the [px] bytes at [k]. *)
Definition pixel (px : nat) (l : list cell) (k : Z) : Z := le_val (default 0 <$> take px (drop (Z.to_nat k) l)).

Definition written (l : list cell) (k n : Z) : Prop :=
  forall j : nat, k <= Z.of_nat j < k + n -> exists b, l !! j = Some (Some b).

Lemma initialised_Ok l : (forall j c, l !! j = Some c -> exists b, c = Some b) -> initialised l = Ok (default 0 <$> l).
Proof.
  induction l as [|c l IH]; intros Hc; [done|]. destruct (Hc 0%nat c eq_refl) as [b ->]. cbn.
  rewrite IH; [done|]. intros j c Hj. by apply (Hc (S j)).
Qed.

Lemma load_int_Ok h b l k (px : nat) :
  blocks h !! b = Some l -> 0 <= k -> k + Z.of_nat px <= zlen l -> written l k (Z.of_nat px) ->
  load_int h (mkPtr (Some b) k) (Z.of_nat px) = Ok (pixel px l k).
Proof.
  intros Hb Hk Hl Hw. unfold load_int, load. rewrite (content_Ok _ _ _ _ Hb). cbn [mbind outcome_bind p_off].
  unfold zread. rewrite decide_True by lia. cbn [mbind outcome_bind]. rewrite Nat2Z.id, initialised_Ok; [done|].
  intros j c Hj. apply lookup_take_Some in Hj as [Hj Hlt]. rewrite lookup_drop in Hj.
  destruct (Hw (Z.to_nat k + j)%nat ltac:(lia)) as [v Hv]. exists v. congruence.
Qed.

Lemma pixel_ext px l l' k :
  0 <= k -> k + Z.of_nat px <= zlen l -> zlen l' = zlen l ->
  (forall j : nat, k <= Z.of_nat j < k + Z.of_nat px -> l' !! j = l !! j) -> pixel px l' k = pixel px l k.
Proof.
  intros Hk Hl Hlen Heq. unfold pixel. do 2 f_equal. apply list_eq. intros j. destruct (decide (j < px)%nat).
  - rewrite !lookup_take_lt, !lookup_drop by done. apply Heq. lia.
  - rewrite !lookup_take_ge by lia. done.
Qed.

Lemma written_ext l l' k n :
  (forall j : nat, k <= Z.of_nat j < k + n -> l' !! j = l !! j) -> written l k n -> written l' k n.
Proof. intros Heq Hw j Hj. rewrite Heq by done. by apply Hw. Qed.

Lemma written_sub l k n k' n' : k <= k' -> k' + n' <= k + n -> written l k n -> written l k' n'.
Proof. intros ? ? Hw j Hj. apply Hw. lia. Qed.

Lemma le_bytes_length n v : length (le_bytes n v) = n.
Proof. unfold le_bytes. by rewrite length_fmap, length_seq. Qed.

End Memory.
