(* ===== verification/DrvAllocation.v ===== *)
(** * DrvAllocation: allocations in the CPU driver ([driver/rsdAllocation.cpp])

    The table of levels of an allocation, its memory, and the copies in and out.
    The compatibility-library build is modelled ([RS_COMPATIBILITY_LIB]), in which
    the OpenGL and window code is not compiled. *)

From S2P Require Import Prelude CppUtils Stream Component ObjectBase Objects Element RsType Memory.
Import CppUtils Stream ObjectBase Objects Element RsType Memory.

Module DrvAllocation.

Definition RS_ALLOCATION_USAGE_SCRIPT : Z := 0x01.
Definition RS_ALLOCATION_USAGE_GRAPHICS_TEXTURE : Z := 0x02.
Definition RS_ALLOCATION_USAGE_GRAPHICS_RENDER_TARGET : Z := 0x10.
Definition RS_ALLOCATION_USAGE_IO_INPUT : Z := 0x20.
Definition RS_ALLOCATION_USAGE_IO_OUTPUT : Z := 0x40.
Definition RS_ALLOCATION_USAGE_SHARED : Z := 0x80.
Definition RS_ERROR_BAD_VALUE : Z := 3.
Definition RS_ERROR_FATAL_DRIVER : Z := 0x1001.
Definition HAL_PIXEL_FORMAT_YV12 : Z := 0x32315659.
Definition FACE_POSITIVE_X : Z := 0.
Definition MAX_LOD : Z := 16.

(** ** State *)

Record LodState := mkLod { mallocPtr : ptr; stride : Z; l_dimX : Z; l_dimY : Z; l_dimZ : Z }.
Record DrvState := mkDrvState {
  lod : list LodState; faceOffset : Z; ds_lodCount : Z; faceCount : bool; yuv_shift : Z; yuv_step : Z
}.
(** The OpenGL names of the structure stay zero in this build. *)
Record DrvAlloc := mkDrv { useUserProvidedPtr : bool; uploadDeferred : bool }.

Record Allocation := mkAllocation {
  a_type : option id; usageFlags : Z; mipmapControl : Z; a_yuv : Z; elementSizeBytes : Z;
  hasMipmaps : bool; hasFaces : bool; hasReferences : bool; userProvidedPtr : ptr;
  drvState : DrvState; a_drv : option DrvAlloc
}.

Definition lod_zero : LodState := mkLod NULL 0 0 0 0.
Definition drvState_zero : DrvState := mkDrvState (replicate (Z.to_nat MAX_LOD) lod_zero) 0 0 false 0 0.

Definition set_mallocPtr (l : LodState) (p : ptr) : LodState := mkLod p (stride l) (l_dimX l) (l_dimY l) (l_dimZ l).
Definition set_lod (s : DrvState) (l : list LodState) : DrvState :=
  mkDrvState l (faceOffset s) (ds_lodCount s) (faceCount s) (yuv_shift s) (yuv_step s).
Definition set_drvState (a : Allocation) (s : DrvState) : Allocation :=
  mkAllocation (a_type a) (usageFlags a) (mipmapControl a) (a_yuv a) (elementSizeBytes a) (hasMipmaps a) (hasFaces a)
    (hasReferences a) (userProvidedPtr a) s (a_drv a).
Definition set_drv (a : Allocation) (d : option DrvAlloc) : Allocation :=
  mkAllocation (a_type a) (usageFlags a) (mipmapControl a) (a_yuv a) (elementSizeBytes a) (hasMipmaps a) (hasFaces a)
    (hasReferences a) (userProvidedPtr a) (drvState a) d.

(** What a call can change: the heap, the objects, and the errors it reports. *)
Record world := mkWorld { w_heap : heap; w_ctx : ctx; w_errors : list Z }.
Definition with_heap (W : world) (h : heap) : world := mkWorld h (w_ctx W) (w_errors W).
Definition with_ctx (W : world) (c : ctx) : world := mkWorld (w_heap W) c (w_errors W).
Definition setError (W : world) (e : Z) : world := mkWorld (w_heap W) (w_ctx W) (w_errors W ++ [e]).

Definition flag (a : Allocation) (u : Z) : bool := negb (Z.land (usageFlags a) u =? 0).
Definition getIsScript (a : Allocation) : bool := flag a RS_ALLOCATION_USAGE_SCRIPT.
Definition getIsRenderTarget (a : Allocation) : bool := flag a RS_ALLOCATION_USAGE_GRAPHICS_RENDER_TARGET.

Definition getType (W : world) (a : Allocation) : outcome Type_ :=
  x ← of_option NullDeref (a_type a); as_type (w_ctx W) x.
Definition getElement (W : world) (a : Allocation) : outcome (id * Element) :=
  t ← getType W a; x ← of_option NullDeref (t_mElement t); e ← as_element (w_ctx W) x; Ok (x, e).

Definition set_deferred (a : Allocation) (b : bool) : outcome Allocation :=
  d ← of_option NullDeref (a_drv a); Ok (set_drv a (Some (mkDrv (useUserProvidedPtr d) b))).

(** ** Addresses and the level table *)

Definition GetOffsetPtr (a : Allocation) (xoff yoff zoff l face : Z) : outcome ptr :=
  s ← znth (lod (drvState a)) l;
  let p := ptr_add (mallocPtr s) (face *u64 faceOffset (drvState a)) in
  let p := ptr_add p ((zoff *u32 l_dimY s) *u64 stride s) in
  let p := ptr_add p (yoff *u64 stride s) in
  Ok (ptr_add p (xoff *u32 elementSizeBytes a)).

Definition DeriveYUVLayout (yuv : Z) (s : DrvState) : outcome (Z * DrvState) :=
  l0 ← znth (lod s) 0;
  l1 ← znth (lod s) 1;
  l2 ← znth (lod s) 2;
  let hx := l_dimX l0 / 2 in
  let hy := l_dimY l0 / 2 in
  let l1 := mkLod (mallocPtr l1) (stride l1) hx hy (l_dimZ l1) in
  let l2 := mkLod (mallocPtr l2) (stride l2) hx hy (l_dimZ l2) in
  let '(uvSize, step, l1, l2) :=
    if yuv =? HAL_PIXEL_FORMAT_YV12 then
      let st2 := rsRound 64 (Z.shiftr (stride l0) 1) 16 in
      let p2 := ptr_add (mallocPtr l0) (stride l0 *u64 l_dimY l0) in
      let uv := st2 *u64 hy in
      let p1 := ptr_add p2 (st2 *u64 hy) in
      (uv +u64 (st2 *u64 hy), 1, mkLod p1 st2 hx hy (l_dimZ l1), mkLod p2 st2 hx hy (l_dimZ l2))
    else if yuv =? HAL_PIXEL_FORMAT_YCrCb_420_SP then
      let p2 := ptr_add (mallocPtr l0) (stride l0 *u64 l_dimY l0) in
      (stride l0 *u64 hy, 2, mkLod (ptr_add p2 1) (stride l0) hx hy (l_dimZ l1), mkLod p2 (stride l0) hx hy (l_dimZ l2))
    else (0, 1, l1, l2) in
  ls ← zset (lod s) 1 l1;
  ls ← zset ls 2 l2;
  Ok (uvSize, mkDrvState ls (faceOffset s) 3 (faceCount s) 1 step).

(** The loop over levels [l .. lodCount - 1]; [offsets] has [MAX_LOD] entries as [lod] has. *)
Fixpoint table_loop (n : nat) (l esz tx ty tz o : Z) (ls : list LodState) (offsets : list Z)
    : outcome (Z * list LodState * list Z) :=
  match n with
  | O => Ok (o, ls, offsets)
  | S n =>
      old ← znth ls l;
      let st := rsRound 64 (tx *u64 esz) 16 in
      ls ← zset ls l (mkLod (mallocPtr old) st tx ty tz);
      offsets ← zset offsets l o;
      table_loop n (l + 1) esz (halve tx) (halve ty) (halve tz)
        (o +u64 ((st *u64 rsMax ty 1) *u64 rsMax tz 1)) ls offsets
  end.

(** [offsets[ct] = (size_t) lod[ct].mallocPtr] for the planes of a YUV allocation. *)
Fixpoint yuv_offsets (n : nat) (ct : Z) (ls : list LodState) (offsets : list Z) : outcome (list Z) :=
  match n with
  | O => Ok offsets
  | S n => l ← znth ls ct; offsets ← zset offsets ct (u64 (p_off (mallocPtr l))); yuv_offsets n (ct + 1) ls offsets
  end.

Fixpoint set_ptrs (n : nat) (l : Z) (p : ptr) (offsets : list Z) (ls : list LodState) : outcome (list LodState) :=
  match n with
  | O => Ok ls
  | S n =>
      s ← znth ls l; o ← znth offsets l;
      ls ← zset ls l (set_mallocPtr s (ptr_add p o));
      set_ptrs n (l + 1) p offsets ls
  end.

(** The levels after the first, or the planes of a YUV allocation: the size so far, the
    state and the offsets. *)
Definition table_levels (yuv esz : Z) (h : TypeHal) (o : Z) (s : DrvState) : outcome (Z * DrvState * list Z) :=
  let zeros := replicate (Z.to_nat MAX_LOD) 0 in
  if ds_lodCount s >? 1 then
    '(o, ls, offs) ← table_loop (Z.to_nat (ds_lodCount s - 1)) 1 esz (dimX h) (dimY h) (dimZ h) o (lod s) zeros;
    Ok (o, set_lod s ls, offs)
  else if negb (yuv =? 0) then
    '(uv, s) ← DeriveYUVLayout yuv s;
    offs ← yuv_offsets (Z.to_nat (ds_lodCount s - 1)) 1 (lod s) zeros;
    Ok (o +u64 uv, s, offs)
  else Ok (o, s, zeros).

Definition AllocationBuildPointerTable (c : ctx) (a : Allocation) (t : Type_) (p : ptr) : outcome (Z * Allocation) :=
  let s := drvState a in
  esz ← getElementSizeBytes c t;
  let h := t_mHal t in
  let st := rsRound 64 (dimX h *u64 esz) 16 in
  ls ← zset (lod s) 0 (mkLod NULL st (dimX h) (dimY h) (dimZ h));
  let s := mkDrvState ls (faceOffset s) (lodCount h) (faces h) (yuv_shift s) (yuv_step s) in
  let o := (st *u64 rsMax (dimY h) 1) *u64 rsMax (dimZ h) 1 in
  '(o, s, offsets) ← table_levels (a_yuv a) esz h o s;
  l0 ← znth (lod s) 0;
  ls ← zset (lod s) 0 (set_mallocPtr l0 p);
  ls ← set_ptrs (Z.to_nat (ds_lodCount s - 1)) 1 p offsets ls;
  let s := mkDrvState ls o (ds_lodCount s) (faceCount s) (yuv_shift s) (yuv_step s) in
  Ok (if faceCount s then o *u64 6 else o, set_drvState a s).

(** ** Copies in and out *)

Section driver.
(** Which sizes the C allocator can serve, and which object the bytes of a stored
    address denote. *)
Variable mem_ok : Z -> bool.
Variable obj_at : list cell -> outcome (option id).

Definition sizeof_ptr : Z := 8.
Definition object_at (h : heap) (base : ptr) (q : Z) : outcome (option id) :=
  bs ← load h (ptr_add base q) sizeof_ptr; obj_at bs.

(** [Allocation::incRefs] and [Allocation::decRefs]. *)
Definition a_incRefs (W : world) (a : Allocation) (p : ptr) (ct startOff : Z) : outcome world :=
  t ← getType W a;
  c ← RsType.incRefs (object_at (w_heap W) p) (w_ctx W) t 0 ct startOff;
  Ok (with_ctx W c).

Definition a_decRefs (W : world) (a : Allocation) (p : ptr) (ct startOff : Z) : outcome world :=
  if negb (hasReferences a) || negb (getIsScript a) then Ok W
  else
    t ← getType W a;
    c ← RsType.decRefs (object_at (w_heap W) p) (w_ctx W) t 0 ct startOff;
    Ok (with_ctx W c).

Definition w_memcpy (W : world) (dst src : ptr) (n : Z) : outcome world :=
  h ← memcpy (w_heap W) dst src n; Ok (with_heap W h).

(** The references in [ct] cells at [src] replace those at [dst]. *)
Definition swap_refs (W : world) (a : Allocation) (dst src : ptr) (ct : Z) : outcome world :=
  if hasReferences a then W ← a_incRefs W a src ct 0; a_decRefs W a dst ct 0 else Ok W.

Definition rsdAllocationData1D (W : world) (a : Allocation) (xoff l count : Z) (data : ptr) : outcome (world * Allocation) :=
  t ← getType W a;
  eSize ← getElementSizeBytes (w_ctx W) t;
  p ← GetOffsetPtr a xoff 0 0 0 FACE_POSITIVE_X;
  let size := count *u64 eSize in
  W ← (if decide (p = data) then Ok W
       else W ← swap_refs W a p data count; w_memcpy W p data size);
  a ← set_deferred a true;
  Ok (W, a).

(** [for (line = yoff; line < yoff + h; line++)] over a lower bound and an upper
    bound that has wrapped. *)
Definition rounds (from to : Z) : nat := Z.to_nat (to - from).

Fixpoint data_lines (n : nat) (W : world) (a : Allocation) (dst src : ptr) (w lineSize srcStride dstStride : Z)
    : outcome (world * ptr) :=
  match n with
  | O => Ok (W, src)
  | S n =>
      W ← swap_refs W a dst src w;
      W ← w_memcpy W dst src lineSize;
      data_lines n W a (ptr_add dst dstStride) (ptr_add src srcStride) w lineSize srcStride dstStride
  end.

Fixpoint chroma_lines (n : nat) (W : world) (dst src : ptr) (clineSize st : Z) : outcome (world * ptr) :=
  match n with
  | O => Ok (W, src)
  | S n => W ← w_memcpy W dst src clineSize; chroma_lines n W (ptr_add dst st) (ptr_add src st) clineSize st
  end.

Fixpoint chroma_planes (n : nat) (l : Z) (W : world) (a : Allocation) (xoff yoff face clineSize h : Z) (src : ptr)
    : outcome (world * ptr) :=
  match n with
  | O => Ok (W, src)
  | S n =>
      dst ← GetOffsetPtr a xoff yoff 0 l face;
      s ← znth (lod (drvState a)) l;
      '(W, src) ← chroma_lines (rounds (Z.shiftr yoff 1) (Z.shiftr (yoff +u32 h) 1)) W dst src clineSize (stride s);
      chroma_planes n (l + 1) W a xoff yoff face clineSize h src
  end.

(** With no memory attached the data goes to [Update2DTexture], which this build
    leaves empty. *)
Definition rsdAllocationData2D (W : world) (a : Allocation) (xoff yoff l face w h : Z) (data : ptr) (srcStride : Z)
    : outcome (world * Allocation) :=
  let eSize := elementSizeBytes a in
  let lineSize := eSize *u64 w in
  let srcStride := if srcStride =? 0 then lineSize else srcStride in
  l0 ← znth (lod (drvState a)) 0;
  if is_null (mallocPtr l0) then Ok (W, a)
  else
    dst ← GetOffsetPtr a xoff yoff 0 l face;
    if decide (dst = data) then a ← set_deferred a true; Ok (W, a)
    else
      s ← znth (lod (drvState a)) l;
      '(W, src) ← data_lines (rounds yoff (yoff +u32 h)) W a dst data w lineSize srcStride (stride s);
      W ← (if a_yuv a =? 0 then Ok W
           else
             let '(first, last, clineSize) :=
               if a_yuv a =? HAL_PIXEL_FORMAT_YV12 then (1, 3, Z.shiftr lineSize 1)
               else if a_yuv a =? HAL_PIXEL_FORMAT_YCrCb_420_SP then (2, 3, lineSize)
               else (1, 2, lineSize) in
             '(W, _) ← chroma_planes (rounds first last) first W a xoff yoff face clineSize h src;
             Ok W);
      a ← set_deferred a true;
      Ok (W, a).

(** The outer loop runs while [z < d], whatever [zoff] is. *)
Fixpoint data_slices (n : nat) (z : Z) (W : world) (a : Allocation) (xoff yoff l w h lineSize srcStride : Z) (src : ptr)
    : outcome world :=
  match n with
  | O => Ok W
  | S n =>
      dst ← GetOffsetPtr a xoff yoff z l FACE_POSITIVE_X;
      if decide (dst = src) then Ok W
      else
        s ← znth (lod (drvState a)) l;
        '(W, src) ← data_lines (rounds yoff (yoff +u32 h)) W a dst src w lineSize srcStride (stride s);
        data_slices n (z + 1) W a xoff yoff l w h lineSize srcStride src
  end.

Definition rsdAllocationData3D (W : world) (a : Allocation) (xoff yoff zoff l w h d : Z) (data : ptr) (srcStride : Z)
    : outcome (world * Allocation) :=
  let lineSize := elementSizeBytes a *u32 w in
  let srcStride := if srcStride =? 0 then lineSize else srcStride in
  l0 ← znth (lod (drvState a)) 0;
  if is_null (mallocPtr l0) then Ok (W, a)
  else
    W ← data_slices (rounds zoff d) zoff W a xoff yoff l w h lineSize srcStride data;
    a ← set_deferred a true;
    Ok (W, a).

Definition rsdAllocationRead1D (W : world) (a : Allocation) (xoff l count : Z) (data : ptr) : outcome world :=
  t ← getType W a;
  eSize ← getElementSizeBytes (w_ctx W) t;
  p ← GetOffsetPtr a xoff 0 0 0 FACE_POSITIVE_X;
  if decide (data = p) then Ok W else w_memcpy W data p (count *u64 eSize).

Fixpoint read_lines (n : nat) (W : world) (dst src : ptr) (lineSize dstStride srcStride : Z) : outcome (world * ptr) :=
  match n with
  | O => Ok (W, dst)
  | S n =>
      W ← w_memcpy W dst src lineSize;
      read_lines n W (ptr_add dst dstStride) (ptr_add src srcStride) lineSize dstStride srcStride
  end.

Definition rsdAllocationRead2D (W : world) (a : Allocation) (xoff yoff l face w h : Z) (data : ptr) (dstStride : Z)
    : outcome world :=
  let lineSize := elementSizeBytes a *u64 w in
  let dstStride := if dstStride =? 0 then lineSize else dstStride in
  l0 ← znth (lod (drvState a)) 0;
  if is_null (mallocPtr l0) then Ok W
  else
    src ← GetOffsetPtr a xoff yoff 0 l face;
    if decide (data = src) then Ok W
    else
      s ← znth (lod (drvState a)) l;
      '(W, _) ← read_lines (rounds yoff (yoff +u32 h)) W data src lineSize dstStride (stride s);
      Ok W.

Fixpoint read_slices (n : nat) (z : Z) (W : world) (a : Allocation) (xoff yoff l h lineSize dstStride : Z) (dst : ptr)
    : outcome world :=
  match n with
  | O => Ok W
  | S n =>
      src ← GetOffsetPtr a xoff yoff z l FACE_POSITIVE_X;
      if decide (dst = src) then Ok W
      else
        s ← znth (lod (drvState a)) l;
        '(W, dst) ← read_lines (rounds yoff (yoff +u32 h)) W dst src lineSize dstStride (stride s);
        read_slices n (z + 1) W a xoff yoff l h lineSize dstStride dst
  end.

Definition rsdAllocationRead3D (W : world) (a : Allocation) (xoff yoff zoff l w h d : Z) (data : ptr) (dstStride : Z)
    : outcome world :=
  let lineSize := elementSizeBytes a *u32 w in
  let dstStride := if dstStride =? 0 then lineSize else dstStride in
  l0 ← znth (lod (drvState a)) 0;
  if is_null (mallocPtr l0) then Ok W
  else read_slices (rounds zoff d) zoff W a xoff yoff l h lineSize dstStride data.

Definition rsdAllocationLock1D (a : Allocation) : outcome ptr :=
  l0 ← znth (lod (drvState a)) 0; Ok (mallocPtr l0).

(** ** Creation, destruction, resizing *)

Definition allocAlignedMemory (h : heap) (allocSize : Z) (forceZero : bool) : outcome (ptr * heap) :=
  let '(p, h) := malloc mem_ok h allocSize in
  if is_null p then Ok (NULL, h)
  else if forceZero then h ← memset h p 0 allocSize; Ok (p, h)
  else Ok (p, h).

(** The memory of a new allocation, or [None] when the driver refuses it; the flag is
    [useUserProvidedPtr]. *)
Definition init_memory (W : world) (a : Allocation) (t : Type_) (allocSize : Z) (forceZero : bool)
    : outcome (option (ptr * bool) * bool * heap) :=
  let own :=
    '(p, h) ← allocAlignedMemory (w_heap W) allocSize forceZero;
    Ok (if is_null p then None else Some (p, false), false, h) in
  if flag a RS_ALLOCATION_USAGE_IO_OUTPUT then Ok (Some (NULL, false), false, w_heap W)
  else if flag a RS_ALLOCATION_USAGE_IO_INPUT then Ok (Some (NULL, false), false, w_heap W)
  else if negb (is_null (userProvidedPtr a)) then
    if negb ((usageFlags a =? Z.lor RS_ALLOCATION_USAGE_SCRIPT RS_ALLOCATION_USAGE_SHARED) ||
             (usageFlags a =? Z.lor (Z.lor RS_ALLOCATION_USAGE_SCRIPT RS_ALLOCATION_USAGE_SHARED)
                                    RS_ALLOCATION_USAGE_GRAPHICS_TEXTURE))
    then Ok (None, true, w_heap W)
    else if t_mDimLOD t || faces (t_mHal t) then Ok (None, true, w_heap W)
    else
      esz ← getElementSizeBytes (w_ctx W) t;
      if negb ((dimX (t_mHal t) *u64 esz) mod 16 =? 0) then own
      else Ok (Some (userProvidedPtr a, true), false, w_heap W)
  else own.

(** The result says whether the driver accepted the allocation.  On a refusal of the
    user's memory the driver structure stays attached; when memory runs out it is freed. *)
Definition rsdAllocationInit (W : world) (a : Allocation) (forceZero : bool) : outcome (bool * world * Allocation) :=
  let a := set_drv a (Some (mkDrv false false)) in
  t ← getType W a;
  '(allocSize, a) ← AllocationBuildPointerTable (w_ctx W) a t NULL;
  '(m, refused, h) ← init_memory W a t allocSize forceZero;
  let W := with_heap W h in
  match m with
  | None => Ok (false, W, match refused with true => a | false => set_drv a None end)
  | Some (p, user) =>
      '(_, a) ← AllocationBuildPointerTable (w_ctx W) a t p;
      let deferred := negb (Z.land (usageFlags a) (u32 (Z.lnot RS_ALLOCATION_USAGE_SCRIPT)) =? 0) in
      let a := set_drv a (Some (mkDrv user deferred)) in
      if negb (is_null (userProvidedPtr a)) && negb user then
        '(W, a) ← rsdAllocationData2D W a 0 0 0 FACE_POSITIVE_X (dimX (t_mHal t)) (dimY (t_mHal t)) (userProvidedPtr a) 0;
        Ok (true, W, a)
      else Ok (true, W, a)
  end.

(** Memory the driver does not own is left alone. *)
Definition rsdAllocationDestroy (W : world) (a : Allocation) : outcome (world * Allocation) :=
  l0 ← znth (lod (drvState a)) 0;
  '(W, a) ←
    (if is_null (mallocPtr l0) then Ok (W, a)
     else
       d ← of_option NullDeref (a_drv a);
       W ← (if negb (useUserProvidedPtr d) && negb (flag a RS_ALLOCATION_USAGE_IO_INPUT)
               && negb (flag a RS_ALLOCATION_USAGE_IO_OUTPUT)
            then h ← free (w_heap W) (mallocPtr l0); Ok (with_heap W h) else Ok W);
       ls ← zset (lod (drvState a)) 0 (set_mallocPtr l0 NULL);
       Ok (W, set_drvState a (set_lod (drvState a) ls)));
  Ok (W, set_drv a None).

Definition rsdAllocationResize (W : world) (a : Allocation) (newType : Type_) : outcome (world * Allocation) :=
  l0 ← znth (lod (drvState a)) 0;
  let oldDimX := l_dimX l0 in
  let dX := dimX (t_mHal newType) in
  if flag a RS_ALLOCATION_USAGE_SHARED then Ok (W, a)
  else
    '(s, a) ← AllocationBuildPointerTable (w_ctx W) a newType NULL;
    '(p, h) ← realloc mem_ok (w_heap W) (mallocPtr l0) s;
    '(_, a) ← AllocationBuildPointerTable (w_ctx W) a newType p;
    h ← (if dX >? oldDimX then
           l0 ← znth (lod (drvState a)) 0;
           let st := elementSizeBytes a in
           memset h (ptr_add (mallocPtr l0) (st *u64 oldDimX)) 0 (st *u64 (dX - oldDimX))
         else Ok h);
    Ok (with_heap W h, a).

(** ** Synchronisation *)

Definition rsdAllocationSyncAll (W : world) (a : Allocation) (src : Z) : outcome (world * Allocation) :=
  if src =? RS_ALLOCATION_USAGE_GRAPHICS_RENDER_TARGET then
    if negb (getIsRenderTarget a) then Ok (setError W RS_ERROR_FATAL_DRIVER, a)
    else
      '(_, e) ← getElement W a;
      if bool_decide (Component.mKind (e_mComponent e) = Component.RS_KIND_PIXEL_RGBA) then Ok (W, a)
      else Ok (setError W RS_ERROR_FATAL_DRIVER, a)
  else a ← set_deferred a false; Ok (W, a).

Definition rsdAllocationMarkDirty (a : Allocation) : outcome Allocation := set_deferred a true.

(** ** Copies between allocations *)

Fixpoint copy_rows (n : nat) (i : Z) (W : world) (da : Allocation) (dx dy dz dl df : Z) (w esz : Z)
    (sa : Allocation) (sx sy sz sl sf : Z) : outcome world :=
  match n with
  | O => Ok W
  | S n =>
      dst ← GetOffsetPtr da dx (dy +u32 i) dz dl df;
      src ← GetOffsetPtr sa sx (sy +u32 i) sz sl sf;
      W ← w_memcpy W dst src (w *u64 esz);
      copy_rows n (i + 1) W da dx dy dz dl df w esz sa sx sy sz sl sf
  end.

Definition rsdAllocationData2D_alloc_script (W : world) (da : Allocation) (dx dy dl df w h : Z)
    (sa : Allocation) (sx sy sl sf : Z) : outcome world :=
  t ← getType W da;
  esz ← getElementSizeBytes (w_ctx W) t;
  copy_rows (Z.to_nat h) 0 W da dx dy 0 dl df w esz sa sx sy 0 sl sf.

Definition rsdAllocationData2D_alloc (W : world) (da : Allocation) (dx dy dl df w h : Z)
    (sa : Allocation) (sx sy sl sf : Z) : outcome world :=
  if negb (getIsScript da) && negb (getIsScript sa) then Ok (setError W RS_ERROR_FATAL_DRIVER)
  else rsdAllocationData2D_alloc_script W da dx dy dl df w h sa sx sy sl sf.

(** [elementSize] is 32 bits wide here, and so is the product with [w]. *)
Fixpoint copy_slices (n : nat) (j : Z) (W : world) (da : Allocation) (dx dy dz dl : Z) (w h esz : Z)
    (sa : Allocation) (sx sy sz sl : Z) : outcome world :=
  match n with
  | O => Ok W
  | S n =>
      W ← copy_rows (Z.to_nat h) 0 W da dx dy (dz +u32 j) dl FACE_POSITIVE_X (w *u32 esz) 1
            sa sx sy (sz +u32 j) sl FACE_POSITIVE_X;
      copy_slices n (j + 1) W da dx dy dz dl w h esz sa sx sy sz sl
  end.

Definition rsdAllocationData3D_alloc_script (W : world) (da : Allocation) (dx dy dz dl w h d : Z)
    (sa : Allocation) (sx sy sz sl : Z) : outcome world :=
  t ← getType W da;
  esz ← getElementSizeBytes (w_ctx W) t;
  copy_slices (Z.to_nat d) 0 W da dx dy dz dl w h (u32 esz) sa sx sy sz sl.

Definition rsdAllocationData3D_alloc (W : world) (da : Allocation) (dx dy dz dl w h d : Z)
    (sa : Allocation) (sx sy sz sl : Z) : outcome world :=
  if negb (getIsScript da) && negb (getIsScript sa) then Ok (setError W RS_ERROR_FATAL_DRIVER)
  else rsdAllocationData3D_alloc_script W da dx dy dz dl w h d sa sx sy sz sl.

(** ** One field of one cell *)

Definition element_data (W : world) (a : Allocation) (p data : ptr) (cIdx sizeBytes : Z) : outcome (world * Allocation) :=
  '(_, e) ← getElement W a;
  f ← znth (e_mFields e) cIdx;
  x ← of_option NullDeref (f_e f);
  let p := ptr_add p (Z.shiftr (f_offsetBits f) 3) in
  W ← (if hasReferences a then
         c ← Element.incRefs (object_at (w_heap W) data) (w_ctx W) x 0;
         c ← Element.decRefs (object_at (w_heap W) p) c x 0;
         Ok (with_ctx W c)
       else Ok W);
  W ← w_memcpy W p data sizeBytes;
  a ← set_deferred a true;
  Ok (W, a).

Definition rsdAllocationElementData1D (W : world) (a : Allocation) (x : Z) (data : ptr) (cIdx sizeBytes : Z)
    : outcome (world * Allocation) :=
  p ← GetOffsetPtr a x 0 0 0 FACE_POSITIVE_X; element_data W a p data cIdx sizeBytes.

Definition rsdAllocationElementData2D (W : world) (a : Allocation) (x y : Z) (data : ptr) (cIdx sizeBytes : Z)
    : outcome (world * Allocation) :=
  p ← GetOffsetPtr a x y 0 0 FACE_POSITIVE_X; element_data W a p data cIdx sizeBytes.

End driver.

(** ** Mipmaps *)

(** The inner loop over [x]; [px] is the size of a pixel, [f] the filter. *)
Fixpoint mip_row (px : nat) (f : Z -> Z -> Z -> Z -> Z) (n : nat) (h : heap) (o i1 i2 : ptr) : outcome heap :=
  match n with
  | O => Ok h
  | S n =>
      let p := Z.of_nat px in
      v1 ← load_int h i1 p;
      v2 ← load_int h (ptr_add i1 p) p;
      v3 ← load_int h i2 p;
      v4 ← load_int h (ptr_add i2 p) p;
      h ← store_int h o px (f v1 v2 v3 v4);
      mip_row px f n h (ptr_add o p) (ptr_add i1 (2 * p)) (ptr_add i2 (2 * p))
  end.

(** The outer loop over [y]; [row] is the address of an input row. *)
Fixpoint mip_rows (px : nat) (f : Z -> Z -> Z -> Z -> Z) (a : Allocation) (l face w : Z) (row : Z -> outcome ptr)
    (n : nat) (y : Z) (h : heap) : outcome heap :=
  match n with
  | O => Ok h
  | S n =>
      o ← GetOffsetPtr a 0 y 0 (l + 1) face;
      i1 ← row (y *u32 2);
      i2 ← row ((y *u32 2) +u32 1);
      h ← mip_row px f (Z.to_nat w) h o i1 i2;
      mip_rows px f a l face w row n (y + 1) h
  end.

Definition mip565 (a : Allocation) (l face : Z) (h : heap) : outcome heap :=
  s ← znth (lod (drvState a)) (l + 1);
  mip_rows 2 rsBoxFilter565 a l face (l_dimX s) (fun yy => GetOffsetPtr a 0 0 yy l face) (Z.to_nat (l_dimY s)) 0 h.

Definition mip8888 (a : Allocation) (l face : Z) (h : heap) : outcome heap :=
  s ← znth (lod (drvState a)) (l + 1);
  mip_rows 4 rsBoxFilter8888 a l face (l_dimX s) (fun yy => GetOffsetPtr a 0 yy 0 l face) (Z.to_nat (l_dimY s)) 0 h.

(** The sum of four bytes times [0.25f] is exact in a float; the cast truncates it. *)
Definition average8 (v1 v2 v3 v4 : Z) : Z := u8 ((v1 + v2 + v3 + v4) / 4).

Definition mip8 (a : Allocation) (l face : Z) (h : heap) : outcome heap :=
  s ← znth (lod (drvState a)) (l + 1);
  mip_rows 1 average8 a l face (l_dimX s) (fun yy => GetOffsetPtr a 0 yy 0 l face) (Z.to_nat (l_dimY s)) 0 h.

Fixpoint mip_levels (n : nat) (l bits face : Z) (a : Allocation) (h : heap) : outcome heap :=
  match n with
  | O => Ok h
  | S n =>
      h ← (if bits =? 32 then mip8888 a l face h
           else if bits =? 16 then mip565 a l face h
           else if bits =? 8 then mip8 a l face h
           else Ok h);
      mip_levels n (l + 1) bits face a h
  end.

Fixpoint mip_faces (n : nat) (face levels bits : Z) (a : Allocation) (h : heap) : outcome heap :=
  match n with
  | O => Ok h
  | S n => h ← mip_levels (Z.to_nat levels) 0 bits face a h; mip_faces n (face + 1) levels bits a h
  end.

(** [getSizeBits] is evaluated inside the loops; nothing there changes it. *)
Definition rsdAllocationGenerateMipmaps (W : world) (a : Allocation) : outcome world :=
  l0 ← znth (lod (drvState a)) 0;
  if is_null (mallocPtr l0) then Ok W
  else
    t ← getType W a;
    '(_, e) ← getElement W a;
    bits ← getSizeBits (as_element (w_ctx W)) e;
    h ← mip_faces (if faces (t_mHal t) then 6 else 1)%nat 0 (lodCount (t_mHal t) -u32 1) bits a (w_heap W);
    Ok (with_heap W h).


(** * Properties *)

(** ** The layout of the levels

    Level 1 repeats the dimensions of level 0, and level [i] those [RsType] gives
    level [i - 1]. *)

Definition level_dim (d : Z) (i : nat) : Z := lod_dim d (pred i).

Section layout.
Variables esz dx dy dz : Z.

Definition level_stride (i : nat) : Z := roundup 16 (level_dim dx i * esz).
Definition level_size (i : nat) : Z := level_stride i * Z.max (level_dim dy i) 1 * Z.max (level_dim dz i) 1.
Fixpoint level_off (i : nat) : Z := match i with O => 0 | S i => level_off i + level_size i end.
Definition level (p : ptr) (i : nat) : LodState :=
  mkLod (ptr_add p (level_off i)) (level_stride i) (level_dim dx i) (level_dim dy i) (level_dim dz i).

Hypothesis Hesz : 0 <= esz < 2 ^ 32.
Hypothesis Hdx : 0 <= dx < 2 ^ 32.
Hypothesis Hdy : 0 <= dy < 2 ^ 32.
Hypothesis Hdz : 0 <= dz < 2 ^ 32.

Lemma level_dim_range d i : 0 <= d < 2 ^ 32 -> 0 <= level_dim d i < 2 ^ 32.
Proof. intros Hd. unfold level_dim. pose proof (lod_dim_range d (pred i)). lia. Qed.

Lemma level_stride_range i : 0 <= level_dim dx i * esz <= level_stride i.
Proof. unfold level_stride. pose proof (roundup_bounds 16 (level_dim dx i * esz)). pose proof (level_dim_range dx i Hdx). lia. Qed.

Lemma level_size_range i : 0 <= level_stride i <= level_size i.
Proof.
  pose proof (level_stride_range i). unfold level_size. split; [lia|].
  assert (level_stride i * 1 <= level_stride i * Z.max (level_dim dy i) 1) by (apply Z.mul_le_mono_nonneg_l; lia).
  assert (level_stride i * Z.max (level_dim dy i) 1 * 1 <= level_stride i * Z.max (level_dim dy i) 1 * Z.max (level_dim dz i) 1)
    by (apply Z.mul_le_mono_nonneg_l; lia). lia.
Qed.

Lemma level_off_mono i j : (i <= j)%nat -> 0 <= level_off i <= level_off j.
Proof.
  intros Hij. assert (0 <= level_off i) by (induction i; cbn; [lia|]; pose proof (level_size_range i); lia).
  split; [done|]. induction Hij as [|j Hij IH]; [lia|]. cbn. pose proof (level_size_range j). lia.
Qed.

Lemma level_off_16 i : (16 | level_off i).
Proof.
  induction i as [|i IH]; cbn; [apply Z.divide_0_r|]. apply Z.divide_add_r; [done|]. unfold level_size.
  do 2 apply Z.divide_mul_l. apply roundup_divide. lia.
Qed.

Lemma level_products i :
  level_off (S i) < 2 ^ 32 ->
  rsRound 64 (level_dim dx i *u64 esz) 16 = level_stride i /\
  ((level_stride i *u64 rsMax (level_dim dy i) 1) *u64 rsMax (level_dim dz i) 1) = level_size i.
Proof.
  intros Hs. cbn in Hs. pose proof (level_off_mono i i (le_n _)). pose proof (level_stride_range i). pose proof (level_size_range i).
  pose proof (level_dim_range dy i Hdy). pose proof (level_dim_range dz i Hdz). split.
  - rewrite u64_small by lia. destruct (roundup_divide 16 (level_dim dx i * esz) ltac:(lia)) as [q Hq]. fold (level_stride i) in Hq.
    apply (rsRound_roundup 64 4); lia.
  - rewrite !rsMax_spec. assert (level_stride i * Z.max (level_dim dy i) 1 <= level_size i).
    { unfold level_size. rewrite <- Z.mul_1_r at 1. apply Z.mul_le_mono_nonneg_l; [apply Z.mul_nonneg_nonneg|]; lia. }
    rewrite (u64_small (level_stride i * _)) by lia. rewrite u64_small by (fold (level_size i); lia). done.
Qed.

Lemma table_loop_spec n : forall l ls offs,
  (1 <= l)%nat -> (l + n <= length ls)%nat -> length offs = length ls -> level_off (l + n) < 2 ^ 32 ->
  exists ls' offs', table_loop n (Z.of_nat l) esz (level_dim dx l) (level_dim dy l) (level_dim dz l) (level_off l) ls offs =
      Ok (level_off (l + n), ls', offs') /\
    length ls' = length ls /\ length offs' = length ls /\
    (forall i, (l <= i < l + n)%nat -> offs' !! i = Some (level_off i) /\
       exists q, ls' !! i = Some (mkLod q (level_stride i) (level_dim dx i) (level_dim dy i) (level_dim dz i))) /\
    (forall i, (i < l)%nat -> ls' !! i = ls !! i /\ offs' !! i = offs !! i).
Proof.
  induction n as [|n IH]; intros l ls offs Hl Hn Ho Hmax; cbn [table_loop].
  { rewrite Nat.add_0_r. exists ls, offs. split_and!; try done; intros; lia. }
  destruct (lookup_lt_is_Some_2 ls l ltac:(lia)) as [old Hold]. rewrite (znth_lookup _ _ _ Hold). cbn [mbind outcome_bind].
  assert (level_off (S l) < 2 ^ 32) as HmaxS by (pose proof (level_off_mono (S l) (l + S n)); lia).
  destruct (level_products l HmaxS) as [-> Hsz].
  rewrite !zset_Ok by lia. cbn [mbind outcome_bind]. rewrite Hsz.
  rewrite u64_small by (cbn in HmaxS; pose proof (level_off_mono l l (le_n _)); pose proof (level_size_range l); lia).
  assert (Hh : forall d, 0 <= d -> halve (level_dim d l) = level_dim d (S l)).
  { intros d Hd. unfold level_dim. rewrite halve_lod_dim by done. by destruct l; [lia|]. }
  rewrite !Hh by lia. replace (Z.of_nat l + 1) with (Z.of_nat (S l)) by lia.
  change (level_off l + level_size l) with (level_off (S l)).
  destruct (IH (S l) (<[l := mkLod (mallocPtr old) (level_stride l) (level_dim dx l) (level_dim dy l) (level_dim dz l)]> ls)
    (<[l := level_off l]> offs)) as (ls' & offs' & -> & Hl1 & Hl2 & Hin & Hout); rewrite ?length_insert in *; try lia.
  { by replace (S l + n)%nat with (l + S n)%nat by lia. }
  exists ls', offs'. replace (S l + n)%nat with (l + S n)%nat in * by lia. split_and!; try done.
  - intros i Hi. destruct (decide (i = l)) as [->|]; [|apply Hin; lia].
    destruct (Hout l ltac:(lia)) as [-> ->]. rewrite !list_lookup_insert_eq by lia. eauto.
  - intros i Hi. destruct (Hout i ltac:(lia)) as [-> ->]. by rewrite !list_lookup_insert_ne by lia.
Qed.

(** The last loop turns offsets into addresses. *)
Lemma set_ptrs_spec p offs n : forall l ls,
  (l + n <= length ls)%nat ->
  (forall i, (l <= i < l + n)%nat -> offs !! i = Some (level_off i) /\
     exists q, ls !! i = Some (mkLod q (level_stride i) (level_dim dx i) (level_dim dy i) (level_dim dz i))) ->
  exists ls', set_ptrs n (Z.of_nat l) p offs ls = Ok ls' /\ length ls' = length ls /\
    (forall i, (l <= i < l + n)%nat -> ls' !! i = Some (level p i)) /\ (forall i, (i < l)%nat -> ls' !! i = ls !! i).
Proof.
  induction n as [|n IH]; intros l ls Hn Hin; cbn [set_ptrs].
  { exists ls. split_and!; try done; intros; lia. }
  destruct (Hin l ltac:(lia)) as [Ho [q Hq]]. rewrite (znth_lookup _ _ _ Hq), (znth_lookup _ _ _ Ho). cbn [mbind outcome_bind].
  rewrite zset_Ok by lia. cbn [mbind outcome_bind].
  replace (Z.of_nat l + 1) with (Z.of_nat (S l)) by lia. unfold set_mallocPtr. cbn [stride l_dimX l_dimY l_dimZ]. fold (level p l).
  destruct (IH (S l) (<[l := level p l]> ls)) as (ls' & -> & Hlen & Hset & Hout).
  - rewrite length_insert. lia.
  - intros i Hi. rewrite list_lookup_insert_ne by lia. apply Hin. lia.
  - rewrite length_insert in Hlen. exists ls'. split_and!; try done.
    + intros i Hi. destruct (decide (i = l)) as [->|]; [|apply Hset; lia]. rewrite Hout by lia. by rewrite list_lookup_insert_eq by lia.
    + intros i Hi. rewrite Hout by lia. by rewrite list_lookup_insert_ne by lia.
Qed.

End layout.

Definition face_size (esz : Z) (t : Type_) : Z :=
  let h := t_mHal t in level_off esz (dimX h) (dimY h) (dimZ h) (Z.to_nat (lodCount h)).
Definition alloc_size (esz : Z) (t : Type_) : Z := if faces (t_mHal t) then face_size esz t * 6 else face_size esz t.

(** The table of an allocation of type [t] whose memory starts at [p]. *)
Record table_at (esz : Z) (t : Type_) (p : ptr) (s : DrvState) : Prop := {
  ta_length : length (lod s) = 16%nat;
  ta_count : ds_lodCount s = lodCount (t_mHal t);
  ta_faces : faceCount s = faces (t_mHal t);
  ta_off : faceOffset s = face_size esz t;
  ta_lod : forall i, Z.of_nat i < lodCount (t_mHal t) ->
    lod s !! i = Some (level esz (dimX (t_mHal t)) (dimY (t_mHal t)) (dimZ (t_mHal t)) p i)
}.

(** A type whose table fits: [lodCount] at most [MAX_LOD] and less than 4 GiB a face. *)
Record type_fits (esz : Z) (t : Type_) : Prop := {
  tf_esz : 0 <= esz < 2 ^ 32;
  tf_dims : dims_ok t;
  tf_count : 1 <= lodCount (t_mHal t) <= MAX_LOD;
  tf_size : face_size esz t < 2 ^ 32
}.

Lemma ptr_add_0 p : ptr_add p 0 = p.
Proof. destruct p. unfold ptr_add. cbn. by rewrite Z.add_0_r. Qed.

Lemma table_levels_spec esz t s :
  type_fits esz t -> length (lod s) = 16%nat -> ds_lodCount s = lodCount (t_mHal t) ->
  let h := t_mHal t in let k := Z.to_nat (lodCount h) in
  exists ls offs, table_levels 0 esz h (level_size esz (dimX h) (dimY h) (dimZ h) 0) s = Ok (face_size esz t, set_lod s ls, offs) /\
    length ls = 16%nat /\ ls !! 0%nat = lod s !! 0%nat /\
    forall i, (1 <= i < k)%nat -> offs !! i = Some (level_off esz (dimX h) (dimY h) (dimZ h) i) /\
      exists q, ls !! i = Some (mkLod q (level_stride esz (dimX h) i) (level_dim (dimX h) i) (level_dim (dimY h) i) (level_dim (dimZ h) i)).
Proof.
  intros [He (Hx & Hy & Hz) Hn Hsz] Hlen Hc h k. fold h in Hx, Hy, Hz, Hn, Hc. unfold MAX_LOD, face_size in *. fold h in Hsz |- *. fold k in Hsz |- *.
  unfold table_levels. rewrite Hc. destruct (Z.gtb_spec (lodCount h) 1) as [Hgt|Hle]; cbn [negb Z.eqb].
  - destruct (table_loop_spec esz (dimX h) (dimY h) (dimZ h) He Hx Hy Hz (Z.to_nat (lodCount h - 1)) 1 (lod s) (replicate (Z.to_nat MAX_LOD) 0))
      as (ls & offs & E & Hl1 & Hl2 & Hin & Hout); [lia|rewrite Hlen; lia|by rewrite Hlen| |].
    { by replace (1 + Z.to_nat (lodCount h - 1))%nat with k by lia. }
    replace (1 + Z.to_nat (lodCount h - 1))%nat with k in * by lia.
    unfold level_dim in E at 1 2 3. cbn [pred] in E. rewrite !lod_dim_0 in E by lia. cbn [level_off] in E. rewrite Z.add_0_l in E.
    change (Z.of_nat 1) with 1 in E. rewrite E. cbn [mbind outcome_bind].
    exists ls, offs. split_and!; [done|lia|by apply Hout; lia|done].
  - replace k with 1%nat by lia. exists (lod s), (replicate (Z.to_nat MAX_LOD) 0). cbn [level_off]. rewrite Z.add_0_l.
    split_and!; [by destruct s|done|done|intros; lia].
Qed.

Lemma build_table c a t p esz :
  getElementSizeBytes c t = Ok esz -> type_fits esz t -> a_yuv a = 0 -> length (lod (drvState a)) = 16%nat ->
  exists s, AllocationBuildPointerTable c a t p = Ok (alloc_size esz t, set_drvState a s) /\ table_at esz t p s.
Proof.
  intros Hesz Hfit Hyuv Hlen. pose proof Hfit as [He (Hx & Hy & Hz) Hn Hsz]. unfold AllocationBuildPointerTable.
  rewrite Hesz, Hyuv. cbn [mbind outcome_bind]. set (h := t_mHal t) in *. unfold MAX_LOD, face_size in Hn, Hsz. fold h in Hsz, Hx, Hy, Hz.
  pose proof (level_off_mono esz _ (dimY h) (dimZ h) He Hx 1 (Z.to_nat (lodCount h)) ltac:(lia)) as Hm1.
  destruct (level_products esz (dimX h) (dimY h) (dimZ h) He Hx Hy Hz 0 ltac:(lia)) as [Hst0 Hsz0].
  unfold level_dim in Hst0, Hsz0. cbn [pred] in Hst0, Hsz0. rewrite (lod_dim_0 (dimX h)) in Hst0 by lia.
  rewrite (lod_dim_0 (dimY h)), (lod_dim_0 (dimZ h)) in Hsz0 by lia. rewrite Hst0, Hsz0.
  set (l0 := mkLod NULL _ _ _ _). rewrite (zset_Ok (lod (drvState a)) 0 l0 ltac:(lia) : zset _ 0 _ = _). cbn [mbind outcome_bind]. set (s0 := mkDrvState _ _ _ _ _ _).
  destruct (table_levels_spec esz t s0 Hfit) as (ls & offs & E & Hls & H0 & Hin); [cbn; by rewrite length_insert|done|].
  fold h in E, Hin. rewrite E. cbn [mbind outcome_bind set_lod lod]. cbn [lod s0] in H0. rewrite list_lookup_insert_eq in H0 by lia.
  rewrite (znth_lookup ls 0 _ H0 : znth ls 0 = _). cbn [mbind outcome_bind].
  rewrite (zset_Ok ls 0 _ ltac:(lia) : zset _ 0 _ = _). cbn [mbind outcome_bind].
  destruct (set_ptrs_spec esz (dimX h) (dimY h) (dimZ h) p offs (Z.to_nat (lodCount h - 1)) 1 (<[0%nat := set_mallocPtr l0 p]> ls))
    as (ls' & E' & Hl' & Hset & Hout); [rewrite length_insert; lia| |].
  { intros i Hi. rewrite list_lookup_insert_ne by lia. apply Hin. lia. }
  unfold s0. cbn [set_lod ds_lodCount faceCount]. change (Z.of_nat 1) with 1 in E'. rewrite E'. cbn [mbind outcome_bind]. eexists. split.
  - apply f_equal, f_equal2; [|reflexivity]. unfold alloc_size. fold h. destruct (faces h); [|done]. rewrite u64_small; [done|]. unfold face_size. fold h. lia.
  - split; cbn; try done; [rewrite length_insert in Hl'; lia|]. fold h. intros i Hi. destruct i as [|i]; [|apply Hset; lia].
    rewrite Hout by lia. rewrite list_lookup_insert_eq by lia. unfold level, set_mallocPtr, level_dim. cbn. by rewrite ptr_add_0, !lod_dim_0 by lia.
Qed.

(** ** Rows of memory *)

(** [n] rows of [sz] bytes, [ss] apart from [os] in [ls], have been copied into
    [ld], [ds] apart from [od]; nothing else of [ld] has changed. *)
Record rows_copied (ld ls ld' : list cell) (od os sz ds ss : Z) (n : nat) : Prop := {
  rc_len : zlen ld' = zlen ld;
  rc_in : forall r j : nat, (r < n)%nat -> Z.of_nat j < sz ->
    ld' !! Z.to_nat (od + Z.of_nat r * ds + Z.of_nat j) = ls !! Z.to_nat (os + Z.of_nat r * ss + Z.of_nat j);
  rc_out : forall k : nat,
    (forall r : nat, (r < n)%nat -> Z.of_nat k < od + Z.of_nat r * ds \/ od + Z.of_nat r * ds + sz <= Z.of_nat k) ->
    ld' !! k = ld !! k
}.

Definition with_block (W : world) (b : block) (l : list cell) : world :=
  with_heap W (mkHeap (<[b := l]> (blocks (w_heap W))) (nextBlock (w_heap W))).

Lemma with_block_id W b l : blocks (w_heap W) !! b = Some l -> with_block W b l = W.
Proof. intros E. unfold with_block, with_heap. destruct W as [[bl nb] c e]. cbn in *. by rewrite insert_id. Qed.

Lemma w_memcpy_Ok W bd bs ld ls od os n :
  bd <> bs -> blocks (w_heap W) !! bd = Some ld -> blocks (w_heap W) !! bs = Some ls ->
  0 <= od -> 0 <= os -> 0 <= n -> od + n <= zlen ld -> os + n <= zlen ls ->
  exists ld', w_memcpy W (mkPtr (Some bd) od) (mkPtr (Some bs) os) n = Ok (with_block W bd ld') /\
    zlen ld' = zlen ld /\
    (forall j : nat, Z.of_nat j < n -> ld' !! Z.to_nat (od + Z.of_nat j) = ls !! Z.to_nat (os + Z.of_nat j)) /\
    (forall k : nat, Z.of_nat k < od \/ od + n <= Z.of_nat k -> ld' !! k = ld !! k).
Proof.
  intros. destruct (memcpy_Ok (w_heap W) bd bs ld ls od os n) as (ld' & E & Hrest); try done.
  exists ld'. unfold w_memcpy. by rewrite E.
Qed.

Lemma read_lines_rows bd bs ls sz ds ss n :
  bd <> bs -> 0 <= sz <= ds -> 0 <= ss -> forall W od os ld,
  blocks (w_heap W) !! bd = Some ld -> blocks (w_heap W) !! bs = Some ls -> 0 <= od -> 0 <= os ->
  (forall r : nat, (r < n)%nat -> od + Z.of_nat r * ds + sz <= zlen ld /\ os + Z.of_nat r * ss + sz <= zlen ls) ->
  exists ld', read_lines n W (mkPtr (Some bd) od) (mkPtr (Some bs) os) sz ds ss =
      Ok (with_block W bd ld', mkPtr (Some bd) (od + Z.of_nat n * ds)) /\ rows_copied ld ls ld' od os sz ds ss n.
Proof.
  intros Hne Hsz Hss. induction n as [|n IH]; intros W od os ld Ed Es Hod Hos Hb; cbn [read_lines].
  { exists ld. rewrite with_block_id by done. rewrite Z.add_0_r. split; [done|]. split; [done|intros; lia|done]. }
  destruct (Hb 0%nat ltac:(lia)) as [Hb1 Hb2].
  destruct (w_memcpy_Ok W bd bs ld ls od os sz) as (ld1 & -> & Hl1 & Hin1 & Hout1); try done; try lia.
  cbn [mbind outcome_bind]. unfold ptr_add. cbn [p_block p_off].
  destruct (IH (with_block W bd ld1) (od + ds) (os + ss) ld1) as (ld' & -> & [Hlen Hin Hout]); try lia.
  - cbn. by rewrite lookup_insert_eq.
  - cbn. by rewrite lookup_insert_ne.
  - intros r Hr. specialize (Hb (S r) ltac:(lia)). lia.
  - exists ld'. split.
    { unfold with_block. cbn. rewrite insert_insert_eq. do 3 f_equal. lia. }
    split; [lia| |].
    + intros [|r] j Hr Hj.
      * rewrite !Z.mul_0_l, !Z.add_0_r. rewrite <- Hin1 by done. apply Hout. intros r Hr'. left. nia.
      * replace (od + Z.of_nat (S r) * ds) with (od + ds + Z.of_nat r * ds) by lia.
        replace (os + Z.of_nat (S r) * ss) with (os + ss + Z.of_nat r * ss) by lia. apply Hin; lia.
    + intros k Hk. rewrite Hout.
      * apply Hout1. specialize (Hk 0%nat ltac:(lia)). lia.
      * intros r Hr. specialize (Hk (S r) ltac:(lia)). lia.
Qed.

(** Without references in the data, the lines of a write are those of a read. *)
Lemma data_lines_read obj_at a w sz ss ds n : hasReferences a = false -> forall W dst src,
  data_lines obj_at n W a dst src w sz ss ds =
    '(W', _) ← read_lines n W dst src sz ds ss; Ok (W', ptr_add src (Z.of_nat n * ss)).
Proof.
  intros Hr. induction n as [|n IH]; intros W dst src; cbn [data_lines read_lines].
  { by rewrite ptr_add_0. }
  unfold swap_refs. rewrite Hr. cbn [mbind outcome_bind]. destruct (w_memcpy W dst src sz) as [W'|]; [|done]. cbn [mbind outcome_bind].
  rewrite IH. destruct (read_lines _ _ _ _ _ _ _) as [[W'' q]|]; [|done]. cbn. do 2 f_equal. unfold ptr_add. cbn. f_equal. lia.
Qed.

(** ** Rectangles of an allocation with plain data *)

(** The allocation [a] of type [t] owns block [b], which holds [ld]. *)
Record attached (W : world) (a : Allocation) (esz : Z) (t : Type_) (b : block) (ld : list cell) : Prop := {
  at_fits : type_fits esz t;
  at_table : table_at esz t (mkPtr (Some b) 0) (drvState a);
  at_esz : elementSizeBytes a = esz;
  at_yuv : a_yuv a = 0;
  at_refs : hasReferences a = false;
  at_drv : is_Some (a_drv a);
  at_mem : blocks (w_heap W) !! b = Some ld;
  at_size : zlen ld = alloc_size esz t
}.

Definition face_count (t : Type_) : Z := if faces (t_mHal t) then 6 else 1.
Definition stride_at (esz : Z) (t : Type_) (l : nat) : Z := level_stride esz (dimX (t_mHal t)) l.
Definition level_at (esz : Z) (t : Type_) (l : nat) (face : Z) : Z :=
  face * face_size esz t + level_off esz (dimX (t_mHal t)) (dimY (t_mHal t)) (dimZ (t_mHal t)) l.
Definition level_bytes (esz : Z) (t : Type_) (l : nat) : Z :=
  level_size esz (dimX (t_mHal t)) (dimY (t_mHal t)) (dimZ (t_mHal t)) l.
Definition cell_at (esz : Z) (t : Type_) (l : nat) (face x y : Z) : Z := level_at esz t l face + y * stride_at esz t l + x * esz.

Record rect_in (t : Type_) (l : nat) (face x y w h : Z) : Prop := {
  ri_level : Z.of_nat l < lodCount (t_mHal t);
  ri_face : 0 <= face < face_count t;
  ri_x : 0 <= x /\ 0 <= w /\ x + w <= level_dim (dimX (t_mHal t)) l;
  ri_y : 0 <= y /\ 0 <= h /\ y + h <= Z.max (level_dim (dimY (t_mHal t)) l) 1
}.

Lemma face_size_nonneg esz t : type_fits esz t -> 0 <= face_size esz t /\ 0 <= alloc_size esz t.
Proof.
  intros [He (Hx & Hy & Hz) Hn Hs]. unfold alloc_size.
  pose proof (level_off_mono esz _ (dimY (t_mHal t)) (dimZ (t_mHal t)) He Hx (Z.to_nat (lodCount (t_mHal t))) _ (le_n _)) as Hm.
  fold (face_size esz t) in Hm. destruct (faces _); lia.
Qed.

Lemma level_inside esz t l face :
  type_fits esz t -> Z.of_nat l < lodCount (t_mHal t) -> 0 <= face < face_count t ->
  0 <= level_at esz t l face /\ 0 <= level_bytes esz t l /\ level_at esz t l face + level_bytes esz t l <= (face + 1) * face_size esz t /\
  (face + 1) * face_size esz t <= alloc_size esz t.
Proof.
  intros [He (Hx & Hy & Hz) Hn Hs] Hl Hf. unfold level_at, level_bytes.
  pose proof (level_off_mono esz _ (dimY (t_mHal t)) (dimZ (t_mHal t)) He Hx (S l) (Z.to_nat (lodCount (t_mHal t))) ltac:(lia)) as Hm.
  pose proof (level_off_mono esz _ (dimY (t_mHal t)) (dimZ (t_mHal t)) He Hx l l ltac:(lia)) as Hm0.
  pose proof (level_size_range esz _ (dimY (t_mHal t)) (dimZ (t_mHal t)) He Hx l) as Hsz. cbn [level_off] in Hm.
  fold (face_size esz t) in Hm. unfold alloc_size, face_count in *. destruct (faces (t_mHal t)); nia.
Qed.

Lemma levels_disjoint esz t l face l' face' :
  type_fits esz t -> Z.of_nat l < lodCount (t_mHal t) -> 0 <= face < face_count t ->
  Z.of_nat l' < lodCount (t_mHal t) -> 0 <= face' < face_count t -> (l', face') <> (l, face) ->
  level_at esz t l face + level_bytes esz t l <= level_at esz t l' face' \/
  level_at esz t l' face' + level_bytes esz t l' <= level_at esz t l face.
Proof.
  intros Hfit Hl Hf Hl' Hf' Hne. pose proof (level_inside esz t l face Hfit Hl Hf) as Hin. pose proof (level_inside esz t l' face' Hfit Hl' Hf') as Hin'.
  pose proof Hfit as [He (Hx & Hy & Hz) Hn Hs]. destruct (face_size_nonneg esz t Hfit) as [Hfs _].
  assert (Hlv : forall i, 0 <= level_off esz (dimX (t_mHal t)) (dimY (t_mHal t)) (dimZ (t_mHal t)) i)
    by (intros i; eapply (level_off_mono esz _ (dimY (t_mHal t)) (dimZ (t_mHal t)) He Hx i i); lia).
  destruct (Z.lt_trichotomy face face') as [Hlt|[->|Hlt]].
  - left. unfold level_at in *. pose proof (Hlv l'). nia.
  - assert (l <> l') by congruence. unfold level_at, level_bytes.
    assert ((S l <= l')%nat \/ (S l' <= l)%nat) as [Hs'|Hs'] by lia.
    + pose proof (level_off_mono esz _ (dimY (t_mHal t)) (dimZ (t_mHal t)) He Hx (S l) l' Hs') as Hm. cbn [level_off] in Hm. lia.
    + pose proof (level_off_mono esz _ (dimY (t_mHal t)) (dimZ (t_mHal t)) He Hx (S l') l Hs') as Hm. cbn [level_off] in Hm. lia.
  - right. unfold level_at in *. pose proof (Hlv l). nia.
Qed.

(** The bytes of row [r] of a rectangle. *)
Lemma rect_row esz t l face x y w h (r : nat) :
  type_fits esz t -> rect_in t l face x y w h -> Z.of_nat r < h ->
  level_at esz t l face <= cell_at esz t l face x y + Z.of_nat r * stride_at esz t l /\
  cell_at esz t l face x y + Z.of_nat r * stride_at esz t l + esz * w <= level_at esz t l face + level_bytes esz t l.
Proof.
  intros [He (Hx & Hy & Hz) Hn Hs] [Hl Hf (Hx0 & Hw & Hxw) (Hy0 & Hh & Hyh)] Hr. unfold cell_at, stride_at, level_bytes, level_size.
  pose proof (level_stride_range esz _ He Hx l) as Hst. set (st := level_stride esz (dimX (t_mHal t)) l) in *.
  pose proof (level_dim_range _ l Hz) as Hdz. set (ly := Z.max (level_dim (dimY (t_mHal t)) l) 1) in *.
  set (lz := Z.max (level_dim (dimZ (t_mHal t)) l) 1) in *.
  assert (0 <= x * esz /\ x * esz + esz * w <= st) as [Ha Hb].
  { split; [apply Z.mul_nonneg_nonneg; lia|]. transitivity (level_dim (dimX (t_mHal t)) l * esz); [nia|lia]. }
  assert ((y + Z.of_nat r) * st + st <= st * ly) by nia. assert (st * ly * 1 <= st * ly * lz) by (apply Z.mul_le_mono_nonneg_l; [apply Z.mul_nonneg_nonneg|]; lia).
  rewrite Z.mul_add_distr_r in H. assert (0 <= (y + Z.of_nat r) * st) by (apply Z.mul_nonneg_nonneg; lia). lia.
Qed.

Lemma GetOffsetPtr_at W a esz t b ld l face x y w h :
  attached W a esz t b ld -> rect_in t l face x y w h ->
  GetOffsetPtr a x y 0 (Z.of_nat l) face = Ok (mkPtr (Some b) (cell_at esz t l face x y)).
Proof.
  intros [Hfit Ht Hesz _ _ _ _ _] [Hl Hf (Hx0 & Hw & Hxw) (Hy0 & Hh & Hyh)]. destruct Hfit as [He (Hx & Hy & Hz) Hn Hs].
  unfold GetOffsetPtr. rewrite (znth_lookup _ _ _ (ta_lod _ _ _ _ Ht l Hl)). cbn [mbind outcome_bind].
  unfold level. cbn [mallocPtr stride l_dimY]. rewrite (ta_off _ _ _ _ Ht), Hesz. unfold ptr_add. cbn [p_block p_off].
  pose proof (level_stride_range esz _ He Hx l) as Hst. pose proof (level_size_range esz _ (dimY (t_mHal t)) (dimZ (t_mHal t)) He Hx l) as Hsz.
  pose proof (level_off_mono esz _ (dimY (t_mHal t)) (dimZ (t_mHal t)) He Hx (S l) (Z.to_nat (lodCount (t_mHal t))) ltac:(lia)) as Hm.
  pose proof (level_off_mono esz _ (dimY (t_mHal t)) (dimZ (t_mHal t)) He Hx l l ltac:(lia)) as Hm0.
  pose proof (level_dim_range _ l Hy) as Hdy. cbn [level_off] in Hm. fold (face_size esz t) in Hm.
  set (st := level_stride esz (dimX (t_mHal t)) l) in *.
  assert (0 <= x * esz <= st) by nia. unfold face_count in Hf.
  rewrite (u32_small (x * esz)) by lia. rewrite (u64_small (y * st)) by nia.
  rewrite (u64_small (face * face_size esz t)) by (destruct (faces (t_mHal t)); nia).
  rewrite !Z.mul_0_l. change (u64 0) with 0. do 2 f_equal. unfold cell_at, level_at, stride_at. fold st. lia.
Qed.

Lemma rounds_plus y h : 0 <= y -> 0 <= h -> y + h < 2 ^ 32 -> rounds y (y +u32 h) = Z.to_nat h.
Proof. intros. unfold rounds. rewrite u32_small by lia. f_equal. lia. Qed.

Definition stride_or (st line : Z) : Z := if st =? 0 then line else st.

(** The arithmetic shared by writes and reads of a rectangle. *)
Lemma rect_bounds W a esz t b ld l face x y w h :
  attached W a esz t b ld -> rect_in t l face x y w h ->
  0 <= esz * w <= stride_at esz t l /\ esz * w < 2 ^ 32 /\ rounds y (y +u32 h) = Z.to_nat h /\ 0 <= cell_at esz t l face x y /\
  forall r : nat, (r < Z.to_nat h)%nat -> cell_at esz t l face x y + Z.of_nat r * stride_at esz t l + esz * w <= zlen ld.
Proof.
  intros Hat Hr. pose proof Hat as [Hfit Htab _ _ _ _ Hmem Hsz]. pose proof (level_inside esz t l face Hfit (ri_level _ _ _ _ _ _ _ Hr) (ri_face _ _ _ _ _ _ _ Hr)) as Hin.
  pose proof Hr as [Hl Hf (Hx0 & Hw & Hxw) (Hy0 & Hh & Hyh)]. pose proof Hfit as [He (Hx & Hy & Hz) Hn Hs].
  pose proof (level_stride_range esz _ He Hx l) as Hst. fold (stride_at esz t l) in Hst.
  pose proof (level_size_range esz _ (dimY (t_mHal t)) (dimZ (t_mHal t)) He Hx l) as Hsr. fold (stride_at esz t l) (level_bytes esz t l) in Hsr.
  assert (esz * w <= level_dim (dimX (t_mHal t)) l * esz) by nia. pose proof (level_dim_range _ l Hy).
  assert (level_bytes esz t l <= face_size esz t).
  { unfold level_bytes, face_size.
    pose proof (level_off_mono esz _ (dimY (t_mHal t)) (dimZ (t_mHal t)) He Hx (S l) (Z.to_nat (lodCount (t_mHal t))) ltac:(lia)) as Hm.
    pose proof (level_off_mono esz _ (dimY (t_mHal t)) (dimZ (t_mHal t)) He Hx l l ltac:(lia)) as Hm0. cbn [level_off] in Hm. lia. }
  split_and!; [nia|lia|lia|apply rounds_plus; lia| |].
  - unfold cell_at. assert (0 <= y * stride_at esz t l) by (apply Z.mul_nonneg_nonneg; lia).
    assert (0 <= x * esz) by (apply Z.mul_nonneg_nonneg; lia). lia.
  - intros r Hrow. destruct (rect_row esz t l face x y w h r Hfit Hr ltac:(lia)) as [_ Hend]. lia.
Qed.

(** What a rectangle of the client's memory needs. *)
Record client_rows (W : world) (bs : block) (ls : list cell) (os ss line : Z) (h : Z) : Prop := {
  cr_mem : blocks (w_heap W) !! bs = Some ls;
  cr_off : 0 <= os;
  cr_stride : 0 <= ss;
  cr_in : forall r : nat, (r < Z.to_nat h)%nat -> os + Z.of_nat r * stride_or ss line + line <= zlen ls
}.

Lemma data2D_rows obj_at W a esz t b ld l face x y w h bs ls os ss :
  attached W a esz t b ld -> rect_in t l face x y w h -> b <> bs -> client_rows W bs ls os ss (esz * w) h ->
  exists ld' a', rsdAllocationData2D obj_at W a x y (Z.of_nat l) face w h (mkPtr (Some bs) os) ss = Ok (with_block W b ld', a') /\
    rows_copied ld ls ld' (cell_at esz t l face x y) os (esz * w) (stride_at esz t l) (stride_or ss (esz * w)) (Z.to_nat h) /\
    attached (with_block W b ld') a' esz t b ld'.
Proof.
  intros Hat Hr Hne [Hbs Hos Hss Hrows]. destruct (rect_bounds _ _ _ _ _ _ _ _ _ _ _ _ Hat Hr) as (Hline & Hl32 & Hrd & Hc0 & Hin).
  pose proof Hat as [Hfit Htab Hesz Hyuv Hrefs [d Hdrv] Hmem Hsz]. unfold rsdAllocationData2D.
  rewrite (znth_lookup _ _ _ (ta_lod _ _ _ _ Htab 0%nat ltac:(pose proof (tf_count _ _ Hfit); lia)) : znth _ 0 = _).
  cbn [mbind outcome_bind]. rewrite Hesz, u64_small by lia. fold (stride_or ss (esz * w)). cbn [mallocPtr level].
  unfold ptr_add at 1. cbn [p_block p_off]. rewrite is_null_Some.
  rewrite (GetOffsetPtr_at _ _ _ _ _ _ _ _ _ _ _ _ Hat Hr). cbn [mbind outcome_bind]. rewrite decide_False by congruence.
  rewrite (znth_lookup _ _ _ (ta_lod _ _ _ _ Htab l (ri_level _ _ _ _ _ _ _ Hr))). cbn [mbind outcome_bind stride level].
  fold (stride_at esz t l). rewrite Hrd, data_lines_read by done.
  assert (0 <= stride_or ss (esz * w)) by (unfold stride_or; destruct (ss =? 0); lia).
  destruct (read_lines_rows b bs ls (esz * w) (stride_at esz t l) (stride_or ss (esz * w)) (Z.to_nat h) Hne ltac:(lia) ltac:(lia)
    W (cell_at esz t l face x y) os ld) as (ld' & -> & Hrc); try done.
  { intros r Hr'. split; [by apply Hin|by apply Hrows]. }
  cbn [mbind outcome_bind]. rewrite Hyuv. cbn [Z.eqb mbind outcome_bind]. unfold set_deferred. rewrite Hdrv. cbn [of_option mbind outcome_bind].
  eexists _, _. split; [done|]. split; [done|]. split; try done; cbn; [by rewrite lookup_insert_eq|]. by rewrite (rc_len _ _ _ _ _ _ _ _ _ Hrc).
Qed.

Lemma read2D_rows W a esz t b ld l face x y w h bd lc od ss :
  attached W a esz t b ld -> rect_in t l face x y w h -> b <> bd -> client_rows W bd lc od ss (esz * w) h ->
  esz * w <= stride_or ss (esz * w) ->
  exists lc', rsdAllocationRead2D W a x y (Z.of_nat l) face w h (mkPtr (Some bd) od) ss = Ok (with_block W bd lc') /\
    rows_copied lc ld lc' od (cell_at esz t l face x y) (esz * w) (stride_or ss (esz * w)) (stride_at esz t l) (Z.to_nat h).
Proof.
  intros Hat Hr Hne [Hbs Hos Hss Hrows] Hwide. destruct (rect_bounds _ _ _ _ _ _ _ _ _ _ _ _ Hat Hr) as (Hline & Hl32 & Hrd & Hc0 & Hin).
  pose proof Hat as [Hfit Htab Hesz Hyuv Hrefs [d Hdrv] Hmem Hsz]. unfold rsdAllocationRead2D.
  rewrite (znth_lookup _ _ _ (ta_lod _ _ _ _ Htab 0%nat ltac:(pose proof (tf_count _ _ Hfit); lia)) : znth _ 0 = _).
  cbn [mbind outcome_bind]. rewrite Hesz, u64_small by lia. fold (stride_or ss (esz * w)). cbn [mallocPtr level].
  unfold ptr_add at 1. cbn [p_block p_off]. rewrite is_null_Some.
  rewrite (GetOffsetPtr_at _ _ _ _ _ _ _ _ _ _ _ _ Hat Hr). cbn [mbind outcome_bind]. rewrite decide_False by congruence.
  rewrite (znth_lookup _ _ _ (ta_lod _ _ _ _ Htab l (ri_level _ _ _ _ _ _ _ Hr))). cbn [mbind outcome_bind stride level].
  fold (stride_at esz t l). rewrite Hrd.
  destruct (read_lines_rows bd b ld (esz * w) (stride_or ss (esz * w)) (stride_at esz t l) (Z.to_nat h) ltac:(done) ltac:(lia) ltac:(lia)
    W od (cell_at esz t l face x y) lc) as (lc' & -> & Hrc); try done.
  { intros r Hr'. split; [by apply Hrows|by apply Hin]. }
  cbn [mbind outcome_bind]. eauto.
Qed.

(** ** Boxes *)

(** Slices [z < n] of [h] rows: slice [z] goes to [od + z * dz], and the client's rows
    follow each other. *)
Record slices_copied (ld ls ld' : list cell) (od os sz dz ds ss : Z) (h n : nat) : Prop := {
  sc_len : zlen ld' = zlen ld;
  sc_in : forall z r j : nat, (z < n)%nat -> (r < h)%nat -> Z.of_nat j < sz ->
    ld' !! Z.to_nat (od + Z.of_nat z * dz + Z.of_nat r * ds + Z.of_nat j) =
    ls !! Z.to_nat (os + Z.of_nat (z * h + r) * ss + Z.of_nat j);
  sc_out : forall k : nat,
    (forall z r : nat, (z < n)%nat -> (r < h)%nat ->
       Z.of_nat k < od + Z.of_nat z * dz + Z.of_nat r * ds \/ od + Z.of_nat z * dz + Z.of_nat r * ds + sz <= Z.of_nat k) ->
    ld' !! k = ld !! k
}.

(** One more slice in front. *)
Lemma slices_cons ld ls ld1 ld' od os sz dz ds ss h n :
  0 <= sz <= ds -> Z.of_nat h * ds <= dz -> 0 <= od ->
  rows_copied ld ls ld1 od os sz ds ss h ->
  slices_copied ld1 ls ld' (od + dz) (os + Z.of_nat h * ss) sz dz ds ss h n ->
  slices_copied ld ls ld' od os sz dz ds ss h (S n).
Proof.
  intros Hsz Hdz Hod [Hl1 Hin1 Hout1] [Hl2 Hin2 Hout2]. split; [lia| |].
  - intros [|z] r j Hz Hr Hj.
    + cbn [Nat.mul Nat.add]. rewrite Z.mul_0_l, Z.add_0_r. rewrite <- Hin1 by lia. apply Hout2. intros z' r' Hz' Hr'. left.
      assert (Z.of_nat r * ds + ds <= Z.of_nat h * ds) by nia. assert (0 <= Z.of_nat h * ds) by nia.
      assert (0 <= Z.of_nat z' * dz) by (apply Z.mul_nonneg_nonneg; lia). assert (0 <= Z.of_nat r' * ds) by nia. assert (0 <= Z.of_nat r * ds) by nia. lia.
    + replace (od + Z.of_nat (S z) * dz) with (od + dz + Z.of_nat z * dz) by lia.
      rewrite Hin2 by lia. do 2 f_equal. lia.
  - intros k Hk. rewrite Hout2.
    + apply Hout1. intros r Hr. specialize (Hk 0%nat r ltac:(lia) Hr). lia.
    + intros z r Hz Hr. specialize (Hk (S z) r ltac:(lia) Hr). lia.
Qed.

(** A non-empty box of [h] rows in each of the slices [z .. z + d - 1] of level [l]. *)
Record box_in (esz : Z) (t : Type_) (l : nat) (x y z w h d : Z) : Prop := {
  bi_level : Z.of_nat l < lodCount (t_mHal t);
  bi_cell : 0 < esz /\ 0 < w /\ 0 < h;
  bi_x : 0 <= x /\ x + w <= level_dim (dimX (t_mHal t)) l;
  bi_y : 0 <= y /\ y + h <= level_dim (dimY (t_mHal t)) l;
  bi_z : 0 <= z /\ z + d <= level_dim (dimZ (t_mHal t)) l
}.

Definition slice_stride (esz : Z) (t : Type_) (l : nat) : Z := level_dim (dimY (t_mHal t)) l * stride_at esz t l.
Definition box_at (esz : Z) (t : Type_) (l : nat) (x y z : Z) : Z := cell_at esz t l 0 x y + z * slice_stride esz t l.

Lemma box_rect esz t l x y z w h d : box_in esz t l x y z w h d -> rect_in t l 0 x y w h.
Proof. intros [Hl Hc Hx Hy Hz]. split; try lia. unfold face_count. destruct (faces _); lia. Qed.

Lemma box_slice esz t l x y z w h d :
  type_fits esz t -> box_in esz t l x y z w h d -> 0 < d ->
  0 <= box_at esz t l x y z /\ 0 <= z * level_dim (dimY (t_mHal t)) l < 2 ^ 32 /\ h * stride_at esz t l <= slice_stride esz t l /\
  0 <= z * slice_stride esz t l < 2 ^ 32 /\
  box_at esz t l x y z + (h - 1) * stride_at esz t l + esz * w <= alloc_size esz t.
Proof.
  intros Hfit Hbox Hd. pose proof (box_rect _ _ _ _ _ _ _ _ _ Hbox) as Hr. pose proof Hbox as [Hl (He & Hw & Hh) (Hx0 & Hxw) (Hy0 & Hyh) (Hz0 & Hzd)].
  destruct (rect_row esz t l 0 x y w h (Z.to_nat (h - 1)) Hfit Hr ltac:(lia)) as [Hlo _]. destruct (rect_row esz t l 0 x y w h 0 Hfit Hr ltac:(lia)) as [Hlo0 _].
  destruct (level_inside esz t l 0 Hfit Hl (ri_face _ _ _ _ _ _ _ Hr)) as (Hp0 & _ & Hin & Hin').
  pose proof Hfit as [_ (Hdx & _ & _) _ Hs]. pose proof (level_stride_range esz _ (tf_esz _ _ Hfit) Hdx l) as Hst. fold (stride_at esz t l) in Hst.
  set (ly := level_dim (dimY (t_mHal t)) l) in *. set (lz := level_dim (dimZ (t_mHal t)) l) in *. set (st := stride_at esz t l) in *.
  assert ((x + w) * esz <= level_dim (dimX (t_mHal t)) l * esz) by (apply Z.mul_le_mono_nonneg_r; lia).
  assert (1 * 1 <= esz * w) by (apply Z.mul_le_mono_nonneg; lia). assert (0 <= x * esz) by (apply Z.mul_nonneg_nonneg; lia).
  assert (esz * w + x * esz <= st /\ 1 <= st) as [? ?] by lia.
  assert (Hsz : level_bytes esz t l = st * ly * lz).
  { unfold level_bytes, level_size. fold (stride_at esz t l) ly lz st. rewrite !Z.max_l by lia. done. }
  assert (z * ly < ly * lz /\ 0 <= z * ly) as [? ?] by nia.
  assert (Hzs : (z + 1) * (ly * st) <= lz * (ly * st)) by (apply Z.mul_le_mono_nonneg_r; [apply Z.mul_nonneg_nonneg|]; lia).
  assert (Hys : (y + h) * st <= ly * st) by (apply Z.mul_le_mono_nonneg_r; lia).
  assert (1 * (ly * lz) <= st * (ly * lz)) by (apply Z.mul_le_mono_nonneg_r; [apply Z.mul_nonneg_nonneg|]; lia).
  assert (level_bytes esz t l <= face_size esz t) by lia.
  unfold box_at, slice_stride. fold ly st. unfold cell_at in Hlo0 |- *. fold st in Hlo0 |- *. assert (0 <= z * (ly * st)) by (repeat apply Z.mul_nonneg_nonneg; lia). assert (0 <= y * st) by (apply Z.mul_nonneg_nonneg; lia).
  split_and!; lia.
Qed.

Lemma GetOffsetPtr_box W a esz t b ld l x y z w h d :
  attached W a esz t b ld -> box_in esz t l x y z w h d -> 0 < d ->
  GetOffsetPtr a x y z (Z.of_nat l) FACE_POSITIVE_X = Ok (mkPtr (Some b) (box_at esz t l x y z)).
Proof.
  intros Hat Hbox Hd. pose proof (GetOffsetPtr_at _ _ _ _ _ _ _ _ _ _ _ _ Hat (box_rect _ _ _ _ _ _ _ _ _ Hbox)) as E.
  destruct (box_slice esz t l x y z w h d (at_fits _ _ _ _ _ _ Hat) Hbox Hd) as (_ & Hzy & _ & Hzs & _).
  unfold GetOffsetPtr, FACE_POSITIVE_X in *.
  rewrite (znth_lookup _ _ _ (ta_lod _ _ _ _ (at_table _ _ _ _ _ _ Hat) l (bi_level _ _ _ _ _ _ _ _ _ Hbox))) in *. cbn [mbind outcome_bind] in *.
  unfold level in *. cbn [mallocPtr stride l_dimY] in *. injection E as E. fold (stride_at esz t l) in *.
  unfold slice_stride in Hzs. rewrite Z.mul_assoc in Hzs.
  rewrite (u32_small (z * _)) by lia. rewrite (u64_small (z * _ * _)) by lia. unfold ptr_add in *. cbn [p_block p_off] in *.
  do 2 f_equal. unfold box_at, slice_stride. rewrite <- E. rewrite !Z.mul_0_l. change (u64 0) with 0. lia.
Qed.

Lemma attached_with_block W a esz t b ld ld' :
  attached W a esz t b ld -> zlen ld' = zlen ld -> attached (with_block W b ld') a esz t b ld'.
Proof. intros [? ? ? ? ? ? ? ?] Hl. split; try done; cbn; [by rewrite lookup_insert_eq|congruence]. Qed.

Lemma data_slices_copied obj_at a esz t b bs ls l x y w h ss n :
  b <> bs -> 0 <= ss -> forall W z os ld,
  attached W a esz t b ld -> blocks (w_heap W) !! bs = Some ls -> box_in esz t l x y z w h (Z.of_nat n) -> 0 <= os ->
  (forall r : nat, (r < n * Z.to_nat h)%nat -> os + Z.of_nat r * ss + esz * w <= zlen ls) ->
  exists ld', data_slices obj_at n z W a x y (Z.of_nat l) w h (esz * w) ss (mkPtr (Some bs) os) = Ok (with_block W b ld') /\
    slices_copied ld ls ld' (box_at esz t l x y z) os (esz * w) (slice_stride esz t l) (stride_at esz t l) ss (Z.to_nat h) n.
Proof.
  intros Hne Hss. induction n as [|n IH]; intros W z os ld Hat Hbs Hbox Hos Hrows; cbn [data_slices].
  { exists ld. rewrite with_block_id by apply Hat. split; [done|]. split; try done; intros; lia. }
  destruct (rect_bounds _ _ _ _ _ _ _ _ _ _ _ _ Hat (box_rect _ _ _ _ _ _ _ _ _ Hbox)) as (Hline & _ & Hrd & _).
  destruct (box_slice esz t l x y z w h _ (at_fits _ _ _ _ _ _ Hat) Hbox ltac:(lia)) as (Hb0 & _ & Hhst & _ & Hend).
  rewrite (GetOffsetPtr_box _ _ _ _ _ _ _ _ _ _ _ _ _ Hat Hbox ltac:(lia)). cbn [mbind outcome_bind]. rewrite decide_False by congruence.
  rewrite (znth_lookup _ _ _ (ta_lod _ _ _ _ (at_table _ _ _ _ _ _ Hat) l (bi_level _ _ _ _ _ _ _ _ _ Hbox))). cbn [mbind outcome_bind stride level].
  fold (stride_at esz t l). rewrite Hrd, data_lines_read by apply Hat.
  destruct (read_lines_rows b bs ls (esz * w) (stride_at esz t l) ss (Z.to_nat h) Hne ltac:(lia) Hss W (box_at esz t l x y z) os ld)
    as (ld1 & -> & Hrc); try done; [apply Hat| |].
  { intros r Hr. split; [|apply Hrows; lia]. rewrite (at_size _ _ _ _ _ _ Hat). nia. }
  cbn [mbind outcome_bind]. unfold ptr_add. cbn [p_block p_off].
  destruct (IH (with_block W b ld1) (z + 1) (os + Z.of_nat (Z.to_nat h) * ss) ld1) as (ld' & -> & Hsc).
  - eapply attached_with_block; [done|apply Hrc].
  - cbn. by rewrite lookup_insert_ne.
  - destruct Hbox as [? ? ? ? ?]. split; try done. lia.
  - nia.
  - intros r Hr. specialize (Hrows (Z.to_nat h + r)%nat ltac:(lia)). lia.
  - exists ld'. split; [unfold with_block; cbn; by rewrite insert_insert_eq|].
    eapply slices_cons; [lia|rewrite Z2Nat.id by (destruct Hbox; lia); done|done|exact Hrc|].
    replace (box_at esz t l x y z + slice_stride esz t l) with (box_at esz t l x y (z + 1)) by (unfold box_at; lia). done.
Qed.

(** [Data3D] copies the slices [zoff .. d - 1] of the box, where the client asked for
    [d] slices from [zoff]: its loop stops at [d] instead of [zoff + d].  The copied
    slices are the first [d - zoff] of the client's data, exact to the byte; nothing else
    changes, and with [zoff >= d] nothing is written at all. *)
Theorem data3D_slices obj_at W a esz t b ld l x y z w h d bs ls os ss :
  attached W a esz t b ld -> box_in esz t l x y z w h (Z.max 0 (d - z)) -> b <> bs ->
  blocks (w_heap W) !! bs = Some ls -> 0 <= os -> 0 <= ss ->
  (forall r : nat, (r < Z.to_nat (d - z) * Z.to_nat h)%nat -> os + Z.of_nat r * stride_or ss (esz * w) + esz * w <= zlen ls) ->
  exists ld' a', rsdAllocationData3D obj_at W a x y z (Z.of_nat l) w h d (mkPtr (Some bs) os) ss = Ok (with_block W b ld', a') /\
    slices_copied ld ls ld' (box_at esz t l x y z) os (esz * w) (slice_stride esz t l) (stride_at esz t l)
      (stride_or ss (esz * w)) (Z.to_nat h) (Z.to_nat (d - z)).
Proof.
  intros Hat Hbox Hne Hbs Hos Hss Hrows. destruct (rect_bounds _ _ _ _ _ _ _ _ _ _ _ _ Hat (box_rect _ _ _ _ _ _ _ _ _ Hbox)) as (Hline & Hl32 & _).
  pose proof Hat as [Hfit Htab Hesz Hyuv Hrefs [dr Hdrv] Hmem Hsz]. unfold rsdAllocationData3D.
  rewrite (znth_lookup _ _ _ (ta_lod _ _ _ _ Htab 0%nat ltac:(pose proof (tf_count _ _ Hfit); lia)) : znth _ 0 = _).
  cbn [mbind outcome_bind]. rewrite Hesz, u32_small by lia. fold (stride_or ss (esz * w)). cbn [mallocPtr level].
  unfold ptr_add at 1. cbn [p_block p_off]. rewrite is_null_Some. unfold rounds.
  assert (0 <= stride_or ss (esz * w)) by (unfold stride_or; destruct (ss =? 0); lia).
  destruct (data_slices_copied obj_at a esz t b bs ls l x y w h (stride_or ss (esz * w)) (Z.to_nat (d - z)) Hne ltac:(lia) W z os ld)
    as (ld' & -> & Hsc); try done.
  { replace (Z.of_nat (Z.to_nat (d - z))) with (Z.max 0 (d - z)) by lia. done. }
  cbn [mbind outcome_bind]. unfold set_deferred. rewrite Hdrv. cbn [of_option mbind outcome_bind]. eauto.
Qed.

(** ** Creation and destruction *)

Definition heap_fresh (h : heap) : Prop := forall b, is_Some (blocks h !! b) -> (b < nextBlock h)%positive.

Lemma fresh_None h : heap_fresh h -> blocks h !! nextBlock h = None.
Proof. intros Hf. destruct (blocks h !! nextBlock h) eqn:E; [|done]. specialize (Hf (nextBlock h) ltac:(eauto)). lia. Qed.

(** The memory of a new allocation: zeroed when the data will hold references. *)
Definition fresh_cells (n : Z) (zero : bool) : list cell := replicate (Z.to_nat n) (if zero then Some 0 else None).

Lemma allocAlignedMemory_Ok mem_ok h n zero :
  mem_ok n = true -> 0 <= n ->
  allocAlignedMemory mem_ok h n zero =
    Ok (mkPtr (Some (nextBlock h)) 0, mkHeap (<[nextBlock h := fresh_cells n zero]> (blocks h)) (Pos.succ (nextBlock h))).
Proof.
  intros Hok Hn. unfold allocAlignedMemory, malloc. rewrite Hok, is_null_Some. destruct zero; [|done].
  unfold memset. destruct (Z.ltb_spec n 0); [lia|]. set (h1 := mkHeap _ _).
  destruct (store_Ok h1 (nextBlock h) (replicate (Z.to_nat n) None) 0 (replicate (Z.to_nat n) (Some 0))) as (l' & Hw & ->).
  { cbn. by rewrite lookup_insert_eq. } { lia. } { rewrite !zlen_replicate by lia. lia. }
  cbn [mbind outcome_bind]. unfold h1. cbn [blocks nextBlock]. rewrite insert_insert_eq. do 4 f_equal.
  unfold zwrite in Hw. rewrite !zlen_replicate in Hw by lia. rewrite decide_True in Hw by lia. injection Hw as <-.
  cbn [take Z.to_nat]. rewrite Z.add_0_l. rewrite drop_ge by (rewrite length_replicate; lia). apply app_nil_r.
Qed.

(** The allocation the driver is given: of type [t], without a pointer of the client
    and not backed by a window. *)
Record plain_request (W : world) (a : Allocation) (esz : Z) (x : id) (t : Type_) : Prop := {
  pr_type : a_type a = Some x;
  pr_body : as_type (w_ctx W) x = Ok t;
  pr_size : getElementSizeBytes (w_ctx W) t = Ok esz;
  pr_fits : type_fits esz t;
  pr_esz : elementSizeBytes a = esz;
  pr_yuv : a_yuv a = 0;
  pr_lod : length (lod (drvState a)) = 16%nat;
  pr_user : userProvidedPtr a = NULL;
  pr_input : flag a RS_ALLOCATION_USAGE_IO_INPUT = false;
  pr_output : flag a RS_ALLOCATION_USAGE_IO_OUTPUT = false
}.

Lemma init_Ok (mem_ok : Z -> bool) obj_at W a esz x t zero :
  plain_request W a esz x t ->
  let n := alloc_size esz t in
  if mem_ok n then
    exists s d, let W' := with_heap W (mkHeap (<[nextBlock (w_heap W) := fresh_cells n zero]> (blocks (w_heap W))) (Pos.succ (nextBlock (w_heap W)))) in
      rsdAllocationInit mem_ok obj_at W a zero = Ok (true, W', set_drv (set_drvState a s) (Some d)) /\
      useUserProvidedPtr d = false /\ table_at esz t (mkPtr (Some (nextBlock (w_heap W))) 0) s
  else exists s, rsdAllocationInit mem_ok obj_at W a zero = Ok (false, W, set_drv (set_drvState a s) None) /\ table_at esz t NULL s.
Proof.
  intros [Hx Hb Hsz Hfit He Hyuv Hlod Hu Hin Hout] n. destruct (face_size_nonneg esz t Hfit) as [_ Hn0]. fold n in Hn0.
  assert (forall W', w_ctx W' = w_ctx W -> getType W' (set_drv a (Some (mkDrv false false))) = Ok t) as Hgt.
  { intros W' E. unfold getType. cbn. rewrite Hx, E. done. }
  unfold rsdAllocationInit. rewrite Hgt by done. cbn [mbind outcome_bind].
  destruct (build_table (w_ctx W) (set_drv a (Some (mkDrv false false))) t NULL esz) as (s0 & -> & Hs0); try done.
  cbn [mbind outcome_bind]. unfold init_memory. cbn [set_drvState set_drv flag usageFlags userProvidedPtr] in *.
  unfold flag in Hin, Hout |- *. cbn [usageFlags set_drv set_drvState]. rewrite Hin, Hout, Hu. change (is_null NULL) with true. cbn [negb andb]. fold n.
  destruct (mem_ok n) eqn:Hok.
  - rewrite (allocAlignedMemory_Ok mem_ok _ n zero Hok Hn0). cbn [mbind outcome_bind]. rewrite is_null_Some. cbn [mbind outcome_bind w_ctx with_heap].
    edestruct (build_table (w_ctx W)) as (s1 & -> & Hs1); [exact Hsz|exact Hfit|exact Hyuv|exact (ta_length _ _ _ _ Hs0)|].
    cbn [mbind outcome_bind userProvidedPtr set_drv set_drvState]. rewrite Hu. change (is_null NULL) with true. eexists s1, _. split; [reflexivity|]. done.
  - unfold allocAlignedMemory, malloc. rewrite Hok. cbn. exists s0. split; [by destruct W|done].
Qed.

Lemma init_attached (mem_ok : Z -> bool) obj_at W a esz x t zero :
  plain_request W a esz x t -> hasReferences a = false -> mem_ok (alloc_size esz t) = true ->
  exists W' a', rsdAllocationInit mem_ok obj_at W a zero = Ok (true, W', a') /\
    attached W' a' esz t (nextBlock (w_heap W)) (fresh_cells (alloc_size esz t) zero) /\
    blocks (w_heap W') = <[nextBlock (w_heap W) := fresh_cells (alloc_size esz t) zero]> (blocks (w_heap W)) /\
    nextBlock (w_heap W') = Pos.succ (nextBlock (w_heap W)) /\ w_ctx W' = w_ctx W /\ a_type a' = a_type a.
Proof.
  intros Hpr Href Hok. pose proof (init_Ok mem_ok obj_at W a esz x t zero Hpr) as Hi. cbv zeta in Hi. rewrite Hok in Hi.
  destruct Hi as (s & d & -> & Hu & Htab). eexists _, _. split; [reflexivity|]. destruct Hpr as [_ _ _ Hfit He Hyuv _ _ _ _].
  destruct (face_size_nonneg _ _ Hfit). split; [|done]. split; try done; [cbn; by rewrite lookup_insert_eq|by apply zlen_replicate].
Qed.

Lemma destroy_own W a b l0 d :
  lod (drvState a) !! 0%nat = Some l0 -> mallocPtr l0 = mkPtr (Some b) 0 -> a_drv a = Some d -> useUserProvidedPtr d = false ->
  flag a RS_ALLOCATION_USAGE_IO_INPUT = false -> flag a RS_ALLOCATION_USAGE_IO_OUTPUT = false ->
  is_Some (blocks (w_heap W) !! b) ->
  exists a', rsdAllocationDestroy W a = Ok (with_heap W (mkHeap (delete b (blocks (w_heap W))) (nextBlock (w_heap W))), a') /\ a_drv a' = None.
Proof.
  intros Hl Hp Hd Hu Hi Ho [cells Hb]. unfold rsdAllocationDestroy. rewrite (znth_lookup _ _ _ Hl : znth _ 0 = _).
  cbn [mbind outcome_bind]. rewrite Hp, is_null_Some, Hd. cbn [of_option mbind outcome_bind].
  rewrite Hu, Hi, Ho. cbn [negb andb]. unfold free. rewrite is_null_Some. rewrite (content_Ok _ _ _ _ Hb). cbn [mbind outcome_bind p_off Z.eqb].
  rewrite (zset_Ok (lod (drvState a)) 0 _ (lookup_lt_Some _ _ _ Hl) : zset _ 0 _ = _). cbn [mbind outcome_bind]. eauto.
Qed.

(** a new allocation without a pointer of the client gets one zeroed or unwritten
    block of exactly the size its level table needs, no other memory changes, and
    destroying it gives the block back; when memory runs out the driver reports
    failure, changes nothing, and destroying the half-made allocation is harmless. *)
Theorem rsdAllocationInit_Destroy (mem_ok : Z -> bool) obj_at W a esz x t zero :
  plain_request W a esz x t -> heap_fresh (w_heap W) ->
  let n := alloc_size esz t in let b := nextBlock (w_heap W) in
  if mem_ok n then
    exists W' a' W'' a'', rsdAllocationInit mem_ok obj_at W a zero = Ok (true, W', a') /\
      table_at esz t (mkPtr (Some b) 0) (drvState a') /\ blocks (w_heap W) !! b = None /\
      blocks (w_heap W') = <[b := fresh_cells n zero]> (blocks (w_heap W)) /\ w_ctx W' = w_ctx W /\
      rsdAllocationDestroy W' a' = Ok (W'', a'') /\ blocks (w_heap W'') = blocks (w_heap W) /\ a_drv a'' = None
  else
    exists a' a'', rsdAllocationInit mem_ok obj_at W a zero = Ok (false, W, a') /\ a_drv a' = None /\
      rsdAllocationDestroy W a' = Ok (W, a'').
Proof.
  intros Hpr Hfr n b. pose proof (init_Ok mem_ok obj_at W a esz x t zero Hpr) as Hi. pose proof (fresh_None _ Hfr) as Hb. cbv zeta in Hi.
  pose proof (tf_count _ _ (pr_fits _ _ _ _ _ Hpr)) as Hc. fold n in Hi. destruct (mem_ok n).
  - destruct Hi as (s & d & -> & Hu & Hs). pose proof (ta_lod _ _ _ _ Hs 0%nat ltac:(lia)) as Hl0.
    set (W' := with_heap W _). destruct (destroy_own W' (set_drv (set_drvState a s) (Some d)) b _ d Hl0) as (a'' & Ed & Hd); try done.
    + apply (pr_input _ _ _ _ _ Hpr). + apply (pr_output _ _ _ _ _ Hpr). + cbn. rewrite lookup_insert_eq. eauto.
    + eexists W', _, _, a''. split_and!; try done. cbn. by rewrite delete_insert_id.
  - destruct Hi as (s & -> & Hs). pose proof (ta_lod _ _ _ _ Hs 0%nat ltac:(lia)) as Hl0. eexists _, _. split_and!; [done|done|].
    unfold rsdAllocationDestroy. cbn [drvState set_drv set_drvState]. rewrite (znth_lookup _ _ _ Hl0 : znth _ 0 = _). done.
Qed.

(** the level table: the driver lays the levels of an allocation out one after the
    other without gaps or overlap, level and row starts are multiples of 16, a row holds
    its cells, and the size it returns, the same whatever the base address is, is that
    of all levels of all faces. *)
Theorem pointer_table_layout c a t p esz :
  getElementSizeBytes c t = Ok esz -> type_fits esz t -> a_yuv a = 0 -> length (lod (drvState a)) = 16%nat ->
  exists s (off : nat -> Z), AllocationBuildPointerTable c a t p = Ok (alloc_size esz t, set_drvState a s) /\
    off 0%nat = 0 /\ off (Z.to_nat (lodCount (t_mHal t))) = faceOffset s /\
    alloc_size esz t = face_count t * faceOffset s /\
    forall l : nat, Z.of_nat l < lodCount (t_mHal t) ->
      exists e, lod s !! l = Some e /\ mallocPtr e = ptr_add p (off l) /\ (16 | off l) /\ (16 | stride e) /\
        l_dimX e * esz <= stride e < l_dimX e * esz + 16 /\ off (S l) = off l + stride e * Z.max (l_dimY e) 1 * Z.max (l_dimZ e) 1.
Proof.
  intros Hsz Hfit Hyuv Hlen. destruct (build_table c a t p esz Hsz Hfit Hyuv Hlen) as (s & E & [_ _ _ Hoff Hlod]).
  exists s, (level_off esz (dimX (t_mHal t)) (dimY (t_mHal t)) (dimZ (t_mHal t))). split; [done|]. split; [done|]. split; [done|]. split.
  { unfold alloc_size, face_count. rewrite Hoff. destruct (faces _); lia. }
  intros l Hl. eexists. split; [by apply Hlod|]. cbn [level mallocPtr stride l_dimX l_dimY l_dimZ].
  split; [done|]. split; [apply level_off_16|]. split; [apply roundup_divide; lia|]. split; [|done].
  apply roundup_bounds. lia.
Qed.

(** ** Claims on the data *)

(** C38: what is written to a rectangle of any level and face is read back: [Read2D] after
    [Data2D] on the same rectangle gives the client the bytes it wrote, row by row,
    whatever strides the two client buffers have. *)
Theorem data2D_read2D obj_at W a esz t b ld l face x y w h bs ls os ss bd lc od ds :
  attached W a esz t b ld -> rect_in t l face x y w h -> b <> bs -> b <> bd -> bs <> bd ->
  client_rows W bs ls os ss (esz * w) h -> client_rows W bd lc od ds (esz * w) h -> esz * w <= stride_or ds (esz * w) ->
  exists W' a' W'' lc', rsdAllocationData2D obj_at W a x y (Z.of_nat l) face w h (mkPtr (Some bs) os) ss = Ok (W', a') /\
    rsdAllocationRead2D W' a' x y (Z.of_nat l) face w h (mkPtr (Some bd) od) ds = Ok W'' /\
    blocks (w_heap W'') !! bd = Some lc' /\
    (forall r j : nat, Z.of_nat r < h -> Z.of_nat j < esz * w ->
      lc' !! Z.to_nat (od + Z.of_nat r * stride_or ds (esz * w) + Z.of_nat j) =
      ls !! Z.to_nat (os + Z.of_nat r * stride_or ss (esz * w) + Z.of_nat j)).
Proof.
  intros Hat Hr Hn1 Hn2 Hn3 Hcs Hcd Hwide.
  destruct (data2D_rows obj_at _ _ _ _ _ _ _ _ _ _ _ _ _ _ _ _ Hat Hr Hn1 Hcs) as (ld' & a' & -> & Hrc & Hat').
  destruct (read2D_rows _ _ _ _ _ _ l face x y w h bd lc od ds Hat' Hr Hn2) as (lc' & E & Hrc'); [|done|].
  { destruct Hcd as [Hm Ho Hs Hi]. split; try done. cbn. by rewrite lookup_insert_ne. }
  eexists _, a', _, lc'. split; [done|]. split; [done|]. split; [cbn; by rewrite lookup_insert_eq|].
  intros r j Hr' Hj. rewrite (rc_in _ _ _ _ _ _ _ _ _ Hrc') by lia. rewrite <- (rc_in _ _ _ _ _ _ _ _ _ Hrc) by lia. done.
Qed.

(** a write to a rectangle changes no other level and no other face of the
    allocation, and no other block of memory. *)
Theorem data2D_frame obj_at W a esz t b ld l face x y w h bs ls os ss :
  attached W a esz t b ld -> rect_in t l face x y w h -> b <> bs -> client_rows W bs ls os ss (esz * w) h ->
  exists ld' a', rsdAllocationData2D obj_at W a x y (Z.of_nat l) face w h (mkPtr (Some bs) os) ss = Ok (with_block W b ld', a') /\
    attached (with_block W b ld') a' esz t b ld' /\
    forall l' face' k, Z.of_nat l' < lodCount (t_mHal t) -> 0 <= face' < face_count t -> (l', face') <> (l, face) ->
      level_at esz t l' face' <= Z.of_nat k < level_at esz t l' face' + level_bytes esz t l' -> ld' !! k = ld !! k.
Proof.
  intros Hat Hr Hne Hcs. destruct (data2D_rows obj_at _ _ _ _ _ _ _ _ _ _ _ _ _ _ _ _ Hat Hr Hne Hcs) as (ld' & a' & -> & Hrc & Hat').
  exists ld', a'. split; [done|]. split; [done|]. intros l' face' k Hl' Hf' Hdiff Hk. apply (rc_out _ _ _ _ _ _ _ _ _ Hrc). intros r Hrow.
  pose proof (at_fits _ _ _ _ _ _ Hat) as Hfit. destruct (rect_row esz t l face x y w h r Hfit Hr ltac:(lia)) as [Hlo Hhi].
  pose proof (levels_disjoint esz t l face l' face' Hfit (ri_level _ _ _ _ _ _ _ Hr) (ri_face _ _ _ _ _ _ _ Hr) Hl' Hf' Hdiff). lia.
Qed.

(** the dimensions the driver records for level [l] of a mipmapped allocation are
    those the type gives level [l - 1]: its loop starts at level 1 with the dimensions of
    level 0 and halves them only afterwards. *)
Theorem level_dims_lag (J : gmap id obody -> state_caches -> Prop) ext us n c x t a p esz :
  W (EI (TI J)) ext us n c -> bodies c !! x = Some (BType t) ->
  getElementSizeBytes c t = Ok esz -> type_fits esz t -> a_yuv a = 0 -> length (lod (drvState a)) = 16%nat ->
  exists s, AllocationBuildPointerTable c a t p = Ok (alloc_size esz t, set_drvState a s) /\
    forall l : nat, 1 <= Z.of_nat l < lodCount (t_mHal t) ->
      exists e, lod s !! l = Some e /\ lodDimX (t_mHal t) !! (l - 1)%nat = Some (l_dimX e) /\
        lodDimY (t_mHal t) !! (l - 1)%nat = Some (l_dimY e) /\ lodDimZ (t_mHal t) !! (l - 1)%nat = Some (l_dimZ e).
Proof.
  intros HW Hx Hsz Hfit Hyuv Hlen. destruct (build_table c a t p esz Hsz Hfit Hyuv Hlen) as (s & E & [_ _ _ _ Hlod]).
  destruct (W_type_tables J _ _ _ _ _ _ HW Hx) as (_ & _ & _ & _ & HX & HY & HZ).
  exists s. split; [done|]. intros l Hl. eexists. split; [apply Hlod; lia|]. rewrite HX, HY, HZ. cbn [level l_dimX l_dimY l_dimZ].
  unfold level_dim. replace (pred l) with (l - 1)%nat by lia. rewrite !list_lookup_fmap, !lookup_seq_lt by lia. done.
Qed.

Lemma table_loop_overflow esz n : forall l tx ty tz o ls offs,
  length ls = 16%nat -> length offs = 16%nat -> (l <= 16)%nat -> (16 < l + n)%nat ->
  table_loop n (Z.of_nat l) esz tx ty tz o ls offs = Fault OutOfBounds.
Proof.
  induction n as [|n IH]; intros l tx ty tz o ls offs Hls Hof Hl Hn; [lia|]. cbn [table_loop].
  destruct (decide (l = 16%nat)) as [->|].
  - unfold znth, zlen. by rewrite decide_False by lia.
  - destruct (lookup_lt_is_Some_2 ls l ltac:(lia)) as [e He]. rewrite (znth_lookup _ _ _ He). cbn [mbind outcome_bind].
    rewrite !zset_Ok by lia. cbn [mbind outcome_bind]. replace (Z.of_nat l + 1) with (Z.of_nat (S l)) by lia.
    apply IH; rewrite ?length_insert; lia.
Qed.

(** the driver's tables have [MAX_LOD] entries, but a type may have up to 32 levels:
    creating an allocation of a type with more than 16 writes past both tables. *)
Theorem pointer_table_overflow mem_ok obj_at W a x t esz zero :
  a_type a = Some x -> as_type (w_ctx W) x = Ok t -> getElementSizeBytes (w_ctx W) t = Ok esz ->
  length (lod (drvState a)) = 16%nat -> MAX_LOD < lodCount (t_mHal t) ->
  rsdAllocationInit mem_ok obj_at W a zero = Fault OutOfBounds.
Proof.
  intros Hx Ht Hsz Hlen Hc. unfold MAX_LOD in Hc. unfold rsdAllocationInit, getType. cbn [a_type set_drv]. rewrite Hx. cbn [of_option mbind outcome_bind].
  rewrite Ht. cbn [mbind outcome_bind]. unfold AllocationBuildPointerTable. rewrite Hsz. cbn [mbind outcome_bind drvState set_drv].
  rewrite (zset_Ok (lod (drvState a)) 0 _ ltac:(lia) : zset _ 0 _ = _). cbn [mbind outcome_bind]. unfold table_levels. cbn [ds_lodCount lod].
  destruct (Z.gtb_spec (lodCount (t_mHal t)) 1); [|lia].
  rewrite (table_loop_overflow _ _ 1 : forall tx ty tz o ls offs, _ -> _ -> _ -> _ -> table_loop _ 1 _ _ _ _ _ _ _ = _);
    [done|by rewrite length_insert|done|lia|lia].
Qed.

(** ** Resizing *)

Definition one_dim (t : Type_) : Prop :=
  dimY (t_mHal t) = 0 /\ dimZ (t_mHal t) = 0 /\ lodCount (t_mHal t) = 1 /\ faces (t_mHal t) = false.

Lemma one_dim_size esz t : type_fits esz t -> one_dim t -> alloc_size esz t = roundup 16 (dimX (t_mHal t) * esz).
Proof.
  intros [_ (Hx & _) _ _] (Hy & Hz & Hl & Hf). unfold alloc_size, face_size. rewrite Hf, Hl, Hy, Hz. change (Z.to_nat 1) with 1%nat. cbn [level_off].
  unfold level_size, level_stride, level_dim. cbn [pred]. rewrite (lod_dim_0 (dimX _)) by lia. rewrite (lod_dim_0 0) by lia. change (Z.max 0 1) with 1. lia.
Qed.

Lemma realloc_Ok mem_ok h b old n :
  heap_fresh h -> blocks h !! b = Some old -> mem_ok n = true -> 0 <= n ->
  exists l, realloc mem_ok h (mkPtr (Some b) 0) n =
      Ok (mkPtr (Some (nextBlock h)) 0, mkHeap (<[nextBlock h := l]> (delete b (blocks h))) (Pos.succ (nextBlock h))) /\
    zlen l = n /\ forall k : nat, Z.of_nat k < n -> Z.of_nat k < zlen old -> l !! k = old !! k.
Proof.
  intros Hfr Hb Hok Hn. assert (nextBlock h <> b) as Hne.
  { specialize (Hfr b ltac:(eauto)). intros E. rewrite E in Hfr. lia. }
  unfold realloc. rewrite is_null_Some, (content_Ok _ _ _ _ Hb). cbn [mbind outcome_bind p_off Z.eqb negb]. unfold malloc. rewrite Hok, is_null_Some.
  set (h1 := mkHeap _ _).
  assert (zlen (take (Z.to_nat n) old) <= n) by (unfold zlen; rewrite length_take; lia).
  destruct (store_Ok h1 (nextBlock h) (replicate (Z.to_nat n) None) 0 (take (Z.to_nat n) old)) as (l & Hw & ->).
  { cbn. by rewrite lookup_insert_eq. } { lia. } { rewrite zlen_replicate by lia. lia. }
  cbn [mbind outcome_bind]. unfold free. rewrite is_null_Some.
  erewrite content_Ok by (cbn; rewrite lookup_insert_ne, lookup_insert_ne by done; exact Hb). cbn [mbind outcome_bind p_off Z.eqb].
  exists l. split_and!.
  - unfold h1. cbn [blocks nextBlock]. rewrite insert_insert_eq. by rewrite delete_insert_ne by done.
  - by rewrite (zwrite_length _ _ _ _ Hw), zlen_replicate by lia.
  - intros k Hk Hk'. assert (Z.of_nat k < zlen (take (Z.to_nat n) old)) by (unfold zlen in *; rewrite length_take; lia).
    rewrite (zwrite_lookup_in _ _ _ _ _ Hw) by lia. rewrite Z.sub_0_r, Nat2Z.id. apply lookup_take_lt. lia.
Qed.

(** resizing a one-dimensional allocation moves it to a block of the new size that
    starts with the old cells, as many as both sizes have, and zeroes the cells that are
    new; the old block is released. *)
Theorem resize1D_keeps mem_ok W a esz t t' b ld :
  attached W a esz t b ld -> heap_fresh (w_heap W) -> one_dim t -> one_dim t' -> type_fits esz t' ->
  getElementSizeBytes (w_ctx W) t' = Ok esz -> flag a RS_ALLOCATION_USAGE_SHARED = false -> mem_ok (alloc_size esz t') = true ->
  let oldX := dimX (t_mHal t) in let newX := dimX (t_mHal t') in let nb := nextBlock (w_heap W) in
  exists W' a' l', rsdAllocationResize mem_ok W a t' = Ok (W', a') /\
    blocks (w_heap W') = <[nb := l']> (delete b (blocks (w_heap W))) /\ table_at esz t' (mkPtr (Some nb) 0) (drvState a') /\
    zlen l' = alloc_size esz t' /\
    (forall k : nat, Z.of_nat k < Z.min oldX newX * esz -> l' !! k = ld !! k) /\
    (forall k : nat, oldX * esz <= Z.of_nat k < newX * esz -> l' !! k = Some (Some 0)).
Proof.
  intros Hat Hfr Hone Hone' Hfit' Hsz Hsh Hok oldX newX nb. pose proof Hat as [Hfit Htab Hesz Hyuv _ _ Hmem Hlen].
  pose proof (one_dim_size _ _ Hfit Hone) as Hs. pose proof (one_dim_size _ _ Hfit' Hone') as Hs'.
  pose proof (roundup_bounds 16 (oldX * esz) ltac:(lia)). pose proof (roundup_bounds 16 (newX * esz) ltac:(lia)).
  pose proof (tf_esz _ _ Hfit) as He. pose proof (tf_size _ _ Hfit'). pose proof (tf_size _ _ Hfit).
  assert (0 <= oldX < 2 ^ 32 /\ 0 <= newX < 2 ^ 32) as [Ho Hn] by (split; [apply (tf_dims _ _ Hfit)|apply (tf_dims _ _ Hfit')]).
  assert (0 <= oldX * esz /\ 0 <= newX * esz) as [? ?] by (split; apply Z.mul_nonneg_nonneg; lia).
  fold oldX in Hs. fold newX in Hs'.
  unfold rsdAllocationResize. rewrite (znth_lookup _ _ _ (ta_lod _ _ _ _ Htab 0%nat ltac:(pose proof (tf_count _ _ Hfit); lia)) : znth _ 0 = _).
  cbn [mbind outcome_bind]. rewrite Hsh. cbn [level l_dimX mallocPtr level_off]. rewrite ptr_add_0. unfold level_dim. cbn [pred]. fold oldX newX.
  rewrite (lod_dim_0 oldX) by lia.
  destruct (build_table (w_ctx W) a t' NULL esz Hsz Hfit' Hyuv (ta_length _ _ _ _ Htab)) as (s0 & -> & Hs0). cbn [mbind outcome_bind].
  destruct (realloc_Ok mem_ok (w_heap W) b ld (alloc_size esz t') Hfr Hmem Hok ltac:(lia)) as (l & -> & Hll & Hkeep). cbn [mbind outcome_bind]. fold nb.
  destruct (build_table (w_ctx W) (set_drvState a s0) t' (mkPtr (Some nb) 0) esz Hsz Hfit' Hyuv (ta_length _ _ _ _ Hs0)) as (s1 & -> & Hs1).
  cbn [mbind outcome_bind drvState set_drvState elementSizeBytes]. rewrite Hesz.
  assert (Hold : forall k : nat, Z.of_nat k < Z.min oldX newX * esz -> l !! k = ld !! k).
  { intros k Hk. apply Hkeep; nia. }
  destruct (Z.gtb_spec newX oldX) as [Hgt|Hle].
  - rewrite (znth_lookup _ _ _ (ta_lod _ _ _ _ Hs1 0%nat ltac:(pose proof (tf_count _ _ Hfit'); lia)) : znth _ 0 = _).
    cbn [mbind outcome_bind level mallocPtr level_off]. rewrite ptr_add_0. assert (esz * (newX - oldX) = newX * esz - oldX * esz) by lia.
    rewrite (u64_small (esz * oldX)), (u64_small (esz * (newX - oldX))) by nia. unfold memset. destruct (Z.ltb_spec (esz * (newX - oldX)) 0); [nia|].
    unfold ptr_add. cbn [p_block p_off]. rewrite Z.add_0_l. set (h1 := mkHeap _ _).
    destruct (store_Ok h1 nb l (esz * oldX) (replicate (Z.to_nat (esz * (newX - oldX))) (Some 0))) as (l' & Hw & ->).
    { cbn. by rewrite lookup_insert_eq. } { lia. } { rewrite zlen_replicate by lia. lia. }
    cbn [mbind outcome_bind]. eexists _, _, l'. split; [reflexivity|]. split; [unfold h1; cbn; by rewrite insert_insert_eq|]. split; [done|].
    split; [by rewrite (zwrite_length _ _ _ _ Hw)|]. split; intros k Hk.
    + rewrite (zwrite_lookup_out _ _ _ _ _ Hw) by nia. by apply Hold.
    + rewrite (zwrite_lookup_in _ _ _ _ _ Hw) by (rewrite zlen_replicate by lia; lia). apply lookup_replicate_2. lia.
  - eexists _, _, l. split; [reflexivity|]. split_and!; try done. intros k Hk. nia.
Qed.

(** ** Mipmaps *)

(** The filtered pixel [x] of a row. *)
Definition mip_pixel (px : nat) (f : Z -> Z -> Z -> Z -> Z) (l : list cell) (i1 i2 : Z) (x : nat) : Z :=
  let p := Z.of_nat px in let k := 2 * Z.of_nat x * p in
  f (pixel px l (i1 + k)) (pixel px l (i1 + k + p)) (pixel px l (i2 + k)) (pixel px l (i2 + k + p)).

Lemma mip_pixel_ext px f l l1 i1 i2 x :
  let k := 2 * Z.of_nat x * Z.of_nat px in let n := 2 * Z.of_nat px in
  0 <= i1 -> 0 <= i2 -> zlen l1 = zlen l -> i1 + k + n <= zlen l -> i2 + k + n <= zlen l ->
  (forall j : nat, i1 + k <= Z.of_nat j < i1 + k + n \/ i2 + k <= Z.of_nat j < i2 + k + n -> l1 !! j = l !! j) ->
  mip_pixel px f l1 i1 i2 x = mip_pixel px f l i1 i2 x.
Proof.
  intros k n H1 H2 Hl L1 L2 Heq. unfold mip_pixel. fold k. assert (0 <= k) by (unfold k; nia). unfold n in *.
  f_equal; (apply pixel_ext; [lia|lia|done|]; intros j Hj; apply Heq; lia).
Qed.

Lemma mip_pixel_shift px f l i1 i2 x :
  mip_pixel px f l (i1 + 2 * Z.of_nat px) (i2 + 2 * Z.of_nat px) x = mip_pixel px f l i1 i2 (S x).
Proof. unfold mip_pixel. f_equal; f_equal; lia. Qed.

Lemma mip_row_Ok px f b n : forall h o i1 i2 l,
  let p := Z.of_nat px in let out := Z.of_nat n * p in
  blocks h !! b = Some l -> 0 <= o -> 0 <= i1 -> 0 <= i2 -> o + out <= zlen l -> i1 + 2 * out <= zlen l -> i2 + 2 * out <= zlen l ->
  written l i1 (2 * out) -> written l i2 (2 * out) -> o + out <= i1 \/ i1 + 2 * out <= o -> o + out <= i2 \/ i2 + 2 * out <= o ->
  exists l', mip_row px f n h (mkPtr (Some b) o) (mkPtr (Some b) i1) (mkPtr (Some b) i2) =
      Ok (mkHeap (<[b := l']> (blocks h)) (nextBlock h)) /\ zlen l' = zlen l /\
    (forall x j : nat, (x < n)%nat -> (j < px)%nat ->
       l' !! Z.to_nat (o + Z.of_nat x * p + Z.of_nat j) = le_bytes px (mip_pixel px f l i1 i2 x) !! j) /\
    (forall k : nat, Z.of_nat k < o \/ o + out <= Z.of_nat k -> l' !! k = l !! k).
Proof.
  induction n as [|n IH]; intros h o i1 i2 l p out Hb Ho H1 H2 Lo L1 L2 W1 W2 D1 D2; cbn [mip_row].
  { exists l. rewrite insert_id by done. destruct h. split_and!; try done; intros; lia. }
  assert (0 <= p) by (unfold p; lia). assert (out = p + Z.of_nat n * p) as Eout by (unfold out; lia). clearbody out. subst out.
  assert (0 <= Z.of_nat n * p) by (apply Z.mul_nonneg_nonneg; lia). fold p. unfold ptr_add. cbn [p_block p_off].
  assert (Hld : forall k, 0 <= k -> (exists i, (i = i1 \/ i = i2) /\ i <= k /\ k + p <= i + 2 * p) -> load_int h (mkPtr (Some b) k) p = Ok (pixel px l k)).
  { intros k Hk (i & Hi & Hlo & Hhi). apply load_int_Ok; try done; fold p; [destruct Hi; lia|].
    destruct Hi as [-> | ->]; [eapply written_sub; [..|exact W1]|eapply written_sub; [..|exact W2]]; lia. }
  rewrite !Hld by (first [lia|exists i1; split; [by left|lia]|exists i2; split; [by right|lia]]). cbn [mbind outcome_bind].
  set (v := f _ _ _ _). unfold store_int.
  destruct (store_Ok h b l o (le_bytes px v) Hb Ho) as (l1 & Hw & ->); [unfold zlen in *; rewrite le_bytes_length; lia|]. cbn [mbind outcome_bind].
  assert (Hout1 : forall k : nat, Z.of_nat k < o \/ o + p <= Z.of_nat k -> l1 !! k = l !! k).
  { intros k Hk. apply (zwrite_lookup_out _ _ _ _ _ Hw). unfold zlen. rewrite le_bytes_length. lia. }
  pose proof (zwrite_length _ _ _ _ Hw) as Hl1. set (h1 := mkHeap _ _).
  edestruct (IH h1 (o + p) (i1 + 2 * p) (i2 + 2 * p) l1) as (l' & -> & Hl' & Hin & Hout); fold p; try lia.
  { cbn. by rewrite lookup_insert_eq. }
  { eapply written_ext; [|eapply written_sub; [..|exact W1]; lia]. intros j Hj. apply Hout1. lia. }
  { eapply written_ext; [|eapply written_sub; [..|exact W2]; lia]. intros j Hj. apply Hout1. lia. }
  fold p in Hin, Hout. exists l'. split; [unfold h1; cbn; by rewrite insert_insert_eq|]. split; [lia|]. split.
  - intros [|x] j Hx Hj.
    + rewrite Z.mul_0_l, Z.add_0_r. rewrite Hout by lia. rewrite (zwrite_lookup_in _ _ _ _ _ Hw) by (unfold zlen; rewrite le_bytes_length; lia).
      replace (Z.to_nat (Z.of_nat (Z.to_nat (o + Z.of_nat j)) - o)) with j by lia. unfold mip_pixel, v. fold p. by rewrite Z.mul_0_r, Z.mul_0_l, !Z.add_0_r.
    + replace (o + Z.of_nat (S x) * p) with (o + p + Z.of_nat x * p) by lia. rewrite Hin by lia. do 2 f_equal.
      assert (0 <= 2 * Z.of_nat x * p /\ 2 * Z.of_nat x * p + 2 * p <= 2 * (Z.of_nat n * p)) by nia.
      unfold p. rewrite mip_pixel_shift. apply mip_pixel_ext; try lia. intros k Hk. apply Hout1. lia.
  - intros k Hk. rewrite Hout by lia. apply Hout1. lia.
Qed.

Section mip_level.
Context (px : nat) (f : Z -> Z -> Z -> Z -> Z) (W0 : world) (a : Allocation) (t : Type_) (b : block) (ld0 : list cell) (l : nat) (face : Z).
Let esz := Z.of_nat px.
Let w := level_dim (dimX (t_mHal t)) (S l).
Let h' := level_dim (dimY (t_mHal t)) (S l).
Hypothesis Hat : attached W0 a esz t b ld0.
Hypothesis Hl : Z.of_nat (S l) < lodCount (t_mHal t).
Hypothesis Hf : 0 <= face < face_count t.
Hypothesis Hw : 2 * w <= level_dim (dimX (t_mHal t)) l.
Hypothesis Hh : 2 * h' <= level_dim (dimY (t_mHal t)) l.

Lemma mip_addr yy : 0 <= yy < level_dim (dimY (t_mHal t)) l ->
  GetOffsetPtr a 0 yy 0 (Z.of_nat l) face = Ok (mkPtr (Some b) (cell_at esz t l face 0 yy)) /\
  0 <= cell_at esz t l face 0 yy /\ cell_at esz t l face 0 yy + 2 * (w * esz) <= level_at esz t (S l) face.
Proof.
  intros Hy. pose proof (at_fits _ _ _ _ _ _ Hat) as Hfit. pose proof (tf_dims _ _ Hfit) as (Hdx & Hdy & _).
  pose proof (level_dim_range _ (S l) Hdx) as Hwr. fold w in Hwr.
  assert (rect_in t l face 0 yy (level_dim (dimX (t_mHal t)) l) 1) as Hr.
  { pose proof (level_dim_range _ l Hdx). split; lia. }
  split; [by apply (GetOffsetPtr_at _ _ _ _ _ _ _ _ _ _ _ _ Hat Hr)|].
  destruct (rect_row esz t l face _ _ _ _ 0 Hfit Hr ltac:(lia)) as [Hlo Hhi].
  destruct (level_inside esz t l face Hfit ltac:(lia) Hf) as (Hp & _). rewrite Z.mul_0_l, Z.add_0_r in Hlo, Hhi.
  assert (level_at esz t (S l) face = level_at esz t l face + level_bytes esz t l) as -> by (unfold level_at, level_bytes; cbn [level_off]; lia).
  split; [lia|]. assert (2 * w * esz <= level_dim (dimX (t_mHal t)) l * esz) by (apply Z.mul_le_mono_nonneg_r; lia). lia.
Qed.

Lemma mip_out y : 0 <= y < h' ->
  GetOffsetPtr a 0 y 0 (Z.of_nat l + 1) face = Ok (mkPtr (Some b) (cell_at esz t (S l) face 0 y)) /\
  level_at esz t (S l) face <= cell_at esz t (S l) face 0 y /\ cell_at esz t (S l) face 0 y + w * esz <= cell_at esz t (S l) face 0 (y + 1) /\
  cell_at esz t (S l) face 0 y + w * esz <= level_at esz t (S l) face + level_bytes esz t (S l).
Proof.
  intros Hy. pose proof (at_fits _ _ _ _ _ _ Hat) as Hfit. pose proof (tf_dims _ _ Hfit) as (Hdx & Hdy & _).
  pose proof (level_dim_range _ (S l) Hdx) as Hwr.
  assert (rect_in t (S l) face 0 y w 1) as Hr by (split; unfold w, h' in *; lia).
  replace (Z.of_nat l + 1) with (Z.of_nat (S l)) by lia. split; [by apply (GetOffsetPtr_at _ _ _ _ _ _ _ _ _ _ _ _ Hat Hr)|].
  destruct (rect_row esz t (S l) face _ _ _ _ 0 Hfit Hr ltac:(lia)) as [Hlo Hhi]. rewrite Z.mul_0_l, Z.add_0_r in Hlo, Hhi.
  pose proof (level_stride_range esz _ (tf_esz _ _ Hfit) Hdx (S l)) as Hst. fold (stride_at esz t (S l)) w in Hst.
  split; [done|]. split; [unfold cell_at; lia|lia].
Qed.

Lemma mip_rows_Ok n : forall y h ld,
  blocks h !! b = Some ld -> zlen ld = alloc_size esz t -> 0 <= y -> y + Z.of_nat n <= h' ->
  (forall yy, 0 <= yy < level_dim (dimY (t_mHal t)) l -> written ld (cell_at esz t l face 0 yy) (2 * (w * esz))) ->
  exists ld', mip_rows px f a (Z.of_nat l) face w (fun yy => GetOffsetPtr a 0 yy 0 (Z.of_nat l) face) n y h =
      Ok (mkHeap (<[b := ld']> (blocks h)) (nextBlock h)) /\ zlen ld' = zlen ld /\
    (forall (r : Z) (x j : nat), y <= r < y + Z.of_nat n -> Z.of_nat x < w -> (j < px)%nat ->
       ld' !! Z.to_nat (cell_at esz t (S l) face (Z.of_nat x) r + Z.of_nat j) =
       le_bytes px (mip_pixel px f ld (cell_at esz t l face 0 (2 * r)) (cell_at esz t l face 0 (2 * r + 1)) x) !! j) /\
    (forall k : nat, Z.of_nat k < cell_at esz t (S l) face 0 y \/ level_at esz t (S l) face + level_bytes esz t (S l) <= Z.of_nat k ->
       ld' !! k = ld !! k).
Proof.
  pose proof (at_fits _ _ _ _ _ _ Hat) as Hfit. pose proof (tf_dims _ _ Hfit) as (Hdx & Hdy & _).
  pose proof (level_dim_range _ (S l) Hdx) as Hwr. pose proof (level_dim_range _ (S l) Hdy) as Hhr. pose proof (level_dim_range _ l Hdy). fold w in Hwr. fold h' in Hhr.
  destruct (level_inside esz t (S l) face Hfit Hl Hf) as (_ & _ & Hend & Hend').
  induction n as [|n IH]; intros y h ld Hb Hlen Hy Hn Hwr'; cbn [mip_rows].
  { exists ld. rewrite insert_id by done. destruct h. split_and!; try done; intros; lia. }
  destruct (mip_out y ltac:(lia)) as (-> & Ho1 & Ho2 & Ho3). cbn [mbind outcome_bind].
  rewrite (u32_small (y * 2)), (u32_small (y * 2 + 1)) by lia.
  destruct (mip_addr (y * 2) ltac:(lia)) as (-> & Ha1 & Ha2). destruct (mip_addr (y * 2 + 1) ltac:(lia)) as (-> & Hb1 & Hb2). cbn [mbind outcome_bind].
  assert (0 <= w * esz) by (apply Z.mul_nonneg_nonneg; unfold esz; lia).
  assert (Hn' : Z.of_nat (Z.to_nat w) * Z.of_nat px = w * esz) by (unfold esz; rewrite Z2Nat.id by lia; done).
  destruct (mip_row_Ok px f b (Z.to_nat w) h (cell_at esz t (S l) face 0 y) (cell_at esz t l face 0 (y * 2)) (cell_at esz t l face 0 (y * 2 + 1)) ld)
    as (ld1 & -> & Hl1 & Hin1 & Hout1); rewrite ?Hn'; try lia; try done; [apply Hwr'; lia..|]. cbn [mbind outcome_bind]. rewrite Hn' in Hout1.
  set (h1 := mkHeap _ _). destruct (IH (y + 1) h1 ld1) as (ld' & -> & Hl' & Hin & Hout); try lia.
  { cbn. by rewrite lookup_insert_eq. }
  { intros yy Hyy. eapply written_ext; [|by apply Hwr']. intros j Hj. apply Hout1. destruct (mip_addr yy Hyy) as (_ & _ & ?). lia. }
  exists ld'. split; [unfold h1; cbn; by rewrite insert_insert_eq|]. split; [lia|]. split.
  - intros r x j Hr Hx Hj. assert (0 <= Z.of_nat x * esz /\ Z.of_nat x * esz + esz <= w * esz) by (unfold esz in *; nia).
    destruct (decide (r = y)) as [->|].
    + rewrite Hout by (unfold cell_at in *; unfold esz in *; lia). rewrite (Z.mul_comm 2 y). rewrite <- Hin1 by lia. f_equal. unfold cell_at, esz. lia.
    + rewrite Hin by lia. do 2 f_equal. destruct (mip_addr (2 * r) ltac:(lia)) as (_ & ? & ?). destruct (mip_addr (2 * r + 1) ltac:(lia)) as (_ & ? & ?).
      apply mip_pixel_ext; unfold esz in *; try lia. intros k Hk. apply Hout1. lia.
  - intros k Hk. rewrite Hout by lia. apply Hout1. lia.
Qed.

End mip_level.

(** The two filters whose input rows are addressed by [y]. *)
Inductive mip_filter : nat -> (Z -> Z -> Z -> Z -> Z) -> (Allocation -> Z -> Z -> heap -> outcome heap) -> Prop :=
| filter8888 : mip_filter 4 rsBoxFilter8888 mip8888
| filter8 : mip_filter 1 average8 mip8.

(** from level 1 on, a mipmap step is right: for a written level of at least 2 by 2
    cells each pixel of the next level becomes the filter of the four pixels that cover
    it, and nothing outside the next level changes. *)
Theorem mip_step_halves px f mip W a t b ld (l : nat) face :
  mip_filter px f mip -> attached W a (Z.of_nat px) t b ld -> (1 <= l)%nat -> Z.of_nat (S l) < lodCount (t_mHal t) -> 0 <= face < face_count t ->
  2 <= level_dim (dimX (t_mHal t)) l -> 2 <= level_dim (dimY (t_mHal t)) l ->
  (forall yy, 0 <= yy < level_dim (dimY (t_mHal t)) l ->
     written ld (cell_at (Z.of_nat px) t l face 0 yy) (level_dim (dimX (t_mHal t)) l * Z.of_nat px)) ->
  exists ld', mip a (Z.of_nat l) face (w_heap W) = Ok (mkHeap (<[b := ld']> (blocks (w_heap W))) (nextBlock (w_heap W))) /\
    (forall x y j : nat, Z.of_nat x < level_dim (dimX (t_mHal t)) l / 2 -> Z.of_nat y < level_dim (dimY (t_mHal t)) l / 2 -> (j < px)%nat ->
       let at_ x y := pixel px ld (cell_at (Z.of_nat px) t l face x y) in
       let x2 := 2 * Z.of_nat x in let y2 := 2 * Z.of_nat y in
       ld' !! Z.to_nat (cell_at (Z.of_nat px) t (S l) face (Z.of_nat x) (Z.of_nat y) + Z.of_nat j) =
       le_bytes px (f (at_ x2 y2) (at_ (x2 + 1) y2) (at_ x2 (y2 + 1)) (at_ (x2 + 1) (y2 + 1))) !! j) /\
    (forall k : nat, Z.of_nat k < level_at (Z.of_nat px) t (S l) face \/
       level_at (Z.of_nat px) t (S l) face + level_bytes (Z.of_nat px) t (S l) <= Z.of_nat k -> ld' !! k = ld !! k).
Proof.
  intros Hmip Hat Hl1 Hl Hf Hw Hh Hwr. pose proof (tf_dims _ _ (at_fits _ _ _ _ _ _ Hat)) as (Hdx & Hdy & _).
  assert (Hhalf : forall d, 0 <= d < 2 ^ 32 -> 2 <= level_dim d l -> level_dim d (S l) = level_dim d l / 2).
  { intros d Hd H2. unfold level_dim in *. cbn [pred]. replace l with (S (pred l)) at 1 by lia. rewrite <- halve_lod_dim by lia.
    unfold halve. destruct (Z.gtb_spec (lod_dim d (pred l)) 1); [|lia]. by rewrite Z.shiftr_div_pow2 by lia. }
  pose proof (level_dim_range _ (S l) Hdx). pose proof (level_dim_range _ (S l) Hdy). pose proof (Hhalf _ Hdx Hw) as Ew. pose proof (Hhalf _ Hdy Hh) as Eh.
  destruct (mip_rows_Ok px f W a t b ld l face Hat Hl Hf ltac:(cbv zeta; rewrite Ew; apply Z.mul_div_le; lia)
    ltac:(cbv zeta; rewrite Eh; apply Z.mul_div_le; lia) (Z.to_nat (level_dim (dimY (t_mHal t)) (S l))) 0 (w_heap W) ld)
    as (ld' & E & Hlen & Hin & Hout); [apply Hat|apply Hat|lia|lia| |].
  { intros yy Hyy. eapply written_sub; [..|by apply Hwr]; [lia|]. rewrite Ew. pose proof (Z.mul_div_le (level_dim (dimX (t_mHal t)) l) 2). nia. }
  exists ld'. split; [|split].
  - assert (znth (lod (drvState a)) (Z.of_nat l + 1) =
      Ok (level (Z.of_nat px) (dimX (t_mHal t)) (dimY (t_mHal t)) (dimZ (t_mHal t)) (mkPtr (Some b) 0) (S l))) as Ez.
    { replace (Z.of_nat l + 1) with (Z.of_nat (S l)) by lia. apply znth_lookup, (ta_lod _ _ _ _ (at_table _ _ _ _ _ _ Hat)). lia. }
    destruct Hmip; [unfold mip8888|unfold mip8]; rewrite Ez; exact E.
  - intros x y j Hx Hy Hj at_ x2 y2. rewrite (Hin (Z.of_nat y)) by lia. do 2 f_equal. unfold mip_pixel, at_, x2, y2. f_equal; f_equal; unfold cell_at; lia.
  - intros k Hk. apply Hout. unfold cell_at. lia.
Qed.

(** ** Examples: allocations of RGBA pixels, with two buffers of the client *)

Definition ex_rgba : ctx := ctx_of (createRef no_objects Component.RS_TYPE_UNSIGNED_8 Component.RS_KIND_PIXEL_RGBA true 4).
Definition ex_ctx (dx dy dz : Z) (mip : bool) : ctx := ctx_of (getTypeRef ex_rgba (Some 1%positive) dx dy dz mip false 0).
Definition ex_type (dx dy dz : Z) (mip : bool) : Type_ := Type_of (ex_ctx dx dy dz mip) 2%positive.
Definition ex_heap : heap :=
  mkHeap (<[1%positive := replicate 512 (Some 7)]> (<[2%positive := replicate 512 None]> ∅)) 3%positive.
Definition ex_world (dx dy dz : Z) (mip : bool) : world := mkWorld ex_heap (ex_ctx dx dy dz mip) [].
Definition ex_alloc (mip : bool) : Allocation :=
  mkAllocation (Some 2%positive) RS_ALLOCATION_USAGE_SCRIPT 0 0 4 mip false false NULL drvState_zero None.
Definition no_refs (bs : list cell) : outcome (option id) := Ok None.
Definition ex_init (dx dy dz : Z) (mip zero : bool) : world * Allocation :=
  match rsdAllocationInit (fun _ => true) no_refs (ex_world dx dy dz mip) (ex_alloc mip) zero with
  | Ok (_, W, a) => (W, a)
  | Fault _ => (ex_world dx dy dz mip, ex_alloc mip)
  end.
Definition ex_cells (dx dy dz : Z) (mip zero : bool) : list cell := fresh_cells (alloc_size 4 (ex_type dx dy dz mip)) zero.

Lemma ex_fits dx dy dz mip :
  (let t := ex_type dx dy dz mip in let h := t_mHal t in
   (0 <=? dimX h) && (dimX h <? 2 ^ 32) && (0 <=? dimY h) && (dimY h <? 2 ^ 32) && (0 <=? dimZ h) && (dimZ h <? 2 ^ 32) &&
   (1 <=? lodCount h) && (lodCount h <=? MAX_LOD) && (face_size 4 t <? 2 ^ 32)) = true ->
  type_fits 4 (ex_type dx dy dz mip).
Proof. rewrite !andb_true_iff, !Z.leb_le, !Z.ltb_lt. intros H. split; unfold dims_ok; cbv zeta; lia. Qed.

(** Every hypothesis of [init_Ok] and [attached] is decided by evaluation. *)
Lemma ex_request dx dy dz mip :
  type_fits 4 (ex_type dx dy dz mip) -> as_type (ex_ctx dx dy dz mip) 2%positive = Ok (ex_type dx dy dz mip) ->
  getElementSizeBytes (ex_ctx dx dy dz mip) (ex_type dx dy dz mip) = Ok 4 ->
  plain_request (ex_world dx dy dz mip) (ex_alloc mip) 4 2%positive (ex_type dx dy dz mip).
Proof. intros Hf Ht Hs. split; try done. Qed.

Lemma ex_attached dx dy dz mip zero :
  type_fits 4 (ex_type dx dy dz mip) -> as_type (ex_ctx dx dy dz mip) 2%positive = Ok (ex_type dx dy dz mip) ->
  getElementSizeBytes (ex_ctx dx dy dz mip) (ex_type dx dy dz mip) = Ok 4 ->
  let '(W, a) := ex_init dx dy dz mip zero in
  attached W a 4 (ex_type dx dy dz mip) 3%positive (ex_cells dx dy dz mip zero) /\
  blocks (w_heap W) = <[3%positive := ex_cells dx dy dz mip zero]> (blocks ex_heap) /\ heap_fresh (w_heap W).
Proof.
  intros Hf Ht Hs.
  destruct (init_attached (fun _ => true) no_refs _ _ _ _ _ zero (ex_request dx dy dz mip Hf Ht Hs)) as (W & a & E & Hat & Hb & Hn & _); [done|done|].
  unfold ex_init. rewrite E. split; [done|]. split; [done|]. unfold heap_fresh. rewrite Hb, Hn.
  intros b Hb'. cbn in Hb' |- *. destruct (decide (b = 3%positive)) as [->|]; [lia|]. rewrite lookup_insert_ne in Hb' by done.
    destruct (decide (b = 1%positive)) as [->|]; [lia|]. rewrite lookup_insert_ne in Hb' by done.
    destruct (decide (b = 2%positive)) as [->|]; [lia|]. rewrite lookup_insert_ne, lookup_empty in Hb' by done. by destruct Hb'.
Qed.

Lemma ex_image zero : let W := (ex_init 8 8 0 true zero).1 in let a := (ex_init 8 8 0 true zero).2 in
  attached W a 4 (ex_type 8 8 0 true) 3%positive (ex_cells 8 8 0 true zero) /\
  blocks (w_heap W) = <[3%positive := ex_cells 8 8 0 true zero]> (blocks ex_heap) /\ heap_fresh (w_heap W).
Proof.
  pose proof (ex_attached 8 8 0 true zero) as H. destruct (ex_init 8 8 0 true zero) as [W a].
  apply H; [apply ex_fits|..]; vm_compute; reflexivity.
Qed.

Lemma ex_volume : let W := (ex_init 4 4 4 false false).1 in let a := (ex_init 4 4 4 false false).2 in
  attached W a 4 (ex_type 4 4 4 false) 3%positive (ex_cells 4 4 4 false false) /\
  blocks (w_heap W) = <[3%positive := ex_cells 4 4 4 false false]> (blocks ex_heap) /\ heap_fresh (w_heap W).
Proof.
  pose proof (ex_attached 4 4 4 false false) as H. destruct (ex_init 4 4 4 false false) as [W a].
  apply H; [apply ex_fits|..]; vm_compute; reflexivity.
Qed.

Lemma ex_row : let W := (ex_init 10 0 0 false false).1 in let a := (ex_init 10 0 0 false false).2 in
  attached W a 4 (ex_type 10 0 0 false) 3%positive (ex_cells 10 0 0 false false) /\
  blocks (w_heap W) = <[3%positive := ex_cells 10 0 0 false false]> (blocks ex_heap) /\ heap_fresh (w_heap W).
Proof.
  pose proof (ex_attached 10 0 0 false false) as H. destruct (ex_init 10 0 0 false false) as [W a].
  apply H; [apply ex_fits|..]; vm_compute; reflexivity.
Qed.

(** A 3 by 2 rectangle at (1, 2) of level 0, and client buffers with rows of 16 bytes. *)
Lemma ex_rect : rect_in (ex_type 8 8 0 true) 0 0 1 2 3 2.
Proof. split; vm_compute; intuition congruence. Qed.

Lemma ex_rows W b l : blocks (w_heap W) !! b = Some l -> zlen l = 512 -> client_rows W b l 0 16 12 2.
Proof. intros Hb Hl. split; [done|lia|lia|]. intros r Hr. rewrite Hl. change (stride_or 16 12) with 16. lia. Qed.

Lemma rsdAllocationInit_Destroy_witness :
  exists W' a' W'' a'', rsdAllocationInit (fun _ => true) no_refs (ex_world 8 8 0 true) (ex_alloc true) false = Ok (true, W', a') /\
    table_at 4 (ex_type 8 8 0 true) (mkPtr (Some 3%positive) 0) (drvState a') /\ blocks ex_heap !! 3%positive = None /\
    blocks (w_heap W') = <[3%positive := fresh_cells (alloc_size 4 (ex_type 8 8 0 true)) false]> (blocks ex_heap) /\
    w_ctx W' = ex_ctx 8 8 0 true /\ rsdAllocationDestroy W' a' = Ok (W'', a'') /\ blocks (w_heap W'') = blocks ex_heap /\ a_drv a'' = None.
Proof.
  refine (rsdAllocationInit_Destroy (fun _ => true) no_refs (ex_world 8 8 0 true) (ex_alloc true) 4 2%positive (ex_type 8 8 0 true) false _ _).
  - apply ex_request; [apply ex_fits|..]; vm_compute; reflexivity.
  - intros b Hb. cbn in Hb |- *. destruct (decide (b = 1%positive)) as [->|]; [lia|]. rewrite lookup_insert_ne in Hb by done.
    destruct (decide (b = 2%positive)) as [->|]; [lia|]. rewrite lookup_insert_ne, lookup_empty in Hb by done. by destruct Hb.
Defined.

Lemma pointer_table_layout_witness :
  exists s off, AllocationBuildPointerTable (ex_ctx 8 8 0 true) (ex_alloc true) (ex_type 8 8 0 true) (mkPtr (Some 9%positive) 0) =
      Ok (alloc_size 4 (ex_type 8 8 0 true), set_drvState (ex_alloc true) s) /\
    off 0%nat = 0 /\ off 4%nat = faceOffset s /\ alloc_size 4 (ex_type 8 8 0 true) = 608.
Proof.
  destruct (pointer_table_layout (ex_ctx 8 8 0 true) (ex_alloc true) (ex_type 8 8 0 true) (mkPtr (Some 9%positive) 0) 4)
    as (s & off & E & H0 & H1 & _); [vm_compute; reflexivity|apply ex_fits; vm_compute; reflexivity|reflexivity|reflexivity|].
  exists s, off. split; [exact E|]. split; [exact H0|]. split; [exact H1|vm_compute; reflexivity].
Defined.

Lemma level_dims_lag_witness :
  exists s, AllocationBuildPointerTable ex_mip (ex_alloc true) (Type_of ex_mip 2%positive) NULL =
      Ok (alloc_size 16 (Type_of ex_mip 2%positive), set_drvState (ex_alloc true) s) /\
    exists e, lod s !! 1%nat = Some e /\ lodDimX (t_mHal (Type_of ex_mip 2%positive)) !! 0%nat = Some (l_dimX e) /\ l_dimX e = 20.
Proof.
  destruct (level_dims_lag (fun _ _ => True) [2%positive; 1%positive] [] 800 ex_mip 2%positive (Type_of ex_mip 2%positive) (ex_alloc true) NULL 16)
    as (s & E & Hl); [apply ex_mip_W|vm_compute; reflexivity|vm_compute; reflexivity| |reflexivity|reflexivity|].
  - split; [lia| |vm_compute; intuition congruence|vm_compute; reflexivity]. unfold dims_ok. vm_compute. intuition congruence.
  - exists s. split; [exact E|]. destruct (Hl 1%nat) as (e & He & Hx & _); [vm_compute; intuition congruence|].
    exists e. split; [exact He|]. split; [exact Hx|]. vm_compute in Hx. injection Hx. done.
Defined.

Lemma pointer_table_overflow_witness :
  rsdAllocationInit (fun _ => true) no_refs (ex_world 65536 0 0 true) (ex_alloc true) false = Fault OutOfBounds.
Proof.
  apply (pointer_table_overflow (fun _ => true) no_refs (ex_world 65536 0 0 true) (ex_alloc true) 2%positive (ex_type 65536 0 0 true) 4);
    vm_compute; reflexivity.
Defined.

Lemma data2D_read2D_witness :
  exists W' a' W'' lc', rsdAllocationData2D no_refs (ex_init 8 8 0 true false).1 (ex_init 8 8 0 true false).2 1 2 (Z.of_nat 0) 0 3 2
      (mkPtr (Some 1%positive) 0) 16 = Ok (W', a') /\
    rsdAllocationRead2D W' a' 1 2 (Z.of_nat 0) 0 3 2 (mkPtr (Some 2%positive) 0) 16 = Ok W'' /\
    blocks (w_heap W'') !! 2%positive = Some lc' /\
    (forall r j : nat, Z.of_nat r < 2 -> Z.of_nat j < 4 * 3 ->
      lc' !! Z.to_nat (0 + Z.of_nat r * stride_or 16 (4 * 3) + Z.of_nat j) =
      replicate 512 (Some 7) !! Z.to_nat (0 + Z.of_nat r * stride_or 16 (4 * 3) + Z.of_nat j)).
Proof.
  destruct (ex_image false) as (Hat & Hb & _).
  apply (data2D_read2D no_refs _ _ 4 (ex_type 8 8 0 true) 3%positive _ 0 0 1 2 3 2 1%positive (replicate 512 (Some 7)) 0 16
    2%positive (replicate 512 None) 0 16 Hat ex_rect); [congruence..| | |].
  - apply ex_rows; [rewrite Hb; reflexivity|reflexivity].
  - apply ex_rows; [rewrite Hb; reflexivity|reflexivity].
  - vm_compute. congruence.
Defined.

Lemma data2D_frame_witness :
  exists ld' a', rsdAllocationData2D no_refs (ex_init 8 8 0 true false).1 (ex_init 8 8 0 true false).2 1 2 (Z.of_nat 0) 0 3 2
      (mkPtr (Some 1%positive) 0) 16 = Ok (with_block (ex_init 8 8 0 true false).1 3%positive ld', a') /\
    forall k : nat, let t := ex_type 8 8 0 true in
      level_at 4 t 1 0 <= Z.of_nat k < level_at 4 t 1 0 + level_bytes 4 t 1 -> ld' !! k = ex_cells 8 8 0 true false !! k.
Proof.
  destruct (ex_image false) as (Hat & Hb & _).
  destruct (data2D_frame no_refs _ _ 4 (ex_type 8 8 0 true) 3%positive _ 0 0 1 2 3 2 1%positive (replicate 512 (Some 7)) 0 16 Hat ex_rect)
    as (ld' & a' & E & _ & Hk); [congruence|apply ex_rows; [rewrite Hb; reflexivity|reflexivity]|].
  exists ld', a'. split; [exact E|]. intros k t Hk'. apply (Hk 1%nat 0 k); [reflexivity|split; [done|reflexivity]|congruence|exact Hk'].
Defined.

Lemma data3D_slices_witness :
  let t := ex_type 4 4 4 false in
  exists ld' a', rsdAllocationData3D no_refs (ex_init 4 4 4 false false).1 (ex_init 4 4 4 false false).2 0 0 1 (Z.of_nat 0) 4 4 2
      (mkPtr (Some 1%positive) 0) 0 = Ok (with_block (ex_init 4 4 4 false false).1 3%positive ld', a') /\
    slices_copied (ex_cells 4 4 4 false false) (replicate 512 (Some 7)) ld' (box_at 4 t 0 0 0 1) 0 (4 * 4) (slice_stride 4 t 0) (stride_at 4 t 0)
      (stride_or 0 (4 * 4)) (Z.to_nat 4) (Z.to_nat (2 - 1)).
Proof.
  destruct ex_volume as (Hat & Hb & _).
  apply (data3D_slices no_refs _ _ 4 (ex_type 4 4 4 false) 3%positive _ 0 0 0 1 4 4 2 1%positive (replicate 512 (Some 7)) 0 0 Hat);
    [split; vm_compute; intuition congruence|congruence|rewrite Hb; reflexivity|lia|lia|].
  intros r Hr. change (stride_or 0 (4 * 4)) with 16. change (Z.to_nat (2 - 1) * Z.to_nat 4)%nat with 4%nat in Hr.
  replace (zlen (replicate 512 (Some 7))) with 512 by (vm_compute; reflexivity). lia.
Defined.

Lemma resize1D_keeps_witness :
  exists W' a' l', rsdAllocationResize (fun _ => true) (ex_init 10 0 0 false false).1 (ex_init 10 0 0 false false).2 (ex_type 20 0 0 false) = Ok (W', a') /\
    zlen l' = alloc_size 4 (ex_type 20 0 0 false) /\
    (forall k : nat, dimX (t_mHal (ex_type 10 0 0 false)) * 4 <= Z.of_nat k < dimX (t_mHal (ex_type 20 0 0 false)) * 4 -> l' !! k = Some (Some 0)).
Proof.
  destruct ex_row as (Hat & Hb & Hfr).
  destruct (resize1D_keeps (fun _ => true) _ _ 4 (ex_type 10 0 0 false) (ex_type 20 0 0 false) 3%positive _ Hat Hfr)
    as (W' & a' & l' & E & _ & _ & Hl & _ & Hz);
    [split_and!; vm_compute; reflexivity|split_and!; vm_compute; reflexivity|apply ex_fits; vm_compute; reflexivity|vm_compute; reflexivity..|].
  exists W', a', l'. split; [exact E|]. split; [exact Hl|exact Hz].
Defined.

Lemma ex_level1_written yy : 0 <= yy < level_dim (dimY (t_mHal (ex_type 8 8 0 true))) 1 ->
  written (ex_cells 8 8 0 true true) (cell_at (Z.of_nat 4) (ex_type 8 8 0 true) 1 0 0 yy)
    (level_dim (dimX (t_mHal (ex_type 8 8 0 true))) 1 * Z.of_nat 4).
Proof.
  assert (level_at 4 (ex_type 8 8 0 true) 1 0 = 256) as E1 by (vm_compute; reflexivity).
  assert (stride_at 4 (ex_type 8 8 0 true) 1 = 32) as E2 by (vm_compute; reflexivity).
  assert (level_dim (dimY (t_mHal (ex_type 8 8 0 true))) 1 = 8) as -> by (vm_compute; reflexivity).
  assert (level_dim (dimX (t_mHal (ex_type 8 8 0 true))) 1 = 8) as -> by (vm_compute; reflexivity).
  assert (ex_cells 8 8 0 true true = replicate 608 (Some 0)) as -> by (vm_compute; reflexivity).
  intros Hyy j Hj. unfold cell_at in Hj. change (Z.of_nat 4) with 4 in Hj. rewrite E1, E2 in Hj. exists 0. apply lookup_replicate_2. lia.
Qed.

Lemma mip_step_halves_witness :
  exists ld', mip8888 (ex_init 8 8 0 true true).2 (Z.of_nat 1) 0 (w_heap (ex_init 8 8 0 true true).1) =
      Ok (mkHeap (<[3%positive := ld']> (blocks (w_heap (ex_init 8 8 0 true true).1))) (nextBlock (w_heap (ex_init 8 8 0 true true).1))) /\
    forall k : nat, Z.of_nat k < level_at (Z.of_nat 4) (ex_type 8 8 0 true) 2 0 \/
       level_at (Z.of_nat 4) (ex_type 8 8 0 true) 2 0 + level_bytes (Z.of_nat 4) (ex_type 8 8 0 true) 2 <= Z.of_nat k ->
      ld' !! k = ex_cells 8 8 0 true true !! k.
Proof.
  destruct (ex_image true) as (Hat & Hb & _).
  destruct (mip_step_halves 4 rsBoxFilter8888 mip8888 _ _ (ex_type 8 8 0 true) 3%positive _ 1 0 filter8888 Hat) as (ld' & E & _ & Hout);
    [lia|reflexivity|split; [done|reflexivity]|vm_compute; congruence|vm_compute; congruence|apply ex_level1_written|].
  exists ld'. split; [exact E|exact Hout].
Defined.

(** with the dimensions the driver records, the step from level 0 to level 1 reads
    twice as many rows and columns as level 0 has: for a 3 by 3 RGBA image with full
    mipmaps [rsdAllocationGenerateMipmaps] reads past the end of the allocation. *)
Theorem generateMipmaps_overread :
  let init := rsdAllocationInit (fun _ => true) no_refs (ex_world 3 3 0 true) (ex_alloc true) true in
  (fun r => r.1.1) <$> init = Ok true /\ ('(_, W, a) ← init; rsdAllocationGenerateMipmaps W a) = Fault OutOfBounds.
Proof. split; vm_compute; reflexivity. Qed.

End DrvAllocation.
