(* ===== verification/RsAllocation.v ===== *)
(** * RsAllocation: the runtime's side of allocations ([rsAllocation.h], [rsAllocation.cpp])

    Creation, checked access to the data, packing of padded vectors, files, and the
    entry points.  The object table holds an entry for the allocation that keeps its
    type alive; the fields of [Hal] are the record [Allocation] of [DrvAllocation]. *)

From S2P Require Import Prelude CppUtils Stream Component ObjectBase Objects Element RsType Memory DrvAllocation.
Import CppUtils Stream ObjectBase Objects Element RsType Memory DrvAllocation.

Module RsAllocation.

Definition RS_A3D_CLASS_ID_ALLOCATION : Z := 4.
Definition RS_ALLOCATION_MIPMAP_NONE : Z := 0.
Definition RS_ALLOCATION_MIPMAP_FULL : Z := 1.

Section allocation.
Variable mem_ok : Z -> bool.
Variable obj_at : list cell -> outcome (option id).
(** Whether [allocRuntimeMem] serves the [Allocation] object itself. *)
Variable runtime_mem_ok : bool.

(** ** Creation and destruction *)

Definition updateCache (W : world) (a : Allocation) : outcome Allocation :=
  t ← getType W a;
  esz ← getElementSizeBytes (w_ctx W) t;
  '(_, e) ← getElement W a;
  Ok (mkAllocation (a_type a) (usageFlags a) (mipmapControl a) (dimYuv (t_mHal t)) (u32 esz) (t_mDimLOD t)
        (faces (t_mHal t)) (e_mHasReference e) (userProvidedPtr a) (drvState a) (a_drv a)).

(** [setType] on an allocation whose table entry is [this]. *)
Definition setType (W : world) (this : id) (a : Allocation) (t : id) : outcome (world * Allocation) :=
  '(_, c) ← ref_set (w_ctx W) (a_type a) (Some t);
  c ← upd c this (fun o => set_body o (BOther [t]));
  Ok (with_ctx W c, mkAllocation (Some t) (usageFlags a) (mipmapControl a) (a_yuv a) (elementSizeBytes a) (hasMipmaps a)
        (hasFaces a) (hasReferences a) (userProvidedPtr a) (drvState a) (a_drv a)).

Definition Allocation_new (W : world) (t : id) (usages mc : Z) (p : ptr) : outcome (id * world * Allocation) :=
  '(this, c) ← new_obj (w_ctx W) (BOther []);
  let a := mkAllocation None usages mc 0 0 false false false p drvState_zero None in
  '(W, a) ← setType (with_ctx W c) this a t;
  a ← updateCache W a;
  Ok (this, W, a).

(** The references the data holds are dropped first. *)
Definition freeChildrenUnlocked (W : world) (a : Allocation) : outcome world :=
  p ← rsdAllocationLock1D a;
  t ← getType W a;
  a_decRefs obj_at W a p (t_mCellCount t) 0.

(** The body of [~Allocation]; the member [mType] is released with the object. *)
Definition Allocation_dtor (W : world) (a : Allocation) : outcome (world * Allocation) :=
  W ← freeChildrenUnlocked W a; rsdAllocationDestroy W a.

(** [delete a], and [ObjectBase::checkDelete] on an allocation. *)
Definition alloc_delete (W : world) (this : id) (a : Allocation) : outcome world :=
  '(W, _) ← Allocation_dtor W a;
  '(_, c) ← checkDelete (w_ctx W) this;
  Ok (with_ctx W c).

Definition alloc_checkDelete (W : world) (this : id) (a : Allocation) : outcome world :=
  o ← deref (w_ctx W) this;
  if negb (mUserRefCount o =? 0) || negb (mSysRefCount o =? 0) then Ok W else alloc_delete W this a.

Definition createAllocation (W : world) (t : id) (usages mc : Z) (p : ptr) : outcome (option (id * Allocation) * world) :=
  if negb runtime_mem_ok then Ok (None, setError W RS_ERROR_FATAL_DRIVER)
  else
    '(this, W, a) ← Allocation_new W t usages mc p;
    '(_, e) ← getElement W a;
    '(ok, W, a) ← rsdAllocationInit mem_ok obj_at W a (e_mHasReference e);
    if negb ok then
      W ← alloc_delete (setError W RS_ERROR_FATAL_DRIVER) this a;
      Ok (None, W)
    else Ok (Some (this, a), W).

Definition freeChildren (W : world) (this : id) (a : Allocation) : outcome (bool * world) :=
  if hasReferences a then
    c ← incSysRef (w_ctx W) this;
    W ← freeChildrenUnlocked (with_ctx W c) a;
    '(b, c) ← decSysRef (w_ctx W) this;
    Ok (b, with_ctx W c)
  else Ok (false, W).

(** ** Access to the data *)

Definition syncAll (W : world) (a : Allocation) (src : Z) : outcome (world * Allocation) := rsdAllocationSyncAll W a src.

(** The pointer, and what is stored through a non-null [stride]. *)
Definition getPointer (a : Allocation) (l face z array : Z) (want_stride : bool) : outcome (ptr * option Z) :=
  if l >=? ds_lodCount (drvState a) then Ok (NULL, None)
  else
    s ← znth (lod (drvState a)) l;
    if (negb (z =? 0) && (z >=? l_dimZ s)) || (negb (face =? FACE_POSITIVE_X) && negb (hasFaces a)) || negb (array =? 0)
    then Ok (NULL, None)
    else
      l0 ← znth (lod (drvState a)) 0;
      Ok (mallocPtr s, if want_stride && negb (l_dimY l0 =? 0) then Some (stride s) else None).

(** In this build only the driver is told. *)
Definition sendDirty (a : Allocation) : outcome Allocation := rsdAllocationMarkDirty a.

Definition data1 (W : world) (a : Allocation) (xoff l count : Z) (data : ptr) (sizeBytes : Z) : outcome (world * Allocation) :=
  t ← getType W a;
  eSize ← getElementSizeBytes (w_ctx W) t;
  if negb ((count *u64 eSize) =? sizeBytes) then Ok (setError W RS_ERROR_BAD_VALUE, a)
  else
    '(W, a) ← rsdAllocationData1D obj_at W a xoff l count data;
    a ← sendDirty a;
    Ok (W, a).

Definition data2 (W : world) (a : Allocation) (xoff yoff l face w h : Z) (data : ptr) (st : Z) : outcome (world * Allocation) :=
  '(W, a) ← rsdAllocationData2D obj_at W a xoff yoff l face w h data st;
  a ← sendDirty a;
  Ok (W, a).

Definition data3 (W : world) (a : Allocation) (xoff yoff zoff l w h d : Z) (data : ptr) (st : Z) : outcome (world * Allocation) :=
  '(W, a) ← rsdAllocationData3D obj_at W a xoff yoff zoff l w h d data st;
  a ← sendDirty a;
  Ok (W, a).

Definition read1 (W : world) (a : Allocation) (xoff l count : Z) (data : ptr) (sizeBytes : Z) : outcome world :=
  t ← getType W a;
  eSize ← getElementSizeBytes (w_ctx W) t;
  if negb ((count *u64 eSize) =? sizeBytes) then Ok (setError W RS_ERROR_BAD_VALUE)
  else rsdAllocationRead1D W a xoff l count data.

(** The size is compared only when the caller passes a stride. *)
Definition read2 (W : world) (a : Allocation) (xoff yoff l face w h : Z) (data : ptr) (sizeBytes st : Z) : outcome world :=
  let lineSize := elementSizeBytes a *u64 w in
  if st =? 0 then rsdAllocationRead2D W a xoff yoff l face w h data lineSize
  else if negb ((lineSize *u64 h) =? sizeBytes) then Ok (setError W RS_ERROR_BAD_VALUE)
  else rsdAllocationRead2D W a xoff yoff l face w h data st.

Definition read3 (W : world) (a : Allocation) (xoff yoff zoff l w h d : Z) (data : ptr) (st : Z) : outcome world :=
  let lineSize := elementSizeBytes a *u64 w in
  rsdAllocationRead3D W a xoff yoff zoff l w h d data (if st =? 0 then lineSize else st).

(** The checks on the field and its size that the two [elementData] share. *)
Definition element_size_ok (W : world) (a : Allocation) (cIdx sizeBytes : Z) : outcome bool :=
  '(_, e) ← getElement W a;
  f ← znth (e_mFields e) cIdx;
  x ← of_option NullDeref (f_e f);
  fe ← as_element (w_ctx W) x;
  sz ← getSizeBytes (as_element (w_ctx W)) fe;
  Ok (sizeBytes =? (sz *u64 f_arraySize f)).

Definition elementData1 (W : world) (a : Allocation) (x : Z) (data : ptr) (cIdx sizeBytes : Z) : outcome (world * Allocation) :=
  '(_, e) ← getElement W a;
  l0 ← znth (lod (drvState a)) 0;
  if cIdx >=? zlen (e_mFields e) then Ok (setError W RS_ERROR_BAD_VALUE, a)
  else if x >=? l_dimX l0 then Ok (setError W RS_ERROR_BAD_VALUE, a)
  else
    ok ← element_size_ok W a cIdx sizeBytes;
    if negb ok then Ok (setError W RS_ERROR_BAD_VALUE, a)
    else
      '(W, a) ← rsdAllocationElementData1D obj_at W a x data cIdx sizeBytes;
      a ← sendDirty a;
      Ok (W, a).

Definition elementData2 (W : world) (a : Allocation) (x y : Z) (data : ptr) (cIdx sizeBytes : Z) : outcome (world * Allocation) :=
  l0 ← znth (lod (drvState a)) 0;
  if x >=? l_dimX l0 then Ok (setError W RS_ERROR_BAD_VALUE, a)
  else if y >=? l_dimY l0 then Ok (setError W RS_ERROR_BAD_VALUE, a)
  else
    '(_, e) ← getElement W a;
    if cIdx >=? zlen (e_mFields e) then Ok (setError W RS_ERROR_BAD_VALUE, a)
    else
      ok ← element_size_ok W a cIdx sizeBytes;
      if negb ok then Ok (setError W RS_ERROR_BAD_VALUE, a)
      else
        '(W, a) ← rsdAllocationElementData2D obj_at W a x y data cIdx sizeBytes;
        a ← sendDirty a;
        Ok (W, a).

(** ** Packing: vectors of three are padded to four in memory and not in files *)

Definition unpadded_bytes (W : world) (e : Element) : outcome Z :=
  b ← getSizeBytesUnpadded (as_element (w_ctx W)) e; of_option Uninitialised b.

Definition getPackedSize (W : world) (a : Allocation) : outcome Z :=
  t ← getType W a;
  '(_, e) ← getElement W a;
  un ← unpadded_bytes W e;
  Ok (u32 (u32 (t_mCellCount t) *u64 un)).

(** Offset with padding, offset without, and size of each field; the size is that of
    one element of the field, whatever its array size. *)
Fixpoint field_table (W : world) (fs : list ElementField_t) : outcome (list (Z * Z * Z)) :=
  match fs with
  | [] => Ok []
  | f :: r =>
      x ← of_option NullDeref (f_e f);
      fe ← as_element (w_ctx W) x;
      un ← unpadded_bytes W fe;
      offU ← of_option Uninitialised (f_offsetBitsUnpadded f);
      rest ← field_table W r;
      Ok ((Z.shiftr (f_offsetBits f) 3, Z.shiftr offU 3, u32 un) :: rest)
  end.

Fixpoint pack_fields (W : world) (fs : list (Z * Z * Z)) (dst src : ptr) (dstPadded : bool) : outcome world :=
  match fs with
  | [] => Ok W
  | (offP, offU, sz) :: r =>
      W ← w_memcpy W (ptr_add dst (if dstPadded then offP else offU)) (ptr_add src (if dstPadded then offU else offP)) sz;
      pack_fields W r dst src dstPadded
  end.

Fixpoint pack_items (n : nat) (W : world) (fs : list (Z * Z * Z)) (dst src : ptr) (dstPadded : bool) (dstInc srcInc : Z) : outcome world :=
  match n with
  | O => Ok W
  | S n =>
      W ← pack_fields W fs dst src dstPadded;
      pack_items n W fs (ptr_add dst dstInc) (ptr_add src srcInc) dstPadded dstInc srcInc
  end.

Definition writePackedData (W : world) (t : Type_) (dst src : ptr) (dstPadded : bool) : outcome world :=
  x ← of_option NullDeref (t_mElement t);
  e ← as_element (w_ctx W) x;
  un ← unpadded_bytes W e;
  pad ← getSizeBytes (as_element (w_ctx W)) e;
  let unpaddedBytes := u32 un in
  let paddedBytes := u32 pad in
  total ← getPackedSizeBytes (w_ctx W) t;
  numItems ← (if paddedBytes =? 0 then Fault DivByZero else Ok (u32 (total / paddedBytes)));
  let srcInc := if dstPadded then unpaddedBytes else paddedBytes in
  let dstInc := if dstPadded then paddedBytes else unpaddedBytes in
  match e_mFields e with
  | [] => '(W, _) ← read_lines (Z.to_nat numItems) W dst src unpaddedBytes dstInc srcInc; Ok W
  | fs => tab ← field_table W fs; pack_items (Z.to_nat numItems) W tab dst src dstPadded dstInc srcInc
  end.

Definition unpackVec3Allocation (W : world) (a : Allocation) (data : ptr) : outcome world :=
  dst ← rsdAllocationLock1D a;
  t ← getType W a;
  writePackedData W t dst data true.

(** [new uint8_t[n]] does not return null. *)
Definition new_bytes (h : heap) (n : Z) : ptr * heap := malloc (fun _ => true) h n.

Definition packVec3Allocation (W : world) (a : Allocation) (s : OStream) : outcome (world * OStream) :=
  t ← getType W a;
  '(_, e) ← getElement W a;
  un ← unpadded_bytes W e;
  src ← rsdAllocationLock1D a;
  let n := u32 (t_mCellCount t) *u32 u32 un in
  let '(dst, h) := new_bytes (w_heap W) n in
  W ← writePackedData (with_heap W h) t dst src false;
  size ← getPackedSize W a;
  bytes ← load (w_heap W) dst n;
  s ← addByteArray bytes size s;
  h ← free (w_heap W) dst;
  Ok (with_heap W h, s).

(** ** Files *)

Definition serialize (W : world) (this : id) (a : Allocation) (s : OStream) : outcome (world * OStream) :=
  o ← deref (w_ctx W) this;
  s ← addU32 RS_A3D_CLASS_ID_ALLOCATION s;
  nm ← of_option NullDeref (mName o);
  s ← addString nm s;
  x ← of_option NullDeref (a_type a);
  s ← RsType.serialize (w_ctx W) x s;
  t ← getType W a;
  total ← getPackedSizeBytes (w_ctx W) t;
  let dataSize := u32 total in
  packedSize ← getPackedSize W a;
  s ← addU32 packedSize s;
  if dataSize =? packedSize then
    p ← rsdAllocationLock1D a;
    bytes ← load (w_heap W) p dataSize;
    s ← addByteArray bytes dataSize s;
    Ok (W, s)
  else packVec3Allocation W a s.

(** [mData] of the stream is the block [sb]. *)
Definition createFromStream (W : world) (sb : block) (i : IStream) : outcome (option (id * Allocation) * world * IStream) :=
  '(classID, i) ← loadU32 i;
  if negb (classID =? RS_A3D_CLASS_ID_ALLOCATION) then Ok (None, setError W RS_ERROR_FATAL_DRIVER, i)
  else
    '(name, i) ← loadString i;
    '(ty, c, i) ← RsType.createFromStream (w_ctx W) i;
    let W := with_ctx W c in
    match ty with
    | None => Ok (None, W, i)
    | Some ty =>
        t ← as_type (w_ctx W) ty;
        t ← RsType.compute t;
        c ← upd (w_ctx W) ty (fun o => set_body o (BType t));
        '(al, W) ← createAllocation (with_ctx W c) ty RS_ALLOCATION_USAGE_SCRIPT RS_ALLOCATION_MIPMAP_NONE NULL;
        '(_, c) ← decUserRef (w_ctx W) ty;
        let W := with_ctx W c in
        '(dataSize, i) ← loadU32 i;
        match al with
        | None => Fault NullDeref
        | Some (this, a) =>
            packedSize ← getPackedSize W a;
            t ← as_type (w_ctx W) ty;
            total ← getPackedSizeBytes (w_ctx W) t;
            if negb (dataSize =? total) && negb (dataSize =? packedSize) then
              let W := setError W RS_ERROR_FATAL_DRIVER in
              W ← alloc_checkDelete W this a;
              '(_, c) ← checkDelete (w_ctx W) ty;
              Ok (None, with_ctx W c, i)
            else
              c ← assignName (w_ctx W) this (Some name);
              let W := with_ctx W c in
              let data := mkPtr (Some sb) (i_mPos i) in
              '(W, a) ←
                (if dataSize =? total then
                   esz ← getElementSizeBytes (w_ctx W) t;
                   count ← (if esz =? 0 then Fault DivByZero else Ok (u32 (dataSize / esz)));
                   data1 W a 0 0 count data dataSize
                 else W ← unpackVec3Allocation W a data; Ok (W, a));
              Ok (Some (this, a), W, i_reset (i_mPos i +u64 dataSize) i)
        end
    end.

(** ** Resizing *)

Definition resize1D (W : world) (this : id) (a : Allocation) (dX : Z) : outcome (world * Allocation) :=
  l0 ← znth (lod (drvState a)) 0;
  let oldDimX := l_dimX l0 in
  if dX =? oldDimX then Ok (W, a)
  else
    x ← of_option NullDeref (a_type a);
    '(ty, c) ← cloneAndResize1D (w_ctx W) x dX;
    let W := with_ctx W c in
    W ← (if dX <? oldDimX then
           p ← rsdAllocationLock1D a; a_decRefs obj_at W a p (oldDimX - dX) dX
         else Ok W);
    t ← as_type (w_ctx W) ty;
    '(W, a) ← rsdAllocationResize mem_ok W a t;
    '(W, a) ← setType W this a ty;
    a ← updateCache W a;
    '(_, c) ← decSysRef (w_ctx W) ty;
    Ok (with_ctx W c, a).

Definition resize2D (W : world) : world := setError W RS_ERROR_FATAL_DRIVER.

(** ** Entry points *)

Definition rsi_AllocationSyncAll (W : world) (a : Allocation) (src : Z) : outcome (world * Allocation) :=
  a ← sendDirty a; syncAll W a src.

Definition rsi_AllocationCopyToBitmap (W : world) (a : Allocation) (data : ptr) (sizeBytes : Z) : outcome world :=
  t ← getType W a;
  read2 W a 0 0 0 FACE_POSITIVE_X (dimX (t_mHal t)) (dimY (t_mHal t)) data sizeBytes 0.

Definition rsi_Allocation2DElementData (W : world) (a : Allocation) (x y : Z) (data : ptr) (sizeBytes eoff : Z)
    : outcome (world * Allocation) := elementData2 W a x y data (u32 eoff) sizeBytes.

Definition rsi_Allocation1DElementData (W : world) (a : Allocation) (x : Z) (data : ptr) (sizeBytes eoff : Z)
    : outcome (world * Allocation) := elementData1 W a x data (u32 eoff) sizeBytes.

Definition rsi_AllocationRead (W : world) (a : Allocation) (data : ptr) (sizeBytes : Z) : outcome world :=
  t ← getType W a;
  if negb (dimY (t_mHal t) =? 0) then
    read2 W a 0 0 0 FACE_POSITIVE_X (dimX (t_mHal t)) (dimY (t_mHal t)) data sizeBytes 0
  else read1 W a 0 0 (dimX (t_mHal t)) data sizeBytes.

Definition rsi_AllocationCreateTyped (W : world) (t : id) (mipmaps usages : Z) (p : ptr)
    : outcome (option (id * Allocation) * world) :=
  '(al, W) ← createAllocation W t usages mipmaps p;
  match al with
  | None => Ok (None, W)
  | Some (this, a) => c ← incUserRef (w_ctx W) this; Ok (Some (this, a), with_ctx W c)
  end.

Definition finish_bitmap (W : world) (this : id) (a : Allocation) (mipmaps : Z) : outcome (option (id * Allocation) * world) :=
  W ← (if mipmaps =? RS_ALLOCATION_MIPMAP_FULL then rsdAllocationGenerateMipmaps W a else Ok W);
  a ← sendDirty a;
  Ok (Some (this, a), W).

Definition rsi_AllocationCreateFromBitmap (W : world) (ty : id) (mipmaps : Z) (data : ptr) (usages : Z)
    : outcome (option (id * Allocation) * world) :=
  '(al, W) ← rsi_AllocationCreateTyped W ty mipmaps usages NULL;
  match al with
  | None => Ok (None, W)
  | Some (this, a) =>
      t ← as_type (w_ctx W) ty;
      '(W, a) ← data2 W a 0 0 0 FACE_POSITIVE_X (dimX (t_mHal t)) (dimY (t_mHal t)) data 0;
      finish_bitmap W this a mipmaps
  end.

(** One face is [faceSize] rows, each in its own call; the six faces lie side by side. *)
Fixpoint cube_rows (n : nat) (dI : Z) (W : world) (a : Allocation) (face faceSize strideBytes : Z) (src : ptr) : outcome (world * Allocation) :=
  match n with
  | O => Ok (W, a)
  | S n =>
      '(W, a) ← data2 W a 0 dI 0 face faceSize 1 (ptr_add src (strideBytes *u32 dI)) 0;
      cube_rows n (dI + 1) W a face faceSize strideBytes src
  end.

Fixpoint cube_faces (n : nat) (face : Z) (W : world) (a : Allocation) (faceSize strideBytes copySize : Z) (src : ptr)
    : outcome (world * Allocation) :=
  match n with
  | O => Ok (W, a)
  | S n =>
      '(W, a) ← cube_rows (Z.to_nat faceSize) 0 W a face faceSize strideBytes src;
      cube_faces n (face + 1) W a faceSize strideBytes copySize (ptr_add src copySize)
  end.

Definition rsi_AllocationCubeCreateFromBitmap (W : world) (ty : id) (mipmaps : Z) (data : ptr) (usages : Z)
    : outcome (option (id * Allocation) * world) :=
  '(al, W) ← rsi_AllocationCreateTyped W ty mipmaps usages NULL;
  match al with
  | None => Ok (None, W)
  | Some (this, a) =>
      t ← as_type (w_ctx W) ty;
      esz ← getElementSizeBytes (w_ctx W) t;
      let faceSize := dimX (t_mHal t) in
      let strideBytes := u32 ((faceSize *u32 6) *u64 esz) in
      let copySize := u32 (faceSize *u64 esz) in
      '(W, a) ← cube_faces 6 0 W a faceSize strideBytes copySize data;
      finish_bitmap W this a mipmaps
  end.

Definition rsi_Allocation2DRead (W : world) (a : Allocation) (xoff yoff l face w h : Z) (data : ptr) (sizeBytes st : Z)
    : outcome world := read2 W a xoff yoff l face w h data sizeBytes st.

Definition rsaAllocationGetType (W : world) (a : Allocation) : outcome (id * world) :=
  x ← of_option NullDeref (a_type a);
  c ← incUserRef (w_ctx W) x;
  Ok (x, with_ctx W c).

End allocation.

(** * Properties *)

(** ** Creation in a consistent context *)

Lemma element_insert m g x y e b :
  elem_inv m g -> m !! x = None -> m !! y = Some (BElement e) -> agree (look_in (<[x := b]> m)) (look_in m) (e_mFields e).
Proof.
  intros Hei Hx Hy f z Hin Hz. destruct (ei_fields _ _ Hei _ _ _ Hy Hin) as (z' & e2 & ? & _ & Hz2). simplify_eq.
  apply look_in_insert_ne. congruence.
Qed.

Lemma agree_as c c' m m' fs : bodies c = m -> bodies c' = m' -> agree (look_in m) (look_in m') fs -> agree (as_element c) (as_element c') fs.
Proof. intros <- <- Ha f x Hf Hx. rewrite !as_element_look. by eapply Ha. Qed.

Lemma getElementSizeBytes_insert c c' g x b t y e :
  elem_inv (bodies c) g -> bodies c !! x = None -> bodies c' = <[x := b]> (bodies c) ->
  t_mElement t = Some y -> bodies c !! y = Some (BElement e) -> getElementSizeBytes c' t = getElementSizeBytes c t.
Proof.
  intros Hei Hx Hc Hy He. unfold getElementSizeBytes. rewrite Hy. cbn [of_option mbind outcome_bind].
  rewrite !as_element_look, Hc. rewrite look_in_insert_ne by congruence. destruct (look_in (bodies c) y) as [e'|] eqn:El; [|done].
  apply look_in_Ok in El. simplify_eq. cbn [mbind outcome_bind]. unfold getSizeBytes.
  rewrite (getSizeBits_ext (as_element c') (as_element c)); [done|]. eapply agree_as; [exact Hc|done|by eapply element_insert].
Qed.

(** [new Allocation]: one more object, which holds the type. *)
Lemma Allocation_new_W W0 ext us n ty t y e esz usages mc p :
  0 <= n -> n + 1 < 2 ^ 31 -> W plain_types ext us (n + 1) (w_ctx W0) -> bodies (w_ctx W0) !! ty = Some (BType t) ->
  t_mElement t = Some y -> bodies (w_ctx W0) !! y = Some (BElement e) -> getElementSizeBytes (w_ctx W0) t = Ok esz ->
  exists c, let this := nextId (w_ctx W0) in
    Allocation_new W0 ty usages mc p =
      Ok (this, with_ctx W0 c, mkAllocation (Some ty) usages mc (dimYuv (t_mHal t)) (u32 esz) (t_mDimLOD t) (faces (t_mHal t))
                                 (e_mHasReference e) p drvState_zero None) /\
    W plain_types ext us n c /\ bodies c = <[this := BOther [ty]]> (bodies (w_ctx W0)) /\ bodies (w_ctx W0) !! this = None.
Proof.
  intros Hn Hmax HW Ht Hy He Hsz. destruct (w_shape _ _ _ _ _ HW) as (Hei & Hti & _). unfold Allocation_new. apply W_shape in HW.
  destruct (W_new _ _ _ _ (n + 1) _ (BOther []) ltac:(lia) HW eq_refl) as (c1 & -> & HW1 & Hfresh & _). cbn [mbind outcome_bind].
  set (this := nextId (w_ctx W0)) in *. pose proof (w_shape _ _ _ _ _ HW1) as [Eb1 _].
  unfold setType. cbn [w_ctx with_ctx a_type]. rewrite ref_set_None.
  destruct (W_incSys _ _ n _ ty (BType t) Hn HW1) as (c2 & -> & HW2 & _).
  { rewrite Eb1, lookup_insert_ne; [done|congruence]. }
  cbn [mbind outcome_bind].
  destruct (W_setbody _ _ _ ext _ _ _ this (BOther []) (BOther [ty]) HW2) as (c3 & -> & HW3 & _).
  { by rewrite lookup_insert_eq. } { intros z. cbn [obody_refs]. rewrite (occ_cons z ty []), (occ_cons z ty ext), occ_nil. lia. }
  rewrite insert_insert_eq in HW3. pose proof (w_shape _ _ _ _ _ HW3) as [Eb3 _]. cbn [mbind outcome_bind].
  assert (Htn : ty <> this) by congruence. assert (Hyn : y <> this) by congruence.
  unfold updateCache, getType. cbn [a_type w_ctx with_ctx of_option mbind outcome_bind].
  rewrite (proj2 (as_type_Ok c3 ty t)) by (rewrite Eb3, lookup_insert_ne; done). cbn [mbind outcome_bind].
  rewrite (getElementSizeBytes_insert (w_ctx W0) c3 _ this _ t y e Hei Hfresh Eb3 Hy He), Hsz. cbn [mbind outcome_bind].
  unfold getElement, getType. cbn [a_type w_ctx with_ctx of_option mbind outcome_bind].
  rewrite (proj2 (as_type_Ok c3 ty t)) by (rewrite Eb3, lookup_insert_ne; done). cbn [mbind outcome_bind]. rewrite Hy. cbn [of_option mbind outcome_bind].
  assert (as_element c3 y = Ok e) as -> by (rewrite as_element_look; apply look_in_Ok; rewrite Eb3, lookup_insert_ne; done). cbn [mbind outcome_bind].
  exists c3. split; [by destruct W0|]. split; [|done].
  eapply W_of_shape; [exact HW3|]. split; [by eapply elem_inv_insert|]. split; [by eapply type_inv_insert|done].
Qed.

Lemma io_flags u : Z.land u (Z.lor RS_ALLOCATION_USAGE_IO_INPUT RS_ALLOCATION_USAGE_IO_OUTPUT) = 0 ->
  negb (Z.land u RS_ALLOCATION_USAGE_IO_INPUT =? 0) = false /\ negb (Z.land u RS_ALLOCATION_USAGE_IO_OUTPUT =? 0) = false.
Proof.
  intros H. rewrite Z.land_lor_distr_r in H. apply Z.lor_eq_0_iff in H as [-> ->]. done.
Qed.

(** creating an allocation in a consistent context adds one object, which keeps the
    type alive, leaves every count and cache consistent, and gives it memory laid out for
    all its levels; if the memory is not available the error is reported, the new object
    is deleted again and the context is consistent, with what it held before. *)
Theorem createAllocation_spec (mem_ok : Z -> bool) obj_at W0 ext us n ty t y e esz usages mc :
  0 <= n -> n + 1 < 2 ^ 31 -> W plain_types ext us (n + 1) (w_ctx W0) -> bodies (w_ctx W0) !! ty = Some (BType t) ->
  t_mElement t = Some y -> bodies (w_ctx W0) !! y = Some (BElement e) -> e_mHasReference e = false ->
  getElementSizeBytes (w_ctx W0) t = Ok esz -> type_fits esz t -> dimYuv (t_mHal t) = 0 -> heap_fresh (w_heap W0) ->
  Z.land usages (Z.lor RS_ALLOCATION_USAGE_IO_INPUT RS_ALLOCATION_USAGE_IO_OUTPUT) = 0 ->
  let this := nextId (w_ctx W0) in let b := nextBlock (w_heap W0) in
  if mem_ok (alloc_size esz t) then
    exists a W', createAllocation mem_ok obj_at true W0 ty usages mc NULL = Ok (Some (this, a), W') /\
      W plain_types ext us n (w_ctx W') /\ bodies (w_ctx W') = <[this := BOther [ty]]> (bodies (w_ctx W0)) /\
      attached W' a esz t b (fresh_cells (alloc_size esz t) false) /\ w_errors W' = w_errors W0
  else
    exists W', createAllocation mem_ok obj_at true W0 ty usages mc NULL = Ok (None, W') /\
      W plain_types ext us n (w_ctx W') /\ w_heap W' = w_heap W0 /\ w_errors W' = w_errors W0 ++ [RS_ERROR_FATAL_DRIVER].
Proof.
  intros Hn Hmax HW Ht Hy He Href Hsz Hfit Hyuv Hfr Hus this b.
  destruct (Allocation_new_W W0 ext us n ty t y e esz usages mc NULL Hn Hmax HW Ht Hy He Hsz) as (c & Enew & HW1 & Eb & Hnew).
  destruct (w_shape _ _ _ _ _ HW) as (Hei & _). unfold createAllocation. cbn [negb]. rewrite Enew. cbn [mbind outcome_bind].
  fold this in Eb, Hnew |- *. set (a0 := mkAllocation _ _ _ _ _ _ _ _ _ _ _).
  assert (Htc : as_type c ty = Ok t) by (apply as_type_Ok; rewrite Eb, lookup_insert_ne; [done|congruence]).
  assert (Hec : as_element c y = Ok e) by (rewrite as_element_look; apply look_in_Ok; rewrite Eb, lookup_insert_ne; [done|congruence]).
  assert (Eel : getElement (with_ctx W0 c) a0 = Ok (y, e)).
  { unfold getElement, getType. cbn. rewrite Htc. cbn. rewrite Hy. cbn. by rewrite Hec. }
  rewrite Eel. cbn [mbind outcome_bind]. rewrite Href.
  assert (Hpr : plain_request (with_ctx W0 c) a0 esz ty t).
  { pose proof (tf_esz _ _ Hfit). destruct (io_flags usages Hus) as [Hi Ho].
    split; try done; cbn; [|by apply u32_small].
    by rewrite (getElementSizeBytes_insert (w_ctx W0) c _ this _ t y e Hei Hnew Eb Hy He). }
  pose proof (init_Ok mem_ok obj_at (with_ctx W0 c) a0 esz ty t false Hpr) as Hi. cbv zeta in Hi. destruct (mem_ok (alloc_size esz t)).
  - destruct Hi as (s & d & -> & Hu & Htab). cbn [mbind outcome_bind negb]. eexists _, _. split; [done|]. cbn. split; [done|]. split; [done|].
    split; [|done]. destruct (face_size_nonneg _ _ Hfit). split; try done; cbn; [by apply u32_small, (tf_esz _ _ Hfit)| |by apply zlen_replicate].
    by rewrite lookup_insert_eq.
  - destruct Hi as (s & -> & Htab). cbn [mbind outcome_bind negb]. unfold alloc_delete, Allocation_dtor, freeChildrenUnlocked, rsdAllocationLock1D.
    pose proof (ta_lod _ _ _ _ Htab 0%nat ltac:(pose proof (tf_count _ _ Hfit); lia)) as Hl0. cbn [drvState set_drv set_drvState].
    rewrite (znth_lookup _ _ _ Hl0 : znth _ 0 = _). cbn [mbind outcome_bind]. unfold getType. cbn [a_type set_drv set_drvState a0 of_option mbind outcome_bind w_ctx with_ctx setError].
    rewrite Htc. cbn [mbind outcome_bind]. unfold a_decRefs. cbn [hasReferences set_drv set_drvState a0]. rewrite Href. cbn [negb orb mbind outcome_bind].
    unfold rsdAllocationDestroy. cbn [drvState set_drv set_drvState]. rewrite (znth_lookup _ _ _ Hl0 : znth _ 0 = _). cbn [mbind outcome_bind].
    destruct (W_checkDelete ext us n c this (BOther [ty]) HW1) as (b' & c' & Ed & HW' & _); [by rewrite Eb, lookup_insert_eq|].
    cbn [level mallocPtr level_off]. change (is_null (ptr_add NULL 0)) with true. cbn [mbind outcome_bind w_ctx with_ctx setError]. rewrite Ed. cbn [mbind outcome_bind].
    eexists. split; [done|]. done.
Qed.

(** ** One-dimensional data *)

Lemma GetOffsetPtr_1D W a esz t b ld xoff :
  attached W a esz t b ld -> 0 <= xoff -> xoff * esz < 2 ^ 32 ->
  GetOffsetPtr a xoff 0 0 0 FACE_POSITIVE_X = Ok (mkPtr (Some b) (xoff * esz)).
Proof.
  intros Hat Hx Hs. pose proof (tf_esz _ _ (at_fits _ _ _ _ _ _ Hat)). unfold GetOffsetPtr, FACE_POSITIVE_X.
  rewrite (znth_lookup _ _ _ (ta_lod _ _ _ _ (at_table _ _ _ _ _ _ Hat) 0%nat ltac:(pose proof (tf_count _ _ (at_fits _ _ _ _ _ _ Hat)); lia)) : znth _ 0 = _).
  cbn [mbind outcome_bind level mallocPtr stride l_dimY level_off]. rewrite (at_esz _ _ _ _ _ _ Hat), !Z.mul_0_l.
  change (u64 0) with 0. rewrite u32_small by nia. done.
Qed.

(** [Allocation::data] in one dimension checks the size against the count and nothing
    else: on a mismatch it reports the error and changes nothing; on a match the bytes
    arrive exactly where they belong if they fit the memory of the allocation, and if the
    offset puts them past its end they are written past its end. *)
Theorem data1_spec obj_at W a esz t b ld xoff l count bs ls os sizeBytes :
  attached W a esz t b ld -> getType W a = Ok t -> getElementSizeBytes (w_ctx W) t = Ok esz ->
  b <> bs -> blocks (w_heap W) !! bs = Some ls -> 0 <= os -> os + count * esz <= zlen ls ->
  0 <= xoff -> xoff * esz < 2 ^ 32 -> 0 <= count -> count * esz < 2 ^ 32 ->
  if sizeBytes =? count * esz then
    if xoff * esz + count * esz <=? alloc_size esz t then
      exists ld' a', data1 obj_at W a xoff l count (mkPtr (Some bs) os) sizeBytes = Ok (with_block W b ld', a') /\
        rows_copied ld ls ld' (xoff * esz) os (count * esz) (count * esz) 0 1
    else data1 obj_at W a xoff l count (mkPtr (Some bs) os) sizeBytes = Fault OutOfBounds
  else data1 obj_at W a xoff l count (mkPtr (Some bs) os) sizeBytes = Ok (setError W RS_ERROR_BAD_VALUE, a).
Proof.
  intros Hat Ht Hsz Hne Hbs Hos Hls Hx Hx32 Hc Hc32. pose proof (tf_esz _ _ (at_fits _ _ _ _ _ _ Hat)) as He.
  assert (0 <= count * esz /\ 0 <= xoff * esz) as [Hc0 Hx0] by nia.
  unfold data1. rewrite Ht. cbn [mbind outcome_bind]. rewrite Hsz. cbn [mbind outcome_bind]. rewrite u64_small, (Z.eqb_sym sizeBytes) by lia.
  destruct (Z.eqb_spec (count * esz) sizeBytes) as [<-|Hs]; [|done]. cbn [negb].
  unfold rsdAllocationData1D. rewrite Ht. cbn [mbind outcome_bind]. rewrite Hsz. cbn [mbind outcome_bind].
  rewrite (GetOffsetPtr_1D _ _ _ _ _ _ xoff Hat Hx Hx32), u64_small by lia. cbn [mbind outcome_bind]. rewrite decide_False by congruence.
  unfold swap_refs. rewrite (at_refs _ _ _ _ _ _ Hat). cbn [mbind outcome_bind].
  destruct (Z.leb_spec (xoff * esz + count * esz) (alloc_size esz t)) as [Hin|Hout].
  - destruct (w_memcpy_Ok W b bs ld ls (xoff * esz) os (count * esz)) as (ld' & -> & Hl & Hcp & Hfr); try done; try apply Hat.
    { by rewrite (at_size _ _ _ _ _ _ Hat). }
    destruct (at_drv _ _ _ _ _ _ Hat) as [d Hd]. unfold set_deferred. cbn [mbind outcome_bind]. rewrite Hd. cbn [of_option mbind outcome_bind].
    eexists ld', _. split; [reflexivity|]. split; [done| |].
    + intros [|r] j Hr Hj; [|lia]. rewrite !Z.mul_0_l, !Z.add_0_r. by apply Hcp.
    + intros k Hk. apply Hfr. specialize (Hk 0%nat ltac:(lia)). lia.
  - unfold w_memcpy, memcpy. destruct (load_Ok (w_heap W) bs ls os (count * esz) Hbs Hos Hc0 Hls) as (d & -> & Hld & _).
    cbn [mbind outcome_bind]. unfold overlap. cbn [p_block p_off]. rewrite bool_decide_eq_false_2 by congruence. cbn [andb].
    unfold store. rewrite (content_Ok _ _ _ _ (at_mem _ _ _ _ _ _ Hat)). cbn [mbind outcome_bind p_off]. unfold zwrite.
    rewrite decide_False; [done|]. rewrite (at_size _ _ _ _ _ _ Hat), Hld. lia.
Qed.

(** ** Packing and unpacking *)

(** An element without fields, of [un] bytes padded to [pad], and [n] cells of it. *)
Record packable (W : world) (t : Type_) (y : id) (e : Element) (un pad n : Z) : Prop := {
  pk_elem : t_mElement t = Some y;
  pk_body : as_element (w_ctx W) y = Ok e;
  pk_leaf : e_mFields e = [];
  pk_un : unpadded_bytes W e = Ok un;
  pk_pad : getSizeBytes (as_element (w_ctx W)) e = Ok pad;
  pk_le : 0 <= un <= pad;
  pk_pos : 0 < pad < 2 ^ 32;
  pk_cells : t_mCellCount t = n;
  pk_n : 0 <= n < 2 ^ 32
}.

Lemma packable_block W b l t y e un pad n : packable W t y e un pad n -> packable (with_block W b l) t y e un pad n.
Proof. intros []. by split. Qed.

Lemma writePackedData_rows W t y e un pad n (dstPadded : bool) bd bs ld ls :
  packable W t y e un pad n -> bd <> bs -> blocks (w_heap W) !! bd = Some ld -> blocks (w_heap W) !! bs = Some ls ->
  let dstInc := if dstPadded then pad else un in let srcInc := if dstPadded then un else pad in
  n * dstInc <= zlen ld -> n * srcInc <= zlen ls ->
  exists ld', writePackedData W t (mkPtr (Some bd) 0) (mkPtr (Some bs) 0) dstPadded = Ok (with_block W bd ld') /\
    rows_copied ld ls ld' 0 0 un dstInc srcInc (Z.to_nat n).
Proof.
  intros [Hy He Hleaf Hun Hpad Hle Hpos Hcells Hn] Hne Hd Hs dstInc srcInc Hld Hls.
  unfold writePackedData. rewrite Hy. cbn [of_option mbind outcome_bind]. rewrite He. cbn [mbind outcome_bind]. rewrite Hun. cbn [mbind outcome_bind].
  rewrite Hpad. cbn [mbind outcome_bind]. unfold getPackedSizeBytes, getElementSizeBytes. rewrite Hy. cbn [of_option mbind outcome_bind].
  rewrite He. cbn [mbind outcome_bind]. rewrite Hpad. cbn [mbind outcome_bind]. rewrite Hcells, Hleaf.
  rewrite (u32_small un), (u32_small pad), u64_small by nia. destruct (Z.eqb_spec pad 0); [lia|]. cbn [mbind outcome_bind].
  rewrite Z.div_mul, u32_small by lia. fold dstInc srcInc.
  assert (un <= dstInc /\ un <= srcInc) as [? ?] by (unfold dstInc, srcInc; destruct dstPadded; lia).
  destruct (read_lines_rows bd bs ls un dstInc srcInc (Z.to_nat n) Hne ltac:(lia) ltac:(lia) W 0 0 ld Hd Hs ltac:(lia) ltac:(lia)) as (ld' & -> & Hrc).
  { intros r Hr. nia. }
  cbn [mbind outcome_bind]. eauto.
Qed.


(** ** One field of one cell *)

(** Every field lies inside the element, as it does in a struct of leaves. *)
Definition fields_fit (W : world) (e : Element) (esz : Z) : Prop :=
  forall i f, e_mFields e !! i = Some f -> exists x fe sz,
    f_e f = Some x /\ as_element (w_ctx W) x = Ok fe /\ getSizeBytes (as_element (w_ctx W)) fe = Ok sz /\
    0 <= sz /\ 0 <= f_arraySize f /\ 0 <= f_offsetBits f /\ Z.shiftr (f_offsetBits f) 3 + sz * f_arraySize f <= esz.

Lemma element_data_Ok obj_at W a esz t b ld y e f (i : nat) x yy bs ls os sizeBytes fe :
  attached W a esz t b ld -> getElement W a = Ok (y, e) -> e_mFields e !! i = Some f -> f_e f = Some fe ->
  0 <= Z.shiftr (f_offsetBits f) 3 -> 0 <= sizeBytes -> Z.shiftr (f_offsetBits f) 3 + sizeBytes <= esz ->
  rect_in t 0 0 x yy 1 1 -> b <> bs -> blocks (w_heap W) !! bs = Some ls -> 0 <= os -> os + sizeBytes <= zlen ls ->
  exists ld' a', element_data obj_at W a (mkPtr (Some b) (cell_at esz t 0 0 x yy)) (mkPtr (Some bs) os) (Z.of_nat i) sizeBytes =
      Ok (with_block W b ld', a') /\ a_drv a' <> None /\
    rows_copied ld ls ld' (cell_at esz t 0 0 x yy + Z.shiftr (f_offsetBits f) 3) os sizeBytes sizeBytes 0 1.
Proof.
  intros Hat Hel Hf Hfe Ho Hs Hfit Hr Hne Hbs Hos Hls. unfold element_data. rewrite Hel. cbn [mbind outcome_bind].
  rewrite (znth_lookup _ _ _ Hf). cbn [mbind outcome_bind]. rewrite Hfe. cbn [of_option mbind outcome_bind].
  rewrite (at_refs _ _ _ _ _ _ Hat). cbn [mbind outcome_bind]. unfold ptr_add. cbn [p_block p_off].
  destruct (rect_bounds _ _ _ _ _ _ _ _ _ _ _ _ Hat Hr) as (_ & _ & _ & Hc & Hin). specialize (Hin 0%nat ltac:(lia)).
  destruct (w_memcpy_Ok W b bs ld ls (cell_at esz t 0 0 x yy + Z.shiftr (f_offsetBits f) 3) os sizeBytes) as (ld' & -> & Hl & Hcp & Hfr); try done; try apply Hat; try lia.
  destruct (at_drv _ _ _ _ _ _ Hat) as [d Hd]. cbn [mbind outcome_bind]. unfold set_deferred. rewrite Hd. cbn [of_option mbind outcome_bind].
  eexists ld', _. split; [reflexivity|]. split; [done|]. split; [done| |].
  - intros [|r] j Hr' Hj; [|lia]. rewrite !Z.mul_0_l, !Z.add_0_r. by apply Hcp.
  - intros k Hk. apply Hfr. specialize (Hk 0%nat ltac:(lia)). lia.
Qed.


(** ** Examples *)

(** A row of four RGBA pixels, without mipmaps, whose element, type and allocation have
    names, filled with sevens. *)
Definition ex_file : outcome OStream :=
  c ← assignName (ex_ctx 4 0 0 false) 1%positive (Some [101]);
  c ← assignName c 2%positive (Some [116]);
  '(al, W) ← rsi_AllocationCreateTyped (fun _ => true) no_refs true (mkWorld ex_heap c []) 2%positive RS_ALLOCATION_MIPMAP_NONE
               RS_ALLOCATION_USAGE_SCRIPT NULL;
  '(this, a) ← of_option NullDeref al;
  c ← assignName (w_ctx W) this (Some [97]);
  '(W, a) ← data1 no_refs (with_ctx W c) a 0 0 4 (mkPtr (Some 1%positive) 0) 16;
  '(_, s) ← serialize W this a (OStream_new 64 false);
  Ok s.

(** The file read in an empty context. *)
Definition ex_load (s : OStream) : outcome (option (id * Allocation) * world * IStream) :=
  let bytes := default 0 <$> take (Z.to_nat (o_mPos s)) (o_mData s) in
  createFromStream (fun _ => true) no_refs true (mkWorld (mkHeap {[1%positive := Some <$> bytes]} 2%positive) no_objects [])
    1%positive (IStream_new bytes false).

(** an allocation without mipmaps does not survive a file: the type is read back as
    mipmapped, so the data is too short for it; the clean-up of the error path deletes the
    allocation, and with it the type it held, and then inspects the deleted type. *)
Theorem reload_use_after_free :
  match ex_file with Ok s => ex_load s = Fault UseAfterFree | Fault _ => False end.
Proof. vm_compute. reflexivity. Qed.

Lemma createAllocation_spec_witness :
  exists a W', createAllocation (fun _ => true) no_refs true (mkWorld ex_heap ex_mip []) 2%positive RS_ALLOCATION_USAGE_SCRIPT 0 NULL =
      Ok (Some (3%positive, a), W') /\ W plain_types [2%positive; 1%positive] [] 799 (w_ctx W') /\ w_errors W' = [].
Proof.
  destruct (createAllocation_spec (fun _ => true) no_refs (mkWorld ex_heap ex_mip []) [2%positive; 1%positive] [] 799 2%positive
    (Type_of ex_mip 2%positive) 1%positive (Element_of ex_mip 1%positive) 16 RS_ALLOCATION_USAGE_SCRIPT 0) as (a & W' & E & HW & _ & _ & He);
    [lia|lia|apply ex_mip_W|vm_compute; reflexivity..| | | | |].
  - split; [lia| |vm_compute; intuition congruence|vm_compute; reflexivity]. unfold dims_ok. vm_compute. intuition congruence.
  - vm_compute. reflexivity.
  - intros b Hb. cbn in Hb |- *. destruct (decide (b = 1%positive)) as [->|]; [lia|]. rewrite lookup_insert_ne in Hb by done.
    destruct (decide (b = 2%positive)) as [->|]; [lia|]. rewrite lookup_insert_ne, lookup_empty in Hb by done. by destruct Hb.
  - vm_compute. reflexivity.
  - exists a, W'. split; [exact E|]. split; [exact HW|exact He].
Defined.

Lemma ex_row_type zero : getType (ex_init 10 0 0 false zero).1 (ex_init 10 0 0 false zero).2 = Ok (ex_type 10 0 0 false).
Proof. destruct zero; vm_compute; reflexivity. Qed.

Lemma data1_spec_witness :
  exists ld' a', data1 no_refs (ex_init 10 0 0 false false).1 (ex_init 10 0 0 false false).2 2 0 3 (mkPtr (Some 1%positive) 0) (3 * 4) =
      Ok (with_block (ex_init 10 0 0 false false).1 3%positive ld', a') /\
    rows_copied (ex_cells 10 0 0 false false) (replicate 512 (Some 7)) ld' (2 * 4) 0 (3 * 4) (3 * 4) 0 1.
Proof.
  destruct ex_row as (Hat & Hb & _).
  apply (data1_spec no_refs _ _ 4 (ex_type 10 0 0 false) 3%positive _ 2 0 3 1%positive (replicate 512 (Some 7)) 0 (3 * 4) Hat);
    [apply ex_row_type|vm_compute; reflexivity|congruence|rewrite Hb; reflexivity|lia|vm_compute; congruence|lia..].
Defined.

(** Five vectors of three floats. *)
Definition ex_vec3 : Type_ := Type_of (ctx_of (getTypeRef ex_leaf (Some 1%positive) 5 0 0 false false 0)) 2%positive.
Definition ex_pack_world : world :=
  mkWorld (mkHeap (<[1%positive := replicate 80 (Some 9)]> (<[2%positive := replicate 60 None]> (<[3%positive := replicate 80 None]> ∅))) 4%positive)
    ex_leaf [].


(** A 4 by 4 image of structs of three vectors. *)
Definition ex_structs : ctx := ctx_of (getTypeRef ex_struct (Some 2%positive) 4 4 0 false false 0).
Definition ex_structs_alloc : Allocation :=
  mkAllocation (Some 3%positive) RS_ALLOCATION_USAGE_SCRIPT 0 0 48 false false false NULL drvState_zero None.
Definition ex_structs_init : world * Allocation :=
  match rsdAllocationInit (fun _ => true) no_refs (mkWorld ex_heap ex_structs []) ex_structs_alloc false with
  | Ok (_, W, a) => (W, a)
  | Fault _ => (mkWorld ex_heap ex_structs [], ex_structs_alloc)
  end.

Lemma ex_structs_type : type_fits 48 (Type_of ex_structs 3%positive).
Proof. split; [lia| |vm_compute; intuition congruence|vm_compute; reflexivity]. unfold dims_ok. vm_compute. intuition congruence. Qed.

Lemma ex_structs_request : plain_request (mkWorld ex_heap ex_structs []) ex_structs_alloc 48 3%positive (Type_of ex_structs 3%positive).
Proof.
  split; [reflexivity|vm_compute; reflexivity|vm_compute; reflexivity|apply ex_structs_type|reflexivity|reflexivity|reflexivity|reflexivity
    |vm_compute; reflexivity|vm_compute; reflexivity].
Qed.

Lemma ex_structs_attached : let t := Type_of ex_structs 3%positive in
  attached ex_structs_init.1 ex_structs_init.2 48 t 3%positive (fresh_cells (alloc_size 48 t) false) /\
  blocks (w_heap ex_structs_init.1) !! 1%positive = Some (replicate 512 (Some 7)) /\ w_ctx ex_structs_init.1 = ex_structs /\
  a_type ex_structs_init.2 = Some 3%positive.
Proof.
  intros t. destruct (init_attached (fun _ => true) no_refs _ _ _ _ _ false ex_structs_request eq_refl eq_refl) as (W & a & E & Hat & Hb & _ & Hc & Ht).
  unfold ex_structs_init. rewrite E. cbn [fst snd]. split; [exact Hat|]. rewrite Hb. split; [|split; [exact Hc|exact Ht]].
  rewrite lookup_insert_ne by (cbn; congruence). reflexivity.
Qed.

Lemma ex_structs_fit W : w_ctx W = ex_structs -> fields_fit W (Element_of ex_structs 2%positive) 48.
Proof.
  intros E i f Hf. rewrite E. assert (i = 0 \/ i = 1)%nat as Hi.
  { apply lookup_lt_Some in Hf. change (length (e_mFields (Element_of ex_structs 2%positive))) with 2%nat in Hf. lia. }
  destruct Hi as [-> | ->]; vm_compute in Hf; injection Hf as <-; eexists 1%positive, (Element_of ex_structs 1%positive), 16;
    split_and!; vm_compute; (reflexivity || congruence).
Qed.


End RsAllocation.
