(* ===== verification/CpuCore.v ===== *)
(** * CpuCore: how a kernel is launched ([cpu_ref/rsCpuCore.cpp], [cpu_ref/rsCpuScript.cpp])

    The set-up of a launch, its slices, and the two ways the cells of the launch range
    are handed to the kernel: one loop on the calling thread, or the slice loops of all
    workers.  A kernel call is an event: what the kernel does with it is compiled code
    outside the repository. *)

From S2P Require Import Prelude CppUtils Stream Component ObjectBase Objects Element RsType Memory DrvAllocation.
Import CppUtils ObjectBase Objects Element RsType Memory DrvAllocation.

Module CpuCore.

Definition RS_ERROR_BAD_SCRIPT : Z := 2.

(** ** Launch parameters *)

(** The fields of [RsForEachStubParamStruct] a launch sets; [x], [lod] and [face] stay zero. *)
Record RsForEachStubParamStruct := mkFep {
  fp_in : ptr; fp_out : ptr; fp_usr : ptr; fp_usrLen : Z; fp_y : Z; fp_z : Z; fp_ar0 : Z; fp_lid : Z;
  fp_dimX : Z; fp_dimY : Z; fp_dimZ : Z; ptrIn : ptr; ptrOut : ptr;
  eStrideIn : Z; eStrideOut : Z; yStrideIn : Z; yStrideOut : Z; fp_slot : Z
}.

(** [MTLaunchStruct]; the kernel is the number of its function. *)
Record MTLaunchStruct := mkMtls {
  fep : RsForEachStubParamStruct; kernel : Z; sig : Z; mSliceSize : Z; mSliceNum : Z; isThreadable : bool;
  xStart : Z; xEnd : Z; yStart : Z; yEnd : Z; zStart : Z; zEnd : Z; arrayStart : Z; arrayEnd : Z
}.

(** The bounds of [RsScriptCall]. *)
Record RsScriptCall := mkCall {
  sc_xStart : Z; sc_xEnd : Z; sc_yStart : Z; sc_yEnd : Z; sc_zStart : Z; sc_zEnd : Z
}.

Definition fep_zero : RsForEachStubParamStruct := mkFep NULL NULL NULL 0 0 0 0 0 0 0 0 NULL NULL 0 0 0 0 0.

(** [memset(mtls, 0, sizeof(MTLaunchStruct))] *)
Definition mtls_zero : MTLaunchStruct := mkMtls fep_zero 0 0 0 0 false 0 0 0 0 0 0 0 0.

Definition with_fep (m : MTLaunchStruct) (p : RsForEachStubParamStruct) : MTLaunchStruct :=
  mkMtls p (kernel m) (sig m) (mSliceSize m) (mSliceNum m) (isThreadable m) (xStart m) (xEnd m) (yStart m) (yEnd m)
    (zStart m) (zEnd m) (arrayStart m) (arrayEnd m).
Definition with_bounds (m : MTLaunchStruct) (x0 x1 y0 y1 z0 z1 : Z) : MTLaunchStruct :=
  mkMtls (fep m) (kernel m) (sig m) (mSliceSize m) (mSliceNum m) (isThreadable m) x0 x1 y0 y1 z0 z1 (arrayStart m) (arrayEnd m).
Definition with_slices (m : MTLaunchStruct) (n : Z) : MTLaunchStruct :=
  mkMtls (fep m) (kernel m) (sig m) n (mSliceNum m) (isThreadable m) (xStart m) (xEnd m) (yStart m) (yEnd m)
    (zStart m) (zEnd m) (arrayStart m) (arrayEnd m).

Definition with_dims (p : RsForEachStubParamStruct) (x y z : Z) : RsForEachStubParamStruct :=
  mkFep (fp_in p) (fp_out p) (fp_usr p) (fp_usrLen p) (fp_y p) (fp_z p) (fp_ar0 p) (fp_lid p) x y z (ptrIn p) (ptrOut p)
    (eStrideIn p) (eStrideOut p) (yStrideIn p) (yStrideOut p) (fp_slot p).

(** One dimension of the range: what [sc] asks for, clipped to the dimension; [None]
    where the setup returns early with the fields set so far. *)
Definition clip (sc : option (Z * Z)) (dim : Z) : Z * Z * bool :=
  match sc with
  | None => (0, dim, true)
  | Some (a, b) =>
      if b =? 0 then (0, dim, true)
      else let a := rsMin dim a in let b := rsMin dim b in (a, b, negb (a >=? b))
  end.

Definition base_ptr (a : Allocation) : outcome ptr :=
  l ← znth (lod (drvState a)) 0; Ok (mallocPtr l).

(** The pointer and strides of one side of the launch: base, element stride, row stride. *)
Definition side (W : world) (a : option Allocation) : outcome (ptr * Z * Z) :=
  match a with
  | None => Ok (NULL, 0, 0)
  | Some a =>
      l ← znth (lod (drvState a)) 0;
      t ← getType W a;
      esz ← getElementSizeBytes (w_ctx W) t;
      Ok (mallocPtr l, u32 esz, u32 (stride l))
  end.

Definition null_base (a : option Allocation) : outcome bool :=
  match a with None => Ok false | Some a => p ← base_ptr a; Ok (is_null p) end.

(** [RsdCpuScriptImpl::forEachMtlsSetup] for a script whose kernels are threadable or not. *)
Definition forEachMtlsSetup (W : world) (mIsThreadable : bool) (ain aout : option Allocation) (usr : ptr) (usrLen : Z)
    (sc : option RsScriptCall) : outcome (world * MTLaunchStruct) :=
  let m := mtls_zero in
  ni ← null_base ain;
  if (ni : bool) then Ok (setError W RS_ERROR_BAD_SCRIPT, m) else
  no ← null_base aout;
  if (no : bool) then Ok (setError W RS_ERROR_BAD_SCRIPT, m) else
  match (match ain with Some a => Some a | None => aout end) with
  | None => Ok (setError W RS_ERROR_BAD_SCRIPT, m)
  | Some a =>
      t ← getType W a;
      let h := t_mHal t in
      let m := with_fep m (with_dims (fep m) (dimX h) (dimY h) (dimZ h)) in
      let '(x0, x1, go) := clip ((fun s => (sc_xStart s, sc_xEnd s)) <$> sc) (dimX h) in
      let m := with_bounds m x0 x1 0 0 0 0 in
      if negb go then Ok (W, m) else
      let '(y0, y1, go) := clip ((fun s => (sc_yStart s, sc_yEnd s)) <$> sc) (dimY h) in
      let m := with_bounds m x0 x1 y0 y1 0 0 in
      if negb go then Ok (W, m) else
      let '(z0, z1, go) := clip ((fun s => (sc_zStart s, sc_zEnd s)) <$> sc) (dimZ h) in
      let m := with_bounds m x0 x1 y0 y1 z0 z1 in
      if negb go then Ok (W, m) else
      '(pin, ein, yin) ← side W ain;
      '(pout, eout, yout) ← side W aout;
      let p := mkFep NULL NULL usr usrLen 0 0 0 0 (dimX h) (dimY h) (dimZ h) pin pout ein eout yin yout 0 in
      Ok (W, mkMtls p 0 0 1 0 mIsThreadable x0 (rsMax 1 x1) y0 (rsMax 1 y1) z0 (rsMax 1 z1) 0 (rsMax 1 0))
  end.

(** [RsdCpuScriptImpl::forEachKernelSetup]: the tables of a script are those of the
    loaded object. *)
Definition forEachKernelSetup (mForEachFunctions mForEachSignatures : list Z) (slot : Z) (m : MTLaunchStruct)
    : outcome MTLaunchStruct :=
  k ← znth mForEachFunctions slot;
  s ← znth mForEachSignatures slot;
  let p := fep m in
  let p := mkFep (fp_in p) (fp_out p) (fp_usr p) (fp_usrLen p) (fp_y p) (fp_z p) (fp_ar0 p) (fp_lid p) (fp_dimX p) (fp_dimY p)
             (fp_dimZ p) (ptrIn p) (ptrOut p) (eStrideIn p) (eStrideOut p) (yStrideIn p) (yStrideOut p) slot in
  Ok (mkMtls p k s (mSliceSize m) (mSliceNum m) (isThreadable m) (xStart m) (xEnd m) (yStart m) (yEnd m)
        (zStart m) (zEnd m) (arrayStart m) (arrayEnd m)).

(** ** Kernel calls *)

(** What a kernel is called with: the fields of [p] that vary, the range and the steps. *)
Record call := mkKCall {
  c_in : ptr; c_out : ptr; c_y : Z; c_z : Z; c_ar0 : Z; c_lid : Z; c_x1 : Z; c_x2 : Z; c_instep : Z; c_outstep : Z
}.

#[global] Instance call_eq_dec : EqDecision call.
Proof. solve_decision. Defined.

(** The call of [wc_xy] for one row. *)
Definition row_call (m : MTLaunchStruct) (lid y : Z) : call :=
  let p := fep m in
  mkKCall (ptr_add (ptr_add (ptrIn p) (yStrideIn p *u32 y)) (eStrideIn p *u32 xStart m))
    (ptr_add (ptr_add (ptrOut p) (yStrideOut p *u32 y)) (eStrideOut p *u32 xStart m))
    y (fp_z p) (fp_ar0 p) lid (xStart m) (xEnd m) (eStrideIn p) (eStrideOut p).

(** The call of [wc_x] for the cells [x1 .. x2 - 1]. *)
Definition cells_call (m : MTLaunchStruct) (lid x1 x2 : Z) : call :=
  let p := fep m in
  mkKCall (ptr_add (ptrIn p) (eStrideIn p *u32 x1)) (ptr_add (ptrOut p) (eStrideOut p *u32 x1))
    (fp_y p) (fp_z p) (fp_ar0 p) lid x1 x2 (eStrideIn p) (eStrideOut p).

(** The call of the loop without workers. *)
Definition plain_call (m : MTLaunchStruct) (ar z y : Z) : call :=
  let p := fep m in
  let offset := u32 ((fp_dimY p *u32 fp_dimZ p) *u32 ar + fp_dimY p *u32 z + y) in
  mkKCall (ptr_add (ptr_add (ptrIn p) (yStrideIn p *u32 offset)) (eStrideIn p *u32 xStart m))
    (ptr_add (ptr_add (ptrOut p) (yStrideOut p *u32 offset)) (eStrideOut p *u32 xStart m))
    y z ar (fp_lid p) (xStart m) (xEnd m) (eStrideIn p) (eStrideOut p).

(** [for (i = from; i < to; i++)] over 32-bit bounds. *)
Definition upto (from to : Z) : list Z := seqZ from (to - from).

Definition plain_calls (m : MTLaunchStruct) : list call :=
  ar ← upto (arrayStart m) (arrayEnd m);
  z ← upto (zStart m) (zEnd m);
  y ← upto (yStart m) (yEnd m);
  [plain_call m ar z y].

(** ** Slices *)

(** The two worker callbacks. *)
Inductive callback := wc_xy | wc_x.

#[global] Instance callback_eq_dec : EqDecision callback.
Proof. solve_decision. Defined.

Record job := mkJob { j_cb : callback; j_mtls : MTLaunchStruct }.

Definition j_start (j : job) : Z := match j_cb j with wc_xy => yStart (j_mtls j) | wc_x => xStart (j_mtls j) end.
Definition j_end (j : job) : Z := match j_cb j with wc_xy => yEnd (j_mtls j) | wc_x => xEnd (j_mtls j) end.
Definition j_size (j : job) : Z := mSliceSize (j_mtls j).

(** The bounds of slice number [slice]. *)
Definition slice_from (j : job) (slice : Z) : Z := j_start j +u32 (slice *u32 j_size j).
Definition slice_to (j : job) (slice : Z) : Z := rsMin (slice_from j slice +u32 j_size j) (j_end j).

(** Where a worker is in its callback: about to take a slice, inside one with the rows
    [from .. to - 1] left, or returned. *)
Inductive wstate := Fetch | Slice (from to : Z) | Done.

(** One step of a callback: it takes a slice by an atomic increment of [mSliceNum], or
    calls the kernel for the next piece of its slice. *)
Definition wstep (j : job) (lid n : Z) (w : wstate) : option (Z * wstate * list call) :=
  match w with
  | Fetch =>
      let slice := u32 n in
      let a := slice_from j slice in
      let b := slice_to j slice in
      Some (s32 (n + 1), if b <=? a then Done else Slice a b, [])
  | Slice a b =>
      match j_cb j with
      | wc_xy => Some (n, if a + 1 <? b then Slice (a + 1) b else Fetch, [row_call (j_mtls j) lid a])
      | wc_x => Some (n, Fetch, [cells_call (j_mtls j) lid a b])
      end
  | Done => None
  end.

(** An integer division: by zero it is a fault. *)
Definition udiv (a b : Z) : outcome Z := if b =? 0 then Fault DivByZero else Ok (a / b).

Definition targetByteChunk : Z := 16 * 1024.

(** The slice size [launchThreads] chooses for [count] helper threads. *)
Definition slice_size (count dim strideOut strideIn : Z) : outcome Z :=
  s1 ← udiv dim ((count +u32 1) *u32 4);
  s2 ← udiv targetByteChunk (if strideOut =? 0 then strideIn else strideOut);
  let s := rsMin s1 (u32 s2) in
  Ok (if s <? 1 then 1 else s).

(** How [launchThreads] runs a launch: with the workers, or by itself. *)
Inductive plan := Threaded (j : job) | Plain (cs : list call).

Definition launchThreads (count : Z) (mInForEach : bool) (m : MTLaunchStruct) : outcome plan :=
  if (count >=? 1) && isThreadable m && negb mInForEach then
    let p := fep m in
    if fp_dimY p >? 1 then
      s ← slice_size count (fp_dimY p) (yStrideOut p) (yStrideIn p);
      Ok (Threaded (mkJob wc_xy (with_slices m s)))
    else
      s ← slice_size count (fp_dimX p) (eStrideOut p) (eStrideIn p);
      Ok (Threaded (mkJob wc_x (with_slices m s)))
  else Ok (Plain (plain_calls m)).

(** [RsdCpuScriptImpl::invokeForEach] up to the launch. *)
Definition invokeForEach (count : Z) (mInForEach mIsThreadable : bool) (mForEachFunctions mForEachSignatures : list Z) (W : world) (slot : Z)
    (ain aout : option Allocation) (usr : ptr) (usrLen : Z) (sc : option RsScriptCall) : outcome (world * plan) :=
  '(W, m) ← forEachMtlsSetup W mIsThreadable ain aout usr usrLen sc;
  m ← forEachKernelSetup mForEachFunctions mForEachSignatures slot m;
  p ← launchThreads count mInForEach m;
  Ok (W, p).

(** The fast path of [launchThreads(cbk, data)] for very small launches. *)
Definition small_launch (j : job) : bool :=
  let m := j_mtls j in (fp_dimY (fep m) <=? 1) && (xEnd m <=? (xStart m +u32 mSliceSize m)).

(** ** The slices of a job *)

(** A call without the number of the worker that made it. *)
Definition erase (c : call) : call :=
  mkKCall (c_in c) (c_out c) (c_y c) (c_z c) (c_ar0 c) 0 (c_x1 c) (c_x2 c) (c_instep c) (c_outstep c).

(** The calls for the rows, or cells, [a .. b - 1]. *)
Definition chunk (j : job) (a b : Z) : list call :=
  match j_cb j with
  | wc_xy => row_call (j_mtls j) 0 <$> upto a b
  | wc_x => [cells_call (j_mtls j) 0 a b]
  end.

Definition slice_calls (j : job) (k : nat) : list call :=
  let a := slice_from j (Z.of_nat k) in let b := slice_to j (Z.of_nat k) in if b <=? a then [] else chunk j a b.

Definition slices_upto (j : job) (k : nat) : list call := concat (slice_calls j <$> seq 0 k).

#[global] Arguments slices_upto : simpl never.

(** How many slices are not empty. *)
Definition nsl (j : job) : nat := Z.to_nat ((j_end j - j_start j + j_size j - 1) / j_size j).

(** What a job launched on a pool of [n] helpers must satisfy for the slice arithmetic
    not to wrap: each of the [n + 1] workers takes one slice past the end. *)
Record job_ok (n : nat) (j : job) : Prop := {
  jo_start : 0 <= j_start j;
  jo_end : 0 <= j_end j;
  jo_size : 1 <= j_size j;
  jo_num : mSliceNum (j_mtls j) = 0;
  jo_fits : Z.max (j_start j) (j_end j) + (Z.of_nat n + 2) * j_size j < 2 ^ 32
}.

(** What a worker that is inside a slice has still to call. *)
Definition pend (j : job) (w : wstate) : list call := match w with Slice a b => chunk j a b | _ => [] end.
Definition wf_w (w : wstate) : Prop := match w with Slice a b => a < b | _ => True end.

Lemma upto_nil a b : b <= a -> upto a b = [].
Proof. intros. unfold upto. apply seqZ_nil. lia. Qed.

Lemma upto_cons a b : a < b -> upto a b = a :: upto (a + 1) b.
Proof. intros. unfold upto. rewrite seqZ_cons by lia. f_equal. f_equal; lia. Qed.

Lemma upto_app a b c : a <= b <= c -> upto a c = upto a b ++ upto b c.
Proof.
  intros. unfold upto. replace (c - a) with ((b - a) + (c - b)) by lia.
  rewrite seqZ_app by lia. do 2 f_equal. lia.
Qed.

Lemma u32_s32 z : u32 (s32 z) = u32 z.
Proof.
  unfold u32, s32, wrap, swrap. rewrite Zminus_mod_idemp_l. f_equal. lia.
Qed.

Lemma s32_succ z : s32 (s32 z + 1) = s32 (z + 1).
Proof.
  unfold s32, swrap. replace ((z + 2 ^ (32 - 1)) mod 2 ^ 32 - 2 ^ (32 - 1) + 1 + 2 ^ (32 - 1)) with ((z + 2 ^ (32 - 1)) mod 2 ^ 32 + 1) by lia.
  rewrite Zplus_mod_idemp_l. do 2 f_equal. lia.
Qed.

Section job.
Context (n : nat) (j : job) (Hok : job_ok n j).

Lemma nsl_bounds k : Z.of_nat k < Z.of_nat (nsl j) <-> j_start j + Z.of_nat k * j_size j < j_end j.
Proof.
  destruct Hok as [Hs He Hz _ _]. unfold nsl. set (d := j_end j - j_start j).
  destruct (decide (d + j_size j - 1 < 0)).
  - rewrite Z2Nat.nonpos by (apply Z.div_le_upper_bound; lia). split; nia.
  - rewrite Z2Nat.id by (apply Z.div_pos; lia).
    pose proof (Z.mul_div_le (d + j_size j - 1) (j_size j) ltac:(lia)).
    pose proof (Z.mul_succ_div_gt (d + j_size j - 1) (j_size j) ltac:(lia)). split; nia.
Qed.

Lemma slice_nowrap k :
  (k <= nsl j + n)%nat -> j_start j + (Z.of_nat k + 1) * j_size j < 2 ^ 32.
Proof.
  destruct Hok as [Hs He Hz _ Hf]. intros Hk. destruct (nsl j) as [|m] eqn:Em; [nia|].
  pose proof (proj1 (nsl_bounds m) ltac:(lia)). nia.
Qed.

Lemma slice_exact k :
  (k <= nsl j + n)%nat ->
  slice_from j (Z.of_nat k) = j_start j + Z.of_nat k * j_size j /\
  slice_to j (Z.of_nat k) = Z.min (j_start j + (Z.of_nat k + 1) * j_size j) (j_end j).
Proof.
  intros Hk. pose proof (slice_nowrap k Hk) as Hn. destruct Hok as [Hs He Hz _ Hf].
  unfold slice_to, slice_from, rsMin. rewrite (u32_small (Z.of_nat k * j_size j)) by nia. rewrite (u32_small (j_start j + _)) by nia.
  split; [done|]. rewrite u32_small by nia. destruct (_ >? _) eqn:E; nia.
Qed.

Lemma slice_live k : (k <= nsl j + n)%nat -> (slice_to j (Z.of_nat k) <=? slice_from j (Z.of_nat k)) = negb (k <? nsl j)%nat.
Proof.
  intros Hk. destruct (slice_exact k Hk) as [-> ->]. pose proof (nsl_bounds k) as Hb. destruct Hok as [Hs He Hz _ _].
  destruct (Nat.ltb_spec k (nsl j)); cbn; [apply Z.leb_gt|apply Z.leb_le]; nia.
Qed.

Lemma slices_upto_S k : slices_upto j (S k) = slices_upto j k ++ slice_calls j k.
Proof. unfold slices_upto. rewrite seq_S, fmap_app, concat_app. cbn. by rewrite app_nil_r. Qed.

Lemma slices_upto_past k : (nsl j <= k <= nsl j + n + 1)%nat -> slices_upto j k = slices_upto j (nsl j).
Proof.
  induction k as [|k IH]; intros Hk; [by replace (nsl j) with 0%nat by lia|].
  destruct (decide (nsl j = S k)) as [->|]; [done|]. rewrite slices_upto_S, IH by lia.
  unfold slice_calls. rewrite slice_live by lia. destruct (Nat.ltb_spec k (nsl j)); [lia|]. cbn. by rewrite app_nil_r.
Qed.

Lemma slices_upto_length k : (k <= nsl j + n + 1)%nat -> (length (slices_upto j k) <= length (slices_upto j (nsl j)))%nat.
Proof.
  intros Hk. destruct (decide (nsl j <= k)%nat); [by rewrite slices_upto_past by lia|].
  replace (nsl j) with (k + (nsl j - k))%nat by lia. generalize (nsl j - k)%nat. intros d.
  unfold slices_upto. rewrite seq_app, fmap_app, concat_app, length_app. lia.
Qed.

(** All rows, in order, when the slices are rows. *)
Lemma slices_rows k :
  j_cb j = wc_xy -> (k <= nsl j)%nat ->
  slices_upto j k = row_call (j_mtls j) 0 <$> upto (j_start j) (Z.min (j_start j + Z.of_nat k * j_size j) (j_end j)).
Proof.
  intros Hcb. induction k as [|k IH]; intros Hk.
  { unfold slices_upto. cbn. rewrite upto_nil by lia. done. }
  rewrite slices_upto_S, IH by lia. unfold slice_calls. rewrite slice_live by lia.
  destruct (Nat.ltb_spec k (nsl j)) as [Hlt|]; [|lia]. cbn. destruct (slice_exact k ltac:(lia)) as [-> ->].
  pose proof (proj1 (nsl_bounds k) ltac:(lia)). destruct Hok as [Hs He Hz _ _].
  unfold chunk. rewrite Hcb, <- fmap_app. f_equal.
  rewrite (Z.min_l _ (j_end j)) by lia. rewrite <- upto_app by nia. f_equal. f_equal. lia.
Qed.

(** What a step of a callback does to the work left. *)
Lemma wstep_fetch lid k :
  (k <= nsl j + n)%nat ->
  exists w, wstep j lid (s32 (Z.of_nat k)) Fetch = Some (s32 (Z.of_nat (S k)), w, []) /\ wf_w w /\
    slice_calls j k = pend j w /\ (if (k <? nsl j)%nat then w <> Done /\ w <> Fetch else w = Done).
Proof.
  intros Hk. pose proof (slice_nowrap k Hk) as Hn. destruct Hok as [Hs He Hz _ Hf]. unfold wstep, slice_calls.
  rewrite u32_s32, (u32_small (Z.of_nat k)) by nia.
  eexists. split; [do 3 f_equal|].
  { rewrite s32_succ. f_equal. lia. }
  rewrite slice_live by done. destruct (Nat.ltb_spec k (nsl j)); cbn; [|done].
  split_and!; try done. destruct (slice_exact k Hk) as [-> ->]. pose proof (proj1 (nsl_bounds k) ltac:(lia)). nia.
Qed.

Lemma wstep_slice lid m a b :
  a < b -> exists w c, wstep j lid m (Slice a b) = Some (m, w, [c]) /\ wf_w w /\ w <> Done /\ chunk j a b = erase c :: pend j w.
Proof.
  intros Hab. unfold wstep, chunk. destruct (j_cb j) eqn:Hcb.
  - eexists _, _. split; [done|]. rewrite upto_cons by done. cbn [fmap list_fmap].
    destruct (Z.ltb_spec (a + 1) b); (split; [done|]); (split; [done|]); unfold pend, chunk; rewrite ?Hcb; [done|].
    by rewrite upto_nil by lia.
  - eexists _, _. by split_and!.
Qed.

End job.

End CpuCore.
