(* ===== verification/Workers.v ===== *)
(** * Workers: the helper threads ([cpu_ref/rsCpuCore.cpp], [rsSignal.cpp])

    The thread pool of the CPU driver as a machine with one program counter per thread:
    start-up, launches and shutdown.  Its steps are the accesses to shared memory, in
    any interleaving; a kernel call is one step.  [Signal::wait] wakes up when the signal
    is set; [spurious] says whether it may also wake up without. *)

From S2P Require Import Prelude CppUtils Stream Component ObjectBase Objects Element RsType Memory DrvAllocation CpuCore.
Import CppUtils ObjectBase Objects Element RsType Memory DrvAllocation CpuCore.

Module Workers.

(** A helper thread in [helperThreadProc]. *)
Inductive hpc :=
| HLoop               (** at [while (!dc->mExit)] *)
| HWait               (** in [mLaunchSignals[idx].wait()] *)
| HRun (w : wstate)   (** in the launch callback *)
| HDec                (** before the decrement of [mRunningCount] *)
| HSet                (** before [mCompleteSignal.set()] *)
| HExit.              (** returned *)

(** The thread that owns the pool. *)
Inductive mpc :=
| MCreate (k : nat)     (** in [init], [k] threads still to create *)
| MPoll                 (** in [init], until [mRunningCount] is zero *)
| MIdle                 (** outside the pool *)
| MSignal (ct : nat)    (** in [launchThreads], signals from [ct] on still to set *)
| MRun (w : wstate)     (** in the callback, as worker 0 *)
| MFast (w : wstate)    (** in the callback, for a very small launch *)
| MCheck                (** before the test of [mRunningCount] *)
| MWait                 (** in [mCompleteSignal.wait()] *)
| MQuit (ct : nat)      (** in the destructor, signals from [ct] on still to set *)
| MJoin                 (** in the destructor, joining *)
| MGone.                (** destroyed *)

#[global] Instance wstate_eq_dec : EqDecision wstate.
Proof. solve_decision. Defined.
#[global] Instance hpc_eq_dec : EqDecision hpc.
Proof. solve_decision. Defined.

(** [Workers] with the launch data, the flag [mExit], the program counters, and the
    kernel calls of the current launch in the order they happened. *)
Record pool := mkPool {
  mRunningCount : Z; mLaunchSignals : list bool; mCompleteSignal : bool; mLaunch : option job; sliceNum : Z;
  mExit : bool; helpers : list hpc; main : mpc; calls : list call
}.

Definition set_main (p : pool) (m : mpc) : pool :=
  mkPool (mRunningCount p) (mLaunchSignals p) (mCompleteSignal p) (mLaunch p) (sliceNum p) (mExit p) (helpers p) m (calls p).
Definition set_helper (p : pool) (i : nat) (h : hpc) : pool :=
  mkPool (mRunningCount p) (mLaunchSignals p) (mCompleteSignal p) (mLaunch p) (sliceNum p) (mExit p) (<[i := h]> (helpers p))
    (main p) (calls p).
Definition set_signal (p : pool) (i : nat) (b : bool) : pool :=
  mkPool (mRunningCount p) (<[i := b]> (mLaunchSignals p)) (mCompleteSignal p) (mLaunch p) (sliceNum p) (mExit p) (helpers p)
    (main p) (calls p).
Definition set_complete (p : pool) (b : bool) : pool :=
  mkPool (mRunningCount p) (mLaunchSignals p) b (mLaunch p) (sliceNum p) (mExit p) (helpers p) (main p) (calls p).
Definition set_running (p : pool) (n : Z) : pool :=
  mkPool n (mLaunchSignals p) (mCompleteSignal p) (mLaunch p) (sliceNum p) (mExit p) (helpers p) (main p) (calls p).
Definition record_calls (p : pool) (n : Z) (cs : list call) : pool :=
  mkPool (mRunningCount p) (mLaunchSignals p) (mCompleteSignal p) (mLaunch p) n (mExit p) (helpers p) (main p) (calls p ++ cs).

(** [mWorkers.mCount] *)
Definition mCount (p : pool) : nat := length (helpers p).

(** [RsdCpuReferenceImpl::init] for [n] helper threads: a new [Signal] is set, and the
    count of running threads is that of the threads wanted. *)
Definition init (n : nat) : pool :=
  mkPool (Z.of_nat n) (replicate n true) false None 0 false [] (MCreate n) [].

(** [pthread_create] fails: [mCount] is the number of threads that exist. *)
Definition create_fails (p : pool) : option pool :=
  match main p with MCreate (S _) => Some (set_main p MPoll) | _ => None end.

(** [launchThreads(cbk, data)] called: the launch data is published, [mRunningCount] set. *)
Definition launch (j : job) (p : pool) : option pool :=
  match main p with
  | MIdle =>
      let p := mkPool (mRunningCount p) (mLaunchSignals p) (mCompleteSignal p) (Some j) (mSliceNum (j_mtls j)) (mExit p) (helpers p)
                 MIdle [] in
      Some (if small_launch j then set_main p (MFast Fetch) else set_main (set_running p (Z.of_nat (mCount p))) (MSignal 0))
  | _ => None
  end.

(** The destructor called. *)
Definition destroy (p : pool) : option pool :=
  match main p with
  | MIdle =>
      Some (mkPool (Z.of_nat (mCount p)) (mLaunchSignals p) (mCompleteSignal p) None (sliceNum p) true (helpers p) (MQuit 0) (calls p))
  | _ => None
  end.

(** A step of the callback by the worker [lid]: the pool after it and where the worker is. *)
Definition run_callback (p : pool) (lid : Z) (w : wstate) : option (pool * wstate) :=
  match mLaunch p with
  | None => None
  | Some j => '(n, w', cs) ← wstep j lid (sliceNum p) w; Some (record_calls p n cs, w')
  end.

(** [Signal::wait] on a signal whose flag [mSet] is [set]: the flag is cleared when the
    wait ends, which a set flag or a spurious wake-up brings about. *)
Definition wait (spurious set : bool) : option bool := if set || spurious then Some false else None.

Section steps.
Variable spurious : bool.

Definition helper_step (i : nat) (p : pool) : option pool :=
  h ← helpers p !! i;
  match h with
  | HLoop => Some (set_helper p i (if mExit p then HExit else HWait))
  | HWait =>
      s ← mLaunchSignals p !! i;
      s ← wait spurious s;
      Some (set_helper (set_signal p i s) i (match mLaunch p with Some _ => HRun Fetch | None => HDec end))
  | HRun Done => Some (set_helper p i HDec)
  | HRun w => '(p, w) ← run_callback p (Z.of_nat i + 1) w; Some (set_helper p i (HRun w))
  | HDec => Some (set_helper (set_running p (mRunningCount p - 1)) i HSet)
  | HSet => Some (set_helper (set_complete p true) i HLoop)
  | HExit => None
  end.

Definition main_step (p : pool) : option pool :=
  match main p with
  | MCreate O => Some (set_main p MPoll)
  | MCreate (S k) =>
      Some (mkPool (mRunningCount p) (mLaunchSignals p) (mCompleteSignal p) (mLaunch p) (sliceNum p) (mExit p) (helpers p ++ [HLoop])
              (MCreate k) (calls p))
  | MPoll => if mRunningCount p =? 0 then Some (set_main p MIdle) else None
  | MIdle => None
  | MSignal ct =>
      if (ct <? mCount p)%nat then Some (set_main (set_signal p ct true) (MSignal (S ct))) else Some (set_main p (MRun Fetch))
  | MRun Done => Some (set_main p MCheck)
  | MRun w => '(p, w) ← run_callback p 0 w; Some (set_main p (MRun w))
  | MFast Done => Some (set_main p MIdle)
  | MFast w => '(p, w) ← run_callback p 0 w; Some (set_main p (MFast w))
  | MCheck => Some (set_main p (if mRunningCount p =? 0 then MIdle else MWait))
  | MWait => c ← wait spurious (mCompleteSignal p); Some (set_main (set_complete p c) MCheck)
  | MQuit ct =>
      if (ct <? mCount p)%nat then Some (set_main (set_signal p ct true) (MQuit (S ct))) else Some (set_main p MJoin)
  | MJoin => if forallb (fun h => bool_decide (h = HExit)) (helpers p) then Some (set_main p MGone) else None
  | MGone => None
  end.

Inductive actor := AMain | AHelper (i : nat).

Definition step (a : actor) (p : pool) : option pool :=
  match a with AMain => main_step p | AHelper i => helper_step i p end.

(** A schedule: which thread takes each step. *)
Fixpoint run (sched : list actor) (p : pool) : option pool :=
  match sched with
  | [] => Some p
  | a :: r => p ← step a p; run r p
  end.

Inductive steps : pool -> pool -> Prop :=
| steps_refl p : steps p p
| steps_step a p q r : step a p = Some q -> steps q r -> steps p r.

(** What the owner of the pool may do with it: any number of launches, then destroy it. *)
Inductive reachable (n : nat) : pool -> Prop :=
| reach_init : reachable n (init n)
| reach_step a p q : reachable n p -> step a p = Some q -> reachable n q
| reach_launch j p q : reachable n p -> job_ok n j -> launch j p = Some q -> reachable n q
| reach_destroy p q : reachable n p -> destroy p = Some q -> reachable n q.

End steps.

(** ** The invariant *)

Definition sigb (p : pool) (i : nat) : bool := default false (mLaunchSignals p !! i).
Definition activeb (p : pool) (i : nat) : bool :=
  match helpers p !! i with Some (HRun _) | Some HDec => true | _ => false end.
(** Which helpers have been signalled in this launch. *)
Definition limit (n : nat) (m : mpc) : nat := match m with MSignal ct => ct | _ => n end.
(** A helper that has still to count down in this launch. *)
Definition busyb (n : nat) (p : pool) (i : nat) : bool := (limit n (main p) <=? i)%nat || sigb p i || activeb p i.
(** A worker that may still take a slice. *)
Definition undone_w (w : wstate) : bool := match w with Done => false | _ => true end.
Definition undoneb (n : nat) (p : pool) (i : nat) : bool :=
  (limit n (main p) <=? i)%nat || sigb p i || match helpers p !! i with Some (HRun w) => undone_w w | _ => false end.
Definition undone_main (m : mpc) : bool :=
  match m with MSignal _ => true | MRun w | MFast w => undone_w w | _ => false end.

Definition pend_h (j : job) (h : hpc) : list call := match h with HRun w => pend j w | _ => [] end.
Definition pend_m (j : job) (m : mpc) : list call := match m with MRun w | MFast w => pend j w | _ => [] end.
Definition pending (j : job) (p : pool) : list call := concat (pend_h j <$> helpers p) ++ pend_m j (main p).
Definition wf_h (h : hpc) : Prop := match h with HRun w => wf_w w | _ => True end.
Definition wf_m (m : mpc) : Prop := match m with MRun w | MFast w => wf_w w | _ => True end.
Definition b2n (b : bool) : nat := if b then 1 else 0.

(** [k] slices have been taken: what was called and what is pending are their calls. *)
Record slices_inv (n : nat) (p : pool) (j : job) (k : nat) : Prop := {
  si_num : sliceNum p = s32 (Z.of_nat k);
  si_perm : (erase <$> calls p) ++ pending j p ≡ₚ slices_upto j k;
  si_wf : Forall wf_h (helpers p) /\ wf_m (main p);
  si_bound : (k <= nsl j)%nat \/ (k + cnt (undoneb n p) n + b2n (undone_main (main p)) <= nsl j + n + 1)%nat;
  si_covered : undone_main (main p) = false -> (nsl j <= k)%nat
}.

Definition at_rest (m : mpc) : bool := match m with MIdle | MFast _ => true | _ => false end.
Definition starting (m : mpc) : bool := match m with MCreate _ | MPoll => true | _ => false end.
Definition quitting (m : mpc) : bool := match m with MQuit _ | MJoin | MGone => true | _ => false end.
Definition running_h (h : hpc) : bool := match h with HRun _ => true | _ => false end.

Definition launch_inv (n : nat) (p : pool) : Prop :=
  match mLaunch p with
  | None => (starting (main p) = true \/ main p = MIdle) /\ Forall (fun h => running_h h = false) (helpers p) /\ calls p = []
  | Some j => job_ok n j /\ starting (main p) = false /\ exists k, slices_inv n p j k
  end.

Record inv (n : nat) (p : pool) : Prop := {
  iv_sigs : length (mLaunchSignals p) = n;
  iv_helpers : (length (helpers p) + match main p with MCreate k => k | _ => 0 end = n)%nat;
  iv_running : mRunningCount p = Z.of_nat (cnt (busyb n p) n);
  iv_active : forall i, activeb p i = true -> sigb p i = false;
  iv_signal : forall ct, main p = MSignal ct -> (ct <= n)%nat /\ forall i, (ct <= i)%nat -> sigb p i = false /\ activeb p i = false;
  iv_rest : at_rest (main p) = true -> mRunningCount p = 0;
  iv_exit : mExit p = false /\ Forall (fun h => h <> HExit) (helpers p);
  iv_main : quitting (main p) = false;
  iv_launch : launch_inv n p
}.

(** ** Steps of a helper *)

Section helper.
Context (n : nat) (p q : pool) (i : nat) (h h' : hpc).
Hypothesis Hinv : inv n p.
Hypothesis Hh : helpers p !! i = Some h.
Hypothesis Hq : helpers q = <[i := h']> (helpers p).
Hypothesis Hsig : exists b, mLaunchSignals q = <[i := b]> (mLaunchSignals p).
Hypothesis Hm : main q = main p.
Hypothesis Hl : mLaunch q = mLaunch p.

Lemma helper_lt : (i < n)%nat.
Proof. pose proof (lookup_lt_Some _ _ _ Hh). pose proof (iv_helpers _ _ Hinv). lia. Qed.

Lemma helper_at : helpers q !! i = Some h'.
Proof. rewrite Hq. apply list_lookup_insert_eq. by eapply lookup_lt_Some. Qed.

Lemma helper_other k : k <> i -> helpers q !! k = helpers p !! k /\ sigb q k = sigb p k.
Proof.
  intros Hk. destruct Hsig as [b Hb]. unfold sigb. rewrite Hq, Hb, !list_lookup_insert_ne by done. done.
Qed.

Lemma helper_busy : (cnt (busyb n q) n + b2n (busyb n p i) = cnt (busyb n p) n + b2n (busyb n q i))%nat.
Proof.
  apply cnt_update; [apply helper_lt|]. intros k Hk. destruct (helper_other k Hk) as [E1 E2].
  unfold busyb, activeb. by rewrite E1, E2, Hm.
Qed.

Lemma helper_undone : (cnt (undoneb n q) n + b2n (undoneb n p i) = cnt (undoneb n p) n + b2n (undoneb n q i))%nat.
Proof.
  apply cnt_update; [apply helper_lt|]. intros k Hk. destruct (helper_other k Hk) as [E1 E2].
  unfold undoneb. by rewrite E1, E2, Hm.
Qed.

(** A step of a helper preserves the invariant if it does so for the helper itself. *)
Lemma inv_helper :
  mExit q = mExit p -> mRunningCount q + Z.of_nat (b2n (busyb n p i)) = mRunningCount p + Z.of_nat (b2n (busyb n q i)) ->
  (activeb q i = true -> sigb q i = false) ->
  (forall ct, main p = MSignal ct -> (ct <= i)%nat -> sigb q i = false /\ activeb q i = false) ->
  (at_rest (main p) = true -> mRunningCount q = mRunningCount p) -> h' <> HExit -> launch_inv n q -> inv n q.
Proof.
  intros He Hr Ha Hs Hre Hx HL. destruct Hinv as [I1 I2 I3 I4 I5 I6 [I7 I7'] I8 I9]. destruct Hsig as [b Hb].
  split; [by rewrite Hb, length_insert| | | | | |split| |done]; rewrite ?Hm.
  - by rewrite Hq, length_insert.
  - pose proof helper_busy. lia.
  - intros k. destruct (decide (k = i)) as [->|Hk]; [done|]. destruct (helper_other k Hk) as [E1 E2]. unfold activeb. rewrite E1, E2. apply I4.
  - intros ct Hct. destruct (I5 ct Hct) as [Hn Hall]. split; [done|]. intros k Hk.
    destruct (decide (k = i)) as [->|Hki]; [by eapply Hs|]. destruct (helper_other k Hki) as [E1 E2]. unfold activeb. rewrite E1, E2. by apply Hall.
  - intros Hat. rewrite Hre by done. by apply I6.
  - by rewrite He.
  - rewrite Hq. by apply Forall_insert.
  - done.
Qed.

(** The slices, when nothing is called and no slice is taken. *)
Lemma launch_inv_quiet :
  sliceNum q = sliceNum p -> calls q = calls p -> (forall j, pend_h j h' = pend_h j h) -> wf_h h' ->
  (mLaunch p = None -> running_h h' = false) -> (b2n (undoneb n q i) <= b2n (undoneb n p i))%nat -> launch_inv n q.
Proof.
  intros Hsn Hc Hp Hw Hr Hu. pose proof (iv_launch _ _ Hinv) as HL. unfold launch_inv in *. rewrite Hl, Hm, Hc, Hq.
  destruct (mLaunch p) as [j|].
  - destruct HL as (Hok & Hst & k & [S1 S2 [S3 S3'] S4 S5]). split_and!; [done..|]. exists k. split; rewrite ?Hsn, ?Hc, ?Hm; try done.
    + rewrite <- S2. apply Permutation_app_head. unfold pending. rewrite Hm, Hq. apply Permutation_app_tail.
      destruct (concat_insert_perm (pend_h j) _ _ _ h' Hh) as (r & -> & ->). by rewrite Hp.
    + rewrite Hq. split; [|done]. by apply Forall_insert.
    + destruct S4 as [?|S4]; [by left|right]. pose proof helper_undone. lia.
  - destruct HL as (H1 & H2 & H3). split_and!; [done| |done]. apply Forall_insert; auto.
Qed.

End helper.

(** A pool whose signals did not change. *)
Lemma same_signals p i : exists b, mLaunchSignals p = <[i := b]> (mLaunchSignals p).
Proof.
  destruct (mLaunchSignals p !! i) as [b|] eqn:E; [exists b; by rewrite list_insert_id|].
  exists true. rewrite list_insert_ge; [done|]. by apply lookup_ge_None.
Qed.

Lemma below_limit n p i :
  inv n p -> (i < n)%nat -> sigb p i = true \/ activeb p i = true -> (limit n (main p) <=? i)%nat = false.
Proof.
  intros Hinv Hi Hb. apply Nat.leb_gt. unfold limit. destruct (main p) as [| | |ct| | | | | | |] eqn:Em; try done.
  destruct (decide (ct <= i)%nat) as [Hle|]; [|lia]. destruct (iv_signal _ _ Hinv ct Em) as [_ Hs]. destruct (Hs i Hle), Hb; congruence.
Qed.

(** Nobody is busy while the pool is at rest. *)
Lemma rest_quiet n p i : inv n p -> at_rest (main p) = true -> (i < n)%nat -> sigb p i = false /\ activeb p i = false.
Proof.
  intros Hinv Hr Hi. pose proof (iv_rest _ _ Hinv Hr) as H0. rewrite (iv_running _ _ Hinv) in H0.
  assert (Hz : cnt (busyb n p) n = O) by lia. pose proof (cnt_zero _ _ i Hz Hi) as Hb. unfold busyb in Hb. apply orb_false_iff in Hb as [Hb ?]. by apply orb_false_iff in Hb as [? ?].
Qed.

(** Of a helper inside its callback the state of the callback decides. *)
Lemma undone_running n p i w :
  inv n p -> helpers p !! i = Some (HRun w) ->
  sigb p i = false /\ (limit n (main p) <=? i)%nat = false /\ undoneb n p i = undone_w w.
Proof.
  intros Hinv Hh. pose proof (helper_lt _ _ _ _ Hinv Hh) as Hi.
  assert (Ha : activeb p i = true) by (unfold activeb; by rewrite Hh).
  pose proof (below_limit n p i Hinv Hi (or_intror Ha)) as Hlim. pose proof (iv_active _ _ Hinv i Ha) as Hs.
  split_and!; [done..|]. unfold undoneb. by rewrite Hlim, Hs, Hh.
Qed.

(** The launch invariant after a step of a helper inside its callback. *)
Lemma launch_inv_callback n p p' i w w' :
  inv n p -> helpers p !! i = Some (HRun w) -> w <> Done -> run_callback p (Z.of_nat i + 1) w = Some (p', w') ->
  launch_inv n (set_helper p' i (HRun w')).
Proof.
  intros Hinv Hh Hw Hrun. pose proof (iv_launch _ _ Hinv) as HL. unfold launch_inv in *. unfold run_callback in Hrun.
  destruct (mLaunch p) as [j|] eqn:Ej; [|done]. destruct HL as (Hok & Hst & k & [S1 S2 [S3 S3'] S4 S5]).
  pose proof (helper_lt _ _ _ _ Hinv Hh) as Hi. destruct (undone_running n p i w Hinv Hh) as (Hs & Hlim & Hund).
  destruct w as [|a b|]; [| |done].
  - assert (Hk : (k <= nsl j + n)%nat).
    { destruct S4 as [?|S4]; [lia|]. assert (cnt (undoneb n p) n <> O); [|lia].
      intros E. rewrite (cnt_zero _ _ i E Hi) in Hund. done. }
    rewrite S1 in Hrun. destruct (wstep_fetch n j Hok (Z.of_nat i + 1) k Hk) as (v & Ev & Hwf & Hcalls & Hlive).
    rewrite Ev in Hrun. cbn in Hrun. injection Hrun as <- <-. cbn. rewrite Ej. split_and!; [done..|]. exists (S k).
    set (q := set_helper _ _ _). assert (Hother : exists b, mLaunchSignals q = <[i := b]> (mLaunchSignals p)) by exact (same_signals p i).
    pose proof (helper_undone n p q i _ (HRun v) Hinv Hh eq_refl Hother eq_refl) as Hu.
    assert (Huq : undoneb n q i = undone_w v).
    { unfold undoneb. rewrite (helper_at p q i _ (HRun v) Hh eq_refl). unfold sigb in *. cbn. by rewrite Hlim, Hs. }
    rewrite Hund, Huq in Hu. cbn in Hu. split; cbn; try done.
    + rewrite app_nil_r, slices_upto_S, <- S2, Hcalls. unfold pending. cbn. rewrite <- !app_assoc. apply Permutation_app_head.
      destruct (concat_insert_perm (pend_h j) _ _ _ (HRun v) Hh) as (r & -> & ->). cbn.
      rewrite (Permutation_app_comm (pend j v)), <- app_assoc. apply Permutation_app_head, Permutation_app_comm.
    + split; [|done]. by apply Forall_insert.
    + destruct (Nat.ltb_spec k (nsl j)); [left; lia|]. right. subst v. cbn in Hu.
      pose proof (cnt_le (undoneb n p) n). unfold b2n in *. destruct (undone_main _), S4; lia.
    + intros Hm0. specialize (S5 Hm0). lia.
  - assert (Hab : a < b) by (apply (Forall_lookup_1 _ _ _ _ S3 Hh)).
    destruct (wstep_slice j (Z.of_nat i + 1) (sliceNum p) a b Hab) as (v & c & Ev & Hwf & Hv & Hch).
    rewrite Ev in Hrun. cbn in Hrun. injection Hrun as <- <-. cbn. rewrite Ej. split_and!; [done..|]. exists k.
    set (q := set_helper _ _ _). assert (Hother : exists b, mLaunchSignals q = <[i := b]> (mLaunchSignals p)) by exact (same_signals p i).
    pose proof (helper_undone n p q i _ (HRun v) Hinv Hh eq_refl Hother eq_refl) as Hu.
    assert (Huq : undoneb n q i = true).
    { unfold undoneb. rewrite (helper_at p q i _ (HRun v) Hh eq_refl). destruct v; by rewrite ?orb_true_r. }
    rewrite Hund, Huq in Hu. cbn in Hu. split; cbn; try done.
    + rewrite <- S2, fmap_app, <- app_assoc. apply Permutation_app_head. unfold pending. cbn.
      destruct (concat_insert_perm (pend_h j) _ _ _ (HRun v) Hh) as (r & -> & ->). cbn. by rewrite Hch.
    + split; [|done]. by apply Forall_insert.
    + destruct S4 as [?|S4]; [by left|right]. lia.
Qed.

(** A step of a helper that neither wakes it up nor counts down. *)
Lemma inv_helper_quiet n p q i h h' :
  inv n p -> helpers p !! i = Some h -> helpers q = <[i := h']> (helpers p) -> mLaunchSignals q = mLaunchSignals p ->
  main q = main p -> mLaunch q = mLaunch p -> mExit q = mExit p -> mRunningCount q = mRunningCount p ->
  activeb q i = activeb p i -> h' <> HExit -> launch_inv n q -> inv n q.
Proof.
  intros Hinv Hh Hq Hs Hm Hl He Hr Ha Hx HL.
  assert (Hb : exists b, mLaunchSignals q = <[i := b]> (mLaunchSignals p)) by (rewrite Hs; apply same_signals).
  assert (Es : sigb q i = sigb p i) by (unfold sigb; by rewrite Hs).
  eapply (inv_helper n p q i h h'); try done.
  - unfold busyb. rewrite Hm, Es, Ha, Hr. lia.
  - rewrite Ha, Es. apply (iv_active _ _ Hinv).
  - intros ct Hct Hle. rewrite Ha, Es. by apply (iv_signal _ _ Hinv ct Hct).
Qed.

(** A helper wakes up. *)
Lemma inv_wake n p i :
  inv n p -> helpers p !! i = Some HWait -> mLaunchSignals p !! i = Some true ->
  inv n (set_helper (set_signal p i false) i (match mLaunch p with Some _ => HRun Fetch | None => HDec end)).
Proof.
  intros Hinv Hh Hs. pose proof (helper_lt _ _ _ _ Hinv Hh) as Hi. set (h' := match mLaunch p with Some _ => _ | None => _ end).
  assert (Hsb : sigb p i = true) by (unfold sigb; by rewrite Hs).
  pose proof (below_limit n p i Hinv Hi (or_introl Hsb)) as Hlim. set (q := set_helper _ _ _).
  assert (Hb : exists b, mLaunchSignals q = <[i := b]> (mLaunchSignals p)) by (by exists false).
  assert (Hsq : sigb q i = false).
  { unfold sigb. cbn. rewrite list_lookup_insert_eq; [done|]. by eapply lookup_lt_Some. }
  assert (Haq : activeb q i = true).
  { unfold activeb. rewrite (helper_at p q i _ h' Hh eq_refl). unfold h'. by destruct (mLaunch p). }
  eapply (inv_helper n p q i HWait h'); try done.
  - unfold busyb. cbn. rewrite Hlim, Hsb, Hsq, Haq. cbn. lia.
  - intros ct Hct Hle. destruct (iv_signal _ _ Hinv ct Hct) as [_ Hall]. destruct (Hall i Hle). congruence.
  - unfold h'. by destruct (mLaunch p).
  - eapply (launch_inv_quiet n p q i HWait h'); try done.
    + intros j. unfold h'. by destruct (mLaunch p).
    + unfold h'. by destruct (mLaunch p).
    + unfold h'. by intros ->.
    + assert (undoneb n p i = true) as -> by (unfold undoneb; by rewrite Hsb, orb_true_r). unfold b2n. destruct (undoneb n q i); lia.
Qed.

(** A helper counts down. *)
Lemma inv_countdown n p i :
  inv n p -> helpers p !! i = Some HDec -> inv n (set_helper (set_running p (mRunningCount p - 1)) i HSet).
Proof.
  intros Hinv Hh. pose proof (helper_lt _ _ _ _ Hinv Hh) as Hi. set (q := set_helper _ _ _).
  assert (Ha : activeb p i = true) by (unfold activeb; by rewrite Hh).
  pose proof (below_limit n p i Hinv Hi (or_intror Ha)) as Hlim. pose proof (iv_active _ _ Hinv i Ha) as Hs.
  assert (Hb : exists b, mLaunchSignals q = <[i := b]> (mLaunchSignals p)) by exact (same_signals p i).
  assert (Hsq : sigb q i = false) by exact Hs.
  assert (Haq : activeb q i = false) by (unfold activeb; by rewrite (helper_at p q i _ HSet Hh eq_refl)).
  eapply (inv_helper n p q i HDec HSet); try done.
  - unfold busyb. rewrite Ha, Hsq, Haq. cbn. rewrite Hlim, orb_true_r. cbn. lia.
  - intros Hr. destruct (rest_quiet n p i Hinv Hr Hi). congruence.
  - eapply (launch_inv_quiet n p q i HDec HSet); try done. unfold undoneb. rewrite (helper_at p q i _ HSet Hh eq_refl), Hh. done.
Qed.

Lemma helper_step_inv n i p q : inv n p -> helper_step false i p = Some q -> inv n q.
Proof.
  intros Hinv. unfold helper_step. destruct (helpers p !! i) as [h|] eqn:Hh; [|done]. cbn.
  pose proof (proj1 (iv_exit _ _ Hinv)) as Hex.
  destruct h as [| |w| | |]; cbn.
  - intros [= <-]. rewrite Hex. eapply (inv_helper_quiet n p _ i HLoop HWait); try done.
    + unfold activeb. cbn. by rewrite Hh, list_lookup_insert_eq by (by eapply lookup_lt_Some).
    + eapply (launch_inv_quiet n p _ i HLoop HWait); try done; [exact (same_signals p i)|].
      unfold undoneb. cbn. by rewrite Hh, list_lookup_insert_eq by (by eapply lookup_lt_Some).
  - destruct (mLaunchSignals p !! i) as [[]|] eqn:Hs; cbn; [|done..]. intros [= <-]. by apply inv_wake.
  - destruct w as [|a b|].
    1,2: destruct (run_callback _ _ _) as [[p' w']|] eqn:Hr; [|done]; cbn; intros [= <-];
      pose proof (launch_inv_callback n p p' i _ w' Hinv Hh ltac:(done) Hr) as HL;
      unfold run_callback in Hr; destruct (mLaunch p) as [j|] eqn:Ej; [|done];
      destruct (wstep _ _ _ _) as [[[m v] cs]|]; [|done]; injection Hr as <- <-;
      (eapply (inv_helper_quiet n p _ i _ (HRun v)); try done);
      unfold activeb; cbn; by rewrite Hh, list_lookup_insert_eq by (by eapply lookup_lt_Some).
    intros [= <-]. eapply (inv_helper_quiet n p _ i (HRun Done) HDec); try done.
    + unfold activeb. cbn. by rewrite Hh, list_lookup_insert_eq by (by eapply lookup_lt_Some).
    + eapply (launch_inv_quiet n p _ i (HRun Done) HDec); try done; [exact (same_signals p i)|].
      unfold undoneb. cbn. by rewrite Hh, list_lookup_insert_eq by (by eapply lookup_lt_Some).
  - intros [= <-]. by apply inv_countdown.
  - intros [= <-]. eapply (inv_helper_quiet n p _ i HSet HLoop); try done.
    + unfold activeb. cbn. by rewrite Hh, list_lookup_insert_eq by (by eapply lookup_lt_Some).
    + eapply (launch_inv_quiet n p _ i HSet HLoop); try done; [exact (same_signals p i)|].
      unfold undoneb. cbn. by rewrite Hh, list_lookup_insert_eq by (by eapply lookup_lt_Some).
  - done.
Qed.

(** ** Steps of the owner of the pool *)

Definition plain_main (m : mpc) : bool := match m with MSignal _ | MCreate _ => false | _ => negb (quitting m) end.

Lemma busy_main n p q :
  helpers q = helpers p -> mLaunchSignals q = mLaunchSignals p -> limit n (main q) = limit n (main p) ->
  cnt (busyb n q) n = cnt (busyb n p) n /\ cnt (undoneb n q) n = cnt (undoneb n p) n.
Proof.
  intros Hh Hs Hm. split; apply cnt_ext; intros i _; [unfold busyb|unfold undoneb]; unfold sigb, activeb; by rewrite Hh, Hs, Hm.
Qed.

(** A step of the owner that touches neither the helpers nor the launch signals. *)
Lemma inv_main n p q m :
  inv n p -> main q = m -> helpers q = helpers p -> mLaunchSignals q = mLaunchSignals p -> mExit q = mExit p ->
  mRunningCount q = mRunningCount p -> limit n m = limit n (main p) ->
  match main p with MCreate k => k = O | _ => True end -> plain_main m = true ->
  (at_rest m = true -> mRunningCount p = 0) -> launch_inv n q -> inv n q.
Proof.
  intros [I1 I2 I3 I4 I5 I6 I7 I8 I9] <- Hh Hs He Hr Hlim Hc Hpl Hrest HL.
  destruct (busy_main n p q Hh Hs Hlim) as [Eb _].
  split; rewrite ?Hh, ?Hs, ?He, ?Hr, ?Eb; try done.
  - destruct (main q), (main p); try done; subst; lia.
  - intros i. unfold activeb, sigb. rewrite Hh, Hs. apply I4.
  - intros ct Hct. by rewrite Hct in Hpl.
  - destruct (main q); try done.
Qed.

Lemma launch_inv_main n p q :
  inv n p -> helpers q = helpers p -> mLaunchSignals q = mLaunchSignals p -> mLaunch q = mLaunch p -> sliceNum q = sliceNum p ->
  calls q = calls p -> limit n (main q) = limit n (main p) -> (forall j, pend_m j (main q) = pend_m j (main p)) -> wf_m (main q) ->
  undone_main (main q) = undone_main (main p) ->
  (mLaunch p = None -> starting (main q) = true \/ main q = MIdle) -> (starting (main p) = false -> starting (main q) = false) ->
  launch_inv n q.
Proof.
  intros Hinv Hh Hs Hl Hsn Hc Hlim Hp Hw Hu Hn Hst. pose proof (iv_launch _ _ Hinv) as HL. unfold launch_inv in *.
  destruct (busy_main n p q Hh Hs Hlim) as [_ Eu]. rewrite Hl, Hh, Hc. destruct (mLaunch p) as [j|].
  - destruct HL as (Hok & Hs' & k & [S1 S2 [S3 S3'] S4 S5]). split_and!; [done|by apply Hst|]. exists k.
    split; rewrite ?Hsn, ?Hc, ?Hh, ?Hu, ?Eu; try done. unfold pending. by rewrite Hh, Hp.
  - destruct HL as (H1 & H2 & H3). split_and!; auto.
Qed.

(** The owner runs the callback, in the general or in the fast path. *)
Lemma inv_main_callback n (K : wstate -> mpc) p p' w w' :
  K = MRun \/ K = MFast -> inv n p -> main p = K w -> w <> Done -> run_callback p 0 w = Some (p', w') -> inv n (set_main p' (K w')).
Proof.
  intros HK Hinv Hmain Hw Hrun. pose proof (iv_launch _ _ Hinv) as HL. unfold launch_inv, run_callback in *.
  assert (HKw : forall v, limit n (K v) = limit n (main p) /\ plain_main (K v) = true /\ wf_m (K v) = wf_w v /\
    undone_main (K v) = undone_w v /\ starting (K v) = false /\ forall j, pend_m j (K v) = pend j v).
  { intros v. rewrite Hmain. by destruct HK as [-> | ->]. }
  assert (Hrest : forall v, at_rest (K v) = true -> mRunningCount p = 0).
  { intros v Hv. apply (iv_rest _ _ Hinv). rewrite Hmain. by destruct HK as [-> | ->]. }
  destruct (mLaunch p) as [j|] eqn:Ej; [|done]. destruct HL as (Hok & Hst & k & [S1 S2 [S3 S3'] S4 S5]).
  rewrite Hmain in S3', S4, S5. destruct (HKw w) as (_ & _ & Ewf & Eun & _ & Epe). rewrite Ewf in S3'. rewrite Eun in S4, S5.
  assert (Hpw : pending j p = concat (pend_h j <$> helpers p) ++ pend j w) by (unfold pending; by rewrite Hmain, Epe).
  rewrite Hpw in S2.
  destruct w as [|a b|]; [| |done].
  - assert (Hk : (k <= nsl j + n)%nat) by (cbn in S4; lia).
    rewrite S1 in Hrun. destruct (wstep_fetch n j Hok 0 k Hk) as (v & Ev & Hwf & Hcalls & Hlive).
    rewrite Ev in Hrun. cbn in Hrun. injection Hrun as <- <-. destruct (HKw v) as (El & Epl & Ewf' & Eun' & Est' & Epe').
    eapply (inv_main n p _ (K v) Hinv); try done; [rewrite Hmain; by destruct HK as [-> | ->]|by apply Hrest|].
    unfold launch_inv. cbn. rewrite Ej. split_and!; [done..|]. exists (S k).
    set (q := set_main _ _). destruct (busy_main n p q eq_refl eq_refl El) as [_ Eu].
    split; cbn; rewrite ?Ewf', ?Eun', ?Eu; try done.
    + rewrite app_nil_r, slices_upto_S, <- S2, Hcalls. unfold pending. cbn. rewrite Epe', app_nil_r, <- !app_assoc. done.
    + destruct (Nat.ltb_spec k (nsl j)); [left; lia|]. right. subst v. pose proof (cnt_le (undoneb n p) n). cbn in *. destruct S4; lia.
    + destruct (Nat.ltb_spec k (nsl j)); [destruct v; naive_solver|]. lia.
  - destruct (wstep_slice j 0 (sliceNum p) a b S3') as (v & c & Ev & Hwf & Hv & Hch).
    rewrite Ev in Hrun. cbn in Hrun. injection Hrun as <- <-. destruct (HKw v) as (El & Epl & Ewf' & Eun' & Est' & Epe').
    eapply (inv_main n p _ (K v) Hinv); try done; [rewrite Hmain; by destruct HK as [-> | ->]|by apply Hrest|].
    unfold launch_inv. cbn. rewrite Ej. split_and!; [done..|]. exists k.
    set (q := set_main _ _). destruct (busy_main n p q eq_refl eq_refl El) as [_ Eu].
    assert (Ev1 : undone_w v = true) by (by destruct v).
    split; cbn; rewrite ?Ewf', ?Eun', ?Eu, ?Ev1; try done.
    rewrite fmap_app, <- S2, <- !app_assoc. apply Permutation_app_head. unfold pending. cbn [pend]. rewrite Hch. cbn. rewrite Epe'.
    by rewrite Permutation_middle.
Qed.

(** The owner sets a launch signal. *)
Lemma inv_set_signal n p ct :
  inv n p -> main p = MSignal ct -> (ct < n)%nat -> inv n (set_main (set_signal p ct true) (MSignal (S ct))).
Proof.
  intros Hinv Hmain Hct. pose proof Hinv as [I1 I2 I3 I4 I5 I6 I7 I8 I9]. destruct (I5 ct Hmain) as [_ Hall]. rewrite Hmain in I2.
  set (q := set_main _ _).
  assert (Hsig : forall i, sigb q i = if decide (i = ct) then true else sigb p i).
  { intros i. unfold sigb. cbn. case_decide as Hi; [subst; rewrite list_lookup_insert_eq by lia; done|by rewrite list_lookup_insert_ne by done]. }
  assert (Hbit : forall i, ((S ct <=? i)%nat || sigb q i)%bool = ((ct <=? i)%nat || sigb p i)%bool).
  { intros i. rewrite Hsig. case_decide; [subst; by rewrite Nat.leb_refl, orb_true_r|].
    destruct (Nat.leb_spec (S ct) i), (Nat.leb_spec ct i); try lia; done. }
  assert (Eb : cnt (busyb n q) n = cnt (busyb n p) n).
  { apply cnt_ext. intros i _. unfold busyb. change (main q) with (MSignal (S ct)). rewrite Hmain. cbn [limit]. by rewrite Hbit. }
  assert (Eu : cnt (undoneb n q) n = cnt (undoneb n p) n).
  { apply cnt_ext. intros i _. unfold undoneb. change (main q) with (MSignal (S ct)). rewrite Hmain. cbn [limit]. by rewrite Hbit. }
  split; cbn; rewrite ?length_insert; try done.
  - by rewrite Eb.
  - intros i Ha. rewrite Hsig. case_decide as Hi; [|by apply I4]. subst i. destruct (Hall ct ltac:(lia)) as [_ Hna].
    unfold activeb in Ha, Hna. cbn in Ha. congruence.
  - intros ct' [= <-]. split; [lia|]. intros i Hi. rewrite Hsig, decide_False by lia. apply Hall. lia.
  - unfold launch_inv in *. cbn. rewrite Hmain in I9. destruct (mLaunch p) as [j|].
    + destruct I9 as (Hok & Hst & k & [S1 S2 S3 S4 S5]). split_and!; [done..|]. exists k.
      unfold pending in S2. rewrite Hmain in *. split; cbn; rewrite ?Eu; done.
    + destruct I9 as ([?|?] & _); done.
Qed.

(** The owner creates a helper, whose signal is set already. *)
Lemma inv_create n p k :
  inv n p -> main p = MCreate (S k) ->
  inv n (mkPool (mRunningCount p) (mLaunchSignals p) (mCompleteSignal p) (mLaunch p) (sliceNum p) (mExit p) (helpers p ++ [HLoop]) (MCreate k) (calls p)).
Proof.
  intros [I1 I2 I3 I4 I5 I6 I7 I8 I9] Hmain. set (q := mkPool _ _ _ _ _ _ _ _ _). rewrite Hmain in I2.
  assert (Ha : forall i, activeb q i = activeb p i).
  { intros i. unfold activeb. cbn. destruct (decide (i < length (helpers p))%nat); [by rewrite lookup_app_l|].
    rewrite lookup_app_r by lia. rewrite (lookup_ge_None_2 (helpers p)) by lia. by destruct (i - _)%nat as [|[]]. }
  assert (Eb : cnt (busyb n q) n = cnt (busyb n p) n).
  { apply cnt_ext. intros i _. unfold busyb. by rewrite Ha, Hmain. }
  split; cbn; rewrite ?length_app; cbn; try done; try lia.
  - intros i. rewrite Ha. apply I4.
  - destruct I7 as [? I7]. split; [done|]. apply Forall_app. split; [done|]. by repeat constructor.
  - unfold launch_inv in *. cbn. destruct (mLaunch p) as [j|].
    + destruct I9 as (_ & Hst & _). by rewrite Hmain in Hst.
    + destruct I9 as (_ & H2 & H3). split_and!; [by left| |done]. apply Forall_app. split; [done|]. by repeat constructor.
Qed.

Lemma launched n p : inv n p -> starting (main p) = false -> main p <> MIdle -> is_Some (mLaunch p).
Proof.
  intros Hinv Hs Hm. pose proof (iv_launch _ _ Hinv) as HL. unfold launch_inv in HL. destruct (mLaunch p); [by eexists|].
  destruct HL as [[HL|HL] _]; congruence.
Qed.

Lemma main_step_inv n p q : inv n p -> main_step false p = Some q -> inv n q.
Proof.
  intros Hinv. unfold main_step. pose proof (iv_helpers _ _ Hinv) as Hlen.
  destruct (main p) as [[|k]| | |ct|w|w| | |ct| |] eqn:Em.
  - intros [= <-]. eapply (inv_main n p _ MPoll Hinv); rewrite ?Em; try done.
    eapply (launch_inv_main n p); cbn; rewrite ?Em; try done. by left.
  - intros [= <-]. by apply inv_create.
  - destruct (Z.eqb_spec (mRunningCount p) 0); [|done]. intros [= <-]. eapply (inv_main n p _ MIdle Hinv); rewrite ?Em; try done.
    eapply (launch_inv_main n p); cbn; rewrite ?Em; try done. by right.
  - done.
  - destruct (Nat.ltb_spec ct (mCount p)) as [Hct|Hct]; intros [= <-].
    + apply inv_set_signal; try done. unfold mCount in Hct. lia.
    + destruct (iv_signal _ _ Hinv ct Em) as [Hle _]. unfold mCount in Hct. assert (ct = n) as -> by lia.
      eapply (inv_main n p _ (MRun Fetch) Hinv); rewrite ?Em; try done.
      eapply (launch_inv_main n p); cbn; rewrite ?Em; try done.
      intros Hn. destruct (launched n p Hinv) as [? Hj]; [by rewrite Em..|congruence].
  - destruct w as [|a b|].
    1,2: destruct (run_callback _ _ _) as [[p' w']|] eqn:Hr; [|done]; cbn; intros [= <-]; eapply (inv_main_callback n MRun p); eauto.
    intros [= <-]. eapply (inv_main n p _ MCheck Hinv); rewrite ?Em; try done.
    eapply (launch_inv_main n p); cbn; rewrite ?Em; try done.
    intros Hn. destruct (launched n p Hinv) as [? Hj]; [by rewrite Em..|congruence].
  - destruct w as [|a b|].
    1,2: destruct (run_callback _ _ _) as [[p' w']|] eqn:Hr; [|done]; cbn; intros [= <-]; eapply (inv_main_callback n MFast p); eauto.
    intros [= <-]. eapply (inv_main n p _ MIdle Hinv); rewrite ?Em; try done.
    + intros _. apply (iv_rest _ _ Hinv). by rewrite Em.
    + eapply (launch_inv_main n p); cbn; rewrite ?Em; try done. by right.
  - intros [= <-]. destruct (Z.eqb_spec (mRunningCount p) 0).
    + eapply (inv_main n p _ MIdle Hinv); rewrite ?Em; try done. eapply (launch_inv_main n p); cbn; rewrite ?Em; try done. by right.
    + eapply (inv_main n p _ MWait Hinv); rewrite ?Em; try done. eapply (launch_inv_main n p); cbn; rewrite ?Em; try done.
      intros Hn. destruct (launched n p Hinv) as [? Hj]; [by rewrite Em..|congruence].
  - destruct (mCompleteSignal p); [|done]. cbn. intros [= <-]. eapply (inv_main n p _ MCheck Hinv); rewrite ?Em; try done.
    eapply (launch_inv_main n p); cbn; rewrite ?Em; try done.
    intros Hn. destruct (launched n p Hinv) as [? Hj]; [by rewrite Em..|congruence].
  - pose proof (iv_main _ _ Hinv) as Hq. by rewrite Em in Hq.
  - pose proof (iv_main _ _ Hinv) as Hq. by rewrite Em in Hq.
  - done.
Qed.

Lemma inv_init n : inv n (init n).
Proof.
  assert (Hs : forall i, sigb (init n) i = bool_decide (i < n)%nat).
  { intros i. unfold sigb. cbn. case_bool_decide; [by rewrite lookup_replicate_2|]. by rewrite lookup_ge_None_2 by (rewrite length_replicate; lia). }
  split; cbn; try done.
  - by rewrite length_replicate.
  - rewrite cnt_true; [done|]. intros i Hi. unfold busyb. by rewrite Hs, bool_decide_true, orb_true_r.
  - by split_and!; [left| |].
Qed.

Lemma inv_launch n j p q : inv n p -> job_ok n j -> launch j p = Some q -> inv n q.
Proof.
  intros Hinv Hok Hq. unfold launch in Hq. destruct (main p) eqn:Em; try done.
  pose proof (iv_rest _ _ Hinv ltac:(by rewrite Em)) as Hr.
  assert (Hqu : forall i, sigb p i = false /\ activeb p i = false).
  { intros i. destruct (decide (i < n)%nat) as [Hi|Hi]; [apply (rest_quiet n p i Hinv); by rewrite ?Em|].
    pose proof (iv_helpers _ _ Hinv). pose proof (iv_sigs _ _ Hinv). rewrite Em in *.
    unfold sigb, activeb. by rewrite !lookup_ge_None_2 by lia. }
  assert (Hnr : forall h, h ∈ helpers p -> running_h h = false).
  { intros h [i Hi]%list_elem_of_lookup. destruct (Hqu i) as [_ Ha]. unfold activeb in Ha. rewrite Hi in Ha. by destruct h. }
  assert (Hpend : concat (pend_h j <$> helpers p) = []).
  { apply concat_nil_Forall, Forall_fmap, Forall_forall. intros h Hh. specialize (Hnr h Hh). by destruct h. }
  assert (Hwf : Forall wf_h (helpers p)).
  { apply Forall_forall. intros h Hh. specialize (Hnr h Hh). by destruct h. }
  pose proof Hinv as [I1 I2 I3 I4 I5 I6 I7 I8 I9]. rewrite Em in I2. injection Hq as <-.
  destruct (small_launch j) eqn:Esm.
  - destruct (busy_main n p (set_main (mkPool (mRunningCount p) (mLaunchSignals p) (mCompleteSignal p) (Some j) (mSliceNum (j_mtls j)) (mExit p) (helpers p) MIdle []) (MFast Fetch)) eq_refl eq_refl) as [Eb Eu]; [by rewrite Em|].
    split; try done; cbn [mRunningCount]; rewrite ?Eb; try done. unfold launch_inv. cbn. split_and!; [done..|]. exists 0%nat. split; cbn; try done.
    + by rewrite (jo_num _ _ Hok).
    + unfold pending. cbn. by rewrite Hpend.
    + left. lia.
  - split; try done; cbn.
    + unfold mCount. rewrite cnt_true; [cbn; lia|]. intros i Hi. done.
    + intros ct [= <-]. split; [lia|]. intros i _. apply Hqu.
    + split_and!; [done..|]. exists 0%nat. split; cbn; try done.
      * by rewrite (jo_num _ _ Hok).
      * unfold pending. cbn. by rewrite Hpend.
      * left. lia.
Qed.

(** ** Shutdown *)

(** The invariant from the call of the destructor on: no helper enters a wait again, and
    one that is in a wait has been or will be signalled. *)
Record quit_inv (n : nat) (p : pool) : Prop := {
  qi_main : quitting (main p) = true;
  qi_sigs : length (mLaunchSignals p) = n;
  qi_helpers : length (helpers p) = n;
  qi_exit : mExit p = true;
  qi_launch : mLaunch p = None;
  qi_run : Forall (fun h => running_h h = false) (helpers p);
  qi_wait : forall i, helpers p !! i = Some HWait -> match main p with MQuit ct => (i < ct)%nat | _ => True end -> sigb p i = true
}.

Lemma quit_destroy n p q : inv n p -> destroy p = Some q -> quit_inv n q.
Proof.
  intros Hinv Hq. unfold destroy in Hq. destruct (main p) eqn:Em; try done. injection Hq as <-.
  pose proof (iv_helpers _ _ Hinv) as Hlen. rewrite Em in Hlen.
  split; cbn; try done; [apply Hinv|lia| |lia].
  apply Forall_forall. intros h [i Hi]%list_elem_of_lookup.
  destruct (rest_quiet n p i Hinv) as [_ Ha]; [by rewrite Em|pose proof (lookup_lt_Some _ _ _ Hi); lia|].
  unfold activeb in Ha. rewrite Hi in Ha. by destruct h.
Qed.

Lemma quit_step n a p q : quit_inv n p -> step false a p = Some q -> quit_inv n q.
Proof.
  intros [Q1 Q2 Q3 Q4 Q5 Q6 Q7]. destruct a as [|i]; cbn.
  - unfold main_step. destruct (main p) as [| | | | | | | |ct| |] eqn:Em; try done.
    + destruct (Nat.ltb_spec ct (mCount p)) as [Hct|Hct]; intros [= <-]; (split; cbn; rewrite ?length_insert; try done).
      * intros i Hi Hlt. unfold sigb. cbn. unfold mCount in Hct. destruct (decide (i = ct)) as [->|]; [by rewrite list_lookup_insert_eq by lia|].
        rewrite list_lookup_insert_ne by done. apply Q7; [done|lia].
      * intros i Hi _. apply (Q7 i Hi). pose proof (lookup_lt_Some _ _ _ Hi). unfold mCount in Hct. lia.
    + destruct (forallb _ _); [|done]. intros [= <-]. split; cbn; try done.
  - unfold helper_step. destruct (helpers p !! i) as [h|] eqn:Hh; [|done]. cbn.
    assert (Hrun : running_h h = false) by (by eapply (Forall_lookup_1 _ _ _ _ Q6)).
    assert (Hgen : forall q h', main q = main p -> mLaunchSignals q = mLaunchSignals p \/ h = HWait /\ mLaunchSignals q = <[i := false]> (mLaunchSignals p) ->
      mExit q = mExit p -> mLaunch q = mLaunch p -> helpers q = <[i := h']> (helpers p) -> h' <> HWait -> running_h h' = false -> quit_inv n q).
    { intros q0 h' Em Es Ee El Eh Hw Hr. split; rewrite ?Em, ?Ee, ?El, ?Eh, ?length_insert; try done.
      - destruct Es as [->|[_ ->]]; by rewrite ?length_insert.
      - by apply Forall_insert.
      - intros k Hk Hm. destruct (decide (k = i)) as [->|Hki].
        + rewrite list_lookup_insert_eq in Hk by (by eapply lookup_lt_Some). congruence.
        + rewrite list_lookup_insert_ne in Hk by done. unfold sigb. destruct Es as [->|[_ ->]]; [by apply Q7|].
          rewrite list_lookup_insert_ne by done. by apply Q7. }
    destruct h as [| |w| | |]; cbn; try done.
    + intros [= <-]. rewrite Q4. by eapply (Hgen _ HExit); try done; left.
    + destruct (mLaunchSignals p !! i) as [[]|]; cbn; [|done..]. intros [= <-]. rewrite Q5. eapply (Hgen _ HDec); try done. by right.
    + intros [= <-]. by eapply (Hgen _ HSet); try done; left.
    + intros [= <-]. by eapply (Hgen _ HLoop); try done; left.
Qed.

(** ** No lost wake-up *)

(** While the owner waits, somebody has still to count down or to set the signal. *)
Definition wait_inv (p : pool) : Prop :=
  main p = MWait -> mRunningCount p <> 0 \/ mCompleteSignal p = true \/ HSet ∈ helpers p.

Lemma main_to_wait p q : main_step false p = Some q -> main q = MWait -> mRunningCount q <> 0.
Proof.
  intros Hs Hq. unfold main_step in Hs. destruct (main p) as [[|k]| | |ct|[|a b|]|[|a b|]| | |ct| |] eqn:Em; try done.
  all: try (destruct (run_callback _ _ _) as [[p' w']|]; [|done]).
  all: try (unfold wait in Hs; destruct (mCompleteSignal p); [|done]; cbn in Hs).
  all: repeat case_match; try done; injection Hs as <-; try done.
  all: cbn in *. destruct (Z.eqb_spec (mRunningCount p) 0); done.
Qed.

Lemma run_callback_frame p lid w p' w' :
  run_callback p lid w = Some (p', w') ->
  main p' = main p /\ helpers p' = helpers p /\ mRunningCount p' = mRunningCount p /\ mCompleteSignal p' = mCompleteSignal p /\
  mLaunchSignals p' = mLaunchSignals p /\ mLaunch p' = mLaunch p.
Proof.
  unfold run_callback. destruct (mLaunch p) eqn:Ej; [|done]. destruct (wstep _ _ _ _) as [[[? ?] ?]|]; [|done]. cbn. intros [= <- <-].
  by rewrite <- Ej.
Qed.

Lemma wait_step a p q : wait_inv p -> step false a p = Some q -> wait_inv q.
Proof.
  intros Hw. destruct a as [|i]; cbn; [intros Hs Hq; left; by eapply main_to_wait|].
  unfold helper_step. destruct (helpers p !! i) as [h|] eqn:Hh; [|done]. cbn. pose proof (lookup_lt_Some _ _ _ Hh) as Hlt.
  assert (Hkeep : forall h', h <> HSet -> HSet ∈ helpers p -> HSet ∈ <[i := h']> (helpers p)).
  { intros h' Hne [k Hk]%list_elem_of_lookup. apply list_elem_of_lookup. exists k. rewrite list_lookup_insert_ne; [done|]. intros ->. congruence. }
  destruct h as [| |[|a b|]| | |]; cbn; try done.
  all: try (destruct (mLaunchSignals p !! i) as [[]|]; cbn; [|done..]).
  all: try (destruct (run_callback _ _ _) as [[p' w']|] eqn:Hr; [|done]; apply run_callback_frame in Hr as (E1 & E2 & E3 & E4 & _)).
  all: intros [= <-]; unfold wait_inv in *; cbn; rewrite ?E1, ?E2, ?E3, ?E4; intros Hm; specialize (Hw Hm).
  all: try (destruct Hw as [?|[?|?]]; [by left|by right; left|right; right; by apply Hkeep]).
  - right; right. apply list_elem_of_lookup. exists i. by apply list_lookup_insert_eq.
  - right; by left.
Qed.

(** The invariant of every reachable pool. *)
Definition good (n : nat) (p : pool) : Prop := (inv n p /\ wait_inv p) \/ quit_inv n p.

Lemma reachable_good n p : reachable false n p -> good n p.
Proof.
  induction 1 as [|a p q _ IH Hs|j p q _ IH Hok Hl|p q _ IH Hd].
  - left. split; [apply inv_init|done].
  - destruct IH as [[IH Hw]|IH]; [left|right; by eapply quit_step]. split; [|by eapply wait_step].
    destruct a; [by eapply main_step_inv|by eapply helper_step_inv].
  - destruct IH as [[IH Hw]|IH].
    + left. split; [by eapply inv_launch|]. unfold launch in Hl. destruct (main p); try done. injection Hl as <-.
      unfold wait_inv. by destruct (small_launch j).
    + exfalso. pose proof (qi_main _ _ IH) as Hm. unfold launch in Hl. by destruct (main p).
  - destruct IH as [[IH Hw]|IH]; right; [by eapply quit_destroy|].
    exfalso. pose proof (qi_main _ _ IH) as Hm. unfold destroy in Hd. by destruct (main p).
Qed.

(** ** Progress *)

Lemma run_callback_total p j lid w : mLaunch p = Some j -> w <> Done -> is_Some (run_callback p lid w).
Proof.
  intros Hj Hw. unfold run_callback. rewrite Hj. unfold wstep. destruct w; [by eexists| |done]. destruct (j_cb j); by eexists.
Qed.

(** A helper that is not waiting for its signal can take a step. *)
Lemma helper_moves n p i h :
  good n p -> helpers p !! i = Some h -> h <> HExit -> (h = HWait -> sigb p i = true) -> is_Some (helper_step false i p).
Proof.
  intros Hg Hh Hx Hs. unfold helper_step. rewrite Hh. cbn. destruct h as [| |w| | |]; [by eexists| | |by eexists|by eexists|done].
  - unfold sigb in Hs. destruct (mLaunchSignals p !! i) as [[]|]; cbn in *; [by eexists|by specialize (Hs eq_refl)..].
  - destruct Hg as [[Hinv _]|Hq].
    + pose proof (iv_launch _ _ Hinv) as HL. unfold launch_inv in HL. destruct (mLaunch p) as [j|] eqn:Ej.
      * destruct w as [|a b|]; [| |by eexists];
        match goal with |- context [run_callback p ?l ?w] => destruct (run_callback_total p j l w Ej ltac:(done)) as [[p' w'] ->]; by eexists end.
      * destruct HL as (_ & HL & _). pose proof (Forall_lookup_1 _ _ _ _ HL Hh). done.
    + pose proof (Forall_lookup_1 _ _ _ _ (qi_run _ _ Hq) Hh). done.
Qed.

(** A busy helper can take a step. *)
Lemma busy_moves n p i :
  inv n p -> wait_inv p -> length (helpers p) = n -> (i < n)%nat -> sigb p i = true \/ activeb p i = true -> is_Some (helper_step false i p).
Proof.
  intros Hinv Hw Hlen Hi Hb. destruct (lookup_lt_is_Some_2 (helpers p) i ltac:(lia)) as [h Hh].
  eapply (helper_moves n p i h); [by left|done| |].
  - by eapply (Forall_lookup_1 _ _ _ _ (proj2 (iv_exit _ _ Hinv))).
  - intros ->. destruct Hb as [?|Hb]; [done|]. unfold activeb in Hb. by rewrite Hh in Hb.
Qed.

Lemma running_busy n p : inv n p -> (main p = MPoll \/ main p = MWait) -> mRunningCount p <> 0 -> exists i, (i < n)%nat /\ (sigb p i = true \/ activeb p i = true).
Proof.
  intros Hinv Hm Hr. rewrite (iv_running _ _ Hinv) in Hr.
  assert (Hl : limit n (main p) = n) by (by destruct Hm as [-> | ->]).
  destruct (decide (Forall (fun i => busyb n p i = false) (seq 0 n))) as [Hf|Hf].
  - exfalso. apply Hr. rewrite cnt_false; [done|]. intros i Hi. rewrite Forall_seq in Hf. apply Hf. lia.
  - apply not_Forall_Exists in Hf; [|apply _]. apply Exists_exists in Hf as (i & Hi & Hb). apply elem_of_seq in Hi. exists i. split; [lia|].
    unfold compose, busyb in Hb. rewrite Hl in Hb. destruct (Nat.leb_spec n i); [lia|]. destruct (sigb p i), (activeb p i); auto.
Qed.

(** No reachable pool is stuck before it is idle or destroyed. *)
Lemma progress n p : good n p -> main p <> MIdle -> main p <> MGone -> exists a q, step false a p = Some q.
Proof.
  intros Hg Hi Hg'. destruct (main_step false p) as [q|] eqn:Em; [by exists AMain, q|].
  assert (Hmove : (exists i, is_Some (helper_step false i p)) -> exists a q, step false a p = Some q).
  { intros (i & q & Hq). by exists (AHelper i), q. }
  apply Hmove. unfold main_step in Em. destruct Hg as [[Hinv Hw]|Hq].
  - pose proof (iv_helpers _ _ Hinv) as Hlen. pose proof (iv_main _ _ Hinv) as Hqm.
    destruct (main p) as [[|k]| | |ct|w|w| | |ct| |] eqn:Emp; try done.
    + destruct (Z.eqb_spec (mRunningCount p) 0) as [|Hr]; [done|].
      destruct (running_busy n p Hinv (or_introl Emp) Hr) as (i & Hlt & Hb). exists i. eapply busy_moves; eauto. lia.
    + by destruct (ct <? mCount p)%nat.
    + destruct (launched n p Hinv) as [j Hj]; [by rewrite Emp..|]. exfalso. destruct w as [|a b|]; [| |done];
      match type of Em with context [run_callback p ?l ?w] => destruct (run_callback_total p j l w Hj ltac:(done)) as [[p' w'] E]; by rewrite E in Em end.
    + destruct (launched n p Hinv) as [j Hj]; [by rewrite Emp..|]. exfalso. destruct w as [|a b|]; [| |done];
      match type of Em with context [run_callback p ?l ?w] => destruct (run_callback_total p j l w Hj ltac:(done)) as [[p' w'] E]; by rewrite E in Em end.
    + destruct (Hw Emp) as [Hr|[Hc|Hs]].
      * destruct (running_busy n p Hinv (or_intror Emp) Hr) as (i & Hlt & Hb). exists i. eapply busy_moves; eauto. lia.
      * by rewrite Hc in Em.
      * apply list_elem_of_lookup in Hs as [i Hs]. exists i. by eapply (helper_moves n p i HSet); [left| | |].
  - pose proof (qi_main _ _ Hq) as Hqm. destruct (main p) as [| | | | | | | |ct| |] eqn:Emp; try done.
    + by destruct (ct <? mCount p)%nat.
    + destruct (forallb _ _) eqn:Ef; [done|]. apply not_true_iff_false in Ef. rewrite forallb_forall in Ef.
      destruct (decide (Forall (fun h => h = HExit) (helpers p))) as [Hf|Hf].
      { exfalso. apply Ef. intros h Hh. apply bool_decide_eq_true_2. rewrite Forall_forall in Hf. apply Hf. by apply list_elem_of_In. }
      apply not_Forall_Exists in Hf; [|apply _]. apply Exists_exists in Hf as (h & [i Hh]%list_elem_of_lookup & Hx). exists i.
      eapply (helper_moves n p i h); [by right|done|done|]. intros ->. apply (qi_wait _ _ Hq i Hh). by rewrite Emp.
Qed.

(** ** Termination *)

Definition taken (p : pool) : nat := Z.to_nat (u32 (sliceNum p)).

Definition hrank (h : hpc) : nat :=
  match h with HExit => 0 | HWait => 1 | HLoop => 2 | HSet => 5 | HDec => 6 | HRun Done => 7 | HRun _ => 8 end.
Definition mrank (n : nat) (m : mpc) : nat :=
  match m with
  | MCreate k => 2 + 3 * k | MPoll => 1 | MIdle => 0 | MSignal ct => 5 + 21 * (n - ct)
  | MRun Done => 3 | MRun _ => 4 | MFast Done => 1 | MFast _ => 2 | MCheck => 2 | MWait => 1
  | MQuit ct => 2 + 21 * (n - ct) | MJoin => 1 | MGone => 0
  end.
Definition srank (b : bool) : nat := if b then 20 else 0.
Definition work (n : nat) (p : pool) : nat :=
  match mLaunch p with
  | Some j => (nsl j + n + 2 - taken p) + (length (slices_upto j (nsl j)) - length (calls p))
  | None => 0
  end.

(** Every step makes this smaller. *)
Definition measure (n : nat) (p : pool) : nat :=
  work n p + sum_list_with hrank (helpers p) + sum_list_with srank (mLaunchSignals p) + mrank n (main p) +
  (if mCompleteSignal p then 2 else 0).

(** A worker inside its callback. *)
Definition in_callback (p : pool) (w : wstate) : Prop :=
  (exists i, helpers p !! i = Some (HRun w)) \/ main p = MRun w \/ main p = MFast w.

Lemma callback_facts n p w :
  inv n p -> in_callback p w -> w <> Done ->
  exists j k, mLaunch p = Some j /\ job_ok n j /\ slices_inv n p j k /\ (k <= nsl j + n)%nat /\
    (length (pend j w) <= length (pending j p))%nat /\ wf_w w.
Proof.
  intros Hinv Hc Hw. pose proof (iv_launch _ _ Hinv) as HL. unfold launch_inv in HL. destruct (mLaunch p) as [j|].
  - destruct HL as (Hok & _ & k & HS). exists j, k. pose proof HS as [S1 S2 [S3 S3'] S4 S5].
    unfold pending. rewrite length_app. destruct Hc as [[i Hh]|Hc].
    + destruct (undone_running n p i w Hinv Hh) as (_ & _ & Hu). pose proof (helper_lt _ _ _ _ Hinv Hh).
      destruct (concat_insert_perm (pend_h j) _ _ _ HDec Hh) as (r & -> & _). rewrite length_app.
      split_and!; try done; [|cbn; lia|by eapply (Forall_lookup_1 _ _ _ _ S3 Hh)].
      destruct S4 as [?|S4]; [lia|]. assert (cnt (undoneb n p) n <> O); [|lia].
      intros E. rewrite (cnt_zero _ _ i E) in Hu by done. by destruct w.
    + assert (Hm : pend_m j (main p) = pend j w /\ undone_main (main p) = true /\ wf_w w).
      { destruct Hc as [E|E]; rewrite E in *; cbn in *; by destruct w. }
      destruct Hm as (-> & Hu & Hwf). rewrite Hu in S4. cbn in S4. split_and!; try done; lia.
  - exfalso. destruct HL as ([HL|HL] & HL' & _), Hc as [[i Hh]|[Hc|Hc]]; rewrite ?Hc in HL; try done;
      pose proof (Forall_lookup_1 _ _ _ _ HL' Hh); done.
Qed.

Lemma taken_eq n p j k : job_ok n j -> slices_inv n p j k -> (k <= nsl j + n + 1)%nat -> taken p = k.
Proof.
  intros Hok [S1 _ _ _ _] Hk. unfold taken. rewrite S1, u32_s32.
  destruct (decide (k <= nsl j + n)%nat) as [Hk'|].
  - pose proof (slice_nowrap n j Hok k Hk'). destruct Hok as [Hs He Hz _ Hf]. rewrite u32_small by nia. lia.
  - pose proof (slice_nowrap n j Hok (nsl j + n) ltac:(lia)). destruct Hok as [Hs He Hz _ Hf]. rewrite u32_small by nia. lia.
Qed.

Lemma work_callback n p p' lid w w' :
  inv n p -> in_callback p w -> w <> Done -> run_callback p lid w = Some (p', w') ->
  (work n p' < work n p)%nat /\ (hrank (HRun w') <= hrank (HRun w))%nat /\ (mrank n (MRun w') <= mrank n (MRun w))%nat /\
  (mrank n (MFast w') <= mrank n (MFast w))%nat.
Proof.
  intros Hinv Hc Hw Hrun. destruct (callback_facts n p w Hinv Hc Hw) as (j & k & Hj & Hok & HS & Hk & Hpe & Hwf).
  split; [|destruct w, w'; cbn; (lia || done)].
  pose proof (taken_eq n p j k Hok HS ltac:(lia)) as Htk. unfold run_callback in Hrun. rewrite Hj in Hrun.
  unfold work at 2. rewrite Hj, Htk. destruct w as [|a b|]; [| |done].
  - rewrite (si_num _ _ _ _ HS) in Hrun. destruct (wstep_fetch n j Hok lid k Hk) as (v & Ev & _). rewrite Ev in Hrun. cbn in Hrun.
    injection Hrun as <- <-. unfold work. cbn. rewrite Hj, app_nil_r. unfold taken. cbn. rewrite u32_s32.
    assert (Hn : Z.of_nat (S k) < 2 ^ 32). { pose proof (slice_nowrap n j Hok k Hk). destruct Hok as [Hs He Hz _ Hf]. nia. }
    rewrite u32_small by lia. lia.
  - destruct (wstep_slice j lid (sliceNum p) a b Hwf) as (v & c & Ev & _ & _ & Hch). rewrite Ev in Hrun. cbn in Hrun.
    injection Hrun as <- <-. unfold work. cbn. rewrite Hj. change (taken (record_calls p (sliceNum p) [c])) with (taken p). rewrite Htk, length_app. cbn.
    cbn in Hpe. rewrite Hch in Hpe. cbn in Hpe. pose proof (slices_upto_length n j Hok k ltac:(lia)) as Hle.
    pose proof (Permutation_length (si_perm _ _ _ _ HS)) as Hp. rewrite length_app, length_fmap in Hp. lia.
Qed.

(** The work of a pool that differs from [p] in other parts only. *)
Ltac same_work n p := match goal with |- context [work n ?q] => lazymatch q with p => fail | _ => change (work n q) with (work n p) end end.

Lemma measure_helper n i p q : good n p -> helper_step false i p = Some q -> (measure n q < measure n p)%nat.
Proof.
  intros Hg. unfold helper_step. destruct (helpers p !! i) as [h|] eqn:Hh; [|done]. cbn.
  pose proof (fun h' => sum_list_with_insert hrank (helpers p) i h h' Hh) as Hsum.
  destruct h as [| |w| | |]; cbn; try done.
  - intros [= <-]. specialize (Hsum (if mExit p then HExit else HWait)). unfold measure. same_work n p. cbn. destruct (mExit p); cbn in *; lia.
  - destruct (mLaunchSignals p !! i) as [[]|] eqn:Hs; cbn; [|done..]. intros [= <-].
    pose proof (sum_list_with_insert srank (mLaunchSignals p) i true false Hs) as Hsig. cbn in Hsig.
    specialize (Hsum (match mLaunch p with Some _ => HRun Fetch | None => HDec end)). unfold measure. same_work n p. cbn. destruct (mLaunch p); cbn in *; lia.
  - assert (Hinv : w <> Done -> inv n p).
    { intros _. destruct Hg as [[? _]|Hq]; [done|]. by pose proof (Forall_lookup_1 _ _ _ _ (qi_run _ _ Hq) Hh). }
    destruct w as [|a b|].
    3: { intros [= <-]. specialize (Hsum HDec). unfold measure. same_work n p. cbn in *. lia. }
    all: destruct (run_callback _ _ _) as [[p' w']|] eqn:Hr; [|done]; cbn; intros [= <-];
      destruct (work_callback n p p' _ _ w' (Hinv ltac:(done)) (or_introl (ex_intro _ i Hh)) ltac:(done) Hr) as (Hw & Hrk & _);
      apply run_callback_frame in Hr as (E1 & E2 & E3 & E4 & E5 & E6); specialize (Hsum (HRun w'));
      unfold measure in *; cbn [set_helper helpers main mLaunchSignals mCompleteSignal]; rewrite E1, E2, E4, E5;
      same_work n p'; lia.
  - intros [= <-]. specialize (Hsum HSet). unfold measure. same_work n p. cbn in *. lia.
  - intros [= <-]. specialize (Hsum HLoop). unfold measure. same_work n p. cbn in *. destruct (mCompleteSignal p); lia.
Qed.

Lemma srank_insert_le l i : (sum_list_with srank (<[i := true]> l) <= sum_list_with srank l + 20)%nat.
Proof.
  destruct (l !! i) as [b|] eqn:E; [pose proof (sum_list_with_insert srank l i b true E); destruct b; cbn in *; lia|].
  rewrite list_insert_ge; [lia|]. by apply lookup_ge_None.
Qed.

Lemma measure_main n p q : good n p -> main_step false p = Some q -> (measure n q < measure n p)%nat.
Proof.
  intros Hg. unfold main_step.
  assert (Hlen : starting (main p) = false -> (mCount p <= n)%nat).
  { intros Hst. unfold mCount. destruct Hg as [[Hinv _]|Hq]; [pose proof (iv_helpers _ _ Hinv)|pose proof (qi_helpers _ _ Hq)]; lia. }
  assert (Hinv : forall w, in_callback p w -> w <> Done -> inv n p).
  { intros w Hc _. destruct Hg as [[? _]|Hq]; [done|]. exfalso. pose proof (qi_main _ _ Hq) as Hm.
    destruct Hc as [[i Hh]|[Hc|Hc]]; rewrite ?Hc in Hm; try done. by pose proof (Forall_lookup_1 _ _ _ _ (qi_run _ _ Hq) Hh). }
  destruct (main p) as [[|k]| | |ct|w|w| | |ct| |] eqn:Em; try done.
  - intros [= <-]. unfold measure. same_work n p. cbn. rewrite Em. cbn. lia.
  - intros [= <-]. unfold measure. same_work n p. cbn. rewrite Em, sum_list_with_app. cbn. lia.
  - destruct (_ =? _); [|done]. intros [= <-]. unfold measure. same_work n p. cbn. rewrite Em. cbn. lia.
  - specialize (Hlen eq_refl). destruct (Nat.ltb_spec ct (mCount p)) as [Hct|Hct]; intros [= <-]; unfold measure; cbn [main set_main].
    + same_work n p. rewrite Em. cbn. pose proof (srank_insert_le (mLaunchSignals p) ct). lia.
    + same_work n p. rewrite Em. cbn. lia.
  - destruct w as [|a b|].
    3: { intros [= <-]. unfold measure. same_work n p. cbn [main set_main]. rewrite Em. cbn. lia. }
    all: destruct (run_callback _ _ _) as [[p' w']|] eqn:Hr; [|done]; cbn; intros [= <-];
      assert (Hc : in_callback p _) by (right; left; exact Em);
      destruct (work_callback n p p' _ _ w' (Hinv _ Hc ltac:(done)) Hc ltac:(done) Hr) as (Hwk & _ & Hrk & _);
      apply run_callback_frame in Hr as (E1 & E2 & E3 & E4 & E5 & E6);
      unfold measure; cbn [set_main helpers main mLaunchSignals mCompleteSignal]; rewrite E2, E4, E5, Em;
      same_work n p'; lia.
  - destruct w as [|a b|].
    3: { intros [= <-]. unfold measure. same_work n p. cbn [main set_main]. rewrite Em. cbn. lia. }
    all: destruct (run_callback _ _ _) as [[p' w']|] eqn:Hr; [|done]; cbn; intros [= <-];
      assert (Hc : in_callback p _) by (right; right; exact Em);
      destruct (work_callback n p p' _ _ w' (Hinv _ Hc ltac:(done)) Hc ltac:(done) Hr) as (Hwk & _ & _ & Hrk);
      apply run_callback_frame in Hr as (E1 & E2 & E3 & E4 & E5 & E6);
      unfold measure; cbn [set_main helpers main mLaunchSignals mCompleteSignal]; rewrite E2, E4, E5, Em;
      same_work n p'; lia.
  - intros [= <-]. unfold measure. same_work n p. cbn [main set_main]. rewrite Em. cbn. destruct (_ =? _); cbn; lia.
  - destruct (mCompleteSignal p) eqn:Ec; [|done]. intros [= <-]. unfold measure. same_work n p. cbn [main set_main]. rewrite Em, Ec. cbn. lia.
  - specialize (Hlen eq_refl). destruct (Nat.ltb_spec ct (mCount p)) as [Hct|Hct]; intros [= <-]; unfold measure; cbn [main set_main].
    + same_work n p. rewrite Em. cbn. pose proof (srank_insert_le (mLaunchSignals p) ct). lia.
    + same_work n p. rewrite Em. cbn. lia.
  - destruct (forallb _ _); [|done]. intros [= <-]. unfold measure. same_work n p. cbn [main set_main]. rewrite Em. cbn. lia.
Qed.

Lemma measure_step n a p q : good n p -> step false a p = Some q -> (measure n q < measure n p)%nat.
Proof. destruct a; [apply measure_main|apply measure_helper]. Qed.

Lemma step_launch sp a p q : step sp a p = Some q -> mLaunch q = mLaunch p.
Proof.
  destruct a as [|i]; cbn.
  - unfold main_step. intros Hs. destruct (main p) as [[|k]| | |ct|[|a b|]|[|a b|]| | |ct| |]; try done.
    all: try (destruct (run_callback _ _ _) as [[p' w']|] eqn:Hr; [|done]; apply run_callback_frame in Hr as (_ & _ & _ & _ & _ & Hj)).
    all: try (destruct (mCompleteSignal p), sp; try done; cbn in Hs).
    all: repeat case_match; try done; injection Hs as <-; try done.
  - unfold helper_step. destruct (helpers p !! i) as [h|]; [|done]. cbn. intros Hs. destruct h as [| |[|a b|]| | |]; try done.
    all: try (destruct (run_callback _ _ _) as [[p' w']|] eqn:Hr; [|done]; apply run_callback_frame in Hr as (_ & _ & _ & _ & _ & Hj)).
    all: try (destruct (mLaunchSignals p !! i) as [b|]; [|done]; destruct b, sp; try done); cbn in Hs; repeat case_match; try done; injection Hs as <-; try done.
Qed.

Lemma run_reachable n sched p q : reachable false n p -> run false sched p = Some q -> reachable false n q /\ mLaunch q = mLaunch p.
Proof.
  revert p. induction sched as [|a sched IH]; intros p Hr; cbn; [by intros [= <-]|].
  destruct (step false a p) as [p'|] eqn:Hs; [|done]. cbn. intros Hq.
  destruct (IH p' (reach_step _ _ _ _ _ Hr Hs) Hq) as [? ->]. split; [done|]. by eapply step_launch.
Qed.

(** ** Start-up with too few threads *)

Lemma uncreated_set n p i : reachable false n p -> starting (main p) = true -> (length (helpers p) <= i < n)%nat -> sigb p i = true.
Proof.
  intros Hr. revert i. induction Hr as [|a p q Hr IH Hs|j p q _ _ Hok Hl|p q _ _ Hd]; intros i Hst Hi.
  - unfold sigb. cbn. by rewrite lookup_replicate_2 by lia.
  - destruct a as [|k]; cbn in Hs.
    + unfold main_step in Hs. destruct (main p) as [[|m]| | |ct|[|a b|]|[|a b|]| | |ct| |]; try done.
      all: try (destruct (run_callback _ _ _) as [[p' w']|]; [|done]).
      all: try (destruct (mCompleteSignal p); [|done]; cbn in Hs).
      all: repeat case_match; try done; injection Hs as <-; cbn in *; try done; apply IH; try done; rewrite ?length_app in Hi; cbn in Hi; lia.
    + unfold helper_step in Hs. destruct (helpers p !! k) as [h|] eqn:Hh; [|done]. pose proof (lookup_lt_Some _ _ _ Hh) as Hk.
      assert (Hgen : main q = main p /\ length (helpers q) = length (helpers p) /\ forall i, i <> k -> sigb q i = sigb p i).
      { cbn in Hs. destruct h as [| |[|a b|]| | |]; try done.
        all: try (destruct (run_callback _ _ _) as [[p' w']|] eqn:Hc; [|done]; apply run_callback_frame in Hc as (E1 & E2 & _ & _ & E5 & _)).
        all: try (destruct (mLaunchSignals p !! k) as [[]|]; [|done..]); cbn in Hs; repeat case_match; try done; injection Hs as <-; cbn; rewrite ?length_insert, ?E1, ?E2.
        all: split_and!; try done; intros i' Hi'; unfold sigb; cbn; rewrite ?E5, ?list_lookup_insert_ne by done; done. }
      destruct Hgen as (Em & El & Es). rewrite Es by lia. apply IH; [by rewrite <- Em|lia].
  - unfold launch in Hl. destruct (main p); try done. injection Hl as <-. by destruct (small_launch j).
  - unfold destroy in Hd. destruct (main p); try done. by injection Hd as <-.
Qed.

(** The pool that would exist if no creation had failed. *)
Definition pad (n : nat) (p : pool) : pool :=
  mkPool (mRunningCount p) (mLaunchSignals p) (mCompleteSignal p) (mLaunch p) (sliceNum p) (mExit p)
    (helpers p ++ replicate (n - length (helpers p)) HLoop) (main p) (calls p).

Lemma pad_insert n p i h : (i < length (helpers p))%nat ->
  <[i := h]> (helpers p ++ replicate (n - length (helpers p)) HLoop) = <[i := h]> (helpers p) ++ replicate (n - length (<[i := h]> (helpers p))) HLoop.
Proof. intros Hi. by rewrite insert_app_l, length_insert. Qed.

Lemma helper_step_pad n i p q :
  mLaunch p = None -> Forall (fun h => running_h h = false) (helpers p) -> helper_step false i p = Some q -> helper_step false i (pad n p) = Some (pad n q).
Proof.
  intros Hl Hrun. unfold helper_step. destruct (helpers p !! i) as [h|] eqn:Hh; [|done]. pose proof (lookup_lt_Some _ _ _ Hh) as Hi.
  assert (Hp : helpers (pad n p) !! i = Some h) by (cbn; by rewrite lookup_app_l). rewrite Hp. cbn.
  pose proof (Forall_lookup_1 _ _ _ _ Hrun Hh). destruct h as [| |w| | |]; cbn; try done.
  - intros [= <-]. unfold set_helper, pad. cbn. by rewrite pad_insert.
  - destruct (mLaunchSignals p !! i) as [[]|]; cbn; [|done..]. intros [= <-]. unfold set_helper, pad. cbn. by rewrite pad_insert.
  - intros [= <-]. unfold set_helper, pad. cbn. by rewrite pad_insert.
  - intros [= <-]. unfold set_helper, pad. cbn. by rewrite pad_insert.
Qed.

Lemma hang_step n k a p q :
  inv n (pad n p) -> main p = MPoll -> length (helpers p) = k -> (k < n)%nat -> sigb p k = true -> step false a p = Some q ->
  inv n (pad n q) /\ main q = MPoll /\ length (helpers q) = k /\ sigb q k = true.
Proof.
  intros Hinv Hm Hlen Hk Hs Hstep. pose proof (iv_launch _ _ Hinv) as HL. unfold launch_inv in HL. cbn in HL. rewrite Hm in HL.
  destruct (mLaunch p) eqn:El; [by destruct HL as (_ & ? & _)|]. destruct HL as (_ & HF & _). apply Forall_app in HF as [HF _].
  destruct a as [|i]; cbn in Hstep.
  - exfalso. unfold main_step in Hstep. rewrite Hm in Hstep. destruct (Z.eqb_spec (mRunningCount p) 0) as [H0|]; [|done].
    pose proof (iv_running _ _ Hinv) as Hr. cbn in Hr. rewrite H0 in Hr. assert (Hz : cnt (busyb n (pad n p)) n = O) by lia.
    pose proof (cnt_zero _ _ k Hz Hk) as Hb. unfold busyb in Hb. change (sigb (pad n p) k) with (sigb p k) in Hb.
    rewrite Hs, orb_true_r in Hb. done.
  - pose proof (helper_step_pad n i p q El HF Hstep) as Hpad. split; [by eapply helper_step_inv|].
    unfold helper_step in Hstep. destruct (helpers p !! i) as [h|] eqn:Hh; [|done]. cbn in Hstep.
    pose proof (lookup_lt_Some _ _ _ Hh) as Hi. pose proof (Forall_lookup_1 _ _ _ _ HF Hh).
    destruct h as [| |w| | |]; try done; try (injection Hstep as <-; cbn; by rewrite length_insert).
    destruct (mLaunchSignals p !! i) as [[]|]; cbn in Hstep; [|done..]. injection Hstep as <-. cbn. rewrite length_insert.
    split_and!; try done. unfold sigb. cbn. rewrite list_lookup_insert_ne by lia. exact Hs.
Qed.

Lemma inv_pad n p k : inv n p -> main p = MCreate k -> inv n (pad n (set_main p MPoll)).
Proof.
  revert p. induction k as [|k IH]; intros p Hinv Hm; pose proof (iv_helpers _ _ Hinv) as Hlen; rewrite Hm in Hlen.
  - assert (E : pad n (set_main p MPoll) = set_main p MPoll).
    { unfold pad. cbn. replace (n - length (helpers p))%nat with 0%nat by lia. cbn. by rewrite app_nil_r. }
    rewrite E. apply (main_step_inv n p); [done|]. unfold main_step. by rewrite Hm.
  - specialize (IH _ (inv_create n p k Hinv Hm) eq_refl). unfold pad in *. cbn in *. rewrite length_app in IH. cbn in IH.
    replace (n - length (helpers p))%nat with (S (n - (length (helpers p) + 1))) by lia. cbn. by rewrite <- app_assoc in IH.
Qed.

Lemma launch_calls n j p0 p sched q :
  reachable false n p0 -> job_ok n j -> launch j p0 = Some p -> run false sched p = Some q -> main q = MIdle ->
  erase <$> calls q ≡ₚ slices_upto j (nsl j) /\ Forall (fun h => running_h h = false) (helpers q).
Proof.
  intros Hr Hok Hl Hrun Hm. assert (Hp : reachable false n p) by (by eapply reach_launch).
  assert (Hj : mLaunch p = Some j). { unfold launch in Hl. destruct (main p0); try done. injection Hl as <-. by destruct (small_launch j). }
  destruct (run_reachable n sched p q Hp Hrun) as [Hq Ej]. rewrite Hj in Ej.
  destruct (reachable_good n q Hq) as [[Hinv _]|Hqi]; [|pose proof (qi_main _ _ Hqi) as Hqm; by rewrite Hm in Hqm].
  assert (Hno : forall h, h ∈ helpers q -> running_h h = false).
  { intros h [i Hi]%list_elem_of_lookup. pose proof (helper_lt _ _ _ _ Hinv Hi). destruct (rest_quiet n q i Hinv) as [_ Ha]; [by rewrite Hm|done|].
    unfold activeb in Ha. rewrite Hi in Ha. by destruct h. }
  split; [|by apply Forall_forall]. pose proof (iv_launch _ _ Hinv) as HL. unfold launch_inv in HL. rewrite Ej in HL.
  destruct HL as (_ & _ & k & [S1 S2 S3 S4 S5]). rewrite Hm in S5. specialize (S5 eq_refl).
  assert (Hpe : pending j q = []).
  { unfold pending. rewrite Hm, app_nil_r. apply concat_nil_Forall, Forall_fmap, Forall_forall. intros h Hh. specialize (Hno h Hh). by destruct h. }
  rewrite Hpe, app_nil_r in S2. rewrite S2, (slices_upto_past n j Hok); [done|]. destruct S4; lia.
Qed.

(** ** Theorems *)

(** C10: when [launchThreads] returns, the kernel has been called for every slice of the
    launch range exactly once, whatever the interleaving of the workers and however many
    launches went before, and no helper is inside the callback. *)
Theorem launch_complete n j p0 p sched q :
  reachable false n p0 -> job_ok n j -> launch j p0 = Some p -> run false sched p = Some q -> main q = MIdle ->
  erase <$> calls q ≡ₚ slices_upto j (nsl j) /\ Forall (fun h => running_h h = false) (helpers q).
Proof. apply launch_calls. Qed.

(** C22: the pool never hangs: from every reachable state, every schedule of the threads is
    shorter than a bound that depends on the state only, and one that cannot be continued
    has brought the owner back out of the pool (or the pool is destroyed). *)
Theorem pool_terminates n p sched q :
  reachable false n p -> run false sched p = Some q ->
  (length sched <= measure n p)%nat /\ ((forall a, step false a q = None) -> main q = MIdle \/ main q = MGone).
Proof.
  intros Hr Hrun. split.
  - revert p Hr Hrun. induction sched as [|a sched IH]; intros p Hr Hrun; cbn in *; [lia|].
    destruct (step false a p) as [p'|] eqn:Hs; [|done]. pose proof (measure_step n a p p' (reachable_good n p Hr) Hs).
    specialize (IH p' (reach_step _ _ _ _ _ Hr Hs) Hrun). lia.
  - intros Hst. destruct (run_reachable n sched p q Hr Hrun) as [Hq _].
    assert (Hdec : main q = MIdle \/ main q = MGone \/ (main q <> MIdle /\ main q <> MGone)) by (destruct (main q); auto).
    destruct Hdec as [?|[?|[H1 H2]]]; [by left|by right|].
    destruct (progress n q (reachable_good n q Hq) H1 H2) as (a & q' & Ha). by rewrite Hst in Ha.
Qed.

(** if the creation of a thread fails, [init] waits for the threads that were never
    created: it does not return, whatever the threads that exist do. *)
Theorem create_failure_hangs n p0 p sched q :
  reachable false n p0 -> create_fails p0 = Some p -> run false sched p = Some q -> main q = MPoll.
Proof.
  intros Hr Hf Hrun. unfold create_fails in Hf. destruct (main p0) as [[|k]| | | | | | | | | |] eqn:Em; try done. injection Hf as <-.
  destruct (reachable_good n p0 Hr) as [[Hinv _]|Hq]; [|pose proof (qi_main _ _ Hq) as Hqm; by rewrite Em in Hqm].
  pose proof (iv_helpers _ _ Hinv) as Hlen. rewrite Em in Hlen.
  assert (Hs : sigb (set_main p0 MPoll) (length (helpers p0)) = true) by (apply (uncreated_set n p0); rewrite ?Em; [done|done|lia]).
  assert (Hp : inv n (pad n (set_main p0 MPoll))) by (by eapply inv_pad).
  assert (Hm : main (set_main p0 MPoll) = MPoll) by done. assert (Hl : length (helpers (set_main p0 MPoll)) = length (helpers p0)) by done.
  revert Hs Hp Hm Hl Hrun. generalize (set_main p0 MPoll). induction sched as [|a sched IH]; intros p Hs Hp Hm Hl; cbn; [by intros [= <-]|].
  destruct (step false a p) as [p'|] eqn:Ha; [|done]. intros Hrun.
  destruct (hang_step n (length (helpers p0)) a p p') as (? & ? & ? & ?); try done; [lia|]. eapply (IH p'); try done.
Qed.

(** ** A pool with one helper *)

(** A launch over three rows of four cells, one row a slice. *)
Definition ex_mtls : MTLaunchStruct :=
  mkMtls (mkFep NULL NULL NULL 0 0 0 0 0 4 3 0 (mkPtr (Some 1%positive) 0) (mkPtr (Some 2%positive) 0) 4 4 16 16 0) 0 0 1 0 true 0 4 0 3 0 1 0 1.
Definition ex_job : job := mkJob wc_xy ex_mtls.

(** The helper is created and passes its first wait. *)
Definition ex_start : list actor := [AMain; AHelper 0; AHelper 0; AHelper 0; AHelper 0; AHelper 0; AMain; AMain].
Definition ex_idle : pool := default (init 1) (run false ex_start (init 1)).
Definition ex_launched : pool := default (init 1) (launch ex_job ex_idle).
(** The owner takes the slices 0 and 2, the helper slice 1. *)
Definition ex_sched : list actor :=
  [AMain; AMain; AMain; AHelper 0; AHelper 0; AMain; AHelper 0; AMain; AMain; AMain; AHelper 0; AMain; AHelper 0; AHelper 0; AMain].
Definition ex_done : pool := default (init 1) (run false ex_sched ex_launched).

Lemma ex_idle_reachable : reachable false 1 ex_idle.
Proof. apply (run_reachable 1 ex_start (init 1)); [constructor|vm_compute; reflexivity]. Qed.

Lemma ex_job_ok : job_ok 1 ex_job.
Proof. split; vm_compute; congruence. Qed.

Lemma launch_complete_witness :
  erase <$> calls ex_done ≡ₚ slices_upto ex_job (nsl ex_job) /\ Forall (fun h => running_h h = false) (helpers ex_done).
Proof.
  apply (launch_complete 1 ex_job ex_idle ex_launched ex_sched ex_done); [apply ex_idle_reachable|apply ex_job_ok|..]; vm_compute; reflexivity.
Defined.

Lemma pool_terminates_witness :
  (15 <= measure 1 ex_launched)%nat /\ ((forall a, step false a ex_done = None) -> main ex_done = MIdle \/ main ex_done = MGone).
Proof.
  apply (pool_terminates 1 ex_launched ex_sched ex_done); [|vm_compute; reflexivity].
  apply (reach_launch false 1 ex_job ex_idle); [apply ex_idle_reachable|apply ex_job_ok|vm_compute; reflexivity].
Defined.

(** Two threads wanted, the second creation fails after the first helper has started. *)
Definition ex_partial : pool := default (init 2) (run false [AMain; AHelper 0] (init 2)).
Definition ex_failed : pool := default (init 2) (create_fails ex_partial).

Lemma create_failure_hangs_witness : main (default (init 2) (run false [AHelper 0; AHelper 0; AHelper 0] ex_failed)) = MPoll.
Proof.
  apply (create_failure_hangs 2 ex_partial ex_failed [AHelper 0; AHelper 0; AHelper 0]); [|vm_compute; reflexivity..].
  apply (run_reachable 2 [AMain; AHelper 0] (init 2)); [constructor|vm_compute; reflexivity].
Defined.

(** The helper wakes up without a signal before the launch, counts down in it, and is
    then woken by the signal of the launch; the owner finds the count at zero. *)
Definition ex_spurious : option pool :=
  p ← run true [AHelper 0] ex_idle;
  p ← launch ex_job p;
  run true [AMain; AMain; AHelper 0; AHelper 0; AHelper 0; AMain; AHelper 0; AHelper 0; AMain; AMain; AMain; AMain; AMain; AMain] p.

(** [Signal::wait] tests its flag once and not in a loop, so a spurious wake-up of
    [pthread_cond_wait], which POSIX allows, breaks the pool: a launch can return while a
    helper is inside the callback with a row that has not been processed. *)
Theorem spurious_wakeup_returns_early :
  exists p, ex_spurious = Some p /\ main p = MIdle /\ helpers p = [HRun (Slice 1 2)] /\
    (length (calls p) < length (slices_upto ex_job (nsl ex_job)))%nat.
Proof. eexists. split; [vm_compute; reflexivity|]. vm_compute. split_and!; try reflexivity; lia. Qed.

End Workers.
