(* ===== verification/Launch.v ===== *)
(** * Launch: a launch on the pool against a launch without it

    The launch set up by [forEachMtlsSetup], run by all workers under any schedule,
    leaves the memory as the plain loop of [launchThreads] does, for kernels that treat
    each cell for itself; and every call stays inside the memory of the allocations. *)

From S2P Require Import Prelude CppUtils Stream Component ObjectBase Objects Element RsType Memory DrvAllocation CpuCore Workers.
Import CppUtils ObjectBase Objects Element RsType Memory DrvAllocation CpuCore Workers.

Module Launch.

(** ** Kernels *)

(** The call for the cells of [c] from [x] on, and for those before [x]. *)
Definition call_from (c : call) (x : Z) : call :=
  mkKCall (ptr_add (c_in c) (c_instep c * (x - c_x1 c))) (ptr_add (c_out c) (c_outstep c * (x - c_x1 c)))
    (c_y c) (c_z c) (c_ar0 c) (c_lid c) x (c_x2 c) (c_instep c) (c_outstep c).
Definition call_to (c : call) (x : Z) : call :=
  mkKCall (c_in c) (c_out c) (c_y c) (c_z c) (c_ar0 c) (c_lid c) (c_x1 c) x (c_instep c) (c_outstep c).

(** Two calls for different cells. *)
Definition apart (c d : call) : Prop :=
  c_y c <> c_y d \/ c_z c <> c_z d \/ c_ar0 c <> c_ar0 d \/ c_x2 c <= c_x1 d \/ c_x2 d <= c_x1 c.

(** What compiled kernels promise: the loop over [x] can be cut, calls for different
    cells do not disturb each other, and the number of the worker does not matter. *)
Class CellKernel {mem : Type} (K : call -> mem -> mem) := {
  kernel_lid : forall c s, K (erase c) s = K c s;
  kernel_apart : forall c d s, apart c d -> K c (K d s) = K d (K c s);
  kernel_cut : forall c x s, c_x1 c <= x <= c_x2 c -> K c s = K (call_from c x) (K (call_to c x) s)
}.

Section kernel.
Context {mem : Type} (K : call -> mem -> mem) `{!CellKernel K}.

Definition run_calls (cs : list call) (s : mem) : mem := foldl (fun s c => K c s) s cs.

Lemma run_calls_app cs ds s : run_calls (cs ++ ds) s = run_calls ds (run_calls cs s).
Proof. apply foldl_app. Qed.

Lemma run_calls_erase cs s : run_calls (erase <$> cs) s = run_calls cs s.
Proof. revert s. induction cs as [|c cs IH]; intros s; [done|]. cbn. rewrite kernel_lid. apply IH. Qed.

Lemma run_calls_perm cs ds s :
  cs ≡ₚ ds -> (forall c d, c ∈ cs -> d ∈ cs -> c = d \/ apart c d) -> run_calls cs s = run_calls ds s.
Proof.
  intros Hp. revert s. induction Hp as [|c cs ds Hp IH|c d cs|cs ds es Hp IH Hq IH']; intros s Ha; cbn.
  - done.
  - apply IH. intros. apply Ha; by right.
  - f_equal. destruct (Ha d c) as [->|Hcd]; [left|right; left|done|]. symmetry. by apply kernel_apart.
  - rewrite IH, IH'; [done| |done]. intros c d Hc Hd. apply Ha; by rewrite Hp.
Qed.

End kernel.

(** ** Launches the two paths agree on *)

(** What a set-up without [z] and array dimensions gives. *)
Record flat (m : MTLaunchStruct) : Prop := {
  fl_z : zStart m = 0 /\ zEnd m = 1;
  fl_ar : arrayStart m = 0 /\ arrayEnd m = 1;
  fl_fep : fp_y (fep m) = 0 /\ fp_z (fep m) = 0 /\ fp_ar0 (fep m) = 0 /\ fp_lid (fep m) = 0;
  fl_num : mSliceNum m = 0;
  fl_x : 0 <= xStart m <= xEnd m;
  fl_y : 0 <= yStart m /\ yEnd m < 2 ^ 32;
  fl_line : fp_dimY (fep m) <= 1 -> yStart m = 0 /\ yEnd m = 1;
  fl_e : 0 <= eStrideIn (fep m) /\ 0 <= eStrideOut (fep m);
  fl_fits : eStrideIn (fep m) * xEnd m < 2 ^ 32 /\ eStrideOut (fep m) * xEnd m < 2 ^ 32
}.

Lemma plain_flat m : flat m -> plain_calls m = plain_call m 0 0 <$> upto (yStart m) (yEnd m).
Proof.
  intros [[Ez Ez'] [Ea Ea'] _ _ _ _ _ _ _]. unfold plain_calls. rewrite Ez, Ez', Ea, Ea'. change (upto 0 1) with [0]. cbn. rewrite !app_nil_r.
  induction (upto _ _); cbn; [done|]. by f_equal.
Qed.

Lemma row_plain m y : flat m -> 0 <= y < 2 ^ 32 -> row_call m 0 y = plain_call m 0 0 y.
Proof.
  intros [_ _ (E1 & E2 & E3 & E4) _ _ _ _ _ _] Hy. unfold row_call, plain_call. rewrite E2, E3, E4.
  rewrite !Z.mul_0_r. change (u32 0) with 0. rewrite !Z.add_0_l. by rewrite (u32_small y) by lia.
Qed.

Lemma upto_elem x a b : x ∈ upto a b <-> a <= x < b.
Proof. unfold upto. rewrite elem_of_seqZ. lia. Qed.

Section paths.
Context {mem : Type} (K : call -> mem -> mem) `{!CellKernel K}.

Lemma rows_agree m cs s :
  flat m -> cs ≡ₚ row_call m 0 <$> upto (yStart m) (yEnd m) -> run_calls K cs s = run_calls K (plain_calls m) s.
Proof.
  intros Hf Hp. rewrite (plain_flat m Hf). rewrite (run_calls_perm K cs _ s Hp).
  - f_equal. apply list_fmap_ext. intros i y Hy. apply row_plain; [done|].
    apply list_elem_of_lookup_2, upto_elem in Hy. destruct (fl_y _ Hf). lia.
  - intros c d Hc Hd. rewrite Hp in Hc, Hd. apply list_elem_of_fmap in Hc as (y & -> & _), Hd as (y' & -> & _).
    destruct (decide (y = y')) as [->|]; [by left|]. right. by left.
Qed.

(** The slices of a single line, one after the other, are the whole line. *)
Lemma line_cut n j s k :
  job_ok n j -> j_cb j = wc_x -> flat (j_mtls j) -> (0 < nsl j)%nat -> (k < nsl j)%nat ->
  run_calls K (slices_upto j (S k)) s = K (cells_call (j_mtls j) 0 (j_start j) (Z.min (j_start j + (Z.of_nat k + 1) * j_size j) (j_end j))) s.
Proof.
  intros Hok Hcb Hf Hn. set (m := j_mtls j). induction k as [|k IH]; intros Hk; rewrite slices_upto_S, run_calls_app.
  - unfold slice_calls. rewrite (slice_live n j Hok) by lia. destruct (Nat.ltb_spec 0 (nsl j)); [|lia]. cbn [negb].
    destruct (slice_exact n j Hok 0 ltac:(lia)) as [-> ->]. unfold chunk. rewrite Hcb. cbn [run_calls foldl]. by rewrite Z.mul_0_l, Z.add_0_r.
  - rewrite IH by lia. unfold slice_calls. rewrite (slice_live n j Hok) by lia. destruct (Nat.ltb_spec (S k) (nsl j)); [|lia]. cbn [negb].
    destruct (slice_exact n j Hok (S k) ltac:(lia)) as [-> ->]. pose proof (proj1 (nsl_bounds n j Hok (S k)) ltac:(lia)) as Hlt.
    destruct Hok as [Hs He Hz _ Hfit]. unfold chunk. rewrite Hcb. cbn [run_calls foldl].
    set (x := j_start j + Z.of_nat (S k) * j_size j). replace (j_start j + (Z.of_nat k + 1) * j_size j) with x by (unfold x; lia).
    rewrite (Z.min_l x (j_end j)) by (unfold x; lia).
    set (e := Z.min _ _). assert (Hx : j_start j <= x <= e) by (unfold e, x in *; nia). assert (He' : e <= j_end j) by (unfold e; lia).
    rewrite (kernel_cut (cells_call m 0 (j_start j) e) x) by (cbn; lia). f_equal.
    destruct (fl_e _ Hf), (fl_fits _ Hf). assert (Ej : j_end j = xEnd (j_mtls j)) by (unfold j_end; by rewrite Hcb).
    assert (Hmul : forall es, 0 <= es -> es * xEnd (j_mtls j) < 2 ^ 32 -> u32 (es * x) = u32 (es * j_start j) + es * (x - j_start j)).
    { intros es Hes Hb. rewrite !u32_small by nia. lia. }
    unfold cells_call, call_from, ptr_add. cbn. fold m. rewrite !Hmul by (done || lia). f_equal; f_equal; lia.
Qed.

Lemma line_agree n j s cs :
  job_ok n j -> j_cb j = wc_x -> flat (j_mtls j) -> fp_dimY (fep (j_mtls j)) <= 1 -> xStart (j_mtls j) < xEnd (j_mtls j) ->
  cs ≡ₚ slices_upto j (nsl j) -> run_calls K cs s = run_calls K (plain_calls (j_mtls j)) s.
Proof.
  intros Hok Hcb Hf Hd Hx Hp. set (m := j_mtls j) in *.
  assert (Es : j_start j = xStart m) by (unfold j_start; by rewrite Hcb). assert (Ee : j_end j = xEnd m) by (unfold j_end; by rewrite Hcb).
  destruct (nsl j) as [|k] eqn:Ek; [pose proof (proj2 (nsl_bounds n j Hok 0) ltac:(lia)); lia|].
  rewrite (run_calls_perm K cs _ s Hp).
  - rewrite (line_cut n j s k) by (done || lia). rewrite plain_flat by done. destruct (fl_line _ Hf Hd) as [Ey Ey'].
    rewrite Ey, Ey'. change (upto 0 1) with [0]. cbn [fmap list_fmap run_calls foldl]. f_equal.
    assert (Hend : j_end j <= j_start j + (Z.of_nat k + 1) * j_size j).
    { destruct (decide (j_start j + Z.of_nat (S k) * j_size j < j_end j)) as [Hlt|]; [|lia].
      pose proof (proj2 (nsl_bounds n j Hok (S k)) Hlt). lia. }
    rewrite Z.min_r by lia. rewrite Es, Ee, <- (row_plain m 0 Hf) by lia. fold m. unfold cells_call, row_call, ptr_add. cbn.
    rewrite (proj1 (fl_fep _ Hf)). rewrite !Z.mul_0_r. change (u32 0) with 0. by rewrite !Z.add_0_r.
  - intros c d Hc Hd'. rewrite Hp in Hc, Hd'. unfold slices_upto in Hc, Hd'.
    assert (Hin : forall c, c ∈ concat (slice_calls j <$> seq 0 (S k)) -> exists i, (i < S k)%nat /\
      c = cells_call m 0 (j_start j + Z.of_nat i * j_size j) (Z.min (j_start j + (Z.of_nat i + 1) * j_size j) (j_end j))).
    { intros c' Hc'. apply list_elem_of_In, in_concat in Hc' as (l & Hl & Hc'). apply list_elem_of_In, list_elem_of_fmap in Hl as (i & -> & Hi).
      apply elem_of_seq in Hi. exists i. split; [lia|]. unfold slice_calls in Hc'. destruct (_ <=? _); [done|].
      unfold chunk in Hc'. rewrite Hcb in Hc'. destruct Hc' as [<-|[]]. by destruct (slice_exact n j Hok i ltac:(lia)) as [-> ->]. }
    destruct (Hin c Hc) as (i & Hi & ->), (Hin d Hd') as (i' & Hi' & ->). destruct (decide (i = i')) as [->|Hne]; [by left|right].
    pose proof (jo_size _ _ Hok). unfold apart. cbn. right; right; right. destruct (decide (i < i')%nat); [left|right]; nia.
Qed.

End paths.

(** ** From the set-up *)

Definition sc_ok (sc : option RsScriptCall) : Prop :=
  match sc with
  | None => True
  | Some s => 0 <= sc_xStart s /\ 0 <= sc_xEnd s /\ 0 <= sc_yStart s /\ 0 <= sc_yEnd s /\ 0 <= sc_zStart s /\ 0 <= sc_zEnd s
  end.

(** What [clip] is given comes from one pair of fields. *)
Lemma sc_field sc (f : RsScriptCall -> Z * Z) :
  sc_ok sc -> (forall s, sc_ok (Some s) -> 0 <= (f s).1 /\ 0 <= (f s).2) -> forall x y, f <$> sc = Some (x, y) -> 0 <= x /\ 0 <= y.
Proof. intros Hsc Hf x y E. destruct sc as [s|]; [|done]. injection E as E. specialize (Hf s Hsc). by rewrite E in Hf. Qed.

Lemma clip_spec sc dim a b :
  0 <= dim -> (forall x y, sc = Some (x, y) -> 0 <= x /\ 0 <= y) -> clip sc dim = (a, b, true) ->
  0 <= a <= b /\ b <= dim /\ (a < b \/ b = 0 /\ dim = 0) /\ (dim <= 1 -> a = 0 /\ b <= 1).
Proof.
  intros Hd Hsc. unfold clip, rsMin. destruct sc as [[x y]|].
  - destruct (Hsc x y eq_refl). destruct (Z.eqb_spec y 0).
    + intros [= <- <-]. lia.
    + rewrite Z.geb_leb. destruct (Z.gtb_spec dim x), (Z.gtb_spec dim y); cbn; intros [= <- <- Hg]; apply negb_true_iff, Z.leb_gt in Hg; lia.
  - intros [= <- <-]. lia.
Qed.

(** A set-up is abandoned with nothing to launch, or it is complete. *)
Definition abandoned (m : MTLaunchStruct) : Prop := isThreadable m = false /\ arrayStart m = 0 /\ arrayEnd m = 0.

Lemma setup_cases W thr ain aout usr len sc W' m :
  forEachMtlsSetup W thr ain aout usr len sc = Ok (W', m) ->
  abandoned m \/
  exists a t x0 x1 y0 y1 z0 z1 pin ein yin pout eout yout,
    (match ain with Some a => Some a | None => aout end) = Some a /\ getType W a = Ok t /\
    clip ((fun s => (sc_xStart s, sc_xEnd s)) <$> sc) (dimX (t_mHal t)) = (x0, x1, true) /\
    clip ((fun s => (sc_yStart s, sc_yEnd s)) <$> sc) (dimY (t_mHal t)) = (y0, y1, true) /\
    clip ((fun s => (sc_zStart s, sc_zEnd s)) <$> sc) (dimZ (t_mHal t)) = (z0, z1, true) /\
    side W ain = Ok (pin, ein, yin) /\ side W aout = Ok (pout, eout, yout) /\ W' = W /\
    m = mkMtls (mkFep NULL NULL usr len 0 0 0 0 (dimX (t_mHal t)) (dimY (t_mHal t)) (dimZ (t_mHal t)) pin pout ein eout yin yout 0)
          0 0 1 0 thr x0 (Z.max 1 x1) y0 (Z.max 1 y1) z0 (Z.max 1 z1) 0 1.
Proof.
  unfold forEachMtlsSetup. intros Hs. destruct (null_base ain) as [[]|]; cbn [mbind outcome_bind] in Hs; [left| |done].
  { by injection Hs as <- <-. }
  destruct (null_base aout) as [[]|]; cbn [mbind outcome_bind] in Hs; [left| |done].
  { by injection Hs as <- <-. }
  destruct (match ain with Some a => Some a | None => aout end) as [a|]; [|left; by injection Hs as <- <-].
  destruct (getType W a) as [t|] eqn:Et; cbn [mbind outcome_bind] in Hs; [|done].
  destruct (clip _ (dimX _)) as [[x0 x1] []] eqn:Ex; [|left; by injection Hs as <- <-].
  destruct (clip _ (dimY _)) as [[y0 y1] []] eqn:Ey; [|left; by injection Hs as <- <-].
  destruct (clip _ (dimZ _)) as [[z0 z1] []] eqn:Ez; [|left; by injection Hs as <- <-]. cbn [negb] in Hs.
  destruct (side W ain) as [[[pin ein] yin]|] eqn:Ei; cbn [mbind outcome_bind] in Hs; [|done].
  destruct (side W aout) as [[[pout eout] yout]|] eqn:Eo; cbn [mbind outcome_bind] in Hs; [|done].
  injection Hs as <- <-. right. eexists a, t, x0, x1, y0, y1, z0, z1, _, _, _, _, _, _. split_and!; try done.
  assert (Hmax : forall b, rsMax 1 b = Z.max 1 b) by (intros; unfold rsMax; destruct (Z.ltb_spec 1 b); lia). by rewrite !Hmax.
Qed.

Lemma side_range W o q e y : side W o = Ok (q, e, y) -> 0 <= e < 2 ^ 32 /\ 0 <= y < 2 ^ 32.
Proof. destruct o as [o|]; cbn; intros Hq; fwd; [|lia]. pose proof (u32_range x1). pose proof (u32_range (stride x)). lia. Qed.

(** The fields of a set-up that was not abandoned. *)
Lemma setup_flat W thr ain aout usr len sc W' m :
  forEachMtlsSetup W thr ain aout usr len sc = Ok (W', m) -> isThreadable m = true -> sc_ok sc ->
  0 <= fp_dimX (fep m) < 2 ^ 31 -> 0 <= fp_dimY (fep m) < 2 ^ 31 -> 0 <= fp_dimZ (fep m) <= 1 ->
  eStrideIn (fep m) * Z.max 1 (fp_dimX (fep m)) < 2 ^ 32 -> eStrideOut (fep m) * Z.max 1 (fp_dimX (fep m)) < 2 ^ 32 ->
  flat m /\ xStart m < xEnd m <= Z.max 1 (fp_dimX (fep m)) /\ yStart m < yEnd m <= Z.max 1 (fp_dimY (fep m)) /\
  thr = true /\ W' = W.
Proof.
  intros Hs Ht Hsc. destruct (setup_cases _ _ _ _ _ _ _ _ _ Hs) as [[Hn _]|Hc]; [congruence|].
  destruct Hc as (a & t & x0 & x1 & y0 & y1 & z0 & z1 & pin & ein & yin & pout & eout & yout & _ & _ & Ex & Ey & Ez & Ei & Eo & -> & ->).
  cbn. intros Hdx Hdy Hdz Hi Ho.
  apply clip_spec in Ex as (X1 & X2 & X3 & X4); [|lia|apply sc_field; [done|intros ?; cbn; lia]].
  apply clip_spec in Ey as (Y1 & Y2 & Y3 & Y4); [|lia|apply sc_field; [done|intros ?; cbn; lia]].
  apply clip_spec in Ez as (Z1 & Z2 & Z3 & Z4); [|lia|apply sc_field; [done|intros ?; cbn; lia]].
  destruct (side_range _ _ _ _ _ Ei), (side_range _ _ _ _ _ Eo).
  split_and!; try done; try lia. split; cbn; try done; try lia. split; nia.
Qed.

(** The job [launchThreads] makes of it fits the slice arithmetic. *)
Lemma slice_size_le count dim so si s :
  1 <= count < 2 ^ 28 -> 0 <= dim < 2 ^ 31 -> slice_size count dim so si = Ok s -> 1 <= s /\ (count + 2) * s <= Z.max (count + 2) dim.
Proof.
  intros Hc Hd. unfold slice_size, udiv. rewrite (u32_small (count + 1)), (u32_small ((count + 1) * 4)) by lia.
  destruct (Z.eqb_spec ((count + 1) * 4) 0); [lia|]. cbn [mbind outcome_bind].
  destruct (_ =? 0); cbn [mbind outcome_bind]; [done|]. intros [= <-].
  set (s2 := u32 _). set (s1 := dim / ((count + 1) * 4)).
  assert (H4 : (count + 1) * 4 * s1 <= dim) by (apply Z.mul_div_le; lia).
  assert (0 <= s1) by (apply Z.div_pos; lia). pose proof (u32_range (targetByteChunk / (if so =? 0 then si else so))) as H2. fold s2 in H2.
  assert (Hm : rsMin s1 s2 <= s1) by (unfold rsMin; destruct (Z.gtb_spec s1 s2); lia).
  destruct (Z.ltb_spec (rsMin s1 s2) 1); [lia|]. split; [lia|]. nia.
Qed.

(** A launch of two dimensions: the bounds of the range and of the types. *)
Record two_dim (m : MTLaunchStruct) : Prop := {
  td_x : 0 <= fp_dimX (fep m) < 2 ^ 31;
  td_y : 0 <= fp_dimY (fep m) < 2 ^ 31;
  td_z : 0 <= fp_dimZ (fep m) <= 1;
  td_in : eStrideIn (fep m) * Z.max 1 (fp_dimX (fep m)) < 2 ^ 32;
  td_out : eStrideOut (fep m) * Z.max 1 (fp_dimX (fep m)) < 2 ^ 32
}.

Lemma threaded_agrees {mem} (K : call -> mem -> mem) `{!CellKernel K} n m j p0 p sched q s :
  flat m -> xStart m < xEnd m <= Z.max 1 (fp_dimX (fep m)) -> yStart m < yEnd m <= Z.max 1 (fp_dimY (fep m)) -> two_dim m ->
  Z.of_nat n < 2 ^ 28 -> launchThreads (Z.of_nat n) false m = Ok (Threaded j) ->
  reachable false n p0 -> launch j p0 = Some p -> run false sched p = Some q -> main q = MIdle ->
  run_calls K (calls q) s = run_calls K (plain_calls m) s.
Proof.
  intros Hf Hx Hy [D1 D2 D3 D4 D5] Hn Hl Hr Hla Hrun Hm. unfold launchThreads in Hl.
  destruct (Z.geb_spec (Z.of_nat n) 1); [|done]. destruct (isThreadable m); [|done]. cbn [andb negb] in Hl.
  assert (Hfs : forall k, flat (with_slices m k)) by (intros k; destruct Hf; by split).
  destruct (fl_x _ Hf), (fl_y _ Hf). pose proof (fl_num _ Hf) as Hz.
  destruct (Z.gtb_spec (fp_dimY (fep m)) 1).
  - destruct (slice_size _ _ _ _) as [sz|] eqn:Es; [|done]. injection Hl as <-.
    apply slice_size_le in Es as [Hs1 Hs2]; [|lia|done].
    assert (Hok : job_ok n (mkJob wc_xy (with_slices m sz))) by (split; cbn; (lia || done)).
    destruct (launch_calls n _ p0 p sched q Hr Hok Hla Hrun Hm) as [Hp _].
    rewrite <- run_calls_erase by done. apply (rows_agree K (with_slices m sz)); [done|].
    rewrite Hp, (slices_rows n _ Hok) by done. do 2 f_equiv. cbn.
    pose proof (nsl_bounds n _ Hok (nsl (mkJob wc_xy (with_slices m sz)))) as Hb. cbn in Hb. apply Z.min_r.
    destruct (decide (yEnd m <= yStart m + Z.of_nat (nsl (mkJob wc_xy (with_slices m sz))) * sz)); [done|].
    pose proof (proj2 Hb ltac:(cbn; lia)). lia.
  - destruct (slice_size _ _ _ _) as [sz|] eqn:Es; [|done]. injection Hl as <-.
    apply slice_size_le in Es as [Hs1 Hs2]; [|lia|done].
    assert (Hok : job_ok n (mkJob wc_x (with_slices m sz))) by (split; cbn; (lia || done)).
    destruct (launch_calls n _ p0 p sched q Hr Hok Hla Hrun Hm) as [Hp _].
    rewrite <- run_calls_erase by done. apply (line_agree K n (mkJob wc_x (with_slices m sz))); try done; cbn; [apply Hfs|lia].
Qed.

(** The number of the kernel does not change what is called. *)
Lemma kernel_setup_frame fs ss slot m m' :
  forEachKernelSetup fs ss slot m = Ok m' ->
  plain_calls m' = plain_calls m /\ isThreadable m' = isThreadable m /\ (flat m -> flat m') /\ (two_dim m' -> two_dim m) /\
  xStart m' = xStart m /\ xEnd m' = xEnd m /\ yStart m' = yStart m /\ yEnd m' = yEnd m /\
  fp_dimX (fep m') = fp_dimX (fep m) /\ fp_dimY (fep m') = fp_dimY (fep m).
Proof.
  unfold forEachKernelSetup. intros H. fwd. split_and!; try done; intros []; by split.
Qed.


Lemma idle_launch count inF m :
  isThreadable m = false -> arrayStart m = 0 -> arrayEnd m = 0 -> launchThreads count inF m = Ok (Plain []).
Proof. intros Ht Ha Ha'. unfold launchThreads, plain_calls. by rewrite Ht, Ha, Ha', andb_false_r. Qed.

(** a launch whose set-up fails (no memory behind an allocation, no allocation at all,
    an empty range) calls no kernel, with or without helpers. *)
Theorem failed_setup_calls_nothing count inF thr W ain aout usr len sc W' m :
  forEachMtlsSetup W thr ain aout usr len sc = Ok (W', m) -> arrayEnd m = 0 -> launchThreads count inF m = Ok (Plain []).
Proof.
  intros Hs Ha. destruct (setup_cases _ _ _ _ _ _ _ _ _ Hs) as [(H1 & H2 & H3)|Hc]; [by apply idle_launch|].
  destruct Hc as (a & t & x0 & x1 & y0 & y1 & z0 & z1 & pin & ein & yin & pout & eout & yout & _ & _ & _ & _ & _ & _ & _ & _ & ->). done.
Qed.

(** The calls of a plan, without the numbers of the workers. *)
Definition plan_calls (p : plan) : list call := match p with Plain cs => erase <$> cs | Threaded j => slices_upto j (nsl j) end.

(** the threads do not look at the third dimension: of a launch over [zEnd > 1] slices
    that is given to the pool every call is for slice 0, where the plain loop calls the
    kernel for all of them. *)
Theorem threaded_skips_slices count m j :
  launchThreads count false m = Ok (Threaded j) -> fp_z (fep m) = 0 -> zStart m = 0 -> 1 < zEnd m ->
  arrayStart m < arrayEnd m -> yStart m < yEnd m ->
  Forall (fun c => c_z c = 0) (plan_calls (Threaded j)) /\ exists c, c ∈ plain_calls m /\ c_z c = 1.
Proof.
  intros Hl Hz Hz0 Hz1 Ha Hy. split.
  - assert (Hj : fp_z (fep (j_mtls j)) = 0).
    { unfold launchThreads in Hl. destruct (_ && _); [|done]. destruct (_ >? _); destruct (slice_size _ _ _ _); try done; by injection Hl as <-. }
    apply Forall_forall. intros c Hc. unfold plan_calls, slices_upto in Hc.
    apply list_elem_of_In, in_concat in Hc as (l & Hl' & Hc). apply list_elem_of_In, list_elem_of_fmap in Hl' as (i & -> & _).
    unfold slice_calls in Hc. destruct (_ <=? _); [done|]. unfold chunk in Hc. destruct (j_cb j).
    + apply list_elem_of_In, list_elem_of_fmap in Hc as (y & -> & _). done.
    + by destruct Hc as [<-|[]].
  - exists (plain_call m (arrayStart m) 1 (yStart m)). split; [|done]. unfold plain_calls.
    apply list_elem_of_bind. exists (arrayStart m). split; [|apply upto_elem; lia].
    apply list_elem_of_bind. exists 1. split; [|apply upto_elem; lia].
    apply list_elem_of_bind. exists (yStart m). split; [by left|apply upto_elem; lia].
Qed.

(** ** Bounds *)


(** The cells a call writes, from its output pointer on, lie in the first [size] bytes of [b]. *)
Definition writes_inside (b : block) (size : Z) (c : call) : Prop :=
  p_block (c_out c) = Some b /\ 0 <= p_off (c_out c) /\ p_off (c_out c) + c_outstep c * (c_x2 c - c_x1 c) <= size.

Lemma row_inside b base size st es r x0 x1 :
  base = mkPtr (Some b) 0 -> 0 <= es -> 0 <= r -> 0 <= x0 <= x1 -> es * x1 <= st -> st * (r + 1) <= size -> size < 2 ^ 32 ->
  let q := ptr_add (ptr_add base (st *u32 r)) (es *u32 x0) in
  p_block q = Some b /\ 0 <= p_off q /\ p_off q + es * (x1 - x0) <= size.
Proof.
  intros -> He Hr Hx Hst Hsz Hlt. cbn.
  pose proof (Z.mul_nonneg_nonneg es x0 He ltac:(lia)). pose proof (Z.mul_le_mono_nonneg_l x0 x1 es He ltac:(lia)).
  pose proof (Z.mul_nonneg_nonneg st r ltac:(lia) Hr). rewrite Z.mul_add_distr_l in Hsz. rewrite !u32_small by lia.
  rewrite Z.mul_sub_distr_l. split; [done|]. lia.
Qed.

Lemma level0_size esz t : type_fits esz t -> 1 <= dimX (t_mHal t) -> 1 <= esz ->
  let st := level_stride esz (dimX (t_mHal t)) 0 in
  16 <= st < 2 ^ 32 /\ esz * dimX (t_mHal t) <= st /\ st * (Z.max (dimY (t_mHal t)) 1 * Z.max (dimZ (t_mHal t)) 1) <= face_size esz t /\
  face_size esz t <= alloc_size esz t.
Proof.
  intros Hf Hx He st. pose proof Hf as [E1 (D1 & D2 & D3) E3 E4]. set (h := t_mHal t) in *.
  assert (Hd : forall d, 0 <= d -> level_dim d 0 = d) by (intros; by apply lod_dim_0).
  assert (Est : st = roundup 16 (dimX h * esz)) by (unfold st, level_stride; by rewrite Hd by lia).
  pose proof (roundup_bounds 16 (dimX h * esz) ltac:(lia)) as Hb. rewrite <- Est in Hb.
  assert (16 <= st). { destruct (roundup_divide 16 (dimX h * esz) ltac:(lia)) as [k Hk]. rewrite <- Est in Hk. nia. }
  assert (Hoff : level_size esz (dimX h) (dimY h) (dimZ h) 0 <= face_size esz t).
  { pose proof (level_off_mono esz _ (dimY h) (dimZ h) E1 D1 1 (Z.to_nat (lodCount h)) ltac:(lia)) as Hm. cbn [level_off] in Hm. unfold face_size. fold h. lia. }
  unfold level_size in Hoff. change (level_stride esz (dimX h) 0) with st in Hoff. rewrite !Hd in Hoff by lia. rewrite <- Z.mul_assoc in Hoff.
  assert (1 * 1 <= Z.max (dimY h) 1 * Z.max (dimZ h) 1) by (apply Z.mul_le_mono_nonneg; lia).
  assert (st * 1 <= st * (Z.max (dimY h) 1 * Z.max (dimZ h) 1)) by (apply Z.mul_le_mono_nonneg_l; nia).
  pose proof (face_size_nonneg _ _ Hf). unfold alloc_size. split_and!; try lia. destruct (faces _); lia.
Qed.

(** The output side of a set-up, for an allocation with memory of its own. *)
Lemma side_attached W a esz t b ld q e y :
  attached W a esz t b ld -> getType W a = Ok t -> getElementSizeBytes (w_ctx W) t = Ok esz -> side W (Some a) = Ok (q, e, y) ->
  1 <= dimX (t_mHal t) -> 1 <= esz -> q = mkPtr (Some b) 0 /\ e = esz /\ y = level_stride esz (dimX (t_mHal t)) 0.
Proof.
  intros Hat Ht He Hs Hx Hesz. pose proof (at_fits _ _ _ _ _ _ Hat) as Hf. pose proof (level0_size _ _ Hf Hx Hesz) as (Hst & _).
  pose proof (tf_count _ _ Hf). pose proof (tf_esz _ _ Hf).
  unfold side in Hs. rewrite (znth_lookup _ _ _ (ta_lod _ _ _ _ (at_table _ _ _ _ _ _ Hat) 0%nat ltac:(lia)) : znth _ 0 = _) in Hs.
  cbn [mbind outcome_bind] in Hs. rewrite Ht in Hs. cbn [mbind outcome_bind] in Hs. rewrite He in Hs. injection Hs as <- <- <-.
  cbn. by rewrite !u32_small by lia.
Qed.

(** What the types must satisfy: the output has the dimensions of the launch at least. *)
Record covers (t : Type_) (h : TypeHal) : Prop := {
  cv_x : 1 <= dimX h <= dimX (t_mHal t);
  cv_y : 0 <= dimY h <= dimY (t_mHal t);
  cv_z : 0 <= dimZ h <= dimZ (t_mHal t);
  cv_small : dimX h < 2 ^ 31 /\ dimY h < 2 ^ 31
}.

(** The output side of a launch over at most [rows] rows of [size] bytes in all. *)
Record out_side (b : block) (size : Z) (m : MTLaunchStruct) : Prop := {
  os_ptr : ptrOut (fep m) = mkPtr (Some b) 0;
  os_e : 0 <= eStrideOut (fep m);
  os_x : 0 <= xStart m < xEnd m /\ eStrideOut (fep m) * xEnd m <= yStrideOut (fep m) /\ xEnd m <= fp_dimX (fep m) < 2 ^ 31;
  os_y : 0 <= yStart m < yEnd m /\ yEnd m <= Z.max 1 (fp_dimY (fep m)) /\ 0 <= fp_dimY (fep m) < 2 ^ 31;
  os_z : 0 <= zStart m /\ zEnd m <= Z.max 1 (fp_dimZ (fep m)) /\ 0 <= fp_dimZ (fep m);
  os_ar : arrayStart m = 0 /\ arrayEnd m = 1;
  os_num : mSliceNum m = 0;
  os_rows : yStrideOut (fep m) * (Z.max 1 (fp_dimY (fep m)) * Z.max 1 (fp_dimZ (fep m))) <= size < 2 ^ 32;
  os_stride : 16 <= yStrideOut (fep m)
}.

Lemma row_index dy dz y z : 0 <= dy -> 0 <= z < Z.max 1 dz -> 0 <= y < Z.max 1 dy -> 0 <= dy * z + y < Z.max 1 dy * Z.max 1 dz.
Proof.
  intros Hd Hz Hy. assert (dy * z <= Z.max 1 dy * z) by (apply Z.mul_le_mono_nonneg_r; lia).
  assert (Z.max 1 dy * (z + 1) <= Z.max 1 dy * Z.max 1 dz) by (apply Z.mul_le_mono_nonneg_l; lia).
  pose proof (Z.mul_nonneg_nonneg dy z). lia.
Qed.

Lemma plain_inside b size m : out_side b size m -> Forall (writes_inside b size) (erase <$> plain_calls m).
Proof.
  intros [Hp He (Hx & Hex & _) (Hy & Hy' & Hd) (Hz & Hz' & Hdz) [Ha Ha'] _ [Hr Hlt] Hst]. apply Forall_fmap, Forall_forall. intros c Hc.
  unfold plain_calls in Hc. rewrite Ha, Ha' in Hc. apply list_elem_of_bind in Hc as (ar & Hc & Har). apply upto_elem in Har. assert (ar = 0) as -> by lia.
  apply list_elem_of_bind in Hc as (z & Hc & Hzz). apply upto_elem in Hzz. apply list_elem_of_bind in Hc as (y & Hc & Hyy). apply upto_elem in Hyy.
  apply list_elem_of_singleton in Hc as ->. pose proof (row_index (fp_dimY (fep m)) (fp_dimZ (fep m)) y z ltac:(lia) ltac:(lia) ltac:(lia)) as Hri.
  set (rows := Z.max 1 (fp_dimY (fep m)) * Z.max 1 (fp_dimZ (fep m))) in *.
  assert (Hrows : 16 * rows <= yStrideOut (fep m) * rows) by (apply Z.mul_le_mono_nonneg_r; lia).
  pose proof (Z.mul_nonneg_nonneg (fp_dimY (fep m)) z ltac:(lia) ltac:(lia)) as Hdz0.
  unfold writes_inside, plain_call. cbn. rewrite Z.mul_0_r. change (u32 0) with 0. rewrite Z.add_0_l.
  rewrite (u32_small (fp_dimY (fep m) * z)) by lia. rewrite (u32_small (_ + y)) by lia.
  apply (row_inside b (ptrOut (fep m)) size); try done; try lia.
  transitivity (yStrideOut (fep m) * rows); [apply Z.mul_le_mono_nonneg_l; lia|lia].
Qed.

Lemma slices_inside b size m count inF j :
  out_side b size m -> 0 <= count < 2 ^ 28 -> launchThreads count inF m = Ok (Threaded j) -> Forall (writes_inside b size) (slices_upto j (nsl j)).
Proof.
  intros [Hp He (Hx & Hex & Hdx) (Hy & Hy' & Hd) (Hz & Hz' & Hdz) [Ha Ha'] Hnum [Hr Hlt] Hst] Hc Hl. unfold launchThreads in Hl.
  destruct (Z.geb_spec count 1); [|done]. destruct (_ && _); [|done].
  set (rows := Z.max 1 (fp_dimY (fep m)) * Z.max 1 (fp_dimZ (fep m))) in *.
  assert (Hdy : Z.max 1 (fp_dimY (fep m)) * 1 <= rows) by (apply Z.mul_le_mono_nonneg_l; lia).
  assert (Hrow : forall r x0 x1, 0 <= r < Z.max 1 (fp_dimY (fep m)) -> 0 <= x0 <= x1 -> x1 <= xEnd m ->
    let q := ptr_add (ptr_add (ptrOut (fep m)) (yStrideOut (fep m) *u32 r)) (eStrideOut (fep m) *u32 x0) in
    p_block q = Some b /\ 0 <= p_off q /\ p_off q + eStrideOut (fep m) * (x1 - x0) <= size).
  { intros r x0 x1 Hrr Hxx Hx1. apply (row_inside b); try done; try lia.
    - transitivity (eStrideOut (fep m) * xEnd m); [apply Z.mul_le_mono_nonneg_l; lia|lia].
    - transitivity (yStrideOut (fep m) * rows); [apply Z.mul_le_mono_nonneg_l; lia|lia]. }
  destruct (Z.gtb_spec (fp_dimY (fep m)) 1).
  - destruct (slice_size _ _ _ _) as [sz|] eqn:Es; [|done]. injection Hl as <-. apply slice_size_le in Es as [Hs1 Hs2]; [|lia|lia].
    assert (Hok : job_ok (Z.to_nat count) (mkJob wc_xy (with_slices m sz))) by (split; cbn; rewrite ?Z2Nat.id by lia; (lia || done)).
    rewrite (slices_rows _ _ Hok) by done. apply Forall_fmap, Forall_forall. intros y Hyy. apply upto_elem in Hyy. cbn in Hyy.
    apply Hrow; cbn; lia.
  - destruct (slice_size _ _ _ _) as [sz|] eqn:Es; [|done]. injection Hl as <-. apply slice_size_le in Es as [Hs1 Hs2]; [|lia|lia].
    assert (Hok : job_ok (Z.to_nat count) (mkJob wc_x (with_slices m sz))) by (split; cbn; rewrite ?Z2Nat.id by lia; (lia || done)).
    apply Forall_forall. intros c Hcc. unfold slices_upto in Hcc.
    apply list_elem_of_In, in_concat in Hcc as (l & Hl & Hcc). apply list_elem_of_In, list_elem_of_fmap in Hl as (i & -> & Hi). apply elem_of_seq in Hi.
    unfold slice_calls in Hcc. rewrite (slice_live _ _ Hok) in Hcc by lia. destruct (Nat.ltb_spec i (nsl (mkJob wc_x (with_slices m sz)))); [|lia].
    destruct (slice_exact _ _ Hok i ltac:(lia)) as [Ef Et]. cbn in Hcc, Ef, Et. destruct Hcc as [<-|[]]. unfold writes_inside, cells_call. cbn.
    pose proof (proj1 (nsl_bounds _ _ Hok i) ltac:(lia)) as Hlt'. cbn in Hlt'.
    pose proof (Z.mul_nonneg_nonneg (Z.of_nat i) sz ltac:(lia) ltac:(lia)).
    rewrite Ef, Et. pose proof (Hrow 0 (xStart m + Z.of_nat i * sz) (Z.min (xStart m + (Z.of_nat i + 1) * sz) (xEnd m)) ltac:(lia) ltac:(lia) ltac:(lia)) as Hq.
    cbn in Hq. rewrite Z.mul_0_r in Hq. change (u32 0) with 0 in Hq. by rewrite Z.add_0_r in Hq.
Qed.


(** ** Examples *)

(** A kernel that adds the row number, counted from one, for every cell. *)
Definition ex_kernel (c : call) (s : Z) : Z := s + (c_x2 c - c_x1 c) * (c_y c + 1).

#[global] Instance ex_kernel_cells : CellKernel ex_kernel.
Proof. split; intros; unfold ex_kernel; cbn; lia. Qed.

Lemma Ok_inj {A} (a b : A) : Ok a = Ok b -> a = b.
Proof. by intros [= ->]. Qed.

(** An 8 by 8 image, processed in place by the owner of the pool; the helper comes late. *)
Definition ex_W : world := (ex_init 8 8 0 true false).1.
Definition ex_a : Allocation := (ex_init 8 8 0 true false).2.
Definition ex_plan (count : Z) : outcome (world * plan) := invokeForEach count false true [7] [0] ex_W 0 None (Some ex_a) NULL 0 None.
Definition ex_plan_job : job := match ex_plan 1 with Ok (_, Threaded j) => j | _ => ex_job end.
Definition ex_plan_launched : pool := default (init 1) (launch ex_plan_job ex_idle).
Definition ex_plan_sched : list actor := replicate 20 AMain ++ replicate 4 (AHelper 0) ++ [AMain].
Definition ex_plan_done : pool := default (init 1) (run false ex_plan_sched ex_plan_launched).


Lemma failed_setup_calls_nothing_witness : launchThreads 3 false mtls_zero = Ok (Plain []).
Proof. apply (failed_setup_calls_nothing 3 false true ex_W None None NULL 0 None (setError ex_W RS_ERROR_BAD_SCRIPT)); reflexivity. Defined.

Definition ex_volume_mtls : MTLaunchStruct :=
  mkMtls (mkFep NULL NULL NULL 0 0 0 0 0 4 4 4 NULL (mkPtr (Some 3%positive) 0) 0 4 0 16 0) 0 0 1 0 true 0 4 0 4 0 4 0 1.

Lemma threaded_skips_slices_witness :
  Forall (fun c => c_z c = 0) (plan_calls (Threaded (mkJob wc_xy (with_slices ex_volume_mtls 1)))) /\ exists c, c ∈ plain_calls ex_volume_mtls /\ c_z c = 1.
Proof. apply (threaded_skips_slices 1); reflexivity. Defined.


End Launch.
