(* ===== verification/ScriptGroup.v ===== *)
(** * ScriptGroup: groups of kernels ([rsScriptGroup.cpp])

    The nodes of a group, one per script, the order in which they run, the allocations
    that carry the data between kernels, and the launches of an execution.  Kernel and
    field objects are looked up in a table; an allocation is a number.  The reference
    counts the group holds on its members are not part of this model. *)

From stdpp Require Import sorting.
From S2P Require Import Prelude.

Module ScriptGroup.

(** ** Data *)

Record ScriptKernelID := mkKernel { k_mScript : Z; k_mSlot : Z; mHasKernelInput : bool; mHasKernelOutput : bool }.
Record ScriptFieldID := mkField { f_mScript : Z; f_mSlot : Z }.

Record Link := mkLink {
  mSource : option positive; mDstKernel : option positive; mDstField : option positive; mType : Z; mAlloc : option positive
}.

(** The links of a node are numbers of links of the group: both see the same object. *)
Record Node := mkNode {
  n_mKernels : list positive; n_mOutputs : list nat; n_mInputs : list nat; mSeen : bool; mOrder : Z; mScript : Z
}.

Record IO := mkIO { mKernel : positive; io_mAlloc : option positive }.

Record ScriptGroup := mkGroup {
  mKernels : list (option positive); mLinks : list Link; mNodes : list Node; mInputs : list IO; mOutputs : list IO
}.

Definition new_node (s : Z) : Node := mkNode [] [] [] false 0 s.
Definition add_kernel (n : Node) (k : positive) : Node :=
  mkNode (n_mKernels n ++ [k]) (n_mOutputs n) (n_mInputs n) (mSeen n) (mOrder n) (mScript n).
Definition add_output (n : Node) (l : nat) : Node :=
  mkNode (n_mKernels n) (n_mOutputs n ++ [l]) (n_mInputs n) (mSeen n) (mOrder n) (mScript n).
Definition add_input (n : Node) (l : nat) : Node :=
  mkNode (n_mKernels n) (n_mOutputs n) (n_mInputs n ++ [l]) (mSeen n) (mOrder n) (mScript n).
Definition set_seen (n : Node) (b : bool) : Node :=
  mkNode (n_mKernels n) (n_mOutputs n) (n_mInputs n) b (mOrder n) (mScript n).
Definition raise_order (n : Node) (d : Z) : Node :=
  mkNode (n_mKernels n) (n_mOutputs n) (n_mInputs n) (mSeen n) (if mOrder n <? d then d else mOrder n) (mScript n).
Definition set_alloc (l : Link) (a : option positive) : Link := mkLink (mSource l) (mDstKernel l) (mDstField l) (mType l) a.

Section group.
(** The kernel and field objects. *)
Context (KT : gmap positive ScriptKernelID) (FT : gmap positive ScriptFieldID).

Definition kernel_at (k : option positive) : outcome (positive * ScriptKernelID) :=
  match k with None => Fault NullDeref | Some i => x ← of_option UseAfterFree (KT !! i); Ok (i, x) end.
Definition field_at (f : option positive) : outcome ScriptFieldID :=
  match f with None => Fault NullDeref | Some i => of_option UseAfterFree (FT !! i) end.

(** ** Nodes *)

Fixpoint has_script (ks : list positive) (s : Z) : outcome bool :=
  match ks with
  | [] => Ok false
  | k :: r => '(_, x) ← kernel_at (Some k); if k_mScript x =? s then Ok true else has_script r s
  end.

(** [findNode]: the number of the node, counted from [i]. *)
Fixpoint findNode_from (i : nat) (ns : list Node) (s : Z) : outcome (option nat) :=
  match ns with
  | [] => Ok None
  | n :: r => b ← has_script (n_mKernels n) s; if (b : bool) then Ok (Some i) else findNode_from (S i) r s
  end.
Definition findNode (ns : list Node) (s : Z) : outcome (option nat) := findNode_from 0 ns s.

(** The node of a script that is dereferenced. *)
Definition the_node (ns : list Node) (s : Z) : outcome nat := o ← findNode ns s; of_option NullDeref o.

Definition upd_node (ns : list Node) (i : nat) (f : Node -> Node) : outcome (list Node) :=
  n ← of_option OutOfBounds (ns !! i); Ok (<[i := f n]> ns).

(** "Make nodes" *)
Fixpoint make_nodes (ks : list (option positive)) (ns : list Node) : outcome (list Node) :=
  match ks with
  | [] => Ok ns
  | k :: r =>
      '(k, x) ← kernel_at k;
      o ← findNode ns (k_mScript x);
      let '(i, ns) := match o with Some i => (i, ns) | None => (length ns, ns ++ [new_node (k_mScript x)]) end in
      ns ← upd_node ns i (fun n => add_kernel n k);
      make_nodes r ns
  end.

(** "add links": link number [ct] and the following ones. *)
Fixpoint add_links (ct : nat) (ls : list Link) (ns : list Node) : outcome (list Node) :=
  match ls with
  | [] => Ok ns
  | l :: r =>
      '(_, src) ← kernel_at (mSource l);
      i ← the_node ns (k_mScript src);
      ns ← upd_node ns i (fun n => add_output n ct);
      s ← match mDstKernel l with
          | Some k => '(_, x) ← kernel_at (Some k); Ok (k_mScript x)
          | None => f ← field_at (mDstField l); Ok (f_mScript f)
          end;
      i ← the_node ns s;
      ns ← upd_node ns i (fun n => add_input n ct);
      add_links (S ct) r ns
  end.

(** The script a link leads to, as [calcOrderRecurse] finds it. *)
Definition dst_script (l : Link) : outcome Z :=
  match mDstField l with
  | Some f => x ← field_at (Some f); Ok (f_mScript x)
  | None => '(_, x) ← kernel_at (mDstKernel l); Ok (k_mScript x)
  end.

(** The loop over the outputs of node [n]; [recurse] is the recursive call. *)
Fixpoint visit_outputs (recurse : list Node -> nat -> Z -> outcome (bool * list Node)) (ls : list Link) (n : nat) (outs : list nat)
    (ns : list Node) (ret : bool) : outcome (bool * list Node) :=
  match outs with
  | [] => Ok (ret, ns)
  | l :: outs =>
      l ← of_option OutOfBounds (ls !! l);
      s ← dst_script l;
      nt ← the_node ns s;
      t ← of_option OutOfBounds (ns !! nt);
      if mSeen t then Ok (false, ns)
      else
        x ← of_option OutOfBounds (ns !! n);
        '(r, ns) ← recurse ns nt (mOrder x + 1);
        visit_outputs recurse ls n outs ns (ret && r)
  end.

(** [calcOrderRecurse]; a call marks a node that was not marked, so more fuel than there
    are unmarked nodes never runs out. *)
Fixpoint calcOrderRecurse (fuel : nat) (ls : list Link) (ns : list Node) (n : nat) (depth : Z) : outcome (bool * list Node) :=
  match fuel with
  | O => Fault OutOfFuel
  | S fuel =>
      ns ← upd_node ns n (fun x => raise_order (set_seen x true) depth);
      x ← of_option OutOfBounds (ns !! n);
      visit_outputs (calcOrderRecurse fuel ls) ls n (n_mOutputs x) ns true
  end.

(** "Order nodes": node number [ct] and the [k] - 1 following ones. *)
Fixpoint order_nodes (k ct : nat) (ls : list Link) (ns : list Node) (ret : bool) : outcome (bool * list Node) :=
  match k with
  | O => Ok (ret, ns)
  | S k =>
      n ← of_option OutOfBounds (ns !! ct);
      '(ret, ns) ← (match n_mInputs n with
                    | [] => '(r, ns) ← calcOrderRecurse (S (length ns)) ls ((fun n => set_seen n false) <$> ns) ct 0; Ok (ret && r, ns)
                    | _ => Ok (ret, ns)
                    end);
      order_nodes k (S ct) ls ns ret
  end.

Fixpoint any_link (ls : list Link) (ixs : list nat) (end_ : Link -> option positive) (k : positive) : outcome bool :=
  match ixs with
  | [] => Ok false
  | i :: r => l ← of_option OutOfBounds (ls !! i); if decide (end_ l = Some k) then Ok true else any_link ls r end_ k
  end.

(** The kernels whose input or output no link provides become inputs and outputs of the group. *)
Fixpoint make_ios (ks : list (option positive)) (ls : list Link) (ns : list Node) (ins outs : list IO) : outcome (list IO * list IO) :=
  match ks with
  | [] => Ok (ins, outs)
  | k :: r =>
      '(k, x) ← kernel_at k;
      i ← the_node ns (k_mScript x);
      n ← of_option OutOfBounds (ns !! i);
      outs ← (if mHasKernelOutput x then
                found ← any_link ls (n_mOutputs n) mSource k; Ok (if (found : bool) then outs else outs ++ [mkIO k None])
              else Ok outs);
      ins ← (if mHasKernelInput x then
               found ← any_link ls (n_mInputs n) mDstKernel k; Ok (if (found : bool) then ins else ins ++ [mkIO k None])
             else Ok ins);
      make_ios r ls ns ins outs
  end.

(** The sort of the library: [before] is the order asked for. *)
Context (sort : (Node -> Node -> bool) -> list Node -> list Node).

(** [CompareNodeForSort] of the full build puts small orders first; [NodeCompare] of the
    compatibility and server builds answers whether its left argument goes first. *)
Definition CompareNodeForSort (lhs rhs : Node) : bool := mOrder rhs >? mOrder lhs.
Definition NodeCompare (lhs rhs : Node) : bool := mOrder lhs >? mOrder rhs.

Definition calcOrder (compat : bool) (g : ScriptGroup) : outcome (bool * ScriptGroup) :=
  ns ← make_nodes (mKernels g) (mNodes g);
  ns ← add_links 0 (mLinks g) ns;
  '(ret, ns) ← order_nodes (length ns) 0 (mLinks g) ns true;
  '(ins, outs) ← make_ios (mKernels g) (mLinks g) ns (mInputs g) (mOutputs g);
  Ok (ret, mkGroup (mKernels g) (mLinks g) (sort (if compat then NodeCompare else CompareNodeForSort) ns) ins outs).

(** ** Creation *)

(** Allocations made so far, with their types; [alloc_ok] says for which types memory
    can be had. *)
Record allocs := mkAllocs { a_next : positive; a_types : gmap positive Z }.
Context (alloc_ok : Z -> bool).

Definition createAllocation (st : allocs) (ty : Z) : option positive * allocs :=
  if alloc_ok ty then (Some (a_next st), mkAllocs (Pos.succ (a_next st)) (<[a_next st := ty]> (a_types st))) else (None, st).

Definition upd_link (ls : list Link) (i : nat) (f : Link -> Link) : outcome (list Link) :=
  l ← of_option OutOfBounds (ls !! i); Ok (<[i := f l]> ls).

(** The later outputs of the node with the same source get the same allocation. *)
Fixpoint share_alloc (outs : list nat) (src : option positive) (a : option positive) (ls : list Link) : outcome (list Link) :=
  match outs with
  | [] => Ok ls
  | i :: r =>
      l ← of_option OutOfBounds (ls !! i);
      ls ← (if decide (mSource l = src) then upd_link ls i (fun l => set_alloc l a) else Ok ls);
      share_alloc r src a ls
  end.

Fixpoint alloc_outputs (outs : list nat) (ls : list Link) (st : allocs) : outcome (list Link * allocs) :=
  match outs with
  | [] => Ok (ls, st)
  | i :: r =>
      l ← of_option OutOfBounds (ls !! i);
      '(ls, st) ← (match mAlloc l with
                   | Some _ => Ok (ls, st)
                   | None =>
                       let '(a, st) := createAllocation st (mType l) in
                       ls ← upd_link ls i (fun l => set_alloc l a);
                       ls ← share_alloc r (mSource l) a ls;
                       Ok (ls, st)
                   end);
      alloc_outputs r ls st
  end.

(** "allocate links" *)
Fixpoint alloc_links (ns : list Node) (ls : list Link) (st : allocs) : outcome (list Link * allocs) :=
  match ns with
  | [] => Ok (ls, st)
  | n :: r => '(ls, st) ← alloc_outputs (n_mOutputs n) ls st; alloc_links r ls st
  end.

Definition sizeof_pointer : Z := 8.

Fixpoint read_all {A} (l : list A) (n : nat) (ct : Z) : outcome (list A) :=
  match n with O => Ok [] | S n => x ← znth l ct; r ← read_all l n (ct + 1); Ok (x :: r) end.

Fixpoint make_links (n : nat) (ct : Z) (src dstK dstF : list (option positive)) (type : list Z) : outcome (list Link) :=
  match n with
  | O => Ok []
  | S n =>
      t ← znth type ct; s ← znth src ct; f ← znth dstF ct; k ← znth dstK ct;
      r ← make_links n (ct + 1) src dstK dstF type;
      Ok (mkLink s k f t None :: r)
  end.

(** The kernels and links [ScriptGroup::create] is given. *)
Definition new_group (kernels : list (option positive)) (kernelsSize : Z) (src dstK dstF : list (option positive))
    (type : list Z) (typeSize : Z) : outcome ScriptGroup :=
  let kernelCount := kernelsSize / sizeof_pointer in
  let linkCount := typeSize / sizeof_pointer in
  ks ← read_all kernels (Z.to_nat kernelCount) 0;
  ls ← make_links (Z.to_nat linkCount) 0 src dstK dstF type;
  Ok (mkGroup ks ls [] [] []).

(** [ScriptGroup::create]: the result of [calcOrder] is not looked at. *)
Definition create (compat : bool) (st : allocs) (kernels : list (option positive)) (kernelsSize : Z) (src dstK dstF : list (option positive))
    (type : list Z) (typeSize : Z) : outcome (ScriptGroup * allocs) :=
  g ← new_group kernels kernelsSize src dstK dstF type typeSize;
  '(_, g) ← calcOrder compat g;
  '(ls, st) ← alloc_links (mNodes g) (mLinks g) st;
  Ok (mkGroup (mKernels g) ls (mNodes g) (mInputs g) (mOutputs g), st).

(** ** Use *)

Fixpoint set_io (ios : list IO) (kid : positive) (a : option positive) : list IO :=
  match ios with
  | [] => []
  | io :: r => if decide (mKernel io = kid) then mkIO (mKernel io) a :: r else io :: set_io r kid a
  end.

Definition setInput (g : ScriptGroup) (kid : positive) (a : option positive) : ScriptGroup :=
  mkGroup (mKernels g) (mLinks g) (mNodes g) (set_io (mInputs g) kid a) (mOutputs g).
Definition setOutput (g : ScriptGroup) (kid : positive) (a : option positive) : ScriptGroup :=
  mkGroup (mKernels g) (mLinks g) (mNodes g) (mInputs g) (set_io (mOutputs g) kid a).

(** The last link of [ixs] that has [k] at the given end decides. *)
Fixpoint link_alloc (ls : list Link) (ixs : list nat) (end_ : Link -> option positive) (k : positive) (a : option positive)
    : outcome (option positive) :=
  match ixs with
  | [] => Ok a
  | i :: r => l ← of_option OutOfBounds (ls !! i); link_alloc ls r end_ k (if decide (end_ l = Some k) then mAlloc l else a)
  end.
Fixpoint io_alloc (ios : list IO) (k : positive) (a : option positive) : option positive :=
  match ios with [] => a | io :: r => io_alloc r k (if decide (mKernel io = k) then io_mAlloc io else a) end.
Definition has_io (ios : list IO) (k : positive) : bool := existsb (fun io => bool_decide (mKernel io = k)) ios.

(** A kernel of an execution with its input and output and whether they come from outside
    the group. *)
Record kernel_run := mkRun { r_kernel : positive; r_script : Z; r_slot : Z; r_in : option positive; r_out : option positive; r_inExt : bool; r_outExt : bool }.

Definition run_of (g : ScriptGroup) (n : Node) (k : positive) : outcome kernel_run :=
  '(_, x) ← kernel_at (Some k);
  ain ← link_alloc (mLinks g) (n_mInputs n) mDstKernel k None;
  aout ← link_alloc (mLinks g) (n_mOutputs n) mSource k None;
  Ok (mkRun k (k_mScript x) (k_mSlot x) (io_alloc (mInputs g) k ain) (io_alloc (mOutputs g) k aout) (has_io (mInputs g) k) (has_io (mOutputs g) k)).

Fixpoint node_runs (g : ScriptGroup) (n : Node) (ks : list positive) : outcome (list kernel_run) :=
  match ks with [] => Ok [] | k :: r => x ← run_of g n k; rs ← node_runs g n r; Ok (x :: rs) end.

(** [ScriptGroup::execute] without a driver function: the launches in order. *)
Fixpoint runs_of (g : ScriptGroup) (ns : list Node) : outcome (list kernel_run) :=
  match ns with [] => Ok [] | n :: r => x ← node_runs g n (n_mKernels n); xs ← runs_of g r; Ok (x ++ xs) end.
Definition execute (g : ScriptGroup) : outcome (list kernel_run) := runs_of g (mNodes g).

(** ** The CPU driver ([cpu_ref/rsCpuScriptGroup.cpp]) *)

(** Which scripts have global objects. *)
Context (hasObjectSlots : Z -> bool).

(** The field inputs of a node are bound before its kernels run: script, slot, allocation. *)
Fixpoint bind_fields (ls : list Link) (s : Z) (ixs : list nat) : outcome (list (Z * Z * option positive)) :=
  match ixs with
  | [] => Ok []
  | i :: r =>
      l ← of_option OutOfBounds (ls !! i);
      b ← (match mDstField l with
           | Some f => x ← field_at (Some f); Ok (if f_mScript x =? 0 then [] else [(s, f_mSlot x, mAlloc l)])
           | None => Ok []
           end);
      bs ← bind_fields ls s r;
      Ok (b ++ bs)
  end.

(** Does an output of [k] lead to a field of a script? *)
Fixpoint feeds_field (ls : list Link) (ixs : list nat) (k : positive) : outcome bool :=
  match ixs with
  | [] => Ok false
  | i :: r =>
      l ← of_option OutOfBounds (ls !! i);
      b ← feeds_field ls r k;
      Ok (bool_decide (mSource l = Some k) && bool_decide (is_Some (mDstField l)) || b)
  end.

(** A kernel runs only if it has the input and the output it wants. *)
Definition runnable (x : ScriptKernelID) (r : kernel_run) : bool :=
  Bool.eqb (mHasKernelOutput x) (bool_decide (is_Some (r_out r))) && Bool.eqb (mHasKernelInput x) (bool_decide (is_Some (r_in r))).

Fixpoint cpu_kernels (g : ScriptGroup) (n : Node) (ks : list positive) : outcome (list kernel_run * bool) :=
  match ks with
  | [] => Ok ([], false)
  | k :: r =>
      '(_, x) ← kernel_at (Some k);
      run ← run_of g n k;
      dep ← feeds_field (mLinks g) (n_mOutputs n) k;
      '(rs, d) ← cpu_kernels g n r;
      Ok (if runnable x run then run :: rs else rs, hasObjectSlots (k_mScript x) || dep || d)
  end.

Fixpoint cpu_nodes (g : ScriptGroup) (ns : list Node) : outcome (list (Z * Z * option positive) * list kernel_run * bool) :=
  match ns with
  | [] => Ok ([], [], false)
  | n :: r =>
      k ← of_option OutOfBounds (head (n_mKernels n));
      '(_, x) ← kernel_at (Some k);
      let s := k_mScript x in
      bs ← bind_fields (mLinks g) s (n_mInputs n);
      '(rs, dep) ← cpu_kernels g n (n_mKernels n);
      '(bs', rs', dep') ← cpu_nodes g r;
      Ok (bs ++ bs', rs ++ rs', hasObjectSlots s || dep || dep')
  end.

(** How [CpuScriptGroupImpl::execute] runs a group: one launch per kernel, or one launch
    for all kernels, which needs a first one. *)
Inductive group_plan := OneByOne (rs : list kernel_run) | Fused (r : kernel_run) (rs : list kernel_run).

Definition cpu_execute (g : ScriptGroup) : outcome (list (Z * Z * option positive) * group_plan) :=
  '(bs, rs, dep) ← cpu_nodes g (mNodes g);
  if (dep : bool) then Ok (bs, OneByOne rs)
  else match rs with [] => Fault OutOfBounds | r :: rs => Ok (bs, Fused r rs) end.

(** ** The order of the nodes *)

(** Ordering changes the marks and the orders of nodes, nothing else. *)
Definition shape (n : Node) := (n_mKernels n, n_mOutputs n, n_mInputs n, mScript n).
Definition same_shape (ns ns' : list Node) : Prop := shape <$> ns = shape <$> ns'.

(** The node link number [l] leads to. *)
Definition target (ls : list Link) (ns : list Node) (l : nat) : outcome nat :=
  l ← of_option OutOfBounds (ls !! l); s ← dst_script l; the_node ns s.

Definition edge (ls : list Link) (ns : list Node) (a b : nat) : Prop :=
  exists x l, ns !! a = Some x /\ l ∈ n_mOutputs x /\ target ls ns l = Ok b.

Lemma shape_lookup ns ns' i x : same_shape ns ns' -> ns !! i = Some x -> exists x', ns' !! i = Some x' /\ shape x' = shape x.
Proof.
  intros Hs Hx. assert (E : (shape <$> ns) !! i = Some (shape x)) by (by rewrite list_lookup_fmap, Hx). rewrite Hs in E.
  rewrite list_lookup_fmap in E. destruct (ns' !! i) as [x'|]; [|done]. injection E as E1 E2 E3 E4. exists x'. split; [done|].
  unfold shape. congruence.
Qed.

Lemma findNode_shape ns ns' i s : same_shape ns ns' -> findNode_from i ns s = findNode_from i ns' s.
Proof.
  revert ns' i. induction ns as [|x ns IH]; intros [|x' ns'] i Hs; try done. injection Hs as E1 E2 E3 E4 Hs.
  cbn. rewrite E1. destruct (has_script _ _) as [[]|]; cbn; try done. by apply IH.
Qed.

Lemma target_shape ls ns ns' l : same_shape ns ns' -> target ls ns l = target ls ns' l.
Proof.
  intros Hs. unfold target. destruct (of_option _ _) as [x|]; [|done]. cbn. destruct (dst_script x) as [s|]; [|done]. cbn.
  unfold the_node, findNode. by rewrite (findNode_shape ns ns').
Qed.

Lemma edge_shape ls ns ns' a b : same_shape ns ns' -> edge ls ns a b -> edge ls ns' a b.
Proof.
  intros Hs (x & l & Hx & Hl & Ht). destruct (shape_lookup _ _ _ _ Hs Hx) as (x' & Hx' & Esh). exists x', l.
  split; [done|]. injection Esh as _ E _ _. rewrite E. split; [done|]. by rewrite <- (target_shape ls ns ns').
Qed.

(** What a part of the search does: marked nodes stay as they are, orders grow, unmarked
    nodes are untouched; and if it succeeds, the links of every node it marked lead to
    marked nodes of higher order. *)
Record visited (ls : list Link) (ns ns' : list Node) (r : bool) : Prop := {
  vi_shape : same_shape ns ns';
  vi_kept : forall i x, ns !! i = Some x -> mSeen x = true -> ns' !! i = Some x;
  vi_mono : forall i x x', ns !! i = Some x -> ns' !! i = Some x' -> mOrder x <= mOrder x' /\ (mSeen x' = false -> x' = x);
  vi_edges : r = true -> forall i x x' b, ns !! i = Some x -> mSeen x = false -> ns' !! i = Some x' -> mSeen x' = true -> edge ls ns i b ->
    exists y, ns' !! b = Some y /\ mSeen y = true /\ mOrder x' < mOrder y
}.

Lemma visited_refl ls ns r : visited ls ns ns r.
Proof.
  split; [done|done| |].
  - intros i x x' Hx Hx'. simplify_eq. split; [lia|done].
  - intros _ i x x' b Hx Hs Hx' Hs'. simplify_eq. congruence.
Qed.

Lemma visited_trans ls ns1 ns2 ns3 r1 r2 : visited ls ns1 ns2 r1 -> visited ls ns2 ns3 r2 -> visited ls ns1 ns3 (r1 && r2).
Proof.
  intros [A1 A2 A3 A4] [B1 B2 B3 B4]. split.
  - unfold same_shape in *. by rewrite A1.
  - intros i x Hx Hs. apply B2; [|done]. by apply A2.
  - intros i x x' Hx Hx'. destruct (shape_lookup _ _ _ _ A1 Hx) as (y & Hy & _).
    destruct (A3 i x y Hx Hy) as [A A'], (B3 i y x' Hy Hx') as [B B']. split; [lia|]. intros Hs.
    pose proof (B' Hs). subst x'. by apply A'.
  - intros [Hr1 Hr2]%andb_true_iff i x x' b Hx Hs Hx' Hs' He.
    destruct (shape_lookup _ _ _ _ A1 Hx) as (y & Hy & _). destruct (mSeen y) eqn:Ey.
    + pose proof (B2 i y Hy Ey) as E. rewrite E in Hx'. injection Hx' as <-. destruct (A4 Hr1 i x y b Hx Hs Hy Ey He) as (z & Hz & Hzs & Ho).
      exists z. split; [by apply B2|done].
    + apply (B4 Hr2 i y x' b Hy Ey Hx' Hs'). by eapply edge_shape.
Qed.

Lemma upd_node_Ok ns i f ns' : upd_node ns i f = Ok ns' -> exists x, ns !! i = Some x /\ ns' = <[i := f x]> ns.
Proof. unfold upd_node. destruct (ns !! i) as [x|]; [|done]. cbn. intros [= <-]. eauto. Qed.

Section search.
Context (ls : list Link).

(** What the recursive call promises. *)
Definition recurse_ok (recurse : list Node -> nat -> Z -> outcome (bool * list Node)) : Prop :=
  forall ns n d r ns' x, recurse ns n d = Ok (r, ns') -> ns !! n = Some x -> mSeen x = false ->
    visited ls ns ns' r /\ exists x', ns' !! n = Some x' /\ mSeen x' = true /\ d <= mOrder x'.

Lemma visit_outputs_ok recurse n outs ns ret r ns' x :
  recurse_ok recurse -> visit_outputs recurse ls n outs ns ret = Ok (r, ns') -> ns !! n = Some x -> mSeen x = true ->
  visited ls ns ns' r /\ (r = true -> ret = true /\ forall l b, l ∈ outs -> target ls ns l = Ok b ->
    exists y, ns' !! b = Some y /\ mSeen y = true /\ mOrder x < mOrder y).
Proof.
  intros Hrec. revert ns ret. induction outs as [|l outs IH]; intros ns ret Hv Hx Hs; cbn in Hv.
  - injection Hv as <- <-. split; [apply visited_refl|]. intros ->. split; [done|]. intros l b Hl. by apply elem_of_nil in Hl.
  - destruct (ls !! l) as [lk|] eqn:El; [|done]. cbn in Hv. destruct (dst_script lk) as [s|] eqn:Ed; [|done]. cbn in Hv.
    destruct (the_node ns s) as [nt|] eqn:En; [|done]. cbn in Hv. destruct (ns !! nt) as [t|] eqn:Et; [|done]. cbn in Hv.
    assert (Htg : target ls ns l = Ok nt) by (unfold target; rewrite El; cbn; by rewrite Ed).
    destruct (mSeen t) eqn:Est.
    + injection Hv as <- <-. split; [apply visited_refl|done].
    + rewrite Hx in Hv. cbn in Hv. destruct (recurse _ _ _) as [[r1 ns1]|] eqn:Er; [|done]. cbn in Hv.
      destruct (Hrec _ _ _ _ _ _ Er Et Est) as (Hvis & t' & Ht' & Hst' & Hot').
      pose proof (vi_kept _ _ _ _ Hvis n x Hx Hs) as Hx1.
      destruct (IH ns1 _ Hv Hx1 Hs) as [Hvis' Hall]. split.
      { destruct r; [destruct (Hall eq_refl) as [[_ Hr1]%andb_true_iff _]; subst r1|]; by apply (visited_trans ls ns ns1 ns' _ _ Hvis) in Hvis'; try rewrite andb_false_r in Hvis'. }
      intros ->. destruct (Hall eq_refl) as [[-> ->]%andb_true_iff Hrest]. split; [done|]. intros l' b Hl' Hb.
      apply elem_of_cons in Hl' as [->|Hl'].
      * rewrite Htg in Hb. injection Hb as <-. exists t'. split; [by apply (vi_kept _ _ _ _ Hvis')|]. split; [done|lia].
      * apply (Hrest l' b Hl'). by rewrite <- (target_shape ls ns ns1) by apply Hvis.
Qed.

Lemma calcOrderRecurse_ok fuel : recurse_ok (calcOrderRecurse fuel ls).
Proof.
  induction fuel as [|fuel IH]; [done|]. intros ns n d r ns' x Hc Hx Hs. cbn in Hc. unfold upd_node in Hc. rewrite Hx in Hc. cbn in Hc.
  rewrite list_lookup_insert_eq in Hc by (by eapply lookup_lt_Some). cbn in Hc. set (x1 := raise_order (set_seen x true) d) in *.
  set (ns1 := <[n := x1]> ns) in *. assert (Hx1 : ns1 !! n = Some x1) by (apply list_lookup_insert_eq; by eapply lookup_lt_Some).
  destruct (visit_outputs_ok _ n _ ns1 true r ns' x1 IH Hc Hx1 eq_refl) as [Hvis Hall].
  assert (Hsh : same_shape ns ns1).
  { unfold same_shape, ns1. rewrite list_fmap_insert. symmetry. apply list_insert_id. by rewrite list_lookup_fmap, Hx. }
  assert (Ho : mOrder x <= mOrder x1 /\ d <= mOrder x1) by (unfold x1, raise_order; cbn; destruct (Z.ltb_spec (mOrder x) d); lia).
  pose proof (vi_kept _ _ _ _ Hvis n x1 Hx1 eq_refl) as Hx'. split; [|exists x1; split_and!; [done|done|lia]].
  assert (Hother : forall i, i <> n -> ns1 !! i = ns !! i) by (intros; by apply list_lookup_insert_ne).
  split.
  - unfold same_shape in *. rewrite Hsh. apply Hvis.
  - intros i y Hy Hsy. apply (vi_kept _ _ _ _ Hvis); [|done]. rewrite Hother; [done|]. intros ->. congruence.
  - intros i y y' Hy Hy'. destruct (decide (i = n)) as [->|Hne]; [simplify_eq; split; [lia|done]|].
    rewrite <- Hother in Hy by done. by apply (vi_mono _ _ _ _ Hvis i).
  - intros -> i y y' b Hy Hsy Hy' Hsy' He. destruct (decide (i = n)) as [->|Hne].
    + simplify_eq. destruct He as (z & l & Hz & Hl & Ht). simplify_eq. destruct (Hall eq_refl) as [_ Hall'].
      apply (Hall' l b Hl). by rewrite <- (target_shape ls ns ns1).
    + rewrite <- Hother in Hy by done. apply (vi_edges _ _ _ _ Hvis eq_refl i y y' b Hy Hsy Hy' Hsy'). by eapply edge_shape.
Qed.

(** ** All roots *)

Definition ordered (ns : list Node) (a : nat) : Prop :=
  forall b, edge ls ns a b -> exists x y, ns !! a = Some x /\ ns !! b = Some y /\ mOrder x < mOrder y.

Definition clear (ns : list Node) : list Node := (fun n => set_seen n false) <$> ns.

Lemma clear_shape ns : same_shape ns (clear ns).
Proof. unfold same_shape, clear. rewrite <- list_fmap_compose. by apply list_fmap_ext. Qed.

Lemma clear_lookup ns i x : clear ns !! i = Some x -> mSeen x = false /\ exists y, ns !! i = Some y /\ mOrder x = mOrder y.
Proof. unfold clear. rewrite list_lookup_fmap. destruct (ns !! i) as [y|]; [|done]. cbn. intros [= <-]. split; [done|]. by exists y. Qed.

Lemma pass_ordered fuel ns ct r ns' :
  calcOrderRecurse fuel ls (clear ns) ct 0 = Ok (r, ns') -> (ct < length ns)%nat ->
  same_shape ns ns' /\
  (r = true -> (forall a, rtc (edge ls ns) ct a -> ordered ns' a) /\ (forall a, ordered ns a -> ordered ns' a)).
Proof.
  intros Hc Hct. destruct (lookup_lt_is_Some_2 ns ct Hct) as [x0 Hx0].
  assert (Hx : clear ns !! ct = Some (set_seen x0 false)) by (unfold clear; by rewrite list_lookup_fmap, Hx0).
  destruct (calcOrderRecurse_ok fuel _ _ _ _ _ _ Hc Hx eq_refl) as ([V1 V2 V3 V4] & x' & Hx' & Hs' & _).
  assert (Hsh : same_shape ns ns') by (unfold same_shape in *; by rewrite (clear_shape ns)). split; [done|]. intros ->. specialize (V4 eq_refl).
  assert (Hseen : forall a y, ns' !! a = Some y -> mSeen y = true -> forall b, edge ls ns a b -> exists z, ns' !! b = Some z /\ mSeen z = true /\ mOrder y < mOrder z).
  { intros a y Hy Hsy b He. destruct (shape_lookup _ _ _ _ (eq_sym V1 : same_shape ns' (clear ns)) Hy) as (w & Hw & _).
    destruct (clear_lookup _ _ _ Hw) as [Hws _]. apply (V4 a w y b Hw Hws Hy Hsy). eapply edge_shape; [apply clear_shape|done]. }
  assert (Hord : forall a y, ns' !! a = Some y -> mSeen y = true -> ordered ns' a).
  { intros a y Hy Hsy b He. apply (edge_shape ls ns' ns) in He; [|by symmetry]. destruct (Hseen a y Hy Hsy b He) as (z & Hz & _ & Ho). by exists y, z. }
  split.
  - intros a Hr. assert (Hsa : exists y, ns' !! a = Some y /\ mSeen y = true).
    { clear Hord. apply rtc_ind_r with (P := fun a => exists y, ns' !! a = Some y /\ mSeen y = true) in Hr; [done|by exists x'|].
      intros b c _ He (y & Hy & Hsy). destruct (Hseen b y Hy Hsy c He) as (z & Hz & Hsz & _). by exists z. }
    destruct Hsa as (y & Hy & Hsy). by eapply Hord.
  - intros a Ha b He. pose proof (edge_shape ls ns' ns a b (eq_sym Hsh) He) as He0. destruct (Ha b He0) as (x & y & Hx1 & Hy & Ho).
    destruct (shape_lookup _ _ _ _ Hsh Hx1) as (x1 & Hx1' & _), (shape_lookup _ _ _ _ Hsh Hy) as (y1 & Hy1 & _).
    destruct (mSeen x1) eqn:Es; [by eapply Hord|]. exists x1, y1. split_and!; [done..|].
    assert (Hcl : forall i z, ns !! i = Some z -> clear ns !! i = Some (set_seen z false)) by (intros i z Hz; unfold clear; by rewrite list_lookup_fmap, Hz).
    destruct (V3 _ _ _ (Hcl _ _ Hx1) Hx1') as [_ Hun]. rewrite (Hun Es). destruct (V3 _ _ _ (Hcl _ _ Hy) Hy1) as [Hm _]. cbn in *. lia.
Qed.

Definition root (ns : list Node) (i : nat) : Prop := exists x, ns !! i = Some x /\ n_mInputs x = [].

Lemma rtc_edge_shape ns ns' a b : same_shape ns ns' -> rtc (edge ls ns) a b -> rtc (edge ls ns') a b.
Proof. intros Hs. induction 1; [constructor|]. econstructor; [by eapply edge_shape|done]. Qed.

Lemma order_nodes_ok k ct ns ret r ns' :
  order_nodes k ct ls ns ret = Ok (r, ns') ->
  same_shape ns ns' /\
  (r = true -> ret = true /\ (forall a, ordered ns a -> ordered ns' a) /\
    (forall i a, (ct <= i < ct + k)%nat -> root ns i -> rtc (edge ls ns) i a -> ordered ns' a)).
Proof.
  revert ct ns ret. induction k as [|k IH]; intros ct ns ret Ho; cbn [order_nodes] in Ho.
  - injection Ho as <- <-. split; [done|]. intros ->. split_and!; [done..|]. intros i a Hi. lia.
  - destruct (ns !! ct) as [n|] eqn:En; [|done]. cbn [of_option mbind outcome_bind] in Ho. destruct (n_mInputs n) as [|i0 ins] eqn:Ein.
    + destruct (calcOrderRecurse _ _ _ _ _) as [[r1 ns1]|] eqn:Ec; [|done]. cbn [mbind outcome_bind] in Ho.
      destruct (pass_ordered _ _ _ _ _ Ec (lookup_lt_Some _ _ _ En)) as [Hs1 Hp].
      destruct (IH _ _ _ Ho) as [Hs2 Hr]. split; [unfold same_shape in *; by rewrite Hs1|]. intros ->.
      destruct (Hr eq_refl) as ([-> ->]%andb_true_iff & Hk & Hroots). destruct (Hp eq_refl) as [Hp1 Hp2]. split_and!; [done|auto|].
      intros i a Hi Hroot Hra. destruct (decide (i = ct)) as [->|Hne]; [auto|].
      apply (Hroots i a); [lia| |by eapply rtc_edge_shape].
      destruct Hroot as (x & Hx & Hin). destruct (shape_lookup _ _ _ _ Hs1 Hx) as (x1 & Hx1 & [= _ _ E _]). exists x1. by rewrite E.
    + cbn [mbind outcome_bind] in Ho. destruct (IH _ _ _ Ho) as [Hs2 Hr]. split; [done|]. intros ->. destruct (Hr eq_refl) as (-> & Hk & Hroots). split_and!; [done..|].
      intros i a Hi Hroot Hra. destruct (decide (i = ct)) as [->|Hne]; [|apply (Hroots i a); [lia|done..]].
      destruct Hroot as (x & Hx & Hin). simplify_eq. congruence.
Qed.

(** ** The search ends *)

Definition unseen (x : Node) : nat := if mSeen x then 0 else 1.
Definition targets_ok (ns : list Node) : Prop :=
  forall i x l, ns !! i = Some x -> l ∈ n_mOutputs x -> exists b, target ls ns l = Ok b /\ (b < length ns)%nat.

Lemma same_shape_length ns ns' : same_shape ns ns' -> length ns = length ns'.
Proof. intros Hs. rewrite <- (length_fmap shape ns), <- (length_fmap shape ns'). by rewrite Hs. Qed.

Lemma targets_ok_shape ns ns' : same_shape ns ns' -> targets_ok ns -> targets_ok ns'.
Proof.
  intros Hs Ht i x l Hx Hl. destruct (shape_lookup _ _ _ _ (eq_sym Hs : same_shape ns' ns) Hx) as (y & Hy & [= _ E _ _]).
  destruct (Ht i y l Hy) as (b & Hb & Hlt); [by rewrite E|]. exists b. rewrite <- (target_shape ls ns ns' l Hs), <- (same_shape_length _ _ Hs). done.
Qed.

Lemma unseen_mono ns ns' r : visited ls ns ns' r -> (sum_list_with unseen ns' <= sum_list_with unseen ns)%nat.
Proof.
  intros [V1 V2 V3 _]. pose proof (same_shape_length _ _ V1) as Hlen. clear V1.
  assert (Hpt : forall i x x', ns !! i = Some x -> ns' !! i = Some x' -> (unseen x' <= unseen x)%nat).
  { intros i x x' Hx Hx'. unfold unseen. destruct (mSeen x) eqn:E; [rewrite (V2 i x Hx E) in Hx'; simplify_eq; by rewrite E|destruct (mSeen x'); lia]. }
  clear V2 V3. revert ns' Hlen Hpt. induction ns as [|x ns IH]; intros [|x' ns'] Hlen Hpt; try done. cbn in *.
  pose proof (Hpt 0%nat x x' eq_refl eq_refl). specialize (IH ns' ltac:(lia) (fun i => Hpt (S i))). lia.
Qed.

Lemma visit_outputs_total fuel n outs ns ret x :
  (forall ns n d x, targets_ok ns -> ns !! n = Some x -> mSeen x = false -> (sum_list_with unseen ns <= fuel)%nat ->
     exists r ns', calcOrderRecurse fuel ls ns n d = Ok (r, ns')) ->
  targets_ok ns -> ns !! n = Some x -> mSeen x = true -> (forall l, l ∈ outs -> exists b, target ls ns l = Ok b /\ (b < length ns)%nat) ->
  (sum_list_with unseen ns <= fuel)%nat -> exists r ns', visit_outputs (calcOrderRecurse fuel ls) ls n outs ns ret = Ok (r, ns').
Proof.
  intros Hrec. revert ns ret. induction outs as [|l outs IH]; intros ns ret Ht Hx Hs Hall Hf; cbn; [by eexists _, _|].
  destruct (Hall l ltac:(by left)) as (b & Hb & Hlt). unfold target in Hb. destruct (ls !! l) as [lk|]; [|done]. cbn in *.
  destruct (dst_script lk) as [s|]; [|done]. cbn in *. rewrite Hb. cbn. destruct (lookup_lt_is_Some_2 ns b Hlt) as [t Et]. rewrite Et. cbn.
  destruct (mSeen t) eqn:Es; [by eexists _, _|]. rewrite Hx. cbn.
  destruct (Hrec ns b (mOrder x + 1) t Ht Et Es Hf) as (r & ns1 & E). rewrite E. cbn.
  destruct (calcOrderRecurse_ok fuel _ _ _ _ _ _ E Et Es) as (Hvis & _). pose proof (vi_shape _ _ _ _ Hvis) as Hsh.
  apply IH; [by eapply targets_ok_shape|by apply (vi_kept _ _ _ _ Hvis)|done| |pose proof (unseen_mono _ _ _ Hvis); lia].
  intros l' Hl'. destruct (Hall l' ltac:(by right)) as (b' & Hb' & Hlt'). exists b'.
  rewrite <- (target_shape ls ns ns1 l' Hsh), <- (same_shape_length _ _ Hsh). done.
Qed.

Lemma calcOrderRecurse_total fuel ns n d x :
  targets_ok ns -> ns !! n = Some x -> mSeen x = false -> (sum_list_with unseen ns <= fuel)%nat ->
  exists r ns', calcOrderRecurse fuel ls ns n d = Ok (r, ns').
Proof.
  revert ns n d x. induction fuel as [|fuel IH]; intros ns n d x Ht Hx Hs Hf.
  - pose proof (sum_list_with_insert unseen ns n x (set_seen x true) Hx) as Hi. unfold unseen in Hi at 2. rewrite Hs in Hi. cbn in Hi. lia.
  - cbn. unfold upd_node. rewrite Hx. cbn. rewrite list_lookup_insert_eq by (by eapply lookup_lt_Some). cbn.
    set (x1 := raise_order (set_seen x true) d). set (ns1 := <[n := x1]> ns).
    assert (Hsh : same_shape ns ns1).
    { unfold same_shape, ns1. rewrite list_fmap_insert. symmetry. apply list_insert_id. by rewrite list_lookup_fmap, Hx. }
    eapply (visit_outputs_total fuel n _ ns1 true x1 IH); try done.
    + by eapply targets_ok_shape.
    + apply list_lookup_insert_eq. by eapply lookup_lt_Some.
    + intros l Hl. destruct (Ht n x l Hx Hl) as (b & Hb & Hlt). exists b.
      rewrite <- (target_shape ls ns ns1 l Hsh), <- (same_shape_length _ _ Hsh). done.
    + pose proof (sum_list_with_insert unseen ns n x x1 Hx) as Hi. fold ns1 in Hi. unfold unseen at 2 4 in Hi. rewrite Hs in Hi. cbn in Hi. lia.
Qed.

End search.

(** ** The nodes of a group *)

(** One node per script, each with kernels of its script. *)
Record nodes_ok (ns : list Node) : Prop := {
  no_dup : NoDup (mScript <$> ns);
  no_kernels : forall i n, ns !! i = Some n -> n_mKernels n <> [] /\ forall k, k ∈ n_mKernels n -> exists x, KT !! k = Some x /\ k_mScript x = mScript n
}.

Lemma has_script_spec ks s s' :
  (forall k, k ∈ ks -> exists x, KT !! k = Some x /\ k_mScript x = s') -> ks <> [] -> has_script ks s = Ok (s' =? s).
Proof.
  induction ks as [|k ks IH]; intros Hk Hne; [done|]. cbn. destruct (Hk k ltac:(by left)) as (x & E1 & E2). rewrite E1. cbn. rewrite E2.
  destruct (Z.eqb_spec s' s); [done|]. destruct ks as [|k' ks]; [done|]. apply IH; [|done]. intros. apply Hk. by right.
Qed.

Lemma nodes_ok_cons n ns : nodes_ok (n :: ns) -> nodes_ok ns /\ mScript n ∉ mScript <$> ns /\ forall s, has_script (n_mKernels n) s = Ok (mScript n =? s).
Proof.
  intros [Hd Hk]. apply NoDup_cons in Hd as [Hn Hd]. split; [split; [done|intros i; apply (Hk (S i))]|]. split; [done|].
  intros s. destruct (Hk 0%nat n eq_refl). by apply has_script_spec.
Qed.

Lemma findNode_hit ns i j n : nodes_ok ns -> ns !! i = Some n -> findNode_from j ns (mScript n) = Ok (Some (j + i)%nat).
Proof.
  revert i j. induction ns as [|m ns IH]; intros i j Hok Hi; [done|]. destruct (nodes_ok_cons _ _ Hok) as (Hok' & Hnot & Hs). cbn. rewrite Hs. cbn.
  destruct i as [|i].
  - injection Hi as ->. rewrite Z.eqb_refl. do 2 f_equal. lia.
  - destruct (Z.eqb_spec (mScript m) (mScript n)) as [E|].
    + exfalso. apply Hnot. rewrite E. apply list_elem_of_fmap_2. by eapply list_elem_of_lookup_2.
    + rewrite (IH i (S j) Hok' Hi). do 2 f_equal. lia.
Qed.

Lemma findNode_miss ns j s : nodes_ok ns -> s ∉ mScript <$> ns -> findNode_from j ns s = Ok None.
Proof.
  revert j. induction ns as [|m ns IH]; intros j Hok Hn; [done|]. destruct (nodes_ok_cons _ _ Hok) as (Hok' & _ & Hs). cbn. rewrite Hs. cbn.
  apply not_elem_of_cons in Hn as [Hne Hn]. destruct (Z.eqb_spec (mScript m) s); [congruence|]. by apply IH.
Qed.

Lemma the_node_hit ns i n : nodes_ok ns -> ns !! i = Some n -> the_node ns (mScript n) = Ok i.
Proof. intros Hok Hi. unfold the_node, findNode. by rewrite (findNode_hit ns i 0 n Hok Hi). Qed.

(** Changes of nodes that keep the kernels and scripts. *)
Definition same_kernels (ns ns' : list Node) : Prop := ((fun n => (n_mKernels n, mScript n)) <$> ns) = ((fun n => (n_mKernels n, mScript n)) <$> ns').

Lemma same_kernels_lookup ns ns' i n : same_kernels ns ns' -> ns !! i = Some n -> exists n', ns' !! i = Some n' /\ n_mKernels n' = n_mKernels n /\ mScript n' = mScript n.
Proof.
  intros Hs Hn. pose proof (f_equal (fun l => l !! i) Hs) as E. cbn in E. rewrite !list_lookup_fmap, Hn in E. cbn in E.
  destruct (ns' !! i) as [n'|]; [|done]. injection E as E1 E2. by exists n'.
Qed.

Lemma same_kernels_scripts ns ns' : same_kernels ns ns' -> mScript <$> ns = mScript <$> ns'.
Proof.
  intros Hs. pose proof (f_equal (fmap snd) Hs) as E. by rewrite <- !list_fmap_compose in E.
Qed.

Lemma same_kernels_kernels ns ns' : same_kernels ns ns' -> n_mKernels <$> ns = n_mKernels <$> ns'.
Proof.
  intros Hs. pose proof (f_equal (fmap fst) Hs) as E. by rewrite <- !list_fmap_compose in E.
Qed.

Lemma nodes_ok_same ns ns' : same_kernels ns ns' -> nodes_ok ns -> nodes_ok ns'.
Proof.
  intros Hs [Hd Hk]. split; [by rewrite <- (same_kernels_scripts _ _ Hs)|]. intros i n Hn.
  destruct (same_kernels_lookup ns' ns i n (eq_sym Hs) Hn) as (m & Hm & E1 & E2). destruct (Hk i m Hm) as [H1 H2]. rewrite <- E1, <- E2. done.
Qed.

Lemma script_node (ns : list Node) s : s ∈ mScript <$> ns -> exists i n, ns !! i = Some n /\ mScript n = s.
Proof. intros (n & -> & Hn)%list_elem_of_fmap. apply list_elem_of_lookup in Hn as [i Hi]. by exists i, n. Qed.

Definition fresh (n : Node) : Prop := n_mOutputs n = [] /\ n_mInputs n = [] /\ mSeen n = false /\ mOrder n = 0.

(** A kernel of the group object: it is not null and exists. *)
Definition kernel_ok (k : option positive) : Prop := exists i x, k = Some i /\ KT !! i = Some x.

Definition kernels_of (ns : list Node) : list positive := concat (n_mKernels <$> ns).

Lemma add_kernel_ok ns m n k x :
  nodes_ok ns -> ns !! m = Some n -> KT !! k = Some x -> k_mScript x = mScript n -> nodes_ok (<[m := add_kernel n k]> ns).
Proof.
  intros [Hd Hk] Hm Hx Hs. pose proof (lookup_lt_Some _ _ _ Hm). split.
  { rewrite list_fmap_insert. cbn. rewrite list_insert_id; [done|]. by rewrite list_lookup_fmap, Hm. }
  intros j n' Hn'. destruct (decide (j = m)) as [->|Hne]; [rewrite list_lookup_insert_eq in Hn' by done|rewrite list_lookup_insert_ne in Hn' by done; by apply (Hk j)].
  injection Hn' as <-. cbn. split; [by destruct (n_mKernels n)|]. intros k' Hk'. apply elem_of_app in Hk' as [Hk'|Hk'].
  - by apply (proj2 (Hk m n Hm)).
  - apply list_elem_of_singleton in Hk' as ->. by exists x.
Qed.

Lemma new_kernel_ok ns k x :
  nodes_ok ns -> KT !! k = Some x -> k_mScript x ∉ mScript <$> ns -> nodes_ok (ns ++ [add_kernel (new_node (k_mScript x)) k]).
Proof.
  intros [Hd Hk] Hx Hs. split.
  { rewrite fmap_app. apply NoDup_app. split_and!; [done| |apply NoDup_singleton]. intros s Hs1 Hs'. apply list_elem_of_singleton in Hs' as ->. done. }
  intros j n' Hn'. apply lookup_app_Some in Hn' as [Hn'|[Hge Hn']]; [by apply (Hk j)|].
  destruct (j - length ns)%nat as [|[]]; [|done..]. injection Hn' as <-. cbn. split; [done|]. intros k' ->%list_elem_of_singleton. by exists x.
Qed.

Lemma make_node_step k x ns :
  KT !! k = Some x -> nodes_ok ns -> Forall fresh ns ->
  exists o ns', findNode ns (k_mScript x) = Ok o /\
    (let '(i, ns) := match o with Some i => (i, ns) | None => (length ns, ns ++ [new_node (k_mScript x)]) end in upd_node ns i (fun n => add_kernel n k)) = Ok ns' /\
    nodes_ok ns' /\ Forall fresh ns' /\ kernels_of ns' ≡ₚ kernels_of ns ++ [k].
Proof.
  intros Hx Hok Hfr. destruct (decide (k_mScript x ∈ mScript <$> ns)) as [Hin|Hin].
  - destruct (script_node ns _ Hin) as (m & n & Hm & En). exists (Some m), (<[m := add_kernel n k]> ns).
    split_and!; [rewrite <- En; by apply (findNode_hit ns m 0 n Hok Hm)|unfold upd_node; by rewrite Hm|by eapply add_kernel_ok| |].
    + apply Forall_insert; [done|]. by apply (Forall_lookup_1 _ _ _ _ Hfr Hm).
    + destruct (concat_insert_perm n_mKernels ns m n (add_kernel n k) Hm) as (r & E1 & E2). unfold kernels_of. rewrite E1, E2. cbn.
      rewrite <- !app_assoc. apply Permutation_app_head, Permutation_app_comm.
  - exists None, (ns ++ [add_kernel (new_node (k_mScript x)) k]).
    split_and!; [by apply findNode_miss| |by apply new_kernel_ok| |].
    + unfold upd_node. rewrite lookup_app_r, Nat.sub_diag by done. cbn. by rewrite insert_app_r_alt, Nat.sub_diag.
    + apply Forall_app. split; [done|]. by repeat constructor.
    + unfold kernels_of. by rewrite fmap_app, concat_app.
Qed.

Lemma make_nodes_ok ks ns :
  Forall kernel_ok ks -> nodes_ok ns -> Forall fresh ns ->
  exists ns', make_nodes ks ns = Ok ns' /\ nodes_ok ns' /\ Forall fresh ns' /\ Some <$> kernels_of ns' ≡ₚ (Some <$> kernels_of ns) ++ ks.
Proof.
  revert ns. induction ks as [|k ks IH]; intros ns Hks Hok Hfr; [exists ns; by rewrite app_nil_r|].
  apply Forall_cons in Hks as [(i & x & -> & Hx) Hks]. destruct (make_node_step i x ns Hx Hok Hfr) as (o & ns1 & E1 & E2 & Hok1 & Hfr1 & Hp).
  destruct (IH ns1 Hks Hok1 Hfr1) as (ns' & E & Hok' & Hfr' & Hp'). exists ns'. split_and!; [|done|done|].
  - cbn. rewrite Hx. cbn. rewrite E1. cbn. destruct o; rewrite E2; exact E.
  - rewrite Hp'. rewrite Hp, fmap_app, <- app_assoc. done.
Qed.

(** ** Links *)

Definition src_script (l : Link) : outcome Z := '(_, x) ← kernel_at (mSource l); Ok (k_mScript x).
Definition in_script (l : Link) : outcome Z :=
  match mDstKernel l with
  | Some k => '(_, x) ← kernel_at (Some k); Ok (k_mScript x)
  | None => f ← field_at (mDstField l); Ok (f_mScript f)
  end.

(** A link between scripts of the group. *)
Definition link_ok (ss : list Z) (l : Link) : Prop :=
  exists s d, src_script l = Ok s /\ in_script l = Ok d /\ dst_script l = Ok d /\ s ∈ ss /\ d ∈ ss.

(** [m] is [n] with the links [ls], numbered from [ct], that leave or enter its script. *)
Definition linked (ct : nat) (ls : list Link) (n m : Node) : Prop :=
  n_mKernels m = n_mKernels n /\ mScript m = mScript n /\ mSeen m = mSeen n /\ mOrder m = mOrder n /\
  (forall i, i ∈ n_mOutputs m <-> i ∈ n_mOutputs n \/ exists j l, i = (ct + j)%nat /\ ls !! j = Some l /\ src_script l = Ok (mScript n)) /\
  (forall i, i ∈ n_mInputs m <-> i ∈ n_mInputs n \/ exists j l, i = (ct + j)%nat /\ ls !! j = Some l /\ in_script l = Ok (mScript n)).

Definition on_script (s : Z) (f : Node -> Node) (n : Node) : Node := if mScript n =? s then f n else n.

Lemma upd_script ns s f :
  nodes_ok ns -> s ∈ mScript <$> ns -> exists i, the_node ns s = Ok i /\ upd_node ns i f = Ok (on_script s f <$> ns).
Proof.
  intros Hok Hs. destruct (script_node ns s Hs) as (i & n & Hi & <-). exists i. split; [by apply the_node_hit|].
  unfold upd_node. rewrite Hi. cbn. f_equal. apply list_eq. intros j. rewrite list_lookup_fmap. unfold on_script. destruct (decide (j = i)) as [->|Hne].
  - rewrite list_lookup_insert_eq by (by eapply lookup_lt_Some). rewrite Hi. cbn. by rewrite Z.eqb_refl.
  - rewrite list_lookup_insert_ne by done. destruct (ns !! j) as [m|] eqn:Hj; [|done]. cbn. destruct (Z.eqb_spec (mScript m) (mScript n)) as [E|]; [|done].
    exfalso. apply Hne. apply (NoDup_lookup (mScript <$> ns) j i (mScript n)); [apply Hok|by rewrite list_lookup_fmap, Hj; cbn; rewrite E|by rewrite list_lookup_fmap, Hi].
Qed.

Lemma on_script_same s f ns :
  (forall n, n_mKernels (f n) = n_mKernels n /\ mScript (f n) = mScript n) -> same_kernels ns (on_script s f <$> ns).
Proof.
  intros Hf. unfold same_kernels. rewrite <- list_fmap_compose. apply list_fmap_ext. intros _ n _. cbn. unfold on_script.
  destruct (_ =? _); [|done]. destruct (Hf n) as [-> ->]. done.
Qed.

Definition link_node (ct : nat) (s d : Z) (n : Node) : Node := on_script d (fun n => add_input n ct) (on_script s (fun n => add_output n ct) n).

Lemma link_step ct l r ns :
  nodes_ok ns -> link_ok (mScript <$> ns) l ->
  exists s d ns', src_script l = Ok s /\ in_script l = Ok d /\ ns' = link_node ct s d <$> ns /\ add_links ct (l :: r) ns = add_links (S ct) r ns' /\ nodes_ok ns' /\ same_kernels ns ns'.
Proof.
  intros Hok (s & d & Es & Ed & _ & Hs & Hd). exists s, d, (link_node ct s d <$> ns).
  destruct (upd_script ns s (fun n => add_output n ct) Hok Hs) as (a & E1 & E2).
  pose proof (on_script_same s (fun n => add_output n ct) ns ltac:(done)) as Hsame.
  pose proof (nodes_ok_same _ _ Hsame Hok) as Hok1. rewrite (same_kernels_scripts _ _ Hsame) in Hd.
  destruct (upd_script _ d (fun n => add_input n ct) Hok1 Hd) as (b & E3 & E4).
  pose proof (on_script_same d (fun n => add_input n ct) (on_script s (fun n => add_output n ct) <$> ns) ltac:(done)) as Hsame'.
  rewrite <- list_fmap_compose in E4, Hsame'. split_and!; [done..| | |].
  - cbn [add_links]. unfold src_script in Es. destruct (kernel_at (mSource l)) as [[k x]|]; [|done]. cbn in Es. injection Es as Es.
    cbn [mbind outcome_bind]. rewrite Es, E1. cbn [mbind outcome_bind]. rewrite E2. cbn [mbind outcome_bind]. unfold in_script in Ed. rewrite Ed.
    cbn [mbind outcome_bind]. rewrite E3. cbn [mbind outcome_bind]. by rewrite E4.
  - by apply (nodes_ok_same _ _ Hsame').
  - unfold same_kernels in *. by rewrite Hsame.
Qed.

Lemma linked_ends {A} (P : A -> Prop) (b : bool) (ct : nat) (l : A) (r : list A) (o om : list nat) :
  (b = true <-> P l) ->
  (forall i, i ∈ om <-> i ∈ (if b then o ++ [ct] else o) \/ exists j l', i = (S ct + j)%nat /\ r !! j = Some l' /\ P l') ->
  forall i, i ∈ om <-> i ∈ o \/ exists j l', i = (ct + j)%nat /\ (l :: r) !! j = Some l' /\ P l'.
Proof.
  intros Hb Hom i. rewrite Hom. split.
  - intros [Hi|(j & l' & -> & Hj & HP)]; [|right; exists (S j), l'; split; [lia|done]].
    destruct b; [|by left]. apply elem_of_app in Hi as [Hi|Hi]; [by left|]. apply list_elem_of_singleton in Hi as ->.
    right. exists 0%nat, l. split; [lia|]. split; [done|by apply Hb].
  - intros [Hi|(j & l' & -> & Hj & HP)]; [left; destruct b; [apply elem_of_app; by left|done]|]. destruct j as [|j].
    + injection Hj as <-. left. rewrite (proj2 Hb HP). apply elem_of_app. right. apply list_elem_of_singleton. lia.
    + right. exists j, l'. split; [lia|done].
Qed.

Lemma link_node_fields ct s d n :
  n_mKernels (link_node ct s d n) = n_mKernels n /\ mScript (link_node ct s d n) = mScript n /\ mSeen (link_node ct s d n) = mSeen n /\ mOrder (link_node ct s d n) = mOrder n /\
  n_mOutputs (link_node ct s d n) = (if mScript n =? s then n_mOutputs n ++ [ct] else n_mOutputs n) /\
  n_mInputs (link_node ct s d n) = (if mScript n =? d then n_mInputs n ++ [ct] else n_mInputs n).
Proof. unfold link_node, on_script. destruct (mScript n =? s); cbn; by destruct (mScript n =? d). Qed.

Lemma link_node_linked ct s d l r n m :
  src_script l = Ok s -> in_script l = Ok d -> linked (S ct) r (link_node ct s d n) m -> linked ct (l :: r) n m.
Proof.
  intros Es Ed. unfold linked. destruct (link_node_fields ct s d n) as (-> & -> & -> & -> & -> & ->). intros (L1 & L2 & L3 & L4 & L5 & L6).
  split_and!; [done..| |].
  - apply (linked_ends (fun l => src_script l = Ok (mScript n)) (mScript n =? s)); [|done]. rewrite Es, Z.eqb_eq. split; [by intros ->|by intros [= ->]].
  - apply (linked_ends (fun l => in_script l = Ok (mScript n)) (mScript n =? d)); [|done]. rewrite Ed, Z.eqb_eq. split; [by intros ->|by intros [= ->]].
Qed.

Lemma add_links_ok ct ls ns :
  nodes_ok ns -> Forall (link_ok (mScript <$> ns)) ls ->
  exists ns', add_links ct ls ns = Ok ns' /\ nodes_ok ns' /\ same_kernels ns ns' /\ Forall2 (linked ct ls) ns ns'.
Proof.
  revert ct ns. induction ls as [|l ls IH]; intros ct ns Hok Hl.
  - exists ns. split_and!; try done. apply Forall2_same_length_lookup. split; [done|]. intros i n m Hn Hm. simplify_eq. split_and!; try done.
    all: intros j; split; [by left|]; intros [|(k & l & _ & Hk & _)]; [done|by rewrite lookup_nil in Hk].
  - apply Forall_cons in Hl as [Hl Hls]. destruct (link_step ct l ls ns Hok Hl) as (s & d & ns1 & Es & Ed & E1 & E2 & Hok1 & Hsame).
    rewrite (same_kernels_scripts _ _ Hsame) in Hls. destruct (IH (S ct) ns1 Hok1 Hls) as (ns' & E & Hok' & Hsame' & Hlk). exists ns'. split_and!; [by rewrite E2|done| |].
    + unfold same_kernels in *. by rewrite Hsame.
    + subst ns1. rewrite Forall2_fmap_l in Hlk. eapply Forall2_impl; [exact Hlk|]. intros n m Hnm. by eapply link_node_linked.
Qed.

(** The outputs of a node are pairwise different. *)
Definition outs_below (ct : nat) (n : Node) : Prop := NoDup (n_mOutputs n) /\ forall l, l ∈ n_mOutputs n -> (l < ct)%nat.

Lemma add_links_nodup ct ls ns ns' :
  nodes_ok ns -> Forall (link_ok (mScript <$> ns)) ls -> Forall (outs_below ct) ns -> add_links ct ls ns = Ok ns' -> Forall (fun n => NoDup (n_mOutputs n)) ns'.
Proof.
  revert ct ns. induction ls as [|l ls IH]; intros ct ns Hok Hl Hb E.
  - injection E as <-. eapply Forall_impl; [exact Hb|]. by intros n [? _].
  - apply Forall_cons in Hl as [Hl Hls]. destruct (link_step ct l ls ns Hok Hl) as (s & d & ns1 & _ & _ & E1 & E2 & Hok1 & Hsame).
    rewrite (same_kernels_scripts _ _ Hsame) in Hls. rewrite E2 in E. apply (IH (S ct) ns1 Hok1 Hls); [|done]. subst ns1. apply Forall_fmap. eapply Forall_impl; [exact Hb|].
    intros n [Hn Hlt]. unfold outs_below. cbn. destruct (link_node_fields ct s d n) as (_ & _ & _ & _ & -> & _). destruct (mScript n =? s).
    + split; [apply NoDup_app; split_and!; [done| |apply NoDup_singleton]; intros i Hi ->%list_elem_of_singleton; apply Hlt in Hi; lia|].
      intros i [Hi| ->%list_elem_of_singleton]%elem_of_app; [apply Hlt in Hi|]; lia.
    + split; [done|]. intros i Hi%Hlt. lia.
Qed.

(** ** The graph of a group *)

Definition script_of (g : ScriptGroup) (s : Z) : Prop := exists k x, Some k ∈ mKernels g /\ KT !! k = Some x /\ k_mScript x = s.

(** A new group: its kernels exist and its links connect scripts of these kernels. *)
Record group_ok (g : ScriptGroup) : Prop := {
  gr_new : mNodes g = [];
  gr_kernels : Forall kernel_ok (mKernels g);
  gr_links : forall l, l ∈ mLinks g -> exists s d, src_script l = Ok s /\ in_script l = Ok d /\ dst_script l = Ok d /\ script_of g s /\ script_of g d
}.

(** The nodes of [g]: one per script, with the links that leave and enter it. *)
Record graph (g : ScriptGroup) (ns : list Node) : Prop := {
  gp_nodes : nodes_ok ns;
  gp_kernels : Some <$> kernels_of ns ≡ₚ mKernels g;
  gp_scripts : forall s, script_of g s -> exists i n, ns !! i = Some n /\ mScript n = s;
  gp_nodup : forall i n, ns !! i = Some n -> NoDup (n_mOutputs n);
  gp_outputs : forall i n l, ns !! i = Some n -> l ∈ n_mOutputs n <-> exists lk, mLinks g !! l = Some lk /\ src_script lk = Ok (mScript n);
  gp_inputs : forall i n l, ns !! i = Some n -> l ∈ n_mInputs n <-> exists lk, mLinks g !! l = Some lk /\ in_script lk = Ok (mScript n)
}.

Lemma nodes_scripts g ns s : nodes_ok ns -> Some <$> kernels_of ns ≡ₚ mKernels g -> script_of g s -> s ∈ mScript <$> ns.
Proof.
  intros Hok Hp (k & x & Hk & Hx & <-). rewrite <- Hp in Hk. apply list_elem_of_fmap in Hk as (k' & [= <-] & Hk). unfold kernels_of in Hk.
  rewrite list_elem_of_In, in_concat in Hk. destruct Hk as (ks & Hks & Hk). rewrite <- list_elem_of_In in Hks. rewrite <- list_elem_of_In in Hk.
  apply list_elem_of_fmap in Hks as (n & -> & Hn). apply list_elem_of_lookup in Hn as Hi. destruct Hi as [i Hi].
  destruct (no_kernels _ Hok i n Hi) as [_ Hall]. destruct (Hall k Hk) as (x' & Hx' & E). simplify_eq. rewrite E. by apply list_elem_of_fmap_2.
Qed.

Lemma build_ok g :
  group_ok g -> exists ns1 ns, make_nodes (mKernels g) (mNodes g) = Ok ns1 /\ add_links 0 (mLinks g) ns1 = Ok ns /\ graph g ns.
Proof.
  intros [Hn Hk Hl]. rewrite Hn. assert (Hok0 : nodes_ok []) by (split; [constructor|done]).
  destruct (make_nodes_ok (mKernels g) [] Hk Hok0 ltac:(constructor)) as (ns1 & E1 & Hok1 & Hfr & Hp). cbn in Hp.
  assert (Hls : Forall (link_ok (mScript <$> ns1)) (mLinks g)).
  { apply Forall_forall. intros l Hin. destruct (Hl l Hin) as (s & d & ? & ? & ? & Hs & Hd). exists s, d. split_and!; [done..| |]; by eapply nodes_scripts. }
  destruct (add_links_ok 0 (mLinks g) ns1 Hok1 Hls) as (ns & E2 & Hok & Hsame & Hlk). exists ns1, ns. split_and!; [done..|].
  assert (Hpre : forall i n, ns !! i = Some n -> exists m, fresh m /\ linked 0 (mLinks g) m n).
  { intros i n Hi. destruct (Forall2_lookup_r _ _ _ _ _ Hlk Hi) as (m & Hm & L). exists m. split; [by apply (Forall_lookup_1 _ _ _ _ Hfr Hm)|done]. }
  assert (Hpk : Some <$> kernels_of ns ≡ₚ mKernels g).
  { rewrite <- Hp. unfold kernels_of. by rewrite (same_kernels_kernels _ _ Hsame). }
  split; [done|done| | | |].
  - intros s Hs. apply script_node. by eapply nodes_scripts.
  - intros i n. apply (Forall_lookup_1 (fun n => NoDup (n_mOutputs n))). eapply (add_links_nodup 0 _ ns1); try done. eapply Forall_impl; [exact Hfr|].
    intros m (F1 & _). split; rewrite F1; [constructor|]. intros l Hin. by apply elem_of_nil in Hin.
  - intros i n l Hi. destruct (Hpre i n Hi) as (m & (F1 & _) & (_ & Es & _ & _ & L & _)). rewrite L, F1, Es. split.
    + intros [Hbad|(j & lk & -> & Hj & Hs)]; [by apply elem_of_nil in Hbad|by exists lk].
    + intros (lk & Hlk' & Hs). right. by exists l, lk.
  - intros i n l Hi. destruct (Hpre i n Hi) as (m & (_ & F2 & _) & (_ & Es & _ & _ & _ & L)). rewrite L, F2, Es. split.
    + intros [Hbad|(j & lk & -> & Hj & Hs)]; [by apply elem_of_nil in Hbad|by exists lk].
    + intros (lk & Hlk' & Hs). right. by exists l, lk.
Qed.

Lemma graph_target g ns l lk s b y :
  graph g ns -> mLinks g !! l = Some lk -> dst_script lk = Ok s -> ns !! b = Some y -> mScript y = s -> target (mLinks g) ns l = Ok b.
Proof. intros Hg Hl Hd Hb Hs. unfold target. rewrite Hl. cbn. rewrite Hd. cbn. rewrite <- Hs. apply the_node_hit; [apply Hg|done]. Qed.

(** An edge of the nodes is a link of the group. *)
Lemma graph_edge g ns a b :
  group_ok g -> graph g ns ->
  edge (mLinks g) ns a b <-> exists l lk x y, mLinks g !! l = Some lk /\ ns !! a = Some x /\ ns !! b = Some y /\ src_script lk = Ok (mScript x) /\ dst_script lk = Ok (mScript y).
Proof.
  intros Hok Hg. split.
  - intros (x & l & Hx & Hl & Ht). apply (gp_outputs _ _ Hg a x l Hx) in Hl as (lk & Hlk & Hs).
    destruct (gr_links _ Hok lk) as (s & d & Es & _ & Ed & _ & Hd); [by eapply list_elem_of_lookup_2|].
    destruct (gp_scripts _ _ Hg d Hd) as (b' & y & Hy & Ey). pose proof (graph_target g ns l lk d b' y Hg Hlk Ed Hy Ey) as Ht'. rewrite Ht in Ht'. injection Ht' as ->.
    exists l, lk, x, y. rewrite Ey. done.
  - intros (l & lk & x & y & Hl & Hx & Hy & Hs & Hd). exists x, l. split; [done|]. split; [apply (gp_outputs _ _ Hg a x l Hx); by exists lk|].
    by eapply graph_target.
Qed.

Lemma graph_targets g ns : group_ok g -> graph g ns -> targets_ok (mLinks g) ns.
Proof.
  intros Hok Hg i x l Hx Hl. apply (gp_outputs _ _ Hg i x l Hx) in Hl as (lk & Hlk & Hs).
  destruct (gr_links _ Hok lk) as (s & d & Es & _ & Ed & _ & Hd); [by eapply list_elem_of_lookup_2|].
  destruct (gp_scripts _ _ Hg d Hd) as (b & y & Hy & Ey). exists b. split; [by eapply graph_target|by eapply lookup_lt_Some].
Qed.

Lemma order_nodes_total ls k ct ns ret :
  targets_ok ls ns -> (ct + k <= length ns)%nat -> exists r ns', order_nodes k ct ls ns ret = Ok (r, ns').
Proof.
  revert ct ns ret. induction k as [|k IH]; intros ct ns ret Ht Hk; [by eexists _, _|]. cbn [order_nodes].
  destruct (lookup_lt_is_Some_2 ns ct ltac:(lia)) as [n En]. rewrite En. cbn [of_option mbind outcome_bind].
  destruct (n_mInputs n); cbn [mbind outcome_bind]; [|apply IH; [done|lia]].
  assert (Hcl : clear ns !! ct = Some (set_seen n false)) by (unfold clear; by rewrite list_lookup_fmap, En).
  destruct (calcOrderRecurse_total ls (S (length ns)) (clear ns) ct 0 _ (targets_ok_shape _ _ _ (clear_shape ns) Ht) Hcl eq_refl) as (r & ns1 & E).
  { rewrite <- (length_fmap (fun n => set_seen n false) ns). fold (clear ns). generalize (clear ns). intros l. apply le_S. induction l as [|y l IHl]; cbn; [lia|].
    unfold unseen at 1. destruct (mSeen y); lia. }
  unfold clear in E. rewrite E. cbn [mbind outcome_bind].
  destruct (pass_ordered _ _ _ _ _ _ E ltac:(lia)) as [Hs _]. apply IH; [by eapply targets_ok_shape|]. rewrite <- (same_shape_length _ _ Hs). lia.
Qed.

Lemma any_link_total ls ixs end_ k : (forall i, i ∈ ixs -> is_Some (ls !! i)) -> exists b, any_link ls ixs end_ k = Ok b.
Proof.
  induction ixs as [|i r IH]; intros Hi; cbn; [by eexists|]. destruct (Hi i ltac:(by left)) as [l ->]. cbn.
  destruct (decide _); [by eexists|]. apply IH. intros. apply Hi. by right.
Qed.

Lemma shape_nodes_ok ns ns' : same_shape ns ns' -> same_kernels ns ns'.
Proof.
  intros Hs. pose proof (f_equal (fmap (fun '(k, o, i, s) => (k, s))) Hs) as E. by rewrite <- !list_fmap_compose in E.
Qed.

Lemma graph_shape g ns ns' : same_shape ns ns' -> graph g ns -> graph g ns'.
Proof.
  intros Hs [G1 G2 G3 G6 G4 G5]. pose proof (shape_nodes_ok _ _ Hs) as Hk. split.
  - by eapply nodes_ok_same.
  - unfold kernels_of in *. by rewrite <- (same_kernels_kernels _ _ Hk).
  - intros s Hss. destruct (G3 s Hss) as (i & n & Hn & <-). destruct (shape_lookup _ _ _ _ Hs Hn) as (n' & Hn' & [= _ _ _ E]). exists i, n'. done.
  - intros i n Hn. destruct (shape_lookup ns' ns i n (eq_sym Hs) Hn) as (n' & Hn' & [= _ E1 _ _]). rewrite <- E1. by eapply G6.
  - intros i n l Hn. destruct (shape_lookup ns' ns i n (eq_sym Hs) Hn) as (n' & Hn' & [= _ E1 _ E2]). rewrite <- E1, <- E2. by eapply G4.
  - intros i n l Hn. destruct (shape_lookup ns' ns i n (eq_sym Hs) Hn) as (n' & Hn' & [= _ _ E1 E2]). rewrite <- E1, <- E2. by eapply G5.
Qed.

Lemma make_ios_total g ks ns ins outs :
  group_ok g -> graph g ns -> (forall k, k ∈ ks -> k ∈ mKernels g) -> exists ins' outs', make_ios ks (mLinks g) ns ins outs = Ok (ins', outs').
Proof.
  intros Hok Hg. revert ins outs. induction ks as [|k ks IH]; intros ins outs Hks; cbn; [by eexists _, _|].
  assert (Hk : k ∈ mKernels g) by (apply Hks; by left). destruct (proj1 (Forall_forall _ _) (gr_kernels _ Hok) k Hk) as (i & x & -> & Hx).
  cbn. rewrite Hx. cbn. destruct (gp_scripts _ _ Hg (k_mScript x)) as (j & n & Hj & <-); [by exists i, x|].
  rewrite (the_node_hit ns j n (gp_nodes _ _ Hg) Hj). cbn. rewrite Hj. cbn.
  destruct (any_link_total (mLinks g) (n_mOutputs n) mSource i) as (b1 & E1). { intros l (lk & Hlk & _)%(gp_outputs _ _ Hg j n l Hj). by exists lk. }
  destruct (any_link_total (mLinks g) (n_mInputs n) mDstKernel i) as (b2 & E2). { intros l (lk & Hlk & _)%(gp_inputs _ _ Hg j n l Hj). by exists lk. }
  assert (IH' : forall ins outs, exists ins' outs', make_ios ks (mLinks g) ns ins outs = Ok (ins', outs')) by (intros; apply IH; intros; apply Hks; by right).
  destruct (mHasKernelOutput x), (mHasKernelInput x); rewrite ?E1; cbn; rewrite ?E2; apply IH'.
Qed.

Lemma calcOrder_inv compat g :
  group_ok g ->
  exists ns0 r ns g', calcOrder compat g = Ok (r, g') /\ graph g ns0 /\ order_nodes (length ns0) 0 (mLinks g) ns0 true = Ok (r, ns) /\ graph g ns /\
    mKernels g' = mKernels g /\ mLinks g' = mLinks g /\ mNodes g' = sort (if compat then NodeCompare else CompareNodeForSort) ns.
Proof.
  intros Hok. destruct (build_ok g Hok) as (ns1 & ns0 & E1 & E2 & Hg).
  destruct (order_nodes_total (mLinks g) (length ns0) 0 ns0 true (graph_targets g ns0 Hok Hg) ltac:(lia)) as (r & ns & E3).
  destruct (order_nodes_ok _ _ _ _ _ _ _ E3) as [Hs _]. pose proof (graph_shape g ns0 ns Hs Hg) as Hg'.
  destruct (make_ios_total g (mKernels g) ns (mInputs g) (mOutputs g) Hok Hg' ltac:(done)) as (ins & outs & E4).
  exists ns0, r, ns. eexists. split_and!; [|done|done|done|..]; [unfold calcOrder; rewrite E1; cbn [mbind outcome_bind]; rewrite E2; cbn [mbind outcome_bind]; rewrite E3; cbn [mbind outcome_bind]; rewrite E4; done|done..].
Qed.

(** ** Groups the search accepts *)

Section accept.
Context (ls : list Link).

Definition seen (ns : list Node) (i : nat) : bool := match ns !! i with Some x => mSeen x | None => false end.

(** No node is entered by two links. *)
Record single (ns : list Node) : Prop := {
  si_nodup : forall a x, ns !! a = Some x -> NoDup (n_mOutputs x);
  si_source : forall a b x y l l' t, ns !! a = Some x -> ns !! b = Some y -> l ∈ n_mOutputs x -> l' ∈ n_mOutputs y ->
    target ls ns l = Ok t -> target ls ns l' = Ok t -> a = b /\ l = l'
}.

(** The source of an edge to a marked node is marked. *)
Definition closed (ns : list Node) : Prop := forall a b, edge ls ns a b -> seen ns b = true -> seen ns a = true.

Lemma single_shape ns ns' : same_shape ns ns' -> single ns -> single ns'.
Proof.
  intros Hs [S1 S2]. pose proof (eq_sym Hs : same_shape ns' ns) as Hs'. split.
  - intros a x Hx. destruct (shape_lookup _ _ _ _ Hs' Hx) as (y & Hy & [= _ E _ _]). rewrite <- E. by eapply S1.
  - intros a b x y l l' t Hx Hy. destruct (shape_lookup _ _ _ _ Hs' Hx) as (x' & Hx' & [= _ E1 _ _]), (shape_lookup _ _ _ _ Hs' Hy) as (y' & Hy' & [= _ E2 _ _]).
    rewrite <- E1, <- E2, <- !(target_shape ls ns ns' _ Hs). by eapply S2.
Qed.

Lemma single_edge ns a b t : single ns -> edge ls ns a t -> edge ls ns b t -> a = b.
Proof. intros Hsi (x & l & Hx & Hl & Ht) (y & l' & Hy & Hl' & Ht'). by eapply (si_source ns Hsi a b x y l l' t). Qed.

Lemma visited_seen ns ns' r i : visited ls ns ns' r -> seen ns i = true -> seen ns' i = true.
Proof. intros Hv. unfold seen. destruct (ns !! i) as [x|] eqn:Hx; [|done]. intros Hs. by rewrite (vi_kept _ _ _ _ Hv i x Hx Hs). Qed.

Lemma visited_unseen ns ns' r i : visited ls ns ns' r -> seen ns' i = false -> seen ns i = false.
Proof. intros Hv Hs. destruct (seen ns i) eqn:E; [|done]. by rewrite (visited_seen _ _ _ _ Hv E) in Hs. Qed.

Lemma seen_lookup ns i x : ns !! i = Some x -> seen ns i = mSeen x.
Proof. intros Hx. unfold seen. by rewrite Hx. Qed.

(** What a search from an unmarked node does when all edges to it come from marked nodes. *)
Definition accepts (recurse : list Node -> nat -> Z -> outcome (bool * list Node)) : Prop :=
  forall ns n d r ns' x, recurse ns n d = Ok (r, ns') -> ns !! n = Some x -> mSeen x = false -> single ns -> closed ns ->
    (forall a, edge ls ns a n -> seen ns a = true) ->
    r = true /\ closed ns' /\ forall i a, seen ns i = false -> seen ns' i = true -> i <> n -> edge ls ns a i -> seen ns a = false.

Lemma visit_outputs_accepts recurse n outs ns ret r ns' x :
  recurse_ok ls recurse -> accepts recurse -> visit_outputs recurse ls n outs ns ret = Ok (r, ns') ->
  ns !! n = Some x -> mSeen x = true -> single ns -> closed ns -> NoDup outs -> (forall l, l ∈ outs -> l ∈ n_mOutputs x) ->
  (forall l b, l ∈ outs -> target ls ns l = Ok b -> seen ns b = false) ->
  r = ret /\ closed ns' /\ forall i a, seen ns i = false -> seen ns' i = true -> edge ls ns a i -> a = n \/ seen ns a = false.
Proof.
  intros Hok Hrec. revert ns ret x. induction outs as [|l outs IH]; intros ns ret x Hv Hx Hs Hsi Hcl Hnd Hin Hun; cbn in Hv.
  { injection Hv as <- <-. split_and!; [done..|]. intros. congruence. }
  apply NoDup_cons in Hnd as [Hl Hnd]. destruct (ls !! l) as [lk|] eqn:El; [|done]. cbn in Hv. destruct (dst_script lk) as [s|] eqn:Ed; [|done]. cbn in Hv.
  destruct (the_node ns s) as [nt|] eqn:En; [|done]. cbn in Hv. destruct (ns !! nt) as [t|] eqn:Et; [|done]. cbn in Hv.
  assert (Htg : target ls ns l = Ok nt) by (unfold target; rewrite El; cbn; by rewrite Ed).
  assert (Hedge : edge ls ns n nt) by (exists x, l; split_and!; [done|apply Hin; by left|done]).
  pose proof (Hun l nt ltac:(by left) Htg) as Hnt. rewrite (seen_lookup _ _ _ Et) in Hnt. rewrite Hnt in Hv. rewrite Hx in Hv. cbn in Hv.
  destruct (recurse _ _ _) as [[r1 ns1]|] eqn:Er; [|done]. cbn in Hv.
  assert (Hn : seen ns n = true) by (by rewrite (seen_lookup _ _ _ Hx)).
  destruct (Hrec _ _ _ _ _ _ Er Et Hnt Hsi Hcl) as (-> & Hcl1 & Hnew). { intros a Ha. by rewrite (single_edge _ _ _ _ Hsi Ha Hedge). }
  destruct (Hok _ _ _ _ _ _ Er Et Hnt) as (Hvis & _). pose proof (vi_shape _ _ _ _ Hvis) as Hsh.
  destruct (IH ns1 _ x Hv) as (-> & Hcl' & Hnew'); [by apply (vi_kept _ _ _ _ Hvis)|done|by eapply single_shape|done|done|intros; apply Hin; by right| |].
  - intros l' b Hl' Hb. rewrite <- (target_shape ls ns ns1 l' Hsh) in Hb. pose proof (Hun l' b ltac:(by right) Hb) as Hb0.
    destruct (seen ns1 b) eqn:Hb1; [|done]. exfalso. destruct (decide (b = nt)) as [->|Hne].
    + destruct (si_source _ Hsi n n x x l l' nt) as [_ <-]; try done; apply Hin; [by left|by right].
    + rewrite (Hnew b n Hb0 Hb1 Hne) in Hn; [done|]. exists x, l'. split_and!; [done|apply Hin; by right|done].
  - split_and!; [by rewrite andb_true_r|done|]. intros i a Hi Hi' Ha. destruct (seen ns1 i) eqn:Hi1.
    + destruct (decide (i = nt)) as [->|Hne]; [left; by eapply single_edge|right; by eapply Hnew].
    + destruct (Hnew' i a Hi1 Hi') as [->|Ha']; [by eapply edge_shape|by left|right; by eapply visited_unseen].
Qed.

Lemma seen_mark ns n x1 i : (n < length ns)%nat -> mSeen x1 = true -> seen (<[n := x1]> ns) i = bool_decide (i = n) || seen ns i.
Proof.
  intros Hn Hs. unfold seen. destruct (decide (i = n)) as [->|Hne].
  - rewrite list_lookup_insert_eq by done. by rewrite bool_decide_eq_true_2, Hs.
  - rewrite list_lookup_insert_ne by done. by rewrite bool_decide_eq_false_2.
Qed.

Lemma calcOrderRecurse_accepts fuel : accepts (calcOrderRecurse fuel ls).
Proof.
  induction fuel as [|fuel IH]; [done|]. intros ns n d r ns' x Hc Hx Hs Hsi Hcl Hin. cbn in Hc. unfold upd_node in Hc. rewrite Hx in Hc. cbn in Hc.
  pose proof (lookup_lt_Some _ _ _ Hx) as Hlt. rewrite list_lookup_insert_eq in Hc by done. cbn in Hc. set (x1 := raise_order (set_seen x true) d) in *.
  set (ns1 := <[n := x1]> ns) in *. assert (Hx1 : ns1 !! n = Some x1) by (by apply list_lookup_insert_eq).
  assert (Hsh : same_shape ns ns1). { unfold same_shape, ns1. rewrite list_fmap_insert. symmetry. apply list_insert_id. by rewrite list_lookup_fmap, Hx. }
  assert (Hseen : forall i, seen ns1 i = bool_decide (i = n) || seen ns i) by (intros; by apply seen_mark).
  assert (Hback : forall a b, edge ls ns1 a b -> edge ls ns a b) by (intros a b; by apply edge_shape).
  assert (Hn : seen ns n = false) by (by rewrite (seen_lookup _ _ _ Hx)).
  destruct (visit_outputs_accepts _ n _ ns1 true r ns' x1 (calcOrderRecurse_ok ls fuel) IH Hc Hx1 eq_refl) as (-> & Hcl' & Hnew).
  - by eapply single_shape.
  - intros a b Hab%Hback Hb. rewrite Hseen in Hb |- *. apply orb_true_iff. right. apply orb_true_iff in Hb as [->%bool_decide_eq_true_1|Hb]; [by apply Hin|by eapply Hcl].
  - apply (si_nodup _ Hsi n x Hx).
  - done.
  - intros l b Hl Hb. assert (He : edge ls ns n b) by (exists x, l; split_and!; [done..|by rewrite (target_shape ls ns ns1)]).
    rewrite Hseen. apply orb_false_iff. split; [apply bool_decide_eq_false_2; intros ->; by rewrite (Hin n He) in Hn|].
    destruct (seen ns b) eqn:E; [|done]. by rewrite (Hcl n b He E) in Hn.
  - split_and!; [done..|]. intros i a Hi Hi' Hne Ha. destruct (Hnew i a) as [->|Ha']; [rewrite Hseen, Hi; by rewrite bool_decide_eq_false_2|done|by eapply edge_shape|done|].
    rewrite Hseen in Ha'. by apply orb_false_iff in Ha' as [_ ?].
Qed.

Lemma order_nodes_accepts k ct ns ret r ns' :
  order_nodes k ct ls ns ret = Ok (r, ns') -> single ns -> (forall i a, root ns i -> ~ edge ls ns a i) -> r = ret.
Proof.
  revert ct ns ret. induction k as [|k IH]; intros ct ns ret Ho Hsi Hr; cbn [order_nodes] in Ho; [by injection Ho|].
  destruct (ns !! ct) as [n|] eqn:En; [|done]. cbn [of_option mbind outcome_bind] in Ho. destruct (n_mInputs n) as [|i0 ins] eqn:Ein; [|cbn [mbind outcome_bind] in Ho; by eapply IH].
  destruct (calcOrderRecurse _ _ _ _ _) as [[r1 ns1]|] eqn:Ec; [|done]. cbn [mbind outcome_bind] in Ho.
  destruct (pass_ordered ls _ _ _ _ _ Ec (lookup_lt_Some _ _ _ En)) as [Hs1 _].
  assert (Hcs : forall i, seen (clear ns) i = false). { intros i. unfold seen. destruct (clear ns !! i) as [y|] eqn:Ey; [|done]. by apply clear_lookup in Ey as [? _]. }
  destruct (calcOrderRecurse_accepts _ (clear ns) ct 0 r1 ns1 (set_seen n false) Ec) as (-> & _); try done.
  - unfold clear. by rewrite list_lookup_fmap, En.
  - eapply single_shape; [apply clear_shape|done].
  - intros a b _ Hb. by rewrite Hcs in Hb.
  - intros a Ha. exfalso. apply (Hr ct a); [by exists n|]. eapply edge_shape; [symmetry; apply clear_shape|done].
  - rewrite andb_true_r in Ho. apply (IH _ _ _ Ho); [by eapply single_shape|]. intros i a (y & Hy & Hyi) Ha.
    destruct (shape_lookup ns1 ns i y (eq_sym Hs1) Hy) as (z & Hz & [= _ _ E _]). apply (Hr i a); [exists z; by rewrite E|]. by eapply edge_shape.
Qed.

End accept.

(** ** The order of a group *)

(** What the code relies on of the sort of the library: a permutation in which no element
    belongs before an earlier one. *)
Definition sorts (before : Node -> Node -> bool) : Prop :=
  forall ns, sort before ns ≡ₚ ns /\
    forall i j x y, (i < j)%nat -> sort before ns !! i = Some x -> sort before ns !! j = Some y -> before y x = false.

Definition acyclic (g : ScriptGroup) : Prop :=
  exists rank : Z -> nat, forall l s d, l ∈ mLinks g -> src_script l = Ok s -> dst_script l = Ok d -> (rank s < rank d)%nat.

(** No script is fed by two links. *)
Definition one_input (g : ScriptGroup) : Prop :=
  forall i j l l' d, mLinks g !! i = Some l -> mLinks g !! j = Some l' -> dst_script l = Ok d -> dst_script l' = Ok d -> i = j.

(** The node of the source of every link comes before the node of its destination. *)
Definition runs_in_order (g : ScriptGroup) : Prop :=
  forall l s d i j x y, l ∈ mLinks g -> src_script l = Ok s -> dst_script l = Ok d ->
    mNodes g !! i = Some x -> mScript x = s -> mNodes g !! j = Some y -> mScript y = d -> (i < j)%nat.

(** The same the other way round. *)
Definition runs_backwards (g : ScriptGroup) : Prop :=
  forall l s d i j x y, l ∈ mLinks g -> src_script l = Ok s -> dst_script l = Ok d ->
    mNodes g !! i = Some x -> mScript x = s -> mNodes g !! j = Some y -> mScript y = d -> (j < i)%nat.

Lemma link_into g ns b y l :
  group_ok g -> graph g ns -> ns !! b = Some y -> l ∈ n_mInputs y ->
  exists lk a x, mLinks g !! l = Some lk /\ ns !! a = Some x /\ src_script lk = Ok (mScript x) /\ dst_script lk = Ok (mScript y).
Proof.
  intros Hok Hg Hb (lk & Hlk & Hin)%(gp_inputs _ _ Hg b y l Hb).
  destruct (gr_links _ Hok lk) as (s & d & Es & Ei & Ed & Hs & Hd); [by eapply list_elem_of_lookup_2|]. rewrite Hin in Ei. injection Ei as <-.
  destruct (gp_scripts _ _ Hg s Hs) as (a & x & Ha & <-). by exists lk, a, x.
Qed.

Lemma reached g ns b y :
  group_ok g -> graph g ns -> acyclic g -> ns !! b = Some y -> exists a, root ns a /\ rtc (edge (mLinks g) ns) a b.
Proof.
  intros Hok Hg [rank Hrank]. remember (rank (mScript y)) as m eqn:Em. revert b y Em. induction m as [m IH] using lt_wf_ind. intros b y Em Hb.
  destruct (n_mInputs y) as [|l r] eqn:Ein; [exists b; split; [by exists y|constructor]|].
  destruct (link_into g ns b y l Hok Hg Hb) as (lk & a & x & Hlk & Ha & Hs & Hd); [rewrite Ein; by left|].
  assert (He : edge (mLinks g) ns a b) by (apply graph_edge; [done..|]; by exists l, lk, x, y).
  pose proof (Hrank lk _ _ (list_elem_of_lookup_2 _ _ _ Hlk) Hs Hd) as Hlt.
  destruct (IH (rank (mScript x)) ltac:(lia) a x eq_refl Ha) as (i & Hi & Hr). exists i. split; [done|]. by eapply rtc_r.
Qed.

Lemma graph_root g ns i a : group_ok g -> graph g ns -> root ns i -> ~ edge (mLinks g) ns a i.
Proof.
  intros Hok Hg (y & Hy & Hin) He. apply graph_edge in He as (l & lk & x & y' & Hl & Hx & Hy' & Hs & Hd); [|done..]. rewrite Hy in Hy'. injection Hy' as <-.
  destruct (gr_links _ Hok lk) as (s & d & Es & Ei & Ed & _); [by eapply list_elem_of_lookup_2|].
  assert (Hbad : l ∈ n_mInputs y). { apply (gp_inputs _ _ Hg i y l Hy). exists lk. split; [done|]. rewrite Ei. congruence. }
  rewrite Hin in Hbad. by apply elem_of_nil in Hbad.
Qed.

(** In an accepted group without cycles the orders grow along the links. *)
Lemma orders_grow compat g g' :
  group_ok g -> acyclic g -> calcOrder compat g = Ok (true, g') ->
  exists ns, mNodes g' = sort (if compat then NodeCompare else CompareNodeForSort) ns /\ mLinks g' = mLinks g /\
    forall l s d x y, l ∈ mLinks g -> src_script l = Ok s -> dst_script l = Ok d -> x ∈ ns -> mScript x = s -> y ∈ ns -> mScript y = d -> mOrder x < mOrder y.
Proof.
  intros Hok Hac Hc. destruct (calcOrder_inv compat g Hok) as (ns0 & r & ns & g1 & E & Hg0 & Ho & Hg & _ & Hl & Hn). rewrite Hc in E. injection E as <- <-.
  exists ns. split_and!; [done..|]. intros l s d x y [i Hi]%list_elem_of_lookup Hs Hd [a Ha]%list_elem_of_lookup <- [b Hb]%list_elem_of_lookup <-.
  destruct (order_nodes_ok _ _ _ _ _ _ _ Ho) as [Hsh Hr]. destruct (Hr eq_refl) as (_ & _ & Hroots).
  destruct (shape_lookup ns ns0 a x (eq_sym Hsh) Ha) as (x0 & Hx0 & _). destruct (reached g ns0 a x0 Hok Hg0 Hac Hx0) as (i0 & Hroot & Hreach).
  assert (Hi0 : (i0 < length ns0)%nat) by (destruct Hroot as (z & Hz & _); by eapply lookup_lt_Some).
  destruct (Hroots i0 a ltac:(lia) Hroot Hreach b) as (x' & y' & Hx' & Hy' & Hlt); [|by simplify_eq].
  apply graph_edge; [done..|]. by exists i, l, x, y.
Qed.

(** The search accepts every group in which no script is fed twice. *)
Lemma one_input_accepted compat g : group_ok g -> one_input g -> exists g', calcOrder compat g = Ok (true, g').
Proof.
  intros Hok H1. destruct (calcOrder_inv compat g Hok) as (ns0 & r & ns & g' & E & Hg0 & Ho & _). exists g'. rewrite E. do 2 f_equal.
  apply (order_nodes_accepts (mLinks g) _ _ _ _ _ _ Ho); [|intros i a; by apply graph_root].
  split; [intros a x; apply (gp_nodup _ _ Hg0)|]. intros a b x y l l' t Hx Hy Hl Hl' Ht Ht'.
  apply (gp_outputs _ _ Hg0 a x l Hx) in Hl as (lk & Hlk & Hs). apply (gp_outputs _ _ Hg0 b y l' Hy) in Hl' as (lk' & Hlk' & Hs').
  destruct (gr_links _ Hok lk) as (s & d & Es & _ & Ed & _ & Hd); [by eapply list_elem_of_lookup_2|].
  destruct (gr_links _ Hok lk') as (s' & d' & Es' & _ & Ed' & _ & Hd'); [by eapply list_elem_of_lookup_2|].
  destruct (gp_scripts _ _ Hg0 d Hd) as (j & z & Hz & Ez), (gp_scripts _ _ Hg0 d' Hd') as (j' & z' & Hz' & Ez').
  rewrite (graph_target g ns0 l lk d j z Hg0 Hlk Ed Hz Ez) in Ht. rewrite (graph_target g ns0 l' lk' d' j' z' Hg0 Hlk' Ed' Hz' Ez') in Ht'.
  injection Ht as <-. injection Ht' as ->. assert (d = d') as <- by congruence.
  pose proof (H1 l l' lk lk' d Hlk Hlk' Ed Ed') as <-. split; [|done].
  eapply (NoDup_lookup (mScript <$> ns0) a b); [apply Hg0|rewrite list_lookup_fmap, Hx; done|rewrite list_lookup_fmap, Hy; cbn; congruence].
Qed.

Lemma sorted_before (compat : bool) g g' :
  group_ok g -> acyclic g -> calcOrder compat g = Ok (true, g') -> sorts (if compat then NodeCompare else CompareNodeForSort) ->
  forall l s d i j x y, l ∈ mLinks g' -> src_script l = Ok s -> dst_script l = Ok d ->
    mNodes g' !! i = Some x -> mScript x = s -> mNodes g' !! j = Some y -> mScript y = d -> if compat then (j < i)%nat else (i < j)%nat.
Proof.
  intros Hok Hac Hc Hsort l s d i j x y Hl Hs Hd Hx Ex Hy Ey. destruct (orders_grow compat g g' Hok Hac Hc) as (ns & En & El & Hgrow).
  rewrite En in Hx, Hy. rewrite El in Hl. destruct (Hsort ns) as [Hperm Hsorted].
  assert (Hlt : mOrder x < mOrder y).
  { apply (Hgrow l s d x y Hl Hs Hd); try done; rewrite <- Hperm; by eapply list_elem_of_lookup_2. }
  destruct (decide (i = j)) as [->|Hne]; [simplify_eq; lia|]. destruct compat; apply not_ge; intros Hge.
  - pose proof (Hsorted i j x y ltac:(lia) Hx Hy) as Hb. unfold NodeCompare in Hb. lia.
  - pose proof (Hsorted j i y x ltac:(lia) Hy Hx) as Hb. unfold CompareNodeForSort in Hb. lia.
Qed.

(** ordering a group always ends without a fault when its kernels exist and its links
    connect its own scripts, in both builds; every kernel of the group ends up in a node,
    as often as it was given. *)
Theorem calcOrder_terminates (compat : bool) g :
  group_ok g -> sorts (if compat then NodeCompare else CompareNodeForSort) ->
  exists r g', calcOrder compat g = Ok (r, g') /\ Some <$> kernels_of (mNodes g') ≡ₚ mKernels g.
Proof.
  intros Hok Hsort. destruct (calcOrder_inv compat g Hok) as (ns0 & r & ns & g' & E & _ & _ & Hg & _ & _ & En). exists r, g'. split; [done|].
  rewrite <- (gp_kernels _ _ Hg), En. destruct (Hsort ns) as [Hp _]. unfold kernels_of. by rewrite Hp.
Qed.

(** in the full build, when the ordering of a group without cycles succeeds, the node
    of every link's source comes before the node of its destination, so that a producer is
    launched before its consumers. *)
Theorem calcOrder_sound g g' :
  group_ok g -> acyclic g -> sorts CompareNodeForSort -> calcOrder false g = Ok (true, g') -> runs_in_order g'.
Proof. intros Hok Hac Hsort Hc l s d i j x y. apply (sorted_before false g g' Hok Hac Hc Hsort). Qed.

(** a group without cycles in which no script is fed by two links is always accepted
    and, in the full build, ordered so that producers come first. *)
Theorem single_input_ordered g :
  group_ok g -> acyclic g -> one_input g -> sorts CompareNodeForSort -> exists g', calcOrder false g = Ok (true, g') /\ runs_in_order g'.
Proof.
  intros Hok Hac H1 Hsort. destruct (one_input_accepted false g Hok H1) as (g' & E). exists g'. split; [done|].
  intros l s d i j x y. apply (sorted_before false g g' Hok Hac E Hsort).
Qed.

(** in the compatibility build the comparison handed to [std::sort] puts the larger order
    first: whenever the ordering succeeds, every consumer comes before its producer. *)
Theorem compat_reverses g g' :
  group_ok g -> acyclic g -> sorts NodeCompare -> calcOrder true g = Ok (true, g') -> runs_backwards g'.
Proof. intros Hok Hac Hsort Hc l s d i j x y. apply (sorted_before true g g' Hok Hac Hc Hsort). Qed.

(** ** The allocations of the links *)

Definition give (src : option positive) (a : option positive) (l : Link) : Link := if decide (mSource l = src) then set_alloc l a else l.

(** The allocations made so far, for the links whose turn was ([done]): one for each source. *)
Record alloc_inv (done : list nat) (ls : list Link) (st : allocs) : Prop := {
  ai_bound : forall l a, l ∈ ls -> mAlloc l = Some a -> (a < a_next st)%positive;
  ai_source : forall l l' a, l ∈ ls -> l' ∈ ls -> mAlloc l = Some a -> mAlloc l' = Some a -> mSource l = mSource l';
  ai_shared : forall l l', l ∈ ls -> l' ∈ ls -> mSource l = mSource l' -> mAlloc l = mAlloc l';
  ai_done : forall i l, i ∈ done -> ls !! i = Some l -> is_Some (mAlloc l)
}.

Definition ends (l : Link) := (mSource l, mDstKernel l, mDstField l, mType l).

Lemma share_alloc_spec outs src a ls :
  (forall i, i ∈ outs -> is_Some (ls !! i)) ->
  exists ls', share_alloc outs src a ls = Ok ls' /\ forall j, ls' !! j = (fun l => if decide (j ∈ outs) then give src a l else l) <$> ls !! j.
Proof.
  revert ls. induction outs as [|i r IH]; intros ls Hi; cbn.
  { exists ls. split; [done|]. intros j. destruct (ls !! j); [|done]. cbn. rewrite decide_False; [done|]. apply not_elem_of_nil. }
  destruct (Hi i ltac:(by left)) as [l El]. rewrite El. cbn.
  assert (Hstep : exists ls1, (if decide (mSource l = src) then upd_link ls i (fun l => set_alloc l a) else Ok ls) = Ok ls1 /\ ls1 = <[i := give src a l]> ls).
  { unfold give. case_decide; [unfold upd_link; rewrite El; cbn; by eexists|]. exists ls. split; [done|]. by rewrite list_insert_id. }
  destruct Hstep as (ls1 & -> & ->). cbn. pose proof (lookup_lt_Some _ _ _ El) as Hlt.
  destruct (IH (<[i := give src a l]> ls)) as (ls' & E & Hls'). { intros j Hj. apply lookup_lt_is_Some_2. rewrite length_insert. apply lookup_lt_is_Some_1, Hi. by right. }
  exists ls'. split; [done|]. intros j. rewrite Hls'. destruct (decide (j = i)) as [->|Hne].
  - rewrite list_lookup_insert_eq, El by done. cbn. f_equal. rewrite (decide_True (P := i ∈ i :: r)) by (by left). case_decide; [|done].
    unfold give. destruct (decide (mSource l = src)) as [E1|E1]; [cbn; by rewrite decide_True|by rewrite decide_False].
  - rewrite list_lookup_insert_ne by done. destruct (ls !! j); [|done]. cbn. f_equal. destruct (decide (j ∈ r)) as [Hin|Hin].
    + rewrite decide_True; [done|]. by right.
    + rewrite decide_False; [done|]. rewrite elem_of_cons. by intros [|].
Qed.

Lemma give_inv done ls st i src l :
  alloc_inv done ls st -> ls !! i = Some l -> mAlloc l = None -> mSource l = src ->
  alloc_inv (i :: done) (give src (Some (a_next st)) <$> ls) (mkAllocs (Pos.succ (a_next st)) (<[a_next st := mType l]> (a_types st))).
Proof.
  intros [A1 A2 A3 A4] Hi Hnone Hsrc. assert (Hl : l ∈ ls) by (by eapply list_elem_of_lookup_2).
  assert (Hnew : forall m, m ∈ ls -> mSource m = src -> mAlloc m = None) by (intros m Hm E; rewrite (A3 m l); [done..|congruence]).
  assert (Hg : forall m, m ∈ ls -> mSource (give src (Some (a_next st)) m) = mSource m /\
     mAlloc (give src (Some (a_next st)) m) = if decide (mSource m = src) then Some (a_next st) else mAlloc m).
  { intros m _. unfold give. by destruct (decide (mSource m = src)). }
  split.
  - intros m a (m0 & -> & Hm0)%list_elem_of_fmap. destruct (Hg m0 Hm0) as [_ ->]. cbn. destruct (decide _); [intros [= <-]; lia|]. intros Ha. pose proof (A1 m0 a Hm0 Ha). lia.
  - intros m m' a (m0 & -> & Hm0)%list_elem_of_fmap (m1 & -> & Hm1)%list_elem_of_fmap. destruct (Hg m0 Hm0) as [-> ->], (Hg m1 Hm1) as [-> ->].
    destruct (decide _), (decide _); try congruence; [|..|by apply A2].
    + intros [= <-] Ha. pose proof (A1 m1 _ Hm1 Ha). lia.
    + intros Ha [= <-]. pose proof (A1 m0 _ Hm0 Ha). lia.
  - intros m m' (m0 & -> & Hm0)%list_elem_of_fmap (m1 & -> & Hm1)%list_elem_of_fmap. destruct (Hg m0 Hm0) as [-> ->], (Hg m1 Hm1) as [-> ->].
    intros E. rewrite E. destruct (decide _); [done|]. by apply A3.
  - intros j m Hj Hm. rewrite list_lookup_fmap in Hm. destruct (ls !! j) as [m0|] eqn:Em; [|done]. injection Hm as <-.
    destruct (Hg m0) as [_ ->]; [by eapply list_elem_of_lookup_2|]. destruct (decide _) as [|Hne]; [done|].
    apply elem_of_cons in Hj as [->|Hj]; [congruence|]. by eapply A4.
Qed.

Lemma alloc_inv_done done done' ls st : (forall i, i ∈ done' -> i ∈ done) -> alloc_inv done ls st -> alloc_inv done' ls st.
Proof. intros Hd [A1 A2 A3 A4]. split; try done. intros i l Hi%Hd. by apply A4. Qed.

Lemma give_ends src a (ls : list Link) : ends <$> (give src a <$> ls) = ends <$> ls.
Proof. rewrite <- list_fmap_compose. apply list_fmap_ext. intros _ l _. cbn. unfold give. by destruct (decide _). Qed.

Lemma alloc_step done i r ls st l :
  alloc_inv done ls st -> ls !! i = Some l -> mAlloc l = None -> (forall i, i ∈ r -> is_Some (ls !! i)) ->
  (forall j l', ls !! j = Some l' -> mSource l = mSource l' -> j ∈ done \/ j ∈ i :: r) ->
  forall a, (ls1 ← upd_link ls i (fun l => set_alloc l a); share_alloc r (mSource l) a ls1) = Ok (give (mSource l) a <$> ls).
Proof.
  intros Hinv Hi Hnone Hr Hsrc a. unfold upd_link. rewrite Hi. cbn. pose proof (lookup_lt_Some _ _ _ Hi) as Hlt.
  destruct (share_alloc_spec r (mSource l) a (<[i := set_alloc l a]> ls)) as (ls' & -> & Hls').
  { intros j Hj. apply lookup_lt_is_Some_2. rewrite length_insert. by apply lookup_lt_is_Some_1, Hr. }
  f_equal. apply list_eq. intros j. rewrite Hls', list_lookup_fmap. destruct (decide (j = i)) as [->|Hne].
  - rewrite list_lookup_insert_eq, Hi by done. cbn. unfold give. cbn. rewrite !(decide_True (P := mSource l = mSource l)) by done. by destruct (decide (i ∈ r)).
  - rewrite list_lookup_insert_ne by done. destruct (ls !! j) as [l'|] eqn:Hj; [|done]. cbn. f_equal. destruct (decide (j ∈ r)) as [|Hjr]; [done|].
    unfold give. destruct (decide _) as [E|]; [|done]. exfalso. destruct (Hsrc j l' Hj (eq_sym E)) as [Hd|[->|Hin]%elem_of_cons]; [|done..].
    destruct (ai_done _ _ _ Hinv j l' Hd Hj) as [b Hb]. rewrite (ai_shared _ _ _ Hinv l' l) in Hb; [congruence|by eapply list_elem_of_lookup_2..|done].
Qed.

Lemma alloc_outputs_ok done outs ls st :
  alloc_inv done ls st -> (forall l, l ∈ ls -> alloc_ok (mType l) = true) -> (forall i, i ∈ outs -> is_Some (ls !! i)) ->
  (forall i j l l', i ∈ outs -> ls !! i = Some l -> ls !! j = Some l' -> mSource l = mSource l' -> j ∈ done \/ j ∈ outs) ->
  exists ls' st', alloc_outputs outs ls st = Ok (ls', st') /\ alloc_inv (outs ++ done) ls' st' /\ ends <$> ls' = ends <$> ls.
Proof.
  revert done ls st. induction outs as [|i r IH]; intros done ls st Hinv Hok Hval Hsrc; [by exists ls, st|].
  destruct (Hval i ltac:(by left)) as [l Hi]. cbn [alloc_outputs]. rewrite Hi. cbn [of_option mbind outcome_bind].
  assert (Hl : l ∈ ls) by (by eapply list_elem_of_lookup_2).
  assert (Hfin : forall done' ls' st', alloc_inv (r ++ done') ls' st' -> (forall j, j ∈ done' <-> j ∈ i :: done) -> alloc_inv ((i :: r) ++ done) ls' st').
  { intros done' ls' st' Hinv' Hd. eapply alloc_inv_done; [|exact Hinv']. intros j. rewrite !elem_of_app, Hd, !elem_of_cons. tauto. }
  destruct (mAlloc l) as [b|] eqn:Eb; cbn [mbind outcome_bind].
  - destruct (IH (i :: done) ls st) as (ls' & st' & E & Hinv' & He); [|done|intros; apply Hval; by right| |].
    + destruct Hinv as [A1 A2 A3 A4]. split; try done. intros j l' [->|Hj]%elem_of_cons Hl'; [simplify_eq; by rewrite Eb|by eapply A4].
    + intros j k l1 l2 Hj H1 H2 Hs. destruct (Hsrc j k l1 l2) as [|Hk]; [by right|done..|left; by right|]. apply elem_of_cons in Hk as [->|]; [left; by left|by right].
    + exists ls', st'. split_and!; [done|by eapply Hfin|done].
  - unfold createAllocation. rewrite (Hok l Hl). cbn [mbind outcome_bind].
    pose proof (alloc_step done i r ls st l Hinv Hi Eb) as Hstep. specialize (Hstep ltac:(intros; apply Hval; by right)).
    specialize (Hstep ltac:(intros j l' Hj Hs; by eapply (Hsrc i j l l'); [left|..]) (Some (a_next st))).
    destruct (upd_link ls i _) as [ls1|]; [|done]. cbn [mbind outcome_bind] in Hstep |- *. rewrite Hstep. cbn [mbind outcome_bind].
    pose proof (give_inv done ls st i (mSource l) l Hinv Hi Eb eq_refl) as Hinv1.
    assert (Hlook : forall j l', (give (mSource l) (Some (a_next st)) <$> ls) !! j = Some l' -> exists l0, ls !! j = Some l0 /\ ends l' = ends l0).
    { intros j l' Hj. rewrite list_lookup_fmap in Hj. destruct (ls !! j) as [l0|]; [|done]. injection Hj as <-. exists l0. split; [done|]. unfold give. by destruct (decide _). }
    edestruct (IH (i :: done) (give (mSource l) (Some (a_next st)) <$> ls)) as (ls' & st' & E & Hinv' & He); [exact Hinv1|..].
    + intros l' [j Hj]%list_elem_of_lookup. destruct (Hlook j l' Hj) as (l0 & Hl0 & [= _ _ _ ->]). apply Hok. by eapply list_elem_of_lookup_2.
    + intros j Hj. rewrite list_lookup_fmap. apply fmap_is_Some, Hval. by right.
    + intros j k l1 l2 Hj H1 H2 Hs. destruct (Hlook j l1 H1) as (m1 & Hm1 & [= E1 _ _ _]), (Hlook k l2 H2) as (m2 & Hm2 & [= E2 _ _ _]).
      destruct (Hsrc j k m1 m2) as [|Hk]; [by right|done..|congruence|left; by right|]. apply elem_of_cons in Hk as [->|]; [left; by left|by right].
    + exists ls', st'. split_and!; [done|by eapply Hfin|by rewrite He, give_ends].
Qed.

Lemma graph_perm g ns ns' : ns' ≡ₚ ns -> graph g ns -> graph g ns'.
Proof.
  intros Hp [G1 G2 G3 G4 G5 G6].
  assert (Hin : forall i n, ns' !! i = Some n -> exists j, ns !! j = Some n).
  { intros i n Hi. apply list_elem_of_lookup. rewrite <- Hp. by eapply list_elem_of_lookup_2. }
  split.
  - destruct G1 as [N1 N2]. split; [by rewrite Hp|]. intros i n [j Hj]%Hin. by eapply N2.
  - unfold kernels_of. by rewrite Hp.
  - intros s Hs. destruct (G3 s Hs) as (i & n & Hi & <-). assert (Hn : n ∈ ns') by (rewrite Hp; by eapply list_elem_of_lookup_2).
    apply list_elem_of_lookup in Hn as [j Hj]. by exists j, n.
  - intros i n [j Hj]%Hin. by eapply G4.
  - intros i n l [j Hj]%Hin. by eapply G5.
  - intros i n l [j Hj]%Hin. by eapply G6.
Qed.

Lemma ends_scripts l l' : ends l = ends l' -> src_script l = src_script l' /\ in_script l = in_script l' /\ dst_script l = dst_script l'.
Proof. unfold src_script, in_script, dst_script. intros [= -> -> -> _]. done. Qed.

(** The outputs of different nodes have different sources. *)
Definition outputs_apart (ls : list Link) (ns : list Node) : Prop :=
  forall n i j l l', n ∈ ns -> i ∈ n_mOutputs n -> ls !! i = Some l -> ls !! j = Some l' -> mSource l = mSource l' -> j ∈ n_mOutputs n.

Lemma ends_lookup (ls ls' : list Link) i l : ends <$> ls = ends <$> ls' -> ls !! i = Some l -> exists l', ls' !! i = Some l' /\ ends l = ends l'.
Proof.
  intros He Hi. pose proof (f_equal (fun x => x !! i) He) as E. cbn in E. rewrite !list_lookup_fmap, Hi in E. cbn in E.
  destruct (ls' !! i) as [l'|]; [|done]. injection E as E1 E2 E3 E4. exists l'. split; [done|]. unfold ends. congruence.
Qed.

Lemma alloc_links_ok done ns ls st :
  alloc_inv done ls st -> (forall l, l ∈ ls -> alloc_ok (mType l) = true) -> (forall n i, n ∈ ns -> i ∈ n_mOutputs n -> is_Some (ls !! i)) -> outputs_apart ls ns ->
  exists ls' st', alloc_links ns ls st = Ok (ls', st') /\ alloc_inv (concat (n_mOutputs <$> ns) ++ done) ls' st' /\ ends <$> ls' = ends <$> ls.
Proof.
  revert done ls st. induction ns as [|n ns IH]; intros done ls st Hinv Hok Hval Hap; [by exists ls, st|]. cbn [alloc_links].
  destruct (alloc_outputs_ok done (n_mOutputs n) ls st Hinv Hok) as (ls1 & st1 & E & Hinv1 & He).
  - intros i. apply Hval. by left.
  - intros i j l l' Hi Hl Hl' Hs. right. eapply (Hap n i j l l'); [by left|done..].
  - rewrite E. cbn [mbind outcome_bind]. destruct (IH _ ls1 st1 Hinv1) as (ls' & st' & E' & Hinv' & He').
    + intros l [i Hi]%list_elem_of_lookup. destruct (ends_lookup _ _ _ _ He Hi) as (l0 & Hl0 & [= _ _ _ ->]). apply Hok. by eapply list_elem_of_lookup_2.
    + intros m i Hm Hi. destruct (Hval m i ltac:(by right) Hi) as [l Hl]. destruct (ends_lookup _ _ _ _ (eq_sym He) Hl) as (l' & Hl' & _). by exists l'.
    + intros m i j l l' Hm Hi Hl Hl' Hs. destruct (ends_lookup _ _ _ _ He Hl) as (l0 & Hl0 & [= E1 _ _ _]), (ends_lookup _ _ _ _ He Hl') as (l1 & Hl1 & [= E2 _ _ _]).
      eapply (Hap m i j l0 l1); [by right|done..|congruence].
    + exists ls', st'. split_and!; [done| |congruence]. eapply alloc_inv_done; [|exact Hinv']. cbn. intros i. rewrite !elem_of_app. tauto.
Qed.

(** A new group with its links not allocated, and memory for them. *)
Record creatable (g : ScriptGroup) : Prop := {
  cr_ok : group_ok g;
  cr_unset : forall l, l ∈ mLinks g -> mAlloc l = None;
  cr_memory : forall l, l ∈ mLinks g -> alloc_ok (mType l) = true
}.

Lemma allocate_ok g ns st :
  creatable g -> graph g ns ->
  exists ls st', alloc_links ns (mLinks g) st = Ok (ls, st') /\ ends <$> ls = ends <$> mLinks g /\
    (forall l, l ∈ ls -> is_Some (mAlloc l)) /\ (forall l l', l ∈ ls -> l' ∈ ls -> mAlloc l = mAlloc l' <-> mSource l = mSource l').
Proof.
  intros [Hok Hun Hmem] Hg.
  destruct (alloc_links_ok [] ns (mLinks g) st) as (ls & st' & E & Hinv & He).
  - split; [intros l a Hl; by rewrite (Hun l Hl)|intros l l' a Hl; by rewrite (Hun l Hl)|intros l l' Hl Hl'; by rewrite (Hun l Hl), (Hun l' Hl')|intros i l Hi; by apply elem_of_nil in Hi].
  - done.
  - intros n i [j Hj]%list_elem_of_lookup (lk & Hlk & _)%(gp_outputs _ _ Hg j n i Hj). by exists lk.
  - intros n i j l l' [m Hm]%list_elem_of_lookup (lk & Hlk & Hs)%(gp_outputs _ _ Hg m n i Hm) Hl Hl' Hsrc. apply (gp_outputs _ _ Hg m n j Hm). exists l'. split; [done|].
    simplify_eq. unfold src_script in *. by rewrite <- Hsrc.
  - exists ls, st'. assert (Hall : forall l, l ∈ ls -> is_Some (mAlloc l)).
    { intros l [i Hi]%list_elem_of_lookup. apply (ai_done _ _ _ Hinv i l); [|done]. rewrite app_nil_r. destruct (ends_lookup _ _ _ _ He Hi) as (l0 & Hl0 & El).
      destruct (gr_links _ Hok l0) as (s & d & Es & _ & _ & Hs & _); [by eapply list_elem_of_lookup_2|]. destruct (gp_scripts _ _ Hg s Hs) as (j & n & Hj & <-).
      rewrite list_elem_of_In, in_concat. exists (n_mOutputs n). rewrite <- !list_elem_of_In. split; [apply list_elem_of_fmap_2; by eapply list_elem_of_lookup_2|].
      apply (gp_outputs _ _ Hg j n i Hj). by exists l0. }
    split_and!; [done..|]. intros l l' Hl Hl'. split; [|by apply (ai_shared _ _ _ Hinv)]. destruct (Hall l Hl) as [a Ha]. intros E'. rewrite Ha in E'. by apply (ai_source _ _ _ Hinv l l' a).
Qed.

(** ** The inputs and outputs of a group *)

Lemma any_link_false ls ixs end_ k : any_link ls ixs end_ k = Ok false -> forall i l, i ∈ ixs -> ls !! i = Some l -> end_ l <> Some k.
Proof.
  induction ixs as [|i r IH]; cbn; intros E j l Hj Hl; [by apply elem_of_nil in Hj|]. destruct (ls !! i) as [l0|] eqn:El; [|done]. cbn in E.
  destruct (decide _) as [|Hne]; [done|]. apply elem_of_cons in Hj as [->|Hj]; [by simplify_eq|by eapply IH].
Qed.

Lemma any_link_true ls ixs end_ k : any_link ls ixs end_ k = Ok true -> exists i l, i ∈ ixs /\ ls !! i = Some l /\ end_ l = Some k.
Proof.
  induction ixs as [|i r IH]; cbn; intros E; [done|]. destruct (ls !! i) as [l0|] eqn:El; [|done]. cbn in E.
  destruct (decide _) as [|Hne]; [exists i, l0; split; [by left|done]|]. destruct (IH E) as (j & l & Hj & ?). exists j, l. split; [by right|done].
Qed.

(** The kernels of [ks] that have an end of this kind and no link there. *)
Definition open_end (has : ScriptKernelID -> bool) (end_ : Link -> option positive) (ks : list (option positive)) (ls : list Link) (k : positive) : Prop :=
  Some k ∈ ks /\ exists x, KT !! k = Some x /\ has x = true /\ forall l, l ∈ ls -> end_ l <> Some k.

Lemma open_cons has end_ k0 ks ls k :
  open_end has end_ (Some k0 :: ks) ls k <-> open_end has end_ [Some k0] ls k \/ open_end has end_ ks ls k.
Proof. unfold open_end. rewrite !elem_of_cons, elem_of_nil. tauto. Qed.

(** One step of the loop, for one of the two ends. *)
Lemma io_step g k x (has : ScriptKernelID -> bool) end_ ixs (ios ios' : list IO) :
  KT !! k = Some x ->
  (forall l, l ∈ ixs -> is_Some (mLinks g !! l)) -> (forall l lk, mLinks g !! l = Some lk -> end_ lk = Some k -> l ∈ ixs) ->
  (if has x then found ← any_link (mLinks g) ixs end_ k; Ok (if (found : bool) then ios else ios ++ [mkIO k None]) else Ok ios) = Ok ios' ->
  forall k', k' ∈ mKernel <$> ios' <-> k' ∈ mKernel <$> ios \/ open_end has end_ [Some k] (mLinks g) k'.
Proof.
  intros Hx Hval Hall E k'.
  assert (Hopen : open_end has end_ [Some k] (mLinks g) k' <-> k' = k /\ has x = true /\ any_link (mLinks g) ixs end_ k = Ok false).
  { unfold open_end. rewrite list_elem_of_singleton. split.
    - intros ([= ->] & x' & Hx' & Hh & Hno). simplify_eq. split_and!; [done..|]. destruct (any_link_total (mLinks g) ixs end_ k Hval) as ([] & Ea); [|done].
      destruct (any_link_true _ _ _ _ Ea) as (j & l & _ & Hl & He). by destruct (Hno l (list_elem_of_lookup_2 _ _ _ Hl)).
    - intros (-> & Hh & Ha). split; [done|]. exists x. split_and!; [done..|]. intros l [j Hj]%list_elem_of_lookup He.
      by apply (any_link_false _ _ _ _ Ha j l (Hall j l Hj He) Hj). }
  rewrite Hopen. destruct (has x); [|injection E as <-; split; [by left|by intros [|(_ & ? & _)]]].
  destruct (any_link _ _ _ _) as [[]|]; cbn in E; [..|done]; injection E as <-.
  - split; [by left|by intros [|(_ & _ & ?)]].
  - rewrite fmap_app, elem_of_app. cbn. rewrite list_elem_of_singleton. tauto.
Qed.

Lemma make_ios_spec g ks ns ins outs ins' outs' :
  group_ok g -> graph g ns -> (forall k, k ∈ ks -> k ∈ mKernels g) -> make_ios ks (mLinks g) ns ins outs = Ok (ins', outs') ->
  (forall k, k ∈ mKernel <$> ins' <-> k ∈ mKernel <$> ins \/ open_end mHasKernelInput mDstKernel ks (mLinks g) k) /\
  (forall k, k ∈ mKernel <$> outs' <-> k ∈ mKernel <$> outs \/ open_end mHasKernelOutput mSource ks (mLinks g) k).
Proof.
  intros Hok Hg. revert ins outs. induction ks as [|k0 ks IH]; intros ins outs Hks E.
  { injection E as <- <-. unfold open_end. split; intros k; rewrite elem_of_nil; tauto. }
  assert (Hk : k0 ∈ mKernels g) by (apply Hks; by left). destruct (proj1 (Forall_forall _ _) (gr_kernels _ Hok) k0 Hk) as (k & x & -> & Hx).
  cbn [make_ios kernel_at] in E. rewrite Hx in E. cbn [of_option mbind outcome_bind] in E.
  destruct (gp_scripts _ _ Hg (k_mScript x)) as (j & n & Hj & Ej); [by exists k, x|].
  rewrite <- Ej, (the_node_hit ns j n (gp_nodes _ _ Hg) Hj) in E. cbn [mbind outcome_bind] in E. rewrite Hj in E. cbn [of_option mbind outcome_bind] in E.
  destruct (if mHasKernelOutput x then _ else _) as [outs1|] eqn:E1; [|done]. cbn [mbind outcome_bind] in E.
  destruct (if mHasKernelInput x then _ else _) as [ins1|] eqn:E2; [|done]. cbn [mbind outcome_bind] in E.
  destruct (IH ins1 outs1) as [IHi IHo]; [intros; apply Hks; by right|done|].
  assert (Hio : forall k', k' ∈ mKernel <$> outs1 <-> k' ∈ mKernel <$> outs \/ open_end mHasKernelOutput mSource [Some k] (mLinks g) k').
  { apply (io_step g k x mHasKernelOutput mSource (n_mOutputs n)); [done| | |done].
    - intros l (lk & Hl & _)%(gp_outputs _ _ Hg j n l Hj). by exists lk.
    - intros l lk Hl He. apply (gp_outputs _ _ Hg j n l Hj). exists lk. split; [done|]. unfold src_script. rewrite He. cbn. rewrite Hx. cbn. by rewrite Ej. }
  assert (Hii : forall k', k' ∈ mKernel <$> ins1 <-> k' ∈ mKernel <$> ins \/ open_end mHasKernelInput mDstKernel [Some k] (mLinks g) k').
  { apply (io_step g k x mHasKernelInput mDstKernel (n_mInputs n)); [done| | |done].
    - intros l (lk & Hl & _)%(gp_inputs _ _ Hg j n l Hj). by exists lk.
    - intros l lk Hl He. apply (gp_inputs _ _ Hg j n l Hj). exists lk. split; [done|]. unfold in_script. rewrite He. cbn. rewrite Hx. cbn. by rewrite Ej. }
  split; intros k'; [rewrite IHi, Hii|rewrite IHo, Hio]; rewrite (open_cons _ _ k ks); tauto.
Qed.

(** ** Groups in use *)

(** What creation makes of the new group [g0]. *)
Record made (g0 g : ScriptGroup) : Prop := {
  md_graph : graph g0 (mNodes g);
  md_ends : ends <$> mLinks g = ends <$> mLinks g0;
  md_some : forall l, l ∈ mLinks g -> is_Some (mAlloc l);
  md_shared : forall l l', l ∈ mLinks g -> l' ∈ mLinks g -> mAlloc l = mAlloc l' <-> mSource l = mSource l';
  md_ins : forall k, k ∈ mKernel <$> mInputs g <-> open_end mHasKernelInput mDstKernel (mKernels g0) (mLinks g0) k;
  md_outs : forall k, k ∈ mKernel <$> mOutputs g <-> open_end mHasKernelOutput mSource (mKernels g0) (mLinks g0) k
}.

Lemma calcOrder_ios compat g r g' :
  group_ok g -> mInputs g = [] -> mOutputs g = [] -> calcOrder compat g = Ok (r, g') ->
  (forall k, k ∈ mKernel <$> mInputs g' <-> open_end mHasKernelInput mDstKernel (mKernels g) (mLinks g) k) /\
  (forall k, k ∈ mKernel <$> mOutputs g' <-> open_end mHasKernelOutput mSource (mKernels g) (mLinks g) k).
Proof.
  intros Hok Hi Ho E. destruct (build_ok g Hok) as (ns1 & ns0 & E1 & E2 & Hg). unfold calcOrder in E.
  rewrite E1 in E. cbn [mbind outcome_bind] in E. rewrite E2 in E. cbn [mbind outcome_bind] in E.
  destruct (order_nodes _ _ _ _ _) as [[r' ns]|] eqn:E3; [|done]. cbn [mbind outcome_bind] in E.
  destruct (order_nodes_ok _ _ _ _ _ _ _ E3) as [Hs _]. pose proof (graph_shape g ns0 ns Hs Hg) as Hg'.
  destruct (make_ios _ _ _ _ _) as [[ins outs]|] eqn:E4; [|done]. injection E as _ <-. cbn.
  destruct (make_ios_spec g _ _ _ _ _ _ Hok Hg' ltac:(done) E4) as [H1 H2].
  split; intros k; [rewrite H1, Hi|rewrite H2, Ho]; cbn; rewrite elem_of_nil; tauto.
Qed.

Lemma create_made (compat : bool) st kernels kernelsSize src dstK dstF type typeSize g0 :
  new_group kernels kernelsSize src dstK dstF type typeSize = Ok g0 -> creatable g0 -> sorts (if compat then NodeCompare else CompareNodeForSort) ->
  exists r g1 g st', calcOrder compat g0 = Ok (r, g1) /\ create compat st kernels kernelsSize src dstK dstF type typeSize = Ok (g, st') /\ mNodes g = mNodes g1 /\ made g0 g.
Proof.
  intros Hnew Hcr Hsort. pose proof (cr_ok _ Hcr) as Hok. destruct (calcOrder_inv compat g0 Hok) as (ns0 & r & ns & g1 & E & _ & _ & Hg & _ & El & En).
  assert (Hios : mInputs g0 = [] /\ mOutputs g0 = []).
  { unfold new_group in Hnew. destruct (read_all _ _ _) as [?|]; [|done]. cbn [mbind outcome_bind] in Hnew. destruct (make_links _ _ _ _ _ _) as [?|]; [|done]. by injection Hnew as <-. }
  destruct Hios as [Hin Hout]. destruct (calcOrder_ios compat g0 r g1 Hok Hin Hout E) as [Hins Houts].
  assert (Hg1 : graph g0 (mNodes g1)) by (rewrite En; eapply graph_perm; [apply Hsort|done]).
  destruct (allocate_ok g0 (mNodes g1) st Hcr Hg1) as (ls & st' & Ea & He & Hsome & Hsh).
  eexists r, g1, _, st'. split; [done|]. split; [unfold create; rewrite Hnew; cbn [mbind outcome_bind]; rewrite E; cbn [mbind outcome_bind]; rewrite El, Ea; cbn [mbind outcome_bind]; done|].
  split; [done|]. by split.
Qed.

(** The group after any number of [setInput] and [setOutput]. *)
Inductive used (g : ScriptGroup) : ScriptGroup -> Prop :=
| used_new : used g g
| used_in g' k a : used g g' -> used g (setInput g' k a)
| used_out g' k a : used g g' -> used g (setOutput g' k a).

Lemma set_io_kernels ios k a : mKernel <$> set_io ios k a = mKernel <$> ios.
Proof. induction ios as [|io r IH]; [done|]. cbn. destruct (decide _); [done|]. cbn. by rewrite IH. Qed.

Lemma used_made g0 g g' : used g g' -> made g0 g -> made g0 g' /\ mNodes g' = mNodes g /\ mLinks g' = mLinks g.
Proof.
  intros Hu Hm. induction Hu as [|g' k a Hu (IH & En & El)|g' k a Hu (IH & En & El)]; [done|..]; (split; [|done]); destruct IH as [M1 M2 M3 M4 M5 M6]; split; try done; cbn.
  all: intros k'; rewrite set_io_kernels; auto.
Qed.

Lemma link_alloc_same ls ixs end_ k v a :
  (forall i, i ∈ ixs -> is_Some (ls !! i)) -> (forall i l, i ∈ ixs -> ls !! i = Some l -> end_ l = Some k -> mAlloc l = v) ->
  (a = v \/ exists i l, i ∈ ixs /\ ls !! i = Some l /\ end_ l = Some k) -> link_alloc ls ixs end_ k a = Ok v.
Proof.
  revert a. induction ixs as [|i r IH]; intros a Hval Hv Ha; cbn.
  - destruct Ha as [->|(i & l & Hi & _)]; [done|by apply elem_of_nil in Hi].
  - destruct (Hval i ltac:(by left)) as [l El]. rewrite El. cbn. apply IH; [intros; apply Hval; by right|intros j l' Hj; apply Hv; by right|].
    destruct (decide (end_ l = Some k)) as [He|Hne]; [left; eapply Hv; [by left|done..]|]. destruct Ha as [->|(j & l' & Hj & Hl' & He)]; [by left|].
    apply elem_of_cons in Hj as [->|Hj]; [by simplify_eq|]. right. by exists j, l'.
Qed.

Lemma link_alloc_total ls ixs end_ k a : (forall i, i ∈ ixs -> is_Some (ls !! i)) -> exists v, link_alloc ls ixs end_ k a = Ok v.
Proof.
  revert a. induction ixs as [|i r IH]; intros a Hval; cbn; [by eexists|]. destruct (Hval i ltac:(by left)) as [l El]. rewrite El. cbn. apply IH. intros; apply Hval; by right.
Qed.

Lemma io_alloc_none ios k a : k ∉ mKernel <$> ios -> io_alloc ios k a = a.
Proof.
  revert a. induction ios as [|io r IH]; intros a Hk; [done|]. cbn in *. apply not_elem_of_cons in Hk as [Hne Hk]. rewrite decide_False by congruence. by apply IH.
Qed.

(** What the run of kernel [k] reads and writes. *)
Definition run_spec (g : ScriptGroup) (n : Node) (k : positive) (r : kernel_run) : Prop :=
  r_kernel r = k /\ r_script r = mScript n /\ (exists x, KT !! k = Some x /\ k_mScript x = mScript n) /\
  (forall l, l ∈ mLinks g -> mSource l = Some k -> r_out r = mAlloc l) /\
  (forall l, l ∈ mLinks g -> mDstKernel l = Some k -> (forall l', l' ∈ mLinks g -> mDstKernel l' = Some k -> mAlloc l' = mAlloc l) -> r_in r = mAlloc l).

Lemma made_link g0 g i l : made g0 g -> mLinks g !! i = Some l -> exists l0, mLinks g0 !! i = Some l0 /\ ends l = ends l0.
Proof. intros Hm. apply ends_lookup, (md_ends _ _ Hm). Qed.

Lemma made_link_back g0 g i l : made g0 g -> mLinks g0 !! i = Some l -> exists l', mLinks g !! i = Some l' /\ ends l = ends l'.
Proof. intros Hm. apply ends_lookup. symmetry. apply (md_ends _ _ Hm). Qed.

Lemma made_outputs g0 g i n j : made g0 g -> mNodes g !! i = Some n -> (j ∈ n_mOutputs n -> is_Some (mLinks g !! j)) /\ (j ∈ n_mInputs n -> is_Some (mLinks g !! j)).
Proof.
  intros Hm Hn. split; [intros (lk & Hl & _)%(gp_outputs _ _ (md_graph _ _ Hm) i n j Hn)|intros (lk & Hl & _)%(gp_inputs _ _ (md_graph _ _ Hm) i n j Hn)].
  all: destruct (made_link_back _ _ _ _ Hm Hl) as (l' & Hl' & _); by exists l'.
Qed.

Lemma run_of_ok g0 g i n k :
  made g0 g -> mNodes g !! i = Some n -> k ∈ n_mKernels n -> exists r, run_of g n k = Ok r /\ run_spec g n k r.
Proof.
  intros Hm Hn Hk. pose proof (md_graph _ _ Hm) as Hg. destruct (no_kernels _ (gp_nodes _ _ Hg) i n Hn) as [_ Hks]. destruct (Hks k Hk) as (x & Hx & Hs).
  assert (Hv1 : forall j, j ∈ n_mInputs n -> is_Some (mLinks g !! j)) by (intros j; by eapply made_outputs).
  assert (Hv2 : forall j, j ∈ n_mOutputs n -> is_Some (mLinks g !! j)) by (intros j; by eapply made_outputs).
  destruct (link_alloc_total (mLinks g) (n_mInputs n) mDstKernel k None Hv1) as (ain & Ei), (link_alloc_total (mLinks g) (n_mOutputs n) mSource k None Hv2) as (aout & Eo).
  unfold run_of. cbn [kernel_at]. rewrite Hx. cbn [of_option mbind outcome_bind]. rewrite Ei. cbn [mbind outcome_bind]. rewrite Eo. cbn [mbind outcome_bind].
  eexists. split; [done|]. split_and!; [done|done|by exists x|..]; cbn.
  - intros l Hl Hsrc. pose proof Hl as [j Hj]%list_elem_of_lookup. destruct (made_link _ _ _ _ Hm Hj) as (l0 & Hl0 & [= E1 _ _ _]).
    rewrite io_alloc_none.
    + cut (Ok aout = Ok (mAlloc l)); [by intros [= ->]|]. rewrite <- Eo. apply link_alloc_same; [done| |].
      * intros j' l' _ Hl' Hsrc'. apply (md_shared _ _ Hm); [by eapply list_elem_of_lookup_2|done|congruence].
      * right. exists j, l. split; [|done]. apply (gp_outputs _ _ Hg i n j Hn). exists l0. split; [done|]. unfold src_script. rewrite <- E1, Hsrc. cbn. rewrite Hx. cbn. by rewrite Hs.
    + intros (_ & x' & _ & _ & Hno)%(md_outs _ _ Hm). apply (Hno l0); [by eapply list_elem_of_lookup_2|congruence].
  - intros l Hl Hdst Hone. pose proof Hl as [j Hj]%list_elem_of_lookup. destruct (made_link _ _ _ _ Hm Hj) as (l0 & Hl0 & [= _ E2 _ _]).
    rewrite io_alloc_none.
    + cut (Ok ain = Ok (mAlloc l)); [by intros [= ->]|]. rewrite <- Ei. apply link_alloc_same; [done| |].
      * intros j' l' _ Hl' Hdst'. apply Hone; [by eapply list_elem_of_lookup_2|done].
      * right. exists j, l. split; [|done]. apply (gp_inputs _ _ Hg i n j Hn). exists l0. split; [done|]. unfold in_script. rewrite <- E2, Hdst. cbn. rewrite Hx. cbn. by rewrite Hs.
    + intros (_ & x' & _ & _ & Hno)%(md_ins _ _ Hm). apply (Hno l0); [by eapply list_elem_of_lookup_2|congruence].
Qed.

Lemma node_runs_ok g0 g i n ks :
  made g0 g -> mNodes g !! i = Some n -> (forall k, k ∈ ks -> k ∈ n_mKernels n) -> exists rs, node_runs g n ks = Ok rs /\ Forall2 (run_spec g n) ks rs.
Proof.
  intros Hm Hn. induction ks as [|k ks IH]; intros Hks; [by exists []; split; [|constructor]|]. cbn [node_runs].
  destruct (run_of_ok g0 g i n k Hm Hn) as (r & E & Hr); [apply Hks; by left|]. destruct IH as (rs & Es & Hrs); [intros; apply Hks; by right|].
  exists (r :: rs). rewrite E. cbn [mbind outcome_bind]. rewrite Es. split; [done|by constructor].
Qed.

(** The runs of the nodes follow each other in the order of the nodes. *)
Lemma runs_of_ok g0 g ns :
  made g0 g -> (forall n, n ∈ ns -> n ∈ mNodes g) ->
  exists runs, runs_of g ns = Ok runs /\ r_kernel <$> runs = kernels_of ns /\
    forall p q r r', runs !! p = Some r -> runs !! q = Some r' ->
      exists i j n n', ns !! i = Some n /\ ns !! j = Some n' /\ run_spec g n (r_kernel r) r /\ run_spec g n' (r_kernel r') r' /\ ((i < j)%nat -> (p < q)%nat).
Proof.
  intros Hm. induction ns as [|n ns IH]; intros Hin; [by exists []|]. destruct IH as (rest & Er & Ek & Hrest); [intros; apply Hin; by right|].
  pose proof (Hin n ltac:(by left)) as [i0 Hi0]%list_elem_of_lookup. destruct (node_runs_ok g0 g i0 n (n_mKernels n) Hm Hi0 ltac:(done)) as (rs & Es & Hrs).
  exists (rs ++ rest). cbn [runs_of]. rewrite Es. cbn [mbind outcome_bind]. rewrite Er. split; [done|].
  assert (Hk1 : r_kernel <$> rs = n_mKernels n). { clear -Hrs. induction Hrs as [|k r ks rs (Hr & _) _ IH]; [done|]. cbn. by rewrite Hr, IH. }
  split; [rewrite fmap_app, Hk1, Ek; done|]. intros p q r r' Hp Hq.
  assert (Hhead : forall p r, rs !! p = Some r -> run_spec g n (r_kernel r) r).
  { intros p0 r0 H0. destruct (Forall2_lookup_r _ _ _ _ _ Hrs H0) as (k & _ & Hk). destruct Hk as [E1 E2]. subst k. by split. }
  apply lookup_app_Some in Hp as [Hp|[Hp1 Hp]], Hq as [Hq|[Hq1 Hq]].
  - exists 0%nat, 0%nat, n, n. split_and!; [done|done|by eapply Hhead|by eapply Hhead|lia].
  - destruct (Hrest _ _ _ _ Hq Hq) as (j & _ & n' & _ & Hj & _ & Hs & _). exists 0%nat, (S j), n, n'. split_and!; [done|done|by eapply Hhead|done|]. intros _. pose proof (lookup_lt_Some _ _ _ Hp). lia.
  - destruct (Hrest _ _ _ _ Hp Hp) as (j & _ & n' & _ & Hj & _ & Hs & _). exists (S j), 0%nat, n', n. split_and!; [done|done|done|by eapply Hhead|lia].
  - destruct (Hrest _ _ _ _ Hp Hq) as (i & j & m & m' & Hi & Hj & Hs & Hs' & Hlt). exists (S i), (S j), m, m'. split_and!; [done..|]. intros. lia.
Qed.

Lemma kernel_dst g l k s :
  group_ok g -> l ∈ mLinks g -> mDstKernel l = Some k -> (exists x, KT !! k = Some x /\ k_mScript x = s) -> dst_script l = Ok s.
Proof.
  intros Hok Hl Hk (x & Hx & <-). destruct (gr_links _ Hok l Hl) as (s' & d & _ & Ei & Ed & _). rewrite Ed, <- Ei. unfold in_script. rewrite Hk. cbn. by rewrite Hx.
Qed.


(** creation gives every link an allocation, and two links have the same one exactly
    if they leave the same kernel. *)
Theorem links_share_allocation (compat : bool) st kernels kernelsSize src dstK dstF type typeSize g0 :
  new_group kernels kernelsSize src dstK dstF type typeSize = Ok g0 -> creatable g0 -> sorts (if compat then NodeCompare else CompareNodeForSort) ->
  exists g st', create compat st kernels kernelsSize src dstK dstF type typeSize = Ok (g, st') /\
    ends <$> mLinks g = ends <$> mLinks g0 /\
    forall l l', l ∈ mLinks g -> l' ∈ mLinks g -> is_Some (mAlloc l) /\ (mAlloc l = mAlloc l' <-> mSource l = mSource l').
Proof.
  intros Hnew Hcr Hsort. destruct (create_made compat st _ _ _ _ _ _ _ g0 Hnew Hcr Hsort) as (_ & _ & g & st' & _ & E & _ & Hm). exists g, st'.
  split_and!; [done|apply (md_ends _ _ Hm)|]. intros l l' Hl Hl'. split; [by apply (md_some _ _ Hm)|by apply (md_shared _ _ Hm)].
Qed.

(** ** The CPU driver *)

Definition can_run (r : kernel_run) : bool := match KT !! r_kernel r with Some x => runnable x r | None => false end.
Definition plan_runs (p : group_plan) : list kernel_run := match p with OneByOne rs => rs | Fused r rs => r :: rs end.

Lemma run_of_kernel g n k r : run_of g n k = Ok r -> r_kernel r = k.
Proof.
  unfold run_of. intros E. destruct (kernel_at _) as [[k' x]|]; [|done]. cbn [mbind outcome_bind] in E. destruct (link_alloc _ (n_mInputs n) _ _ _); [|done]. cbn [mbind outcome_bind] in E.
  destruct (link_alloc _ _ _ _ _); [|done]. by injection E as <-.
Qed.

Lemma cpu_kernels_runs g n ks rs d : cpu_kernels g n ks = Ok (rs, d) -> exists all, node_runs g n ks = Ok all /\ rs = List.filter can_run all.
Proof.
  revert rs d. induction ks as [|k ks IH]; intros rs d E; cbn [cpu_kernels node_runs] in *; [injection E as <- _; by exists []|].
  destruct (kernel_at (Some k)) as [[k' x]|] eqn:Ek; [|done]. cbn [mbind outcome_bind] in E. destruct (run_of g n k) as [r|] eqn:Er; [|done]. cbn [mbind outcome_bind] in E |- *.
  destruct (feeds_field _ _ _); [|done]. cbn [mbind outcome_bind] in E. destruct (cpu_kernels g n ks) as [[rs' d']|]; [|done]. injection E as <- _.
  destruct (IH rs' d' eq_refl) as (all & Ea & ->). exists (r :: all). rewrite Ea. split; [done|]. cbn [List.filter].
  assert (Ec : can_run r = runnable x r) by (unfold can_run; rewrite (run_of_kernel _ _ _ _ Er); cbn in Ek; destruct (KT !! k); [|done]; by injection Ek as _ ->).
  by rewrite Ec.
Qed.

Lemma cpu_nodes_runs g ns bs rs d : cpu_nodes g ns = Ok (bs, rs, d) -> exists all, runs_of g ns = Ok all /\ rs = List.filter can_run all.
Proof.
  revert bs rs d. induction ns as [|n ns IH]; intros bs rs d E; cbn [cpu_nodes runs_of] in *; [injection E as _ <- _; by exists []|].
  destruct (of_option _ _) as [k|]; [|done]. cbn [mbind outcome_bind] in E. destruct (kernel_at _) as [[? x]|]; [|done]. cbn [mbind outcome_bind] in E.
  destruct (bind_fields _ _ _) as [?|]; [|done]. cbn [mbind outcome_bind] in E. destruct (cpu_kernels _ _ _) as [[rs1 d1]|] eqn:E1; [|done]. cbn [mbind outcome_bind] in E.
  destruct (cpu_nodes g ns) as [[[bs2 rs2] d2]|]; [|done]. injection E as _ <- _. destruct (cpu_kernels_runs _ _ _ _ _ E1) as (a1 & Ea1 & ->). destruct (IH _ _ _ eq_refl) as (a2 & Ea2 & ->).
  exists (a1 ++ a2). rewrite Ea1. cbn [mbind outcome_bind]. rewrite Ea2. split; [done|]. symmetry. apply List.filter_app.
Qed.

(** the CPU driver runs what the generic execution would launch, in the same order and
    with the same allocations, leaving out only the kernels that miss an input or output
    they want. *)
Theorem cpu_execute_equiv g bs p :
  cpu_execute g = Ok (bs, p) -> exists runs, execute g = Ok runs /\ plan_runs p = List.filter can_run runs.
Proof.
  unfold cpu_execute, execute. destruct (cpu_nodes g (mNodes g)) as [[[bs' rs] d]|] eqn:E; [|done]. cbn [mbind outcome_bind].
  destruct (cpu_nodes_runs _ _ _ _ _ E) as (all & Ea & ->). intros Hp. exists all. split; [done|]. destruct d; [by injection Hp as _ <-|].
  destruct (List.filter can_run all); [done|]. by injection Hp as _ <-.
Qed.

End group.

(** ** A sort *)

(** Insertion sort, as an instance of the sort of the library. *)
Fixpoint insert_sorted (before : Node -> Node -> bool) (x : Node) (l : list Node) : list Node :=
  match l with [] => [x] | y :: r => if before y x then y :: insert_sorted before x r else x :: y :: r end.
Definition isort (before : Node -> Node -> bool) (l : list Node) : list Node := foldr (insert_sorted before) [] l.

Section isort.
Context (before : Node -> Node -> bool).
Hypothesis before_asym : forall x y, before x y = true -> before y x = false.
Hypothesis before_trans : forall x y z, before y x = false -> before z y = false -> before z x = false.

Lemma insert_sorted_perm x l : insert_sorted before x l ≡ₚ x :: l.
Proof. induction l as [|y r IH]; [done|]. cbn. destruct (before y x); [|done]. rewrite IH. constructor. Qed.

Lemma insert_sorted_sorted x l : StronglySorted (fun x y => before y x = false) l -> StronglySorted (fun x y => before y x = false) (insert_sorted before x l).
Proof.
  induction 1 as [|y r Hr IH Hy]; cbn; [by repeat constructor|]. destruct (before y x) eqn:E.
  - constructor; [done|]. rewrite insert_sorted_perm. constructor; [by apply before_asym|done].
  - constructor; [by constructor|]. constructor; [done|]. eapply Forall_impl; [exact Hy|]. intros z Hz. by eapply before_trans.
Qed.

Lemma isort_sorts : sorts isort before.
Proof.
  intros ns. split; [induction ns as [|x ns IH]; [done|]; cbn; by rewrite insert_sorted_perm, IH|].
  assert (Hs : StronglySorted (fun x y => before y x = false) (isort before ns)) by (induction ns; [constructor|by apply insert_sorted_sorted]).
  induction Hs as [|y r Hr IH Hy]; intros i j a b Hij Ha Hb; [done|]. destruct j as [|j]; [lia|]. destruct i as [|i].
  - injection Ha as <-. by apply (Forall_lookup_1 _ _ _ _ Hy Hb).
  - by apply (IH i j a b ltac:(lia)).
Qed.
End isort.

Lemma isort_full : sorts isort CompareNodeForSort.
Proof. apply isort_sorts; unfold CompareNodeForSort; lia. Qed.
Lemma isort_compat : sorts isort NodeCompare.
Proof. apply isort_sorts; unfold NodeCompare; lia. Qed.

(** ** Examples *)

(** Four scripts with one kernel each; kernel [i] belongs to script [i]. *)
Definition ex_KT : gmap positive ScriptKernelID :=
  list_to_map ((fun i => (i, mkKernel (Z.pos i) 0 true true)) <$> [1; 2; 3; 4]%positive).
Definition ex_link (a b : positive) : Link := mkLink (Some a) (Some b) None 0 None.
Definition ex_group (ks : list positive) (ls : list (positive * positive)) : ScriptGroup :=
  mkGroup (Some <$> ks) ((fun '(a, b) => ex_link a b) <$> ls) [] [] [].
Definition ex_alloc_ok (_ : Z) : bool := true.

(** A chain, its kernels given in reverse. *)
Definition ex_chain : ScriptGroup := ex_group [3; 2; 1]%positive [(2, 3); (1, 2)]%positive.

Ltac in_list H := repeat (apply elem_of_cons in H as [->|H]); [..|by apply elem_of_nil in H].

Lemma ex_kernel k : k ∈ [1; 2; 3; 4]%positive -> ex_KT !! k = Some (mkKernel (Z.pos k) 0 true true).
Proof. intros Hk. by in_list Hk. Qed.

Lemma ex_group_ok ks ls :
  (forall k, k ∈ ks -> k ∈ [1; 2; 3; 4]%positive) -> (forall a b, (a, b) ∈ ls -> a ∈ ks /\ b ∈ ks) -> creatable ex_KT ∅ ex_alloc_ok (ex_group ks ls).
Proof.
  intros Hks Hls. assert (Hso : forall k, k ∈ ks -> script_of ex_KT (ex_group ks ls) (Z.pos k)).
  { intros k Hk. exists k, (mkKernel (Z.pos k) 0 true true). split_and!; [by apply list_elem_of_fmap_2|by apply ex_kernel, Hks|done]. }
  split; [split|..].
  - done.
  - apply Forall_forall. intros k (i & -> & Hi)%list_elem_of_fmap. exists i, (mkKernel (Z.pos i) 0 true true). split; [done|by apply ex_kernel, Hks].
  - intros l ([a b] & -> & Hl)%list_elem_of_fmap. destruct (Hls a b Hl) as [Ha Hb]. exists (Z.pos a), (Z.pos b).
    split_and!; [| | |by apply Hso..]; unfold src_script, in_script, dst_script; cbn; by rewrite ex_kernel by (by apply Hks).
  - by intros l ([a b] & -> & Hl)%list_elem_of_fmap.
  - done.
Qed.

Ltac ex_group := apply ex_group_ok; [intros k Hk; in_list Hk; set_solver|intros a b Hl; repeat (apply elem_of_cons in Hl as [[= -> ->]|Hl]); [set_solver..|by apply elem_of_nil in Hl]].

Lemma ex_chain_ok : creatable ex_KT ∅ ex_alloc_ok ex_chain.
Proof. ex_group. Qed.

Lemma ex_chain_acyclic : acyclic ex_KT ∅ ex_chain.
Proof.
  exists Z.to_nat. intros l s d Hl Hs Hd. cbn in Hl. in_list Hl; vm_compute in Hs, Hd; injection Hs as <-; injection Hd as <-; lia.
Qed.

Lemma ex_chain_single : one_input ex_KT ∅ ex_chain.
Proof.
  intros i j l l' d Hi Hj Hd Hd'. destruct i as [|[|i]], j as [|[|j]]; try done; cbn in *; simplify_eq; vm_compute in Hd, Hd'; congruence.
Qed.

Definition ex_ordered (compat : bool) : option ScriptGroup :=
  match calcOrder ex_KT ∅ isort compat ex_chain with Ok (true, g) => Some g | _ => None end.

Lemma calcOrder_terminates_witness : exists r g', calcOrder ex_KT ∅ isort true ex_chain = Ok (r, g') /\ Some <$> kernels_of (mNodes g') ≡ₚ mKernels ex_chain.
Proof. apply (calcOrder_terminates ex_KT ∅ isort true ex_chain); [apply ex_chain_ok|apply isort_compat]. Defined.

Lemma calcOrder_sound_witness : exists g', ex_ordered false = Some g' /\ runs_in_order ex_KT ∅ g' /\ mScript <$> mNodes g' = [1; 2; 3].
Proof.
  eexists. split; [vm_compute; reflexivity|]. split; [|reflexivity].
  apply (calcOrder_sound ex_KT ∅ isort ex_chain); [apply ex_chain_ok|apply ex_chain_acyclic|apply isort_full|vm_compute; reflexivity].
Defined.

Lemma single_input_ordered_witness : exists g', calcOrder ex_KT ∅ isort false ex_chain = Ok (true, g') /\ runs_in_order ex_KT ∅ g'.
Proof. apply (single_input_ordered ex_KT ∅ isort ex_chain); [apply ex_chain_ok|apply ex_chain_acyclic|apply ex_chain_single|apply isort_full]. Defined.

Lemma compat_reverses_witness : exists g', ex_ordered true = Some g' /\ runs_backwards ex_KT ∅ g' /\ mScript <$> mNodes g' = [3; 2; 1].
Proof.
  eexists. split; [vm_compute; reflexivity|]. split; [|reflexivity].
  apply (compat_reverses ex_KT ∅ isort ex_chain); [apply ex_chain_ok|apply ex_chain_acyclic|apply isort_compat|vm_compute; reflexivity].
Defined.

(** The arguments of [ScriptGroup::create] for the chain. *)
Definition ex_args {A} (k : list (option positive) -> Z -> list (option positive) -> list (option positive) -> list (option positive) -> list Z -> Z -> A) : A :=
  k (Some <$> [3; 2; 1]%positive) 24 (Some <$> [2; 1]%positive) (Some <$> [3; 2]%positive) [None; None] [0; 0] 16.

Lemma ex_new : ex_args new_group = Ok ex_chain.
Proof. reflexivity. Qed.

Definition ex_st : allocs := mkAllocs 1 ∅.


Lemma links_share_allocation_witness : exists g st', ex_args (create ex_KT ∅ isort ex_alloc_ok true ex_st) = Ok (g, st') /\ (mAlloc <$> mLinks g) = [Some 1; Some 2]%positive.
Proof.
  destruct (links_share_allocation ex_KT ∅ isort ex_alloc_ok true ex_st _ _ _ _ _ _ _ ex_chain ex_new ex_chain_ok isort_compat) as (g & st' & E & _).
  exists g, st'. split; [exact E|]. pose proof (f_equal (fun r => match r with Ok (g, _) => mAlloc <$> mLinks g | _ => [] end) E) as E'. vm_compute in E'. symmetry. exact E'.
Defined.

(** The group in use: an input is set, the output is not. *)
Definition ex_used : ScriptGroup :=
  setInput (match ex_args (create ex_KT ∅ isort ex_alloc_ok false ex_st) with Ok (g, _) => g | _ => ex_chain end) 1 (Some 9%positive).

Lemma cpu_execute_equiv_witness : exists bs p runs, cpu_execute ex_KT ∅ (fun _ => false) ex_used = Ok (bs, p) /\
  execute ex_KT ex_used = Ok runs /\ plan_runs p = List.filter (can_run ex_KT) runs /\ r_kernel <$> plan_runs p = [1; 2]%positive.
Proof.
  eexists _, _. assert (E : cpu_execute ex_KT ∅ (fun _ => false) ex_used = Ok (_, _)) by (vm_compute; reflexivity).
  destruct (cpu_execute_equiv ex_KT ∅ (fun _ => false) ex_used _ _ E) as (runs & Er & Hp). exists runs. split_and!; [exact E|exact Er|exact Hp|reflexivity].
Defined.

(** Links that join again: 1 feeds 2 and 4, and 2 feeds 4. *)
Definition ex_joined : ScriptGroup := ex_group [1; 4; 2]%positive [(1, 4); (1, 2); (2, 4)]%positive.

(** a group whose links join again is refused half ordered, and the creation does not
    look at the refusal: script 4 is fed by script 2 and is put before it. *)
Theorem joined_links_misordered :
  creatable ex_KT ∅ ex_alloc_ok ex_joined /\ acyclic ex_KT ∅ ex_joined /\
  exists g, calcOrder ex_KT ∅ isort false ex_joined = Ok (false, g) /\ mScript <$> mNodes g = [1; 4; 2].
Proof.
  split_and!; [ex_group| |eexists; split; vm_compute; reflexivity].
  exists Z.to_nat. intros l s d Hl Hs Hd. cbn in Hl. in_list Hl; vm_compute in Hs, Hd; injection Hs as <-; injection Hd as <-; lia.
Qed.

Definition ex_cycle : ScriptGroup := ex_group [1; 2]%positive [(1, 2); (2, 1)]%positive.

(** a cycle that no other script leads to is accepted. *)
Theorem cycle_undetected : creatable ex_KT ∅ ex_alloc_ok ex_cycle /\ ~ acyclic ex_KT ∅ ex_cycle /\ exists g, calcOrder ex_KT ∅ isort false ex_cycle = Ok (true, g).
Proof.
  split_and!; [ex_group| |eexists; vm_compute; reflexivity]. intros [rank H].
  pose proof (H (ex_link 1 2) 1 2 ltac:(by left) eq_refl eq_refl). pose proof (H (ex_link 2 1) 2 1 ltac:(right; by left) eq_refl eq_refl). lia.
Qed.

End ScriptGroup.
