(* ===== verification/Transform.v ===== *)
(** * Transform: arithmetic of the block transforms

    The transforms of [driver/runtime/rs_idct.c], [rs_dct.c], [rs_iadst.c], [rs_fadst.c] and
    [rs_walsh.c] are straight-line integer programs.  They are written once, over the class
    [Arith] of what they do to an [int]: with [Z] they compute the results, with
    [option Z] every operation checks that its result fits in an [int], and with intervals
    they compute bounds.  [ArithRel] relates two such readings; that every transform respects
    it gives freedom from overflow by evaluating the transform on intervals. *)

From S2P Require Import Prelude.

Module Transform.

(** ** Integer arithmetic *)

Class Arith (T : Type) := {
  aconst : Z -> T;
  aadd : T -> T -> T;
  asub : T -> T -> T;
  aopp : T -> T;
  amul : T -> Z -> T;
  ashr : T -> Z -> T;
  ashort : T -> T;
  altz : T -> T;
  agtz : T -> T
}.

Declare Scope arith_scope.
Delimit Scope arith_scope with arith.
Notation "x + y" := (aadd x y) : arith_scope.
Notation "x - y" := (asub x y) : arith_scope.
Notation "- x" := (aopp x) : arith_scope.
Notation "x * c" := (amul x c%Z) : arith_scope.
Notation "x >> n" := (ashr x n%Z) (at level 35) : arith_scope.

(** Reading an array; the arrays of the transforms have fixed sizes. *)
Definition at_ {T} `{Arith T} (l : list T) (i : nat) : T := nth i l (aconst 0).
Notation "l .[ i ]" := (at_ l i%nat) (at level 2, format "l .[ i ]") : arith_scope.

Section rounding.
Context {T} `{Arith T}.
Local Open Scope arith_scope.

Definition ROUND_POWER_OF_TWO (value : T) (n : Z) : T := (value + aconst (Z.shiftl 1 (n - 1))) >> n.
Definition DCT_CONST_BITS : Z := 14.
Definition dct_const_round_shift (input : T) : T := ashort (ROUND_POWER_OF_TWO input DCT_CONST_BITS).
Definition fdct_round_shift (input : T) : T := ROUND_POWER_OF_TWO input DCT_CONST_BITS.
Definition half_round_shift (input : T) : T := (input + aconst 1 + altz input) >> 2.
End rounding.

(** ** The constants *)

Definition cospi_1_64 : Z := 16364.
Definition cospi_2_64 : Z := 16305.
Definition cospi_3_64 : Z := 16207.
Definition cospi_4_64 : Z := 16069.
Definition cospi_5_64 : Z := 15893.
Definition cospi_6_64 : Z := 15679.
Definition cospi_7_64 : Z := 15426.
Definition cospi_8_64 : Z := 15137.
Definition cospi_9_64 : Z := 14811.
Definition cospi_10_64 : Z := 14449.
Definition cospi_11_64 : Z := 14053.
Definition cospi_12_64 : Z := 13623.
Definition cospi_13_64 : Z := 13160.
Definition cospi_14_64 : Z := 12665.
Definition cospi_15_64 : Z := 12140.
Definition cospi_16_64 : Z := 11585.
Definition cospi_17_64 : Z := 11003.
Definition cospi_18_64 : Z := 10394.
Definition cospi_19_64 : Z := 9760.
Definition cospi_20_64 : Z := 9102.
Definition cospi_21_64 : Z := 8423.
Definition cospi_22_64 : Z := 7723.
Definition cospi_23_64 : Z := 7005.
Definition cospi_24_64 : Z := 6270.
Definition cospi_25_64 : Z := 5520.
Definition cospi_26_64 : Z := 4756.
Definition cospi_27_64 : Z := 3981.
Definition cospi_28_64 : Z := 3196.
Definition cospi_29_64 : Z := 2404.
Definition cospi_30_64 : Z := 1606.
Definition cospi_31_64 : Z := 804.

(** ** The three readings *)

#[export] Instance exact : Arith Z := {
  aconst c := c;
  aadd x y := x + y;
  asub x y := x - y;
  aopp x := - x;
  amul x c := x * c;
  ashr x n := Z.shiftr x n;
  ashort x := s16 x;
  altz x := if x <? 0 then 1 else 0;
  agtz x := if x >? 0 then 1 else 0
}.

Definition fits_int (z : Z) : bool := (- 2 ^ 31 <=? z) && (z <? 2 ^ 31).
Definition int_check (z : Z) : option Z := if fits_int z then Some z else None.

#[export] Instance checked : Arith (option Z) := {
  aconst c := int_check c;
  aadd x y := x ≫= fun a => y ≫= fun b => int_check (a + b);
  asub x y := x ≫= fun a => y ≫= fun b => int_check (a - b);
  aopp x := x ≫= fun a => int_check (- a);
  amul x c := x ≫= fun a => int_check (a * c);
  ashr x n := x ≫= fun a => int_check (Z.shiftr a n);
  ashort x := x ≫= fun a => int_check (s16 a);
  altz x := x ≫= fun a => int_check (if a <? 0 then 1 else 0);
  agtz x := x ≫= fun a => int_check (if a >? 0 then 1 else 0)
}.

Definition interval : Type := option (Z * Z).
Definition bounds_check (l h : Z) : interval := if fits_int l && fits_int h then Some (l, h) else None.

#[export] Instance intervals : Arith interval := {
  aconst c := bounds_check c c;
  aadd x y := x ≫= fun '(l, h) => y ≫= fun '(l', h') => bounds_check (l + l') (h + h');
  asub x y := x ≫= fun '(l, h) => y ≫= fun '(l', h') => bounds_check (l - h') (h - l');
  aopp x := x ≫= fun '(l, h) => bounds_check (- h) (- l);
  amul x c := x ≫= fun '(l, h) => bounds_check (Z.min (l * c) (h * c)) (Z.max (l * c) (h * c));
  ashr x n := if n <? 0 then None else x ≫= fun '(l, h) => bounds_check (Z.shiftr l n) (Z.shiftr h n);
  ashort x := x ≫= fun '(l, h) => if (- 32768 <=? l) && (h <=? 32767) then bounds_check l h else bounds_check (- 32768) 32767;
  altz x := x ≫= fun _ => bounds_check 0 1;
  agtz x := x ≫= fun _ => bounds_check 0 1
}.

(** ** Relations between readings *)

Class ArithRel {T U} `{Arith T} `{Arith U} (R : T -> U -> Prop) : Prop := {
  rel_const : forall c, R (aconst c) (aconst c);
  rel_add : forall x x' y y', R x x' -> R y y' -> R (aadd x y) (aadd x' y');
  rel_sub : forall x x' y y', R x x' -> R y y' -> R (asub x y) (asub x' y');
  rel_opp : forall x x', R x x' -> R (aopp x) (aopp x');
  rel_mul : forall x x' c, R x x' -> R (amul x c) (amul x' c);
  rel_shr : forall x x' n, R x x' -> R (ashr x n) (ashr x' n);
  rel_short : forall x x', R x x' -> R (ashort x) (ashort x');
  rel_ltz : forall x x', R x x' -> R (altz x) (altz x');
  rel_gtz : forall x x', R x x' -> R (agtz x) (agtz x')
}.

Section rel.
Context {T U} `{HT : Arith T} `{HU : Arith U} (R : T -> U -> Prop).

Lemma rel_at0 l l' i : R (aconst 0) (aconst 0) -> Forall2 R l l' -> R (at_ l i) (at_ l' i).
Proof. intros H0 Hl. unfold at_. revert i. induction Hl as [|x x' l l' Hx Hl IH]; intros [|i]; cbn; [done..|apply IH]. Qed.

Context {HR : ArithRel R}.

Lemma rel_at l l' i : Forall2 R l l' -> R (at_ l i) (at_ l' i).
Proof. apply rel_at0, rel_const. Qed.

Lemma rel_round x x' n : R x x' -> R (ROUND_POWER_OF_TWO x n) (ROUND_POWER_OF_TWO x' n).
Proof. intros Hx. apply rel_shr, rel_add; [done|apply rel_const]. Qed.

Lemma rel_dct x x' : R x x' -> R (dct_const_round_shift x) (dct_const_round_shift x').
Proof. intros Hx. by apply rel_short, rel_round. Qed.

Lemma rel_fdct x x' : R x x' -> R (fdct_round_shift x) (fdct_round_shift x').
Proof. apply rel_round. Qed.

Lemma rel_half x x' : R x x' -> R (half_round_shift x) (half_round_shift x').
Proof. intros Hx. apply rel_shr, rel_add; [|by apply rel_ltz]. apply rel_add; [done|apply rel_const]. Qed.
End rel.

(** One step per operation of a straight-line program. *)
Ltac arith_rel :=
  repeat match goal with
  | |- Forall2 _ [] [] => constructor
  | |- Forall2 _ (_ :: _) (_ :: _) => constructor
  | |- _ (at_ _ _) (at_ _ _) => apply rel_at
  | |- _ (dct_const_round_shift _) (dct_const_round_shift _) => apply rel_dct
  | |- _ (fdct_round_shift _) (fdct_round_shift _) => apply rel_fdct
  | |- _ (half_round_shift _) (half_round_shift _) => apply rel_half
  | |- _ (aadd _ _) (aadd _ _) => apply rel_add
  | |- _ (asub _ _) (asub _ _) => apply rel_sub
  | |- _ (aopp _) (aopp _) => apply rel_opp
  | |- _ (amul _ _) (amul _ _) => apply rel_mul
  | |- _ (ashr _ _) (ashr _ _) => apply rel_shr
  | |- _ (ashort _) (ashort _) => apply rel_short
  | |- _ (altz _) (altz _) => apply rel_ltz
  | |- _ (agtz _) (agtz _) => apply rel_gtz
  | |- _ (aconst _) (aconst _) => apply rel_const
  | H : ?P |- ?P => exact H
  end.

Lemma s16_range z : - 32768 <= s16 z <= 32767.
Proof. unfold s16, swrap. change (2 ^ (16 - 1)) with 32768. change (2 ^ 16) with 65536. pose proof (Z.mod_pos_bound (z + 32768) 65536 ltac:(lia)). lia. Qed.

(** A checked result is the exact one. *)
Definition agrees (c : option Z) (e : Z) : Prop := forall z, c = Some z -> e = z.

Lemma int_check_Some z z' : int_check z = Some z' -> z = z'.
Proof. unfold int_check. destruct (fits_int z); [|done]. by intros [= ->]. Qed.

#[export] Instance checked_exact : ArithRel agrees.
Proof.
  unfold agrees. split; cbn; intros;
    repeat match goal with
    | H : _ ≫= _ = Some _ |- _ => apply bind_Some in H as (? & ? & H)
    | H : int_check _ = Some _ |- _ => apply int_check_Some in H as <-
    | H : forall z, ?c = Some z -> ?e = z, H' : ?c = Some _ |- _ => rewrite (H _ H') in *; clear H
    end; done.
Qed.

(** A value within an interval; where the interval is known no operation so far overflowed. *)
Definition within (i : interval) (c : option Z) : Prop := forall l h, i = Some (l, h) -> exists z, c = Some z /\ l <= z <= h.

Lemma within_check l h z : l <= z <= h -> within (bounds_check l h) (int_check z).
Proof.
  intros Hz l' h' E. unfold bounds_check in E. destruct (fits_int l) eqn:El; [|done]. destruct (fits_int h) eqn:Eh; [|done]. injection E as <- <-.
  exists z. split; [|done]. unfold int_check. assert (fits_int z = true) as -> by (unfold fits_int in *; lia). done.
Qed.

Lemma within_bind i c f g :
  within i c -> (forall l h z, l <= z <= h -> within (f (l, h)) (g z)) -> within (i ≫= f) (c ≫= g).
Proof.
  intros Hi Hf l h E. apply bind_Some in E as ((l0, h0) & E0 & E). destruct (Hi l0 h0 E0) as (z & -> & Hz). cbn. by apply (Hf l0 h0 z Hz).
Qed.

#[export] Instance intervals_checked : ArithRel within.
Proof.
  split; cbn.
  - intros c. apply within_check. lia.
  - intros x x' y y' Hx Hy. apply within_bind; [done|]. intros l h z Hz. apply within_bind; [done|]. intros l' h' z' Hz'. apply within_check. lia.
  - intros x x' y y' Hx Hy. apply within_bind; [done|]. intros l h z Hz. apply within_bind; [done|]. intros l' h' z' Hz'. apply within_check. lia.
  - intros x x' Hx. apply within_bind; [done|]. intros. apply within_check. lia.
  - intros x x' c Hx. apply within_bind; [done|]. intros l h z [Hl Hh]. apply within_check. destruct (Z.le_ge_cases 0 c) as [Hc|Hc].
    + pose proof (Z.mul_le_mono_nonneg_r _ _ _ Hc Hl). pose proof (Z.mul_le_mono_nonneg_r _ _ _ Hc Hh). lia.
    + pose proof (Z.mul_le_mono_nonpos_r _ _ _ Hc Hl). pose proof (Z.mul_le_mono_nonpos_r _ _ _ Hc Hh). lia.
  - intros x x' n Hx. destruct (Z.ltb_spec n 0); [done|]. apply within_bind; [done|]. intros. apply within_check. rewrite !Z.shiftr_div_pow2 by done.
    pose proof (Z.pow_pos_nonneg 2 n ltac:(lia) ltac:(done)). split; apply Z.div_le_mono; lia.
  - intros x x' Hx. apply within_bind; [done|]. intros l h z Hz. pose proof (s16_range z). destruct (_ && _) eqn:E; apply within_check; [|lia].
    rewrite s16_small by lia. done.
  - intros x x' Hx. apply within_bind; [done|]. intros l h z Hz. apply within_check. destruct (_ <? _); lia.
  - intros x x' Hx. apply within_bind; [done|]. intros l h z Hz. apply within_check. destruct (_ >? _); lia.
Qed.

(** ** Formulas

    A transform read over formulas gives its results as formulas in its inputs; two programs
    that give the same formulas compute the same values. *)

Inductive formula :=
| FVar (i : nat)
| FConst (c : Z)
| FAdd (x y : formula)
| FSub (x y : formula)
| FOpp (x : formula)
| FMul (x : formula) (c : Z)
| FShr (x : formula) (n : Z)
| FShort (x : formula)
| FLtz (x : formula)
| FGtz (x : formula).

#[export] Instance formulas : Arith formula := {
  aconst := FConst; aadd := FAdd; asub := FSub; aopp := FOpp; amul := FMul; ashr := FShr; ashort := FShort; altz := FLtz; agtz := FGtz
}.

Fixpoint value {T} `{Arith T} (env : list T) (f : formula) : T :=
  match f with
  | FVar i => at_ env i
  | FConst c => aconst c
  | FAdd x y => aadd (value env x) (value env y)
  | FSub x y => asub (value env x) (value env y)
  | FOpp x => aopp (value env x)
  | FMul x c => amul (value env x) c
  | FShr x n => ashr (value env x) n
  | FShort x => ashort (value env x)
  | FLtz x => altz (value env x)
  | FGtz x => agtz (value env x)
  end.

Fixpoint vars (f : formula) : list nat :=
  match f with
  | FVar i => [i]
  | FConst _ => []
  | FAdd x y | FSub x y => vars x ++ vars y
  | FOpp x | FMul x _ | FShr x _ | FShort x | FLtz x | FGtz x => vars x
  end.

Definition inputs (n : nat) : list formula := FVar <$> seq 0 n.

#[export] Instance formulas_value {T} `{Arith T} (env : list T) : ArithRel (fun f x => value env f = x).
Proof. split; cbn; intros; subst; done. Qed.

Lemma inputs_value {T} `{Arith T} n (x : list T) : length x = n -> Forall2 (fun f v => value x f = v) (inputs n) x.
Proof.
  intros <-. apply Forall2_same_length_lookup. unfold inputs. split; [by rewrite length_fmap, length_seq|]. intros i f v Hf Hv.
  rewrite list_lookup_fmap, lookup_seq_lt in Hf by (by eapply lookup_lt_Some). injection Hf as <-. cbn. by apply nth_lookup_Some.
Qed.

Lemma value_ext {T} `{Arith T} (x y : list T) f : (forall i, i ∈ vars f -> at_ x i = at_ y i) -> value x f = value y f.
Proof.
  induction f as [i|c|f1 IH1 f2 IH2|f1 IH1 f2 IH2|f IH|f IH c|f IH c|f IH|f IH|f IH]; cbn; intros Hf; try (by rewrite IH).
  - apply Hf. by left.
  - done.
  - rewrite IH1, IH2; [done|..]; intros i Hi; apply Hf, elem_of_app; [by right|by left].
  - rewrite IH1, IH2; [done|..]; intros i Hi; apply Hf, elem_of_app; [by right|by left].
Qed.

(** A transform of lists that respects all relations. *)
Class Parametric (f : forall T, Arith T -> list T -> list T) : Prop := {
  parametric : forall T U (HT : Arith T) (HU : Arith U) (R : T -> U -> Prop), ArithRel R -> forall l l', Forall2 R l l' -> Forall2 R (f T HT l) (f U HU l')
}.

Section parametric.
Context (f : forall T, Arith T -> list T -> list T) {Hf : Parametric f}.

(** The results are the values of the formulas of the transform. *)
Lemma by_formulas {T} `{Arith T} n (x : list T) : length x = n -> f T _ x = value x <$> f formula _ (inputs n).
Proof.
  intros Hx. pose proof (parametric _ _ _ _ _ (formulas_value x) _ _ (inputs_value n x Hx)) as HF. clear -HF.
  induction HF as [|a b l l' Hab _ IH]; [done|]. cbn. by rewrite Hab, <- IH.
Qed.

(** Results whose formulas use some inputs only depend on these. *)
Lemma by_vars {T} `{Arith T} (P : nat -> bool) k n (x y : list T) :
  length x = n -> length y = n -> (forall i, P i = true -> at_ x i = at_ y i) ->
  forallb (fun g => forallb P (vars g)) (drop k (f formula _ (inputs n))) = true -> drop k (f T _ x) = drop k (f T _ y).
Proof.
  intros Hx Hy Hxy Hall. rewrite (by_formulas n x Hx), (by_formulas n y Hy), <- !fmap_drop. apply list_fmap_ext. intros i g Hg. apply value_ext. intros j Hj.
  rewrite forallb_forall in Hall. assert (Hin : In g (drop k (f formula _ (inputs n)))) by (apply list_elem_of_In; by eapply list_elem_of_lookup_2).
  specialize (Hall g Hin). rewrite forallb_forall in Hall. apply Hxy, Hall, list_elem_of_In, Hj.
Qed.

(** If the transform of intervals never leaves the [int] range, no input inside them overflows. *)
Lemma no_overflow (bs : list interval) (x : list Z) :
  Forall2 (fun i v => within i (Some v)) bs x -> forallb (fun i => bool_decide (is_Some i)) (f interval _ bs) = true ->
  f (option Z) _ (Some <$> x) = Some <$> f Z _ x.
Proof.
  intros Hx Hall.
  assert (H1 : Forall2 within (f interval _ bs) (f (option Z) _ (Some <$> x))) by (apply (parametric _ _ _ _ within _); by apply Forall2_fmap_r).
  assert (H2 : Forall2 agrees (f (option Z) _ (Some <$> x)) (f Z _ x)).
  { apply (parametric _ _ _ _ agrees _). apply Forall2_fmap_l, Forall2_same_length_lookup. split; [done|]. intros i a b Ha Hb z [= <-]. congruence. }
  clear -H1 H2 Hall. revert H2 Hall. generalize (f Z _ x). induction H1 as [|i c is' cs Hi _ IH]; intros es H2 Hall; inversion H2 as [|? e ? es' He H2']; subst; [done|].
  cbn in Hall. apply andb_true_iff in Hall as [Hsome Hall]. apply bool_decide_eq_true_1 in Hsome as [[l h] ->]. destruct (Hi l h eq_refl) as (z & -> & _).
  rewrite (He z eq_refl). cbn. f_equal. by apply IH.
Qed.
End parametric.

Lemma same_formulas f g {Hf : Parametric f} {Hg : Parametric g} {T} `{Arith T} n (x : list T) :
  f formula _ (inputs n) = g formula _ (inputs n) -> length x = n -> f T _ x = g T _ x.
Proof. intros E Hx. by rewrite (by_formulas f n x Hx), (by_formulas g n x Hx), E. Qed.

End Transform.
