(* ===== verification/Idct.v ===== *)
(** * Idct: the inverse transforms ([driver/runtime/rs_idct.c])

    The one-dimensional inverse transforms of 4, 8, 16 and 32 coefficients, stage by stage,
    and the two-dimensional ones built on them, with their short cuts for blocks that have
    few coefficients.  A block of an allocation is read and written through its
    coordinates, which are not negative. *)

From S2P Require Import Prelude Transform.
Import Transform.

Module Idct.

Section one_dimensional.
Context {T} `{Arith T}.
Local Open Scope arith_scope.

Definition idct4_1d (input : list T) : list T :=
  let step := [
    dct_const_round_shift ((input.[0] + input.[2]) * cospi_16_64);
    dct_const_round_shift ((input.[0] - input.[2]) * cospi_16_64);
    dct_const_round_shift (input.[1] * cospi_24_64 - input.[3] * cospi_8_64);
    dct_const_round_shift (input.[1] * cospi_8_64 + input.[3] * cospi_24_64)
  ] in [
    ashort (step.[0] + step.[3]);
    ashort (step.[1] + step.[2]);
    ashort (step.[1] - step.[2]);
    ashort (step.[0] - step.[3])
  ].

Definition idct8_stage1 (input : list T) : list T := [
  input.[0];
  input.[2];
  input.[4];
  input.[6];
  dct_const_round_shift (input.[1] * cospi_28_64 - input.[7] * cospi_4_64);
  dct_const_round_shift (input.[5] * cospi_12_64 - input.[3] * cospi_20_64);
  dct_const_round_shift (input.[5] * cospi_20_64 + input.[3] * cospi_12_64);
  dct_const_round_shift (input.[1] * cospi_4_64 + input.[7] * cospi_28_64)
].

(** Stages 2 and 3: the even half by [idct4_1d] in place, then the odd half. *)
Definition idct8_stage3 (step1 : list T) : list T :=
  let even := idct4_1d step1 in
  let step2_4 := ashort (step1.[4] + step1.[5]) in
  let step2_5 := ashort (step1.[4] - step1.[5]) in
  let step2_6 := ashort (-step1.[6] + step1.[7]) in
  let step2_7 := ashort (step1.[6] + step1.[7]) in [
    even.[0];
    even.[1];
    even.[2];
    even.[3];
    step2_4;
    dct_const_round_shift ((step2_6 - step2_5) * cospi_16_64);
    dct_const_round_shift ((step2_5 + step2_6) * cospi_16_64);
    step2_7
  ].

Definition idct8_stage4 (step1 : list T) : list T := [
  ashort (step1.[0] + step1.[7]);
  ashort (step1.[1] + step1.[6]);
  ashort (step1.[2] + step1.[5]);
  ashort (step1.[3] + step1.[4]);
  ashort (step1.[3] - step1.[4]);
  ashort (step1.[2] - step1.[5]);
  ashort (step1.[1] - step1.[6]);
  ashort (step1.[0] - step1.[7])
].

Definition idct8_1d (input : list T) : list T := idct8_stage4 (idct8_stage3 (idct8_stage1 input)).

Definition idct16_stage1 (input : list T) : list T := [
  input.[0];
  input.[8];
  input.[4];
  input.[12];
  input.[2];
  input.[10];
  input.[6];
  input.[14];
  input.[1];
  input.[9];
  input.[5];
  input.[13];
  input.[3];
  input.[11];
  input.[7];
  input.[15]
].

Definition idct16_stage2 (step1 : list T) : list T := [
  step1.[0];
  step1.[1];
  step1.[2];
  step1.[3];
  step1.[4];
  step1.[5];
  step1.[6];
  step1.[7];
  dct_const_round_shift (step1.[8] * cospi_30_64 - step1.[15] * cospi_2_64);
  dct_const_round_shift (step1.[9] * cospi_14_64 - step1.[14] * cospi_18_64);
  dct_const_round_shift (step1.[10] * cospi_22_64 - step1.[13] * cospi_10_64);
  dct_const_round_shift (step1.[11] * cospi_6_64 - step1.[12] * cospi_26_64);
  dct_const_round_shift (step1.[11] * cospi_26_64 + step1.[12] * cospi_6_64);
  dct_const_round_shift (step1.[10] * cospi_10_64 + step1.[13] * cospi_22_64);
  dct_const_round_shift (step1.[9] * cospi_18_64 + step1.[14] * cospi_14_64);
  dct_const_round_shift (step1.[8] * cospi_2_64 + step1.[15] * cospi_30_64)
].

Definition idct16_stage3 (step2 : list T) : list T := [
  step2.[0];
  step2.[1];
  step2.[2];
  step2.[3];
  dct_const_round_shift (step2.[4] * cospi_28_64 - step2.[7] * cospi_4_64);
  dct_const_round_shift (step2.[5] * cospi_12_64 - step2.[6] * cospi_20_64);
  dct_const_round_shift (step2.[5] * cospi_20_64 + step2.[6] * cospi_12_64);
  dct_const_round_shift (step2.[4] * cospi_4_64 + step2.[7] * cospi_28_64);
  ashort (step2.[8] + step2.[9]);
  ashort (step2.[8] - step2.[9]);
  ashort (-step2.[10] + step2.[11]);
  ashort (step2.[10] + step2.[11]);
  ashort (step2.[12] + step2.[13]);
  ashort (step2.[12] - step2.[13]);
  ashort (-step2.[14] + step2.[15]);
  ashort (step2.[14] + step2.[15])
].

Definition idct16_stage4 (step1 : list T) : list T := [
  dct_const_round_shift ((step1.[0] + step1.[1]) * cospi_16_64);
  dct_const_round_shift ((step1.[0] - step1.[1]) * cospi_16_64);
  dct_const_round_shift (step1.[2] * cospi_24_64 - step1.[3] * cospi_8_64);
  dct_const_round_shift (step1.[2] * cospi_8_64 + step1.[3] * cospi_24_64);
  ashort (step1.[4] + step1.[5]);
  ashort (step1.[4] - step1.[5]);
  ashort (-step1.[6] + step1.[7]);
  ashort (step1.[6] + step1.[7]);
  step1.[8];
  dct_const_round_shift (-step1.[9] * cospi_8_64 + step1.[14] * cospi_24_64);
  dct_const_round_shift (-step1.[10] * cospi_24_64 - step1.[13] * cospi_8_64);
  step1.[11];
  step1.[12];
  dct_const_round_shift (-step1.[10] * cospi_8_64 + step1.[13] * cospi_24_64);
  dct_const_round_shift (step1.[9] * cospi_24_64 + step1.[14] * cospi_8_64);
  step1.[15]
].

Definition idct16_stage5 (step2 : list T) : list T := [
  ashort (step2.[0] + step2.[3]);
  ashort (step2.[1] + step2.[2]);
  ashort (step2.[1] - step2.[2]);
  ashort (step2.[0] - step2.[3]);
  step2.[4];
  dct_const_round_shift ((step2.[6] - step2.[5]) * cospi_16_64);
  dct_const_round_shift ((step2.[5] + step2.[6]) * cospi_16_64);
  step2.[7];
  ashort (step2.[8] + step2.[11]);
  ashort (step2.[9] + step2.[10]);
  ashort (step2.[9] - step2.[10]);
  ashort (step2.[8] - step2.[11]);
  ashort (-step2.[12] + step2.[15]);
  ashort (-step2.[13] + step2.[14]);
  ashort (step2.[13] + step2.[14]);
  ashort (step2.[12] + step2.[15])
].

Definition idct16_stage6 (step1 : list T) : list T := [
  ashort (step1.[0] + step1.[7]);
  ashort (step1.[1] + step1.[6]);
  ashort (step1.[2] + step1.[5]);
  ashort (step1.[3] + step1.[4]);
  ashort (step1.[3] - step1.[4]);
  ashort (step1.[2] - step1.[5]);
  ashort (step1.[1] - step1.[6]);
  ashort (step1.[0] - step1.[7]);
  step1.[8];
  step1.[9];
  dct_const_round_shift ((-step1.[10] + step1.[13]) * cospi_16_64);
  dct_const_round_shift ((-step1.[11] + step1.[12]) * cospi_16_64);
  dct_const_round_shift ((step1.[11] + step1.[12]) * cospi_16_64);
  dct_const_round_shift ((step1.[10] + step1.[13]) * cospi_16_64);
  step1.[14];
  step1.[15]
].

Definition idct16_stage7 (step2 : list T) : list T := [
  ashort (step2.[0] + step2.[15]);
  ashort (step2.[1] + step2.[14]);
  ashort (step2.[2] + step2.[13]);
  ashort (step2.[3] + step2.[12]);
  ashort (step2.[4] + step2.[11]);
  ashort (step2.[5] + step2.[10]);
  ashort (step2.[6] + step2.[9]);
  ashort (step2.[7] + step2.[8]);
  ashort (step2.[7] - step2.[8]);
  ashort (step2.[6] - step2.[9]);
  ashort (step2.[5] - step2.[10]);
  ashort (step2.[4] - step2.[11]);
  ashort (step2.[3] - step2.[12]);
  ashort (step2.[2] - step2.[13]);
  ashort (step2.[1] - step2.[14]);
  ashort (step2.[0] - step2.[15])
].

Definition idct16_1d (input : list T) : list T :=
  idct16_stage7 (idct16_stage6 (idct16_stage5 (idct16_stage4 (idct16_stage3 (idct16_stage2 (idct16_stage1 input)))))).

Definition idct32_stage1 (input : list T) : list T := [
  input.[0];
  input.[16];
  input.[8];
  input.[24];
  input.[4];
  input.[20];
  input.[12];
  input.[28];
  input.[2];
  input.[18];
  input.[10];
  input.[26];
  input.[6];
  input.[22];
  input.[14];
  input.[30];
  dct_const_round_shift (input.[1] * cospi_31_64 - input.[31] * cospi_1_64);
  dct_const_round_shift (input.[17] * cospi_15_64 - input.[15] * cospi_17_64);
  dct_const_round_shift (input.[9] * cospi_23_64 - input.[23] * cospi_9_64);
  dct_const_round_shift (input.[25] * cospi_7_64 - input.[7] * cospi_25_64);
  dct_const_round_shift (input.[5] * cospi_27_64 - input.[27] * cospi_5_64);
  dct_const_round_shift (input.[21] * cospi_11_64 - input.[11] * cospi_21_64);
  dct_const_round_shift (input.[13] * cospi_19_64 - input.[19] * cospi_13_64);
  dct_const_round_shift (input.[29] * cospi_3_64 - input.[3] * cospi_29_64);
  dct_const_round_shift (input.[29] * cospi_29_64 + input.[3] * cospi_3_64);
  dct_const_round_shift (input.[13] * cospi_13_64 + input.[19] * cospi_19_64);
  dct_const_round_shift (input.[21] * cospi_21_64 + input.[11] * cospi_11_64);
  dct_const_round_shift (input.[5] * cospi_5_64 + input.[27] * cospi_27_64);
  dct_const_round_shift (input.[25] * cospi_25_64 + input.[7] * cospi_7_64);
  dct_const_round_shift (input.[9] * cospi_9_64 + input.[23] * cospi_23_64);
  dct_const_round_shift (input.[17] * cospi_17_64 + input.[15] * cospi_15_64);
  dct_const_round_shift (input.[1] * cospi_1_64 + input.[31] * cospi_31_64)
].

Definition idct32_stage2 (step1 : list T) : list T := [
  step1.[0];
  step1.[1];
  step1.[2];
  step1.[3];
  step1.[4];
  step1.[5];
  step1.[6];
  step1.[7];
  dct_const_round_shift (step1.[8] * cospi_30_64 - step1.[15] * cospi_2_64);
  dct_const_round_shift (step1.[9] * cospi_14_64 - step1.[14] * cospi_18_64);
  dct_const_round_shift (step1.[10] * cospi_22_64 - step1.[13] * cospi_10_64);
  dct_const_round_shift (step1.[11] * cospi_6_64 - step1.[12] * cospi_26_64);
  dct_const_round_shift (step1.[11] * cospi_26_64 + step1.[12] * cospi_6_64);
  dct_const_round_shift (step1.[10] * cospi_10_64 + step1.[13] * cospi_22_64);
  dct_const_round_shift (step1.[9] * cospi_18_64 + step1.[14] * cospi_14_64);
  dct_const_round_shift (step1.[8] * cospi_2_64 + step1.[15] * cospi_30_64);
  ashort (step1.[16] + step1.[17]);
  ashort (step1.[16] - step1.[17]);
  ashort (-step1.[18] + step1.[19]);
  ashort (step1.[18] + step1.[19]);
  ashort (step1.[20] + step1.[21]);
  ashort (step1.[20] - step1.[21]);
  ashort (-step1.[22] + step1.[23]);
  ashort (step1.[22] + step1.[23]);
  ashort (step1.[24] + step1.[25]);
  ashort (step1.[24] - step1.[25]);
  ashort (-step1.[26] + step1.[27]);
  ashort (step1.[26] + step1.[27]);
  ashort (step1.[28] + step1.[29]);
  ashort (step1.[28] - step1.[29]);
  ashort (-step1.[30] + step1.[31]);
  ashort (step1.[30] + step1.[31])
].

Definition idct32_stage3 (step2 : list T) : list T := [
  step2.[0];
  step2.[1];
  step2.[2];
  step2.[3];
  dct_const_round_shift (step2.[4] * cospi_28_64 - step2.[7] * cospi_4_64);
  dct_const_round_shift (step2.[5] * cospi_12_64 - step2.[6] * cospi_20_64);
  dct_const_round_shift (step2.[5] * cospi_20_64 + step2.[6] * cospi_12_64);
  dct_const_round_shift (step2.[4] * cospi_4_64 + step2.[7] * cospi_28_64);
  ashort (step2.[8] + step2.[9]);
  ashort (step2.[8] - step2.[9]);
  ashort (-step2.[10] + step2.[11]);
  ashort (step2.[10] + step2.[11]);
  ashort (step2.[12] + step2.[13]);
  ashort (step2.[12] - step2.[13]);
  ashort (-step2.[14] + step2.[15]);
  ashort (step2.[14] + step2.[15]);
  step2.[16];
  dct_const_round_shift (-step2.[17] * cospi_4_64 + step2.[30] * cospi_28_64);
  dct_const_round_shift (-step2.[18] * cospi_28_64 - step2.[29] * cospi_4_64);
  step2.[19];
  step2.[20];
  dct_const_round_shift (-step2.[21] * cospi_20_64 + step2.[26] * cospi_12_64);
  dct_const_round_shift (-step2.[22] * cospi_12_64 - step2.[25] * cospi_20_64);
  step2.[23];
  step2.[24];
  dct_const_round_shift (-step2.[22] * cospi_20_64 + step2.[25] * cospi_12_64);
  dct_const_round_shift (step2.[21] * cospi_12_64 + step2.[26] * cospi_20_64);
  step2.[27];
  step2.[28];
  dct_const_round_shift (-step2.[18] * cospi_4_64 + step2.[29] * cospi_28_64);
  dct_const_round_shift (step2.[17] * cospi_28_64 + step2.[30] * cospi_4_64);
  step2.[31]
].

Definition idct32_stage4 (step1 : list T) : list T := [
  dct_const_round_shift ((step1.[0] + step1.[1]) * cospi_16_64);
  dct_const_round_shift ((step1.[0] - step1.[1]) * cospi_16_64);
  dct_const_round_shift (step1.[2] * cospi_24_64 - step1.[3] * cospi_8_64);
  dct_const_round_shift (step1.[2] * cospi_8_64 + step1.[3] * cospi_24_64);
  ashort (step1.[4] + step1.[5]);
  ashort (step1.[4] - step1.[5]);
  ashort (-step1.[6] + step1.[7]);
  ashort (step1.[6] + step1.[7]);
  step1.[8];
  dct_const_round_shift (-step1.[9] * cospi_8_64 + step1.[14] * cospi_24_64);
  dct_const_round_shift (-step1.[10] * cospi_24_64 - step1.[13] * cospi_8_64);
  step1.[11];
  step1.[12];
  dct_const_round_shift (-step1.[10] * cospi_8_64 + step1.[13] * cospi_24_64);
  dct_const_round_shift (step1.[9] * cospi_24_64 + step1.[14] * cospi_8_64);
  step1.[15];
  ashort (step1.[16] + step1.[19]);
  ashort (step1.[17] + step1.[18]);
  ashort (step1.[17] - step1.[18]);
  ashort (step1.[16] - step1.[19]);
  ashort (-step1.[20] + step1.[23]);
  ashort (-step1.[21] + step1.[22]);
  ashort (step1.[21] + step1.[22]);
  ashort (step1.[20] + step1.[23]);
  ashort (step1.[24] + step1.[27]);
  ashort (step1.[25] + step1.[26]);
  ashort (step1.[25] - step1.[26]);
  ashort (step1.[24] - step1.[27]);
  ashort (-step1.[28] + step1.[31]);
  ashort (-step1.[29] + step1.[30]);
  ashort (step1.[29] + step1.[30]);
  ashort (step1.[28] + step1.[31])
].

Definition idct32_stage5 (step2 : list T) : list T := [
  ashort (step2.[0] + step2.[3]);
  ashort (step2.[1] + step2.[2]);
  ashort (step2.[1] - step2.[2]);
  ashort (step2.[0] - step2.[3]);
  step2.[4];
  dct_const_round_shift ((step2.[6] - step2.[5]) * cospi_16_64);
  dct_const_round_shift ((step2.[5] + step2.[6]) * cospi_16_64);
  step2.[7];
  ashort (step2.[8] + step2.[11]);
  ashort (step2.[9] + step2.[10]);
  ashort (step2.[9] - step2.[10]);
  ashort (step2.[8] - step2.[11]);
  ashort (-step2.[12] + step2.[15]);
  ashort (-step2.[13] + step2.[14]);
  ashort (step2.[13] + step2.[14]);
  ashort (step2.[12] + step2.[15]);
  step2.[16];
  step2.[17];
  dct_const_round_shift (-step2.[18] * cospi_8_64 + step2.[29] * cospi_24_64);
  dct_const_round_shift (-step2.[19] * cospi_8_64 + step2.[28] * cospi_24_64);
  dct_const_round_shift (-step2.[20] * cospi_24_64 - step2.[27] * cospi_8_64);
  dct_const_round_shift (-step2.[21] * cospi_24_64 - step2.[26] * cospi_8_64);
  step2.[22];
  step2.[23];
  step2.[24];
  step2.[25];
  dct_const_round_shift (-step2.[21] * cospi_8_64 + step2.[26] * cospi_24_64);
  dct_const_round_shift (-step2.[20] * cospi_8_64 + step2.[27] * cospi_24_64);
  dct_const_round_shift (step2.[19] * cospi_24_64 + step2.[28] * cospi_8_64);
  dct_const_round_shift (step2.[18] * cospi_24_64 + step2.[29] * cospi_8_64);
  step2.[30];
  step2.[31]
].

Definition idct32_stage6 (step1 : list T) : list T := [
  ashort (step1.[0] + step1.[7]);
  ashort (step1.[1] + step1.[6]);
  ashort (step1.[2] + step1.[5]);
  ashort (step1.[3] + step1.[4]);
  ashort (step1.[3] - step1.[4]);
  ashort (step1.[2] - step1.[5]);
  ashort (step1.[1] - step1.[6]);
  ashort (step1.[0] - step1.[7]);
  step1.[8];
  step1.[9];
  dct_const_round_shift ((-step1.[10] + step1.[13]) * cospi_16_64);
  dct_const_round_shift ((-step1.[11] + step1.[12]) * cospi_16_64);
  dct_const_round_shift ((step1.[11] + step1.[12]) * cospi_16_64);
  dct_const_round_shift ((step1.[10] + step1.[13]) * cospi_16_64);
  step1.[14];
  step1.[15];
  ashort (step1.[16] + step1.[23]);
  ashort (step1.[17] + step1.[22]);
  ashort (step1.[18] + step1.[21]);
  ashort (step1.[19] + step1.[20]);
  ashort (step1.[19] - step1.[20]);
  ashort (step1.[18] - step1.[21]);
  ashort (step1.[17] - step1.[22]);
  ashort (step1.[16] - step1.[23]);
  ashort (-step1.[24] + step1.[31]);
  ashort (-step1.[25] + step1.[30]);
  ashort (-step1.[26] + step1.[29]);
  ashort (-step1.[27] + step1.[28]);
  ashort (step1.[27] + step1.[28]);
  ashort (step1.[26] + step1.[29]);
  ashort (step1.[25] + step1.[30]);
  ashort (step1.[24] + step1.[31])
].

Definition idct32_stage7 (step2 : list T) : list T := [
  ashort (step2.[0] + step2.[15]);
  ashort (step2.[1] + step2.[14]);
  ashort (step2.[2] + step2.[13]);
  ashort (step2.[3] + step2.[12]);
  ashort (step2.[4] + step2.[11]);
  ashort (step2.[5] + step2.[10]);
  ashort (step2.[6] + step2.[9]);
  ashort (step2.[7] + step2.[8]);
  ashort (step2.[7] - step2.[8]);
  ashort (step2.[6] - step2.[9]);
  ashort (step2.[5] - step2.[10]);
  ashort (step2.[4] - step2.[11]);
  ashort (step2.[3] - step2.[12]);
  ashort (step2.[2] - step2.[13]);
  ashort (step2.[1] - step2.[14]);
  ashort (step2.[0] - step2.[15]);
  step2.[16];
  step2.[17];
  step2.[18];
  step2.[19];
  dct_const_round_shift ((-step2.[20] + step2.[27]) * cospi_16_64);
  dct_const_round_shift ((-step2.[21] + step2.[26]) * cospi_16_64);
  dct_const_round_shift ((-step2.[22] + step2.[25]) * cospi_16_64);
  dct_const_round_shift ((-step2.[23] + step2.[24]) * cospi_16_64);
  dct_const_round_shift ((step2.[23] + step2.[24]) * cospi_16_64);
  dct_const_round_shift ((step2.[22] + step2.[25]) * cospi_16_64);
  dct_const_round_shift ((step2.[21] + step2.[26]) * cospi_16_64);
  dct_const_round_shift ((step2.[20] + step2.[27]) * cospi_16_64);
  step2.[28];
  step2.[29];
  step2.[30];
  step2.[31]
].

Definition idct32_final (step1 : list T) : list T := [
  ashort (step1.[0] + step1.[31]);
  ashort (step1.[1] + step1.[30]);
  ashort (step1.[2] + step1.[29]);
  ashort (step1.[3] + step1.[28]);
  ashort (step1.[4] + step1.[27]);
  ashort (step1.[5] + step1.[26]);
  ashort (step1.[6] + step1.[25]);
  ashort (step1.[7] + step1.[24]);
  ashort (step1.[8] + step1.[23]);
  ashort (step1.[9] + step1.[22]);
  ashort (step1.[10] + step1.[21]);
  ashort (step1.[11] + step1.[20]);
  ashort (step1.[12] + step1.[19]);
  ashort (step1.[13] + step1.[18]);
  ashort (step1.[14] + step1.[17]);
  ashort (step1.[15] + step1.[16]);
  ashort (step1.[15] - step1.[16]);
  ashort (step1.[14] - step1.[17]);
  ashort (step1.[13] - step1.[18]);
  ashort (step1.[12] - step1.[19]);
  ashort (step1.[11] - step1.[20]);
  ashort (step1.[10] - step1.[21]);
  ashort (step1.[9] - step1.[22]);
  ashort (step1.[8] - step1.[23]);
  ashort (step1.[7] - step1.[24]);
  ashort (step1.[6] - step1.[25]);
  ashort (step1.[5] - step1.[26]);
  ashort (step1.[4] - step1.[27]);
  ashort (step1.[3] - step1.[28]);
  ashort (step1.[2] - step1.[29]);
  ashort (step1.[1] - step1.[30]);
  ashort (step1.[0] - step1.[31])
].

Definition idct32_1d (input : list T) : list T :=
  idct32_final (idct32_stage7 (idct32_stage6 (idct32_stage5 (idct32_stage4 (idct32_stage3 (idct32_stage2 (idct32_stage1 input))))))).

End one_dimensional.

(** ** Blocks *)

(** The cells of an allocation by column and row. *)
Definition raster : Type := Z -> Z -> Z.
Definition rsSetElementAt (a : raster) (v x y : Z) : raster := fun x' y' => if (x' =? x) && (y' =? y) then v else a x' y'.

Definition clip_pixel (val : Z) : Z := if val >? 255 then 255 else if val <? 0 then 0 else val.

(** The order of two nested loops over an n by n block: row by row, and column by column.
    A pair is column and row. *)
Definition by_rows (n : nat) : list (nat * nat) := i ← seq 0 n; j ← seq 0 n; [(j, i)].
Definition by_cols (n : nat) : list (nat * nat) := i ← seq 0 n; j ← seq 0 n; [(i, j)].

(** The loop that replaces each cell of a block, in the order [ps]. *)
Definition update_cells (F : nat -> nat -> Z -> Z) (xoff yoff : Z) (ps : list (nat * nat)) (dest : raster) : raster :=
  fold_left (fun d '(i, j) => rsSetElementAt d (F i j (d (Z.of_nat i + xoff) (Z.of_nat j + yoff))) (Z.of_nat i + xoff) (Z.of_nat j + yoff)) ps dest.

(** The rows of the block of [input] at the offsets. *)
Definition read_block (n : nat) (input : raster) (xoff yoff : Z) : list (list Z) :=
  (fun i => (fun j => input (Z.of_nat j + xoff) (Z.of_nat i + yoff)) <$> seq 0 n) <$> seq 0 n.

Definition column (n : nat) (out : list (list Z)) (i : nat) : list Z := (fun j => at_ (nth j out []) i) <$> seq 0 n.

(** The column pass: transform every column of [out] and add it to the block of [dest]. *)
Definition add_columns (n : nat) (idct : list Z -> list Z) (shift : Z) (out : list (list Z)) (dest : raster) (xoff yoff : Z) : raster :=
  let cols := (fun i => idct (column n out i)) <$> seq 0 n in
  update_cells (fun i j d => clip_pixel (ROUND_POWER_OF_TWO (at_ (nth i cols []) j) shift + d)) xoff yoff (by_cols n) dest.

(** The short cut for a block with one coefficient. *)
Definition add_dc (n : nat) (shift : Z) (input dest : raster) (xoff yoff : Z) : raster :=
  let out := dct_const_round_shift (input xoff yoff * cospi_16_64) in
  let out := dct_const_round_shift (out * cospi_16_64) in
  let a1 := ROUND_POWER_OF_TWO out shift in
  update_cells (fun _ _ d => clip_pixel (d + a1)) xoff yoff (by_rows n) dest.

(** All rows, and the first [k] rows only with zeros below. *)
Definition full_rows (n : nat) (idct : list Z -> list Z) (input : raster) (xoff yoff : Z) : list (list Z) :=
  idct <$> read_block n input xoff yoff.
Definition first_rows (n k : nat) (idct : list Z -> list Z) (input : raster) (xoff yoff : Z) : list (list Z) :=
  (idct <$> take k (read_block n input xoff yoff)) ++ replicate (n - k) (replicate n 0).

Definition idct4x4_1 (input dest : raster) (xoff yoff : Z) : raster := add_dc 4 4 input dest xoff yoff.
Definition idct4x4_16 (input dest : raster) (xoff yoff : Z) : raster :=
  add_columns 4 idct4_1d 4 (full_rows 4 idct4_1d input xoff yoff) dest xoff yoff.

Definition idct8x8_1 (input dest : raster) (xoff yoff : Z) : raster := add_dc 8 5 input dest xoff yoff.
Definition idct8x8_10 (input dest : raster) (xoff yoff : Z) : raster :=
  add_columns 8 idct8_1d 5 (first_rows 8 4 idct8_1d input xoff yoff) dest xoff yoff.
Definition idct8x8_64 (input dest : raster) (xoff yoff : Z) : raster :=
  add_columns 8 idct8_1d 5 (full_rows 8 idct8_1d input xoff yoff) dest xoff yoff.

Definition idct16x16_1 (input dest : raster) (xoff yoff : Z) : raster := add_dc 16 6 input dest xoff yoff.
Definition idct16x16_10 (input dest : raster) (xoff yoff : Z) : raster :=
  add_columns 16 idct16_1d 6 (first_rows 16 4 idct16_1d input xoff yoff) dest xoff yoff.
Definition idct16x16_256 (input dest : raster) (xoff yoff : Z) : raster :=
  add_columns 16 idct16_1d 6 (full_rows 16 idct16_1d input xoff yoff) dest xoff yoff.

Definition idct32x32_1 (input dest : raster) (xoff yoff : Z) : raster := add_dc 32 6 input dest xoff yoff.
Definition idct32x32_34 (input dest : raster) (xoff yoff : Z) : raster :=
  add_columns 32 idct32_1d 6 (first_rows 32 8 idct32_1d input xoff yoff) dest xoff yoff.

(** One pass of the test for a zero row, in place: entry [j] becomes entry [2j] or [2j + 1]. *)
Definition or_pass (n : nat) (zc : list Z) : list Z :=
  fold_left (fun zc j => <[j := Z.lor (at_ zc (2 * j)) (at_ zc (2 * j + 1))]> zc) (seq 0 n) zc.
Definition zero_coeff (inptr : list Z) : list Z :=
  or_pass 2 (or_pass 4 (or_pass 8 ((fun j => Z.lor (at_ inptr (2 * j)) (at_ inptr (2 * j + 1))) <$> seq 0 16))).
Definition row_or_zero (inptr : list Z) : list Z :=
  let zc := zero_coeff inptr in
  if negb (Z.lor (at_ zc 0) (at_ zc 1) =? 0) then idct32_1d inptr else replicate 32 0.
Definition idct32x32_1024 (input dest : raster) (xoff yoff : Z) : raster :=
  add_columns 32 idct32_1d 6 (row_or_zero <$> read_block 32 input xoff yoff) dest xoff yoff.

Definition rsIdct4x4 (input dest : raster) (eob xoff yoff : Z) : raster :=
  if eob >? 1 then idct4x4_16 input dest xoff yoff else idct4x4_1 input dest xoff yoff.
Definition rsIdct8x8 (input dest : raster) (eob xoff yoff : Z) : raster :=
  if eob =? 1 then idct8x8_1 input dest xoff yoff
  else if eob <=? 10 then idct8x8_10 input dest xoff yoff
  else idct8x8_64 input dest xoff yoff.
Definition rsIdct16x16 (input dest : raster) (eob xoff yoff : Z) : raster :=
  if eob =? 1 then idct16x16_1 input dest xoff yoff
  else if eob <=? 10 then idct16x16_10 input dest xoff yoff
  else idct16x16_256 input dest xoff yoff.
Definition rsIdct32x32 (input dest : raster) (eob xoff yoff : Z) : raster :=
  if eob =? 1 then idct32x32_1 input dest xoff yoff
  else if eob <=? 34 then idct32x32_34 input dest xoff yoff
  else idct32x32_1024 input dest xoff yoff.

(** ** Writing a block *)

Lemma elem_by_cols n i j : (i, j) ∈ by_cols n <-> (i < n)%nat /\ (j < n)%nat.
Proof.
  unfold by_cols. rewrite list_elem_of_bind. setoid_rewrite list_elem_of_bind. setoid_rewrite elem_of_seq. setoid_rewrite list_elem_of_singleton.
  split; [intros (? & (? & ? & ?) & ?); simplify_eq; lia|]. intros [Hi Hj]. exists i. split; [|lia]. exists j. split; [done|lia].
Qed.

Lemma elem_by_rows n i j : (i, j) ∈ by_rows n <-> (i < n)%nat /\ (j < n)%nat.
Proof.
  unfold by_rows. rewrite list_elem_of_bind. setoid_rewrite list_elem_of_bind. setoid_rewrite elem_of_seq. setoid_rewrite list_elem_of_singleton.
  split; [intros (? & (? & ? & ?) & ?); simplify_eq; lia|]. intros [Hi Hj]. exists j. split; [|lia]. exists i. split; [done|lia].
Qed.

Lemma NoDup_block {A} (f : nat -> nat -> A) (l l' : list nat) :
  (forall i j i' j', f i j = f i' j' -> i = i' /\ j = j') -> NoDup l -> NoDup l' -> NoDup (i ← l; j ← l'; [f i j]).
Proof.
  intros Hf Hl Hl'. induction Hl as [|i l Hi Hl IH]; cbn; [constructor|]. apply NoDup_app. split_and!; [| |done].
  - clear -Hf Hl'. induction Hl' as [|j l' Hj Hl' IH]; cbn; [constructor|]. constructor; [|done].
    intros (j' & Hj' & Hin)%list_elem_of_bind. apply list_elem_of_singleton in Hj' as [_ ->]%Hf. done.
  - intros x (j & Hx & Hj)%list_elem_of_bind (i' & Hx' & Hi')%list_elem_of_bind. apply list_elem_of_singleton in Hx as ->.
    apply list_elem_of_bind in Hx' as (j' & Hx' & _). apply list_elem_of_singleton in Hx' as [-> _]%Hf. done.
Qed.

(** Every cell of the block is replaced once, no other cell changes. *)
Lemma update_cells_spec F xoff yoff ps dest x y :
  NoDup ps ->
  update_cells F xoff yoff ps dest x y =
    if decide ((Z.to_nat (x - xoff), Z.to_nat (y - yoff)) ∈ ps /\ xoff <= x /\ yoff <= y)
    then F (Z.to_nat (x - xoff)) (Z.to_nat (y - yoff)) (dest x y) else dest x y.
Proof.
  unfold update_cells. revert dest. induction ps as [|[i j] ps IH]; intros dest Hnd.
  { cbn. rewrite decide_False; [done|]. intros [Hin _]. by apply elem_of_nil in Hin. }
  apply NoDup_cons in Hnd as [Hij Hnd]. cbn [fold_left]. rewrite IH by done.
  destruct (decide (x = Z.of_nat i + xoff /\ y = Z.of_nat j + yoff)) as [[-> ->]|Hne].
  - replace (Z.to_nat (Z.of_nat i + xoff - xoff)) with i by lia. replace (Z.to_nat (Z.of_nat j + yoff - yoff)) with j by lia.
    rewrite decide_False by tauto. unfold rsSetElementAt. rewrite !Z.eqb_refl. cbn [andb]. rewrite decide_True; [done|]. split; [by left|lia].
  - assert (Hset : forall v, rsSetElementAt dest v (Z.of_nat i + xoff) (Z.of_nat j + yoff) x y = dest x y).
    { intros v. unfold rsSetElementAt. destruct (Z.eqb_spec x (Z.of_nat i + xoff)), (Z.eqb_spec y (Z.of_nat j + yoff)); cbn; try done. tauto. }
    rewrite !Hset. destruct (decide (_ ∈ ps /\ _)) as [(H1 & H2 & H3)|Hn].
    + rewrite decide_True; [done|]. split; [by right|done].
    + rewrite decide_False; [done|]. intros ([[=]|Hin]%elem_of_cons & H2 & H3); [|tauto]. apply Hne. lia.
Qed.

(** Is a cell in the n by n block at the offsets? *)
Definition in_block (n : nat) (xoff yoff x y : Z) : bool := (xoff <=? x) && (x <? xoff + Z.of_nat n) && (yoff <=? y) && (y <? yoff + Z.of_nat n).

Lemma update_by_cols F n xoff yoff dest x y :
  update_cells F xoff yoff (by_cols n) dest x y = if in_block n xoff yoff x y then F (Z.to_nat (x - xoff)) (Z.to_nat (y - yoff)) (dest x y) else dest x y.
Proof.
  rewrite update_cells_spec by (apply NoDup_block; [by intros ? ? ? ? [= -> ->]|apply NoDup_seq..]). unfold in_block.
  destruct (decide _) as [(H1%elem_by_cols & H2)|Hn]; destruct (_ && _) eqn:E; try done; [lia|]. destruct Hn. rewrite elem_by_cols. lia.
Qed.

Lemma update_by_rows F n xoff yoff dest x y :
  update_cells F xoff yoff (by_rows n) dest x y = if in_block n xoff yoff x y then F (Z.to_nat (x - xoff)) (Z.to_nat (y - yoff)) (dest x y) else dest x y.
Proof.
  rewrite update_cells_spec by (apply (NoDup_block (fun i j => (j, i))); [by intros ? ? ? ? [= -> ->]|apply NoDup_seq..]). unfold in_block.
  destruct (decide _) as [(H1%elem_by_rows & H2)|Hn]; destruct (_ && _) eqn:E; try done; [lia|]. destruct Hn. rewrite elem_by_rows. lia.
Qed.

(** ** Zero coefficients *)

Lemma dct_round_short x : s16 (dct_const_round_shift x) = dct_const_round_shift x.
Proof. unfold dct_const_round_shift. cbn [ashort exact]. apply s16_small. pose proof (s16_range (ROUND_POWER_OF_TWO x DCT_CONST_BITS)). lia. Qed.

Lemma dct_round_0 : dct_const_round_shift 0 = 0.
Proof. reflexivity. Qed.
Lemma s16_0 : s16 0 = 0.
Proof. reflexivity. Qed.

#[local] Hint Rewrite Z.mul_0_l Z.add_0_l Z.add_0_r Z.sub_0_r Z.opp_0 dct_round_0 s16_0 dct_round_short : idct_zero.

(** Evaluate a stage on a list with zeros. *)
Ltac idct_zero := cbn [at_ nth aconst aadd asub aopp amul ashort exact]; autorewrite with idct_zero.

(** A row of [n] coefficients of which only the first may be non-zero. *)
Definition dc_row (n : nat) (dc : Z) : list Z := dc :: replicate (n - 1) 0.
Definition dc_out (dc : Z) : Z := dct_const_round_shift (dc * cospi_16_64).

Lemma dc_out_0 : dc_out 0 = 0.
Proof. reflexivity. Qed.
Lemma dc_out_short dc : s16 (dc_out dc) = dc_out dc.
Proof. apply dct_round_short. Qed.

Lemma idct4_dc dc : idct4_1d (dc_row 4 dc) = replicate 4 (dc_out dc).
Proof. cbn [dc_row replicate Nat.sub]. unfold idct4_1d. idct_zero. done. Qed.

Lemma idct8_dc dc : idct8_1d (dc_row 8 dc) = replicate 8 (dc_out dc).
Proof.
  cbn [dc_row replicate Nat.sub]. unfold idct8_1d, idct8_stage1. idct_zero. unfold idct8_stage3, idct4_1d. idct_zero. unfold idct8_stage4. idct_zero. done.
Qed.

Lemma idct16_dc dc : idct16_1d (dc_row 16 dc) = replicate 16 (dc_out dc).
Proof.
  cbn [dc_row replicate Nat.sub]. unfold idct16_1d. unfold idct16_stage1. idct_zero. unfold idct16_stage2. idct_zero. unfold idct16_stage3. idct_zero.
  unfold idct16_stage4. idct_zero. unfold idct16_stage5. idct_zero. unfold idct16_stage6. idct_zero. unfold idct16_stage7. idct_zero. done.
Qed.

Lemma idct32_dc dc : idct32_1d (dc_row 32 dc) = replicate 32 (dc_out dc).
Proof.
  cbn [dc_row replicate Nat.sub]. unfold idct32_1d. unfold idct32_stage1. idct_zero. unfold idct32_stage2. idct_zero. unfold idct32_stage3. idct_zero.
  unfold idct32_stage4. idct_zero. unfold idct32_stage5. idct_zero. unfold idct32_stage6. idct_zero. unfold idct32_stage7. idct_zero. unfold idct32_final. idct_zero. done.
Qed.

(** What the two-dimensional proofs use of a one-dimensional transform. *)
Class DcTransform (n : nat) (idct : list Z -> list Z) : Prop := {
  dc_transform : forall dc, idct (dc_row n dc) = replicate n (dc_out dc)
}.
#[export] Instance dc4 : DcTransform 4 idct4_1d := {| dc_transform := idct4_dc |}.
#[export] Instance dc8 : DcTransform 8 idct8_1d := {| dc_transform := idct8_dc |}.
#[export] Instance dc16 : DcTransform 16 idct16_1d := {| dc_transform := idct16_dc |}.
#[export] Instance dc32 : DcTransform 32 idct32_1d := {| dc_transform := idct32_dc |}.

(** The coefficients of the n by n block of [input] outside its upper left k by k corner are 0. *)
Definition supported (n k : nat) (input : raster) (xoff yoff : Z) : Prop :=
  forall i j, (i < n)%nat -> (j < n)%nat -> (k <= i)%nat \/ (k <= j)%nat -> input (Z.of_nat j + xoff) (Z.of_nat i + yoff) = 0.

Lemma at_replicate n (v : Z) i : (i < n)%nat -> at_ (replicate n v) i = v.
Proof. intros Hi. unfold at_. apply nth_lookup_Some. by apply lookup_replicate_2. Qed.

Section two_dimensional.
Context (n : nat) (idct : list Z -> list Z) {Hdc : DcTransform n idct} (Hn : (0 < n)%nat).

Lemma zero_row : replicate n 0 = dc_row n 0.
Proof. unfold dc_row. destruct n as [|m]; [lia|]. cbn. by rewrite Nat.sub_0_r. Qed.

Lemma idct_zero_row : idct (replicate n 0) = replicate n 0.
Proof. rewrite zero_row, dc_transform, dc_out_0. apply zero_row. Qed.

Lemma block_row input xoff yoff i : (i < n)%nat -> nth i (read_block n input xoff yoff) [] = (fun j => input (Z.of_nat j + xoff) (Z.of_nat i + yoff)) <$> seq 0 n.
Proof.
  intros Hi. unfold read_block. apply nth_lookup_Some. rewrite list_lookup_fmap, lookup_seq_lt by done. done.
Qed.

Lemma fmap_replicate_0 {A} (f : A -> Z) (l : list A) : (forall x, x ∈ l -> f x = 0) -> f <$> l = replicate (length l) 0.
Proof. induction l as [|x l IH]; intros Hf; [done|]. cbn. rewrite Hf by (by left). f_equal. apply IH. intros y Hy. apply Hf. by right. Qed.

Lemma supported_row k input xoff yoff i :
  supported n k input xoff yoff -> (k <= i < n)%nat -> nth i (read_block n input xoff yoff) [] = replicate n 0.
Proof.
  intros Hs Hi. rewrite block_row by lia. rewrite fmap_replicate_0; [by rewrite length_seq|]. intros j Hj%elem_of_seq. apply Hs; [lia|lia|by left; lia].
Qed.

(** Leaving out rows of zeros changes nothing. *)
Lemma first_rows_full k input xoff yoff :
  supported n k input xoff yoff -> (k <= n)%nat -> first_rows n k idct input xoff yoff = full_rows n idct input xoff yoff.
Proof.
  intros Hs Hk. unfold first_rows, full_rows. rewrite <- (take_drop k (read_block n input xoff yoff)) at 2. rewrite fmap_app. f_equal.
  assert (Hlen : length (read_block n input xoff yoff) = n) by (unfold read_block; by rewrite length_fmap, length_seq).
  apply list_eq. intros i. rewrite list_lookup_fmap, lookup_drop. destruct (decide (i < n - k)%nat) as [Hi|Hi].
  - rewrite lookup_replicate_2 by done. destruct (lookup_lt_is_Some_2 (read_block n input xoff yoff) (k + i)) as [r Hr]; [lia|]. rewrite Hr. cbn.
    rewrite <- (nth_lookup_Some _ _ [] _ Hr), (supported_row k) by (done || lia). by rewrite idct_zero_row.
  - rewrite !lookup_ge_None_2; [done|lia|rewrite length_replicate; lia].
Qed.

(** With one coefficient, the transform of the rows is one row of equal values. *)
Lemma dc_columns input xoff yoff i :
  supported n 1 input xoff yoff -> (i < n)%nat -> column n (full_rows n idct input xoff yoff) i = dc_row n (dc_out (input xoff yoff)).
Proof.
  intros Hs Hi. unfold column, full_rows.
  assert (Hrow : forall j, (j < n)%nat -> nth j (idct <$> read_block n input xoff yoff) [] = replicate n (if decide (j = 0)%nat then dc_out (input xoff yoff) else 0)).
  { intros j Hj. assert (Hlen : length (read_block n input xoff yoff) = n) by (unfold read_block; by rewrite length_fmap, length_seq).
    destruct (lookup_lt_is_Some_2 (read_block n input xoff yoff) j) as [r Hr]; [lia|]. erewrite nth_lookup_Some; [|rewrite list_lookup_fmap, Hr; done].
    rewrite <- (nth_lookup_Some _ _ [] _ Hr). destruct (decide (j = 0)%nat) as [->|Hne].
    - rewrite block_row by done. rewrite <- dc_transform. f_equal. unfold dc_row. destruct n as [|m]; [lia|]. cbn [seq fmap list_fmap Nat.sub]. rewrite Nat.sub_0_r. f_equal.
      rewrite fmap_replicate_0; [by rewrite length_seq|]. intros j' Hj'%elem_of_seq. apply Hs; lia.
    - rewrite (supported_row 1) by (done || lia). apply idct_zero_row. }
  apply list_eq. intros j. rewrite list_lookup_fmap. destruct (decide (j < n)%nat) as [Hj|Hj].
  - rewrite lookup_seq_lt by done. cbn [fmap option_fmap option_map Nat.add]. rewrite Hrow, at_replicate by done. unfold dc_row.
    destruct j as [|j]; [done|]. rewrite lookup_cons, lookup_replicate_2 by lia. done.
  - rewrite lookup_seq_ge by lia. cbn. symmetry. apply lookup_ge_None_2. unfold dc_row. cbn. rewrite length_replicate. lia.
Qed.

(** The short cut for one coefficient computes what the transform computes. *)
Lemma add_dc_full shift input dest xoff yoff x y :
  supported n 1 input xoff yoff ->
  add_dc n shift input dest xoff yoff x y = add_columns n idct shift (full_rows n idct input xoff yoff) dest xoff yoff x y.
Proof.
  intros Hs. unfold add_dc, add_columns. rewrite update_by_rows, update_by_cols. destruct (in_block n xoff yoff x y) eqn:Ei; [|done].
  unfold in_block in Ei. assert (Hi : (Z.to_nat (x - xoff) < n)%nat /\ (Z.to_nat (y - yoff) < n)%nat) by lia. destruct Hi as [Hi Hj]. rewrite Z.add_comm. do 2 f_equal.
  erewrite (nth_lookup_Some ((fun i => idct (column n _ i)) <$> seq 0 n)); [|rewrite list_lookup_fmap, lookup_seq_lt by done; done].
  rewrite dc_columns, dc_transform, at_replicate by done. done.
Qed.

End two_dimensional.

(** A row that tests as zero is zero. *)
Lemma row_or_zero_idct row : length row = 32%nat -> row_or_zero row = idct32_1d row.
Proof.
  intros Hlen. unfold row_or_zero. destruct (negb _) eqn:E; [done|]. apply negb_false_iff, Z.eqb_eq in E.
  do 32 (destruct row as [|? row]; [done|]). destruct row; [|done]. clear Hlen. cbn -[Z.lor] in E.
  repeat match goal with H : Z.lor _ _ = 0 |- _ => apply Z.lor_eq_0_iff in H as [? ?] end. subst.
  pose proof (idct_zero_row 32 idct32_1d ltac:(lia)) as Hz. cbn [replicate] in Hz |- *. symmetry. exact Hz.
Qed.

Lemma idct32_full input dest xoff yoff :
  idct32x32_1024 input dest xoff yoff = add_columns 32 idct32_1d 6 (full_rows 32 idct32_1d input xoff yoff) dest xoff yoff.
Proof.
  unfold idct32x32_1024, full_rows. set (rows := read_block 32 input xoff yoff).
  assert (Hrows : forall row, row ∈ rows -> row_or_zero row = idct32_1d row).
  { intros row Hr. apply row_or_zero_idct. apply list_elem_of_fmap in Hr as (i & -> & _). by rewrite length_fmap, length_seq. }
  assert (E : row_or_zero <$> rows = idct32_1d <$> rows).
  { clearbody rows. induction rows as [|r rows IH]; [done|]. rewrite !fmap_cons, (Hrows r) by (by left). rewrite IH; [done|]. intros row Hr. apply Hrows. by right. }
  rewrite E. reflexivity.
Qed.

(** C36: the short cuts chosen by the number of coefficients are exact.  If one coefficient
    means that only the first one is not 0, and up to 10 (34 for 32 by 32) mean that only the
    upper left 4 by 4 (8 by 8) ones are not, then each of the four inverse transforms
    computes for every cell what the transform of the whole block computes. *)
Theorem rsIdct_exact input dest eob xoff yoff x y :
  ((eob <= 1 -> supported 4 1 input xoff yoff) ->
     rsIdct4x4 input dest eob xoff yoff x y = idct4x4_16 input dest xoff yoff x y) /\
  ((eob = 1 -> supported 8 1 input xoff yoff) -> (eob <= 10 -> supported 8 4 input xoff yoff) ->
     rsIdct8x8 input dest eob xoff yoff x y = idct8x8_64 input dest xoff yoff x y) /\
  ((eob = 1 -> supported 16 1 input xoff yoff) -> (eob <= 10 -> supported 16 4 input xoff yoff) ->
     rsIdct16x16 input dest eob xoff yoff x y = idct16x16_256 input dest xoff yoff x y) /\
  ((eob = 1 -> supported 32 1 input xoff yoff) -> (eob <= 34 -> supported 32 8 input xoff yoff) ->
     rsIdct32x32 input dest eob xoff yoff x y = add_columns 32 idct32_1d 6 (full_rows 32 idct32_1d input xoff yoff) dest xoff yoff x y).
Proof.
  split_and!.
  - intros H1. unfold rsIdct4x4, idct4x4_16, idct4x4_1. destruct (Z.gtb_spec eob 1); [reflexivity|]. apply (add_dc_full 4 idct4_1d ltac:(lia) 4), H1. lia.
  - intros H1 H2. unfold rsIdct8x8, idct8x8_1, idct8x8_10, idct8x8_64. destruct (Z.eqb_spec eob 1); [by apply (add_dc_full 8 idct8_1d ltac:(lia) 5), H1|].
    destruct (Z.leb_spec eob 10) as [Hle|]; [|reflexivity]. rewrite (first_rows_full 8 idct8_1d ltac:(lia) 4 _ _ _ (H2 Hle) ltac:(lia)). reflexivity.
  - intros H1 H2. unfold rsIdct16x16, idct16x16_1, idct16x16_10, idct16x16_256. destruct (Z.eqb_spec eob 1); [by apply (add_dc_full 16 idct16_1d ltac:(lia) 6), H1|].
    destruct (Z.leb_spec eob 10) as [Hle|]; [|reflexivity]. rewrite (first_rows_full 16 idct16_1d ltac:(lia) 4 _ _ _ (H2 Hle) ltac:(lia)). reflexivity.
  - intros H1 H2. unfold rsIdct32x32, idct32x32_1, idct32x32_34. destruct (Z.eqb_spec eob 1); [by apply (add_dc_full 32 idct32_1d ltac:(lia) 6), H1|].
    destruct (Z.leb_spec eob 34) as [Hle|]; [|by rewrite idct32_full]. rewrite (first_rows_full 32 idct32_1d ltac:(lia) 8 _ _ _ (H2 Hle) ltac:(lia)). reflexivity.
Qed.

(** ** Parametricity *)

#[export] Typeclasses Opaque
  idct4_1d idct8_stage1 idct8_stage3 idct8_stage4 idct8_1d
  idct16_stage1 idct16_stage2 idct16_stage3 idct16_stage4 idct16_stage5 idct16_stage6 idct16_stage7 idct16_1d
  idct32_stage1 idct32_stage2 idct32_stage3 idct32_stage4 idct32_stage5 idct32_stage6 idct32_stage7 idct32_final idct32_1d.

Ltac parametric_stage d := split; intros T U HT HU R HR l l' Hl; unfold d; arith_rel.

#[export] Instance idct4_1d_parametric : Parametric (@idct4_1d).
Proof. parametric_stage @idct4_1d. Qed.
#[export] Instance idct8_stage1_parametric : Parametric (@idct8_stage1).
Proof. parametric_stage @idct8_stage1. Qed.
#[export] Instance idct8_stage4_parametric : Parametric (@idct8_stage4).
Proof. parametric_stage @idct8_stage4. Qed.
#[export] Instance idct16_stage1_parametric : Parametric (@idct16_stage1).
Proof. parametric_stage @idct16_stage1. Qed.
#[export] Instance idct16_stage2_parametric : Parametric (@idct16_stage2).
Proof. parametric_stage @idct16_stage2. Qed.
#[export] Instance idct16_stage3_parametric : Parametric (@idct16_stage3).
Proof. parametric_stage @idct16_stage3. Qed.
#[export] Instance idct16_stage4_parametric : Parametric (@idct16_stage4).
Proof. parametric_stage @idct16_stage4. Qed.
#[export] Instance idct16_stage5_parametric : Parametric (@idct16_stage5).
Proof. parametric_stage @idct16_stage5. Qed.
#[export] Instance idct16_stage6_parametric : Parametric (@idct16_stage6).
Proof. parametric_stage @idct16_stage6. Qed.
#[export] Instance idct16_stage7_parametric : Parametric (@idct16_stage7).
Proof. parametric_stage @idct16_stage7. Qed.
#[export] Instance idct32_stage1_parametric : Parametric (@idct32_stage1).
Proof. parametric_stage @idct32_stage1. Qed.
#[export] Instance idct32_stage2_parametric : Parametric (@idct32_stage2).
Proof. parametric_stage @idct32_stage2. Qed.
#[export] Instance idct32_stage3_parametric : Parametric (@idct32_stage3).
Proof. parametric_stage @idct32_stage3. Qed.
#[export] Instance idct32_stage4_parametric : Parametric (@idct32_stage4).
Proof. parametric_stage @idct32_stage4. Qed.
#[export] Instance idct32_stage5_parametric : Parametric (@idct32_stage5).
Proof. parametric_stage @idct32_stage5. Qed.
#[export] Instance idct32_stage6_parametric : Parametric (@idct32_stage6).
Proof. parametric_stage @idct32_stage6. Qed.
#[export] Instance idct32_stage7_parametric : Parametric (@idct32_stage7).
Proof. parametric_stage @idct32_stage7. Qed.
#[export] Instance idct32_final_parametric : Parametric (@idct32_final).
Proof. parametric_stage @idct32_final. Qed.
#[export] Instance idct8_stage3_parametric : Parametric (@idct8_stage3).
Proof.
  split. intros T U HT HU R HR l l' Hl. unfold idct8_stage3. cbv zeta. pose proof (parametric (f := @idct4_1d) _ _ _ _ R HR l l' Hl) as He. arith_rel.
Qed.
#[export] Instance idct8_parametric : Parametric (@idct8_1d).
Proof. split. intros T U HT HU R HR l l' Hl. unfold idct8_1d. repeat (apply parametric; [done|]). done. Qed.
#[export] Instance idct16_parametric : Parametric (@idct16_1d).
Proof. split. intros T U HT HU R HR l l' Hl. unfold idct16_1d. repeat (apply parametric; [done|]). done. Qed.
#[export] Instance idct32_parametric : Parametric (@idct32_1d).
Proof. split. intros T U HT HU R HR l l' Hl. unfold idct32_1d. repeat (apply parametric; [done|]). done. Qed.

(** ** Structure *)

Section structure.
Context {T} `{Arith T}.
Local Open Scope arith_scope.

Definition evens (n : nat) (x : list T) : list T := (fun k => x.[2 * k]) <$> seq 0 n.

(** The values before the last stage; the upper half is what the odd coefficients give. *)
Definition halves8 (x : list T) : list T := idct8_stage3 (idct8_stage1 x).
Definition halves16 (x : list T) : list T := idct16_stage6 (idct16_stage5 (idct16_stage4 (idct16_stage3 (idct16_stage2 (idct16_stage1 x))))).
Definition halves32 (x : list T) : list T :=
  idct32_stage7 (idct32_stage6 (idct32_stage5 (idct32_stage4 (idct32_stage3 (idct32_stage2 (idct32_stage1 x)))))).

(** Sums of the two halves, and their differences in reverse. *)
Definition butterfly (n : nat) (even odd : list T) : list T :=
  ((fun i => ashort (even.[i] + odd.[2 * n - 1 - i])) <$> seq 0 n) ++ ((fun i => ashort (even.[n - 1 - i] - odd.[n + i])) <$> seq 0 n).
End structure.

#[export] Typeclasses Opaque evens halves8 halves16 halves32 butterfly.

#[export] Instance evens_parametric n : Parametric (fun T HT => @evens T HT n).
Proof.
  split. intros T U HT HU R HR l l' Hl. unfold evens. apply Forall2_fmap, Forall2_same_length_lookup. split; [done|]. intros i a b Ha Hb. simplify_eq. by apply rel_at.
Qed.

Lemma rel_fmap {T U} (R : T -> U -> Prop) (f : nat -> T) (g : nat -> U) (l : list nat) : (forall i, R (f i) (g i)) -> Forall2 R (f <$> l) (g <$> l).
Proof. intros Hfg. apply Forall2_fmap, Forall2_same_length_lookup. split; [done|]. intros i a b Ha Hb. by simplify_eq. Qed.

Lemma rel_butterfly {T U} `{Arith T} `{Arith U} (R : T -> U -> Prop) `{!ArithRel R} n e e' o o' :
  Forall2 R e e' -> Forall2 R o o' -> Forall2 R (butterfly n e o) (butterfly n e' o').
Proof. intros He Ho. apply Forall2_app; apply rel_fmap; intros i; arith_rel. Qed.

#[export] Instance halves8_parametric : Parametric (@halves8).
Proof. split. intros T U HT HU R HR l l' Hl. unfold halves8. repeat (apply parametric; [done|]). done. Qed.
#[export] Instance halves16_parametric : Parametric (@halves16).
Proof. split. intros T U HT HU R HR l l' Hl. unfold halves16. repeat (apply parametric; [done|]). done. Qed.
#[export] Instance halves32_parametric : Parametric (@halves32).
Proof. split. intros T U HT HU R HR l l' Hl. unfold halves32. repeat (apply parametric; [done|]). done. Qed.

(** A transform built from one of half the size. *)
Definition nest (n : nat) (half halves : forall T, Arith T -> list T -> list T) (T : Type) (HT : Arith T) (x : list T) : list T :=
  butterfly n (half T HT (evens n x)) (halves T HT x).
#[export] Typeclasses Opaque nest.
#[export] Instance nest_parametric n half halves `{!Parametric half} `{!Parametric halves} : Parametric (nest n half halves).
Proof.
  split. intros T U HT HU R HR l l' Hl. unfold nest. apply rel_butterfly; [done|..]; [|by apply parametric].
  apply parametric; [done|]. by apply (parametric (f := fun T HT => @evens T HT n)).
Qed.

(** the transforms are nested: the transform of 2n coefficients (n = 4, 8, 16) is the
    transform of the n coefficients with even numbers, combined by one butterfly with values
    that depend on the coefficients with odd numbers only. *)
Theorem idct_nested n (x y : list Z) :
  length x = (2 * n)%nat -> length y = (2 * n)%nat -> (forall i, at_ x (2 * i + 1) = at_ y (2 * i + 1)) ->
  (n = 4%nat -> idct8_1d x = nest n (@idct4_1d) (@halves8) Z _ x /\ drop n (halves8 x) = drop n (halves8 y)) /\
  (n = 8%nat -> idct16_1d x = nest n (@idct8_1d) (@halves16) Z _ x /\ drop n (halves16 x) = drop n (halves16 y)) /\
  (n = 16%nat -> idct32_1d x = nest n (@idct16_1d) (@halves32) Z _ x /\ drop n (halves32 x) = drop n (halves32 y)).
Proof.
  intros Hx Hy Hxy. assert (Hodd : forall i, Nat.odd i = true -> at_ x i = at_ y i) by (intros i [k ->]%Nat.odd_spec; apply Hxy).
  split_and!; intros ->; cbn [Nat.mul Nat.add] in Hx, Hy; split.
  - apply (same_formulas (@idct8_1d) (nest 4 (@idct4_1d) (@halves8)) 8); [vm_compute; reflexivity|done].
  - apply (by_vars (@halves8) Nat.odd 4 8); [done..|vm_compute; reflexivity].
  - apply (same_formulas (@idct16_1d) (nest 8 (@idct8_1d) (@halves16)) 16); [vm_compute; reflexivity|done].
  - apply (by_vars (@halves16) Nat.odd 8 16); [done..|vm_compute; reflexivity].
  - apply (same_formulas (@idct32_1d) (nest 16 (@idct16_1d) (@halves32)) 32); [vm_compute; reflexivity|done].
  - apply (by_vars (@halves32) Nat.odd 16 32); [done..|vm_compute; reflexivity].
Qed.

(** ** Overflow *)

Definition short_interval : interval := Some (- 32768, 32767).
Definition is_short (v : Z) : Prop := - 32768 <= v <= 32767.

Lemma shorts_within n x : length x = n -> Forall is_short x -> Forall2 (fun i v => within i (Some v)) (replicate n short_interval) x.
Proof.
  intros <- Hx. induction Hx as [|v x Hv Hx IH]; constructor; [|done]. intros l h [= <- <-]. exists v. done.
Qed.

(** no inverse transform overflows: for all 16-bit coefficients, computing with every
    [int] operation checked gives the results of the exact computation. *)
Theorem idct_no_overflow (x : list Z) :
  Forall is_short x ->
  (length x = 4%nat -> idct4_1d (Some <$> x) = Some <$> idct4_1d x) /\
  (length x = 8%nat -> idct8_1d (Some <$> x) = Some <$> idct8_1d x) /\
  (length x = 16%nat -> idct16_1d (Some <$> x) = Some <$> idct16_1d x) /\
  (length x = 32%nat -> idct32_1d (Some <$> x) = Some <$> idct32_1d x).
Proof.
  intros Hx. split_and!; intros Hn; pose proof (shorts_within _ x Hn Hx) as Hw.
  - apply (no_overflow (@idct4_1d) _ x Hw). vm_compute. reflexivity.
  - apply (no_overflow (@idct8_1d) _ x Hw). vm_compute. reflexivity.
  - apply (no_overflow (@idct16_1d) _ x Hw). vm_compute. reflexivity.
  - apply (no_overflow (@idct32_1d) _ x Hw). vm_compute. reflexivity.
Qed.

(** ** Cells *)

Lemma clip_pixel_range v : 0 <= clip_pixel v <= 255.
Proof. unfold clip_pixel. destruct (Z.gtb_spec v 255); [lia|]. destruct (Z.ltb_spec v 0); lia. Qed.

Lemma add_columns_cell n idct shift out dest xoff yoff x y :
  if in_block n xoff yoff x y then 0 <= add_columns n idct shift out dest xoff yoff x y <= 255 else add_columns n idct shift out dest xoff yoff x y = dest x y.
Proof. unfold add_columns. rewrite update_by_cols. destruct (in_block n xoff yoff x y); [apply clip_pixel_range|done]. Qed.

Lemma add_dc_cell n shift input dest xoff yoff x y :
  if in_block n xoff yoff x y then 0 <= add_dc n shift input dest xoff yoff x y <= 255 else add_dc n shift input dest xoff yoff x y = dest x y.
Proof. unfold add_dc. rewrite update_by_rows. destruct (in_block n xoff yoff x y); [apply clip_pixel_range|done]. Qed.

(** Whatever the coefficients, the inverse transforms store bytes in their block and leave
    every other cell alone. *)
Theorem rsIdct_block input dest eob xoff yoff x y :
  (if in_block 4 xoff yoff x y then 0 <= rsIdct4x4 input dest eob xoff yoff x y <= 255 else rsIdct4x4 input dest eob xoff yoff x y = dest x y) /\
  (if in_block 8 xoff yoff x y then 0 <= rsIdct8x8 input dest eob xoff yoff x y <= 255 else rsIdct8x8 input dest eob xoff yoff x y = dest x y) /\
  (if in_block 16 xoff yoff x y then 0 <= rsIdct16x16 input dest eob xoff yoff x y <= 255 else rsIdct16x16 input dest eob xoff yoff x y = dest x y) /\
  (if in_block 32 xoff yoff x y then 0 <= rsIdct32x32 input dest eob xoff yoff x y <= 255 else rsIdct32x32 input dest eob xoff yoff x y = dest x y).
Proof.
  split_and!.
  - unfold rsIdct4x4, idct4x4_1, idct4x4_16. destruct (_ >? _); [apply add_columns_cell|apply add_dc_cell].
  - unfold rsIdct8x8, idct8x8_1, idct8x8_10, idct8x8_64. destruct (_ =? _); [apply add_dc_cell|]. destruct (_ <=? _); apply add_columns_cell.
  - unfold rsIdct16x16, idct16x16_1, idct16x16_10, idct16x16_256. destruct (_ =? _); [apply add_dc_cell|]. destruct (_ <=? _); apply add_columns_cell.
  - unfold rsIdct32x32, idct32x32_1, idct32x32_34, idct32x32_1024. destruct (_ =? _); [apply add_dc_cell|]. destruct (_ <=? _); apply add_columns_cell.
Qed.

(** ** Examples *)

(** One coefficient at (3, 2), and a grey block. *)
Definition ex_in : raster := fun x y => if (x =? 3) && (y =? 2) then 800 else 0.
Definition ex_dest : raster := fun _ _ => 100.

Lemma ex_in_supported n : supported n 1 ex_in 3 2.
Proof. intros i j _ _ H. unfold ex_in. destruct (Z.eqb_spec (Z.of_nat j + 3) 3), (Z.eqb_spec (Z.of_nat i + 2) 2); cbn; lia. Qed.

Lemma rsIdct_exact_witness :
  rsIdct8x8 ex_in ex_dest 1 3 2 5 4 = idct8x8_64 ex_in ex_dest 3 2 5 4 /\ rsIdct8x8 ex_in ex_dest 1 3 2 5 4 = 113 /\ ex_dest 5 4 = 100.
Proof.
  split; [|split; vm_compute; reflexivity]. destruct (rsIdct_exact ex_in ex_dest 1 3 2 5 4) as (_ & H & _). apply H; intros _; [apply ex_in_supported|].
  intros i j Hi Hj Hk. apply (ex_in_supported 8); [done..|]. lia.
Defined.

Lemma idct_nested_witness : idct16_1d (seqZ 1 16) = nest 8 (@idct8_1d) (@halves16) Z _ (seqZ 1 16).
Proof.
  destruct (idct_nested 8 (seqZ 1 16) (seqZ 1 16) eq_refl eq_refl ltac:(done)) as (_ & H & _). apply (H eq_refl).
Defined.

Lemma idct_no_overflow_witness : idct8_1d (Some <$> replicate 8 32767) = Some <$> idct8_1d (replicate 8 32767).
Proof.
  destruct (idct_no_overflow (replicate 8 32767)) as (_ & H & _); [apply Forall_replicate; unfold is_short; lia|]. apply (H eq_refl).
Defined.

End Idct.
