(* ===== verification/Affine.v ===== *)
(** * Affine: bounds of transforms by linear forms

    Intervals forget that the values of a transform come from the same inputs.  Here a value
    is known as a linear form in the inputs with an error, which adds up the roundings; the
    largest value of a linear form over inputs of bounded size is the sum of the absolute
    values of its coefficients.  This is one more reading of the arithmetic of [Transform]. *)

From S2P Require Import Prelude Transform.
Import Transform.

Module Affine.

(** The value [v] satisfies |2^den v - cst - num . x| <= err for the inputs [x]. *)
Record affine := mkAff { f_den : nat; f_cst : Z; f_num : list Z; f_err : Z }.

Fixpoint dot (a x : list Z) : Z := match a, x with c :: a, v :: x => c * v + dot a x | _, _ => 0 end.
Fixpoint sum_abs (a : list Z) : Z := match a with [] => 0 | c :: a => Z.abs c + sum_abs a end.
Fixpoint vadd (a b : list Z) : list Z := match a, b with [], b => b | a, [] => a | c :: a, d :: b => c + d :: vadd a b end.
Definition vscale (k : Z) (a : list Z) : list Z := (fun c => k * c) <$> a.

Definition pow2 (k : nat) : Z := 2 ^ Z.of_nat k.

Definition raise (k : nat) (f : affine) : affine := mkAff (f_den f + k) (pow2 k * f_cst f) (vscale (pow2 k) (f_num f)) (pow2 k * f_err f).
Definition scale (c : Z) (f : affine) : affine := mkAff (f_den f) (c * f_cst f) (vscale c (f_num f)) (Z.abs c * f_err f).
Definition plus (f g : affine) : affine :=
  let f := raise (f_den g - f_den f) f in
  let g := raise (f_den f - f_den g) g in
  mkAff (f_den f) (f_cst f + f_cst g) (vadd (f_num f) (f_num g)) (f_err f + f_err g).
(** The bits that a shift drops are between 0 and 2^n - 1: half of that is put into the
    constant and half into the error. *)
Definition shift (n : Z) (f : affine) : affine :=
  let f := raise 1 f in
  let e := pow2 (f_den f - 1) * (2 ^ n - 1) in
  mkAff (f_den f + Z.to_nat n) (f_cst f - e) (f_num f) (f_err f + e).
(** 0 or 1. *)
Definition bit : affine := mkAff 1 1 [] 1.

(** The largest |2^den v| for inputs of size up to [B]. *)
Definition bound (B : Z) (f : affine) : Z := Z.abs (f_cst f) + B * sum_abs (f_num f) + f_err f.
Definition bounded (B K : Z) (f : affine) : bool := bound B f <=? K * pow2 (f_den f).

Section reading.
Context (B : Z).

Definition int_affine (f : affine) : option affine := if bounded B (2 ^ 31 - 1) f then Some f else None.

Definition affines : Arith (option affine) := {|
  aconst c := int_affine (mkAff 0 c [] 0);
  aadd x y := x ≫= fun f => y ≫= fun g => int_affine (plus f g);
  asub x y := x ≫= fun f => y ≫= fun g => int_affine (plus f (scale (-1) g));
  aopp x := x ≫= fun f => int_affine (scale (-1) f);
  amul x c := x ≫= fun f => int_affine (scale c f);
  ashr x n := if n <? 0 then None else x ≫= fun f => int_affine (shift n f);
  ashort x := x ≫= fun f => if bounded B 32767 f then Some f else None;
  altz x := x ≫= fun _ => int_affine bit;
  agtz x := x ≫= fun _ => int_affine bit
|}.

Definition affine_inputs (n : nat) : list (option affine) := (fun i => Some (mkAff 0 0 (replicate i 0 ++ [1]) 0)) <$> seq 0 n.

Context (x : list Z) (Hx : Forall (fun v => Z.abs v <= B) x) (HB : 0 <= B).

Definition approx (f : affine) (v : Z) : Prop := Z.abs (pow2 (f_den f) * v - f_cst f - dot (f_num f) x) <= f_err f.
Definition described (a : option affine) (c : option Z) : Prop := forall f, a = Some f -> exists v, c = Some v /\ approx f v.

Lemma pow2_pos k : 0 < pow2 k.
Proof. apply Z.pow_pos_nonneg; lia. Qed.

Lemma pow2_add j k : pow2 (j + k) = pow2 j * pow2 k.
Proof. unfold pow2. rewrite Nat2Z.inj_add, Z.pow_add_r by lia. done. Qed.

Lemma dot_vadd a b y : dot (vadd a b) y = dot a y + dot b y.
Proof. revert b y. induction a as [|c a IH]; intros [|d b] [|v y]; cbn; try lia. rewrite IH. lia. Qed.

Lemma dot_vscale k a y : dot (vscale k a) y = k * dot a y.
Proof. revert y. induction a as [|c a IH]; intros [|v y]; cbn; try lia. unfold vscale in IH. rewrite IH. lia. Qed.

Lemma dot_bound a y : Forall (fun v => Z.abs v <= B) y -> Z.abs (dot a y) <= B * sum_abs a.
Proof.
  intros Hy. revert a. induction Hy as [|v y Hv Hy IH]; intros [|c a]; cbn [dot sum_abs]; try nia.
  - assert (0 <= sum_abs a) by (clear; induction a; cbn; lia). nia.
  - specialize (IH a). pose proof (Z.abs_mul c v). nia.
Qed.

Lemma approx_bound f v K : approx f v -> bounded B K f = true -> Z.abs v <= K.
Proof.
  intros Ha Hb. unfold bounded, bound in Hb. apply Z.leb_le in Hb. unfold approx in Ha. pose proof (dot_bound (f_num f) x Hx). pose proof (pow2_pos (f_den f)).
  assert (Z.abs (pow2 (f_den f) * v) <= K * pow2 (f_den f)) by lia. rewrite Z.abs_mul, (Z.abs_eq (pow2 _)) in H1 by lia. nia.
Qed.

Lemma approx_raise k f v : approx f v -> approx (raise k f) v.
Proof.
  unfold approx, raise. cbn. rewrite pow2_add, dot_vscale. pose proof (pow2_pos k). intros Ha.
  replace (pow2 (f_den f) * pow2 k * v - pow2 k * f_cst f - pow2 k * dot (f_num f) x) with (pow2 k * (pow2 (f_den f) * v - f_cst f - dot (f_num f) x)) by ring.
  rewrite Z.abs_mul, (Z.abs_eq (pow2 k)) by lia. nia.
Qed.

Lemma approx_scale c f v : approx f v -> approx (scale c f) (v * c).
Proof.
  unfold approx, scale. cbn. rewrite dot_vscale. intros Ha.
  replace (pow2 (f_den f) * (v * c) - c * f_cst f - c * dot (f_num f) x) with (c * (pow2 (f_den f) * v - f_cst f - dot (f_num f) x)) by ring.
  rewrite Z.abs_mul. nia.
Qed.

Lemma approx_plus f g v w : approx f v -> approx g w -> approx (plus f g) (v + w).
Proof.
  intros Hf Hg. apply (approx_raise (f_den g - f_den f)) in Hf. unfold plus. set (f' := raise (f_den g - f_den f) f) in *.
  apply (approx_raise (f_den f' - f_den g)) in Hg. set (g' := raise (f_den f' - f_den g) g) in *.
  assert (Hden : f_den g' = f_den f') by (unfold g', f'; cbn; lia). clearbody f' g'.
  unfold approx in *. cbn [f_den f_cst f_num f_err]. rewrite Hden in Hg. rewrite dot_vadd, Z.mul_add_distr_l. lia.
Qed.

Lemma approx_shift n f v : 0 <= n -> approx f v -> approx (shift n f) (Z.shiftr v n).
Proof.
  intros Hn Hf. apply (approx_raise 1) in Hf. unfold shift. set (f' := raise 1 f) in *.
  assert (Hden : pow2 (f_den f') = 2 * pow2 (f_den f' - 1)).
  { replace (f_den f') with (S (f_den f' - 1)) at 1 by (unfold f'; cbn; lia). unfold pow2. rewrite Nat2Z.inj_succ, Z.pow_succ_r; lia. }
  clearbody f'. unfold approx in *. cbn [f_den f_cst f_num f_err]. rewrite pow2_add.
  assert (Hp : pow2 (Z.to_nat n) = 2 ^ n) by (unfold pow2; by rewrite Z2Nat.id). rewrite Hp, Z.shiftr_div_pow2 by done. rewrite Hden in *.
  pose proof (pow2_pos (f_den f' - 1)) as Hd. pose proof (Z.pow_pos_nonneg 2 n ltac:(lia) Hn) as Hq.
  pose proof (Z.div_mod v (2 ^ n) ltac:(lia)) as Ev. pose proof (Z.mod_pos_bound v (2 ^ n) Hq) as Hr. revert Ev Hr.
  generalize (v / 2 ^ n), (v mod 2 ^ n). intros q r Ev Hr. set (D := pow2 (f_den f' - 1)) in *.
  assert (Hdr : 0 <= D * r <= D * (2 ^ n - 1)) by nia. replace (2 * D * 2 ^ n * q) with (2 * D * v - 2 * (D * r)) by (rewrite Ev; ring). lia.
Qed.

Lemma described_check f v : approx f v -> described (int_affine f) (int_check v).
Proof.
  intros Ha f' E. unfold int_affine in E. destruct (bounded B (2 ^ 31 - 1) f) eqn:Eb; [|done]. injection E as <-. exists v. split; [|done].
  pose proof (approx_bound f v _ Ha Eb). unfold int_check. assert (fits_int v = true) as -> by (unfold fits_int; lia). done.
Qed.

Lemma described_bind a c f g : described a c -> (forall h v, approx h v -> described (f h) (g v)) -> described (a ≫= f) (c ≫= g).
Proof. intros Ha Hf h E. apply bind_Some in E as (h0 & E0 & E). destruct (Ha h0 E0) as (v & -> & Hv). by apply (Hf h0 v Hv). Qed.

#[export] Instance affines_checked : @ArithRel _ _ affines checked described.
Proof.
  split; cbn.
  - intros c. apply described_check. unfold approx. cbn. unfold pow2. cbn. lia.
  - intros a c b d Ha Hb. apply described_bind; [done|]. intros f v Hf. apply described_bind; [done|]. intros g w Hg. apply described_check. by apply approx_plus.
  - intros a c b d Ha Hb. apply described_bind; [done|]. intros f v Hf. apply described_bind; [done|]. intros g w Hg. apply described_check.
    replace (v - w) with (v + w * -1) by ring. apply approx_plus; [done|]. by apply approx_scale.
  - intros a c Ha. apply described_bind; [done|]. intros f v Hf. apply described_check. replace (- v) with (v * -1) by ring. by apply approx_scale.
  - intros a c k Ha. apply described_bind; [done|]. intros f v Hf. apply described_check. by apply approx_scale.
  - intros a c n Ha. destruct (Z.ltb_spec n 0); [done|]. apply described_bind; [done|]. intros f v Hf. apply described_check. by apply approx_shift.
  - intros a c Ha. apply described_bind; [done|]. intros f v Hf. destruct (bounded B 32767 f) eqn:E; [|done]. intros g [= <-]. pose proof (approx_bound f v _ Hf E).
    exists v. rewrite s16_small by lia. split; [|done]. unfold int_check. assert (fits_int v = true) as -> by (unfold fits_int; lia). done.
  - intros a c Ha. apply described_bind; [done|]. intros f v Hf. apply described_check. unfold approx. cbn. unfold pow2. cbn. destruct (_ <? _); lia.
  - intros a c Ha. apply described_bind; [done|]. intros f v Hf. apply described_check. unfold approx. cbn. unfold pow2. cbn. destruct (_ >? _); lia.
Qed.

Lemma dot_unit i y : dot (replicate i 0 ++ [1]) y = at_ y i.
Proof. revert y. induction i as [|i IH]; intros [|v y]; cbn [dot replicate app]; [done|change (1 * v + dot [] y = v); cbn; lia|done|]. rewrite IH. change (at_ (v :: y) (S i)) with (at_ y i). lia. Qed.

Lemma affine_inputs_described n : length x = n -> Forall2 described (affine_inputs n) (Some <$> x).
Proof.
  intros <-. apply Forall2_same_length_lookup. unfold affine_inputs. split; [by rewrite !length_fmap, length_seq|]. intros i a c Ha Hc.
  rewrite list_lookup_fmap in Ha. rewrite list_lookup_fmap in Hc. destruct (x !! i) as [v|] eqn:Ev; [|done]. injection Hc as <-. rewrite lookup_seq_lt in Ha by (by eapply lookup_lt_Some). injection Ha as <-.
  intros f [= <-]. exists v. split; [done|]. unfold approx. cbn [f_den f_cst f_num f_err]. rewrite dot_unit. unfold at_. rewrite (nth_lookup_Some _ _ _ _ Ev). unfold pow2. cbn. lia.
Qed.

End reading.

(** If every value of the transform stays in the range of [int] for all inputs of size [B], no
    such input overflows, and the results have the bound that the linear forms give. *)
Lemma affine_no_overflow (f : forall T, Arith T -> list T -> list T) {Hf : Parametric f} (B K : Z) (n : nat) (x : list Z) :
  length x = n -> Forall (fun v => Z.abs v <= B) x -> 0 <= B ->
  forallb (fun a => match a with Some g => bounded B K g | None => false end) (f _ (affines B) (affine_inputs n)) = true ->
  f (option Z) _ (Some <$> x) = Some <$> f Z _ x /\ Forall (fun v => Z.abs v <= K) (f Z _ x).
Proof.
  intros Hn Hx HB Hall.
  assert (H1 : Forall2 (described x) (f _ (affines B) (affine_inputs n)) (f (option Z) _ (Some <$> x))).
  { apply (parametric _ _ _ _ (described x) (affines_checked B x Hx HB)). by apply affine_inputs_described. }
  assert (H2 : Forall2 agrees (f (option Z) _ (Some <$> x)) (f Z _ x)).
  { apply (parametric _ _ _ _ agrees _). apply Forall2_fmap_l, Forall2_same_length_lookup. split; [done|]. intros i a b Ha Hb z [= <-]. congruence. }
  clear Hn. revert H2 Hall. generalize (f Z _ x). induction H1 as [|a c l cs Ha _ IH]; intros es H2 Hall; inversion H2 as [|? e ? es' He H2']; subst; [done|].
  cbn in Hall. apply andb_true_iff in Hall as [Hb Hall]. destruct a as [g|]; [|done]. destruct (Ha g eq_refl) as (v & -> & Hv).
  destruct (IH es' H2' Hall) as [E1 E2]. rewrite (He v eq_refl) in *. cbn. split; [by rewrite E1|]. constructor; [|done]. exact (approx_bound B x Hx HB g v K Hv Hb).
Qed.

(** ** Results close to the inputs *)

(** Is a linear form within [E] of [c] times input [k]?  Values are integers, so anything below
    [E] + 1 will do. *)
Definition near (B E c : Z) (k : nat) (a : option affine) : bool :=
  match a with
  | Some g => Z.abs (f_cst g) + B * sum_abs (vadd (f_num g) (vscale (- (c * pow2 (f_den g))) (replicate k 0 ++ [1]))) + f_err g <? (E + 1) * pow2 (f_den g)
  | None => false
  end.

Lemma near_approx B E c k g x v :
  Forall (fun v => Z.abs v <= B) x -> 0 <= B -> near B E c k (Some g) = true -> approx x g v -> Z.abs (v - c * at_ x k) <= E.
Proof.
  intros Hx HB Hn Ha. cbn in Hn. apply Z.ltb_lt in Hn. unfold approx in Ha. pose proof (pow2_pos (f_den g)) as Hp.
  pose proof (dot_bound B HB (vadd (f_num g) (vscale (- (c * pow2 (f_den g))) (replicate k 0 ++ [1]))) x Hx) as Hd. rewrite dot_vadd, dot_vscale, dot_unit in Hd.
  assert (Hm : Z.abs (pow2 (f_den g) * (v - c * at_ x k)) < (E + 1) * pow2 (f_den g)).
  { replace (pow2 (f_den g) * (v - c * at_ x k)) with (pow2 (f_den g) * v - c * pow2 (f_den g) * at_ x k) by ring. lia. }
  rewrite Z.abs_mul, (Z.abs_eq (pow2 (f_den g))) in Hm by lia. nia.
Qed.

Lemma affine_near (f : forall T, Arith T -> list T -> list T) {Hf : Parametric f} B E c n x :
  length x = n -> Forall (fun v => Z.abs v <= B) x -> 0 <= B ->
  forallb id (imap (near B E c) (f _ (affines B) (affine_inputs n))) = true ->
  forall k, (k < length (f _ (affines B) (affine_inputs n)))%nat -> Z.abs (at_ (f Z _ x) k - c * at_ x k) <= E.
Proof.
  intros Hn Hx HB Hall k Hk.
  assert (H1 : Forall2 (described x) (f _ (affines B) (affine_inputs n)) (f (option Z) _ (Some <$> x))).
  { apply (parametric _ _ _ _ (described x) (affines_checked B x Hx HB)). by apply affine_inputs_described. }
  assert (H2 : Forall2 agrees (f (option Z) _ (Some <$> x)) (f Z _ x)).
  { apply (parametric _ _ _ _ agrees _). apply Forall2_fmap_l, Forall2_same_length_lookup. split; [done|]. intros i a b Ha Hb z [= <-]. congruence. }
  destruct (lookup_lt_is_Some_2 _ _ Hk) as [a Ea]. destruct (Forall2_lookup_l _ _ _ _ _ H1 Ea) as (d & Ed & Hd). destruct (Forall2_lookup_l _ _ _ _ _ H2 Ed) as (e & Ee & He).
  assert (Hnear : near B E c k a = true).
  { rewrite forallb_forall in Hall. apply (Hall (near B E c k a)). apply list_elem_of_In, list_elem_of_lookup. exists k. by rewrite list_lookup_imap, Ea. }
  destruct a as [g|]; [|done]. destruct (Hd g eq_refl) as (v & -> & Hv). rewrite (He v eq_refl) in Ee. unfold at_ at 1. rewrite (nth_lookup_Some _ _ _ _ Ee).
  by eapply near_approx.
Qed.

Lemma affine_near_id (f : forall T, Arith T -> list T -> list T) {Hf : Parametric f} B E n x :
  length x = n -> Forall (fun v => Z.abs v <= B) x -> 0 <= B ->
  forallb id (imap (near B E 1) (f _ (affines B) (affine_inputs n))) = true ->
  forall k, (k < length (f _ (affines B) (affine_inputs n)))%nat -> Z.abs (at_ (f Z _ x) k - at_ x k) <= E.
Proof. intros Hn Hx HB Hall k Hk. rewrite <- (Z.mul_1_l (at_ x k)). by apply (affine_near f B E 1 n). Qed.

(** ** Transforms that differ in where they round to shorts *)

(** A formula without its conversions to [short]. *)
Fixpoint unshort (f : formula) : formula :=
  match f with
  | FVar _ | FConst _ => f
  | FAdd x y => FAdd (unshort x) (unshort y)
  | FSub x y => FSub (unshort x) (unshort y)
  | FOpp x => FOpp (unshort x)
  | FMul x c => FMul (unshort x) c
  | FShr x n => FShr (unshort x) n
  | FShort x => unshort x
  | FLtz x => FLtz (unshort x)
  | FGtz x => FGtz (unshort x)
  end.

Section shorts.
Context (B : Z) (x : list Z) (Hx : Forall (fun v => Z.abs v <= B) x) (HB : 0 <= B).

Definition form (f : formula) : option affine := @value _ (affines B) (affine_inputs (length x)) f.

Lemma form_approx f g : form f = Some g -> approx x g (value x f).
Proof.
  intros Hf.
  assert (Hd : described x (form f) (value (Some <$> x) f)).
  { pose proof (affines_checked B x Hx HB) as HR. pose proof (affine_inputs_described x (length x) eq_refl) as Hi. unfold form. clear Hf. induction f; cbn [value].
    - apply (rel_at0 (HT := affines B)); [apply HR|done].
    - apply HR.
    - by apply (rel_add (ArithRel := HR)).
    - by apply (rel_sub (ArithRel := HR)).
    - by apply (rel_opp (ArithRel := HR)).
    - by apply (rel_mul (ArithRel := HR)).
    - by apply (rel_shr (ArithRel := HR)).
    - by apply (rel_short (ArithRel := HR)).
    - by apply (rel_ltz (ArithRel := HR)).
    - by apply (rel_gtz (ArithRel := HR)). }
  destruct (Hd g Hf) as (v & Hv & Ha). enough (value x f = v) as -> by done.
  assert (Hag : agrees (value (Some <$> x) f) (value x f)); [|by apply Hag].
  clear. induction f; cbn [value]; arith_rel; try apply checked_exact. apply Forall2_fmap_l, Forall2_same_length_lookup. split; [done|]. intros j a b Ha Hb z [= <-]. congruence.
Qed.

(** Where every conversion to [short] is of a value in range, they do nothing. *)
Lemma unshort_value f : is_Some (form f) -> value x f = value x (unshort f).
Proof.
  induction f as [i|c|f1 IH1 f2 IH2|f1 IH1 f2 IH2|f IH|f IH c|f IH c|f IH|f IH|f IH]; intros [g Hg]; unfold form in Hg; cbn in Hg; fold (form) in Hg; cbn [value unshort]; [done|done|..].
  1-2: apply bind_Some in Hg as (g1 & Hg1 & Hg); apply bind_Some in Hg as (g2 & Hg2 & _); rewrite IH1, IH2 by (by eexists); done.
  3: destruct (c <? 0); [done|].
  all: apply bind_Some in Hg as (g1 & Hg1 & Hg); rewrite <- IH by (by eexists); try done.
  destruct (bounded B 32767 g1) eqn:E; [|done]. pose proof (approx_bound B x Hx HB g1 _ _ (form_approx f g1 Hg1) E). cbn. apply s16_small. lia.
Qed.
End shorts.

Lemma same_unshort f g {Hf : Parametric f} {Hg : Parametric g} B n (x : list Z) :
  length x = n -> Forall (fun v => Z.abs v <= B) x -> 0 <= B ->
  unshort <$> f formula _ (inputs n) = unshort <$> g formula _ (inputs n) ->
  forallb (fun h => bool_decide (is_Some (@value _ (affines B) (affine_inputs n) h))) (f formula _ (inputs n) ++ g formula _ (inputs n)) = true ->
  f Z _ x = g Z _ x.
Proof.
  intros <- Hx HB E Hall. rewrite (by_formulas f (length x) x eq_refl), (by_formulas g (length x) x eq_refl).
  assert (Hu : forall l, forallb (fun h => bool_decide (is_Some (@value _ (affines B) (affine_inputs (length x)) h))) l = true -> value x <$> l = value x <$> (unshort <$> l)).
  { intros l Hl. rewrite <- list_fmap_compose. apply list_fmap_ext. intros i h Hh. cbn. apply (unshort_value B x Hx HB). rewrite forallb_forall in Hl.
    specialize (Hl h). rewrite bool_decide_eq_true in Hl. apply Hl, list_elem_of_In. by eapply list_elem_of_lookup_2. }
  rewrite forallb_app in Hall. apply andb_true_iff in Hall as [H1 H2]. by rewrite (Hu _ H1), (Hu _ H2), E.
Qed.

End Affine.
