(* ===== verification/Dct.v ===== *)
(** * Dct: the forward transforms ([driver/runtime/rs_dct.c])

    The one-dimensional transforms of 4, 8, 16 and 32 values and the two-dimensional ones
    built on them.  A block is a row-major array, as in the code. *)

From S2P Require Import Prelude Transform Affine Idct.
Import Transform Affine Idct.

Module Dct.

Section one_dimensional.
Context {T} `{Arith T}.
Local Open Scope arith_scope.

Definition dct_32_round (input : T) : T := ROUND_POWER_OF_TWO input DCT_CONST_BITS.

(** The transform inside [rsDct4x4], without the loads. *)
Definition dct4_1d (input : list T) : list T :=
  let step := [
    input.[0] + input.[3];
    input.[1] + input.[2];
    input.[1] - input.[2];
    input.[0] - input.[3]
  ] in [
    ashort (fdct_round_shift ((step.[0] + step.[1]) * cospi_16_64));
    ashort (fdct_round_shift (step.[2] * cospi_24_64 + step.[3] * cospi_8_64));
    ashort (fdct_round_shift ((step.[0] - step.[1]) * cospi_16_64));
    ashort (fdct_round_shift (-step.[2] * cospi_8_64 + step.[3] * cospi_24_64))
  ].

(** The part of [fdct8] after its first stage, and the same code inside [rsDct8x8]. *)
Definition fdct8_tail (s : list T) : list T :=
  let x0 := s.[0] + s.[3] in
  let x1 := s.[1] + s.[2] in
  let x2 := s.[1] - s.[2] in
  let x3 := s.[0] - s.[3] in
  let o0 := fdct_round_shift ((x0 + x1) * cospi_16_64) in
  let o2 := fdct_round_shift (x2 * cospi_24_64 + x3 * cospi_8_64) in
  let o4 := fdct_round_shift ((x0 - x1) * cospi_16_64) in
  let o6 := fdct_round_shift (-x2 * cospi_8_64 + x3 * cospi_24_64) in
  let t2 := fdct_round_shift ((s.[6] - s.[5]) * cospi_16_64) in
  let t3 := fdct_round_shift ((s.[6] + s.[5]) * cospi_16_64) in
  let x0 := s.[4] + t2 in
  let x1 := s.[4] - t2 in
  let x2 := s.[7] - t3 in
  let x3 := s.[7] + t3 in [
    ashort o0;
    ashort (fdct_round_shift (x0 * cospi_28_64 + x3 * cospi_4_64));
    ashort o2;
    ashort (fdct_round_shift (x2 * cospi_12_64 + x1 * (- cospi_20_64)));
    ashort o4;
    ashort (fdct_round_shift (x1 * cospi_12_64 + x2 * cospi_20_64));
    ashort o6;
    ashort (fdct_round_shift (x3 * cospi_28_64 + x0 * (- cospi_4_64)))
  ].

Definition fdct8 (input : list T) : list T := fdct8_tail [
  input.[0] + input.[7];
  input.[1] + input.[6];
  input.[2] + input.[5];
  input.[3] + input.[4];
  input.[3] - input.[4];
  input.[2] - input.[5];
  input.[1] - input.[6];
  input.[0] - input.[7]
].

(** The column transform of [rsDct8x8]. *)
Definition dct8_column (in_ : list T) : list T := fdct8_tail [
  (in_.[0] + in_.[7]) * 4;
  (in_.[1] + in_.[6]) * 4;
  (in_.[2] + in_.[5]) * 4;
  (in_.[3] + in_.[4]) * 4;
  (in_.[3] - in_.[4]) * 4;
  (in_.[2] - in_.[5]) * 4;
  (in_.[1] - in_.[6]) * 4;
  (in_.[0] - in_.[7]) * 4
].

(** The loads of a pass of [rsDct16x16]: the inputs of the first and of the next eight results. *)
Definition dct16_load (pass : nat) (in_ : list T) : list T :=
  if (pass =? 0)%nat
  then ((fun k => (in_.[k] + in_.[15 - k]) * 4) <$> seq 0 8) ++ ((fun k => (in_.[7 - k] - in_.[8 + k]) * 4) <$> seq 0 8)
  else ((fun k => ((in_.[k] + aconst 1) >> 2) + ((in_.[15 - k] + aconst 1) >> 2)) <$> seq 0 8)
    ++ ((fun k => ((in_.[7 - k] + aconst 1) >> 2) - ((in_.[8 + k] + aconst 1) >> 2)) <$> seq 0 8).

(** "Work on the first eight values": the results with even numbers. *)
Definition dct16_even (input : list T) : list T :=
  let s0 := input.[0] + input.[7] in
  let s1 := input.[1] + input.[6] in
  let s2 := input.[2] + input.[5] in
  let s3 := input.[3] + input.[4] in
  let s4 := input.[3] - input.[4] in
  let s5 := input.[2] - input.[5] in
  let s6 := input.[1] - input.[6] in
  let s7 := input.[0] - input.[7] in
  let x0 := s0 + s3 in
  let x1 := s1 + s2 in
  let x2 := s1 - s2 in
  let x3 := s0 - s3 in
  let o0 := fdct_round_shift ((x0 + x1) * cospi_16_64) in
  let o8 := fdct_round_shift ((x0 - x1) * cospi_16_64) in
  let o4 := fdct_round_shift (x3 * cospi_8_64 + x2 * cospi_24_64) in
  let o12 := fdct_round_shift (x3 * cospi_24_64 - x2 * cospi_8_64) in
  let t2 := fdct_round_shift ((s6 - s5) * cospi_16_64) in
  let t3 := fdct_round_shift ((s6 + s5) * cospi_16_64) in
  let x0 := s4 + t2 in
  let x1 := s4 - t2 in
  let x2 := s7 - t3 in
  let x3 := s7 + t3 in [
    ashort o0;
    ashort (fdct_round_shift (x0 * cospi_28_64 + x3 * cospi_4_64));
    ashort o4;
    ashort (fdct_round_shift (x2 * cospi_12_64 + x1 * (- cospi_20_64)));
    ashort o8;
    ashort (fdct_round_shift (x1 * cospi_12_64 + x2 * cospi_20_64));
    ashort o12;
    ashort (fdct_round_shift (x3 * cospi_28_64 + x0 * (- cospi_4_64)))
  ].

(** "Work on the next eight values": steps 2 and 3, 4 and 5, and the results with odd numbers. *)
Definition dct16_step3 (step1 : list T) : list T :=
  let step2_2 := fdct_round_shift ((step1.[5] - step1.[2]) * cospi_16_64) in
  let step2_3 := fdct_round_shift ((step1.[4] - step1.[3]) * cospi_16_64) in
  let step2_4 := fdct_round_shift ((step1.[4] + step1.[3]) * cospi_16_64) in
  let step2_5 := fdct_round_shift ((step1.[5] + step1.[2]) * cospi_16_64) in [
    step1.[0] + step2_3;
    step1.[1] + step2_2;
    step1.[1] - step2_2;
    step1.[0] - step2_3;
    step1.[7] - step2_4;
    step1.[6] - step2_5;
    step1.[6] + step2_5;
    step1.[7] + step2_4
  ].

Definition dct16_step5 (step3 : list T) : list T :=
  let step2_1 := fdct_round_shift (step3.[1] * (- cospi_8_64) + step3.[6] * cospi_24_64) in
  let step2_2 := fdct_round_shift (step3.[2] * (- cospi_24_64) - step3.[5] * cospi_8_64) in
  let step2_5 := fdct_round_shift (step3.[2] * (- cospi_8_64) + step3.[5] * cospi_24_64) in
  let step2_6 := fdct_round_shift (step3.[1] * cospi_24_64 + step3.[6] * cospi_8_64) in [
    step3.[0] + step2_1;
    step3.[0] - step2_1;
    step3.[3] - step2_2;
    step3.[3] + step2_2;
    step3.[4] + step2_5;
    step3.[4] - step2_5;
    step3.[7] - step2_6;
    step3.[7] + step2_6
  ].

(** The results 1, 3, 5, ..., 15. *)
Definition dct16_step6 (step1 : list T) : list T := [
  ashort (fdct_round_shift (step1.[0] * cospi_30_64 + step1.[7] * cospi_2_64));
  ashort (fdct_round_shift (step1.[3] * (- cospi_26_64) + step1.[4] * cospi_6_64));
  ashort (fdct_round_shift (step1.[2] * cospi_22_64 + step1.[5] * cospi_10_64));
  ashort (fdct_round_shift (step1.[1] * (- cospi_18_64) + step1.[6] * cospi_14_64));
  ashort (fdct_round_shift (step1.[1] * cospi_14_64 + step1.[6] * cospi_18_64));
  ashort (fdct_round_shift (step1.[2] * (- cospi_10_64) + step1.[5] * cospi_22_64));
  ashort (fdct_round_shift (step1.[3] * cospi_6_64 + step1.[4] * cospi_26_64));
  ashort (fdct_round_shift (step1.[0] * (- cospi_2_64) + step1.[7] * cospi_30_64))
].

Definition dct16_1d (pass : nat) (in_ : list T) : list T :=
  let loaded := dct16_load pass in_ in
  let even := dct16_even (take 8 loaded) in
  let odd := dct16_step6 (dct16_step5 (dct16_step3 (drop 8 loaded))) in
  (fun k => if Nat.even k then even.[k / 2] else odd.[k / 2]) <$> seq 0 16.

Definition dct32_stage1 (input : list T) : list T := [
  input.[0] + input.[31];
  input.[1] + input.[30];
  input.[2] + input.[29];
  input.[3] + input.[28];
  input.[4] + input.[27];
  input.[5] + input.[26];
  input.[6] + input.[25];
  input.[7] + input.[24];
  input.[8] + input.[23];
  input.[9] + input.[22];
  input.[10] + input.[21];
  input.[11] + input.[20];
  input.[12] + input.[19];
  input.[13] + input.[18];
  input.[14] + input.[17];
  input.[15] + input.[16];
  -input.[16] + input.[15];
  -input.[17] + input.[14];
  -input.[18] + input.[13];
  -input.[19] + input.[12];
  -input.[20] + input.[11];
  -input.[21] + input.[10];
  -input.[22] + input.[9];
  -input.[23] + input.[8];
  -input.[24] + input.[7];
  -input.[25] + input.[6];
  -input.[26] + input.[5];
  -input.[27] + input.[4];
  -input.[28] + input.[3];
  -input.[29] + input.[2];
  -input.[30] + input.[1];
  -input.[31] + input.[0]
].

Definition dct32_stage2 (step : list T) : list T := [
  step.[0] + step.[15];
  step.[1] + step.[14];
  step.[2] + step.[13];
  step.[3] + step.[12];
  step.[4] + step.[11];
  step.[5] + step.[10];
  step.[6] + step.[9];
  step.[7] + step.[8];
  -step.[8] + step.[7];
  -step.[9] + step.[6];
  -step.[10] + step.[5];
  -step.[11] + step.[4];
  -step.[12] + step.[3];
  -step.[13] + step.[2];
  -step.[14] + step.[1];
  -step.[15] + step.[0];
  step.[16];
  step.[17];
  step.[18];
  step.[19];
  dct_32_round ((-step.[20] + step.[27]) * cospi_16_64);
  dct_32_round ((-step.[21] + step.[26]) * cospi_16_64);
  dct_32_round ((-step.[22] + step.[25]) * cospi_16_64);
  dct_32_round ((-step.[23] + step.[24]) * cospi_16_64);
  dct_32_round ((step.[24] + step.[23]) * cospi_16_64);
  dct_32_round ((step.[25] + step.[22]) * cospi_16_64);
  dct_32_round ((step.[26] + step.[21]) * cospi_16_64);
  dct_32_round ((step.[27] + step.[20]) * cospi_16_64);
  step.[28];
  step.[29];
  step.[30];
  step.[31]
].

Definition dct32_stage3 (output : list T) : list T := [
  output.[0] + output.[7];
  output.[1] + output.[6];
  output.[2] + output.[5];
  output.[3] + output.[4];
  -output.[4] + output.[3];
  -output.[5] + output.[2];
  -output.[6] + output.[1];
  -output.[7] + output.[0];
  output.[8];
  output.[9];
  dct_32_round ((-output.[10] + output.[13]) * cospi_16_64);
  dct_32_round ((-output.[11] + output.[12]) * cospi_16_64);
  dct_32_round ((output.[12] + output.[11]) * cospi_16_64);
  dct_32_round ((output.[13] + output.[10]) * cospi_16_64);
  output.[14];
  output.[15];
  output.[16] + output.[23];
  output.[17] + output.[22];
  output.[18] + output.[21];
  output.[19] + output.[20];
  -output.[20] + output.[19];
  -output.[21] + output.[18];
  -output.[22] + output.[17];
  -output.[23] + output.[16];
  -output.[24] + output.[31];
  -output.[25] + output.[30];
  -output.[26] + output.[29];
  -output.[27] + output.[28];
  output.[28] + output.[27];
  output.[29] + output.[26];
  output.[30] + output.[25];
  output.[31] + output.[24]
].

Definition dct32_stage4 (step : list T) : list T := [
  step.[0] + step.[3];
  step.[1] + step.[2];
  -step.[2] + step.[1];
  -step.[3] + step.[0];
  step.[4];
  dct_32_round ((-step.[5] + step.[6]) * cospi_16_64);
  dct_32_round ((step.[6] + step.[5]) * cospi_16_64);
  step.[7];
  step.[8] + step.[11];
  step.[9] + step.[10];
  -step.[10] + step.[9];
  -step.[11] + step.[8];
  -step.[12] + step.[15];
  -step.[13] + step.[14];
  step.[14] + step.[13];
  step.[15] + step.[12];
  step.[16];
  step.[17];
  dct_32_round (step.[18] * (- cospi_8_64) + step.[29] * cospi_24_64);
  dct_32_round (step.[19] * (- cospi_8_64) + step.[28] * cospi_24_64);
  dct_32_round (step.[20] * (- cospi_24_64) + step.[27] * (- cospi_8_64));
  dct_32_round (step.[21] * (- cospi_24_64) + step.[26] * (- cospi_8_64));
  step.[22];
  step.[23];
  step.[24];
  step.[25];
  dct_32_round (step.[26] * cospi_24_64 + step.[21] * (- cospi_8_64));
  dct_32_round (step.[27] * cospi_24_64 + step.[20] * (- cospi_8_64));
  dct_32_round (step.[28] * cospi_8_64 + step.[19] * cospi_24_64);
  dct_32_round (step.[29] * cospi_8_64 + step.[18] * cospi_24_64);
  step.[30];
  step.[31]
].

Definition dct32_stage5 (output : list T) : list T := [
  dct_32_round ((output.[0] + output.[1]) * cospi_16_64);
  dct_32_round ((-output.[1] + output.[0]) * cospi_16_64);
  dct_32_round (output.[2] * cospi_24_64 + output.[3] * cospi_8_64);
  dct_32_round (output.[3] * cospi_24_64 - output.[2] * cospi_8_64);
  output.[4] + output.[5];
  -output.[5] + output.[4];
  -output.[6] + output.[7];
  output.[7] + output.[6];
  output.[8];
  dct_32_round (output.[9] * (- cospi_8_64) + output.[14] * cospi_24_64);
  dct_32_round (output.[10] * (- cospi_24_64) + output.[13] * (- cospi_8_64));
  output.[11];
  output.[12];
  dct_32_round (output.[13] * cospi_24_64 + output.[10] * (- cospi_8_64));
  dct_32_round (output.[14] * cospi_8_64 + output.[9] * cospi_24_64);
  output.[15];
  output.[16] + output.[19];
  output.[17] + output.[18];
  -output.[18] + output.[17];
  -output.[19] + output.[16];
  -output.[20] + output.[23];
  -output.[21] + output.[22];
  output.[22] + output.[21];
  output.[23] + output.[20];
  output.[24] + output.[27];
  output.[25] + output.[26];
  -output.[26] + output.[25];
  -output.[27] + output.[24];
  -output.[28] + output.[31];
  -output.[29] + output.[30];
  output.[30] + output.[29];
  output.[31] + output.[28]
].

Definition dct32_stage6 (step : list T) : list T := [
  step.[0];
  step.[1];
  step.[2];
  step.[3];
  dct_32_round (step.[4] * cospi_28_64 + step.[7] * cospi_4_64);
  dct_32_round (step.[5] * cospi_12_64 + step.[6] * cospi_20_64);
  dct_32_round (step.[6] * cospi_12_64 + step.[5] * (- cospi_20_64));
  dct_32_round (step.[7] * cospi_28_64 + step.[4] * (- cospi_4_64));
  step.[8] + step.[9];
  -step.[9] + step.[8];
  -step.[10] + step.[11];
  step.[11] + step.[10];
  step.[12] + step.[13];
  -step.[13] + step.[12];
  -step.[14] + step.[15];
  step.[15] + step.[14];
  step.[16];
  dct_32_round (step.[17] * (- cospi_4_64) + step.[30] * cospi_28_64);
  dct_32_round (step.[18] * (- cospi_28_64) + step.[29] * (- cospi_4_64));
  step.[19];
  step.[20];
  dct_32_round (step.[21] * (- cospi_20_64) + step.[26] * cospi_12_64);
  dct_32_round (step.[22] * (- cospi_12_64) + step.[25] * (- cospi_20_64));
  step.[23];
  step.[24];
  dct_32_round (step.[25] * cospi_12_64 + step.[22] * (- cospi_20_64));
  dct_32_round (step.[26] * cospi_20_64 + step.[21] * cospi_12_64);
  step.[27];
  step.[28];
  dct_32_round (step.[29] * cospi_28_64 + step.[18] * (- cospi_4_64));
  dct_32_round (step.[30] * cospi_4_64 + step.[17] * cospi_28_64);
  step.[31]
].

Definition dct32_stage7 (output : list T) : list T := [
  output.[0];
  output.[1];
  output.[2];
  output.[3];
  output.[4];
  output.[5];
  output.[6];
  output.[7];
  dct_32_round (output.[8] * cospi_30_64 + output.[15] * cospi_2_64);
  dct_32_round (output.[9] * cospi_14_64 + output.[14] * cospi_18_64);
  dct_32_round (output.[10] * cospi_22_64 + output.[13] * cospi_10_64);
  dct_32_round (output.[11] * cospi_6_64 + output.[12] * cospi_26_64);
  dct_32_round (output.[12] * cospi_6_64 + output.[11] * (- cospi_26_64));
  dct_32_round (output.[13] * cospi_22_64 + output.[10] * (- cospi_10_64));
  dct_32_round (output.[14] * cospi_14_64 + output.[9] * (- cospi_18_64));
  dct_32_round (output.[15] * cospi_30_64 + output.[8] * (- cospi_2_64));
  output.[16] + output.[17];
  -output.[17] + output.[16];
  -output.[18] + output.[19];
  output.[19] + output.[18];
  output.[20] + output.[21];
  -output.[21] + output.[20];
  -output.[22] + output.[23];
  output.[23] + output.[22];
  output.[24] + output.[25];
  -output.[25] + output.[24];
  -output.[26] + output.[27];
  output.[27] + output.[26];
  output.[28] + output.[29];
  -output.[29] + output.[28];
  -output.[30] + output.[31];
  output.[31] + output.[30]
].

Definition dct32_final (step : list T) : list T := [
  step.[0];
  dct_32_round (step.[16] * cospi_31_64 + step.[31] * cospi_1_64);
  step.[8];
  dct_32_round (step.[24] * cospi_3_64 + step.[23] * (- cospi_29_64));
  step.[4];
  dct_32_round (step.[20] * cospi_27_64 + step.[27] * cospi_5_64);
  step.[12];
  dct_32_round (step.[28] * cospi_7_64 + step.[19] * (- cospi_25_64));
  step.[2];
  dct_32_round (step.[18] * cospi_23_64 + step.[29] * cospi_9_64);
  step.[10];
  dct_32_round (step.[26] * cospi_11_64 + step.[21] * (- cospi_21_64));
  step.[6];
  dct_32_round (step.[22] * cospi_19_64 + step.[25] * cospi_13_64);
  step.[14];
  dct_32_round (step.[30] * cospi_15_64 + step.[17] * (- cospi_17_64));
  step.[1];
  dct_32_round (step.[17] * cospi_15_64 + step.[30] * cospi_17_64);
  step.[9];
  dct_32_round (step.[25] * cospi_19_64 + step.[22] * (- cospi_13_64));
  step.[5];
  dct_32_round (step.[21] * cospi_11_64 + step.[26] * cospi_21_64);
  step.[13];
  dct_32_round (step.[29] * cospi_23_64 + step.[18] * (- cospi_9_64));
  step.[3];
  dct_32_round (step.[19] * cospi_7_64 + step.[28] * cospi_25_64);
  step.[11];
  dct_32_round (step.[27] * cospi_27_64 + step.[20] * (- cospi_5_64));
  step.[7];
  dct_32_round (step.[23] * cospi_3_64 + step.[24] * cospi_29_64);
  step.[15];
  dct_32_round (step.[31] * cospi_31_64 + step.[16] * (- cospi_1_64))
].

Definition dct32_1d (round : bool) (input : list T) : list T :=
  let output := dct32_stage2 (dct32_stage1 input) in
  let output := if round then half_round_shift <$> output else output in
  dct32_final (dct32_stage7 (dct32_stage6 (dct32_stage5 (dct32_stage4 (dct32_stage3 output))))).

(** ** Two dimensions *)

(** Column [i] of a row-major n by n array, and row [i]. *)
Definition col (n : nat) (a : list T) (i : nat) : list T := (fun j => a.[j * n + i]) <$> seq 0 n.
Definition row (n : nat) (a : list T) (i : nat) : list T := (fun j => a.[i * n + j]) <$> seq 0 n.

(** The array whose columns are the given lists. *)
Definition from_cols (n : nat) (cols : list (list T)) : list T := (fun k => (nth (k mod n) cols []).[k / n]) <$> seq 0 (n * n).

(** 1 if the value is not 0. *)
Definition nonzero (x : T) : T := altz x + agtz x.

(** A pass of [rsDct4x4]: each column becomes a row of the result. *)
Definition dct4_load (pass i : nat) (in_ : list T) : list T :=
  if (pass =? 0)%nat then
    let input := (fun v => v * 16) <$> in_ in
    if (i =? 0)%nat then [input.[0] + nonzero input.[0]; input.[1]; input.[2]; input.[3]] else input
  else in_.
Definition dct4_pass (pass : nat) (in_ : list T) : list T := i ← seq 0 4; dct4_1d (dct4_load pass i (col 4 in_ i)).
Definition dct4x4 (inptr : list T) : list T := dct4_pass 1 (dct4_pass 0 inptr).

Definition dct8x8 (inptr : list T) : list T :=
  let intermediate := from_cols 8 ((fun i => dct8_column (col 8 inptr i)) <$> seq 0 8) in
  i ← seq 0 8; fdct8 (row 8 intermediate i).

Definition dct16_pass (pass : nat) (in_ : list T) : list T := i ← seq 0 16; dct16_1d pass (col 16 in_ i).
Definition dct16x16 (inptr : list T) : list T := dct16_pass 1 (dct16_pass 0 inptr).

(** The column pass of the transforms of 32 by 32 values, and the two row passes. *)
Definition dct32_column (in_ : list T) : list T :=
  let temp_out := dct32_1d false ((fun v => v * 4) <$> in_) in
  (fun v => (v + aconst 1 + agtz v) >> 2) <$> temp_out.
Definition dct32_row (in_ : list T) : list T :=
  let temp_out := dct32_1d false in_ in
  (fun v => ashort ((v + aconst 1 + altz v) >> 2)) <$> temp_out.
Definition dct32_row_rd (in_ : list T) : list T := ashort <$> dct32_1d true in_.

Definition dct32x32 (inptr : list T) : list T :=
  let output := from_cols 32 ((fun i => dct32_column (col 32 inptr i)) <$> seq 0 32) in
  i ← seq 0 32; dct32_row (row 32 output i).
Definition dct32x32_rd (inptr : list T) : list T :=
  let output := from_cols 32 ((fun i => dct32_column (col 32 inptr i)) <$> seq 0 32) in
  i ← seq 0 32; dct32_row_rd (row 32 output i).

End one_dimensional.

(** The block of an allocation as a row-major array. *)
Definition load_block (n : nat) (input : raster) (xoff yoff : Z) : list Z :=
  (fun k => input (xoff + Z.of_nat (k mod n)) (yoff + Z.of_nat (k / n))) <$> seq 0 (n * n).
Definition store_block (n : nat) (f : Z -> Z) (a : list Z) (output : raster) (xoff yoff : Z) : raster :=
  update_cells (fun i j _ => s16 (f (at_ a (i + j * n)))) xoff yoff (by_cols n) output.

Definition rsDct4x4 (input output : raster) (xoff yoff : Z) : raster :=
  store_block 4 (fun v => Z.shiftr (v + 1) 2) (dct4x4 (load_block 4 input xoff yoff)) output xoff yoff.
Definition rsDct8x8 (input output : raster) (xoff yoff : Z) : raster :=
  store_block 8 (fun v => Z.quot v 2) (dct8x8 (load_block 8 input xoff yoff)) output xoff yoff.
Definition rsDct16x16 (input output : raster) (xoff yoff : Z) : raster :=
  store_block 16 id (dct16x16 (load_block 16 input xoff yoff)) output xoff yoff.
Definition rsDct32x32 (input output : raster) (xoff yoff : Z) : raster :=
  store_block 32 id (dct32x32 (load_block 32 input xoff yoff)) output xoff yoff.
Definition rsDct32x32_rd (input output : raster) (xoff yoff : Z) : raster :=
  store_block 32 id (dct32x32_rd (load_block 32 input xoff yoff)) output xoff yoff.

(** ** Parametricity *)

#[export] Typeclasses Opaque dct4_1d fdct8_tail fdct8 dct8_column dct16_load dct16_even dct16_step3 dct16_step5 dct16_step6 dct16_1d
  dct32_stage1 dct32_stage2 dct32_stage3 dct32_stage4 dct32_stage5 dct32_stage6 dct32_stage7 dct32_final dct32_1d
  col row from_cols dct4_load dct4_pass dct4x4 dct8x8 dct16_pass dct16x16 dct32_column dct32_row dct32_row_rd dct32x32 dct32x32_rd.

Section rel.
Context {T U} `{HT : Arith T} `{HU : Arith U} (R : T -> U -> Prop).

Lemma rel_map (f : T -> T) (g : U -> U) l l' : (forall x x', R x x' -> R (f x) (g x')) -> Forall2 R l l' -> Forall2 R (f <$> l) (g <$> l').
Proof. intros Hfg Hl. apply Forall2_fmap. eapply Forall2_impl; [exact Hl|]. done. Qed.

Lemma rel_bind (f : nat -> list T) (g : nat -> list U) (l : list nat) : (forall i, Forall2 R (f i) (g i)) -> Forall2 R (l ≫= f) (l ≫= g).
Proof. intros Hfg. induction l as [|i l IH]; cbn; [constructor|]. by apply Forall2_app. Qed.

Lemma rel_nth (ls : list (list T)) (ls' : list (list U)) i : Forall2 (Forall2 R) ls ls' -> Forall2 R (nth i ls []) (nth i ls' []).
Proof. intros Hls. revert i. induction Hls as [|l l' ls ls' Hl _ IH]; intros [|i]; cbn; [constructor..|done|apply IH]. Qed.

Context (H0 : R (aconst 0) (aconst 0)).

Lemma rel_col n a a' i : Forall2 R a a' -> Forall2 R (col n a i) (col n a' i).
Proof. intros Ha. apply rel_fmap. intros j. by apply rel_at0. Qed.
Lemma rel_row n a a' i : Forall2 R a a' -> Forall2 R (row n a i) (row n a' i).
Proof. intros Ha. apply rel_fmap. intros j. by apply rel_at0. Qed.

Lemma rel_from_cols n (f : nat -> list T) (g : nat -> list U) (l : list nat) :
  (forall i, Forall2 R (f i) (g i)) -> Forall2 R (from_cols n (f <$> l)) (from_cols n (g <$> l)).
Proof.
  intros Hfg. apply rel_fmap. intros k. apply rel_at0; [done|]. apply rel_nth, Forall2_fmap, Forall2_same_length_lookup. split; [done|]. intros i a b Ha Hb. by simplify_eq.
Qed.

Lemma rel_dct32 `{!ArithRel R} x x' : R x x' -> R (dct_32_round x) (dct_32_round x').
Proof. apply rel_round. done. Qed.
End rel.

Ltac dct_rel := repeat (arith_rel; match goal with
  | |- _ (dct_32_round _) (dct_32_round _) => apply rel_dct32
  | |- Forall2 _ (_ <$> seq _ _) (_ <$> seq _ _) => apply rel_fmap; intros
  | |- Forall2 _ (_ ++ _) (_ ++ _) => apply Forall2_app
  | |- Forall2 _ (take _ _) (take _ _) => apply Forall2_take
  | |- Forall2 _ (drop _ _) (drop _ _) => apply Forall2_drop
  | |- Forall2 _ (_ ≫= _) (_ ≫= _) => apply rel_bind; intros
  | |- Forall2 _ (col _ _ _) (col _ _ _) => apply rel_col; [apply rel_const|]
  | |- Forall2 _ (row _ _ _) (row _ _ _) => apply rel_row; [apply rel_const|]
  | |- Forall2 _ (from_cols _ _) (from_cols _ _) => apply rel_from_cols; [apply rel_const|intros]
  | |- Forall2 _ (_ <$> _) (_ <$> _) => apply rel_map; intros
  end); arith_rel.

Ltac parametric_by d := split; intros T U HT HU R HR l l' Hl; unfold d; cbv zeta; dct_rel.

#[export] Instance dct4_parametric : Parametric (@dct4_1d).
Proof. parametric_by @dct4_1d. Qed.
#[export] Instance fdct8_tail_parametric : Parametric (@fdct8_tail).
Proof. parametric_by @fdct8_tail. Qed.
#[export] Instance fdct8_parametric : Parametric (@fdct8).
Proof. split. intros T U HT HU R HR l l' Hl. unfold fdct8. apply (parametric (f := @fdct8_tail)); [done|]. dct_rel. Qed.
#[export] Instance dct8_column_parametric : Parametric (@dct8_column).
Proof. split. intros T U HT HU R HR l l' Hl. unfold dct8_column. apply (parametric (f := @fdct8_tail)); [done|]. dct_rel. Qed.
#[export] Instance dct16_load_parametric pass : Parametric (fun T HT => @dct16_load T HT pass).
Proof. split. intros T U HT HU R HR l l' Hl. unfold dct16_load. destruct (pass =? 0)%nat; dct_rel. Qed.
#[export] Instance dct16_even_parametric : Parametric (@dct16_even).
Proof. parametric_by @dct16_even. Qed.
#[export] Instance dct16_step3_parametric : Parametric (@dct16_step3).
Proof. parametric_by @dct16_step3. Qed.
#[export] Instance dct16_step5_parametric : Parametric (@dct16_step5).
Proof. parametric_by @dct16_step5. Qed.
#[export] Instance dct16_step6_parametric : Parametric (@dct16_step6).
Proof. parametric_by @dct16_step6. Qed.
#[export] Instance dct16_parametric pass : Parametric (fun T HT => @dct16_1d T HT pass).
Proof.
  split. intros T U HT HU R HR l l' Hl. unfold dct16_1d. cbv zeta. pose proof (parametric (f := fun T HT => @dct16_load T HT pass) _ _ _ _ R HR l l' Hl) as Hload.
  apply rel_fmap. intros k. destruct (Nat.even k); apply rel_at; [done| |done|].
  - apply (parametric (f := @dct16_even)); [done|]. by apply Forall2_take.
  - apply (parametric (f := @dct16_step6)); [done|]. apply (parametric (f := @dct16_step5)); [done|]. apply (parametric (f := @dct16_step3)); [done|]. by apply Forall2_drop.
Qed.
#[export] Instance dct32_stage1_parametric : Parametric (@dct32_stage1).
Proof. parametric_by @dct32_stage1. Qed.
#[export] Instance dct32_stage2_parametric : Parametric (@dct32_stage2).
Proof. parametric_by @dct32_stage2. Qed.
#[export] Instance dct32_stage3_parametric : Parametric (@dct32_stage3).
Proof. parametric_by @dct32_stage3. Qed.
#[export] Instance dct32_stage4_parametric : Parametric (@dct32_stage4).
Proof. parametric_by @dct32_stage4. Qed.
#[export] Instance dct32_stage5_parametric : Parametric (@dct32_stage5).
Proof. parametric_by @dct32_stage5. Qed.
#[export] Instance dct32_stage6_parametric : Parametric (@dct32_stage6).
Proof. parametric_by @dct32_stage6. Qed.
#[export] Instance dct32_stage7_parametric : Parametric (@dct32_stage7).
Proof. parametric_by @dct32_stage7. Qed.
#[export] Instance dct32_final_parametric : Parametric (@dct32_final).
Proof. parametric_by @dct32_final. Qed.
#[export] Instance dct32_parametric round : Parametric (fun T HT => @dct32_1d T HT round).
Proof.
  split. intros T U HT HU R HR l l' Hl. unfold dct32_1d. cbv zeta. repeat (apply parametric; [done|]). destruct round; [apply rel_map; [intros; by apply rel_half|]|]; repeat (apply parametric; [done|]); done.
Qed.
#[export] Instance dct4_load_parametric pass i : Parametric (fun T HT => @dct4_load T HT pass i).
Proof.
  split. intros T U HT HU R HR l l' Hl. unfold dct4_load. destruct (pass =? 0)%nat; [|done]. cbv zeta.
  assert (Hin : Forall2 R ((fun v => amul v 16) <$> l) ((fun v => amul v 16) <$> l')) by dct_rel. destruct (i =? 0)%nat; [|done]. unfold nonzero. dct_rel.
Qed.
#[export] Instance dct4x4_parametric : Parametric (@dct4x4).
Proof.
  assert (Hpass : forall pass, Parametric (fun T HT => @dct4_pass T HT pass)).
  { intros pass. split. intros T U HT HU R HR l l' Hl. unfold dct4_pass. dct_rel. apply (parametric (f := @dct4_1d)); [done|].
    apply (parametric (f := fun T HT => @dct4_load T HT pass _)); [done|]. dct_rel. }
  split. intros T U HT HU R HR l l' Hl. unfold dct4x4. apply (parametric (f := fun T HT => @dct4_pass T HT 1)); [done|]. by apply (parametric (f := fun T HT => @dct4_pass T HT 0)).
Qed.
#[export] Instance dct8x8_parametric : Parametric (@dct8x8).
Proof.
  split. intros T U HT HU R HR l l' Hl. unfold dct8x8. cbv zeta. dct_rel. apply (parametric (f := @fdct8)); [done|]. dct_rel.
  apply (parametric (f := @dct8_column)); [done|]. dct_rel.
Qed.
#[export] Instance dct32_column_parametric : Parametric (@dct32_column).
Proof.
  split. intros T U HT HU R HR l l' Hl. unfold dct32_column. cbv zeta. dct_rel. apply (parametric (f := fun T HT => @dct32_1d T HT false)); [done|]. dct_rel.
Qed.
#[export] Instance dct32_row_parametric : Parametric (@dct32_row).
Proof.
  split. intros T U HT HU R HR l l' Hl. unfold dct32_row. cbv zeta. dct_rel. apply (parametric (f := fun T HT => @dct32_1d T HT false)); [done|]. dct_rel.
Qed.
#[export] Instance dct32_row_rd_parametric : Parametric (@dct32_row_rd).
Proof.
  split. intros T U HT HU R HR l l' Hl. unfold dct32_row_rd. dct_rel. apply (parametric (f := fun T HT => @dct32_1d T HT true)); [done|]. dct_rel.
Qed.

(** ** Overflow *)

(** A checked value that is the exact one, of size up to [K]. *)
Definition sound (K : Z) (c : option Z) (e : Z) : Prop := c = Some e /\ Z.abs e <= K.

Lemma sound_0 K : 0 <= K -> sound K (aconst 0) (aconst 0).
Proof. intros HK. split; [done|]. cbn. lia. Qed.

Lemma sound_Some K l l' : Forall2 (sound K) l l' <-> l = Some <$> l' /\ Forall (fun e => Z.abs e <= K) l'.
Proof.
  split.
  - induction 1 as [|c e l l' [-> He] _ [-> IH]]; [done|]. split; [done|by constructor].
  - intros [-> Hl]. induction Hl; constructor; done.
Qed.

(** Does the transform of [n] values of size [B] stay in range, with results of size [K]? *)
Definition pass_ok (f : forall T, Arith T -> list T -> list T) (B K : Z) (n : nat) : bool :=
  forallb (fun a => match a with Some g => bounded B K g | None => false end) (f _ (affines B) (affine_inputs n)).

Lemma sound_pass f {Hf : Parametric f} B K n l l' :
  pass_ok f B K n = true -> 0 <= B -> length l' = n -> Forall2 (sound B) l l' -> Forall2 (sound K) (f _ checked l) (f _ exact l').
Proof.
  intros Hok HB Hn [-> Hl]%sound_Some. destruct (affine_no_overflow f B K n l' Hn Hl HB Hok) as [E HK]. apply sound_Some. by rewrite E.
Qed.

Lemma length_col {T} `{Arith T} n (a : list T) i : length (col n a i) = n.
Proof. unfold col. by rewrite length_fmap, length_seq. Qed.
Lemma length_row {T} `{Arith T} n (a : list T) i : length (row n a i) = n.
Proof. unfold row. by rewrite length_fmap, length_seq. Qed.

(** A pass over the columns followed by one over the rows. *)
Lemma sound_cols_rows (f g : forall T, Arith T -> list T -> list T) {Hf : Parametric f} {Hg : Parametric g} B K L n a a' :
  pass_ok f B K n = true -> pass_ok g K L n = true -> 0 <= B -> 0 <= K -> Forall2 (sound B) a a' ->
  Forall2 (sound L) (i ← seq 0 n; g _ checked (row n (from_cols n ((fun i => f _ checked (col n a i)) <$> seq 0 n)) i))
    (i ← seq 0 n; g _ exact (row n (from_cols n ((fun i => f _ exact (col n a' i)) <$> seq 0 n)) i)).
Proof.
  intros H1 H2 HB HK Ha. apply rel_bind. intros i. apply (sound_pass g K L n); [done|done|apply length_row|]. apply rel_row; [by apply sound_0|].
  apply rel_from_cols; [by apply sound_0|]. intros j. apply (sound_pass f B K n); [done|done|apply length_col|]. apply rel_col; [by apply sound_0|done].
Qed.

(** Two passes that make rows of columns. *)
Lemma sound_passes (f g : nat -> forall T, Arith T -> list T -> list T) B K L n a a' :
  (forall i, Parametric (f i)) -> (forall i, Parametric (g i)) ->
  (forall i, pass_ok (f i) B K n = true) -> (forall i, pass_ok (g i) K L n = true) -> 0 <= B -> 0 <= K -> Forall2 (sound B) a a' ->
  Forall2 (sound L) (i ← seq 0 n; g i _ checked (col n (j ← seq 0 n; f j _ checked (col n a j)) i))
    (i ← seq 0 n; g i _ exact (col n (j ← seq 0 n; f j _ exact (col n a' j)) i)).
Proof.
  intros Hf Hg H1 H2 HB HK Ha. apply rel_bind. intros i. apply (sound_pass (g i) K L n); [done|done|apply length_col|]. apply rel_col; [by apply sound_0|].
  apply rel_bind. intros j. apply (sound_pass (f j) B K n); [done|done|apply length_col|]. apply rel_col; [by apply sound_0|done].
Qed.

Definition dct4_step (pass i : nat) (T : Type) (HT : Arith T) (in_ : list T) : list T := dct4_1d (dct4_load pass i in_).
#[export] Instance dct4_step_parametric pass i : Parametric (dct4_step pass i).
Proof.
  split. intros T U HT HU R HR l l' Hl. unfold dct4_step. apply (parametric (f := @dct4_1d)); [done|]. by apply (parametric (f := fun T HT => @dct4_load T HT pass i)).
Qed.

(** C37: the forward transforms do not overflow for differences of pixels: for blocks with
    values from -255 to 255, computing with every [int] operation checked gives the results of
    the exact computation, and no result is cut off when it is stored as a 16-bit value. *)
Theorem dct_no_overflow (x : list Z) :
  Forall (fun v => Z.abs v <= 255) x ->
  (dct4x4 (Some <$> x) = Some <$> dct4x4 x /\ Forall (fun v => Z.abs v <= 32767) (dct4x4 x)) /\
  (dct8x8 (Some <$> x) = Some <$> dct8x8 x /\ Forall (fun v => Z.abs v <= 32767) (dct8x8 x)) /\
  (dct16x16 (Some <$> x) = Some <$> dct16x16 x /\ Forall (fun v => Z.abs v <= 32767) (dct16x16 x)) /\
  (dct32x32 (Some <$> x) = Some <$> dct32x32 x /\ Forall (fun v => Z.abs v <= 32767) (dct32x32 x)) /\
  (dct32x32_rd (Some <$> x) = Some <$> dct32x32_rd x /\ Forall (fun v => Z.abs v <= 32767) (dct32x32_rd x)).
Proof.
  intros Hx. assert (Ha : Forall2 (sound 255) (Some <$> x) x) by (by apply sound_Some). refine (conj _ (conj _ (conj _ (conj _ _)))); apply sound_Some.
  - apply (sound_passes (dct4_step 0) (dct4_step 1) 255 11542 32767 4); [apply _..| | |lia|lia|done]; intros [|i]; vm_compute; reflexivity.
  - apply (sound_cols_rows (@dct8_column) (@fdct8) 255 5771 32767 8); [vm_compute; reflexivity..|lia|lia|done].
  - apply (sound_passes (fun _ T HT => @dct16_1d T HT 0) (fun _ T HT => @dct16_1d T HT 1) 255 11542 32767 16); [apply _..| | |lia|lia|done]; intros i; vm_compute; reflexivity.
  - apply (sound_cols_rows (@dct32_column) (@dct32_row) 255 5771 32767 32); [vm_compute; reflexivity..|lia|lia|done].
  - apply (sound_cols_rows (@dct32_column) (@dct32_row_rd) 255 5771 32767 32); [vm_compute; reflexivity..|lia|lia|done].
Qed.

(** The bound is sharp: a block of the value 256 overflows in the transform of 32 by 32 values. *)
Theorem dct32_overflows_256 : at_ (dct32x32 (Some <$> replicate 1024 256)) 0 = None.
Proof. vm_compute. reflexivity. Qed.

Lemma dct_no_overflow_witness : dct32x32 (Some <$> replicate 1024 (-255)) = Some <$> dct32x32 (replicate 1024 (-255)) /\ at_ (dct32x32 (replicate 1024 (-255))) 0 = -32639.
Proof.
  destruct (dct_no_overflow (replicate 1024 (-255))) as (_ & _ & _ & [H _] & _); [apply Forall_replicate; lia|]. split; [exact H|vm_compute; reflexivity].
Defined.

(** ** Structure *)

(** The transforms share the one of 8 values: the columns of an 8 by 8 block use it on four
    times the values, and the even results of 16 values are the transform of 8 sums. *)
Theorem dct8_shared (x : list Z) :
  dct8_column x = fdct8 ((fun k => at_ x k * 4) <$> seq 0 8) /\ dct16_even x = fdct8 x.
Proof.
  split.
  - unfold dct8_column, fdct8. f_equal. cbn [fmap list_fmap seq at_ nth aadd asub amul exact].
    repeat (apply (f_equal2 cons); [cbn; ring|]). reflexivity.
  - unfold dct16_even, fdct8, fdct8_tail. cbv zeta. cbn [at_ nth aadd asub aopp amul ashort exact].
    repeat (apply (f_equal2 cons); [apply f_equal, f_equal; ring|]). reflexivity.
Qed.

End Dct.
