(* ===== verification/RoundTrip.v ===== *)
(** * RoundTrip: a forward transform followed by its inverse

    The forward transform of the difference of two pictures, followed by the inverse
    transform added to the second one, gives the first one back up to a rounding error.  The
    error is bounded by reading the composition over linear forms ([Affine]): its matrix is
    the identity up to the precision of the constants, and the roundings add up. *)

From S2P Require Import Prelude Transform Affine Idct Dct.
Import Transform Affine Idct Dct.

Module RoundTrip.

(** ** The composition, on arrays *)

Section arrays.
Context {T} `{Arith T}.
Local Open Scope arith_scope.

(** What an inverse transform adds to the cells of its block. *)
Definition idct_block (n : nat) (idct : list T -> list T) (shift : Z) (a : list T) : list T :=
  let out := i ← seq 0 n; idct (row n a i) in
  (fun v => ROUND_POWER_OF_TWO v shift) <$> from_cols n ((fun i => idct (col n out i)) <$> seq 0 n).

Definition trip4 (x : list T) : list T := idct_block 4 idct4_1d 4 ((fun v => ashort ((v + aconst 1) >> 2)) <$> dct4x4 x).
Definition trip8 (x : list T) : list T := idct_block 8 idct8_1d 5 ((fun v => ashort ((v + altz v) >> 1)) <$> dct8x8 x).
End arrays.

#[export] Typeclasses Opaque idct_block trip4 trip8.

Lemma rel_idct_block {T U} `{HT : Arith T} `{HU : Arith U} (R : T -> U -> Prop) `{HR : !ArithRel R} n f g shift a a' :
  (forall l l', Forall2 R l l' -> Forall2 R (f l) (g l')) -> Forall2 R a a' -> Forall2 R (idct_block n f shift a) (idct_block n g shift a').
Proof.
  intros Hfg Ha. unfold idct_block. cbv zeta. apply rel_map; [intros; by apply rel_round|]. apply rel_from_cols; [apply rel_const|]. intros i. apply Hfg.
  apply rel_col; [apply rel_const|]. apply rel_bind. intros j. apply Hfg. apply rel_row; [apply rel_const|done].
Qed.

#[export] Instance trip4_parametric : Parametric (@trip4).
Proof.
  split. intros T U HT HU R HR l l' Hl. unfold trip4. apply rel_idct_block; [done|intros; by apply (parametric (f := @idct4_1d))|].
  apply rel_map; [intros; arith_rel|]. by apply (parametric (f := @dct4x4)).
Qed.

#[export] Instance trip8_parametric : Parametric (@trip8).
Proof.
  split. intros T U HT HU R HR l l' Hl. unfold trip8. apply rel_idct_block; [done|intros; by apply (parametric (f := @idct8_1d))|].
  apply rel_map; [intros; arith_rel|]. by apply (parametric (f := @dct8x8)).
Qed.

(** ** The cells of a block *)

Lemma at_fmap_seq (f : nat -> Z) n k : (k < n)%nat -> at_ (f <$> seq 0 n) k = f k.
Proof. intros Hk. unfold at_. erewrite nth_lookup_Some; [|rewrite list_lookup_fmap, lookup_seq_lt by done; done]. done. Qed.

Lemma nth_fmap_seq {A} (f : nat -> list A) n k : (k < n)%nat -> nth k (f <$> seq 0 n) [] = f k.
Proof. intros Hk. erewrite nth_lookup_Some; [|rewrite list_lookup_fmap, lookup_seq_lt by done; done]. done. Qed.

Lemma at_bind_seq (f : nat -> list Z) n m i j :
  (forall i, length (f i) = m) -> (i < n)%nat -> (j < m)%nat -> at_ (k ← seq 0 n; f k) (i * m + j) = at_ (f i) j.
Proof.
  intros Hf Hi Hj. unfold at_. rewrite !nth_lookup. f_equal.
  assert (Hgen : forall s, (k ← seq s n; f k) !! (i * m + j)%nat = f (s + i)%nat !! j); [|by apply (Hgen 0%nat)].
  revert i Hi. induction n as [|n IH]; intros i Hi s; [lia|]. cbn [seq mbind list_bind]. destruct i as [|i].
  - rewrite lookup_app_l by (rewrite Hf; lia). by rewrite Nat.add_0_r.
  - rewrite lookup_app_r by (rewrite Hf; lia). rewrite Hf. replace (S i * m + j - m)%nat with (i * m + j)%nat by lia. rewrite IH by lia. f_equal. f_equal. lia.
Qed.

Lemma at_from_cols n (cols : list (list Z)) i j : (i < n)%nat -> (j < n)%nat -> at_ (from_cols n cols) (j * n + i) = at_ (nth i cols []) j.
Proof.
  intros Hi Hj. unfold from_cols. rewrite at_fmap_seq by nia. rewrite Nat.add_comm, Nat.Div0.mod_add, Nat.mod_small, Nat.div_add, Nat.div_small by lia. done.
Qed.

Lemma fmap_seq_ext {A} (f g : nat -> A) n : (forall k, (k < n)%nat -> f k = g k) -> f <$> seq 0 n = g <$> seq 0 n.
Proof. intros Hfg. apply list_fmap_ext. intros i k Hk. apply Hfg. apply lookup_seq in Hk. lia. Qed.

(** The block an inverse transform adds, by cells. *)
Lemma idct_block_cell n (idct : list Z -> list Z) shift (A : list Z) (c dest : raster) xoff yoff i j :
  (forall l, length (idct l) = n) -> (forall i j, (i < n)%nat -> (j < n)%nat -> c (Z.of_nat j + xoff) (Z.of_nat i + yoff) = at_ A (i * n + j)) ->
  (i < n)%nat -> (j < n)%nat ->
  add_columns n idct shift (full_rows n idct c xoff yoff) dest xoff yoff (Z.of_nat i + xoff) (Z.of_nat j + yoff)
    = clip_pixel (at_ (idct_block n idct shift A) (j * n + i) + dest (Z.of_nat i + xoff) (Z.of_nat j + yoff)).
Proof.
  intros Hlen Hc Hi Hj. unfold add_columns. rewrite update_by_cols. assert (in_block n xoff yoff (Z.of_nat i + xoff) (Z.of_nat j + yoff) = true) as -> by (unfold in_block; lia).
  replace (Z.to_nat (Z.of_nat i + xoff - xoff)) with i by lia. replace (Z.to_nat (Z.of_nat j + yoff - yoff)) with j by lia. do 2 f_equal.
  rewrite nth_fmap_seq by done. unfold idct_block. cbv zeta.
  assert (Hat : forall (f : Z -> Z) l k, (k < length l)%nat -> at_ (f <$> l) k = f (at_ l k)).
  { intros f l k Hk. unfold at_. destruct (lookup_lt_is_Some_2 l k Hk) as [v Hv]. erewrite nth_lookup_Some; [|rewrite list_lookup_fmap, Hv; done]. by rewrite (nth_lookup_Some _ _ _ _ Hv). }
  rewrite Hat by (unfold from_cols; rewrite length_fmap, length_seq; nia). f_equal. rewrite at_from_cols, nth_fmap_seq by done. do 2 f_equal.
  unfold column, col. apply fmap_seq_ext. intros k Hk. rewrite at_bind_seq by done. f_equal. unfold full_rows, read_block.
  rewrite <- list_fmap_compose, nth_fmap_seq by done. unfold compose. f_equal. unfold row. apply fmap_seq_ext. intros m Hm. by apply Hc.
Qed.

Lemma at_load_block n input xoff yoff i j : (i < n)%nat -> (j < n)%nat -> at_ (load_block n input xoff yoff) (j * n + i) = input (xoff + Z.of_nat i) (yoff + Z.of_nat j).
Proof.
  intros Hi Hj. unfold load_block. rewrite at_fmap_seq by nia. rewrite Nat.add_comm, Nat.Div0.mod_add, Nat.mod_small, Nat.div_add, Nat.div_small by lia. done.
Qed.

(** The difference of two pictures, and the error after both transforms. *)
Definition difference (orig pred : raster) : raster := fun x y => orig x y - pred x y.
Definition is_picture (a : raster) : Prop := forall x y, 0 <= a x y <= 255.

Lemma clip_near v p o E : 0 <= E -> 0 <= o <= 255 -> Z.abs (v - (o - p)) <= E -> Z.abs (clip_pixel (v + p) - o) <= E.
Proof. intros HE Ho Hv. unfold clip_pixel. destruct (Z.gtb_spec (v + p) 255); [lia|]. destruct (Z.ltb_spec (v + p) 0); lia. Qed.

Lemma difference_small n orig pred xoff yoff : is_picture orig -> is_picture pred -> Forall (fun v => Z.abs v <= 255) (load_block n (difference orig pred) xoff yoff).
Proof.
  intros Ho Hp. apply Forall_fmap, Forall_forall. intros k _. cbn. unfold difference. pose proof (Ho (xoff + Z.of_nat (k mod n)) (yoff + Z.of_nat (k / n))). pose proof (Hp (xoff + Z.of_nat (k mod n)) (yoff + Z.of_nat (k / n))). lia.
Qed.

Lemma quot2_shiftr v : Z.quot v 2 = Z.shiftr (v + (if v <? 0 then 1 else 0)) 1.
Proof.
  rewrite Z.shiftr_div_pow2 by lia. change (2 ^ 1) with 2. destruct (Z.ltb_spec v 0).
  - rewrite <- (Z.opp_involutive v) at 1. rewrite Z.quot_opp_l, Z.quot_div_nonneg by lia. pose proof (Z.div_mod (- v) 2 ltac:(lia)). pose proof (Z.mod_pos_bound (- v) 2 ltac:(lia)).
    pose proof (Z.div_mod (v + 1) 2 ltac:(lia)). pose proof (Z.mod_pos_bound (v + 1) 2 ltac:(lia)). lia.
  - rewrite Z.add_0_r. apply Z.quot_div_nonneg; lia.
Qed.

Lemma store_cell n f a output xoff yoff i j :
  (i < n)%nat -> (j < n)%nat -> store_block n f a output xoff yoff (Z.of_nat j + xoff) (Z.of_nat i + yoff) = s16 (f (at_ a (i * n + j))).
Proof.
  intros Hi Hj. unfold store_block. rewrite update_by_cols. assert (in_block n xoff yoff (Z.of_nat j + xoff) (Z.of_nat i + yoff) = true) as -> by (unfold in_block; lia).
  replace (Z.to_nat (Z.of_nat j + xoff - xoff)) with j by lia. replace (Z.to_nat (Z.of_nat i + yoff - yoff)) with i by lia. by rewrite Nat.add_comm.
Qed.

Lemma at_fmap_lt (f : Z -> Z) l k : (k < length l)%nat -> at_ (f <$> l) k = f (at_ l k).
Proof.
  intros Hk. unfold at_. destruct (lookup_lt_is_Some_2 l k Hk) as [v Hv]. erewrite nth_lookup_Some; [|rewrite list_lookup_fmap, Hv; done]. by rewrite (nth_lookup_Some _ _ _ _ Hv).
Qed.

Lemma length_load_block n input xoff yoff : length (load_block n input xoff yoff) = (n * n)%nat.
Proof. unfold load_block. by rewrite length_fmap, length_seq. Qed.

Lemma length_parametric (f : forall T, Arith T -> list T -> list T) {Hf : Parametric f} {T} `{Arith T} n (x : list T) : length x = n -> length (f T _ x) = length (f formula _ (inputs n)).
Proof. intros Hx. by rewrite (by_formulas f n x Hx), length_fmap. Qed.

(** A cell of the block, by its place in the block. *)
Lemma block_cell n xoff yoff x y : in_block n xoff yoff x y = true ->
  exists i j, (i < n)%nat /\ (j < n)%nat /\ x = Z.of_nat i + xoff /\ y = Z.of_nat j + yoff.
Proof. unfold in_block. intros Hb. exists (Z.to_nat (x - xoff)), (Z.to_nat (y - yoff)). lia. Qed.

(** The two transforms, composed, on the cells of a block. *)
Lemma trip_cell n (idct : list Z -> list Z) shift (trip : list Z -> list Z) (dct : list Z -> list Z) (store : Z -> Z) orig pred out xoff yoff i j :
  (forall l, length (idct l) = n) -> (forall x, length x = (n * n)%nat -> length (dct x) = (n * n)%nat) ->
  (forall x, trip x = idct_block n idct shift ((fun v => s16 (store v)) <$> dct x)) -> (i < n)%nat -> (j < n)%nat ->
  let x := load_block n (difference orig pred) xoff yoff in
  add_columns n idct shift (full_rows n idct (store_block n store (dct x) out xoff yoff) xoff yoff) pred xoff yoff (Z.of_nat i + xoff) (Z.of_nat j + yoff)
    = clip_pixel (at_ (trip x) (j * n + i) + pred (Z.of_nat i + xoff) (Z.of_nat j + yoff)).
Proof.
  intros Hidct Hdct Htrip Hi Hj x. rewrite Htrip. apply idct_block_cell; [done| |done|done]. intros i' j' Hi' Hj'. rewrite store_cell by done.
  rewrite at_fmap_lt; [done|]. rewrite Hdct by apply length_load_block. nia.
Qed.

Lemma trip_error n E (trip : list Z -> list Z) orig pred xoff yoff i j :
  is_picture orig -> is_picture pred -> (i < n)%nat -> (j < n)%nat -> 0 <= E ->
  (forall x, length x = (n * n)%nat -> Forall (fun v => Z.abs v <= 255) x -> forall k, (k < n * n)%nat -> Z.abs (at_ (trip x) k - at_ x k) <= E) ->
  Z.abs (clip_pixel (at_ (trip (load_block n (difference orig pred) xoff yoff)) (j * n + i) + pred (Z.of_nat i + xoff) (Z.of_nat j + yoff)) - orig (Z.of_nat i + xoff) (Z.of_nat j + yoff)) <= E.
Proof.
  intros Ho Hp Hi Hj HE Htrip. apply clip_near; [done|apply Ho|]. rewrite (Z.add_comm (Z.of_nat i)), (Z.add_comm (Z.of_nat j)).
  change (orig (xoff + Z.of_nat i) (yoff + Z.of_nat j) - pred (xoff + Z.of_nat i) (yoff + Z.of_nat j)) with (difference orig pred (xoff + Z.of_nat i) (yoff + Z.of_nat j)).
  rewrite <- (at_load_block n) by done. apply Htrip; [apply length_load_block|by apply difference_small|nia].
Qed.

(** C31: the forward transform of the difference of two pictures, followed by the inverse
    transform added to the second picture, gives the first picture back: within 1 for every
    cell of a 4 by 4 block and within 5 for an 8 by 8 block, whatever the pictures. *)
Theorem transform_roundtrip orig pred out xoff yoff x y :
  is_picture orig -> is_picture pred ->
  (in_block 4 xoff yoff x y = true ->
     Z.abs (rsIdct4x4 (rsDct4x4 (difference orig pred) out xoff yoff) pred 16 xoff yoff x y - orig x y) <= 1) /\
  (in_block 8 xoff yoff x y = true ->
     Z.abs (rsIdct8x8 (rsDct8x8 (difference orig pred) out xoff yoff) pred 64 xoff yoff x y - orig x y) <= 5).
Proof.
  intros Ho Hp. split; intros (i & j & Hi & Hj & -> & ->)%block_cell.
  - unfold rsIdct4x4, idct4x4_16, rsDct4x4. change (16 >? 1) with true. cbv iota.
    rewrite (trip_cell 4 idct4_1d 4 trip4 dct4x4); [|done|intros x' Hx'; by rewrite (length_parametric (@dct4x4) 16 x' Hx')|done|done|done].
    apply trip_error; [done..|lia|]. intros x' Hx' Hs k Hk. apply (affine_near_id (@trip4) 255 1 16); [done|done|lia|vm_compute; reflexivity|exact Hk].
  - unfold rsIdct8x8, idct8x8_64, rsDct8x8. change (64 =? 1) with false. change (64 <=? 10) with false. cbv iota.
    rewrite (trip_cell 8 idct8_1d 5 trip8 dct8x8); [|done|intros x' Hx'; by rewrite (length_parametric (@dct8x8) 64 x' Hx')| |done|done].
    + apply trip_error; [done..|lia|]. intros x' Hx' Hs k Hk. apply (affine_near_id (@trip8) 255 5 64); [done|done|lia|vm_compute; reflexivity|exact Hk].
    + intros x'. unfold trip8. f_equal. apply list_fmap_ext. intros _ v _. cbn. by rewrite quot2_shiftr.
Qed.

(** ** Example *)

Definition ex_orig : raster := fun x y => (x * 37 + y * 91) mod 256.
Definition ex_pred : raster := fun _ _ => 128.

Lemma transform_roundtrip_witness :
  Z.abs (rsIdct8x8 (rsDct8x8 (difference ex_orig ex_pred) ex_pred 16 8) ex_pred 64 16 8 17 9 - ex_orig 17 9) <= 5 /\ ex_orig 17 9 = 168.
Proof.
  split; [|reflexivity]. apply (transform_roundtrip ex_orig ex_pred ex_pred 16 8 17 9); [|unfold is_picture, ex_pred; lia|reflexivity].
  intros x y. unfold ex_orig. pose proof (Z.mod_pos_bound (x * 37 + y * 91) 256 ltac:(lia)). lia.
Defined.

End RoundTrip.
