(* ===== verification/Adst.v ===== *)
(** * Adst: the sine transforms and the inverse Walsh-Hadamard transform

    [driver/runtime/rs_iadst.c], [rs_fadst.c] and [rs_walsh.c]: the inverse and forward
    asymmetric sine transforms of 4, 8 and 16 values of a one-dimensional allocation, and the
    inverse Walsh-Hadamard transform of 16 values.  The arithmetic is over [Arith]
    ([Transform]), one definition per stage of the source. *)

From S2P Require Import Prelude Transform Affine Idct Dct.
Import Transform Affine Idct Dct.

Module Adst.

Definition sinpi_1_9 : Z := 5283.
Definition sinpi_2_9 : Z := 9929.
Definition sinpi_3_9 : Z := 13377.
Definition sinpi_4_9 : Z := 15212.

Section transforms.
Context {T} `{Arith T}.
Local Open Scope arith_scope.

(** ** The inverse transforms, [rs_iadst.c] *)

Definition iadst4 (x : list T) : list T :=
  let s0 := x.[0] * sinpi_1_9 in
  let s1 := x.[0] * sinpi_2_9 in
  let s2 := x.[1] * sinpi_3_9 in
  let s3 := x.[2] * sinpi_4_9 in
  let s4 := x.[2] * sinpi_1_9 in
  let s5 := x.[3] * sinpi_2_9 in
  let s6 := x.[3] * sinpi_4_9 in
  let s7 := x.[0] - x.[2] + x.[3] in
  let x0 := s0 + s3 + s5 in
  let x1 := s1 - s4 - s6 in
  let x2 := s7 * sinpi_3_9 in
  let x3 := s2 in [
    ashort (dct_const_round_shift (x0 + x3));
    ashort (dct_const_round_shift (x1 + x3));
    ashort (dct_const_round_shift x2);
    ashort (dct_const_round_shift (x0 + x1 - x3))
  ].

Definition iadst8_load (input : list T) : list T := [input.[7]; input.[0]; input.[5]; input.[2]; input.[3]; input.[4]; input.[1]; input.[6]].

Definition iadst8_stage1 (x : list T) : list T :=
  let s0 := x.[0] * cospi_2_64 + x.[1] * cospi_30_64 in
  let s1 := x.[0] * cospi_30_64 - x.[1] * cospi_2_64 in
  let s2 := x.[2] * cospi_10_64 + x.[3] * cospi_22_64 in
  let s3 := x.[2] * cospi_22_64 - x.[3] * cospi_10_64 in
  let s4 := x.[4] * cospi_18_64 + x.[5] * cospi_14_64 in
  let s5 := x.[4] * cospi_14_64 - x.[5] * cospi_18_64 in
  let s6 := x.[6] * cospi_26_64 + x.[7] * cospi_6_64 in
  let s7 := x.[6] * cospi_6_64 - x.[7] * cospi_26_64 in [
    dct_const_round_shift (s0 + s4);
    dct_const_round_shift (s1 + s5);
    dct_const_round_shift (s2 + s6);
    dct_const_round_shift (s3 + s7);
    dct_const_round_shift (s0 - s4);
    dct_const_round_shift (s1 - s5);
    dct_const_round_shift (s2 - s6);
    dct_const_round_shift (s3 - s7)
  ].

Definition iadst8_stage2 (x : list T) : list T :=
  let s0 := x.[0] in
  let s1 := x.[1] in
  let s2 := x.[2] in
  let s3 := x.[3] in
  let s4 := x.[4] * cospi_8_64 + x.[5] * cospi_24_64 in
  let s5 := x.[4] * cospi_24_64 - x.[5] * cospi_8_64 in
  let s6 := x.[6] * (- cospi_24_64) + x.[7] * cospi_8_64 in
  let s7 := x.[6] * cospi_8_64 + x.[7] * cospi_24_64 in [
    s0 + s2;
    s1 + s3;
    s0 - s2;
    s1 - s3;
    dct_const_round_shift (s4 + s6);
    dct_const_round_shift (s5 + s7);
    dct_const_round_shift (s4 - s6);
    dct_const_round_shift (s5 - s7)
  ].

Definition iadst8_stage3 (x : list T) : list T :=
  let s2 := (x.[2] + x.[3]) * cospi_16_64 in
  let s3 := (x.[2] - x.[3]) * cospi_16_64 in
  let s6 := (x.[6] + x.[7]) * cospi_16_64 in
  let s7 := (x.[6] - x.[7]) * cospi_16_64 in [
    x.[0];
    x.[1];
    dct_const_round_shift (s2);
    dct_const_round_shift (s3);
    x.[4];
    x.[5];
    dct_const_round_shift (s6);
    dct_const_round_shift (s7)
  ].

Definition iadst8_out (x : list T) : list T := [
  ashort x.[0];
  ashort (-x.[4]);
  ashort x.[6];
  ashort (-x.[2]);
  ashort x.[3];
  ashort (-x.[7]);
  ashort x.[5];
  ashort (-x.[1])
].

Definition iadst8 (input : list T) : list T :=
  iadst8_out (iadst8_stage3 (iadst8_stage2 (iadst8_stage1 (iadst8_load input)))).

Definition iadst16_load (input : list T) : list T := [
  input.[15]; input.[0]; input.[13]; input.[2]; input.[11]; input.[4]; input.[9]; input.[6];
  input.[7]; input.[8]; input.[5]; input.[10]; input.[3]; input.[12]; input.[1]; input.[14]].

Definition iadst16_stage1 (x : list T) : list T :=
  let s0 := x.[0] * cospi_1_64 + x.[1] * cospi_31_64 in
  let s1 := x.[0] * cospi_31_64 - x.[1] * cospi_1_64 in
  let s2 := x.[2] * cospi_5_64 + x.[3] * cospi_27_64 in
  let s3 := x.[2] * cospi_27_64 - x.[3] * cospi_5_64 in
  let s4 := x.[4] * cospi_9_64 + x.[5] * cospi_23_64 in
  let s5 := x.[4] * cospi_23_64 - x.[5] * cospi_9_64 in
  let s6 := x.[6] * cospi_13_64 + x.[7] * cospi_19_64 in
  let s7 := x.[6] * cospi_19_64 - x.[7] * cospi_13_64 in
  let s8 := x.[8] * cospi_17_64 + x.[9] * cospi_15_64 in
  let s9 := x.[8] * cospi_15_64 - x.[9] * cospi_17_64 in
  let s10 := x.[10] * cospi_21_64 + x.[11] * cospi_11_64 in
  let s11 := x.[10] * cospi_11_64 - x.[11] * cospi_21_64 in
  let s12 := x.[12] * cospi_25_64 + x.[13] * cospi_7_64 in
  let s13 := x.[12] * cospi_7_64 - x.[13] * cospi_25_64 in
  let s14 := x.[14] * cospi_29_64 + x.[15] * cospi_3_64 in
  let s15 := x.[14] * cospi_3_64 - x.[15] * cospi_29_64 in [
    dct_const_round_shift (s0 + s8);
    dct_const_round_shift (s1 + s9);
    dct_const_round_shift (s2 + s10);
    dct_const_round_shift (s3 + s11);
    dct_const_round_shift (s4 + s12);
    dct_const_round_shift (s5 + s13);
    dct_const_round_shift (s6 + s14);
    dct_const_round_shift (s7 + s15);
    dct_const_round_shift (s0 - s8);
    dct_const_round_shift (s1 - s9);
    dct_const_round_shift (s2 - s10);
    dct_const_round_shift (s3 - s11);
    dct_const_round_shift (s4 - s12);
    dct_const_round_shift (s5 - s13);
    dct_const_round_shift (s6 - s14);
    dct_const_round_shift (s7 - s15)
  ].

Definition iadst16_stage2 (x : list T) : list T :=
  let s0 := x.[0] in
  let s1 := x.[1] in
  let s2 := x.[2] in
  let s3 := x.[3] in
  let s4 := x.[4] in
  let s5 := x.[5] in
  let s6 := x.[6] in
  let s7 := x.[7] in
  let s8 := x.[8] * cospi_4_64 + x.[9] * cospi_28_64 in
  let s9 := x.[8] * cospi_28_64 - x.[9] * cospi_4_64 in
  let s10 := x.[10] * cospi_20_64 + x.[11] * cospi_12_64 in
  let s11 := x.[10] * cospi_12_64 - x.[11] * cospi_20_64 in
  let s12 := - x.[12] * cospi_28_64 + x.[13] * cospi_4_64 in
  let s13 := x.[12] * cospi_4_64 + x.[13] * cospi_28_64 in
  let s14 := - x.[14] * cospi_12_64 + x.[15] * cospi_20_64 in
  let s15 := x.[14] * cospi_20_64 + x.[15] * cospi_12_64 in [
    s0 + s4;
    s1 + s5;
    s2 + s6;
    s3 + s7;
    s0 - s4;
    s1 - s5;
    s2 - s6;
    s3 - s7;
    dct_const_round_shift (s8 + s12);
    dct_const_round_shift (s9 + s13);
    dct_const_round_shift (s10 + s14);
    dct_const_round_shift (s11 + s15);
    dct_const_round_shift (s8 - s12);
    dct_const_round_shift (s9 - s13);
    dct_const_round_shift (s10 - s14);
    dct_const_round_shift (s11 - s15)
  ].

Definition iadst16_stage3 (x : list T) : list T :=
  let s0 := x.[0] in
  let s1 := x.[1] in
  let s2 := x.[2] in
  let s3 := x.[3] in
  let s4 := x.[4] * cospi_8_64 + x.[5] * cospi_24_64 in
  let s5 := x.[4] * cospi_24_64 - x.[5] * cospi_8_64 in
  let s6 := - x.[6] * cospi_24_64 + x.[7] * cospi_8_64 in
  let s7 := x.[6] * cospi_8_64 + x.[7] * cospi_24_64 in
  let s8 := x.[8] in
  let s9 := x.[9] in
  let s10 := x.[10] in
  let s11 := x.[11] in
  let s12 := x.[12] * cospi_8_64 + x.[13] * cospi_24_64 in
  let s13 := x.[12] * cospi_24_64 - x.[13] * cospi_8_64 in
  let s14 := - x.[14] * cospi_24_64 + x.[15] * cospi_8_64 in
  let s15 := x.[14] * cospi_8_64 + x.[15] * cospi_24_64 in [
    s0 + s2;
    s1 + s3;
    s0 - s2;
    s1 - s3;
    dct_const_round_shift (s4 + s6);
    dct_const_round_shift (s5 + s7);
    dct_const_round_shift (s4 - s6);
    dct_const_round_shift (s5 - s7);
    s8 + s10;
    s9 + s11;
    s8 - s10;
    s9 - s11;
    dct_const_round_shift (s12 + s14);
    dct_const_round_shift (s13 + s15);
    dct_const_round_shift (s12 - s14);
    dct_const_round_shift (s13 - s15)
  ].

Definition iadst16_stage4 (x : list T) : list T :=
  let s2 := (x.[2] + x.[3]) * (- cospi_16_64) in
  let s3 := (x.[2] - x.[3]) * cospi_16_64 in
  let s6 := (x.[6] + x.[7]) * cospi_16_64 in
  let s7 := (- x.[6] + x.[7]) * cospi_16_64 in
  let s10 := (x.[10] + x.[11]) * cospi_16_64 in
  let s11 := (- x.[10] + x.[11]) * cospi_16_64 in
  let s14 := (x.[14] + x.[15]) * (- cospi_16_64) in
  let s15 := (x.[14] - x.[15]) * cospi_16_64 in [
    x.[0];
    x.[1];
    dct_const_round_shift (s2);
    dct_const_round_shift (s3);
    x.[4];
    x.[5];
    dct_const_round_shift (s6);
    dct_const_round_shift (s7);
    x.[8];
    x.[9];
    dct_const_round_shift (s10);
    dct_const_round_shift (s11);
    x.[12];
    x.[13];
    dct_const_round_shift (s14);
    dct_const_round_shift (s15)
  ].

Definition iadst16_out (x : list T) : list T := [
  ashort x.[0];
  ashort (-x.[8]);
  ashort x.[12];
  ashort (-x.[4]);
  ashort x.[6];
  ashort x.[14];
  ashort x.[10];
  ashort x.[2];
  ashort x.[3];
  ashort x.[11];
  ashort x.[15];
  ashort x.[7];
  ashort x.[5];
  ashort (-x.[13]);
  ashort x.[9];
  ashort (-x.[1])
].

Definition iadst16 (input : list T) : list T :=
  iadst16_out (iadst16_stage4 (iadst16_stage3 (iadst16_stage2 (iadst16_stage1 (iadst16_load input))))).

(** ** The forward transforms, [rs_fadst.c] *)

Definition fadst4 (x : list T) : list T :=
  let s0 := x.[0] * sinpi_1_9 in
  let s1 := x.[0] * sinpi_4_9 in
  let s2 := x.[1] * sinpi_2_9 in
  let s3 := x.[1] * sinpi_1_9 in
  let s4 := x.[2] * sinpi_3_9 in
  let s5 := x.[3] * sinpi_4_9 in
  let s6 := x.[3] * sinpi_2_9 in
  let s7 := x.[0] + x.[1] - x.[3] in
  let x0 := s0 + s2 + s5 in
  let x1 := s7 * sinpi_3_9 in
  let x2 := s1 - s3 + s6 in
  let x3 := s4 in [
    ashort (fdct_round_shift (x0 + x3));
    ashort (fdct_round_shift x1);
    ashort (fdct_round_shift (x2 - x3));
    ashort (fdct_round_shift (x2 - x0 + x3))
  ].

Definition fadst8_load (input : list T) : list T := [input.[7]; input.[0]; input.[5]; input.[2]; input.[3]; input.[4]; input.[1]; input.[6]].

Definition fadst8_stage1 (x : list T) : list T :=
  let s0 := x.[0] * cospi_2_64 + x.[1] * cospi_30_64 in
  let s1 := x.[0] * cospi_30_64 - x.[1] * cospi_2_64 in
  let s2 := x.[2] * cospi_10_64 + x.[3] * cospi_22_64 in
  let s3 := x.[2] * cospi_22_64 - x.[3] * cospi_10_64 in
  let s4 := x.[4] * cospi_18_64 + x.[5] * cospi_14_64 in
  let s5 := x.[4] * cospi_14_64 - x.[5] * cospi_18_64 in
  let s6 := x.[6] * cospi_26_64 + x.[7] * cospi_6_64 in
  let s7 := x.[6] * cospi_6_64 - x.[7] * cospi_26_64 in [
    fdct_round_shift (s0 + s4);
    fdct_round_shift (s1 + s5);
    fdct_round_shift (s2 + s6);
    fdct_round_shift (s3 + s7);
    fdct_round_shift (s0 - s4);
    fdct_round_shift (s1 - s5);
    fdct_round_shift (s2 - s6);
    fdct_round_shift (s3 - s7)
  ].

Definition fadst8_stage2 (x : list T) : list T :=
  let s0 := x.[0] in
  let s1 := x.[1] in
  let s2 := x.[2] in
  let s3 := x.[3] in
  let s4 := x.[4] * cospi_8_64 + x.[5] * cospi_24_64 in
  let s5 := x.[4] * cospi_24_64 - x.[5] * cospi_8_64 in
  let s6 := x.[6] * (- cospi_24_64) + x.[7] * cospi_8_64 in
  let s7 := x.[6] * cospi_8_64 + x.[7] * cospi_24_64 in [
    s0 + s2;
    s1 + s3;
    s0 - s2;
    s1 - s3;
    fdct_round_shift (s4 + s6);
    fdct_round_shift (s5 + s7);
    fdct_round_shift (s4 - s6);
    fdct_round_shift (s5 - s7)
  ].

Definition fadst8_stage3 (x : list T) : list T :=
  let s2 := (x.[2] + x.[3]) * cospi_16_64 in
  let s3 := (x.[2] - x.[3]) * cospi_16_64 in
  let s6 := (x.[6] + x.[7]) * cospi_16_64 in
  let s7 := (x.[6] - x.[7]) * cospi_16_64 in [
    x.[0];
    x.[1];
    fdct_round_shift (s2);
    fdct_round_shift (s3);
    x.[4];
    x.[5];
    fdct_round_shift (s6);
    fdct_round_shift (s7)
  ].

Definition fadst8_out (x : list T) : list T := [
  ashort x.[0];
  ashort (- x.[4]);
  ashort x.[6];
  ashort (- x.[2]);
  ashort x.[3];
  ashort (- x.[7]);
  ashort x.[5];
  ashort (- x.[1])
].

Definition fadst8 (input : list T) : list T :=
  fadst8_out (fadst8_stage3 (fadst8_stage2 (fadst8_stage1 (fadst8_load input)))).

Definition fadst16_load (input : list T) : list T := [
  input.[15]; input.[0]; input.[13]; input.[2]; input.[11]; input.[4]; input.[9]; input.[6];
  input.[7]; input.[8]; input.[5]; input.[10]; input.[3]; input.[12]; input.[1]; input.[14]].

Definition fadst16_stage1 (x : list T) : list T :=
  let s0 := x.[0] * cospi_1_64 + x.[1] * cospi_31_64 in
  let s1 := x.[0] * cospi_31_64 - x.[1] * cospi_1_64 in
  let s2 := x.[2] * cospi_5_64 + x.[3] * cospi_27_64 in
  let s3 := x.[2] * cospi_27_64 - x.[3] * cospi_5_64 in
  let s4 := x.[4] * cospi_9_64 + x.[5] * cospi_23_64 in
  let s5 := x.[4] * cospi_23_64 - x.[5] * cospi_9_64 in
  let s6 := x.[6] * cospi_13_64 + x.[7] * cospi_19_64 in
  let s7 := x.[6] * cospi_19_64 - x.[7] * cospi_13_64 in
  let s8 := x.[8] * cospi_17_64 + x.[9] * cospi_15_64 in
  let s9 := x.[8] * cospi_15_64 - x.[9] * cospi_17_64 in
  let s10 := x.[10] * cospi_21_64 + x.[11] * cospi_11_64 in
  let s11 := x.[10] * cospi_11_64 - x.[11] * cospi_21_64 in
  let s12 := x.[12] * cospi_25_64 + x.[13] * cospi_7_64 in
  let s13 := x.[12] * cospi_7_64 - x.[13] * cospi_25_64 in
  let s14 := x.[14] * cospi_29_64 + x.[15] * cospi_3_64 in
  let s15 := x.[14] * cospi_3_64 - x.[15] * cospi_29_64 in [
    fdct_round_shift (s0 + s8);
    fdct_round_shift (s1 + s9);
    fdct_round_shift (s2 + s10);
    fdct_round_shift (s3 + s11);
    fdct_round_shift (s4 + s12);
    fdct_round_shift (s5 + s13);
    fdct_round_shift (s6 + s14);
    fdct_round_shift (s7 + s15);
    fdct_round_shift (s0 - s8);
    fdct_round_shift (s1 - s9);
    fdct_round_shift (s2 - s10);
    fdct_round_shift (s3 - s11);
    fdct_round_shift (s4 - s12);
    fdct_round_shift (s5 - s13);
    fdct_round_shift (s6 - s14);
    fdct_round_shift (s7 - s15)
  ].

Definition fadst16_stage2 (x : list T) : list T :=
  let s0 := x.[0] in
  let s1 := x.[1] in
  let s2 := x.[2] in
  let s3 := x.[3] in
  let s4 := x.[4] in
  let s5 := x.[5] in
  let s6 := x.[6] in
  let s7 := x.[7] in
  let s8 := x.[8] * cospi_4_64 + x.[9] * cospi_28_64 in
  let s9 := x.[8] * cospi_28_64 - x.[9] * cospi_4_64 in
  let s10 := x.[10] * cospi_20_64 + x.[11] * cospi_12_64 in
  let s11 := x.[10] * cospi_12_64 - x.[11] * cospi_20_64 in
  let s12 := - x.[12] * cospi_28_64 + x.[13] * cospi_4_64 in
  let s13 := x.[12] * cospi_4_64 + x.[13] * cospi_28_64 in
  let s14 := - x.[14] * cospi_12_64 + x.[15] * cospi_20_64 in
  let s15 := x.[14] * cospi_20_64 + x.[15] * cospi_12_64 in [
    s0 + s4;
    s1 + s5;
    s2 + s6;
    s3 + s7;
    s0 - s4;
    s1 - s5;
    s2 - s6;
    s3 - s7;
    fdct_round_shift (s8 + s12);
    fdct_round_shift (s9 + s13);
    fdct_round_shift (s10 + s14);
    fdct_round_shift (s11 + s15);
    fdct_round_shift (s8 - s12);
    fdct_round_shift (s9 - s13);
    fdct_round_shift (s10 - s14);
    fdct_round_shift (s11 - s15)
  ].

Definition fadst16_stage3 (x : list T) : list T :=
  let s0 := x.[0] in
  let s1 := x.[1] in
  let s2 := x.[2] in
  let s3 := x.[3] in
  let s4 := x.[4] * cospi_8_64 + x.[5] * cospi_24_64 in
  let s5 := x.[4] * cospi_24_64 - x.[5] * cospi_8_64 in
  let s6 := - x.[6] * cospi_24_64 + x.[7] * cospi_8_64 in
  let s7 := x.[6] * cospi_8_64 + x.[7] * cospi_24_64 in
  let s8 := x.[8] in
  let s9 := x.[9] in
  let s10 := x.[10] in
  let s11 := x.[11] in
  let s12 := x.[12] * cospi_8_64 + x.[13] * cospi_24_64 in
  let s13 := x.[12] * cospi_24_64 - x.[13] * cospi_8_64 in
  let s14 := - x.[14] * cospi_24_64 + x.[15] * cospi_8_64 in
  let s15 := x.[14] * cospi_8_64 + x.[15] * cospi_24_64 in [
    s0 + s2;
    s1 + s3;
    s0 - s2;
    s1 - s3;
    fdct_round_shift (s4 + s6);
    fdct_round_shift (s5 + s7);
    fdct_round_shift (s4 - s6);
    fdct_round_shift (s5 - s7);
    s8 + s10;
    s9 + s11;
    s8 - s10;
    s9 - s11;
    fdct_round_shift (s12 + s14);
    fdct_round_shift (s13 + s15);
    fdct_round_shift (s12 - s14);
    fdct_round_shift (s13 - s15)
  ].

Definition fadst16_stage4 (x : list T) : list T :=
  let s2 := (x.[2] + x.[3]) * (- cospi_16_64) in
  let s3 := (x.[2] - x.[3]) * cospi_16_64 in
  let s6 := (x.[6] + x.[7]) * cospi_16_64 in
  let s7 := (- x.[6] + x.[7]) * cospi_16_64 in
  let s10 := (x.[10] + x.[11]) * cospi_16_64 in
  let s11 := (- x.[10] + x.[11]) * cospi_16_64 in
  let s14 := (x.[14] + x.[15]) * (- cospi_16_64) in
  let s15 := (x.[14] - x.[15]) * cospi_16_64 in [
    x.[0];
    x.[1];
    fdct_round_shift (s2);
    fdct_round_shift (s3);
    x.[4];
    x.[5];
    fdct_round_shift (s6);
    fdct_round_shift (s7);
    x.[8];
    x.[9];
    fdct_round_shift (s10);
    fdct_round_shift (s11);
    x.[12];
    x.[13];
    fdct_round_shift (s14);
    fdct_round_shift (s15)
  ].

Definition fadst16_out (x : list T) : list T := [
  ashort x.[0];
  ashort (- x.[8]);
  ashort x.[12];
  ashort (- x.[4]);
  ashort x.[6];
  ashort x.[14];
  ashort x.[10];
  ashort x.[2];
  ashort x.[3];
  ashort x.[11];
  ashort x.[15];
  ashort x.[7];
  ashort x.[5];
  ashort (- x.[13]);
  ashort x.[9];
  ashort (- x.[1])
].

Definition fadst16 (input : list T) : list T :=
  fadst16_out (fadst16_stage4 (fadst16_stage3 (fadst16_stage2 (fadst16_stage1 (fadst16_load input))))).

(** ** The inverse Walsh-Hadamard transform, [rs_walsh.c] *)

Definition walsh_column (x : list T) : list T :=
  let a1 := x.[0] + x.[3] in
  let b1 := x.[1] + x.[2] in
  let c1 := x.[1] - x.[2] in
  let d1 := x.[0] - x.[3] in
  [ashort (a1 + b1); ashort (c1 + d1); ashort (a1 - b1); ashort (d1 - c1)].

Definition walsh_row (x : list T) : list T :=
  let a1 := x.[0] + x.[3] in
  let b1 := x.[1] + x.[2] in
  let c1 := x.[1] - x.[2] in
  let d1 := x.[0] - x.[3] in
  (fun v => ashort ((v + aconst 3) >> 3)) <$> [a1 + b1; c1 + d1; a1 - b1; d1 - c1].

Definition walsh4x4 (x : list T) : list T :=
  let output := from_cols 4 ((fun i => walsh_column (col 4 x i)) <$> seq 0 4) in
  i ← seq 0 4; walsh_row (row 4 output i).

Definition walsh4x4_1 (x : list T) : list T := replicate 16 (ashort ((x.[0] + aconst 3) >> 3)).
End transforms.

(** ** The entry points *)

(** A one-dimensional allocation of shorts. *)
Definition line : Type := Z -> Z.

Definition read_line (n : nat) (input : line) (xoff : Z) : list Z := (fun i => input (xoff + Z.of_nat i)) <$> seq 0 n.
Definition write_line (n : nat) (l : list Z) (output : line) (xoff : Z) : line :=
  foldl (fun (out : line) i p => if p =? xoff + Z.of_nat i then at_ l i else out p) output (seq 0 n).

(** [!(x0 | x1 | ...)] *)
Definition all_zero (l : list Z) : bool := foldr Z.lor 0 l =? 0.

Definition or_zeros (n : nat) (f : list Z -> list Z) (input output : line) (xoff : Z) : line :=
  let x := read_line n input xoff in
  write_line n (if all_zero x then replicate n 0 else f x) output xoff.

Definition rsIadst4 : line -> line -> Z -> line := or_zeros 4 iadst4.
Definition rsIadst8 : line -> line -> Z -> line := or_zeros 8 iadst8.
Definition rsIadst16 : line -> line -> Z -> line := or_zeros 16 iadst16.
Definition rsFadst4 : line -> line -> Z -> line := or_zeros 4 fadst4.
Definition rsFadst8 (input output : line) (xoff : Z) : line := write_line 8 (fadst8 (read_line 8 input xoff)) output xoff.
Definition rsFadst16 (input output : line) (xoff : Z) : line := write_line 16 (fadst16 (read_line 16 input xoff)) output xoff.

(** The Walsh transforms read sixteen cells of a row and write sixteen cells of a column. *)
Definition read_across (n : nat) (input : raster) (xoff yoff : Z) : list Z := (fun i => input (xoff + Z.of_nat i) yoff) <$> seq 0 n.
Definition write_down (n : nat) (l : list Z) (dest : raster) (xoff yoff : Z) : raster :=
  foldl (fun (out : raster) i x y => if (x =? xoff) && (y =? yoff + Z.of_nat i) then at_ l i else out x y) dest (seq 0 n).

Definition rsWalsh4x4 (input dest : raster) (xoff yoff : Z) : raster :=
  write_down 16 (walsh4x4 (read_across 16 input xoff yoff)) dest xoff yoff.
Definition rsWalsh4x4_1 (input dest : raster) (xoff yoff : Z) : raster :=
  write_down 16 (walsh4x4_1 (read_across 16 input xoff yoff)) dest xoff yoff.

(** ** Parametricity *)

#[export] Typeclasses Opaque iadst8_load iadst8_stage1 iadst8_stage2 iadst8_stage3 iadst8_out iadst8 iadst16_load iadst16_stage1 iadst16_stage2
  iadst16_stage3 iadst16_stage4 iadst16_out iadst16 fadst8_load fadst8_stage1 fadst8_stage2 fadst8_stage3 fadst8_out
  fadst8 fadst16_load fadst16_stage1 fadst16_stage2 fadst16_stage3 fadst16_stage4 fadst16_out fadst16 iadst4 fadst4 walsh_column walsh_row walsh4x4 walsh4x4_1.

#[export] Instance iadst8_load_parametric : Parametric (@iadst8_load).
Proof. parametric_by @iadst8_load. Qed.
#[export] Instance iadst8_stage1_parametric : Parametric (@iadst8_stage1).
Proof. parametric_by @iadst8_stage1. Qed.
#[export] Instance iadst8_stage2_parametric : Parametric (@iadst8_stage2).
Proof. parametric_by @iadst8_stage2. Qed.
#[export] Instance iadst8_stage3_parametric : Parametric (@iadst8_stage3).
Proof. parametric_by @iadst8_stage3. Qed.
#[export] Instance iadst8_out_parametric : Parametric (@iadst8_out).
Proof. parametric_by @iadst8_out. Qed.
#[export] Instance iadst8_parametric : Parametric (@iadst8).
Proof. split. intros T U HT HU R HR l l' Hl. unfold iadst8. repeat (apply parametric; [done|]). done. Qed.
#[export] Instance iadst16_load_parametric : Parametric (@iadst16_load).
Proof. parametric_by @iadst16_load. Qed.
#[export] Instance iadst16_stage1_parametric : Parametric (@iadst16_stage1).
Proof. parametric_by @iadst16_stage1. Qed.
#[export] Instance iadst16_stage2_parametric : Parametric (@iadst16_stage2).
Proof. parametric_by @iadst16_stage2. Qed.
#[export] Instance iadst16_stage3_parametric : Parametric (@iadst16_stage3).
Proof. parametric_by @iadst16_stage3. Qed.
#[export] Instance iadst16_stage4_parametric : Parametric (@iadst16_stage4).
Proof. parametric_by @iadst16_stage4. Qed.
#[export] Instance iadst16_out_parametric : Parametric (@iadst16_out).
Proof. parametric_by @iadst16_out. Qed.
#[export] Instance iadst16_parametric : Parametric (@iadst16).
Proof. split. intros T U HT HU R HR l l' Hl. unfold iadst16. repeat (apply parametric; [done|]). done. Qed.
#[export] Instance fadst8_load_parametric : Parametric (@fadst8_load).
Proof. parametric_by @fadst8_load. Qed.
#[export] Instance fadst8_stage1_parametric : Parametric (@fadst8_stage1).
Proof. parametric_by @fadst8_stage1. Qed.
#[export] Instance fadst8_stage2_parametric : Parametric (@fadst8_stage2).
Proof. parametric_by @fadst8_stage2. Qed.
#[export] Instance fadst8_stage3_parametric : Parametric (@fadst8_stage3).
Proof. parametric_by @fadst8_stage3. Qed.
#[export] Instance fadst8_out_parametric : Parametric (@fadst8_out).
Proof. parametric_by @fadst8_out. Qed.
#[export] Instance fadst8_parametric : Parametric (@fadst8).
Proof. split. intros T U HT HU R HR l l' Hl. unfold fadst8. repeat (apply parametric; [done|]). done. Qed.
#[export] Instance fadst16_load_parametric : Parametric (@fadst16_load).
Proof. parametric_by @fadst16_load. Qed.
#[export] Instance fadst16_stage1_parametric : Parametric (@fadst16_stage1).
Proof. parametric_by @fadst16_stage1. Qed.
#[export] Instance fadst16_stage2_parametric : Parametric (@fadst16_stage2).
Proof. parametric_by @fadst16_stage2. Qed.
#[export] Instance fadst16_stage3_parametric : Parametric (@fadst16_stage3).
Proof. parametric_by @fadst16_stage3. Qed.
#[export] Instance fadst16_stage4_parametric : Parametric (@fadst16_stage4).
Proof. parametric_by @fadst16_stage4. Qed.
#[export] Instance fadst16_out_parametric : Parametric (@fadst16_out).
Proof. parametric_by @fadst16_out. Qed.
#[export] Instance fadst16_parametric : Parametric (@fadst16).
Proof. split. intros T U HT HU R HR l l' Hl. unfold fadst16. repeat (apply parametric; [done|]). done. Qed.
#[export] Instance iadst4_parametric : Parametric (@iadst4).
Proof. parametric_by @iadst4. Qed.
#[export] Instance fadst4_parametric : Parametric (@fadst4).
Proof. parametric_by @fadst4. Qed.
#[export] Instance walsh_column_parametric : Parametric (@walsh_column).
Proof. parametric_by @walsh_column. Qed.
#[export] Instance walsh_row_parametric : Parametric (@walsh_row).
Proof. split. intros T U HT HU R HR l l' Hl. unfold walsh_row. cbv zeta. apply rel_map; [intros|]; arith_rel. Qed.
#[export] Instance walsh4x4_parametric : Parametric (@walsh4x4).
Proof.
  split. intros T U HT HU R HR l l' Hl. unfold walsh4x4. cbv zeta. apply rel_bind. intros i. apply parametric; [done|]. apply rel_row; [apply rel_const|].
  apply rel_from_cols; [apply rel_const|]. intros j. apply parametric; [done|]. apply rel_col; [apply rel_const|done].
Qed.
#[export] Instance walsh4x4_1_parametric : Parametric (@walsh4x4_1).
Proof. split. intros T U HT HU R HR l l' Hl. unfold walsh4x4_1. cbn [replicate]. arith_rel. Qed.

(** Comparisons of numbers that come from [nat]. *)
Ltac bool_lia := apply eq_iff_eq_true; rewrite ?andb_true_iff, ?Z.leb_le, ?Z.ltb_lt, ?Z.eqb_eq; lia.

(** ** Writing a line *)

Lemma write_line_spec n l output xoff p :
  write_line n l output xoff p = if (xoff <=? p) && (p <? xoff + Z.of_nat n) then at_ l (Z.to_nat (p - xoff)) else output p.
Proof.
  unfold write_line. induction n as [|n IH].
  - change (Z.of_nat 0) with 0. assert ((xoff <=? p) && (p <? xoff + 0) = false) as -> by lia. done.
  - rewrite seq_S, foldl_app. cbn [foldl]. rewrite Nat.add_0_l, IH, Nat2Z.inj_succ. destruct (Z.eqb_spec p (xoff + Z.of_nat n)) as [->|Hne].
    + assert ((xoff <=? xoff + Z.of_nat n) && (xoff + Z.of_nat n <? xoff + Z.succ (Z.of_nat n)) = true) as -> by bool_lia. f_equal. lia.
    + assert ((xoff <=? p) && (p <? xoff + Z.of_nat n) = (xoff <=? p) && (p <? xoff + Z.succ (Z.of_nat n))) as -> by bool_lia. done.
Qed.

Lemma write_down_spec n l dest xoff yoff x y :
  write_down n l dest xoff yoff x y = if (x =? xoff) && (yoff <=? y) && (y <? yoff + Z.of_nat n) then at_ l (Z.to_nat (y - yoff)) else dest x y.
Proof.
  unfold write_down. induction n as [|n IH].
  - change (Z.of_nat 0) with 0. assert ((x =? xoff) && (yoff <=? y) && (y <? yoff + 0) = false) as -> by lia. done.
  - rewrite seq_S, foldl_app. cbn [foldl]. rewrite Nat.add_0_l, IH, Nat2Z.inj_succ. destruct (Z.eqb_spec x xoff) as [->|Hx]; [|done]. cbn [andb]. destruct (Z.eqb_spec y (yoff + Z.of_nat n)) as [->|Hne].
    + assert ((yoff <=? yoff + Z.of_nat n) && (yoff + Z.of_nat n <? yoff + Z.succ (Z.of_nat n)) = true) as -> by bool_lia. f_equal. lia.
    + assert ((yoff <=? y) && (y <? yoff + Z.of_nat n) = (yoff <=? y) && (y <? yoff + Z.succ (Z.of_nat n))) as -> by bool_lia. done.
Qed.

Lemma length_read_line n input xoff : length (read_line n input xoff) = n.
Proof. unfold read_line. by rewrite length_fmap, length_seq. Qed.

Lemma at_read_line n input xoff i : (i < n)%nat -> at_ (read_line n input xoff) i = input (xoff + Z.of_nat i).
Proof. intros Hi. unfold at_, read_line. erewrite nth_lookup_Some; [|rewrite list_lookup_fmap, lookup_seq_lt by done; done]. done. Qed.

(** Reading back what was written. *)
Lemma read_write_line n l output xoff : length l = n -> read_line n (write_line n l output xoff) xoff = l.
Proof.
  intros <-. apply list_eq_same_length with (length l); [done|apply length_read_line|]. intros i a b Hi Ha Hb.
  apply nth_lookup_Some with (d := 0) in Ha. apply nth_lookup_Some with (d := 0) in Hb.
  change (at_ (read_line (length l) (write_line (length l) l output xoff) xoff) i = a) in Ha. change (at_ l i = b) in Hb.
  rewrite at_read_line, write_line_spec in Ha by done. assert ((xoff <=? xoff + Z.of_nat i) && (xoff + Z.of_nat i <? xoff + Z.of_nat (length l)) = true) as E by bool_lia. rewrite E in Ha.
  replace (Z.to_nat (xoff + Z.of_nat i - xoff)) with i in Ha by lia. congruence.
Qed.

(** ** The short cut for zeros *)

Lemma all_zero_replicate l : all_zero l = true -> l = replicate (length l) 0.
Proof.
  unfold all_zero. induction l as [|v l IH]; [done|]. cbn [foldr length replicate]. intros E. apply Z.eqb_eq in E. apply Z.lor_eq_0_iff in E as [-> E].
  f_equal. apply IH. by apply Z.eqb_eq.
Qed.

(** A transform that maps zeros to zeros does not need the short cut. *)
Lemma or_zeros_exact n f input output xoff :
  f (replicate n 0) = replicate n 0 -> or_zeros n f input output xoff = write_line n (f (read_line n input xoff)) output xoff.
Proof.
  intros Hf. unfold or_zeros. cbv zeta. destruct (all_zero _) eqn:E; [|done]. apply all_zero_replicate in E. rewrite length_read_line in E. by rewrite E, Hf.
Qed.

Lemma rsIadst_eq input output xoff :
  rsIadst4 input output xoff = write_line 4 (iadst4 (read_line 4 input xoff)) output xoff /\
  rsIadst8 input output xoff = write_line 8 (iadst8 (read_line 8 input xoff)) output xoff /\
  rsIadst16 input output xoff = write_line 16 (iadst16 (read_line 16 input xoff)) output xoff /\
  rsFadst4 input output xoff = write_line 4 (fadst4 (read_line 4 input xoff)) output xoff.
Proof. refine (conj _ (conj _ (conj _ _))); apply or_zeros_exact; vm_compute; reflexivity. Qed.

(** ** Forward and inverse *)

Definition line_small (n : nat) (B : Z) (input : line) (xoff : Z) : Prop := forall i, (i < n)%nat -> Z.abs (input (xoff + Z.of_nat i)) <= B.

Lemma line_small_Forall n B input xoff : line_small n B input xoff -> Forall (fun v => Z.abs v <= B) (read_line n input xoff).
Proof. intros Hs. apply Forall_fmap, Forall_forall. intros i Hi%elem_of_seq. apply Hs. lia. Qed.

(** Two transforms in a row. *)
Definition after (g f : forall T, Arith T -> list T -> list T) (T : Type) (HT : Arith T) (l : list T) : list T := g T HT (f T HT l).
#[export] Instance after_parametric g f {Hg : Parametric g} {Hf : Parametric f} : Parametric (after g f).
Proof. split. intros T U HT HU R HR l l' Hl. unfold after. by do 2 (apply parametric; [done|]). Qed.

Lemma line_trip n B E c (f g : forall T, Arith T -> list T -> list T) {Hf : Parametric f} {Hg : Parametric g} input mid output xoff i :
  line_small n B input xoff -> 0 <= B -> (i < n)%nat -> length (f formula _ (inputs n)) = n -> length (after g f _ (affines B) (affine_inputs n)) = n ->
  forallb id (imap (near B E c) (after g f _ (affines B) (affine_inputs n))) = true ->
  let out := write_line n (g Z _ (read_line n (write_line n (f Z _ (read_line n input xoff)) mid xoff) xoff)) output xoff in
  Z.abs (out (xoff + Z.of_nat i) - c * input (xoff + Z.of_nat i)) <= E.
Proof.
  intros Hs HB Hi Hl1 Hl2 Hall out. subst out. rewrite write_line_spec. assert ((xoff <=? xoff + Z.of_nat i) && (xoff + Z.of_nat i <? xoff + Z.of_nat n) = true) as -> by bool_lia.
  replace (Z.to_nat (xoff + Z.of_nat i - xoff)) with i by lia. rewrite read_write_line by (rewrite (by_formulas f n _ (length_read_line n _ _)), length_fmap; done).
  rewrite <- (at_read_line n) by done. apply (affine_near (after g f) B E c n); [apply length_read_line|by apply line_small_Forall|done|done|by rewrite Hl2].
Qed.

(** the inverse sine transform undoes the forward one, up to the factor 2, 4 or 8 of the two
    passes and to rounding: for differences of pixels the error is at most 2 for 4 values, 21
    for 8 and 130 for 16. *)
Theorem adst_roundtrip input mid output xoff i :
  (line_small 4 255 input xoff -> (i < 4)%nat ->
     Z.abs (rsIadst4 (rsFadst4 input mid xoff) output xoff (xoff + Z.of_nat i) - 2 * input (xoff + Z.of_nat i)) <= 2) /\
  (line_small 8 255 input xoff -> (i < 8)%nat ->
     Z.abs (rsIadst8 (rsFadst8 input mid xoff) output xoff (xoff + Z.of_nat i) - 4 * input (xoff + Z.of_nat i)) <= 21) /\
  (line_small 16 255 input xoff -> (i < 16)%nat ->
     Z.abs (rsIadst16 (rsFadst16 input mid xoff) output xoff (xoff + Z.of_nat i) - 8 * input (xoff + Z.of_nat i)) <= 130).
Proof.
  destruct (rsIadst_eq input mid xoff) as (_ & _ & _ & E4). refine (conj _ (conj _ _)); intros Hs Hi.
  - rewrite E4. rewrite (proj1 (rsIadst_eq _ output xoff)). apply (line_trip 4 255 2 2 (@fadst4) (@iadst4)); [done|lia|done|vm_compute; reflexivity..].
  - rewrite (proj1 (proj2 (rsIadst_eq _ output xoff))). apply (line_trip 8 255 21 4 (@fadst8) (@iadst8)); [done|lia|done|vm_compute; reflexivity..].
  - rewrite (proj1 (proj2 (proj2 (rsIadst_eq _ output xoff)))). apply (line_trip 16 255 130 8 (@fadst16) (@iadst16)); [done|lia|done|vm_compute; reflexivity..].
Qed.

(** the sine transforms of 8 and of 16 values are their own inverses: on values small enough
    for no intermediate result to leave the range of a [short] - up to 6400 and 3200 - the
    forward and the inverse transform store the same line, though only the inverse one rounds
    to [short] at every stage. *)
Theorem adst_self_inverse input output xoff :
  (line_small 8 6400 input xoff -> rsIadst8 input output xoff = rsFadst8 input output xoff) /\
  (line_small 16 3200 input xoff -> rsIadst16 input output xoff = rsFadst16 input output xoff).
Proof.
  destruct (rsIadst_eq input output xoff) as (_ & -> & -> & _). unfold rsFadst8, rsFadst16. split; intros Hs%line_small_Forall.
  - rewrite (same_unshort (@iadst8) (@fadst8) 6400 8 _ (length_read_line _ _ _) Hs ltac:(lia)); [done|vm_compute; reflexivity..].
  - rewrite (same_unshort (@iadst16) (@fadst16) 3200 16 _ (length_read_line _ _ _) Hs ltac:(lia)); [done|vm_compute; reflexivity..].
Qed.

(** no intermediate result of the sine transforms leaves the range of [int]: for the inverse
    transform of 8 values on any [short] values, and for the others on values up to 12200, 6400
    and 3200, on which all results fit in a [short] too. *)
Theorem adst_no_overflow (x : list Z) :
  (length x = 8%nat -> Forall is_short x -> iadst8 (Some <$> x) = Some <$> iadst8 x) /\
  (length x = 4%nat -> Forall (fun v => Z.abs v <= 12200) x -> iadst4 (Some <$> x) = Some <$> iadst4 x /\ fadst4 (Some <$> x) = Some <$> fadst4 x) /\
  (length x = 8%nat -> Forall (fun v => Z.abs v <= 6400) x -> fadst8 (Some <$> x) = Some <$> fadst8 x) /\
  (length x = 16%nat -> Forall (fun v => Z.abs v <= 3200) x -> iadst16 (Some <$> x) = Some <$> iadst16 x /\ fadst16 (Some <$> x) = Some <$> fadst16 x).
Proof.
  refine (conj _ (conj _ (conj _ _))); intros Hl Hx.
  - apply (no_overflow (@iadst8) (replicate 8 short_interval)); [by apply shorts_within|vm_compute; reflexivity].
  - split; [apply (affine_no_overflow (@iadst4) 12200 32767 4)|apply (affine_no_overflow (@fadst4) 12200 32767 4)]; [done|done|lia|vm_compute; reflexivity..|done|done|lia|vm_compute; reflexivity].
  - apply (affine_no_overflow (@fadst8) 6400 32767 8); [done|done|lia|vm_compute; reflexivity].
  - split; [apply (affine_no_overflow (@iadst16) 3200 32767 16)|apply (affine_no_overflow (@fadst16) 3200 32767 16)]; [done|done|lia|vm_compute; reflexivity..|done|done|lia|vm_compute; reflexivity].
Qed.

(** On larger [short] values the inverse transform of 16 values does overflow. *)
Definition ex_overflow : list Z :=
  [-32768; 7671; -30581; 24261; 32767; -32768; -21340; 22995; 32767; 8342; 31946; -32768; 32767; -32768; 32767; -5346].

Theorem iadst16_overflows : Forall is_short ex_overflow /\ None ∈ iadst16 (Some <$> ex_overflow).
Proof. split; [repeat constructor; unfold is_short; lia|]. apply (bool_decide_unpack _). vm_compute. exact I. Qed.

(** ** The Walsh-Hadamard transform *)

(** the short Walsh transform, for a block with a first coefficient only, gives the result of
    the whole transform on such a block, for every value of the coefficient. *)
Theorem rsWalsh_dc input dest xoff yoff :
  is_short (input xoff yoff) -> (forall i, (0 < i < 16)%nat -> input (xoff + Z.of_nat i) yoff = 0) ->
  rsWalsh4x4_1 input dest xoff yoff = rsWalsh4x4 input dest xoff yoff.
Proof.
  intros Hdc H0. unfold rsWalsh4x4_1, rsWalsh4x4. f_equal.
  assert (read_across 16 input xoff yoff = dc_row 16 (input xoff yoff)) as ->.
  { unfold read_across, dc_row. change (seq 0 16) with (0%nat :: seq 1 15). cbn [fmap list_fmap]. rewrite Z.add_0_r. f_equal. apply fmap_replicate_0. intros i Hi%elem_of_seq. apply H0. lia. }
  set (v := input xoff yoff) in *. clearbody v. unfold walsh4x4_1, walsh4x4. cbv zeta. cbn -[s16 Z.shiftr Z.add Z.sub].
  rewrite !Z.add_0_r, !Z.sub_0_r, ?Z.add_0_l. unfold is_short in Hdc. rewrite ?(s16_small v), ?s16_0 by lia. rewrite ?Z.add_0_r, ?Z.sub_0_r, ?Z.add_0_l. reflexivity.
Qed.

(** ** Examples *)

Definition ex_line : line := fun p => (p * 83) mod 511 - 255.

Lemma ex_line_small n xoff : line_small n 255 ex_line xoff.
Proof. intros i _. unfold ex_line. pose proof (Z.mod_pos_bound ((xoff + Z.of_nat i) * 83) 511 ltac:(lia)). lia. Qed.

Lemma adst_roundtrip_witness :
  Z.abs (rsIadst8 (rsFadst8 ex_line ex_line 5) ex_line 5 (5 + Z.of_nat 3) - 4 * ex_line (5 + Z.of_nat 3)) <= 21 /\
  rsIadst8 (rsFadst8 ex_line ex_line 5) ex_line 5 8 = -408 /\ ex_line 8 = -102.
Proof.
  split; [|vm_compute; done]. destruct (adst_roundtrip ex_line ex_line ex_line 5 3) as (_ & H & _). apply H; [apply ex_line_small|lia].
Defined.

Lemma adst_self_inverse_witness : rsIadst16 ex_line ex_line 2 = rsFadst16 ex_line ex_line 2 /\ rsIadst16 ex_line ex_line 2 2 = 232.
Proof.
  split; [|vm_compute; done]. apply (adst_self_inverse ex_line ex_line 2). intros i Hi. pose proof (ex_line_small 16 2 i Hi). lia.
Defined.

Lemma adst_no_overflow_witness : iadst8 (Some <$> replicate 8 (-32768)) = Some <$> iadst8 (replicate 8 (-32768)).
Proof. apply (adst_no_overflow (replicate 8 (-32768))); [done|]. apply Forall_replicate. unfold is_short. lia. Defined.

Lemma rsWalsh_dc_witness :
  let input : raster := fun x y => if (x =? 4) && (y =? 7) then -77 else 0 in
  rsWalsh4x4_1 input input 4 7 = rsWalsh4x4 input input 4 7 /\ rsWalsh4x4 input input 4 7 4 9 = -10.
Proof.
  split; [|vm_compute; done]. apply rsWalsh_dc; [unfold is_short; cbn; lia|]. intros i Hi. assert ((4 + Z.of_nat i =? 4) = false) as -> by (apply not_true_iff_false; lia). done.
Defined.

End Adst.
