(* ===== verification/FontCache.v ===== *)
(** * FontCache: glyphs in the texture cache

    [rsFont.cpp]: [FontState] keeps the bitmaps of glyphs in a texture that is divided into
    lines, hands out places in the lines, and starts again when they are full; [Font] keeps
    what is known of each glyph and draws text from the texture - as quads, into a bitmap of
    the client or only measuring it.  FreeType, the decoding of UTF-8 and the state of the GL
    context are parameters.  Texture coordinates are kept as the numbers of texels they are
    ratios of. *)

From S2P Require Import Prelude.

Module FontCache.

(** ** Data *)

(** What the code uses of FreeType's [FT_Bitmap] and [FT_GlyphSlot]. *)
Record FT_Bitmap := mkBitmap { bm_width : Z; bm_rows : Z; bm_buffer : list Z }.
Record GlyphSlot := mkSlot { advance_x : Z; advance_y : Z; bitmap_left : Z; bitmap_top : Z; slot_bitmap : FT_Bitmap }.

Record CacheTextureLine := mkLine { mMaxHeight : Z; mMaxWidth : Z; mCurrentRow : Z; mCurrentCol : Z; mDirty : bool }.

Record CachedGlyphInfo := mkGlyph {
  mIsValid : bool;
  mBitmapMinX : Z; mBitmapMinY : Z; mBitmapWidth : Z; mBitmapHeight : Z;
  mBitmapMinU : Z; mBitmapMinV : Z; mBitmapMaxU : Z; mBitmapMaxV : Z;
  mGlyphIndex : Z; mAdvanceX : Z; mAdvanceY : Z; mBitmapLeft : Z; mBitmapTop : Z
}.

(** [new CachedGlyphInfo()] *)
Definition new_glyph : CachedGlyphInfo := mkGlyph false 0 0 0 0 0 0 0 0 0 0 0 0 0.

Record Vertex := mkVertex { v_x : Z; v_y : Z; v_u : Z; v_v : Z }.
Record Quad := mkQuad { q1 : Vertex; q2 : Vertex; q3 : Vertex; q4 : Vertex }.

Record Rect := mkRect { left : Z; top : Z; right : Z; bottom : Z }.

Inductive RenderMode := FRAMEBUFFER | BITMAP | MEASURE.

Section font.
Context {face : Type}.

Record Font := mkFont { mFace : face; mInitialized : bool; mCachedGlyphs : gmap Z CachedGlyphInfo }.

(** [mTextMesh] is the vertex buffer behind [mTextMeshPtr], by quads; [mTexture] the memory of
    [mTextTexture]; [drawn] the draw commands so far, each with the texture it used. *)
Record FontState := mkState {
  mCacheLines : list CacheTextureLine;
  mCacheBuffer : list Z;
  mTexture : list Z;
  mTextMesh : list Quad;
  mCurrentQuadIndex : Z;
  mActiveFonts : list positive;
  fonts : gmap positive Font;
  drawn : list (list Quad * list Z)
}.

Definition mMaxNumberOfQuads : Z := 1024.
Definition mCacheWidth : Z := 1024.
Definition mCacheHeight : Z := 256.

Definition set_lines (st : FontState) (ls : list CacheTextureLine) : FontState :=
  mkState ls (mCacheBuffer st) (mTexture st) (mTextMesh st) (mCurrentQuadIndex st) (mActiveFonts st) (fonts st) (drawn st).
Definition set_buffers (st : FontState) (buf tex : list Z) : FontState :=
  mkState (mCacheLines st) buf tex (mTextMesh st) (mCurrentQuadIndex st) (mActiveFonts st) (fonts st) (drawn st).
Definition set_quads (st : FontState) (mesh : list Quad) (n : Z) (d : list (list Quad * list Z)) : FontState :=
  mkState (mCacheLines st) (mCacheBuffer st) (mTexture st) mesh n (mActiveFonts st) (fonts st) d.
Definition set_fonts (st : FontState) (fs : gmap positive Font) : FontState :=
  mkState (mCacheLines st) (mCacheBuffer st) (mTexture st) (mTextMesh st) (mCurrentQuadIndex st) (mActiveFonts st) fs (drawn st).

Definition set_glyphs (f : Font) (gs : gmap Z CachedGlyphInfo) : Font := mkFont (mFace f) (mInitialized f) gs.
Definition set_valid (v : bool) (g : CachedGlyphInfo) : CachedGlyphInfo :=
  mkGlyph v (mBitmapMinX g) (mBitmapMinY g) (mBitmapWidth g) (mBitmapHeight g) (mBitmapMinU g) (mBitmapMinV g) (mBitmapMaxU g) (mBitmapMaxV g)
    (mGlyphIndex g) (mAdvanceX g) (mAdvanceY g) (mBitmapLeft g) (mBitmapTop g).
Definition set_slot (s : GlyphSlot) (g : CachedGlyphInfo) : CachedGlyphInfo :=
  mkGlyph (mIsValid g) (mBitmapMinX g) (mBitmapMinY g) (mBitmapWidth g) (mBitmapHeight g) (mBitmapMinU g) (mBitmapMinV g) (mBitmapMaxU g) (mBitmapMaxV g)
    (mGlyphIndex g) (advance_x s) (advance_y s) (bitmap_left s) (bitmap_top s).
Definition set_place (x y w h : Z) (g : CachedGlyphInfo) : CachedGlyphInfo :=
  mkGlyph (mIsValid g) x y w h x y (x +u32 w) (y +u32 h) (mGlyphIndex g) (mAdvanceX g) (mAdvanceY g) (mBitmapLeft g) (mBitmapTop g).
Definition set_index (i : Z) (g : CachedGlyphInfo) : CachedGlyphInfo :=
  mkGlyph false (mBitmapMinX g) (mBitmapMinY g) (mBitmapWidth g) (mBitmapHeight g) (mBitmapMinU g) (mBitmapMinV g) (mBitmapMaxU g) (mBitmapMaxV g)
    i (mAdvanceX g) (mAdvanceY g) (mBitmapLeft g) (mBitmapTop g).

(** A glyph is reached through its font and its character. *)
Definition get_font (st : FontState) (f : positive) : outcome Font := of_option UseAfterFree (fonts st !! f).
Definition get_glyph (st : FontState) (f : positive) (k : Z) : outcome CachedGlyphInfo :=
  F ← get_font st f; of_option NullDeref (mCachedGlyphs F !! k).
Definition upd_glyph (st : FontState) (f : positive) (k : Z) (h : CachedGlyphInfo -> CachedGlyphInfo) : outcome FontState :=
  F ← get_font st f;
  g ← of_option NullDeref (mCachedGlyphs F !! k);
  Ok (set_fonts st (<[f := set_glyphs F (<[k := h g]> (mCachedGlyphs F))]> (fonts st))).

(** ** Loops over the cells of a rectangle, column by column *)

Definition cells (w h : Z) : list (Z * Z) := i ← seq 0 (Z.to_nat w); (fun j => (Z.of_nat i, Z.of_nat j)) <$> seq 0 (Z.to_nat h).

Fixpoint loop {S : Type} (f : Z -> Z -> S -> outcome S) (ps : list (Z * Z)) (s : S) : outcome S :=
  match ps with
  | [] => Ok s
  | (i, j) :: ps => s ← f i j s; loop f ps s
  end.

(** ** The lines of the cache *)

Definition fitBitmap (l : CacheTextureLine) (b : FT_Bitmap) : option (Z * Z * CacheTextureLine) :=
  if u32 (bm_rows b) >? mMaxHeight l then None
  else if mCurrentCol l +u32 u32 (bm_width b) <? mMaxWidth l
       then Some (mCurrentCol l, mCurrentRow l, mkLine (mMaxHeight l) (mMaxWidth l) (mCurrentRow l) (mCurrentCol l +u32 bm_width b) true)
       else None.

(** The loop over the lines: the first one that fits is changed. *)
Fixpoint fit_lines (ls : list CacheTextureLine) (b : FT_Bitmap) : option (Z * Z * list CacheTextureLine) :=
  match ls with
  | [] => None
  | l :: ls =>
      match fitBitmap l b with
      | Some (x, y, l') => Some (x, y, l' :: ls)
      | None => match fit_lines ls b with Some (x, y, ls') => Some (x, y, l :: ls') | None => None end
      end
  end.

Definition initTextTexture_lines : list CacheTextureLine :=
  let add '(ls, nextLine) h := (ls ++ [mkLine h mCacheWidth nextLine 0 false], nextLine + h) in
  let '(ls, nextLine) := foldl add ([], 0) [16; 24; 24; 32; 32; 40] in
  ls ++ [mkLine (mCacheHeight - nextLine) mCacheWidth nextLine 0 false].

(** The state after [checkInit]; the buffers hold whatever was in their memory. *)
Definition initial (buf tex : list Z) (mesh : list Quad) : FontState := mkState initTextTexture_lines buf tex mesh 0 [] ∅ [].

Definition getRemainingCacheCapacity (st : FontState) : outcome Z :=
  let remaining := foldl (fun a l => a +u32 (mMaxWidth l -u32 mCurrentCol l)) 0 (mCacheLines st) in
  let total := foldl (fun a l => a +u32 mMaxWidth l) 0 (mCacheLines st) in
  if total =? 0 then Fault DivByZero else Ok ((remaining *u32 100) / total).

(** ** Drawing quads *)

(** [setupCheck] is the answer of the context when a draw command is issued. *)
Context (setupCheck : bool).

Definition issueDrawCommand (st : FontState) : FontState :=
  if setupCheck
  then set_quads st (mTextMesh st) (mCurrentQuadIndex st) (drawn st ++ [(take (Z.to_nat (mCurrentQuadIndex st)) (mTextMesh st), mTexture st)])
  else st.

Definition reset_quads (st : FontState) : FontState := set_quads st (mTextMesh st) 0 (drawn st).

Definition appendMeshQuad (surfaceWidth surfaceHeight : Z) (q : Quad) (st : FontState) : outcome FontState :=
  if (v_x (q1 q) >? surfaceWidth) || (v_y (q1 q) <? 0) || (v_x (q2 q) <? 0) || (v_y (q4 q) >? surfaceHeight) then Ok st
  else
    mesh ← zset (mTextMesh st) (mCurrentQuadIndex st) q;
    let st := set_quads st mesh (mCurrentQuadIndex st +u32 1) (drawn st) in
    Ok (if mCurrentQuadIndex st =? mMaxNumberOfQuads then reset_quads (issueDrawCommand st) else st).

(** ** Caching a bitmap *)

Definition invalidateTextureCache (f : Font) : Font := set_glyphs f (set_valid false <$> mCachedGlyphs f).

Definition flushAllAndInvalidate (st : FontState) : FontState :=
  let st := if negb (mCurrentQuadIndex st =? 0) then reset_quads (issueDrawCommand st) else st in
  let st := set_fonts st (foldl (fun fs f => alter invalidateTextureCache f fs) (fonts st) (mActiveFonts st)) in
  set_lines st ((fun l => mkLine (mMaxHeight l) (mMaxWidth l) (mCurrentRow l) 0 (mDirty l)) <$> mCacheLines st).

(** The loops that copy a bitmap into the cache. *)
Definition copy_bitmap (b : FT_Bitmap) (startX startY : Z) (buf : list Z) : outcome (list Z) :=
  loop (fun bX bY buf =>
          tempCol ← znth (bm_buffer b) (bY * bm_width b + bX);
          zset buf ((startY + bY) * mCacheWidth + (startX + bX)) tempCol)
    (cells (bm_width b) (bm_rows b)) buf.

Definition cacheBitmap (b : FT_Bitmap) (st : FontState) : outcome (option (Z * Z) * FontState) :=
  last ← znth (mCacheLines st) (zlen (mCacheLines st) - 1);
  if u32 (bm_rows b) >? mMaxHeight last then Ok (None, st)
  else
    let '(fit, st) := match fit_lines (mCacheLines st) b with
                      | Some r => (Some r, st)
                      | None => let st := flushAllAndInvalidate st in (fit_lines (mCacheLines st) b, st)
                      end in
    match fit with
    | None => Ok (None, st)
    | Some (x, y, ls) =>
        let st := set_lines st ls in
        buf ← copy_bitmap b x y (mCacheBuffer st);
        Ok (Some (x, y), set_buffers st buf buf)
    end.

(** ** Glyphs *)

Context (FT_Get_Char_Index : face -> Z -> Z) (FT_Load_Glyph : face -> Z -> option GlyphSlot).

Definition updateGlyphCache (f : positive) (k : Z) (st : FontState) : outcome FontState :=
  F ← get_font st f;
  g ← get_glyph st f k;
  match FT_Load_Glyph (mFace F) (mGlyphIndex g) with
  | None => Ok st
  | Some slot =>
      st ← upd_glyph st f k (set_slot slot);
      '(place, st) ← cacheBitmap (slot_bitmap slot) st;
      match place with
      | None => upd_glyph st f k (set_valid false)
      | Some (x, y) => upd_glyph st f k (fun g => set_place x y (u32 (bm_width (slot_bitmap slot))) (u32 (bm_rows (slot_bitmap slot))) (set_valid true g))
      end
  end.

Definition cacheGlyph (f : positive) (k : Z) (st : FontState) : outcome FontState :=
  F ← get_font st f;
  let g := set_index (FT_Get_Char_Index (mFace F) k) new_glyph in
  updateGlyphCache f k (set_fonts st (<[f := set_glyphs F (<[k := g]> (mCachedGlyphs F))]> (fonts st))).

Definition getCachedUTFChar (f : positive) (utfChar : Z) (st : FontState) : outcome (CachedGlyphInfo * FontState) :=
  let k := u32 utfChar in
  F ← get_font st f;
  st ← (match mCachedGlyphs F !! k with None => cacheGlyph f k st | Some _ => Ok st end);
  g ← get_glyph st f k;
  st ← (if negb (mIsValid g) then updateGlyphCache f k st else Ok st);
  g ← get_glyph st f k;
  Ok (g, st).

Definition drawCachedGlyph_quad (surfaceWidth surfaceHeight : Z) (g : CachedGlyphInfo) (x y : Z) (st : FontState) : outcome FontState :=
  let nPenX := s32 (x + mBitmapLeft g) in
  let nPenY := s32 (y - mBitmapTop g + mBitmapHeight g) in
  let width := s32 (mBitmapWidth g) in
  let height := s32 (mBitmapHeight g) in
  appendMeshQuad surfaceWidth surfaceHeight
    (mkQuad (mkVertex nPenX nPenY (mBitmapMinU g) (mBitmapMaxV g))
            (mkVertex (s32 (nPenX + width)) nPenY (mBitmapMaxU g) (mBitmapMaxV g))
            (mkVertex (s32 (nPenX + width)) (s32 (nPenY - height)) (mBitmapMaxU g) (mBitmapMinV g))
            (mkVertex nPenX (s32 (nPenY - height)) (mBitmapMinU g) (mBitmapMinV g))) st.

Definition drawCachedGlyph_bitmap (cacheBuffer : list Z) (bitmapW bitmapH : Z) (g : CachedGlyphInfo) (x y : Z) (bitmap : list Z) : outcome (list Z) :=
  let nPenX := s32 (x + mBitmapLeft g) in
  let nPenY := s32 (y + mBitmapTop g) in
  let endX := mBitmapMinX g +u32 mBitmapWidth g in
  let endY := mBitmapMinY g +u32 mBitmapHeight g in
  loop (fun i j bitmap =>
          let bX := nPenX + i in
          let bY := nPenY + j in
          if (bX <? 0) || (bY <? 0) || (bX >=? s32 bitmapW) || (bY >=? s32 bitmapH) then Ok bitmap
          else
            tempCol ← znth cacheBuffer (u32 ((mBitmapMinY g + j) * mCacheWidth + (mBitmapMinX g + i)));
            zset bitmap (u32 (bY * bitmapW + bX)) tempCol)
    (cells (endX - mBitmapMinX g) (endY - mBitmapMinY g)) bitmap.

Definition measureCachedGlyph (g : CachedGlyphInfo) (x y : Z) (b : Rect) : Rect :=
  let nPenX := s32 (x + mBitmapLeft g) in
  let nPenY := s32 (y - mBitmapTop g + mBitmapHeight g) in
  let width := s32 (mBitmapWidth g) in
  let height := s32 (mBitmapHeight g) in
  let b := if bottom b <? nPenY then mkRect (left b) (top b) (right b) nPenY else b in
  let b := if left b >? nPenX then mkRect nPenX (top b) (right b) (bottom b) else b in
  let b := if right b <? s32 (nPenX + width) then mkRect (left b) (top b) (s32 (nPenX + width)) (bottom b) else b in
  if top b >? s32 (nPenY - height) then mkRect (left b) (s32 (nPenY - height)) (right b) (bottom b) else b.

(** ** Text *)

(** [utf32_from_utf8_at text len index] gives the character and the index of the next one. *)
Context (utf32_from_utf8_at : list Z -> Z -> Z -> Z * Z).

(** What a call can change apart from the state: the bounds and the bitmap of the client. *)
Record Target := mkTarget { t_bounds : option Rect; t_bitmap : list Z }.

Section render.
Context (surfaceWidth surfaceHeight : Z) (mode : RenderMode) (bitmapW bitmapH : Z).

Definition draw_glyph (g : CachedGlyphInfo) (penX penY : Z) (st : FontState) (t : Target) : outcome (FontState * Target) :=
  match mode with
  | FRAMEBUFFER => st ← drawCachedGlyph_quad surfaceWidth surfaceHeight g penX penY st; Ok (st, t)
  | BITMAP => b ← drawCachedGlyph_bitmap (mCacheBuffer st) bitmapW bitmapH g penX penY (t_bitmap t); Ok (st, mkTarget (t_bounds t) b)
  | MEASURE => b ← of_option NullDeref (t_bounds t); Ok (st, mkTarget (Some (measureCachedGlyph g penX penY b)) (t_bitmap t))
  end.

Fixpoint renderUTF_loop (fuel : nat) (f : positive) (text : list Z) (len numGlyphs index glyphsLeft penX penY : Z) (st : FontState) (t : Target)
    : outcome (FontState * Target) :=
  match fuel with
  | O => Fault OutOfFuel
  | S fuel =>
      if glyphsLeft >? 0 then
        let '(utfChar, nextIndex) := utf32_from_utf8_at text len index in
        if utfChar <? 0 then Ok (st, t)
        else
          '(g, st) ← getCachedUTFChar f utfChar st;
          '(st, t) ← (if mIsValid g then draw_glyph g penX penY st t else Ok (st, t));
          renderUTF_loop fuel f text len numGlyphs nextIndex (if numGlyphs >? 0 then glyphsLeft - 1 else glyphsLeft)
            (s32 (penX + Z.shiftr (mAdvanceX g) 6)) penY st t
      else Ok (st, t)
  end.

Definition renderUTF (f : positive) (text : option (list Z)) (len x y start numGlyphs : Z) (st : FontState) (t : Target) : outcome (FontState * Target) :=
  F ← get_font st f;
  match text with
  | None => Ok (st, t)
  | Some text =>
      if negb (mInitialized F) || (numGlyphs =? 0) || (len =? 0) then Ok (st, t)
      else
        let run := renderUTF_loop (S (Z.to_nat len)) f text len numGlyphs start (if numGlyphs >? 0 then numGlyphs else 1) x y st in
        match mode with
        | MEASURE =>
            match t_bounds t with
            | None => Ok (st, t)
            | Some _ => run (mkTarget (Some (mkRect 1000000 1000000 (-1000000) (-1000000))) (t_bitmap t))
            end
        | _ => run t
        end
  end.

(** [FontState::renderText] for the font it has chosen. *)
Definition renderText (f : positive) (text : option (list Z)) (len x y start numGlyphs : Z) (st : FontState) (t : Target) : outcome (FontState * Target) :=
  '(st, t) ← renderUTF f text len x y start numGlyphs st t;
  Ok (if negb (mCurrentQuadIndex st =? 0) then reset_quads (issueDrawCommand st) else st, t).

End render.

Definition measureText (f : positive) (text : option (list Z)) (len : Z) (st : FontState) (b : Rect) : outcome (FontState * Rect) :=
  '(st, t) ← renderText 0 0 MEASURE 0 0 f text len 0 0 0 (-1) st (mkTarget (Some b) []);
  b ← of_option NullDeref (t_bounds t);
  Ok (st, mkRect (left b) (s32 (- top b)) (right b) (s32 (- bottom b))).

(** ** Fonts *)

(** A font that FreeType could open; [Font::create] after [Font::init]. *)
Fixpoint precache_loop (f : positive) (cs : list Z) (st : FontState) : outcome FontState :=
  match cs with
  | [] => Ok st
  | c :: cs =>
      remaining ← getRemainingCacheCapacity st;
      if remaining >? 25 then '(_, st) ← getCachedUTFChar f c st; precache_loop f cs st else Ok st
  end.

Definition mLatinPrecache : list Z :=
  [32; 101; 105; 115; 97; 114; 110; 116; 111; 108; 99; 100; 117; 103; 112; 109; 104; 98; 121; 102; 118; 107; 119; 122; 120; 106; 113;
   69; 73; 83; 65; 82; 78; 84; 79; 76; 67; 68; 85; 71; 80; 77; 72; 66; 89; 70; 86; 75; 87; 90; 88; 74; 81;
   44; 46; 63; 33; 40; 41; 45; 43; 64; 59; 58; 96; 39; 48; 49; 50; 51; 52; 53; 54; 55; 56; 57].

Definition precacheLatin (f : positive) (st : FontState) : outcome FontState := precache_loop f mLatinPrecache st.

Definition add_font (f : positive) (fc : face) (st : FontState) : FontState :=
  mkState (mCacheLines st) (mCacheBuffer st) (mTexture st) (mTextMesh st) (mCurrentQuadIndex st) (mActiveFonts st ++ [f]) (<[f := mkFont fc true ∅]> (fonts st)) (drawn st).

Definition create (f : positive) (fc : face) (st : FontState) : outcome FontState := precacheLatin f (add_font f fc st).

(** [preDestroy] and the destructor. *)
Fixpoint remove_first (f : positive) (l : list positive) : list positive :=
  match l with [] => [] | g :: l => if decide (g = f) then l else g :: remove_first f l end.

Definition destroy (f : positive) (st : FontState) : FontState :=
  mkState (mCacheLines st) (mCacheBuffer st) (mTexture st) (mTextMesh st) (mCurrentQuadIndex st) (remove_first f (mActiveFonts st)) (delete f (fonts st)) (drawn st).

End font.
#[global] Arguments Font : clear implicits.
#[global] Arguments FontState : clear implicits.

(** ** Loops that write to an array *)

Lemma elem_of_cells w h i j : (i, j) ∈ cells w h <-> 0 <= i < w /\ 0 <= j < h.
Proof.
  unfold cells. rewrite list_elem_of_bind. split.
  - intros (a & Ha & Hb%elem_of_seq). apply list_elem_of_fmap in Ha as (b & [= -> ->] & Ha%elem_of_seq). lia.
  - intros [Hi Hj]. exists (Z.to_nat i). split; [|apply elem_of_seq; lia]. apply list_elem_of_fmap. exists (Z.to_nat j). split; [f_equal; lia|apply elem_of_seq; lia].
Qed.

Lemma NoDup_cells w h : NoDup (cells w h).
Proof.
  unfold cells. apply NoDup_bind.
  - intros i1 i2 p _ _ Hi1 Hi2. apply list_elem_of_fmap in Hi1 as (a & -> & _). apply list_elem_of_fmap in Hi2 as (b & [= ?] & _). lia.
  - intros i _. apply NoDup_fmap; [intros a b [= ?]; lia|apply NoDup_seq].
  - apply NoDup_seq.
Qed.

Section writes.
Context (skip : Z -> Z -> bool) (val : Z -> Z -> outcome Z) (v : Z -> Z -> Z) (pos : Z -> Z -> Z).

Definition write_cell (i j : Z) (s : list Z) : outcome (list Z) := if skip i j then Ok s else x ← val i j; zset s (pos i j) x.

(** Each cell that is not skipped is written once. *)
Lemma loop_writes ps s :
  NoDup ps ->
  (forall i j, (i, j) ∈ ps -> skip i j = false -> val i j = Ok (v i j) /\ 0 <= pos i j < zlen s) ->
  (forall i j i' j', (i, j) ∈ ps -> (i', j') ∈ ps -> skip i j = false -> skip i' j' = false -> pos i j = pos i' j' -> (i, j) = (i', j')) ->
  exists s', loop write_cell ps s = Ok s' /\ length s' = length s /\
    (forall i j, (i, j) ∈ ps -> skip i j = false -> s' !! Z.to_nat (pos i j) = Some (v i j)) /\
    (forall k : nat, (forall i j, (i, j) ∈ ps -> skip i j = false -> pos i j <> Z.of_nat k) -> s' !! k = s !! k).
Proof.
  revert s. induction ps as [|[i j] ps IH]; intros s Hnd Hok Hinj; cbn [loop].
  { exists s. split; [done|]. split; [done|]. split; [intros ? ? Hin; by apply elem_of_nil in Hin|done]. }
  apply NoDup_cons in Hnd as [Hnot Hnd].
  assert (Hc : write_cell i j s = if skip i j then Ok s else x ← val i j; zset s (pos i j) x) by done. rewrite Hc. clear Hc.
  destruct (skip i j) eqn:Es; cbn [mbind outcome_bind].
  - destruct (IH s Hnd) as (s' & E & Hl & Hin & Hout).
    { intros a b Hab. apply Hok. by right. }
    { intros a b a' b' Ha Hb. apply Hinj; by right. }
    exists s'. split; [done|]. split; [done|]. split.
    + intros a b [[= -> ->]|Hab]%elem_of_cons Hs; [congruence|by apply Hin].
    + intros k Hk. apply Hout. intros a b Hab. apply Hk. by right.
  - destruct (Hok i j ltac:(by left) Es) as [-> Hpos]. cbn [mbind outcome_bind]. unfold zset. rewrite decide_True by done. cbn [mbind outcome_bind].
    destruct (IH (<[Z.to_nat (pos i j) := v i j]> s) Hnd) as (s' & E & Hl & Hin & Hout).
    { intros a b Hab Hs. unfold zlen. rewrite length_insert. apply Hok; [by right|done]. }
    { intros a b a' b' Ha Hb. apply Hinj; by right. }
    rewrite length_insert in Hl. exists s'. split; [done|]. split; [done|]. split.
    + intros a b [[= -> ->]|Hab]%elem_of_cons Hs; [|by apply Hin]. rewrite Hout; [apply list_lookup_insert_eq; unfold zlen in Hpos; lia|].
      intros a b Hab Hs' Heq. assert ((a, b) = (i, j)) as [= -> ->]; [|done]. apply Hinj; [by right|by left|done|done|]. lia.
    + intros k Hk. rewrite Hout; [apply list_lookup_insert_ne; intros <-; apply (Hk i j); [by left|done|lia]|]. intros a b Hab. apply Hk. by right.
Qed.
End writes.

(** ** The lines *)

(** Height and first row of the lines. *)
Definition layout : list (Z * Z) := [(16, 0); (24, 16); (24, 40); (32, 64); (32, 96); (40, 128); (88, 168)].

Definition line_ok (l : CacheTextureLine) (p : Z * Z) : Prop :=
  mMaxHeight l = p.1 /\ mMaxWidth l = 1024 /\ mCurrentRow l = p.2 /\ 0 <= mCurrentCol l < 1024.
Definition lines_ok (ls : list CacheTextureLine) : Prop := Forall2 line_ok ls layout.

Lemma initial_lines_ok : lines_ok initTextTexture_lines.
Proof. repeat constructor; cbn; try reflexivity; lia. Qed.

Lemma layout_range i p : layout !! i = Some p -> 0 < p.1 <= 88 /\ 0 <= p.2 /\ p.2 + p.1 <= 256.
Proof. intros Hi. do 7 (destruct i as [|i]; [injection Hi as <-; cbn; lia|]). done. Qed.

Lemma layout_disjoint i j p q : layout !! i = Some p -> layout !! j = Some q -> i = j \/ p.2 + p.1 <= q.2 \/ q.2 + q.1 <= p.2.
Proof.
  intros Hi Hj. do 7 (destruct i as [|i]; [injection Hi as <-; do 7 (destruct j as [|j]; [injection Hj as <-; cbn; lia|]); done|]). done.
Qed.

(** A rectangle inside the part of a line that is in use. *)
Definition occupied (ls : list CacheTextureLine) (x y w h : Z) : Prop :=
  exists i l, ls !! i = Some l /\ y = mCurrentRow l /\ 0 <= h <= mMaxHeight l /\ 0 <= x /\ 0 <= w /\ x + w <= mCurrentCol l.

Definition apart (x y w h x' y' w' h' : Z) : Prop := x + w <= x' \/ x' + w' <= x \/ y + h <= y' \/ y' + h' <= y.

Definition bitmap_ok (b : FT_Bitmap) : Prop :=
  0 <= bm_width b < 2147483648 /\ 0 <= bm_rows b < 2147483648 /\ zlen (bm_buffer b) = bm_width b * bm_rows b.

(** The glyphs the cache can hold. *)
Definition cacheable (b : FT_Bitmap) : bool := (bm_rows b <=? 88) && (bm_width b <? 1024).

Lemma fitBitmap_spec l p b :
  line_ok l p -> bitmap_ok b ->
  match fitBitmap l b with
  | Some (x, y, l') => x = mCurrentCol l /\ y = mCurrentRow l /\ bm_rows b <= mMaxHeight l /\ x + bm_width b < 1024 /\ mCurrentCol l' = x + bm_width b /\ line_ok l' p /\ mMaxHeight l' = mMaxHeight l /\ mCurrentRow l' = mCurrentRow l
  | None => bm_rows b > mMaxHeight l \/ mCurrentCol l + bm_width b >= 1024
  end.
Proof.
  intros (Hh & Hw & Hr & Hc) (Hbw & Hbr & _). unfold fitBitmap. rewrite (u32_small (bm_rows b)), (u32_small (bm_width b)) by lia.
  destruct (Z.gtb_spec (bm_rows b) (mMaxHeight l)); [lia|]. rewrite u32_small by lia. rewrite Hw. destruct (Z.ltb_spec (mCurrentCol l + bm_width b) 1024); [|lia].
  unfold line_ok. cbn. repeat split; try done; lia.
Qed.

Lemma fit_lines_lookup ls b x y ls' :
  fit_lines ls b = Some (x, y, ls') -> exists i l l', ls !! i = Some l /\ fitBitmap l b = Some (x, y, l') /\ ls' = <[i := l']> ls.
Proof.
  revert ls'. induction ls as [|l ls IH]; intros ls' E; [done|]. cbn in E. destruct (fitBitmap l b) as [[[x0 y0] l0]|] eqn:Ef.
  - injection E as -> -> <-. by exists 0%nat, l, l0.
  - destruct (fit_lines ls b) as [[[x0 y0] ls0]|]; [|done]. injection E as -> -> <-. destruct (IH ls0 eq_refl) as (i & l1 & l' & Hi & Hf & ->). by exists (S i), l1, l'.
Qed.

Lemma fit_lines_None ls b : fit_lines ls b = None -> Forall (fun l => fitBitmap l b = None) ls.
Proof.
  induction ls as [|l ls IH]; [constructor|]. cbn. destruct (fitBitmap l b) as [[[? ?] ?]|] eqn:E; [done|].
  destruct (fit_lines ls b) as [[[? ?] ?]|]; [done|]. intros _. constructor; [done|by apply IH].
Qed.

(** A new place is apart from all that is in use and is in use afterwards. *)
Lemma fit_lines_spec ls b x y ls' :
  lines_ok ls -> bitmap_ok b -> fit_lines ls b = Some (x, y, ls') ->
  lines_ok ls' /\ occupied ls' x y (bm_width b) (bm_rows b) /\ 0 <= x /\ x + bm_width b <= 1024 /\ 0 <= y /\ y + bm_rows b <= 256 /\
  (forall x0 y0 w0 h0, occupied ls x0 y0 w0 h0 -> occupied ls' x0 y0 w0 h0 /\ apart x0 y0 w0 h0 x y (bm_width b) (bm_rows b)).
Proof.
  intros Hls Hb E. destruct (fit_lines_lookup _ _ _ _ _ E) as (i & l & l' & Hi & Hf & ->). destruct (Forall2_lookup_l _ _ _ _ _ Hls Hi) as (p & Hp & Hl).
  pose proof (fitBitmap_spec l p b Hl Hb) as Hs. rewrite Hf in Hs. destruct Hs as (-> & -> & Hrows & Hwidth & Hcol & Hl' & Hmh & Hmr).
  destruct Hl as (Hh & _ & Hr & Hc). destruct Hb as (Hbw & Hbr & _). pose proof (layout_range i p Hp).
  assert (Hlt : (i < length ls)%nat) by (by eapply lookup_lt_Some).
  split; [|split; [|split; [|split; [|split; [|split]]]]]; try lia.
  - apply Forall2_same_length_lookup. split; [rewrite length_insert; by eapply Forall2_length|]. intros j l0 q Hj Hq.
    destruct (decide (i = j)) as [<-|Hne]; [rewrite list_lookup_insert_eq in Hj by done; congruence|]. rewrite list_lookup_insert_ne in Hj by done. by eapply (Forall2_lookup_lr _ _ _ _ _ _ Hls).
  - exists i, l'. rewrite list_lookup_insert_eq by done. repeat split; try done; lia.
  - intros x0 y0 w0 h0 (j & l0 & Hj & Hy0 & Hh0 & Hx0 & Hw0 & Hxw). split.
    + destruct (decide (i = j)) as [<-|Hne].
      * exists i, l'. rewrite list_lookup_insert_eq by done. assert (l0 = l) as -> by congruence. repeat split; try done; lia.
      * exists j, l0. rewrite list_lookup_insert_ne by done. repeat split; try done; lia.
    + destruct (Forall2_lookup_l _ _ _ _ _ Hls Hj) as (q & Hq & Hl0). destruct Hl0 as (Hh0' & _ & Hr0 & _). unfold apart.
      destruct (layout_disjoint i j p q Hp Hq) as [<-|Hd]; [|lia]. assert (l0 = l) as -> by congruence. lia.
Qed.

(** After a flush every glyph the cache can hold finds a place. *)
Lemma fit_lines_empty ls b :
  lines_ok ls -> bitmap_ok b -> Forall (fun l => mCurrentCol l = 0) ls -> cacheable b = true -> exists r, fit_lines ls b = Some r.
Proof.
  intros Hls Hb H0 Hc. destruct (fit_lines ls b) eqn:E; [by eexists|]. apply fit_lines_None in E.
  destruct (Forall2_lookup_r _ _ _ 6%nat (88, 168) Hls eq_refl) as (l & Hl & Hok). pose proof (fitBitmap_spec l _ b Hok Hb) as Hs.
  rewrite Forall_forall in E, H0. assert (Hin : l ∈ ls) by (by eapply list_elem_of_lookup_2). rewrite (E l Hin) in Hs. pose proof (H0 l Hin). destruct Hok as (Eh & _). cbn in Eh. unfold cacheable in Hc. lia.
Qed.

(** ** Copying a bitmap *)

(** The position of a texel. *)
Definition texel (x y : Z) : nat := Z.to_nat (y * 1024 + x).

(** The rectangle at [x], [y] holds the pixels of the bitmap. *)
Definition holds (buf : list Z) (x y : Z) (b : FT_Bitmap) : Prop :=
  forall i j, 0 <= i < bm_width b -> 0 <= j < bm_rows b -> exists c, buf !! texel (x + i) (y + j) = Some c /\ bm_buffer b !! Z.to_nat (j * bm_width b + i) = Some c.

Definition same_texels (buf buf' : list Z) (x y w h : Z) : Prop := forall i j, 0 <= i < w -> 0 <= j < h -> buf' !! texel (x + i) (y + j) = buf !! texel (x + i) (y + j).

Lemma copy_bitmap_spec b x y buf :
  bitmap_ok b -> zlen buf = 262144 -> 0 <= x -> x + bm_width b <= 1024 -> 0 <= y -> y + bm_rows b <= 256 ->
  exists buf', copy_bitmap b x y buf = Ok buf' /\ zlen buf' = 262144 /\ holds buf' x y b /\
    (forall x0 y0 w0 h0, 0 <= x0 -> x0 + w0 <= 1024 -> 0 <= y0 -> apart x0 y0 w0 h0 x y (bm_width b) (bm_rows b) -> same_texels buf buf' x0 y0 w0 h0).
Proof.
  intros (Hw & Hh & Hlen) Hbuf Hx Hxw Hy Hyh.
  assert (Hin : forall i j, 0 <= i < bm_width b -> 0 <= j < bm_rows b -> 0 <= j * bm_width b + i < bm_width b * bm_rows b) by (intros; nia).
  destruct (loop_writes (fun _ _ => false) (fun bX bY => znth (bm_buffer b) (bY * bm_width b + bX))
    (fun bX bY => nth (Z.to_nat (bY * bm_width b + bX)) (bm_buffer b) 0) (fun bX bY => (y + bY) * mCacheWidth + (x + bX))
    (cells (bm_width b) (bm_rows b)) buf) as (buf' & E & Hl & Hwr & Hout).
  - apply NoDup_cells.
  - intros i j [Hi Hj]%elem_of_cells _. pose proof (Hin i j Hi Hj). unfold mCacheWidth. split; [|nia].
    unfold znth. rewrite decide_True by lia. destruct (lookup_lt_is_Some_2 (bm_buffer b) (Z.to_nat (j * bm_width b + i))) as [c Hc]; [unfold zlen in Hlen; lia|].
    by rewrite Hc, (nth_lookup_Some _ _ _ _ Hc).
  - intros i j i' j' [Hi Hj]%elem_of_cells [Hi' Hj']%elem_of_cells _ _. unfold mCacheWidth. intros. f_equal; nia.
  - exists buf'. split; [exact E|]. split; [unfold zlen in *; lia|]. split.
    + intros i j Hi Hj. pose proof (Hin i j Hi Hj). exists (nth (Z.to_nat (j * bm_width b + i)) (bm_buffer b) 0). split.
      * unfold texel. rewrite <- (Hwr i j); [done|by apply elem_of_cells|done].
      * destruct (lookup_lt_is_Some_2 (bm_buffer b) (Z.to_nat (j * bm_width b + i))) as [c Hc]; [unfold zlen in Hlen; lia|]. by rewrite (nth_lookup_Some _ _ _ _ Hc).
    + intros x0 y0 w0 h0 Hx0 Hxw0 Hy0 Hap i j Hi Hj. apply Hout. intros a c [Ha Hc]%elem_of_cells _. unfold texel, mCacheWidth, apart in *. nia.
Qed.

(** ** What has been drawn *)

Definition pixel (tex : list Z) (x y : Z) : Z := nth (texel x y) tex 0.

(** Row by row, as a bitmap is stored. *)
Definition region (tex : list Z) (x y w h : Z) : list Z :=
  j ← seq 0 (Z.to_nat h); (fun i => pixel tex (x + Z.of_nat i) (y + Z.of_nat j)) <$> seq 0 (Z.to_nat w).

(** A picture on the screen: its place, size and pixels. *)
Record Image := mkImage { im_x : Z; im_y : Z; im_w : Z; im_h : Z; im_pixels : list Z }.

Definition quad_image (tex : list Z) (q : Quad) : Image :=
  let w := v_u (q2 q) - v_u (q1 q) in
  let h := v_v (q1 q) - v_v (q4 q) in
  mkImage (v_x (q1 q)) (v_y (q4 q)) w h (region tex (v_u (q1 q)) (v_v (q4 q)) w h).

Definition quad_occupied (ls : list CacheTextureLine) (q : Quad) : Prop :=
  occupied ls (v_u (q1 q)) (v_v (q4 q)) (v_u (q2 q) - v_u (q1 q)) (v_v (q1 q) - v_v (q4 q)).

Lemma bind_seq_ext {A} (f g : nat -> list A) s h : (forall j, (s <= j < s + h)%nat -> f j = g j) -> (j ← seq s h; f j) = (j ← seq s h; g j).
Proof. revert s. induction h as [|h IH]; intros s Hfg; [done|]. cbn. rewrite (Hfg s) by lia. f_equal. apply IH. intros j Hj. apply Hfg. lia. Qed.

Lemma region_same tex tex' x y w h : same_texels tex tex' x y w h -> region tex' x y w h = region tex x y w h.
Proof.
  intros Hs. unfold region. apply bind_seq_ext. intros j Hj. apply list_fmap_ext. intros k i Hk%lookup_seq. unfold pixel.
  rewrite !nth_lookup, Hs by lia. done.
Qed.

Lemma bind_seq_lookup (f : nat -> nat -> Z) h w k :
  (k < h * w)%nat -> (j ← seq 0 h; f j <$> seq 0 w) !! k = Some (f (k / w)%nat (k mod w)%nat).
Proof.
  intros Hk. assert (Hw : w <> 0%nat) by nia.
  assert (Hgen : forall s k, (k < h * w)%nat -> (j ← seq s h; f j <$> seq 0 w) !! k = Some (f (s + k / w)%nat (k mod w)%nat)); [|by apply Hgen].
  clear Hk. induction h as [|h IH]; intros s k' Hk; [lia|]. cbn [seq mbind list_bind].
  assert (Hl : length (f s <$> seq 0 w) = w) by (by rewrite length_fmap, length_seq). destruct (decide (k' < w)%nat) as [Hlt|Hge].
  - rewrite lookup_app_l by (rewrite Hl; lia). rewrite list_lookup_fmap, lookup_seq_lt by lia. cbn. rewrite Nat.div_small, Nat.mod_small by lia. by rewrite Nat.add_0_r.
  - rewrite lookup_app_r by (rewrite Hl; lia). rewrite Hl, IH by lia. f_equal.
    assert (Hd : (k' = (k' - w) + 1 * w)%nat) by lia. rewrite Hd at 3 4. rewrite Nat.div_add, Nat.Div0.mod_add by lia. f_equal. lia.
Qed.

Lemma length_bind_seq (f : nat -> nat -> Z) h w : length (j ← seq 0 h; f j <$> seq 0 w) = (h * w)%nat.
Proof.
  assert (Hgen : forall s, length (j ← seq s h; f j <$> seq 0 w) = (h * w)%nat); [|apply Hgen].
  induction h as [|h IH]; intros s; [done|]. cbn [seq mbind list_bind]. rewrite length_app, length_fmap, length_seq. specialize (IH (S s)). cbn [mbind] in IH. lia.
Qed.

(** The rectangle that holds a bitmap shows it. *)
Lemma region_holds tex x y b : bitmap_ok b -> holds tex x y b -> region tex x y (bm_width b) (bm_rows b) = bm_buffer b.
Proof.
  intros (Hw & Hh & Hlen) Hb. unfold zlen in Hlen. apply list_eq. intros k. unfold region.
  destruct (decide (k < Z.to_nat (bm_rows b) * Z.to_nat (bm_width b))%nat) as [Hk|Hk].
  - rewrite (bind_seq_lookup (fun j i => pixel tex (x + Z.of_nat i) (y + Z.of_nat j))) by done.
    assert (Hw0 : Z.to_nat (bm_width b) <> 0%nat) by nia. set (w := Z.to_nat (bm_width b)) in *.
    pose proof (Nat.div_mod k w Hw0). pose proof (Nat.mod_upper_bound k w Hw0). assert ((k / w < Z.to_nat (bm_rows b))%nat) by (apply Nat.Div0.div_lt_upper_bound; lia).
    destruct (Hb (Z.of_nat (k mod w)) (Z.of_nat (k / w))) as (c & Hc & Hc'); [lia..|]. unfold pixel. rewrite (nth_lookup_Some _ _ _ _ Hc).
    replace (Z.to_nat (Z.of_nat (k / w) * bm_width b + Z.of_nat (k mod w))) with k in Hc' by nia. done.
  - rewrite !lookup_ge_None_2; [done|nia|rewrite (length_bind_seq (fun j i => pixel tex (x + Z.of_nat i) (y + Z.of_nat j))); lia].
Qed.

(** ** The invariant *)

Section correct.
Context {face : Type} (FT_Get_Char_Index : face -> Z -> Z) (FT_Load_Glyph : face -> Z -> option GlyphSlot).

(** What a glyph of a font knows.  [FT_Load_Glyph] of the font decides whether and where it is. *)
Definition glyph_ok (ls : list CacheTextureLine) (buf tex : list Z) (fc : face) (k : Z) (g : CachedGlyphInfo) : Prop :=
  mGlyphIndex g = FT_Get_Char_Index fc k /\
  match FT_Load_Glyph fc (mGlyphIndex g) with
  | None => mIsValid g = false /\ mAdvanceX g = 0
  | Some s => mIsValid g = true ->
      cacheable (slot_bitmap s) = true /\ mAdvanceX g = advance_x s /\ mBitmapLeft g = bitmap_left s /\ mBitmapTop g = bitmap_top s /\
      mBitmapWidth g = bm_width (slot_bitmap s) /\ mBitmapHeight g = bm_rows (slot_bitmap s) /\
      mBitmapMinU g = mBitmapMinX g /\ mBitmapMinV g = mBitmapMinY g /\
      mBitmapMaxU g = mBitmapMinX g + bm_width (slot_bitmap s) /\ mBitmapMaxV g = mBitmapMinY g + bm_rows (slot_bitmap s) /\
      occupied ls (mBitmapMinX g) (mBitmapMinY g) (bm_width (slot_bitmap s)) (bm_rows (slot_bitmap s)) /\
      holds buf (mBitmapMinX g) (mBitmapMinY g) (slot_bitmap s) /\ holds tex (mBitmapMinX g) (mBitmapMinY g) (slot_bitmap s)
  end.

Definition fonts_ok (ls : list CacheTextureLine) (buf tex : list Z) (fs : gmap positive (Font face)) : Prop :=
  forall f F k g, fs !! f = Some F -> mCachedGlyphs F !! k = Some g -> glyph_ok ls buf tex (mFace F) k g.

(** The quads not yet drawn. *)
Definition pending (st : FontState face) : list Quad := take (Z.to_nat (mCurrentQuadIndex st)) (mTextMesh st).

Record WF (st : FontState face) : Prop := {
  wf_lines : lines_ok (mCacheLines st);
  wf_buffer : zlen (mCacheBuffer st) = 262144;
  wf_texture : zlen (mTexture st) = 262144;
  wf_mesh : zlen (mTextMesh st) = 1024 /\ 0 <= mCurrentQuadIndex st < 1024;
  wf_nodup : NoDup (mActiveFonts st);
  wf_active : forall f, f ∈ mActiveFonts st <-> is_Some (fonts st !! f);
  wf_fonts : fonts_ok (mCacheLines st) (mCacheBuffer st) (mTexture st) (fonts st);
  wf_pending : Forall (quad_occupied (mCacheLines st)) (pending st);
  wf_same : forall x y w h, occupied (mCacheLines st) x y w h -> same_texels (mCacheBuffer st) (mTexture st) x y w h
}.

(** The pictures on the screen once the pending quads are drawn. *)
Definition rendered (st : FontState face) : list Image :=
  (('(qs, tex) ← drawn st; quad_image tex <$> qs)) ++ (quad_image (mTexture st) <$> pending st).

Lemma occupied_range ls x y w h : lines_ok ls -> occupied ls x y w h -> 0 <= x /\ x + w <= 1024 /\ 0 <= y /\ y + h <= 256 /\ 0 <= w /\ 0 <= h.
Proof.
  intros Hls (i & l & Hi & -> & Hh & Hx & Hw & Hxw). destruct (Forall2_lookup_l _ _ _ _ _ Hls Hi) as (p & Hp & Hh' & _ & Hr & Hc).
  pose proof (layout_range i p Hp). lia.
Qed.

Lemma holds_same buf buf' x y b : holds buf x y b -> same_texels buf buf' x y (bm_width b) (bm_rows b) -> holds buf' x y b.
Proof. intros Hh Hs i j Hi Hj. destruct (Hh i j Hi Hj) as (c & Hc & Hb). exists c. by rewrite Hs. Qed.

(** The invariant of the glyphs survives changes that keep what is in use. *)
Lemma glyph_ok_keep ls buf tex ls' buf' tex' fc k g :
  (forall x y w h, occupied ls x y w h -> occupied ls' x y w h /\ same_texels buf buf' x y w h /\ same_texels tex tex' x y w h) ->
  glyph_ok ls buf tex fc k g -> glyph_ok ls' buf' tex' fc k g.
Proof.
  intros Hkeep [Hi Hg]. split; [done|]. destruct (FT_Load_Glyph fc (mGlyphIndex g)) as [s|]; [|done]. intros Hv.
  destruct (Hg Hv) as (Hc & Ha & Hl & Ht & Hw & Hh & Hu & Hvv & HU & HV & Hocc & Hb & Hx). destruct (Hkeep _ _ _ _ Hocc) as (Hocc' & Hs & Hs').
  repeat (split; [done|]). split; [exact (holds_same _ _ _ _ _ Hb Hs)|exact (holds_same _ _ _ _ _ Hx Hs')].
Qed.

(** *** Drawing and flushing *)

Lemma rendered_issue st : rendered (reset_quads (issueDrawCommand true st)) = rendered st.
Proof.
  unfold rendered, pending. cbn. rewrite take_0, bind_app. cbn. by rewrite !app_nil_r.
Qed.

Lemma WF_reset st : WF st -> WF (reset_quads (issueDrawCommand true st)).
Proof.
  intros [H1 H2 H3 [H4 H5] Hn H6 H7 H8 H9]. split; done.
Qed.

(** What invalidating a list of fonts does to all fonts. *)
Definition invalidated (F0 F : Font face) : Prop :=
  mFace F = mFace F0 /\ mInitialized F = mInitialized F0 /\
  forall k, mCachedGlyphs F !! k = mCachedGlyphs F0 !! k \/ mCachedGlyphs F !! k = set_valid false <$> mCachedGlyphs F0 !! k.

Definition invalidate_fonts (l : list positive) (fs : gmap positive (Font face)) : gmap positive (Font face) :=
  foldl (fun fs f => alter invalidateTextureCache f fs) fs l.

Lemma invalidate_fonts_spec l fs :
  (forall f, is_Some (invalidate_fonts l fs !! f) <-> is_Some (fs !! f)) /\
  (forall f F k g, f ∈ l -> invalidate_fonts l fs !! f = Some F -> mCachedGlyphs F !! k = Some g -> mIsValid g = false) /\
  (forall f F, invalidate_fonts l fs !! f = Some F -> exists F0, fs !! f = Some F0 /\ invalidated F0 F).
Proof.
  revert fs. induction l as [|a l IH]; intros fs.
  - split; [done|]. split; [intros ? ? ? ? Hin; by apply elem_of_nil in Hin|]. intros f F Hf. exists F. split; [done|]. repeat split. auto.
  - destruct (IH (alter invalidateTextureCache a fs)) as (I1 & I2 & I3). fold (invalidate_fonts l (alter invalidateTextureCache a fs)).
    change (invalidate_fonts (a :: l) fs) with (invalidate_fonts l (alter invalidateTextureCache a fs)). split; [|split].
    + intros f. rewrite I1. destruct (decide (a = f)) as [->|Hne]; [rewrite lookup_alter_eq, fmap_is_Some; done|by rewrite lookup_alter_ne].
    + intros f F k g [->|Hin]%elem_of_cons Hf Hg; [|by eapply I2]. destruct (I3 _ _ Hf) as (F0 & Hf0 & _ & _ & Hgl).
      rewrite lookup_alter_eq in Hf0. destruct (fs !! a) as [F1|]; [|done]. injection Hf0 as <-. specialize (Hgl k). cbn in Hgl. rewrite lookup_fmap, Hg in Hgl.
      destruct (mCachedGlyphs F1 !! k) as [g1|]; cbn in Hgl; naive_solver.
    + intros f F Hf. destruct (I3 _ _ Hf) as (F0 & Hf0 & Hfc & Hin & Hgl). destruct (decide (a = f)) as [->|Hne]; [|rewrite lookup_alter_ne in Hf0 by done; by exists F0].
      rewrite lookup_alter_eq in Hf0. destruct (fs !! f) as [F1|] eqn:E1; [|done]. injection Hf0 as <-. exists F1. repeat (split; [done|]). intros k.
      specialize (Hgl k). cbn in Hgl. rewrite lookup_fmap in Hgl. right. destruct (mCachedGlyphs F1 !! k) as [g1|]; cbn in *; naive_solver.
Qed.

Lemma glyph_ok_invalid ls buf tex ls' buf' tex' fc k g : glyph_ok ls buf tex fc k g -> glyph_ok ls' buf' tex' fc k (set_valid false g).
Proof. intros [Hi Hg]. split; [done|]. cbn. destruct (FT_Load_Glyph fc (mGlyphIndex g)); [done|]. split; [done|by destruct Hg]. Qed.

Lemma lines_ok_flush ls : lines_ok ls -> lines_ok ((fun l => mkLine (mMaxHeight l) (mMaxWidth l) (mCurrentRow l) 0 (mDirty l)) <$> ls).
Proof. intros Hls. apply Forall2_fmap_l. eapply Forall2_impl; [exact Hls|]. intros l p (Hh & Hw & Hr & Hc). unfold line_ok. cbn. repeat split; try done; lia. Qed.

(** A flush draws what is pending, forgets every glyph and empties the lines. *)
Lemma flush_spec st :
  WF st -> WF (flushAllAndInvalidate true st) /\ rendered (flushAllAndInvalidate true st) = rendered st /\
  Forall (fun l => mCurrentCol l = 0) (mCacheLines (flushAllAndInvalidate true st)) /\
  (forall f F, fonts (flushAllAndInvalidate true st) !! f = Some F -> exists F0, fonts st !! f = Some F0 /\ invalidated F0 F) /\
  (forall f, is_Some (fonts (flushAllAndInvalidate true st) !! f) <-> is_Some (fonts st !! f)).
Proof.
  intros HW. set (st1 := if negb (mCurrentQuadIndex st =? 0) then reset_quads (issueDrawCommand true st) else st).
  assert (HW1 : WF st1 /\ rendered st1 = rendered st /\ mCurrentQuadIndex st1 = 0 /\ fonts st1 = fonts st).
  { subst st1. destruct (Z.eqb_spec (mCurrentQuadIndex st) 0); cbn [negb]; [done|]. split; [by apply WF_reset|]. split; [apply rendered_issue|done]. }
  destruct HW1 as (HW1 & Hr1 & Hq1 & Hf1). unfold flushAllAndInvalidate. fold st1. cbv zeta. fold (invalidate_fonts (mActiveFonts st1) (fonts st1)). clearbody st1.
  destruct (invalidate_fonts_spec (mActiveFonts st1) (fonts st1)) as (I1 & I2 & I3).
  assert (Hp : pending st1 = []) by (unfold pending; by rewrite Hq1). split; [|split; [|split; [|split]]].
  - destruct HW1 as [H1 H2 H3 H4 Hnd H5 H6 H7 H8]. split; cbn; try done.
    + by apply lines_ok_flush.
    + intros f. rewrite H5. symmetry. apply I1.
    + intros f F k g Hf Hg. destruct (I3 _ _ Hf) as (F0 & Hf0 & Hfc & _ & Hgl). rewrite Hfc.
      assert (Hact : f ∈ mActiveFonts st1) by (apply H5; by eexists). pose proof (I2 _ _ _ _ Hact Hf Hg) as Hinv. specialize (Hgl k). rewrite Hg in Hgl.
      destruct (mCachedGlyphs F0 !! k) as [g0|] eqn:Eg0; [|destruct Hgl; done]. pose proof (H6 _ _ _ _ Hf0 Eg0) as Hok.
      assert (g = set_valid false g0) as ->; [|by eapply glyph_ok_invalid]. destruct Hgl as [[= ->]|[= ->]]; [|done]. destruct g0; cbn in Hinv; by subst.
    + unfold pending. cbn. rewrite Hq1. constructor.
    + intros x y w h (i & l & Hi & _ & _ & Hx & Hw & Hxw) a b Ha. rewrite list_lookup_fmap in Hi. destruct (mCacheLines st1 !! i); [|done]. injection Hi as <-. cbn in Hxw. lia.
  - rewrite <- Hr1. unfold rendered. cbn. unfold pending. cbn. done.
  - cbn. apply Forall_fmap, Forall_true. done.
  - cbn. by rewrite <- Hf1.
  - cbn. rewrite <- Hf1. exact I1.
Qed.

(** Placing a bitmap in a line keeps everything that is in use. *)
Lemma place_spec st b x y ls :
  WF st -> bitmap_ok b -> fit_lines (mCacheLines st) b = Some (x, y, ls) ->
  exists buf, copy_bitmap b x y (mCacheBuffer st) = Ok buf /\ occupied ls x y (bm_width b) (bm_rows b) /\ holds buf x y b /\
    WF (set_buffers (set_lines st ls) buf buf) /\ rendered (set_buffers (set_lines st ls) buf buf) = rendered st.
Proof.
  intros HW Hb Hfit. destruct (fit_lines_spec _ _ _ _ _ (wf_lines _ HW) Hb Hfit) as (Hls & Hocc & Hx & Hxw & Hy & Hyh & Hkeep).
  destruct (copy_bitmap_spec b x y (mCacheBuffer st) Hb (wf_buffer _ HW) Hx Hxw Hy Hyh) as (buf & E & Hlen & Hh & Hout).
  assert (Hbuf : forall x0 y0 w0 h0, occupied (mCacheLines st) x0 y0 w0 h0 -> same_texels (mCacheBuffer st) buf x0 y0 w0 h0).
  { intros x0 y0 w0 h0 H0. destruct (occupied_range _ _ _ _ _ (wf_lines _ HW) H0) as (? & ? & ? & ? & ? & ?). apply Hout; [done..|]. by apply Hkeep. }
  assert (Htex : forall x0 y0 w0 h0, occupied (mCacheLines st) x0 y0 w0 h0 -> same_texels (mTexture st) buf x0 y0 w0 h0).
  { intros x0 y0 w0 h0 H0 i j Hi Hj. rewrite (Hbuf _ _ _ _ H0 i j Hi Hj). symmetry. by apply (wf_same _ HW _ _ _ _ H0). }
  exists buf. split; [done|]. split; [done|]. split; [done|]. destruct HW as [H1 H2 H3 H4 Hnd H5 H6 H7 H8]. split.
  - split; cbn; try done.
    + intros f F k g Hf Hg. eapply glyph_ok_keep; [|by eapply H6]. intros x0 y0 w0 h0 H0. split; [by apply Hkeep|]. split; [by apply Hbuf|by apply Htex].
    + eapply Forall_impl; [exact H7|]. intros q Hq. by apply Hkeep.
  - unfold rendered. cbn. f_equal. change (pending (set_buffers (set_lines st ls) buf buf)) with (pending st). apply list_fmap_ext. intros i q Hq. unfold quad_image. f_equal. apply region_same, Htex.
    rewrite Forall_forall in H7. apply H7. by eapply list_elem_of_lookup_2.
Qed.

(** Caching a bitmap: it is placed exactly if the cache can hold it, nothing on the screen
    changes, and the fonts are as before or invalidated. *)
Lemma cacheBitmap_spec st b :
  WF st -> bitmap_ok b -> exists r st', cacheBitmap true b st = Ok (r, st') /\ WF st' /\ rendered st' = rendered st /\
    (forall f F, fonts st' !! f = Some F -> exists F0, fonts st !! f = Some F0 /\ invalidated F0 F) /\ (forall f, is_Some (fonts st' !! f) <-> is_Some (fonts st !! f)) /\
    match r with
    | Some (x, y) => cacheable b = true /\ occupied (mCacheLines st') x y (bm_width b) (bm_rows b) /\ holds (mCacheBuffer st') x y b /\ holds (mTexture st') x y b
    | None => cacheable b = false
    end.
Proof.
  intros HW Hb. unfold cacheBitmap. destruct (Forall2_lookup_r _ _ _ 6%nat (88, 168) (wf_lines _ HW) eq_refl) as (l & Hl & Hlok & _).
  assert (zlen (mCacheLines st) = 7) as -> by (unfold zlen; rewrite (Forall2_length _ _ _ (wf_lines _ HW)); done).
  change (7 - 1) with (Z.of_nat 6). rewrite (znth_lookup _ _ _ Hl). cbn [mbind outcome_bind]. rewrite Hlok, u32_small by (destruct Hb; lia). cbn [fst].
  assert (Hsame : forall f F, fonts st !! f = Some F -> exists F0, fonts st !! f = Some F0 /\ invalidated F0 F) by (intros f F HF; exists F; split; [done|]; repeat split; auto).
  destruct (Z.gtb_spec (bm_rows b) 88) as [Hbig|Hsmall].
  { exists None, st. repeat (split; [done|]). unfold cacheable. lia. }
  assert (Hplaced : forall st0 x y ls, WF st0 -> fit_lines (mCacheLines st0) b = Some (x, y, ls) -> cacheable b = true).
  { intros st0 x y ls HW0 Hf. destruct (fit_lines_spec _ _ _ _ _ (wf_lines _ HW0) Hb Hf) as (_ & (i & l0 & Hi & _ & _ & Hx & _ & Hxw) & _). unfold cacheable.
    destruct (fit_lines_lookup _ _ _ _ _ Hf) as (i0 & l1 & l2 & Hi0 & Hfb & _). destruct (Forall2_lookup_l _ _ _ _ _ (wf_lines _ HW0) Hi0) as (p & _ & Hok).
    pose proof (fitBitmap_spec l1 p b Hok Hb) as Hs. rewrite Hfb in Hs. destruct Hs as (-> & _ & _ & Hw & _). destruct Hok as (_ & _ & _ & Hc). lia. }
  destruct (fit_lines (mCacheLines st) b) as [[[x y] ls]|] eqn:Ef.
  - destruct (place_spec st b x y ls HW Hb Ef) as (buf & E & Hocc & Hh & HW' & Hr). change (mCacheBuffer (set_lines st ls)) with (mCacheBuffer st). rewrite E. cbn [mbind outcome_bind].
    exists (Some (x, y)), (set_buffers (set_lines st ls) buf buf). split; [done|]. split; [done|]. split; [done|]. split; [exact Hsame|]. split; [done|]. split; [exact (Hplaced st x y ls HW Ef)|done].
  - destruct (flush_spec st HW) as (HW1 & Hr1 & H0 & Hf1 & Hd1). cbv zeta. set (st1 := flushAllAndInvalidate true st) in *. clearbody st1.
    destruct (fit_lines (mCacheLines st1) b) as [[[x y] ls]|] eqn:Ef1.
    + destruct (place_spec st1 b x y ls HW1 Hb Ef1) as (buf & E & Hocc & Hh & HW' & Hr). change (mCacheBuffer (set_lines st1 ls)) with (mCacheBuffer st1). rewrite E. cbn [mbind outcome_bind].
      exists (Some (x, y)), (set_buffers (set_lines st1 ls) buf buf). split; [done|]. split; [done|]. split; [by rewrite Hr|]. split; [exact Hf1|]. split; [exact Hd1|]. split; [exact (Hplaced st1 x y ls HW1 Ef1)|done].
    + exists None, st1. repeat (split; [done|]). destruct (cacheable b) eqn:Ec; [|done]. destruct (fit_lines_empty _ b (wf_lines _ HW1) Hb H0 Ec) as [r Er]. congruence.
Qed.

(** *** Glyphs *)

(** FreeType gives complete bitmaps of reasonable size. *)
Context (Hslot : forall fc i s, FT_Load_Glyph fc i = Some s -> bitmap_ok (slot_bitmap s)).

Definition put_glyph (st : FontState face) (f : positive) (F : Font face) (k : Z) (g : CachedGlyphInfo) : FontState face :=
  set_fonts st (<[f := set_glyphs F (<[k := g]> (mCachedGlyphs F))]> (fonts st)).

Lemma WF_put st f F k g :
  WF st -> fonts st !! f = Some F -> glyph_ok (mCacheLines st) (mCacheBuffer st) (mTexture st) (mFace F) k g -> WF (put_glyph st f F k g).
Proof.
  intros [H1 H2 H3 H4 Hnd H5 H6 H7 H8] HF Hg. split; cbn; try done.
  - intros f'. rewrite H5. destruct (decide (f = f')) as [<-|Hne]; [rewrite lookup_insert_eq, HF; split; intros _; by eexists|by rewrite lookup_insert_ne].
  - intros f' F' k' g' Hf' Hg'. destruct (decide (f = f')) as [<-|Hne]; [|rewrite lookup_insert_ne in Hf' by done; by eapply H6].
    rewrite lookup_insert_eq in Hf'. injection Hf' as <-. cbn in Hg'. cbn [mFace set_glyphs]. destruct (decide (k = k')) as [<-|Hk]; [rewrite lookup_insert_eq in Hg'; congruence|].
    rewrite lookup_insert_ne in Hg' by done. by eapply H6.
Qed.

Lemma upd_glyph_put st f F k g h : fonts st !! f = Some F -> mCachedGlyphs F !! k = Some g -> upd_glyph st f k h = Ok (put_glyph st f F k (h g)).
Proof. intros HF Hg. unfold upd_glyph, get_font. rewrite HF. cbn [of_option mbind outcome_bind]. rewrite Hg. done. Qed.

Lemma put_glyph_lookup st f F k g : fonts (put_glyph st f F k g) !! f = Some (set_glyphs F (<[k := g]> (mCachedGlyphs F))).
Proof. apply lookup_insert_eq. Qed.

(** The glyph of character [k] is known as FreeType describes it. *)
Definition known (fc : face) (k : Z) (g : CachedGlyphInfo) : Prop :=
  match FT_Load_Glyph fc (FT_Get_Char_Index fc k) with
  | None => mIsValid g = false /\ mAdvanceX g = 0
  | Some s => mIsValid g = cacheable (slot_bitmap s) /\ mAdvanceX g = advance_x s
  end.

Definition has_glyph (st : FontState face) (f : positive) (F : Font face) (k : Z) (g : CachedGlyphInfo) : Prop :=
  exists F', fonts st !! f = Some F' /\ mFace F' = mFace F /\ mInitialized F' = mInitialized F /\ mCachedGlyphs F' !! k = Some g.

Lemma updateGlyphCache_spec st f F k g :
  WF st -> fonts st !! f = Some F -> mCachedGlyphs F !! k = Some g -> mIsValid g = false ->
  exists st' g', updateGlyphCache true FT_Load_Glyph f k st = Ok st' /\ WF st' /\ rendered st' = rendered st /\ has_glyph st' f F k g' /\ known (mFace F) k g'.
Proof.
  intros HW HF Hg Hinv. unfold updateGlyphCache, get_glyph, get_font. rewrite HF. cbn [of_option mbind outcome_bind]. rewrite Hg. cbn [of_option mbind outcome_bind].
  destruct (wf_fonts _ HW _ _ _ _ HF Hg) as [Hidx Hok]. unfold known. rewrite <- Hidx. destruct (FT_Load_Glyph (mFace F) (mGlyphIndex g)) as [s|] eqn:Es.
  2: { exists st, g. repeat (split; [done|]). split; [by exists F|done]. }
  rewrite (upd_glyph_put st f F k g) by done. cbn [mbind outcome_bind]. set (st1 := put_glyph st f F k (set_slot s g)).
  assert (HW1 : WF st1) by (apply WF_put; [done|done|]; split; [done|]; cbn; rewrite Es, Hinv; done).
  destruct (cacheBitmap_spec st1 (slot_bitmap s) HW1 (Hslot _ _ _ Es)) as (r & st2 & E & HW2 & Hr2 & Hf2 & Hd2 & Hplace). rewrite E. cbn [mbind outcome_bind].
  destruct (proj2 (Hd2 f)) as [F2 HF2]; [unfold st1; rewrite put_glyph_lookup; by eexists|]. destruct (Hf2 _ _ HF2) as (F1 & HF1 & Hfc & Hini & Hgl). subst st1.
  rewrite put_glyph_lookup in HF1. injection HF1 as <-. specialize (Hgl k). cbn in Hgl. rewrite lookup_insert_eq in Hgl.
  assert (Hg2 : exists g2, mCachedGlyphs F2 !! k = Some g2 /\ mGlyphIndex g2 = mGlyphIndex g /\ mAdvanceX g2 = advance_x s /\ mBitmapLeft g2 = bitmap_left s /\ mBitmapTop g2 = bitmap_top s).
  { destruct Hgl as [Hgl|Hgl]; rewrite Hgl; eexists; cbn; repeat split. }
  destruct Hg2 as (g2 & Hg2 & Hi2 & Ha2 & Hl2 & Ht2). cbn in Hfc, Hini. pose proof (Hslot _ _ _ Es) as (Hw & Hh & _).
  destruct r as [[x y]|]; rewrite (upd_glyph_put st2 f F2 k g2) by done; (eexists; eexists; split; [reflexivity|]).
  - destruct Hplace as (Hc & Hocc & Hb & Ht). destruct (occupied_range _ _ _ _ _ (wf_lines _ HW2) Hocc) as (? & ? & ? & ? & ? & ?). rewrite !(u32_small (bm_width _)), !(u32_small (bm_rows _)) by lia. split; [|split; [|split]].
    + apply WF_put; [done|done|]. split; [cbn; congruence|]. cbn. rewrite Hi2, Hfc, Es. intros _. rewrite !u32_small by lia. done.
    + done.
    + eexists. rewrite put_glyph_lookup. split; [done|]. cbn. rewrite lookup_insert_eq. done.
    + cbn. by rewrite Hc.
  - split; [|split; [|split]].
    + apply WF_put; [done|done|]. split; [cbn; congruence|]. cbn. rewrite Hi2, Hfc, Es. done.
    + done.
    + eexists. rewrite put_glyph_lookup. split; [done|]. cbn. rewrite lookup_insert_eq. done.
    + cbn. by rewrite Hplace.
Qed.

Lemma getCachedUTFChar_spec st f F c :
  WF st -> fonts st !! f = Some F ->
  exists st' g, getCachedUTFChar true FT_Get_Char_Index FT_Load_Glyph f c st = Ok (g, st') /\ WF st' /\ rendered st' = rendered st /\
    has_glyph st' f F (u32 c) g /\ known (mFace F) (u32 c) g.
Proof.
  intros HW HF. unfold getCachedUTFChar, get_glyph, get_font. rewrite HF. cbn [of_option mbind outcome_bind]. set (k := u32 c).
  assert (Hc : exists st1 F1 g1, (match mCachedGlyphs F !! k with None => cacheGlyph true FT_Get_Char_Index FT_Load_Glyph f k st | Some _ => Ok st end) = Ok st1 /\
    WF st1 /\ rendered st1 = rendered st /\ fonts st1 !! f = Some F1 /\ mFace F1 = mFace F /\ mInitialized F1 = mInitialized F /\ mCachedGlyphs F1 !! k = Some g1).
  { destruct (mCachedGlyphs F !! k) as [g|] eqn:Eg; [by exists st, F, g|]. unfold cacheGlyph, get_font. rewrite HF. cbn [of_option mbind outcome_bind]. cbv zeta.
    set (g0 := set_index (FT_Get_Char_Index (mFace F) k) new_glyph). change (set_fonts st _) with (put_glyph st f F k g0).
    assert (HW0 : WF (put_glyph st f F k g0)) by (apply WF_put; [done|done|]; split; [done|]; cbn; destruct (FT_Load_Glyph _ _); done).
    destruct (updateGlyphCache_spec (put_glyph st f F k g0) f _ k g0 HW0 (put_glyph_lookup _ _ _ _ _)) as (st1 & g1 & E & HW1 & Hr1 & (F1 & HF1 & Hfc & Hini & Hg1) & _); [apply lookup_insert_eq|done|].
    exists st1, F1, g1. repeat (split; [done|]). done. }
  destruct Hc as (st1 & F1 & g1 & -> & HW1 & Hr1 & HF1 & Hfc & Hini & Hg1). cbn [mbind outcome_bind]. rewrite HF1. cbn [of_option mbind outcome_bind]. rewrite Hg1. cbn [of_option mbind outcome_bind].
  destruct (mIsValid g1) eqn:Ev; cbn [negb].
  - cbn [mbind outcome_bind]. rewrite HF1. cbn [of_option mbind outcome_bind]. rewrite Hg1. cbn [of_option mbind outcome_bind]. exists st1, g1. repeat (split; [done|]). split; [by exists F1|].
    destruct (wf_fonts _ HW1 _ _ _ _ HF1 Hg1) as [Hidx Hok]. rewrite <- Hfc. unfold known. rewrite <- Hidx. destruct (FT_Load_Glyph _ _) as [s|]; [|by destruct Hok; congruence].
    destruct (Hok Ev) as (Hca & Ha & _). split; [congruence|done].
  - destruct (updateGlyphCache_spec st1 f F1 k g1 HW1 HF1 Hg1 Ev) as (st2 & g2 & E & HW2 & Hr2 & (F2 & HF2 & Hfc2 & Hini2 & Hg2) & Hk). rewrite E. cbn [mbind outcome_bind]. rewrite HF2. cbn [of_option mbind outcome_bind].
    rewrite Hg2. cbn [of_option mbind outcome_bind]. exists st2, g2. split; [done|]. split; [done|]. split; [congruence|]. split; [exists F2; split; [done|]; split; [congruence|]; split; [congruence|done]|]. by rewrite <- Hfc.
Qed.

(** *** Text without a cache *)

(** The picture of a glyph at a pen position. *)
Definition slot_image (penX penY : Z) (s : GlyphSlot) : Image :=
  let b := slot_bitmap s in
  mkImage (s32 (penX + bitmap_left s)) (s32 (s32 (penY - bitmap_top s + bm_rows b) - s32 (bm_rows b))) (bm_width b) (bm_rows b) (bm_buffer b).

(** Glyphs off the surface are left out. *)
Definition off_surface (sw sh penX penY : Z) (s : GlyphSlot) : bool :=
  let x := s32 (penX + bitmap_left s) in
  let y := s32 (penY - bitmap_top s + bm_rows (slot_bitmap s)) in
  (x >? sw) || (y <? 0) || (s32 (x + s32 (bm_width (slot_bitmap s))) <? 0) || (s32 (y - s32 (bm_rows (slot_bitmap s))) >? sh).

(** A glyph copied into a bitmap of [bw] columns, clipped to it. *)
Definition blit (bw penX penY : Z) (s : GlyphSlot) (bitmap : list Z) : list Z :=
  let b := slot_bitmap s in
  imap (fun k v =>
    let i := Z.of_nat k mod bw - s32 (penX + bitmap_left s) in
    let j := Z.of_nat k / bw - s32 (penY + bitmap_top s) in
    if (0 <=? i) && (i <? bm_width b) && (0 <=? j) && (j <? bm_rows b) then nth (Z.to_nat (j * bm_width b + i)) (bm_buffer b) 0 else v) bitmap.

(** The bounds grown to contain a glyph. *)
Definition grow (penX penY : Z) (s : GlyphSlot) (r : Rect) : Rect :=
  let x := s32 (penX + bitmap_left s) in
  let y := s32 (penY - bitmap_top s + bm_rows (slot_bitmap s)) in
  mkRect (Z.min (left r) x) (Z.min (top r) (s32 (y - s32 (bm_rows (slot_bitmap s))))) (Z.max (right r) (s32 (x + s32 (bm_width (slot_bitmap s))))) (Z.max (bottom r) y).

Lemma drawCachedGlyph_quad_spec sw sh st f F k g s x y :
  WF st -> has_glyph st f F k g -> mIsValid g = true -> FT_Load_Glyph (mFace F) (FT_Get_Char_Index (mFace F) k) = Some s ->
  exists st', drawCachedGlyph_quad true sw sh g x y st = Ok st' /\ WF st' /\ fonts st' = fonts st /\
    rendered st' = rendered st ++ (if off_surface sw sh x y s then [] else [slot_image x y s]).
Proof.
  intros HW (F' & HF & Hfc & _ & Hg) Hv Hs. destruct (wf_fonts _ HW _ _ _ _ HF Hg) as [Hidx Hok]. rewrite Hfc in Hidx. rewrite Hfc, Hidx, Hs in Hok.
  destruct (Hok Hv) as (Hc & _ & Hl & Ht & Hw & Hh & Hmu & Hmv & HU & HV & Hocc & Hb & Htx). unfold drawCachedGlyph_quad. rewrite Hl, Ht, Hw, Hh. cbv zeta.
  set (q := mkQuad _ _ _ _). unfold appendMeshQuad. fold (off_surface sw sh x y s).
  assert (Hcull : (v_x (q1 q) >? sw) || (v_y (q1 q) <? 0) || (v_x (q2 q) <? 0) || (v_y (q4 q) >? sh) = off_surface sw sh x y s) by done. rewrite Hcull.
  destruct (off_surface sw sh x y s). { exists st. rewrite app_nil_r. done. }
  destruct (wf_mesh _ HW) as [Hlen Hq]. unfold zset. rewrite decide_True by lia. cbn [mbind outcome_bind].
  set (st1 := set_quads st (<[Z.to_nat (mCurrentQuadIndex st) := q]> (mTextMesh st)) (mCurrentQuadIndex st +u32 1) (drawn st)).
  assert (Hidx1 : mCurrentQuadIndex st1 = mCurrentQuadIndex st + 1) by (cbn; apply u32_small; lia).
  assert (Hp1 : pending st1 = pending st ++ [q]).
  { unfold pending. rewrite Hidx1. cbn [st1 mTextMesh set_quads]. replace (Z.to_nat (mCurrentQuadIndex st + 1)) with (S (Z.to_nat (mCurrentQuadIndex st))) by lia.
    erewrite take_S_r by (apply list_lookup_insert_eq; unfold zlen in Hlen; lia). by rewrite take_insert_ge by lia. }
  assert (Hqocc : quad_occupied (mCacheLines st) q).
  { unfold quad_occupied. cbn. rewrite HU, HV, Hmu, Hmv. replace (mBitmapMinX g + bm_width (slot_bitmap s) - mBitmapMinX g) with (bm_width (slot_bitmap s)) by lia.
    by replace (mBitmapMinY g + bm_rows (slot_bitmap s) - mBitmapMinY g) with (bm_rows (slot_bitmap s)) by lia. }
  assert (Hq_im : quad_image (mTexture st) q = slot_image x y s).
  { unfold quad_image, slot_image. cbn. rewrite HU, HV, Hmu, Hmv. replace (mBitmapMinX g + bm_width (slot_bitmap s) - mBitmapMinX g) with (bm_width (slot_bitmap s)) by lia.
    replace (mBitmapMinY g + bm_rows (slot_bitmap s) - mBitmapMinY g) with (bm_rows (slot_bitmap s)) by lia. by rewrite region_holds by (done || by eapply Hslot). }
  assert (Hr1 : rendered st1 = rendered st ++ [slot_image x y s]).
  { unfold rendered. rewrite Hp1, fmap_app. cbn [st1 mTexture drawn set_quads]. rewrite app_assoc. cbn [fmap list_fmap]. by rewrite Hq_im. }
  assert (Hwf1 : mCurrentQuadIndex st1 < 1024 -> WF st1).
  { destruct HW as [H1 H2 H3 H4 Hnd H5 H6 H7 H8]. intros Hlt. split; try done.
    - split; [cbn; unfold zlen in *; rewrite length_insert; lia|lia].
    - rewrite Hp1. apply Forall_app. split; [done|]. by constructor. }
  eexists. split; [reflexivity|]. fold st1. rewrite Hidx1. unfold mMaxNumberOfQuads. destruct (Z.eqb_spec (mCurrentQuadIndex st + 1) 1024) as [Hfull|Hroom].
  - split; [|split; [done|by rewrite rendered_issue]]. destruct HW as [H1 H2 H3 H4 Hnd H5 H6 H7 H8]. split; try done. split; [cbn; unfold zlen in *; rewrite length_insert; lia|cbn; lia].
  - split; [apply Hwf1; lia|]. split; done.
Qed.

Lemma cell_range X Y bw bh : 0 <= X < bw -> 0 <= Y < bh -> 0 <= Y * bw + X < bw * bh.
Proof. nia. Qed.

Lemma cell_inj X Y X' Y' bw : 0 <= X < bw -> 0 <= X' < bw -> Y * bw + X = Y' * bw + X' -> X = X' /\ Y = Y'.
Proof. intros HX HX' E. assert (Y = Y') as -> by (apply (Z.div_mod_unique bw Y Y' X X'); lia). lia. Qed.

Lemma drawCachedGlyph_bitmap_spec st f F k g s bw bh x y bitmap :
  WF st -> has_glyph st f F k g -> mIsValid g = true -> FT_Load_Glyph (mFace F) (FT_Get_Char_Index (mFace F) k) = Some s ->
  0 <= bw < 2147483648 -> 0 <= bh < 2147483648 -> bw * bh < 4294967296 -> zlen bitmap = bw * bh ->
  drawCachedGlyph_bitmap (mCacheBuffer st) bw bh g x y bitmap = Ok (blit bw x y s bitmap).
Proof.
  intros HW (F' & HF & Hfc & _ & Hg) Hv Hs Hbw Hbh Hprod Hlen. destruct (wf_fonts _ HW _ _ _ _ HF Hg) as [Hidx Hok]. rewrite Hfc in Hidx. rewrite Hfc, Hidx, Hs in Hok.
  destruct (Hok Hv) as (_ & _ & Hl & Ht & Hw & Hh & _ & _ & _ & _ & Hocc & Hb & _). destruct (occupied_range _ _ _ _ _ (wf_lines _ HW) Hocc) as (? & ? & ? & ? & ? & ?).
  unfold drawCachedGlyph_bitmap. rewrite Hl, Ht, Hw, Hh. cbv zeta. rewrite !(u32_small (_ + bm_width _)), !(u32_small (_ + bm_rows _)) by lia. rewrite !s32_small with (z := bw), !s32_small with (z := bh) by lia.
  replace (mBitmapMinX g + bm_width (slot_bitmap s) - mBitmapMinX g) with (bm_width (slot_bitmap s)) by lia.
  replace (mBitmapMinY g + bm_rows (slot_bitmap s) - mBitmapMinY g) with (bm_rows (slot_bitmap s)) by lia.
  set (nx := s32 (x + bitmap_left s)). set (ny := s32 (y + bitmap_top s)). set (b := slot_bitmap s) in *.
  set (skip := fun i j => (nx + i <? 0) || (ny + j <? 0) || (nx + i >=? bw) || (ny + j >=? bh)).
  assert (Hskip : forall i j, skip i j = false <-> 0 <= nx + i < bw /\ 0 <= ny + j < bh) by (intros; unfold skip; lia).
  destruct (loop_writes skip (fun i j => znth (mCacheBuffer st) (u32 ((mBitmapMinY g + j) * mCacheWidth + (mBitmapMinX g + i))))
    (fun i j => nth (Z.to_nat (j * bm_width b + i)) (bm_buffer b) 0) (fun i j => u32 ((ny + j) * bw + (nx + i)))
    (cells (bm_width b) (bm_rows b)) bitmap) as (bitmap' & E & Hl' & Hwr & Hout).
  - apply NoDup_cells.
  - intros i j [Hi Hj]%elem_of_cells Hsk%Hskip. destruct (Hb i j Hi Hj) as (c & Hc & Hc'). rewrite (nth_lookup_Some _ _ _ _ Hc'). pose proof (cell_range _ _ bw bh (proj1 Hsk) (proj2 Hsk)). split; [|rewrite u32_small by lia; lia].
    rewrite u32_small by (unfold mCacheWidth; lia). unfold znth. rewrite (wf_buffer _ HW), decide_True by (unfold mCacheWidth; lia). by unfold texel in Hc; unfold mCacheWidth; rewrite Hc.
  - intros i j i' j' _ _ [Hx Hy]%Hskip [Hx' Hy']%Hskip. pose proof (cell_range _ _ bw bh Hx Hy). pose proof (cell_range _ _ bw bh Hx' Hy'). rewrite !u32_small by lia. intros E.
    destruct (cell_inj _ _ _ _ bw Hx Hx' E). f_equal; lia.
  - etransitivity; [exact E|]. f_equal. apply list_eq. intros n. unfold blit. rewrite list_lookup_imap. fold b nx ny.
    destruct (decide (n < length bitmap)%nat) as [Hn|Hn]; [|rewrite !lookup_ge_None_2 by lia; done]. destruct (lookup_lt_is_Some_2 bitmap n Hn) as [v Hv']. rewrite Hv'. cbn [fmap option_fmap option_map].
    assert (Hbw0 : 0 < bw) by (unfold zlen in Hlen; nia). pose proof (Z.div_mod (Z.of_nat n) bw ltac:(lia)) as Hdm. pose proof (Z.mod_pos_bound (Z.of_nat n) bw Hbw0) as Hmb.
    assert (Hdiv : 0 <= Z.of_nat n / bw < bh) by (split; [apply Z.div_pos; lia|apply Z.div_lt_upper_bound; unfold zlen in Hlen; lia]).
    set (X := Z.of_nat n mod bw) in *. set (Y := Z.of_nat n / bw) in *.
    destruct ((0 <=? X - nx) && (X - nx <? bm_width b) && (0 <=? Y - ny) && (Y - ny <? bm_rows b)) eqn:Ein.
    + rewrite <- (Hwr (X - nx) (Y - ny)); [|apply elem_of_cells; lia|apply Hskip; lia]. f_equal. replace (ny + (Y - ny)) with Y by lia. replace (nx + (X - nx)) with X by lia. pose proof (cell_range X Y bw bh Hmb Hdiv). rewrite u32_small by lia. lia.
    + rewrite Hout; [done|]. intros i j [Hi Hj]%elem_of_cells [Hx Hy]%Hskip. pose proof (cell_range _ _ bw bh Hx Hy). rewrite u32_small by lia. intros Heq.
      destruct (cell_inj (nx + i) (ny + j) X Y bw Hx Hmb); lia.
Qed.

Lemma measureCachedGlyph_spec st f F k g s x y r :
  WF st -> has_glyph st f F k g -> mIsValid g = true -> FT_Load_Glyph (mFace F) (FT_Get_Char_Index (mFace F) k) = Some s ->
  measureCachedGlyph g x y r = grow x y s r.
Proof.
  intros HW (F' & HF & Hfc & _ & Hg) Hv Hs. destruct (wf_fonts _ HW _ _ _ _ HF Hg) as [Hidx Hok]. rewrite Hfc in Hidx. rewrite Hfc, Hidx, Hs in Hok.
  destruct (Hok Hv) as (_ & _ & Hl & Ht & Hw & Hh & _). unfold measureCachedGlyph, grow. rewrite Hl, Ht, Hw, Hh. cbv zeta.
  set (b := slot_bitmap s). set (nx := s32 (x + bitmap_left s)). set (ny := s32 (y - bitmap_top s + bm_rows b)).
  destruct r as [l0 t0 r0 b0]. cbn [left top right bottom].
  destruct (Z.ltb_spec b0 ny); cbn [left top right bottom]; (destruct (Z.gtb_spec l0 nx); cbn [left top right bottom]);
    (destruct (Z.ltb_spec r0 (s32 (nx + s32 (bm_width b)))); cbn [left top right bottom]); (destruct (Z.gtb_spec t0 (s32 (ny - s32 (bm_rows b))))); f_equal; lia.
Qed.

(** *** Text *)

Section text.
Context (utf32_from_utf8_at : list Z -> Z -> Z -> Z * Z).
Context (sw sh : Z) (mode : RenderMode) (bw bh : Z).

(** The glyphs of a text and where the pen is for each. *)
Fixpoint text_glyphs (fuel : nat) (fc : face) (text : list Z) (len numGlyphs index glyphsLeft penX : Z) : list (Z * GlyphSlot) :=
  match fuel with
  | O => []
  | S fuel =>
      if glyphsLeft >? 0 then
        let '(utfChar, nextIndex) := utf32_from_utf8_at text len index in
        if utfChar <? 0 then []
        else
          let rest adv := text_glyphs fuel fc text len numGlyphs nextIndex (if numGlyphs >? 0 then glyphsLeft - 1 else glyphsLeft) (s32 (penX + Z.shiftr adv 6)) in
          match FT_Load_Glyph fc (FT_Get_Char_Index fc (u32 utfChar)) with
          | Some s => (if cacheable (slot_bitmap s) then [(penX, s)] else []) ++ rest (advance_x s)
          | None => rest 0
          end
      else []
  end.

(** What drawing these glyphs one by one adds to the screen and does to the target. *)
Definition shown (penY : Z) (gs : list (Z * GlyphSlot)) : list Image :=
  '(x, s) ← gs; match mode with FRAMEBUFFER => if off_surface sw sh x penY s then [] else [slot_image x penY s] | _ => [] end.

Definition draw_on (penY : Z) (t : Target) (p : Z * GlyphSlot) : Target :=
  match mode with
  | FRAMEBUFFER => t
  | BITMAP => mkTarget (t_bounds t) (blit bw p.1 penY p.2 (t_bitmap t))
  | MEASURE => mkTarget (grow p.1 penY p.2 <$> t_bounds t) (t_bitmap t)
  end.

(** The target fits the mode. *)
Definition target_ok (t : Target) : Prop :=
  match mode with
  | FRAMEBUFFER => True
  | BITMAP => 0 <= bw < 2147483648 /\ 0 <= bh < 2147483648 /\ bw * bh < 4294967296 /\ zlen (t_bitmap t) = bw * bh
  | MEASURE => is_Some (t_bounds t)
  end.

Lemma target_ok_draw penY t p : target_ok t -> target_ok (draw_on penY t p).
Proof.
  unfold target_ok, draw_on. destruct mode; [done|..]; cbn.
  - intros (Hw & Hh & Hp & Hl). repeat (split; [done|]). unfold zlen, blit in *. by rewrite length_imap.
  - intros [b ->]. by eexists.
Qed.

Lemma draw_glyph_spec st f F k g s penX penY t :
  WF st -> has_glyph st f F k g -> mIsValid g = true -> FT_Load_Glyph (mFace F) (FT_Get_Char_Index (mFace F) k) = Some s -> target_ok t ->
  exists st', draw_glyph true sw sh mode bw bh g penX penY st t = Ok (st', draw_on penY t (penX, s)) /\ WF st' /\ fonts st' = fonts st /\
    rendered st' = rendered st ++ shown penY [(penX, s)].
Proof.
  intros HW Hg Hv Hs Ht. unfold draw_glyph, draw_on, shown. cbn [fst snd mbind list_bind]. unfold target_ok in Ht. destruct mode.
  - destruct (drawCachedGlyph_quad_spec sw sh st f F k g s penX penY HW Hg Hv Hs) as (st' & E & HW' & Hf & Hr). rewrite E. cbn [mbind outcome_bind]. exists st'. by rewrite app_nil_r.
  - destruct Ht as (Hw & Hh & Hp & Hl). rewrite (drawCachedGlyph_bitmap_spec st f F k g s) by done. exists st. by rewrite !app_nil_r.
  - destruct Ht as [b Hb]. rewrite Hb. cbn. rewrite (measureCachedGlyph_spec st f F k g s) by done. exists st. by rewrite !app_nil_r.
Qed.

(** UTF-8 decoding ends at the end of the text and moves on before it. *)
Context (Hend : forall text len i, len <= i -> (utf32_from_utf8_at text len i).1 < 0).
Context (Hnext : forall text len i, 0 <= (utf32_from_utf8_at text len i).1 -> i < (utf32_from_utf8_at text len i).2).

Lemma shown_app penY gs gs' : shown penY (gs ++ gs') = shown penY gs ++ shown penY gs'.
Proof. apply bind_app. Qed.

Lemma renderUTF_loop_spec fuel f F text len numGlyphs index glyphsLeft penX penY st t :
  WF st -> (exists F', fonts st !! f = Some F' /\ mFace F' = mFace F) -> target_ok t -> 0 <= index -> (Z.to_nat (len - index) < fuel)%nat ->
  let gs := text_glyphs fuel (mFace F) text len numGlyphs index glyphsLeft penX in
  exists st', renderUTF_loop true FT_Get_Char_Index FT_Load_Glyph utf32_from_utf8_at sw sh mode bw bh fuel f text len numGlyphs index glyphsLeft penX penY st t = Ok (st', foldl (draw_on penY) t gs) /\
    WF st' /\ rendered st' = rendered st ++ shown penY gs.
Proof.
  revert index glyphsLeft penX st t. induction fuel as [|fuel IH]; intros index glyphsLeft penX st t HW (F0 & HF & Hfc) Ht Hi Hfuel; [lia|]. cbn [renderUTF_loop text_glyphs].
  destruct (Z.gtb_spec glyphsLeft 0); [|exists st; cbn; by rewrite app_nil_r].
  pose proof (Hend text len index) as He. pose proof (Hnext text len index) as Hn. destruct (utf32_from_utf8_at text len index) as [c next]. cbn in He, Hn.
  destruct (Z.ltb_spec c 0); [exists st; cbn; by rewrite app_nil_r|]. assert (index < len) by (destruct (decide (len <= index)); [lia|lia]).
  specialize (Hn ltac:(lia)). destruct (getCachedUTFChar_spec st f F0 c HW HF) as (st1 & g & E & HW1 & Hr1 & Hg & Hk). rewrite E. cbn [mbind outcome_bind]. rewrite <- Hfc. unfold known in Hk.
  assert (Hfont : forall st2, fonts st2 = fonts st1 -> exists F', fonts st2 !! f = Some F' /\ mFace F' = mFace F) by (intros st2 ->; destruct Hg as (F' & HF' & Hfc' & _); exists F'; split; [done|congruence]).
  destruct (FT_Load_Glyph (mFace F0) (FT_Get_Char_Index (mFace F0) (u32 c))) as [s|] eqn:Es; destruct Hk as [Hv Ha]; rewrite Ha.
  - destruct (cacheable (slot_bitmap s)) eqn:Ec; rewrite Hv.
    + destruct (draw_glyph_spec st1 f F0 (u32 c) g s penX penY t HW1 Hg Hv Es Ht) as (st2 & E2 & HW2 & Hf2 & Hr2). rewrite E2. cbn [mbind outcome_bind].
      destruct (IH next (if numGlyphs >? 0 then glyphsLeft - 1 else glyphsLeft) (s32 (penX + Z.shiftr (advance_x s) 6)) st2 (draw_on penY t (penX, s)) HW2 (Hfont _ Hf2) (target_ok_draw _ _ _ Ht)) as (st' & E' & HW' & Hr'); [lia..|].
      rewrite Hfc. exists st'. split; [exact E'|]. split; [done|]. rewrite Hr', Hr2, Hr1, <- app_assoc, <- shown_app. done.
    + destruct (IH next (if numGlyphs >? 0 then glyphsLeft - 1 else glyphsLeft) (s32 (penX + Z.shiftr (advance_x s) 6)) st1 t HW1 (Hfont _ eq_refl) Ht) as (st' & E' & HW' & Hr'); [lia..|].
      rewrite Hfc. exists st'. split; [exact E'|]. split; [done|]. by rewrite Hr', Hr1.
  - rewrite Hv. destruct (IH next (if numGlyphs >? 0 then glyphsLeft - 1 else glyphsLeft) (s32 (penX + Z.shiftr 0 6)) st1 t HW1 (Hfont _ eq_refl) Ht) as (st' & E' & HW' & Hr'); [lia..|].
    rewrite Hfc. exists st'. split; [exact E'|]. split; [done|]. by rewrite Hr', Hr1.
Qed.

End text.

(** *** Fonts *)

Lemma initial_WF buf tex mesh : zlen buf = 262144 -> zlen tex = 262144 -> zlen mesh = 1024 -> WF (initial buf tex mesh).
Proof.
  intros Hb Ht Hm. split; cbn; try done.
  - apply initial_lines_ok.
  - constructor.
  - intros f. rewrite lookup_empty. split; [intros Hf; by apply elem_of_nil in Hf|intros [? ?]; done].
  - intros x y w h (i & l & Hi & _ & _ & Hx & Hw & Hxw) a b Ha. do 7 (destruct i as [|i]; [injection Hi as <-; cbn in Hxw; lia|]). done.
Qed.

Lemma add_font_WF st f fc : WF st -> fonts st !! f = None -> WF (add_font f fc st) /\ rendered (add_font f fc st) = rendered st.
Proof.
  intros [H1 H2 H3 H4 Hnd H5 H6 H7 H8] Hf. split; [|done]. split; cbn; try done.
  - apply NoDup_app. split; [done|]. split; [|apply NoDup_singleton]. intros f' Hf' ->%list_elem_of_singleton. apply H5 in Hf' as [? ?]. congruence.
  - intros f'. rewrite elem_of_app, H5, list_elem_of_singleton. destruct (decide (f' = f)) as [->|Hne]; [rewrite lookup_insert_eq; split; [by eexists|auto]|rewrite lookup_insert_ne by done; naive_solver].
  - intros f' F' k g HF' Hg. destruct (decide (f' = f)) as [->|Hne]; [rewrite lookup_insert_eq in HF'; injection HF' as <-; cbn in Hg; by rewrite lookup_empty in Hg|]. rewrite lookup_insert_ne in HF' by done. by eapply H6.
Qed.

Lemma remaining_Ok st : WF st -> exists r, getRemainingCacheCapacity st = Ok r.
Proof.
  intros HW. unfold getRemainingCacheCapacity. pose proof (wf_lines _ HW) as Hl. unfold lines_ok, layout in Hl.
  assert (Ht : foldl (fun a l => a +u32 mMaxWidth l) 0 (mCacheLines st) = 7168).
  { do 7 (apply Forall2_cons_inv_r in Hl as (? & ? & (_ & ? & _) & Hl & ->)). apply Forall2_nil_inv_r in Hl as ->. cbn [foldl]. repeat match goal with H : mMaxWidth _ = _ |- _ => rewrite H; clear H end. reflexivity. }
  cbv zeta. rewrite Ht. cbn [Z.eqb]. by eexists.
Qed.

Lemma precache_spec cs f F st :
  WF st -> fonts st !! f = Some F -> exists st' F', precache_loop true FT_Get_Char_Index FT_Load_Glyph f cs st = Ok st' /\ WF st' /\ rendered st' = rendered st /\
    fonts st' !! f = Some F' /\ mFace F' = mFace F /\ mInitialized F' = mInitialized F.
Proof.
  revert F st. induction cs as [|c cs IH]; intros F st HW HF; cbn [precache_loop]; [by exists st, F|].
  destruct (remaining_Ok st HW) as [r Er]. rewrite Er. cbn [mbind outcome_bind]. destruct (r >? 25); [|by exists st, F].
  destruct (getCachedUTFChar_spec st f F c HW HF) as (st1 & g & E & HW1 & Hr1 & (F1 & HF1 & Hfc & Hini & _) & _). rewrite E. cbn [mbind outcome_bind].
  destruct (IH F1 st1 HW1 HF1) as (st' & F' & E' & HW' & Hr' & HF' & Hfc' & Hini'). exists st', F'. split; [done|]. split; [done|]. split; [congruence|]. split; [done|]. split; congruence.
Qed.

(** Opening a font always succeeds, whatever glyphs it has. *)
Lemma create_spec st f fc :
  WF st -> fonts st !! f = None -> exists st' F, create true FT_Get_Char_Index FT_Load_Glyph f fc st = Ok st' /\ WF st' /\ rendered st' = rendered st /\
    fonts st' !! f = Some F /\ mFace F = fc /\ mInitialized F = true.
Proof.
  intros HW Hf. destruct (add_font_WF st f fc HW Hf) as [HW1 Hr1]. unfold create, precacheLatin. rewrite <- Hr1.
  apply (precache_spec _ f (mkFont fc true ∅)); [done|]. apply lookup_insert_eq.
Qed.

Lemma elem_of_remove_first f g l : NoDup l -> g ∈ remove_first f l <-> g ∈ l /\ g <> f.
Proof.
  induction 1 as [|a l Ha Hl IH]; cbn; [split; [intros Hg; by apply elem_of_nil in Hg|intros [Hg _]; by apply elem_of_nil in Hg]|].
  destruct (decide (a = f)) as [->|Hne]; [|rewrite !elem_of_cons, IH; naive_solver]. rewrite elem_of_cons. split; [intros Hg; split; [by right|congruence]|naive_solver].
Qed.

Lemma NoDup_remove_first f l : NoDup l -> NoDup (remove_first f l).
Proof.
  induction 1 as [|a l Ha Hl IH]; cbn; [constructor|]. destruct (decide (a = f)); [done|]. constructor; [|done]. by rewrite elem_of_remove_first by done; intros [? _].
Qed.

Lemma destroy_WF st f : WF st -> WF (destroy f st) /\ rendered (destroy f st) = rendered st.
Proof.
  intros [H1 H2 H3 H4 Hnd H5 H6 H7 H8]. split; [|done]. split; cbn; try done.
  - by apply NoDup_remove_first.
  - intros f'. rewrite elem_of_remove_first by done. rewrite H5. destruct (decide (f' = f)) as [->|Hne]; [rewrite lookup_delete_eq; split; [naive_solver|intros [? ?]; done]|rewrite lookup_delete_ne by done; naive_solver].
  - intros f' F' k g HF' Hg. apply lookup_delete_Some in HF' as [_ HF']. by eapply H6.
Qed.

(** *** A client *)

Section client.
Context (utf32_from_utf8_at : list Z -> Z -> Z -> Z * Z).
Context (Hend : forall text len i, len <= i -> (utf32_from_utf8_at text len i).1 < 0).
Context (Hnext : forall text len i, 0 <= (utf32_from_utf8_at text len i).1 -> i < (utf32_from_utf8_at text len i).2).

Definition text_of (fc : face) (text : list Z) (len x start numGlyphs : Z) : list (Z * GlyphSlot) :=
  text_glyphs utf32_from_utf8_at (S (Z.to_nat len)) fc text len numGlyphs start (if numGlyphs >? 0 then numGlyphs else 1) x.

(** The target as the drawing starts. *)
Definition start_target (mode : RenderMode) (t : Target) : Target :=
  match mode with MEASURE => mkTarget (Some (mkRect 1000000 1000000 (-1000000) (-1000000))) (t_bitmap t) | _ => t end.

Lemma renderText_spec sw sh mode bw bh st f F text len x y start numGlyphs t :
  WF st -> fonts st !! f = Some F -> mInitialized F = true -> target_ok mode bw bh t -> 0 <= start -> 0 < len -> numGlyphs <> 0 ->
  let gs := text_of (mFace F) text len x start numGlyphs in
  exists st', renderText true FT_Get_Char_Index FT_Load_Glyph utf32_from_utf8_at sw sh mode bw bh f (Some text) len x y start numGlyphs st t
                = Ok (st', foldl (draw_on mode bw y) (start_target mode t) gs) /\
    WF st' /\ mCurrentQuadIndex st' = 0 /\ rendered st' = rendered st ++ shown sw sh mode y gs.
Proof.
  intros HW HF Hini Ht Hstart Hlen Hn gs. unfold renderText, renderUTF, get_font. rewrite HF. cbn [of_option mbind outcome_bind]. rewrite Hini.
  destruct (Z.eqb_spec numGlyphs 0); [done|]. destruct (Z.eqb_spec len 0); [lia|]. cbn [negb orb]. cbv zeta.
  assert (Hok : target_ok mode bw bh (start_target mode t)) by (unfold target_ok, start_target in *; destruct mode; [done|done|by eexists]).
  destruct (renderUTF_loop_spec utf32_from_utf8_at sw sh mode bw bh Hend Hnext (S (Z.to_nat len)) f F text len numGlyphs start (if numGlyphs >? 0 then numGlyphs else 1) x y st (start_target mode t))
    as (st1 & E & HW1 & Hr1); [done|by exists F|done|done|lia|].
  assert (Hrun : forall (A B : outcome (FontState face * Target)), B = A ->
    match mode with
    | MEASURE => match t_bounds t with None => Ok (st, t) | Some _ => renderUTF_loop true FT_Get_Char_Index FT_Load_Glyph utf32_from_utf8_at sw sh mode bw bh (S (Z.to_nat len)) f text len numGlyphs start (if numGlyphs >? 0 then numGlyphs else 1) x y st (mkTarget (Some (mkRect 1000000 1000000 (-1000000) (-1000000))) (t_bitmap t)) end
    | _ => renderUTF_loop true FT_Get_Char_Index FT_Load_Glyph utf32_from_utf8_at sw sh mode bw bh (S (Z.to_nat len)) f text len numGlyphs start (if numGlyphs >? 0 then numGlyphs else 1) x y st t
    end = renderUTF_loop true FT_Get_Char_Index FT_Load_Glyph utf32_from_utf8_at sw sh mode bw bh (S (Z.to_nat len)) f text len numGlyphs start (if numGlyphs >? 0 then numGlyphs else 1) x y st (start_target mode t)).
  { intros _ _ _. unfold target_ok in Ht. destruct mode; [done|done|]. by destruct Ht as [b ->]. }
  rewrite (Hrun (Ok (st, t)) _ eq_refl), E. clear Hrun. cbn [mbind outcome_bind]. eexists. split; [reflexivity|].
  destruct (Z.eqb_spec (mCurrentQuadIndex st1) 0); cbn [negb]; [done|]. split; [by apply WF_reset|]. split; [done|]. by rewrite rendered_issue.
Qed.

(** The states a client can bring about. *)
Inductive reachable : FontState face -> Prop :=
| reach_init buf tex mesh : zlen buf = 262144 -> zlen tex = 262144 -> zlen mesh = 1024 -> reachable (initial buf tex mesh)
| reach_create st st' f fc : reachable st -> fonts st !! f = None -> create true FT_Get_Char_Index FT_Load_Glyph f fc st = Ok st' -> reachable st'
| reach_destroy st f : reachable st -> reachable (destroy f st)
| reach_render st st' sw sh mode bw bh f F text len x y start numGlyphs t t' :
    reachable st -> fonts st !! f = Some F -> mInitialized F = true -> target_ok mode bw bh t -> 0 <= start -> 0 < len -> numGlyphs <> 0 ->
    renderText true FT_Get_Char_Index FT_Load_Glyph utf32_from_utf8_at sw sh mode bw bh f (Some text) len x y start numGlyphs st t = Ok (st', t') -> reachable st'.

(** C18: drawing text through the glyph cache is drawing it without one.  In every state a client
    can reach - after any fonts opened and closed and any text drawn - drawing a text succeeds,
    and what appears on the screen, in the bitmap or in the bounds is what FreeType's bitmaps
    of its glyphs give one by one, however often the cache has been flushed; only glyphs taller
    than 88 or wider than 1023 pixels are missing. *)
Theorem renderText_transparent sw sh mode bw bh st f F text len x y start numGlyphs t :
  reachable st -> fonts st !! f = Some F -> mInitialized F = true -> target_ok mode bw bh t -> 0 <= start -> 0 < len -> numGlyphs <> 0 ->
  let gs := text_of (mFace F) text len x start numGlyphs in
  exists st', renderText true FT_Get_Char_Index FT_Load_Glyph utf32_from_utf8_at sw sh mode bw bh f (Some text) len x y start numGlyphs st t
                = Ok (st', foldl (draw_on mode bw y) (start_target mode t) gs) /\
    mCurrentQuadIndex st' = 0 /\ rendered st' = rendered st ++ shown sw sh mode y gs.
Proof.
  intros Hr HF Hini Ht Hs Hl Hn gs. assert (HW : WF st).
  { clear HF Hini. induction Hr as [buf tex mesh Hb Hx Hm|st st' f' fc Hr IH Hf E|st f' Hr IH|st st' sw' sh' mode' bw' bh' f' F' text' len' x' y' start' n' t1 t2 Hr IH HF' Hini' Ht' Hs' Hl' Hn' E].
    - by apply initial_WF.
    - destruct (create_spec st f' fc IH Hf) as (st1 & F1 & E1 & HW1 & _). congruence.
    - by apply destroy_WF.
    - destruct (renderText_spec sw' sh' mode' bw' bh' st f' F' text' len' x' y' start' n' t1 IH HF' Hini' Ht' Hs' Hl' Hn') as (st1 & E1 & HW1 & _). congruence. }
  destruct (renderText_spec sw sh mode bw bh st f F text len x y start numGlyphs t HW HF Hini Ht Hs Hl Hn) as (st' & E & _ & Hq & Hr'). by exists st'.
Qed.

End client.

End correct.

(** ** Example *)

Section example.

(** A font whose glyphs are single-coloured boxes, and plain bytes as characters. *)
Definition box_glyph (_ : unit) (i : Z) : option GlyphSlot :=
  if (33 <=? i) && (i <? 128) then Some (mkSlot ((i - 28) * 64) 0 1 (i - 30) (mkBitmap (i - 30) (i - 30) (replicate (Z.to_nat ((i - 30) * (i - 30))) i))) else None.
Definition byte_at (text : list Z) (len i : Z) : Z * Z :=
  if (0 <=? i) && (i <? len) then (u8 (nth (Z.to_nat i) text 0), i + 1) else (-1, i).

Lemma box_glyph_ok fc i s : box_glyph fc i = Some s -> bitmap_ok (slot_bitmap s).
Proof.
  unfold box_glyph. destruct ((33 <=? i) && (i <? 128)) eqn:E; [|done]. intros [= <-]. unfold bitmap_ok. cbn. rewrite zlen_replicate by nia. lia.
Qed.
Lemma byte_at_end text len i : len <= i -> (byte_at text len i).1 < 0.
Proof. intros Hi. unfold byte_at. destruct ((0 <=? i) && (i <? len)) eqn:E; [lia|done]. Qed.
Lemma byte_at_next text len i : 0 <= (byte_at text len i).1 -> i < (byte_at text len i).2.
Proof. unfold byte_at. destruct ((0 <=? i) && (i <? len)) eqn:E; cbn; lia. Qed.

Definition ex_state : FontState unit :=
  let v := mkVertex 0 0 0 0 in initial (replicate (Z.to_nat 262144) 0) (replicate (Z.to_nat 262144) 0) (replicate (Z.to_nat 1024) (mkQuad v v v v)).

Lemma renderText_transparent_witness :
  exists st st', create true (fun _ k => k) box_glyph 1%positive tt ex_state = Ok st /\
    renderText true (fun _ k => k) box_glyph byte_at 500 500 FRAMEBUFFER 0 0 1%positive (Some [36; 200; 35]) 3 10 20 0 (-1) st (mkTarget None [])
      = Ok (st', mkTarget None []) /\
    im_pixels <$> rendered st' = [replicate 36 36; replicate 25 35].
Proof.
  destruct (create_spec (fun _ k => k) box_glyph box_glyph_ok ex_state 1%positive tt) as (st & F & E & _ & Hr0 & HF & _ & Hini); [apply initial_WF; by apply zlen_replicate|done|]. exists st.
  destruct (renderText_transparent (fun _ k => k) box_glyph box_glyph_ok byte_at byte_at_end byte_at_next 500 500 FRAMEBUFFER 0 0 st 1%positive F [36; 200; 35] 3 10 20 0 (-1) (mkTarget None []))
    as (st' & E' & _ & Hr'); [apply (reach_create _ _ _ ex_state st 1%positive tt); [apply reach_init; by apply zlen_replicate|done|exact E]|done|done|done|lia|lia|lia|].
  exists st'. split; [done|]. split; [rewrite E'; reflexivity|]. rewrite Hr', Hr0. vm_compute. reflexivity.
Defined.

End example.

End FontCache.
