(* ===== verification/LoopFilter.v ===== *)
(** * LoopFilter: the edge filters of the VP9 loop filter

    [cpu_ref/rsCpuIntrinsicLoopFilter.cpp], the portable functions: the masks and the filters
    across one edge of 4, 8 or 16 pixels, the loops along an edge, and the functions that walk
    over the blocks of a 64 by 64 region as its bit masks say.  The frame is a memory of bytes
    by address, a pointer into it an address.  The pixels a filter reads and writes through
    its pointer arguments are the list it takes and the list it returns. *)

From S2P Require Import Prelude.

Module LoopFilter.

(** ** Pixels across an edge *)

Definition s8 (z : Z) : Z := swrap 8 z.

Definition clamp (amount low high : Z) : Z := if amount <? low then low else if amount >? high then high else amount.
Definition signed_char_clamp (t : Z) : Z := s8 (clamp t (-128) 127).
Definition ROUND_POWER_OF_TWO (value n : Z) : Z := Z.shiftr (value + Z.shiftl 1 (n - 1)) n.

(** [(a > b) * -1] *)
Definition above (a b : Z) : Z := if a >? b then -1 else 0.

Definition filter_mask (limit blimit p3 p2 p1 p0 q0 q1 q2 q3 : Z) : Z :=
  let mask := 0 in
  let mask := Z.lor mask (above (Z.abs (p3 - p2)) limit) in
  let mask := Z.lor mask (above (Z.abs (p2 - p1)) limit) in
  let mask := Z.lor mask (above (Z.abs (p1 - p0)) limit) in
  let mask := Z.lor mask (above (Z.abs (q1 - q0)) limit) in
  let mask := Z.lor mask (above (Z.abs (q2 - q1)) limit) in
  let mask := Z.lor mask (above (Z.abs (q3 - q2)) limit) in
  let mask := Z.lor mask (above (Z.abs (p0 - q0) * 2 + Z.abs (p1 - q1) / 2) blimit) in
  Z.lnot mask.

Definition flat_mask4 (thresh p3 p2 p1 p0 q0 q1 q2 q3 : Z) : Z :=
  let mask := 0 in
  let mask := Z.lor mask (above (Z.abs (p1 - p0)) thresh) in
  let mask := Z.lor mask (above (Z.abs (q1 - q0)) thresh) in
  let mask := Z.lor mask (above (Z.abs (p2 - p0)) thresh) in
  let mask := Z.lor mask (above (Z.abs (q2 - q0)) thresh) in
  let mask := Z.lor mask (above (Z.abs (p3 - p0)) thresh) in
  let mask := Z.lor mask (above (Z.abs (q3 - q0)) thresh) in
  Z.lnot mask.

Definition flat_mask5 (thresh p4 p3 p2 p1 p0 q0 q1 q2 q3 q4 : Z) : Z :=
  let mask := Z.lnot (flat_mask4 thresh p3 p2 p1 p0 q0 q1 q2 q3) in
  let mask := Z.lor mask (above (Z.abs (p4 - p0)) thresh) in
  let mask := Z.lor mask (above (Z.abs (q4 - q0)) thresh) in
  Z.lnot mask.

Definition hev_mask (thresh p1 p0 q0 q1 : Z) : Z :=
  let hev := 0 in
  let hev := Z.lor hev (above (Z.abs (p1 - p0)) thresh) in
  let hev := Z.lor hev (above (Z.abs (q1 - q0)) thresh) in
  hev.

Definition filter4 (mask thresh op1 op0 oq0 oq1 : Z) : list Z :=
  let ps1 := s8 (Z.lxor (s8 op1) 128) in
  let ps0 := s8 (Z.lxor (s8 op0) 128) in
  let qs0 := s8 (Z.lxor (s8 oq0) 128) in
  let qs1 := s8 (Z.lxor (s8 oq1) 128) in
  let hev := u8 (hev_mask thresh op1 op0 oq0 oq1) in
  let filter := s8 (Z.land (signed_char_clamp (ps1 - qs1)) hev) in
  let filter := s8 (Z.land (signed_char_clamp (filter + 3 * (qs0 - ps0))) mask) in
  let filter1 := s8 (Z.shiftr (signed_char_clamp (filter + 4)) 3) in
  let filter2 := s8 (Z.shiftr (signed_char_clamp (filter + 3)) 3) in
  let oq0' := u8 (Z.lxor (signed_char_clamp (qs0 - filter1)) 128) in
  let op0' := u8 (Z.lxor (signed_char_clamp (ps0 + filter2)) 128) in
  let filter := s8 (Z.land (ROUND_POWER_OF_TWO filter1 1) (Z.lnot hev)) in
  let oq1' := u8 (Z.lxor (signed_char_clamp (qs1 - filter)) 128) in
  let op1' := u8 (Z.lxor (signed_char_clamp (ps1 + filter)) 128) in
  [op1'; op0'; oq0'; oq1'].

Definition filter8 (mask thresh flat p3 p2 p1 p0 q0 q1 q2 q3 : Z) : list Z :=
  if negb (flat =? 0) && negb (mask =? 0) then
    [p3;
     u8 (ROUND_POWER_OF_TWO (p3 + p3 + p3 + 2 * p2 + p1 + p0 + q0) 3);
     u8 (ROUND_POWER_OF_TWO (p3 + p3 + p2 + 2 * p1 + p0 + q0 + q1) 3);
     u8 (ROUND_POWER_OF_TWO (p3 + p2 + p1 + 2 * p0 + q0 + q1 + q2) 3);
     u8 (ROUND_POWER_OF_TWO (p2 + p1 + p0 + 2 * q0 + q1 + q2 + q3) 3);
     u8 (ROUND_POWER_OF_TWO (p1 + p0 + q0 + 2 * q1 + q2 + q3 + q3) 3);
     u8 (ROUND_POWER_OF_TWO (p0 + q0 + q1 + 2 * q2 + q3 + q3 + q3) 3);
     q3]
  else [p3; p2] ++ filter4 mask thresh p1 p0 q0 q1 ++ [q2; q3].

Definition filter16 (mask thresh flat flat2 p7 p6 p5 p4 p3 p2 p1 p0 q0 q1 q2 q3 q4 q5 q6 q7 : Z) : list Z :=
  if negb (flat2 =? 0) && negb (flat =? 0) && negb (mask =? 0) then
    [p7;
     u8 (ROUND_POWER_OF_TWO (p7 * 7 + p6 * 2 + p5 + p4 + p3 + p2 + p1 + p0 + q0) 4);
     u8 (ROUND_POWER_OF_TWO (p7 * 6 + p6 + p5 * 2 + p4 + p3 + p2 + p1 + p0 + q0 + q1) 4);
     u8 (ROUND_POWER_OF_TWO (p7 * 5 + p6 + p5 + p4 * 2 + p3 + p2 + p1 + p0 + q0 + q1 + q2) 4);
     u8 (ROUND_POWER_OF_TWO (p7 * 4 + p6 + p5 + p4 + p3 * 2 + p2 + p1 + p0 + q0 + q1 + q2 + q3) 4);
     u8 (ROUND_POWER_OF_TWO (p7 * 3 + p6 + p5 + p4 + p3 + p2 * 2 + p1 + p0 + q0 + q1 + q2 + q3 + q4) 4);
     u8 (ROUND_POWER_OF_TWO (p7 * 2 + p6 + p5 + p4 + p3 + p2 + p1 * 2 + p0 + q0 + q1 + q2 + q3 + q4 + q5) 4);
     u8 (ROUND_POWER_OF_TWO (p7 + p6 + p5 + p4 + p3 + p2 + p1 + p0 * 2 + q0 + q1 + q2 + q3 + q4 + q5 + q6) 4);
     u8 (ROUND_POWER_OF_TWO (p6 + p5 + p4 + p3 + p2 + p1 + p0 + q0 * 2 + q1 + q2 + q3 + q4 + q5 + q6 + q7) 4);
     u8 (ROUND_POWER_OF_TWO (p5 + p4 + p3 + p2 + p1 + p0 + q0 + q1 * 2 + q2 + q3 + q4 + q5 + q6 + q7 * 2) 4);
     u8 (ROUND_POWER_OF_TWO (p4 + p3 + p2 + p1 + p0 + q0 + q1 + q2 * 2 + q3 + q4 + q5 + q6 + q7 * 3) 4);
     u8 (ROUND_POWER_OF_TWO (p3 + p2 + p1 + p0 + q0 + q1 + q2 + q3 * 2 + q4 + q5 + q6 + q7 * 4) 4);
     u8 (ROUND_POWER_OF_TWO (p2 + p1 + p0 + q0 + q1 + q2 + q3 + q4 * 2 + q5 + q6 + q7 * 5) 4);
     u8 (ROUND_POWER_OF_TWO (p1 + p0 + q0 + q1 + q2 + q3 + q4 + q5 * 2 + q6 + q7 * 6) 4);
     u8 (ROUND_POWER_OF_TWO (p0 + q0 + q1 + q2 + q3 + q4 + q5 + q6 * 2 + q7 * 7) 4);
     q7]
  else [p7; p6; p5; p4] ++ filter8 mask thresh flat p3 p2 p1 p0 q0 q1 q2 q3 ++ [q4; q5; q6; q7].

(** ** Memory *)

Definition mem : Type := Z -> Z.
Definition upd (m : mem) (a v : Z) : mem := fun b => if b =? a then v else m b.

(** The pixels [s[k * p]], [s[(k + 1) * p]], ...: read, and written. *)
Definition gather (m : mem) (s p k : Z) (n : nat) : list Z := (fun i => m (s + (k + Z.of_nat i) * p)) <$> seq 0 n.
Fixpoint scatter (m : mem) (s p k : Z) (vs : list Z) : mem :=
  match vs with
  | [] => m
  | v :: vs => scatter (upd m (s + k * p) v) s p (k + 1) vs
  end.

(** What one position of an edge does to the pixels across it. *)
Definition taps4 (blimit limit thresh : Z) (l : list Z) : list Z :=
  match l with
  | [p3; p2; p1; p0; q0; q1; q2; q3] =>
      let mask := filter_mask limit blimit p3 p2 p1 p0 q0 q1 q2 q3 in
      filter4 mask thresh p1 p0 q0 q1
  | _ => []
  end.

Definition taps8 (blimit limit thresh : Z) (l : list Z) : list Z :=
  match l with
  | [p3; p2; p1; p0; q0; q1; q2; q3] =>
      let mask := filter_mask limit blimit p3 p2 p1 p0 q0 q1 q2 q3 in
      let flat := flat_mask4 1 p3 p2 p1 p0 q0 q1 q2 q3 in
      filter8 mask thresh (u8 flat) p3 p2 p1 p0 q0 q1 q2 q3
  | _ => []
  end.

Definition taps16 (blimit limit thresh : Z) (l : list Z) : list Z :=
  match l with
  | [p7; p6; p5; p4; p3; p2; p1; p0; q0; q1; q2; q3; q4; q5; q6; q7] =>
      let mask := filter_mask limit blimit p3 p2 p1 p0 q0 q1 q2 q3 in
      let flat := flat_mask4 1 p3 p2 p1 p0 q0 q1 q2 q3 in
      let flat2 := flat_mask5 1 p7 p6 p5 p4 p0 q0 q4 q5 q6 q7 in
      filter16 mask thresh (u8 flat) (u8 flat2) p7 p6 p5 p4 p3 p2 p1 p0 q0 q1 q2 q3 q4 q5 q6 q7
  | _ => []
  end.

(** One position of an edge in memory; [p] is the step across it. *)
Definition edge4 (blimit limit thresh p s : Z) (m : mem) : mem := scatter m s p (-2) (taps4 blimit limit thresh (gather m s p (-4) 8)).
Definition edge8 (blimit limit thresh p s : Z) (m : mem) : mem := scatter m s p (-4) (taps8 blimit limit thresh (gather m s p (-4) 8)).
Definition edge16 (blimit limit thresh p s : Z) (m : mem) : mem := scatter m s p (-8) (taps16 blimit limit thresh (gather m s p (-8) 16)).

(** The loop along an edge; [step] is what the pointer advances by. *)
Fixpoint along (n : nat) (body : Z -> mem -> mem) (step s : Z) (m : mem) : mem :=
  match n with
  | O => m
  | S n => along n body step (s + step) (body s m)
  end.

(** ** Thresholds *)

(** The arrays of a level; the portable filters read their first bytes. *)
Record LoopFilterThresh := mkThresh { mblim : list Z; lim : list Z; hev_thr : list Z }.
Definition first (l : list Z) : Z := nth 0 l 0.

Definition vp9_lpf_horizontal_4 (s p : Z) (t : LoopFilterThresh) (count : Z) : mem -> mem :=
  along (Z.to_nat (8 * count)) (edge4 (first (mblim t)) (first (lim t)) (first (hev_thr t)) p) 1 s.
Definition vp9_lpf_horizontal_4_dual (s p : Z) (t0 t1 : LoopFilterThresh) (m : mem) : mem :=
  vp9_lpf_horizontal_4 (s + 8) p t1 1 (vp9_lpf_horizontal_4 s p t0 1 m).
Definition vp9_lpf_vertical_4 (s pitch : Z) (t : LoopFilterThresh) (count : Z) : mem -> mem :=
  along (Z.to_nat (8 * count)) (edge4 (first (mblim t)) (first (lim t)) (first (hev_thr t)) 1) pitch s.
Definition vp9_lpf_vertical_4_dual (s pitch : Z) (t0 t1 : LoopFilterThresh) (m : mem) : mem :=
  vp9_lpf_vertical_4 (s + 8 * pitch) pitch t1 1 (vp9_lpf_vertical_4 s pitch t0 1 m).

Definition vp9_lpf_horizontal_8 (s p : Z) (t : LoopFilterThresh) (count : Z) : mem -> mem :=
  along (Z.to_nat (8 * count)) (edge8 (first (mblim t)) (first (lim t)) (first (hev_thr t)) p) 1 s.
Definition vp9_lpf_horizontal_8_dual (s p : Z) (t0 t1 : LoopFilterThresh) (m : mem) : mem :=
  vp9_lpf_horizontal_8 (s + 8) p t1 1 (vp9_lpf_horizontal_8 s p t0 1 m).
Definition vp9_lpf_vertical_8 (s pitch : Z) (t : LoopFilterThresh) (count : Z) : mem -> mem :=
  along (Z.to_nat (8 * count)) (edge8 (first (mblim t)) (first (lim t)) (first (hev_thr t)) 1) pitch s.
Definition vp9_lpf_vertical_8_dual (s pitch : Z) (t0 t1 : LoopFilterThresh) (m : mem) : mem :=
  vp9_lpf_vertical_8 (s + 8 * pitch) pitch t1 1 (vp9_lpf_vertical_8 s pitch t0 1 m).

Definition vp9_lpf_horizontal_16 (s p : Z) (t : LoopFilterThresh) (count : Z) : mem -> mem :=
  along (Z.to_nat (8 * count)) (edge16 (first (mblim t)) (first (lim t)) (first (hev_thr t)) p) 1 s.
Definition mb_lpf_vertical_edge_w (s p : Z) (t : LoopFilterThresh) (count : Z) : mem -> mem :=
  along (Z.to_nat count) (edge16 (first (mblim t)) (first (lim t)) (first (hev_thr t)) 1) p s.
Definition vp9_lpf_vertical_16 (s p : Z) (t : LoopFilterThresh) : mem -> mem := mb_lpf_vertical_edge_w s p t 8.
Definition vp9_lpf_vertical_16_dual (s p : Z) (t : LoopFilterThresh) : mem -> mem := mb_lpf_vertical_edge_w s p t 16.

(** ** Blocks of a row *)

Inductive PLANE_TYPE := PLANE_TYPE_Y_WITH_DC | PLANE_TYPE_UV.

(** The four masks that the loops shift together. *)
Record masks := mkMasks { mask_16x16 : Z; mask_8x8 : Z; mask_4x4 : Z; mask_4x4_int : Z }.
Definition map_masks (f : Z -> Z) (k : masks) : masks := mkMasks (f (mask_16x16 k)) (f (mask_8x8 k)) (f (mask_4x4 k)) (f (mask_4x4_int k)).
Definition any (k : masks) : Z := Z.lor (Z.lor (Z.lor (mask_16x16 k) (mask_8x8 k)) (mask_4x4 k)) (mask_4x4_int k).

Definition bit0 (x : Z) : bool := negb (Z.land x 1 =? 0).

Section levels.
Context (lfthr : list LoopFilterThresh).

(** [lfi_n->lfthr + lfl[i]] *)
Definition thr (lfl : list Z) (i : Z) : LoopFilterThresh := nth (Z.to_nat (nth (Z.to_nat i) lfl 0)) lfthr (mkThresh [] [] []).

(** A filter of one kind for two rows of blocks: both, the first or the second. *)
Definition two_rows (b0 b1 : bool) (dual single0 single1 : mem -> mem) (m : mem) : mem :=
  if b0 || b1 then (if b0 && b1 then dual m else if b0 then single0 m else single1 m) else m.

Definition vert_row2_block (s pitch : Z) (k0 k1 : masks) (lfi0 lfi1 : LoopFilterThresh) (m : mem) : mem :=
  let m := two_rows (bit0 (mask_16x16 k0)) (bit0 (mask_16x16 k1))
             (vp9_lpf_vertical_16_dual s pitch lfi0) (vp9_lpf_vertical_16 s pitch lfi0) (vp9_lpf_vertical_16 (s + 8 * pitch) pitch lfi1) m in
  let m := two_rows (bit0 (mask_8x8 k0)) (bit0 (mask_8x8 k1))
             (vp9_lpf_vertical_8_dual s pitch lfi0 lfi1) (vp9_lpf_vertical_8 s pitch lfi0 1) (vp9_lpf_vertical_8 (s + 8 * pitch) pitch lfi1 1) m in
  let m := two_rows (bit0 (mask_4x4 k0)) (bit0 (mask_4x4 k1))
             (vp9_lpf_vertical_4_dual s pitch lfi0 lfi1) (vp9_lpf_vertical_4 s pitch lfi0 1) (vp9_lpf_vertical_4 (s + 8 * pitch) pitch lfi1 1) m in
  two_rows (bit0 (mask_4x4_int k0)) (bit0 (mask_4x4_int k1))
    (vp9_lpf_vertical_4_dual (s + 4) pitch lfi0 lfi1) (vp9_lpf_vertical_4 (s + 4) pitch lfi0 1) (vp9_lpf_vertical_4 (s + 8 * pitch + 4) pitch lfi1 1) m.

(** The loop; [mask] is shifted like the masks it was made of, and [fuel] bounds its bits. *)
Fixpoint vert_row2_loop (fuel : nat) (s pitch mask : Z) (k0 k1 : masks) (lfl : list Z) (forward : Z) (i : Z) (m : mem) : mem :=
  match fuel with
  | O => m
  | S fuel =>
      if mask =? 0 then m
      else
        let m := if bit0 mask then vert_row2_block s pitch k0 k1 (thr lfl i) (thr lfl (i + forward)) m else m in
        vert_row2_loop fuel (s + 8) pitch (Z.shiftr mask 1) (map_masks (fun x => Z.shiftr x 1) k0) (map_masks (fun x => Z.shiftr x 1) k1) lfl forward (i + 1) m
  end.

(** Iterations enough for a mask. *)
Definition bits (mask : Z) : nat := S (Z.to_nat (Z.log2 mask)).

Definition filter_selectively_vert_row2 (plane_type : PLANE_TYPE) (s pitch : Z) (k : masks) (lfl : list Z) (i : Z) (m : mem) : mem :=
  let mask_shift := match plane_type with PLANE_TYPE_UV => 4 | _ => 8 end in
  let mask_cutoff := match plane_type with PLANE_TYPE_UV => 15 | _ => 255 end in
  let lfl_forward := match plane_type with PLANE_TYPE_UV => 4 | _ => 8 end in
  let k0 := map_masks (fun x => Z.land x mask_cutoff) k in
  let k1 := map_masks (fun x => Z.land (Z.shiftr x mask_shift) mask_cutoff) k in
  let mask := Z.lor (any k0) (any k1) in
  vert_row2_loop (bits mask) s pitch mask k0 k1 lfl lfl_forward i m.

(** What an iteration of the horizontal pass does, and how many blocks it has handled. *)
Definition horiz_block (s pitch : Z) (k : masks) (lfl : list Z) (i : Z) (m : mem) : mem * Z :=
  let lfi := thr lfl i in
  let lfin := thr lfl (i + 1) in
  let int_pair m :=
    if Z.land (mask_4x4_int k) 3 =? 3 then vp9_lpf_horizontal_4_dual (s + 4 * pitch) pitch lfi lfin m
    else if bit0 (mask_4x4_int k) then vp9_lpf_horizontal_4 (s + 4 * pitch) pitch lfi 1 m
    else if negb (Z.land (mask_4x4_int k) 2 =? 0) then vp9_lpf_horizontal_4 (s + 8 + 4 * pitch) pitch lfin 1 m
    else m in
  let int_single m := if bit0 (mask_4x4_int k) then vp9_lpf_horizontal_4 (s + 4 * pitch) pitch lfi 1 m else m in
  if bit0 (mask_16x16 k) then
    if Z.land (mask_16x16 k) 3 =? 3 then (vp9_lpf_horizontal_16 s pitch lfi 2 m, 2)
    else (vp9_lpf_horizontal_16 s pitch lfi 1 m, 1)
  else if bit0 (mask_8x8 k) then
    if Z.land (mask_8x8 k) 3 =? 3 then (int_pair (vp9_lpf_horizontal_8_dual s pitch lfi lfin m), 2)
    else (int_single (vp9_lpf_horizontal_8 s pitch lfi 1 m), 1)
  else if bit0 (mask_4x4 k) then
    if Z.land (mask_4x4 k) 3 =? 3 then (int_pair (vp9_lpf_horizontal_4_dual s pitch lfi lfin m), 2)
    else (int_single (vp9_lpf_horizontal_4 s pitch lfi 1 m), 1)
  else (int_single m, 1).

Fixpoint horiz_loop (fuel : nat) (s pitch mask : Z) (k : masks) (lfl : list Z) (i : Z) (m : mem) : mem :=
  match fuel with
  | O => m
  | S fuel =>
      if mask =? 0 then m
      else
        let '(m, count) := if bit0 mask then horiz_block s pitch k lfl i m else (m, 1) in
        horiz_loop fuel (s + 8 * count) pitch (Z.shiftr mask count) (map_masks (fun x => Z.shiftr x count) k) lfl (i + count) m
  end.

Definition filter_selectively_horiz (s pitch : Z) (k : masks) (lfl : list Z) (i : Z) (m : mem) : mem :=
  horiz_loop (bits (any k)) s pitch (any k) k lfl i m.

(** ** A 64 by 64 region *)

Definition TX_4X4 : nat := 0.
Definition TX_8X8 : nat := 1.
Definition TX_16X16 : nat := 2.
Definition MI_BLOCK_SIZE : Z := 8.

Record LoopFilterMask := mkLfm {
  left_y : list Z; above_y : list Z; int_4x4_y : Z;
  left_uv : list Z; above_uv : list Z; int_4x4_uv : Z;
  lfl_y : list Z; lfl_uv : list Z
}.

Definition tx_masks (l : list Z) (int_4x4 : Z) : masks := mkMasks (nth TX_16X16 l 0) (nth TX_8X8 l 0) (nth TX_4X4 l 0) int_4x4.

(** The loop over [r] of a vertical pass, [step] rows of mode info at a time. *)
Fixpoint y_vertical (n : nat) (r mi_row mi_rows stride buf : Z) (k : masks) (lfl : list Z) (m : mem) : mem :=
  match n with
  | O => m
  | S n =>
      if (r <? MI_BLOCK_SIZE) && (mi_row + r <? mi_rows) then
        let m := filter_selectively_vert_row2 PLANE_TYPE_Y_WITH_DC buf stride (map_masks (fun x => Z.land x 65535) k) lfl (Z.shiftl r 3) m in
        y_vertical n (r + 2) mi_row mi_rows stride (buf + 16 * stride) (map_masks (fun x => Z.shiftr x 16) k) lfl m
      else m
  end.

(** The masks of a row of the horizontal pass: none across the top edge of the frame. *)
Definition row_masks (cutoff : Z) (first_row : bool) (k : masks) (int_4x4 : Z) : masks :=
  if first_row then mkMasks 0 0 0 int_4x4
  else mkMasks (Z.land (mask_16x16 k) cutoff) (Z.land (mask_8x8 k) cutoff) (Z.land (mask_4x4 k) cutoff) int_4x4.

Fixpoint y_horizontal (n : nat) (r mi_row mi_rows stride buf : Z) (k : masks) (lfl : list Z) (m : mem) : mem :=
  match n with
  | O => m
  | S n =>
      if (r <? MI_BLOCK_SIZE) && (mi_row + r <? mi_rows) then
        let m := filter_selectively_horiz buf stride (row_masks 255 (mi_row + r =? 0) k (Z.land (mask_4x4_int k) 255)) lfl (Z.shiftl r 3) m in
        y_horizontal n (r + 1) mi_row mi_rows stride (buf + 8 * stride) (map_masks (fun x => Z.shiftr x 8) k) lfl m
      else m
  end.

Definition filter_block_plane_y (lfm : LoopFilterMask) (stride buf mi_rows mi_row : Z) (m : mem) : mem :=
  let m := y_vertical 4 0 mi_row mi_rows stride buf (tx_masks (left_y lfm) (int_4x4_y lfm)) (lfl_y lfm) m in
  y_horizontal 8 0 mi_row mi_rows stride buf (tx_masks (above_y lfm) (int_4x4_y lfm)) (lfl_y lfm) m.

(** The levels of the chroma planes are taken from every second level of every second row. *)
Definition copy_levels (r : Z) (lfl_y lfl_uv : list Z) : list Z :=
  foldl (fun uv c =>
    let c := Z.of_nat c in
    let uv := <[Z.to_nat (Z.shiftl r 1 + c) := nth (Z.to_nat (Z.shiftl r 3 + Z.shiftl c 1)) lfl_y 0]> uv in
    <[Z.to_nat (Z.shiftl (r + 2) 1 + c) := nth (Z.to_nat (Z.shiftl (r + 2) 3 + Z.shiftl c 1)) lfl_y 0]> uv)
    lfl_uv (seq 0 4).

Fixpoint uv_vertical (n : nat) (r mi_row mi_rows stride buf : Z) (k : masks) (lfl_y lfl_uv : list Z) (m : mem) : list Z * mem :=
  match n with
  | O => (lfl_uv, m)
  | S n =>
      if (r <? MI_BLOCK_SIZE) && (mi_row + r <? mi_rows) then
        let lfl_uv := copy_levels r lfl_y lfl_uv in
        let m := filter_selectively_vert_row2 PLANE_TYPE_UV buf stride (map_masks (fun x => Z.land x 255) k) lfl_uv (Z.shiftl r 1) m in
        uv_vertical n (r + 4) mi_row mi_rows stride (buf + 16 * stride) (map_masks (fun x => Z.shiftr x 8) k) lfl_y lfl_uv m
      else (lfl_uv, m)
  end.

Fixpoint uv_horizontal (n : nat) (r mi_row mi_rows stride buf : Z) (k : masks) (lfl_uv : list Z) (m : mem) : mem :=
  match n with
  | O => m
  | S n =>
      if (r <? MI_BLOCK_SIZE) && (mi_row + r <? mi_rows) then
        let mask_4x4_int_r := if mi_row + r =? mi_rows - 1 then 0 else Z.land (mask_4x4_int k) 15 in
        let m := filter_selectively_horiz buf stride (row_masks 15 (mi_row + r =? 0) k mask_4x4_int_r) lfl_uv (Z.shiftl r 1) m in
        uv_horizontal n (r + 2) mi_row mi_rows stride (buf + 8 * stride) (map_masks (fun x => Z.shiftr x 4) k) lfl_uv m
      else m
  end.

Definition set_lfl_uv (lfm : LoopFilterMask) (uv : list Z) : LoopFilterMask :=
  mkLfm (left_y lfm) (above_y lfm) (int_4x4_y lfm) (left_uv lfm) (above_uv lfm) (int_4x4_uv lfm) (lfl_y lfm) uv.

Definition filter_block_plane_uv (lfm : LoopFilterMask) (stride buf mi_rows mi_row : Z) (m : mem) : LoopFilterMask * mem :=
  let '(uv, m) := uv_vertical 2 0 mi_row mi_rows stride buf (tx_masks (left_uv lfm) (int_4x4_uv lfm)) (lfl_y lfm) (lfl_uv lfm) m in
  (set_lfl_uv lfm uv, uv_horizontal 4 0 mi_row mi_rows stride buf (tx_masks (above_uv lfm) (int_4x4_uv lfm)) uv m).

End levels.


(** ** The filters as arithmetic *)

Definition is_byte (v : Z) : Prop := 0 <= v < 256.

Lemma byte_check (P : Z -> bool) v : forallb (fun n => P (Z.of_nat n)) (seq 0 256) = true -> is_byte v -> P v = true.
Proof.
  intros Hall Hv. rewrite forallb_forall in Hall. rewrite <- (Z2Nat.id v) by (unfold is_byte in Hv; lia). apply Hall. apply in_seq. unfold is_byte in Hv. lia.
Qed.

(** Pixels as signed values around 128. *)
Lemma to_signed v : is_byte v -> s8 (Z.lxor (s8 v) 128) = v - 128.
Proof. intros Hv. apply Z.eqb_eq. by apply (byte_check (fun v => s8 (Z.lxor (s8 v) 128) =? v - 128)). Qed.

Lemma clamp_range t lo hi : lo <= hi -> lo <= clamp t lo hi <= hi.
Proof. intros. unfold clamp. destruct (Z.ltb_spec t lo); [lia|]. destruct (Z.gtb_spec t hi); lia. Qed.

Lemma s8_small z : -128 <= z < 128 -> s8 z = z.
Proof. intros. unfold s8, swrap. rewrite Z.mod_small; lia. Qed.

Lemma signed_char_clamp_eq t : signed_char_clamp t = clamp t (-128) 127.
Proof. unfold signed_char_clamp. apply s8_small. pose proof (clamp_range t (-128) 127). lia. Qed.

Lemma from_signed t : u8 (Z.lxor (signed_char_clamp t) 128) = clamp (t + 128) 0 255.
Proof.
  rewrite signed_char_clamp_eq. replace (clamp (t + 128) 0 255) with (clamp t (-128) 127 + 128).
  - set (x := clamp t (-128) 127). assert (Hx : is_byte (x + 128)) by (unfold is_byte; pose proof (clamp_range t (-128) 127); lia).
    apply Z.eqb_eq. replace x with ((x + 128) - 128) at 1 by lia. by apply (byte_check (fun v => u8 (Z.lxor (v - 128) 128) =? v)).
  - unfold clamp. destruct (Z.ltb_spec t (-128)), (Z.ltb_spec (t + 128) 0), (Z.gtb_spec t 127), (Z.gtb_spec (t + 128) 255); lia.
Qed.

Lemma lor_above x b a c : x = (if b : bool then -1 else 0) -> Z.lor x (above a c) = if b || (a >? c) then -1 else 0.
Proof. intros ->. unfold above. by destruct b, (a >? c). Qed.

(** The masks are 0 or all ones. *)
Definition bool_mask (b : bool) : Z := if b then -1 else 0.

Lemma lnot_mask (b : bool) : Z.lnot (if b then -1 else 0) = bool_mask (negb b).
Proof. by destruct b. Qed.

Lemma filter_mask_eq limit blimit p3 p2 p1 p0 q0 q1 q2 q3 :
  filter_mask limit blimit p3 p2 p1 p0 q0 q1 q2 q3 = bool_mask (negb
    (false || (Z.abs (p3 - p2) >? limit) || (Z.abs (p2 - p1) >? limit) || (Z.abs (p1 - p0) >? limit) || (Z.abs (q1 - q0) >? limit) ||
     (Z.abs (q2 - q1) >? limit) || (Z.abs (q3 - q2) >? limit) || (Z.abs (p0 - q0) * 2 + Z.abs (p1 - q1) / 2 >? blimit))).
Proof. unfold filter_mask. cbv zeta. rewrite <- lnot_mask. f_equal. do 7 (apply lor_above). done. Qed.

Lemma hev_mask_eq thresh p1 p0 q0 q1 : hev_mask thresh p1 p0 q0 q1 = bool_mask (false || (Z.abs (p1 - p0) >? thresh) || (Z.abs (q1 - q0) >? thresh)).
Proof. unfold hev_mask. cbv zeta. do 2 apply lor_above. done. Qed.

Lemma flat_mask4_eq thresh p3 p2 p1 p0 q0 q1 q2 q3 :
  flat_mask4 thresh p3 p2 p1 p0 q0 q1 q2 q3 = bool_mask (negb
    (false || (Z.abs (p1 - p0) >? thresh) || (Z.abs (q1 - q0) >? thresh) || (Z.abs (p2 - p0) >? thresh) || (Z.abs (q2 - q0) >? thresh) ||
     (Z.abs (p3 - p0) >? thresh) || (Z.abs (q3 - q0) >? thresh))).
Proof. unfold flat_mask4. cbv zeta. rewrite <- lnot_mask. f_equal. do 6 (apply lor_above). done. Qed.

(** [filter4] in terms of pixel values: [hev] is the high edge variance. *)
Definition narrow_filter (on hev : bool) (p1 p0 q0 q1 : Z) : list Z :=
  let a := if hev then clamp (p1 - q1) (-128) 127 else 0 in
  let f := if on then clamp (a + 3 * (q0 - p0)) (-128) 127 else 0 in
  let f1 := Z.shiftr (clamp (f + 4) (-128) 127) 3 in
  let f2 := Z.shiftr (clamp (f + 3) (-128) 127) 3 in
  let f3 := if hev then 0 else Z.shiftr (f1 + 1) 1 in
  [clamp (p1 + f3) 0 255; clamp (p0 + f2) 0 255; clamp (q0 - f1) 0 255; clamp (q1 - f3) 0 255].

Lemma land_bool_mask x (b : bool) : Z.land x (bool_mask b) = if b then x else 0.
Proof. destruct b; [apply Z.land_m1_r|apply Z.land_0_r]. Qed.

Lemma s8_land_hev x b : -128 <= x < 128 -> s8 (Z.land x (u8 (bool_mask b))) = if b then x else 0.
Proof.
  intros Hx. destruct b; [|cbn; by rewrite Z.land_0_r]. change (u8 (bool_mask true)) with 255.
  apply Z.eqb_eq. replace x with ((x + 128) - 128) by lia. apply (byte_check (fun v => s8 (Z.land (v - 128) 255) =? v - 128)); [reflexivity|unfold is_byte; lia].
Qed.

Lemma s8_land_not_hev x b : -128 <= x < 128 -> s8 (Z.land x (Z.lnot (u8 (bool_mask b)))) = if b then 0 else x.
Proof.
  intros Hx. destruct b; [|cbn; rewrite Z.land_m1_r; by apply s8_small]. change (Z.lnot (u8 (bool_mask true))) with (-256).
  apply Z.eqb_eq. replace x with ((x + 128) - 128) by lia. apply (byte_check (fun v => s8 (Z.land (v - 128) (-256)) =? 0)); [reflexivity|unfold is_byte; lia].
Qed.

Lemma shiftr3_range x : -128 <= x <= 127 -> -16 <= Z.shiftr x 3 <= 15.
Proof. intros. rewrite Z.shiftr_div_pow2 by lia. change (2 ^ 3) with 8. split; [apply Z.div_le_lower_bound|apply Z.lt_succ_r, Z.div_lt_upper_bound]; lia. Qed.

Lemma filter4_eq on thresh p1 p0 q0 q1 :
  is_byte p1 -> is_byte p0 -> is_byte q0 -> is_byte q1 ->
  filter4 (bool_mask on) thresh p1 p0 q0 q1 = narrow_filter on ((Z.abs (p1 - p0) >? thresh) || (Z.abs (q1 - q0) >? thresh)) p1 p0 q0 q1.
Proof.
  intros H1 H2 H3 H4. unfold filter4. cbv zeta. rewrite !to_signed by done. rewrite hev_mask_eq. cbn [orb]. set (hev := (Z.abs (p1 - p0) >? thresh) || (Z.abs (q1 - q0) >? thresh)).
  rewrite (signed_char_clamp_eq (p1 - 128 - (q1 - 128))). replace (p1 - 128 - (q1 - 128)) with (p1 - q1) by lia.
  rewrite s8_land_hev by (pose proof (clamp_range (p1 - q1) (-128) 127); lia). unfold narrow_filter. cbv zeta. set (a := if hev then clamp (p1 - q1) (-128) 127 else 0).
  replace (q0 - 128 - (p0 - 128)) with (q0 - p0) by lia. rewrite (signed_char_clamp_eq (a + 3 * (q0 - p0))), land_bool_mask.
  assert (Hf : s8 (if on then clamp (a + 3 * (q0 - p0)) (-128) 127 else 0) = if on then clamp (a + 3 * (q0 - p0)) (-128) 127 else 0).
  { destruct on; [|done]. apply s8_small. pose proof (clamp_range (a + 3 * (q0 - p0)) (-128) 127). lia. }
  rewrite Hf. set (f := if on then clamp (a + 3 * (q0 - p0)) (-128) 127 else 0). rewrite (signed_char_clamp_eq (f + 4)), (signed_char_clamp_eq (f + 3)).
  pose proof (shiftr3_range _ (clamp_range (f + 4) (-128) 127 ltac:(lia))) as R1. pose proof (shiftr3_range _ (clamp_range (f + 3) (-128) 127 ltac:(lia))) as R2.
  rewrite !s8_small with (z := Z.shiftr _ 3) by lia. set (f1 := Z.shiftr (clamp (f + 4) (-128) 127) 3) in *. set (f2 := Z.shiftr (clamp (f + 3) (-128) 127) 3) in *.
  unfold ROUND_POWER_OF_TWO. change (Z.shiftl 1 (1 - 1)) with 1. rewrite s8_land_not_hev.
  2: { rewrite Z.shiftr_div_pow2 by lia. change (2 ^ 1) with 2. pose proof (Z.div_mod (f1 + 1) 2 ltac:(lia)). pose proof (Z.mod_pos_bound (f1 + 1) 2 ltac:(lia)). lia. }
  rewrite !from_signed. repeat (apply (f_equal2 cons); [f_equal; lia|]). done.
Qed.


(** ** What the filters do to pixels *)

Definition between (lo hi v : Z) : Prop := lo <= v <= hi.

Lemma round_between n x lo hi : 0 < n -> lo * 2 ^ n <= x <= hi * 2 ^ n -> lo <= ROUND_POWER_OF_TWO x n <= hi.
Proof.
  intros Hn Hx. unfold ROUND_POWER_OF_TWO. rewrite Z.shiftr_div_pow2, Z.shiftl_mul_pow2, Z.mul_1_l by lia. pose proof (Z.pow_pos_nonneg 2 (n - 1) ltac:(lia) ltac:(lia)).
  assert (Hp : 2 ^ n = 2 * 2 ^ (n - 1)) by (rewrite <- Z.pow_succ_r by lia; f_equal; lia). split; [apply Z.div_le_lower_bound; nia|].
  apply Z.lt_succ_r, Z.div_lt_upper_bound; nia.
Qed.

Lemma tap_between n x lo hi : 0 < n -> 0 <= x <= 255 * 2 ^ n -> lo * 2 ^ n <= x <= hi * 2 ^ n -> between lo hi (u8 (ROUND_POWER_OF_TWO x n)).
Proof. intros Hn H0 Hx. rewrite u8_small by (pose proof (round_between n x 0 255 Hn ltac:(lia)); lia). by apply round_between. Qed.

Lemma narrow_byte on hev p1 p0 q0 q1 : Forall is_byte (narrow_filter on hev p1 p0 q0 q1).
Proof. unfold narrow_filter, is_byte. cbv zeta. repeat constructor; match goal with |- context [clamp ?a 0 255] => pose proof (clamp_range a 0 255); lia end. Qed.

Lemma narrow_off hev p1 p0 q0 q1 : is_byte p1 -> is_byte p0 -> is_byte q0 -> is_byte q1 -> narrow_filter false hev p1 p0 q0 q1 = [p1; p0; q0; q1].
Proof.
  intros H1 H2 H3 H4. unfold narrow_filter. cbv zeta. change (Z.shiftr (clamp (0 + 4) (-128) 127) 3) with 0. change (Z.shiftr (clamp (0 + 3) (-128) 127) 3) with 0. change (Z.shiftr (0 + 1) 1) with 0.
  assert (Hc : forall v, is_byte v -> clamp v 0 255 = v) by (unfold is_byte, clamp; intros v Hv; destruct (Z.ltb_spec v 0), (Z.gtb_spec v 255); lia).
  destruct hev; rewrite !Z.add_0_r, !Z.sub_0_r, !Hc by done; done.
Qed.

Definition close (d a b : Z) : Prop := Z.abs (a - b) <= d.

Lemma clamp_close v d : is_byte v -> -16 <= d <= 16 -> close 16 (clamp (v + d) 0 255) v.
Proof. unfold is_byte, close, clamp. intros. destruct (Z.ltb_spec (v + d) 0), (Z.gtb_spec (v + d) 255); lia. Qed.

Lemma narrow_close on hev p1 p0 q0 q1 : is_byte p1 -> is_byte p0 -> is_byte q0 -> is_byte q1 -> Forall2 (close 16) (narrow_filter on hev p1 p0 q0 q1) [p1; p0; q0; q1].
Proof.
  intros H1 H2 H3 H4. unfold narrow_filter. cbv zeta. set (f := if on then _ else 0).
  pose proof (shiftr3_range _ (clamp_range (f + 4) (-128) 127 ltac:(lia))) as R1. pose proof (shiftr3_range _ (clamp_range (f + 3) (-128) 127 ltac:(lia))) as R2.
  set (f1 := Z.shiftr (clamp (f + 4) (-128) 127) 3) in *. set (f2 := Z.shiftr (clamp (f + 3) (-128) 127) 3) in *.
  assert (R3 : -16 <= (if hev then 0 else Z.shiftr (f1 + 1) 1) <= 16).
  { destruct hev; [lia|]. rewrite Z.shiftr_div_pow2 by lia. change (2 ^ 1) with 2. pose proof (Z.div_mod (f1 + 1) 2 ltac:(lia)). pose proof (Z.mod_pos_bound (f1 + 1) 2 ltac:(lia)). lia. }
  set (f3 := if hev then 0 else Z.shiftr (f1 + 1) 1) in *. unfold Z.sub. repeat constructor; apply clamp_close; solve [done|lia].
Qed.

Lemma u8_bool_mask b : (u8 (bool_mask b) =? 0) = negb b.
Proof. by destruct b. Qed.
Lemma bool_mask_0 b : (bool_mask b =? 0) = negb b.
Proof. by destruct b. Qed.

(** Do the pixels allow filtering, and are they flat? *)
Definition filtered (limit blimit : Z) (l : list Z) : bool :=
  match l with [p3; p2; p1; p0; q0; q1; q2; q3] => negb (filter_mask limit blimit p3 p2 p1 p0 q0 q1 q2 q3 =? 0) | _ => false end.
Definition is_flat (l : list Z) : bool :=
  match l with [p3; p2; p1; p0; q0; q1; q2; q3] => negb (flat_mask4 1 p3 p2 p1 p0 q0 q1 q2 q3 =? 0) | _ => false end.

Lemma taps4_spec blimit limit thresh l :
  length l = 8%nat -> Forall is_byte l ->
  Forall is_byte (taps4 blimit limit thresh l) /\ Forall2 (close 16) (taps4 blimit limit thresh l) (take 4 (drop 2 l)) /\
  (filtered limit blimit l = false -> taps4 blimit limit thresh l = take 4 (drop 2 l)).
Proof.
  intros Hl Hb. do 8 (destruct l as [|? l]; [done|]). destruct l; [|done]. decompose_Forall_hyps. cbn [taps4 filtered take drop]. cbv zeta.
  rewrite filter_mask_eq. set (on := negb _). rewrite bool_mask_0, filter4_eq by done. split; [apply narrow_byte|]. split; [by apply narrow_close|]. destruct on; [done|]. intros _. by apply narrow_off.
Qed.

Lemma taps8_spec blimit limit thresh l :
  length l = 8%nat -> Forall is_byte l ->
  Forall is_byte (taps8 blimit limit thresh l) /\ length (taps8 blimit limit thresh l) = 8%nat /\
  (filtered limit blimit l = false -> taps8 blimit limit thresh l = l) /\
  (filtered limit blimit l = true -> is_flat l = true -> forall lo hi, Forall (between lo hi) l -> Forall (between lo hi) (taps8 blimit limit thresh l)) /\
  (is_flat l = false -> taps8 blimit limit thresh l = take 2 l ++ taps4 blimit limit thresh l ++ drop 6 l).
Proof.
  intros Hl Hb. pose proof (taps4_spec blimit limit thresh l Hl Hb) as (B4 & _ & O4). do 8 (destruct l as [|? l]; [done|]). destruct l; [|done]. cbn [taps8 taps4 filtered is_flat take drop] in *. cbv zeta in *.
  rewrite flat_mask4_eq, filter_mask_eq in *. set (on := negb _) in *. set (fl := negb _) in |- *. rewrite bool_mask_0 in *. rewrite bool_mask_0. unfold filter8. rewrite u8_bool_mask, bool_mask_0, !negb_involutive in *. 
  assert (Hlen : length (filter4 (bool_mask on) thresh z1 z2 z3 z4) = 4%nat) by done. set (f4 := filter4 _ _ _ _ _ _) in *. clearbody f4. destruct (Forall_cons_1 _ _ _ Hb) as [? Hb']. do 7 (apply Forall_cons in Hb' as [? Hb']). unfold is_byte in *.
  destruct fl, on; cbn [andb]; (split; [|split; [|split; [|split]]]); try done; intros.
  all: try (repeat (apply Forall_cons_2; [first [lia|apply u8_range]|]); (apply Forall_nil_2 || (apply Forall_app; split; [done|]; repeat (apply Forall_cons_2; [lia|]); apply Forall_nil_2)); fail).
  all: try (by rewrite O4).
  all: try (cbn; rewrite length_app, Hlen; done).
  decompose_Forall_hyps. unfold between in *. repeat (apply Forall_cons_2; [first [lia|apply tap_between; cbn; lia]|]). apply Forall_nil_2.
Qed.


Definition is_flat2 (l : list Z) : bool :=
  match l with
  | [p7; p6; p5; p4; _; _; _; p0; q0; _; _; _; q4; q5; q6; q7] => negb (flat_mask5 1 p7 p6 p5 p4 p0 q0 q4 q5 q6 q7 =? 0)
  | _ => false
  end.

Lemma flat_mask5_bool p4 p3 p2 p1 p0 q0 q1 q2 q3 q4 : exists b, flat_mask5 1 p4 p3 p2 p1 p0 q0 q1 q2 q3 q4 = bool_mask b.
Proof.
  unfold flat_mask5. cbv zeta. rewrite flat_mask4_eq, <- lnot_mask, Z.lnot_involutive. eexists. rewrite <- (negb_involutive _). rewrite <- lnot_mask. f_equal.
  apply lor_above, lor_above. reflexivity.
Qed.

Lemma flat_mask4_bool t p3 p2 p1 p0 q0 q1 q2 q3 : exists b, flat_mask4 t p3 p2 p1 p0 q0 q1 q2 q3 = bool_mask b.
Proof. rewrite flat_mask4_eq. by eexists. Qed.

Lemma filter_mask_bool limit blimit p3 p2 p1 p0 q0 q1 q2 q3 : exists b, filter_mask limit blimit p3 p2 p1 p0 q0 q1 q2 q3 = bool_mask b.
Proof. rewrite filter_mask_eq. by eexists. Qed.

Lemma taps16_spec blimit limit thresh l :
  length l = 16%nat -> Forall is_byte l -> let mid := take 8 (drop 4 l) in
  Forall is_byte (taps16 blimit limit thresh l) /\ length (taps16 blimit limit thresh l) = 16%nat /\
  (filtered limit blimit mid = false -> taps16 blimit limit thresh l = l) /\
  (filtered limit blimit mid = true -> is_flat mid = true -> is_flat2 l = true -> forall lo hi, Forall (between lo hi) l -> Forall (between lo hi) (taps16 blimit limit thresh l)) /\
  (is_flat mid && is_flat2 l = false -> taps16 blimit limit thresh l = take 4 l ++ taps8 blimit limit thresh mid ++ drop 12 l).
Proof.
  intros Hl Hb mid. assert (Hm : length mid = 8%nat) by (subst mid; rewrite length_take, length_drop; lia).
  assert (Hmb : Forall is_byte mid) by (by apply Forall_take, Forall_drop).
  pose proof (taps8_spec blimit limit thresh mid Hm Hmb) as (B8 & L8 & O8 & _ & _). do 16 (destruct l as [|? l]; [done|]). destruct l; [|done]. subst mid.
  cbn [taps16 taps8 filtered is_flat is_flat2 take drop] in *. cbv zeta in *.
  destruct (flat_mask5_bool z z0 z1 z2 z6 z7 z11 z12 z13 z14) as [fl2 E2], (flat_mask4_bool 1 z3 z4 z5 z6 z7 z8 z9 z10) as [fl E], (filter_mask_bool limit blimit z3 z4 z5 z6 z7 z8 z9 z10) as [on Eo].
  rewrite ?E2, ?E, ?Eo in *. clear E2 E Eo. unfold filter16. rewrite !u8_bool_mask, !bool_mask_0, !negb_involutive in *. rewrite ?negb_involutive in O8.
  set (f8 := filter8 _ _ _ _ _ _ _ _ _ _ _) in *. clearbody f8. do 16 (apply Forall_cons in Hb as [? Hb]). unfold is_byte in *.
  destruct fl2, fl, on; cbn [andb]; (split; [|split; [|split; [|split]]]); try done; intros.
  all: try (repeat (apply Forall_cons_2; [first [lia|apply u8_range]|]); (apply Forall_nil_2 || (apply Forall_app; split; [done|]; repeat (apply Forall_cons_2; [lia|]); apply Forall_nil_2)); fail).
  all: try (by rewrite O8).
  all: try (cbn; rewrite length_app, L8; done).
  decompose_Forall_hyps. unfold between in *. repeat (apply Forall_cons_2; [first [lia|apply tap_between; cbn; lia]|]). apply Forall_nil_2.
Qed.



End LoopFilter.
