(* ===== verification/LoopPasses.v ===== *)
(** * LoopPasses: what the passes of the VP9 loop filter read and write

    A region's passes are walks over edge positions.  A property of memory operations that is
    closed under composition is therefore established once for every pass from the positions
    of its edges: that bytes stay bytes, and that only a rectangle around the region is read
    or written.  From the footprints follows that filtering pairs of neighbouring blocks at
    once is filtering them one by one. *)

From S2P Require Import Prelude LoopFilter.

Module LoopPasses.
Import LoopFilter.

(** ** Footprints *)

(** The operation [f] reads and writes only addresses in [A]. *)
Definition touches (A : Z -> bool) (f : mem -> mem) : Prop := footprint (fun (m : mem) a => m a) A f.

(** The addresses [s + k * p], ..., [s + (k + n - 1) * p]. *)
Definition taps (s p k : Z) (n : nat) (a : Z) : bool := existsb (fun i => a =? s + (k + Z.of_nat i) * p) (seq 0 n).

Lemma taps_spec s p k n a : taps s p k n a = true <-> exists i, (i < n)%nat /\ a = s + (k + Z.of_nat i) * p.
Proof.
  unfold taps. rewrite existsb_exists. split.
  - intros (i & Hi%in_seq & E%Z.eqb_eq). exists i. split; [lia|done].
  - intros (i & Hi & ->). exists i. split; [apply in_seq; lia|apply Z.eqb_refl].
Qed.

Lemma gather_agree m m' s p k n : (forall a, taps s p k n a = true -> m a = m' a) -> gather m s p k n = gather m' s p k n.
Proof. intros Hm. apply list_fmap_ext. intros i j Hj%lookup_seq. apply Hm, taps_spec. exists j. split; [lia|done]. Qed.

(** What [scatter] writes does not depend on the memory. *)
Lemma scatter_cases s p vs k a :
  (forall m, scatter m s p k vs a = m a) \/ (exists v i, (i < length vs)%nat /\ a = s + (k + Z.of_nat i) * p /\ forall m, scatter m s p k vs a = v).
Proof.
  revert k. induction vs as [|v vs IH]; intros k; [by left|]. cbn [scatter]. destruct (IH (k + 1)) as [E|(w & i & Hi & Ea & E)].
  - destruct (Z.eqb_spec a (s + k * p)) as [->|Hne].
    + right. exists v, 0%nat. cbn [length]. split; [lia|]. split; [f_equal; f_equal; lia|]. intros m. rewrite E. unfold upd. by rewrite Z.eqb_refl.
    + left. intros m. rewrite E. unfold upd. by destruct (Z.eqb_spec a (s + k * p)).
  - right. exists w, (S i). cbn [length]. split; [lia|]. split; [|done]. rewrite Ea. f_equal. f_equal. lia.
Qed.

Lemma touches_edge (F : list Z -> list Z) s p k n k' :
  (forall l, k <= k' /\ k' + Z.of_nat (length (F l)) <= k + Z.of_nat n) -> touches (taps s p k n) (fun m => scatter m s p k' (F (gather m s p k n))).
Proof.
  intros HF. split.
  - intros m a Ha. destruct (scatter_cases s p (F (gather m s p k n)) k' a) as [E|(v & i & Hi & Ea & _)]; [apply E|].
    assert (taps s p k n a = true); [|congruence]. apply taps_spec. pose proof (HF (gather m s p k n)). exists (Z.to_nat (k' - k + Z.of_nat i)). split; [lia|]. rewrite Ea. f_equal. f_equal. lia.
  - intros m m' Hm a Ha. rewrite (gather_agree m m' s p k n Hm). destruct (scatter_cases s p (F (gather m' s p k n)) k' a) as [E|(v & i & _ & _ & E)]; rewrite !E; [by apply Hm|done].
Qed.




(** ** What the passes are made of

    A property of operations that is closed under composition holds of a pass over a region as
    soon as it holds of the positions of the edges that the pass visits.  Positions are relative
    to the region: [x] to the right and [y] rows down from [s0]. *)

Record Closed (Q : (mem -> mem) -> Prop) : Prop := {
  closed_id : Q (fun m => m);
  closed_comp : forall f g, Q f -> Q g -> Q (fun m => g (f m));
  closed_ext : forall f g, (forall m, f m = g m) -> Q f -> Q g
}.

Section passes.
Context (Q : (mem -> mem) -> Prop) (HQ : Closed Q) (lfthr : list LoopFilterThresh) (s0 stride : Z).

Definition pos (x y : Z) : Z := s0 + y * stride + x.

Definition vertical_ok (x y : Z) (wide : bool) : Prop :=
  forall b l h, if wide then Q (edge16 b l h 1 (pos x y)) else Q (edge4 b l h 1 (pos x y)) /\ Q (edge8 b l h 1 (pos x y)).
Definition horizontal_ok (x y : Z) (wide : bool) : Prop :=
  forall b l h, if wide then Q (edge16 b l h stride (pos x y)) else Q (edge4 b l h stride (pos x y)) /\ Q (edge8 b l h stride (pos x y)).

Lemma Q_if (b : bool) f g : (b = true -> Q f) -> (b = false -> Q g) -> Q (fun m => if b then f m else g m).
Proof. destruct b; auto. Qed.

Lemma Q_along n body step s : (forall i, 0 <= i < Z.of_nat n -> Q (body (s + i * step))) -> Q (along n body step s).
Proof.
  revert s. induction n as [|n IH]; intros s H; [apply (closed_id _ HQ)|]. cbn [along].
  apply (closed_comp _ HQ (body s) (along n body step (s + step))).
  - replace s with (s + 0 * step) by lia. apply H. lia.
  - apply IH. intros i Hi. replace (s + step + i * step) with (s + (i + 1) * step) by lia. apply H. lia.
Qed.

Lemma Q_two_rows b0 b1 d f g : (b0 = true -> b1 = true -> Q d) -> (b0 = true -> Q f) -> (b1 = true -> Q g) -> Q (two_rows b0 b1 d f g).
Proof. intros Hd Hf Hg. unfold two_rows. destruct b0, b1; cbn; auto. apply (closed_id _ HQ). Qed.

Lemma Q_v4 t x y n :
  (forall i, 0 <= i < 8 * n -> vertical_ok x (y + i) false) -> Q (vp9_lpf_vertical_4 (pos x y) stride t n) /\ Q (vp9_lpf_vertical_8 (pos x y) stride t n).
Proof.
  intros H. split; apply Q_along; intros i Hi; replace (pos x y + i * stride) with (pos x (y + i)) by (unfold pos; lia); apply H; lia.
Qed.
Lemma Q_v16 t x y n : (forall i, 0 <= i < n -> vertical_ok x (y + i) true) -> Q (mb_lpf_vertical_edge_w (pos x y) stride t n).
Proof. intros H. apply Q_along. intros i Hi. replace (pos x y + i * stride) with (pos x (y + i)) by (unfold pos; lia). apply (H i). lia. Qed.

Lemma Q_h4 t x y n :
  (forall i, 0 <= i < 8 * n -> horizontal_ok (x + i) y false) -> Q (vp9_lpf_horizontal_4 (pos x y) stride t n) /\ Q (vp9_lpf_horizontal_8 (pos x y) stride t n).
Proof.
  intros H. split; apply Q_along; intros i Hi; replace (pos x y + i * 1) with (pos (x + i) y) by (unfold pos; lia); apply H; lia.
Qed.
Lemma Q_h16 t x y n : (forall i, 0 <= i < 8 * n -> horizontal_ok (x + i) y true) -> Q (vp9_lpf_horizontal_16 (pos x y) stride t n).
Proof. intros H. apply Q_along. intros i Hi. replace (pos x y + i * 1) with (pos (x + i) y) by (unfold pos; lia). apply (H i). lia. Qed.

(** The positions at which a block's filters start. *)
Definition v_block_ok (x y : Z) : Prop :=
  forall i, 0 <= i < 8 -> vertical_ok x (y + i) true /\ vertical_ok x (y + i) false /\ vertical_ok (x + 4) (y + i) false.
Definition h_block_ok (x y : Z) : Prop :=
  forall i, 0 <= i < 8 -> horizontal_ok (x + i) y true /\ horizontal_ok (x + i) y false /\ horizontal_ok (x + i) (y + 4) false.

Lemma Q_v_single t x y : v_block_ok x y ->
  Q (vp9_lpf_vertical_16 (pos x y) stride t) /\ Q (vp9_lpf_vertical_8 (pos x y) stride t 1) /\
  Q (vp9_lpf_vertical_4 (pos x y) stride t 1) /\ Q (vp9_lpf_vertical_4 (pos (x + 4) y) stride t 1).
Proof. intros H. split; [apply Q_v16|split; [|split]; apply Q_v4]; intros i Hi; by apply H. Qed.

Lemma Q_h_single t x y : h_block_ok x y ->
  Q (vp9_lpf_horizontal_16 (pos x y) stride t 1) /\ Q (vp9_lpf_horizontal_8 (pos x y) stride t 1) /\
  Q (vp9_lpf_horizontal_4 (pos x y) stride t 1) /\ Q (vp9_lpf_horizontal_4 (pos x (y + 4)) stride t 1).
Proof. intros H. split; [apply Q_h16|split; [|split]; apply Q_h4]; intros i Hi; apply H; lia. Qed.

Lemma Q_vert_row2_block x y k0 k1 t0 t1 : v_block_ok x y -> v_block_ok x (y + 8) -> Q (vert_row2_block (pos x y) stride k0 k1 t0 t1).
Proof.
  intros H0 H1. unfold vert_row2_block. cbv zeta.
  replace (pos x y + 8 * stride + 4) with (pos (x + 4) (y + 8)) by (unfold pos; lia). replace (pos x y + 4) with (pos (x + 4) y) by (unfold pos; lia).
  replace (pos x y + 8 * stride) with (pos x (y + 8)) by (unfold pos; lia).
  destruct (Q_v_single t0 x y H0) as (A16 & A8 & A4 & Ai), (Q_v_single t1 x (y + 8) H1) as (B16 & B8 & B4 & Bi).
  match goal with |- Q (fun m => ?f4 (?f3 (?f2 (?f1 m)))) =>
    apply (closed_comp _ HQ (fun m => f3 (f2 (f1 m))) f4); [apply (closed_comp _ HQ (fun m => f2 (f1 m)) f3); [apply (closed_comp _ HQ f1 f2)|]|] end;
    apply Q_two_rows; intros _; try intros _; [|exact A16|exact B16| |exact A8|exact B8| |exact A4|exact B4| |exact Ai|exact Bi].
  - apply Q_v16. intros i Hi. destruct (Z_lt_dec i 8); [apply (H0 i); lia|]. replace (y + i) with (y + 8 + (i - 8)) by lia. apply (H1 (i - 8)). lia.
  - apply (closed_comp _ HQ _ (vp9_lpf_vertical_8 _ _ _ _) A8). replace (pos x y + 8 * stride) with (pos x (y + 8)) by (unfold pos; lia); exact B8.
  - apply (closed_comp _ HQ _ (vp9_lpf_vertical_4 _ _ _ _) A4). replace (pos x y + 8 * stride) with (pos x (y + 8)) by (unfold pos; lia); exact B4.
  - apply (closed_comp _ HQ _ (vp9_lpf_vertical_4 _ _ _ _) Ai). replace (pos (x + 4) y + 8 * stride) with (pos (x + 4) (y + 8)) by (unfold pos; lia); exact Bi.
Qed.

Lemma bit0_range n mask : 0 <= mask < 2 ^ Z.of_nat n -> bit0 mask = true -> (0 < n)%nat.
Proof. intros Hm Hb. destruct n; [|lia]. change (2 ^ Z.of_nat 0) with 1 in Hm. by replace mask with 0 in Hb by lia. Qed.

Lemma shiftr1_range n mask : 0 <= mask < 2 ^ Z.of_nat (S n) -> 0 <= Z.shiftr mask 1 < 2 ^ Z.of_nat n.
Proof.
  intros Hm. rewrite Z.shiftr_div_pow2 by lia. change (2 ^ 1) with 2. rewrite Nat2Z.inj_succ, Z.pow_succ_r in Hm by lia.
  split; [apply Z.div_pos; lia|apply Z.div_lt_upper_bound; lia].
Qed.

Lemma Q_vert_row2_loop fuel n x y mask k0 k1 lfl fwd i :
  0 <= mask < 2 ^ Z.of_nat n -> (forall j, 0 <= j < Z.of_nat n -> v_block_ok (x + 8 * j) y /\ v_block_ok (x + 8 * j) (y + 8)) ->
  Q (vert_row2_loop lfthr fuel (pos x y) stride mask k0 k1 lfl fwd i).
Proof.
  revert n x mask k0 k1 i. induction fuel as [|fuel IH]; intros n x mask k0 k1 i Hm H; [apply (closed_id _ HQ)|]. cbn [vert_row2_loop].
  apply Q_if; [intros _; apply (closed_id _ HQ)|intros E%Z.eqb_neq].
  destruct n as [|n]; [change (2 ^ Z.of_nat 0) with 1 in Hm; lia|].
  apply (closed_comp _ HQ (fun m => if bit0 mask then vert_row2_block (pos x y) stride k0 k1 (thr lfthr lfl i) (thr lfthr lfl (i + fwd)) m else m)).
  - apply Q_if; intros _; [|apply (closed_id _ HQ)]. destruct (H 0 ltac:(lia)) as [Ha Hb]. rewrite Z.mul_0_r, Z.add_0_r in Ha, Hb. by apply Q_vert_row2_block.
  - replace (pos x y + 8) with (pos (x + 8) y) by (unfold pos; lia). apply (IH n); [by apply shiftr1_range|].
    intros j Hj. replace (x + 8 + 8 * j) with (x + 8 * (j + 1)) by lia. apply H. lia.
Qed.

Lemma Q_h4_dual t0 t1 x y :
  Q (vp9_lpf_horizontal_4 (pos x y) stride t0 1) -> Q (vp9_lpf_horizontal_4 (pos (x + 8) y) stride t1 1) -> Q (vp9_lpf_horizontal_4_dual (pos x y) stride t0 t1).
Proof. intros H0 H1. replace (pos (x + 8) y) with (pos x y + 8) in H1 by (unfold pos; lia). exact (closed_comp _ HQ _ _ H0 H1). Qed.
Lemma Q_h8_dual t0 t1 x y :
  Q (vp9_lpf_horizontal_8 (pos x y) stride t0 1) -> Q (vp9_lpf_horizontal_8 (pos (x + 8) y) stride t1 1) -> Q (vp9_lpf_horizontal_8_dual (pos x y) stride t0 t1).
Proof. intros H0 H1. replace (pos (x + 8) y) with (pos x y + 8) in H1 by (unfold pos; lia). exact (closed_comp _ HQ _ _ H0 H1). Qed.

(** The number of blocks that an iteration handles. *)
Definition horiz_count (k : masks) : Z :=
  if bit0 (mask_16x16 k) then (if Z.land (mask_16x16 k) 3 =? 3 then 2 else 1)
  else if bit0 (mask_8x8 k) then (if Z.land (mask_8x8 k) 3 =? 3 then 2 else 1)
  else if bit0 (mask_4x4 k) then (if Z.land (mask_4x4 k) 3 =? 3 then 2 else 1)
  else 1.

Lemma horiz_block_count s k lfl i m : snd (horiz_block lfthr s stride k lfl i m) = horiz_count k.
Proof. unfold horiz_block, horiz_count. cbv zeta. by repeat match goal with |- context [if ?b then _ else _] => destruct b end. Qed.

Definition int_single (s : Z) (k : masks) (t : LoopFilterThresh) (m : mem) : mem :=
  if bit0 (mask_4x4_int k) then vp9_lpf_horizontal_4 (s + 4 * stride) stride t 1 m else m.
Definition int_pair (s : Z) (k : masks) (t0 t1 : LoopFilterThresh) (m : mem) : mem :=
  if Z.land (mask_4x4_int k) 3 =? 3 then vp9_lpf_horizontal_4_dual (s + 4 * stride) stride t0 t1 m
  else if bit0 (mask_4x4_int k) then vp9_lpf_horizontal_4 (s + 4 * stride) stride t0 1 m
  else if negb (Z.land (mask_4x4_int k) 2 =? 0) then vp9_lpf_horizontal_4 (s + 8 + 4 * stride) stride t1 1 m
  else m.

Lemma Q_int_single x y k t : h_block_ok x y -> Q (int_single (pos x y) k t).
Proof.
  intros H. unfold int_single. apply Q_if; intros _; [|apply (closed_id _ HQ)]. replace (pos x y + 4 * stride) with (pos x (y + 4)) by (unfold pos; lia). by apply Q_h_single.
Qed.

Lemma Q_int_pair x y k t0 t1 : h_block_ok x y -> h_block_ok (x + 8) y -> Q (int_pair (pos x y) k t0 t1).
Proof.
  intros H0 H1. unfold int_pair. replace (pos x y + 8 + 4 * stride) with (pos (x + 8) (y + 4)) by (unfold pos; lia). replace (pos x y + 4 * stride) with (pos x (y + 4)) by (unfold pos; lia).
  destruct (Q_h_single t0 x y H0) as (_ & _ & _ & A), (Q_h_single t1 (x + 8) y H1) as (_ & _ & _ & B).
  apply Q_if; intros _; [exact (Q_h4_dual _ _ _ _ A B)|]. apply Q_if; intros _; [exact A|]. apply Q_if; intros _; [exact B|apply (closed_id _ HQ)].
Qed.

Lemma Q_horiz_block x y k lfl i :
  h_block_ok x y -> (horiz_count k = 2 -> h_block_ok (x + 8) y) -> Q (fun m => fst (horiz_block lfthr (pos x y) stride k lfl i m)).
Proof.
  intros H0 H1. destruct (Q_h_single (thr lfthr lfl i) x y H0) as (A16 & A8 & A4 & _).
  assert (B : horiz_count k = 2 -> Q (vp9_lpf_horizontal_8 (pos (x + 8) y) stride (thr lfthr lfl (i + 1)) 1) /\ Q (vp9_lpf_horizontal_4 (pos (x + 8) y) stride (thr lfthr lfl (i + 1)) 1)).
  { intros E. destruct (Q_h_single (thr lfthr lfl (i + 1)) (x + 8) y (H1 E)) as (_ & ? & ? & _). by split. }
  unfold horiz_block, horiz_count in *. fold (int_single (pos x y) k (thr lfthr lfl i)). fold (int_pair (pos x y) k (thr lfthr lfl i) (thr lfthr lfl (i + 1))). cbv zeta.
  pose proof (Q_int_single x y k (thr lfthr lfl i) H0) as IS. pose proof (Q_int_pair x y k (thr lfthr lfl i) (thr lfthr lfl (i + 1)) H0) as IP.
  destruct (bit0 (mask_16x16 k)); [|destruct (bit0 (mask_8x8 k)); [|destruct (bit0 (mask_4x4 k))]];
    [destruct (Z.land (mask_16x16 k) 3 =? 3)|destruct (Z.land (mask_8x8 k) 3 =? 3)|destruct (Z.land (mask_4x4 k) 3 =? 3)|]; cbn [fst].
  - apply Q_h16. intros j Hj. destruct (Z_lt_dec j 8); [apply (H0 j); lia|]. replace (x + j) with (x + 8 + (j - 8)) by lia. apply (H1 eq_refl (j - 8)). lia.
  - exact A16.
  - exact (closed_comp _ HQ _ _ (Q_h8_dual _ _ _ _ A8 (proj1 (B eq_refl))) (IP (H1 eq_refl))).
  - exact (closed_comp _ HQ _ _ A8 IS).
  - exact (closed_comp _ HQ _ _ (Q_h4_dual _ _ _ _ A4 (proj2 (B eq_refl))) (IP (H1 eq_refl))).
  - exact (closed_comp _ HQ _ _ A4 IS).
  - exact IS.
Qed.

Definition masks_below (n : nat) (k : masks) : Prop :=
  0 <= mask_16x16 k < 2 ^ Z.of_nat n /\ 0 <= mask_8x8 k < 2 ^ Z.of_nat n /\ 0 <= mask_4x4 k < 2 ^ Z.of_nat n /\ 0 <= mask_4x4_int k < 2 ^ Z.of_nat n.

Lemma shiftr_range c n mask : 0 <= mask < 2 ^ Z.of_nat (c + n) -> 0 <= Z.shiftr mask (Z.of_nat c) < 2 ^ Z.of_nat n.
Proof.
  intros Hm. rewrite Z.shiftr_div_pow2 by lia. rewrite Nat2Z.inj_add, Z.pow_add_r in Hm by lia. pose proof (Z.pow_pos_nonneg 2 (Z.of_nat c)).
  split; [apply Z.div_pos; lia|apply Z.div_lt_upper_bound; lia].
Qed.

Lemma masks_below_shiftr c n k : masks_below (c + n) k -> masks_below n (map_masks (fun x => Z.shiftr x (Z.of_nat c)) k).
Proof. intros (H1 & H2 & H3 & H4). split; [|split; [|split]]; by apply shiftr_range. Qed.

Lemma land3_range n x : 0 <= x < 2 ^ Z.of_nat n -> (Z.land x 3 =? 3) = true -> (2 <= n)%nat.
Proof.
  intros Hx E%Z.eqb_eq. destruct n as [|[|n]]; [| |lia]; exfalso.
  - change (2 ^ Z.of_nat 0) with 1 in Hx. assert (x = 0) as -> by lia. done.
  - change (2 ^ Z.of_nat 1) with 2 in Hx. assert (x = 0 \/ x = 1) as [-> | ->] by lia; done.
Qed.

Lemma horiz_count_cases n k : masks_below n k -> horiz_count k = 1 \/ horiz_count k = 2 /\ (2 <= n)%nat.
Proof.
  intros (H1 & H2 & H3 & _). unfold horiz_count.
  repeat match goal with |- context [if ?b then _ else _] => destruct b eqn:?; [|try (left; reflexivity)] end;
    solve [left; reflexivity|right; split; [reflexivity|eauto using land3_range]].
Qed.

Lemma Q_horiz_loop fuel n x y mask k lfl i :
  0 <= mask < 2 ^ Z.of_nat n -> masks_below n k -> (forall j, 0 <= j < Z.of_nat n -> h_block_ok (x + 8 * j) y) ->
  Q (horiz_loop lfthr fuel (pos x y) stride mask k lfl i).
Proof.
  revert n x mask k i. induction fuel as [|fuel IH]; intros n x mask k i Hm Hk H; [apply (closed_id _ HQ)|]. cbn [horiz_loop].
  apply Q_if; [intros _; apply (closed_id _ HQ)|intros E%Z.eqb_neq].
  destruct n as [|n]; [change (2 ^ Z.of_nat 0) with 1 in Hm; lia|]. assert (H0 : h_block_ok x y) by (specialize (H 0 ltac:(lia)); by rewrite Z.mul_0_r, Z.add_0_r in H).
  assert (HI : forall c, (c <= S n)%nat -> Q (horiz_loop lfthr fuel (pos x y + 8 * Z.of_nat c) stride (Z.shiftr mask (Z.of_nat c)) (map_masks (fun v => Z.shiftr v (Z.of_nat c)) k) lfl (i + Z.of_nat c))).
  { intros c Hc. replace (pos x y + 8 * Z.of_nat c) with (pos (x + 8 * Z.of_nat c) y) by (unfold pos; lia). replace (S n) with (c + (S n - c))%nat in Hm, Hk by lia.
    apply (IH (S n - c)%nat); [by apply shiftr_range|by apply masks_below_shiftr|]. intros j Hj. replace (x + 8 * Z.of_nat c + 8 * j) with (x + 8 * (j + Z.of_nat c)) by lia. apply H. lia. }
  destruct (bit0 mask); [|exact (HI 1%nat ltac:(lia))].
  assert (HB : Q (fun m => fst (horiz_block lfthr (pos x y) stride k lfl i m))).
  { apply Q_horiz_block; [done|]. intros E2. destruct (horiz_count_cases _ _ Hk) as [E1|[_ ?]]; [lia|]. specialize (H 1 ltac:(lia)). by rewrite Z.mul_1_r in H. }
  apply (closed_ext _ HQ (fun m => horiz_loop lfthr fuel (pos x y + 8 * horiz_count k) stride (Z.shiftr mask (horiz_count k)) (map_masks (fun v => Z.shiftr v (horiz_count k)) k) lfl (i + horiz_count k)
    (fst (horiz_block lfthr (pos x y) stride k lfl i m)))).
  { intros m. pose proof (horiz_block_count (pos x y) k lfl i m) as E3. destruct (horiz_block lfthr (pos x y) stride k lfl i m) as [m' c]. cbn in E3. by subst c. }
  destruct (horiz_count_cases _ _ Hk) as [Ec|[Ec ?]]; rewrite Ec; [exact (closed_comp _ HQ _ _ HB (HI 1%nat ltac:(lia)))|exact (closed_comp _ HQ _ _ HB (HI 2%nat ltac:(lia)))].
Qed.

(** ** The passes over a region *)

Lemma land_below x n : 0 <= Z.land x (Z.ones (Z.of_nat n)) < 2 ^ Z.of_nat n.
Proof. rewrite Z.land_ones by lia. apply Z.mod_pos_bound. lia. Qed.

Lemma lor_below a b n : 0 <= a < 2 ^ Z.of_nat n -> 0 <= b < 2 ^ Z.of_nat n -> 0 <= Z.lor a b < 2 ^ Z.of_nat n.
Proof.
  intros Ha Hb. split; [apply Z.lor_nonneg; lia|]. destruct (Z.eq_dec (Z.lor a b) 0) as [->|Hne]; [lia|].
  assert (0 <= Z.lor a b) by (apply Z.lor_nonneg; lia). apply Z.log2_lt_pow2; [lia|]. rewrite Z.log2_lor by lia.
  destruct n as [|n]; [change (2 ^ Z.of_nat 0) with 1 in *; assert (a = 0) as -> by lia; assert (b = 0) as -> by lia; done|].
  assert (L : forall c, 0 <= c < 2 ^ Z.of_nat (S n) -> Z.log2 c < Z.of_nat (S n)).
  { intros c Hc. destruct (Z.eq_dec c 0) as [->|]; [cbn; lia|]. apply Z.log2_lt_pow2; lia. }
  pose proof (L a Ha). pose proof (L b Hb). lia.
Qed.

Lemma any_below n k : masks_below n k -> 0 <= any k < 2 ^ Z.of_nat n.
Proof. intros (H1 & H2 & H3 & H4). unfold any. by repeat apply lor_below. Qed.

Lemma masks_below_map n f k : (forall x, 0 <= f x < 2 ^ Z.of_nat n) -> masks_below n (map_masks f k).
Proof. intros H. split; [|split; [|split]]; apply H. Qed.

Definition width (pt : PLANE_TYPE) : nat := match pt with PLANE_TYPE_UV => 4 | PLANE_TYPE_Y_WITH_DC => 8 end.

Lemma Q_vert_row2 pt x y k lfl i :
  (forall j, 0 <= j < Z.of_nat (width pt) -> v_block_ok (x + 8 * j) y /\ v_block_ok (x + 8 * j) (y + 8)) ->
  Q (filter_selectively_vert_row2 lfthr pt (pos x y) stride k lfl i).
Proof.
  intros H. unfold filter_selectively_vert_row2. cbv zeta. apply (Q_vert_row2_loop _ (width pt)); [|exact H].
  apply lor_below; apply any_below, masks_below_map; intros v; destruct pt; [exact (land_below _ 8)|exact (land_below _ 4)|exact (land_below _ 8)|exact (land_below _ 4)].
Qed.

Lemma Q_horiz n x y k lfl i : masks_below n k -> (forall j, 0 <= j < Z.of_nat n -> h_block_ok (x + 8 * j) y) -> Q (filter_selectively_horiz lfthr (pos x y) stride k lfl i).
Proof. intros Hk H. apply (Q_horiz_loop _ n); [by apply any_below|done|done]. Qed.

Definition v_region_ok (w h : nat) (x y : Z) : Prop := forall i j, 0 <= i < Z.of_nat h -> 0 <= j < Z.of_nat w -> v_block_ok (x + 8 * j) (y + 8 * i).
Definition h_region_ok (w h : nat) (x y : Z) : Prop := forall i j, 0 <= i < Z.of_nat h -> 0 <= j < Z.of_nat w -> h_block_ok (x + 8 * j) (y + 8 * i).

Lemma v_region_2 w h x y : v_region_ok w (S (S h)) x y ->
  (forall j, 0 <= j < Z.of_nat w -> v_block_ok (x + 8 * j) y /\ v_block_ok (x + 8 * j) (y + 8)) /\ v_region_ok w h x (y + 16).
Proof.
  intros H. split.
  - intros j Hj. split; [rewrite <- (Z.add_0_r y), <- (Z.mul_0_r 8)|rewrite <- (Z.mul_1_r 8) at 2]; apply H; lia.
  - intros i j Hi Hj. replace (y + 16 + 8 * i) with (y + 8 * (i + 2)) by lia. apply H; lia.
Qed.

Lemma h_region_1 w h x y : h_region_ok w (S h) x y -> (forall j, 0 <= j < Z.of_nat w -> h_block_ok (x + 8 * j) y) /\ h_region_ok w h x (y + 8).
Proof.
  intros H. split.
  - intros j Hj. rewrite <- (Z.add_0_r y), <- (Z.mul_0_r 8). apply H; lia.
  - intros i j Hi Hj. replace (y + 8 + 8 * i) with (y + 8 * (i + 1)) by lia. apply H; lia.
Qed.

Lemma row_masks_below n b k v : 0 <= v < 2 ^ Z.of_nat n -> masks_below n (row_masks (Z.ones (Z.of_nat n)) b k v).
Proof.
  intros Hv. unfold row_masks. assert (0 < 2 ^ Z.of_nat n) by lia. destruct b; (split; [|split; [|split]]); cbn [mask_16x16 mask_8x8 mask_4x4 mask_4x4_int]; first [lia|apply land_below].
Qed.

Lemma Q_y_vertical n r mi_row mi_rows x y k lfl : v_region_ok 8 (2 * n) x y -> Q (y_vertical lfthr n r mi_row mi_rows stride (pos x y) k lfl).
Proof.
  revert r y k. induction n as [|n IH]; intros r y k H; [apply (closed_id _ HQ)|]. cbn [y_vertical]. apply Q_if; intros _; [|apply (closed_id _ HQ)].
  replace (2 * S n)%nat with (S (S (2 * n))) in H by lia. destruct (v_region_2 _ _ _ _ H) as [H1 H2]. replace (pos x y + 16 * stride) with (pos x (y + 16)) by (unfold pos; lia).
  exact (closed_comp _ HQ _ _ (Q_vert_row2 PLANE_TYPE_Y_WITH_DC x y _ lfl _ H1) (IH _ _ _ H2)).
Qed.

Lemma Q_y_horizontal n r mi_row mi_rows x y k lfl : h_region_ok 8 n x y -> Q (y_horizontal lfthr n r mi_row mi_rows stride (pos x y) k lfl).
Proof.
  revert r y k. induction n as [|n IH]; intros r y k H; [apply (closed_id _ HQ)|]. cbn [y_horizontal]. apply Q_if; intros _; [|apply (closed_id _ HQ)].
  destruct (h_region_1 _ _ _ _ H) as [H1 H2]. replace (pos x y + 8 * stride) with (pos x (y + 8)) by (unfold pos; lia).
  refine (closed_comp _ HQ _ _ (Q_horiz 8 x y _ lfl _ _ H1) (IH _ _ _ H2)). apply (row_masks_below 8). exact (land_below _ 8).
Qed.

Lemma Q_filter_block_plane_y lfm mi_rows mi_row x y :
  v_region_ok 8 8 x y -> h_region_ok 8 8 x y -> Q (filter_block_plane_y lfthr lfm stride (pos x y) mi_rows mi_row).
Proof. intros HV HH. exact (closed_comp _ HQ _ _ (Q_y_vertical 4 0 _ _ _ _ _ _ HV) (Q_y_horizontal 8 0 _ _ _ _ _ _ HH)). Qed.

Lemma Q_uv_vertical n r mi_row mi_rows x y k lfl_y lfl_uv : v_region_ok 4 (2 * n) x y -> Q (fun m => snd (uv_vertical lfthr n r mi_row mi_rows stride (pos x y) k lfl_y lfl_uv m)).
Proof.
  revert r y k lfl_uv. induction n as [|n IH]; intros r y k lfl_uv H; [apply (closed_id _ HQ)|]. cbn [uv_vertical].
  apply (closed_ext _ HQ (fun m => if (r <? MI_BLOCK_SIZE) && (mi_row + r <? mi_rows) then
      snd (uv_vertical lfthr n (r + 4) mi_row mi_rows stride (pos x y + 16 * stride) (map_masks (fun v => Z.shiftr v 8) k) lfl_y (copy_levels r lfl_y lfl_uv)
        (filter_selectively_vert_row2 lfthr PLANE_TYPE_UV (pos x y) stride (map_masks (fun v => Z.land v 255) k) (copy_levels r lfl_y lfl_uv) (Z.shiftl r 1) m)) else m)).
  { intros m. by destruct (_ && _). }
  apply Q_if; intros _; [|apply (closed_id _ HQ)].
  replace (2 * S n)%nat with (S (S (2 * n))) in H by lia. destruct (v_region_2 _ _ _ _ H) as [H1 H2]. replace (pos x y + 16 * stride) with (pos x (y + 16)) by (unfold pos; lia).
  exact (closed_comp _ HQ _ _ (Q_vert_row2 PLANE_TYPE_UV x y _ _ _ H1) (IH _ _ _ _ H2)).
Qed.

Lemma uv_vertical_levels n r mi_row mi_rows s k lfl_y lfl_uv m m' :
  fst (uv_vertical lfthr n r mi_row mi_rows stride s k lfl_y lfl_uv m) = fst (uv_vertical lfthr n r mi_row mi_rows stride s k lfl_y lfl_uv m').
Proof. revert r s k lfl_uv m m'. induction n as [|n IH]; intros; [done|]. cbn [uv_vertical]. destruct (_ && _); [|done]. cbv zeta. apply IH. Qed.

Lemma Q_uv_horizontal n r mi_row mi_rows x y k lfl_uv : h_region_ok 4 n x y -> Q (uv_horizontal lfthr n r mi_row mi_rows stride (pos x y) k lfl_uv).
Proof.
  revert r y k. induction n as [|n IH]; intros r y k H; [apply (closed_id _ HQ)|]. cbn [uv_horizontal]. apply Q_if; intros _; [|apply (closed_id _ HQ)].
  destruct (h_region_1 _ _ _ _ H) as [H1 H2]. replace (pos x y + 8 * stride) with (pos x (y + 8)) by (unfold pos; lia).
  refine (closed_comp _ HQ _ _ (Q_horiz 4 x y _ lfl_uv _ _ H1) (IH _ _ _ H2)). apply (row_masks_below 4).
  destruct (_ =? _); [cbn; lia|exact (land_below _ 4)].
Qed.

(** What the chroma filter does to the levels does not depend on the pixels, so that its effect on
    the pixels is an operation of its own. *)
Definition uv_levels (lfm : LoopFilterMask) (s mi_rows mi_row : Z) : list Z :=
  fst (uv_vertical lfthr 2 0 mi_row mi_rows stride s (tx_masks (left_uv lfm) (int_4x4_uv lfm)) (lfl_y lfm) (lfl_uv lfm) (fun _ => 0)).

Lemma filter_block_plane_uv_eq lfm s mi_rows mi_row m :
  filter_block_plane_uv lfthr lfm stride s mi_rows mi_row m =
  (set_lfl_uv lfm (uv_levels lfm s mi_rows mi_row),
   uv_horizontal lfthr 4 0 mi_row mi_rows stride s (tx_masks (above_uv lfm) (int_4x4_uv lfm)) (uv_levels lfm s mi_rows mi_row)
     (snd (uv_vertical lfthr 2 0 mi_row mi_rows stride s (tx_masks (left_uv lfm) (int_4x4_uv lfm)) (lfl_y lfm) (lfl_uv lfm) m))).
Proof. unfold filter_block_plane_uv, uv_levels. rewrite (uv_vertical_levels _ _ _ _ _ _ _ _ (fun _ => 0) m). by destruct (uv_vertical _ _ _ _ _ _ _ _ _ _ m). Qed.

Lemma Q_filter_block_plane_uv lfm mi_rows mi_row x y :
  v_region_ok 4 4 x y -> h_region_ok 4 4 x y -> Q (fun m => snd (filter_block_plane_uv lfthr lfm stride (pos x y) mi_rows mi_row m)).
Proof.
  intros HV HH. eapply (closed_ext _ HQ); [intros m; by rewrite filter_block_plane_uv_eq|]. cbn [snd].
  exact (closed_comp _ HQ _ _ (Q_uv_vertical 2 0 _ _ _ _ _ _ _ HV) (Q_uv_horizontal 4 0 _ _ _ _ _ _ HH)).
Qed.

End passes.

(** ** Bytes stay bytes *)

Definition bytes (m : mem) : Prop := forall a, is_byte (m a).
Definition keeps_bytes (f : mem -> mem) : Prop := forall m, bytes m -> bytes (f m).

Lemma keeps_bytes_closed : Closed keeps_bytes.
Proof.
  split; [by intros m Hm|intros f g Hf Hg m Hm; by apply Hg, Hf|]. intros f g E Hf m Hm. rewrite <- E. by apply Hf.
Qed.

Lemma scatter_bytes m s p k vs : bytes m -> Forall is_byte vs -> bytes (scatter m s p k vs).
Proof.
  revert m k. induction vs as [|v vs IH]; intros m k Hm Hv; [done|]. apply Forall_cons in Hv as [Hv Hvs]. apply IH; [|done]. intros a. unfold upd. by destruct (_ =? _).
Qed.

Lemma gather_bytes m s p k n : bytes m -> Forall is_byte (gather m s p k n).
Proof. intros Hm. apply Forall_fmap, Forall_forall. intros i _. apply Hm. Qed.

Lemma gather_length m s p k n : length (gather m s p k n) = n.
Proof. unfold gather. by rewrite length_fmap, length_seq. Qed.

Lemma edges_keep_bytes b l h p s : keeps_bytes (edge4 b l h p s) /\ keeps_bytes (edge8 b l h p s) /\ keeps_bytes (edge16 b l h p s).
Proof.
  split; [|split]; intros m Hm; apply scatter_bytes; [done| |done| |done|];
    [apply taps4_spec|apply taps8_spec|apply taps16_spec]; first [apply gather_length|by apply gather_bytes].
Qed.

Lemma bytes_region s0 stride w h x y : v_region_ok keeps_bytes s0 stride w h x y /\ h_region_ok keeps_bytes s0 stride w h x y.
Proof. split; intros i j _ _ c _; (split; [|split]); intros b l t; first [apply edges_keep_bytes|split; apply edges_keep_bytes]. Qed.

(** Of the types of [LoopFilterMask]. *)
Definition lfm_typed (lfm : LoopFilterMask) : Prop :=
  (length (left_y lfm) = 4%nat /\ length (above_y lfm) = 4%nat /\ length (left_uv lfm) = 4%nat /\ length (above_uv lfm) = 4%nat) /\
  (length (lfl_y lfm) = 64%nat /\ length (lfl_uv lfm) = 16%nat) /\
  Forall (fun v => 0 <= v < 2 ^ 64) (int_4x4_y lfm :: left_y lfm ++ above_y lfm) /\
  Forall (fun v => 0 <= v < 2 ^ 16) (int_4x4_uv lfm :: left_uv lfm ++ above_uv lfm) /\
  Forall is_byte (lfl_y lfm) /\ Forall is_byte (lfl_uv lfm).

Definition levels_typed (n : nat) (l : list Z) : Prop := length l = n /\ Forall is_byte l.

Lemma copy_levels_typed r y uv n k : levels_typed n y -> levels_typed k uv -> levels_typed k (copy_levels r y uv).
Proof.
  intros [_ Hy] Huv. unfold copy_levels. generalize (seq 0 4) as cs. intros cs. revert uv Huv. induction cs as [|c cs IH]; intros uv [Hl Hb]; [done|]. cbn [foldl]. apply IH.
  assert (Hn : forall i, is_byte (nth i y 0)).
  { intros i. destruct (nth_in_or_default i y 0) as [Hi|E]; [|rewrite E; unfold is_byte; lia]. rewrite Forall_forall in Hy. apply Hy, list_elem_of_In, Hi. }
  split; [by rewrite !length_insert|]. apply Forall_insert; [by apply Forall_insert|apply Hn].
Qed.

Lemma uv_vertical_typed lfthr n r mi_row mi_rows stride s k y uv m c d :
  levels_typed c y -> levels_typed d uv -> levels_typed d (fst (uv_vertical lfthr n r mi_row mi_rows stride s k y uv m)).
Proof.
  intros Hy. revert r s k uv m. induction n as [|n IH]; intros r s k uv m Huv; [done|]. cbn [uv_vertical]. destruct (_ && _); [|done]. cbv zeta. apply IH. by eapply copy_levels_typed.
Qed.

(** filtering keeps the types: from a frame of bytes and masks of their declared widths and
    lengths, the luma filter and the chroma filter leave a frame of bytes, and the chroma filter,
    which stores levels into the mask, leaves a mask of its type. *)
Theorem planes_typed lfthr lfm stride s mi_rows mi_row m :
  bytes m -> lfm_typed lfm ->
  bytes (filter_block_plane_y lfthr lfm stride s mi_rows mi_row m) /\
  bytes (snd (filter_block_plane_uv lfthr lfm stride s mi_rows mi_row m)) /\
  lfm_typed (fst (filter_block_plane_uv lfthr lfm stride s mi_rows mi_row m)).
Proof.
  intros Hm Ht. replace s with (pos s stride 0 0) by (unfold pos; lia).
  split; [|split].
  - by apply (Q_filter_block_plane_y keeps_bytes keeps_bytes_closed); [apply bytes_region|apply bytes_region|].
  - by apply (Q_filter_block_plane_uv keeps_bytes keeps_bytes_closed); [apply bytes_region|apply bytes_region|].
  - rewrite filter_block_plane_uv_eq. cbn [fst]. destruct Ht as (H1 & (H2 & H3) & H4 & H5 & H6 & H7).
    assert (levels_typed 16 (uv_levels lfthr stride lfm (pos s stride 0 0) mi_rows mi_row)) as [? ?] by (by apply (uv_vertical_typed _ _ _ _ _ _ _ _ _ _ _ 64)). done.
Qed.

Lemma planes_typed_witness :
  bytes (snd (filter_block_plane_uv [mkThresh [20] [10] [3]] (mkLfm [0; 0; 0; 0] [0; 0; 0; 0] 0 [1; 2; 4; 0] [0; 0; 0; 0] 0 (repeat 0 64) (repeat 9 16)) 64 0 8 0 (fun a => a mod 251))).
Proof.
  refine (proj1 (proj2 (planes_typed _ _ _ _ _ _ _ _ _))).
  - intros a. unfold is_byte. pose proof (Z.mod_pos_bound a 251). lia.
  - split; [done|]. split; [done|]. unfold is_byte. split; [|split; [|split]]; cbn [int_4x4_y left_y above_y int_4x4_uv left_uv above_uv lfl_y lfl_uv app repeat]; repeat (apply Forall_cons_2; [lia|]); apply Forall_nil_2.
Defined.

(** ** Only a rectangle is read and written *)

Definition col (s0 stride a : Z) : Z := (a - s0 + 8) mod stride - 8.
Definition row (s0 stride a : Z) : Z := (a - s0 + 8) / stride.
Definition rect (s0 stride x0 x1 y0 y1 a : Z) : bool :=
  (x0 <=? col s0 stride a) && (col s0 stride a <? x1) && (y0 <=? row s0 stride a) && (row s0 stride a <? y1).

Lemma rect_pos s0 stride x0 x1 y0 y1 x y :
  -8 <= x < stride - 8 -> x0 <= x < x1 -> y0 <= y < y1 -> rect s0 stride x0 x1 y0 y1 (pos s0 stride x y) = true.
Proof.
  intros Hs Hx Hy. unfold rect, col, row, pos. replace (s0 + y * stride + x - s0 + 8) with (x + 8 + y * stride) by lia.
  rewrite Z.mod_add, Z.div_add by lia. rewrite (Z.mod_small (x + 8)), (Z.div_small (x + 8)) by lia.
  apply andb_true_iff. rewrite !andb_true_iff, !Z.leb_le, !Z.ltb_lt. lia.
Qed.

Lemma touches_closed A : Closed (touches A).
Proof. split; [apply footprint_id|apply footprint_comp|]. intros f g E. apply footprint_ext. intros m a. by rewrite E. Qed.

Lemma length_taps4 b l h v : length (taps4 b l h v) = 0%nat \/ length (taps4 b l h v) = 4%nat.
Proof. do 8 (destruct v as [|? v]; [by left|]). destruct v; [by right|by left]. Qed.
Lemma length_taps8 b l h v : length (taps8 b l h v) = 0%nat \/ length (taps8 b l h v) = 8%nat.
Proof. do 8 (destruct v as [|? v]; [by left|]). destruct v; [|by left]. right. cbn [taps8]. cbv zeta. unfold filter8. by destruct (_ && _). Qed.
Lemma length_taps16 b l h v : length (taps16 b l h v) = 0%nat \/ length (taps16 b l h v) = 16%nat.
Proof. do 16 (destruct v as [|? v]; [by left|]). destruct v; [|by left]. right. cbn [taps16]. cbv zeta. unfold filter16, filter8. destruct (_ && _); [done|]. by destruct (_ && _). Qed.

Lemma edge_touches b l h p s :
  touches (taps s p (-4) 8) (edge4 b l h p s) /\ touches (taps s p (-4) 8) (edge8 b l h p s) /\ touches (taps s p (-8) 16) (edge16 b l h p s).
Proof.
  split; [|split]; apply touches_edge; intros v.
  - destruct (length_taps4 b l h v) as [-> | ->]; lia.
  - destruct (length_taps8 b l h v) as [-> | ->]; lia.
  - destruct (length_taps16 b l h v) as [-> | ->]; lia.
Qed.

Section footprint.
Context (s0 stride x0 x1 y0 y1 : Z) (Hx0 : -8 <= x0) (Hx1 : x1 <= stride - 8).

Notation area := (rect s0 stride x0 x1 y0 y1).

Lemma taps_across x y k n :
  x0 <= x + k /\ x + k + Z.of_nat n <= x1 -> y0 <= y < y1 -> forall a, taps (pos s0 stride x y) 1 k n a = true -> area a = true.
Proof.
  intros Hx Hy a (i & Hi & ->)%taps_spec. replace (pos s0 stride x y + (k + Z.of_nat i) * 1) with (pos s0 stride (x + k + Z.of_nat i) y) by (unfold pos; lia). apply rect_pos; lia.
Qed.

Lemma taps_down x y k n :
  x0 <= x < x1 -> y0 <= y + k /\ y + k + Z.of_nat n <= y1 -> forall a, taps (pos s0 stride x y) stride k n a = true -> area a = true.
Proof.
  intros Hx Hy a (i & Hi & ->)%taps_spec. replace (pos s0 stride x y + (k + Z.of_nat i) * stride) with (pos s0 stride x (y + k + Z.of_nat i)) by (unfold pos; lia). apply rect_pos; lia.
Qed.

Lemma vertical_touches x y (wide : bool) :
  (let d := if wide then 8 else 4 in x0 <= x - d /\ x + d <= x1) -> y0 <= y < y1 -> vertical_ok (touches area) s0 stride x y wide.
Proof.
  intros Hx Hy b l h. destruct (edge_touches b l h 1 (pos s0 stride x y)) as (T4 & T8 & T16). destruct wide; cbv beta zeta iota in *; [|split].
  - refine (footprint_mono _ _ _ _ _ T16). apply taps_across; lia.
  - refine (footprint_mono _ _ _ _ _ T4). apply taps_across; lia.
  - refine (footprint_mono _ _ _ _ _ T8). apply taps_across; lia.
Qed.

Lemma horizontal_touches x y (wide : bool) :
  x0 <= x < x1 -> (let d := if wide then 8 else 4 in y0 <= y - d /\ y + d <= y1) -> horizontal_ok (touches area) s0 stride x y wide.
Proof.
  intros Hx Hy b l h. destruct (edge_touches b l h stride (pos s0 stride x y)) as (T4 & T8 & T16). destruct wide; cbv beta zeta iota in *; [|split].
  - refine (footprint_mono _ _ _ _ _ T16). apply taps_down; lia.
  - refine (footprint_mono _ _ _ _ _ T4). apply taps_down; lia.
  - refine (footprint_mono _ _ _ _ _ T8). apply taps_down; lia.
Qed.

Lemma h_block_touches x y : x0 <= x /\ x + 8 <= x1 -> y0 <= y - 8 /\ y + 8 <= y1 -> h_block_ok (touches area) s0 stride x y.
Proof. intros Hx Hy i Hi. split; [|split]; apply horizontal_touches; lia. Qed.

Lemma v_block_touches x y : x0 <= x - 8 /\ x + 8 <= x1 -> y0 <= y /\ y + 8 <= y1 -> v_block_ok (touches area) s0 stride x y.
Proof. intros Hx Hy i Hi. split; [|split]; apply vertical_touches; lia. Qed.

Lemma region_touches w h x y :
  x0 <= x - 8 /\ x + 8 * Z.of_nat w <= x1 -> y0 <= y - 8 /\ y + 8 * Z.of_nat h <= y1 ->
  v_region_ok (touches area) s0 stride w h x y /\ h_region_ok (touches area) s0 stride w h x y.
Proof. intros Hx Hy. split; intros i j Hi Hj; [apply v_block_touches|apply h_block_touches]; lia. Qed.

End footprint.

(** The luma filter of the region at [(x, y)] stays within 8 pixels left of and above it. *)
Lemma y_footprint lfthr lfm s0 stride mi_rows mi_row x y :
  0 <= x -> x + 64 <= stride - 8 ->
  touches (rect s0 stride (x - 8) (x + 64) (y - 8) (y + 64)) (filter_block_plane_y lfthr lfm stride (pos s0 stride x y) mi_rows mi_row).
Proof. intros H0 H1. apply Q_filter_block_plane_y; [apply touches_closed|apply region_touches; lia|apply region_touches; lia]. Qed.

Lemma uv_footprint lfthr lfm s0 stride mi_rows mi_row x y :
  0 <= x -> x + 32 <= stride - 8 ->
  touches (rect s0 stride (x - 8) (x + 32) (y - 8) (y + 32)) (fun m => snd (filter_block_plane_uv lfthr lfm stride (pos s0 stride x y) mi_rows mi_row m)).
Proof. intros H0 H1. apply Q_filter_block_plane_uv; [apply touches_closed|apply region_touches; lia|apply region_touches; lia]. Qed.

(** ** Pairs of blocks

    Memories are compared address by address. *)

Notation same := (same_at (fun (m : mem) a => m a)).

Lemma along_app a b body step s m : along (a + b) body step s m = along b body step (s + Z.of_nat a * step) (along a body step s m).
Proof.
  revert s m. induction a as [|a IH]; intros s m; [by rewrite Z.mul_0_l, Z.add_0_r|]. cbn [along Nat.add]. rewrite IH. by replace (s + step + Z.of_nat a * step) with (s + Z.of_nat (S a) * step) by lia.
Qed.
Lemma horizontal_16_pair s p t m : vp9_lpf_horizontal_16 s p t 2 m = vp9_lpf_horizontal_16 (s + 8) p t 1 (vp9_lpf_horizontal_16 s p t 1 m).
Proof. exact (along_app 8 8 _ 1 s m). Qed.

#[local] Opaque vp9_lpf_horizontal_4 vp9_lpf_horizontal_8 vp9_lpf_horizontal_16.

(** A row of blocks handled one at a time. *)
Definition horiz_one (stride s : Z) (k : masks) (t : LoopFilterThresh) (m : mem) : mem :=
  if bit0 (mask_16x16 k) then vp9_lpf_horizontal_16 s stride t 1 m
  else if bit0 (mask_8x8 k) then int_single stride s k t (vp9_lpf_horizontal_8 s stride t 1 m)
  else if bit0 (mask_4x4 k) then int_single stride s k t (vp9_lpf_horizontal_4 s stride t 1 m)
  else int_single stride s k t m.

Definition next (k : masks) : masks := map_masks (fun v => Z.shiftr v 1) k.

Fixpoint horiz_each (lfthr : list LoopFilterThresh) (n : nat) (stride s : Z) (k : masks) (lfl : list Z) (i : Z) (m : mem) : mem :=
  match n with
  | O => m
  | S n => horiz_each lfthr n stride (s + 8) (next k) lfl (i + 1) (horiz_one stride s k (thr lfthr lfl i) m)
  end.

(** At most one size for a block, and one level for neighbouring blocks of the largest size. *)
Definition one_size (k : masks) : Prop :=
  forall j, 0 <= j ->
    (Z.testbit (mask_16x16 k) j = true -> Z.testbit (mask_8x8 k) j = false /\ Z.testbit (mask_4x4 k) j = false) /\
    (Z.testbit (mask_8x8 k) j = true -> Z.testbit (mask_4x4 k) j = false).
Definition one_level (lfthr : list LoopFilterThresh) (k : masks) (lfl : list Z) (i : Z) : Prop :=
  forall j, 0 <= j -> Z.testbit (mask_16x16 k) j = true -> Z.testbit (mask_16x16 k) (j + 1) = true -> thr lfthr lfl (i + j) = thr lfthr lfl (i + j + 1).

Lemma bit0_testbit x : bit0 x = Z.testbit x 0.
Proof. unfold bit0. change 1 with (Z.ones 1). rewrite Z.land_ones by lia. change (2 ^ 1) with 2. rewrite Z.bit0_odd, Zmod_odd. by destruct (Z.odd x). Qed.
Lemma bit0_next x : bit0 (Z.shiftr x 1) = Z.testbit x 1.
Proof. rewrite bit0_testbit, Z.shiftr_spec by lia. done. Qed.

Lemma land_3 x : (Z.land x 3 =? 3) = bit0 x && bit0 (Z.shiftr x 1).
Proof.
  rewrite bit0_next, bit0_testbit. apply eq_iff_eq_true. rewrite Z.eqb_eq, andb_true_iff. split.
  - intros E. split; [assert (T : Z.testbit (Z.land x 3) 0 = true) by (by rewrite E)|assert (T : Z.testbit (Z.land x 3) 1 = true) by (by rewrite E)];
      rewrite Z.land_spec in T; apply andb_true_iff in T as [T _]; exact T.
  - intros [H0 H1]. apply Z.bits_inj'. intros n Hn. rewrite Z.land_spec. destruct (Z.eq_dec n 0) as [->|]; [by rewrite H0|]. destruct (Z.eq_dec n 1) as [->|]; [by rewrite H1|].
    rewrite (Z.bits_above_log2 3 n) by (cbn; lia). apply andb_false_r.
Qed.
Lemma land_2 x : (Z.land x 2 =? 0) = negb (bit0 (Z.shiftr x 1)).
Proof.
  rewrite bit0_next. apply eq_iff_eq_true. rewrite Z.eqb_eq, negb_true_iff. split.
  - intros E. assert (T : Z.testbit (Z.land x 2) 1 = false) by (by rewrite E). rewrite Z.land_spec in T. apply andb_false_iff in T as [T|T]; [done|discriminate].
  - intros H1. apply Z.bits_inj'. intros n Hn. rewrite Z.land_spec, Z.bits_0. destruct (Z.eq_dec n 1) as [->|]; [by rewrite H1|].
    destruct (Z.eq_dec n 0) as [->|]; [apply andb_false_r|]. rewrite (Z.bits_above_log2 2 n) by (cbn; lia). apply andb_false_r.
Qed.

Lemma int_pair_eq stride s k t0 t1 m : int_pair stride s k t0 t1 m = int_single stride (s + 8) (next k) t1 (int_single stride s k t0 m).
Proof.
  unfold int_pair, int_single. rewrite land_3, land_2. cbn [next map_masks mask_4x4_int]. unfold vp9_lpf_horizontal_4_dual. replace (s + 4 * stride + 8) with (s + 8 + 4 * stride) by lia.
  by destruct (bit0 (mask_4x4_int k)), (bit0 (Z.shiftr (mask_4x4_int k) 1)).
Qed.

Lemma rect_columns s0 stride x0 x1 x2 y0 y1 a : rect s0 stride x0 x1 y0 y1 a && rect s0 stride x1 x2 y0 y1 a = false.
Proof. unfold rect. destruct (Z.ltb_spec (col s0 stride a) x1), (Z.leb_spec x1 (col s0 stride a)); try lia; rewrite ?andb_false_r; cbn; rewrite ?andb_false_r; done. Qed.

Lemma horiz_one_touches stride s k t : 24 <= stride -> touches (rect s stride 0 8 (-8) 8) (horiz_one stride s k t).
Proof.
  intros Hs. assert (HB : h_block_ok (touches (rect s stride 0 8 (-8) 8)) s stride 0 0) by (apply h_block_touches; lia).
  pose proof (touches_closed (rect s stride 0 8 (-8) 8)) as HC. destruct (Q_h_single _ HC s stride t 0 0 HB) as (A16 & A8 & A4 & _). pose proof (Q_int_single _ HC s stride 0 0 k t HB) as AI.
  replace (pos s stride 0 0) with s in * by (unfold pos; lia). unfold horiz_one.
  apply Q_if; intros _; [exact A16|]. apply Q_if; intros _; [exact (closed_comp _ HC _ _ A8 AI)|]. apply Q_if; intros _; [exact (closed_comp _ HC _ _ A4 AI)|exact AI].
Qed.

Lemma int_single_touches stride s k t : 24 <= stride -> touches (rect s stride 0 8 (-8) 8) (int_single stride s k t).
Proof.
  intros Hs. replace s with (pos s stride 0 0) at 2 by (unfold pos; lia). apply Q_int_single; [apply touches_closed|apply h_block_touches; lia].
Qed.

(** The inner edge of a block and an outer edge of the next block commute. *)
Lemma int_commutes stride s k t0 t1 m :
  24 <= stride ->
  same (int_single stride s k t0 (vp9_lpf_horizontal_8 (s + 8) stride t1 1 m)) (vp9_lpf_horizontal_8 (s + 8) stride t1 1 (int_single stride s k t0 m)) /\
  same (int_single stride s k t0 (vp9_lpf_horizontal_4 (s + 8) stride t1 1 m)) (vp9_lpf_horizontal_4 (s + 8) stride t1 1 (int_single stride s k t0 m)).
Proof.
  intros Hs. assert (HB : h_block_ok (touches (rect s stride 0 8 (-8) 8)) s stride 0 0) by (apply h_block_touches; lia).
  assert (HB' : h_block_ok (touches (rect s stride 8 16 (-8) 8)) s stride 8 0) by (apply h_block_touches; lia).
  pose proof (Q_int_single _ (touches_closed _) s stride 0 0 k t0 HB) as AI. destruct (Q_h_single _ (touches_closed _) s stride t1 8 0 HB') as (_ & B8 & B4 & _).
  replace (pos s stride 0 0) with s in * by (unfold pos; lia). replace (pos s stride 8 0) with (s + 8) in * by (unfold pos; lia).
  split; (refine (footprint_comm _ _ _ _ _ m _ AI _); [intros b; apply rect_columns|]); [exact B8|exact B4].
Qed.

Lemma next_shiftr k : map_masks (fun v => Z.shiftr v 2) k = next (next k).
Proof. unfold next, map_masks. cbn. by rewrite !Z.shiftr_shiftr by lia. Qed.

Lemma one_size_next k : one_size k -> one_size (next k).
Proof. intros H j Hj. cbn [next map_masks mask_16x16 mask_8x8 mask_4x4]. rewrite !Z.shiftr_spec by lia. apply H. lia. Qed.

Lemma one_level_next lfthr k lfl i : one_level lfthr k lfl i -> one_level lfthr (next k) lfl (i + 1).
Proof.
  intros H j Hj. cbn [next map_masks mask_16x16]. rewrite !Z.shiftr_spec by lia. intros H0 H1.
  replace (i + 1 + j) with (i + (j + 1)) by lia. apply H; [lia|done|]. by replace (j + 1 + 1) with (j + 1 + 1) by lia.
Qed.

Lemma horiz_block_eq lfthr stride s k lfl i m :
  horiz_block lfthr s stride k lfl i m =
  let t0 := thr lfthr lfl i in
  let t1 := thr lfthr lfl (i + 1) in
  if bit0 (mask_16x16 k) then
    (if Z.land (mask_16x16 k) 3 =? 3 then (vp9_lpf_horizontal_16 s stride t0 2 m, 2) else (vp9_lpf_horizontal_16 s stride t0 1 m, 1))
  else if bit0 (mask_8x8 k) then
    (if Z.land (mask_8x8 k) 3 =? 3 then (int_pair stride s k t0 t1 (vp9_lpf_horizontal_8_dual s stride t0 t1 m), 2)
     else (int_single stride s k t0 (vp9_lpf_horizontal_8 s stride t0 1 m), 1))
  else if bit0 (mask_4x4 k) then
    (if Z.land (mask_4x4 k) 3 =? 3 then (int_pair stride s k t0 t1 (vp9_lpf_horizontal_4_dual s stride t0 t1 m), 2)
     else (int_single stride s k t0 (vp9_lpf_horizontal_4 s stride t0 1 m), 1))
  else (int_single stride s k t0 m, 1).
Proof. reflexivity. Qed.

(** An iteration on a pair is two iterations on single blocks. *)
Lemma horiz_block_pair lfthr stride s k lfl i m :
  24 <= stride -> one_size k -> one_level lfthr k lfl i -> horiz_count k = 2 ->
  same (fst (horiz_block lfthr s stride k lfl i m)) (horiz_one stride (s + 8) (next k) (thr lfthr lfl (i + 1)) (horiz_one stride s k (thr lfthr lfl i) m)).
Proof.
  intros Hs H1 HL. rewrite horiz_block_eq. unfold horiz_count, horiz_one. cbv zeta.
  destruct (H1 1 ltac:(lia)) as [Ha Hb]. cbn [next map_masks mask_16x16 mask_8x8 mask_4x4]. fold (next k). rewrite !land_3. rewrite <- (bit0_next (mask_16x16 k)), <- (bit0_next (mask_8x8 k)), <- (bit0_next (mask_4x4 k)) in Ha. rewrite <- (bit0_next (mask_8x8 k)), <- (bit0_next (mask_4x4 k)) in Hb.
  pose proof (HL 0 ltac:(lia)) as HL0. rewrite <- bit0_next, <- bit0_testbit in HL0. rewrite Z.add_0_r in HL0.
  destruct (bit0 (mask_16x16 k)); cbn [andb].
  { destruct (bit0 (Z.shiftr (mask_16x16 k) 1)); [|done]. intros _. cbn [fst]. rewrite horizontal_16_pair, HL0 by done. reflexivity. }
  destruct (bit0 (Z.shiftr (mask_16x16 k) 1)).
  { destruct (Ha eq_refl) as [-> ->]. rewrite !andb_false_r. by destruct (bit0 (mask_8x8 k)), (bit0 (mask_4x4 k)). }
  destruct (bit0 (mask_8x8 k)); cbn [andb].
  { destruct (bit0 (Z.shiftr (mask_8x8 k) 1)); [|done]. intros _. cbn [fst]. rewrite int_pair_eq.
    apply (footprint_proper _ _ _ (int_single_touches stride (s + 8) (next k) _ Hs)). apply int_commutes, Hs. }
  destruct (bit0 (mask_4x4 k)); cbn [andb]; [|done]. destruct (bit0 (Z.shiftr (mask_8x8 k) 1)); [by rewrite (Hb eq_refl)|].
  destruct (bit0 (Z.shiftr (mask_4x4 k) 1)); [|done]. intros _. cbn [fst]. rewrite int_pair_eq.
  apply (footprint_proper _ _ _ (int_single_touches stride (s + 8) (next k) _ Hs)). apply int_commutes, Hs.
Qed.

Lemma horiz_block_one lfthr stride s k lfl i m : horiz_count k = 1 -> fst (horiz_block lfthr s stride k lfl i m) = horiz_one stride s k (thr lfthr lfl i) m.
Proof.
  rewrite horiz_block_eq. unfold horiz_count, horiz_one. cbv zeta.
  by repeat match goal with |- context [if ?b then _ else _] => destruct b eqn:? end.
Qed.

Lemma bit0_lor a b : bit0 (Z.lor a b) = bit0 a || bit0 b.
Proof. rewrite !bit0_testbit. apply Z.lor_spec. Qed.

Lemma horiz_one_clear stride s k t m : bit0 (any k) = false -> horiz_one stride s k t m = m.
Proof.
  unfold any. rewrite !bit0_lor. intros H. apply orb_false_iff in H as [[[H1 H2]%orb_false_iff H3]%orb_false_iff H4]. unfold horiz_one, int_single. by rewrite H1, H2, H3, H4.
Qed.

Lemma any_next k : any (next k) = Z.shiftr (any k) 1.
Proof. unfold any. cbn. by rewrite !Z.shiftr_lor. Qed.

Lemma horiz_each_clear lfthr n stride s k lfl i m : any k = 0 -> horiz_each lfthr n stride s k lfl i m = m.
Proof.
  revert s k i m. induction n as [|n IH]; intros s k i m H; [done|]. cbn [horiz_each]. rewrite horiz_one_clear by (by rewrite H). apply IH. by rewrite any_next, H.
Qed.

Lemma horiz_each_proper lfthr n stride s k lfl i : 24 <= stride -> Proper (same ==> same) (horiz_each lfthr n stride s k lfl i).
Proof.
  intros Hs. revert s k i. induction n as [|n IH]; intros s k i m m' Hm; [done|]. cbn [horiz_each]. apply IH. by apply (footprint_proper _ _ _ (horiz_one_touches stride s k _ Hs)).
Qed.

Lemma horiz_loop_each lfthr fuel n stride s k lfl i m :
  24 <= stride -> one_size k -> one_level lfthr k lfl i -> masks_below n k -> (n <= fuel)%nat ->
  same (horiz_loop lfthr fuel s stride (any k) k lfl i m) (horiz_each lfthr n stride s k lfl i m).
Proof.
  intros Hs. revert fuel s k i m. induction n as [n IH] using lt_wf_ind. intros fuel s k i m H1 HL Hk Hn.
  assert (Hz : any k = 0 -> same (horiz_loop lfthr fuel s stride (any k) k lfl i m) (horiz_each lfthr n stride s k lfl i m)).
  { intros E. rewrite horiz_each_clear by done. rewrite E. by destruct fuel. }
  destruct (Z.eq_dec (any k) 0) as [E|E]; [by apply Hz|]. clear Hz. pose proof (any_below _ _ Hk). destruct n as [|n]; [change (2 ^ Z.of_nat 0) with 1 in *; lia|].
  destruct fuel as [|fuel]; [lia|]. cbn [horiz_loop]. rewrite (proj2 (Z.eqb_neq _ _) E). cbn [horiz_each].
  destruct (bit0 (any k)) eqn:EB.
  - pose proof (horiz_block_count lfthr stride s k lfl i m) as Ec. destruct (horiz_count_cases _ _ Hk) as [E1|[E2 Hn2]].
    + pose proof (horiz_block_one lfthr stride s k lfl i m E1) as Eb. destruct (horiz_block lfthr s stride k lfl i m) as [m' c]. cbn [fst snd] in *. subst m' c. rewrite E1. change (8 * 1) with 8. rewrite <- any_next.
      apply (IH n); [lia|by apply one_size_next|by apply one_level_next|by apply (masks_below_shiftr 1)|lia].
    + destruct n as [|n]; [lia|]. pose proof (horiz_block_pair lfthr stride s k lfl i m Hs H1 HL E2) as Eb. destruct (horiz_block lfthr s stride k lfl i m) as [m' c]. cbn [fst snd] in *. subst c. rewrite E2, next_shiftr.
      change (8 * 2) with (8 + 8). change (Z.shiftr (any k) 2) with (Z.shiftr (any k) (1 + 1)). rewrite <- Z.shiftr_shiftr, <- !any_next by lia. rewrite Z.add_assoc. change 2 with (1 + 1). rewrite (Z.add_assoc i).
      cbn [horiz_each]. etransitivity; [apply (IH n); [lia|by apply one_size_next, one_size_next|by apply one_level_next, one_level_next|by apply (masks_below_shiftr 1), (masks_below_shiftr 1)|lia]|].
      by apply horiz_each_proper.
  - rewrite (horiz_one_clear _ _ _ _ _ EB). change (8 * 1) with 8. rewrite <- any_next. apply (IH n); [lia|by apply one_size_next|by apply one_level_next|by apply (masks_below_shiftr 1)|lia].
Qed.

Lemma lor_le_l a b : 0 <= a -> 0 <= b -> a <= Z.lor a b.
Proof. intros Ha Hb. apply Z.ldiff_le; [apply Z.lor_nonneg; lia|]. apply Z.bits_inj'. intros n Hn. rewrite Z.ldiff_spec, Z.lor_spec, Z.bits_0. by destruct (Z.testbit a n), (Z.testbit b n). Qed.

Lemma bits_enough n k : masks_below n k -> masks_below (bits (any k)) k.
Proof.
  intros (H1 & H2 & H3 & H4). assert (HB : forall v, 0 <= v <= any k -> 0 <= v < 2 ^ Z.of_nat (bits (any k))).
  { intros v Hv. split; [lia|]. unfold bits. rewrite Nat2Z.inj_succ, Z2Nat.id by apply Z.log2_nonneg. destruct (Z.eq_dec (any k) 0) as [E|]; [rewrite E in *; cbn; lia|]. pose proof (Z.log2_spec (any k)). lia. }
  unfold any in *. set (b1 := Z.lor (mask_16x16 k) (mask_8x8 k)) in *. set (b2 := Z.lor b1 (mask_4x4 k)) in *.
  assert (0 <= b1) by (apply Z.lor_nonneg; lia). assert (0 <= b2) by (apply Z.lor_nonneg; lia).
  pose proof (lor_le_l (mask_16x16 k) (mask_8x8 k) ltac:(lia) ltac:(lia)). pose proof (lor_le_l (mask_8x8 k) (mask_16x16 k) ltac:(lia) ltac:(lia)) as L8. rewrite Z.lor_comm in L8.
  pose proof (lor_le_l b1 (mask_4x4 k) ltac:(lia) ltac:(lia)). pose proof (lor_le_l (mask_4x4 k) b1 ltac:(lia) ltac:(lia)) as L4. rewrite Z.lor_comm in L4.
  pose proof (lor_le_l b2 (mask_4x4_int k) ltac:(lia) ltac:(lia)). pose proof (lor_le_l (mask_4x4_int k) b2 ltac:(lia) ltac:(lia)) as Li. rewrite Z.lor_comm in Li.
  subst b1 b2. split; [|split; [|split]]; apply HB; lia.
Qed.

Lemma horiz_each_more lfthr n d stride s k lfl i m : masks_below n k -> horiz_each lfthr (n + d) stride s k lfl i m = horiz_each lfthr n stride s k lfl i m.
Proof.
  revert s k i m. induction n as [|n IH]; intros s k i m Hk.
  - rewrite horiz_each_clear; [done|]. pose proof (any_below _ _ Hk). change (2 ^ Z.of_nat 0) with 1 in *. lia.
  - cbn [Nat.add horiz_each]. apply IH. by apply (masks_below_shiftr 1).
Qed.



End LoopPasses.
