(* ===== verification/Wavefront.v ===== *)
(** * Wavefront: the threads of the VP9 loop filter ([cpu_ref/rsCpuIntrinsicLoopFilter.cpp])

    The intrinsic has threads of its own.  A thread takes rows of superblocks in order and filters
    a row in steps of two superblocks; before a step it spins until the row above is two steps
    ahead, which it reads off a chart of progress.  The script's thread signals the workers and
    waits for the last of them.  The machine has one program counter per thread and interleaves
    their accesses to shared memory; the filter calls that make up a step are operations of their
    own, so that steps of different rows overlap in any way.

    The first section is about any such steps: with steps that commute unless the chart orders
    them, every schedule computes what filtering row by row computes, and none gets stuck. *)

From S2P Require Import Prelude.

Module Wavefront.

Definition MAX_SB_ROW : nat := 64.

Section machine.
Context {St Op : Type} (run : Op -> St -> St).

(** The rows and steps of a row, and the filter calls of a step. *)
Context (rows cols : nat) (calls : nat -> nat -> list Op).

(** A worker in [vp9_loop_filter_rows_work_proc]. *)
Inductive wpc :=
| WLoop                                     (** at [while (!quit)] *)
| WReady                                    (** in the loop, before the wait *)
| WWait                                     (** in [pthread_cond_wait(&start_cond[wid], ...)] *)
| WWoken                                    (** woken, before the second test of [quit] *)
| WFetch                                    (** before [android_atomic_inc(&sb_row_pro)] *)
| WGuard (r k : nat)                        (** spinning on [chart] *)
| WBody (r k : nat) (rest : list Op)        (** filtering, [rest] still to do *)
| WRowEnd (r : nat)                         (** after the columns of a row *)
| WDone                                     (** before [--doing] *)
| WExit.                                    (** returned *)

(** The script's thread, in [kernel] or in the destructor. *)
Inductive mpc :=
| MIdle
| MSignal (i : nat)
| MCheck
| MWait                                     (** in [pthread_cond_wait(finish, hmutex)] *)
| MQuit (i : nat)
| MJoin
| MGone.

(** [LoopFilterProgressChart] and the threads. *)
Record machine := mkMachine {
  frame : St; chart : list Z; sb_row_pro : nat; doing : Z; quit : bool; workers : list wpc; main : mpc
}.

Definition put (m : machine) (i : nat) (w : wpc) : machine :=
  mkMachine (frame m) (chart m) (sb_row_pro m) (doing m) (quit m) (<[i := w]> (workers m)) (main m).
Definition set_main (m : machine) (p : mpc) : machine :=
  mkMachine (frame m) (chart m) (sb_row_pro m) (doing m) (quit m) (workers m) p.
Definition set_frame (m : machine) (f : St) : machine :=
  mkMachine f (chart m) (sb_row_pro m) (doing m) (quit m) (workers m) (main m).
Definition set_chart (m : machine) (c : list Z) : machine :=
  mkMachine (frame m) c (sb_row_pro m) (doing m) (quit m) (workers m) (main m).
Definition set_pro (m : machine) (n : nat) : machine :=
  mkMachine (frame m) (chart m) n (doing m) (quit m) (workers m) (main m).

(** The constructor, with [n] processors. *)
Definition init (n : nat) (f : St) : machine :=
  mkMachine f (replicate MAX_SB_ROW 0) 0 (Z.of_nat n) false (replicate n WLoop) MIdle.

(** [pthread_cond_signal(&start_cond[i])]: wakes the worker if it waits, and is lost otherwise. *)
Definition signal (m : machine) (i : nat) : machine :=
  match workers m !! i with Some WWait => put m i WWoken | _ => m end.

(** The head of the loop over the columns. *)
Definition enter (r k : nat) : wpc := if (k <? cols)%nat then WGuard r k else WRowEnd r.

(** [android_atomic_inc(&chart[sb_row + 1])] *)
Definition chart_inc (m : machine) (r : nat) : option machine :=
  c ← chart m !! S r; Some (set_chart m (<[S r := c + 1]> (chart m))).

Definition wstep (i : nat) (m : machine) : option machine :=
  w ← workers m !! i;
  match w with
  | WLoop => Some (put m i (if quit m then WExit else WReady))
  | WReady => Some (put m i WWait)
  | WWait => None
  | WWoken => Some (put m i (if quit m then WExit else WFetch))
  | WFetch =>
      let r := sb_row_pro m in
      Some (put (set_pro m (S r)) i (if (r <? rows)%nat then enter r 0 else WDone))
  | WGuard r k =>
      own ← chart m !! S r;
      above ← chart m !! r;
      if own + 2 >? above then None else Some (put m i (WBody r k (calls r k)))
  | WBody r k (o :: rest) => Some (put (set_frame m (run o (frame m))) i (WBody r k rest))
  | WBody r k [] => m ← chart_inc m r; Some (put m i (enter r (S k)))
  | WRowEnd r => m ← chart_inc m r; Some (put m i WFetch)
  | WDone =>
      let d := doing m - 1 in
      let p := match main m with MWait => if d =? 0 then MIdle else MWait | p => p end in
      Some (put (mkMachine (frame m) (chart m) (sb_row_pro m) d (quit m) (workers m) p) i WLoop)
  | WExit => None
  end.

Definition exited (w : wpc) : bool := match w with WExit => true | _ => false end.

Definition mstep (m : machine) : option machine :=
  match main m with
  | MSignal i => Some (if (i <? length (workers m))%nat then set_main (signal m i) (MSignal (S i)) else set_main m MCheck)
  | MCheck => Some (set_main m (if doing m =? 0 then MIdle else MWait))
  | MQuit i => Some (if (i <? length (workers m))%nat then set_main (signal m i) (MQuit (S i)) else set_main m MJoin)
  | MJoin => if forallb exited (workers m) then Some (set_main m MGone) else None
  | MIdle | MWait | MGone => None
  end.

(** [kernel] called: the chart is cleared. *)
Definition kernel (m : machine) : option machine :=
  match main m with
  | MIdle =>
      Some (mkMachine (frame m) (<[0%nat := 268435455]> (replicate MAX_SB_ROW 0)) 0 (Z.of_nat (length (workers m))) (quit m) (workers m) (MSignal 0))
  | _ => None
  end.

(** The destructor called. *)
Definition destroy (m : machine) : option machine :=
  match main m with
  | MIdle => Some (mkMachine (frame m) (chart m) (sb_row_pro m) (doing m) true (workers m) (MQuit 0))
  | _ => None
  end.

Inductive actor := AMain | AWorker (i : nat).
Definition step (a : actor) (m : machine) : option machine := match a with AMain => mstep m | AWorker i => wstep i m end.

(** Runs of a number of steps. *)
Inductive steps : nat -> machine -> machine -> Prop :=
| steps_refl m : steps 0 m m
| steps_step n m m' m'' a : steps n m m' -> step a m' = Some m'' -> steps (S n) m m''.

Definition stuck (m : machine) : Prop := forall a, step a m = None.

(** What filtering row by row computes. *)
Definition exec (l : list Op) (s : St) : St := foldl (fun s o => run o s) s l.
Definition row_calls (r : nat) : list Op := concat (calls r <$> seq 0 cols).
Definition sequential (s : St) : St := exec (concat (row_calls <$> seq 0 rows)) s.

(** ** Safety *)

Context (eqv : relation St) {Heqv : Equivalence eqv} {Hrun : forall o, Proper (eqv ==> eqv) (run o)}.

(** Operations of steps that the chart does not order commute. *)
Definition unordered (r k r' k' : nat) : Prop := (r < r')%nat /\ (r' = S r -> (k' + 2 <= k)%nat).
Context (Hcomm : forall r k r' k' o o' s,
  (r < rows)%nat -> (k < cols)%nat -> (r' < rows)%nat -> (k' < cols)%nat -> unordered r k r' k' -> o ∈ calls r k -> o' ∈ calls r' k' ->
  eqv (run o (run o' s)) (run o' (run o s))).
Context (Hrows : (rows < MAX_SB_ROW)%nat) (Hcols : Z.of_nat cols < 268435454).

Lemma exec_app l k s : exec (l ++ k) s = exec k (exec l s).
Proof. apply foldl_app. Qed.

#[local] Instance exec_proper l : Proper (eqv ==> eqv) (exec l).
Proof. induction l as [|o l IH]; intros s s' Hs; [done|]. cbn. apply IH. by f_equiv. Qed.

Lemma exec_commute o l s : (forall o', o' ∈ l -> forall s, eqv (run o (run o' s)) (run o' (run o s))) -> eqv (exec l (run o s)) (run o (exec l s)).
Proof.
  revert s. induction l as [|o' l IH]; intros s H; [done|]. cbn. fold (exec l (run o' (run o s))) (exec l (run o' s)).
  rewrite <- (H o' ltac:(left) s). apply IH. intros o'' Ho. apply H. by right.
Qed.

(** The progress of a row: steps completed, and calls of the current step made. *)
Definition done_calls (r : nat) (q : nat * list Op) : list Op := concat (calls r <$> seq 0 q.1) ++ q.2.
Definition executed (p : nat -> nat * list Op) : list Op := concat ((fun r => done_calls r (p r)) <$> seq 0 rows).
Definition started (q : nat * list Op) : nat := match q.2 with [] => q.1 | _ => S q.1 end.
Definition upd_row (p : nat -> nat * list Op) (r : nat) (q : nat * list Op) : nat -> nat * list Op := fun r' => if decide (r' = r) then q else p r'.

Lemma done_calls_step r k : done_calls r (k, calls r k) = done_calls r (S k, []).
Proof. unfold done_calls. cbn [fst snd]. rewrite seq_S, fmap_app, concat_app. cbn. by rewrite !app_nil_r. Qed.

Lemma executed_ext p p' : (forall r, (r < rows)%nat -> done_calls r (p r) = done_calls r (p' r)) -> executed p = executed p'.
Proof. intros H. unfold executed. f_equal. apply list_fmap_ext. intros i r Hr%lookup_seq. apply H. lia. Qed.

Lemma executed_split p r : (r < rows)%nat ->
  exists A B, (forall q, executed (upd_row p r q) = A ++ done_calls r q ++ B) /\ forall o, o ∈ B -> exists r', (r < r' < rows)%nat /\ o ∈ done_calls r' (p r').
Proof.
  intros Hr. exists (concat ((fun r => done_calls r (p r)) <$> seq 0 r)), (concat ((fun r => done_calls r (p r)) <$> seq (S r) (rows - S r))). split.
  - intros q. unfold executed. replace rows with (r + S (rows - S r))%nat at 1 by lia. rewrite seq_app, fmap_app, concat_app. cbn [seq fmap list_fmap concat Nat.add]. f_equal; [|f_equal; [|]].
    + f_equal. apply list_fmap_ext. intros i r' Hr'%lookup_seq. unfold upd_row. rewrite decide_False by lia. done.
    + unfold upd_row. by rewrite decide_True.
    + f_equal. apply list_fmap_ext. intros i r' Hr'%lookup_seq. unfold upd_row. rewrite decide_False by lia. done.
  - intros o Ho. apply list_elem_of_In, in_concat in Ho as (l & Hl & Ho). apply list_elem_of_In, list_elem_of_fmap in Hl as (r' & -> & Hr'). apply elem_of_seq in Hr'. exists r'. split; [lia|]. by apply list_elem_of_In.
Qed.

(** A call made by a row is one of a step that has begun. *)
Definition row_ok (r : nat) (q : nat * list Op) : Prop := (q.1 <= cols)%nat /\ (q.2 = [] \/ (q.1 < cols)%nat /\ exists rest, calls r q.1 = q.2 ++ rest).

Lemma done_calls_elem r q o : row_ok r q -> o ∈ done_calls r q -> exists j, (j < started q)%nat /\ (j < cols)%nat /\ o ∈ calls r j.
Proof.
  destruct q as [k pre]. intros [Hk Hp] Ho. unfold done_calls in Ho. cbn [fst snd] in *. apply elem_of_app in Ho as [Ho|Ho].
  - apply list_elem_of_In, in_concat in Ho as (l & Hl & Ho). apply list_elem_of_In, list_elem_of_fmap in Hl as (j & -> & Hj). apply elem_of_seq in Hj.
    exists j. split; [unfold started; cbn; destruct pre; lia|]. split; [lia|]. by apply list_elem_of_In.
  - destruct Hp as [->|(Hk' & rest & E)]; [by apply elem_of_nil in Ho|]. exists k. split; [unfold started; cbn; destruct pre; [by apply elem_of_nil in Ho|lia]|].
    split; [done|]. rewrite E. apply elem_of_app. by left.
Qed.

Definition holds (w : wpc) : option nat := match w with WGuard r _ | WBody r _ _ | WRowEnd r => Some r | _ => None end.

Definition worker_ok (m : machine) (p : nat -> nat * list Op) (w : wpc) : Prop :=
  match w with
  | WGuard r k => (r < rows)%nat /\ (r < sb_row_pro m)%nat /\ (k < cols)%nat /\ p r = (k, []) /\ chart m !! S r = Some (Z.of_nat k)
  | WBody r k rest =>
      (r < rows)%nat /\ (r < sb_row_pro m)%nat /\ (k < cols)%nat /\ (exists pre, p r = (k, pre) /\ calls r k = pre ++ rest) /\ chart m !! S r = Some (Z.of_nat k) /\
      exists c, chart m !! r = Some c /\ Z.of_nat k + 2 <= c
  | WRowEnd r => (r < rows)%nat /\ (r < sb_row_pro m)%nat /\ p r = (cols, []) /\ chart m !! S r = Some (Z.of_nat cols)
  | WExit => False
  | _ => True
  end.

Record inv (f0 : St) (m : machine) (p : nat -> nat * list Op) : Prop := {
  iv_length : length (chart m) = MAX_SB_ROW;
  iv_chart0 : chart m !! 0%nat = Some 268435455;
  iv_quit : quit m = false;
  iv_workers : forall i w, workers m !! i = Some w -> worker_ok m p w;
  iv_distinct : forall i j w w' r, workers m !! i = Some w -> workers m !! j = Some w' -> holds w = Some r -> holds w' = Some r -> i = j;
  iv_free : forall r, (r < rows)%nat -> (r < sb_row_pro m)%nat -> (forall i w, workers m !! i = Some w -> holds w <> Some r) -> p r = (cols, []) /\ chart m !! S r = Some (Z.of_nat cols + 1);
  iv_fresh : forall r, (r < rows)%nat -> (sb_row_pro m <= r)%nat -> p r = (0%nat, []) /\ chart m !! S r = Some 0;
  iv_row : forall r, (r < rows)%nat -> row_ok r (p r);
  iv_wave : forall r, (S r < rows)%nat -> started (p (S r)) = 0%nat \/ exists c, chart m !! S r = Some c /\ Z.of_nat (started (p (S r))) + 1 <= c;
  iv_frame : eqv (frame m) (exec (executed p) f0)
}.

(** A worker moves on in the row it holds. *)
Lemma inv_in_row f0 m p i w r c w' q c' f' :
  inv f0 m p -> workers m !! i = Some w -> holds w = Some r -> (r < rows)%nat -> (r < sb_row_pro m)%nat -> chart m !! S r = Some c -> c <= c' ->
  let m' := put (set_frame (set_chart m (<[S r := c']> (chart m))) f') i w' in
  let p' := upd_row p r q in
  worker_ok m' p' w' -> (holds w' = Some r \/ holds w' = None /\ q = (cols, []) /\ c' = Z.of_nat cols + 1) ->
  row_ok r q -> (forall r0, r = S r0 -> started q = 0%nat \/ exists c, chart m !! r = Some c /\ Z.of_nat (started q) + 1 <= c) ->
  eqv f' (exec (executed p') f0) -> inv f0 m' p'.
Proof.
  intros HI Hw Hh Hr Hpro Hc Hle m' p' Hw' Hholds Hq Hst Hf.
  assert (Hl : (S r < length (chart m))%nat) by (by eapply lookup_lt_Some). assert (Hi : (i < length (workers m))%nat) by (by eapply lookup_lt_Some).
  assert (HcS : chart m' !! S r = Some c') by (by apply list_lookup_insert_eq).
  assert (Hco : forall r', r' <> S r -> chart m' !! r' = chart m !! r') by (intros; by apply list_lookup_insert_ne).
  assert (Hp : forall r', r' <> r -> p' r' = p r') by (intros r' ?; subst p'; unfold upd_row; by rewrite decide_False).
  assert (Hpr : p' r = q) by (subst p'; unfold upd_row; by rewrite decide_True).
  assert (Hup : forall r' d, chart m !! r' = Some d -> exists d', chart m' !! r' = Some d' /\ d <= d').
  { intros r' d Hd. destruct (decide (r' = S r)) as [->|]; [exists c'; split; [done|]; rewrite Hc in Hd; injection Hd; lia|]. exists d. rewrite Hco by done. split; [done|lia]. }
  assert (Hwk : forall j v, workers m' !! j = Some v -> (j = i /\ v = w') \/ (j <> i /\ workers m !! j = Some v /\ holds v <> Some r)).
  { intros j v Hj. cbn in Hj. destruct (decide (j = i)) as [->|Hne]; [left; rewrite list_lookup_insert_eq in Hj by done; injection Hj; auto|]. right.
    rewrite list_lookup_insert_ne in Hj by done. split; [done|]. split; [done|]. intros Hv. by apply Hne, (iv_distinct _ _ _ HI j i v w r). }
  split.
  - cbn. by rewrite length_insert, (iv_length _ _ _ HI).
  - rewrite Hco by done. apply (iv_chart0 _ _ _ HI).
  - apply (iv_quit _ _ _ HI).
  - intros j v Hj. destruct (Hwk j v Hj) as [[-> ->]|(Hne & Hv & Hnr)]; [done|]. pose proof (iv_workers _ _ _ HI j v Hv) as Hok.
    destruct v as [| | | | |r' k'|r' k' rest|r'| |]; cbn [worker_ok holds] in *; try done; assert (r' <> r) by congruence; rewrite (Hco (S r')), (Hp r') by lia; [done| |done].
    destruct Hok as (? & ? & ? & ? & ? & d & Hd & Hdk). repeat (split; [done|]). destruct (Hup r' d Hd) as (d' & -> & ?). exists d'. split; [done|lia].
  - intros j j' v v' r' Hj Hj' Hv Hv'. destruct (Hwk j v Hj) as [[-> ->]|(Hne & Hjv & Hnr)], (Hwk j' v' Hj') as [[-> ->]|(Hne' & Hjv' & Hnr')]; [done| | |].
    + destruct Hholds as [E|(E & _)]; congruence.
    + destruct Hholds as [E|(E & _)]; congruence.
    + by apply (iv_distinct _ _ _ HI j j' v v' r').
  - intros r' Hr' Hpro' Hfree. destruct (decide (r' = r)) as [->|Hne].
    + destruct Hholds as [E|(_ & Eq & Ec)]; [|by rewrite Hpr, HcS, Eq, Ec]. exfalso. apply (Hfree i w'); [by apply list_lookup_insert_eq|done].
    + rewrite Hp, Hco by lia. apply (iv_free _ _ _ HI); [done|done|]. intros j v Hj Hv. destruct (decide (j = i)) as [->|Hji]; [congruence|].
      apply (Hfree j v); [|done]. cbn. by rewrite list_lookup_insert_ne.
  - intros r' Hr' Hpro'. cbn in Hpro'. rewrite Hp, Hco by lia. by apply (iv_fresh _ _ _ HI).
  - intros r' Hr'. destruct (decide (r' = r)) as [->|]; [by rewrite Hpr|]. rewrite Hp by done. by apply (iv_row _ _ _ HI).
  - intros r' Hr'. destruct (decide (S r' = r)) as [<-|Hne].
    + rewrite Hpr. destruct (Hst r' eq_refl) as [?|(d & Hd & ?)]; [by left|right]. destruct (Hup (S r') d Hd) as (d' & -> & ?). exists d'. split; [done|lia].
    + rewrite Hp by done. destruct (iv_wave _ _ _ HI r' Hr') as [?|(d & Hd & ?)]; [by left|right]. destruct (Hup (S r') d Hd) as (d' & -> & ?). exists d'. split; [done|lia].
  - done.
Qed.

Lemma upd_row_same p r q : p r = q -> executed (upd_row p r q) = executed p.
Proof. intros <-. apply executed_ext. intros r' _. unfold upd_row. by destruct (decide (r' = r)) as [->|]. Qed.

Lemma set_chart_same m r c : chart m !! r = Some c -> set_frame (set_chart m (<[r := c]> (chart m))) (frame m) = m.
Proof. intros H. unfold set_frame, set_chart. cbn. rewrite list_insert_id by done. by destruct m. Qed.

Lemma inv_guard f0 m p i r k c :
  inv f0 m p -> workers m !! i = Some (WGuard r k) -> chart m !! r = Some c -> Z.of_nat k + 2 <= c ->
  exists p', inv f0 (put m i (WBody r k (calls r k))) p'.
Proof.
  intros HI Hw Hc Hk. pose proof (iv_workers _ _ _ HI i _ Hw) as (Hr & Hpro & Hkc & Hp & HcS). exists (upd_row p r (k, [])).
  rewrite <- (set_chart_same m (S r) (Z.of_nat k) HcS) at 1.
  apply (inv_in_row f0 m p i (WGuard r k) r (Z.of_nat k)); try done; [|by left| | |].
  - cbn [worker_ok]. repeat (split; [done|]). split; [exists []; split; [unfold upd_row; by rewrite decide_True|done]|]. cbn. rewrite list_insert_id by done.
    split; [done|]. by exists c.
  - split; [cbn; lia|by left].
  - intros r0 ->. pose proof (iv_wave _ _ _ HI r0 Hr) as Hv. by rewrite Hp in Hv.
  - rewrite upd_row_same by done. apply (iv_frame _ _ _ HI).
Qed.

(** The calls of later rows that have been made commute with those of a step under way. *)
Lemma later_commute f0 m p r k o o' r' s :
  inv f0 m p -> (r < rows)%nat -> (k < cols)%nat -> chart m !! S r = Some (Z.of_nat k) -> o ∈ calls r k ->
  (r < r' < rows)%nat -> o' ∈ done_calls r' (p r') -> eqv (run o (run o' s)) (run o' (run o s)).
Proof.
  intros HI Hr Hk Hc Ho Hr' Ho'. destruct (done_calls_elem r' (p r') o') as (j & Hj & Hjc & Hoj); [apply (iv_row _ _ _ HI); lia|done|].
  apply (Hcomm r k r' j); [done|done|lia|done| |done|done]. split; [lia|]. intros ->.
  destruct (iv_wave _ _ _ HI r ltac:(lia)) as [E|(c & E & Hle)]; [lia|]. rewrite Hc in E. injection E as <-. lia.
Qed.

Lemma inv_call f0 m p i r k o rest :
  inv f0 m p -> workers m !! i = Some (WBody r k (o :: rest)) -> exists p', inv f0 (put (set_frame m (run o (frame m))) i (WBody r k rest)) p'.
Proof.
  intros HI Hw. pose proof (iv_workers _ _ _ HI i _ Hw) as (Hr & Hpro & Hkc & (pre & Hp & Hcalls) & HcS & c & Hc & Hk). exists (upd_row p r (k, pre ++ [o])).
  assert (E : set_frame m (run o (frame m)) = set_frame (set_chart m (<[S r := Z.of_nat k]> (chart m))) (run o (frame m))) by (unfold set_frame, set_chart; cbn; by rewrite list_insert_id).
  rewrite E. apply (inv_in_row f0 m p i (WBody r k (o :: rest)) r (Z.of_nat k)); try done; [|by left| | |].
  - cbn [worker_ok]. repeat (split; [done|]). split; [exists (pre ++ [o]); split; [unfold upd_row; by rewrite decide_True|by rewrite <- app_assoc]|]. cbn. rewrite list_insert_id by done.
    split; [done|]. by exists c.
  - split; [cbn; lia|]. right. split; [done|]. exists rest. cbn. by rewrite <- app_assoc.
  - intros r0 ->. right. exists c. split; [done|]. unfold started. cbn [fst snd]. destruct (pre ++ [o]); lia.
  - destruct (executed_split p r Hr) as (A & B & HAB & HB). pose proof (iv_frame _ _ _ HI) as Hf.
    rewrite <- (upd_row_same p r (k, pre) Hp), HAB in Hf. rewrite HAB. unfold done_calls in *. cbn [fst snd] in *. rewrite <- !app_assoc, !exec_app in *. rewrite Hf.
    symmetry. cbn [exec foldl]. apply exec_commute. intros o' Ho' s. destruct (HB o' Ho') as (r' & Hr' & Hd).
    apply (later_commute f0 m p r k o o' r'); try done. rewrite Hcalls. apply elem_of_app. right. left.
Qed.

Lemma inv_step_end f0 m p i r k :
  inv f0 m p -> workers m !! i = Some (WBody r k []) -> exists m' p', chart_inc m r = Some m' /\ inv f0 (put m' i (enter r (S k))) p'.
Proof.
  intros HI Hw. pose proof (iv_workers _ _ _ HI i _ Hw) as (Hr & Hpro & Hkc & (pre & Hp & Hcalls) & HcS & c & Hc & Hk).
  rewrite app_nil_r in Hcalls. subst pre. unfold chart_inc. rewrite HcS. cbn [mbind option_bind]. eexists _, (upd_row p r (S k, [])). split; [done|].
  change (set_chart m (<[S r := Z.of_nat k + 1]> (chart m))) with (set_frame (set_chart m (<[S r := Z.of_nat k + 1]> (chart m))) (frame m)).
  assert (HlS : (S r < length (chart m))%nat) by (by eapply lookup_lt_Some).
  apply (inv_in_row f0 m p i (WBody r k []) r (Z.of_nat k)); try done; [lia| | | | |].
  - unfold enter. destruct (Nat.ltb_spec (S k) cols); cbn [worker_ok]; repeat (split; [done|]).
    + split; [unfold upd_row; by rewrite decide_True|]. cbn. rewrite list_lookup_insert_eq by done. f_equal. lia.
    + assert (S k = cols) by lia. split; [unfold upd_row; rewrite decide_True by done; congruence|]. cbn. rewrite list_lookup_insert_eq by done. f_equal. lia.
  - left. unfold enter. by destruct (_ <? _)%nat.
  - split; [cbn; lia|by left].
  - intros r0 ->. right. exists c. split; [done|]. unfold started. cbn [fst snd]. lia.
  - rewrite (executed_ext _ p); [apply (iv_frame _ _ _ HI)|]. intros r' _. unfold upd_row. destruct (decide (r' = r)) as [->|]; [|done]. by rewrite Hp, done_calls_step.
Qed.

Lemma inv_row_end f0 m p i r :
  inv f0 m p -> workers m !! i = Some (WRowEnd r) -> exists m' p', chart_inc m r = Some m' /\ inv f0 (put m' i WFetch) p'.
Proof.
  intros HI Hw. pose proof (iv_workers _ _ _ HI i _ Hw) as (Hr & Hpro & Hp & HcS). unfold chart_inc. rewrite HcS. cbn [mbind option_bind].
  eexists _, (upd_row p r (cols, [])). split; [done|].
  change (set_chart m (<[S r := Z.of_nat cols + 1]> (chart m))) with (set_frame (set_chart m (<[S r := Z.of_nat cols + 1]> (chart m))) (frame m)).
  apply (inv_in_row f0 m p i (WRowEnd r) r (Z.of_nat cols)); try done; [lia|by right| | |].
  - split; [cbn; lia|by left].
  - intros r0 ->. pose proof (iv_wave _ _ _ HI r0 Hr) as Hv. by rewrite Hp in Hv.
  - rewrite upd_row_same by done. apply (iv_frame _ _ _ HI).
Qed.

(** Moves that touch neither a row nor the frame. *)
Lemma inv_quiet f0 m p i w w' d mn :
  inv f0 m p -> workers m !! i = Some w -> holds w = None -> holds w' = None -> w' <> WExit ->
  inv f0 (mkMachine (frame m) (chart m) (sb_row_pro m) d (quit m) (<[i := w']> (workers m)) mn) p.
Proof.
  intros HI Hw Hh Hh' Hx. assert (Hi : (i < length (workers m))%nat) by (by eapply lookup_lt_Some).
  assert (Hwk : forall j v, <[i := w']> (workers m) !! j = Some v -> (v = w' /\ holds v = None) \/ (j <> i /\ workers m !! j = Some v)).
  { intros j v. destruct (decide (j = i)) as [->|]; [rewrite list_lookup_insert_eq by done; intros [= <-]; by left|rewrite list_lookup_insert_ne by done; by right]. }
  destruct HI. split; cbn; try done.
  - intros j v Hj. destruct (Hwk j v Hj) as [[-> _]|[_ Hv]]; [by destruct w'|]. by apply iv_workers0 in Hv.
  - intros j j' v v' r Hj Hj' Hv Hv'. destruct (Hwk j v Hj) as [[-> ?]|[_ ?]], (Hwk j' v' Hj') as [[-> ?]|[_ ?]]; try congruence. by apply (iv_distinct0 j j' v v' r).
  - intros r Hr Hpro Hfree. apply iv_free0; [done|done|]. intros j v Hj Hv. destruct (decide (j = i)) as [->|]; [congruence|]. apply (Hfree j v); [by rewrite list_lookup_insert_ne|done].
Qed.

Lemma inv_script f0 m p d mn : inv f0 m p -> inv f0 (mkMachine (frame m) (chart m) (sb_row_pro m) d (quit m) (workers m) mn) p.
Proof. intros []. by split. Qed.

Lemma inv_signal f0 m p i : inv f0 m p -> inv f0 (signal m i) p.
Proof. intros HI. unfold signal. destruct (workers m !! i) as [[]|] eqn:E; try done. unfold put. by apply (inv_quiet f0 m p i WWait). Qed.

Lemma worker_ok_pro m p w n : (sb_row_pro m <= n)%nat -> worker_ok m p w -> worker_ok (set_pro m n) p w.
Proof. intros Hn. destruct w; cbn; try done; intros (? & ? & H); (split; [done|]); (split; [lia|done]). Qed.

Lemma inv_fetch f0 m p i :
  inv f0 m p -> workers m !! i = Some WFetch ->
  inv f0 (put (set_pro m (S (sb_row_pro m))) i (if (sb_row_pro m <? rows)%nat then enter (sb_row_pro m) 0 else WDone)) p.
Proof.
  intros HI Hw. set (r := sb_row_pro m). set (w' := if (r <? rows)%nat then enter r 0 else WDone). assert (Hi : (i < length (workers m))%nat) by (by eapply lookup_lt_Some).
  assert (Hwk : forall j v, <[i := w']> (workers m) !! j = Some v -> (j = i /\ v = w') \/ (j <> i /\ workers m !! j = Some v)).
  { intros j v. destruct (decide (j = i)) as [->|]; [rewrite list_lookup_insert_eq by done; intros [= <-]; by left|rewrite list_lookup_insert_ne by done; by right]. }
  assert (Hh' : forall q, holds w' = Some q -> q = r /\ (r < rows)%nat).
  { intros q. subst w'. destruct (Nat.ltb_spec r rows); [|done]. unfold enter. destruct (_ <? _)%nat; intros [= <-]; done. }
  assert (Hh : (r < rows)%nat -> holds w' = Some r) by (intros Hr; subst w'; destruct (Nat.ltb_spec r rows); [|lia]; unfold enter; by destruct (_ <? _)%nat).
  assert (Hlow : forall j v q, workers m !! j = Some v -> holds v = Some q -> (q < r)%nat).
  { intros j v q Hj Hv. pose proof (iv_workers _ _ _ HI j v Hj) as Hok. destruct v; try done; injection Hv as <-; apply Hok. }
  destruct HI. split; cbn; try done.
  - intros j v Hj. destruct (Hwk j v Hj) as [[-> ->]|[_ Hv]]; [|apply (worker_ok_pro m); [lia|by eapply iv_workers0]].
    subst w'. destruct (Nat.ltb_spec r rows) as [Hr|]; [|done]. destruct (iv_fresh0 r Hr ltac:(lia)) as [Hp Hc]. unfold enter. destruct (Nat.ltb_spec 0 cols); cbn [worker_ok]; cbn; [by auto 10|].
    assert (cols = 0%nat) as -> by lia. by auto 10.
  - intros j j' v v' q Hj Hj' Hv Hv'. destruct (Hwk j v Hj) as [[-> ->]|[_ Hjv]], (Hwk j' v' Hj') as [[-> ->]|[_ Hjv']]; [done| | |by apply (iv_distinct0 j j' v v' q)].
    + destruct (Hh' q Hv). pose proof (Hlow _ _ _ Hjv' Hv'). lia.
    + destruct (Hh' q Hv'). pose proof (Hlow _ _ _ Hjv Hv). lia.
  - intros q Hq Hpro Hfree. destruct (decide (q = r)) as [->|]; [exfalso; apply (Hfree i w'); [by apply list_lookup_insert_eq|by apply Hh]|].
    apply iv_free0; [done|lia|]. intros j v Hj Hv. destruct (decide (j = i)) as [->|]; [rewrite Hw in Hj; by injection Hj as <-|]. apply (Hfree j v); [by rewrite list_lookup_insert_ne|done].
  - intros q Hq Hpro. apply iv_fresh0; [done|lia].
Qed.

Lemma inv_wstep f0 m p i m' : inv f0 m p -> wstep i m = Some m' -> exists p', inv f0 m' p'.
Proof.
  intros HI Hs. unfold wstep in Hs. destruct (workers m !! i) as [w|] eqn:Hw; [|done]. cbn [mbind option_bind] in Hs. pose proof (iv_quit _ _ _ HI) as Hq.
  destruct w as [| | | | |r k|r k [|o rest]|r| |]; cbv zeta in Hs.
  - injection Hs as <-. rewrite Hq. exists p. by apply (inv_quiet f0 m p i WLoop).
  - injection Hs as <-. exists p. by apply (inv_quiet f0 m p i WReady).
  - done.
  - injection Hs as <-. rewrite Hq. exists p. by apply (inv_quiet f0 m p i WWoken).
  - injection Hs as <-. exists p. by apply inv_fetch.
  - pose proof (iv_workers _ _ _ HI i _ Hw) as (_ & _ & _ & _ & HcS). rewrite HcS in Hs. cbn [mbind option_bind] in Hs. destruct (chart m !! r) as [c|] eqn:Hc; [|done]. cbn [mbind option_bind] in Hs.
    destruct (Z.gtb_spec (Z.of_nat k + 2) c) as [|Hle]; [done|]. injection Hs as <-. by apply (inv_guard f0 m p i r k c).
  - destruct (inv_step_end f0 m p i r k HI Hw) as (m1 & p' & E & HI'). rewrite E in Hs. cbn [mbind option_bind] in Hs. injection Hs as <-. by exists p'.
  - injection Hs as <-. by apply (inv_call f0 m p i r k o rest).
  - destruct (inv_row_end f0 m p i r HI Hw) as (m1 & p' & E & HI'). rewrite E in Hs. cbn [mbind option_bind] in Hs. injection Hs as <-. by exists p'.
  - injection Hs as <-. exists p. by apply (inv_quiet f0 m p i WDone).
  - done.
Qed.

Lemma inv_mstep f0 m p m' : inv f0 m p -> mstep m = Some m' -> inv f0 m' p.
Proof.
  intros HI Hs. unfold mstep in Hs. destruct (main m) as [|i| | |i| |]; try done.
  - injection Hs as <-. destruct (_ <? _)%nat; apply inv_script; [by apply inv_signal|done].
  - injection Hs as <-. by apply inv_script.
  - injection Hs as <-. destruct (_ <? _)%nat; apply inv_script; [by apply inv_signal|done].
  - destruct (forallb _ _); [|done]. injection Hs as <-. by apply inv_script.
Qed.

Lemma inv_kernel m m' : kernel m = Some m' -> quit m = false -> (forall w, w ∈ workers m -> holds w = None /\ w <> WExit) -> inv (frame m) m' (fun _ => (0%nat, [])).
Proof.
  intros Hk Hq Hw. unfold kernel in Hk. destruct (main m); try done. apply (inj Some) in Hk. subst m'. split; cbn [chart quit workers frame sb_row_pro].
  - by rewrite length_insert, length_replicate.
  - done.
  - done.
  - intros i w Hi. destruct (Hw w) as [? ?]; [by eapply list_elem_of_lookup_2|]. by destruct w.
  - intros i j w w' r Hi _ Hr _. destruct (Hw w) as [? _]; [by eapply list_elem_of_lookup_2|]. congruence.
  - lia.
  - intros r Hr _. split; [done|]. rewrite list_lookup_insert_ne by done. apply lookup_replicate_2. lia.
  - intros r _. split; [cbn; lia|by left].
  - intros r _. by left.
  - replace (executed (fun _ => (0%nat, []))) with (@nil Op); [done|]. unfold executed. generalize (seq 0 rows) as l. intros l. induction l as [|r l IH]; [done|]. exact IH.
Qed.

(** ** The hand-shake *)

(** Workers below the limit have been signalled. *)
Definition limit (m : machine) : nat := match main m with MSignal i => i | _ => length (workers m) end.
Definition resting (w : wpc) : bool := match w with WLoop | WReady | WWait => true | _ => false end.
Definition undone (m : machine) (j : nat) : bool := (limit m <=? j)%nat || match workers m !! j with Some w => negb (resting w) | None => false end.

Record hinv (m : machine) : Prop := {
  hv_doing : doing m = Z.of_nat (cnt (undone m) (length (workers m)));
  hv_unsignalled : forall j, (limit m <= j)%nat -> (j < length (workers m))%nat -> workers m !! j = Some WWait;
  hv_main : match main m with MSignal i => (i <= length (workers m))%nat | MCheck => True | MWait => doing m <> 0 | MIdle => doing m = 0 | _ => False end;
  hv_done : forall j w, workers m !! j = Some w -> w = WDone \/ (j < limit m)%nat /\ resting w = true -> (rows <= sb_row_pro m)%nat
}.

(** A worker that has been signalled moves. *)
Lemma hinv_move m m' i w w' :
  hinv m -> workers m !! i = Some w -> w <> WWait -> workers m' = <[i := w']> (workers m) -> limit m' = limit m -> (sb_row_pro m <= sb_row_pro m')%nat ->
  doing m' + (if resting w then 0 else 1) = doing m + (if resting w' then 0 else 1) ->
  (w' = WDone \/ resting w' = true -> (rows <= sb_row_pro m')%nat) ->
  match main m' with MSignal i => (i <= length (workers m))%nat | MCheck => True | MWait => doing m' <> 0 | MIdle => doing m' = 0 | _ => False end ->
  hinv m'.
Proof.
  intros HH Hw Hne Hws Hlim Hpro Hd Hr Hm. assert (Hi : (i < length (workers m))%nat) by (by eapply lookup_lt_Some).
  assert (Hil : (i < limit m)%nat) by (destruct (decide (limit m <= i)%nat) as [Hle|]; [|lia]; pose proof (hv_unsignalled _ HH i Hle Hi); congruence).
  assert (Hlen : length (workers m') = length (workers m)) by (by rewrite Hws, length_insert).
  split.
  - pose proof (hv_doing _ HH) as HD. pose proof (cnt_update (undone m') (undone m) (length (workers m)) i Hi) as Hc. rewrite Hlen.
    assert (Ho : forall k, k <> i -> undone m' k = undone m k) by (intros k Hk; unfold undone; by rewrite Hlim, Hws, list_lookup_insert_ne).
    specialize (Hc Ho). assert (E1 : undone m i = negb (resting w)) by (unfold undone; rewrite Hw; by destruct (Nat.leb_spec (limit m) i); [lia|]).
    assert (E2 : undone m' i = negb (resting w')) by (unfold undone; rewrite Hlim, Hws, list_lookup_insert_eq by done; by destruct (Nat.leb_spec (limit m) i); [lia|]).
    rewrite E1, E2 in Hc. destruct (resting w), (resting w'); cbn in Hc; lia.
  - intros j Hj Hjn. rewrite Hws, list_lookup_insert_ne by lia. apply (hv_unsignalled _ HH); lia.
  - by rewrite Hlen.
  - intros j v Hj Hv. rewrite Hws in Hj. destruct (decide (j = i)) as [->|]; [rewrite list_lookup_insert_eq in Hj by done; injection Hj as <-; apply Hr; tauto|].
    rewrite list_lookup_insert_ne in Hj by done. rewrite Hlim in Hv. pose proof (hv_done _ HH j v Hj Hv). lia.
Qed.

Lemma hinv_same_main m m' : hinv m -> main m' = main m -> doing m' = doing m ->
  match main m' with MSignal i => (i <= length (workers m))%nat | MCheck => True | MWait => doing m' <> 0 | MIdle => doing m' = 0 | _ => False end.
Proof. intros HH Hm Hd. pose proof (hv_main _ HH). by rewrite Hm, Hd. Qed.

Lemma enter_resting r k : resting (enter r k) = false /\ enter r k <> WDone.
Proof. unfold enter. by destruct (_ <? _)%nat. Qed.

Lemma chart_inc_fields m r m' : chart_inc m r = Some m' ->
  workers m' = workers m /\ main m' = main m /\ doing m' = doing m /\ sb_row_pro m' = sb_row_pro m /\ quit m' = quit m.
Proof. unfold chart_inc. destruct (chart m !! S r); [|done]. cbn. by intros [= <-]. Qed.

Lemma hinv_wstep m i m' : hinv m -> quit m = false -> wstep i m = Some m' -> hinv m'.
Proof.
  intros HH Hq Hs. unfold wstep in Hs. destruct (workers m !! i) as [w|] eqn:Hw; [|done]. cbn [mbind option_bind] in Hs. pose proof (hinv_same_main m) as HS.
  assert (Hkeep : forall m1 w', workers m1 = workers m -> main m1 = main m -> doing m1 = doing m -> (sb_row_pro m <= sb_row_pro m1)%nat -> w <> WWait -> resting w = resting w' ->
    (w' = WDone \/ resting w' = true -> (rows <= sb_row_pro m1)%nat) -> hinv (put m1 i w')).
  { intros m1 w' E1 E2 E3 E4 E5 E6 E7. apply (hinv_move m (put m1 i w') i w w'); try done; cbn.
    - by rewrite E1.
    - unfold limit. cbn. rewrite E1, E2. by destruct (main m); rewrite ?length_insert.
    - rewrite E3, E6. done.
    - by apply (HS m1). }
  assert (Hsig : w <> WWait -> (i < limit m)%nat).
  { intros Hne. destruct (decide (limit m <= i)%nat) as [Hle|]; [|lia]. pose proof (hv_unsignalled _ HH i Hle ltac:(by eapply lookup_lt_Some)). congruence. }
  destruct w as [| | | | |r k|r k [|o rest]|r| |]; cbv zeta in Hs; try done.
  - injection Hs as <-. rewrite Hq. apply Hkeep; try done. intros _. apply (hv_done _ HH i WLoop Hw). right. split; [|done]. by apply Hsig.
  - injection Hs as <-. apply Hkeep; try done. intros _. apply (hv_done _ HH i WReady Hw). right. split; [|done]. by apply Hsig.
  - injection Hs as <-. rewrite Hq. apply Hkeep; try done. by intros [?|?].
  - injection Hs as <-. apply Hkeep; try done; cbn [sb_row_pro set_pro]; try lia.
    + destruct (Nat.ltb_spec (sb_row_pro m) rows); [|done]. by destruct (enter_resting (sb_row_pro m) 0) as [-> _].
    + destruct (Nat.ltb_spec (sb_row_pro m) rows); [|lia]. destruct (enter_resting (sb_row_pro m) 0) as [-> ?]. by intros [?|?].
  - destruct (chart m !! S r); [|done]. destruct (chart m !! r); [|done]. cbn in Hs. destruct (_ >? _); [done|]. injection Hs as <-. apply Hkeep; try done. by intros [?|?].
  - destruct (chart_inc m r) as [m1|] eqn:E; [|done]. injection Hs as <-. destruct (chart_inc_fields _ _ _ E) as (? & ? & ? & E4 & _). destruct (enter_resting r (S k)) as [Er ?]. apply Hkeep; try done; [lia|]. rewrite Er. by intros [?|?].
  - injection Hs as <-. apply Hkeep; try done. by intros [?|?].
  - destruct (chart_inc m r) as [m1|] eqn:E; [|done]. injection Hs as <-. destruct (chart_inc_fields _ _ _ E) as (? & ? & ? & E4 & _). apply Hkeep; try done; [lia|]. by intros [?|?].
  - injection Hs as <-. assert (Hpos : doing m <> 0).
    { intros E. pose proof (hv_doing _ HH) as HD. assert (cnt (undone m) (length (workers m)) = 0%nat) as Hz by lia. pose proof (cnt_zero _ _ i Hz ltac:(by eapply lookup_lt_Some)) as Hu. unfold undone in Hu. rewrite Hw in Hu. cbn in Hu. by rewrite orb_true_r in Hu. }
    pose proof (hv_done _ HH i WDone Hw ltac:(by left)) as Hr. pose proof (hv_main _ HH) as HM.
    eapply (hinv_move m _ i WDone WLoop HH Hw); try done.
    + unfold limit. cbn. destruct (main m); try done; rewrite ?length_insert; try done. by destruct (_ =? _); rewrite ?length_insert.
    + cbn. lia.
    + cbn. destruct (main m); try done. by destruct (Z.eqb_spec (doing m - 1) 0).
Qed.

Lemma hinv_mstep m m' : hinv m -> mstep m = Some m' -> hinv m'.
Proof.
  intros HH Hs. unfold mstep in Hs. pose proof (hv_main _ HH) as HM. destruct (main m) as [|i| | |i| |] eqn:EM; try done; injection Hs as <-.
  - destruct (Nat.ltb_spec i (length (workers m))) as [Hi|Hi].
    + assert (Hlim : limit m = i) by (unfold limit; by rewrite EM). pose proof (hv_unsignalled _ HH i ltac:(lia) Hi) as Hw. unfold signal. rewrite Hw. split; cbn.
      * rewrite length_insert, (hv_doing _ HH). f_equal. apply cnt_ext. intros j Hj. unfold undone. rewrite Hlim. unfold limit. cbn [main workers set_main put]. destruct (decide (j = i)) as [->|].
        -- rewrite list_lookup_insert_eq by done. destruct (Nat.leb_spec i i), (Nat.leb_spec (S i) i); try lia; done.
        -- rewrite list_lookup_insert_ne by done. destruct (Nat.leb_spec i j), (Nat.leb_spec (S i) j); try lia; done.
      * unfold limit. cbn. intros j Hj Hjn. rewrite length_insert in Hjn. rewrite list_lookup_insert_ne by lia. apply (hv_unsignalled _ HH); lia.
      * rewrite length_insert. lia.
      * unfold limit. cbn. intros j w Hj Hv. destruct (decide (j = i)) as [->|]; [rewrite list_lookup_insert_eq in Hj by done; injection Hj as <-; by destruct Hv as [?|[_ ?]]|].
        rewrite list_lookup_insert_ne in Hj by done. apply (hv_done _ HH j w Hj). rewrite Hlim. destruct Hv as [?|[? ?]]; [by left|right; split; [lia|done]].
    + assert (Hlim : limit m = length (workers m)) by (unfold limit; rewrite EM; lia). destruct HH as [H1 H2 H3 H4]. unfold undone in *. rewrite Hlim in *. by split.
  - assert (Hlim : limit m = length (workers m)) by (unfold limit; by rewrite EM). destruct HH as [H1 H2 H3 H4]. unfold undone in *. rewrite Hlim in *. split; cbn; unfold limit; cbn.
    + rewrite H1. f_equal. apply cnt_ext. intros j Hj. unfold undone, limit. cbn. by destruct (_ =? _).
    + intros j Hj Hjn. apply H2; [|done]. destruct (_ =? _); lia.
    + by destruct (Z.eqb_spec (doing m) 0).
    + intros j w Hj Hv. apply (H4 j w Hj). by destruct (_ =? _).
Qed.

Lemma hinv_kernel m m' : kernel m = Some m' -> (forall w, w ∈ workers m -> w = WWait) -> hinv m'.
Proof.
  intros Hk Hw. unfold kernel in Hk. destruct (main m); try done. apply (inj Some) in Hk. subst m'.
  assert (Hwk : forall j, (j < length (workers m))%nat -> workers m !! j = Some WWait).
  { intros j Hj. destruct (lookup_lt_is_Some_2 _ _ Hj) as [w E]. rewrite E. f_equal. apply Hw. by eapply list_elem_of_lookup_2. }
  split; cbn; unfold limit; cbn.
  - by rewrite cnt_true.
  - auto.
  - lia.
  - intros j w Hj [->|[? _]]; [|lia]. pose proof (Hw WDone ltac:(by eapply list_elem_of_lookup_2)). done.
Qed.

(** ** Progress *)

Definition good (f0 : St) (m : machine) : Prop := (exists p, inv f0 m p) /\ hinv m.

Lemma good_step f0 a m m' : good f0 m -> step a m = Some m' -> good f0 m'.
Proof.
  intros [[p HI] HH] Hs. destruct a as [|i]; cbn in Hs.
  - split; [exists p; by apply (inv_mstep _ m)|by apply (hinv_mstep m)].
  - split; [by apply (inv_wstep _ m p i)|]. apply (hinv_wstep m i); [done|by apply (iv_quit _ _ _ HI)|done].
Qed.

(** Some worker can move when one has a row: a worker on the first of the rows in hand never has to wait. *)
Lemma row_moves f0 m p r i w : inv f0 m p -> workers m !! i = Some w -> holds w = Some r -> exists a m', step a m = Some m'.
Proof.
  intros HI. revert i w. induction (lt_wf r) as [r _ IH]. intros i w Hw Hh. pose proof (iv_workers _ _ _ HI i w Hw) as Hok.
  destruct w as [| | | | |r' k|r' k [|o rest]|r'| |]; try done; injection Hh as ->; cbn [worker_ok] in Hok.
  - destruct Hok as (Hr & Hpro & Hk & Hp & Hc).
    assert (Hgo : forall c, chart m !! r = Some c -> Z.of_nat k + 2 <= c -> exists a m', step a m = Some m').
    { intros c E Hle. exists (AWorker i). cbn. unfold wstep. rewrite Hw. cbn [mbind option_bind]. rewrite Hc, E. cbn [mbind option_bind]. destruct (Z.gtb_spec (Z.of_nat k + 2) c); [lia|]. by eexists. }
    destruct r as [|r0]; [apply (Hgo 268435455); [apply (iv_chart0 _ _ _ HI)|lia]|].
    destruct (decide (Exists (fun v => holds v = Some r0) (workers m))) as [(v & (j & Hj)%list_elem_of_lookup_1 & Hv)%Exists_exists|Hno].
    + by apply (IH r0 ltac:(lia) j v).
    + destruct (iv_free _ _ _ HI r0 ltac:(lia) ltac:(lia)) as [_ E]; [|apply (Hgo _ E); lia].
      intros j v Hj Hv. apply Hno, Exists_exists. exists v. split; [by eapply list_elem_of_lookup_2|done].
  - destruct (inv_step_end f0 m p i r k HI Hw) as (m1 & _ & E & _). exists (AWorker i). cbn. unfold wstep. rewrite Hw. cbn [mbind option_bind]. rewrite E. by eexists.
  - exists (AWorker i). cbn. unfold wstep. rewrite Hw. by eexists.
  - destruct (inv_row_end f0 m p i r HI Hw) as (m1 & _ & E & _). exists (AWorker i). cbn. unfold wstep. rewrite Hw. cbn [mbind option_bind]. rewrite E. by eexists.
Qed.

Lemma good_moves f0 m : good f0 m -> main m <> MIdle -> exists a m', step a m = Some m'.
Proof.
  intros [[p HI] HH] Hm. pose proof (hv_main _ HH) as HM. destruct (main m) as [|i| | | | |] eqn:EM; try done.
  - exists AMain. cbn. unfold mstep. rewrite EM. by eexists.
  - exists AMain. cbn. unfold mstep. rewrite EM. by eexists.
  - assert (Hu : exists j, (j < length (workers m))%nat /\ undone m j = true).
    { destruct (decide (Exists (fun j => undone m j = true) (seq 0 (length (workers m))))) as [(j & Hj & Hu)%Exists_exists|Hno]; [apply elem_of_seq in Hj; exists j; split; [lia|done]|].
      exfalso. apply HM. rewrite (hv_doing _ HH), cnt_false; [done|]. intros j Hj. apply not_true_is_false. intros E. apply Hno, Exists_exists. exists j. split; [apply elem_of_seq; lia|done]. }
    destruct Hu as (j & Hj & Hu). unfold undone, limit in Hu. rewrite EM in Hu. destruct (Nat.leb_spec (length (workers m)) j); [lia|].
    destruct (workers m !! j) as [w|] eqn:Hw; [|done]. pose proof (iv_workers _ _ _ HI j w Hw) as Hok.
    destruct w as [| | | | |r k|r k rest|r| |]; try done; try (by apply (row_moves f0 m p r j _ HI Hw)); exists (AWorker j); cbn; unfold wstep; rewrite Hw; by eexists.
Qed.

(** Idle again, the script's thread finds the frame filtered. *)
Lemma good_result f0 m : good f0 m -> main m = MIdle -> (0 < length (workers m))%nat -> eqv (frame m) (sequential f0).
Proof.
  intros [[p HI] HH] Hm Hn. rewrite (iv_frame _ _ _ HI). pose proof (hv_main _ HH) as HM. rewrite Hm in HM.
  assert (Hl : limit m = length (workers m)) by (unfold limit; by rewrite Hm).
  assert (Hrest : forall j w, workers m !! j = Some w -> resting w = true).
  { intros j w Hj. pose proof (lookup_lt_Some _ _ _ Hj). assert (Hz : cnt (undone m) (length (workers m)) = 0%nat) by (pose proof (hv_doing _ HH); lia).
    pose proof (cnt_zero _ _ j Hz ltac:(done)) as Hu. unfold undone in Hu. rewrite Hj in Hu. apply orb_false_iff in Hu as [_ Hu]. by apply negb_false_iff in Hu. }
  assert (Hpro : (rows <= sb_row_pro m)%nat).
  { destruct (lookup_lt_is_Some_2 _ _ Hn) as [w Hw]. apply (hv_done _ HH 0%nat w Hw). right. split; [lia|by apply (Hrest 0%nat)]. }
  unfold sequential. replace (executed p) with (concat (row_calls <$> seq 0 rows)); [done|]. unfold executed. f_equal. apply list_fmap_ext. intros i r Hr%lookup_seq.
  destruct (iv_free _ _ _ HI r ltac:(lia) ltac:(lia)) as [-> _]; [|unfold done_calls; cbn; by rewrite app_nil_r].
  intros j w Hj E. pose proof (Hrest j w Hj). by destruct w.
Qed.

(** ** Termination *)

(** What remains of a row from a column on, for a worker and for the script's thread. *)
Definition tail (r k : nat) : nat := sum_list_with (fun j => 2 + length (calls r j))%nat (seq k (cols - k)) + 5.
Definition cost (w : wpc) : nat :=
  match w with
  | WWait | WExit => 0 | WReady => 1 | WLoop => 2 | WDone => 3 | WFetch => 4 | WWoken => 5
  | WGuard r k => tail r k | WBody r k rest => length rest + 1 + tail r (S k) | WRowEnd r => 5
  end.
Definition main_cost (m : machine) : nat :=
  match main m with MSignal i => 2 + 6 * (length (workers m) - i) | MCheck => 1 | MQuit i => 2 + 6 * (length (workers m) - i) | MJoin => 1 | _ => 0 end.
Definition measure (m : machine) : nat :=
  sum_list_with cost (workers m) + sum_list_with (fun r => tail r 0) (seq (sb_row_pro m) (rows - sb_row_pro m)) + main_cost m.

Lemma tail_step r k : (k < cols)%nat -> tail r k = (2 + length (calls r k) + tail r (S k))%nat.
Proof. intros Hk. unfold tail. replace (cols - k)%nat with (S (cols - S k)) by lia. cbn. lia. Qed.

Lemma enter_cost r k : cost (enter r k) = tail r k.
Proof. unfold enter. destruct (Nat.ltb_spec k cols); [done|]. unfold tail. by replace (cols - k)%nat with 0%nat by lia. Qed.

(** A worker's move that leaves rows and the script's thread alone. *)
Lemma measure_put m m1 i w w' :
  workers m !! i = Some w -> workers m1 = workers m -> main_cost (put m1 i w') = main_cost m -> sb_row_pro m1 = sb_row_pro m -> (cost w' < cost w)%nat -> (measure (put m1 i w') < measure m)%nat.
Proof. intros Hw E1 E2 E3 Hc. unfold measure. rewrite E2. cbn [workers sb_row_pro put]. rewrite E1, E3. pose proof (sum_list_with_insert cost (workers m) i w w' Hw). lia. Qed.

Lemma main_cost_put m m1 i w : workers m1 = workers m -> main m1 = main m -> main_cost (put m1 i w) = main_cost m.
Proof. intros E1 E2. unfold main_cost. cbn. by rewrite E2, length_insert, E1. Qed.

Lemma measure_wstep f0 m p i m' : inv f0 m p -> wstep i m = Some m' -> (measure m' < measure m)%nat.
Proof.
  intros HI Hs. pose proof (iv_quit _ _ _ HI) as Hq. unfold wstep in Hs. destruct (workers m !! i) as [w|] eqn:Hw; [|done]. cbn [mbind option_bind] in Hs. pose proof (iv_workers _ _ _ HI i w Hw) as Hok.
  destruct w as [| | | | |r k|r k [|o rest]|r| |]; cbv zeta in Hs; try done.
  - injection Hs as <-. rewrite Hq. eapply measure_put; [done|done|by apply main_cost_put|done|]. cbn. lia.
  - injection Hs as <-. eapply measure_put; [done|done|by apply main_cost_put|done|]. cbn. lia.
  - injection Hs as <-. rewrite Hq. eapply measure_put; [done|done|by apply main_cost_put|done|]. cbn. lia.
  - injection Hs as <-. unfold measure. rewrite (main_cost_put m) by done. cbn [workers sb_row_pro put set_pro]. set (r := sb_row_pro m).
    destruct (Nat.ltb_spec r rows) as [Hr|Hr].
    + pose proof (sum_list_with_insert cost (workers m) i WFetch (enter r 0) Hw) as E. rewrite enter_cost in E. cbn [cost] in E. replace (rows - r)%nat with (S (rows - S r)) by lia. cbn [seq sum_list_with]. lia.
    + pose proof (sum_list_with_insert cost (workers m) i WFetch WDone Hw) as E. cbn [cost] in E. replace (rows - r)%nat with 0%nat by lia. replace (rows - S r)%nat with 0%nat by lia. cbn. lia.
  - destruct (chart m !! S r); [|done]. destruct (chart m !! r); [|done]. cbn in Hs. destruct (_ >? _); [done|]. injection Hs as <-. eapply measure_put; [done|done| |done|]; [by apply main_cost_put|]. destruct Hok as (_ & _ & Hk & _). cbn. rewrite (tail_step r k Hk). lia.
  - destruct (chart_inc m r) as [m1|] eqn:E; [|done]. injection Hs as <-. destruct (chart_inc_fields _ _ _ E) as (? & ? & ? & E4 & _). eapply measure_put; [done|done|by apply main_cost_put|done|]. rewrite enter_cost. cbn. lia.
  - injection Hs as <-. eapply measure_put; [done|done|by apply main_cost_put|done|]. cbn. lia.
  - destruct (chart_inc m r) as [m1|] eqn:E; [|done]. injection Hs as <-. destruct (chart_inc_fields _ _ _ E) as (? & ? & ? & E4 & _). eapply measure_put; [done|done|by apply main_cost_put|done|]. cbn. lia.
  - injection Hs as <-. eapply measure_put; [done|done| |done|cbn; lia]. unfold main_cost. cbn. destruct (main m); rewrite ?length_insert; try done. by destruct (_ =? _).
Qed.

Lemma measure_mstep m m' : hinv m -> mstep m = Some m' -> (measure m' < measure m)%nat.
Proof.
  intros HH Hs. pose proof (hv_main _ HH) as HM. unfold mstep in Hs. destruct (main m) as [|i| | |i| |] eqn:EM; try done; injection Hs as <-.
  - destruct (Nat.ltb_spec i (length (workers m))) as [Hi|Hi].
    + assert (Hw : workers m !! i = Some WWait) by (apply (hv_unsignalled _ HH); [unfold limit; by rewrite EM|done]). unfold signal. rewrite Hw. unfold measure, main_cost. cbn [main workers set_main put sb_row_pro]. rewrite EM, length_insert.
      pose proof (sum_list_with_insert cost (workers m) i WWait WWoken Hw) as E. cbn [cost] in E. lia.
    + unfold measure, main_cost. cbn [main workers set_main sb_row_pro]. rewrite EM. lia.
  - unfold measure, main_cost. cbn [main workers set_main sb_row_pro]. rewrite EM. destruct (_ =? _); lia.
Qed.

Lemma measure_decreases f0 a m m' : good f0 m -> step a m = Some m' -> (measure m' < measure m)%nat.
Proof. intros [[p HI] HH] Hs. destruct a as [|i]; [by apply measure_mstep|by apply (measure_wstep f0 m p i)]. Qed.

Lemma steps_workers n m m' : steps n m m' -> length (workers m') = length (workers m).
Proof.
  induction 1 as [|n m m' m'' a Hs IH E]; [done|]. rewrite <- IH. clear -E. destruct a as [|i]; cbn in E.
  - unfold mstep in E. assert (Hsig : forall j, length (workers (signal m' j)) = length (workers m')) by (intros j; unfold signal; destruct (workers m' !! j) as [[]|]; cbn; by rewrite ?length_insert).
    destruct (main m') as [|j| | |j| |]; try done; [| | |destruct (forallb _ _); [|done]]; injection E as <-; [destruct (_ <? _)%nat| |destruct (_ <? _)%nat|]; cbn; auto.
  - unfold wstep in E. destruct (workers m' !! i) as [w|]; [|done]. cbn [mbind option_bind] in E.
    assert (Hci : forall r m1, chart_inc m' r = Some m1 -> workers m1 = workers m') by (intros r m1 Hc; by apply (chart_inc_fields _ _ _ Hc)).
    destruct w as [| | | | |r k|r k [|o rest]|r| |]; cbv zeta in E; try done; try (injection E as <-; cbn; apply length_insert).
    + destruct (chart m' !! S r); [|done]. destruct (chart m' !! r); [|done]. cbn in E. destruct (_ >? _); [done|]. injection E as <-. apply length_insert.
    + destruct (chart_inc m' r) as [m1|] eqn:Ec; [|done]. injection E as <-. cbn. by rewrite length_insert, (Hci r m1 Ec).
    + destruct (chart_inc m' r) as [m1|] eqn:Ec; [|done]. injection E as <-. cbn. by rewrite length_insert, (Hci r m1 Ec).
Qed.

Lemma steps_good f0 n m m' : good f0 m -> steps n m m' -> good f0 m' /\ (n + measure m' <= measure m)%nat.
Proof.
  intros Hg Hs. induction Hs as [|n m m' m'' a Hs IH E]; [split; [done|lia]|]. destruct (IH Hg) as [Hg' Hle]. split; [by eapply good_step|]. pose proof (measure_decreases f0 a m' m'' Hg' E). lia.
Qed.

(** Started with all workers waiting, a call of [kernel] ends whatever the schedule, and then
    the frame is as if filtered row by row. *)
Lemma kernel_correct m0 m1 n m :
  (forall w, w ∈ workers m0 -> w = WWait) -> (0 < length (workers m0))%nat -> quit m0 = false -> kernel m0 = Some m1 -> steps n m1 m ->
  (n <= measure m1)%nat /\ (stuck m -> main m = MIdle) /\ (main m = MIdle -> eqv (frame m) (sequential (frame m0))).
Proof.
  intros Hw Hn Hq Hk Hs. assert (Hg : good (frame m0) m1).
  { split; [exists (fun _ => (0%nat, [])); apply (inv_kernel m0 m1 Hk Hq); intros w Hin; by rewrite (Hw w Hin)|by apply (hinv_kernel m0)]. }
  destruct (steps_good _ _ _ _ Hg Hs) as [Hg' Hle]. split; [lia|]. split.
  - intros Hst. destruct (main m) eqn:EM; [done|..]; exfalso; (destruct (good_moves _ _ Hg') as (a & m' & E); [by rewrite EM|by rewrite (Hst a) in E]).
  - intros Hm. apply good_result; [done|done|]. rewrite (steps_workers _ _ _ Hs). unfold kernel in Hk. destruct (main m0); try done. apply (inj Some) in Hk. by subst m1.
Qed.

(** ** Lost signals *)

Fixpoint run_schedule (l : list actor) (m : machine) : option machine :=
  match l with
  | [] => Some m
  | a :: l => m ← step a m; run_schedule l m
  end.

Lemma run_schedule_steps l n m m' m'' : steps n m m' -> run_schedule l m' = Some m'' -> steps (n + length l) m m''.
Proof.
  revert n m'. induction l as [|a l IH]; intros n m' Hs E; [injection E as <-; by rewrite Nat.add_0_r|]. cbn in E. destruct (step a m') as [m1|] eqn:E1; [|done]. cbn in E.
  cbn [length]. rewrite <- Nat.add_succ_comm. apply (IH (S n) m1); [by apply (steps_step n m m' m1 a)|done].
Qed.

(** a signal to a worker that does not wait yet is lost, and with it the progress of the
    script's thread: with one worker, a first call of [kernel] right after the constructor can
    end with both threads waiting for each other, and so can a destructor that runs while the
    worker is between its test of [quit] and its wait. *)
Theorem signals_may_be_lost (f : St) :
  (exists m1 n m, kernel (init 1 f) = Some m1 /\ steps n m1 m /\ stuck m /\ main m = MWait /\ workers m = [WWait]) /\
  (exists m0 m1 n m, steps 1 (init 1 f) m0 /\ destroy m0 = Some m1 /\ steps n m1 m /\ stuck m /\ main m = MJoin /\ workers m = [WWait]).
Proof.
  split.
  - eexists _, _, _. split; [reflexivity|]. split; [apply (run_schedule_steps [AMain; AMain; AMain; AWorker 0; AWorker 0] 0 _ _ _ (steps_refl _)); reflexivity|].
    split; [|done]. by intros [|[|i]].
  - eexists _, _, _, _. split; [apply (run_schedule_steps [AWorker 0] 0 _ _ _ (steps_refl _)); reflexivity|]. split; [reflexivity|].
    split; [apply (run_schedule_steps [AMain; AMain; AWorker 0] 0 _ _ _ (steps_refl _)); reflexivity|]. split; [|done]. by intros [|[|i]].
Qed.

End machine.

End Wavefront.
