(* ===== verification/LoopRows.v ===== *)
(** * LoopRows: filtering a frame ([cpu_ref/rsCpuIntrinsicLoopFilter.cpp])

    The loop over the columns of a row of superblocks in [vp9_loop_filter_rows_work_proc]: the
    filter calls of a step, with the mask index and the pointers into the planes as the code
    moves them.  The rows run on the machine of [Wavefront]; the footprints of [LoopPasses] show
    that steps which the chart leaves unordered commute, so that every schedule filters the
    frame as one thread would, row after row. *)

From S2P Require Import Prelude LoopFilter LoopPasses Wavefront.

Module LoopRows.
Import LoopFilter LoopPasses Wavefront.

Record BufferInfo := mkBufferInfo { y_offset : Z; u_offset : Z; v_offset : Z; y_stride : Z; uv_stride : Z }.

(** [LoopFilterProgressChart]: the fields that the script sets. *)
Record params := mkParams {
  start : Z; stop : Z; num_planes : Z; mi_rows : Z; mi_cols : Z;
  buf_info : BufferInfo; buffer_alloc : Z; lf_info : list LoopFilterThresh
}.

(** [setGlobalVar], for the slots it knows and data of the right size. *)
Definition setGlobalVar (slot : Z) (data : list Z) (P : params) : option params :=
  match slot, data with
  | 0, [a; b; c; d; e] => Some (mkParams a b c d e (buf_info P) (buffer_alloc P) (lf_info P))
  | 1, [a; b; c; d; e] => Some (mkParams (start P) (stop P) (num_planes P) (mi_rows P) (mi_cols P) (mkBufferInfo a b c d e) (buffer_alloc P) (lf_info P))
  | _, _ => None
  end.

(** The masks and the frame buffer. *)
Definition store : Type := (Z -> LoopFilterMask) * mem.

(** A call of [filter_block_plane_y] or [filter_block_plane_uv]. *)
Inductive call :=
| Luma (mi_row lfm_idx buf : Z)
| Chroma (mi_row lfm_idx buf : Z).

Section frame.
Context (P : params).

Definition run_call (c : call) (s : store) : store :=
  match c with
  | Luma mi_row idx buf => (s.1, filter_block_plane_y (lf_info P) (s.1 idx) (y_stride (buf_info P)) buf (mi_rows P) mi_row s.2)
  | Chroma mi_row idx buf =>
      let '(lfm, m) := filter_block_plane_uv (lf_info P) (s.1 idx) (uv_stride (buf_info P)) buf (mi_rows P) mi_row s.2 in
      (fun i => if i =? idx then lfm else s.1 i, m)
  end.

(** The variables of the loop over the columns. *)
Record cursor := mkCursor { lfm_idx : Z; buf0 : Z; buf1 : Z; buf2 : Z; mi_col : Z }.

Definition sb_cols : Z := Z.shiftr (mi_cols P + 7) 3.

Definition row_start (sb_row : Z) : cursor :=
  let mi_row := sb_row * MI_BLOCK_SIZE + start P in
  let b := buf_info P in
  mkCursor (sb_row * sb_cols)
    (buffer_alloc P + y_offset b + Z.shiftl (mi_row * y_stride b) 3)
    (buffer_alloc P + u_offset b + Z.shiftl (mi_row * uv_stride b) 2)
    (buffer_alloc P + v_offset b + Z.shiftl (mi_row * uv_stride b) 2) 0.

(** An iteration: the calls it makes between the chart's guard and its increment. *)
Definition loop_body (mi_row : Z) (c : cursor) : list call * cursor :=
  let '(mkCursor idx b0 b1 b2 col) := c in
  let calls := [Luma mi_row idx b0] in
  let col := col + MI_BLOCK_SIZE in
  let '(calls, idx, b0) :=
    if col <? mi_cols P then
      let idx := idx + 1 in
      let b0 := b0 + MI_BLOCK_SIZE * MI_BLOCK_SIZE in
      (calls ++ [Luma mi_row idx b0], idx, b0)
    else (calls, idx, b0) in
  let b0 := b0 + MI_BLOCK_SIZE * MI_BLOCK_SIZE in
  let '(calls, idx, b1, b2) :=
    if num_planes P >? 1 then
      let idx := idx - 1 in
      let calls := calls ++ [Chroma mi_row idx b1; Chroma mi_row idx b2] in
      let '(calls, idx, b1, b2) :=
        if col <? mi_cols P then
          let idx := idx + 1 in
          let b1 := b1 + Z.shiftr (MI_BLOCK_SIZE * MI_BLOCK_SIZE) 1 in
          let b2 := b2 + Z.shiftr (MI_BLOCK_SIZE * MI_BLOCK_SIZE) 1 in
          (calls ++ [Chroma mi_row idx b1; Chroma mi_row idx b2], idx, b1, b2)
        else (calls, idx, b1, b2) in
      (calls, idx, b1 + Z.shiftr (MI_BLOCK_SIZE * MI_BLOCK_SIZE) 1, b2 + Z.shiftr (MI_BLOCK_SIZE * MI_BLOCK_SIZE) 1)
    else (calls, idx, b1, b2) in
  (calls, mkCursor (idx + 1) b0 b1 b2 (col + MI_BLOCK_SIZE)).

(** One thread alone: a row, and the rows from [start] to [stop]. *)
Fixpoint filter_row (fuel : nat) (mi_row : Z) (c : cursor) (s : store) : store :=
  match fuel with
  | O => s
  | S fuel =>
      if mi_col c <? mi_cols P then
        let '(calls, c) := loop_body mi_row c in
        filter_row fuel mi_row c (exec run_call calls s)
      else s
  end.
Fixpoint filter_rows (fuel : nat) (sb_row : Z) (s : store) : store :=
  match fuel with
  | O => s
  | S fuel =>
      let mi_row := sb_row * MI_BLOCK_SIZE + start P in
      if mi_row <? stop P then filter_rows fuel (sb_row + 1) (filter_row (Z.to_nat (mi_cols P)) mi_row (row_start sb_row) s) else s
  end.

(** The rows, and the steps of a row, as the machine has them. *)
Definition rows : nat := Z.to_nat ((stop P - start P + 7) / 8).
Definition cols : nat := Z.to_nat ((mi_cols P + 15) / 16).
Definition cursor_at (r k : nat) : cursor := Nat.iter k (fun c => (loop_body (Z.of_nat r * MI_BLOCK_SIZE + start P) c).2) (row_start (Z.of_nat r)).
Definition calls (r k : nat) : list call := (loop_body (Z.of_nat r * MI_BLOCK_SIZE + start P) (cursor_at r k)).1.

(** The tests of the code are those of the machine. *)
Lemma rows_test (r : nat) : (r <? rows)%nat = (Z.of_nat r * MI_BLOCK_SIZE + start P <? stop P).
Proof.
  unfold rows, MI_BLOCK_SIZE. apply eq_iff_eq_true. rewrite Nat.ltb_lt, Z.ltb_lt. pose proof (Z.div_mod (stop P - start P + 7) 8). pose proof (Z.mod_pos_bound (stop P - start P + 7) 8). lia.
Qed.

Lemma cols_test (k : nat) : (k <? cols)%nat = (16 * Z.of_nat k <? mi_cols P).
Proof.
  unfold cols. apply eq_iff_eq_true. rewrite Nat.ltb_lt, Z.ltb_lt. pose proof (Z.div_mod (mi_cols P + 15) 16). pose proof (Z.mod_pos_bound (mi_cols P + 15) 16). lia.
Qed.

Definition two (k : Z) : bool := 16 * k + 8 <? mi_cols P.

(** The calls of an iteration whose variables are as expected. *)
Definition step_calls (r k : Z) : list call :=
  let mi_row := r * 8 + start P in
  let b := buf_info P in
  let i := r * sb_cols + 2 * k in
  let y := buffer_alloc P + y_offset b + 8 * mi_row * y_stride b + 128 * k in
  let u := buffer_alloc P + u_offset b + 4 * mi_row * uv_stride b + 64 * k in
  let v := buffer_alloc P + v_offset b + 4 * mi_row * uv_stride b + 64 * k in
  [Luma mi_row i y] ++ (if two k then [Luma mi_row (i + 1) (y + 64)] else []) ++
  (if num_planes P >? 1 then
     (let j := if two k then i else i - 1 in [Chroma mi_row j u; Chroma mi_row j v]) ++
     (if two k then [Chroma mi_row (i + 1) (u + 32); Chroma mi_row (i + 1) (v + 32)] else [])
   else []).

Definition step_cursor (r k : Z) : cursor :=
  let mi_row := r * 8 + start P in
  let b := buf_info P in
  let d := if num_planes P >? 1 then 64 * k else 0 in
  mkCursor (r * sb_cols + 2 * k) (buffer_alloc P + y_offset b + 8 * mi_row * y_stride b + 128 * k)
    (buffer_alloc P + u_offset b + 4 * mi_row * uv_stride b + d) (buffer_alloc P + v_offset b + 4 * mi_row * uv_stride b + d) (16 * k).

Lemma loop_body_step r k : (loop_body (r * 8 + start P) (step_cursor r k)).1 = step_calls r k.
Proof.
  unfold loop_body, step_cursor, step_calls, two. cbv zeta. change (MI_BLOCK_SIZE * MI_BLOCK_SIZE) with 64. change (Z.shiftr 64 1) with 32. change MI_BLOCK_SIZE with 8.
  destruct (16 * k + 8 <? mi_cols P), (num_planes P >? 1); cbn [fst snd app]; repeat f_equal; lia.
Qed.

Lemma loop_body_next r k : two k = true -> (loop_body (r * 8 + start P) (step_cursor r k)).2 = step_cursor r (k + 1).
Proof.
  unfold loop_body, step_cursor, two. intros Ht. cbv zeta. change (MI_BLOCK_SIZE * MI_BLOCK_SIZE) with 64. change (Z.shiftr 64 1) with 32. change MI_BLOCK_SIZE with 8.
  rewrite Ht. destruct (num_planes P >? 1); cbn [fst snd]; f_equal; lia.
Qed.

Lemma row_start_eq r : row_start r = step_cursor r 0.
Proof.
  unfold row_start, step_cursor. cbv zeta. change MI_BLOCK_SIZE with 8. rewrite !Z.shiftl_mul_pow2 by lia. change (2 ^ 3) with 8. change (2 ^ 2) with 4. destruct (num_planes P >? 1); f_equal; lia.
Qed.

Lemma two_before (j k : nat) : (j < k)%nat -> (k < cols)%nat -> two (Z.of_nat j) = true.
Proof. intros Hj Hk. apply Nat.ltb_lt in Hk. rewrite cols_test in Hk. apply Z.ltb_lt in Hk. apply Z.ltb_lt. lia. Qed.

Lemma cursor_at_eq r k : (k < cols)%nat -> cursor_at r k = step_cursor (Z.of_nat r) (Z.of_nat k).
Proof.
  induction k as [|k IH]; intros Hk; [apply row_start_eq|]. unfold cursor_at in *. rewrite Nat.iter_succ, IH by lia. change MI_BLOCK_SIZE with 8. rewrite loop_body_next by (apply (two_before k (S k)); lia).
  f_equal. lia.
Qed.

Lemma calls_eq r k : (k < cols)%nat -> calls r k = step_calls (Z.of_nat r) (Z.of_nat k).
Proof. intros Hk. unfold calls. rewrite cursor_at_eq by done. apply loop_body_step. Qed.

(** ** One thread alone *)

Lemma filter_row_exec r s : filter_row (Z.to_nat (mi_cols P)) (Z.of_nat r * MI_BLOCK_SIZE + start P) (row_start (Z.of_nat r)) s = exec run_call (row_calls cols calls r) s.
Proof.
  assert (H : forall n k s, (n + k = cols)%nat -> forall fuel, (n <= fuel)%nat ->
    filter_row fuel (Z.of_nat r * MI_BLOCK_SIZE + start P) (cursor_at r k) s = exec run_call (concat (calls r <$> seq k n)) s).
  { induction n as [|n IH]; intros k s' Hk fuel Hf.
    - assert (Hend : forall c, mi_cols P <= mi_col c -> filter_row fuel (Z.of_nat r * MI_BLOCK_SIZE + start P) c s' = s').
      { intros c Hc. destruct fuel; [done|]. cbn [filter_row]. by destruct (Z.ltb_spec (mi_col c) (mi_cols P)); [lia|]. }
      apply Hend. assert (E : mi_col (cursor_at r k) = 16 * Z.of_nat k).
      { clear. induction k as [|k IH]; [reflexivity|]. unfold cursor_at in *. rewrite Nat.iter_succ. unfold loop_body. destruct (Nat.iter k _ _) as [idx b0 b1 b2 col]. cbn [mi_col] in IH. subst col. unfold MI_BLOCK_SIZE.
        destruct (_ <? _), (_ >? _); cbn [fst snd mi_col]; lia. }
      rewrite E. pose proof (cols_test k) as Ht. destruct (Nat.ltb_spec k cols); [lia|]. symmetry in Ht. apply Z.ltb_ge in Ht. lia.
    - destruct fuel as [|fuel]; [lia|]. cbn [filter_row]. rewrite (cursor_at_eq r k) at 1 by lia. cbn [mi_col step_cursor]. rewrite <- cols_test. destruct (Nat.ltb_spec k cols); [|lia].
      pose proof (eq_refl (calls r k)) as Ec. unfold calls in Ec at 1. destruct (loop_body (Z.of_nat r * MI_BLOCK_SIZE + start P) (cursor_at r k)) as [cs c'] eqn:E. cbn [fst] in Ec.
      replace c' with (cursor_at r (S k)) by (unfold cursor_at; rewrite Nat.iter_succ; fold (cursor_at r k); by rewrite E). rewrite IH by lia. cbn [seq fmap list_fmap concat]. unfold exec. by rewrite foldl_app, <- Ec. }
  apply (H cols 0%nat); [lia|]. unfold cols. pose proof (Z.div_mod (mi_cols P + 15) 16). pose proof (Z.mod_pos_bound (mi_cols P + 15) 16). lia.
Qed.

Lemma filter_rows_exec s : filter_rows rows 0 s = sequential run_call rows cols calls s.
Proof.
  unfold sequential. assert (H : forall n r s, (r + n = rows)%nat -> filter_rows n (Z.of_nat r) s = exec run_call (concat (row_calls cols calls <$> seq r n)) s); [|apply (H rows 0%nat); lia].
  induction n as [|n IH]; intros r s' Hr; [done|]. cbn [filter_rows]. rewrite <- rows_test. destruct (Nat.ltb_spec r rows); [|lia]. rewrite filter_row_exec.
  replace (Z.of_nat r + 1) with (Z.of_nat (S r)) by lia. rewrite IH by lia. cbn [seq fmap list_fmap concat]. unfold exec. by rewrite foldl_app.
Qed.

(** ** Footprints *)

(** A pixel or a mask. *)
Inductive loc := Pix (a : Z) | Msk (i : Z).
Definition look (s : store) (l : loc) : Z + LoopFilterMask := match l with Pix a => inl (s.2 a) | Msk i => inr (s.1 i) end.

Definition y_base : Z := buffer_alloc P + y_offset (buf_info P).
Definition u_base : Z := buffer_alloc P + u_offset (buf_info P).
Definition v_base : Z := buffer_alloc P + v_offset (buf_info P).

(** What a step may read and write of the luma plane and of a chroma plane, and its masks. *)
Definition y_area (r k a : Z) : bool :=
  rect y_base (y_stride (buf_info P)) (128 * k - 8) (128 * k + 128) (64 * r + 8 * start P - 8) (64 * r + 8 * start P + 64) a.
Definition c_area (base r k a : Z) : bool :=
  (num_planes P >? 1) && rect base (uv_stride (buf_info P)) (64 * k - 8) (64 * k + 64) (32 * r + 4 * start P - 8) (32 * r + 4 * start P + 32) a.
Definition area (r k : Z) (l : loc) : bool :=
  match l with
  | Pix a => y_area r k a || c_area u_base r k a || c_area v_base r k a
  | Msk i => let j := r * sb_cols + 2 * k in (j - (if two k then 0 else 1) <=? i) && (i <? j + (if two k then 2 else 1))
  end.

(** The planes are wide enough for the columns and a border of 8 pixels, and do not overlap. *)
Definition apart (a b c d : Z) : Prop := b <= c \/ d <= a.
Definition y_lo : Z := y_base + (8 * start P - 8) * y_stride (buf_info P) - 8.
Definition y_hi : Z := y_base + (8 * start P + 64 * Z.of_nat rows) * y_stride (buf_info P) - 8.
Definition c_lo (base : Z) : Z := base + (4 * start P - 8) * uv_stride (buf_info P) - 8.
Definition c_hi (base : Z) : Z := base + (4 * start P + 32 * Z.of_nat rows) * uv_stride (buf_info P) - 8.

Record layout_ok : Prop := {
  lo_y : 128 * Z.of_nat cols + 8 <= y_stride (buf_info P);
  lo_c : num_planes P > 1 -> 64 * Z.of_nat cols + 8 <= uv_stride (buf_info P);
  lo_apart : num_planes P > 1 -> apart y_lo y_hi (c_lo u_base) (c_hi u_base) /\ apart y_lo y_hi (c_lo v_base) (c_hi v_base) /\ apart (c_lo u_base) (c_hi u_base) (c_lo v_base) (c_hi v_base)
}.

#[local] Opaque filter_block_plane_y filter_block_plane_uv.

(** A call is an operation on the masks it is given and the pixels it may touch. *)
Lemma luma_footprint A mi_row idx buf :
  A (Msk idx) = true -> (forall lfm, touches (fun a => A (Pix a)) (filter_block_plane_y (lf_info P) lfm (y_stride (buf_info P)) buf (mi_rows P) mi_row)) ->
  footprint look A (run_call (Luma mi_row idx buf)).
Proof.
  intros Hi HT. split.
  - intros s [a|i] Ha; cbn [look run_call fst snd]; [|done]. f_equal. by apply (HT (s.1 idx)).
  - intros s s' Hs [a|i] Ha; cbn [look run_call fst snd]; [|by apply (Hs (Msk i))]. f_equal. pose proof (Hs (Msk idx) Hi) as E. injection E as ->. apply (HT (s'.1 idx)); [|done]. intros b Hb. pose proof (Hs (Pix b) Hb) as E'. by injection E'.
Qed.

Lemma chroma_footprint A mi_row idx buf :
  A (Msk idx) = true -> (forall lfm, touches (fun a => A (Pix a)) (fun m => snd (filter_block_plane_uv (lf_info P) lfm (uv_stride (buf_info P)) buf (mi_rows P) mi_row m))) ->
  footprint look A (run_call (Chroma mi_row idx buf)).
Proof.
  intros Hi HT.
  assert (E : forall s, run_call (Chroma mi_row idx buf) s =
    (fun i => if i =? idx then set_lfl_uv (s.1 idx) (uv_levels (lf_info P) (uv_stride (buf_info P)) (s.1 idx) buf (mi_rows P) mi_row) else s.1 i,
     snd (filter_block_plane_uv (lf_info P) (s.1 idx) (uv_stride (buf_info P)) buf (mi_rows P) mi_row s.2))).
  { intros s. cbn [run_call]. by rewrite filter_block_plane_uv_eq. }
  split.
  - intros s [a|i] Ha; rewrite E; cbn [look fst snd]; f_equal; [by apply (HT (s.1 idx))|]. destruct (Z.eqb_spec i idx) as [->|]; [congruence|done].
  - intros s s' Hs l Ha. pose proof (Hs (Msk idx) Hi) as Em. injection Em as Em. rewrite !E. destruct l as [a|i]; cbn [look fst snd]; f_equal.
    + rewrite Em. apply (HT (s'.1 idx)); [|done]. intros b Hb. pose proof (Hs (Pix b) Hb) as E'. by injection E'.
    + rewrite Em. destruct (i =? idx); [done|]. pose proof (Hs (Msk i) Ha) as E'. by injection E'.
Qed.

Lemma rect_mono s0 stride x0 x1 y0 y1 x0' x1' y0' y1' a :
  x0' <= x0 -> x1 <= x1' -> y0' <= y0 -> y1 <= y1' -> rect s0 stride x0 x1 y0 y1 a = true -> rect s0 stride x0' x1' y0' y1' a = true.
Proof. unfold rect. rewrite !andb_true_iff, !Z.leb_le, !Z.ltb_lt. lia. Qed.

Section step.
Context (HL : layout_ok) (r k : nat) (Hr : (r < rows)%nat) (Hk : (k < cols)%nat).

Notation mi_row := (Z.of_nat r * 8 + start P).

Lemma luma_area (idx d : Z) :
  area (Z.of_nat r) (Z.of_nat k) (Msk idx) = true -> 0 <= d -> d + 64 <= 128 ->
  footprint look (area (Z.of_nat r) (Z.of_nat k)) (run_call (Luma mi_row idx (pos y_base (y_stride (buf_info P)) (128 * Z.of_nat k + d) (8 * mi_row)))).
Proof.
  intros Hm Hd1 Hd2. apply luma_footprint; [done|]. intros lfm. pose proof (lo_y HL). refine (footprint_mono _ _ _ _ _ (y_footprint _ _ _ _ _ _ _ _ _ _)); [|lia|lia].
  intros a Ha. apply orb_true_iff. left. apply orb_true_iff. left. revert Ha. apply rect_mono; lia.
Qed.

Lemma chroma_area (base idx d : Z) :
  num_planes P > 1 -> base = u_base \/ base = v_base -> area (Z.of_nat r) (Z.of_nat k) (Msk idx) = true -> 0 <= d -> d + 32 <= 64 ->
  footprint look (area (Z.of_nat r) (Z.of_nat k)) (run_call (Chroma mi_row idx (pos base (uv_stride (buf_info P)) (64 * Z.of_nat k + d) (4 * mi_row)))).
Proof.
  intros Hn Hb Hm Hd1 Hd2. apply chroma_footprint; [done|]. intros lfm. pose proof (lo_c HL Hn). refine (footprint_mono _ _ _ _ _ (uv_footprint _ _ _ _ _ _ _ _ _ _)); [|lia|lia].
  intros a Ha. assert (E : c_area base (Z.of_nat r) (Z.of_nat k) a = true).
  { unfold c_area. rewrite (proj2 (Z.gtb_lt _ _)) by lia. revert Ha. apply rect_mono; lia. }
  cbn [area]. destruct Hb as [-> | ->]; rewrite E; [by rewrite orb_true_r|apply orb_true_r].
Qed.

Lemma calls_area o : o ∈ calls r k -> footprint look (area (Z.of_nat r) (Z.of_nat k)) (run_call o).
Proof.
  rewrite (calls_eq r k Hk). unfold step_calls. cbv zeta. fold y_base u_base v_base. set (b := buf_info P).
  assert (Ey : forall d, y_base + 8 * mi_row * y_stride b + 128 * Z.of_nat k + d = pos y_base (y_stride b) (128 * Z.of_nat k + d) (8 * mi_row)) by (intros; unfold pos; lia).
  assert (Ec : forall base d, base + 4 * mi_row * uv_stride b + 64 * Z.of_nat k + d = pos base (uv_stride b) (64 * Z.of_nat k + d) (4 * mi_row)) by (intros; unfold pos; lia).
  assert (Ey0 := Ey 0). assert (Ec0 := fun base => Ec base 0). rewrite Z.add_0_r in Ey0. setoid_rewrite Z.add_0_r in Ec0 at 1.
  rewrite Ey, Ey0, !Ec, !Ec0. intros Ho.
  assert (Hm0 : area (Z.of_nat r) (Z.of_nat k) (Msk (Z.of_nat r * sb_cols + 2 * Z.of_nat k)) = true).
  { cbn [area]. apply andb_true_iff. rewrite Z.leb_le, Z.ltb_lt. destruct (two _); lia. }
  assert (Hm1 : two (Z.of_nat k) = true -> area (Z.of_nat r) (Z.of_nat k) (Msk (Z.of_nat r * sb_cols + 2 * Z.of_nat k + 1)) = true).
  { intros E. cbn [area]. apply andb_true_iff. rewrite E, Z.leb_le, Z.ltb_lt. lia. }
  assert (Hm2 : two (Z.of_nat k) = false -> area (Z.of_nat r) (Z.of_nat k) (Msk (Z.of_nat r * sb_cols + 2 * Z.of_nat k - 1)) = true).
  { intros E. cbn [area]. apply andb_true_iff. rewrite E, Z.leb_le, Z.ltb_lt. lia. }
  destruct (two (Z.of_nat k)), (Z.gtb_spec (num_planes P) 1) as [Hn|Hn]; cbn [app] in Ho; apply Z.lt_gt in Hn || clear Hn;
    repeat (apply elem_of_cons in Ho as [->|Ho]; [first [apply luma_area; [auto|lia|lia]|apply chroma_area; [done|auto|auto|lia|lia]]|]); by apply elem_of_nil in Ho.
Qed.

End step.

(** ** Steps that the chart leaves unordered commute *)

Lemma rect_range s0 stride x0 x1 y0 y1 a : 0 < stride -> rect s0 stride x0 x1 y0 y1 a = true -> s0 + y0 * stride - 8 <= a < s0 + y1 * stride - 8.
Proof.
  unfold rect, col, row. rewrite !andb_true_iff, !Z.leb_le, !Z.ltb_lt. intros Hs [[[_ _] H0] H1].
  pose proof (Z.div_mod (a - s0 + 8) stride ltac:(lia)) as E. pose proof (Z.mod_pos_bound (a - s0 + 8) stride Hs). set (q := (a - s0 + 8) / stride) in *.
  assert (y0 * stride <= stride * q) by nia. assert (stride * q <= (y1 - 1) * stride) by nia. lia.
Qed.

Lemma rect_apart s0 stride x0 x1 y0 y1 x0' x1' y0' y1' a :
  x1 <= x0' \/ x1' <= x0 \/ y1 <= y0' \/ y1' <= y0 -> rect s0 stride x0 x1 y0 y1 a = true -> rect s0 stride x0' x1' y0' y1' a = true -> False.
Proof. unfold rect. rewrite !andb_true_iff, !Z.leb_le, !Z.ltb_lt. lia. Qed.


Section apart.
Context (HL : layout_ok).

Lemma y_area_range r k a : (r < rows)%nat -> (0 < cols)%nat -> y_area (Z.of_nat r) k a = true -> y_lo <= a < y_hi.
Proof.
  intros Hr Hc H. pose proof (lo_y HL). set (s := y_stride (buf_info P)) in *. apply rect_range in H; [|lia]. unfold y_lo, y_hi. fold s. fold s in H.
  assert ((8 * start P - 8) * s <= (64 * Z.of_nat r + 8 * start P - 8) * s) by nia. assert ((64 * Z.of_nat r + 8 * start P + 64) * s <= (8 * start P + 64 * Z.of_nat rows) * s) by nia. lia.
Qed.

Lemma c_area_range base r k a : (r < rows)%nat -> (0 < cols)%nat -> c_area base (Z.of_nat r) k a = true -> num_planes P > 1 /\ c_lo base <= a < c_hi base.
Proof.
  intros Hr Hc H. unfold c_area in H. apply andb_true_iff in H as [Hn H]. apply Z.gtb_lt in Hn. split; [lia|]. pose proof (lo_c HL ltac:(lia)). set (s := uv_stride (buf_info P)) in *.
  apply rect_range in H; [|lia]. unfold c_lo, c_hi. fold s. fold s in H.
  assert ((4 * start P - 8) * s <= (32 * Z.of_nat r + 4 * start P - 8) * s) by nia. assert ((32 * Z.of_nat r + 4 * start P + 32) * s <= (4 * start P + 32 * Z.of_nat rows) * s) by nia. lia.
Qed.

Lemma y_area_apart r k r' k' a : unordered r k r' k' -> y_area (Z.of_nat r) (Z.of_nat k) a = true -> y_area (Z.of_nat r') (Z.of_nat k') a = true -> False.
Proof. intros [Hr Hk]. apply rect_apart. destruct (decide (r' = S r)); [specialize (Hk ltac:(done))|]; lia. Qed.

Lemma c_area_apart base r k r' k' a : unordered r k r' k' -> c_area base (Z.of_nat r) (Z.of_nat k) a = true -> c_area base (Z.of_nat r') (Z.of_nat k') a = true -> False.
Proof.
  intros [Hr Hk] [_ H]%andb_true_iff [_ H']%andb_true_iff. revert H H'. apply rect_apart. destruct (decide (r' = S r)); [specialize (Hk ltac:(done))|]; lia.
Qed.

Lemma sb_cols_cols : 0 < mi_cols P -> 1 <= sb_cols /\ forall k, (k < cols)%nat -> 2 * Z.of_nat k + (if two (Z.of_nat k) then 2 else 1) <= sb_cols /\ (two (Z.of_nat k) = false -> sb_cols = 2 * Z.of_nat k + 1).
Proof.
  intros Hm. unfold sb_cols. rewrite Z.shiftr_div_pow2 by lia. change (2 ^ 3) with 8. pose proof (Z.div_mod (mi_cols P + 7) 8). pose proof (Z.mod_pos_bound (mi_cols P + 7) 8). split; [lia|].
  intros k Hk. apply Nat.ltb_lt in Hk. rewrite cols_test in Hk. apply Z.ltb_lt in Hk. unfold two. destruct (Z.ltb_spec (16 * Z.of_nat k + 8) (mi_cols P)); split; intros; try lia; done.
Qed.

Lemma pixels_apart r k r' k' a :
  (r < rows)%nat -> (k < cols)%nat -> (r' < rows)%nat -> (k' < cols)%nat -> unordered r k r' k' -> area (Z.of_nat r) (Z.of_nat k) (Pix a) = true -> area (Z.of_nat r') (Z.of_nat k') (Pix a) = true -> False.
Proof.
  intros Hr Hk Hr' Hk' Hu H H'. cbn [area] in H, H'. rewrite !orb_true_iff in H, H'.
  pose proof (y_area_range r (Z.of_nat k) a Hr ltac:(lia)) as Y. pose proof (y_area_range r' (Z.of_nat k') a Hr' ltac:(lia)) as Y'.
  pose proof (fun b => c_area_range b r (Z.of_nat k) a Hr ltac:(lia)) as C. pose proof (fun b => c_area_range b r' (Z.of_nat k') a Hr' ltac:(lia)) as C'.
  pose proof (lo_apart HL) as A. unfold apart in A.
  destruct H as [[H|H]|H], H' as [[H'|H']|H'];
    first [exact (y_area_apart _ _ _ _ _ Hu H H')|exact (c_area_apart _ _ _ _ _ _ Hu H H')|idtac];
    repeat match goal with
    | H : y_area (Z.of_nat r) _ _ = true |- _ => apply Y in H
    | H : y_area (Z.of_nat r') _ _ = true |- _ => apply Y' in H
    | H : c_area _ (Z.of_nat r) _ _ = true |- _ => apply C in H
    | H : c_area _ (Z.of_nat r') _ _ = true |- _ => apply C' in H
    end; clear Y Y' C C'; lia.
Qed.

Lemma masks_apart r k r' k' i :
  (k < cols)%nat -> (k' < cols)%nat -> unordered r k r' k' -> area (Z.of_nat r) (Z.of_nat k) (Msk i) = true -> area (Z.of_nat r') (Z.of_nat k') (Msk i) = true -> False.
Proof.
  intros Hk Hk' [Hr Hu] H H'. cbn [area] in H, H'. rewrite andb_true_iff, Z.leb_le, Z.ltb_lt in H, H'.
  assert (Hm : 0 < mi_cols P) by (apply Nat.ltb_lt in Hk; rewrite cols_test in Hk; apply Z.ltb_lt in Hk; lia).
  destruct (sb_cols_cols Hm) as [H1 HC]. destruct (HC k Hk) as [Ha _], (HC k' Hk') as [Hb Hc]. destruct (decide (r' = S r)) as [->|Hne].
  - specialize (Hu eq_refl). destruct (two (Z.of_nat k')); [|specialize (Hc eq_refl); destruct (two (Z.of_nat k)); lia]. replace (Z.of_nat (S r) * sb_cols) with (Z.of_nat r * sb_cols + sb_cols) in H' by lia. destruct (two (Z.of_nat k)); lia.
  - assert ((Z.of_nat r + 2) * sb_cols <= Z.of_nat r' * sb_cols) by nia. destruct (two (Z.of_nat k)), (two (Z.of_nat k')); lia.
Qed.

Lemma area_apart r k r' k' l :
  (r < rows)%nat -> (k < cols)%nat -> (r' < rows)%nat -> (k' < cols)%nat -> unordered r k r' k' -> area (Z.of_nat r) (Z.of_nat k) l && area (Z.of_nat r') (Z.of_nat k') l = false.
Proof. intros Hr Hk Hr' Hk' Hu. apply not_true_iff_false. intros [H H']%andb_true_iff. destruct l as [a|i]; [by eapply (pixels_apart r k r' k')|by eapply (masks_apart r k r' k')]. Qed.

Lemma calls_commute r k r' k' o o' s :
  (r < rows)%nat -> (k < cols)%nat -> (r' < rows)%nat -> (k' < cols)%nat -> unordered r k r' k' -> o ∈ calls r k -> o' ∈ calls r' k' ->
  same_at look (run_call o (run_call o' s)) (run_call o' (run_call o s)).
Proof.
  intros Hr Hk Hr' Hk' Hu Ho Ho'. apply (footprint_comm look (area (Z.of_nat r) (Z.of_nat k)) (area (Z.of_nat r') (Z.of_nat k'))); [intros l; by apply area_apart|by apply calls_area|by apply calls_area].
Qed.

End apart.

Lemma region_everywhere s0 stride w h x y : v_region_ok (touches (fun _ => true)) s0 stride w h x y /\ h_region_ok (touches (fun _ => true)) s0 stride w h x y.
Proof.
  assert (H : forall b l t p s, touches (fun _ => true) (edge4 b l t p s) /\ touches (fun _ => true) (edge8 b l t p s) /\ touches (fun _ => true) (edge16 b l t p s)).
  { intros b l t p s. destruct (edge_touches b l t p s) as (T4 & T8 & T16). split; [|split]; (eapply footprint_mono; [|first [exact T4|exact T8|exact T16]]); done. }
  split; intros i j _ _ c _; (split; [|split]); intros b l t; first [apply H|split; apply H].
Qed.

(** Every call depends on the store only through its contents. *)
Lemma run_call_proper o : Proper (same_at look ==> same_at look) (run_call o).
Proof.
  apply (footprint_proper look (fun _ => true)). destruct o as [mi_row idx buf|mi_row idx buf]; [apply luma_footprint|apply chroma_footprint]; try done; intros lfm.
  - replace buf with (pos buf (y_stride (buf_info P)) 0 0) by (unfold pos; lia). apply Q_filter_block_plane_y; [apply touches_closed|apply region_everywhere|apply region_everywhere].
  - replace buf with (pos buf (uv_stride (buf_info P)) 0 0) by (unfold pos; lia). apply Q_filter_block_plane_uv; [apply touches_closed|apply region_everywhere|apply region_everywhere].
Qed.

End frame.

(** C14: filtering a frame with any number of workers, in any interleaving of their filter calls
    and of their accesses to the chart: a call of [kernel] that finds the workers waiting takes
    a bounded number of steps, never gets stuck before it returns, and when it has returned the
    frame and the masks are those of one thread that filters the rows one after the other. *)
Theorem loop_filter_schedules (P : params) (m0 m1 m : machine) (n : nat) :
  layout_ok P -> (rows P < MAX_SB_ROW)%nat -> mi_cols P < 2 ^ 31 ->
  (forall w, w ∈ workers m0 -> w = WWait) -> (0 < length (workers m0))%nat -> quit m0 = false ->
  kernel m0 = Some m1 -> steps (run_call P) (rows P) (cols P) (calls P) n m1 m ->
  (n <= measure (rows P) (cols P) (calls P) m1)%nat /\
  (stuck (run_call P) (rows P) (cols P) (calls P) m -> main m = MIdle) /\
  (main m = MIdle -> same_at look (frame m) (filter_rows P (rows P) 0 (frame m0))).
Proof.
  intros HL Hr Hc Hw Hn Hq Hk Hs. rewrite filter_rows_exec.
  refine (kernel_correct (run_call P) (rows P) (cols P) (calls P) (same_at look) (Hrun := run_call_proper P) _ Hr _ m0 m1 n m Hw Hn Hq Hk Hs).
  - intros. by apply (calls_commute P HL r k r' k').
  - unfold cols. pose proof (Z.div_mod (mi_cols P + 15) 16). pose proof (Z.mod_pos_bound (mi_cols P + 15) 16). lia.
Qed.

(** Two rows of three superblocks with chroma planes, and two workers. *)
Definition small_frame : params :=
  mkParams 0 16 3 16 20 (mkBufferInfo 8192 98304 163840 512 256) 0 [mkThresh [20] [10] [3]].
Definition blank : LoopFilterMask := mkLfm [0; 0; 0; 0] [0; 0; 0; 0] 0 [0; 0; 0; 0] [0; 0; 0; 0] 0 (repeat 0 64) (repeat 0 16).
Definition waiting_pair : machine := @mkMachine store call (fun _ => blank, fun a => a mod 256) (replicate MAX_SB_ROW 0) 2 0 false [WWait; WWait] MIdle.

Lemma loop_filter_schedules_witness :
  exists m1 m, kernel waiting_pair = Some m1 /\ main m1 = MSignal 0 /\ main m = MSignal 1 /\
  (1 <= measure (rows small_frame) (cols small_frame) (calls small_frame) m1)%nat /\
  (stuck (run_call small_frame) (rows small_frame) (cols small_frame) (calls small_frame) m -> main m = MIdle) /\
  (main m = MIdle -> same_at look (frame m) (filter_rows small_frame (rows small_frame) 0 (frame waiting_pair))).
Proof.
  eexists _, _. split; [reflexivity|]. split; [reflexivity|]. split; [|refine (loop_filter_schedules small_frame waiting_pair _ _ 1 _ _ _ _ _ _ _ _)].
  2: { split; [by apply Z.leb_le|intros _; by apply Z.leb_le|]. intros _. split; [|split]; left; by apply Z.leb_le. }
  2: { by apply Nat.ltb_lt. }
  2: { by apply Z.ltb_lt. }
  2: { intros w Hw. cbn in Hw. by apply elem_of_cons in Hw as [->|[->|Hw%elem_of_nil]%elem_of_cons]. }
  2: { by apply Nat.ltb_lt. }
  2: { reflexivity. }
  2: { reflexivity. }
  2: { eapply (steps_step _ _ _ _ _ _ _ _ AMain); [apply steps_refl|reflexivity]. }
  reflexivity.
Defined.

(** with chroma planes and an odd number of superblock columns, the last step of a row, which
    has one superblock, filters the chroma planes with the masks of the superblock before it:
    the decrement of the mask index is not undone.  In the first row of a frame of one column
    the index is -1. *)
Theorem odd_columns_chroma (P : params) (r : nat) :
  0 < mi_cols P -> Z.odd (sb_cols P) = true -> num_planes P > 1 ->
  let mi_row := Z.of_nat r * 8 + start P in
  let last := Z.of_nat r * sb_cols P + sb_cols P - 1 in
  exists y u v, calls P r (cols P - 1) = [Luma mi_row last y; Chroma mi_row (last - 1) u; Chroma mi_row (last - 1) v].
Proof.
  intros Hm Ho Hn mi_row last. assert (Hk : (cols P - 1 < cols P)%nat) by (unfold cols; pose proof (Z.div_mod (mi_cols P + 15) 16); pose proof (Z.mod_pos_bound (mi_cols P + 15) 16); lia).
  assert (HC : two P (Z.of_nat (cols P - 1)) = false /\ sb_cols P = 2 * Z.of_nat (cols P - 1) + 1).
  { destruct (sb_cols_cols P Hm) as [_ H]. destruct (H _ Hk) as [H1 H2]. destruct (two P (Z.of_nat (cols P - 1))) eqn:E; [|by auto]. exfalso.
    assert (E2 : sb_cols P = 2 * Z.of_nat (cols P)); [|rewrite E2, Z.odd_mul in Ho; done].
    unfold sb_cols in *. rewrite Z.shiftr_div_pow2 in * by lia. change (2 ^ 3) with 8 in *. unfold cols in *. pose proof (Z.div_mod (mi_cols P + 15) 16). pose proof (Z.mod_pos_bound (mi_cols P + 15) 16).
    pose proof (Z.div_mod (mi_cols P + 7) 8). pose proof (Z.mod_pos_bound (mi_cols P + 7) 8). lia. }
  destruct HC as [Ht HC]. rewrite (calls_eq P r _ Hk). unfold step_calls. cbv zeta. rewrite Ht, (proj2 (Z.gtb_lt _ _)) by lia. cbn [app]. subst mi_row last.
  eexists _, _, _. repeat f_equal; lia.
Qed.

Lemma odd_columns_chroma_witness :
  exists y u v, calls (mkParams 0 8 3 8 8 (mkBufferInfo 8192 65536 131072 512 256) 0 []) 0 0 = [Luma 0 0 y; Chroma 0 (-1) u; Chroma 0 (-1) v].
Proof. apply (odd_columns_chroma (mkParams 0 8 3 8 8 (mkBufferInfo 8192 65536 131072 512 256) 0 []) 0); [done|reflexivity|reflexivity]. Defined.

End LoopRows.
