(* ===== verification/RpcSpec.v ===== *)
(** * RpcSpec: the API description and the stubs generated from it

    [spec.h], [spec.l], [rsg_generator.c], and the entries of [rs.spec] and [rsg.spec].  An API
    entry is turned into a client stub, which packs its arguments into a command, and a
    playback stub, which unpacks a command and calls the implementation.  The generator
    prints C++ text; here it produces the statements of that text, which [ThreadIO] runs. *)

From stdpp Require Import strings.
From S2P Require Import Prelude.

Module RpcSpec.

#[local] Open Scope string_scope.

(** ** The description *)

Record VarType := mkVar { isConst : bool; type : Z; bits : Z; ptrLevel : nat; vname : string; typeName : string }.

Record ApiEntry := mkApi {
  name : string; sync : bool; handcodeApi : bool; direct : bool; nocontext : bool; ret : VarType; params : list VarType
}.

(** The sizes that the parser adds for a pointer parameter. *)
Definition checkPointerType (base : VarType) : list VarType :=
  (fun cur => mkVar (0 <? cur)%nat 4 0 cur
     (match (ptrLevel base - cur)%nat with 1%nat => vname base ++ "_length" | 2%nat => vname base ++ "_length_length" | _ => "" end) "size_t")
  <$> seq 0 (ptrLevel base).

Inductive keyword := Sync | HandcodeApi | Direct | Nocontext.
#[export] Instance keyword_eq_dec : EqDecision keyword.
Proof. solve_decision. Defined.

(** An entry as the parser builds it from its keywords, parameters and return type. *)
Definition entry (nm : string) (kw : list keyword) (ps : list VarType) (r : VarType) : ApiEntry :=
  mkApi nm (bool_decide (Sync ∈ kw)) (bool_decide (HandcodeApi ∈ kw)) (bool_decide (Direct ∈ kw)) (bool_decide (Nocontext ∈ kw)) r
    (p ← ps; p :: checkPointerType p).

Definition val (ty nm : string) : VarType := mkVar false 4 32 0 nm ty.
Definition ptr (ty nm : string) : VarType := mkVar false 4 32 1 nm ty.
Definition cptr (ty nm : string) : VarType := mkVar true 4 32 1 nm ty.
Definition cptr2 (ty nm : string) : VarType := mkVar true 4 32 2 nm ty.
Definition no_ret : VarType := mkVar false 0 0 0 "" "".
Definition ret_val (ty : string) : VarType := mkVar false 4 32 0 "" ty.
Definition ret_ptr (ty : string) : VarType := mkVar false 4 32 1 "" ty.

(** [rs.spec]: contexts, types and elements, then allocations, then samplers and scripts. *)
Definition rs_spec_context : list ApiEntry :=
  [entry "ContextDestroy" [Direct] [] no_ret;
   entry "ContextGetMessage" [Direct] [ptr "void" "data"; ptr "size_t" "receiveLen"; ptr "uint32_t" "usrID"] (ret_val "RsMessageToClientType");
   entry "ContextPeekMessage" [Direct] [ptr "size_t" "receiveLen"; ptr "uint32_t" "usrID"] (ret_val "RsMessageToClientType");
   entry "ContextSendMessage" [] [val "uint32_t" "id"; cptr "uint8_t" "data"] no_ret;
   entry "ContextInitToClient" [Direct] [] no_ret;
   entry "ContextDeinitToClient" [Direct] [] no_ret;
   entry "TypeCreate" [Direct] [val "RsElement" "e"; val "uint32_t" "dimX"; val "uint32_t" "dimY"; val "uint32_t" "dimZ"; val "bool" "mipmaps"; val "bool" "faces"; val "uint32_t" "yuv"] (ret_val "RsType");
   entry "AllocationCreateTyped" [Direct] [val "RsType" "vtype"; val "RsAllocationMipmapControl" "mipmaps"; val "uint32_t" "usages"; val "uintptr_t" "ptr"] (ret_val "RsAllocation");
   entry "AllocationCreateFromBitmap" [Direct] [val "RsType" "vtype"; val "RsAllocationMipmapControl" "mipmaps"; cptr "void" "data"; val "uint32_t" "usages"] (ret_val "RsAllocation");
   entry "AllocationCubeCreateFromBitmap" [Direct] [val "RsType" "vtype"; val "RsAllocationMipmapControl" "mipmaps"; cptr "void" "data"; val "uint32_t" "usages"] (ret_val "RsAllocation");
   entry "AllocationGetSurface" [Sync] [val "RsAllocation" "alloc"] (ret_val "RsNativeWindow");
   entry "AllocationSetSurface" [Sync] [val "RsAllocation" "alloc"; val "RsNativeWindow" "sur"] no_ret;
   entry "ContextFinish" [Sync] [] no_ret;
   entry "ContextDump" [] [val "int32_t" "bits"] no_ret;
   entry "ContextSetPriority" [] [val "int32_t" "priority"] no_ret;
   entry "ContextDestroyWorker" [Sync] [] no_ret;
   entry "AssignName" [] [val "RsObjectBase" "obj"; cptr "char" "name"] no_ret;
   entry "ObjDestroy" [HandcodeApi] [val "RsAsyncVoidPtr" "objPtr"] no_ret;
   entry "ElementCreate" [Direct] [val "RsDataType" "mType"; val "RsDataKind" "mKind"; val "bool" "mNormalized"; val "uint32_t" "mVectorSize"] (ret_val "RsElement");
   entry "ElementCreate2" [Direct] [cptr "RsElement" "elements"; cptr2 "char" "names"; cptr "uint32_t" "arraySize"] (ret_val "RsElement")].

Definition rs_spec_allocation : list ApiEntry :=
  [entry "AllocationCopyToBitmap" [] [val "RsAllocation" "alloc"; ptr "void" "data"] no_ret;
   entry "AllocationGetPointer" [] [val "RsAllocation" "va"; val "uint32_t" "lod"; val "RsAllocationCubemapFace" "face"; val "uint32_t" "z"; val "uint32_t" "array"; ptr "size_t" "stride"] (ret_ptr "void");
   entry "Allocation1DData" [] [val "RsAllocation" "va"; val "uint32_t" "xoff"; val "uint32_t" "lod"; val "uint32_t" "count"; cptr "void" "data"] no_ret;
   entry "Allocation1DElementData" [] [val "RsAllocation" "va"; val "uint32_t" "x"; val "uint32_t" "lod"; cptr "void" "data"; val "size_t" "comp_offset"] no_ret;
   entry "Allocation2DData" [] [val "RsAllocation" "va"; val "uint32_t" "xoff"; val "uint32_t" "yoff"; val "uint32_t" "lod"; val "RsAllocationCubemapFace" "face"; val "uint32_t" "w"; val "uint32_t" "h"; cptr "void" "data"; val "size_t" "stride"] no_ret;
   entry "Allocation3DData" [] [val "RsAllocation" "va"; val "uint32_t" "xoff"; val "uint32_t" "yoff"; val "uint32_t" "zoff"; val "uint32_t" "lod"; val "uint32_t" "w"; val "uint32_t" "h"; val "uint32_t" "d"; cptr "void" "data"; val "size_t" "stride"] no_ret;
   entry "AllocationGenerateMipmaps" [] [val "RsAllocation" "va"] no_ret;
   entry "AllocationRead" [] [val "RsAllocation" "va"; ptr "void" "data"] no_ret;
   entry "Allocation1DRead" [] [val "RsAllocation" "va"; val "uint32_t" "xoff"; val "uint32_t" "lod"; val "uint32_t" "count"; ptr "void" "data"] no_ret;
   entry "Allocation2DRead" [] [val "RsAllocation" "va"; val "uint32_t" "xoff"; val "uint32_t" "yoff"; val "uint32_t" "lod"; val "RsAllocationCubemapFace" "face"; val "uint32_t" "w"; val "uint32_t" "h"; ptr "void" "data"; val "size_t" "stride"] no_ret;
   entry "AllocationSyncAll" [] [val "RsAllocation" "va"; val "RsAllocationUsageType" "src"] no_ret;
   entry "AllocationResize1D" [] [val "RsAllocation" "va"; val "uint32_t" "dimX"] no_ret;
   entry "AllocationCopy2DRange" [] [val "RsAllocation" "dest"; val "uint32_t" "destXoff"; val "uint32_t" "destYoff"; val "uint32_t" "destMip"; val "uint32_t" "destFace"; val "uint32_t" "width"; val "uint32_t" "height"; val "RsAllocation" "src"; val "uint32_t" "srcXoff"; val "uint32_t" "srcYoff"; val "uint32_t" "srcMip"; val "uint32_t" "srcFace"] no_ret;
   entry "AllocationCopy3DRange" [] [val "RsAllocation" "dest"; val "uint32_t" "destXoff"; val "uint32_t" "destYoff"; val "uint32_t" "destZoff"; val "uint32_t" "destMip"; val "uint32_t" "width"; val "uint32_t" "height"; val "uint32_t" "depth"; val "RsAllocation" "src"; val "uint32_t" "srcXoff"; val "uint32_t" "srcYoff"; val "uint32_t" "srcZoff"; val "uint32_t" "srcMip"] no_ret].

Definition rs_spec_script : list ApiEntry :=
  [entry "SamplerCreate" [Direct] [val "RsSamplerValue" "magFilter"; val "RsSamplerValue" "minFilter"; val "RsSamplerValue" "wrapS"; val "RsSamplerValue" "wrapT"; val "RsSamplerValue" "wrapR"; val "float" "mAniso"] (ret_val "RsSampler");
   entry "ScriptBindAllocation" [] [val "RsScript" "vtm"; val "RsAllocation" "va"; val "uint32_t" "slot"] no_ret;
   entry "ScriptSetTimeZone" [] [val "RsScript" "s"; cptr "char" "timeZone"] no_ret;
   entry "ScriptInvoke" [] [val "RsScript" "s"; val "uint32_t" "slot"] no_ret;
   entry "ScriptInvokeV" [] [val "RsScript" "s"; val "uint32_t" "slot"; cptr "void" "data"] no_ret;
   entry "ScriptForEach" [] [val "RsScript" "s"; val "uint32_t" "slot"; val "RsAllocation" "ain"; val "RsAllocation" "aout"; cptr "void" "usr"; cptr "RsScriptCall" "sc"] no_ret;
   entry "ScriptSetVarI" [] [val "RsScript" "s"; val "uint32_t" "slot"; val "int" "value"] no_ret;
   entry "ScriptSetVarObj" [] [val "RsScript" "s"; val "uint32_t" "slot"; val "RsObjectBase" "value"] no_ret;
   entry "ScriptSetVarJ" [] [val "RsScript" "s"; val "uint32_t" "slot"; val "int64_t" "value"] no_ret;
   entry "ScriptSetVarF" [] [val "RsScript" "s"; val "uint32_t" "slot"; val "float" "value"] no_ret;
   entry "ScriptSetVarD" [] [val "RsScript" "s"; val "uint32_t" "slot"; val "double" "value"] no_ret;
   entry "ScriptSetVarV" [] [val "RsScript" "s"; val "uint32_t" "slot"; cptr "void" "data"] no_ret;
   entry "ScriptGetVarV" [Sync] [val "RsScript" "s"; val "uint32_t" "slot"; ptr "void" "data"] no_ret;
   entry "ScriptSetVarVE" [] [val "RsScript" "s"; val "uint32_t" "slot"; cptr "void" "data"; val "RsElement" "e"; cptr "size_t" "dims"] no_ret;
   entry "ScriptCCreate" [] [cptr "char" "resName"; cptr "char" "cacheDir"; cptr "char" "text"] (ret_val "RsScript");
   entry "ScriptIntrinsicCreate" [] [val "uint32_t" "id"; val "RsElement" "eid"] (ret_val "RsScript");
   entry "ScriptKernelIDCreate" [Direct] [val "RsScript" "sid"; val "int" "slot"; val "int" "sig"] (ret_val "RsScriptKernelID");
   entry "ScriptFieldIDCreate" [Direct] [val "RsScript" "sid"; val "int" "slot"] (ret_val "RsScriptFieldID");
   entry "ScriptGroupCreate" [Direct] [ptr "RsScriptKernelID" "kernels"; ptr "RsScriptKernelID" "src"; ptr "RsScriptKernelID" "dstK"; ptr "RsScriptFieldID" "dstF"; cptr "RsType" "type"] (ret_val "RsScriptGroup");
   entry "ScriptGroupSetOutput" [] [val "RsScriptGroup" "group"; val "RsScriptKernelID" "kernel"; val "RsAllocation" "alloc"] no_ret;
   entry "ScriptGroupSetInput" [] [val "RsScriptGroup" "group"; val "RsScriptKernelID" "kernel"; val "RsAllocation" "alloc"] no_ret;
   entry "ScriptGroupExecute" [] [val "RsScriptGroup" "group"] no_ret;
   entry "AllocationIoSend" [] [val "RsAllocation" "alloc"] no_ret;
   entry "AllocationIoReceive" [] [val "RsAllocation" "alloc"] no_ret].

Definition rs_spec : list ApiEntry := rs_spec_context ++ rs_spec_allocation ++ rs_spec_script.

Definition rsg_spec : list ApiEntry :=
  [entry "ProgramStoreCreate" [Direct] [val "bool" "colorMaskR"; val "bool" "colorMaskG"; val "bool" "colorMaskB"; val "bool" "colorMaskA"; val "bool" "depthMask"; val "bool" "ditherEnable"; val "RsBlendSrcFunc" "srcFunc"; val "RsBlendDstFunc" "destFunc"; val "RsDepthFunc" "depthFunc"] (ret_val "RsProgramStore");
   entry "ProgramRasterCreate" [Direct] [val "bool" "pointSprite"; val "RsCullMode" "cull"] (ret_val "RsProgramRaster");
   entry "ProgramBindConstants" [] [val "RsProgram" "vp"; val "uint32_t" "slot"; val "RsAllocation" "constants"] no_ret;
   entry "ProgramBindTexture" [] [val "RsProgramFragment" "pf"; val "uint32_t" "slot"; val "RsAllocation" "a"] no_ret;
   entry "ProgramBindSampler" [] [val "RsProgramFragment" "pf"; val "uint32_t" "slot"; val "RsSampler" "s"] no_ret;
   entry "ProgramFragmentCreate" [Direct] [cptr "char" "shaderText"; cptr2 "char" "textureNames"; cptr "uintptr_t" "params"] (ret_val "RsProgramFragment");
   entry "ProgramVertexCreate" [Direct] [cptr "char" "shaderText"; cptr2 "char" "textureNames"; cptr "uintptr_t" "params"] (ret_val "RsProgramVertex");
   entry "FontCreateFromFile" [] [cptr "char" "name"; val "float" "fontSize"; val "uint32_t" "dpi"] (ret_val "RsFont");
   entry "FontCreateFromMemory" [] [cptr "char" "name"; val "float" "fontSize"; val "uint32_t" "dpi"; cptr "void" "data"] (ret_val "RsFont");
   entry "MeshCreate" [] [ptr "RsAllocation" "vtx"; ptr "RsAllocation" "idx"; ptr "uint32_t" "primType"] (ret_val "RsMesh");
   entry "PathCreate" [] [val "RsPathPrimitive" "pp"; val "bool" "isStatic"; val "RsAllocation" "vertex"; val "RsAllocation" "loops"; val "float" "quality"] (ret_val "RsPath");
   entry "ContextBindProgramStore" [] [val "RsProgramStore" "pgm"] no_ret;
   entry "ContextBindProgramFragment" [] [val "RsProgramFragment" "pgm"] no_ret;
   entry "ContextBindProgramVertex" [] [val "RsProgramVertex" "pgm"] no_ret;
   entry "ContextBindProgramRaster" [] [val "RsProgramRaster" "pgm"] no_ret;
   entry "ContextBindFont" [] [val "RsFont" "pgm"] no_ret;
   entry "ContextSetSurface" [Sync] [val "uint32_t" "width"; val "uint32_t" "height"; val "RsNativeWindow" "sur"] no_ret;
   entry "ContextBindRootScript" [] [val "RsScript" "sampler"] no_ret;
   entry "ContextPause" [] [] no_ret;
   entry "ContextResume" [] [] no_ret].

(** The commands are numbered from one, in the order of the files. *)
Definition apis : list ApiEntry := rs_spec ++ rsg_spec.

(** ** The generator *)

Definition has_ret (api : ApiEntry) : bool := negb (String.eqb (typeName (ret api)) "").
Definition is_ptr (v : VarType) : bool := (0 <? ptrLevel v)%nat.

Fixpoint inline_params (ps : list VarType) (r : bool) : bool :=
  match ps with
  | [] => r
  | v :: ps =>
      if negb (isConst v) && is_ptr v then false
      else if (1 <? ptrLevel v)%nat then false
      else inline_params ps (r || (isConst v && is_ptr v))
  end.
Definition hasInlineDataPointers (api : ApiEntry) : bool := if sync api || has_ret api then false else inline_params (params api) false.

(** The parameter that a name in the generated code stands for. *)
Definition param_named (api : ApiEntry) (nm : string) : option nat := fst <$> list_find (fun v => vname v = nm) (params api).
Definition length_of (api : ApiEntry) (v : VarType) : nat := default 0%nat (param_named api (vname v ++ "_length")).

(** Statements of a client stub; parameters by position. *)
Inductive cstmt :=
| CDataSize (l : nat)          (** [dataSize += x_length] *)
| CHeader (inline : bool)      (** [cmd = coreHeader(id, size)], with inline data the size depends on [dataSize] *)
| CAssign (p : nat)            (** [cmd->x = x] *)
| CInline (p l : nat)          (** copies the data of [x] behind the command if there is room, else [cmd->x = x] *)
| CCommit                      (** [coreCommit()] *)
| CGetIfBig                    (** [if (dataSize >= getMaxInlineSize()) coreGetReturn(NULL, 0)] *)
| CGetValue                    (** [coreGetReturn(&ret, sizeof(ret))] *)
| CGetNull.                    (** [coreGetReturn(NULL, 0)] *)

Definition indexed (ps : list VarType) : list (nat * VarType) := imap pair ps.

Definition needFlush (api : ApiEntry) : bool := negb (Nat.eqb (sum_list_with ptrLevel (params api)) 0) || has_ret api || sync api.

Definition printApiCpp (api : ApiEntry) : list cstmt :=
  let inl := hasInlineDataPointers api in
  (if inl then '(_, v) ← indexed (params api); if isConst v && is_ptr v then [CDataSize (length_of api v)] else [] else []) ++
  [CHeader inl] ++
  ((fun '(i, v) => if is_ptr v && inl then CInline i (length_of api v) else CAssign i) <$> indexed (params api)) ++
  [CCommit] ++
  (if inl then [CGetIfBig] else if has_ret api then [CGetValue] else if needFlush api then [CGetNull] else []).

(** Statements of a playback stub. *)
Inductive parg :=
| AField (p : nat)             (** [cmd->x] *)
| ABase (p : nat).             (** [&baseData[(intptr_t)cmd->x]] *)
Inductive pstmt :=
| PBaseData                    (** [if (cmdSizeBytes != sizeof(cmd)) baseData = &vp[sizeof( *cmd)]] *)
| PCall (args : list parg)     (** [rsi_x(con, ...)] *)
| PSetIfBig (ls : list nat)    (** [if (totalSize != 0 && cmdSizeBytes == sizeof(cmd)) coreSetReturn(NULL, 0)] *)
| PSetValue                    (** [coreSetReturn(&ret, sizeof(ret))] *)
| PSetNull.                    (** [coreSetReturn(NULL, 0)] *)

Definition printPlaybackCpp (api : ApiEntry) : list pstmt :=
  let inl := hasInlineDataPointers api in
  (if inl then [PBaseData] else []) ++
  [PCall ((fun '(i, v) => if inl && is_ptr v then ABase i else AField i) <$> indexed (params api))] ++
  (if inl then [PSetIfBig ('(_, v) ← indexed (params api); if is_ptr v then [length_of api v] else [])]
   else if has_ret api then [PSetValue]
   else if sync api || negb (Nat.eqb (sum_list_with ptrLevel (params api)) 0) then [PSetNull] else []).

(** ** The command structure

    [RS_CMD_x]: the parameters in order, each aligned to its size. *)

Section layout.
Context (sizeof_type : string -> Z).

Definition field_size (v : VarType) : Z :=
  if is_ptr v then 8 else match type v with 1 | 2 | 3 => bits v / 8 | _ => sizeof_type (typeName v) end.

Fixpoint offsets (pos : Z) (ps : list VarType) : list Z :=
  match ps with
  | [] => []
  | v :: ps => let o := roundup (field_size v) pos in o :: offsets (o + field_size v) ps
  end.
Fixpoint fields_end (pos : Z) (ps : list VarType) : Z :=
  match ps with
  | [] => pos
  | v :: ps => fields_end (roundup (field_size v) pos + field_size v) ps
  end.
Definition alignment (ps : list VarType) : Z := foldr Z.max 1 (field_size <$> ps).

(** A structure without fields has one byte. *)
Definition sizeof_cmd (api : ApiEntry) : Z := Z.max 1 (roundup (alignment (params api)) (fields_end 0 (params api))).

Definition scalar (z : Z) : Prop := z = 1 \/ z = 2 \/ z = 4 \/ z = 8.

(** What the stubs rely on: at most 16 parameters of scalar types, and the size of each buffer among them. *)
Definition api_ok (api : ApiEntry) : Prop :=
  (length (params api) <= 16)%nat /\ Forall (fun v => scalar (field_size v)) (params api) /\
  Forall (fun v => ptrLevel v = 1%nat -> exists j l, param_named api (vname v ++ "_length") = Some j /\ params api !! j = Some l /\ ptrLevel l = 0%nat /\ field_size l = 8) (params api).

End layout.

(** The sizes of a 64-bit build: handles are pointers, enumerations have four bytes. *)
Definition sizeof_64 (ty : string) : Z :=
  if decide (ty ∈ ["bool"; "char"; "uint8_t"]) then 1
  else if decide (ty ∈ ["int"; "int32_t"; "uint32_t"; "float"; "RsDataType"; "RsDataKind"; "RsSamplerValue"; "RsAllocationMipmapControl";
                        "RsAllocationCubemapFace"; "RsAllocationUsageType"; "RsMessageToClientType"; "RsBlendSrcFunc"; "RsBlendDstFunc";
                        "RsDepthFunc"; "RsCullMode"; "RsPathPrimitive"]) then 4
  else 8.

#[export] Instance scalar_dec z : Decision (scalar z).
Proof. unfold scalar. apply _. Defined.

Definition api_okb (api : ApiEntry) : bool :=
  (length (params api) <=? 16)%nat && forallb (fun v => bool_decide (scalar (field_size sizeof_64 v))) (params api) &&
  forallb (fun v => if Nat.eqb (ptrLevel v) 1 then
     match param_named api (vname v ++ "_length") ≫= fun j => params api !! j with Some l => Nat.eqb (ptrLevel l) 0 && (field_size sizeof_64 l =? 8)%Z | None => false end else true) (params api).

Lemma api_okb_spec api : api_okb api = true -> api_ok sizeof_64 api.
Proof.
  unfold api_okb, api_ok. rewrite !andb_true_iff, Nat.leb_le. intros [[H1 H2] H3]. apply Is_true_true_2, forallb_True in H2, H3. split; [done|]. split.
  - eapply Forall_impl; [exact H2|]. intros v Hv. exact (bool_decide_unpack _ Hv).
  - eapply Forall_impl; [exact H3|]. intros v Hv E. cbn in Hv. rewrite (proj2 (Nat.eqb_eq _ _) E) in Hv.
    destruct (param_named api (vname v ++ "_length")) as [j|]; [|done]. cbn in Hv. destruct (params api !! j) as [l|] eqn:El; [|done].
    apply Is_true_true, andb_true_iff in Hv as [Hp Hs]. apply Nat.eqb_eq in Hp. apply Z.eqb_eq in Hs. by exists j, l.
Qed.

(** Every entry of the description is one the stubs can handle. *)
Lemma apis_ok : Forall (api_ok sizeof_64) apis.
Proof.
  assert (H : forallb api_okb apis = true) by (vm_compute; reflexivity). apply Forall_forall. intros api Ha. apply api_okb_spec.
  rewrite forallb_forall in H. apply H, list_elem_of_In, Ha.
Qed.

End RpcSpec.
