(* ===== verification/ThreadIO.v ===== *)
(** * ThreadIO: commands between the client and the core thread

    [rsThreadIO.cpp], [rsFifoSocket.cpp] and the stubs of [rsg_generator.c].  A client stub packs
    a command into the send buffer and sends it over a stream socket; the core thread reads
    commands, runs the playback stub and answers when the client waits.  The machine has the
    client, a finalizer thread that destroys objects, and the core thread, in any interleaving.
    What the client observes, and the state of the core, are those of direct calls. *)

From stdpp Require Import strings.
From S2P Require Import Prelude Stream RpcSpec.

Module ThreadIO.
Import Stream RpcSpec.

(** ** The client stub *)

Definition mMaxInlineSize : Z := 1024.
Definition SEND_BUFFER : Z := 2048.
Definition HEADER : Z := 8.

(** Memory of the client. *)
Definition mem : Type := Z -> Z.
Definition read (m : mem) (a n : Z) : list Z := (fun i => m (a + Z.of_nat i)) <$> seq 0 (Z.to_nat n).

(** What a stub does after it has sent its command. *)
Inductive waiting := WNone | WNull | WValue.
#[export] Instance waiting_eq_dec : EqDecision waiting.
Proof. solve_decision. Defined.

Record locals := mkLocals { dataSize : Z; payload : Z; mSendBuffer : list Z; mSendLen : Z; sent : list Z; wait : waiting }.

Definition set_buffer (l : locals) (b : list Z) : locals := mkLocals (dataSize l) (payload l) b (mSendLen l) (sent l) (wait l).

Section io.
Context (sizeof_type : string -> Z).

Definition coreHeader (cmdID dataLen : Z) (l : locals) : outcome locals :=
  b ← zwrite (mSendBuffer l) 4 (bytes32 dataLen);
  b ← zwrite b 0 (bytes32 cmdID);
  Ok (mkLocals (dataSize l) (payload l) b (dataLen + HEADER) (sent l) (wait l)).

Definition coreCommit (l : locals) : outcome locals :=
  s ← zread (mSendBuffer l) 0 (mSendLen l);
  Ok (mkLocals (dataSize l) (payload l) (mSendBuffer l) (mSendLen l) s (wait l)).

Section stub.
Context (api : ApiEntry) (cmdID : Z) (args : list (list Z)) (m : mem).

Notation size := (sizeof_cmd sizeof_type api).
Definition arg (i : nat) : outcome (list Z) := of_option OutOfBounds (args !! i).
Definition offset (i : nat) : outcome Z := of_option OutOfBounds (offsets sizeof_type 0 (params api) !! i).

(** [cmd->x = v] *)
Definition assign (i : nat) (v : list Z) (l : locals) : outcome locals :=
  o ← offset i;
  b ← zwrite (mSendBuffer l) (HEADER + o) v;
  Ok (set_buffer l b).

Definition run_cstmt (s : cstmt) (l : locals) : outcome locals :=
  match s with
  | CDataSize j =>
      n ← arg j;
      Ok (mkLocals (dataSize l +u64 le_val n) (payload l) (mSendBuffer l) (mSendLen l) (sent l) (wait l))
  | CHeader inline => coreHeader cmdID (if inline && (dataSize l <? mMaxInlineSize) then dataSize l + size else size) l
  | CAssign i => v ← arg i; assign i v l
  | CInline i j =>
      v ← arg i;
      if dataSize l <? mMaxInlineSize then
        n ← arg j;
        b ← zwrite (mSendBuffer l) (HEADER + size + payload l) (read m (le_val v) (le_val n));
        l ← assign i (bytes64 (payload l)) (set_buffer l b);
        Ok (mkLocals (dataSize l) (payload l + le_val n) (mSendBuffer l) (mSendLen l) (sent l) (wait l))
      else assign i v l
  | CCommit => coreCommit l
  | CGetIfBig => Ok (mkLocals (dataSize l) (payload l) (mSendBuffer l) (mSendLen l) (sent l) (if dataSize l >=? mMaxInlineSize then WNull else wait l))
  | CGetValue => Ok (mkLocals (dataSize l) (payload l) (mSendBuffer l) (mSendLen l) (sent l) WValue)
  | CGetNull => Ok (mkLocals (dataSize l) (payload l) (mSendBuffer l) (mSendLen l) (sent l) WNull)
  end.

Fixpoint run_cstmts (ss : list cstmt) (l : locals) : outcome locals :=
  match ss with
  | [] => Ok l
  | s :: ss => l ← run_cstmt s l; run_cstmts ss l
  end.

End stub.

(** [LF_x], when the context has a thread of its own. *)
Definition LF (api : ApiEntry) (cmdID : Z) (args : list (list Z)) (m : mem) (buf : list Z) : outcome locals :=
  run_cstmts api cmdID args m (printApiCpp api) (mkLocals 0 0 buf 0 [] WNone).

(** [LF_ObjDestroy_handcode]: a command of its own, sent at once. *)
Definition LF_ObjDestroy_handcode (cmdID : Z) (objPtr : list Z) : list Z := bytes32 cmdID ++ bytes32 8 ++ objPtr.

(** ** The core thread *)

(** An argument as the implementation sees it: a value, the contents of a constant buffer, or
    a pointer into the client's memory. *)
Inductive carg := VVal (b : list Z) | VData (b : list Z) | VRaw (a : Z).

(** The implementations.  Only raw pointers lead one to the client's memory, and only a
    non-constant pointer lets it write there. *)
Context {core : Type} (rsi : nat -> list carg -> core -> option mem -> core * mem * list Z).

(** What an uninitialised [uint32_t] holds. *)
Context (uninit : list Z).

Definition has_out (api : ApiEntry) : bool := existsb (fun v => is_ptr v && negb (isConst v)) (params api).

Definition is_raw (v : VarType) : bool := is_ptr v && negb (isConst v && (ptrLevel v =? 1)%nat).
Definition has_raw (api : ApiEntry) : bool := existsb is_raw (params api).

Definition call_rsi (api : ApiEntry) (id : nat) (args : list carg) (c : core) (m : mem) : core * mem * list Z :=
  let '(c, m', r) := rsi id args c (if has_raw api then Some m else None) in (c, if has_out api then m' else m, r).

Record playing := mkPlaying { baseData : option Z; pcore : core; pmem : mem; retval : list Z; reply : list Z }.

Section playback.
Context (api : ApiEntry) (id : nat) (vp : list Z).

Notation size := (sizeof_cmd sizeof_type api).

(** [cmd->x] *)
Definition field (i : nat) : outcome (list Z) :=
  o ← offset api i;
  v ← of_option OutOfBounds (params api !! i);
  zread vp o (field_size sizeof_type v).

Definition eval_parg (p : playing) (a : parg) : outcome carg :=
  match a with
  | AField i =>
      v ← of_option OutOfBounds (params api !! i);
      b ← field i;
      if is_ptr v then
        if isConst v && (ptrLevel v =? 1)%nat then n ← field (length_of api v); Ok (VData (read (pmem p) (le_val b) (le_val n)))
        else Ok (VRaw (le_val b))
      else Ok (VVal b)
  | ABase i =>
      v ← of_option OutOfBounds (params api !! i);
      b ← field i;
      n ← field (length_of api v);
      match baseData p with
      | None => Ok (VData (read (pmem p) (le_val b) (le_val n)))
      | Some o => d ← zread vp (o + le_val b) (le_val n); Ok (VData d)
      end
  end.

Fixpoint eval_pargs (p : playing) (as_ : list parg) : outcome (list carg) :=
  match as_ with
  | [] => Ok []
  | a :: as_ => v ← eval_parg p a; vs ← eval_pargs p as_; Ok (v :: vs)
  end.

Fixpoint total_size (ls : list nat) : outcome Z :=
  match ls with
  | [] => Ok 0
  | l :: ls => n ← field l; t ← total_size ls; Ok (le_val n +u64 t)
  end.

Definition run_pstmt (s : pstmt) (p : playing) : outcome playing :=
  match s with
  | PBaseData => Ok (mkPlaying (if negb (zlen vp =? size) then Some size else None) (pcore p) (pmem p) (retval p) (reply p))
  | PCall as_ =>
      vs ← eval_pargs p as_;
      let '(c, m, r) := call_rsi api id vs (pcore p) (pmem p) in
      Ok (mkPlaying (baseData p) c m r (reply p))
  | PSetIfBig ls =>
      t ← total_size ls;
      Ok (if negb (t =? 0) && (zlen vp =? size) then mkPlaying (baseData p) (pcore p) (pmem p) (retval p) uninit else p)
  | PSetValue => Ok (mkPlaying (baseData p) (pcore p) (pmem p) (retval p) (retval p))
  | PSetNull => Ok (mkPlaying (baseData p) (pcore p) (pmem p) (retval p) uninit)
  end.

Fixpoint run_pstmts (ss : list pstmt) (p : playing) : outcome playing :=
  match ss with
  | [] => Ok p
  | s :: ss => p ← run_pstmt s p; run_pstmts ss p
  end.

End playback.

(** [rsp_x] *)
Definition rsp (api : ApiEntry) (id : nat) (vp : list Z) (c : core) (m : mem) : outcome playing :=
  run_pstmts api id vp (printPlaybackCpp api) (mkPlaying None c m [] []).

Context (apis : list ApiEntry).

(** A command of [playCoreCommands]: the header and the data are read into a buffer of 2048 bytes,
    and the playback function looked up. *)
Definition play (toCore : list Z) (c : core) (m : mem) : outcome (list Z * playing) :=
  hdr ← zread toCore 0 HEADER;
  let cmdID := le_val (take 4 hdr) in
  let bytes := le_val (drop 4 hdr) in
  if HEADER + bytes >? SEND_BUFFER then Fault OutOfBounds
  else
    data ← zread toCore HEADER bytes;
    api ← (if cmdID =? 0 then Fault NullDeref else of_option OutOfBounds (apis !! Z.to_nat (cmdID - 1)));
    if direct api then Fault NullDeref
    else
      p ← rsp api (Z.to_nat (cmdID - 1)) data c m;
      Ok (drop (Z.to_nat (HEADER + bytes)) toCore, p).

(** ** Buffers *)

(** The bytes [v] stand at [o]. *)
Definition has (buf : list Z) (o : Z) (v : list Z) : Prop := zread buf o (zlen v) = Ok v.

Lemma has_lookup buf o v : has buf o v <-> 0 <= o /\ o + zlen v <= zlen buf /\ forall j, (j < length v)%nat -> buf !! Z.to_nat (o + Z.of_nat j) = v !! j.
Proof.
  unfold has. split.
  - intros E. assert (H : 0 <= o /\ o + zlen v <= zlen buf) by (unfold zread in E; case_decide as H; [lia|done]). split; [lia|]. split; [lia|]. intros j Hj.
    destruct (zread_Ok buf o (zlen v)) as (r & E' & _ & Hr); [lia|auto with rs|lia|]. rewrite E in E'. injection E' as <-. symmetry. apply Hr. unfold zlen. lia.
  - intros (H0 & H1 & H). destruct (zread_Ok buf o (zlen v)) as (r & E & Hl & Hr); [lia|auto with rs|lia|]. rewrite E. f_equal. unfold zlen in *. apply list_eq. intros j.
    destruct (decide (j < length v)%nat); [rewrite Hr by lia; by apply H|]. rewrite !lookup_ge_None_2; [done|lia|lia].
Qed.

Lemma has_write buf o v b : zwrite buf o v = Ok b -> has b o v.
Proof.
  intros E. pose proof (zwrite_length _ _ _ _ E). assert (H0 : 0 <= o /\ o + zlen v <= zlen buf) by (unfold zwrite in E; case_decide as H0; [lia|done]).
  apply has_lookup. split; [lia|]. split; [lia|]. intros j Hj. rewrite (zwrite_lookup_in _ _ _ _ _ E) by (unfold zlen; lia). f_equal. lia.
Qed.

Lemma has_keep buf o v b o' v' : zwrite buf o v = Ok b -> has buf o' v' -> o' + zlen v' <= o \/ o + zlen v <= o' -> has b o' v'.
Proof.
  intros E (H0 & H1 & H)%has_lookup Hd. pose proof (zwrite_length _ _ _ _ E). apply has_lookup. split; [lia|]. split; [lia|]. intros j Hj.
  rewrite (zwrite_lookup_out _ _ _ _ _ E) by (unfold zlen in *; lia). by apply H.
Qed.

(** The bytes of a part of a buffer. *)
Lemma has_part buf p n part o v : zread buf p n = Ok part -> has buf (p + o) v -> 0 <= o -> o + zlen v <= n -> has part o v.
Proof.
  intros E (H0 & H1 & H)%has_lookup Ho Hn. assert (Hb : 0 <= p /\ 0 <= n /\ p + n <= zlen buf) by (unfold zread in E; case_decide as Hb; [lia|done]).
  destruct (zread_Ok buf p n) as (r & E' & Hl & Hr); [lia|lia|lia|]. rewrite E in E'. injection E' as <-. apply has_lookup. split; [lia|]. split; [lia|].
  intros j Hj. rewrite Hr by (unfold zlen in *; lia). rewrite <- (H j Hj). f_equal. lia.
Qed.

Definition is_byte (z : Z) : Prop := 0 <= z < 256.

Lemma le_val_range bs : Forall is_byte bs -> 0 <= le_val bs < 256 ^ zlen bs.
Proof.
  induction bs as [|b bs IH]; intros H; [change (256 ^ zlen (@nil Z)) with 1; cbn [le_val]; lia|]. apply Forall_cons in H as [Hb H]. specialize (IH H). unfold is_byte in Hb. cbn [le_val]. change (b :: bs) with ([b] ++ bs).
  rewrite zlen_app, Z.pow_add_r by (auto with rs). change (zlen [b]) with 1. rewrite Z.pow_1_r. lia.
Qed.

(** ** The layout of a command *)

Notation fsize := (field_size sizeof_type).

Lemma fields_end_le ps pos : Forall (fun v => scalar (fsize v)) ps -> pos <= fields_end sizeof_type pos ps <= pos + 16 * Z.of_nat (length ps).
Proof.
  revert pos. induction ps as [|v ps IH]; intros pos H; [cbn; lia|]. apply Forall_cons in H as [Hv H]. cbn [fields_end length]. specialize (IH (roundup (fsize v) pos + fsize v) H).
  assert (0 < fsize v <= 8) by (destruct Hv as [-> | [-> | [-> | ->]]]; lia). pose proof (roundup_bounds (fsize v) pos). lia.
Qed.

Lemma offset_bounds ps pos i o v : Forall (fun v => scalar (fsize v)) ps -> offsets sizeof_type pos ps !! i = Some o -> ps !! i = Some v -> pos <= o /\ o + fsize v <= fields_end sizeof_type pos ps.
Proof.
  revert pos i. induction ps as [|u ps IH]; intros pos i H Ho Hv; [done|]. apply Forall_cons in H as [Hu H]. cbn [offsets fields_end] in *.
  assert (0 < fsize u <= 8) by (destruct Hu as [-> | [-> | [-> | ->]]]; lia). pose proof (roundup_bounds (fsize u) pos).
  pose proof (fields_end_le ps (roundup (fsize u) pos + fsize u) H). destruct i as [|i]; cbn in Ho, Hv; [injection Ho as <-; injection Hv as <-; lia|].
  destruct (IH _ _ H Ho Hv). lia.
Qed.

Lemma offsets_length pos ps : length (offsets sizeof_type pos ps) = length ps.
Proof. revert pos. induction ps as [|v ps IH]; intros pos; [done|]. cbn. by rewrite IH. Qed.

Lemma alignment_range ps : Forall (fun v => scalar (fsize v)) ps -> 1 <= alignment sizeof_type ps <= 8.
Proof. induction 1 as [|v ps Hv _ IH]; cbn; [lia|]. fold (alignment sizeof_type ps). destruct Hv as [-> | [-> | [-> | ->]]]; lia. Qed.

Lemma sizeof_cmd_bounds api : api_ok sizeof_type api -> fields_end sizeof_type 0 (params api) <= sizeof_cmd sizeof_type api /\ 1 <= sizeof_cmd sizeof_type api <= 264.
Proof.
  intros (Hn & Hs & _). unfold sizeof_cmd. pose proof (alignment_range _ Hs). pose proof (fields_end_le _ 0 Hs). pose proof (roundup_bounds (alignment sizeof_type (params api)) (fields_end sizeof_type 0 (params api))). lia.
Qed.

(** ** A call and its buffers *)

Section call.
Context (api : ApiEntry) (Hapi : api_ok sizeof_type api) (args : list (list Z)) (m : mem).

Notation size := (sizeof_cmd sizeof_type api).
Notation inline := (hasInlineDataPointers api).

Definition argv (i : nat) : list Z := default [] (args !! i).
(** The size of the buffer behind a pointer. *)
Definition blen (v : VarType) : Z := le_val (argv (length_of api v)).
Definition bufsum (ps : list VarType) : Z := foldr (fun v n => (if is_ptr v then blen v else 0) + n) 0 ps.
Definition total : Z := bufsum (params api).

Definition args_ok : Prop :=
  Forall2 (fun v a => zlen a = fsize v /\ Forall is_byte a) (params api) args /\ total < 2 ^ 64.

(** Does the stub copy the buffers behind the command? *)
Definition small : bool := inline && (total <? mMaxInlineSize).
Definition body_size : Z := if small then total + size else size.

(** What the implementation is given. *)
Definition abs_arg (i : nat) (v : VarType) : carg :=
  if is_ptr v then if isConst v && (ptrLevel v =? 1)%nat then VData (read m (le_val (argv i)) (blen v)) else VRaw (le_val (argv i)) else VVal (argv i).
Definition abs_args : list carg := (fun '(i, v) => abs_arg i v) <$> indexed (params api).

(** How the stubs agree on an answer. *)
Definition waits : waiting :=
  if inline then (if total >=? mMaxInlineSize then WNull else WNone) else if has_ret api then WValue else if needFlush api then WNull else WNone.

(** A packed command. *)
Definition packed (body : list Z) : Prop :=
  zlen body = body_size /\
  forall i v, params api !! i = Some v -> exists o, offsets sizeof_type 0 (params api) !! i = Some o /\
    (if is_ptr v && small then exists q, 0 <= q < 2 ^ 32 /\ has body o (bytes64 q) /\ has body (size + q) (read m (le_val (argv i)) (blen v)) else has body o (argv i)).

Context (Hargs : args_ok).

Lemma args_lookup i v : params api !! i = Some v -> args !! i = Some (argv i) /\ zlen (argv i) = fsize v /\ Forall is_byte (argv i).
Proof.
  intros Hv. destruct Hargs as [H _]. destruct (Forall2_lookup_l _ _ _ _ _ H Hv) as (a & Ha & Hl & Hb). unfold argv. rewrite Ha. done.
Qed.

Lemma length_param v : v ∈ params api -> ptrLevel v = 1%nat -> exists l, params api !! length_of api v = Some l /\ ptrLevel l = 0%nat /\ fsize l = 8.
Proof.
  intros Hv E. destruct Hapi as (_ & _ & H). rewrite Forall_forall in H. destruct (H v Hv E) as (j & l & Hj & Hl & Hp & Hs). unfold length_of. rewrite Hj. by exists l.
Qed.

Lemma inline_params_spec ps r : inline_params ps r = true -> Forall (fun v => is_ptr v = true -> isConst v = true /\ ptrLevel v = 1%nat) ps.
Proof.
  revert r. induction ps as [|v ps IH]; intros r H; [done|]. cbn [inline_params] in H. destruct (negb (isConst v) && is_ptr v) eqn:E1; [done|]. destruct (Nat.ltb_spec 1 (ptrLevel v)) as [|Hl]; [done|].
  apply Forall_cons. split; [|by eapply IH]. intros Hp. unfold is_ptr in *. apply Nat.ltb_lt in Hp as Hp'. rewrite Hp, andb_true_r in E1. split; [by apply negb_false_iff in E1|lia].
Qed.

Lemma inline_spec v : inline = true -> v ∈ params api -> is_ptr v = true -> isConst v = true /\ ptrLevel v = 1%nat.
Proof.
  unfold hasInlineDataPointers. destruct (sync api || has_ret api); [done|]. intros H Hv. pose proof (inline_params_spec _ _ H) as HF. rewrite Forall_forall in HF. by apply HF.
Qed.

Lemma argv_nonneg i : 0 <= le_val (argv i).
Proof.
  destruct (params api !! i) as [v|] eqn:E; [apply le_val_range, (args_lookup i v E)|]. destruct Hargs as [H _]. apply Forall2_length in H. apply lookup_ge_None in E.
  unfold argv. rewrite lookup_ge_None_2 by lia. cbn. lia.
Qed.

Lemma bufsum_nonneg ps : 0 <= bufsum ps.
Proof. induction ps as [|v ps IH]; [done|]. cbn [bufsum foldr]. fold (bufsum ps). pose proof (argv_nonneg (length_of api v)). unfold blen. destruct (is_ptr v); lia. Qed.

Lemma bufsum_ge ps v : v ∈ ps -> is_ptr v = true -> 0 <= blen v <= bufsum ps.
Proof.
  intros Hv Hp. pose proof (argv_nonneg (length_of api v)) as H0. fold (blen v) in H0. split; [done|]. induction ps as [|u ps IH]; [by apply elem_of_nil in Hv|]. cbn [bufsum foldr]. fold (bufsum ps). pose proof (bufsum_nonneg ps).
  pose proof (argv_nonneg (length_of api u)). apply elem_of_cons in Hv as [->|Hv]; [rewrite Hp; lia|]. specialize (IH Hv). unfold blen in *. destruct (is_ptr u); lia.
Qed.

Lemma zlen_read (mm : mem) a n : 0 <= n -> zlen (read mm a n) = n.
Proof. intros. unfold read, zlen. rewrite length_fmap, length_seq. lia. Qed.

Lemma run_cstmts_app id ss ss' l : run_cstmts api id args m (ss ++ ss') l = (l ← run_cstmts api id args m ss l; run_cstmts api id args m ss' l).
Proof. revert l. induction ss as [|s ss IH]; intros l; [done|]. cbn [app run_cstmts]. destruct (run_cstmt api id args m s l); cbn; [apply IH|done]. Qed.

(** The statements for the parameters from the [k]-th on. *)
Fixpoint param_stmts (k : nat) (ps : list VarType) : list cstmt :=
  match ps with
  | [] => []
  | v :: ps => (if is_ptr v && inline then CInline k (length_of api v) else CAssign k) :: param_stmts (S k) ps
  end.

Lemma param_stmts_eq ps k :
  (fun '(i, v) => if is_ptr v && inline then CInline i (length_of api v) else CAssign i) <$> imap (fun i v => ((k + i)%nat, v)) ps = param_stmts k ps.
Proof.
  revert k. induction ps as [|v ps IH]; intros k; [done|]. rewrite imap_cons. cbn [fmap list_fmap param_stmts]. rewrite Nat.add_0_r. f_equal. rewrite <- IH. f_equal. apply imap_ext. intros i u _. cbn. f_equal. lia.
Qed.

Lemma mbind_indexed {A} (g : VarType -> list A) (h : nat -> nat) ps : ('(_, v) ← imap (fun i v => (h i, v)) ps; g v) = (v ← ps; g v).
Proof. revert h. induction ps as [|v ps IH]; intros h; [done|]. rewrite imap_cons. cbn. f_equal. apply (IH (h ∘ S)). Qed.

Lemma run_data_sizes id ps l :
  inline = true -> (forall v, v ∈ ps -> v ∈ params api) -> 0 <= dataSize l -> dataSize l + bufsum ps < 2 ^ 64 ->
  run_cstmts api id args m (v ← ps; if isConst v && is_ptr v then [CDataSize (length_of api v)] else []) l =
  Ok (mkLocals (dataSize l + bufsum ps) (payload l) (mSendBuffer l) (mSendLen l) (sent l) (wait l)).
Proof.
  intros Hin. revert l. induction ps as [|v ps IH]; intros l Hps H0 Hs; [destruct l; cbn in *; by rewrite Z.add_0_r|]. cbn [mbind list_bind]. rewrite run_cstmts_app. cbn [bufsum foldr] in *. fold (bufsum ps) in *.
  pose proof (bufsum_nonneg ps) as HB. pose proof (argv_nonneg (length_of api v)) as HN. fold (blen v) in HN. destruct (is_ptr v) eqn:Ep.
  - destruct (inline_spec v Hin (Hps v ltac:(left)) Ep) as [-> Hl]. cbn [andb run_cstmts run_cstmt]. destruct (length_param v (Hps v ltac:(left)) Hl) as (w & Hw & _).
    unfold arg. rewrite (proj1 (args_lookup _ _ Hw)). cbn [of_option mbind outcome_bind]. fold (blen v). rewrite u64_small by lia. rewrite IH; cbn [dataSize payload mSendBuffer mSendLen sent wait]; [f_equal; f_equal; lia| |lia|lia]. intros u Hu. apply Hps. by right.
  - rewrite andb_false_r. cbn [run_cstmts mbind outcome_bind]. rewrite IH; [f_equal; f_equal; lia| |lia|lia]. intros u Hu. apply Hps. by right.
Qed.

Lemma assign_spec i o v l :
  offsets sizeof_type 0 (params api) !! i = Some o -> 0 <= o -> HEADER + o + zlen v <= zlen (mSendBuffer l) ->
  exists b, zwrite (mSendBuffer l) (HEADER + o) v = Ok b /\ assign api i v l = Ok (set_buffer l b).
Proof.
  intros Ho H0 Hb. unfold assign, offset. rewrite Ho. cbn [of_option mbind outcome_bind]. destruct (zwrite_Ok (mSendBuffer l) (HEADER + o) v) as [b E]; [unfold HEADER; lia|lia|]. exists b. rewrite E. done.
Qed.

(** What stands in the buffer so far: fields below [pos] and copied buffers. *)
Definition recorded (R : list (Z * list Z)) (pos pay : Z) (buf : list Z) : Prop :=
  forall o v, (o, v) ∈ R -> has buf o v /\ (0 <= o /\ o + zlen v <= HEADER + pos \/ HEADER + size <= o /\ o + zlen v <= HEADER + size + pay).

Lemma recorded_field R pos pay buf o v b :
  recorded R pos pay buf -> zwrite buf (HEADER + o) v = Ok b -> 0 <= pos -> pos <= o -> o + zlen v <= size -> recorded ((HEADER + o, v) :: R) (o + zlen v) pay b.
Proof.
  unfold recorded, HEADER. intros HR E Hp0 Hp Hs o' v' [Heq|Hin]%elem_of_cons; [injection Heq as -> ->; split; [by apply has_write in E|left; lia]|].
  destruct (HR o' v' Hin) as [Hh Hd]. pose proof (zlen_nonneg v). split; [|lia]. apply (has_keep _ _ _ _ _ _ E Hh). lia.
Qed.

Lemma recorded_data R pos pay buf d b :
  recorded R pos pay buf -> zwrite buf (HEADER + size + pay) d = Ok b -> 0 <= pay -> pos <= size -> recorded ((HEADER + size + pay, d) :: R) pos (pay + zlen d) b.
Proof.
  unfold recorded, HEADER. intros HR E Hp0 Hp o' v' [Heq|Hin]%elem_of_cons; [injection Heq as -> ->; split; [by apply has_write in E|right; lia]|].
  destruct (HR o' v' Hin) as [Hh Hd]. split; [|pose proof (zlen_nonneg d); lia]. apply (has_keep _ _ _ _ _ _ E Hh). lia.
Qed.

Definition field_packed (buf : list Z) (i : nat) (o : Z) (v : VarType) : Prop :=
  if is_ptr v && small then exists q, 0 <= q /\ q + blen v <= total /\ has buf (HEADER + o) (bytes64 q) /\ has buf (HEADER + size + q) (read m (le_val (argv i)) (blen v))
  else has buf (HEADER + o) (argv i).

(** What packing a parameter keeps. *)
Definition kept (l l' : locals) : Prop := zlen (mSendBuffer l') = SEND_BUFFER /\ dataSize l' = dataSize l /\ mSendLen l' = mSendLen l /\ wait l' = wait l.

Lemma kept_trans l1 l2 l3 : kept l1 l2 -> kept l2 l3 -> kept l1 l3.
Proof. unfold kept. intuition congruence. Qed.

(** One parameter. *)
Lemma run_param id k v o pos l R :
  params api !! k = Some v -> offsets sizeof_type 0 (params api) !! k = Some o -> 0 <= pos <= o -> o + fsize v <= size -> zlen (mSendBuffer l) = SEND_BUFFER ->
  (inline = true -> dataSize l = total) -> 0 <= payload l -> (small = true -> payload l + (if is_ptr v then blen v else 0) <= total) -> recorded R pos (payload l) (mSendBuffer l) ->
  exists l1 R1, run_cstmt api id args m (if is_ptr v && inline then CInline k (length_of api v) else CAssign k) l = Ok l1 /\ kept l l1 /\
    payload l1 = payload l + (if is_ptr v && small then blen v else 0) /\ recorded (R1 ++ R) (o + fsize v) (payload l1) (mSendBuffer l1) /\
    forall b, (forall o v, (o, v) ∈ R1 -> has b o v) -> field_packed b k o v.
Proof.
  intros Hv Hofs Hpos Hend Hlen Hds Hpay Hsm HR. pose proof (sizeof_cmd_bounds api Hapi) as [_ Hsz]. destruct (args_lookup k v Hv) as (Ha & Hal & _).
  unfold field_packed, kept. destruct (is_ptr v && small) eqn:Esm.
  - apply andb_prop in Esm as [Ep Es]. specialize (Hsm Es). unfold small in Es. apply andb_prop in Es as [Ein Et]. rewrite Ep in *.
    assert (Hc : (dataSize l <? mMaxInlineSize) = true) by (by rewrite (Hds Ein)). apply Z.ltb_lt in Et. unfold mMaxInlineSize in Et.
    assert (Hvin : v ∈ params api) by (by apply list_elem_of_lookup_2 in Hv). destruct (inline_spec v Ein Hvin Ep) as [_ Hl1]. destruct (length_param v Hvin Hl1) as (w & Hw & _).
    pose proof (argv_nonneg (length_of api v)) as Hbl. fold (blen v) in Hbl. set (d := read m (le_val (argv k)) (blen v)).
    assert (Hdl : zlen d = blen v) by (by apply zlen_read). assert (Hf8 : fsize v = 8) by (unfold field_size; by rewrite Ep).
    destruct (zwrite_Ok (mSendBuffer l) (HEADER + size + payload l) d) as [b E1]; [unfold HEADER; lia|unfold HEADER, SEND_BUFFER in *; lia|]. pose proof (zwrite_length _ _ _ _ E1) as Hb1.
    destruct (assign_spec k o (bytes64 (payload l)) (set_buffer l b)) as (b2 & E2 & E3); [done|lia|change (zlen (bytes64 (payload l))) with 8; cbn [set_buffer mSendBuffer]; unfold HEADER, SEND_BUFFER in *; lia|]. cbn [set_buffer mSendBuffer] in E2. pose proof (zwrite_length _ _ _ _ E2) as Hb2.
    exists (mkLocals (dataSize l) (payload l + blen v) b2 (mSendLen l) (sent l) (wait l)), [(HEADER + o, bytes64 (payload l)); (HEADER + size + payload l, d)]. cbn [mSendBuffer dataSize mSendLen wait payload]. split; [|split; [repeat split; lia|split; [done|split]]].
    + rewrite Ein. cbn [andb run_cstmt]. unfold arg. rewrite Ha. cbn [of_option mbind outcome_bind]. rewrite Hc, (proj1 (args_lookup _ _ Hw)). cbn [of_option mbind outcome_bind]. fold (blen v) d. rewrite E1. cbn [mbind outcome_bind]. rewrite E3. done.
    + rewrite Hf8. change 8 with (zlen (bytes64 (payload l))). cbn [app]. rewrite <- Hdl. eapply (recorded_field _ pos); [|exact E2|lia|apply Hpos|change (zlen (bytes64 (payload l))) with 8; lia]. apply (recorded_data _ _ _ _ _ _ HR E1); lia.
    + intros b' Hb'. exists (payload l). split; [done|]. split; [lia|]. split; apply Hb'; [left|right; left].
  - destruct (assign_spec k o (argv k) l) as (b & E1 & E2); [done|lia|unfold HEADER, SEND_BUFFER in *; lia|]. pose proof (zwrite_length _ _ _ _ E1) as Hb1.
    exists (set_buffer l b), [(HEADER + o, argv k)]. cbn [set_buffer mSendBuffer dataSize mSendLen wait payload]. split; [|split; [repeat split; lia|split; [lia|split]]].
    + destruct (is_ptr v && inline) eqn:Ei; cbn [run_cstmt]; unfold arg; rewrite Ha; cbn [of_option mbind outcome_bind]; [|done].
      apply andb_prop in Ei as [Ep Ein]. unfold small in Esm. rewrite Ep, Ein in Esm. cbn [andb] in Esm. rewrite (Hds Ein), Esm. done.
    + rewrite <- Hal. cbn [app]. apply (recorded_field _ _ _ _ _ _ _ HR E1); lia.
    + intros b' Hb'. apply Hb'. left.
Qed.

(** The statements of the parameters from the [k]-th on. *)
Lemma run_params id ps k pos l R :
  drop k (params api) = ps -> (forall j, offsets sizeof_type pos ps !! j = offsets sizeof_type 0 (params api) !! (k + j)%nat) ->
  0 <= pos -> fields_end sizeof_type pos ps <= size -> zlen (mSendBuffer l) = SEND_BUFFER ->
  (inline = true -> dataSize l = total) -> 0 <= payload l -> (small = true -> payload l + bufsum ps <= total) -> recorded R pos (payload l) (mSendBuffer l) ->
  exists l', run_cstmts api id args m (param_stmts k ps) l = Ok l' /\ kept l l' /\ (forall o v, (o, v) ∈ R -> has (mSendBuffer l') o v) /\
    forall j v, ps !! j = Some v -> exists o, offsets sizeof_type pos ps !! j = Some o /\ field_packed (mSendBuffer l') (k + j) o v.
Proof.
  destruct Hapi as (_ & Hsc & _). rewrite Forall_lookup in Hsc.
  revert k pos l R. induction ps as [|v ps IH]; intros k pos l R Hd Ho Hp0 Hfe Hlen Hds Hpay Hsm HR.
  { exists l. cbn [param_stmts run_cstmts]. split; [done|]. split; [done|]. split; [intros o v Hin; by apply HR|]. intros j v Hj. done. }
  assert (Hv : params api !! k = Some v) by (rewrite <- (Nat.add_0_r k), <- lookup_drop, Hd; done).
  assert (Hd' : drop (S k) (params api) = ps) by (rewrite <- Nat.add_1_r, <- drop_drop, Hd; done).
  assert (Hf8 : 0 < fsize v <= 8) by (destruct (Hsc k v Hv) as [-> | [-> | [-> | ->]]]; lia).
  cbn [offsets fields_end] in Ho, Hfe. set (o := roundup (fsize v) pos) in *. assert (Hoo : pos <= o) by (pose proof (roundup_bounds (fsize v) pos); lia).
  assert (Hofs : offsets sizeof_type 0 (params api) !! k = Some o) by (rewrite <- (Nat.add_0_r k), <- Ho; done).
  assert (Ho' : forall j, offsets sizeof_type (o + fsize v) ps !! j = offsets sizeof_type 0 (params api) !! (S k + j)%nat) by (intros j; specialize (Ho (S j)); rewrite <- plus_n_Sm in Ho; exact Ho).
  assert (HF : Forall (fun v => scalar (fsize v)) ps) by (apply Forall_lookup; intros j u Hj; apply (Hsc (S k + j)%nat); rewrite <- lookup_drop, Hd'; done).
  pose proof (fields_end_le ps (o + fsize v) HF) as Hend. cbn [bufsum foldr] in Hsm. fold (bufsum ps) in Hsm. pose proof (bufsum_nonneg ps) as HB. pose proof (argv_nonneg (length_of api v)) as HN. fold (blen v) in HN.
  destruct (run_param id k v o pos l R Hv Hofs ltac:(lia) ltac:(lia) Hlen Hds Hpay ltac:(intros; specialize (Hsm ltac:(done)); lia) HR) as (l1 & R1 & E & Hk & Hp1 & HR1 & HP).
  destruct (IH (S k) (o + fsize v) l1 (R1 ++ R) Hd' Ho' ltac:(lia) Hfe (proj1 Hk)) as (l' & E' & Hk' & HR' & HP').
  { intros Hi. rewrite (proj1 (proj2 Hk)). auto. }
  { rewrite Hp1. destruct (is_ptr v && small); lia. }
  { intros Hs. specialize (Hsm Hs). rewrite Hp1, Hs, andb_true_r. lia. }
  { done. }
  exists l'. cbn [param_stmts run_cstmts]. rewrite E. cbn [mbind outcome_bind]. split; [done|]. split; [by eapply kept_trans|].
  split; [intros; apply HR', elem_of_app; by right|]. intros [|j] u Hu; cbn in Hu.
  - injection Hu as <-. exists o. split; [done|]. rewrite Nat.add_0_r. apply HP. intros; apply HR', elem_of_app; by left.
  - destruct (HP' j u Hu) as (o' & Ho1 & Hp'). exists o'. split; [done|]. by rewrite <- plus_n_Sm.
Qed.

Lemma zread_split {A} (l : list A) o a b s : zread l o (a + b) = Ok s -> 0 <= a -> 0 <= b -> exists s1 s2, zread l o a = Ok s1 /\ zread l (o + a) b = Ok s2 /\ s = s1 ++ s2.
Proof.
  unfold zread, zlen. intros E Ha Hb. case_decide as H; [|done]. injection E as <-. rewrite !decide_True by lia. eexists _, _. split; [done|]. split; [done|].
  rewrite !Z2Nat.inj_add by lia. rewrite <- (take_take_drop _ (Z.to_nat a) (Z.to_nat b)), drop_drop. done.
Qed.

Lemma run_header id l :
  inline = true /\ dataSize l = total \/ inline = false -> zlen (mSendBuffer l) = SEND_BUFFER ->
  exists b, run_cstmt api id args m (CHeader inline) l = Ok (mkLocals (dataSize l) (payload l) b (body_size + HEADER) (sent l) (wait l)) /\
    zlen b = SEND_BUFFER /\ recorded [(4, bytes32 body_size); (0, bytes32 id)] 0 (payload l) b.
Proof.
  intros Hd Hl. destruct (zwrite_Ok (mSendBuffer l) 4 (bytes32 body_size)) as [b1 E1]; [lia|rewrite Hl; done|]. pose proof (zwrite_length _ _ _ _ E1) as H1.
  destruct (zwrite_Ok b1 0 (bytes32 id)) as [b2 E2]; [lia|rewrite H1, Hl; done|]. pose proof (zwrite_length _ _ _ _ E2) as H2. exists b2. split; [|split; [lia|]].
  - cbn [run_cstmt]. assert ((if inline && (dataSize l <? mMaxInlineSize) then dataSize l + size else size) = body_size) as ->.
    { unfold body_size, small. destruct Hd as [[-> ->]| ->]; done. }
    unfold coreHeader. rewrite E1. cbn [mbind outcome_bind]. rewrite E2. done.
  - intros o v [Heq|[Heq|Hn%elem_of_nil]%elem_of_cons]%elem_of_cons; [| |done]; injection Heq as -> ->; (split; [|left; unfold HEADER; vm_compute; split; discriminate]).
    + apply (has_keep _ _ _ _ _ _ E2); [by apply has_write in E1|right; done].
    + by apply has_write in E2.
Qed.

Lemma small_total : small = true -> total < 1024.
Proof. unfold small. intros [_ H]%andb_prop. by apply Z.ltb_lt in H. Qed.

Lemma body_size_bounds : 1 <= size <= body_size /\ body_size + HEADER <= SEND_BUFFER.
Proof.
  pose proof (sizeof_cmd_bounds api Hapi) as [_ Hs]. unfold body_size, HEADER, SEND_BUFFER. pose proof (bufsum_nonneg (params api)) as H0. fold total in H0.
  pose proof small_total. destruct small; [specialize (H eq_refl)|]; lia.
Qed.

(** The part of the buffer that is sent. *)
Lemma commit_spec id buf :
  zlen buf = SEND_BUFFER -> (forall o v, (o, v) ∈ [(4, bytes32 body_size); (0, bytes32 id)] -> has buf o v) ->
  (forall j v, params api !! j = Some v -> exists o, offsets sizeof_type 0 (params api) !! j = Some o /\ field_packed buf j o v) ->
  exists body, zread buf 0 (body_size + HEADER) = Ok (bytes32 id ++ bytes32 body_size ++ body) /\ packed body.
Proof.
  intros Hl Hh HP. pose proof body_size_bounds as Hb. destruct (zread_Ok buf 0 (body_size + HEADER)) as (s & E & Hsl & _); [lia|unfold HEADER in *; lia|lia|].
  replace (body_size + HEADER) with (4 + (4 + body_size)) in E |- * by (unfold HEADER; lia). destruct (zread_split _ _ _ _ _ E ltac:(lia) ltac:(lia)) as (s1 & s2 & E1 & E2 & ->).
  destruct (zread_split _ _ _ _ _ E2 ltac:(lia) ltac:(lia)) as (s3 & body & E3 & E4 & ->). exists body.
  assert (s1 = bytes32 id) as -> by (specialize (Hh 0 (bytes32 id) ltac:(right; left)); unfold has in Hh; change (zlen (bytes32 id)) with 4 in Hh; congruence).
  assert (s3 = bytes32 body_size) as -> by (specialize (Hh 4 (bytes32 body_size) ltac:(left)); unfold has in Hh; change (zlen (bytes32 body_size)) with 4 in Hh; change (0 + 4) with 4 in E3; congruence).
  split; [done|]. change (0 + 4 + 4) with HEADER in E4. split.
  - destruct (zread_Ok buf HEADER body_size) as (r & E' & Hr & _); [done|lia|unfold HEADER in *; lia|]. congruence.
  - intros i v Hv. destruct (HP i v Hv) as (o & Ho & Hp). exists o. split; [done|]. destruct (args_lookup i v Hv) as (_ & Hal & _).
    destruct (offset_bounds _ _ _ _ _ (proj1 (proj2 Hapi)) Ho Hv) as [Ho0 Ho1]. pose proof (proj1 (sizeof_cmd_bounds api Hapi)). unfold field_packed in Hp. destruct (is_ptr v && small) eqn:Eps.
    + apply andb_prop in Eps as [Ep Es]. destruct Hp as (q & Hq & Hqt & Hf & Hdat). pose proof (small_total Es). pose proof (argv_nonneg (length_of api v)) as HN. fold (blen v) in HN. exists q. split; [lia|].
      assert (fsize v = 8) by (unfold field_size; by rewrite Ep). split; (eapply has_part; [exact E4| | |]); [exact Hf|lia|change (zlen (bytes64 q)) with 8; lia|rewrite Z.add_assoc; exact Hdat|lia|].
      rewrite zlen_read by done. unfold body_size. rewrite Es. lia.
    + eapply has_part; [exact E4|exact Hp|lia|lia].
Qed.

(** The client stub sends the packed command, and then waits as the core expects. *)
Lemma LF_spec id buf : zlen buf = SEND_BUFFER ->
  exists l body, LF api id args m buf = Ok l /\ zlen (mSendBuffer l) = SEND_BUFFER /\ sent l = bytes32 id ++ bytes32 body_size ++ body /\ packed body /\ wait l = waits.
Proof.
  intros Hl. unfold LF, printApiCpp. rewrite run_cstmts_app. set (l1 := mkLocals (if inline then total else 0) 0 buf 0 [] WNone).
  assert (run_cstmts api id args m (if inline then '(_, v) ← indexed (params api); if isConst v && is_ptr v then [CDataSize (length_of api v)] else [] else []) (mkLocals 0 0 buf 0 [] WNone) = Ok l1) as ->.
  { subst l1. destruct inline eqn:Ein; [|done]. unfold indexed. rewrite (mbind_indexed _ (fun i => i)). rewrite run_data_sizes; [done|done|done|done|apply Hargs]. }
  cbn [mbind outcome_bind]. rewrite run_cstmts_app. cbn [run_cstmts].
  destruct (run_header id l1) as (b & -> & Hb & HR); [subst l1; destruct inline; auto|done|]. cbn [mbind outcome_bind run_cstmts]. rewrite run_cstmts_app. unfold indexed. change (imap pair (params api)) with (imap (fun i v => ((0 + i)%nat, v)) (params api)). rewrite (param_stmts_eq (params api) 0).
  edestruct (run_params id (params api) 0 0) as (l2 & -> & (Hl2 & Hd2 & Hs2 & Hw2) & Hr2 & HP); [done|done|done|apply (sizeof_cmd_bounds api Hapi)|exact Hb|cbn; by intros ->|cbn; lia|cbn; unfold total; lia|exact HR|].
  cbn [mbind outcome_bind dataSize mSendLen wait] in *. rewrite run_cstmts_app. cbn [run_cstmts run_cstmt]. unfold coreCommit. rewrite Hs2. destruct (commit_spec id (mSendBuffer l2) Hl2 Hr2 HP) as (body & -> & Hpk). cbn [mbind outcome_bind].
  destruct l2 as [ds pl bf sl se wt]; cbn [dataSize mSendBuffer mSendLen wait] in *. unfold waits. destruct inline; [cbn [run_cstmts run_cstmt]|destruct (has_ret api); [|destruct (needFlush api)]]; cbn [mbind outcome_bind run_cstmts run_cstmt];
    (eexists _, body; split; [reflexivity|cbn [mSendBuffer sent wait dataSize]; rewrite ?Hd2, ?Hw2; done]).
Qed.

(** ** Unpacking *)

(** What the core answers. *)
Definition answer (w : waiting) (r : list Z) : list Z := match w with WNone => [] | WNull => uninit | WValue => r end.

Section unpack.
Context (body : list Z) (Hpk : packed body).

Lemma field_direct i v : params api !! i = Some v -> is_ptr v && small = false -> field api body i = Ok (argv i).
Proof.
  intros Hv Es. destruct (proj2 Hpk i v Hv) as (o & Ho & H). rewrite Es in H. unfold field, offset. rewrite Ho, Hv. cbn [of_option mbind outcome_bind].
  unfold has in H. by rewrite (proj1 (proj2 (args_lookup i v Hv))) in H.
Qed.

Lemma field_length v : v ∈ params api -> ptrLevel v = 1%nat -> field api body (length_of api v) = Ok (argv (length_of api v)).
Proof. intros Hv Hl. destruct (length_param v Hv Hl) as (w & Hw & Hp & _). apply (field_direct _ w Hw). unfold is_ptr. by rewrite Hp. Qed.

Definition base : option Z := if inline && negb (zlen body =? size) then Some size else None.

Lemma eval_parg_spec p i v :
  params api !! i = Some v -> (waits <> WNone -> pmem p = m) -> baseData p = base ->
  eval_parg api body p (if inline && is_ptr v then ABase i else AField i) = Ok (abs_arg i v).
Proof.
  intros Hv Hm Hb. assert (Hin : v ∈ params api) by (by apply list_elem_of_lookup_2 in Hv). unfold abs_arg. destruct (inline && is_ptr v) eqn:Ei; cbn [eval_parg]; rewrite Hv; cbn [of_option mbind outcome_bind].
  - apply andb_prop in Ei as [Ein Ep]. destruct (inline_spec v Ein Hin Ep) as [Hc Hl]. rewrite Ep, Hc, Hl. cbn [andb Nat.eqb]. pose proof (argv_nonneg (length_of api v)) as HN. fold (blen v) in HN.
    pose proof (bufsum_ge _ v Hin Ep) as HB. fold total in HB. destruct small eqn:Es.
    + destruct (proj2 Hpk i v Hv) as (o & Ho & H). rewrite Ep, Es in H. cbn [andb] in H. destruct H as (q & Hq & Hf & Hd).
      assert (E : field api body i = Ok (bytes64 q)).
      { unfold field, offset. rewrite Ho, Hv. cbn [of_option mbind outcome_bind]. unfold has in Hf. change (zlen (bytes64 q)) with 8 in Hf. unfold field_size. by rewrite Ep. }
      rewrite E. cbn [mbind outcome_bind]. rewrite (field_length v Hin Hl). cbn [mbind outcome_bind]. fold (blen v). rewrite Hb, le_val_bytes64, Z.mod_small by lia. unfold base. rewrite Ein, (proj1 Hpk). unfold body_size. rewrite Es. cbn [andb].
      destruct (Z.eqb_spec (total + size) size) as [Ez|Ez]; cbn [negb]; [assert (blen v = 0) as -> by lia; done|]. unfold has in Hd. rewrite zlen_read in Hd by done. rewrite Hd. done.
    + rewrite (field_direct i v Hv) by (by rewrite Es, andb_false_r). cbn [mbind outcome_bind]. rewrite (field_length v Hin Hl). cbn [mbind outcome_bind]. fold (blen v). rewrite Hb. unfold base. rewrite (proj1 Hpk). unfold body_size. rewrite Es, Z.eqb_refl, andb_false_r.
      rewrite Hm; [done|]. unfold waits. rewrite Ein. unfold small in Es. rewrite Ein in Es. cbn [andb] in Es. apply Z.ltb_ge in Es. rewrite (proj2 (Z.geb_le _ _)) by done. done.
  - rewrite (field_direct i v Hv) by (unfold small; destruct inline, (is_ptr v); done). cbn [mbind outcome_bind]. destruct (is_ptr v) eqn:Ep; [|done]. rewrite andb_true_r in Ei. destruct (isConst v && (ptrLevel v =? 1)%nat) eqn:Ec; [|done].
    apply andb_prop in Ec as [_ Hl]. apply Nat.eqb_eq in Hl. rewrite (field_length v Hin Hl). cbn [mbind outcome_bind]. fold (blen v). rewrite Hm; [done|]. unfold waits, needFlush. rewrite Ei.
    assert (sum_list_with ptrLevel (params api) <> 0%nat) as Hn%Nat.eqb_neq.
    { intros H0. pose proof (sum_list_with_in v ptrLevel _ Hin). lia. }
    rewrite Hn. cbn [negb orb]. destruct (has_ret api); done.
Qed.

Lemma eval_pargs_spec p (f : nat * VarType -> parg) (g : nat * VarType -> carg) l :
  (forall x, x ∈ l -> eval_parg api body p (f x) = Ok (g x)) -> eval_pargs api body p (f <$> l) = Ok (g <$> l).
Proof.
  induction l as [|x l IH]; intros H; [done|]. cbn [fmap list_fmap eval_pargs]. rewrite (H x) by left. cbn [mbind outcome_bind]. rewrite IH; [done|]. intros y Hy. apply H. by right.
Qed.

Lemma total_size_spec ps : (forall v, v ∈ ps -> v ∈ params api) -> inline = true -> bufsum ps < 2 ^ 64 ->
  total_size api body (v ← ps; if is_ptr v then [length_of api v] else []) = Ok (bufsum ps).
Proof.
  intros Hps Hin. induction ps as [|v ps IH]; intros Hs; [done|]. cbn [bufsum foldr] in Hs |- *. fold (bufsum ps) in Hs |- *. pose proof (bufsum_nonneg ps). pose proof (argv_nonneg (length_of api v)) as HN. fold (blen v) in HN.
  cbn [mbind list_bind]. assert (Hv : v ∈ params api) by (apply Hps; left). specialize (IH (fun u Hu => Hps u (list_elem_of_further _ _ _ Hu))). destruct (is_ptr v) eqn:Ep; cbn [app].
  - destruct (inline_spec v Hin Hv Ep) as [_ Hl]. cbn [total_size]. rewrite (field_length v Hv Hl). cbn [mbind outcome_bind]. setoid_rewrite IH; [|lia]. cbn [mbind outcome_bind]. fold (blen v). by rewrite u64_small by lia.
  - rewrite Z.add_0_l. apply IH. lia.
Qed.

(** A command that waits for nothing does not touch the client's memory. *)
Lemma no_wait_memory : waits = WNone -> has_raw api = false /\ has_out api = false.
Proof.
  intros Hw. assert (H : forall v, v ∈ params api -> is_ptr v = true -> isConst v = true /\ ptrLevel v = 1%nat).
  { intros v Hv Hp. destruct inline eqn:Ein; [by apply inline_spec|]. exfalso. unfold waits, needFlush in Hw. rewrite Ein in Hw. destruct (has_ret api); [done|].
    assert (sum_list_with ptrLevel (params api) <> 0%nat) as Hn%Nat.eqb_neq; [|by rewrite Hn in Hw].
    unfold is_ptr in Hp. apply Nat.ltb_lt in Hp. pose proof (sum_list_with_in v ptrLevel _ Hv). lia. }
  split; apply not_true_iff_false; intros (v & Hv%list_elem_of_In & Hr)%existsb_exists; apply andb_prop in Hr as [Hp Hr]; destruct (H v Hv Hp) as [Hc Hl]; rewrite ?Hc, ?Hl in Hr; done.
Qed.

(** The playback stub calls the implementation with the arguments of the call, and answers if the client waits. *)
Lemma rsp_spec id c m' : (waits <> WNone -> m' = m) ->
  exists p, rsp api id body c m' = Ok p /\ let '(c1, m1, r) := call_rsi api id abs_args c m in
    pcore p = c1 /\ pmem p = (if decide (waits = WNone) then m' else m1) /\ reply p = answer waits r.
Proof.
  intros Hm. unfold rsp, printPlaybackCpp.
  assert (E0 : forall ss, run_pstmts api id body ((if inline then [PBaseData] else []) ++ ss) (mkPlaying None c m' [] []) = run_pstmts api id body ss (mkPlaying base c m' [] [])) by (intros ss; unfold base; destruct inline; done).
  rewrite E0. cbn [app run_pstmts run_pstmt]. rewrite (eval_pargs_spec _ _ (fun '(i, v) => abs_arg i v)).
  2: { intros [i v] Hx. apply eval_parg_spec; [|done|done]. apply elem_of_lookup_imap_1 in Hx as (j & u & Heq & Hu). by injection Heq as -> ->. }
  cbn [mbind outcome_bind pcore pmem]. fold abs_args.
  assert (Hc : call_rsi api id abs_args c m' = let '(c1, m1, r) := call_rsi api id abs_args c m in (c1, if decide (waits = WNone) then m' else m1, r)).
  { unfold call_rsi. case_decide as Hw; [destruct (no_wait_memory Hw) as [-> ->]|rewrite (Hm Hw)]; by destruct (rsi _ _ _ _) as [[? ?] ?]. }
  rewrite Hc. clear Hc. destruct (call_rsi api id abs_args c m) as [[c1 m1] r]. cbn [mbind outcome_bind]. set (mm := if decide (waits = WNone) then m' else m1). unfold answer, waits.
  destruct inline eqn:Ein; [|unfold needFlush; destruct (has_ret api), (sync api), (negb (sum_list_with ptrLevel (params api) =? 0)%nat); cbn [orb run_pstmts run_pstmt mbind outcome_bind]; by eexists].
  cbn [run_pstmts run_pstmt]. unfold indexed. rewrite (mbind_indexed (fun v => if is_ptr v then [length_of api v] else []) (fun i => i)), total_size_spec; [|done|done|apply Hargs]. fold total. cbn [mbind outcome_bind]. eexists. split; [reflexivity|].
  rewrite (proj1 Hpk). unfold body_size, small. rewrite Ein. cbn [andb]. pose proof (bufsum_nonneg (params api)) as H0. fold total in H0. unfold mMaxInlineSize.
  destruct (Z.ltb_spec total 1024), (Z.geb_spec total 1024); try lia; destruct (Z.eqb_spec total 0), (Z.eqb_spec (total + size) size); try lia; cbn [negb andb]; rewrite ?Z.eqb_refl; done.
Qed.

End unpack.
End call.

(** ** The client, the finalizer and the core thread *)

Section system.

(** The program of the client: from the values returned so far and its memory, what it stores
    and which entry it calls next. *)
Context (next : list (list Z) -> mem -> option (mem * nat * list (list Z))).
(** The position of [ObjDestroy] among the entries. *)
Context (did : nat).

Inductive cstate := Idle | Waiting (dataLen : Z) (w : waiting).

Record sys := mkSys { client : cstate; cmem : mem; hist : list (list Z); sendBuf : list Z; toCore : list Z; fromCore : list Z; score : core }.

Definition ret_size (api : ApiEntry) : Z := fsize (ret api).

(** What the stub passes to [coreGetReturn], and what it returns to its caller. *)
Definition expected (api : ApiEntry) (w : waiting) : Z := match w with WValue => ret_size api | _ => 4 end.
Definition result (w : waiting) (r : list Z) : list Z := match w with WValue => r | _ => [] end.

Inductive action := ACall | ADestroy (objPtr : list Z) | APlay | AReturn.

Inductive step : action -> sys -> sys -> Prop :=
| step_call s m id args api l :
    client s = Idle -> next (hist s) (cmem s) = Some (m, id, args) -> apis !! id = Some api ->
    LF api (Z.of_nat id + 1) args m (sendBuf s) = Ok l ->
    step ACall s (mkSys (match wait l with WNone => Idle | w => Waiting (expected api w) w end) m
                        (match wait l with WNone => hist s ++ [[]] | _ => hist s end)
                        (mSendBuffer l) (toCore s ++ sent l) (fromCore s) (score s))
| step_destroy s objPtr :
    zlen objPtr = 8 -> Forall is_byte objPtr ->
    step (ADestroy objPtr) s (mkSys (client s) (cmem s) (hist s) (sendBuf s) (toCore s ++ LF_ObjDestroy_handcode (Z.of_nat did + 1) objPtr) (fromCore s) (score s))
| step_play s rest p :
    play (toCore s) (score s) (cmem s) = Ok (rest, p) ->
    step APlay s (mkSys (client s) (pmem p) (hist s) (sendBuf s) rest (fromCore s ++ reply p) (pcore p))
| step_return s n w r :
    client s = Waiting n w -> zread (fromCore s) 0 n = Ok r ->
    step AReturn s (mkSys Idle (cmem s) (hist s ++ [result w r]) (sendBuf s) (toCore s) (drop (Z.to_nat n) (fromCore s)) (score s)).

Inductive run : list action -> sys -> sys -> Prop :=
| run_nil s : run [] s s
| run_snoc as_ a s s' s'' : run as_ s s' -> step a s' s'' -> run (as_ ++ [a]) s s''.

(** Calls without a thread: the stub of a synchronous context calls the implementation. *)
Record direct_state := mkDirect { dmem : mem; dhist : list (list Z); dcore : core }.

Definition dstep (a : action) (d : direct_state) : option direct_state :=
  match a with
  | ACall =>
      '(m, id, args) ← next (dhist d) (dmem d);
      api ← apis !! id;
      let '(c, m', r) := call_rsi api id (abs_args api args m) (dcore d) m in
      Some (mkDirect m' (dhist d ++ [if has_ret api then r else []]) c)
  | ADestroy objPtr =>
      api ← apis !! did;
      let '(c, m', _) := call_rsi api did [VVal objPtr] (dcore d) (dmem d) in
      Some (mkDirect m' (dhist d) c)
  | _ => Some d
  end.

Fixpoint drun (as_ : list action) (d : direct_state) : option direct_state :=
  match as_ with
  | [] => Some d
  | a :: as_ => dstep a d ≫= drun as_
  end.

Lemma drun_app as1 as2 d : drun (as1 ++ as2) d = drun as1 d ≫= drun as2.
Proof. revert d. induction as1 as [|a as1 IH]; intros d; [done|]. cbn [app drun]. destruct (dstep a d); cbn; [apply IH|done]. Qed.

(** *** What the client and the implementations keep to *)

Definition destroy_ok (api : ApiEntry) : Prop :=
  exists v, params api = [v] /\ is_ptr v = false /\ fsize v = 8 /\ sync api = false /\ has_ret api = false /\ direct api = false.

Context (Hapis : Forall (api_ok sizeof_type) apis) (Hcount : Z.of_nat (length apis) < 2 ^ 31).
Context (Hnext : forall h m m' id args, next h m = Some (m', id, args) -> exists api, apis !! id = Some api /\ direct api = false /\ handcodeApi api = false /\ args_ok api args).
Context (Hdestroy : exists api, apis !! did = Some api /\ destroy_ok api).
Context (Hret : forall id args c om api, apis !! id = Some api -> has_ret api = true -> zlen (rsi id args c om).2 = ret_size api).
Context (Hsize : forall id api, apis !! id = Some api -> has_ret api = true -> 0 < ret_size api).
Context (Huninit : zlen uninit = 4).

(** A command on its way. *)
Record item := mkItem { iapi : ApiEntry; iid : nat; iargs : list (list Z); imem : mem }.

Definition item_ok (i : item) : Prop := apis !! iid i = Some (iapi i) /\ direct (iapi i) = false /\ args_ok (iapi i) (iargs i).
Definition iwaits (i : item) : waiting := waits (iapi i) (iargs i).
Definition icall (i : item) (c : core) : core * mem * list Z := call_rsi (iapi i) (iid i) (abs_args (iapi i) (iargs i) (imem i)) c (imem i).
Definition icore (c : core) (i : item) : core := (icall i c).1.1.

Definition encodes (i : item) (msg : list Z) : Prop :=
  item_ok i /\ exists body, packed (iapi i) (iargs i) (imem i) body /\ msg = bytes32 (Z.of_nat (iid i) + 1) ++ bytes32 (body_size (iapi i) (iargs i)) ++ body.

Definition quiet (q : list item) : Prop := Forall (fun i => iwaits i = WNone) q.

(** *** Playing a command *)

Lemma item_api_ok i : item_ok i -> api_ok sizeof_type (iapi i).
Proof. intros (H & _). rewrite Forall_lookup in Hapis. by eapply Hapis. Qed.

Lemma play_spec i msg rest c m : encodes i msg -> (iwaits i <> WNone -> m = imem i) ->
  exists p, play (msg ++ rest) c m = Ok (rest, p) /\ let '(c1, m1, r) := icall i c in
    pcore p = c1 /\ pmem p = (if decide (iwaits i = WNone) then m else m1) /\ reply p = answer (iwaits i) r.
Proof.
  intros (Hi & body & Hpk & ->) Hm. pose proof (item_api_ok i Hi) as Hok. destruct Hi as (Hl & Hd & Ha). pose proof (body_size_bounds _ Hok _ Ha) as [Hb Hb'].
  destruct (rsp_spec _ Hok _ _ Ha body Hpk (iid i) c m Hm) as (p & Ep & Hp). exists p. split; [|exact Hp].
  set (bs := body_size (iapi i) (iargs i)) in *. unfold HEADER, SEND_BUFFER in *. apply lookup_lt_Some in Hl as Hlt. unfold play.
  assert (E1 : zread (((bytes32 (Z.of_nat (iid i) + 1) ++ bytes32 bs ++ body)) ++ rest) 0 HEADER = Ok (bytes32 (Z.of_nat (iid i) + 1) ++ bytes32 bs)).
  { unfold zread. rewrite decide_True; [done|]. rewrite !zlen_app. unfold HEADER. pose proof (zlen_nonneg body). pose proof (zlen_nonneg rest). change (zlen (bytes32 (Z.of_nat (iid i) + 1))) with 4. change (zlen (bytes32 bs)) with 4. lia. }
  rewrite E1. cbn [mbind outcome_bind]. change (take 4 (bytes32 (Z.of_nat (iid i) + 1) ++ bytes32 bs)) with (bytes32 (Z.of_nat (iid i) + 1)). change (drop 4 (bytes32 (Z.of_nat (iid i) + 1) ++ bytes32 bs)) with (bytes32 bs).
  rewrite !le_val_bytes32, !Z.mod_small by lia. unfold HEADER, SEND_BUFFER. destruct (Z.gtb_spec (8 + bs) 2048); [lia|].
  assert (E2 : zread ((bytes32 (Z.of_nat (iid i) + 1) ++ bytes32 bs ++ body) ++ rest) 8 bs = Ok body).
  { pose proof (proj1 Hpk) as Hz. fold bs in Hz. pose proof (zlen_nonneg rest). unfold zread. rewrite decide_True.
    - f_equal. change (drop (Z.to_nat 8) ((bytes32 (Z.of_nat (iid i) + 1) ++ bytes32 bs ++ body) ++ rest)) with (body ++ rest). apply take_app_length'. unfold zlen in Hz. lia.
    - rewrite !zlen_app, Hz. change (zlen (bytes32 (Z.of_nat (iid i) + 1))) with 4. change (zlen (bytes32 bs)) with 4. lia. }
  rewrite E2. cbn [mbind outcome_bind]. destruct (Z.eqb_spec (Z.of_nat (iid i) + 1) 0); [lia|]. replace (Z.to_nat (Z.of_nat (iid i) + 1 - 1)) with (iid i) by lia.
  rewrite Hl. cbn [of_option mbind outcome_bind]. rewrite Hd, Ep. cbn [mbind outcome_bind]. do 2 f_equal. pose proof (proj1 Hpk) as Hz. fold bs in Hz.
  replace (Z.to_nat (8 + bs)) with (8 + length body)%nat by (unfold zlen in Hz; lia). change (drop (8 + length body) ((bytes32 (Z.of_nat (iid i) + 1) ++ bytes32 bs ++ body) ++ rest)) with (drop (length body) (body ++ rest)). by rewrite drop_app_length.
Qed.

(** The finalizer's message is the one that the generated stub would have sent. *)
Lemma destroy_encodes objPtr m :
  zlen objPtr = 8 -> Forall is_byte objPtr -> exists api, apis !! did = Some api /\
    let i := mkItem api did [objPtr] m in
    encodes i (LF_ObjDestroy_handcode (Z.of_nat did + 1) objPtr) /\ iwaits i = WNone /\ abs_args api [objPtr] m = [VVal objPtr] /\ has_raw api = false /\ has_out api = false.
Proof.
  intros Hz Hby. destruct Hdestroy as (api & Hl & v & Hps & Hp & Hf & Hs & Hr & Hd). exists api. split; [done|]. cbn zeta.
  assert (Hp0 : ptrLevel v = 0%nat) by (unfold is_ptr in Hp; apply Nat.ltb_ge in Hp; lia).
  assert (Hin : hasInlineDataPointers api = false) by (unfold hasInlineDataPointers; rewrite Hs, Hr, Hps; cbn [orb inline_params]; rewrite Hp, !andb_false_r; cbn [orb inline_params]; destruct (1 <? ptrLevel v)%nat; done).
  assert (Hsz : sizeof_cmd sizeof_type api = 8) by (unfold sizeof_cmd; rewrite Hps; unfold alignment; cbn [fields_end fmap list_fmap foldr]; rewrite Hf; done).
  assert (Hsm : small api [objPtr] = false) by (unfold small; by rewrite Hin).
  assert (Hbs : body_size api [objPtr] = 8) by (unfold body_size; by rewrite Hsm).
  assert (Hok : args_ok api [objPtr]) by (split; [rewrite Hps; constructor; [by rewrite Hf|constructor]|unfold total; rewrite Hps; cbn [bufsum foldr]; rewrite Hp; done]).
  split; [|split; [|split; [|split]]].
  - split; [done|]. exists objPtr. cbn [iapi iid iargs imem]. rewrite Hbs. split; [|done]. split; [by rewrite Hbs|]. intros i u Hu. rewrite Hps in Hu |- *. destruct i as [|i]; [|done]. cbn in Hu. injection Hu as <-.
    exists 0. cbn [offsets]. rewrite Hf, Hp. split; [done|]. cbn [andb]. unfold argv. cbn. unfold has. apply zread_all.
  - unfold iwaits, waits. cbn [iapi iargs]. rewrite Hin, Hr. unfold needFlush. rewrite Hps, Hr, Hs. cbn. by rewrite Hp0.
  - unfold abs_args, indexed, abs_arg. rewrite Hps. cbn -[is_ptr]. by rewrite Hp.
  - unfold has_raw, is_raw. rewrite Hps. cbn [existsb]. by rewrite Hp.
  - unfold has_out. rewrite Hps. cbn [existsb]. by rewrite Hp.
Qed.

(** A call that waits for a value has one, and the answer has the size the client expects. *)
Lemma waits_value api args : waits api args = WValue <-> has_ret api = true.
Proof.
  unfold waits. split.
  - destruct (hasInlineDataPointers api); [by destruct (_ >=? _)|]. destruct (has_ret api); [done|]. by destruct (needFlush api).
  - intros Hr. assert (hasInlineDataPointers api = false) as -> by (unfold hasInlineDataPointers; by rewrite Hr, orb_true_r). by rewrite Hr.
Qed.

Lemma answer_size i c : item_ok i -> iwaits i <> WNone -> zlen (answer (iwaits i) (icall i c).2) = expected (iapi i) (iwaits i).
Proof.
  intros (Hl & _) Hw. destruct (iwaits i) eqn:E; [done|done|]. cbn [answer expected]. unfold iwaits in E. apply waits_value in E. unfold icall, call_rsi.
  pose proof (Hret (iid i) (abs_args (iapi i) (iargs i) (imem i)) c (if has_raw (iapi i) then Some (imem i) else None) _ Hl E) as H. destruct (rsi _ _ _ _) as [[? ?] ?]. exact H.
Qed.

(** The result of a call, as the caller sees it. *)
Lemma result_direct i r : result (iwaits i) r = if has_ret (iapi i) then r else [].
Proof. destruct (has_ret (iapi i)) eqn:E; [unfold iwaits; by rewrite (proj2 (waits_value _ _) E)|]. destruct (iwaits i) eqn:Ew; [done|done|]. unfold iwaits in Ew. apply waits_value in Ew. congruence. Qed.

(** *** The invariant *)

(** [d] is the state of the direct calls once the commands on their way have been played. *)
Inductive inv_client (s : sys) (q : list item) (d : direct_state) : Prop :=
| inv_idle : client s = Idle -> quiet q -> fromCore s = [] -> d = mkDirect (cmem s) (hist s) (foldl icore (score s) q) -> inv_client s q d
| inv_waiting q1 i q2 c m r :
    client s = Waiting (expected (iapi i) (iwaits i)) (iwaits i) -> q = q1 ++ i :: q2 -> quiet q1 -> quiet q2 -> iwaits i <> WNone -> fromCore s = [] -> cmem s = imem i ->
    icall i (foldl icore (score s) q1) = (c, m, r) -> d = mkDirect m (hist s ++ [result (iwaits i) r]) (foldl icore c q2) -> inv_client s q d
| inv_answered n w r :
    client s = Waiting n w -> w <> WNone -> quiet q -> fromCore s = answer w r -> zlen (answer w r) = n ->
    d = mkDirect (cmem s) (hist s ++ [result w r]) (foldl icore (score s) q) -> inv_client s q d.

Definition inv (s : sys) (q : list item) (d : direct_state) : Prop :=
  zlen (sendBuf s) = SEND_BUFFER /\ (exists msgs, Forall2 encodes q msgs /\ toCore s = mjoin msgs) /\ inv_client s q d.

Lemma inv_encodes s q i msg : (exists msgs, Forall2 encodes q msgs /\ toCore s = mjoin msgs) -> encodes i msg -> exists msgs, Forall2 encodes (q ++ [i]) msgs /\ toCore s ++ msg = mjoin msgs.
Proof.
  intros (msgs & HF & E) Hi. exists (msgs ++ [msg]). split; [apply Forall2_app; [done|by constructor]|]. rewrite join_app, E. cbn. by rewrite app_nil_r.
Qed.

Lemma quiet_snoc q i : quiet q -> iwaits i = WNone -> quiet (q ++ [i]).
Proof. intros Hq Hi. apply Forall_app. split; [done|]. by constructor. Qed.

(** A command that waits for nothing leaves the memory alone. *)
Lemma quiet_call i c : iwaits i = WNone -> exists r, icall i c = (icore c i, imem i, r).
Proof.
  intros Hw. unfold icore, icall, call_rsi. destruct (no_wait_memory _ _ Hw) as [-> ->]. destruct (rsi _ _ _ _) as [[c1 m1] r]. by exists r.
Qed.

Lemma inv_sent s q d m id args api l :
  inv s q d -> client s = Idle -> next (hist s) (cmem s) = Some (m, id, args) -> apis !! id = Some api -> LF api (Z.of_nat id + 1) args m (sendBuf s) = Ok l ->
  exists q' d', dstep ACall d = Some d' /\
    inv (mkSys (match wait l with WNone => Idle | w => Waiting (expected api w) w end) m (match wait l with WNone => hist s ++ [[]] | _ => hist s end)
               (mSendBuffer l) (toCore s ++ sent l) (fromCore s) (score s)) q' d'.
Proof.
  intros (Hb & Hq & Hc) Hid Hn Hl EL. destruct (Hnext _ _ _ _ _ Hn) as (api' & Hl' & Hd & _ & Ha). assert (api' = api) as -> by (rewrite Hl in Hl'; by injection Hl'). set (i := mkItem api id args m).
  assert (Hi : item_ok i) by done. destruct (LF_spec _ (item_api_ok i Hi) _ m Ha (Z.of_nat id + 1) _ Hb) as (l' & body & EL' & Hb' & Hs & Hpk & Hw). assert (l' = l) as -> by (apply (inj Ok); rewrite <- EL; symmetry; exact EL'). change (wait l = iwaits i) in Hw.
  destruct Hc as [_ Hqu Hf ->|? ? ? ? ? ? Hx|? ? ? Hx]; [|congruence..]. assert (He : encodes i (sent l)) by (split; [done|]; by exists body).
  assert (Hds : dstep ACall (mkDirect (cmem s) (hist s) (foldl icore (score s) q)) = let '(c, m', r) := icall i (foldl icore (score s) q) in Some (mkDirect m' (hist s ++ [result (iwaits i) r]) c)).
  { cbn [dstep dhist dmem dcore]. rewrite Hn. cbn [mbind option_bind]. rewrite Hl. cbn [mbind option_bind]. change (call_rsi api id (abs_args api args m) (foldl icore (score s) q) m) with (icall i (foldl icore (score s) q)). destruct (icall i _) as [[c1 m1] r1]. by rewrite result_direct. }
  destruct (decide (iwaits i = WNone)) as [Hw0|Hw0].
  - destruct (quiet_call i (foldl icore (score s) q) Hw0) as (r & Er). rewrite Er, Hw0 in Hds. exists (q ++ [i]). eexists. split; [exact Hds|]. rewrite Hw, Hw0. split; [done|]. split; [by apply inv_encodes|].
    apply inv_idle; [done|by apply quiet_snoc|done|]. cbn [cmem hist score]. by rewrite foldl_snoc.
  - destruct (icall i (foldl icore (score s) q)) as [[c1 m1] r1] eqn:Ei. exists (q ++ [i]). eexists. split; [exact Hds|]. rewrite Hw. split; [done|]. split; [by apply inv_encodes|].
    eapply (inv_waiting _ _ _ q i [] c1 m1 r1); cbn [client cmem hist score fromCore]; [by destruct (iwaits i)|done|done|by constructor|done|done|done|done|by destruct (iwaits i)].
Qed.

Lemma inv_destroy s q d objPtr : zlen objPtr = 8 -> Forall is_byte objPtr -> inv s q d ->
  exists q' d', dstep (ADestroy objPtr) d = Some d' /\
    inv (mkSys (client s) (cmem s) (hist s) (sendBuf s) (toCore s ++ LF_ObjDestroy_handcode (Z.of_nat did + 1) objPtr) (fromCore s) (score s)) q' d'.
Proof.
  intros Hz Hby (Hb & Hq & Hc). destruct (destroy_encodes objPtr (cmem s) Hz Hby) as (api & Hl & He & Hw & Hab & Hr & Ho). set (i := mkItem api did [objPtr] (cmem s)) in *.
  exists (q ++ [i]), (mkDirect (dmem d) (dhist d) (icore (dcore d) i)). split.
  - cbn [dstep]. rewrite Hl. cbn [mbind option_bind]. unfold icore, icall. subst i. cbn [iapi iid iargs imem]. rewrite Hab. unfold call_rsi. rewrite Hr, Ho. by destruct (rsi _ _ _ _) as [[c1 m1] r1].
  - split; [done|]. split; [by apply inv_encodes|]. destruct Hc as [Hid Hqu Hf ->|q1 j q2 c m r Hcl -> Hq1 Hq2 Hj Hf Hm Hcall ->|n w r Hcl Hn Hqu Hf Hlen ->]; cbn [dmem dhist dcore].
    + apply inv_idle; [done|by apply quiet_snoc|done|]. cbn [cmem hist score]. by rewrite foldl_snoc.
    + apply (inv_waiting _ _ _ q1 j (q2 ++ [i]) c m r); [done|by rewrite <- app_assoc|done|by apply quiet_snoc|done|done|done|done|by rewrite foldl_snoc].
    + apply (inv_answered _ _ _ n w r); [done|done|by apply quiet_snoc|done|done|]. cbn [cmem hist score]. by rewrite foldl_snoc.
Qed.

(** What the first command needs of the memory holds. *)
Lemma inv_memory s i q d : inv_client s (i :: q) d -> iwaits i <> WNone -> cmem s = imem i.
Proof.
  intros Hc Hw. destruct Hc as [_ Hqu _ _|q1 j q2 c m r _ Hq Hq1 _ _ _ Hm _ _|n w r _ _ Hqu _ _ _]; [by apply Forall_cons in Hqu as [? _]| |by apply Forall_cons in Hqu as [? _]].
  destruct q1 as [|j' q1]; [by injection Hq as -> ->|]. injection Hq as -> ->. by apply Forall_cons in Hq1 as [? _].
Qed.

Lemma inv_play s q d rest p : inv s q d -> play (toCore s) (score s) (cmem s) = Ok (rest, p) ->
  exists q', inv (mkSys (client s) (pmem p) (hist s) (sendBuf s) rest (fromCore s ++ reply p) (pcore p)) q' d.
Proof.
  intros (Hb & (msgs & HF & Et) & Hc) Ep. destruct HF as [|i msg q msgs Hi HF]; [by rewrite Et in Ep|]. rewrite Et in Ep. change (mjoin (msg :: msgs)) with (msg ++ mjoin msgs) in Ep.
  destruct (play_spec i msg (mjoin msgs) (score s) (cmem s) Hi (inv_memory _ _ _ _ Hc)) as (p' & Ep' & Hp). rewrite Ep in Ep'. apply (inj Ok) in Ep'. injection Ep' as -> <-.
  exists q. split; [done|]. split; [by exists msgs|].
  assert (Hquiet : iwaits i = WNone -> pcore p = icore (score s) i /\ pmem p = cmem s /\ reply p = []).
  { intros Hw. destruct (quiet_call i (score s) Hw) as (r & Er). rewrite Er in Hp. destruct Hp as (-> & -> & ->). rewrite Hw, decide_True by done. done. }
  destruct Hc as [Hid Hqu Hf ->|q1 j q2 c m r Hcl Hq Hq1 Hq2 Hj Hf Hm Hcall ->|n w r Hcl Hn Hqu Hf Hlen ->].
  - apply Forall_cons in Hqu as [Hw Hqu]. destruct (Hquiet Hw) as (-> & -> & ->). apply inv_idle; cbn [client cmem hist score fromCore]; [done|done|by rewrite app_nil_r|done].
  - destruct q1 as [|j' q1]; cbn [app] in Hq; injection Hq as -> ->.
    + cbn [foldl] in Hcall. rewrite Hcall in Hp. destruct Hp as (-> & -> & ->). rewrite decide_False by done. pose proof (answer_size j (score s) (proj1 Hi) Hj) as Hsz. rewrite Hcall in Hsz. cbn [snd] in Hsz.
      eapply (inv_answered _ _ _ _ _ r); cbn [client cmem hist score fromCore]; [exact Hcl|done|done|by rewrite Hf|done|done].
    + apply Forall_cons in Hq1 as [Hw Hq1]. destruct (Hquiet Hw) as (-> & -> & ->). eapply (inv_waiting _ _ _ q1 j q2 c m r); cbn [client cmem hist score fromCore]; try done. by rewrite app_nil_r.
  - apply Forall_cons in Hqu as [Hw Hqu]. destruct (Hquiet Hw) as (-> & -> & ->). apply (inv_answered _ _ _ n w r); cbn [client cmem hist score fromCore]; [done|done|done|by rewrite app_nil_r|done|done].
Qed.

Lemma expected_pos i : item_ok i -> 0 < expected (iapi i) (iwaits i).
Proof. intros (Hl & _). destruct (iwaits i) eqn:E; cbn; [lia|lia|]. unfold iwaits in E. apply waits_value in E. by eapply Hsize. Qed.

Lemma inv_return s q d n w r : inv s q d -> client s = Waiting n w -> zread (fromCore s) 0 n = Ok r ->
  inv (mkSys Idle (cmem s) (hist s ++ [result w r]) (sendBuf s) (toCore s) (drop (Z.to_nat n) (fromCore s)) (score s)) q d.
Proof.
  intros (Hb & (msgs & HF & Et) & Hc) Hcl Ez. split; [done|]. split; [by exists msgs|]. destruct Hc as [Hid Hqu Hf ->|q1 j q2 c m r' Hcl' -> Hq1 Hq2 Hj Hf Hm Hcall ->|n' w' r' Hcl' Hn Hqu Hf Hlen ->]; [congruence| |].
  - exfalso. rewrite Hcl in Hcl'. injection Hcl' as -> ->. rewrite Hf in Ez. assert (item_ok j) as Hp%expected_pos.
    { apply Forall2_app_inv_l in HF as (? & ? & _ & HF & _). apply Forall2_cons_inv_l in HF as (? & ? & [? _] & _). done. }
    unfold zread in Ez. change (zlen (@nil Z)) with 0 in Ez. case_decide; [lia|done].
  - rewrite Hcl in Hcl'. injection Hcl' as -> ->. rewrite Hf, <- Hlen, zread_all in Ez. apply (inj Ok) in Ez as <-. apply inv_idle; cbn [client cmem hist score fromCore]; [done|done| |].
    + rewrite Hf. apply drop_ge. unfold zlen in Hlen. lia.
    + by destruct w'.
Qed.

Lemma inv_step a s s' q d : inv s q d -> step a s s' -> exists q' d', dstep a d = Some d' /\ inv s' q' d'.
Proof.
  intros Hi Hs. destruct Hs; [by eapply inv_sent|by eapply inv_destroy| |].
  - destruct (inv_play _ _ _ _ _ Hi H) as (q' & Hq'). by exists q', d.
  - exists q, d. split; [done|]. by apply inv_return.
Qed.

(** *** Runs *)

Definition exec (a : action) (s : sys) : option sys :=
  match a with
  | ACall =>
      match client s, next (hist s) (cmem s) with
      | Idle, Some (m, id, args) =>
          api ← apis !! id;
          match LF api (Z.of_nat id + 1) args m (sendBuf s) with
          | Ok l => Some (mkSys (match wait l with WNone => Idle | w => Waiting (expected api w) w end) m
                                (match wait l with WNone => hist s ++ [[]] | _ => hist s end)
                                (mSendBuffer l) (toCore s ++ sent l) (fromCore s) (score s))
          | Fault _ => None
          end
      | _, _ => None
      end
  | ADestroy objPtr =>
      if decide (zlen objPtr = 8 /\ Forall is_byte objPtr) then
        Some (mkSys (client s) (cmem s) (hist s) (sendBuf s) (toCore s ++ LF_ObjDestroy_handcode (Z.of_nat did + 1) objPtr) (fromCore s) (score s))
      else None
  | APlay =>
      match play (toCore s) (score s) (cmem s) with
      | Ok (rest, p) => Some (mkSys (client s) (pmem p) (hist s) (sendBuf s) rest (fromCore s ++ reply p) (pcore p))
      | Fault _ => None
      end
  | AReturn =>
      match client s with
      | Waiting n w =>
          match zread (fromCore s) 0 n with
          | Ok r => Some (mkSys Idle (cmem s) (hist s ++ [result w r]) (sendBuf s) (toCore s) (drop (Z.to_nat n) (fromCore s)) (score s))
          | Fault _ => None
          end
      | Idle => None
      end
  end.

Lemma exec_step a s s' : exec a s = Some s' -> step a s s'.
Proof.
  destruct a; cbn [exec]; intros E.
  - destruct (client s) eqn:Ec; [|done]. destruct (next (hist s) (cmem s)) as [[[m id] args]|] eqn:En; [|done]. destruct (apis !! id) as [api|] eqn:El; [|done]. cbn [mbind option_bind] in E.
    destruct (LF _ _ _ _ _) as [l|] eqn:EL; [|done]. apply (inj Some) in E as <-. by eapply step_call.
  - case_decide as H; [|done]. destruct H as [H1 H2]. apply (inj Some) in E as <-. by constructor.
  - destruct (play _ _ _) as [[rest p]|] eqn:Ep; [|done]. apply (inj Some) in E as <-. by constructor.
  - destruct (client s) as [|n w] eqn:Ec; [done|]. destruct (zread _ _ _) as [r|] eqn:Ez; [|done]. apply (inj Some) in E as <-. by eapply step_return.
Qed.

Fixpoint exec_all (as_ : list action) (s : sys) : option sys :=
  match as_ with [] => Some s | a :: as_ => exec a s ≫= exec_all as_ end.

Lemma run_cons a as_ s s' s'' : step a s s' -> run as_ s' s'' -> run (a :: as_) s s''.
Proof. intros Hs Hr. revert s Hs. induction Hr as [s'|as_ b s' s1 s2 Hr IH Hb]; intros s Hs; [apply (run_snoc [] a s s s'); [constructor|done]|]. apply (run_snoc (a :: as_) b s s1 s2); [by apply IH|done]. Qed.

Lemma exec_run as_ s s' : exec_all as_ s = Some s' -> run as_ s s'.
Proof.
  revert s. induction as_ as [|a as_ IH]; cbn [exec_all]; intros s E; [injection E as <-; constructor|]. destruct (exec a s) as [s1|] eqn:E1; [|done]. eapply run_cons; [by apply exec_step|by apply IH].
Qed.

Definition initial (s : sys) : Prop := client s = Idle /\ zlen (sendBuf s) = SEND_BUFFER /\ toCore s = [] /\ fromCore s = [].

Lemma inv_run as_ s0 s : initial s0 -> run as_ s0 s -> exists q d, drun as_ (mkDirect (cmem s0) (hist s0) (score s0)) = Some d /\ inv s q d.
Proof.
  intros (Hc & Hb & Ht & Hf) Hr. induction Hr as [s|as_ a s s' s'' Hr IH Hs].
  - exists [], (mkDirect (cmem s) (hist s) (score s)). split; [done|]. split; [done|]. split; [by exists []|]. apply inv_idle; [done|constructor|done|done].
  - destruct (IH Hc Hb Ht Hf) as (q & d & Hd & Hi). destruct (inv_step a s' s'' q d Hi Hs) as (q' & d' & Hd' & Hi'). exists q', d'. split; [|done].
    rewrite drun_app, Hd. cbn [mbind option_bind drun]. rewrite Hd'. done.
Qed.

Lemma inv_empty s q d : inv s q d -> toCore s = [] -> q = [].
Proof. intros (_ & (msgs & HF & E) & _) Ht. destruct HF as [|i msg q msgs Hi HF]; [done|]. rewrite Ht in E. destruct Hi as (_ & body & _ & ->). discriminate E. Qed.


(** C23: no deadlock and no fault.  Whatever has happened, a queued command can be played, an idle client that has a call
    to make can make it, and a blocked client can return or waits for a queued command. *)
Theorem calls_progress as_ s0 s : initial s0 -> run as_ s0 s ->
  (toCore s <> [] -> exists s', step APlay s s') /\
  (client s = Idle -> next (hist s) (cmem s) <> None -> exists s', step ACall s s') /\
  (client s <> Idle -> toCore s <> [] \/ exists s', step AReturn s s').
Proof.
  intros H0 Hr. destruct (inv_run _ _ _ H0 Hr) as (q & d & _ & Hi). pose proof Hi as (Hb & (msgs & HF & Et) & Hc). split; [|split].
  - intros Ht. destruct HF as [|i msg q msgs Hm HF]; [by rewrite Et in Ht|]. change (mjoin (msg :: msgs)) with (msg ++ mjoin msgs) in Et.
    destruct (play_spec i msg (mjoin msgs) (score s) (cmem s) Hm (inv_memory _ _ _ _ Hc)) as (p & Ep & _). eexists. apply (step_play s (mjoin msgs) p). by rewrite Et.
  - intros Hid Hn. destruct (next (hist s) (cmem s)) as [[[m id] args]|] eqn:En; [|done]. destruct (Hnext _ _ _ _ _ En) as (api & Hl & Hd & _ & Ha).
    destruct (LF_spec api (item_api_ok (mkItem api id args m) ltac:(done)) _ m Ha (Z.of_nat id + 1) _ Hb) as (l & body & El & _). eexists. by eapply step_call.
  - intros Hid. destruct Hc as [Hx|q1 j q2 c m r Hcl -> Hq1 Hq2 Hj Hf Hm Hcall ->|n w r Hcl Hn Hqu Hf Hlen ->]; [done| |].
    + left. intros Ht. pose proof (inv_empty _ _ _ Hi Ht) as Hq. by destruct q1.
    + right. eexists. apply (step_return s n w (answer w r)); [done|]. rewrite Hf, <- Hlen. apply zread_all.
Qed.

End system.

End io.

(** ** The entries of the runtime *)

(** An implementation that logs its calls and returns zeros. *)
Definition demo_rsi (id : nat) (args : list carg) (c : list (nat * list carg)) (om : option mem) : list (nat * list carg) * mem * list Z :=
  (c ++ [(id, args)], fun _ => 9, replicate (match apis !! id with Some api => Z.to_nat (ret_size sizeof_64 api) | None => 0 end) 0).

(** A client that sends a message of three bytes, reads an allocation, creates a script and stops. *)
Definition demo_next (h : list (list Z)) (m : mem) : option (mem * nat * list (list Z)) :=
  match length h with
  | 0%nat => Some (m, 3%nat, [bytes32 5; bytes64 100; bytes64 3])
  | 1%nat => Some (m, 27%nat, [bytes64 4096; bytes64 200; bytes64 16])
  | 2%nat => Some (m, 49%nat, [bytes32 1; bytes64 8192])
  | _ => None
  end.

Definition demo_sys : @sys (list (nat * list carg)) := mkSys Idle (fun a => a mod 256) [] (replicate 2048 0) [] [] [].
Definition demo_acts : list action := [ACall; ADestroy (bytes64 64); ACall; APlay; ADestroy (bytes64 72); APlay; APlay; AReturn; ACall; APlay; APlay; AReturn].

Lemma demo_next_ok h m m' id args : demo_next h m = Some (m', id, args) -> exists api, apis !! id = Some api /\ direct api = false /\ handcodeApi api = false /\ args_ok sizeof_64 api args.
Proof.
  unfold demo_next. destruct (length h) as [|[|[|n]]]; [| | |done]; intros E; injection E as <- <- <-; (eexists; split; [reflexivity|]; split; [reflexivity|]; split; [reflexivity|]; split; [|vm_compute; reflexivity]);
    repeat (apply Forall2_cons; split; [split; [vm_compute; reflexivity|apply (bool_decide_unpack _); vm_compute; exact I]|]); apply Forall2_nil_2 || constructor.
Qed.

Notation demo_exec := (exec_all sizeof_64 demo_rsi (replicate 4 0) apis demo_next 17).
Notation demo_run := (run sizeof_64 demo_rsi (replicate 4 0) apis demo_next 17).

Lemma demo_final : exists s, demo_exec demo_acts demo_sys = Some s /\ client s = Idle /\ toCore s = [] /\ hist s = [[]; []; bytes64 0] /\
  fst <$> score s = [3; 17; 27; 17; 49]%nat.
Proof. eexists. split; [vm_compute; reflexivity|]. cbn [client toCore hist score]. repeat split. Qed.

Lemma demo_destroy : exists api, apis !! 17%nat = Some api /\ destroy_ok sizeof_64 api.
Proof. eexists. split; [reflexivity|]. eexists. repeat (split; [vm_compute; reflexivity|]). reflexivity. Qed.

Lemma demo_size id api : apis !! id = Some api -> has_ret api = true -> 0 < ret_size sizeof_64 api.
Proof.
  intros Hl Hr. assert (H : forallb (fun api => implb (has_ret api) (0 <? ret_size sizeof_64 api)) apis = true) by (vm_compute; reflexivity).
  rewrite forallb_forall in H. specialize (H api). rewrite Hr in H. cbn [implb] in H. apply Z.ltb_lt, H, list_elem_of_In. by apply list_elem_of_lookup_2 in Hl.
Qed.

Lemma demo_ret id args c om api : apis !! id = Some api -> has_ret api = true -> zlen (demo_rsi id args c om).2 = ret_size sizeof_64 api.
Proof.
  intros Hl Hr. unfold demo_rsi. cbn [snd]. rewrite Hl. unfold zlen. rewrite length_replicate. apply Z2Nat.id. pose proof (demo_size _ _ Hl Hr). lia.
Qed.


(** After the first three steps the client waits, and a command can be played. *)
Lemma calls_progress_witness : exists s s', demo_run (take 3 demo_acts) demo_sys s /\ client s <> Idle /\ step sizeof_64 demo_rsi (replicate 4 0) apis demo_next 17 APlay s s'.
Proof.
  assert (H : exists s, demo_exec (take 3 demo_acts) demo_sys = Some s /\ client s <> Idle /\ toCore s <> []) by (eexists; split; [vm_compute; reflexivity|]; split; discriminate).
  destruct H as (s & E & Hc & Ht). apply exec_run in E.
  destruct (calls_progress sizeof_64 demo_rsi (replicate 4 0) apis demo_next 17 apis_ok ltac:(vm_compute; reflexivity) demo_next_ok demo_destroy demo_ret demo_size eq_refl (take 3 demo_acts) demo_sys s ltac:(repeat split) E) as (Hp & _).
  destruct (Hp Ht) as (s' & Hs). exists s, s'. split; [exact E|]. split; [exact Hc|exact Hs].
Defined.

End ThreadIO.
