(* ===== verification/Messages.v ===== *)
(** * Messages: from the core to the client's message thread

    [sendToClient], [getClientHeader] and [getClientPayload] of [rsThreadIO.cpp], the message
    calls of [rsContext.cpp], and [RS::threadProc] of [cpp/RenderScript.cpp].  Messages arrive
    in order and whole, however long; an error message dereferences a handler that may not be there. *)

From S2P Require Import Prelude Stream.

Module Messages.
Import Stream.

(** ** The sender *)

Definition RS_MESSAGE_TO_CLIENT_NONE : Z := 0.
Definition RS_MESSAGE_TO_CLIENT_EXCEPTION : Z := 1.
Definition RS_MESSAGE_TO_CLIENT_RESIZE : Z := 2.
Definition RS_MESSAGE_TO_CLIENT_ERROR : Z := 3.
Definition RS_MESSAGE_TO_CLIENT_USER : Z := 4.

(** [hdr.bytes] has 32 bits. *)
Definition sendToClient (cmdID usrID : Z) (data : list Z) (toClient : list Z) : list Z :=
  let toClient := toClient ++ bytes32 cmdID ++ bytes32 (zlen data) ++ bytes32 usrID in
  if zlen data =? 0 then toClient else toClient ++ data.

(** [gMessageMutex] is held around the call: messages of several threads do not mix. *)
Definition sendMessageToClient (data : list Z) (cmdID subID : Z) (toClient : list Z) : list Z := sendToClient cmdID subID data toClient.

Definition setError (e : Z) (msg : cstr) (toClient : list Z) : list Z := sendMessageToClient (msg ++ [0]) RS_MESSAGE_TO_CLIENT_ERROR e toClient.

(** ** The receiver *)

Record ClientCmdHeader := mkHeader { cmdID : Z; bytes : Z; userID : Z }.

Definition getClientHeader (toClient : list Z) : outcome (ClientCmdHeader * list Z) :=
  h ← zread toClient 0 12;
  Ok (mkHeader (le_val (take 4 h)) (le_val (take 4 (drop 4 h))) (le_val (drop 8 h)), drop 12 toClient).

(** The header that was read last decides how much follows; [data] is the caller's buffer. *)
Definition getClientPayload (mLastClientHeader : ClientCmdHeader) (data : list Z) (bufferLen : Z) (toClient : list Z) : outcome (Z * list Z * list Z) :=
  if bufferLen <? bytes mLastClientHeader then Ok (RS_MESSAGE_TO_CLIENT_RESIZE, data, toClient)
  else if bytes mLastClientHeader =? 0 then Ok (cmdID mLastClientHeader, data, toClient)
  else
    d ← zread toClient 0 (bytes mLastClientHeader);
    data ← zwrite data 0 d;
    Ok (cmdID mLastClientHeader, data, drop (Z.to_nat (bytes mLastClientHeader)) toClient).

(** What the handlers are called with. *)
Inductive delivered := OnMessage (usrID : Z) (data : list Z) | OnError (usrID : Z) (msg : cstr).

Record RS := mkRS { mErrorFunc : bool; mMessageFunc : bool; mCurrentError : Z; rbuf : list Z; called : list delivered }.

Definition RS_SUCCESS : Z := 0.
Definition RS_ERROR_RUNTIME_ERROR : Z := 2.

Definition throwError (e : Z) (rs : RS) : RS :=
  mkRS (mErrorFunc rs) (mMessageFunc rs) (if mCurrentError rs =? RS_SUCCESS then e else mCurrentError rs) (rbuf rs) (called rs).

Definition call (rs : RS) (d : delivered) : RS := mkRS (mErrorFunc rs) (mMessageFunc rs) (mCurrentError rs) (rbuf rs) (called rs ++ [d]).
Definition set_rbuf (rs : RS) (b : list Z) : RS := mkRS (mErrorFunc rs) (mMessageFunc rs) (mCurrentError rs) b (called rs).

Section thread.
(** What fresh memory holds. *)
Context (junk : nat -> Z).

Definition realloc (b : list Z) (n : Z) : list Z := take (Z.to_nat n) b ++ (junk <$> seq (length b) (Z.to_nat n - length b)).

(** One round of the loop of [threadProc]. *)
Definition threadProc (toClient : list Z) (rs : RS) : outcome (list Z * RS) :=
  '(h, toClient) ← getClientHeader toClient;
  let b := if bytes h >=? zlen (rbuf rs) then realloc (rbuf rs) (bytes h + 32) else rbuf rs in
  '(_, b, toClient) ← getClientPayload h b (zlen b) toClient;
  let rs := set_rbuf rs b in
  if cmdID h =? RS_MESSAGE_TO_CLIENT_ERROR then
    let rs := throwError RS_ERROR_RUNTIME_ERROR rs in
    if mMessageFunc rs then
      if mErrorFunc rs then Ok (toClient, call rs (OnError (userID h) (cstr_of (rbuf rs)))) else Fault NullDeref
    else Ok (toClient, rs)
  else if cmdID h =? RS_MESSAGE_TO_CLIENT_USER then
    if mMessageFunc rs then
      d ← zread (rbuf rs) 0 (bytes h);
      Ok (toClient, call rs (OnMessage (userID h) d))
    else Ok (toClient, rs)
  else Ok (toClient, rs).

Fixpoint rounds (n : nat) (toClient : list Z) (rs : RS) : outcome (list Z * RS) :=
  match n with
  | O => Ok (toClient, rs)
  | S n => '(toClient, rs) ← threadProc toClient rs; rounds n toClient rs
  end.

(** ** Delivery *)

Inductive message := MUser (usrID : Z) (data : list Z) | MError (e : Z) (msg : cstr).

Definition send (toClient : list Z) (x : message) : list Z :=
  match x with
  | MUser usrID data => sendMessageToClient data RS_MESSAGE_TO_CLIENT_USER usrID toClient
  | MError e msg => setError e msg toClient
  end.

(** Sizes fit the header; a text has no NUL inside. *)
Definition message_ok (x : message) : Prop :=
  match x with
  | MUser usrID data => 0 <= usrID < 2 ^ 32 /\ zlen data < 2 ^ 31
  | MError e msg => 0 <= e < 2 ^ 32 /\ zlen msg < 2 ^ 31 /\ 0 ∉ msg
  end.

Definition delivery (x : message) : delivered := match x with MUser usrID data => OnMessage usrID data | MError e msg => OnError e msg end.

(** The bytes of a message. *)
Definition frame (id usr : Z) (data : list Z) : list Z := bytes32 id ++ bytes32 (zlen data) ++ bytes32 usr ++ data.

Lemma send_frame id usr data q : sendToClient id usr data q = q ++ frame id usr data.
Proof.
  unfold sendToClient, frame. destruct (Z.eqb_spec (zlen data) 0) as [E|E].
  - destruct data; [by rewrite app_nil_r|]. change (z :: data) with ([z] ++ data) in E. rewrite zlen_app in E. pose proof (zlen_nonneg data). change (zlen [z]) with 1 in E. lia.
  - by rewrite <- !app_assoc.
Qed.

Lemma getClientHeader_frame id usr data q : 0 <= id < 2 ^ 32 -> 0 <= usr < 2 ^ 32 -> zlen data < 2 ^ 32 ->
  getClientHeader (frame id usr data ++ q) = Ok (mkHeader id (zlen data) usr, data ++ q).
Proof.
  intros Hi Hu Hd. unfold getClientHeader, zread. rewrite decide_True.
  - cbn [mbind outcome_bind]. change (Z.to_nat 12) with 12%nat. change (Z.to_nat 0) with 0%nat. rewrite drop_0.
    change (take 12 (frame id usr data ++ q)) with (bytes32 id ++ bytes32 (zlen data) ++ bytes32 usr). change (drop 12 (frame id usr data ++ q)) with (data ++ q).
    change (take 4 (bytes32 id ++ bytes32 (zlen data) ++ bytes32 usr)) with (bytes32 id). change (take 4 (drop 4 (bytes32 id ++ bytes32 (zlen data) ++ bytes32 usr))) with (bytes32 (zlen data)).
    change (drop 8 (bytes32 id ++ bytes32 (zlen data) ++ bytes32 usr)) with (bytes32 usr). rewrite !le_val_bytes32, !Z.mod_small by (pose proof (zlen_nonneg data); lia). done.
  - unfold frame. rewrite !zlen_app. pose proof (zlen_nonneg data). pose proof (zlen_nonneg q). change (zlen (bytes32 id)) with 4. change (zlen (bytes32 (zlen data))) with 4. change (zlen (bytes32 usr)) with 4. lia.
Qed.

Lemma zread_front {A} (l q : list A) : zread (l ++ q) 0 (zlen l) = Ok l.
Proof.
  unfold zread. rewrite decide_True by (rewrite zlen_app; pose proof (zlen_nonneg l); pose proof (zlen_nonneg q); lia). change (Z.to_nat 0) with 0%nat. rewrite drop_0. unfold zlen. rewrite Nat2Z.id. by rewrite take_app_length.
Qed.

Lemma zlen_realloc b n : zlen b <= n -> zlen (realloc b n) = n.
Proof. unfold realloc, zlen. intros H. rewrite length_app, length_fmap, length_seq, length_take. lia. Qed.

(** The payload ends up at the front of a buffer that is longer. *)
Lemma payload_frame id usr data q b : 0 <= zlen data < zlen b ->
  exists b', getClientPayload (mkHeader id (zlen data) usr) b (zlen b) (data ++ q) = Ok (id, b', q) /\ zlen b' = zlen b /\ take (length data) b' = data.
Proof.
  intros Hl. unfold getClientPayload. cbn [bytes cmdID]. destruct (Z.ltb_spec (zlen b) (zlen data)); [lia|]. destruct (Z.eqb_spec (zlen data) 0) as [E|E].
  - destruct data; [by exists b|]. unfold zlen in E. cbn in E. lia.
  - rewrite zread_front. cbn [mbind outcome_bind]. destruct (zwrite_Ok b 0 data) as [b' Eb]; [lia|lia|]. rewrite Eb. cbn [mbind outcome_bind]. exists b'. unfold zlen at 1. rewrite Nat2Z.id, drop_app_length. split; [done|].
    split; [by apply zwrite_length in Eb|]. apply list_eq. intros j. destruct (decide (j < length data)%nat) as [Hj|Hj].
    + rewrite lookup_take_lt by done. pose proof (zwrite_lookup_in _ _ _ _ j Eb ltac:(unfold zlen; lia)) as E'. rewrite E'. f_equal. lia.
    + rewrite !lookup_ge_None_2; [done|lia|rewrite length_take; lia].
Qed.

Lemma cstr_of_terminated msg rest : 0 ∉ msg -> cstr_of (msg ++ 0 :: rest) = msg.
Proof.
  induction msg as [|b msg IH]; intros H; [done|]. apply not_elem_of_cons in H as [Hb H]. cbn [app cstr_of]. destruct (Z.eqb_spec b 0); [lia|]. by rewrite IH.
Qed.

(** One round receives one message. *)
Lemma threadProc_frame id usr data q rs : 0 <= id < 2 ^ 32 -> 0 <= usr < 2 ^ 32 -> zlen data < 2 ^ 32 ->
  exists b, take (length data) b = data /\ zlen data < zlen b /\
    threadProc (frame id usr data ++ q) rs =
      (let rs := set_rbuf rs b in
       if id =? RS_MESSAGE_TO_CLIENT_ERROR then
         let rs := throwError RS_ERROR_RUNTIME_ERROR rs in
         if mMessageFunc rs then if mErrorFunc rs then Ok (q, call rs (OnError usr (cstr_of b))) else Fault NullDeref else Ok (q, rs)
       else if id =? RS_MESSAGE_TO_CLIENT_USER then if mMessageFunc rs then Ok (q, call rs (OnMessage usr data)) else Ok (q, rs)
       else Ok (q, rs)).
Proof.
  intros Hi Hu Hd. unfold threadProc. rewrite getClientHeader_frame by done. cbn [mbind outcome_bind bytes cmdID userID]. set (b0 := if zlen data >=? zlen (rbuf rs) then _ else _). pose proof (zlen_nonneg data) as H0.
  assert (Hb0 : 0 <= zlen data < zlen b0) by (subst b0; destruct (Z.geb_spec (zlen data) (zlen (rbuf rs))); [rewrite zlen_realloc; lia|lia]).
  destruct (payload_frame id usr data q b0 Hb0) as (b & E & Hl & Ht). exists b. rewrite E. cbn [mbind outcome_bind]. split; [done|]. split; [lia|].
  cbv zeta. cbn [set_rbuf throwError mMessageFunc mErrorFunc rbuf]. destruct (id =? RS_MESSAGE_TO_CLIENT_ERROR); [done|]. destruct (id =? RS_MESSAGE_TO_CLIENT_USER); [|done]. destruct (mMessageFunc rs); [|done].
  assert (zread b 0 (zlen data) = Ok data) as ->; [|done]. unfold zread. rewrite decide_True by lia. change (Z.to_nat 0) with 0%nat. rewrite drop_0. unfold zlen. rewrite Nat2Z.id. by rewrite Ht.
Qed.

Lemma threadProc_send x q rs : message_ok x -> mMessageFunc rs = true -> mErrorFunc rs = true ->
  exists rs', threadProc (send [] x ++ q) rs = Ok (q, rs') /\ called rs' = called rs ++ [delivery x] /\ mMessageFunc rs' = true /\ mErrorFunc rs' = true.
Proof.
  intros Hx Hm He. destruct x as [usr data|e msg]; cbn [send message_ok delivery] in *; unfold setError, sendMessageToClient; rewrite send_frame; cbn [app].
  - destruct (threadProc_frame RS_MESSAGE_TO_CLIENT_USER usr data q rs) as (b & _ & _ & E); [done|lia|lia|]. rewrite E. cbn. rewrite Hm. by eexists.
  - assert (Hz : zlen (msg ++ [0]) = zlen msg + 1) by apply zlen_app.
    destruct (threadProc_frame RS_MESSAGE_TO_CLIENT_ERROR e (msg ++ [0]) q rs) as (b & Hb & _ & E); [done|lia|lia|]. rewrite E. cbn. rewrite Hm, He.
    rewrite <- (take_drop (length (msg ++ [0])) b), Hb, <- app_assoc. cbn [app]. rewrite cstr_of_terminated by apply Hx. by eexists.
Qed.

Lemma send_app q x : send q x = q ++ send [] x.
Proof. destruct x; cbn [send]; unfold setError, sendMessageToClient; by rewrite !send_frame. Qed.

Lemma foldl_send xs q : foldl send q xs = q ++ foldl send [] xs.
Proof.
  revert q. induction xs as [|x xs IH]; intros q; cbn [foldl]; [by rewrite app_nil_r|]. by rewrite (IH (send q x)), (IH (send [] x)), send_app, <- app_assoc.
Qed.

(** C24: every message the core has sent, of any length, reaches its handler, in the order of sending and
    with its whole contents, when both handlers are installed. *)
Theorem messages_arrive xs rs : Forall message_ok xs -> mMessageFunc rs = true -> mErrorFunc rs = true ->
  exists rs', rounds (length xs) (foldl send [] xs) rs = Ok ([], rs') /\ called rs' = called rs ++ (delivery <$> xs).
Proof.
  intros Hxs. revert rs. induction Hxs as [|x xs Hx Hxs IH]; intros rs Hm He; [exists rs; cbn; by rewrite app_nil_r|]. cbn [foldl length rounds]. rewrite foldl_send.
  destruct (threadProc_send x (foldl send [] xs) rs Hx Hm He) as (rs1 & E & Hc & Hm1 & He1). rewrite E. cbn [mbind outcome_bind]. destruct (IH rs1 Hm1 He1) as (rs' & E' & Hc'). exists rs'. split; [done|].
  rewrite Hc', Hc. cbn [fmap list_fmap]. by rewrite <- app_assoc.
Qed.

(** the handler of errors is guarded by the presence of the handler of messages.  With only the latter an error calls a null
    pointer; with only the former no error is reported. *)
Theorem error_handler_unguarded e msg rs : 0 <= e < 2 ^ 32 -> zlen msg < 2 ^ 31 ->
  (mMessageFunc rs = true -> mErrorFunc rs = false -> threadProc (setError e msg []) rs = Fault NullDeref) /\
  (mMessageFunc rs = false -> exists rs', threadProc (setError e msg []) rs = Ok ([], rs') /\ called rs' = called rs /\ mCurrentError rs' <> RS_SUCCESS).
Proof.
  intros He Hm. assert (Hz : zlen (msg ++ [0]) = zlen msg + 1) by apply zlen_app. unfold setError, sendMessageToClient. rewrite send_frame. cbn [app].
  destruct (threadProc_frame RS_MESSAGE_TO_CLIENT_ERROR e (msg ++ [0]) [] rs) as (b & _ & _ & E); [done|lia|lia|]. rewrite app_nil_r in E. rewrite E. cbn. split; [by intros -> ->|]. intros ->. eexists. split; [done|]. split; [done|].
  cbn. destruct (Z.eqb_spec (mCurrentError rs) RS_SUCCESS) as [_|H]; done.
Qed.

End thread.

Lemma messages_arrive_witness : exists rs',
  rounds (fun _ => 7) 3 (foldl send [] [MUser 5 [1; 2; 3]; MError 2 [66; 65; 68]; MUser 6 (replicate 300 1)]) (mkRS true true 0 (replicate 256 0) []) = Ok ([], rs') /\
  called rs' = [OnMessage 5 [1; 2; 3]; OnError 2 [66; 65; 68]; OnMessage 6 (replicate 300 1)].
Proof.
  apply (messages_arrive (fun _ => 7) [MUser 5 [1; 2; 3]; MError 2 [66; 65; 68]; MUser 6 (replicate 300 1)] (mkRS true true 0 (replicate 256 0) [])); [|done|done].
  apply Forall_cons_2; [vm_compute; split; [split|]; (discriminate || done)|]. apply Forall_cons_2; [split; [lia|]; split; [vm_compute; done|set_solver]|]. apply Forall_cons_2; [split; [lia|vm_compute; done]|apply Forall_nil_2].
Defined.

Lemma error_handler_unguarded_witness :
  threadProc (fun _ => 7) (setError 2 [66] []) (mkRS false true 0 (replicate 256 0) []) = Fault NullDeref.
Proof. apply (error_handler_unguarded (fun _ => 7) 2 [66] (mkRS false true 0 (replicate 256 0) [])); [lia|vm_compute; done|done|done]. Defined.

End Messages.
