(* ===== verification/Matrix.v ===== *)
(** * Matrix: matrices, quaternions and the view frustum

    [rsMatrix2x2.cpp], [rsMatrix3x3.cpp], [rsMatrix4x4.h], [rsMatrix4x4.cpp], the copies that
    scripts call in [driver/runtime/rs_matrix.c], and the inline functions of
    [scriptc/rs_quaternion.rsh] and [scriptc/rs_math.rsh].  The definitions are for any type of
    scalars with the operations of the code; the theorems are for exact arithmetic, the real
    numbers, and so say nothing about rounding. *)

From Stdlib Require Import Reals Lra Nsatz.
From S2P Require Import Prelude.

Module Matrix.

(** ** Scalars *)

Class Scalar (F : Type) := {
  sconst : Z -> F;
  sadd : F -> F -> F;
  ssub : F -> F -> F;
  smul : F -> F -> F;
  sdiv : F -> F -> F;
  sopp : F -> F;
  slt : F -> F -> bool;
  sle : F -> F -> bool;
  sne : F -> F -> bool;
  sabs : F -> F;
  ssqrt : F -> F;
  scos : F -> F;
  ssin : F -> F;
  stan : F -> F;
  sacos : F -> F;
  seps : F;     (** [1e-6] *)
  s005 : F;     (** [0.05f] *)
  spi : F;      (** [M_PI] *)
  sdeg : F      (** [float(M_PI / 180.0f)] *)
}.

Declare Scope scalar_scope.
Delimit Scope scalar_scope with F.
Infix "+" := sadd : scalar_scope.
Infix "-" := ssub : scalar_scope.
Infix "*" := smul : scalar_scope.
Infix "/" := sdiv : scalar_scope.
Notation "- x" := (sopp x) : scalar_scope.

Notation "k |-> v" := (k%nat, v%F) (at level 85, only parsing).
Notation "m .[ k ]" := (m k%nat) (at level 9, only parsing).

Section matrix.
Context {F : Type} `{!Scalar F}.
#[local] Open Scope scalar_scope.

Definition zero : F := sconst 0.
Definition one : F := sconst 1.
Definition two : F := sconst 2.
Definition mone : F := sconst (-1).
Definition mtwo : F := sconst (-2).

(** [float m[n]] *)
Definition arr : Type := nat -> F.
Definition upd (m : arr) (k : nat) (v : F) : arr := fun i => if Nat.eqb i k then v else m i.
Definition upds (m : arr) (kvs : list (nat * F)) : arr := foldl (fun m kv => upd m kv.1 kv.2) m kvs.

(** [get] and [set] of the matrix with rows of [n]. *)
Definition get (n : nat) (m : arr) (x y : nat) : F := m.[x * n + y].
Definition set (n : nat) (m : arr) (x y : nat) (v : F) : arr := upd m (x * n + y)%nat v.

Definition identity4 : list (nat * F) :=
  [(0 |-> one); (1 |-> zero); (2 |-> zero); (3 |-> zero); (4 |-> zero); (5 |-> one); (6 |-> zero); (7 |-> zero); (8 |-> zero); (9 |-> zero); (10 |-> one); (11 |-> zero); (12 |-> zero); (13 |-> zero); (14 |-> zero); (15 |-> one)].
Definition identity3 : list (nat * F) := [(0 |-> one); (1 |-> zero); (2 |-> zero); (3 |-> zero); (4 |-> one); (5 |-> zero); (6 |-> zero); (7 |-> zero); (8 |-> one)].
Definition identity2 : list (nat * F) := [(0 |-> one); (1 |-> zero); (2 |-> zero); (3 |-> one)].

Definition loadIdentity (n : nat) (m : arr) : arr := upds m (match n with 4%nat => identity4 | 3%nat => identity3 | _ => identity2 end).

(** [rsMatrixLoad] from an array or a matrix of the same size. *)
Definition load (n : nat) (m v : arr) : arr := upds m ((fun k => (k, v k)) <$> seq 0 (n * n)).

(** [load] from a smaller matrix. *)
Definition load3 (m v : arr) : arr :=
  upds m [(0 |-> v.[0]); (1 |-> v.[1]); (2 |-> v.[2]); (3 |-> zero); (4 |-> v.[3]); (5 |-> v.[4]); (6 |-> v.[5]); (7 |-> zero); (8 |-> v.[6]); (9 |-> v.[7]); (10 |-> v.[8]); (11 |-> zero);
          (12 |-> zero); (13 |-> zero); (14 |-> zero); (15 |-> one)].
Definition load2 (m v : arr) : arr :=
  upds m [(0 |-> v.[0]); (1 |-> v.[1]); (2 |-> zero); (3 |-> zero); (4 |-> v.[2]); (5 |-> v.[3]); (6 |-> zero); (7 |-> zero); (8 |-> zero); (9 |-> zero); (10 |-> one); (11 |-> zero);
          (12 |-> zero); (13 |-> zero); (14 |-> zero); (15 |-> one)].

(** ** Products

    [dst], [lhs] and [rhs] may point to the same matrix. *)
Definition mats : Type := nat -> arr.
Definition put (st : mats) (p : nat) (m : arr) : mats := fun q => if Nat.eqb q p then m else st q.

(** The accumulator [rik] after the loop over [j]. *)
Definition acc (n : nat) (lhs rhs : arr) (i k : nat) : F := foldl (fun r j => r + get n lhs j k * get n rhs i j) zero (seq 0 n).

(** One round of the loop over [i]: all of a row is computed before it is stored. *)
Definition row (n : nat) (dst lhs rhs : nat) (st : mats) (i : nat) : mats :=
  let vs := (fun k => acc n (st lhs) (st rhs) i k) <$> seq 0 n in
  put st dst (upds (st dst) (zip ((fun k => (i * n + k)%nat) <$> seq 0 n) vs)).

Definition loadMultiply (n : nat) (st : mats) (dst lhs rhs : nat) : mats := foldl (row n dst lhs rhs) st (seq 0 n).

(** [multiply]: through a temporary; [tmp] is fresh. *)
Definition multiply (n : nat) (st : mats) (this rhs tmp : nat) : mats :=
  let st := loadMultiply n st tmp this rhs in put st this (load n (st this) (st tmp)).

(** [vectorMultiply]: a point, with a fourth coordinate of one. *)
Definition vectorMultiply (m v : arr) : arr :=
  upds (fun _ => zero)
    [(0 |-> m.[0] * v.[0] + m.[4] * v.[1] + m.[8] * v.[2] + m.[12]); (1 |-> m.[1] * v.[0] + m.[5] * v.[1] + m.[9] * v.[2] + m.[13]);
     (2 |-> m.[2] * v.[0] + m.[6] * v.[1] + m.[10] * v.[2] + m.[14]); (3 |-> m.[3] * v.[0] + m.[7] * v.[1] + m.[11] * v.[2] + m.[15])].

(** [rsMatrixMultiply] on a [float2]. *)
Definition rsMatrixMultiply2 (m : arr) (x y : F) : F * F := (m.[0] * x + m.[2] * y, m.[1] * x + m.[3] * y).

(** ** Transpose and inverse *)

(** The loop [for (i...) for (j = i + 1...)] of the exchanges. *)
Definition swaps (n : nat) : list (nat * nat) := i ← seq 0 (n - 1); (fun j => (i, j)) <$> seq (S i) (n - 1 - i).
Definition transpose (n : nat) (m : arr) : arr :=
  foldl (fun m '(i, j) => let temp := get n m i j in set n (set n m i j (get n m j i)) j i temp) m (swaps n).

(** [computeCofactor] *)
Definition cofactor (m : arr) (i j : nat) : F :=
  let c0 := ((i + 1) mod 4)%nat in let c1 := ((i + 2) mod 4)%nat in let c2 := ((i + 3) mod 4)%nat in
  let r0 := ((j + 1) mod 4)%nat in let r1 := ((j + 2) mod 4)%nat in let r2 := ((j + 3) mod 4)%nat in
  let minor :=
    m.[c0 + 4 * r0] * (m.[c1 + 4 * r1] * m.[c2 + 4 * r2] - m.[c1 + 4 * r2] * m.[c2 + 4 * r1])
    - m.[c0 + 4 * r1] * (m.[c1 + 4 * r0] * m.[c2 + 4 * r2] - m.[c1 + 4 * r2] * m.[c2 + 4 * r0])
    + m.[c0 + 4 * r2] * (m.[c1 + 4 * r0] * m.[c2 + 4 * r1] - m.[c1 + 4 * r1] * m.[c2 + 4 * r0]) in
  if Nat.odd (i + j) then - minor else minor.

Definition pairs4 : list (nat * nat) := i ← seq 0 4; (fun j => (i, j)) <$> seq 0 4.

Definition inverse (m : arr) : bool * arr :=
  let result := foldl (fun r '(i, j) => upd r (4 * i + j)%nat (cofactor m i j)) m pairs4 in
  let det := m.[0] * result.[0] + m.[4] * result.[1] + m.[8] * result.[2] + m.[12] * result.[3] in
  if slt (sabs det) seps then (false, m)
  else let det := one / det in (true, foldl (fun m i => upd m i (result i * det)) m (seq 0 16)).

Definition inverseTranspose (m : arr) : bool * arr :=
  let result := foldl (fun r '(i, j) => upd r (4 * j + i)%nat (cofactor m i j)) m pairs4 in
  let det := m.[0] * result.[0] + m.[4] * result.[4] + m.[8] * result.[8] + m.[12] * result.[12] in
  if slt (sabs det) seps then (false, m)
  else let det := one / det in (true, foldl (fun m i => upd m i (result i * det)) m (seq 0 16)).

(** ** Transformations *)

Definition loadRotate (m : arr) (rot x y z : F) : arr :=
  let m := upds m [(3 |-> zero); (7 |-> zero); (11 |-> zero); (12 |-> zero); (13 |-> zero); (14 |-> zero); (15 |-> one)] in
  let rot := rot * sdeg in
  let c := scos rot in
  let s := ssin rot in
  let len := x * x + y * y + z * z in
  let '(x, y, z) := if sne len one then let recipLen := one / ssqrt len in (x * recipLen, y * recipLen, z * recipLen) else (x, y, z) in
  let nc := one - c in
  let xy := x * y in let yz := y * z in let zx := z * x in
  let xs := x * s in let ys := y * s in let zs := z * s in
  upds m [(0 |-> x * x * nc + c); (4 |-> xy * nc - zs); (8 |-> zx * nc + ys); (1 |-> xy * nc + zs); (5 |-> y * y * nc + c); (9 |-> yz * nc - xs);
          (2 |-> zx * nc - ys); (6 |-> yz * nc + xs); (10 |-> z * z * nc + c)].

Definition loadScale (m : arr) (x y z : F) : arr := set 4 (set 4 (set 4 (loadIdentity 4 m) 0 0 x) 1 1 y) 2 2 z.
Definition loadTranslate (m : arr) (x y z : F) : arr := upds (loadIdentity 4 m) [(12 |-> x); (13 |-> y); (14 |-> z)].

(** [rotate], [scale] and [translate]: the matrix of the transformation is built in [t]. *)
Definition rotate (st : mats) (this t tmp : nat) (rot x y z : F) : mats := multiply 4 (put st t (loadRotate (st t) rot x y z)) this t tmp.
Definition scale (st : mats) (this t tmp : nat) (x y z : F) : mats := multiply 4 (put st t (loadScale (st t) x y z)) this t tmp.
Definition translate (st : mats) (this t tmp : nat) (x y z : F) : mats := multiply 4 (put st t (loadTranslate (st t) x y z)) this t tmp.

Definition loadOrtho (m : arr) (left right bottom top near far : F) : arr :=
  upds (loadIdentity 4 m)
    [(0 |-> two / (right - left)); (5 |-> two / (top - bottom)); (10 |-> mtwo / (far - near)); (12 |-> - (right + left) / (right - left));
     (13 |-> - (top + bottom) / (top - bottom)); (14 |-> - (far + near) / (far - near))].

Definition loadFrustum (m : arr) (left right bottom top near far : F) : arr :=
  upds (loadIdentity 4 m)
    [(0 |-> two * near / (right - left)); (5 |-> two * near / (top - bottom)); (8 |-> (right + left) / (right - left));
     (9 |-> (top + bottom) / (top - bottom)); (10 |-> - (far + near) / (far - near)); (11 |-> mone);
     (14 |-> mtwo * far * near / (far - near)); (15 |-> zero)].

Definition loadPerspective (m : arr) (fovy aspect near far : F) : arr :=
  let top := near * stan (fovy * spi / sconst 360) in
  let bottom := - top in
  let left := bottom * aspect in
  let right := top * aspect in
  loadFrustum m left right bottom top near far.

(** ** Quaternions

    The second operand of [rsQuaternionMultiply] is another object than the first. *)

Record rs_quaternion := mkQ { qw : F; qx : F; qy : F; qz : F }.

Definition rsQuaternionScale (q : rs_quaternion) (s : F) : rs_quaternion := mkQ (qw q * s) (qx q * s) (qy q * s) (qz q * s).

(** The operators are [*=]. *)
Definition rsQuaternionAdd (q rhs : rs_quaternion) : rs_quaternion := mkQ (qw q * qw rhs) (qx q * qx rhs) (qy q * qy rhs) (qz q * qz rhs).

Definition rsQuaternionLoadRotateUnit (rot x y z : F) : rs_quaternion :=
  let rot := rot * (sdeg * (one / two)) in
  let c := scos rot in let s := ssin rot in
  mkQ c (x * s) (y * s) (z * s).

Definition rsQuaternionLoadRotate (rot x y z : F) : rs_quaternion :=
  let len := x * x + y * y + z * z in
  let '(x, y, z) := if sne len one then let recipLen := one / ssqrt len in (x * recipLen, y * recipLen, z * recipLen) else (x, y, z) in
  rsQuaternionLoadRotateUnit rot x y z.

Definition rsQuaternionConjugate (q : rs_quaternion) : rs_quaternion := mkQ (qw q) (- qx q) (- qy q) (- qz q).

Definition rsQuaternionDot (q0 q1 : rs_quaternion) : F := qw q0 * qw q1 + qx q0 * qx q1 + qy q0 * qy q1 + qz q0 * qz q1.

Definition rsQuaternionNormalize (q : rs_quaternion) : rs_quaternion :=
  let len := rsQuaternionDot q q in
  if sne len one then rsQuaternionScale q (one / ssqrt len) else q.

Definition rsQuaternionMultiply (q rhs : rs_quaternion) : rs_quaternion :=
  rsQuaternionNormalize
    (mkQ (qw q * qw rhs - qx q * qx rhs - qy q * qy rhs - qz q * qz rhs)
         (qw q * qx rhs + qx q * qw rhs + qy q * qz rhs - qz q * qy rhs)
         (qw q * qy rhs + qy q * qw rhs + qz q * qx rhs - qx q * qz rhs)
         (qw q * qz rhs + qz q * qw rhs + qx q * qy rhs - qy q * qx rhs)).

Definition rsQuaternionSlerp (q0 q1 : rs_quaternion) (t : F) : rs_quaternion :=
  if sle t zero then q0
  else if sle one t then q1
  else
    let angle := rsQuaternionDot q0 q1 in
    let '(tempq0, angle) := if slt angle zero then (rsQuaternionScale q0 mone, angle * mone) else (q0, angle) in
    let '(tempq1, scale, invScale) :=
      if slt s005 (angle + one) then
        if sle s005 (one - angle) then
          let theta := sacos angle in
          let invSinTheta := one / ssin theta in
          (q1, ssin (theta * (one - t)) * invSinTheta, ssin (theta * t) * invSinTheta)
        else (q1, one - t, t)
      else (mkQ (qz tempq0) (- qy tempq0) (qx tempq0) (- qw tempq0), ssin (spi * (one / two - t)), ssin (spi * t)) in
    mkQ (qw tempq0 * scale + qw tempq1 * invScale) (qx tempq0 * scale + qx tempq1 * invScale)
        (qy tempq0 * scale + qy tempq1 * invScale) (qz tempq0 * scale + qz tempq1 * invScale).

Definition rsQuaternionGetMatrixUnit (m : arr) (q : rs_quaternion) : arr :=
  let xx := qx q * qx q in let xy := qx q * qy q in let xz := qx q * qz q in let xw := qx q * qw q in
  let yy := qy q * qy q in let yz := qy q * qz q in let yw := qy q * qw q in
  let zz := qz q * qz q in let zw := qz q * qw q in
  upds m
    [(0 |-> one - two * (yy + zz)); (4 |-> two * (xy - zw)); (8 |-> two * (xz + yw)); (1 |-> two * (xy + zw)); (5 |-> one - two * (xx + zz)); (9 |-> two * (yz - xw));
     (2 |-> two * (xz - yw)); (6 |-> two * (yz + xw)); (10 |-> one - two * (xx + yy)); (14 |-> zero); (13 |-> zero); (12 |-> zero); (11 |-> zero); (7 |-> zero); (3 |-> zero); (15 |-> one)].

(** ** The view frustum *)

Record float4 := mk4 { vx : F; vy : F; vz : F; vw : F }.

Definition dot3 (a b : float4) : F := vx a * vx b + vy a * vy b + vz a * vz b.
Definition length3 (a : float4) : F := ssqrt (dot3 a a).
Definition div4 (a : float4) (l : F) : float4 := mk4 (vx a / l) (vy a / l) (vz a / l) (vw a / l).

(** The planes [left; right; top; bottom; near; far], before they are scaled to unit normals. *)
Definition planes (m : arr) : list float4 :=
  let left := mk4 (m.[3] + m.[0]) (m.[7] + m.[4]) (m.[11] + m.[8]) (m.[15] + m.[12]) in
  let right := mk4 (m.[3] - m.[0]) (m.[7] - m.[4]) (m.[11] - m.[8]) (m.[15] - m.[12]) in
  let top := mk4 (m.[3] - m.[1]) (m.[7] - m.[5]) (m.[11] - m.[9]) (m.[15] - m.[13]) in
  let bottom := mk4 (m.[3] + m.[1]) (m.[7] + m.[5]) (m.[11] + m.[9]) (m.[15] + m.[13]) in
  let near := mk4 (m.[3] + m.[2]) (m.[7] + m.[6]) (m.[11] + m.[10]) (m.[15] + m.[14]) in
  let far := mk4 (m.[3] - m.[2]) (m.[7] - m.[6]) (m.[11] - m.[10]) (m.[15] - m.[14]) in
  [left; right; top; bottom; near; far].

Definition rsExtractFrustumPlanes (m : arr) : list float4 := (fun p => div4 p (length3 p)) <$> planes m.

(** The six tests in order. *)
Definition rsIsSphereInFrustum (sphere : float4) (planes : list float4) : bool :=
  forallb (fun p => negb (slt (dot3 p sphere + vw p) (- vw sphere))) planes.

End matrix.

(** ** Exact arithmetic *)

#[export] Instance R_scalar : Scalar R := {|
  sconst := IZR; sadd := Rplus; ssub := Rminus; smul := Rmult; sdiv := Rdiv; sopp := Ropp;
  slt a b := if Rlt_dec a b then true else false; sle a b := if Rle_dec a b then true else false; sne a b := if Req_EM_T a b then false else true;
  sabs := Rabs; ssqrt := sqrt; scos := cos; ssin := sin; stan := tan; sacos := acos; seps := (1 / 1000000)%R; s005 := (5 / 100)%R; spi := PI; sdeg := (PI / 180)%R |}.

#[local] Open Scope R_scope.

Abbreviation mat := (@arr R).

(** Matrices are compared on their entries. *)
Definition same (k : nat) (m m' : mat) : Prop := forall i, (i < k)%nat -> m i = m' i.

#[export] Instance same_equiv k : Equivalence (same k).
Proof. split; [by intros m i|intros m m' H i Hi; symmetry; auto|]. intros a b c H H' i Hi. rewrite (H i Hi). auto. Qed.

(** ** Products *)

(** The product: column [i] of the result combines the columns of [a]. *)
Definition prod (n : nat) (a b : mat) : mat := fun p => acc n a b (p / n) (p mod n).

Lemma get_prod n a b i k : (i < n)%nat -> (k < n)%nat -> get n (prod n a b) i k = acc n a b i k.
Proof. intros Hi Hk. unfold get, prod. f_equal; [rewrite Nat.div_add_l, Nat.div_small by lia; lia|rewrite Nat.add_comm, Nat.Div0.mod_add, Nat.mod_small by lia; done]. Qed.

Lemma foldl_ext {A B} (f g : A -> B -> A) l a : (forall a b, b ∈ l -> f a b = g a b) -> foldl f a l = foldl g a l.
Proof. revert a. induction l as [|b l IH]; intros a H; [done|]. cbn. rewrite H by left. apply IH. intros; apply H. by right. Qed.

Lemma acc_ext n a a' b b' i k : (forall j, (j < n)%nat -> get n a j k = get n a' j k) -> (forall j, (j < n)%nat -> get n b i j = get n b' i j) -> acc n a b i k = acc n a' b' i k.
Proof. intros Ha Hb. unfold acc. apply foldl_ext. intros r j Hj%elem_of_seq. rewrite Ha, Hb by lia. done. Qed.

#[export] Instance prod_proper n : Proper (same (n * n) ==> same (n * n) ==> same (n * n)) (prod n).
Proof.
  intros a a' Ha b b' Hb p Hp. unfold prod. destruct (decide (n = 0%nat)) as [->|Hn]; [lia|].
  assert (p / n < n)%nat by (apply Nat.Div0.div_lt_upper_bound; lia). assert (p mod n < n)%nat by (apply Nat.mod_upper_bound; lia).
  apply acc_ext; intros j Hj; [apply Ha|apply Hb]; nia.
Qed.

Lemma upds_row (m : mat) n i vs p : length vs = n ->
  upds m (zip ((fun k => (i * n + k)%nat) <$> seq 0 n) vs) p = if decide (i * n <= p < i * n + n)%nat then default (m p) (vs !! (p - i * n)%nat) else m p.
Proof.
  intros Hl. assert (H : forall k (ws : list R) (m : mat), upds m (zip ((fun k => (i * n + k)%nat) <$> seq k (length ws)) ws) p =
    if decide (i * n + k <= p < i * n + k + length ws)%nat then default (m p) (ws !! (p - i * n - k)%nat) else m p).
  { clear. intros k ws. revert k. induction ws as [|w ws IH]; intros k m; [cbn; rewrite decide_False by lia; done|].
    change (upds m (zip ((fun k => (i * n + k)%nat) <$> seq k (length (w :: ws))) (w :: ws)) p) with (upds (upd m (i * n + k)%nat w) (zip ((fun k => (i * n + k)%nat) <$> seq (S k) (length ws)) ws) p). rewrite IH. cbn [length]. unfold upd. cbn [fst snd].
    destruct (Nat.eqb_spec p (i * n + k)%nat) as [->|Hne].
    - rewrite decide_False by lia. rewrite decide_True by lia. replace (i * n + k - i * n - k)%nat with 0%nat by lia. done.
    - case_decide; case_decide; try lia; [|done]. replace (p - i * n - k)%nat with (S (p - i * n - S k)) by lia. done. }
  specialize (H 0%nat vs m). rewrite Hl in H. rewrite H. rewrite Nat.add_0_r, Nat.sub_0_r. done.
Qed.

(** The state after the rows below [t]. *)
Lemma loadMultiply_rows n (st : mats) dst lhs rhs t : dst <> lhs -> (0 < n)%nat -> (t <= n)%nat ->
  let st' := foldl (row n dst lhs rhs) st (seq 0 t) in
  (forall q, q <> dst -> st' q = st q) /\ forall p, st' dst p = if (p <? t * n)%nat then prod n (st lhs) (st rhs) p else st dst p.
Proof.
  intros Hd Hn Ht st'. subst st'. induction t as [|t IH]; [split; [done|]; intros p; done|]. rewrite seq_S, foldl_snoc. specialize (IH ltac:(lia)).
  set (st1 := foldl (row n dst lhs rhs) st (seq 0 t)) in *. unfold row. destruct IH as [Ho Hp]. split; [intros q Hq; unfold put; rewrite (proj2 (Nat.eqb_neq _ _)) by done; by apply Ho|].
  intros p. unfold put at 1. rewrite Nat.eqb_refl, upds_row by (by rewrite length_fmap, length_seq). cbn [plus].
  assert (Hacc : forall k, (k < n)%nat -> acc n (st1 lhs) (st1 rhs) t k = prod n (st lhs) (st rhs) (t * n + k)%nat).
  { intros k Hk. change (prod n (st lhs) (st rhs) (t * n + k)%nat) with (get n (prod n (st lhs) (st rhs)) t k). rewrite get_prod by lia. apply acc_ext; intros j Hj; unfold get; [by rewrite Ho|].
    destruct (decide (rhs = dst)) as [->|Hr]; [|by rewrite Ho]. rewrite Hp. destruct (Nat.ltb_spec (t * n + j) (t * n)); [lia|done]. }
  rewrite Hp. case_decide as Hin.
  - rewrite list_lookup_fmap, lookup_seq_lt by lia. cbn [default fmap option_fmap option_map from_option]. unfold Datatypes.id. rewrite (proj2 (Nat.ltb_lt _ _)) by lia. rewrite (Hacc (0 + (p - t * n))%nat) by lia. f_equal. lia.
  - destruct (Nat.ltb_spec p (t * n)), (Nat.ltb_spec p (S t * n)); try lia; done.
Qed.

Lemma product_stored n st dst lhs rhs : (0 < n)%nat -> dst <> lhs ->
  same (n * n) (loadMultiply n st dst lhs rhs dst) (prod n (st lhs) (st rhs)) /\ forall q, q <> dst -> loadMultiply n st dst lhs rhs q = st q.
Proof.
  intros Hn Hd. destruct (loadMultiply_rows n st dst lhs rhs n Hd Hn (le_n _)) as [Ho Hp]. split; [|exact Ho]. intros p Hlt. unfold loadMultiply. rewrite Hp. by rewrite (proj2 (Nat.ltb_lt _ _)).
Qed.

(** The product is right whenever the result is not stored over the left factor; over the right one
    it may be. *)
Theorem loadMultiply_product n st dst lhs rhs : (0 < n)%nat -> dst <> lhs ->
  same (n * n) (loadMultiply n st dst lhs rhs dst) (prod n (st lhs) (st rhs)) /\ forall q, q <> dst -> loadMultiply n st dst lhs rhs q = st q.
Proof. apply product_stored. Qed.

(** Over the left factor it is not: the second row is computed from the first row of the result. *)
Theorem loadMultiply_in_place : exists st : mats, get 2 (loadMultiply 2 st 0 0 1 0%nat) 1 0 <> get 2 (prod 2 (st 0%nat) (st 1%nat)) 1 0.
Proof.
  exists (fun q k => match q, k with 0%nat, 0%nat => 1 | 0%nat, 3%nat => 1 | 1%nat, 0%nat => 2 | 1%nat, 2%nat => 1 | 1%nat, 3%nat => 1 | _, _ => 0 end).
  cbv -[Rplus Rmult IZR]. lra.
Qed.

Lemma load_get n (m v : mat) p : (p < n * n)%nat -> load n m v p = v p.
Proof.
  intros Hp. unfold load. assert (H : forall l (m : mat), p ∈ l -> upds m ((fun k => (k, v k)) <$> l) p = v p); [|apply H, elem_of_seq; lia].
  intros l. induction l as [|k l IH] using rev_ind; intros m' Hl; [by apply elem_of_nil in Hl|]. unfold upds. rewrite fmap_app, foldl_app. cbn. unfold upd. destruct (Nat.eqb_spec p k) as [->|Hne]; [done|]. apply IH.
  apply elem_of_app in Hl as [|Hl%list_elem_of_singleton]; [done|congruence].
Qed.

(** [multiply], with a temporary of its own. *)
Lemma multiply_product n st this rhs tmp : (0 < n)%nat -> tmp <> this -> same (n * n) (multiply n st this rhs tmp this) (prod n (st this) (st rhs)).
Proof. intros Hn H1 p Hp. unfold multiply, put. rewrite Nat.eqb_refl, load_get by done. by apply (product_stored n st tmp this rhs Hn H1). Qed.

(** Compute the entries of matrices of known size. *)
Ltac entry_cbv := cbv -[Rplus Rmult Rminus Ropp Rdiv Rinv IZR cos sin sqrt tan acos PI Rabs Rlt_dec Rle_dec Req_EM_T].
Ltac entries16 tac := let p := fresh "p" in let Hp := fresh "Hp" in intros p Hp; do 16 (destruct p as [|p]; [tac|]); exfalso; cbn in Hp; lia.

Definition ident : mat := loadIdentity 4 (fun _ => 0).

Lemma prod_assoc a b c : same 16 (prod 4 (prod 4 a b) c) (prod 4 a (prod 4 b c)).
Proof. entries16 ltac:(entry_cbv; ring). Qed.

Lemma prod_ident_l m : same 16 (prod 4 ident m) m.
Proof. entries16 ltac:(entry_cbv; ring). Qed.

Lemma prod_ident_r m : same 16 (prod 4 m ident) m.
Proof. entries16 ltac:(entry_cbv; ring). Qed.

Lemma transpose_get (m : mat) i j : (i < 4)%nat -> (j < 4)%nat -> get 4 (transpose 4 m) i j = get 4 m j i.
Proof. intros Hi Hj. do 4 (destruct i as [|i]; [do 4 (destruct j as [|j]; [reflexivity|]); lia|]). lia. Qed.

Lemma transpose_prod a b : same 16 (transpose 4 (prod 4 a b)) (prod 4 (transpose 4 b) (transpose 4 a)).
Proof. entries16 ltac:(entry_cbv; ring). Qed.

(** ** Inverse *)

Definition det (m : mat) : R := m 0%nat * cofactor m 0 0 + m 4%nat * cofactor m 0 1 + m 8%nat * cofactor m 0 2 + m 12%nat * cofactor m 0 3.

(** The cofactors, transposed, with the determinant divided out. *)
Definition adjugate (m : mat) (r : R) : mat := fun p => cofactor m (p / 4) (p mod 4) * r.

Lemma adjugate_right m r : det m * r = 1 -> same 16 (prod 4 m (adjugate m r)) ident.
Proof. intros H. entries16 ltac:(first [entry_cbv; ring | transitivity (det m * r); [entry_cbv; ring|rewrite H; entry_cbv; ring]]). Qed.

Lemma adjugate_left m r : det m * r = 1 -> same 16 (prod 4 (adjugate m r) m) ident.
Proof. intros H. entries16 ltac:(first [entry_cbv; ring | transitivity (det m * r); [entry_cbv; ring|rewrite H; entry_cbv; ring]]). Qed.

Lemma inverse_cases m : if Rlt_dec (Rabs (det m)) (1 / 1000000) then inverse m = (false, m) else (inverse m).1 = true /\ same 16 (inverse m).2 (adjugate m (1 / det m)).
Proof.
  unfold inverse. cbv zeta. change (slt ?a seps) with (if Rlt_dec a (1 / 1000000) then true else false).
  set (result := foldl _ m pairs4). change (_ * result 0%nat + _ + _ + _)%F with (det m). change (sabs (det m)) with (Rabs (det m)). destruct (Rlt_dec _ _); [done|]. split; [done|].
  entries16 ltac:(reflexivity).
Qed.

Lemma det_nonzero m : ~ Rabs (det m) < 1 / 1000000 -> det m * (1 / det m) = 1.
Proof. intros H. field. intros E. apply H. rewrite E, Rabs_R0. lra. Qed.

Lemma inverse_true m : (inverse m).1 = true -> same 16 (prod 4 m (inverse m).2) ident /\ same 16 (prod 4 (inverse m).2 m) ident.
Proof.
  pose proof (inverse_cases m) as H. destruct (Rlt_dec _ _) as [|Hd]; [rewrite H; done|]. destruct H as [H1 H2]. intros _. pose proof (prod_proper 4) as HP. change (4 * 4)%nat with 16%nat in HP.
  split; [rewrite H2; by apply adjugate_right, det_nonzero|]. rewrite H2. by apply adjugate_left, det_nonzero.
Qed.

(** [inverse] fails, leaving the matrix alone, exactly on a determinant below 1e-6; otherwise it
    leaves a two-sided inverse. *)
Theorem inverse_spec m :
  if Rlt_dec (Rabs (det m)) (1 / 1000000) then inverse m = (false, m)
  else (inverse m).1 = true /\ same 16 (prod 4 m (inverse m).2) ident /\ same 16 (prod 4 (inverse m).2 m) ident.
Proof. pose proof (inverse_cases m) as H. destruct (Rlt_dec _ _) as [|Hd]; [done|]. destruct H as [H1 _]. split; [done|]. by apply inverse_true. Qed.

Definition cofactors (m : mat) (r : R) : mat := fun p => cofactor m (p mod 4) (p / 4) * r.

Lemma inverseTranspose_cases m : if Rlt_dec (Rabs (det m)) (1 / 1000000) then inverseTranspose m = (false, m) else (inverseTranspose m).1 = true /\ same 16 (inverseTranspose m).2 (cofactors m (1 / det m)).
Proof.
  unfold inverseTranspose. cbv zeta. change (slt ?a seps) with (if Rlt_dec a (1 / 1000000) then true else false).
  set (result := foldl _ m pairs4). change (_ * result 0%nat + _ + _ + _)%F with (det m). change (sabs (det m)) with (Rabs (det m)). destruct (Rlt_dec _ _); [done|]. split; [done|].
  entries16 ltac:(reflexivity).
Qed.

(** [inverseTranspose] is [inverse] followed by [transpose]. *)
Theorem inverseTranspose_spec m : (inverseTranspose m).1 = (inverse m).1 /\ ((inverse m).1 = true -> same 16 (inverseTranspose m).2 (transpose 4 (inverse m).2)).
Proof.
  pose proof (inverse_cases m) as H. pose proof (inverseTranspose_cases m) as H'. destruct (Rlt_dec _ _); [rewrite H, H'; by split|]. destruct H as [-> H], H' as [-> H']. split; [done|]. intros _. rewrite H'.
  entries16 ltac:(entry_cbv; rewrite H by lia; reflexivity).
Qed.

(** ** Transformations *)

(** The image of a point; the fourth coordinate is the divisor. *)
Lemma vectorMultiply_prod a b v :
  b 3%nat = 0 -> b 7%nat = 0 -> b 11%nat = 0 -> b 15%nat = 1 -> same 4 (vectorMultiply (prod 4 a b) v) (vectorMultiply a (vectorMultiply b v)).
Proof.
  intros H3 H7 H11 H15 p Hp. assert (E : forall k, (k < 4)%nat -> vectorMultiply (prod 4 a b) v k = a k * vectorMultiply b v 0%nat + a (4 + k)%nat * vectorMultiply b v 1%nat + a (8 + k)%nat * vectorMultiply b v 2%nat + a (12 + k)%nat * vectorMultiply b v 3%nat).
  { intros k Hk. do 4 (destruct k as [|k]; [entry_cbv; ring|]). lia. }
  rewrite E by done. assert (vectorMultiply b v 3%nat = 1) as -> by (entry_cbv; rewrite H3, H7, H11, H15; ring). do 4 (destruct p as [|p]; [entry_cbv; ring|]). lia.
Qed.

Lemma loadScale_point m x y z v : same 3 (vectorMultiply (loadScale m x y z) v) (fun k => match k with 0%nat => x * v 0%nat | 1%nat => y * v 1%nat | _ => z * v 2%nat end).
Proof. intros p Hp. do 3 (destruct p as [|p]; [entry_cbv; ring|]). lia. Qed.

Lemma loadTranslate_point m x y z v : same 3 (vectorMultiply (loadTranslate m x y z) v) (fun k => match k with 0%nat => v 0%nat + x | 1%nat => v 1%nat + y | _ => v 2%nat + z end).
Proof. intros p Hp. do 3 (destruct p as [|p]; [entry_cbv; ring|]). lia. Qed.

(** The axis, scaled to length one when it is not. *)
Definition unit_axis (x y z : R) : R * R * R :=
  let len := x * x + y * y + z * z in if Req_EM_T len 1 then (x, y, z) else (x * (1 / sqrt len), y * (1 / sqrt len), z * (1 / sqrt len)).

Lemma unit_axis_spec x y z : x * x + y * y + z * z <> 0 ->
  let '(x', y', z') := unit_axis x y z in x' * x' + y' * y' + z' * z' = 1 /\ exists l, x = l * x' /\ y = l * y' /\ z = l * z'.
Proof.
  intros H. unfold unit_axis. cbv zeta. destruct (Req_EM_T _ _) as [|_]; [split; [done|]; exists 1; lra|]. assert (H0 : 0 < x * x + y * y + z * z) by nra. set (l := x * x + y * y + z * z) in *.
  assert (Hs : sqrt l * sqrt l = l) by (apply sqrt_sqrt; lra). assert (Hn : sqrt l <> 0) by (intros E; rewrite E in Hs; lra). split; [|exists (sqrt l); repeat split; field; done].
  replace (x * (1 / sqrt l) * (x * (1 / sqrt l)) + y * (1 / sqrt l) * (y * (1 / sqrt l)) + z * (1 / sqrt l) * (z * (1 / sqrt l))) with (l / (sqrt l * sqrt l)) by (unfold l; field; done).
  rewrite Hs. field. lra.
Qed.

(** The rotation matrix about a unit axis. *)
Definition rotation (c s x y z : R) : mat :=
  upds (fun _ => 0)
    [(0%nat, x * x * (1 - c) + c); (1%nat, x * y * (1 - c) + z * s); (2%nat, z * x * (1 - c) - y * s);
     (4%nat, x * y * (1 - c) - z * s); (5%nat, y * y * (1 - c) + c); (6%nat, y * z * (1 - c) + x * s);
     (8%nat, z * x * (1 - c) + y * s); (9%nat, y * z * (1 - c) - x * s); (10%nat, z * z * (1 - c) + c); (15%nat, 1)].

Lemma loadRotate_rotation m rot x y z : same 16 (loadRotate m rot x y z) (let '(x, y, z) := unit_axis x y z in rotation (cos (rot * (PI / 180))) (sin (rot * (PI / 180))) x y z).
Proof.
  unfold loadRotate, unit_axis. cbv zeta. change (sne ?a one) with (if Req_EM_T a 1 then false else true). change (_ + _ + _)%F with (x * x + y * y + z * z). destruct (Req_EM_T _ _); entries16 ltac:(entry_cbv; ring).
Qed.

#[export] Instance transpose_proper : Proper (same 16 ==> same 16) (@transpose R 4).
Proof. intros a b H. entries16 ltac:(entry_cbv; apply H; lia). Qed.

Lemma rotation_orthogonal c s x y z : c * c + s * s = 1 -> x * x + y * y + z * z = 1 -> same 16 (prod 4 (rotation c s x y z) (transpose 4 (rotation c s x y z))) ident.
Proof. intros Hc Hx. entries16 ltac:(entry_cbv; nsatz). Qed.

(** A direction with the given coordinates. *)
Definition vec (x y z : R) : mat := upds (fun _ => 0) [(0%nat, x); (1%nat, y); (2%nat, z)].

Lemma rotation_axis c s x y z l : c * c + s * s = 1 -> x * x + y * y + z * z = 1 -> same 3 (vectorMultiply (rotation c s x y z) (vec (l * x) (l * y) (l * z))) (vec (l * x) (l * y) (l * z)).
Proof. intros Hc Hx p Hp. do 3 (destruct p as [|p]; [entry_cbv; nsatz|]). lia. Qed.

Lemma cos2_sin2 a : cos a * cos a + sin a * sin a = 1.
Proof. pose proof (sin2_cos2 a) as H. unfold Rsqr in H. lra. Qed.

#[export] Instance vectorMultiply_proper : Proper (same 16 ==> eq ==> same 4) (@vectorMultiply R _).
Proof. intros a b H v _ <- p Hp. do 4 (destruct p as [|p]; [entry_cbv; rewrite !H by lia; done|]). lia. Qed.

(** [loadRotate] leaves an orthogonal matrix that keeps the axis where it is, whatever the length
    of the axis. *)
Theorem loadRotate_orthogonal m rot x y z : x * x + y * y + z * z <> 0 ->
  let r := loadRotate m rot x y z in
  same 16 (prod 4 r (transpose 4 r)) ident /\ same 3 (vectorMultiply r (vec x y z)) (vec x y z).
Proof.
  intros H r. pose proof (loadRotate_rotation m rot x y z : same 16 r _) as Hr. pose proof (unit_axis_spec x y z H) as Hu. destruct (unit_axis x y z) as [[x' y'] z']. destruct Hu as (Hu & l & -> & -> & ->).
  pose proof (cos2_sin2 (rot * (PI / 180))) as Hc. pose proof (prod_proper 4) as HP. change (4 * 4)%nat with 16%nat in HP. split.
  - rewrite Hr. by apply rotation_orthogonal.
  - intros p Hp. rewrite (vectorMultiply_proper _ _ Hr _ _ eq_refl p) by lia. by apply rotation_axis.
Qed.

(** [rotate], [scale] and [translate] multiply from the right. *)
Lemma transform_product st this t tmp : this <> t -> tmp <> this -> forall f : mat,
  same 16 (multiply 4 (put st t f) this t tmp this) (prod 4 (st this) f).
Proof.
  intros H1 H2 f. pose proof (multiply_product 4 (put st t f) this t tmp ltac:(lia) H2) as H. unfold put at 2 3 in H. rewrite Nat.eqb_refl, (proj2 (Nat.eqb_neq this t) H1) in H. exact H.
Qed.

Lemma rotate_product st this t tmp rot x y z : this <> t -> tmp <> this -> same 16 (rotate st this t tmp rot x y z this) (prod 4 (st this) (loadRotate (st t) rot x y z)).
Proof. intros H1 H2. by apply transform_product. Qed.

Lemma scale_product st this t tmp x y z : this <> t -> tmp <> this -> same 16 (scale st this t tmp x y z this) (prod 4 (st this) (loadScale (st t) x y z)).
Proof. intros H1 H2. by apply transform_product. Qed.

Lemma translate_product st this t tmp x y z : this <> t -> tmp <> this -> same 16 (translate st this t tmp x y z this) (prod 4 (st this) (loadTranslate (st t) x y z)).
Proof. intros H1 H2. by apply transform_product. Qed.

(** ** Quaternions *)

Definition unitq (q : @rs_quaternion R) : Prop := rsQuaternionDot q q = 1.

(** The Hamilton product. *)
Definition hamilton (q r : @rs_quaternion R) : rs_quaternion :=
  mkQ (qw q * qw r - qx q * qx r - qy q * qy r - qz q * qz r) (qw q * qx r + qx q * qw r + qy q * qz r - qz q * qy r)
      (qw q * qy r + qy q * qw r + qz q * qx r - qx q * qz r) (qw q * qz r + qz q * qw r + qx q * qy r - qy q * qx r).

(** The matrix of any quaternion, unit or not. *)
Definition qmatrix (q : @rs_quaternion R) : mat :=
  let w := qw q in let x := qx q in let y := qy q in let z := qz q in
  upds (fun _ => 0)
    [(0%nat, w * w + x * x - y * y - z * z); (1%nat, 2 * (x * y + z * w)); (2%nat, 2 * (x * z - y * w)); (4%nat, 2 * (x * y - z * w)); (5%nat, w * w - x * x + y * y - z * z);
     (6%nat, 2 * (y * z + x * w)); (8%nat, 2 * (x * z + y * w)); (9%nat, 2 * (y * z - x * w)); (10%nat, w * w - x * x - y * y + z * z); (15%nat, rsQuaternionDot q q * rsQuaternionDot q q)].

Lemma qmatrix_hamilton q r : same 16 (qmatrix (hamilton q r)) (prod 4 (qmatrix q) (qmatrix r)).
Proof. entries16 ltac:(entry_cbv; ring). Qed.

Lemma hamilton_dot q r : rsQuaternionDot (hamilton q r) (hamilton q r) = rsQuaternionDot q q * rsQuaternionDot r r.
Proof. entry_cbv. ring. Qed.

Lemma GetMatrixUnit_qmatrix m q : unitq q -> same 16 (rsQuaternionGetMatrixUnit m q) (qmatrix q).
Proof.
  intros H. unfold unitq in H. destruct q as [w x y z]. unfold rsQuaternionDot in H. cbn in H.
  entries16 ltac:(entry_cbv; first [ring | nsatz]).
Qed.

Lemma Normalize_unit q : rsQuaternionDot q q <> 0 -> unitq (rsQuaternionNormalize q).
Proof.
  intros H. unfold unitq, rsQuaternionNormalize. cbv zeta. change (sne ?a one) with (if Req_EM_T a 1 then false else true). destruct (Req_EM_T _ _) as [|_]; [done|].
  assert (H0 : 0 < rsQuaternionDot q q) by (revert H; destruct q as [w x y z]; entry_cbv; intros H; nra).
  assert (Hs : sqrt (rsQuaternionDot q q) * sqrt (rsQuaternionDot q q) = rsQuaternionDot q q) by (apply sqrt_sqrt; lra). assert (Hn : sqrt (rsQuaternionDot q q) <> 0) by (intros E; rewrite E in Hs; lra).
  transitivity (rsQuaternionDot q q / (sqrt (rsQuaternionDot q q) * sqrt (rsQuaternionDot q q))); [|rewrite Hs; field; lra].
  change (ssqrt (rsQuaternionDot q q)) with (sqrt (rsQuaternionDot q q)). generalize dependent (sqrt (rsQuaternionDot q q)). intros l _ Hl. destruct q as [w x y z]. entry_cbv. field. done.
Qed.

Lemma Normalize_id q : unitq q -> rsQuaternionNormalize q = q.
Proof. intros H. unfold rsQuaternionNormalize. cbv zeta. rewrite H. change (sne 1 one) with (if Req_EM_T 1 1 then false else true). by destruct (Req_EM_T 1 1). Qed.

Lemma Multiply_hamilton q r : unitq q -> unitq r -> rsQuaternionMultiply q r = hamilton q r /\ unitq (hamilton q r).
Proof. intros Hq Hr. assert (H : unitq (hamilton q r)) by (unfold unitq; rewrite hamilton_dot, Hq, Hr; ring). split; [|done]. exact (Normalize_id _ H). Qed.

(** The product of unit quaternions is a unit quaternion and its matrix is the product of theirs. *)
Theorem quaternion_product m m1 m2 q r : unitq q -> unitq r ->
  unitq (rsQuaternionMultiply q r) /\
  same 16 (rsQuaternionGetMatrixUnit m (rsQuaternionMultiply q r)) (prod 4 (rsQuaternionGetMatrixUnit m1 q) (rsQuaternionGetMatrixUnit m2 r)).
Proof.
  intros Hq Hr. destruct (Multiply_hamilton q r Hq Hr) as [-> Hu]. split; [done|]. pose proof (prod_proper 4) as HP. change (4 * 4)%nat with 16%nat in HP.
  rewrite !GetMatrixUnit_qmatrix by done. apply qmatrix_hamilton.
Qed.

(** The conjugate of a unit quaternion is its inverse. *)
Theorem quaternion_conjugate q : unitq q -> rsQuaternionMultiply q (rsQuaternionConjugate q) = mkQ 1 0 0 0.
Proof.
  intros Hq. assert (Hc : unitq (rsQuaternionConjugate q)) by (revert Hq; unfold unitq; destruct q; entry_cbv; lra). destruct (Multiply_hamilton _ _ Hq Hc) as [-> _].
  revert Hq. destruct q as [w x y z]. unfold unitq. entry_cbv. intros Hq. f_equal; nra.
Qed.

(** [rsQuaternionLoadRotate] and [loadRotate] give the same rotation. *)
Theorem quaternion_rotate m m' rot x y z : x * x + y * y + z * z <> 0 ->
  unitq (rsQuaternionLoadRotate rot x y z) /\ same 16 (rsQuaternionGetMatrixUnit m (rsQuaternionLoadRotate rot x y z)) (loadRotate m' rot x y z).
Proof.
  intros H. rewrite loadRotate_rotation. pose proof (unit_axis_spec x y z H) as Hu.
  assert (E : rsQuaternionLoadRotate rot x y z = let '(x, y, z) := unit_axis x y z in rsQuaternionLoadRotateUnit rot x y z).
  { unfold rsQuaternionLoadRotate, unit_axis. cbv zeta. change (sne ?a one) with (if Req_EM_T a 1 then false else true). change (_ + _ + _)%F with (x * x + y * y + z * z). by destruct (Req_EM_T _ _). }
  rewrite E. destruct (unit_axis x y z) as [[x' y'] z']. destruct Hu as [Hu _]. unfold rsQuaternionLoadRotateUnit. cbv zeta.
  set (a := (rot * (sdeg * (one / two)))%F). change (scos a) with (cos a). change (ssin a) with (sin a). pose proof (cos2_sin2 a) as Ha.
  replace (rot * (PI / 180)) with (2 * a) by (unfold a; cbn; lra). rewrite cos_2a, sin_2a. generalize dependent (cos a). intros c Ha. generalize dependent (sin a). intros s Ha.
  assert (Hq : unitq (mkQ c (x' * s)%F (y' * s)%F (z' * s)%F)) by (unfold unitq; entry_cbv; nsatz). split; [done|].
  rewrite GetMatrixUnit_qmatrix by done. entries16 ltac:(entry_cbv; first [ring | nsatz]).
Qed.

Lemma slt_R a b : slt a b = if Rlt_dec a b then true else false.
Proof. done. Qed.

Lemma sle_R a b : sle a b = if Rle_dec a b then true else false.
Proof. done. Qed.

Lemma slerp_weights A B : sin A * sin A + sin B * sin B + 2 * (sin A * sin B) * cos (A + B) = sin (A + B) * sin (A + B).
Proof.
  rewrite sin_plus, cos_plus. pose proof (cos2_sin2 A). pose proof (cos2_sin2 B). generalize dependent (cos A). generalize dependent (sin A). generalize dependent (cos B). generalize dependent (sin B). intros. nsatz.
Qed.

Definition blend (q r : @rs_quaternion R) (s i : R) : rs_quaternion := mkQ (qw q * s + qw r * i) (qx q * s + qx r * i) (qy q * s + qy r * i) (qz q * s + qz r * i).

Lemma blend_dot q r s i : rsQuaternionDot (blend q r s i) (blend q r s i) = rsQuaternionDot q q * (s * s) + rsQuaternionDot r r * (i * i) + 2 * (s * i) * rsQuaternionDot q r.
Proof. entry_cbv. ring. Qed.

(** The first operand, turned to the side of the second. *)
Definition toward (q r : @rs_quaternion R) : rs_quaternion := if Rlt_dec (rsQuaternionDot q r) 0 then rsQuaternionScale q (-1) else q.

Lemma toward_spec q r : 0 <= rsQuaternionDot (toward q r) r /\ rsQuaternionDot (toward q r) (toward q r) = rsQuaternionDot q q.
Proof.
  unfold toward. destruct (Rlt_dec _ _) as [H|H]; [|split; [lra|done]]. split; [|entry_cbv; ring].
  replace (rsQuaternionDot (rsQuaternionScale q (-1)) r) with (- rsQuaternionDot q r) by (entry_cbv; ring). lra.
Qed.

(** Strictly inside: the branch for opposite quaternions is never taken, since the first operand has
    been turned to the side of the second. *)
Lemma slerp_inside q0 q1 t : 0 < t < 1 ->
  let q := toward q0 q1 in let a := rsQuaternionDot q q1 in
  rsQuaternionSlerp q0 q1 t =
    if Rle_dec (5 / 100) (1 - a) then blend q q1 (sin (acos a * (1 - t)) * (1 / sin (acos a))) (sin (acos a * t) * (1 / sin (acos a))) else blend q q1 (1 - t) t.
Proof.
  intros Ht q a. unfold rsQuaternionSlerp. cbv zeta. rewrite !sle_R. destruct (Rle_dec t zero) as [H|_]; [exfalso; change (@zero R _) with 0 in H; change (@one R _) with 1 in H; lra|]. destruct (Rle_dec one t) as [H|_]; [exfalso; change (@zero R _) with 0 in H; change (@one R _) with 1 in H; lra|].
  rewrite slt_R. assert (E : (if (if Rlt_dec (rsQuaternionDot q0 q1) zero then true else false) then (rsQuaternionScale q0 mone, (rsQuaternionDot q0 q1 * mone)%F) else (q0, rsQuaternionDot q0 q1)) = (q, a)).
  { subst a q. unfold toward. change zero with 0. destruct (Rlt_dec _ _); [|done]. f_equal. entry_cbv. ring. }
  rewrite E. clear E. pose proof (proj1 (toward_spec q0 q1) : 0 <= a) as Ha. rewrite slt_R. destruct (Rlt_dec s005 _) as [_|H]; [|exfalso; apply H; change s005 with (5 / 100); change (a + one)%F with (a + 1); lra].
  rewrite sle_R. change (1 - a) with (one - a)%F. change (5 / 100) with s005. by destruct (Rle_dec _ _).
Qed.

(** Interpolation between unit quaternions: the ends are exact, and between them, where the two are
    not within the tolerance of each other, the result is a unit quaternion. *)
Theorem quaternion_slerp q0 q1 t : unitq q0 -> unitq q1 ->
  (t <= 0 -> rsQuaternionSlerp q0 q1 t = q0) /\ (1 <= t -> rsQuaternionSlerp q0 q1 t = q1) /\
  (0 < t < 1 -> 5 / 100 <= 1 - Rabs (rsQuaternionDot q0 q1) -> unitq (rsQuaternionSlerp q0 q1 t)).
Proof.
  intros H0 H1. split; [|split].
  - intros Ht. unfold rsQuaternionSlerp. rewrite sle_R. change zero with 0. by destruct (Rle_dec t 0).
  - intros Ht. unfold rsQuaternionSlerp. rewrite !sle_R. change zero with 0. change one with 1. destruct (Rle_dec t 0); [lra|]. by destruct (Rle_dec 1 t).
  - intros Ht Hd. rewrite slerp_inside by done. cbv zeta. destruct (toward_spec q0 q1) as [Ha Hu]. set (q := toward q0 q1) in *.
    assert (Habs : Rabs (rsQuaternionDot q0 q1) = rsQuaternionDot q q1).
    { unfold q, toward. destruct (Rlt_dec _ _); [rewrite Rabs_left by done; entry_cbv; ring|apply Rabs_pos_eq; lra]. }
    rewrite Habs in Hd. destruct (Rle_dec _ _) as [_|?]; [|done]. unfold unitq in *. rewrite blend_dot, Hu, H0, H1. set (a := rsQuaternionDot q q1) in *. clearbody a q.
    pose proof (cos_acos a ltac:(lra)) as Hc. pose proof (cos2_sin2 (acos a)) as Hs. rewrite Hc in Hs. pose proof (slerp_weights (acos a * (1 - t)) (acos a * t)) as Hw.
    replace (acos a * (1 - t) + acos a * t) with (acos a) in Hw by ring. rewrite Hc in Hw. generalize dependent (sin (acos a * (1 - t))). generalize dependent (sin (acos a * t)). intros u v Hw.
    assert (Hn : sin (acos a) <> 0) by (intros E; rewrite E in Hs; nra). replace (1 * _ + _ + _) with ((v * v + u * u + 2 * (v * u) * a) / (sin (acos a) * sin (acos a))) by (field; done). rewrite Hw. field. done.
Qed.

(** ** The view frustum *)

(** The clip volume of a projection: the points whose image has every coordinate between minus and
    plus its divisor. *)
Definition clip (m : mat) (x y z : R) : Prop :=
  let v := vectorMultiply m (vec x y z) in Forall (fun k => - v 3%nat <= v k <= v 3%nat) [0; 1; 2]%nat.

Definition side (p : @float4 R) (x y z : R) : R := vx p * x + vy p * y + vz p * z + vw p.

Lemma clip_planes m x y z : clip m x y z <-> Forall (fun p => 0 <= side p x y z) (planes m).
Proof.
  unfold clip, planes. cbv zeta. rewrite !Forall_cons, !Forall_nil. unfold side. cbn [vx vy vz vw].
  assert (H : forall k, (k < 4)%nat -> vectorMultiply m (vec x y z) k = m k * x + m (4 + k)%nat * y + m (8 + k)%nat * z + m (12 + k)%nat) by (intros k Hk; do 4 (destruct k as [|k]; [entry_cbv; ring|]); lia).
  rewrite !H by lia. cbn [Nat.add]. change (@sadd R _) with Rplus. change (@ssub R _) with Rminus. split; intros Hc; destruct_and! Hc; repeat split; lra.
Qed.

(** Scaling a plane to a unit normal keeps the side of every point. *)
Lemma scaled_plane p : dot3 p p <> 0 ->
  let n := div4 p (length3 p) in dot3 n n = 1 /\ forall x y z, 0 <= side n x y z <-> 0 <= side p x y z.
Proof.
  intros H n. assert (H0 : 0 < dot3 p p) by (revert H; destruct p; entry_cbv; nra). assert (Hl : 0 < length3 p) by (apply sqrt_lt_R0; done).
  assert (Hs : length3 p * length3 p = dot3 p p) by (apply sqrt_sqrt; lra). split.
  - transitivity (dot3 p p / (length3 p * length3 p)); [|rewrite Hs; field; lra]. subst n. generalize dependent (length3 p). intros l Hl _. destruct p. entry_cbv. field. lra.
  - intros x y z. replace (side n x y z) with (side p x y z * / length3 p). { pose proof (Rinv_0_lt_compat _ Hl). split; intros ?; nra. }
    subst n. generalize dependent (length3 p). intros l Hl _. destruct p. entry_cbv. field. lra.
Qed.

(** A point of a sphere is at most the radius further along a unit normal than the centre. *)
Lemma cauchy_schwarz n (s : @float4 R) x y z : dot3 n n = 1 -> 0 <= vw s ->
  (x - vx s) * (x - vx s) + (y - vy s) * (y - vy s) + (z - vz s) * (z - vz s) <= vw s * vw s ->
  side n x y z <= dot3 n s + vw n + vw s.
Proof.
  destruct n as [a b c d], s as [u v w r]. unfold side, dot3. cbn [vx vy vz vw]. change (@sadd R _) with Rplus. change (@smul R _) with Rmult. intros Hn Hr Hd.
  set (p := x - u) in *. set (q := y - v) in *. set (t := z - w) in *. replace x with (u + p) by (unfold p; ring). replace y with (v + q) by (unfold q; ring). replace z with (w + t) by (unfold t; ring). clearbody p q t.
  assert (H : (a * p + b * q + c * t) * (a * p + b * q + c * t) <= r * r).
  { transitivity ((a * a + b * b + c * c) * (p * p + q * q + t * t)); [|rewrite Hn; lra]. assert (0 <= (a * q - b * p) * (a * q - b * p) + (a * t - c * p) * (a * t - c * p) + (b * t - c * q) * (b * t - c * q)) by (pose proof (Rle_0_sqr (a * q - b * p)); pose proof (Rle_0_sqr (a * t - c * p)); pose proof (Rle_0_sqr (b * t - c * q)); unfold Rsqr in *; lra). lra. }
  assert (a * p + b * q + c * t <= r) by (apply Rnot_lt_le; intros Hlt; nra). lra.
Qed.

(** Culling is safe: a sphere that has a point in the clip volume is not culled. *)
Lemma sphere_kept m s x y z : Forall (fun p => dot3 p p <> 0) (planes m) -> 0 <= vw s ->
  (x - vx s) * (x - vx s) + (y - vy s) * (y - vy s) + (z - vz s) * (z - vz s) <= vw s * vw s ->
  clip m x y z -> rsIsSphereInFrustum s (rsExtractFrustumPlanes m) = true.
Proof.
  intros Hp Hr Hd Hc%clip_planes. unfold rsIsSphereInFrustum, rsExtractFrustumPlanes. apply forallb_forall. intros n Hn%list_elem_of_In. apply list_elem_of_fmap in Hn as (p & -> & Hi).
  rewrite Forall_forall in Hp, Hc. destruct (scaled_plane p (Hp p Hi)) as [Hu Hside]. pose proof (cauchy_schwarz _ s x y z Hu Hr Hd) as Hle. apply Hc, Hside in Hi. rewrite slt_R. destruct (Rlt_dec _ _) as [Hlt|]; [|done]. exfalso. revert Hlt Hle. change (- vw s)%F with (- vw s). change (@sadd R _) with Rplus. lra.
Qed.

(** For a point the test is exact. *)
Lemma point_culling m x y z : Forall (fun p => dot3 p p <> 0) (planes m) -> rsIsSphereInFrustum (mk4 x y z 0) (rsExtractFrustumPlanes m) = true <-> clip m x y z.
Proof.
  intros Hp. split; [|intros Hc; apply (sphere_kept m _ x y z); cbn [vx vy vz vw]; [done|lra| |done]; lra].
  intros H. apply clip_planes, Forall_forall. intros p Hi. unfold rsIsSphereInFrustum in H. rewrite forallb_forall in H. rewrite Forall_forall in Hp. apply (proj2 (scaled_plane p (Hp p Hi))). specialize (H (div4 p (length3 p))).
  rewrite slt_R in H. destruct (Rlt_dec _ _) as [|Hn]; [discriminate H; apply list_elem_of_In, list_elem_of_fmap; eauto|]. revert Hn. generalize (div4 p (length3 p)) as n. intros n. destruct n. entry_cbv. lra.
Qed.

(** The pyramid that [loadFrustum] is given: its eye at the origin, looking along [-z]. *)
Definition in_pyramid (left right bottom top near far x y z : R) : Prop :=
  near <= - z <= far /\ left * - z <= near * x <= right * - z /\ bottom * - z <= near * y <= top * - z.

Definition in_box (left right bottom top near far x y z : R) : Prop := near <= - z <= far /\ left <= x <= right /\ bottom <= y <= top.

Lemma scaled_le a b c : 0 < c -> (a * / c <= b * / c <-> a <= b).
Proof. intros Hc. pose proof (Rinv_0_lt_compat _ Hc). split; intros H'; [|nra]. apply (Rmult_le_reg_r (/ c)); lra. Qed.

Lemma between_scaled a b c d : 0 < c -> a = - b * / c -> d = b * / c -> forall e v, v = e * / c -> (a <= v <= d <-> - b <= e <= b).
Proof. intros Hc -> -> e v ->. by rewrite !scaled_le. Qed.

Lemma frustum_clip m left right bottom top near far x y z : 0 < near -> near < far -> left < right -> bottom < top ->
  clip (loadFrustum m left right bottom top near far) x y z <-> in_pyramid left right bottom top near far x y z.
Proof.
  intros Hn Hf Hl Hb. unfold clip. cbv zeta. rewrite !Forall_cons, !Forall_nil. set (v := vectorMultiply _ _).
  assert (H3 : v 3%nat = - z) by (unfold v; entry_cbv; ring). rewrite H3.
  rewrite (between_scaled (- - z) (- z * (right - left)) (right - left) (- z) ltac:(lra) ltac:(field; lra) ltac:(field; lra) (2 * near * x + (right + left) * z)) by (unfold v; entry_cbv; field; lra).
  rewrite (between_scaled (- - z) (- z * (top - bottom)) (top - bottom) (- z) ltac:(lra) ltac:(field; lra) ltac:(field; lra) (2 * near * y + (top + bottom) * z)) by (unfold v; entry_cbv; field; lra).
  rewrite (between_scaled (- - z) (- z * (far - near)) (far - near) (- z) ltac:(lra) ltac:(field; lra) ltac:(field; lra) (- (far + near) * z - 2 * far * near)) by (unfold v; entry_cbv; field; lra).
  unfold in_pyramid. split; intros Hc; destruct_and! Hc; repeat split; nra.
Qed.

Lemma ortho_clip m left right bottom top near far x y z : near < far -> left < right -> bottom < top ->
  clip (loadOrtho m left right bottom top near far) x y z <-> in_box left right bottom top near far x y z.
Proof.
  intros Hf Hl Hb. unfold clip. cbv zeta. rewrite !Forall_cons, !Forall_nil. set (v := vectorMultiply _ _).
  assert (H3 : v 3%nat = 1) by (unfold v; entry_cbv; ring). rewrite H3.
  rewrite (between_scaled (- (1)) (right - left) (right - left) 1 ltac:(lra) ltac:(field; lra) ltac:(field; lra) (2 * x - (right + left))) by (unfold v; entry_cbv; field; lra).
  rewrite (between_scaled (- (1)) (top - bottom) (top - bottom) 1 ltac:(lra) ltac:(field; lra) ltac:(field; lra) (2 * y - (top + bottom))) by (unfold v; entry_cbv; field; lra).
  rewrite (between_scaled (- (1)) (far - near) (far - near) 1 ltac:(lra) ltac:(field; lra) ltac:(field; lra) (- 2 * z - (far + near))) by (unfold v; entry_cbv; field; lra).
  unfold in_box. split; intros Hc; destruct_and! Hc; repeat split; lra.
Qed.

#[export] Instance planes_proper : Proper (same 16 ==> eq) (@planes R _).
Proof. intros a b H. unfold planes. by rewrite !H by lia. Qed.

(** The planes of a projection after a change of coordinates. *)
Definition pull (v : mat) (p : @float4 R) : float4 :=
  let at4 k := vx p * v k + vy p * v (k + 1)%nat + vz p * v (k + 2)%nat + vw p * v (k + 3)%nat in mk4 (at4 0%nat) (at4 4%nat) (at4 8%nat) (at4 12%nat).

Lemma planes_prod a v : planes (prod 4 a v) = pull v <$> planes a.
Proof. unfold planes. cbv zeta. cbn [fmap list_fmap]. repeat (apply f_equal2; [unfold pull; cbv zeta; cbn [vx vy vz vw]; apply f_equal4; entry_cbv; ring|]). done. Qed.

Definition affine (v : mat) : Prop := v 3%nat = 0 /\ v 7%nat = 0 /\ v 11%nat = 0 /\ v 15%nat = 1.

Lemma dot3_zero (p : @float4 R) : dot3 p p = 0 <-> vx p = 0 /\ vy p = 0 /\ vz p = 0.
Proof. destruct p as [a b c d]. unfold dot3. cbn [vx vy vz]. change (@sadd R _) with Rplus. change (@smul R _) with Rmult. split; [intros H; repeat split; nra|]. intros (-> & -> & ->). ring. Qed.

(** An invertible change of coordinates keeps the normals from vanishing. *)
Lemma pull_normal v w p : affine v -> same 16 (prod 4 v w) ident -> dot3 p p <> 0 -> dot3 (pull v p) (pull v p) <> 0.
Proof.
  intros (A1 & A2 & A3 & A4) H Hp. rewrite dot3_zero in Hp |- *. intros (H0 & H1 & H2). apply Hp. clear Hp. destruct p as [a b c d]. unfold pull in H0, H1, H2. cbv zeta in H0, H1, H2. cbn [vx vy vz vw Nat.add] in *.
  assert (E : forall i, (i < 3)%nat -> a * prod 4 v w (4 * i)%nat + b * prod 4 v w (4 * i + 1)%nat + c * prod 4 v w (4 * i + 2)%nat + d * prod 4 v w (4 * i + 3)%nat = 0).
  { intros i Hi. assert (Hw : w (4 * i + 3)%nat = 0). { transitivity (prod 4 v w (4 * i + 3)%nat); [|rewrite H by lia; destruct i as [|[|[|]]]; [done..|lia]]. destruct i as [|[|[|]]]; [..|lia]; entry_cbv; rewrite A1, A2, A3, A4; ring. }
    transitivity (w (4 * i)%nat * (a * v 0%nat + b * v 1%nat + c * v 2%nat + d * v 3%nat) + w (4 * i + 1)%nat * (a * v 4%nat + b * v 5%nat + c * v 6%nat + d * v 7%nat) + w (4 * i + 2)%nat * (a * v 8%nat + b * v 9%nat + c * v 10%nat + d * v 11%nat) + w (4 * i + 3)%nat * (a * v 12%nat + b * v 13%nat + c * v 14%nat + d * v 15%nat)).
    - destruct i as [|[|[|]]]; [..|lia]; entry_cbv; ring.
    - rewrite H0, H1, H2, Hw. ring. }
  pose proof (E 0%nat ltac:(lia)) as E0. pose proof (E 1%nat ltac:(lia)) as E1. pose proof (E 2%nat ltac:(lia)) as E2. rewrite !H in E0, E1, E2 by lia. revert E0 E1 E2. entry_cbv. lra.
Qed.

Lemma frustum_normals m left right bottom top near far : 0 < near -> near < far -> left < right -> bottom < top ->
  Forall (fun p => dot3 p p <> 0) (planes (loadFrustum m left right bottom top near far)).
Proof.
  intros Hn Hf Hl Hb. unfold planes. cbv zeta. assert (Hp : forall a b : R, 0 < a -> 0 < b -> a / b <> 0) by (intros a b Ha Hb'; apply Rgt_not_eq, Rdiv_lt_0_compat; done).
  repeat constructor; rewrite dot3_zero; cbn [vx vy vz]; intros (H1 & H2 & H3).
  - apply (Hp (2 * near) (right - left)); [lra..|]. rewrite <- H1. entry_cbv. field. lra.
  - apply (Hp (2 * near) (right - left)); [lra..|]. transitivity (- 0); [rewrite <- H1; entry_cbv; field; lra|ring].
  - apply (Hp (2 * near) (top - bottom)); [lra..|]. transitivity (- 0); [rewrite <- H2; entry_cbv; field; lra|ring].
  - apply (Hp (2 * near) (top - bottom)); [lra..|]. rewrite <- H2. entry_cbv. field. lra.
  - apply (Hp (2 * far) (far - near)); [lra..|]. transitivity (- 0); [rewrite <- H3; entry_cbv; field; lra|ring].
  - apply (Hp (2 * near) (far - near)); [lra..|]. rewrite <- H3. entry_cbv. field. lra.
Qed.

Lemma clip_prod a v x y z : affine v -> let p := vectorMultiply v (vec x y z) in clip (prod 4 a v) x y z <-> clip a (p 0%nat) (p 1%nat) (p 2%nat).
Proof.
  intros (A1 & A2 & A3 & A4) p. unfold clip. cbv zeta. assert (E : forall k, (k < 4)%nat -> vectorMultiply (prod 4 a v) (vec x y z) k = vectorMultiply a (vec (p 0%nat) (p 1%nat) (p 2%nat)) k).
  { intros k Hk. rewrite (vectorMultiply_prod a v (vec x y z) A1 A2 A3 A4 k Hk). fold p. do 4 (destruct k as [|k]; [reflexivity|]). lia. }
  rewrite !Forall_cons, !Forall_nil. by rewrite !E by lia.
Qed.

(** C30: Culling with the planes of a projection and a view that [loadMultiply] combined.  A point passes
    exactly when the view takes it into the pyramid given to [loadFrustum]; and a sphere with such a
    point is never culled. *)
Theorem frustum_culling st dst proj view m left right bottom top near far :
  0 < near -> near < far -> left < right -> bottom < top -> dst <> proj ->
  st proj = loadFrustum m left right bottom top near far -> affine (st view) -> (inverse (st view)).1 = true ->
  let planes := rsExtractFrustumPlanes (loadMultiply 4 st dst proj view dst) in
  let seen x y z := let p := vectorMultiply (st view) (vec x y z) in in_pyramid left right bottom top near far (p 0%nat) (p 1%nat) (p 2%nat) in
  (forall x y z, rsIsSphereInFrustum (mk4 x y z 0) planes = true <-> seen x y z) /\
  forall s x y z, 0 <= vw s -> (x - vx s) * (x - vx s) + (y - vy s) * (y - vy s) + (z - vz s) * (z - vz s) <= vw s * vw s ->
    seen x y z -> rsIsSphereInFrustum s planes = true.
Proof.
  intros Hn Hf Hl Hb Hd Hp Ha Hi pl seen. assert (E : pl = rsExtractFrustumPlanes (prod 4 (st proj) (st view))).
  { unfold pl, rsExtractFrustumPlanes. by rewrite (proj1 (product_stored 4 st dst proj view ltac:(lia) Hd) : same 16 _ _). }
  rewrite E. clear E pl. assert (Hs : forall x y z, seen x y z <-> clip (prod 4 (st proj) (st view)) x y z) by (intros x y z; rewrite clip_prod, Hp, frustum_clip by done; done).
  assert (Hz : Forall (fun p => dot3 p p <> 0) (planes (prod 4 (st proj) (st view)))).
  { rewrite planes_prod, Forall_fmap, Hp. eapply Forall_impl; [by apply frustum_normals|]. intros p Hz. destruct (inverse_true _ Hi) as [Hw _]. by apply (pull_normal _ _ _ Ha Hw). }
  split; [intros x y z; rewrite Hs; by apply point_culling|]. intros s x y z Hr Hdist Hseen. apply (sphere_kept _ s x y z); [done..|by apply Hs].
Qed.

Definition demo_scene : mats := put (put (fun _ _ => 0) 0%nat (loadFrustum (fun _ => 0) (-1) 1 (-1) 1 1 3)) 1%nat ident.

Lemma inverse_ident : (inverse ident).1 = true.
Proof. pose proof (inverse_cases ident) as H. destruct (Rlt_dec _ _) as [Hlt|_]; [|by destruct H]. exfalso. replace (det ident) with 1 in Hlt by (entry_cbv; ring). rewrite Rabs_R1 in Hlt. lra. Qed.

Lemma frustum_culling_witness : rsIsSphereInFrustum (mk4 0 0 (-2) 0) (rsExtractFrustumPlanes (loadMultiply 4 demo_scene 2%nat 0%nat 1%nat 2%nat)) = true.
Proof.
  apply (proj1 (frustum_culling demo_scene 2%nat 0%nat 1%nat (fun _ => 0) (-1) 1 (-1) 1 1 3 ltac:(lra) ltac:(lra) ltac:(lra) ltac:(lra) ltac:(lia) eq_refl ltac:(repeat split) inverse_ident)).
  cbv zeta. unfold in_pyramid. entry_cbv. lra.
Defined.

Lemma quaternion_rotate_witness : unitq (rsQuaternionLoadRotate 90 0 0 2).
Proof. apply (quaternion_rotate ident ident 90 0 0 2). lra. Defined.

Lemma quaternion_product_witness : unitq (rsQuaternionMultiply (mkQ 0 1 0 0) (mkQ 0 0 1 0)).
Proof. apply (quaternion_product ident ident ident); unfold unitq; entry_cbv; ring. Defined.

Lemma loadRotate_orthogonal_witness : same 3 (vectorMultiply (loadRotate ident 90 0 0 2) (vec 0 0 2)) (vec 0 0 2).
Proof. apply (loadRotate_orthogonal ident 90 0 0 2). lra. Defined.

Lemma loadMultiply_product_witness : same 4 (loadMultiply 2 (fun _ _ => 1) 1%nat 0%nat 1%nat 1%nat) (prod 2 (fun _ => 1) (fun _ => 1)).
Proof. apply (loadMultiply_product 2 (fun _ _ => 1) 1%nat 0%nat 1%nat); lia. Defined.

End Matrix.
