(* ===== verification/Bits.v ===== *)
(** * Bits: equations between bit expressions

    Expressions over the bitwise operations are reified, each of their low 32 bits becomes a
    propositional formula over bits of the variables, and the equality of two expressions is decided
    bit by bit by computation. *)

From S2P Require Import Prelude.

Module Bits.

Lemma testbit_u32 z n : 0 <= n -> Z.testbit (u32 z) n = if n <? 32 then Z.testbit z n else false.
Proof. intros Hn. unfold u32, wrap. destruct (Z.ltb_spec n 32); [apply Z.mod_pow2_bits_low; lia|apply Z.mod_pow2_bits_high; lia]. Qed.

Lemma u32_of_s32 z : u32 (s32 z) = u32 z.
Proof. unfold u32, s32, wrap, swrap. rewrite Zminus_mod_idemp_l. f_equal. lia. Qed.

Lemma s32_u32 z : s32 (u32 z) = s32 z.
Proof. unfold u32, s32, wrap, swrap. rewrite Zplus_mod_idemp_l. done. Qed.

Lemma s32_cases u : 0 <= u < 4294967296 -> s32 u = if u <? 2147483648 then u else u - 4294967296.
Proof.
  intros Hu. unfold s32, swrap. change (2 ^ (32 - 1)) with 2147483648. change (2 ^ 32) with 4294967296. destruct (Z.ltb_spec u 2147483648); [rewrite Z.mod_small; lia|].
  rewrite <- (Z.mod_unique (u + 2147483648) 4294967296 1 (u - 2147483648)); lia.
Qed.

(** [s32] as the low bits with the sign on top. *)
Lemma testbit_s32 z n : 0 <= n -> Z.testbit (s32 z) n = if n <? 32 then Z.testbit z n else Z.testbit z 31.
Proof.
  intros Hn. destruct (Z.ltb_spec n 32).
  - pose proof (testbit_u32 (s32 z) n Hn) as H1. pose proof (testbit_u32 z n Hn) as H2. rewrite u32_of_s32 in H1. destruct (Z.ltb_spec n 32); [congruence|lia].
  - pose proof (testbit_u32 z 31 ltac:(lia)) as H31. change (31 <? 32) with true in H31. cbv iota in H31. rewrite <- H31. rewrite <- (s32_u32 z). pose proof (u32_range z) as Hr. set (u := u32 z) in *. clearbody u. rewrite s32_cases by done. rewrite (Z.testbit_eqb u 31) by lia. change (2 ^ 31) with 2147483648.
    destruct (Z.ltb_spec u 2147483648).
    + rewrite (Z.div_small u) by lia. rewrite <- (Z.mod_small u (2 ^ 32)) by lia. apply Z.mod_pow2_bits_high. lia.
    + rewrite <- (Z.div_unique u 2147483648 1 (u - 2147483648)) by lia. change (1 mod 2 =? 1) with true. replace (u - 4294967296) with (Z.lnot (2 ^ 32 - 1 - u)) by (unfold Z.lnot; lia). rewrite Z.lnot_spec by lia.
      rewrite <- (Z.mod_small (2 ^ 32 - 1 - u) (2 ^ 32)) by lia. rewrite Z.mod_pow2_bits_high by lia. done.
Qed.

(** ** Formulas *)

(** A bit of a variable, a constant, or a connective. *)
Inductive bf :=
| FBit (i : nat) (n : Z)
| FConst (b : bool)
| FAnd (f g : bf)
| FXor (f g : bf).

(** Constants are folded. *)
Definition fAnd (f g : bf) : bf :=
  match f, g with
  | FConst true, h | h, FConst true => h
  | FConst false, _ | _, FConst false => FConst false
  | _, _ => FAnd f g
  end.
Definition fXor (f g : bf) : bf := match f, g with FConst a, FConst b => FConst (xorb a b) | FConst false, h | h, FConst false => h | _, _ => FXor f g end.
Definition fNot (f : bf) : bf := fXor (FConst true) f.
Definition fOr (f g : bf) : bf := fNot (fAnd (fNot f) (fNot g)).

Fixpoint sem (rho : nat -> Z -> bool) (f : bf) : bool :=
  match f with
  | FBit i n => rho i n
  | FConst b => b
  | FAnd f g => sem rho f && sem rho g
  | FXor f g => xorb (sem rho f) (sem rho g)
  end.

Lemma sem_fAnd rho f g : sem rho (fAnd f g) = sem rho f && sem rho g.
Proof. destruct f as [| [|] | |], g as [| [|] | |]; cbn; rewrite ?andb_true_r, ?andb_false_r; done. Qed.
Lemma sem_fXor rho f g : sem rho (fXor f g) = xorb (sem rho f) (sem rho g).
Proof. destruct f as [| [|] | |], g as [| [|] | |]; cbn; rewrite ?xorb_false_r, ?xorb_true_r, ?xorb_false_l; done. Qed.
Lemma sem_fNot rho f : sem rho (fNot f) = negb (sem rho f).
Proof. unfold fNot. rewrite sem_fXor. by destruct (sem rho f). Qed.
Lemma sem_fOr rho f g : sem rho (fOr f g) = sem rho f || sem rho g.
Proof. unfold fOr. rewrite sem_fNot, sem_fAnd, !sem_fNot. by destruct (sem rho f), (sem rho g). Qed.

Fixpoint assign (i : nat) (n : Z) (b : bool) (f : bf) : bf :=
  match f with
  | FBit j m => if Nat.eqb i j && (n =? m) then FConst b else f
  | FConst _ => f
  | FAnd f g => fAnd (assign i n b f) (assign i n b g)
  | FXor f g => fXor (assign i n b f) (assign i n b g)
  end.

Fixpoint atoms (f : bf) : list (nat * Z) :=
  match f with FBit i n => [(i, n)] | FConst _ => [] | FAnd f g | FXor f g => atoms f ++ atoms g end.

Lemma assign_sem rho i n f : sem rho (assign i n (rho i n) f) = sem rho f.
Proof.
  induction f as [j m|b|f IHf g IHg|f IHf g IHg]; cbn; [|done|by rewrite sem_fAnd, IHf, IHg|by rewrite sem_fXor, IHf, IHg].
  destruct (Nat.eqb_spec i j) as [->|]; [|done]. destruct (Z.eqb_spec n m) as [->|]; done.
Qed.

(** True under all assignments to the listed bits. *)
Fixpoint taut (l : list (nat * Z)) (f : bf) : bool :=
  match l with
  | [] => match f with FConst b => b | _ => false end
  | (i, n) :: l => taut l (assign i n true f) && taut l (assign i n false f)
  end.

Lemma taut_sem rho l f : taut l f = true -> sem rho f = true.
Proof.
  revert f. induction l as [|[i n] l IH]; intros f Ht; [by destruct f|]. cbn in Ht. apply andb_true_iff in Ht as [H1 H2]. rewrite <- (assign_sem rho i n). destruct (rho i n); auto.
Qed.

(** ** Expressions *)

Inductive bx :=
| Var (i : nat)
| Lit (c : Z)
| And (a b : bx)
| Or (a b : bx)
| Xor (a b : bx)
| Not (a : bx)
| Shl (a : bx) (k : Z)
| Shr (a : bx) (k : Z)
| U32 (a : bx)
| S32 (a : bx).

Fixpoint eval (env : nat -> Z) (e : bx) : Z :=
  match e with
  | Var i => env i
  | Lit c => c
  | And a b => Z.land (eval env a) (eval env b)
  | Or a b => Z.lor (eval env a) (eval env b)
  | Xor a b => Z.lxor (eval env a) (eval env b)
  | Not a => Z.lnot (eval env a)
  | Shl a k => Z.shiftl (eval env a) k
  | Shr a k => Z.shiftr (eval env a) k
  | U32 a => u32 (eval env a)
  | S32 a => s32 (eval env a)
  end.

(** Shifts are by known amounts. *)
Fixpoint ok (e : bx) : bool :=
  match e with
  | Var _ | Lit _ => true
  | And a b | Or a b | Xor a b => ok a && ok b
  | Not a | U32 a | S32 a => ok a
  | Shl a k | Shr a k => (0 <=? k) && ok a
  end.

(** Bit [n] of an expression. *)
Fixpoint bit (e : bx) (n : Z) : bf :=
  if n <? 0 then FConst false
  else
    match e with
    | Var i => FBit i n
    | Lit c => FConst (Z.testbit c n)
    | And a b => fAnd (bit a n) (bit b n)
    | Or a b => fOr (bit a n) (bit b n)
    | Xor a b => fXor (bit a n) (bit b n)
    | Not a => fNot (bit a n)
    | Shl a k => bit a (n - k)
    | Shr a k => bit a (n + k)
    | U32 a => if n <? 32 then bit a n else FConst false
    | S32 a => if n <? 32 then bit a n else bit a 31
    end.

Definition bits_of (env : nat -> Z) (i : nat) (n : Z) : bool := Z.testbit (env i) n.

Lemma bit_neg e n : n < 0 -> bit e n = FConst false.
Proof. intros Hn. destruct e; cbn; destruct (Z.ltb_spec n 0); (done || lia). Qed.

Lemma bit_spec env e n : ok e = true -> 0 <= n -> Z.testbit (eval env e) n = sem (bits_of env) (bit e n).
Proof.
  revert n. induction e as [i|c|a IHa b IHb|a IHa b IHb|a IHa b IHb|a IHa|a IHa k|a IHa k|a IHa|a IHa]; intros n Hok Hn; cbn [eval bit ok] in *; (destruct (Z.ltb_spec n 0); [lia|]); rewrite ?andb_true_iff in Hok.
  - done.
  - done.
  - by rewrite Z.land_spec, sem_fAnd, IHa, IHb by naive_solver.
  - by rewrite Z.lor_spec, sem_fOr, IHa, IHb by naive_solver.
  - by rewrite Z.lxor_spec, sem_fXor, IHa, IHb by naive_solver.
  - by rewrite Z.lnot_spec, sem_fNot, IHa.
  - destruct Hok as [Hk Hok]. rewrite Z.shiftl_spec by lia. destruct (Z.lt_ge_cases (n - k) 0); [by rewrite Z.testbit_neg_r, bit_neg by lia|by apply IHa].
  - destruct Hok as [Hk Hok]. rewrite Z.shiftr_spec by lia. apply IHa; [done|lia].
  - rewrite testbit_u32 by lia. destruct (n <? 32); [by apply IHa|done].
  - rewrite testbit_s32 by lia. destruct (n <? 32); apply IHa; (done || lia).
Qed.

(** The low 32 bits agree. *)
Definition agree (a b : bx) : bool :=
  ok a && ok b && forallb (fun n => let f := fNot (fXor (bit a n) (bit b n)) in taut (remove_dups (atoms f)) f) (seqZ 0 32).

Lemma agree_eq env a b : agree a b = true -> u32 (eval env a) = u32 (eval env b).
Proof.
  intros H. apply andb_true_iff in H as [[Ha Hb]%andb_true_iff H]. apply Z.bits_inj'. intros n Hn. rewrite !testbit_u32 by done. destruct (Z.ltb_spec n 32); [|done]. rewrite !bit_spec by done.
  rewrite forallb_forall in H. specialize (H n). rewrite <- list_elem_of_In, elem_of_seqZ in H. apply (taut_sem (bits_of env)) in H; [|lia]. rewrite sem_fNot, sem_fXor in H. by destruct (sem _ (bit a n)), (sem _ (bit b n)).
Qed.

(** The variables are collected in a list. *)
Definition env_of (l : list Z) (i : nat) : Z := default 0 (l !! i).

Ltac var_index l x :=
  lazymatch l with
  | x :: _ => constr:(O)
  | _ :: ?l => let i := var_index l x in constr:(S i)
  end.

Ltac add_var l x :=
  lazymatch l with
  | context [x :: _] => l
  | _ => constr:(x :: l)
  end.

Ltac vars l x :=
  lazymatch x with
  | Z.land ?a ?b => let l := vars l a in vars l b
  | Z.lor ?a ?b => let l := vars l a in vars l b
  | Z.lxor ?a ?b => let l := vars l a in vars l b
  | Z.lnot ?a => vars l a
  | Z.shiftl ?a ?k => vars l a
  | Z.shiftr ?a ?k => vars l a
  | u32 ?a => vars l a
  | s32 ?a => vars l a
  | Zpos _ => l
  | Zneg _ => l
  | Z0 => l
  | _ => add_var l x
  end.

Ltac reify l x :=
  lazymatch x with
  | Z.land ?a ?b => let a := reify l a in let b := reify l b in constr:(And a b)
  | Z.lor ?a ?b => let a := reify l a in let b := reify l b in constr:(Or a b)
  | Z.lxor ?a ?b => let a := reify l a in let b := reify l b in constr:(Xor a b)
  | Z.lnot ?a => let a := reify l a in constr:(Not a)
  | Z.shiftl ?a ?k => let a := reify l a in constr:(Shl a k)
  | Z.shiftr ?a ?k => let a := reify l a in constr:(Shr a k)
  | u32 ?a => let a := reify l a in constr:(U32 a)
  | s32 ?a => let a := reify l a in constr:(S32 a)
  | Zpos _ => constr:(Lit x)
  | Zneg _ => constr:(Lit x)
  | Z0 => constr:(Lit x)
  | _ => let i := var_index l x in constr:(Var i)
  end.

(** Prove that two bit expressions agree in their low 32 bits. *)
Ltac bits32 :=
  lazymatch goal with
  | |- u32 ?a = u32 ?b =>
      let l := vars (@nil Z) a in let l := vars l b in
      let a' := reify l a in let b' := reify l b in
      change (u32 (eval (env_of l) a') = u32 (eval (env_of l) b')); apply agree_eq; vm_compute; reflexivity
  end.

End Bits.
