(* ===== verification/ElfArchive.v ===== *)
(** * ElfArchive: reading the structures of an ELF file

    [utils/serialize.h] and the structures of the link loader ([include/ELFHeader.h],
    [include/ELFSectionHeader.h], [include/ELFSymbol.h], [include/ELFReloc.h] and their [impl]
    files), for both classes of files and both byte orders.  The loader runs on a little-endian host
    with 32-bit pointers: on 64-bit builds the code disables itself.  Pointers are numbers below
    [2^32] and wrap.  The constants are those of the ELF specifications. *)

From S2P Require Import Prelude Stream.
Import Stream.

Module ElfArchive.

(** ** The archive reader *)

(** A null [cursor_base] is 0. *)
Record ArchiveReader := mkAR { buf : list Z; buf_begin : Z; cursor : Z; cursor_base : Z; good : bool }.

Definition buf_end (ar : ArchiveReader) : Z := u32 (buf_begin ar + zlen (buf ar)).

Definition ArchiveReader_new (buf : list Z) (begin : Z) : ArchiveReader := mkAR buf begin begin 0 (negb (begin =? 0)).

Definition set_cursor (ar : ArchiveReader) (c : Z) : ArchiveReader := mkAR (buf ar) (buf_begin ar) c (cursor_base ar) (good ar).
Definition set_base (ar : ArchiveReader) (b : Z) : ArchiveReader := mkAR (buf ar) (buf_begin ar) (cursor ar) b (good ar).
Definition set_bad (ar : ArchiveReader) : ArchiveReader := mkAR (buf ar) (buf_begin ar) (cursor ar) (cursor_base ar) false.

(** [rsl_assert] aborts. *)
Definition rsl_assert (b : bool) : outcome unit := if b then Ok () else Fault Aborted.

Definition prologue (ar : ArchiveReader) : outcome ArchiveReader :=
  _ ← rsl_assert (cursor_base ar =? 0); Ok (set_base ar (cursor ar)).

Definition epilogue (size : Z) (ar : ArchiveReader) : outcome ArchiveReader :=
  _ ← rsl_assert (negb (cursor_base ar =? 0));
  _ ← rsl_assert (cursor_base ar +u32 size >=? cursor ar);
  Ok (set_base (set_cursor ar (cursor_base ar +u32 size)) 0).

(** [off_t] has 32 bits. *)
Definition seek (off : Z) (from_begin : bool) (ar : ArchiveReader) : ArchiveReader :=
  set_cursor ar ((if from_begin then buf_begin ar else cursor ar) +u32 s32 off).

(** The bytes copied, or none when the reader is or becomes bad. *)
Definition readBytes (size : Z) (ar : ArchiveReader) : outcome (option (list Z) * ArchiveReader) :=
  if negb (good ar) || (cursor ar +u32 size >? buf_end ar) then Ok (None, set_bad ar)
  else bs ← zread (buf ar) (cursor ar - buf_begin ar) size; Ok (Some bs, ar).

Definition seekAlignment (align : Z) (ar : ArchiveReader) : ArchiveReader :=
  let delta := (cursor ar -u32 buf_begin ar) mod align in
  if delta >? 0 then seek (align - delta) false ar else ar.

(** The bytes of an array. *)
Definition AR_bytes (n : Z) (ar : ArchiveReader) : outcome (list Z * ArchiveReader) :=
  '(bs, ar) ← readBytes n ar; Ok (default [] bs, seek n false ar).

(** An integer of [n] bytes, aligned at its size; a value that cannot be read stays 0. *)
Definition AR_int (LE : bool) (n : Z) (ar : ArchiveReader) : outcome (Z * ArchiveReader) :=
  '(bs, ar) ← readBytes n (seekAlignment n ar);
  let bs := default (replicate (Z.to_nat n) 0) bs in
  Ok (le_val (if LE then bs else reverse bs), seek n false ar).

(** ** Widths *)

Inductive bitwidth := B32 | B64.

#[global] Instance bitwidth_eq_dec : EqDecision bitwidth.
Proof. solve_decision. Defined.

(** [addr_t], [offset_t], [symsize_t] and [relinfo_t]; also the larger fields of a section header. *)
Definition addr_size (W : bitwidth) : Z := match W with B32 => 4 | B64 => 8 end.

Definition header_size (W : bitwidth) : Z := match W with B32 => 52 | B64 => 64 end.
Definition program_header_size (W : bitwidth) : Z := match W with B32 => 32 | B64 => 56 end.
Definition section_header_size (W : bitwidth) : Z := match W with B32 => 40 | B64 => 64 end.
Definition symbol_size (W : bitwidth) : Z := match W with B32 => 16 | B64 => 24 end.
Definition rel_size (W : bitwidth) : Z := match W with B32 => 8 | B64 => 16 end.
Definition rela_size (W : bitwidth) : Z := match W with B32 => 12 | B64 => 24 end.

Definition EI_CLASS : Z := 4.
Definition EI_DATA : Z := 5.
Definition EI_PAD : nat := 9.
Definition EI_NIDENT : Z := 16.
Definition ELFCLASS32 : Z := 1.
Definition ELFCLASS64 : Z := 2.
Definition ELFDATA2LSB : Z := 1.
Definition ELFDATA2MSB : Z := 2.
Definition EV_CURRENT : Z := 1.

Section structures.
Context (W : bitwidth) (LE : bool).

Abbreviation byte := (AR_int LE 1).
Abbreviation half := (AR_int LE 2).
Abbreviation word := (AR_int LE 4).
Abbreviation addr := (AR_int LE (addr_size W)).

(** ** File header *)

Record ELFHeader := mkHeader {
  e_ident : list Z; e_type : Z; e_machine : Z; e_version : Z; e_entry : Z; e_phoff : Z; e_shoff : Z;
  e_flags : Z; e_ehsize : Z; e_phentsize : Z; e_phnum : Z; e_shentsize : Z; e_shnum : Z; e_shstrndx : Z }.

Definition ident_at (h : ELFHeader) (i : Z) : Z := default 0 (e_ident h !! Z.to_nat i).
Definition is32bit (h : ELFHeader) : bool := ident_at h EI_CLASS =? ELFCLASS32.
Definition is64bit (h : ELFHeader) : bool := ident_at h EI_CLASS =? ELFCLASS64.
Definition isBigEndian (h : ELFHeader) : bool := ident_at h EI_DATA =? ELFDATA2MSB.
Definition isLittleEndian (h : ELFHeader) : bool := ident_at h EI_DATA =? ELFDATA2LSB.

Definition isValidELFIdent (h : ELFHeader) : bool :=
  bool_decide (take 4 (e_ident h) = [0x7f; 0x45; 0x4c; 0x46]) &&
  match W with B32 => is32bit h | B64 => is64bit h end &&
  (isBigEndian h || isLittleEndian h) &&
  (e_version h =? EV_CURRENT) &&
  forallb (fun b => b =? 0) (drop EI_PAD (e_ident h)).

Definition isCompatibleHeaderSize (h : ELFHeader) : bool :=
  (e_ehsize h =? header_size W) &&
  ((e_phnum h =? 0) || (e_phentsize h =? program_header_size W)) &&
  ((e_shnum h =? 0) || (e_shentsize h =? section_header_size W)).

Definition header_isValid (h : ELFHeader) : bool := isValidELFIdent h && isCompatibleHeaderSize h.

Definition header_serialize (ar : ArchiveReader) : outcome (ELFHeader * ArchiveReader) :=
  ar ← prologue ar;
  '(ident, ar) ← AR_bytes EI_NIDENT ar;
  '(type, ar) ← half ar;
  '(machine, ar) ← half ar;
  '(version, ar) ← word ar;
  '(entry, ar) ← addr ar;
  '(phoff, ar) ← addr ar;
  '(shoff, ar) ← addr ar;
  '(flags, ar) ← word ar;
  '(ehsize, ar) ← half ar;
  '(phentsize, ar) ← half ar;
  '(phnum, ar) ← half ar;
  '(shentsize, ar) ← half ar;
  '(shnum, ar) ← half ar;
  '(shstrndx, ar) ← half ar;
  ar ← epilogue (header_size W) ar;
  Ok (mkHeader ident type machine version entry phoff shoff flags ehsize phentsize phnum shentsize shnum shstrndx, ar).

Definition header_read (ar : ArchiveReader) : outcome (option ELFHeader * ArchiveReader) :=
  if negb (good ar) then Ok (None, ar)
  else
    '(h, ar) ← header_serialize ar;
    if negb (good ar) then Ok (None, ar)
    else if negb (header_isValid h) then Ok (None, ar)
    else Ok (Some h, ar).

(** ** Section headers *)

Record ELFSectionHeader := mkSH {
  index : Z; sh_name : Z; sh_type : Z; sh_flags : Z; sh_addr : Z; sh_offset : Z; sh_size : Z; sh_link : Z; sh_info : Z; sh_addralign : Z; sh_entsize : Z }.

Definition section_header_serialize (i : Z) (ar : ArchiveReader) : outcome (ELFSectionHeader * ArchiveReader) :=
  ar ← prologue ar;
  '(name, ar) ← word ar;
  '(type, ar) ← word ar;
  '(flags, ar) ← addr ar;
  '(address, ar) ← addr ar;
  '(offset, ar) ← addr ar;
  '(size, ar) ← addr ar;
  '(link, ar) ← word ar;
  '(info, ar) ← word ar;
  '(addralign, ar) ← addr ar;
  '(entsize, ar) ← addr ar;
  ar ← epilogue (section_header_size W) ar;
  Ok (mkSH i name type flags address offset size link info addralign entsize, ar).

Definition section_header_read (i : Z) (ar : ArchiveReader) : outcome (option ELFSectionHeader * ArchiveReader) :=
  if negb (good ar) then Ok (None, ar)
  else
    '(sh, ar) ← section_header_serialize i ar;
    if negb (good ar) then Ok (None, ar) else Ok (Some sh, ar).

(** The headers from [i] on; none when one of them cannot be read. *)
Fixpoint section_headers (n : nat) (i : Z) (ar : ArchiveReader) : outcome (option (list ELFSectionHeader) * ArchiveReader) :=
  match n with
  | O => Ok (Some [], ar)
  | S n =>
      '(sh, ar) ← section_header_read i ar;
      match sh with
      | None => Ok (None, ar)
      | Some sh => '(tab, ar) ← section_headers n (i + 1) ar; Ok (option_map (cons sh) tab, ar)
      end
  end.

Definition section_header_table_read (h : ELFHeader) (ar : ArchiveReader) : outcome (option (list ELFSectionHeader) * ArchiveReader) :=
  if negb (good ar) then Ok (None, ar)
  else
    _ ← rsl_assert (e_shentsize h =? section_header_size W);
    section_headers (Z.to_nat (e_shnum h)) 0 (seek (e_shoff h) true ar).

(** ** Symbols *)

Record ELFSymbol := mkSymbol { st_index : Z; st_name : Z; st_info : Z; st_other : Z; st_shndx : Z; st_value : Z; st_size : Z; my_addr : Z }.

Definition symbol_serialize (i : Z) (ar : ArchiveReader) : outcome (ELFSymbol * ArchiveReader) :=
  ar ← prologue ar;
  '(name, ar) ← word ar;
  '(sym, ar) ← match W with
    | B32 =>
        '(value, ar) ← addr ar;
        '(size, ar) ← addr ar;
        '(info, ar) ← byte ar;
        '(other, ar) ← byte ar;
        '(shndx, ar) ← half ar;
        Ok (mkSymbol i name info other shndx value size 0, ar)
    | B64 =>
        '(info, ar) ← byte ar;
        '(other, ar) ← byte ar;
        '(shndx, ar) ← half ar;
        '(value, ar) ← addr ar;
        '(size, ar) ← addr ar;
        Ok (mkSymbol i name info other shndx value size 0, ar)
    end;
  ar ← epilogue (symbol_size W) ar;
  Ok (sym, ar).

Definition symbol_read (i : Z) (ar : ArchiveReader) : outcome (option ELFSymbol * ArchiveReader) :=
  if negb (good ar) then Ok (None, ar)
  else
    '(sym, ar) ← symbol_serialize i ar;
    if negb (good ar) then Ok (None, ar) else Ok (Some sym, ar).

(** ** Relocations *)

Record ELFReloc := mkReloc { r_index : Z; r_offset : Z; r_info : Z; r_addend : Z }.

Definition addend_of (v : Z) : Z := match W with B32 => s32 v | B64 => swrap 64 v end.

Definition serializeRel (i : Z) (ar : ArchiveReader) : outcome (ELFReloc * ArchiveReader) :=
  ar ← prologue ar;
  '(offset, ar) ← addr ar;
  '(info, ar) ← addr ar;
  ar ← epilogue (rel_size W) ar;
  Ok (mkReloc i offset info 0, ar).

Definition serializeRela (i : Z) (ar : ArchiveReader) : outcome (ELFReloc * ArchiveReader) :=
  ar ← prologue ar;
  '(offset, ar) ← addr ar;
  '(info, ar) ← addr ar;
  '(addend, ar) ← addr ar;
  ar ← epilogue (rela_size W) ar;
  Ok (mkReloc i offset info (addend_of addend), ar).

Definition reloc_read (rela : bool) (i : Z) (ar : ArchiveReader) : outcome (option ELFReloc * ArchiveReader) :=
  if negb (good ar) then Ok (None, ar)
  else
    '(rel, ar) ← (if rela then serializeRela i ar else serializeRel i ar);
    if negb (good ar) then Ok (None, ar) else Ok (Some rel, ar).

Definition getSymTabIndex (rel : ELFReloc) : Z := match W with B32 => Z.shiftr (r_info rel) 8 | B64 => Z.shiftr (r_info rel) 32 end.
Definition reloc_type (rel : ELFReloc) : Z := match W with B32 => u8 (r_info rel) | B64 => Z.land (r_info rel) 0xffffffff end.

(** Tables of entries of one kind: an entry that cannot be read is null. *)
Fixpoint read_entries {A} (read : Z -> ArchiveReader -> outcome (option A * ArchiveReader)) (n : nat) (i : Z) (ar : ArchiveReader) : outcome (list (option A) * ArchiveReader) :=
  match n with
  | O => Ok ([], ar)
  | S n => '(e, ar) ← read i ar; '(es, ar) ← read_entries read n (i + 1) ar; Ok (e :: es, ar)
  end.

End structures.

(** ** Encodings *)

Definition bytes_le (n : nat) (v : Z) : list Z := (fun i => (v / 2 ^ (8 * Z.of_nat i)) mod 256) <$> seq 0 n.
Definition enc (LE : bool) (n : nat) (v : Z) : list Z := if LE then bytes_le n v else reverse (bytes_le n v).

Lemma bytes_le_S n v : bytes_le (S n) v = v mod 256 :: bytes_le n (v / 256).
Proof.
  unfold bytes_le. cbn [seq fmap list_fmap]. f_equal; [by rewrite Z.mul_0_r, Z.pow_0_r, Z.div_1_r|]. rewrite <- fmap_S_seq, <- list_fmap_compose. apply list_fmap_ext. intros i x _. cbn.
  rewrite Z.div_div by lia. f_equal. f_equal. replace (8 * Z.of_nat (S x)) with (8 + 8 * Z.of_nat x) by lia. rewrite Z.pow_add_r by lia. done.
Qed.

Lemma le_val_bytes_le n v : le_val (bytes_le n v) = v mod 2 ^ (8 * Z.of_nat n).
Proof.
  revert v. induction n as [|n IH]; intros v; [by rewrite Z.mod_1_r|]. rewrite bytes_le_S. cbn [le_val]. rewrite IH.
  replace (8 * Z.of_nat (S n)) with (8 + 8 * Z.of_nat n) by lia. rewrite Z.pow_add_r by lia. change (2 ^ 8) with 256. rewrite Z.rem_mul_r by lia. lia.
Qed.

Lemma enc_length (LE : bool) n v : length (enc LE n v) = n.
Proof. unfold enc, bytes_le. destruct LE; rewrite ?length_reverse, length_fmap, length_seq; done. Qed.

Lemma enc_val (LE : bool) n v : le_val (if LE then enc LE n v else reverse (enc LE n v)) = v mod 2 ^ (8 * Z.of_nat n).
Proof. destruct LE; cbn [enc]; rewrite ?reverse_involutive; apply le_val_bytes_le. Qed.

(** [bs] is at position [p] of [b]. *)
Definition sub (b : list Z) (p : Z) (bs : list Z) : Prop := 0 <= p /\ p + zlen bs <= zlen b /\ take (length bs) (drop (Z.to_nat p) b) = bs.

Lemma sub_app b p x y : sub b p (x ++ y) <-> sub b p x /\ sub b (p + zlen x) y.
Proof.
  unfold sub. rewrite zlen_app, length_app. pose proof (zlen_nonneg x). pose proof (zlen_nonneg y). split.
  - intros (Hp & Hl & E). assert (Ex : take (length x) (drop (Z.to_nat p) b) = x).
    { apply (f_equal (take (length x))) in E. rewrite take_take, Nat.min_l, take_app_length in E by lia. done. }
    assert (Ey : take (length y) (drop (length x) (drop (Z.to_nat p) b)) = y).
    { apply (f_equal (drop (length x))) in E. rewrite drop_app_length, <- take_drop_commute in E. done. }
    rewrite drop_drop in Ey. replace (Z.to_nat p + length x)%nat with (Z.to_nat (p + zlen x)) in Ey by (unfold zlen; lia). repeat split; try lia; done.
  - intros ((Hp & Hl & Ex) & _ & Hl' & Ey). split; [done|]. split; [lia|]. replace (Z.to_nat (p + zlen x)) with (Z.to_nat p + length x)%nat in Ey by (unfold zlen; lia). rewrite <- drop_drop in Ey.
    by rewrite <- take_take_drop, Ex, Ey.
Qed.

Lemma enc_zlen (LE : bool) n v : zlen (enc LE n v) = Z.of_nat n.
Proof. unfold zlen. by rewrite enc_length. Qed.

(** What a file holds for a structure. *)
Section encodings.
Context (W : bitwidth) (LE : bool).
Abbreviation e1 := (enc LE 1).
Abbreviation e2 := (enc LE 2).
Abbreviation e4 := (enc LE 4).
Abbreviation ea := (enc LE (Z.to_nat (addr_size W))).

Definition enc_header (h : ELFHeader) : list Z :=
  e_ident h ++ e2 (e_type h) ++ e2 (e_machine h) ++ e4 (e_version h) ++ ea (e_entry h) ++ ea (e_phoff h) ++ ea (e_shoff h) ++ e4 (e_flags h) ++
  e2 (e_ehsize h) ++ e2 (e_phentsize h) ++ e2 (e_phnum h) ++ e2 (e_shentsize h) ++ e2 (e_shnum h) ++ e2 (e_shstrndx h).

Definition enc_section_header (s : ELFSectionHeader) : list Z :=
  e4 (sh_name s) ++ e4 (sh_type s) ++ ea (sh_flags s) ++ ea (sh_addr s) ++ ea (sh_offset s) ++ ea (sh_size s) ++ e4 (sh_link s) ++ e4 (sh_info s) ++ ea (sh_addralign s) ++ ea (sh_entsize s).

Definition enc_symbol (s : ELFSymbol) : list Z :=
  e4 (st_name s) ++
  match W with
  | B32 => ea (st_value s) ++ ea (st_size s) ++ e1 (st_info s) ++ e1 (st_other s) ++ e2 (st_shndx s)
  | B64 => e1 (st_info s) ++ e1 (st_other s) ++ e2 (st_shndx s) ++ ea (st_value s) ++ ea (st_size s)
  end.

Definition enc_rel (r : ELFReloc) : list Z := ea (r_offset r) ++ ea (r_info r).
Definition enc_rela (r : ELFReloc) : list Z := ea (r_offset r) ++ ea (r_info r) ++ ea (r_addend r mod 2 ^ (8 * addr_size W)).

(** Fields within their widths. *)
Definition fits (n v : Z) : Prop := 0 <= v < 2 ^ (8 * n).
Definition addr_fits (v : Z) : Prop := fits (addr_size W) v.

Definition header_fits (h : ELFHeader) : Prop :=
  zlen (e_ident h) = 16 /\ Forall (fits 2) [e_type h; e_machine h; e_ehsize h; e_phentsize h; e_phnum h; e_shentsize h; e_shnum h; e_shstrndx h] /\
  Forall (fits 4) [e_version h; e_flags h] /\ Forall addr_fits [e_entry h; e_phoff h; e_shoff h].
Definition section_header_fits (s : ELFSectionHeader) : Prop :=
  Forall (fits 4) [sh_name s; sh_type s; sh_link s; sh_info s] /\ Forall addr_fits [sh_flags s; sh_addr s; sh_offset s; sh_size s; sh_addralign s; sh_entsize s].
Definition symbol_fits (s : ELFSymbol) : Prop :=
  Forall (fits 1) [st_info s; st_other s] /\ Forall (fits 2) [st_shndx s] /\ Forall (fits 4) [st_name s] /\ Forall addr_fits [st_value s; st_size s] /\ my_addr s = 0.
Definition reloc_fits (r : ELFReloc) : Prop :=
  Forall addr_fits [r_offset r; r_info r] /\ - 2 ^ (8 * addr_size W - 1) <= r_addend r < 2 ^ (8 * addr_size W - 1).
End encodings.

Section reading.
Context (W : bitwidth) (LE : bool) (b : list Z) (base : Z) (Hbase : 0 < base) (Hend : base + zlen b < 2 ^ 32).

(** The reader at position [p]. *)
Definition R (p cb : Z) : ArchiveReader := mkAR b base (base + p) cb true.

Lemma seek_R p cb n : 0 <= p -> 0 <= n < 2 ^ 31 -> p + n <= zlen b -> seek n false (R p cb) = R (p + n) cb.
Proof. intros. unfold seek, R, set_cursor. cbn. rewrite s32_small by lia. rewrite u32_small by lia. f_equal. lia. Qed.

Lemma seek_begin_R p cb n : 0 <= n < 2 ^ 31 -> n <= zlen b -> seek n true (R p cb) = R n cb.
Proof. intros. unfold seek, R, set_cursor. cbn. rewrite s32_small by lia. rewrite u32_small by lia. done. Qed.

Lemma readBytes_R p cb bs : sub b p bs -> readBytes (zlen bs) (R p cb) = Ok (Some bs, R p cb).
Proof.
  intros (Hp & Hl & E). unfold readBytes, R. cbn [good cursor buf buf_begin]. unfold buf_end. cbn [buf buf_begin]. pose proof (zlen_nonneg bs). rewrite !u32_small by lia.
  rewrite Z.gtb_ltb. destruct (Z.ltb_spec (base + zlen b) (base + p + zlen bs)); [lia|]. cbn [negb orb]. unfold zread. rewrite decide_True by lia. cbn [mbind outcome_bind].
  replace (base + p - base) with p by lia. unfold zlen at 1. rewrite Nat2Z.id, E. done.
Qed.

Lemma AR_bytes_R p cb bs : sub b p bs -> zlen bs < 2 ^ 31 -> AR_bytes (zlen bs) (R p cb) = Ok (bs, R (p + zlen bs) cb).
Proof. intros Hs Hn. unfold AR_bytes. rewrite readBytes_R by done. cbn [mbind outcome_bind default from_option]. pose proof (zlen_nonneg bs). rewrite seek_R by (destruct Hs; lia). done. Qed.

Lemma AR_int_R p cb n v : sub b p (enc LE (Z.to_nat n) v) -> 0 <= v < 2 ^ (8 * n) -> 0 < n <= 8 -> p mod n = 0 -> AR_int LE n (R p cb) = Ok (v, R (p + n) cb).
Proof.
  intros Hs Hv Hn Ha. assert (Hl : zlen (enc LE (Z.to_nat n) v) = n) by (unfold zlen; rewrite enc_length; lia). destruct Hs as (Hp & Hs1 & Hs2).
  unfold AR_int. assert (seekAlignment n (R p cb) = R p cb) as ->.
  { unfold seekAlignment, R at 1 2. cbn [cursor buf_begin]. rewrite u32_small by lia. replace (base + p - base) with p by lia. by rewrite Ha. }
  rewrite <- Hl at 1. rewrite readBytes_R by done. cbn [mbind outcome_bind default from_option]. rewrite seek_R by lia. unfold Datatypes.id. rewrite enc_val, Z2Nat.id, Z.mod_small by lia. done.
Qed.

Lemma prologue_R p : prologue (R p 0) = Ok (R p (base + p)).
Proof. done. Qed.

Lemma epilogue_R p q n : 0 <= p -> 0 <= n -> p + n <= zlen b -> q <= p + n -> epilogue n (R q (base + p)) = Ok (R (p + n) 0).
Proof.
  intros. unfold epilogue, R. cbn [cursor_base cursor]. rewrite u32_small by lia. unfold rsl_assert. destruct (Z.eqb_spec (base + p) 0); [lia|]. cbn [negb mbind outcome_bind].
  rewrite Z.geb_leb. destruct (Z.leb_spec (base + q) (base + p + n)); [|lia]. cbn. unfold set_base, set_cursor. cbn. do 2 f_equal. lia.
Qed.

(** Read the next field at its position. *)
Ltac field :=
  erewrite AR_int_R; [|eassumption|assumption|cbn; lia|cbn; Z.to_euclidean_division_equations; lia];
  cbn [mbind outcome_bind].

Ltac split_fields :=
  cbn [addr_size] in *;
  repeat match goal with
  | H : sub _ _ (_ ++ _) |- _ => apply sub_app in H as [? H]
  | H : Forall _ (_ :: _) |- _ => apply Forall_cons in H as [? H]
  | H : Forall _ [] |- _ => clear H
  end;
  repeat match goal with
  | H : context [zlen (enc LE ?n ?v)] |- _ => rewrite (enc_zlen LE n v) in H
  end.

Lemma header_serialize_R p h : p mod addr_size W = 0 -> header_fits W h -> sub b p (enc_header W LE h) -> header_serialize W LE (R p 0) = Ok (h, R (p + header_size W) 0).
Proof.
  intros Hp (Hi & H2 & H4 & Ha) Hs. unfold header_serialize. rewrite prologue_R. cbn [mbind outcome_bind]. unfold enc_header in Hs. assert (Hlen : 0 <= p) by (destruct Hs; lia).
  destruct W; split_fields.
  all: change EI_NIDENT with 16; rewrite <- Hi at 1; rewrite AR_bytes_R by (done || lia); rewrite Hi in *; cbn [mbind outcome_bind].
  all: do 13 field.
  all: rewrite epilogue_R; [by destruct h|..].
  all: destruct Hs as (? & Hs & _); rewrite enc_zlen in Hs; cbn in *; lia.
Qed.

Lemma section_header_serialize_R p sh : p mod addr_size W = 0 -> section_header_fits W sh -> sub b p (enc_section_header W LE sh) ->
  section_header_serialize W LE (index sh) (R p 0) = Ok (sh, R (p + section_header_size W) 0).
Proof.
  intros Hp (H4 & Ha) Hs. unfold section_header_serialize. rewrite prologue_R. cbn [mbind outcome_bind]. unfold enc_section_header in Hs. assert (Hlen : 0 <= p) by (destruct Hs; lia).
  destruct W; split_fields. all: do 10 field. all: rewrite epilogue_R; [by destruct sh|..]. all: destruct Hs as (? & Hs & _); rewrite enc_zlen in Hs; cbn in *; lia.
Qed.

Lemma symbol_serialize_R p sym : p mod addr_size W = 0 -> symbol_fits W sym -> sub b p (enc_symbol W LE sym) ->
  symbol_serialize W LE (st_index sym) (R p 0) = Ok (sym, R (p + symbol_size W) 0).
Proof.
  intros Hp (H1 & H2 & H4 & Ha & Hz) Hs. unfold symbol_serialize. rewrite prologue_R. cbn [mbind outcome_bind]. unfold enc_symbol in Hs. assert (Hlen : 0 <= p) by (destruct Hs; lia).
  destruct W; split_fields. all: do 6 field. all: rewrite epilogue_R; [destruct sym; cbn in *; by subst|..]. all: destruct Hs as (? & Hs & _); rewrite enc_zlen in Hs; cbn in *; lia.
Qed.

Lemma serializeRel_R p r : p mod addr_size W = 0 -> reloc_fits W r -> r_addend r = 0 -> sub b p (enc_rel W LE r) -> serializeRel W LE (r_index r) (R p 0) = Ok (r, R (p + rel_size W) 0).
Proof.
  intros Hp [Ha Hd] Hz Hs. unfold serializeRel. rewrite prologue_R. cbn [mbind outcome_bind]. unfold enc_rel in Hs. assert (Hlen : 0 <= p) by (destruct Hs; lia).
  destruct W; split_fields. all: do 2 field. all: rewrite epilogue_R; [destruct r; cbn in *; by subst|..]. all: destruct Hs as (? & Hs & _); rewrite enc_zlen in Hs; cbn in *; lia.
Qed.

(** The addend is read unsigned and then taken as signed. *)
Lemma addend_of_mod v : - 2 ^ (8 * addr_size W - 1) <= v < 2 ^ (8 * addr_size W - 1) -> addend_of W (v mod 2 ^ (8 * addr_size W)) = v.
Proof. intros H. unfold addend_of, s32, swrap. destruct W; cbn in *; Z.to_euclidean_division_equations; lia. Qed.

Lemma serializeRela_R p r : p mod addr_size W = 0 -> reloc_fits W r -> sub b p (enc_rela W LE r) -> serializeRela W LE (r_index r) (R p 0) = Ok (r, R (p + rela_size W) 0).
Proof.
  intros Hp [Ha Hd] Hs. unfold serializeRela. rewrite prologue_R. cbn [mbind outcome_bind]. unfold enc_rela in Hs. assert (Hlen : 0 <= p) by (destruct Hs; lia).
  pose proof (addend_of_mod _ Hd) as Hadd. assert (Hm : addr_fits W (r_addend r mod 2 ^ (8 * addr_size W))) by (apply Z.mod_pos_bound; destruct W; done).
  destruct W; split_fields. all: do 3 field. all: rewrite epilogue_R; [rewrite Hadd; by destruct r|..]. all: destruct Hs as (? & Hs & _); rewrite enc_zlen in Hs; cbn in *; lia.
Qed.

(** Entries one after the other. *)
Lemma read_entries_R {A} (read : Z -> ArchiveReader -> outcome (option A * ArchiveReader)) (encode : A -> list Z) (ix : A -> Z) (ok : A -> Prop) size :
  (forall p e, p mod addr_size W = 0 -> ok e -> sub b p (encode e) -> read (ix e) (R p 0) = Ok (Some e, R (p + size) 0)) ->
  (forall e, zlen (encode e) = size) -> size mod addr_size W = 0 ->
  forall es p i, p mod addr_size W = 0 -> Forall ok es -> (forall k e, es !! k = Some e -> ix e = i + Z.of_nat k) -> sub b p (concat (encode <$> es)) ->
  read_entries read (length es) i (R p 0) = Ok (Some <$> es, R (p + size * zlen es) 0).
Proof.
  intros Hread Hlen Hsize es. induction es as [|e es IH]; intros p i Hp Hok Hix Hs; cbn [read_entries length]; [cbn; rewrite Z.mul_0_r, Z.add_0_r; done|].
  apply Forall_cons in Hok as [Hoke Hok]. cbn [fmap list_fmap concat] in Hs. apply sub_app in Hs as [Hse Hs]. rewrite Hlen in Hs.
  assert (Hi : ix e = i) by (rewrite (Hix 0%nat e eq_refl); lia). pose proof (Hread _ _ Hp Hoke Hse) as Hr. rewrite Hi in Hr. rewrite Hr. cbn [mbind outcome_bind].
  rewrite IH; [|rewrite <- Z.add_mod_idemp_r, Hsize, Z.add_0_r by (destruct W; done); done|done|intros k e' Hk; rewrite (Hix (S k) e' Hk); lia|done].
  cbn [mbind outcome_bind]. do 3 f_equal. unfold zlen. cbn [length]. lia.
Qed.

Lemma section_headers_R shs : forall p i, p mod addr_size W = 0 -> Forall (section_header_fits W) shs -> (forall k sh, shs !! k = Some sh -> index sh = i + Z.of_nat k) ->
  sub b p (concat (enc_section_header W LE <$> shs)) -> section_headers W LE (length shs) i (R p 0) = Ok (Some shs, R (p + section_header_size W * zlen shs) 0).
Proof.
  induction shs as [|sh shs IH]; intros p i Hp Hok Hix Hs; cbn [section_headers length]; [cbn; rewrite Z.mul_0_r, Z.add_0_r; done|].
  apply Forall_cons in Hok as [Hoke Hok]. cbn [fmap list_fmap concat] in Hs. apply sub_app in Hs as [Hse Hs].
  assert (Hl : zlen (enc_section_header W LE sh) = section_header_size W) by (unfold enc_section_header; rewrite !zlen_app, !enc_zlen; by destruct W). rewrite Hl in Hs.
  assert (Hi : index sh = i) by (rewrite (Hix 0%nat sh eq_refl); lia). pose proof (section_header_serialize_R _ _ Hp Hoke Hse) as Hr. rewrite Hi in Hr. unfold section_header_read. cbn [good R negb]. rewrite Hr. cbn [mbind outcome_bind good R negb].
  rewrite IH; [|rewrite <- Z.add_mod_idemp_r by (destruct W; done); destruct W; cbn in *; rewrite ?Z.add_0_r; done|done|intros k e' Hk; rewrite (Hix (S k) e' Hk); lia|done].
  cbn [mbind outcome_bind option_map]. do 3 f_equal. unfold zlen. cbn [length]. lia.
Qed.

Lemma symbols_R syms p : p mod addr_size W = 0 -> Forall (symbol_fits W) syms -> (forall k s, syms !! k = Some s -> st_index s = Z.of_nat k) -> sub b p (concat (enc_symbol W LE <$> syms)) ->
  read_entries (symbol_read W LE) (length syms) 0 (R p 0) = Ok (Some <$> syms, R (p + symbol_size W * zlen syms) 0).
Proof.
  intros Hp Hok Hix Hs. apply (read_entries_R _ (enc_symbol W LE) st_index (symbol_fits W)); [..|done|done|intros k e Hk; rewrite (Hix k e Hk); lia|done].
  - intros q e Hq He Hse. unfold symbol_read. cbn [good R negb]. rewrite symbol_serialize_R by done. done.
  - intros e. unfold enc_symbol. destruct W; rewrite !zlen_app, !enc_zlen; done.
  - by destruct W.
Qed.

Definition enc_reloc (rela : bool) : ELFReloc -> list Z := if rela then enc_rela W LE else enc_rel W LE.

Lemma relocs_R (rela : bool) rels p : p mod addr_size W = 0 -> Forall (reloc_fits W) rels -> (rela = false -> Forall (fun r => r_addend r = 0) rels) -> (forall k r, rels !! k = Some r -> r_index r = Z.of_nat k) ->
  sub b p (concat (enc_reloc rela <$> rels)) ->
  read_entries (reloc_read W LE rela) (length rels) 0 (R p 0) = Ok (Some <$> rels, R (p + (if rela then rela_size W else rel_size W) * zlen rels) 0).
Proof.
  intros Hp Hok Hz Hix Hs. apply (read_entries_R _ (enc_reloc rela) r_index (fun r => reloc_fits W r /\ (rela = false -> r_addend r = 0))); [..|done| |intros k e Hk; rewrite (Hix k e Hk); lia|done].
  - intros q e Hq [He Hez] Hse. unfold reloc_read. cbn [good R negb]. destruct rela; [rewrite serializeRela_R by done|rewrite serializeRel_R by auto]; done.
  - intros e. unfold enc_reloc, enc_rela, enc_rel. destruct W, rela; rewrite !zlen_app, !enc_zlen; done.
  - by destruct W, rela.
  - apply Forall_forall. intros r Hr. rewrite Forall_forall in Hok. split; [by apply Hok|]. intros ->. specialize (Hz eq_refl). rewrite Forall_forall in Hz. by apply Hz.
Qed.

End reading.

(** ** Any bytes

    Reading may stop at an assertion but never reads outside the buffer, as long as the offsets of
    the file are below [2^31] and the buffer is low enough for them not to wrap. *)

Definition aborts_or {A} (Q : A -> Prop) (m : outcome A) : Prop := match m with Ok a => Q a | Fault f => f = Aborted end.

Lemma aborts_or_bind {A B} (P : A -> Prop) (Q : B -> Prop) m k : aborts_or P m -> (forall a, P a -> aborts_or Q (k a)) -> aborts_or Q (m ≫= k).
Proof. intros Hm Hk. destruct m; cbn in *; auto. Qed.

Lemma aborts_or_mono {A} (P Q : A -> Prop) m : aborts_or P m -> (forall a, P a -> Q a) -> aborts_or Q m.
Proof. intros Hm Hk. destruct m; cbn in *; auto. Qed.

(** The cursor is at or above the beginning and at most at [hi]; the saved one at most at [cb]. *)
Definition within (lo hi cb : Z) (b : list Z) (ar : ArchiveReader) : Prop :=
  buf ar = b /\ buf_begin ar = lo /\ lo <= cursor ar <= hi /\ (cursor_base ar = 0 \/ lo <= cursor_base ar <= cb).

Section any_bytes.
Context (LE : bool) (b : list Z) (lo : Z) (Hlo : 0 < lo) (Hb : lo + zlen b < 2 ^ 32) (Hbytes : Forall (fits 1) b).

Lemma le_val_fits bs : Forall (fits 1) bs -> fits (zlen bs) (le_val bs).
Proof.
  unfold fits. induction 1 as [|x bs Hx Hbs IH]; [done|]. cbn [le_val]. unfold zlen in *. cbn [length]. replace (8 * Z.of_nat (S (length bs))) with (8 + 8 * Z.of_nat (length bs)) by lia. rewrite Z.pow_add_r by lia. change (2 ^ (8 * 1)) with 256 in Hx. change (2 ^ 8) with 256. nia.
Qed.

Lemma seek_within hi cb n ar : within lo hi cb b ar -> 0 <= n < 2 ^ 31 -> hi + n < 2 ^ 32 -> within lo (hi + n) cb b (seek n false ar).
Proof. intros (E1 & E2 & Hc & Hcb) Hn Hh. unfold within, seek, set_cursor. cbn [buf buf_begin cursor cursor_base]. rewrite s32_small, u32_small by lia. repeat split; try done; lia. Qed.

Lemma readBytes_within hi cb n ar : within lo hi cb b ar -> 0 <= n -> hi + n < 2 ^ 32 ->
  (exists bs, readBytes n ar = Ok (Some bs, ar) /\ zlen bs = n /\ Forall (fits 1) bs) \/ readBytes n ar = Ok (None, set_bad ar).
Proof.
  intros (E1 & E2 & Hc & Hcb) Hn Hh. unfold readBytes, buf_end. rewrite E1, E2, (u32_small (lo + _)), (u32_small (cursor ar + n)), Z.gtb_ltb by (pose proof (zlen_nonneg b); lia). destruct (Z.ltb_spec (lo + zlen b) (cursor ar + n)); [right; by destruct (good ar)|].
  destruct (good ar); [|by right]. cbn [negb orb]. left. destruct (zread_Ok b (cursor ar - lo) n ltac:(lia) ltac:(lia) ltac:(lia)) as (bs & Hr & Hl & Hat). rewrite Hr. exists bs. split; [done|]. split; [done|].
  unfold zread in Hr. rewrite decide_True in Hr by lia. injection Hr as <-. by apply Forall_take, Forall_drop.
Qed.

Lemma AR_int_within hi cb n ar : within lo hi cb b ar -> 0 < n <= 8 -> hi + 16 < 2 ^ 32 -> aborts_or (fun '(v, ar) => fits n v /\ within lo (hi + 16) cb b ar) (AR_int LE n ar).
Proof.
  intros Hw Hn Hh. unfold AR_int. assert (Hs : within lo (hi + 8) cb b (seekAlignment n ar)).
  { unfold seekAlignment. pose proof (Z.mod_pos_bound (cursor ar -u32 buf_begin ar) n ltac:(lia)). destruct (_ >? 0); [|destruct Hw as (?&?&?&?); repeat split; try done; lia].
    pose proof (seek_within hi cb (n - (cursor ar -u32 buf_begin ar) mod n) ar Hw ltac:(lia) ltac:(lia)) as (?&?&?&?). repeat split; try done; lia. }
  destruct (readBytes_within _ _ n _ Hs ltac:(lia) ltac:(lia)) as [(bs & -> & Hl & Hbs) | ->]; cbn [mbind outcome_bind aborts_or default from_option]; unfold Datatypes.id; (split; [|
    match goal with |- within _ _ _ _ (seek _ _ ?a) => assert (Hs' : within lo (hi + 8) cb b a) by exact Hs; pose proof (seek_within _ _ n _ Hs' ltac:(lia) ltac:(lia)) as (?&?&?&?); repeat split; try done; lia end]).
  - rewrite <- Hl. destruct LE; [by apply le_val_fits|]. assert (zlen (reverse bs) = zlen bs) as <- by (unfold zlen; by rewrite length_reverse). by apply le_val_fits, Forall_reverse.
  - assert (Forall (fits 1) (replicate (Z.to_nat n) 0)) as Hz by (apply Forall_replicate; by split). assert (Hlz : zlen (replicate (Z.to_nat n) 0) = n) by (apply zlen_replicate; lia).
    rewrite <- Hlz at 1. rewrite reverse_replicate. destruct LE; by apply le_val_fits.
Qed.

Lemma AR_bytes_within hi cb n ar : within lo hi cb b ar -> 0 <= n < 2 ^ 31 -> hi + n < 2 ^ 32 -> aborts_or (fun '(_, ar) => within lo (hi + n) cb b ar) (AR_bytes n ar).
Proof.
  intros Hw Hn Hh. unfold AR_bytes. destruct (readBytes_within _ _ n _ Hw ltac:(lia) ltac:(lia)) as [(bs & -> & _) | ->]; cbn [mbind outcome_bind aborts_or]; by apply seek_within.
Qed.

Lemma prologue_within hi cb ar : within lo hi cb b ar -> aborts_or (within lo hi hi b) (prologue ar).
Proof. intros (E1 & E2 & Hc & Hcb). unfold prologue, rsl_assert. destruct (_ =? 0); [|done]. cbn [mbind outcome_bind aborts_or]. unfold within, set_base. cbn [buf buf_begin cursor cursor_base]. repeat split; try done; lia. Qed.

Lemma epilogue_within hi cb n ar : within lo hi cb b ar -> 0 <= n -> cb + n < 2 ^ 32 -> aborts_or (within lo (cb + n) 0 b) (epilogue n ar).
Proof.
  intros (E1 & E2 & Hc & Hcb) Hn Hh. unfold epilogue, rsl_assert. destruct (Z.eqb_spec (cursor_base ar) 0); [done|]. cbn [negb mbind outcome_bind]. destruct (_ >=? _); [|done]. cbn [mbind outcome_bind aborts_or].
  unfold within, set_base, set_cursor. cbn [buf buf_begin cursor cursor_base]. rewrite u32_small by lia. repeat split; try done; lia.
Qed.

Ltac next_within :=
  (eapply aborts_or_bind; [eapply AR_int_within; [eassumption|cbn; lia|lia]|intros [? ?] [? ?]]).

Lemma header_read_within W : forall ar hi, within lo hi 0 b ar -> hi + 300 < 2 ^ 32 -> aborts_or (fun '(h, ar) => (forall h', h = Some h' -> fits 2 (e_shnum h')) /\ within lo (hi + 64) 0 b ar) (header_read W LE ar).
Proof.
  intros ar hi Hw Hh. unfold header_read. destruct (good ar); cbn [negb]; [|cbn; destruct Hw as (?&?&?&?); split; [done|]; repeat split; try done; lia].
  assert (Hs : aborts_or (fun '(h, ar) => fits 2 (e_shnum h) /\ within lo (hi + 64) 0 b ar) (header_serialize W LE ar)).
  { unfold header_serialize. eapply aborts_or_bind; [by eapply prologue_within|]. intros ar1 Hw1. eapply aborts_or_bind; [eapply AR_bytes_within; [eassumption|done|unfold EI_NIDENT; lia]|]. intros [? ?] ?. unfold EI_NIDENT in *.
    destruct W; do 13 next_within; (eapply aborts_or_bind; [eapply epilogue_within; [eassumption|done|cbn; lia]|]); intros ar2 (?&?&?&?); cbn [aborts_or e_shnum header_size] in *; (split; [done|]); repeat split; try done; lia. }
  eapply aborts_or_bind; [exact Hs|]. intros [h ar1] [Hn1 Hw1]. destruct (good ar1); cbn [negb]; [|done]. destruct (header_isValid W h); cbn; (split; [|done]); [|done]. by intros h' [= <-].
Qed.

Lemma section_headers_within W n : forall i ar hi, within lo hi 0 b ar -> hi + 64 * Z.of_nat n + 300 < 2 ^ 32 -> aborts_or (fun _ => True) (section_headers W LE n i ar).
Proof.
  induction n as [|n IH]; intros i ar hi Hw Hh; [done|]. cbn [section_headers]. assert (Hs : aborts_or (fun '(_, ar) => within lo (hi + 64) 0 b ar) (section_header_read W LE i ar)).
  { unfold section_header_read. destruct (good ar); cbn [negb]; [|cbn; destruct Hw as (?&?&?&?); repeat split; try done; lia].
    assert (Hs : aborts_or (fun '(_, ar) => within lo (hi + 64) 0 b ar) (section_header_serialize W LE i ar)).
    { unfold section_header_serialize. eapply aborts_or_bind; [by eapply prologue_within|]. intros ar1 Hw1.
      destruct W; do 10 next_within; (eapply aborts_or_bind; [eapply epilogue_within; [eassumption|done|cbn; lia]|]); intros ar2 (?&?&?&?); cbn in *; repeat split; try done; lia. }
    eapply aborts_or_bind; [exact Hs|]. intros [h ar1] Hw1. cbn in Hw1. destruct (good ar1); done. }
  eapply aborts_or_bind; [exact Hs|]. intros [[sh|] ar1] Hw1; [|done]. eapply aborts_or_bind; [apply (IH (i + 1) ar1 (hi + 64)); [exact Hw1|lia]|]. intros [tab ar2] _. done.
Qed.
End any_bytes.


(** A 32-bit header with one section header at the given offset. *)
Definition demo_header (shoff : Z) : ELFHeader := mkHeader ([0x7f; 0x45; 0x4c; 0x46; 1; 1; 1] ++ replicate 9 0) 1 3 1 0 0 shoff 0 52 0 0 40 1 0.


(** An offset of [2^31] or more is taken as negative: the table is read in front of the buffer. *)
Theorem negative_offset_faults : exists h ar,
  header_read B32 true (ArchiveReader_new (enc_header B32 true (demo_header 0xffffff00)) 4096) = Ok (Some h, ar) /\ section_header_table_read B32 true h ar = Fault OutOfBounds.
Proof. exists (demo_header 0xffffff00), (mkAR (enc_header B32 true (demo_header 0xffffff00)) 4096 4148 0 true). split; vm_compute; reflexivity. Qed.

End ElfArchive.
