(* ===== verification/ElfObject.v ===== *)
(** * ElfObject: object files in memory

    [ELFObject], its sections and symbols ([include/ELFObject.h], [include/impl/ELFObject.hxx],
    [include/impl/ELFSection*.hxx], [include/impl/ELFSymbol.hxx]), the memory they are loaded into
    ([lib/MemChunk.cpp]), the call stubs ([lib/StubLayout.cpp]) and the global offset table
    ([lib/GOT.cpp]).  The operating system's [mmap] and [mprotect] and the vendor's allocator are
    arguments; the allocators see the live mappings.  [NDEBUG] is not defined. *)

From S2P Require Import Prelude Stream Memory ElfArchive.
Import Stream ElfArchive.

Module ElfObject.

Definition SHT_PROGBITS : Z := 1.
Definition SHT_SYMTAB : Z := 2.
Definition SHT_STRTAB : Z := 3.
Definition SHT_RELA : Z := 4.
Definition SHT_NOBITS : Z := 8.
Definition SHT_REL : Z := 9.
Definition SHN_UNDEF : Z := 0.
Definition SHN_ABS : Z := 0xfff1.
Definition SHN_COMMON : Z := 0xfff2.
Definition SHN_XINDEX : Z := 0xffff.
Definition SHF_WRITE : Z := 1.
Definition SHF_ALLOC : Z := 2.
Definition SHF_EXECINSTR : Z := 4.
Definition STT_NOTYPE : Z := 0.
Definition STT_OBJECT : Z := 1.
Definition STT_FUNC : Z := 2.
Definition STT_SECTION : Z := 3.
Definition STB_LOCAL : Z := 0.
Definition EM_386 : Z := 3.
Definition EM_MIPS : Z := 8.
Definition EM_ARM : Z := 40.
Definition EM_X86_64 : Z := 62.
Definition PROT_READ : Z := 1.
Definition PROT_WRITE : Z := 2.
Definition PROT_EXEC : Z := 4.
Definition MAP_FAILED : Z := 0xffffffff.
Definition R_ARM_THM_CALL : Z := 10.
Definition R_ARM_CALL : Z := 28.
Definition R_ARM_JUMP24 : Z := 29.
Definition R_ARM_THM_JUMP24 : Z := 30.
Definition R_MIPS_26 : Z := 4.

(** ** Memory chunks *)

(** A live mapping: address, size, and whether the vendor's allocator returned it. *)
Abbreviation mapping := (Z * Z * bool)%type.

Record MemChunk := mkChunk { chunk_buf : Z; buf_size : Z; bVendorBuf : bool; data : list cell; prot : Z }.

Definition MemChunk_new : MemChunk := mkChunk 0 0 true [] (Z.lor PROT_READ PROT_WRITE).

Definition invalidBuf (c : MemChunk) : bool := (chunk_buf c =? 0) || (chunk_buf c =? MAP_FAILED).

Section os.
Context (mmap : list mapping -> Z -> Z) (VendorAlloc : option (list mapping -> Z -> Z)) (mprotect : Z -> Z -> Z -> bool).

(** Fresh pages are zero; what the vendor's allocator returns is not initialised. *)
Definition allocate (maps : list mapping) (c : MemChunk) (size : Z) : bool * MemChunk * list mapping :=
  if size =? 0 then (true, c, maps)
  else
    let c := match VendorAlloc with Some f => mkChunk (f maps size) (buf_size c) (bVendorBuf c) (replicate (Z.to_nat size) None) (prot c) | None => c end in
    let c := if invalidBuf c then mkChunk (mmap maps size) (buf_size c) false (replicate (Z.to_nat size) (Some 0)) (prot c) else c in
    if invalidBuf c then (false, c, maps)
    else (true, mkChunk (chunk_buf c) size (bVendorBuf c) (data c) (prot c), (chunk_buf c, size, bVendorBuf c) :: maps).

Definition unmap (addr : Z) (maps : list mapping) : list mapping := filter (fun m => m.1.1 <> addr) maps.

Definition MemChunk_dtor (maps : list mapping) (c : MemChunk) : list mapping := if invalidBuf c then maps else unmap (chunk_buf c) maps.

Definition protect (p : Z) (c : MemChunk) : bool * MemChunk :=
  if buf_size c >? 0 then
    if mprotect (chunk_buf c) (buf_size c) p then (true, mkChunk (chunk_buf c) (buf_size c) (bVendorBuf c) (data c) p) else (false, c)
  else (true, c).

Definition chunk_store (c : MemChunk) (off : Z) (bs : list cell) : outcome MemChunk :=
  d ← zwrite (data c) off bs; Ok (mkChunk (chunk_buf c) (buf_size c) (bVendorBuf c) d (prot c)).

(** The [int32_t] at an offset. *)
Definition chunk_load32 (c : MemChunk) (off : Z) : outcome Z :=
  cs ← zread (data c) off 4; bs ← Memory.initialised cs; Ok (s32 (le_val bs)).
Definition chunk_store32 (c : MemChunk) (off v : Z) : outcome MemChunk := chunk_store c off (Some <$> bytes_le 4 v).

(** ** Stubs *)

Inductive stub_kind := StubARM | StubMIPS.

Record StubLayout := mkStubs { kind : stub_kind; table : Z; count : Z; stub_index : gmap Z Z }.

Definition getUnitStubSize (k : stub_kind) : Z := match k with StubARM => 8 | StubMIPS => 16 end.
Definition calcStubTableSize (k : stub_kind) (n : Z) : Z := n *u32 getUnitStubSize k.
Definition initStubTable (l : StubLayout) (table_ count_ : Z) : StubLayout := mkStubs (kind l) table_ count_ (stub_index l).

(** The code of a stub: [ldr pc, [pc, #-4]] and the address; or [lui], [ori], [jr], [nop]. *)
Definition stub_code (k : stub_kind) (addr : Z) : list Z :=
  match k with
  | StubARM => [0x04; 0xf0; 0x1f; 0xe5] ++ bytes_le 4 addr
  | StubMIPS => bytes_le 4 (Z.lor 0x3c190000 (Z.land (Z.shiftr addr 16) 0xffff)) ++ bytes_le 4 (Z.lor 0x37390000 (Z.land addr 0xffff)) ++ bytes_le 4 0x03200008 ++ bytes_le 4 0
  end.

(** The stubs are in the chunk of their section. *)
Definition setStubAddress (k : stub_kind) (c : MemChunk) (stub addr : Z) : outcome MemChunk := chunk_store c (stub - chunk_buf c) (Some <$> stub_code k addr).

(** A null result means that no slot is left. *)
Definition allocateStub (l : StubLayout) (c : MemChunk) (addr : Z) : outcome (Z * StubLayout * MemChunk) :=
  match stub_index l !! addr with
  | Some stub => Ok (stub, l, c)
  | None =>
      if count l =? 0 then Ok (0, l, c)
      else
        let stub := table l in
        c ← setStubAddress (kind l) c stub addr;
        Ok (stub, mkStubs (kind l) (table l +u32 getUnitStubSize (kind l)) (count l - 1) (<[addr := stub]> (stub_index l)), c)
  end.

(** ** The global offset table *)

Definition NUM_OF_GOT_ENTRY : Z := 16384.
Definition GP_OFFSET : Z := 0x8000.

Record GOT := mkGOT { got_symbol_indexes : list Z; got_symbol_addresses : list Z }.

Definition got_symbol_count (g : GOT) : Z := zlen (got_symbol_indexes g).

(** The loop over the entries from [i] on. *)
Fixpoint got_loop (indexes addresses : list Z) (i symbol_index addr : Z) (local : bool) : outcome (option Z) :=
  match indexes, addresses with
  | k :: indexes, a :: addresses =>
      if k =? symbol_index then
        if local then if a =? addr then Ok (Some i) else got_loop indexes addresses (i + 1) symbol_index addr local
        else _ ← rsl_assert (a =? addr); Ok (Some i)
      else got_loop indexes addresses (i + 1) symbol_index addr local
  | _, _ => Ok None
  end.

(** For a local symbol only the upper half of the address, rounded, is stored. *)
Definition got_value (addr : Z) (local : bool) : Z := if local then Z.land (addr +u32 0x8000) 0xffff0000 else addr.

Definition search_got (g : GOT) (symbol_index addr bind_type : Z) : outcome (Z * GOT) :=
  let local := bind_type =? STB_LOCAL in
  let addr := got_value addr local in
  found ← got_loop (got_symbol_indexes g) (got_symbol_addresses g) 0 symbol_index addr local;
  match found with
  | Some i => Ok (i, g)
  | None =>
      _ ← rsl_assert (got_symbol_count g <? NUM_OF_GOT_ENTRY);
      Ok (got_symbol_count g, mkGOT (got_symbol_indexes g ++ [symbol_index]) (got_symbol_addresses g ++ [addr]))
  end.

(** ** Objects *)

Inductive ELFSection :=
| StrTab (buf : list Z)
| SymTab (table : list (option ELFSymbol)) (name_map : gmap cstr Z)
| ProgBits (sh : ELFSectionHeader) (chunk : MemChunk) (stubs : option StubLayout)
| NoBits (sh : ELFSectionHeader) (chunk : MemChunk)
| RelTable (table : list (option ELFReloc)).

Record ELFObject := mkObject {
  header : ELFHeader;
  shtab : list ELFSectionHeader;
  name_map : gmap cstr Z;
  stab : list (option ELFSection);
  SHNCommonData : MemChunk;
  SHNCommonDataPtr : Z;
  SHNCommonDataFreeSize : Z;
  missingSymbols : bool }.

Definition set_stab (o : ELFObject) (s : list (option ELFSection)) : ELFObject :=
  mkObject (header o) (shtab o) (name_map o) s (SHNCommonData o) (SHNCommonDataPtr o) (SHNCommonDataFreeSize o) (missingSymbols o).
Definition set_common (o : ELFObject) (c : MemChunk) (p f : Z) : ELFObject := mkObject (header o) (shtab o) (name_map o) (stab o) c p f (missingSymbols o).
Definition set_missing (o : ELFObject) : ELFObject :=
  mkObject (header o) (shtab o) (name_map o) (stab o) (SHNCommonData o) (SHNCommonDataPtr o) (SHNCommonDataFreeSize o) true.
Definition set_name_map (o : ELFObject) (m : gmap cstr Z) : ELFObject :=
  mkObject (header o) (shtab o) m (stab o) (SHNCommonData o) (SHNCommonDataPtr o) (SHNCommonDataFreeSize o) (missingSymbols o).

(** The string from an offset on; a string without an end runs out of the table. *)
Definition str_at (buf : list Z) (i : Z) : outcome cstr :=
  let rest := drop (Z.to_nat i) buf in
  if bool_decide (0 ∈ rest) then Ok (cstr_of rest) else Fault OutOfBounds.

Definition getSectionByIndex (o : ELFObject) (i : Z) : outcome (option ELFSection) := znth (stab o) i.

(** The name of a section header; a null name is dereferenced by the callers. *)
Definition getSectionName (o : ELFObject) (i : Z) : outcome cstr :=
  sec ← znth (stab o) (e_shstrndx (header o));
  match sec with
  | Some (StrTab buf) => str_at buf i
  | Some _ => Fault BadCast
  | None => Fault NullDeref
  end.

(** The index found for a name; that of the first header for an unknown one. *)
Definition getByName (o : ELFObject) (name : cstr) : outcome Z :=
  match name_map o !! name with
  | Some i => Ok i
  | None => sh ← znth (shtab o) 0; Ok (index sh)
  end.

Definition getSectionByName (o : ELFObject) (name : cstr) : outcome (option ELFSection) := i ← getByName o name; znth (stab o) i.

Definition symtab_name : cstr := [0x2e; 0x73; 0x79; 0x6d; 0x74; 0x61; 0x62].
Definition strtab_name : cstr := [0x2e; 0x73; 0x74; 0x72; 0x74; 0x61; 0x62].
Definition rel_prefix : cstr := [0x2e; 0x72; 0x65; 0x6c].
Definition gp_disp : cstr := [0x5f; 0x67; 0x70; 0x5f; 0x64; 0x69; 0x73; 0x70].

(** ** Symbols *)

Definition st_type (s : ELFSymbol) : Z := Z.land (st_info s) 0xf.
Definition st_bind (s : ELFSymbol) : Z := Z.shiftr (st_info s) 4.
Definition isConcreteFunc (s : ELFSymbol) : bool := st_type s =? STT_FUNC.
Definition isExternFunc (s : ELFSymbol) : bool := st_type s =? STT_NOTYPE.
Definition setAddress (s : ELFSymbol) (a : Z) : ELFSymbol := mkSymbol (st_index s) (st_name s) (st_info s) (st_other s) (st_shndx s) (st_value s) (st_size s) a.

Definition symbol_name (o : ELFObject) (s : ELFSymbol) : outcome cstr :=
  sec ← getSectionByName o strtab_name;
  match sec with
  | Some (StrTab buf) => str_at buf (st_name s)
  | Some _ => Fault BadCast
  | None => Fault NullDeref
  end.

(** ** Common data *)

Definition initSHNCommonDataSize (maps : list mapping) (o : ELFObject) (size : Z) : outcome (bool * ELFObject * list mapping) :=
  _ ← rsl_assert (SHNCommonDataPtr o =? 0);
  let '(ok, c, maps) := allocate maps (SHNCommonData o) size in
  if ok then Ok (true, set_common o c (chunk_buf c) size, maps) else Ok (false, set_common o c (SHNCommonDataPtr o) (SHNCommonDataFreeSize o), maps).

(** The address, or null. *)
Definition allocateSHNCommonData (o : ELFObject) (size align : Z) : outcome (Z * ELFObject) :=
  _ ← rsl_assert ((size >? 0) && negb (align =? 0));
  _ ← rsl_assert (negb (SHNCommonDataPtr o =? 0));
  let rem := SHNCommonDataPtr o mod align in
  let '(p, f) := if negb (rem =? 0) then (SHNCommonDataPtr o +u32 (align - rem), SHNCommonDataFreeSize o -u32 (align - rem)) else (SHNCommonDataPtr o, SHNCommonDataFreeSize o) in
  if f <? size then Ok (0, set_common o (SHNCommonData o) p f)
  else Ok (p, set_common o (SHNCommonData o) (p +u32 size) (f -u32 size)).

(** ** Addresses of symbols *)

Definition chunk_of (sec : option ELFSection) : outcome MemChunk :=
  match sec with
  | None => Fault Aborted
  | Some (ProgBits _ c _) | Some (NoBits _ c) => Ok c
  | Some _ => Fault BadCast
  end.

(** [&st[0] + value] for the section of the symbol, which has bits; [nobits] says whether they may be
    those of a section without contents. *)
Definition bits_address (nobits : bool) (o : ELFObject) (s : ELFSymbol) : outcome (Z * ELFSymbol * ELFObject) :=
  sh ← znth (shtab o) (st_shndx s);
  _ ← rsl_assert ((sh_type sh =? SHT_PROGBITS) || nobits && (sh_type sh =? SHT_NOBITS));
  sec ← znth (stab o) (st_shndx s);
  c ← chunk_of sec;
  let a := chunk_buf c +u32 s32 (st_value s) in
  Ok (a, setAddress s a, o).

Definition common_address (o : ELFObject) (s : ELFSymbol) (align : Z) : outcome (Z * ELFSymbol * ELFObject) :=
  '(a, o) ← allocateSHNCommonData o (u32 (st_size s)) align;
  if a =? 0 then Fault Aborted else Ok (a, setAddress s a, o).

Definition special (idx : Z) : bool := (idx =? SHN_ABS) || (idx =? SHN_COMMON) || (idx =? SHN_UNDEF) || (idx =? SHN_XINDEX).

Definition getAddress (machine : Z) (autoAlloc : bool) (o : ELFObject) (s : ELFSymbol) : outcome (Z * ELFSymbol * ELFObject) :=
  if negb (my_addr s =? 0) then Ok (my_addr s, s, o)
  else
    let idx := st_shndx s in
    if st_type s =? STT_OBJECT then
      if idx =? SHN_COMMON then if autoAlloc then common_address o s (u32 (st_value s)) else Ok (0, s, o)
      else if idx =? SHN_UNDEF then
        if machine =? EM_MIPS then name ← symbol_name o s; if bool_decide (name = gp_disp) then Ok (0, s, o) else Fault Aborted
        else Fault Aborted
      else if (idx =? SHN_ABS) || (idx =? SHN_XINDEX) then Fault Aborted
      else
        sh ← znth (shtab o) idx;
        if sh_type sh =? SHT_NOBITS then common_address o s 16 else bits_address false o s
    else if st_type s =? STT_FUNC then if special idx then Fault Aborted else bits_address false o s
    else if st_type s =? STT_SECTION then if special idx then Fault Aborted else bits_address true o s
    else if st_type s =? STT_NOTYPE then
      if idx =? SHN_UNDEF then Ok (0, s, o)
      else if special idx then Fault Aborted else bits_address true o s
    else if bool_decide (st_type s ∈ [4; 5; 6; 10; 12; 13; 15]) then Fault Aborted
    else Ok (0, s, o).

(** ** Reading sections *)

Section reading.
Context (W : bitwidth) (LE : bool).

(** The bytes of a section: seek, then a read of its size between [prologue] and [epilogue]. *)
Definition read_section_bytes (sh : ELFSectionHeader) (ar : ArchiveReader) : outcome (option (list Z) * ArchiveReader) :=
  ar ← prologue (seek (sh_offset sh) true ar);
  '(bs, ar) ← readBytes (u32 (sh_size sh)) ar;
  ar ← epilogue (u32 (sh_size sh)) ar;
  Ok (bs, ar).

Definition StrTab_read (sh : ELFSectionHeader) (ar : ArchiveReader) : outcome (option ELFSection * ArchiveReader) :=
  '(bs, ar) ← read_section_bytes sh ar;
  Ok (if good ar then StrTab <$> bs else None, ar).

Definition SymTab_read (sh : ELFSectionHeader) (ar : ArchiveReader) : outcome (option ELFSection * ArchiveReader) :=
  _ ← rsl_assert (sh_entsize sh =? symbol_size W);
  let ar := seek (sh_offset sh) true ar in
  '(table, ar) ← read_entries (symbol_read W LE) (Z.to_nat (u32 (sh_size sh / sh_entsize sh))) 0 ar;
  Ok (if good ar then Some (SymTab table ∅) else None, ar).

(** The division comes before the size of an entry is checked. *)
Definition RelTable_read (sh : ELFSectionHeader) (ar : ArchiveReader) : outcome (option ELFSection * ArchiveReader) :=
  let rela := sh_type sh =? SHT_RELA in
  let ar := seek (sh_offset sh) true ar in
  if sh_entsize sh =? 0 then Fault DivByZero
  else
    let size := u32 (sh_size sh / sh_entsize sh) in
    _ ← rsl_assert (sh_entsize sh =? if rela then rela_size W else rel_size W);
    '(table, ar) ← read_entries (reloc_read W LE rela) (Z.to_nat size) 0 ar;
    Ok (if good ar then Some (RelTable table) else None, ar).

Definition NoBits_read (maps : list mapping) (sh : ELFSectionHeader) : option ELFSection * list mapping :=
  let '(ok, c, maps) := allocate maps MemChunk_new (u32 (sh_size sh)) in
  if ok then (Some (NoBits sh c), maps) else (None, maps).

(** The symbols that calls refer to. *)
Definition is_call (machine type : Z) : bool :=
  if machine =? EM_ARM then bool_decide (type ∈ [R_ARM_CALL; R_ARM_THM_CALL; R_ARM_JUMP24; R_ARM_THM_JUMP24]) else type =? R_MIPS_26.

Fixpoint call_symbols (machine : Z) (table : list (option ELFReloc)) : outcome (gset Z) :=
  match table with
  | [] => Ok ∅
  | None :: _ => Fault NullDeref
  | Some rel :: table => s ← call_symbols machine table; Ok (if is_call machine (reloc_type W rel) then {[u32 (getSymTabIndex W rel)]} ∪ s else s)
  end.

Definition getMaxNumStubs (machine : Z) (table : list (option ELFReloc)) : outcome Z :=
  if (machine =? EM_ARM) || (machine =? EM_MIPS) then s ← call_symbols machine table; Ok (Z.of_nat (size s))
  else if (machine =? EM_386) || (machine =? EM_X86_64) then Ok 0
  else Fault Aborted.

Definition stubs_for (machine : Z) : option StubLayout :=
  if machine =? EM_ARM then Some (mkStubs StubARM 0 0 ∅) else if machine =? EM_MIPS then Some (mkStubs StubMIPS 0 0 ∅) else None.

(** The number of stubs a section needs. *)
Definition max_num_stubs (o : ELFObject) (sh : ELFSectionHeader) : outcome Z :=
  name ← getSectionName o (sh_name sh);
  reltab ← getSectionByName o (rel_prefix ++ name);
  match reltab with
  | None => Ok 0
  | Some (RelTable t) => getMaxNumStubs (e_machine (header o)) t
  | Some _ => Fault BadCast
  end.

Definition ProgBits_read (maps : list mapping) (o : ELFObject) (sh : ELFSectionHeader) (ar : ArchiveReader) : outcome (option ELFSection * list mapping * ArchiveReader) :=
  let section_size := u32 ((sh_size sh +u32 3) / 4 * 4) in
  let stubs := stubs_for (e_machine (header o)) in
  '(alloc_size, num) ← match stubs with
    | Some l => n ← max_num_stubs o sh; Ok (section_size +u32 calcStubTableSize (kind l) n, n)
    | None => Ok (section_size, 0)
    end;
  let '(ok, c, maps) := allocate maps MemChunk_new alloc_size in
  if negb ok then Ok (None, maps, ar)
  else
    let stubs := (fun l => initStubTable l (chunk_buf c +u32 section_size) num) <$> stubs in
    '(bs, ar) ← read_section_bytes sh ar;
    match bs with
    | Some bs => c ← chunk_store c 0 (Some <$> bs); Ok (if good ar then Some (ProgBits sh c stubs) else None, if good ar then maps else MemChunk_dtor maps c, ar)
    | None => Ok (None, MemChunk_dtor maps c, ar)
    end.

Definition ELFSection_read (maps : list mapping) (o : ELFObject) (sh : ELFSectionHeader) (ar : ArchiveReader) : outcome (option ELFSection * list mapping * ArchiveReader) :=
  if sh_type sh =? SHT_STRTAB then '(s, ar) ← StrTab_read sh ar; Ok (s, maps, ar)
  else if sh_type sh =? SHT_SYMTAB then '(s, ar) ← SymTab_read sh ar; Ok (s, maps, ar)
  else if sh_type sh =? SHT_PROGBITS then ProgBits_read maps o sh ar
  else if sh_type sh =? SHT_NOBITS then let '(s, maps) := NoBits_read maps sh in Ok (s, maps, ar)
  else if (sh_type sh =? SHT_REL) || (sh_type sh =? SHT_RELA) then '(s, ar) ← RelTable_read sh ar; Ok (s, maps, ar)
  else Ok (None, maps, ar).

(** ** Reading an object *)

(** The sections but those with program bits, whose places stay empty. *)
Fixpoint read_sections (maps : list mapping) (o : ELFObject) (shs : list ELFSectionHeader) (ar : ArchiveReader) : outcome (ELFObject * list mapping * ArchiveReader) :=
  match shs with
  | [] => Ok (o, maps, ar)
  | sh :: shs =>
      '(sec, maps, ar) ← (if sh_type sh =? SHT_PROGBITS then Ok (None, maps, ar) else ELFSection_read maps o sh ar);
      read_sections maps (set_stab o (stab o ++ [sec])) shs ar
  end.

Fixpoint build_names (name_of : Z -> outcome cstr) (i : Z) (keys : list (option Z)) (m : gmap cstr Z) : outcome (gmap cstr Z) :=
  match keys with
  | [] => Ok m
  | Some k :: keys => name ← name_of k; build_names name_of (i + 1) keys (<[name := i]> m)
  | None :: keys => build_names name_of (i + 1) keys m
  end.

(** [ELFSectionHeaderTable::buildNameMap] *)
Definition buildNameMap (o : ELFObject) : outcome ELFObject :=
  m ← build_names (getSectionName o) 0 (map (fun sh => Some (sh_name sh)) (shtab o)) (name_map o); Ok (set_name_map o m).

(** [ELFSectionSymTab::buildNameMap] on the section called [.symtab]. *)
Definition symtab_buildNameMap (o : ELFObject) : outcome ELFObject :=
  i ← getByName o symtab_name;
  sec ← znth (stab o) i;
  match sec with
  | None => Fault Aborted
  | Some (SymTab t m) =>
      m ← build_names (fun k => symbol_name o (mkSymbol 0 k 0 0 0 0 0 0)) 0 (map (option_map st_name) t) m;
      s ← zset (stab o) i (Some (SymTab t m)); Ok (set_stab o s)
  | Some _ => Fault BadCast
  end.

(** The sections with program bits, in their places. *)
Fixpoint read_progbits (maps : list mapping) (o : ELFObject) (i : Z) (shs : list ELFSectionHeader) (ar : ArchiveReader) : outcome (ELFObject * list mapping * ArchiveReader) :=
  match shs with
  | [] => Ok (o, maps, ar)
  | sh :: shs =>
      if sh_type sh =? SHT_PROGBITS then
        '(sec, maps, ar) ← ELFSection_read maps o sh ar;
        s ← zset (stab o) i sec;
        read_progbits maps (set_stab o s) (i + 1) shs ar
      else read_progbits maps o (i + 1) shs ar
  end.

Definition ELFObject_read (maps : list mapping) (ar : ArchiveReader) : outcome (option ELFObject * list mapping * ArchiveReader) :=
  '(h, ar) ← header_read W LE ar;
  match h with
  | None => Ok (None, maps, ar)
  | Some h =>
      '(tab, ar) ← section_header_table_read W LE h ar;
      match tab with
      | None => Ok (None, maps, ar)
      | Some tab =>
          let o := mkObject h tab ∅ [] MemChunk_new 0 0 false in
          '(o, maps, ar) ← read_sections maps o tab ar;
          o ← buildNameMap o;
          o ← symtab_buildNameMap o;
          '(o, maps, ar) ← read_progbits maps o 0 tab ar;
          Ok (Some o, maps, ar)
      end
  end.

End reading.

(** [delete] of an object. *)
Definition section_dtor (maps : list mapping) (sec : option ELFSection) : list mapping :=
  match sec with Some (ProgBits _ c _) | Some (NoBits _ c) => MemChunk_dtor maps c | _ => maps end.

Definition ELFObject_dtor (maps : list mapping) (o : ELFObject) : list mapping := MemChunk_dtor (foldl section_dtor maps (stab o)) (SHNCommonData o).

End os.

End ElfObject.
