(* ===== verification/ElfReloc.v ===== *)
(** * ElfReloc: relocation and the interface of the link loader

    [ELFObject::relocate] with its four machines ([include/impl/ELFObject.hxx]) and
    [android/librsloader.cpp].  [int32_t] arithmetic wraps, as compilers make it; every access to an
    instruction goes through the memory of its section.  The caller's [find_sym] is an argument, as
    is the address of the global offset table. *)

From S2P Require Import Prelude Stream Memory ElfArchive ElfObject.
Import Stream ElfArchive ElfObject.

Module ElfReloc.

Definition R_ARM_ABS32 : Z := 2.
Definition R_ARM_MOVW_ABS_NC : Z := 43.
Definition R_ARM_MOVT_ABS : Z := 44.
Definition R_ARM_THM_MOVW_ABS_NC : Z := 47.
Definition R_ARM_THM_MOVT_ABS : Z := 48.
Definition R_386_32 : Z := 1.
Definition R_386_PC32 : Z := 2.
Definition R_MIPS_NONE : Z := 0.
Definition R_MIPS_16 : Z := 1.
Definition R_MIPS_32 : Z := 2.
Definition R_MIPS_HI16 : Z := 5.
Definition R_MIPS_LO16 : Z := 6.
Definition R_MIPS_GOT16 : Z := 9.
Definition R_MIPS_CALL16 : Z := 11.
Definition R_MIPS_GPREL32 : Z := 12.
Definition R_MIPS_JALR : Z := 37.

(** ** Instructions *)

Definition bits (v k mask : Z) : Z := Z.land (Z.shiftr v k) mask.

Definition SIGN_EXTEND (x l : Z) : Z := Z.lxor x (2 ^ (l - 1)) - 2 ^ (l - 1).

(** The two halves of a 32-bit Thumb instruction are stored the other way round. *)
Definition swap_halves (inst : Z) : Z := s32 (Z.lor (bits inst 16 0xffff) (Z.shiftl inst 16)).

Definition arm_call_addend (inst : Z) : Z := s32 (Z.shiftl (SIGN_EXTEND (Z.land inst 0xffffff) 24) 2).

Definition thm_call_addend (inst : Z) : Z :=
  let s := bits inst 26 1 in
  let u := bits inst 16 0x3ff in
  let l := Z.land inst 0x7ff in
  let j1 := bits inst 13 1 in
  let j2 := bits inst 11 1 in
  let i1 := Z.land (Z.lnot (Z.lxor j1 s)) 1 in
  let i2 := Z.land (Z.lnot (Z.lxor j2 s)) 1 in
  s32 (Z.shiftl (SIGN_EXTEND (Z.lor (Z.lor (Z.lor (Z.lor (Z.shiftl s 23) (Z.shiftl i1 22)) (Z.shiftl i2 21)) (Z.shiftl u 11)) l) 24) 1).

(** The distance does not fit into the 24 bits of the instruction. *)
Definition too_far (result : Z) : bool := (result >? 0x007fffff) && (result <? 0xff800000).

Definition arm_call_inst (inst result : Z) : Z := Z.lor (Z.land result 0x00ffffff) (Z.land (u32 inst) 0xff000000).

(** The instruction becomes [BLX]: a stub is ARM code. *)
Definition thm_call_inst (inst result : Z) : Z :=
  let inst := Z.land (u32 inst) 0xf800c000 in
  let s := bits result 23 1 in
  let u := bits result 11 0x3ff in
  let l := Z.land result 0x7fe in
  let i1 := bits result 22 1 in
  let i2 := bits result 21 1 in
  let j1 := Z.land (Z.lxor (Z.lnot i1) s) 1 in
  let j2 := Z.land (Z.lxor (Z.lnot i2) s) 1 in
  Z.lor (Z.lor (Z.lor (Z.lor (Z.lor inst (Z.shiftl s 26)) (Z.shiftl u 16)) l) (Z.shiftl j1 13)) (Z.shiftl j2 11).

Definition arm_mov_addend (inst : Z) : Z := Z.lor (Z.shiftr (Z.land inst 0xf0000) 4) (Z.land inst 0xfff).
Definition arm_mov_inst (inst result : Z) : Z := Z.lor (Z.lor (Z.shiftl (Z.land result 0xf000) 4) (Z.land result 0xfff)) (Z.land (u32 inst) 0xfff0f000).

Definition thm_mov_addend (inst : Z) : Z :=
  Z.lor (Z.lor (Z.lor (bits inst 4 0xf000) (bits inst 15 0x0800)) (bits inst 4 0x0700)) (Z.land inst 0x00ff).
Definition thm_mov_inst (inst result : Z) : Z :=
  Z.lor (Z.lor (Z.lor (Z.lor (Z.land (u32 inst) 0xfbf08f00) (Z.shiftl (Z.land result 0xf000) 4)) (Z.shiftl (Z.land result 0x0800) 15)) (Z.shiftl (Z.land result 0x0700) 4)) (Z.land result 0x00ff).

(** ** Access to the object *)

Definition get_sym (o : ELFObject) (si k : Z) : outcome ELFSymbol :=
  sec ← znth (stab o) si;
  match sec with
  | Some (SymTab t _) => s ← znth t k; of_option NullDeref s
  | Some _ => Fault BadCast
  | None => Fault Aborted
  end.

Definition put_sym (o : ELFObject) (si k : Z) (s : ELFSymbol) : outcome ELFObject :=
  sec ← znth (stab o) si;
  match sec with
  | Some (SymTab t m) => t ← zset t k (Some s); st ← zset (stab o) si (Some (SymTab t m)); Ok (set_stab o st)
  | Some _ => Fault BadCast
  | None => Fault Aborted
  end.

Definition get_text (o : ELFObject) (ti : Z) : outcome (MemChunk * option StubLayout) :=
  sec ← znth (stab o) ti;
  match sec with
  | Some (ProgBits _ c l) => Ok (c, l)
  | Some _ => Fault BadCast
  | None => Fault Aborted
  end.

Definition put_text (o : ELFObject) (ti : Z) (c : MemChunk) (l : option StubLayout) : outcome ELFObject :=
  sec ← znth (stab o) ti;
  match sec with
  | Some (ProgBits sh _ _) => st ← zset (stab o) ti (Some (ProgBits sh c l)); Ok (set_stab o st)
  | Some _ => Fault BadCast
  | None => Fault Aborted
  end.

Definition load_inst (o : ELFObject) (ti off : Z) : outcome Z := '(c, _) ← get_text o ti; chunk_load32 c off.
Definition store_inst (o : ELFObject) (ti off v : Z) : outcome ELFObject := '(c, l) ← get_text o ti; c ← chunk_store32 c off v; put_text o ti c l.

(** A stub in the section for an address; none of the callers goes on without one. *)
Definition stub_for (o : ELFObject) (ti addr : Z) : outcome (Z * ELFObject) :=
  '(c, l) ← get_text o ti;
  match l with
  | None => Fault Aborted
  | Some l =>
      '(stub, l, c) ← allocateStub l c addr;
      if stub =? 0 then Fault Aborted else o ← put_text o ti c (Some l); Ok (stub, o)
  end.

(** The address of a symbol, which is stored in it. *)
Definition sym_address (machine : Z) (o : ELFObject) (si k : Z) : outcome (Z * ELFSymbol * ELFObject) :=
  s ← get_sym o si k;
  '(a, s, o) ← getAddress machine true o s;
  o ← put_sym o si k s;
  Ok (a, s, o).

Section relocation.
Context (W : bitwidth) (find_sym : cstr -> Z) (got_address : Z).

(** Ask the caller for a symbol, and store the answer. *)
Definition find_external (o : ELFObject) (si k : Z) (s : ELFSymbol) : outcome (Z * ELFObject) :=
  name ← symbol_name o s;
  let a := find_sym name in
  let o := if a =? 0 then set_missing o else o in
  o ← put_sym o si k (setAddress s a);
  Ok (a, o).

(** ** ARM *)

(** An unresolved symbol without a type is external. *)
Definition arm_external (o : ELFObject) (si k : Z) (s : ELFSymbol) (Sv : Z) : outcome (Z * ELFObject) :=
  if (Sv =? 0) && (st_type s =? STT_NOTYPE) then '(a, o) ← find_external o si k s; Ok (s32 a, o) else Ok (Sv, o).

Definition arm_callee (o : ELFObject) (si k : Z) : outcome (Z * ELFObject) :=
  '(callee_addr, s, o) ← sym_address EM_ARM o si k;
  if st_type s =? STT_FUNC then if callee_addr =? 0 then Fault Aborted else Ok (callee_addr, o)
  else if st_type s =? STT_NOTYPE then if callee_addr =? 0 then find_external o si k s else Ok (callee_addr, o)
  else Fault Aborted.

Definition arm_call (o : ELFObject) (si ti k off P : Z) (thumb : bool) : outcome ELFObject :=
  inst ← load_inst o ti off;
  '(A, o) ← (if thumb then
      let inst := swap_halves inst in o ← store_inst o ti off inst; Ok (thm_call_addend inst, o)
    else Ok (arm_call_addend inst, o));
  '(callee_addr, o) ← arm_callee o si k;
  '(stub, o) ← stub_for o ti callee_addr;
  let Sv := s32 stub in
  inst ← load_inst o ti off;
  if thumb then
    let P := Z.land P (Z.lnot 3) in
    let result := u32 (Z.shiftr (s32 (s32 (Sv + A) - P)) 1) in
    if too_far result then Fault Aborted else store_inst o ti off (swap_halves (s32 (thm_call_inst inst result)))
  else
    let result := u32 (Z.shiftr (s32 (s32 (Sv + A) - P)) 2) in
    if too_far result then Fault Aborted else store_inst o ti off (arm_call_inst inst result).

Definition arm_mov (o : ELFObject) (ti off Sv T type : Z) : outcome ELFObject :=
  let Sv := if (type =? R_ARM_MOVT_ABS) || (type =? R_ARM_THM_MOVT_ABS) then Z.shiftr Sv 16 else Sv in
  inst ← load_inst o ti off;
  if (type =? R_ARM_MOVT_ABS) || (type =? R_ARM_MOVW_ABS_NC) then
    store_inst o ti off (arm_mov_inst inst (u32 (Sv + arm_mov_addend inst)))
  else
    let inst := swap_halves inst in
    let A := thm_mov_addend inst in
    let result := if type =? R_ARM_THM_MOVT_ABS then u32 (Sv + A) else u32 (Z.lor (s32 (Sv + A)) T) in
    store_inst o ti off (swap_halves (s32 (thm_mov_inst inst result))).

Definition relocateARM_one (o : ELFObject) (si ti : Z) (rel : ELFReloc) : outcome ELFObject :=
  let k := getSymTabIndex W rel in
  let off := u32 (r_offset rel) in
  '(c, _) ← get_text o ti;
  let P := s32 (chunk_buf c + off) in
  '(a, s, o) ← sym_address EM_ARM o si k;
  let Sv := s32 a in
  let T := if isConcreteFunc s && negb (Z.land (st_value s) 1 =? 0) then 1 else 0 in
  let type := reloc_type W rel in
  if type =? R_ARM_ABS32 then
    '(Sv, o) ← arm_external o si k s Sv;
    A ← load_inst o ti off;
    store_inst o ti off (Z.lor (s32 (Sv + A)) T)
  else if (type =? R_ARM_CALL) || (type =? R_ARM_JUMP24) then arm_call o si ti k off P false
  else if (type =? R_ARM_THM_CALL) || (type =? R_ARM_THM_JUMP24) then arm_call o si ti k off P true
  else if (type =? R_ARM_MOVT_ABS) || (type =? R_ARM_MOVW_ABS_NC) || (type =? R_ARM_THM_MOVW_ABS_NC) || (type =? R_ARM_THM_MOVT_ABS) then
    '(Sv, o) ← arm_external o si k s Sv;
    arm_mov o ti off Sv T type
  else Fault Aborted.

Fixpoint relocateARM (o : ELFObject) (si ti : Z) (reltab : list (option ELFReloc)) : outcome ELFObject :=
  match reltab with
  | [] => Ok o
  | None :: _ => Fault NullDeref
  | Some rel :: reltab => o ← relocateARM_one o si ti rel; relocateARM o si ti reltab
  end.

(** ** x86 *)

(** The address of a symbol, asked for when it has none. *)
Definition x86_symbol (machine : Z) (o : ELFObject) (si k : Z) : outcome (Z * ELFObject) :=
  '(a, s, o) ← sym_address machine o si k;
  if s32 a =? 0 then '(a, o) ← find_external o si k s; Ok (s32 a, o) else Ok (s32 a, o).

Definition relocateX86_32_one (o : ELFObject) (si ti : Z) (rel : ELFReloc) : outcome ELFObject :=
  let off := u32 (r_offset rel) in
  '(c, _) ← get_text o ti;
  let P := s32 (chunk_buf c + off) in
  A ← load_inst o ti off;
  '(Sv, o) ← x86_symbol EM_386 o si (getSymTabIndex W rel);
  let type := reloc_type W rel in
  if type =? R_386_PC32 then store_inst o ti off (s32 (s32 (Sv + A) - P))
  else if type =? R_386_32 then store_inst o ti off (s32 (Sv + A))
  else Fault Aborted.

Fixpoint relocateX86_32 (o : ELFObject) (si ti : Z) (reltab : list (option ELFReloc)) : outcome ELFObject :=
  match reltab with
  | [] => Ok o
  | None :: _ => Fault NullDeref
  | Some rel :: reltab => o ← relocateX86_32_one o si ti rel; relocateX86_32 o si ti reltab
  end.

(** [R_X86_64_64] writes 32 bits as well. *)
Definition relocateX86_64_one (o : ELFObject) (si ti : Z) (rel : ELFReloc) : outcome ELFObject :=
  let off := u32 (r_offset rel) in
  '(c, _) ← get_text o ti;
  let P := s32 (chunk_buf c + off) in
  let A := s32 (r_addend rel) in
  '(Sv, o) ← x86_symbol EM_X86_64 o si (getSymTabIndex W rel);
  let type := reloc_type W rel in
  if type =? 2 then store_inst o ti off (s32 (s32 (Sv + A) - P))
  else if (type =? 1) || (type =? 10) || (type =? 11) then store_inst o ti off (s32 (Sv + A))
  else Fault Aborted.

Fixpoint relocateX86_64 (o : ELFObject) (si ti : Z) (reltab : list (option ELFReloc)) : outcome ELFObject :=
  match reltab with
  | [] => Ok o
  | None :: _ => Fault NullDeref
  | Some rel :: reltab => o ← relocateX86_64_one o si ti rel; relocateX86_64 o si ti reltab
  end.

(** ** MIPS *)

(** The addend of the next [R_MIPS_LO16] entry for the symbol, if there is one. *)
Fixpoint next_lo16 (o : ELFObject) (si ti k : Z) (reltab : list (option ELFReloc)) : outcome Z :=
  match reltab with
  | [] => Ok 0
  | None :: _ => Fault NullDeref
  | Some rel :: reltab =>
      _ ← get_sym o si (getSymTabIndex W rel);
      if (reloc_type W rel =? R_MIPS_LO16) && (getSymTabIndex W rel =? k) then
        this_A ← load_inst o ti (u32 (r_offset rel)); Ok (s16 (Z.land this_A 0xffff))
      else next_lo16 o si ti k reltab
  end.

(** [*inst |= (v >> shift) & mask] *)
Definition or_inst (o : ELFObject) (ti off v shift mask : Z) : outcome ELFObject :=
  inst ← load_inst o ti off; store_inst o ti off (Z.lor (u32 inst) (bits v shift mask)).
Definition mask_inst (o : ELFObject) (ti off mask : Z) : outcome ELFObject :=
  inst ← load_inst o ti off; store_inst o ti off (Z.land (u32 inst) mask).

(** Jump through a stub in the section. *)
Definition mips_stub_jump (o : ELFObject) (si ti k off P : Z) (s : ELFSymbol) (target : Z) : outcome ELFObject :=
  '(stub, o) ← stub_for o ti (u32 target);
  o ← put_sym o si k (setAddress s stub);
  let Sv := s32 stub in
  o ← or_inst o ti off Sv 2 0x3ffffff;
  _ ← rsl_assert (Z.shiftr (s32 (P + 4)) 28 =? Z.shiftr Sv 28);
  Ok o.

Definition mips_26 (o : ELFObject) (si ti k off P A Sv : Z) (s : ELFSymbol) (need_stub : bool) : outcome ELFObject :=
  o ← mask_inst o ti off 0xfc000000;
  let A := Z.shiftl (Z.land A 0x3ffffff) 2 in
  if need_stub then _ ← rsl_assert (A =? 0); mips_stub_jump o si ti k off P s Sv
  else if st_bind s =? STB_LOCAL then
    let A := s32 (s32 (Z.lor A (Z.land (u32 (P + 4)) 0xf0000000)) + Sv) in
    or_inst o ti off A 2 0x3ffffff
  else
    let A := if negb (Z.land A 0x08000000 =? 0) then s32 (Z.lor A 0xf0000000) else A in
    let A := s32 (A + Sv) in
    o ← or_inst o ti off A 2 0x3ffffff;
    if negb (Z.shiftr (s32 (P + 4)) 28 =? Z.shiftr A 28) then mips_stub_jump o si ti k off P s A else Ok o.

Definition mips_got (g : GOT) (o : ELFObject) (si ti k off A Sv : Z) (s : ELFSymbol) (type : Z) (rest : list (option ELFReloc)) : outcome (GOT * ELFObject) :=
  o ← mask_inst o ti off 0xffff0000;
  let A := Z.land A 0xffff in
  A ← (if (type =? R_MIPS_GOT16) && (st_bind s =? STB_LOCAL) then lo ← next_lo16 o si ti k rest; Ok (s32 (s32 (Z.shiftl A 16) + lo))
       else _ ← rsl_assert (A =? 0); Ok A);
  '(got_index, g) ← search_got g (s32 k) (u32 (Sv + A)) (st_bind s);
  o ← or_inst o ti off (Z.shiftl got_index 2 - GP_OFFSET) 0 0xffff;
  Ok (g, o).

(** The symbol: asked for when it has no address, unless it is [_gp_disp]. *)
Definition mips_symbol (o : ELFObject) (si k : Z) : outcome (Z * bool * ELFObject) :=
  '(a, s, o) ← sym_address EM_MIPS o si k;
  if s32 a =? 0 then
    name ← symbol_name o s;
    if bool_decide (name = gp_disp) then Ok (0, false, o)
    else '(a, o) ← find_external o si k s; Ok (s32 a, true, o)
  else Ok (s32 a, false, o).

Definition mips_hi16 (o : ELFObject) (si ti k off P A Sv : Z) (s : ELFSymbol) (rest : list (option ELFReloc)) : outcome ELFObject :=
  o ← mask_inst o ti off 0xffff0000;
  lo ← next_lo16 o si ti k rest;
  let A := s32 (s32 (Z.shiftl (Z.land A 0xffff) 16) + lo) in
  name ← symbol_name o s;
  '(Sv, o) ← (if bool_decide (name = gp_disp) then
      let Sv := s32 (s32 (s32 got_address + GP_OFFSET) - P) in o ← put_sym o si k (setAddress s (u32 Sv)); Ok (Sv, o)
    else Ok (Sv, o));
  or_inst o ti off (s32 (s32 (Sv + A) + 0x8000)) 16 0xffff.

Definition mips_lo16 (o : ELFObject) (si ti k off A Sv : Z) (s : ELFSymbol) : outcome ELFObject :=
  o ← mask_inst o ti off 0xffff0000;
  let A := Z.land A 0xffff in
  name ← symbol_name o s;
  '(Sv, o) ← (if bool_decide (name = gp_disp) then '(a, _, o) ← sym_address EM_MIPS o si k; Ok (s32 a, o) else Ok (Sv, o));
  or_inst o ti off (s32 (Sv + A)) 0 0xffff.

Definition relocateMIPS_one (g : GOT) (o : ELFObject) (si ti : Z) (rel : ELFReloc) (rest : list (option ELFReloc)) : outcome (GOT * ELFObject) :=
  let k := getSymTabIndex W rel in
  let off := u32 (r_offset rel) in
  '(c, _) ← get_text o ti;
  let P := s32 (chunk_buf c + off) in
  A ← load_inst o ti off;
  '(Sv, need_stub, o) ← mips_symbol o si k;
  s ← get_sym o si k;
  let type := reloc_type W rel in
  if (type =? R_MIPS_NONE) || (type =? R_MIPS_JALR) then Ok (g, o)
  else if type =? R_MIPS_16 then
    let A := s32 (Sv + s16 (Z.land A 0xffff)) in
    _ ← rsl_assert ((A >=? -32768) && (A <=? 32767));
    o ← mask_inst o ti off 0xffff0000; o ← or_inst o ti off A 0 0xffff; Ok (g, o)
  else if type =? R_MIPS_32 then o ← store_inst o ti off (s32 (Sv + A)); Ok (g, o)
  else if type =? R_MIPS_26 then o ← mips_26 o si ti k off P A Sv s need_stub; Ok (g, o)
  else if type =? R_MIPS_HI16 then o ← mips_hi16 o si ti k off P A Sv s rest; Ok (g, o)
  else if type =? R_MIPS_LO16 then o ← mips_lo16 o si ti k off A Sv s; Ok (g, o)
  else if (type =? R_MIPS_GOT16) || (type =? R_MIPS_CALL16) then mips_got g o si ti k off A Sv s type rest
  else if type =? R_MIPS_GPREL32 then o ← store_inst o ti off (s32 (s32 (A + Sv) - s32 (s32 got_address + GP_OFFSET))); Ok (g, o)
  else Fault Aborted.

Fixpoint relocateMIPS (g : GOT) (o : ELFObject) (si ti : Z) (reltab : list (option ELFReloc)) : outcome (GOT * ELFObject) :=
  match reltab with
  | [] => Ok (g, o)
  | None :: _ => Fault NullDeref
  | Some rel :: reltab => '(g, o) ← relocateMIPS_one g o si ti rel reltab; relocateMIPS g o si ti reltab
  end.

(** ** Whole objects *)

(** The room needed for the objects without a place of their own. *)
Fixpoint common_size (shtab : list ELFSectionHeader) (syms : list (option ELFSymbol)) (size : Z) : outcome Z :=
  match syms with
  | [] => Ok size
  | None :: _ => Fault NullDeref
  | Some s :: syms =>
      let idx := st_shndx s in
      if negb (st_type s =? STT_OBJECT) then common_size shtab syms size
      else if idx =? SHN_COMMON then common_size shtab syms (size +u32 (u32 (st_size s) + u32 (st_value s)))
      else if special idx then common_size shtab syms size
      else
        sh ← znth shtab idx;
        common_size shtab syms (if sh_type sh =? SHT_NOBITS then size +u32 (u32 (st_size s) + 16) else size)
  end.

(** One relocation section for the section at [ti]. *)
Definition relocate_table (g : GOT) (o : ELFObject) (ti : Z) (reltab : list (option ELFReloc)) : outcome (GOT * ELFObject) :=
  let machine := e_machine (header o) in
  let run w (k : Z -> outcome (GOT * ELFObject)) :=
    _ ← rsl_assert (bool_decide (W = w));
    si ← getByName o symtab_name;
    sec ← znth (stab o) si;
    match sec with None => Fault Aborted | Some _ => k si end in
  if machine =? EM_ARM then run B32 (fun si => o ← relocateARM o si ti reltab; Ok (g, o))
  else if machine =? EM_386 then run B32 (fun si => o ← relocateX86_32 o si ti reltab; Ok (g, o))
  else if machine =? EM_X86_64 then run B64 (fun si => o ← relocateX86_64 o si ti reltab; Ok (g, o))
  else if machine =? EM_MIPS then run B32 (fun si => relocateMIPS g o si ti reltab)
  else Fault Aborted.

(** The sections with relocations, from [i] on; the section they are for is found by its name,
    [.rel] or [.rela] taken off. *)
Fixpoint relocate_sections (g : GOT) (o : ELFObject) (i : Z) (shs : list ELFSectionHeader) : outcome (GOT * ELFObject) :=
  match shs with
  | [] => Ok (g, o)
  | sh :: shs =>
      if (sh_type sh =? SHT_REL) || (sh_type sh =? SHT_RELA) then
        sec ← znth (stab o) i;
        match sec with
        | None => Fault Aborted
        | Some (RelTable t) =>
            name ← getSectionName o (sh_name sh + (if sh_type sh =? SHT_REL then 4 else 5));
            ti ← getByName o name;
            need_rel ← znth (stab o) ti;
            match need_rel with
            | None => Fault Aborted
            | Some _ => '(g, o) ← relocate_table g o ti t; relocate_sections g o (i + 1) shs
            end
        | Some _ => Fault BadCast
        end
      else relocate_sections g o (i + 1) shs
  end.

Section memory.
Context (mmap : list mapping -> Z -> Z) (VendorAlloc : option (list mapping -> Z -> Z)) (mprotect : Z -> Z -> Z -> bool).

Definition section_prot (sh : ELFSectionHeader) : Z :=
  Z.lor (Z.lor PROT_READ (if negb (Z.land (sh_flags sh) SHF_WRITE =? 0) then PROT_WRITE else 0)) (if negb (Z.land (sh_flags sh) SHF_EXECINSTR =? 0) then PROT_EXEC else 0).

(** A failure to protect is not noticed. *)
Definition protect_section (sh : ELFSectionHeader) (sec : option ELFSection) : outcome (option ELFSection) :=
  if (sh_type sh =? SHT_PROGBITS) || (sh_type sh =? SHT_NOBITS) then
    match sec with
    | None => Ok None
    | Some (ProgBits h c l) => Ok (Some (ProgBits h (protect mprotect (section_prot h) c).2 l))
    | Some (NoBits h c) => Ok (Some (NoBits h (protect mprotect (section_prot h) c).2))
    | Some _ => Fault BadCast
    end
  else Ok sec.

Fixpoint protect_sections (shs : list ELFSectionHeader) (secs : list (option ELFSection)) : outcome (list (option ELFSection)) :=
  match shs, secs with
  | sh :: shs, sec :: secs => sec ← protect_section sh sec; secs ← protect_sections shs secs; Ok (sec :: secs)
  | _, _ => Ok secs
  end.

Definition relocate (maps : list mapping) (g : GOT) (o : ELFObject) : outcome (list mapping * GOT * ELFObject) :=
  sec ← getSectionByName o symtab_name;
  match sec with
  | None => Fault Aborted
  | Some (SymTab t _) =>
      size ← common_size (shtab o) t 0;
      '(ok, o, maps) ← initSHNCommonDataSize mmap VendorAlloc maps o size;
      if negb ok then Ok (maps, g, set_missing o)
      else
        '(g, o) ← relocate_sections g o 0 (shtab o);
        secs ← protect_sections (shtab o) (stab o);
        Ok (maps, g, set_stab o secs)
  | Some _ => Fault BadCast
  end.

(** ** The interface *)

Definition rsloaderLoadExecutable (maps : list mapping) (buf : list Z) (begin : Z) : outcome (option ELFObject * list mapping) :=
  '(o, maps, _) ← ELFObject_read mmap VendorAlloc W true maps (ArchiveReader_new buf begin);
  Ok (o, maps).

Definition rsloaderRelocateExecutable (maps : list mapping) (g : GOT) (o : ELFObject) : outcome (bool * list mapping * GOT * ELFObject) :=
  '(maps, g, o) ← relocate maps g o;
  Ok (negb (missingSymbols o), maps, g, o).

Definition rsloaderDisposeExec (maps : list mapping) (o : ELFObject) : list mapping := ELFObject_dtor maps o.

Definition rsloaderCreateExec (maps : list mapping) (g : GOT) (buf : list Z) (begin : Z) : outcome (option ELFObject * list mapping * GOT) :=
  '(o, maps) ← rsloaderLoadExecutable maps buf begin;
  match o with
  | None => Ok (None, maps, g)
  | Some o =>
      '(ok, maps, g, o) ← rsloaderRelocateExecutable maps g o;
      if (ok : bool) then Ok (Some o, maps, g) else Ok (None, rsloaderDisposeExec maps o, g)
  end.

End memory.

(** The symbol table, its names, and where it is. *)
Definition symtab_of (o : ELFObject) : outcome (option (Z * list (option ELFSymbol) * gmap cstr Z)) :=
  si ← getByName o symtab_name;
  sec ← znth (stab o) si;
  match sec with
  | None => Ok None
  | Some (SymTab t m) => Ok (Some (si, t, m))
  | Some _ => Fault BadCast
  end.

Definition rsloaderGetSymbolAddress (o : ELFObject) (name : cstr) : outcome (Z * ELFObject) :=
  st ← symtab_of o;
  match st with
  | None => Ok (0, o)
  | Some (si, t, m) =>
      match m !! name with
      | None => Ok (0, o)
      | Some k =>
          s ← get_sym o si k;
          '(a, s, o) ← getAddress (e_machine (header o)) false o s;
          o ← put_sym o si k s;
          Ok (a, o)
      end
  end.

Definition rsloaderGetSymbolSize (o : ELFObject) (name : cstr) : outcome Z :=
  st ← symtab_of o;
  match st with
  | None => Ok 0
  | Some (si, t, m) => match m !! name with None => Ok 0 | Some k => (s ← get_sym o si k; Ok (u32 (st_size s))) end
  end.

(** The symbols that are functions of the object. *)
Definition funcs (t : list (option ELFSymbol)) : list ELFSymbol := filter (fun s => isConcreteFunc s = true) (omap (fun s => s) t).

Definition rsloaderGetFuncCount (o : ELFObject) : outcome Z :=
  st ← symtab_of o; Ok (match st with None => 0 | Some (_, t, _) => zlen (funcs t) end).

Fixpoint func_names (o : ELFObject) (ss : list ELFSymbol) : outcome (list cstr) :=
  match ss with [] => Ok [] | s :: ss => name ← symbol_name o s; names ← func_names o ss; Ok (name :: names) end.

Definition rsloaderGetFuncNameList (o : ELFObject) (size : Z) : outcome (list cstr) :=
  st ← symtab_of o;
  match st with None => Ok [] | Some (_, t, _) => func_names o (take (Z.to_nat size) (funcs t)) end.

End relocation.

End ElfReloc.
