(* ===== verification/ElfInst.v ===== *)
(** * ElfInst: what relocation does to an instruction

    The branch distances and immediates that the relocated instructions hold, by the encodings of
    the architectures: the encoders and decoders of [ELFObject.hxx] against reference definitions. *)

From S2P Require Import Prelude Bits ElfReloc.
Import ElfReloc.

Module ElfInst.

(** ** Reference definitions *)

(** Bits [k] to [k + n - 1]. *)
Definition slice (v k n : Z) : Z := (v / 2 ^ k) mod 2 ^ n.

(** The distance of [B] and [BL], in bytes from the address of the instruction plus 8. *)
Definition arm_branch (inst : Z) : Z := 4 * swrap 24 (slice inst 0 24).

(** The distance of [BLX] in Thumb code, from the aligned address of the instruction plus 4. *)
Definition thumb_blx (inst : Z) : Z :=
  let s := slice inst 26 1 in
  let i1 := if slice inst 13 1 =? s then 1 else 0 in
  let i2 := if slice inst 11 1 =? s then 1 else 0 in
  swrap 25 (s * 2 ^ 24 + i1 * 2 ^ 23 + i2 * 2 ^ 22 + slice inst 16 10 * 2 ^ 12 + slice inst 1 10 * 2 ^ 2).

(** The 16-bit immediates of [MOVW] and [MOVT]. *)
Definition arm_imm16 (inst : Z) : Z := slice inst 16 4 * 2 ^ 12 + slice inst 0 12.
Definition thumb_imm16 (inst : Z) : Z := slice inst 16 4 * 2 ^ 12 + slice inst 26 1 * 2 ^ 11 + slice inst 12 3 * 2 ^ 8 + slice inst 0 8.

(** ** Fields as bit expressions *)

Lemma slice_bits v k n : 0 <= k -> 0 <= n -> slice v k n = Z.land (Z.shiftr v k) (Z.ones n).
Proof. intros. unfold slice. by rewrite Z.land_ones, Z.shiftr_div_pow2 by done. Qed.

Lemma bits_slice v k n m : m = Z.ones n -> 0 <= k -> 0 <= n -> ElfReloc.bits v k m = slice v k n.
Proof. intros ->. intros. by rewrite slice_bits. Qed.

Lemma slice_range v k n : 0 <= n -> 0 <= slice v k n < 2 ^ n.
Proof. intros. apply Z.mod_pos_bound. lia. Qed.

(** Numbers of at most 32 bits with the same low bits are equal. *)
Lemma u32_inj a b : 0 <= a < 4294967296 -> 0 <= b < 4294967296 -> u32 a = u32 b -> a = b.
Proof. intros Ha Hb H. by rewrite !u32_small in H. Qed.

Lemma swrap_sext x l : 0 < l -> 0 <= x < 2 ^ l -> SIGN_EXTEND x l = swrap l x.
Proof.
  intros Hl Hx. unfold SIGN_EXTEND, swrap. assert (E : 2 ^ l = 2 * 2 ^ (l - 1)) by (rewrite <- Z.pow_succ_r by lia; f_equal; lia). set (h := 2 ^ (l - 1)) in *. f_equal. assert (Hh : 0 < h) by (apply Z.pow_pos_nonneg; lia).
  destruct (Z.lt_ge_cases x h) as [Hlt|Hge].
  - rewrite Z.mod_small by lia. symmetry. apply Z.add_nocarry_lxor, Z.bits_inj'. intros n Hn. rewrite Z.land_spec, Z.bits_0. unfold h. rewrite Z.pow2_bits_eqb by lia. destruct (Z.eqb_spec (l - 1) n) as [<-|]; [|apply andb_false_r].
    rewrite andb_true_r. rewrite <- (Z.mod_small x (2 ^ (l - 1))) by (fold h; lia). apply Z.mod_pow2_bits_high. lia.
  - replace ((x + h) mod 2 ^ l) with (x - h) by (apply (Z.mod_unique _ _ 1); lia). replace x with ((x - h) + h) at 1 by lia. set (y := x - h). assert (Hy : 0 <= y < h) by lia.
    rewrite (Z.add_nocarry_lxor y h), Z.lxor_assoc, Z.lxor_nilpotent, Z.lxor_0_r; [done|]. apply Z.bits_inj'. intros n Hn. rewrite Z.land_spec, Z.bits_0. unfold h. rewrite Z.pow2_bits_eqb by lia. destruct (Z.eqb_spec (l - 1) n) as [<-|]; [|apply andb_false_r].
    rewrite andb_true_r. rewrite <- (Z.mod_small y (2 ^ (l - 1))) by (fold h; lia). apply Z.mod_pow2_bits_high. lia.
Qed.

Lemma lor_disjoint a b k : 0 <= k -> a mod 2 ^ k = 0 -> 0 <= b < 2 ^ k -> Z.lor a b = a + b.
Proof.
  intros Hk Ha Hb. rewrite Z.lor_comm, Z.add_comm. replace a with (a / 2 ^ k * 2 ^ k) by (pose proof (Z.div_mod a (2 ^ k)); lia). rewrite <- Z.shiftl_mul_pow2 by done. rewrite lor_shiftl_add by done. by rewrite Z.shiftl_mul_pow2.
Qed.

Lemma s32_double x : - 2 ^ 30 <= x < 2 ^ 30 -> s32 (Z.shiftl x 1) = 2 * x.
Proof. intros. rewrite Z.shiftl_mul_pow2 by lia. rewrite s32_small by lia. lia. Qed.

Lemma swrap24_range x : - 2 ^ 23 <= swrap 24 x < 2 ^ 23.
Proof. unfold swrap. pose proof (Z.mod_pos_bound (x + 2 ^ (24 - 1)) (2 ^ 24) ltac:(lia)). change (2 ^ (24 - 1)) with (2 ^ 23) in *. lia. Qed.

Lemma swrap_double x : 2 * swrap 24 x = swrap 25 (2 * x).
Proof. unfold swrap. replace (2 * x + 2 ^ (25 - 1)) with (2 * (x + 2 ^ (24 - 1))) by lia. change (2 ^ 25) with (2 * 2 ^ 24). rewrite Z.mul_mod_distr_l by lia. lia. Qed.

Lemma arm_branch_addend inst : arm_call_addend inst = arm_branch inst.
Proof.
  unfold arm_call_addend, arm_branch. rewrite slice_bits, Z.shiftr_0_r by lia. change 0xffffff with (Z.ones 24). pose proof (Z.land_ones inst 24 ltac:(lia)) as E. pose proof (Z.mod_pos_bound inst (2 ^ 24) ltac:(lia)).
  rewrite swrap_sext by lia. pose proof (swrap24_range (Z.land inst (Z.ones 24))). rewrite Z.shiftl_mul_pow2 by lia. rewrite s32_small by lia. lia.
Qed.

Lemma bit01 v k : slice v k 1 = 0 \/ slice v k 1 = 1.
Proof. pose proof (slice_range v k 1 ltac:(lia)). lia. Qed.

Lemma thumb_blx_addend inst : inst mod 2 = 0 -> thm_call_addend inst = thumb_blx inst.
Proof.
  intros H0. unfold thm_call_addend, thumb_blx. cbv zeta. change (Z.land inst 0x7ff) with (Z.land (Z.shiftr inst 0) (Z.ones 11)). rewrite <- slice_bits by lia. rewrite (bits_slice inst 26 1 1), (bits_slice inst 13 1 1), (bits_slice inst 11 1 1), (bits_slice inst 16 10 0x3ff) by (lia || done).
  assert (El : slice inst 0 11 = 2 * slice inst 1 10).
  { unfold slice. rewrite Z.pow_0_r, Z.div_1_r. change (2 ^ 11) with (2 * 2 ^ 10). change (2 ^ 1) with 2. rewrite Z.rem_mul_r by lia. lia. }
  pose proof (slice_range inst 16 10 ltac:(lia)). pose proof (slice_range inst 1 10 ltac:(lia)). rewrite El.
  assert (Ei : forall j s, (j = 0 \/ j = 1) -> (s = 0 \/ s = 1) -> Z.land (Z.lnot (Z.lxor j s)) 1 = if j =? s then 1 else 0) by (intros j s [-> | ->] [-> | ->]; reflexivity).
  rewrite !Ei by apply bit01. set (s := slice inst 26 1). assert (Hs : s = 0 \/ s = 1) by apply bit01. set (i1 := if slice inst 13 1 =? s then 1 else 0). set (i2 := if slice inst 11 1 =? s then 1 else 0).
  assert (Hi1 : i1 = 0 \/ i1 = 1) by (unfold i1; destruct (slice inst 13 1 =? s); lia). assert (Hi2 : i2 = 0 \/ i2 = 1) by (unfold i2; destruct (slice inst 11 1 =? s); lia). clearbody s i1 i2. set (u := slice inst 16 10) in *. set (l := slice inst 1 10) in *. clearbody u l.
  rewrite (Z.shiftl_mul_pow2 s), (Z.shiftl_mul_pow2 i1), (Z.shiftl_mul_pow2 i2), (Z.shiftl_mul_pow2 u) by lia.
  rewrite (lor_disjoint (s * 2 ^ 23) (i1 * 2 ^ 22) 23); [|lia|apply Z.mod_mul; lia|destruct Hi1 as [-> | ->]; lia].
  rewrite (lor_disjoint (s * 2 ^ 23 + i1 * 2 ^ 22) (i2 * 2 ^ 21) 22) by (lia || (replace (s * 2 ^ 23 + i1 * 2 ^ 22) with ((2 * s + i1) * 2 ^ 22) by lia; apply Z.mod_mul; lia)).
  rewrite (lor_disjoint _ (u * 2 ^ 11) 21) by (lia || (replace (s * 2 ^ 23 + i1 * 2 ^ 22 + i2 * 2 ^ 21) with ((4 * s + 2 * i1 + i2) * 2 ^ 21) by lia; apply Z.mod_mul; lia)).
  rewrite (lor_disjoint _ (2 * l) 11) by (lia || (replace (s * 2 ^ 23 + i1 * 2 ^ 22 + i2 * 2 ^ 21 + u * 2 ^ 11) with ((4096 * s + 2048 * i1 + 1024 * i2 + u) * 2 ^ 11) by lia; apply Z.mod_mul; lia)).
  rewrite swrap_sext by lia. pose proof (swrap24_range (s * 2 ^ 23 + i1 * 2 ^ 22 + i2 * 2 ^ 21 + u * 2 ^ 11 + 2 * l)). rewrite s32_double by lia. rewrite swrap_double. f_equal. lia.
Qed.

(** ** Relocated branches *)

Lemma land_range v m : 0 <= m -> 0 <= Z.land v m <= m.
Proof. intros Hm. split; [apply Z.land_nonneg; by right|]. rewrite Z.land_comm. destruct (Z.lt_ge_cases m 0); [lia|]. apply Z.ldiff_le; [done|]. apply Z.bits_inj'. intros n Hn. rewrite Z.ldiff_spec, Z.land_spec, Z.bits_0. by destruct (Z.testbit m n), (Z.testbit v n). Qed.

Lemma arm_call_field inst r : Z.land (arm_call_inst inst r) 0xffffff = Z.land r 0xffffff.
Proof.
  apply u32_inj; [pose proof (land_range (arm_call_inst inst r) 0xffffff); lia|pose proof (land_range r 0xffffff); lia|]. unfold arm_call_inst. Bits.bits32.
Qed.

Lemma arm_call_top inst r : Z.land (arm_call_inst inst r) 0xff000000 = Z.land (u32 inst) 0xff000000.
Proof.
  apply u32_inj; [pose proof (land_range (arm_call_inst inst r) 0xff000000); lia|pose proof (land_range (u32 inst) 0xff000000); lia|]. unfold arm_call_inst. Bits.bits32.
Qed.

(** The fields of the Thumb branch, put together again. *)
Definition thm_field (inst : Z) : Z :=
  let s := ElfReloc.bits inst 26 1 in
  let i1 := Z.land (Z.lnot (Z.lxor (ElfReloc.bits inst 13 1) s)) 1 in
  let i2 := Z.land (Z.lnot (Z.lxor (ElfReloc.bits inst 11 1) s)) 1 in
  Z.lor (Z.lor (Z.lor (Z.lor (Z.shiftl s 23) (Z.shiftl i1 22)) (Z.shiftl i2 21)) (Z.shiftl (ElfReloc.bits inst 16 0x3ff) 11)) (Z.land inst 0x7ff).

Lemma thm_call_field inst r : u32 (thm_field (thm_call_inst inst r)) = u32 (Z.land r 0xfffffe).
Proof. unfold thm_field, thm_call_inst, ElfReloc.bits. cbv zeta. Bits.bits32. Qed.

(** A distance that is not too far is what its low 24 bits say. *)
Lemma near q : - 2 ^ 30 <= q < 2 ^ 30 -> too_far (u32 q) = false -> swrap 24 (Z.land (u32 q) 0xffffff) = q.
Proof.
  intros Hq Hf. change 0xffffff with (Z.ones 24). rewrite Z.land_ones by lia. unfold too_far in Hf. assert (Hr : - 2 ^ 23 <= q < 2 ^ 23).
  { destruct (Z.lt_ge_cases q 0).
    - assert (E : u32 q = q + 2 ^ 32) by (unfold u32, wrap; symmetry; apply (Z.mod_unique _ _ (-1)); lia). rewrite E in Hf. destruct (Z.gtb_spec (q + 2 ^ 32) 0x7fffff), (Z.ltb_spec (q + 2 ^ 32) 0xff800000); cbn in Hf; (discriminate || lia).
    - rewrite u32_small in Hf by lia. destruct (Z.gtb_spec q 0x7fffff), (Z.ltb_spec q 0xff800000); cbn in Hf; (discriminate || lia). }
  unfold u32, wrap, swrap. rewrite <- Znumtheory.Zmod_div_mod by (try lia; exists (2 ^ 8); done). rewrite Zplus_mod_idemp_l. change (2 ^ (24 - 1)) with (2 ^ 23). rewrite Z.mod_small by lia. lia.
Qed.

(** The distance in a relocated [BL], and in a relocated Thumb [BLX]. *)
Lemma arm_call_target inst D : - 2 ^ 31 <= D < 2 ^ 31 -> D mod 4 = 0 -> too_far (u32 (Z.shiftr D 2)) = false -> arm_branch (arm_call_inst inst (u32 (Z.shiftr D 2))) = D.
Proof.
  intros HD H4 Hf. rewrite Z.shiftr_div_pow2 in * by lia. change (2 ^ 2) with 4 in *. unfold arm_branch. rewrite slice_bits, Z.shiftr_0_r by lia. change (Z.ones 24) with 0xffffff. rewrite arm_call_field, near; [|Z.to_euclidean_division_equations; lia|done]. Z.to_euclidean_division_equations; lia.
Qed.

Lemma thm_call_even inst r : thm_call_inst inst r mod 2 = 0.
Proof.
  transitivity (Z.land (thm_call_inst inst r) 1); [symmetry; apply (Z.land_ones _ 1); lia|]. apply u32_inj; [pose proof (land_range (thm_call_inst inst r) 1); lia|lia|]. unfold thm_call_inst, ElfReloc.bits. cbv zeta. Bits.bits32.
Qed.

Lemma lor_bound n a b : 0 <= n -> 0 <= a < 2 ^ n -> 0 <= b < 2 ^ n -> 0 <= Z.lor a b < 2 ^ n.
Proof.
  intros Hn Ha Hb. split; [apply Z.lor_nonneg; lia|]. assert (E : Z.lor a b / 2 ^ n = 0); [|apply Z.div_small_iff in E; [lia|lia]].
  rewrite <- Z.shiftr_div_pow2, Z.shiftr_lor, !Z.shiftr_div_pow2, !Z.div_small by lia. done.
Qed.

Lemma shl_bound v m k n : 0 <= k <= n -> 0 <= m < 2 ^ (n - k) -> 0 <= Z.shiftl (Z.land v m) k < 2 ^ n.
Proof.
  intros Hk Hm. pose proof (land_range v m ltac:(lia)). rewrite Z.shiftl_mul_pow2 by lia. assert (E : 2 ^ n = 2 ^ (n - k) * 2 ^ k) by (rewrite <- Z.pow_add_r by lia; f_equal; lia). rewrite E. nia.
Qed.

Lemma thm_field_range i : 0 <= thm_field i < 2 ^ 24.
Proof.
  unfold thm_field, ElfReloc.bits. cbv zeta. rewrite <- (Z.shiftl_0_r (Z.land i 0x7ff)). repeat apply lor_bound; try lia; apply shl_bound; lia.
Qed.

Lemma thm_call_target inst D : - 2 ^ 31 <= D < 2 ^ 31 -> D mod 4 = 0 -> too_far (u32 (Z.shiftr D 1)) = false -> thumb_blx (thm_call_inst inst (u32 (Z.shiftr D 1))) = D.
Proof.
  intros HD H4 Hf. rewrite Z.shiftr_div_pow2 in * by lia. change (2 ^ 1) with 2 in *. set (r := u32 (D / 2)) in *. rewrite <- thumb_blx_addend by apply thm_call_even.
  change (thm_call_addend (thm_call_inst inst r)) with (s32 (Z.shiftl (SIGN_EXTEND (thm_field (thm_call_inst inst r)) 24) 1)).
  assert (E : thm_field (thm_call_inst inst r) = Z.land r 0xffffff).
  { assert (Hr : r mod 2 = 0) by (unfold r, u32, wrap; rewrite <- Znumtheory.Zmod_div_mod by (try lia; exists (2 ^ 31); done); Z.to_euclidean_division_equations; lia).
    assert (E : u32 (Z.land r 0xfffffe) = u32 (Z.land r 0xffffff)). { assert (Er : r = Z.shiftl (Z.shiftr r 1) 1) by (rewrite Z.shiftl_mul_pow2, Z.shiftr_div_pow2 by lia; change (2 ^ 1) with 2; Z.to_euclidean_division_equations; lia). rewrite Er. Bits.bits32. }
    apply u32_inj; [pose proof (thm_field_range (thm_call_inst inst r)); lia|pose proof (land_range r 0xffffff); lia|]. by rewrite thm_call_field. }
  rewrite E. pose proof (land_range r 0xffffff ltac:(lia)). rewrite swrap_sext by lia. unfold r in *. rewrite near; [|Z.to_euclidean_division_equations; lia|done].
  rewrite s32_double by (Z.to_euclidean_division_equations; lia). Z.to_euclidean_division_equations; lia.
Qed.

(** ** Immediates *)

Lemma arm_imm16_bits i : arm_imm16 i = arm_mov_addend i.
Proof.
  unfold arm_imm16, arm_mov_addend. assert (E : Z.shiftr (Z.land i 0xf0000) 4 = Z.shiftl (Z.land (Z.shiftr i 16) (Z.ones 4)) 12).
  { pose proof (land_range i 0xf0000 ltac:(lia)). pose proof (shl_bound (Z.shiftr i 16) (Z.ones 4) 12 16 ltac:(lia) ltac:(done)). apply u32_inj; [rewrite Z.shiftr_div_pow2 by lia; Z.to_euclidean_division_equations; lia|lia|]. change (Z.ones 4) with 15. Bits.bits32. }
  rewrite E. change 0xfff with (Z.ones 12). rewrite <- (Z.shiftr_0_r i) at 4. rewrite <- !slice_bits by lia. rewrite Z.shiftl_mul_pow2 by lia. pose proof (slice_range i 0 12 ltac:(lia)).
  rewrite (lor_disjoint _ _ 12); [lia|lia|apply Z.mod_mul; lia|lia].
Qed.

Lemma thumb_imm16_bits i : thumb_imm16 i = thm_mov_addend i.
Proof.
  unfold thumb_imm16, thm_mov_addend, ElfReloc.bits.
  assert (E1 : Z.land (Z.shiftr i 4) 0xf000 = Z.shiftl (Z.land (Z.shiftr i 16) (Z.ones 4)) 12).
  { pose proof (land_range (Z.shiftr i 4) 0xf000 ltac:(lia)). pose proof (shl_bound (Z.shiftr i 16) (Z.ones 4) 12 16 ltac:(lia) ltac:(done)). apply u32_inj; [lia..|]. change (Z.ones 4) with 15. Bits.bits32. }
  assert (E2 : Z.land (Z.shiftr i 15) 0x0800 = Z.shiftl (Z.land (Z.shiftr i 26) (Z.ones 1)) 11).
  { pose proof (land_range (Z.shiftr i 15) 0x800 ltac:(lia)). pose proof (shl_bound (Z.shiftr i 26) (Z.ones 1) 11 12 ltac:(lia) ltac:(done)). apply u32_inj; [lia..|]. change (Z.ones 1) with 1. Bits.bits32. }
  assert (E3 : Z.land (Z.shiftr i 4) 0x0700 = Z.shiftl (Z.land (Z.shiftr i 12) (Z.ones 3)) 8).
  { pose proof (land_range (Z.shiftr i 4) 0x700 ltac:(lia)). pose proof (shl_bound (Z.shiftr i 12) (Z.ones 3) 8 11 ltac:(lia) ltac:(done)). apply u32_inj; [lia..|]. change (Z.ones 3) with 7. Bits.bits32. }
  rewrite E1, E2, E3. change 0x00ff with (Z.ones 8). rewrite <- (Z.shiftr_0_r i) at 8. rewrite <- !slice_bits by lia. rewrite !Z.shiftl_mul_pow2 by lia.
  pose proof (slice_range i 16 4 ltac:(lia)). pose proof (slice_range i 26 1 ltac:(lia)). pose proof (slice_range i 12 3 ltac:(lia)). pose proof (slice_range i 0 8 ltac:(lia)).
  rewrite (lor_disjoint (slice i 16 4 * 2 ^ 12) _ 12); [|lia|apply Z.mod_mul; lia|lia].
  rewrite (lor_disjoint _ (slice i 12 3 * 2 ^ 8) 11); [|lia| |lia]; [|replace (slice i 16 4 * 2 ^ 12 + slice i 26 1 * 2 ^ 11) with ((2 * slice i 16 4 + slice i 26 1) * 2 ^ 11) by lia; apply Z.mod_mul; lia].
  rewrite (lor_disjoint _ (slice i 0 8) 8); [lia|lia| |lia]. replace (_ + _) with ((16 * slice i 16 4 + 8 * slice i 26 1 + slice i 12 3) * 2 ^ 8) by lia. apply Z.mod_mul; lia.
Qed.

Lemma arm_mov_target inst r : arm_imm16 (arm_mov_inst inst r) = Z.land r 0xffff.
Proof.
  rewrite arm_imm16_bits. pose proof (land_range r 0xffff ltac:(lia)). apply u32_inj; [|lia|unfold arm_mov_inst, arm_mov_addend; Bits.bits32].
  rewrite <- arm_imm16_bits. unfold arm_imm16. set (i := arm_mov_inst inst r). pose proof (slice_range i 16 4 ltac:(lia)). pose proof (slice_range i 0 12 ltac:(lia)). lia.
Qed.

Lemma thm_mov_target inst r : thumb_imm16 (thm_mov_inst inst r) = Z.land r 0xffff.
Proof.
  rewrite thumb_imm16_bits. pose proof (land_range r 0xffff ltac:(lia)). apply u32_inj; [|lia|unfold thm_mov_inst, thm_mov_addend, ElfReloc.bits; Bits.bits32].
  rewrite <- thumb_imm16_bits. unfold thumb_imm16. set (i := thm_mov_inst inst r). pose proof (slice_range i 16 4 ltac:(lia)). pose proof (slice_range i 26 1 ltac:(lia)). pose proof (slice_range i 12 3 ltac:(lia)). pose proof (slice_range i 0 8 ltac:(lia)). lia.
Qed.

(** The rest of the instruction stays. *)
Lemma arm_mov_rest inst r : Z.land (arm_mov_inst inst r) 0xfff0f000 = Z.land (u32 inst) 0xfff0f000.
Proof. apply u32_inj; [pose proof (land_range (arm_mov_inst inst r) 0xfff0f000); lia|pose proof (land_range (u32 inst) 0xfff0f000); lia|]. unfold arm_mov_inst. Bits.bits32. Qed.

Lemma thm_mov_rest inst r : Z.land (thm_mov_inst inst r) 0xfbf08f00 = Z.land (u32 inst) 0xfbf08f00.
Proof. apply u32_inj; [pose proof (land_range (thm_mov_inst inst r) 0xfbf08f00); lia|pose proof (land_range (u32 inst) 0xfbf08f00); lia|]. unfold thm_mov_inst. Bits.bits32. Qed.

(** The halves come back in order. *)
Lemma swap_halves_twice inst : swap_halves (swap_halves inst) = s32 inst.
Proof.
  unfold swap_halves at 1. rewrite <- (Bits.s32_u32 inst), <- Bits.s32_u32. f_equal. unfold swap_halves, ElfReloc.bits. Bits.bits32.
Qed.

End ElfInst.
