(* ===== verification/ElfLoad.v ===== *)
(** * ElfLoad: loading reads back what a file holds

    A file is described by its header, its section headers and the contents of its sections; the
    theorem of this file says what [ELFObject::read] makes of it. *)

From S2P Require Import Prelude Stream Memory ElfArchive ElfObject.
Import Stream ElfArchive ElfObject.

Module ElfLoad.

(** ** Files *)

Inductive content :=
| CNull
| CStr (bs : list Z)
| CSym (syms : list ELFSymbol)
| CRel (rela : bool) (rels : list ELFReloc)
| CProg (bs : list Z)
| CNoBits.

Lemma prog_or_not (c : content) : (exists bs, c = CProg bs) \/ forall bs, c <> CProg bs.
Proof. destruct c as [|?|?|? ?|bs|]; [right; discriminate..|left; by exists bs|right; discriminate]. Qed.

Lemma size_list_to_set_le (l : list Z) : (size (list_to_set l : gset Z) <= length l)%nat.
Proof. induction l as [|x l IH]; [done|]. cbn [list_to_set length]. rewrite size_union_alt, size_singleton. pose proof (subseteq_size (C := gset Z) (list_to_set l ∖ {[x]}) (list_to_set l) ltac:(set_solver)). lia. Qed.

(** ** Names *)

(** The last place of a name. *)
Fixpoint last_index (i : Z) (names : list cstr) (n : cstr) : option Z :=
  match names with
  | [] => None
  | m :: names => match last_index (i + 1) names n with Some k => Some k | None => if bool_decide (m = n) then Some i else None end
  end.

Lemma build_names_last name_of keys names : forall i m, Forall2 (fun k n => forall z, k = Some z -> name_of z = Ok n) keys names -> Forall (fun k => is_Some k) keys ->
  exists m', build_names name_of i keys m = Ok m' /\ forall n, m' !! n = match last_index i names n with Some k => Some k | None => m !! n end.
Proof.
  intros i m HF. revert i m. induction HF as [|k n keys names Hk _ IH]; intros i m Hs; cbn [build_names last_index]; [by exists m|].
  apply Forall_cons in Hs as [[z ->] Hs]. rewrite (Hk z eq_refl). cbn [mbind outcome_bind]. destruct (IH (i + 1) (<[n := i]> m) Hs) as (m' & -> & Hm'). exists m'. split; [done|].
  intros x. rewrite Hm'. destruct (last_index (i + 1) names x); [done|]. case_bool_decide as E; [subst; apply lookup_insert_eq|by apply lookup_insert_ne].
Qed.

Lemma last_index_range names n : forall i k, last_index i names n = Some k -> i <= k < i + zlen names /\ names !! Z.to_nat (k - i) = Some n.
Proof.
  induction names as [|m names IH]; intros i k; cbn [last_index]; [done|]. unfold zlen in *. cbn [length]. rewrite Nat2Z.inj_succ. destruct (last_index (i + 1) names n) as [j|] eqn:E.
  - intros [= <-]. apply IH in E as [? E]. split; [lia|]. replace (Z.to_nat (j - i)) with (S (Z.to_nat (j - (i + 1)))) by lia. done.
  - case_bool_decide; [|done]. intros [= <-]. split; [lia|]. rewrite Z.sub_diag. by subst.
Qed.

Section load.
Context (W : bitwidth) (LE : bool) (b : list Z) (base : Z).

(** The bytes of a section are in the file. *)
Definition in_file (sh : ELFSectionHeader) (bs : list Z) : Prop := 0 <= sh_offset sh < 2 ^ 31 /\ sub b (sh_offset sh) bs.

Definition entry_size (rela : bool) : Z := if rela then rela_size W else rel_size W.

(** What a section header and the file say of a section. *)
Definition holds (sh : ELFSectionHeader) (c : content) : Prop :=
  match c with
  | CNull => sh_type sh ∉ [SHT_PROGBITS; SHT_SYMTAB; SHT_STRTAB; SHT_RELA; SHT_NOBITS; SHT_REL]
  | CStr bs => sh_type sh = SHT_STRTAB /\ sh_size sh = zlen bs /\ in_file sh bs
  | CSym syms =>
      sh_type sh = SHT_SYMTAB /\ sh_entsize sh = symbol_size W /\ sh_size sh = symbol_size W * zlen syms /\ sh_offset sh mod addr_size W = 0 /\
      Forall (symbol_fits W) syms /\ (forall k s, syms !! k = Some s -> st_index s = Z.of_nat k) /\ in_file sh (concat (enc_symbol W LE <$> syms))
  | CRel rela rels =>
      sh_type sh = (if rela then SHT_RELA else SHT_REL) /\ sh_entsize sh = entry_size rela /\ sh_size sh = entry_size rela * zlen rels /\ sh_offset sh mod addr_size W = 0 /\
      Forall (reloc_fits W) rels /\ (rela = false -> Forall (fun r => r_addend r = 0) rels) /\ (forall k r, rels !! k = Some r -> r_index r = Z.of_nat k) /\
      in_file sh (concat (enc_reloc W LE rela <$> rels))
  | CProg bs => sh_type sh = SHT_PROGBITS /\ sh_size sh = zlen bs /\ in_file sh bs
  | CNoBits => sh_type sh = SHT_NOBITS /\ 0 <= sh_size sh < 2 ^ 31
  end.

Context (mmap : list mapping -> Z -> Z) (VendorAlloc : option (list mapping -> Z -> Z)).

(** The system refuses a request. *)
Definition refuses (size : Z) : Prop := exists maps, mmap maps size = 0 \/ mmap maps size = MAP_FAILED.

(** A chunk that was just allocated; only the system's pages are zero. *)
Definition fresh (c : MemChunk) (size : Z) : Prop :=
  buf_size c = size /\ zlen (data c) = size /\ prot c = Z.lor PROT_READ PROT_WRITE /\ (size <> 0 -> invalidBuf c = false) /\
  (VendorAlloc = None -> data c = replicate (Z.to_nat size) (Some 0)).

Lemma allocate_cases maps size : 0 <= size ->
  (exists c, allocate mmap VendorAlloc maps MemChunk_new size = (false, c, maps) /\ refuses size) \/
  (exists c maps', allocate mmap VendorAlloc maps MemChunk_new size = (true, c, maps') /\ fresh c size).
Proof.
  intros Hs. unfold allocate. destruct (Z.eqb_spec size 0) as [->|Hne]; [right; exists MemChunk_new, maps; done|].
  set (c1 := match VendorAlloc with Some f => _ | None => _ end). set (c2 := if invalidBuf c1 then _ else _). destruct (invalidBuf c2) eqn:E2.
  - left. exists c2. split; [done|]. exists maps. unfold c2 in E2. destruct (invalidBuf c1) eqn:E1; [|congruence]. unfold invalidBuf in E2. cbn [chunk_buf] in E2. apply orb_true_iff in E2 as [E2|E2]; apply Z.eqb_eq in E2; auto.
  - right. eexists _, _. split; [done|]. unfold c2 in E2 |- *. destruct (invalidBuf c1) eqn:E1; cbn.
    + repeat split; [by apply zlen_replicate|unfold c1; by destruct VendorAlloc|by intros _; unfold invalidBuf in E2 |- *].
    + subst c1. unfold fresh. destruct VendorAlloc as [f|]; [|by vm_compute in E1]. cbn in *. repeat split; [by apply zlen_replicate|intros _; exact E2|done].
Qed.

(** What the first pass makes of a section. *)
Definition loaded1 (sh : ELFSectionHeader) (c : content) (sec : option ELFSection) : Prop :=
  match c with
  | CNull | CProg _ => sec = None
  | CStr bs => sec = Some (StrTab bs)
  | CSym syms => sec = Some (SymTab (Some <$> syms) ∅)
  | CRel _ rels => sec = Some (RelTable (Some <$> rels))
  | CNoBits => sec = None /\ refuses (sh_size sh) \/ exists ck, sec = Some (NoBits sh ck) /\ fresh ck (sh_size sh)
  end.

Context (Hbase : 0 < base) (Hend : base + zlen b < 2 ^ 32) (Hlen : zlen b < 2 ^ 28).

Abbreviation at_ := (R b base).

Lemma read_section_bytes_R p sh bs : sh_size sh = zlen bs -> in_file sh bs -> exists q, read_section_bytes sh (at_ p 0) = Ok (Some bs, at_ q 0).
Proof.
  intros Hs [Ho Hsub]. unfold read_section_bytes. pose proof Hsub as (H0 & H1 & H2). pose proof (zlen_nonneg bs). rewrite seek_begin_R by lia. rewrite prologue_R. cbn [mbind outcome_bind]. rewrite Hs, u32_small by lia.
  rewrite readBytes_R by done. cbn [mbind outcome_bind]. rewrite epilogue_R by lia. eexists. done.
Qed.

Abbreviation read_sec := (ELFSection_read mmap VendorAlloc W LE).

Lemma mul_div_exact n k : 0 < n -> n * k / n = k.
Proof. intros. rewrite Z.mul_comm. apply Z.div_mul. lia. Qed.

Lemma concat_zlen {A} (f : A -> list Z) n l : (forall x, zlen (f x) = n) -> zlen (concat (f <$> l)) = n * zlen l.
Proof. intros H. induction l as [|x l IH]; [symmetry; apply Z.mul_0_r|]. cbn [fmap list_fmap concat]. rewrite zlen_app, IH, H. unfold zlen. cbn [length]. rewrite Nat2Z.inj_succ. lia. Qed.

Lemma enc_symbol_zlen s : zlen (enc_symbol W LE s) = symbol_size W.
Proof. unfold enc_symbol. destruct W; rewrite !zlen_app, !enc_zlen; done. Qed.

Lemma enc_reloc_zlen rela r : zlen (enc_reloc W LE rela r) = entry_size rela.
Proof. unfold enc_reloc, enc_rela, enc_rel, entry_size. destruct W, rela; rewrite !zlen_app, !enc_zlen; done. Qed.

(** A section other than one with program bits. *)
Lemma section_read_R maps o p sh c : holds sh c -> (forall bs, c <> CProg bs) ->
  exists sec maps' q, read_sec maps o sh (at_ p 0) = Ok (sec, maps', at_ q 0) /\ loaded1 sh c sec.
Proof.
  intros Hh Hc. unfold ELFSection_read. destruct c as [|bs|syms|rela rels|bs|]; cbn [holds] in Hh.
  - exists None, maps, p. split; [|done]. repeat match goal with |- context [sh_type sh =? ?t] => destruct (Z.eqb_spec (sh_type sh) t) as [E|_]; [exfalso; apply Hh; rewrite E; set_solver|] end. done.
  - destruct Hh as (-> & Hs & Hf). change (SHT_STRTAB =? SHT_STRTAB) with true. cbv iota. unfold StrTab_read. destruct (read_section_bytes_R p sh bs Hs Hf) as (q & ->). cbn. eexists _, _, q. done.
  - destruct Hh as (-> & He & Hs & Ha & Hfit & Hix & Hf). change (SHT_SYMTAB =? SHT_STRTAB) with false. change (SHT_SYMTAB =? SHT_SYMTAB) with true. cbv iota. unfold SymTab_read. rewrite He, Z.eqb_refl. cbn [rsl_assert mbind outcome_bind].
    destruct Hf as [Ho Hsub]. pose proof Hsub as (H0 & H1 & _). rewrite (concat_zlen _ _ _ enc_symbol_zlen) in H1. pose proof (zlen_nonneg syms). assert (0 < symbol_size W) by (destruct W; done). rewrite seek_begin_R by nia. rewrite Hs, mul_div_exact by done.
    rewrite u32_small by nia. unfold zlen at 1. rewrite Nat2Z.id. rewrite symbols_R by done. cbn [mbind outcome_bind good R]. by eexists _, _, _.
  - destruct Hh as (Ht & He & Hs & Ha & Hfit & Hz & Hix & Hf). rewrite Ht. assert (0 < entry_size rela) by (unfold entry_size; destruct W, rela; done). assert (Hrd : exists q, RelTable_read W LE sh (at_ p 0) = Ok (Some (RelTable (Some <$> rels)), at_ q 0)).
    { unfold RelTable_read. rewrite He, Ht. destruct (Z.eqb_spec (entry_size rela) 0); [lia|]. assert ((if rela then SHT_RELA else SHT_REL) =? SHT_RELA = rela) as -> by by destruct rela. unfold entry_size at 1. rewrite Z.eqb_refl. cbn [rsl_assert mbind outcome_bind].
      destruct Hf as [Ho Hsub]. pose proof Hsub as (H0 & H1 & _). rewrite (concat_zlen _ _ _ (enc_reloc_zlen rela)) in H1. pose proof (zlen_nonneg rels). rewrite seek_begin_R by nia. rewrite Hs, mul_div_exact by done.
      rewrite u32_small by nia. unfold zlen at 1. rewrite Nat2Z.id. rewrite relocs_R by done. cbn [mbind outcome_bind good R]. by eexists. }
    destruct Hrd as (q & Hrd). exists (Some (RelTable (Some <$> rels))), maps, q. split; [|done]. destruct rela; cbn; rewrite Hrd; done.
  - by destruct (Hc bs).
  - destruct Hh as (-> & Hs). cbn. unfold NoBits_read. rewrite u32_small by lia. destruct (allocate_cases maps (sh_size sh) ltac:(lia)) as [(ck & -> & Hr)|(ck & maps' & -> & Hf)].
    + exists None, maps, p. split; [done|]. by left.
    + exists (Some (NoBits sh ck)), maps', p. split; [done|]. right. by exists ck.
Qed.

(** ** The first pass *)

Lemma holds_prog sh c : holds sh c -> sh_type sh = SHT_PROGBITS <-> exists bs, c = CProg bs.
Proof.
  intros Hh. split.
  - intros Ht. destruct c as [|?|?|rela ?|bs|]; cbn [holds] in Hh; [|destruct Hh as [Hh _]; rewrite Ht in Hh; try done..].
    + exfalso. apply Hh. rewrite Ht. set_solver.
    + by destruct rela.
    + by exists bs.
  - intros [bs ->]. apply Hh.
Qed.

Lemma read_sections_R shs cs : Forall2 holds shs cs -> forall maps o p,
  exists secs maps' q, read_sections mmap VendorAlloc W LE maps o shs (at_ p 0) = Ok (set_stab o (stab o ++ secs), maps', at_ q 0) /\ Forall3 loaded1 shs cs secs.
Proof.
  induction 1 as [|sh c shs cs Hh _ IH]; intros maps o p; cbn [read_sections].
  { exists [], maps, p. split; [|constructor]. rewrite app_nil_r. by destruct o. }
  assert (exists sec maps1 q1, (if sh_type sh =? SHT_PROGBITS then Ok (None, maps, at_ p 0) else read_sec maps o sh (at_ p 0)) = Ok (sec, maps1, at_ q1 0) /\ loaded1 sh c sec) as (sec & maps1 & q1 & -> & Hl).
  { destruct (Z.eqb_spec (sh_type sh) SHT_PROGBITS) as [Ht|Ht]; [apply (holds_prog _ _ Hh) in Ht as [bs ->]; by exists None, maps, p|].
    apply section_read_R; [done|]. intros bs ->. apply Ht, Hh. }
  cbn [mbind outcome_bind]. destruct (IH maps1 (set_stab o (stab o ++ [sec])) q1) as (secs & maps2 & q2 & E & HF). exists (sec :: secs), maps2, q2. split; [|by constructor].
  rewrite E. cbn [stab set_stab]. rewrite <- app_assoc. done.
Qed.

(** ** Files with an object *)

Section object.
Context (h : ELFHeader) (shs : list ELFSectionHeader) (cs : list content) (names : list cstr) (syms : list ELFSymbol) (snames : list cstr).

(** The section found for a name is the first one if no section has it. *)
Definition place (n : cstr) : nat := match last_index 0 names n with Some k => Z.to_nat k | None => 0 end.
Definition content_of (n : cstr) : option content := cs !! place n.

Record well_formed : Prop := {
  wf_header : header_fits W h /\ header_isValid W h = true /\ sub b 0 (enc_header W LE h);
  wf_entries : e_shentsize h = section_header_size W /\ e_shnum h = zlen shs;
  wf_table : 0 <= e_shoff h < 2 ^ 31 /\ e_shoff h mod addr_size W = 0 /\ Forall (section_header_fits W) shs /\
    (forall k sh, shs !! k = Some sh -> index sh = Z.of_nat k) /\ sub b (e_shoff h) (concat (enc_section_header W LE <$> shs));
  wf_sections : Forall2 holds shs cs;
  wf_names : exists bs, cs !! Z.to_nat (e_shstrndx h) = Some (CStr bs) /\ Forall2 (fun sh n => str_at bs (sh_name sh) = Ok n) shs names;
  wf_symbols : exists bs, content_of symtab_name = Some (CSym syms) /\ content_of strtab_name = Some (CStr bs) /\ Forall2 (fun s n => str_at bs (st_name s) = Ok n) syms snames;
  (** the relocations of a section are relocations, or there are none *)
  wf_calls : forall k bs n, cs !! k = Some (CProg bs) -> names !! k = Some n -> content_of (rel_prefix ++ n) = Some CNull \/ exists rela rels, content_of (rel_prefix ++ n) = Some (CRel rela rels) }.

(** The symbols that the calls of a section refer to: one stub for each. *)
Definition call_set (rels : list ELFReloc) : gset Z :=
  list_to_set ((fun r => u32 (getSymTabIndex W r)) <$> filter (fun r => is_call (e_machine h) (reloc_type W r) = true) rels).
Definition stubs_needed (n : cstr) : Z := match content_of (rel_prefix ++ n) with Some (CRel _ rels) => Z.of_nat (size (call_set rels)) | _ => 0 end.
Definition stub_space (n : cstr) : Z := match stubs_for (e_machine h) with Some l => stubs_needed n * getUnitStubSize (kind l) | None => 0 end.

(** What the second pass makes of a section: its bytes, and room for its stubs behind them. *)
Definition loaded2 (n : cstr) (sh : ELFSectionHeader) (bs : list Z) (sec : option ELFSection) : Prop :=
  let space := roundup 4 (zlen bs) in
  sec = None /\ refuses (space + stub_space n) \/
  exists ck, sec = Some (ProgBits sh ck ((fun l => initStubTable l (u32 (chunk_buf ck + space)) (stubs_needed n)) <$> stubs_for (e_machine h))) /\
    buf_size ck = space + stub_space n /\ zlen (data ck) = buf_size ck /\ prot ck = Z.lor PROT_READ PROT_WRITE /\ take (length bs) (data ck) = Some <$> bs.

(** *** Lookups *)

Lemma call_symbols_set rels : call_symbols W (e_machine h) (Some <$> rels) = Ok (call_set rels).
Proof.
  unfold call_set. induction rels as [|r rels IH]; [done|]. cbn [call_symbols fmap list_fmap]. rewrite IH. cbn [mbind outcome_bind]. rewrite filter_cons. destruct (is_call (e_machine h) (reloc_type W r)) eqn:E.
  - rewrite decide_True by done. done.
  - rewrite decide_False by congruence. done.
Qed.

Lemma call_set_size rels : Z.of_nat (size (call_set rels)) <= zlen rels.
Proof. unfold call_set, zlen. etrans; [apply Nat2Z.inj_le, size_list_to_set_le|]. rewrite length_fmap. apply Nat2Z.inj_le, length_filter. Qed.

Context (WF : well_formed).

(** The names of an object's sections are known. *)
Definition named (o : ELFObject) : Prop := header o = h /\ shtab o = shs /\ forall n, name_map o !! n = last_index 0 names n.

Lemma first_header : exists sh, znth shs 0 = Ok sh /\ index sh = 0.
Proof.
  destruct (wf_symbols WF) as (bs & Hc & _). destruct (wf_table WF) as (_ & _ & _ & Hix & _). pose proof (wf_sections WF) as HF. unfold content_of in Hc. apply lookup_lt_Some in Hc. rewrite <- (Forall2_length _ _ _ HF) in Hc. destruct shs as [|sh shs']; [cbn in Hc; lia|].
  exists sh. split; [by apply (znth_lookup (sh :: shs') 0)|by apply (Hix 0%nat)].
Qed.

Lemma getByName_place o n : named o -> getByName o n = Ok (Z.of_nat (place n)).
Proof.
  intros (_ & Hs & Hn). unfold getByName, place. rewrite Hn. destruct (last_index 0 names n) as [k|] eqn:E.
  - apply last_index_range in E as [? _]. by rewrite Z2Nat.id by lia.
  - rewrite Hs. destruct first_header as (sh & -> & Hi). cbn. by rewrite Hi.
Qed.

Lemma getSectionByName_place o n sec : named o -> stab o !! place n = Some sec -> getSectionByName o n = Ok sec.
Proof. intros Hn Hs. unfold getSectionByName. rewrite (getByName_place _ _ Hn). cbn [mbind outcome_bind]. by apply znth_lookup. Qed.

(** The sections after the first pass, but for those with program bits. *)
Definition first_pass (secs : list (option ELFSection)) : Prop :=
  length secs = length shs /\ forall k sh c, shs !! k = Some sh -> cs !! k = Some c -> (forall bs, c <> CProg bs) -> exists sec, secs !! k = Some sec /\
    match c with CSym sy => exists m, sec = Some (SymTab (Some <$> sy) m) | _ => loaded1 sh c sec end.

Lemma Forall3_first_pass secs : Forall3 loaded1 shs cs secs -> first_pass secs.
Proof.
  intros HF. split; [symmetry; eapply Forall3_length_lr; eassumption|]. intros k sh c Hsh Hc Hp. destruct (Forall3_lookup_l _ _ _ _ _ _ HF Hsh) as (c' & sec & Hc' & Hs & Hl).
  simplify_eq. exists sec. split; [done|]. destruct c; try done. cbn in Hl. by eexists.
Qed.

Lemma shs_at k c : cs !! k = Some c -> exists sh, shs !! k = Some sh /\ holds sh c.
Proof. intros Hc. destruct (Forall2_lookup_r _ _ _ _ _ (wf_sections WF) Hc) as (sh & ? & ?). by exists sh. Qed.

Lemma first_pass_str secs k bs : first_pass secs -> cs !! k = Some (CStr bs) -> secs !! k = Some (Some (StrTab bs)).
Proof. intros [_ HF] Hc. destruct (shs_at _ _ Hc) as (sh & Hsh & _). destruct (HF _ _ _ Hsh Hc ltac:(done)) as (sec & -> & ->). done. Qed.

Lemma getSectionName_at o i bs : header o = h -> first_pass (stab o) -> cs !! Z.to_nat (e_shstrndx h) = Some (CStr bs) -> getSectionName o i = str_at bs i.
Proof.
  intros Hh HF Hc. unfold getSectionName. rewrite Hh. destruct (wf_header WF) as ((_ & H2 & _) & _). rewrite !Forall_cons in H2. unfold fits in H2.
  rewrite <- (Z2Nat.id (e_shstrndx h)) by naive_solver lia. rewrite (znth_lookup _ _ (Some (StrTab bs))) by (by apply first_pass_str). done.
Qed.

Lemma buildNameMap_named o : header o = h -> shtab o = shs -> name_map o = ∅ -> first_pass (stab o) -> exists m, buildNameMap o = Ok (set_name_map o m) /\ named (set_name_map o m).
Proof.
  intros Hh Hs Hm HF. destruct (wf_names WF) as (bs & Hc & Hn). unfold buildNameMap. rewrite Hs, Hm.
  destruct (build_names_last (getSectionName o) (map (fun sh => Some (sh_name sh)) shs) names 0 ∅) as (m & -> & Hl).
  - apply Forall2_fmap_l. eapply Forall2_impl; [exact Hn|]. intros sh n Hsn z [= <-]. by rewrite (getSectionName_at o _ bs).
  - apply Forall_fmap, Forall_true. intros. by eexists.
  - exists m. split; [done|]. split_and!; [done|done|]. intros n. cbn. rewrite Hl. by destruct (last_index 0 names n).
Qed.

Lemma symtab_named o : named o -> first_pass (stab o) -> stab o !! place symtab_name = Some (Some (SymTab (Some <$> syms) ∅)) ->
  exists m, symtab_buildNameMap o = Ok (set_stab o (<[place symtab_name := Some (SymTab (Some <$> syms) m)]> (stab o))) /\ forall n, m !! n = last_index 0 snames n.
Proof.
  intros Hn HF Hst. destruct (wf_symbols WF) as (bs & Hsym & Hstr & Hnm). unfold symtab_buildNameMap. rewrite (getByName_place _ _ Hn). cbn [mbind outcome_bind]. rewrite (znth_lookup _ _ _ Hst). cbn [mbind outcome_bind].
  destruct (build_names_last (fun k => symbol_name o (mkSymbol 0 k 0 0 0 0 0 0)) (map (option_map st_name) (Some <$> syms)) snames 0 ∅) as (m & -> & Hl).
  - apply Forall2_fmap_l, Forall2_fmap_l. eapply Forall2_impl; [exact Hnm|]. intros s n Hs z [= <-]. unfold symbol_name. rewrite (getSectionByName_place o _ (Some (StrTab bs))); [done|done|by apply first_pass_str].
  - apply Forall_fmap, Forall_fmap, Forall_true. intros. by eexists.
  - cbn [mbind outcome_bind]. rewrite zset_Ok by (by eapply lookup_lt_Some). cbn [mbind outcome_bind]. exists m. split; [done|]. intros n. rewrite Hl. by destruct (last_index 0 snames n).
Qed.

(** *** The second pass *)

Lemma rel_content_size n rela rels : content_of (rel_prefix ++ n) = Some (CRel rela rels) -> 0 <= 8 * zlen rels <= zlen b.
Proof.
  intros Hc. destruct (shs_at _ _ Hc) as (sh & _ & Hh). cbn in Hh. destruct Hh as (_ & _ & _ & _ & _ & _ & _ & [_ Hs]). destruct Hs as (H0 & H1 & _). rewrite (concat_zlen _ _ _ (enc_reloc_zlen rela)) in H1.
  pose proof (zlen_nonneg rels). unfold entry_size in H1. destruct W, rela; cbn in H1; lia.
Qed.

Lemma max_num_stubs_needed o k sh bs n : named o -> first_pass (stab o) -> (exists l, stubs_for (e_machine h) = Some l) -> shs !! k = Some sh -> cs !! k = Some (CProg bs) -> names !! k = Some n ->
  max_num_stubs W o sh = Ok (stubs_needed n) /\ 0 <= 8 * stubs_needed n <= zlen b.
Proof.
  intros Hnm HF [l Hl] Hsh Hc Hn. destruct (wf_names WF) as (nb & Hcn & Hns). pose proof Hnm as (Hh & _ & _). unfold max_num_stubs, stubs_needed. rewrite (getSectionName_at o _ nb Hh HF Hcn).
  rewrite (Forall2_lookup_lr _ _ _ _ _ _ Hns Hsh Hn). cbn [mbind outcome_bind]. destruct HF as [_ HF].
  destruct (wf_calls WF _ _ _ Hc Hn) as [Hr|(rela & rels & Hr)]; destruct (shs_at _ _ Hr) as (shr & Hshr & _); destruct (HF _ _ _ Hshr Hr ltac:(done)) as (sec & Hsec & Hl1); cbn in Hl1; subst sec; rewrite (getSectionByName_place _ _ _ Hnm Hsec), Hr; cbn [mbind outcome_bind].
  - pose proof (zlen_nonneg b). split; [done|lia].
  - pose proof (rel_content_size _ _ _ Hr). pose proof (call_set_size rels). split; [|lia]. unfold getMaxNumStubs. rewrite Hh.
    assert ((e_machine h =? EM_ARM) || (e_machine h =? EM_MIPS) = true) as -> by (unfold stubs_for in Hl; repeat destruct (_ =? _); done). rewrite call_symbols_set. done.
Qed.

Lemma roundup4_words z : 0 <= z -> (z + 3) / 4 * 4 = roundup 4 z.
Proof. intros. unfold roundup. Z.to_euclidean_division_equations; lia. Qed.

Lemma unit_stub_range k : 8 <= getUnitStubSize k <= 16.
Proof. by destruct k. Qed.

Lemma alloc_size o k sh bs n : named o -> first_pass (stab o) -> shs !! k = Some sh -> cs !! k = Some (CProg bs) -> names !! k = Some n -> 0 <= zlen bs < 2 ^ 28 ->
  match stubs_for (e_machine (header o)) with
  | Some l => m ← max_num_stubs W o sh; Ok (roundup 4 (zlen bs) +u32 calcStubTableSize (kind l) m, m)
  | None => Ok (roundup 4 (zlen bs), 0)
  end = Ok (roundup 4 (zlen bs) + stub_space n, if stubs_for (e_machine h) then stubs_needed n else 0) /\ 0 <= stub_space n < 2 ^ 30.
Proof.
  intros Hnm HF Hsh Hc Hn Hb. pose proof Hnm as (Hh & _). pose proof (roundup_bounds 4 (zlen bs) ltac:(lia)). unfold stub_space. rewrite Hh. destruct (stubs_for (e_machine h)) as [l|] eqn:E.
  - destruct (max_num_stubs_needed o k sh bs n Hnm HF) as [-> Hs]; [by exists l|done..|]. cbn [mbind outcome_bind]. pose proof (unit_stub_range (kind l)).
    assert (0 <= stubs_needed n * getUnitStubSize (kind l) < 2 ^ 30) by nia. unfold calcStubTableSize. rewrite (u32_small (stubs_needed n * _)) by lia. rewrite u32_small by lia. done.
  - rewrite Z.add_0_r. done.
Qed.

Lemma progbits_read_R maps o p k sh bs n : named o -> first_pass (stab o) -> shs !! k = Some sh -> cs !! k = Some (CProg bs) -> names !! k = Some n ->
  exists sec maps' q, read_sec maps o sh (at_ p 0) = Ok (sec, maps', at_ q 0) /\ loaded2 n sh bs sec.
Proof.
  intros Hnm HF Hsh Hc Hn. destruct (shs_at _ _ Hc) as (sh' & ? & Hh). simplify_eq. destruct Hh as (Ht & Hs & Hf). pose proof Hf as [_ (_ & Hl & _)]. destruct Hf as [Ho Hsub]. pose proof (zlen_nonneg bs).
  unfold ELFSection_read. rewrite Ht. cbn [Z.eqb Pos.eqb SHT_PROGBITS SHT_STRTAB SHT_SYMTAB]. unfold ProgBits_read. rewrite Hs. rewrite (u32_small (zlen bs + 3)) by lia. rewrite roundup4_words by done. pose proof (roundup_bounds 4 (zlen bs) ltac:(lia)).
  rewrite (u32_small (roundup 4 (zlen bs))) by lia. destruct (alloc_size o k sh bs n) as [-> Hsp]; [done..|lia|]. cbn [mbind outcome_bind]. pose proof Hnm as (Hh & _). rewrite Hh.
  destruct (allocate_cases maps (roundup 4 (zlen bs) + stub_space n) ltac:(lia)) as [(ck & -> & Hr)|(ck & maps' & -> & Hfr)]; cbn [negb].
  - exists None, maps, p. split; [done|]. by left.
  - destruct (read_section_bytes_R p sh bs Hs (conj Ho Hsub)) as (q & ->). cbn [mbind outcome_bind]. destruct Hfr as (Hz & Hd & Hp & _). unfold chunk_store.
    destruct (zwrite_Ok (data ck) 0 (Some <$> bs)) as [d Hw]; [lia|rewrite Hd; unfold zlen; rewrite length_fmap; fold (zlen bs); lia|]. rewrite Hw. cbn [mbind outcome_bind good R]. eexists _, _, q. split; [done|]. right.
    eexists. split; [cbn [chunk_buf]; do 2 f_equal; by destruct (stubs_for (e_machine h))|]. cbn [buf_size data prot chunk_buf]. rewrite (zwrite_length _ _ _ _ Hw), Hd, Hz. split_and!; [done..|].
    unfold zwrite in Hw. case_decide; [|done]. injection Hw as <-. cbn [Z.to_nat take app]. rewrite take_app_le by (by rewrite length_fmap). rewrite <- (length_fmap Some bs). apply take_ge. done.
Qed.

Definition second_pass (k : nat) (secs : list (option ELFSection)) : Prop := forall j sh bs n, (j < k)%nat -> shs !! j = Some sh -> cs !! j = Some (CProg bs) -> names !! j = Some n ->
  exists sec, secs !! j = Some sec /\ loaded2 n sh bs sec.

(** Sections without program bits stay as they are. *)
Definition kept (secs secs' : list (option ELFSection)) : Prop := length secs' = length secs /\ forall j, (forall bs, cs !! j <> Some (CProg bs)) -> secs' !! j = secs !! j.

Lemma first_pass_kept secs secs' : kept secs secs' -> first_pass secs -> first_pass secs'.
Proof. intros [Hl Hk] [Hn HF]. split; [congruence|]. intros k sh c Hsh Hc Hp. rewrite Hk by congruence. by apply HF. Qed.

Lemma kept_insert secs k bs x : cs !! k = Some (CProg bs) -> kept secs (<[k := x]> secs).
Proof. intros Hc. split; [apply length_insert|]. intros j Hj. apply list_lookup_insert_ne. intros ->. by destruct (Hj bs). Qed.

Lemma read_progbits_R rest : forall k maps o p, drop k shs = rest -> named o -> first_pass (stab o) -> second_pass k (stab o) ->
  exists secs maps' q, read_progbits mmap VendorAlloc W LE maps o (Z.of_nat k) rest (at_ p 0) = Ok (set_stab o secs, maps', at_ q 0) /\ kept (stab o) secs /\ second_pass (length shs) secs.
Proof.
  induction rest as [|sh rest IH]; intros k maps o p Hd Hnm HF HS; cbn [read_progbits].
  { exists (stab o), maps, p. split_and!; [by destruct o|done|]. intros j sh bs n Hj. apply HS. assert (length (drop k shs) = 0)%nat as E by by rewrite Hd. rewrite length_drop in E. lia. }
  assert (Hsh : shs !! k = Some sh) by (rewrite <- (Nat.add_0_r k), <- lookup_drop, Hd; done). assert (Hd' : drop (S k) shs = rest) by (rewrite <- Nat.add_1_r, <- drop_drop, Hd; done).
  destruct (Forall2_lookup_l _ _ _ _ _ (wf_sections WF) Hsh) as (c & Hc & Hh). replace (Z.of_nat k + 1) with (Z.of_nat (S k)) by lia. destruct (Z.eqb_spec (sh_type sh) SHT_PROGBITS) as [Ht|Ht].
  - apply (holds_prog _ _ Hh) in Ht as [bs ->]. destruct (wf_names WF) as (nb & _ & Hns). destruct (Forall2_lookup_l _ _ _ _ _ Hns Hsh) as (n & Hn & _).
    destruct (progbits_read_R maps o p k sh bs n Hnm HF Hsh Hc Hn) as (sec & maps1 & q1 & -> & Hl). cbn [mbind outcome_bind]. assert (Hlt : (k < length (stab o))%nat) by (destruct HF as [-> _]; by eapply lookup_lt_Some).
    rewrite zset_Ok by done. cbn [mbind outcome_bind]. pose proof (kept_insert (stab o) k bs sec Hc) as Hk. destruct (IH (S k) maps1 (set_stab o (<[k := sec]> (stab o))) q1) as (secs & maps2 & q2 & E & [Hk1 Hk2] & HS2); [done|done|by eapply first_pass_kept| |].
    + intros j sh1 bs1 n1 Hj H1 H2 H3. cbn [stab set_stab]. destruct (decide (j = k)) as [->|Hne]; [|rewrite list_lookup_insert_ne by done; apply HS; [lia|done..]]. simplify_eq. exists sec. split; [by apply list_lookup_insert_eq|done].
    + exists secs, maps2, q2. split_and!; [done| |done]. cbn [stab set_stab] in *. split; [rewrite Hk1; apply Hk|]. intros j Hj. rewrite Hk2 by done. by apply Hk.
  - apply IH; [done..|]. intros j sh1 bs1 n1 Hj H1 H2 H3. destruct (decide (j = k)) as [->|Hne]; [|apply HS; [lia|done..]]. simplify_eq. exfalso. apply Ht, Hh.
Qed.

(** *** The object *)

Definition loaded (n : cstr) (sh : ELFSectionHeader) (c : content) (sec : option ELFSection) : Prop :=
  match c with
  | CProg bs => loaded2 n sh bs sec
  | CSym sy => exists m, sec = Some (SymTab (Some <$> sy) m)
  | _ => loaded1 sh c sec
  end.

Definition object_of (o : ELFObject) : Prop :=
  named o /\ length (stab o) = length shs /\
  (forall k sh c n, shs !! k = Some sh -> cs !! k = Some c -> names !! k = Some n -> exists sec, stab o !! k = Some sec /\ loaded n sh c sec) /\
  exists m, stab o !! place symtab_name = Some (Some (SymTab (Some <$> syms) m)) /\ forall n, m !! n = last_index 0 snames n.

Lemma headers_read_R : exists q, header_read W LE (at_ 0 0) = Ok (Some h, at_ (header_size W) 0) /\ section_header_table_read W LE h (at_ (header_size W) 0) = Ok (Some shs, at_ q 0).
Proof.
  destruct (wf_header WF) as (Hfit & Hv & Hs). destruct (wf_entries WF) as [He Hn]. destruct (wf_table WF) as (Ho & Ha & Hf & Hix & Ht). exists (e_shoff h + section_header_size W * zlen shs). unfold header_read, section_header_table_read. cbn [good R negb].
  rewrite (header_serialize_R W LE b base Hbase Hend 0 h) by done. cbn [mbind outcome_bind good R negb]. rewrite Hv. split; [done|]. rewrite He, Z.eqb_refl. cbn [rsl_assert mbind outcome_bind].
  destruct Ht as (H0 & H1 & H2). pose proof (zlen_nonneg (concat (enc_section_header W LE <$> shs))). rewrite seek_begin_R by lia. rewrite Hn. unfold zlen at 1. rewrite Nat2Z.id. by apply section_headers_R.
Qed.

Lemma passes_object o secs m : named o -> first_pass (stab o) -> stab o !! place symtab_name = Some (Some (SymTab (Some <$> syms) m)) -> (forall n, m !! n = last_index 0 snames n) ->
  kept (stab o) secs -> second_pass (length shs) secs -> object_of (set_stab o secs).
Proof.
  intros Hnm HF Hst Hm Hk HS. pose proof (first_pass_kept _ _ Hk HF) as [Hl HF']. split_and!; [done|done| |].
  - intros k sh c n Hsh Hc Hn. cbn [stab set_stab]. destruct (prog_or_not c) as [[bs ->]|Hno].
    + apply (HS k sh bs n); [by eapply lookup_lt_Some|done..].
    + destruct (HF' k sh c Hsh Hc Hno) as (sec & Hsec & Hlo). exists sec. split; [done|]. destruct c; try done. by destruct (Hno bs).
  - exists m. split; [|done]. cbn [stab set_stab]. destruct Hk as [_ Hk]. rewrite Hk; [done|]. destruct (wf_symbols WF) as (? & Hc & _). unfold content_of in Hc. intros bs. congruence.
Qed.

End object.

End load.

(** C19: A file that holds an ELF header, a section header table and the sections that the headers
    describe is read back as they are: [ELFObject::read] returns an object with that header and
    table, the string, symbol and relocation tables hold the entries encoded in the file, sections
    without bits are fresh memory (zero unless the vendor's allocator gave it), and sections with
    program bits hold their bytes, with room behind them for one stub per symbol they call and the
    stubs' table set to it. A section is missing only if the system refuses its memory. Sections and
    symbols are found under the last place of their names. *)
Theorem ELFObject_read_back W LE b base mmap VendorAlloc h shs cs names syms snames maps :
  0 < base -> base + zlen b < 2 ^ 32 -> zlen b < 2 ^ 28 -> well_formed W LE b h shs cs names syms snames ->
  exists o maps' ar, ELFObject_read mmap VendorAlloc W LE maps (ArchiveReader_new b base) = Ok (Some o, maps', ar) /\ good ar = true /\ object_of W mmap VendorAlloc h shs cs names syms snames o.
Proof.
  intros Hb He Hl WF. assert (ArchiveReader_new b base = R b base 0 0) as -> by (unfold ArchiveReader_new, R; rewrite Z.add_0_r; by destruct (Z.eqb_spec base 0); [lia|]). unfold ELFObject_read. destruct (headers_read_R W LE b base Hb He h shs cs names syms snames WF) as (q & -> & Ht). cbn [mbind outcome_bind]. rewrite Ht. cbn [mbind outcome_bind].
  set (o := mkObject h shs ∅ [] MemChunk_new 0 0 false). destruct (read_sections_R W LE b base mmap VendorAlloc Hb He Hl shs cs (wf_sections _ _ _ _ _ _ _ _ _ WF) maps o q) as (secs & maps1 & q1 & -> & HF3). cbn [mbind outcome_bind app stab o].
  pose proof (Forall3_first_pass mmap VendorAlloc shs cs secs HF3) as HF. destruct (wf_symbols _ _ _ _ _ _ _ _ _ WF) as (sb & Hsym & Hrest).
  assert (Hst : secs !! place names symtab_name = Some (Some (SymTab (Some <$> syms) ∅))) by (destruct (Forall3_lookup_m _ _ _ _ _ _ HF3 Hsym) as (? & sec & ? & Hs & Hlo); cbn in Hlo; by subst).
  destruct (buildNameMap_named W LE b mmap VendorAlloc h shs cs names syms snames WF (set_stab o secs)) as (m & -> & Hnm); [done..|]. cbn [mbind outcome_bind].
  destruct (symtab_named W LE b mmap VendorAlloc h shs cs names syms snames WF (set_name_map (set_stab o secs) m)) as (sm & -> & Hsm); [done..|]. cbn [mbind outcome_bind].
  set (o2 := set_stab _ _).
  assert (HF2 : first_pass mmap VendorAlloc shs cs (stab o2)).
  { destruct HF as [Hlen HF]. split; [cbn; by rewrite length_insert|]. intros k sh c Hsh Hc Hp. cbn [stab o2 set_stab set_name_map]. destruct (decide (k = place names symtab_name)) as [->|Hne].
    - rewrite list_lookup_insert_eq by (by eapply lookup_lt_Some). eexists. split; [done|]. unfold content_of in Hsym. simplify_eq. by eexists.
    - rewrite list_lookup_insert_ne by done. by apply HF. }
  destruct (read_progbits_R W LE b base mmap VendorAlloc Hb He Hl h shs cs names syms snames WF shs 0%nat maps1 o2 q1) as (secs2 & maps2 & q2 & E & Hk & HS); [done|done|done|by intros ????; lia|].
  change (Z.of_nat 0) with 0 in E. rewrite E. eexists _, _, _. split; [done|]. split; [done|]. eapply passes_object; [exact WF|done|done| |exact Hsm|done|done].
  cbn [stab o2 set_stab set_name_map]. by apply list_lookup_insert_eq, (lookup_lt_Some _ _ _ Hst).
Qed.

(** ** An object for ARM with one call *)

Definition demo_header : ELFHeader := mkHeader ([0x7f; 0x45; 0x4c; 0x46; 1; 1; 1] ++ replicate 9 0) 1 EM_ARM 1 0 0 148 0 52 0 0 40 7 1.
Definition demo_names : list cstr := [[]; [46; 115; 104; 115; 116; 114; 116; 97; 98]; [46; 115; 116; 114; 116; 97; 98]; [46; 115; 121; 109; 116; 97; 98]; [46; 116; 101; 120; 116]; [46; 114; 101; 108; 46; 116; 101; 120; 116]; [46; 98; 115; 115]].
Definition demo_strings : list Z := [0; 46; 115; 104; 115; 116; 114; 116; 97; 98; 0; 46; 115; 116; 114; 116; 97; 98; 0; 46; 115; 121; 109; 116; 97; 98; 0; 46; 116; 101; 120; 116; 0; 46; 114; 101; 108; 46; 116; 101; 120; 116; 0; 46; 98; 115; 115; 0].
Definition demo_symbols : list ELFSymbol := [mkSymbol 0 0 0 0 0 0 0 0; mkSymbol 1 1 0x10 0 0 0 0 0].
Definition demo_relocs : list ELFReloc := [mkReloc 0 0 (1 * 256 + R_ARM_CALL) 0].
Definition demo_contents : list content := [CNull; CStr demo_strings; CStr [0; 102; 0; 0]; CSym demo_symbols; CProg [0xfe; 0xff; 0xff; 0xeb]; CRel false demo_relocs; CNoBits].
Definition demo_sections : list ELFSectionHeader :=
  [mkSH 0 0 0 0 0 0 0 0 0 0 0; mkSH 1 1 SHT_STRTAB 0 0 100 48 0 0 1 0; mkSH 2 11 SHT_STRTAB 0 0 96 4 0 0 1 0; mkSH 3 19 SHT_SYMTAB 0 0 64 32 2 1 4 16;
   mkSH 4 27 SHT_PROGBITS 6 0 52 4 0 0 4 0; mkSH 5 33 SHT_REL 0 0 56 8 3 4 4 8; mkSH 6 43 SHT_NOBITS 3 0 0 16 0 0 4 0].
Definition demo_file : list Z :=
  enc_header B32 true demo_header ++ [0xfe; 0xff; 0xff; 0xeb] ++ concat (enc_rel B32 true <$> demo_relocs) ++ concat (enc_symbol B32 true <$> demo_symbols) ++ [0; 102; 0; 0] ++ demo_strings ++
  concat (enc_section_header B32 true <$> demo_sections).

Lemma sub_decide b p bs : bool_decide (0 <= p) && bool_decide (p + zlen bs <= zlen b) && bool_decide (take (length bs) (drop (Z.to_nat p) b) = bs) = true -> sub b p bs.
Proof. intros [[?%bool_decide_eq_true ?%bool_decide_eq_true]%andb_prop ?%bool_decide_eq_true]%andb_prop. done. Qed.

Ltac demo_at := unfold in_file; repeat (match goal with |- _ /\ _ => split end); first [apply sub_decide; vm_compute; reflexivity | vm_compute; congruence | vm_compute; reflexivity].

Lemma demo_well_formed : well_formed B32 true demo_file demo_header demo_sections demo_contents demo_names demo_symbols [[]; [102]].
Proof.
  constructor.
  - split_and!; [|reflexivity|apply sub_decide; vm_compute; reflexivity]. unfold header_fits. split_and!; [reflexivity|..]; repeat constructor; vm_compute; done.
  - done.
  - split_and!; [done|done|done| | |apply sub_decide; vm_compute; reflexivity].
    + repeat (constructor; [unfold section_header_fits; split; repeat constructor; vm_compute; done|]). constructor.
    + intros k sh. do 7 (destruct k as [|k]; [intros [= <-]; reflexivity|]). done.
  - repeat apply Forall2_cons_2; [..|apply Forall2_nil_2]; cbn [holds].
    + apply (bool_decide_eq_true_1 (0 ∉ [_; _; _; _; _; _])). vm_compute. reflexivity.
    + demo_at.
    + demo_at.
    + split_and!; [reflexivity..| | |demo_at].
      * repeat (constructor; [unfold symbol_fits; split_and!; repeat constructor; vm_compute; done|]). constructor.
      * intros k s. do 2 (destruct k as [|k]; [intros [= <-]; reflexivity|]). done.
    + demo_at.
    + split_and!; [reflexivity..| |intros _; by repeat constructor| |demo_at].
      * repeat (constructor; [unfold reloc_fits; split_and!; repeat constructor; vm_compute; done|]). constructor.
      * intros k s. destruct k as [|k]; [intros [= <-]; reflexivity|done].
    + split; [reflexivity|cbn; lia].
  - exists demo_strings. split; [reflexivity|]. repeat constructor.
  - exists [0; 102; 0; 0]. split_and!; [reflexivity..|]. repeat constructor.
  - intros k bs n. do 4 (destruct k as [|k]; [done|]). destruct k as [|k]; [intros _ [= <-]; right; by exists false, demo_relocs|]. do 2 (destruct k as [|k]; [done|]). done.
Qed.

Lemma ELFObject_read_back_witness : exists o maps' ar, ELFObject_read (fun _ _ => 0x10000) None B32 true [] (ArchiveReader_new demo_file 4096) = Ok (Some o, maps', ar) /\ good ar = true /\
  object_of B32 (fun _ _ => 0x10000) None demo_header demo_sections demo_contents demo_names demo_symbols [[]; [102]] o.
Proof. apply (ELFObject_read_back B32 true demo_file 4096 (fun _ _ => 0x10000) None); [lia|vm_compute; reflexivity|vm_compute; reflexivity|exact demo_well_formed]. Defined.

End ElfLoad.
