(* ===== verification/ElfLink.v ===== *)
(** * ElfLink: what relocation leaves in a section

    The relocations of a section are applied one after the other, each to a word of the section's
    memory; calls get stubs in the room behind the section's bytes.  This file says what the memory
    holds in the end. *)

From S2P Require Import Prelude Stream Memory ElfArchive ElfObject ElfReloc Bits ElfInst.
Import Stream ElfArchive ElfObject ElfReloc ElfInst.

Module ElfLink.

(** ** Memory *)

Lemma zread_lookup {A} (l l' : list A) i n : length l' = length l -> (forall j, i <= Z.of_nat j < i + n -> l' !! j = l !! j) -> zread l' i n = zread l i n.
Proof.
  intros Hlen Hl. unfold zread, zlen. rewrite Hlen. case_decide as Hd; [|done]. f_equal. apply list_eq. intros j. destruct (decide (j < Z.to_nat n)%nat) as [Hj|Hj]; [|by rewrite !lookup_take_ge by lia].
  rewrite !lookup_take_lt by lia. rewrite !lookup_drop. apply Hl. lia.
Qed.

Lemma zread_zwrite {A} (l l' : list A) i src : zwrite l i src = Ok l' -> zread l' i (zlen src) = Ok src.
Proof.
  intros Hw. pose proof (zwrite_length _ _ _ _ Hw) as Hl. unfold zwrite in Hw. case_decide as Hd; [|done]. unfold zread. rewrite Hl, decide_True by (pose proof (zlen_nonneg src); lia). f_equal. injection Hw as <-.
  assert (Ht : length (take (Z.to_nat i) l) = Z.to_nat i) by (rewrite length_take; unfold zlen in *; lia). rewrite drop_app_ge by lia. rewrite Ht, Nat.sub_diag, drop_0. unfold zlen. rewrite Nat2Z.id. by rewrite take_app_length.
Qed.

(** The second chunk is the first one with other bytes in [D]. *)
Definition touched (D : Z -> Prop) (c c' : MemChunk) : Prop :=
  chunk_buf c' = chunk_buf c /\ length (data c') = length (data c) /\ forall j, ~ D (Z.of_nat j) -> data c' !! j = data c !! j.

Lemma touched_refl D c : touched D c c.
Proof. done. Qed.

Lemma touched_trans D c1 c2 c3 : touched D c1 c2 -> touched D c2 c3 -> touched D c1 c3.
Proof. intros (B1 & L1 & H1) (B2 & L2 & H2). split_and!; [congruence..|]. intros j Hj. by rewrite H2, H1. Qed.

Lemma touched_weaken (D D' : Z -> Prop) c c' : (forall x, D x -> D' x) -> touched D c c' -> touched D' c c'.
Proof. intros HD (B & L & H). split_and!; [done..|]. intros j Hj. apply H. intros ?. by apply Hj, HD. Qed.

Lemma touched_zread D c c' i n : touched D c c' -> (forall x, i <= x < i + n -> ~ D x) -> zread (data c') i n = zread (data c) i n.
Proof. intros (_ & L & H) Hi. apply zread_lookup; [done|]. intros j Hj. apply H, Hi, Hj. Qed.

Lemma chunk_store_touched c off bs c' : chunk_store c off bs = Ok c' -> touched (fun x => off <= x < off + zlen bs) c c' /\ zread (data c') off (zlen bs) = Ok bs.
Proof.
  unfold chunk_store. destruct (zwrite (data c) off bs) as [d|] eqn:Hw; [|done]. cbn [mbind outcome_bind]. intros E. apply (inj Ok) in E. subst c'. cbn [data]. split; [|by eapply zread_zwrite].
  split_and!; [done|apply Nat2Z.inj, (zwrite_length _ _ _ _ Hw)|]. intros j Hj. apply (zwrite_lookup_out _ _ _ _ _ Hw). lia.
Qed.

Lemma initialised_Some bs : Memory.initialised (Some <$> bs) = Ok bs.
Proof. induction bs as [|x bs IH]; [done|]. cbn [Memory.initialised fmap list_fmap]. rewrite IH. done. Qed.

Lemma store32_load32 c off v c' : chunk_store32 c off v = Ok c' -> touched (fun x => off <= x < off + 4) c c' /\ chunk_load32 c' off = Ok (s32 v).
Proof.
  intros Hs. apply chunk_store_touched in Hs as [Ht Hr]. change (zlen (Some <$> bytes_le 4 v)) with 4 in *. split; [done|]. unfold chunk_load32. rewrite Hr. cbn [mbind outcome_bind]. rewrite initialised_Some. cbn [mbind outcome_bind].
  rewrite le_val_bytes_le. change (v mod 2 ^ (8 * Z.of_nat 4)) with (u32 v). by rewrite Bits.s32_u32.
Qed.

Lemma load32_touched D c c' off : touched D c c' -> (forall x, off <= x < off + 4 -> ~ D x) -> chunk_load32 c' off = chunk_load32 c off.
Proof. intros Ht Hd. unfold chunk_load32. by rewrite (touched_zread _ _ _ _ _ Ht Hd). Qed.

(** ** Objects *)

Tactic Notation "step" hyp(H) "as" simple_intropattern(p) "with" ident(E) := match type of H with
  | (?x ≫= _) = Ok _ => destruct x as [p|] eqn:E; [|discriminate H]; cbn [mbind outcome_bind] in H
  end.

(** The sections of an object but for the tables of symbols. *)
Definition same_text (o o' : ELFObject) : Prop := forall i c l, get_text o i = Ok (c, l) -> get_text o' i = Ok (c, l).

(** Pointers have 32 bits. *)
Definition pointer (a : Z) : Prop := 0 <= a < 2 ^ 32.

(** A null pointer. *)
Definition null (a : Z) : Prop := u32 a = 0.
#[global] Instance null_dec a : Decision (null a) := Z.eq_dec _ _.

(** A symbol keeps what the file says of it, and its address once it has one. *)
Definition settled (s s' : ELFSymbol) : Prop :=
  s' = setAddress s (my_addr s') /\ (~ null (my_addr s) -> my_addr s' = my_addr s) /\ (st_type s <> STT_OBJECT -> pointer (my_addr s) -> pointer (my_addr s')).
Definition syms_settled (o o' : ELFObject) : Prop := forall i k s, get_sym o i k = Ok s -> exists s', get_sym o' i k = Ok s' /\ settled s s'.

Lemma settled_refl s : settled s s.
Proof. by destruct s. Qed.

Lemma settled_trans s1 s2 s3 : settled s1 s2 -> settled s2 s3 -> settled s1 s3.
Proof. intros (E1 & H1 & P1) (E2 & H2 & P2). split_and!; [rewrite E1 in E2; done|intros Hn; specialize (H1 Hn); rewrite H2; [done|by rewrite H1]|]. intros Ht Hp. apply P2; [by rewrite E1|auto]. Qed.

Lemma syms_settled_trans o1 o2 o3 : syms_settled o1 o2 -> syms_settled o2 o3 -> syms_settled o1 o3.
Proof. intros H1 H2 i k s Hs. destruct (H1 _ _ _ Hs) as (s2 & Hs2 & ?). destruct (H2 _ _ _ Hs2) as (s3 & ? & ?). exists s3. split; [done|by eapply settled_trans]. Qed.

Lemma stab_eq_text o o' : stab o' = stab o -> same_text o o' /\ syms_settled o o'.
Proof. intros E. split; [by intros i c l; unfold get_text; rewrite E|]. intros i k s Hs. exists s. split; [unfold get_sym in *; by rewrite E|apply settled_refl]. Qed.

Lemma znth_Some {A} (l : list A) i x : znth l i = Ok x <-> 0 <= i /\ l !! Z.to_nat i = Some x.
Proof.
  unfold znth. case_decide as Hd.
  - destruct (l !! Z.to_nat i) eqn:E; cbn; split; try naive_solver.
  - split; [done|]. intros [H0 Hl]. apply lookup_lt_Some in Hl. unfold zlen in Hd. lia.
Qed.

Lemma zset_znth {A} (l l' : list A) i x : zset l i x = Ok l' -> znth l' i = Ok x /\ forall j, j <> i -> znth l' j = znth l j.
Proof.
  unfold zset. case_decide as Hd; [|done]. intros [= <-]. unfold zlen in Hd. split; [apply znth_Some; split; [lia|by apply list_lookup_insert_eq; lia]|].
  intros j Hj. unfold znth, zlen. rewrite length_insert. case_decide; [|done]. by rewrite list_lookup_insert_ne by lia.
Qed.

Lemma get_sym_Ok o i k s : get_sym o i k = Ok s <-> exists t m, znth (stab o) i = Ok (Some (SymTab t m)) /\ znth t k = Ok (Some s).
Proof.
  unfold get_sym. split.
  - intros H. step H as sec with E. destruct sec as [[|t m| | |]|]; try done. step H as s0 with E0. destruct s0; [|done]. cbn in H. apply (inj Ok) in H. subst. by eexists _, _.
  - intros (t & m & -> & Hk). cbn [mbind outcome_bind]. rewrite Hk. done.
Qed.

(** What steps on the symbols leave alone. *)
Definition quiet (o o' : ELFObject) : Prop := same_text o o' /\ syms_settled o o' /\ (missingSymbols o = true -> missingSymbols o' = true).

Lemma quiet_refl o : quiet o o.
Proof. destruct (stab_eq_text o o eq_refl). done. Qed.

Lemma quiet_trans o1 o2 o3 : quiet o1 o2 -> quiet o2 o3 -> quiet o1 o3.
Proof. intros (T1 & S1 & M1) (T2 & S2 & M2). split_and!; [by intros i c l H; apply T2, T1|by eapply syms_settled_trans|auto]. Qed.

Lemma put_sym_quiet o si k s0 s o' : get_sym o si k = Ok s0 -> settled s0 s -> put_sym o si k s = Ok o' -> quiet o o' /\ get_sym o' si k = Ok s.
Proof.
  intros Hg Hs Hp. apply get_sym_Ok in Hg as (t & m & Ht & Hk). unfold put_sym in Hp. rewrite Ht in Hp. cbn [mbind outcome_bind] in Hp. step Hp as t' with Et. step Hp as st with Es. apply (inj Ok) in Hp. subst o'.
  apply zset_znth in Et as [Etk Eto]. apply zset_znth in Es as [Esi Eso]. assert (Hnew : forall k' s', znth t' k' = Ok (Some s') -> get_sym (set_stab o st) si k' = Ok s') by (intros; apply get_sym_Ok; by exists t', m). split; [|by apply Hnew].
  split_and!; [|intros i k' s' Hg|done].
  - intros i c l Hc. unfold get_text in *. cbn [stab set_stab]. destruct (decide (i = si)) as [->|Hi]; [rewrite Ht in Hc; done|by rewrite Eso].
  - apply get_sym_Ok in Hg as (t1 & m1 & Ht1 & Hk1). destruct (decide (i = si)) as [->|Hi]; [|exists s'; split; [apply get_sym_Ok; exists t1, m1; cbn [stab set_stab]; by rewrite Eso|apply settled_refl]].
    rewrite Ht in Ht1. simplify_eq. destruct (decide (k' = k)) as [->|Hkk]; [exists s; rewrite Hk in Hk1; simplify_eq; split; [by apply Hnew|done]|]. exists s'. split; [apply Hnew; by rewrite Eto|apply settled_refl].
Qed.

Lemma setAddress_0 s : my_addr s = 0 -> setAddress s 0 = s.
Proof. destruct s. cbn. intros ->. done. Qed.

Lemma common_address_spec o s al a s' o' : common_address o s al = Ok (a, s', o') -> stab o' = stab o /\ missingSymbols o' = missingSymbols o /\ s' = setAddress s a.
Proof.
  unfold common_address. intros H. step H as [a0 o0] with E. destruct (a0 =? 0); [done|]. simplify_eq. unfold allocateSHNCommonData in E. step E as u1 with E1. step E as u2 with E2. destruct (negb _) in E; destruct (_ <? _) in E; by simplify_eq.
Qed.

Lemma bits_address_spec nb o s a s' o' : bits_address nb o s = Ok (a, s', o') -> o' = o /\ s' = setAddress s a /\ pointer a.
Proof. unfold bits_address. intros H. step H as sh with E1. step H as u with E2. step H as sec with E3. step H as c with E4. simplify_eq. split_and!; [done..|apply u32_range]. Qed.

Lemma getAddress_spec m aa o s a s' o' : getAddress m aa o s = Ok (a, s', o') -> stab o' = stab o /\ missingSymbols o' = missingSymbols o /\ s' = setAddress s a /\ settled s s'.
Proof.
  set (G := stab o' = stab o /\ missingSymbols o' = missingSymbols o /\ s' = setAddress s a /\ settled s s'). unfold getAddress. destruct (Z.eqb_spec (my_addr s) 0) as [H0|Hn]; cbn [negb]; [|intros; simplify_eq; split_and!; [done..|by destruct s'|apply settled_refl]]. intros H.
  assert (Hnull : null (my_addr s)) by (unfold null; by rewrite H0).
  assert (Ok (0, s, o) = Ok (a, s', o') -> G) as Hz by (intros; simplify_eq; split_and!; [done..|by rewrite setAddress_0|apply settled_refl]).
  assert (forall nb, bits_address nb o s = Ok (a, s', o') -> G) as Hb by (intros nb (-> & -> & Hp)%bits_address_spec; split_and!; [done..|split_and!; done]).
  destruct (Z.eqb_spec (st_type s) STT_OBJECT) as [Ht|Ht].
  - assert (forall al, common_address o s al = Ok (a, s', o') -> G) as Hc by (intros al (? & ? & ->)%common_address_spec; split_and!; [done..|split_and!; done]).
    repeat first [ exact (Hz H) | exact (Hb _ H) | exact (Hc _ H) | discriminate H | match type of H with (if ?x then _ else _) = _ => destruct x end | match type of H with (_ ≫= _) = _ => let v := fresh "v" in let E := fresh "E" in step H as v with E end ].
  - repeat first [ exact (Hz H) | exact (Hb _ H) | discriminate H | match type of H with (if ?x then _ else _) = _ => destruct x end ].
Qed.

(** The symbol has the address. *)
Definition has_address (o : ELFObject) (si k a : Z) : Prop := exists s, get_sym o si k = Ok s /\ my_addr s = a.

(** The symbol may be called, at the address. *)
Definition callee_address (o : ELFObject) (si k a : Z) : Prop := exists s, get_sym o si k = Ok s /\ my_addr s = a /\ st_type s <> STT_OBJECT.

Lemma has_address_kept o o' si k a : quiet o o' -> has_address o si k a -> ~ null a -> has_address o' si k a.
Proof. intros (_ & Hs & _) (s & Hg & <-) Hn. destruct (Hs _ _ _ Hg) as (s' & Hg' & _ & Ha & _). exists s'. auto. Qed.

Lemma sym_address_spec m o si k a s o' : sym_address m o si k = Ok (a, s, o') ->
  quiet o o' /\ missingSymbols o' = missingSymbols o /\ get_sym o' si k = Ok s /\ my_addr s = a /\ exists s0, get_sym o si k = Ok s0 /\ settled s0 s.
Proof.
  unfold sym_address. intros H. step H as s0 with Eg. step H as [[a0 s1] o1] with Ea. step H as o2 with Ep. simplify_eq. apply getAddress_spec in Ea as (Es & Em & -> & Hset). destruct (stab_eq_text _ _ Es) as [T1 S1]. assert (Q1 : quiet o o1) by (split_and!; [done..|congruence]).
  assert (Hg1 : get_sym o1 si k = Ok s0) by (unfold get_sym in *; by rewrite Es). pose proof (put_sym_quiet _ _ _ _ _ _ Hg1 Hset Ep) as [Q2 Hg2].
  split_and!; [by eapply quiet_trans| |done|done|by exists s0]. unfold put_sym in Ep. step Ep as sec with E1. destruct sec as [[]|]; try done. step Ep as t with E2. step Ep as st with E3. by simplify_eq.
Qed.

Lemma find_external_spec find o si k s a o' : (forall n, pointer (find n)) -> get_sym o si k = Ok s -> null (my_addr s) -> find_external find o si k s = Ok (a, o') ->
  quiet o o' /\ has_address o' si k a /\ (a = 0 -> missingSymbols o' = true) /\ exists name, symbol_name o s = Ok name /\ a = find name.
Proof.
  unfold find_external. intros Hp Hg H0 H. step H as name with En. set (o1 := if find name =? 0 then set_missing o else o) in H. step H as o2 with Ep. simplify_eq.
  assert (Es : stab o1 = stab o) by (unfold o1; by destruct (_ =? _)). destruct (stab_eq_text _ _ Es) as [T1 S1]. assert (Q1 : quiet o o1) by (split_and!; [done..|unfold o1; by destruct (_ =? _)]).
  assert (Hg1 : get_sym o1 si k = Ok s) by (unfold get_sym in *; by rewrite Es). pose proof (put_sym_quiet o1 si k s (setAddress s (find name)) o' Hg1) as [Q2 Hg2]; [split_and!; [done..|by intros; apply Hp]|done|].
  split_and!; [by eapply quiet_trans|by eexists| |by exists name]. intros Hz. destruct Q2 as (_ & _ & HM). apply HM. unfold o1. rewrite Hz. done.
Qed.

Lemma arm_callee_spec find o si k a o' : (forall n, pointer (find n)) -> arm_callee find o si k = Ok (a, o') -> quiet o o' /\ callee_address o' si k a /\ (a = 0 -> missingSymbols o' = true) /\ ((forall n, find n <> 0) -> a <> 0).
Proof.
  unfold arm_callee. intros Hp H. step H as [[a0 s] o1] with Es. apply sym_address_spec in Es as (Q & _ & Hg & Ha & _).
  destruct (Z.eqb_spec (st_type s) STT_FUNC) as [Ht|_].
  { destruct (Z.eqb_spec a0 0); [done|]. simplify_eq. split_and!; [done|exists s; by rewrite Ht|done..]. }
  destruct (Z.eqb_spec (st_type s) STT_NOTYPE) as [Ht|_]; [|done]. destruct (Z.eqb_spec a0 0) as [Ez|]; [|simplify_eq; split_and!; [done|exists s; by rewrite Ht|done..]].
  apply find_external_spec in H as (Q2 & Hh & Hm & name & _ & ->); [|done|done|unfold null; by rewrite Ha, Ez]. split_and!; [by eapply quiet_trans| |done|auto].
  destruct Hh as (s' & Hg' & Ha'). exists s'. split_and!; [done..|]. destruct Q2 as (_ & Y & _). destruct (Y _ _ _ Hg) as (s2 & Hg2 & E2 & _). assert (s2 = s') as -> by congruence. rewrite E2. change (st_type s <> STT_OBJECT). by rewrite Ht.
Qed.

(** *** The text of a section *)

Lemma put_text_spec o ti c l c' l' o' : get_text o ti = Ok (c, l) -> put_text o ti c' l' = Ok o' ->
  get_text o' ti = Ok (c', l') /\ syms_settled o o' /\ missingSymbols o' = missingSymbols o.
Proof.
  unfold get_text, put_text. intros Hg H. step Hg as sec with E. cbn [mbind outcome_bind] in H. destruct sec as [[| |sh c0 l0| |]|]; try done. step H as st with Es. simplify_eq. apply zset_znth in Es as [Ei Eo].
  split_and!; [cbn [stab set_stab]; by rewrite Ei| |done]. intros i k s Hs. apply get_sym_Ok in Hs as (t & m & Ht & Hk). exists s. split; [|apply settled_refl]. apply get_sym_Ok. exists t, m. cbn [stab set_stab]. rewrite Eo; [done|]. intros ->. congruence.
Qed.

Lemma store_inst_spec o ti off v o' c l : get_text o ti = Ok (c, l) -> store_inst o ti off v = Ok o' ->
  exists c', get_text o' ti = Ok (c', l) /\ touched (fun x => off <= x < off + 4) c c' /\ chunk_load32 c' off = Ok (s32 v) /\ syms_settled o o' /\ missingSymbols o' = missingSymbols o.
Proof.
  unfold store_inst. intros Hg H. rewrite Hg in H. cbn [mbind outcome_bind] in H. step H as c1 with Ec. destruct (put_text_spec _ _ _ _ _ _ _ Hg H) as (? & ? & ?). apply store32_load32 in Ec as [? ?]. by exists c1.
Qed.

Lemma load_inst_text o ti off c l : get_text o ti = Ok (c, l) -> load_inst o ti off = chunk_load32 c off.
Proof. unfold load_inst. by intros ->. Qed.

(** ** Stubs *)

Abbreviation unit l := (getUnitStubSize (kind l)).

(** The stubs of a section: [total] slots from [space] on, the first of them in use, each with the
    code that jumps to its address. *)
Definition stub_at (space : Z) (c : MemChunk) (l : StubLayout) (addr stub : Z) : Prop :=
  exists i, 0 <= i < Z.of_nat (size (stub_index l)) /\ stub = chunk_buf c + space + unit l * i /\ zread (data c) (space + unit l * i) (unit l) = Ok (Some <$> stub_code (kind l) addr).

Definition stub_inv (space total : Z) (c : MemChunk) (l : StubLayout) : Prop :=
  0 <= space /\ 0 < chunk_buf c /\ chunk_buf c + zlen (data c) < 2 ^ 32 /\ space + unit l * total <= zlen (data c) /\
  0 <= count l /\ Z.of_nat (size (stub_index l)) + count l = total /\ table l = chunk_buf c + space + unit l * Z.of_nat (size (stub_index l)) /\
  forall addr stub, stub_index l !! addr = Some stub -> stub_at space c l addr stub.

Lemma stub_code_zlen k a : zlen (Some <$> stub_code k a) = getUnitStubSize k.
Proof. by destruct k. Qed.

Lemma unit_pos k : 8 <= getUnitStubSize k.
Proof. by destruct k. Qed.

Lemma allocateStub_spec space total l c addr stub l' c' : stub_inv space total c l -> allocateStub l c addr = Ok (stub, l', c') -> stub <> 0 ->
  stub_inv space total c' l' /\ kind l' = kind l /\ touched (fun x => space <= x) c c' /\ stub_index l' !! addr = Some stub /\ stub_index l ⊆ stub_index l' /\ dom (stub_index l') = {[addr]} ∪ dom (stub_index l).
Proof.
  intros Hinv H Hs. unfold allocateStub in H. destruct (stub_index l !! addr) as [st|] eqn:Ei; [simplify_eq; split_and!; try done; apply elem_of_dom_2 in Ei; set_solver|]. destruct Hinv as (H0 & Hb & Hl & Hsp & Hc & Ht & Htab & Hat). pose proof (unit_pos (kind l)) as Hu.
  destruct (Z.eqb_spec (count l) 0) as [|Hc0]; [by simplify_eq|]. step H as c1 with Ec. simplify_eq. unfold setStubAddress in Ec. apply chunk_store_touched in Ec as [Htc Hr]. rewrite stub_code_zlen in *. set (n := Z.of_nat (size (stub_index l))) in *.
  rewrite Htab in Htc, Hr. replace (chunk_buf c + space + unit l * n - chunk_buf c) with (space + unit l * n) in * by lia. assert (Hn : 0 <= n) by (unfold n; lia).
  assert (Hsize : Z.of_nat (size (<[addr := table l]> (stub_index l))) = n + 1) by (rewrite map_size_insert_None by done; unfold n; lia). pose proof Htc as (Eb & El & _).
  split_and!; [|done|eapply touched_weaken; [|exact Htc]; intros x Hx; cbn in *; nia|by apply lookup_insert_eq|by apply insert_subseteq|apply dom_insert_L].
  unfold stub_inv. cbn [kind count stub_index table]. rewrite Hsize. rewrite Eb. assert (Ez : zlen (data c') = zlen (data c)) by (unfold zlen; by rewrite El). rewrite Ez.
  split_and!; [done..|lia|lia|rewrite Htab, u32_small by nia; lia|]. intros a st Hst. apply lookup_insert_Some in Hst as [[<- <-]|[Hne Hst]].
  - exists n. cbn [kind stub_index]. rewrite Hsize. split_and!; [lia|lia|rewrite Eb; lia|done].
  - destruct (Hat _ _ Hst) as (i & Hi & -> & Hz). exists i. cbn [kind stub_index]. rewrite Hsize. split_and!; [lia|lia|rewrite Eb; lia|]. rewrite (touched_zread _ _ _ _ _ Htc); [done|]. intros x Hx1 Hx2. nia.
Qed.

Lemma stub_for_spec space total o ti addr stub o' c l : get_text o ti = Ok (c, Some l) -> stub_inv space total c l -> stub_for o ti addr = Ok (stub, o') ->
  exists c' l', get_text o' ti = Ok (c', Some l') /\ stub_inv space total c' l' /\ kind l' = kind l /\ touched (fun x => space <= x) c c' /\ stub_index l' !! addr = Some stub /\ stub_index l ⊆ stub_index l' /\
    syms_settled o o' /\ missingSymbols o' = missingSymbols o /\ dom (stub_index l') = {[addr]} ∪ dom (stub_index l).
Proof.
  intros Hg Hinv H. unfold stub_for in H. rewrite Hg in H. cbn [mbind outcome_bind] in H. step H as [[st l'] c'] with Ea. destruct (Z.eqb_spec st 0); [done|]. step H as o1 with Ep. simplify_eq.
  destruct (allocateStub_spec _ _ _ _ _ _ _ _ Hinv Ea ltac:(done)) as (? & ? & ? & ? & ? & ?). destruct (put_text_spec _ _ _ _ _ _ _ Hg Ep) as (? & ? & ?). by exists c', l'.
Qed.

(** Writing below the stubs leaves them as they are. *)
Lemma stub_inv_touched space total c c' l (D : Z -> Prop) : touched D c c' -> (forall x, D x -> x < space) -> stub_inv space total c l -> stub_inv space total c' l.
Proof.
  intros Ht HD (H0 & Hb & Hl & Hsp & Hc & Htot & Htab & Hat). pose proof Ht as (Eb & El & _). pose proof (unit_pos (kind l)). unfold stub_inv, stub_at. rewrite Eb. assert (Ez : zlen (data c') = zlen (data c)) by (unfold zlen; by rewrite El). rewrite Ez. split_and!; [done..|].
  intros a st Hst. destruct (Hat _ _ Hst) as (i & Hi & -> & Hz). exists i. split_and!; [lia..|done|]. rewrite (touched_zread _ _ _ _ _ Ht); [done|]. intros x Hx1 Hx2. apply HD in Hx2. nia.
Qed.

(** A stub is at hand as long as slots are left. *)
Lemma stub_for_Ok space total o ti addr c l : get_text o ti = Ok (c, Some l) -> stub_inv space total c l -> (is_Some (stub_index l !! addr) \/ Z.of_nat (size (stub_index l)) < total) -> exists stub o', stub_for o ti addr = Ok (stub, o').
Proof.
  intros Hg (H0 & Hb & Hl & Hsp & Hc & Ht & Htab & Hat) Hor. pose proof (unit_pos (kind l)) as Hu. unfold stub_for. rewrite Hg. cbn [mbind outcome_bind]. unfold allocateStub.
  assert (Hput : forall c' l', exists o', put_text o ti c' l' = Ok o').
  { intros c' l'. unfold get_text in Hg. step Hg as sec with Es. destruct sec as [[| |sh c0 l0| |]|]; try done. unfold put_text. rewrite Es. cbn [mbind outcome_bind]. apply znth_Some in Es as [Hz El]. unfold zset. apply lookup_lt_Some in El. rewrite decide_True by (unfold zlen; lia). cbn. by eexists. }
  destruct (stub_index l !! addr) as [st|] eqn:Ei.
  - cbn [mbind outcome_bind]. destruct (Hat _ _ Ei) as (i & Hi & Est & _). destruct (Z.eqb_spec st 0); [nia|]. destruct (Hput c (Some l)) as (o' & ->). by eexists _, _.
  - destruct Hor as [[? ?]|Hlt]; [done|]. destruct (Z.eqb_spec (count l) 0) as [|_]; [lia|]. unfold setStubAddress, chunk_store. rewrite Htab. set (n := Z.of_nat (size (stub_index l))) in *.
    destruct (zwrite_Ok (data c) (chunk_buf c + space + unit l * n - chunk_buf c) (Some <$> stub_code (kind l) addr)) as [d Hd]; [nia|rewrite stub_code_zlen; nia|]. rewrite Hd. cbn [mbind outcome_bind].
    destruct (Z.eqb_spec (chunk_buf c + space + unit l * n) 0); [nia|]. match goal with |- context [put_text o ti ?c' ?l'] => destruct (Hput c' l') as (o' & ->) end. by eexists _, _.
Qed.

(** ** Steps of relocation *)

Section steps.
Context (space total ti : Z) (D : Z -> Prop).

(** A state of the section: its memory and its stubs. *)
Definition text_state (o : ELFObject) (c : MemChunk) (l : StubLayout) : Prop := get_text o ti = Ok (c, Some l) /\ stub_inv space total c l.

(** From one state to another: bytes change in [D] only, stubs stay, symbols keep their addresses. *)
Definition steps (o : ELFObject) (c : MemChunk) (l : StubLayout) (o' : ELFObject) (c' : MemChunk) (l' : StubLayout) : Prop :=
  text_state o' c' l' /\ kind l' = kind l /\ touched D c c' /\ stub_index l ⊆ stub_index l' /\ syms_settled o o' /\ (missingSymbols o = true -> missingSymbols o' = true).

Lemma steps_refl o c l : text_state o c l -> steps o c l o c l.
Proof. intros H. split_and!; [apply H|done|done|done| |done]. apply (stab_eq_text o o eq_refl). Qed.

Lemma steps_trans o1 c1 l1 o2 c2 l2 o3 c3 l3 : steps o1 c1 l1 o2 c2 l2 -> steps o2 c2 l2 o3 c3 l3 -> steps o1 c1 l1 o3 c3 l3.
Proof. intros (_ & K1 & T1 & I1 & S1 & M1) (X2 & K2 & T2 & I2 & S2 & M2). split_and!; [apply X2|congruence|by eapply touched_trans|by etrans|by eapply syms_settled_trans|auto]. Qed.

Lemma steps_quiet o c l o' : text_state o c l -> quiet o o' -> steps o c l o' c l.
Proof. intros [Hg Hi] (Ht & Hs & Hm). split_and!; [split; [by apply Ht|done]|done..]. Qed.

Lemma steps_store o c l off v o' : (forall x, off <= x < off + 4 -> D x) -> off + 4 <= space -> text_state o c l -> store_inst o ti off v = Ok o' ->
  exists c', steps o c l o' c' l /\ chunk_load32 c' off = Ok (s32 v).
Proof.
  intros HD Ho [Hg Hi] H. destruct (store_inst_spec _ _ _ _ _ _ _ Hg H) as (c' & Hg' & Ht & Hl & Hs & Hm). exists c'. split; [|done]. split_and!; [split; [done|]|done|exact (touched_weaken _ _ _ _ HD Ht)|done|done|congruence].
  eapply stub_inv_touched; [exact Ht| |done]. intros x Hx. cbn in Hx. lia.
Qed.

Lemma steps_stub o c l addr stub o' : (forall x, space <= x -> D x) -> text_state o c l -> stub_for o ti addr = Ok (stub, o') ->
  exists c' l', steps o c l o' c' l' /\ stub_index l' !! addr = Some stub /\ touched (fun x => space <= x) c c' /\ dom (stub_index l') = {[addr]} ∪ dom (stub_index l).
Proof.
  intros HD [Hg Hi] H. destruct (stub_for_spec _ _ _ _ _ _ _ _ _ Hg Hi H) as (c' & l' & Hg' & Hi' & Hk & Ht & Hl & Hsub & Hs & Hm & Hd). exists c', l'. split_and!; [|done..]. split_and!; [done..|exact (touched_weaken _ _ _ _ HD Ht)|done|done|congruence].
Qed.

Lemma steps_address o c l o' c' l' si k a : steps o c l o' c' l' -> has_address o si k a -> ~ null a -> has_address o' si k a.
Proof. intros (_ & _ & _ & _ & Hs & _) (s & Hg & <-) Hn. destruct (Hs _ _ _ Hg) as (s' & Hg' & _ & Ha & _). exists s'. auto. Qed.

Lemma steps_load o c l o' c' l' off : steps o c l o' c' l' -> (forall x, off <= x < off + 4 -> ~ D x) -> chunk_load32 c' off = chunk_load32 c off.
Proof. intros (_ & _ & Ht & _) Hd. by eapply load32_touched. Qed.

End steps.

Lemma steps_weaken space total ti (D D' : Z -> Prop) o c l o' c' l' : (forall x, D x -> D' x) -> steps space total ti D o c l o' c' l' -> steps space total ti D' o c l o' c' l'.
Proof. intros HD (X & K & T & R). split_and!; [apply X|done|exact (touched_weaken _ _ _ _ HD T)|apply R..]. Qed.

End ElfLink.
