(* ===== verification/ElfArm.v ===== *)
(** * ElfArm: the relocations of ARM code

    What [relocateARM] does to the words of a section, entry by entry and for a whole table. *)

From Stdlib Require Import List.
From S2P Require Import Prelude Stream Memory ElfArchive ElfObject ElfReloc Bits ElfInst ElfLoad ElfLink.
Import Stream ElfArchive ElfObject ElfReloc ElfInst ElfLink.

Module ElfArm.

(** ** Words *)

Lemma slice_s32 v k n : 0 <= k -> 0 <= n -> k + n <= 32 -> slice (s32 v) k n = slice v k n.
Proof.
  intros Hk Hn Hs. rewrite !slice_bits by done. apply Z.bits_inj'. intros j Hj. rewrite !Z.land_spec. destruct (Z.lt_ge_cases j n); [|rewrite Z.ones_spec_high, !andb_false_r by lia; done].
  f_equal. rewrite !Z.shiftr_spec by done. rewrite Bits.testbit_s32 by lia. destruct (Z.ltb_spec (j + k) 32); [done|lia].
Qed.

Lemma arm_branch_s32 v : arm_branch (s32 v) = arm_branch v.
Proof. unfold arm_branch. by rewrite slice_s32 by lia. Qed.
Lemma thumb_blx_s32 v : thumb_blx (s32 v) = thumb_blx v.
Proof. unfold thumb_blx. cbv zeta. by rewrite !slice_s32 by lia. Qed.
Lemma arm_imm16_s32 v : arm_imm16 (s32 v) = arm_imm16 v.
Proof. unfold arm_imm16. by rewrite !slice_s32 by lia. Qed.
Lemma thumb_imm16_s32 v : thumb_imm16 (s32 v) = thumb_imm16 v.
Proof. unfold thumb_imm16. by rewrite !slice_s32 by lia. Qed.

Lemma land_u32 v m : 0 <= m < 2 ^ 32 -> Z.land (u32 v) m = Z.land v m.
Proof. intros Hm. unfold u32, wrap. rewrite <- Z.land_ones by lia. rewrite <- Z.land_assoc. f_equal. rewrite Z.land_comm, Z.land_ones by lia. by rewrite Z.mod_small. Qed.

Lemma land_16 v : Z.land v 0xffff = v mod 2 ^ 16.
Proof. by rewrite <- Z.land_ones by lia. Qed.

Lemma s32_range v : - 2 ^ 31 <= s32 v < 2 ^ 31.
Proof. unfold s32, swrap. pose proof (Z.mod_pos_bound (v + 2 ^ (32 - 1)) (2 ^ 32) ltac:(lia)). lia. Qed.

Lemma s32_mod4 v : s32 v mod 4 = v mod 4.
Proof. unfold s32, swrap. Z.to_euclidean_division_equations; lia. Qed.

(** A distance computed in 32 bits leads from [P] to the sum. *)
Lemma distance_target stub A P : u32 (P + s32 (s32 (s32 stub + A) - P)) = u32 (stub + A).
Proof. rewrite <- (Bits.u32_of_s32 (P + _)). unfold u32, s32, wrap, swrap. Z.to_euclidean_division_equations; lia. Qed.

Lemma swap_halves_s32 v : swap_halves (s32 v) = swap_halves v.
Proof. unfold swap_halves. rewrite <- Bits.s32_u32, <- (Bits.s32_u32 (Z.lor (ElfReloc.bits v _ _) _)). f_equal. unfold ElfReloc.bits. Bits.bits32. Qed.

Lemma s32_twice v : s32 (s32 v) = s32 v.
Proof. by rewrite <- (Bits.s32_u32 (s32 v)), Bits.u32_of_s32, Bits.s32_u32. Qed.

Lemma s32_swap v : s32 (swap_halves v) = swap_halves v.
Proof. unfold swap_halves. apply s32_twice. Qed.

(** ** One entry *)

Definition thumb_bit (s : ELFSymbol) : Z := if isConcreteFunc s && negb (Z.land (st_value s) 1 =? 0) then 1 else 0.

Definition is_arm_call (type : Z) : bool := (type =? R_ARM_CALL) || (type =? R_ARM_JUMP24).
Definition is_thm_call (type : Z) : bool := (type =? R_ARM_THM_CALL) || (type =? R_ARM_THM_JUMP24).

(** The value that a [MOVW] or [MOVT] is for. *)
Definition mov_value (type a : Z) : Z := if (type =? R_ARM_MOVT_ABS) || (type =? R_ARM_THM_MOVT_ABS) then Z.shiftr (s32 a) 16 else s32 a.

(** What an entry of the type, for the symbol at the address, makes of a word at [off]: [P] is the
    address of the word. *)
Definition arm_effect (l : StubLayout) (P : Z) (s : ELFSymbol) (type a raw raw' : Z) : Prop :=
  if type =? R_ARM_ABS32 then raw' = s32 (Z.lor (s32 (s32 a + raw)) (thumb_bit s))
  else if is_arm_call type then
    exists stub, stub_index l !! a = Some stub /\ (P mod 4 = 0 -> stub mod 4 = 0 -> u32 (P + arm_branch raw') = u32 (stub + arm_branch raw)) /\ Z.land raw' 0xff000000 = Z.land raw 0xff000000
  else if is_thm_call type then
    exists stub, stub_index l !! a = Some stub /\ (thm_call_addend (swap_halves raw) mod 4 = 0 -> stub mod 4 = 0 -> u32 (P - P mod 4 + thumb_blx (swap_halves raw')) = u32 (stub + thm_call_addend (swap_halves raw)))
  else if (type =? R_ARM_MOVT_ABS) || (type =? R_ARM_MOVW_ABS_NC) then
    arm_imm16 raw' = (mov_value type a + arm_imm16 raw) mod 2 ^ 16 /\ Z.land raw' 0xfff0f000 = Z.land raw 0xfff0f000
  else
    thumb_imm16 (swap_halves raw') = Z.lor (mov_value type a + thumb_imm16 (swap_halves raw)) (if type =? R_ARM_THM_MOVT_ABS then 0 else thumb_bit s) mod 2 ^ 16 /\
    Z.land (swap_halves raw') 0xfbf08f00 = Z.land (swap_halves raw) 0xfbf08f00.

Lemma arm_call_effect inst stub P : P mod 4 = 0 -> stub mod 4 = 0 -> let D := s32 (s32 (s32 stub + arm_call_addend inst) - P) in too_far (u32 (Z.shiftr D 2)) = false ->
  u32 (P + arm_branch (s32 (arm_call_inst inst (u32 (Z.shiftr D 2))))) = u32 (stub + arm_branch inst).
Proof.
  intros HP Hs D Hf. rewrite arm_branch_s32. unfold D in Hf |- *. rewrite arm_branch_addend in Hf |- *. rewrite arm_call_target; [apply distance_target|apply s32_range| |done].
  rewrite s32_mod4. assert (E : s32 (s32 stub + arm_branch inst) mod 4 = 0); [|Z.to_euclidean_division_equations; lia]. rewrite s32_mod4. pose proof (s32_mod4 stub). unfold arm_branch. Z.to_euclidean_division_equations; lia.
Qed.

Lemma thm_call_effect inst stub P : thm_call_addend inst mod 4 = 0 -> stub mod 4 = 0 -> let D := s32 (s32 (s32 stub + thm_call_addend inst) - Z.land P (Z.lnot 3)) in too_far (u32 (Z.shiftr D 1)) = false ->
  u32 (P - P mod 4 + thumb_blx (swap_halves (s32 (swap_halves (s32 (thm_call_inst inst (u32 (Z.shiftr D 1)))))))) = u32 (stub + thm_call_addend inst).
Proof.
  intros HA Hs D Hf. assert (EP : Z.land P (Z.lnot 3) = P - P mod 4) by (change 3 with (Z.ones 2); rewrite <- Z.ldiff_land, Z.ldiff_ones_r, Z.shiftr_div_pow2, Z.shiftl_mul_pow2 by lia; change (2 ^ 2) with 4; Z.to_euclidean_division_equations; lia).
  rewrite swap_halves_s32, swap_halves_twice, thumb_blx_s32, thumb_blx_s32. unfold D in Hf |- *. rewrite EP in Hf |- *. rewrite thm_call_target; [apply distance_target|apply s32_range| |done].
  rewrite s32_mod4. assert (E : s32 (s32 stub + thm_call_addend inst) mod 4 = 0); [|Z.to_euclidean_division_equations; lia]. rewrite s32_mod4. pose proof (s32_mod4 stub). Z.to_euclidean_division_equations; lia.
Qed.

Lemma arm_mov_effect l P s type a raw : (type = R_ARM_MOVT_ABS \/ type = R_ARM_MOVW_ABS_NC) -> arm_effect l P s type a raw (s32 (arm_mov_inst raw (u32 (mov_value type a + arm_mov_addend raw)))).
Proof.
  intros Ht. assert (E : forall v, arm_imm16 (s32 (arm_mov_inst raw (u32 (v + arm_mov_addend raw)))) = (v + arm_imm16 raw) mod 2 ^ 16 /\ Z.land (s32 (arm_mov_inst raw (u32 (v + arm_mov_addend raw)))) 0xfff0f000 = Z.land raw 0xfff0f000).
  { intros v. rewrite arm_imm16_s32, arm_mov_target, land_u32, land_16, arm_imm16_bits by lia. split; [done|]. rewrite <- land_u32, Bits.u32_of_s32, land_u32, arm_mov_rest, land_u32 by lia. done. }
  unfold arm_effect. destruct Ht as [-> | ->]; apply E.
Qed.

Lemma thm_mov_effect l P s type a raw : (type = R_ARM_THM_MOVT_ABS \/ type = R_ARM_THM_MOVW_ABS_NC) -> let inst := swap_halves raw in let v := mov_value type a + thm_mov_addend inst in
  arm_effect l P s type a raw (s32 (swap_halves (s32 (thm_mov_inst inst (if type =? R_ARM_THM_MOVT_ABS then u32 v else u32 (Z.lor (s32 v) (thumb_bit s))))))).
Proof.
  intros Ht inst v. assert (E : forall r, thumb_imm16 (swap_halves (s32 (swap_halves (s32 (thm_mov_inst inst r))))) = Z.land r 0xffff /\ Z.land (swap_halves (s32 (swap_halves (s32 (thm_mov_inst inst r))))) 0xfbf08f00 = Z.land inst 0xfbf08f00).
  { intros r. rewrite swap_halves_s32, swap_halves_twice, s32_twice. rewrite thumb_imm16_s32, thm_mov_target. split; [done|]. rewrite <- land_u32, Bits.u32_of_s32, land_u32, thm_mov_rest, land_u32 by lia. done. }
  assert (EA : thm_mov_addend inst = thumb_imm16 inst) by (symmetry; apply thumb_imm16_bits). unfold arm_effect. destruct Ht as [-> | ->]; cbn -[thumb_imm16 Z.pow Z.land Z.lor thumb_bit]; fold inst.
  - destruct (E (u32 v)) as [E1 E2]. split; [|exact E2]. rewrite E1, land_u32, land_16, Z.lor_0_r by lia. unfold v. by rewrite EA.
  - destruct (E (u32 (Z.lor (s32 v) (thumb_bit s)))) as [E1 E2]. split; [|exact E2]. rewrite E1, land_u32, <- land_16 by lia. rewrite !Z.land_lor_distr_l. f_equal. rewrite <- (land_u32 (s32 v)), Bits.u32_of_s32, land_u32 by lia. unfold v. by rewrite EA.
Qed.

Section entry.
Context (W : bitwidth) (find : cstr -> Z) (space total ti si : Z) (Hfind : forall n, pointer (find n)).

Abbreviation area off := (fun x => off <= x < off + 4 \/ space <= x).

Lemma area_word off x : off <= x < off + 4 -> area off x.
Proof. cbn. lia. Qed.
Lemma area_stubs off x : space <= x -> area off x.
Proof. cbn. lia. Qed.

(** The only address that gets a stub is that of the symbol; it is not null if the caller finds it. *)
Definition new_key (o o' : ELFObject) (k a : Z) (l l' : StubLayout) : Prop :=
  dom (stub_index l') ⊆ {[a]} ∪ dom (stub_index l) /\ ((forall n, find n <> 0) -> a <> 0) /\ (~ null a -> has_address o' si k a) /\
  forall s, get_sym o si k = Ok s -> st_type s <> STT_OBJECT /\ (pointer (my_addr s) -> pointer a).

Lemma callee_address_kept o o' k a : syms_settled o o' -> callee_address o si k a -> ~ null a -> has_address o' si k a.
Proof. intros Hs (s & Hg & <- & Ht) Hn. destruct (Hs _ _ _ Hg) as (s' & Hg' & E & Ha & _). exists s'. auto. Qed.

Lemma callee_address_pointer o o' k a s : syms_settled o o' -> callee_address o' si k a -> get_sym o si k = Ok s -> st_type s <> STT_OBJECT /\ (pointer (my_addr s) -> pointer a).
Proof. intros Hs (s' & Hg' & <- & Ht) Hg. destruct (Hs _ _ _ Hg) as (s2 & Hg2 & E & _ & Hp). assert (s2 = s') as -> by congruence. rewrite E in Ht. split; [done|by apply Hp]. Qed.

Lemma arm_call_spec o c l k off P thumb o' : 0 <= off -> off + 4 <= space -> text_state space total ti o c l -> arm_call find o si ti k off P thumb = Ok o' ->
  exists c' l' a stub raw raw', steps space total ti (area off) o c l o' c' l' /\ stub_index l' !! a = Some stub /\ (has_address o' si k a \/ null a) /\ (a = 0 -> missingSymbols o' = true) /\ new_key o o' k a l l' /\
    chunk_load32 c off = Ok raw /\ chunk_load32 c' off = Ok raw' /\
    if thumb then too_far (u32 (Z.shiftr (s32 (s32 (s32 stub + thm_call_addend (swap_halves raw)) - Z.land P (Z.lnot 3))) 1)) = false /\
      raw' = s32 (swap_halves (s32 (thm_call_inst (swap_halves raw) (u32 (Z.shiftr (s32 (s32 (s32 stub + thm_call_addend (swap_halves raw)) - Z.land P (Z.lnot 3))) 1)))))
    else too_far (u32 (Z.shiftr (s32 (s32 (s32 stub + arm_call_addend raw) - P)) 2)) = false /\ raw' = s32 (arm_call_inst raw (u32 (Z.shiftr (s32 (s32 (s32 stub + arm_call_addend raw) - P)) 2))).
Proof.
  intros Ho Hsp X H. unfold arm_call in H. step H as raw with El. rewrite (load_inst_text _ _ _ _ _ (proj1 X)) in El. step H as [A o1] with E1.
  assert (exists c1, steps space total ti (area off) o c l o1 c1 l /\ A = (if thumb then thm_call_addend (swap_halves raw) else arm_call_addend raw) /\ chunk_load32 c1 off = Ok (if thumb then swap_halves raw else raw)) as (c1 & S1 & EA & L1).
  { destruct thumb; [|simplify_eq; exists c; split_and!; [by apply steps_refl|done..]]. step E1 as o2 with Es. simplify_eq. destruct (steps_store space total ti (area off) o c l off _ _ (area_word off) Hsp X Es) as (c1 & ? & ?). exists c1. rewrite s32_swap in *. done. }
  step H as [a o2] with Ec. apply arm_callee_spec in Ec as (Q & Hh & Hm & Hnz); [|done]. pose proof (steps_quiet space total ti (area off) _ _ _ _ (proj1 S1) Q) as S2.
  step H as [stub o3] with Et. destruct (steps_stub space total ti (area off) _ _ _ _ _ _ (area_stubs off) (proj1 S2) Et) as (c3 & l3 & S3 & Hidx & Htd & Hdom). step H as inst with Ei.
  rewrite (load_inst_text _ _ _ _ _ (proj1 (proj1 S3))) in Ei. rewrite (load32_touched _ _ _ _ Htd) in Ei by (intros; lia). rewrite L1 in Ei.
  assert (S13 := steps_trans _ _ _ _ _ _ _ _ _ _ _ _ _ S1 (steps_trans _ _ _ _ _ _ _ _ _ _ _ _ _ S2 S3)). assert (Hm3 : a = 0 -> missingSymbols o3 = true) by (intros Ha; apply S3; auto).
  assert (Hfin : forall v, store_inst o3 ti off v = Ok o' -> exists c', steps space total ti (area off) o c l o' c' l3 /\ (has_address o' si k a \/ null a) /\ (a = 0 -> missingSymbols o' = true) /\ new_key o o' k a l l3 /\ chunk_load32 c' off = Ok (s32 v)).
  { intros v Hst. destruct (steps_store space total ti (area off) _ _ _ off _ _ (area_word off) Hsp (proj1 S3) Hst) as (c4 & S4 & L4). exists c4. pose proof (steps_trans _ _ _ _ _ _ _ _ _ _ _ _ _ S3 S4) as (_ & _ & _ & _ & Y & _).
    split_and!; [by eapply steps_trans| |intros Ha; apply S4; auto|split_and!; [rewrite Hdom; set_solver|done|by eapply callee_address_kept|intros s; eapply callee_address_pointer; [|exact Hh]; apply (steps_trans _ _ _ _ _ _ _ _ _ _ _ _ _ S1 S2)]|done].
    destruct (decide (null a)) as [|Hn]; [by right|left]. by eapply callee_address_kept. }
  apply (inj Ok) in Ei. subst inst A. destruct thumb; cbv iota in H; (destruct (too_far _) eqn:Ef in H; [done|]); destruct (Hfin _ H) as (c4 & ? & ? & ? & ? & ?); exists c4, l3, a, stub, raw; eexists; split_and!; done.
Qed.

Lemma u32_s32_add P x : u32 (s32 P + x) = u32 (P + x).
Proof. unfold u32, s32, wrap, swrap. Z.to_euclidean_division_equations; lia. Qed.

(** What one entry does, given the state before and after. *)
Definition entry_done (o : ELFObject) (c : MemChunk) (l : StubLayout) (o' : ELFObject) (c' : MemChunk) (l' : StubLayout) (rel : ELFReloc) : Prop :=
  let k := getSymTabIndex W rel in let off := u32 (r_offset rel) in
  exists s a raw raw', get_sym o si k = Ok s /\ (has_address o' si k a \/ null a) /\ (is_call EM_ARM (reloc_type W rel) = true -> a = 0 -> missingSymbols o' = true) /\
    (if is_call EM_ARM (reloc_type W rel) then new_key o o' k a l l' else l' = l) /\ chunk_load32 c off = Ok raw /\ chunk_load32 c' off = Ok raw' /\ arm_effect l' (chunk_buf c + off) s (reloc_type W rel) a raw raw'.

Lemma calls_effect o c l k off P thumb o' s type : 0 <= off -> off + 4 <= space -> text_state space total ti o c l -> P = chunk_buf c + off -> get_sym o si k = Ok s -> is_arm_call type = negb thumb -> is_thm_call type = thumb -> (type =? R_ARM_ABS32) = false ->
  arm_call find o si ti k off (s32 P) thumb = Ok o' ->
  exists c' l' a raw raw', steps space total ti (area off) o c l o' c' l' /\ (has_address o' si k a \/ null a) /\ (a = 0 -> missingSymbols o' = true) /\ new_key o o' k a l l' /\ chunk_load32 c off = Ok raw /\ chunk_load32 c' off = Ok raw' /\ arm_effect l' P s type a raw raw'.
Proof.
  intros Ho Hsp X EP Hg Ha Ht Hn H. destruct (arm_call_spec _ _ _ _ _ _ _ _ Ho Hsp X H) as (c' & l' & a & stub & raw & raw' & S & Hi & Hadr & Hm & Hkey & L & L' & Heff). exists c', l', a, raw, raw'. split_and!; [done..|].
  unfold arm_effect. rewrite Hn, Ha, Ht. destruct thumb; cbn [negb]; destruct Heff as [Hf ->]; exists stub.
  - split; [done|]. intros HA Hs. pose proof (thm_call_effect _ _ _ HA Hs Hf) as E. cbv zeta in E. rewrite <- E, s32_mod4. rewrite <- !Z.add_sub_swap, <- !Z.add_sub_assoc. by rewrite u32_s32_add.
  - split_and!; [done| |].
    + intros HP Hs. rewrite <- s32_mod4 in HP. pose proof (arm_call_effect _ _ _ HP Hs Hf) as E. cbv zeta in E. rewrite <- E. by rewrite u32_s32_add.
    + rewrite <- land_u32, Bits.u32_of_s32, land_u32, arm_call_top, land_u32 by lia. done.
Qed.

Lemma arm_external_spec o k s o' a : get_sym o si k = Ok s -> arm_external find o si k s (s32 (my_addr s)) = Ok (a, o') -> exists a', a = s32 a' /\ quiet o o' /\ (has_address o' si k a' \/ null a').
Proof.
  intros Hg H. unfold arm_external in H. destruct (Z.eqb_spec (s32 (my_addr s)) 0) as [Hz|Hz]; cbn [andb] in H; [|simplify_eq; exists (my_addr s); split_and!; [done|apply quiet_refl|left; by exists s]].
  destruct (st_type s =? STT_NOTYPE); [|simplify_eq; exists (my_addr s); split_and!; [done|apply quiet_refl|left; by exists s]]. step H as [b o1] with Ef. simplify_eq.
  apply find_external_spec in Ef as (Q & Hh & _ & _); [|done|done|unfold null; by rewrite <- Bits.u32_of_s32, Hz]. exists b. split_and!; [done|done|by left].
Qed.

Lemma settled_facts s s' : settled s s' -> thumb_bit s' = thumb_bit s /\ st_type s' = st_type s.
Proof. intros [-> _]. done. Qed.

Lemma arm_effect_settled l P s s' type a raw raw' : settled s s' -> arm_effect l P s' type a raw raw' -> arm_effect l P s type a raw raw'.
Proof. intros Hs. unfold arm_effect. by rewrite (proj1 (settled_facts _ _ Hs)). Qed.

Lemma is_call_types type : is_call EM_ARM type = is_arm_call type || is_thm_call type.
Proof.
  unfold is_call, is_arm_call, is_thm_call. cbn [EM_ARM Z.eqb Pos.eqb]. apply eq_true_iff_eq. rewrite bool_decide_eq_true, !orb_true_iff, !Z.eqb_eq. set_solver.
Qed.

Lemma arm_type_cases type : (type =? R_ARM_ABS32) = true \/ (type =? R_ARM_ABS32) = false /\ ((is_arm_call type = true /\ is_thm_call type = false) \/ (is_arm_call type = false /\ is_thm_call type = true) \/ (is_arm_call type = false /\ is_thm_call type = false)).
Proof.
  unfold is_arm_call, is_thm_call. destruct (Z.eqb_spec type R_ARM_ABS32); [by left|right]. split; [done|]. destruct (Z.eqb_spec type R_ARM_CALL) as [->|]; [by left|]. destruct (Z.eqb_spec type R_ARM_JUMP24) as [->|]; [by left|]. right.
  cbn [orb]. destruct (_ || _); [by left|by right].
Qed.

Section after_address.
Context (o o1 : ELFObject) (c : MemChunk) (l : StubLayout) (rel : ELFReloc) (s0 s : ELFSymbol).

Abbreviation off := (u32 (r_offset rel)).
Abbreviation k := (getSymTabIndex W rel).
Abbreviation type := (reloc_type W rel).

Context (Hsp : off + 4 <= space) (X : text_state space total ti o c l) (Q : quiet o o1) (Hg0 : get_sym o si k = Ok s0) (Hg : get_sym o1 si k = Ok s) (Hset : settled s0 s).

Lemma after_steps : steps space total ti (area off) o c l o1 c l.
Proof. by apply steps_quiet. Qed.

Lemma call_entry thumb o' : is_arm_call type = negb thumb -> is_thm_call type = thumb -> (type =? R_ARM_ABS32) = false -> arm_call find o1 si ti k off (s32 (chunk_buf c + off)) thumb = Ok o' ->
  exists c' l', steps space total ti (area off) o c l o' c' l' /\ entry_done o c l o' c' l' rel.
Proof.
  intros H1 H2 H3 Hc. destruct (calls_effect o1 c l k off _ thumb o' s type (proj1 (u32_range _)) Hsp (proj1 after_steps) eq_refl Hg H1 H2 H3 Hc) as (c' & l' & a' & raw & raw' & S2 & Hadr & Hm & Hkey & L & L' & Heff).
  exists c', l'. split; [eapply steps_trans; [exact after_steps|done]|]. exists s0, a', raw, raw'. split_and!; try done; [rewrite is_call_types, H1, H2|by eapply arm_effect_settled].
  assert (new_key o o' k a' l l'); [|by destruct thumb]. destruct Hkey as (? & ? & ? & Hp). split_and!; [done..|]. intros s1 Hs1. assert (s1 = s0) as -> by congruence. destruct (Hp s Hg) as [Ht Hp']. destruct Hset as (E & _ & Hs). rewrite E in Ht. auto.
Qed.

Lemma external_entry (f : Z -> ELFObject -> outcome ELFObject) o' : is_arm_call type = false -> is_thm_call type = false -> ('(Sv, o2) ← arm_external find o1 si k s (s32 (my_addr s)); f Sv o2) = Ok o' ->
  (forall a o2, f (s32 a) o2 = Ok o' -> exists raw v, load_inst o2 ti off = Ok raw /\ store_inst o2 ti off v = Ok o' /\ arm_effect l (chunk_buf c + off) s type a raw (s32 v)) ->
  exists c' l', steps space total ti (area off) o c l o' c' l' /\ entry_done o c l o' c' l' rel.
Proof.
  intros H1 H2 Hf Heff. step Hf as [Sv o2] with Ee. destruct (arm_external_spec _ _ _ _ _ Hg Ee) as (a' & -> & Q2 & Hadr). pose proof (steps_quiet space total ti (area off) _ _ _ _ (proj1 after_steps) Q2) as S2.
  destruct (Heff _ _ Hf) as (raw & v & Hraw & Hst & He). destruct (steps_store space total ti (area off) _ _ _ off _ _ (area_word off) Hsp (proj1 S2) Hst) as (c3 & S3 & L3). rewrite (load_inst_text _ _ _ _ _ (proj1 (proj1 S2))) in Hraw.
  exists c3, l. split; [eapply steps_trans; [exact after_steps|by eapply steps_trans]|]. exists s0, a', raw, (s32 v). split_and!; [done| | |by rewrite is_call_types, H1, H2|done|done|by eapply arm_effect_settled].
  - destruct (decide (null a')) as [|Hn]; [by right|left]. destruct Hadr as [Hadr|]; [|done]. by eapply steps_address.
  - rewrite is_call_types, H1, H2. done.
Qed.

End after_address.

Lemma mov_store a o2 ti' off' s type' l P o' : is_arm_call type' = false -> is_thm_call type' = false -> (type' =? R_ARM_ABS32) = false ->
  (type' =? R_ARM_MOVT_ABS) || (type' =? R_ARM_MOVW_ABS_NC) || (type' =? R_ARM_THM_MOVW_ABS_NC) || (type' =? R_ARM_THM_MOVT_ABS) = true ->
  arm_mov o2 ti' off' (s32 a) (thumb_bit s) type' = Ok o' -> exists raw v, load_inst o2 ti' off' = Ok raw /\ store_inst o2 ti' off' v = Ok o' /\ arm_effect l P s type' a raw (s32 v).
Proof.
  intros H1 H2 H3 Hty H. unfold arm_mov in H. step H as raw with El. change (if (type' =? R_ARM_MOVT_ABS) || (type' =? R_ARM_THM_MOVT_ABS) then Z.shiftr (s32 a) 16 else s32 a) with (mov_value type' a) in H.
  destruct ((type' =? R_ARM_MOVT_ABS) || (type' =? R_ARM_MOVW_ABS_NC)) eqn:Et.
  - eexists raw, _. split_and!; [done|exact H|]. apply arm_mov_effect. apply orb_true_iff in Et as [Et%Z.eqb_eq|Et%Z.eqb_eq]; auto.
  - eexists raw, _. split_and!; [done|exact H|]. cbn [orb] in Hty. apply thm_mov_effect. apply orb_true_iff in Hty as [Et'%Z.eqb_eq|Et'%Z.eqb_eq]; auto.
Qed.

Lemma relocateARM_one_spec o c l rel o' : u32 (r_offset rel) + 4 <= space -> text_state space total ti o c l -> relocateARM_one W find o si ti rel = Ok o' ->
  exists c' l', steps space total ti (area (u32 (r_offset rel))) o c l o' c' l' /\ entry_done o c l o' c' l' rel.
Proof.
  intros Hsp X H. unfold relocateARM_one in H. rewrite (proj1 X) in H. cbn [mbind outcome_bind] in H. step H as [[a s] o1] with Es. apply sym_address_spec in Es as (Q & _ & Hg & <- & s0 & Hg0 & Hset).
  change (if isConcreteFunc s && negb (Z.land (st_value s) 1 =? 0) then 1 else 0) with (thumb_bit s) in H.
  change ((reloc_type W rel =? R_ARM_CALL) || (reloc_type W rel =? R_ARM_JUMP24)) with (is_arm_call (reloc_type W rel)) in H. change ((reloc_type W rel =? R_ARM_THM_CALL) || (reloc_type W rel =? R_ARM_THM_JUMP24)) with (is_thm_call (reloc_type W rel)) in H.
  destruct (arm_type_cases (reloc_type W rel)) as [Ht|[Ht [[H1 H2]|[[H1 H2]|[H1 H2]]]]]; rewrite Ht in H; [|rewrite H1, ?H2 in H..].
  - assert (Er : reloc_type W rel = R_ARM_ABS32) by (by apply Z.eqb_eq). eapply external_entry; [done..|by rewrite Er|by rewrite Er|exact H|]. intros a o2 Hf. cbv beta in Hf. step Hf as raw with El. eexists raw, _. split_and!; [done|exact Hf|]. unfold arm_effect. by rewrite Ht.
  - eapply (call_entry _ _ _ _ _ _ _ Hsp X Q Hg0 Hg Hset false); done.
  - eapply (call_entry _ _ _ _ _ _ _ Hsp X Q Hg0 Hg Hset true); done.
  - destruct (_ || _ || _ || _) eqn:Hty in H; [|done]. eapply external_entry; [done..|exact H1|exact H2|exact H|]. intros a o2 Hf. by apply mov_store.
Qed.

(** ** A table *)

(** The words of two entries do not overlap. *)
Definition apart (r r' : ELFReloc) : Prop := u32 (r_offset r) + 4 <= u32 (r_offset r') \/ u32 (r_offset r') + 4 <= u32 (r_offset r).

Definition words_of (rels : list ELFReloc) (x : Z) : Prop := space <= x \/ Exists (fun r => u32 (r_offset r) <= x < u32 (r_offset r) + 4) rels.

(** The entry is applied once: the word it had in [c] became the one it has in [c']. *)
Definition applied (c : MemChunk) (o' : ELFObject) (c' : MemChunk) (l' : StubLayout) (rel : ELFReloc) : Prop :=
  exists s a raw raw', get_sym o' si (getSymTabIndex W rel) = Ok s /\ (has_address o' si (getSymTabIndex W rel) a \/ null a) /\ (is_call EM_ARM (reloc_type W rel) = true -> a = 0 -> missingSymbols o' = true) /\
    chunk_load32 c (u32 (r_offset rel)) = Ok raw /\ chunk_load32 c' (u32 (r_offset rel)) = Ok raw' /\ arm_effect l' (chunk_buf c + u32 (r_offset rel)) s (reloc_type W rel) a raw raw'.

Lemma arm_effect_stubs l l' P s type a raw raw' : stub_index l ⊆ stub_index l' -> arm_effect l P s type a raw raw' -> arm_effect l' P s type a raw raw'.
Proof.
  intros Hl. unfold arm_effect. destruct (type =? R_ARM_ABS32); [done|]. destruct (is_arm_call type); [|destruct (is_thm_call type); [|done]].
  all: intros (stub & Hs & Hr); exists stub; split; [by eapply lookup_weaken|done].
Qed.

Lemma applied_later D o c l o1 c1 l1 o2 c2 l2 rel : entry_done o c l o1 c1 l1 rel -> steps space total ti (area (u32 (r_offset rel))) o c l o1 c1 l1 -> steps space total ti D o1 c1 l1 o2 c2 l2 ->
  (forall x, u32 (r_offset rel) <= x < u32 (r_offset rel) + 4 -> ~ D x) -> applied c o2 c2 l2 rel.
Proof.
  intros (s & a & raw & raw' & Hg & Hadr & Hm & _ & L & L' & Heff) S1 S2 Hd. pose proof (steps_load _ _ _ _ _ _ _ _ _ _ _ S2 Hd) as L2. destruct S1 as (_ & _ & _ & _ & Y1 & _). pose proof S2 as (_ & _ & _ & I2 & Y2 & M2).
  destruct (syms_settled_trans _ _ _ Y1 Y2 _ _ _ Hg) as (s2 & Hg2 & Hset). exists s2, a, raw, raw'. split_and!; [done| |auto|done|congruence|].
  - destruct (decide (null a)) as [|Hn]; [by right|left]. destruct Hadr as [Hadr|]; [|done]. by eapply steps_address.
  - eapply arm_effect_stubs; [done|]. unfold arm_effect in *. by rewrite (proj1 (settled_facts _ _ Hset)).
Qed.

Lemma relocateARM_steps rels : forall o c l o', Forall (fun r => u32 (r_offset r) + 4 <= space) rels -> ForallOrdPairs apart rels -> text_state space total ti o c l -> relocateARM W find o si ti (Some <$> rels) = Ok o' ->
  exists c' l', steps space total ti (words_of rels) o c l o' c' l' /\ Forall (applied c o' c' l') rels.
Proof.
  induction rels as [|r rels IH]; intros o c l o' Hsp Hap X H; cbn [relocateARM fmap list_fmap] in H.
  { simplify_eq. exists c, l. split; [by apply steps_refl|constructor]. }
  apply Forall_cons in Hsp as [Hr Hsp]. inversion_clear Hap as [|? ? Hapr Hap']. step H as o1 with E1. destruct (relocateARM_one_spec _ _ _ _ _ Hr X E1) as (c1 & l1 & S1 & He). destruct (IH o1 c1 l1 o' Hsp Hap' (proj1 S1) H) as (c' & l' & S2 & HF). exists c', l'. split.
  - eapply steps_trans; [eapply steps_weaken; [|exact S1]|eapply steps_weaken; [|exact S2]]; intros x Hx; unfold words_of in *; cbn in *; destruct Hx as [Hx|Hx]; auto.
  - constructor.
    + eapply applied_later; [done|done|exact S2|]. intros x Hx [Hx2|Hx2]; [lia|]. apply Exists_exists in Hx2 as (r' & Hin & Hx'). rewrite List.Forall_forall in Hapr. apply list_elem_of_In, Hapr in Hin. unfold apart in Hin. lia.
    + rewrite Forall_forall in HF |- *. intros r' Hin. destruct (HF r' Hin) as (s & a & raw & raw' & Hg & Hadr & Hm & L & L' & Heff). exists s, a, raw, raw'. pose proof S1 as (_ & _ & (Eb & _) & _). rewrite Eb in Heff. split_and!; [done..| |done|done].
      rewrite <- L. symmetry. apply (steps_load _ _ _ _ _ _ _ _ _ _ _ S1). rewrite Forall_forall in Hsp. pose proof (Hsp r' Hin). rewrite List.Forall_forall in Hapr. apply list_elem_of_In, Hapr in Hin. unfold apart in Hin. intros x Hx1 Hx2. lia.
Qed.

(** ** The number of stubs *)

(** Every address with a stub is that of a symbol that was called. *)
Definition keys_called (o : ELFObject) (l : StubLayout) (rels : list ELFReloc) : Prop := forall a, a ∈ dom (stub_index l) ->
  ~ null a /\ exists r, r ∈ rels /\ is_call EM_ARM (reloc_type W r) = true /\ has_address o si (getSymTabIndex W r) a.

Lemma keys_called_one o0 o c l rel o' c' l' rels : (forall n, find n <> 0) -> syms_settled o0 o -> (exists s, get_sym o0 si (getSymTabIndex W rel) = Ok s /\ my_addr s = 0) ->
  steps space total ti (area (u32 (r_offset rel))) o c l o' c' l' -> entry_done o c l o' c' l' rel -> keys_called o l rels -> keys_called o' l' (rels ++ [rel]).
Proof.
  intros Hnf Y0 (s0 & Hg0 & Hz) S1 (s & a & raw & raw' & _ & _ & _ & Hkey & _) Hk x Hx. pose proof S1 as (_ & _ & _ & _ & Y & _).
  assert (Hold : x ∈ dom (stub_index l) -> ~ null x /\ exists r, r ∈ rels ++ [rel] /\ is_call EM_ARM (reloc_type W r) = true /\ has_address o' si (getSymTabIndex W r) x).
  { intros Hin. destruct (Hk x Hin) as (Hn & r & Hr & Hc & Ha). split; [done|]. exists r. split_and!; [apply elem_of_app; by left|done|by eapply steps_address]. }
  destruct (is_call EM_ARM (reloc_type W rel)) eqn:Hc; [|subst l'; auto]. destruct Hkey as (Hdom & Hne & Hadr & Hp). apply Hdom in Hx. apply elem_of_union in Hx as [->%elem_of_singleton|Hx]; [|auto].
  destruct (Y0 _ _ _ Hg0) as (s1 & Hg1 & E1 & _ & Hp1). destruct (Hp _ Hg1) as [Ht Hpa]. rewrite E1 in Ht. specialize (Hpa (Hp1 Ht ltac:(rewrite Hz; done))). assert (Hn : ~ null a) by (unfold null; rewrite u32_small by done; auto).
  split; [done|]. exists rel. split_and!; [apply elem_of_app; right; by apply list_elem_of_singleton|done|auto].
Qed.

Lemma relocateARM_keys o0 rels : (forall n, find n <> 0) -> forall pre o c l o', Forall (fun r => u32 (r_offset r) + 4 <= space /\ exists s, get_sym o0 si (getSymTabIndex W r) = Ok s /\ my_addr s = 0) rels ->
  syms_settled o0 o -> text_state space total ti o c l -> keys_called o l pre -> relocateARM W find o si ti (Some <$> rels) = Ok o' ->
  exists c' l', text_state space total ti o' c' l' /\ keys_called o' l' (pre ++ rels) /\ syms_settled o0 o'.
Proof.
  intros Hnf. induction rels as [|r rels IH]; intros pre o c l o' Hr Y X Hk H; cbn [relocateARM fmap list_fmap] in H; [simplify_eq; exists c, l; by rewrite app_nil_r|].
  apply Forall_cons in Hr as [[Hsp Hs] Hr]. step H as o1 with E1. destruct (relocateARM_one_spec _ _ _ _ _ Hsp X E1) as (c1 & l1 & S1 & He). pose proof S1 as (X1 & _ & _ & _ & Y1 & _).
  destruct (IH (pre ++ [r]) o1 c1 l1 o') as (c' & l' & ? & Hk' & ?); [done|by eapply syms_settled_trans|done|exact (keys_called_one o0 o c l r o1 c1 l1 pre Hnf Y Hs S1 He Hk)|done|]. exists c', l'. by rewrite <- app_assoc in Hk'.
Qed.

Lemma keys_count o (keys : gset Z) h rels : e_machine h = EM_ARM -> Forall (reloc_fits W) rels -> (forall a, a ∈ keys -> exists r, r ∈ rels /\ is_call EM_ARM (reloc_type W r) = true /\ has_address o si (getSymTabIndex W r) a) ->
  (size keys <= size (ElfLoad.call_set W h rels))%nat.
Proof.
  intros Hh Hfit Hk. set (addr := fun k => match get_sym o si k with Ok s => my_addr s | Fault _ => 0 end). change (size (ElfLoad.call_set W h rels)) with (length (elements (ElfLoad.call_set W h rels))). etrans; [|rewrite <- (length_fmap addr (elements (ElfLoad.call_set W h rels))); apply ElfLoad.size_list_to_set_le].
  apply subseteq_size. intros a Ha. destruct (Hk a Ha) as (r & Hr & Hc & (s & Hg & <-)). apply elem_of_list_to_set, list_elem_of_fmap. exists (getSymTabIndex W r). split; [unfold addr; by rewrite Hg|].
  apply elem_of_elements, elem_of_list_to_set, list_elem_of_fmap. exists r. split; [|apply list_elem_of_filter; split; [by rewrite Hh|done]]. symmetry. apply u32_small. rewrite Forall_forall in Hfit. destruct (Hfit r Hr) as [Hf _]. apply Forall_cons in Hf as [_ Hf]. apply Forall_cons in Hf as [Hf _].
  unfold addr_fits, fits in Hf. unfold getSymTabIndex. destruct W; cbn [addr_size] in Hf; rewrite Z.shiftr_div_pow2 by lia; [change (8 * 4) with 32 in Hf; change (2 ^ 8) with 256|change (8 * 8) with 64 in Hf]; Z.to_euclidean_division_equations; lia.
Qed.

End entry.

(** The stubs of a section that was just loaded. *)
Definition fresh_stubs (k : stub_kind) (c : MemChunk) (space n : Z) : StubLayout := mkStubs k (chunk_buf c + space) n ∅.

(** A section's memory with room for [n] stubs behind [space]. *)
Definition room (c : MemChunk) (k : stub_kind) (space n : Z) : Prop :=
  0 <= space /\ 0 <= n /\ 0 < chunk_buf c /\ chunk_buf c + zlen (data c) < 2 ^ 32 /\ space + getUnitStubSize k * n <= zlen (data c).

Lemma fresh_stub_inv k c space n : room c k space n -> stub_inv space n c (fresh_stubs k c space n).
Proof. intros (H0 & Hn & Hb & Hl & Hs). unfold stub_inv. cbn [kind count table stub_index fresh_stubs]. rewrite map_size_empty. split_and!; try done; try lia. Qed.

(** What loading leaves is such a section. *)
Lemma loaded_room W mmap h cs names n sh bs ck l : ElfLoad.loaded2 W mmap h cs names n sh bs (Some (ProgBits sh ck (Some l))) -> e_machine h = EM_ARM -> 0 < chunk_buf ck -> chunk_buf ck + buf_size ck < 2 ^ 32 ->
  let space := roundup 4 (zlen bs) in let n' := ElfLoad.stubs_needed W h cs names n in room ck StubARM space n' /\ l = fresh_stubs StubARM ck space n'.
Proof.
  intros [[? _]|(c & E & Hb & Hd & _)] Hm H0 H1 space n'; [done|]. unfold ElfLoad.stub_space in *. rewrite Hm in *. cbn in E. injection E as -> ->. fold n' in Hb. cbn in Hb. pose proof (roundup_bounds 4 (zlen bs) ltac:(lia)). pose proof (zlen_nonneg bs).
  assert (Hn : 0 <= n') by (unfold n', ElfLoad.stubs_needed; destruct (ElfLoad.content_of cs names (rel_prefix ++ n)) as [[]|]; lia). fold space in Hb |- *. fold n'. split; [split_and!; cbn; unfold space in *; lia|].
  unfold fresh_stubs, initStubTable. cbn. by rewrite u32_small by (unfold space in *; lia).
Qed.



(** ** The object with one call *)

Definition demo_find (n : cstr) : Z := 0x20000.
Definition demo_object : ELFObject :=
  match ELFObject_read (fun _ _ => 0x10000) None B32 true [] (ArchiveReader_new ElfLoad.demo_file 4096) with Ok (Some o, _, _) => o | _ => mkObject ElfLoad.demo_header [] ∅ [] MemChunk_new 0 0 false end.
Definition demo_chunk : MemChunk := match get_text demo_object 4 with Ok (c, _) => c | _ => MemChunk_new end.
Definition demo_linked : ELFObject := match relocateARM B32 demo_find demo_object 3 4 (Some <$> ElfLoad.demo_relocs) with Ok o => o | _ => demo_object end.
Definition demo_called : ELFObject := match arm_callee demo_find demo_object 3 1 with Ok (_, o) => o | _ => demo_object end.

Lemma demo_room : room demo_chunk StubARM 4 1.
Proof. split_and!; vm_compute; congruence. Qed.

Lemma demo_text : get_text demo_object 4 = Ok (demo_chunk, Some (fresh_stubs StubARM demo_chunk 4 1)).
Proof. vm_compute. reflexivity. Qed.



End ElfArm.
