(* ===== verification/ElfData.v ===== *)
(** * ElfData: memory for common symbols

    [initSHNCommonDataSize] takes one block for all the objects without a place of their own, and
    [allocateSHNCommonData] hands it out as their addresses are asked for. *)

From S2P Require Import Prelude Stream Memory ElfArchive ElfObject ElfReloc.
Import Stream ElfArchive ElfObject ElfReloc.

Module ElfData.

(** Requests, in the order they come: a size and an alignment each. *)
Fixpoint allocate_all (o : ELFObject) (reqs : list (Z * Z)) : outcome (list Z * ELFObject) :=
  match reqs with
  | [] => Ok ([], o)
  | (size, align) :: reqs => '(a, o) ← allocateSHNCommonData o size align; '(addrs, o) ← allocate_all o reqs; Ok (a :: addrs, o)
  end.

Definition demand (reqs : list (Z * Z)) : Z := foldr (fun r n => r.1 + r.2 + n) 0 reqs.

(** The addresses are aligned, not null, and their blocks follow each other in [lo, hi). *)
Fixpoint placed (lo hi : Z) (reqs : list (Z * Z)) (addrs : list Z) : Prop :=
  match reqs, addrs with
  | [], [] => lo <= hi
  | (size, align) :: reqs, a :: addrs => lo <= a /\ a <> 0 /\ a mod align = 0 /\ placed (a + size) hi reqs addrs
  | _, _ => False
  end.

Lemma allocate_one o size align p f : 0 < size -> 0 < align -> SHNCommonDataPtr o = p -> SHNCommonDataFreeSize o = f -> 0 < p -> p + f < 2 ^ 32 -> size + align <= f ->
  exists a, allocateSHNCommonData o size align = Ok (a, set_common o (SHNCommonData o) (a + size) (f - (a - p) - size)) /\ p <= a < p + align /\ a mod align = 0.
Proof.
  intros Hs Ha Hp Hf H0 Hend Hfit. unfold allocateSHNCommonData. rewrite Hp, Hf. destruct (Z.gtb_spec size 0); [|lia]. destruct (Z.eqb_spec align 0); [lia|]. destruct (Z.eqb_spec p 0); [lia|]. cbn [negb andb rsl_assert mbind outcome_bind].
  pose proof (Z.mod_pos_bound p align Ha) as Hm. assert (Hal : (p + (align - p mod align)) mod align = 0).
  { replace (p + (align - p mod align)) with (align * (p / align + 1)) by (pose proof (Z.div_mod p align); lia). rewrite Z.mul_comm. apply Z.mod_mul. lia. }
  destruct (Z.eqb_spec (p mod align) 0) as [E|E]; cbn [negb].
  - destruct (Z.ltb_spec f size); [lia|]. exists p. rewrite !u32_small by lia. split; [|lia]. do 3 f_equal. lia.
  - rewrite !u32_small by lia. destruct (Z.ltb_spec (f - (align - p mod align)) size); [lia|]. exists (p + (align - p mod align)). split; [|lia]. do 3 f_equal. lia.
Qed.

Lemma allocate_all_placed reqs : forall o p f, Forall (fun r => 0 < r.1 /\ 0 < r.2) reqs -> SHNCommonDataPtr o = p -> SHNCommonDataFreeSize o = f -> 0 < p -> p + f < 2 ^ 32 -> demand reqs <= f ->
  exists addrs o', allocate_all o reqs = Ok (addrs, o') /\ placed p (p + f) reqs addrs.
Proof.
  induction reqs as [|[size align] reqs IH]; intros o p f Hpos Hp Hf H0 Hend Hd; cbn [allocate_all].
  { exists [], o. split; [done|]. cbn in *. lia. }
  apply Forall_cons in Hpos as [[Hs Ha] Hpos]. cbn [fst snd] in Hs, Ha. unfold demand in Hd. cbn [foldr fst snd] in Hd. fold (demand reqs) in Hd. assert (0 <= demand reqs) by (clear -Hpos; induction Hpos; unfold demand in *; cbn [foldr] in *; lia).
  destruct (allocate_one o size align p f) as (a & -> & Har & Hal); [done..|lia|]. cbn [mbind outcome_bind].
  destruct (IH (set_common o (SHNCommonData o) (a + size) (f - (a - p) - size)) (a + size) (f - (a - p) - size)) as (addrs & o' & -> & Hpl); [done..|lia|lia|lia|]. cbn [mbind outcome_bind]. exists (a :: addrs), o'. split; [done|]. cbn [placed].
  replace (a + size + (f - (a - p) - size)) with (p + f) in Hpl by lia. split_and!; [lia|lia|done|done].
Qed.

(** The requests of a table of symbols: those that get their address from the common data. *)
Definition request (shtab : list ELFSectionHeader) (s : ELFSymbol) : option (Z * Z) :=
  if negb (st_type s =? STT_OBJECT) then None
  else if st_shndx s =? SHN_COMMON then Some (u32 (st_size s), u32 (st_value s))
  else if special (st_shndx s) then None
  else match znth shtab (st_shndx s) with Ok sh => if sh_type sh =? SHT_NOBITS then Some (u32 (st_size s), 16) else None | _ => None end.

Lemma common_size_demand shtab syms : forall n, Forall (fun s => special (st_shndx s) = true \/ exists sh, znth shtab (st_shndx s) = Ok sh) syms ->
  exists v, common_size shtab (Some <$> syms) n = Ok v /\ u32 v = u32 (n + demand (omap (request shtab) syms)).
Proof.
  induction syms as [|s syms IH]; intros n Hok; cbn [common_size fmap list_fmap]; [exists n; split; [done|]; f_equal; cbn; lia|]. apply Forall_cons in Hok as [Hs Hok].
  assert (Hskip : request shtab s = None -> exists v, common_size shtab (Some <$> syms) n = Ok v /\ u32 v = u32 (n + demand (omap (request shtab) (s :: syms)))) by (intros E; cbn [omap list_omap]; rewrite E; by apply IH).
  assert (Htake : forall sz al, request shtab s = Some (sz, al) -> exists v, common_size shtab (Some <$> syms) (n +u32 (sz + al)) = Ok v /\ u32 v = u32 (n + demand (omap (request shtab) (s :: syms)))).
  { intros sz al E. destruct (IH (n +u32 (sz + al)) Hok) as (v & -> & Hv). exists v. split; [done|]. cbn [omap list_omap]. rewrite E. unfold demand. cbn [foldr fst snd]. fold (demand (omap (request shtab) syms)). rewrite Hv. unfold u32, wrap. rewrite Zplus_mod_idemp_l. f_equal. lia. }
  unfold request in Hskip, Htake. destruct (negb (st_type s =? STT_OBJECT)); [by apply Hskip|]. destruct (st_shndx s =? SHN_COMMON); [by apply Htake|]. destruct (special (st_shndx s)) eqn:Es; [by apply Hskip|].
  destruct Hs as [|[sh Hsh]]; [done|]. rewrite Hsh in Hskip, Htake |- *. cbn [mbind outcome_bind]. destruct (sh_type sh =? SHT_NOBITS); [by apply Htake|by apply Hskip].
Qed.

Lemma demand_perm r1 r2 : r1 ≡ₚ r2 -> demand r1 = demand r2.
Proof. induction 1 as [|x l l' _ IH|x y l|l l' l'' _ IH1 _ IH2]; unfold demand in *; cbn [foldr] in *; lia. Qed.

Lemma demand_nonneg reqs : Forall (fun r => 0 < r.1 /\ 0 < r.2) reqs -> 0 <= demand reqs.
Proof. induction 1; unfold demand in *; cbn [foldr] in *; lia. Qed.

(** The block taken for the objects without a place of their own is big enough, in whatever order
    their addresses are asked for: every request gets an address that is aligned as it asks, and the
    blocks lie behind each other inside the one that was allocated. *)
Theorem common_data_suffices mmap VendorAlloc maps o syms size o1 maps' reqs :
  Forall (fun s => special (st_shndx s) = true \/ exists sh, znth (shtab o) (st_shndx s) = Ok sh) syms ->
  common_size (shtab o) (Some <$> syms) 0 = Ok size -> initSHNCommonDataSize mmap VendorAlloc maps o (u32 size) = Ok (true, o1, maps') ->
  reqs ≡ₚ omap (request (shtab o)) syms -> Forall (fun r => 0 < r.1 /\ 0 < r.2) reqs -> 0 < SHNCommonDataPtr o1 -> SHNCommonDataPtr o1 + demand reqs < 2 ^ 32 ->
  exists addrs o2, allocate_all o1 reqs = Ok (addrs, o2) /\ placed (SHNCommonDataPtr o1) (SHNCommonDataPtr o1 + u32 size) reqs addrs.
Proof.
  intros Hok Hsize Hinit Hperm Hpos Hp Hend. destruct (common_size_demand (shtab o) syms 0 Hok) as (v & Hv & Ev). assert (v = size) as -> by congruence. rewrite <- (demand_perm _ _ Hperm), Z.add_0_l in Ev. pose proof (demand_nonneg _ Hpos). rewrite (u32_small (demand reqs)) in Ev by lia.
  unfold initSHNCommonDataSize in Hinit. destruct (rsl_assert _); [|done]. cbn [mbind outcome_bind] in Hinit. destruct (allocate _ _ _ _ _) as [[ok c] maps1]. destruct ok; [|done]. apply (inj Ok) in Hinit. simplify_eq.
  apply allocate_all_placed; [done..|cbn in *; lia|lia].
Qed.

Definition demo_symbol (size align : Z) : ELFSymbol := mkSymbol 0 0 STT_OBJECT 0 SHN_COMMON align size 0.
Definition demo_object : ELFObject := mkObject (mkHeader [] 0 0 0 0 0 0 0 0 0 0 0 0 0) [] ∅ [] MemChunk_new 0 0 false.
Definition demo_block : ELFObject := match initSHNCommonDataSize (fun _ _ => 0x10000) None [] demo_object 31 with Ok (_, o, _) => o | _ => demo_object end.

Lemma common_data_suffices_witness : exists addrs o2, allocate_all demo_block [(6, 16); (1, 8)] = Ok (addrs, o2) /\ placed 0x10000 (0x10000 + u32 31) [(6, 16); (1, 8)] addrs.
Proof.
  apply (common_data_suffices (fun _ _ => 0x10000) None [] demo_object [demo_symbol 1 8; demo_symbol 6 16] 31 demo_block [(0x10000, 31, false)] [(6, 16); (1, 8)]).
  - repeat constructor.
  - reflexivity.
  - vm_compute. reflexivity.
  - constructor.
  - repeat constructor.
  - vm_compute. reflexivity.
  - vm_compute. reflexivity.
Defined.

End ElfData.
