(* ===== verification/ElfMips.v ===== *)
(** * ElfMips: the relocations of MIPS code

    The two halves of an address, and jumps to another segment. *)

From S2P Require Import Prelude Stream Memory ElfArchive ElfObject ElfReloc Bits ElfInst ElfLink ElfArm.
Import Stream ElfArchive ElfObject ElfReloc ElfInst ElfLink.

Module ElfMips.

(** ** Words *)

(** The immediate of an instruction with 16 bits for it. *)
Definition imm16 (inst : Z) : Z := slice inst 0 16.

(** [lui] and an instruction with a signed offset make an address. *)
Definition hi_lo (hi lo : Z) : Z := u32 (imm16 hi * 2 ^ 16 + s16 (imm16 lo)).

Lemma imm16_s32 v : imm16 (s32 v) = imm16 v.
Proof. apply ElfArm.slice_s32; lia. Qed.

Lemma imm16_land v : imm16 v = Z.land v 0xffff.
Proof. unfold imm16. rewrite slice_bits, Z.shiftr_0_r by lia. done. Qed.

(** The immediate is replaced, the other bits stay. *)
Definition with_imm (inst v : Z) : Z := Z.lor (u32 (s32 (Z.land (u32 inst) 0xffff0000))) (Z.land v 0xffff).

Lemma with_imm_imm inst v : imm16 (with_imm inst v) = v mod 2 ^ 16.
Proof. rewrite imm16_land, <- ElfArm.land_16. pose proof (land_range (with_imm inst v) 0xffff). pose proof (land_range v 0xffff). apply u32_inj; [lia..|]. unfold with_imm. Bits.bits32. Qed.

Lemma with_imm_rest inst v : Z.land (with_imm inst v) 0xffff0000 = Z.land inst 0xffff0000.
Proof. pose proof (land_range (with_imm inst v) 0xffff0000). pose proof (land_range inst 0xffff0000). apply u32_inj; [lia..|]. unfold with_imm. Bits.bits32. Qed.

Lemma s16_mod v : s16 (v mod 2 ^ 16) = s16 v.
Proof. unfold s16, swrap. by rewrite Zplus_mod_idemp_l. Qed.

(** The carry of the lower half is in the upper one. *)
Lemma halves X : u32 (((X + 0x8000) / 2 ^ 16) mod 2 ^ 16 * 2 ^ 16 + s16 X) = u32 X.
Proof. unfold u32, s16, wrap, swrap. change (2 ^ (16 - 1)) with 0x8000. Z.to_euclidean_division_equations; lia. Qed.

(** ** Memory *)

(** Names of symbols stay. *)
Definition same_names (o o' : ELFObject) : Prop := forall s nm, symbol_name o s = Ok nm -> symbol_name o' s = Ok nm.

Lemma stab_update_names o i sec new st : znth (stab o) i = Ok sec -> (forall buf, sec <> Some (StrTab buf)) -> zset (stab o) i new = Ok st -> same_names o (set_stab o st).
Proof.
  intros Hi Hsec Hset s nm H. apply zset_znth in Hset as [_ Ho]. unfold symbol_name, getSectionByName, getByName in *. cbn [name_map shtab stab set_stab].
  destruct (match name_map o !! strtab_name with Some i => Ok i | None => _ end) as [j|]; [|done]. cbn [mbind outcome_bind] in *. destruct (decide (j = i)) as [->|Hj]; [|by rewrite Ho]. rewrite Hi in H. cbn [mbind outcome_bind] in H. destruct sec as [[bs| | | |]|]; try done. by destruct (Hsec bs).
Qed.

Lemma put_sym_names o si k s o' : put_sym o si k s = Ok o' -> same_names o o'.
Proof. unfold put_sym. intros H. step H as sec with E. destruct sec as [[]|]; try done. step H as t with Et. step H as st with Es. apply (inj Ok) in H. subst o'. by eapply stab_update_names. Qed.

Lemma store_inst_names o ti off v o' : store_inst o ti off v = Ok o' -> same_names o o'.
Proof.
  unfold store_inst. intros H. step H as [c l] with Eg. step H as c' with Ec. unfold put_text in H. step H as sec with E. destruct sec as [[]|]; try done. step H as st with Es. apply (inj Ok) in H. subst o'. by eapply stab_update_names.
Qed.

(** A symbol that has its address is left as it is. *)
Lemma sym_address_found m o si k s a s' o' : get_sym o si k = Ok s -> ~ null (my_addr s) -> sym_address m o si k = Ok (a, s', o') -> a = my_addr s /\ s' = s /\ quiet o o' /\ get_sym o' si k = Ok s /\ same_names o o'.
Proof.
  intros Hg Hn H. pose proof (sym_address_spec _ _ _ _ _ _ _ H) as (Q & _ & Hg' & Ha & s0 & Hg0 & E & Hs & _). assert (s0 = s) as -> by congruence. specialize (Hs Hn). assert (s' = s) as -> by (rewrite E, Hs; by destruct s). split_and!; [congruence|done..|].
  unfold sym_address in H. rewrite Hg in H. cbn [mbind outcome_bind] in H. unfold getAddress in H. destruct (Z.eqb_spec (my_addr s) 0) as [Hz|Hz]; [by destruct Hn; unfold null; rewrite Hz|]. cbn [negb mbind outcome_bind] in H. step H as o2 with Ep. simplify_eq. by eapply put_sym_names.
Qed.

Lemma mips_symbol_found find o si k s Sv b o' : get_sym o si k = Ok s -> ~ null (my_addr s) -> mips_symbol find o si k = Ok (Sv, b, o') -> Sv = s32 (my_addr s) /\ quiet o o' /\ get_sym o' si k = Ok s /\ same_names o o'.
Proof.
  intros Hg Hn H. unfold mips_symbol in H. step H as [[a s'] o1] with Es. destruct (sym_address_found _ _ _ _ _ _ _ _ Hg Hn Es) as (-> & -> & ? & ? & ?). destruct (Z.eqb_spec (s32 (my_addr s)) 0) as [Hz|Hz]; [by destruct Hn; unfold null; rewrite <- Bits.u32_of_s32, Hz|]. by simplify_eq.
Qed.

(** [*inst &= 0xffff0000; *inst |= (v >> shift) & 0xffff] *)
Lemma imm_store o ti off o1 v sh o' c l : get_text o ti = Ok (c, l) -> mask_inst o ti off 0xffff0000 = Ok o1 -> or_inst o1 ti off v sh 0xffff = Ok o' ->
  exists c' raw, chunk_load32 c off = Ok raw /\ get_text o' ti = Ok (c', l) /\ touched (fun x => off <= x < off + 4) c c' /\ chunk_load32 c' off = Ok (s32 (with_imm raw (Z.shiftr v sh))) /\ syms_settled o o' /\ same_names o o'.
Proof.
  intros Hg Hmask Hor. unfold mask_inst in Hmask. step Hmask as raw with El. rewrite (load_inst_text _ _ _ _ _ Hg) in El. destruct (store_inst_spec _ _ _ _ _ _ _ Hg Hmask) as (c1 & Hg1 & Ht1 & L1 & Y1 & _).
  unfold or_inst in Hor. step Hor as inst with Ei. rewrite (load_inst_text _ _ _ _ _ Hg1), L1 in Ei. apply (inj Ok) in Ei. subst inst. destruct (store_inst_spec _ _ _ _ _ _ _ Hg1 Hor) as (c2 & Hg2 & Ht2 & L2 & Y2 & _).
  exists c2, raw. split_and!; [done|done|by eapply touched_trans|done|by eapply syms_settled_trans|]. intros s nm Hs. by eapply store_inst_names, store_inst_names.
Qed.

Lemma mask_touched o ti off m o1 c l : get_text o ti = Ok (c, l) -> mask_inst o ti off m = Ok o1 -> exists c1, get_text o1 ti = Ok (c1, l) /\ touched (fun x => off <= x < off + 4) c c1 /\ syms_settled o o1 /\ same_names o o1.
Proof.
  intros Hg Hm. unfold mask_inst in Hm. step Hm as raw with El. destruct (store_inst_spec _ _ _ _ _ _ _ Hg Hm) as (c1 & Hg1 & Ht1 & L1 & Y1 & _). exists c1. split_and!; [done..|by eapply store_inst_names].
Qed.

(** ** The entries for the halves of an address *)

Section halves.
Context (W : bitwidth) (find : cstr -> Z) (got : Z) (si ti : Z).

(** A symbol with an address, other than [_gp_disp]. *)
Definition plain (o : ELFObject) (k : Z) (s : ELFSymbol) : Prop := get_sym o si k = Ok s /\ ~ null (my_addr s) /\ exists nm, symbol_name o s = Ok nm /\ nm <> gp_disp.

Lemma plain_kept o o' k s : plain o k s -> syms_settled o o' -> same_names o o' -> plain o' k s.
Proof.
  intros (Hg & Hn & nm & Hnm & Hne) Y N. destruct (Y _ _ _ Hg) as (s' & Hg' & E & Hs & _). specialize (Hs Hn). assert (s' = s) as -> by (rewrite E, Hs; by destruct s). split_and!; [done..|]. exists nm. auto.
Qed.

Lemma next_lo16_hit o k r rest c l raw : reloc_type W r = R_MIPS_LO16 -> getSymTabIndex W r = k -> get_text o ti = Ok (c, l) -> chunk_load32 c (u32 (r_offset r)) = Ok raw -> forall v, next_lo16 W o si ti k (Some r :: rest) = Ok v -> v = s16 (imm16 raw).
Proof.
  intros Ht Hk Hg Hl v H. cbn [next_lo16] in H. rewrite Hk in H. step H as s with Eg. rewrite Ht, !Z.eqb_refl in H. cbn [andb] in H. rewrite (load_inst_text _ _ _ _ _ Hg), Hl in H. cbn in H. apply (inj Ok) in H. subst v. by rewrite imm16_land.
Qed.

Lemma hi16_entry g o c l r1 r2 rest k s g' o' : reloc_type W r1 = R_MIPS_HI16 -> reloc_type W r2 = R_MIPS_LO16 -> getSymTabIndex W r1 = k -> getSymTabIndex W r2 = k -> ElfArm.apart r1 r2 ->
  get_text o ti = Ok (c, l) -> plain o k s -> relocateMIPS_one W find got g o si ti r1 (Some r2 :: rest) = Ok (g', o') ->
  exists c' hi, g' = g /\ chunk_load32 c (u32 (r_offset r1)) = Ok hi /\ get_text o' ti = Ok (c', l) /\ plain o' k s /\ touched (fun x => u32 (r_offset r1) <= x < u32 (r_offset r1) + 4) c c' /\
    forall lo, chunk_load32 c (u32 (r_offset r2)) = Ok lo -> chunk_load32 c' (u32 (r_offset r1)) = Ok (s32 (with_imm hi (Z.shiftr (s32 (s32 (s32 (my_addr s) + s32 (s32 (Z.shiftl (imm16 hi) 16) + s16 (imm16 lo))) + 0x8000)) 16))).
Proof.
  intros T1 T2 K1 K2 Hap Hg Hp H. unfold relocateMIPS_one in H. rewrite Hg, K1, T1 in H. cbn [mbind outcome_bind] in H. step H as A with EA. rewrite (load_inst_text _ _ _ _ _ Hg) in EA. step H as [[Sv b] o1] with Es. pose proof Hp as (Hgs & Hn & _).
  destruct (mips_symbol_found _ _ _ _ _ _ _ _ Hgs Hn Es) as (-> & (HT & Y1 & _) & Hg1 & N1). rewrite Hg1 in H. cbn [mbind outcome_bind] in H. cbv zeta in H. change (R_MIPS_HI16 =? R_MIPS_HI16) with true in H. cbn [Z.eqb Pos.eqb orb R_MIPS_HI16 R_MIPS_NONE R_MIPS_JALR R_MIPS_16 R_MIPS_32 R_MIPS_26] in H.
  step H as o2 with Eh. simplify_eq. unfold mips_hi16 in Eh. step Eh as o3 with Em. step Eh as lo with Elo. pose proof (HT _ _ _ Hg) as Hgo1. destruct (mask_touched _ _ _ _ _ _ _ Hgo1 Em) as (c3 & Hg3 & Ht3 & Y3 & N3).
  assert (Hp3 : plain o3 (getSymTabIndex W r1) s) by (eapply plain_kept; [exact Hp|by eapply syms_settled_trans|intros ?? Hx; by apply N3, N1]). pose proof Hp3 as (_ & _ & nm & Hnm & Hne). rewrite Hnm in Eh. cbn [mbind outcome_bind] in Eh. rewrite bool_decide_eq_false_2 in Eh by done. cbn [mbind outcome_bind] in Eh.
  destruct (imm_store _ _ _ _ _ _ _ _ _ Hgo1 Em Eh) as (c' & raw & Lr & Hg' & Ht' & L' & Y' & N'). assert (raw = A) as -> by congruence. exists c', A. split_and!; [done..| |done|].
  - eapply plain_kept; [exact Hp|by eapply syms_settled_trans|intros ?? Hx; by apply N', N1].
  - intros lo0 Hlo. rewrite L', imm16_land. assert (lo = s16 (imm16 lo0)) as ->; [|done]. eapply next_lo16_hit; [done|done|exact Hg3| |exact Elo]. rewrite (load32_touched _ _ _ _ Ht3); [done|]. unfold ElfArm.apart in Hap. cbn. lia.
Qed.

Lemma lo16_entry g o c l r rest k s g' o' : reloc_type W r = R_MIPS_LO16 -> getSymTabIndex W r = k -> get_text o ti = Ok (c, l) -> plain o k s -> relocateMIPS_one W find got g o si ti r rest = Ok (g', o') ->
  exists c' lo, g' = g /\ chunk_load32 c (u32 (r_offset r)) = Ok lo /\ get_text o' ti = Ok (c', l) /\ touched (fun x => u32 (r_offset r) <= x < u32 (r_offset r) + 4) c c' /\
    chunk_load32 c' (u32 (r_offset r)) = Ok (s32 (with_imm lo (s32 (s32 (my_addr s) + imm16 lo)))).
Proof.
  intros T1 K1 Hg Hp H. unfold relocateMIPS_one in H. rewrite Hg, K1, T1 in H. cbn [mbind outcome_bind] in H. step H as A with EA. rewrite (load_inst_text _ _ _ _ _ Hg) in EA. step H as [[Sv b] o1] with Es. pose proof Hp as (Hgs & Hn & _).
  destruct (mips_symbol_found _ _ _ _ _ _ _ _ Hgs Hn Es) as (-> & (HT & Y1 & _) & Hg1 & N1). rewrite Hg1 in H. cbn [mbind outcome_bind] in H. cbv zeta in H. cbn [Z.eqb Pos.eqb orb R_MIPS_HI16 R_MIPS_LO16 R_MIPS_NONE R_MIPS_JALR R_MIPS_16 R_MIPS_32 R_MIPS_26] in H.
  step H as o2 with Eh. simplify_eq. unfold mips_lo16 in Eh. step Eh as o3 with Em. pose proof (HT _ _ _ Hg) as Hgo1. destruct (mask_touched _ _ _ _ _ _ _ Hgo1 Em) as (c3 & Hg3 & Ht3 & Y3 & N3).
  assert (Hp3 : plain o3 (getSymTabIndex W r) s) by (eapply plain_kept; [exact Hp|by eapply syms_settled_trans|intros ?? Hx; by apply N3, N1]). pose proof Hp3 as (_ & _ & nm & Hnm & Hne). rewrite Hnm in Eh. cbn [mbind outcome_bind] in Eh. rewrite bool_decide_eq_false_2 in Eh by done. cbn [mbind outcome_bind] in Eh.
  destruct (imm_store _ _ _ _ _ _ _ _ _ Hgo1 Em Eh) as (c' & raw & Lr & Hg' & Ht' & L' & Y' & N'). assert (raw = A) as -> by congruence. exists c', A. rewrite Z.shiftr_0_r in L'. rewrite imm16_land. done.
Qed.

End halves.

Lemma s32_div16 v : (s32 v / 2 ^ 16) mod 2 ^ 16 = (v / 2 ^ 16) mod 2 ^ 16.
Proof. unfold s32, swrap. Z.to_euclidean_division_equations; lia. Qed.

Lemma s32_mod16 v : s32 v mod 2 ^ 16 = v mod 2 ^ 16.
Proof. unfold s32, swrap. Z.to_euclidean_division_equations; lia. Qed.

Lemma s16_cong a b : a mod 2 ^ 16 = b mod 2 ^ 16 -> s16 a = s16 b.
Proof. intros H. by rewrite <- s16_mod, H, s16_mod. Qed.

Lemma s32_cong v : exists q, s32 v = v + 2 ^ 32 * q.
Proof. exists (- ((v + 2 ^ 31) / 2 ^ 32)). unfold s32, swrap. pose proof (Z.div_mod (v + 2 ^ 31) (2 ^ 32)). change (2 ^ (32 - 1)) with (2 ^ 31). lia. Qed.

Lemma u32_cong v q : u32 (v + 2 ^ 32 * q) = u32 v.
Proof. unfold u32, wrap. rewrite Z.mul_comm. apply Z.mod_add. lia. Qed.

Lemma halves_words hi lo a : hi_lo (s32 (with_imm hi (Z.shiftr (s32 (s32 (s32 a + s32 (s32 (Z.shiftl (imm16 hi) 16) + s16 (imm16 lo))) + 0x8000)) 16))) (s32 (with_imm lo (s32 (s32 a + imm16 lo)))) = u32 (a + hi_lo hi lo).
Proof.
  unfold hi_lo at 1. rewrite !imm16_s32, !with_imm_imm, s16_mod. set (Y := s32 a + s32 (s32 (Z.shiftl (imm16 hi) 16) + s16 (imm16 lo))). rewrite Z.shiftr_div_pow2, s32_div16 by lia.
  assert (EY : exists q, Y = a + (imm16 hi * 2 ^ 16 + s16 (imm16 lo)) + 2 ^ 32 * q).
  { unfold Y. rewrite Z.shiftl_mul_pow2 by lia. destruct (s32_cong a) as [q1 ->], (s32_cong (s32 (imm16 hi * 2 ^ 16) + s16 (imm16 lo))) as [q2 ->], (s32_cong (imm16 hi * 2 ^ 16)) as [q3 ->]. exists (q1 + q2 + q3). lia. }
  replace (s16 (s32 (s32 a + imm16 lo))) with (s16 (s32 Y)).
  - rewrite halves, Bits.u32_of_s32. destruct EY as [q ->]. rewrite u32_cong. unfold hi_lo, u32, wrap. by rewrite Zplus_mod_idemp_r.
  - apply s16_cong. rewrite !s32_mod16. destruct EY as [q ->], (s32_cong a) as [q' ->]. pose proof (s16_mod (imm16 lo)). unfold s16, swrap. change (2 ^ (16 - 1)) with 0x8000. Z.to_euclidean_division_equations; lia.
Qed.

(** C29: The entries for the two halves of an address work together: a pair of instructions that load an
    address in two steps, relocated by an [R_MIPS_HI16] and the [R_MIPS_LO16] behind it, load the
    address of the symbol plus the one they had before, carries and signs of the lower half
    included; nothing but the immediates of the two instructions changes. *)
Theorem hi_lo_pair W find got g o si ti c l r1 r2 s g' o' :
  reloc_type W r1 = R_MIPS_HI16 -> reloc_type W r2 = R_MIPS_LO16 -> getSymTabIndex W r1 = getSymTabIndex W r2 -> ElfArm.apart r1 r2 ->
  get_text o ti = Ok (c, l) -> plain si o (getSymTabIndex W r2) s -> relocateMIPS W find got g o si ti [Some r1; Some r2] = Ok (g', o') ->
  exists c' hi lo hi' lo', g' = g /\ get_text o' ti = Ok (c', l) /\
    chunk_load32 c (u32 (r_offset r1)) = Ok hi /\ chunk_load32 c (u32 (r_offset r2)) = Ok lo /\ chunk_load32 c' (u32 (r_offset r1)) = Ok hi' /\ chunk_load32 c' (u32 (r_offset r2)) = Ok lo' /\
    hi_lo hi' lo' = u32 (my_addr s + hi_lo hi lo) /\ Z.land hi' 0xffff0000 = Z.land hi 0xffff0000 /\ Z.land lo' 0xffff0000 = Z.land lo 0xffff0000 /\
    touched (fun x => u32 (r_offset r1) <= x < u32 (r_offset r1) + 4 \/ u32 (r_offset r2) <= x < u32 (r_offset r2) + 4) c c'.
Proof.
  intros T1 T2 K Hap Hg Hp H. cbn [relocateMIPS] in H. step H as [g1 o1] with E1. step H as [g2 o2] with E2. simplify_eq.
  destruct (hi16_entry W find got si ti g o c l r1 r2 [] (getSymTabIndex W r2) s g1 o1 T1 T2 K eq_refl Hap Hg Hp E1) as (c1 & hi & -> & Lhi & Hg1 & Hp1 & Ht1 & Hst).
  destruct (lo16_entry W find got si ti g o1 c1 l r2 [] (getSymTabIndex W r2) s g' o' T2 eq_refl Hg1 Hp1 E2) as (c2 & lo & -> & Llo & Hg2 & Ht2 & Lst). unfold ElfArm.apart in Hap.
  rewrite (load32_touched _ _ _ _ Ht1) in Llo by (cbn; lia). specialize (Hst _ Llo). rewrite <- (load32_touched _ _ _ _ Ht2) in Hst by (cbn; lia). eexists c2, hi, lo, _, _. split_and!; [done..|apply halves_words| | |].
  - rewrite <- ElfArm.land_u32, Bits.u32_of_s32, ElfArm.land_u32 by lia. apply with_imm_rest.
  - rewrite <- ElfArm.land_u32, Bits.u32_of_s32, ElfArm.land_u32 by lia. apply with_imm_rest.
  - eapply touched_trans; [eapply touched_weaken; [|exact Ht1]|eapply touched_weaken; [|exact Ht2]]; cbn; lia.
Qed.

(** ** A section with two instructions *)

Definition demo_chunk (w1 w2 : Z) : MemChunk := mkChunk 0x10000 24 false (Some <$> (bytes_le 4 w1 ++ bytes_le 4 w2 ++ replicate 16 0)) (Z.lor PROT_READ PROT_WRITE).
Definition demo_symbol (a : Z) : ELFSymbol := mkSymbol 1 1 0x12 0 3 0 0 a.
Definition demo_object (a w1 w2 : Z) : ELFObject :=
  mkObject (mkHeader [] 1 EM_MIPS 1 0 0 0 0 0 0 0 0 4 0) [] {[strtab_name := 1; symtab_name := 2]}
    [None; Some (StrTab [0; 102; 0]); Some (SymTab [None; Some (demo_symbol a)] ∅); Some (ProgBits (mkSH 3 0 SHT_PROGBITS 6 0 0 8 0 0 4 0) (demo_chunk w1 w2) (Some (ElfArm.fresh_stubs StubMIPS (demo_chunk w1 w2) 8 1)))]
    MemChunk_new 0 0 false.
Definition demo_hi : ELFReloc := mkReloc 0 0 (1 * 256 + R_MIPS_HI16) 0.
Definition demo_lo : ELFReloc := mkReloc 1 4 (1 * 256 + R_MIPS_LO16) 0.
Definition demo_lui : ELFObject := demo_object 0x12348765 0x3c190001 0x27398004.
Definition demo_linked : ELFObject := match relocateMIPS B32 (fun _ => 0) 0 (mkGOT [] []) demo_lui 2 3 [Some demo_hi; Some demo_lo] with Ok (_, o) => o | _ => demo_lui end.

Lemma hi_lo_pair_witness : exists c' hi lo hi' lo', mkGOT [] [] = mkGOT [] [] /\ get_text demo_linked 3 = Ok (c', Some (ElfArm.fresh_stubs StubMIPS (demo_chunk 0x3c190001 0x27398004) 8 1)) /\
    chunk_load32 (demo_chunk 0x3c190001 0x27398004) 0 = Ok hi /\ chunk_load32 (demo_chunk 0x3c190001 0x27398004) 4 = Ok lo /\ chunk_load32 c' 0 = Ok hi' /\ chunk_load32 c' 4 = Ok lo' /\
    hi_lo hi' lo' = u32 (0x12348765 + hi_lo hi lo) /\ Z.land hi' 0xffff0000 = Z.land hi 0xffff0000 /\ Z.land lo' 0xffff0000 = Z.land lo 0xffff0000 /\
    touched (fun x => 0 <= x < 0 + 4 \/ 4 <= x < 4 + 4) (demo_chunk 0x3c190001 0x27398004) c'.
Proof.
  apply (hi_lo_pair B32 (fun _ => 0) 0 (mkGOT [] []) demo_lui 2 3 (demo_chunk 0x3c190001 0x27398004) (Some (ElfArm.fresh_stubs StubMIPS (demo_chunk 0x3c190001 0x27398004) 8 1)) demo_hi demo_lo (demo_symbol 0x12348765) (mkGOT [] []) demo_linked).
  - reflexivity.
  - reflexivity.
  - reflexivity.
  - left. vm_compute. congruence.
  - reflexivity.
  - split_and!; [reflexivity|vm_compute; congruence|exists [102]; split; [vm_compute; reflexivity|done]].
  - vm_compute. reflexivity.
Defined.

(** Where [j] and [jal] at [P] go. *)
Definition jump_target (P inst : Z) : Z := Z.lor (Z.land (P + 4) 0xf0000000) (4 * slice inst 0 26).

(** A call of a global function in another 256 MB segment misses its stub: the address of the
    function is put into the instruction first, and the address of the stub, which is in reach, over
    it with an [or]. The symbol is at the stub, and the code of the stub is right, but the jump goes
    elsewhere. *)
Theorem far_call_misses : let o := demo_object 0x30012340 0x0c000000 0 in
  exists o' inst, mips_26 o 2 3 1 0 0x10000 0x0c000000 0x30012340 (demo_symbol 0x30012340) false = Ok o' /\ has_address o' 2 1 0x10008 /\ load_inst o' 3 0 = Ok inst /\ jump_target 0x10000 inst = 0x12348.
Proof.
  exists (match mips_26 (demo_object 0x30012340 0x0c000000 0) 2 3 1 0 0x10000 0x0c000000 0x30012340 (demo_symbol 0x30012340) false with Ok o => o | _ => demo_lui end), 0x0c0048d2.
  split_and!; [vm_compute; reflexivity|exists (demo_symbol 0x10008); split; vm_compute; reflexivity|vm_compute; reflexivity..].
Qed.

End ElfMips.
