(* ===== verification/Pixels.v ===== *)
(** * Pixels: the integer image intrinsics

    [rsCpuIntrinsicBlend.cpp], [rsCpuIntrinsicLUT.cpp], [rsCpuIntrinsicYuvToRGB.cpp] and
    [rsCpuIntrinsic3DLUT.cpp] in the portable build, on the cells [p->in] and [p->out] of one row.
    Vectors of [short] and [uint] are computed with at their widths. *)

From S2P Require Import Prelude.

Module Pixels.

Record uchar4 := mk { cx : Z; cy : Z; cz : Z; cw : Z }.

Definition map4 (f : Z -> Z) (p : uchar4) : uchar4 := mk (f (cx p)) (f (cy p)) (f (cz p)) (f (cw p)).
Definition zip4 (f : Z -> Z -> Z) (p q : uchar4) : uchar4 := mk (f (cx p) (cx q)) (f (cy p) (cy q)) (f (cz p) (cz q)) (f (cw p) (cw q)).

(** ** Blending *)

(** Arithmetic of [short4], and [convert_uchar4]. *)
Definition add16 (a b : Z) : Z := s16 (a + b).
Definition sub16 (a b : Z) : Z := s16 (a - b).
Definition mul16 (a b : Z) : Z := s16 (a * b).
Definition asr16 (a k : Z) : Z := Z.shiftr a k.

(** The pixel a slot stores, given the ones read; [None] for the slots that store nothing:
    [BLEND_DST], and those that only log that they are not implemented. *)
Definition blend (slot : Z) : option (uchar4 -> uchar4 -> uchar4) :=
  match slot with
  | 0 => Some (fun _ _ => mk 0 0 0 0)
  | 1 => Some (fun i _ => i)
  | 3 => Some (fun i o => zip4 (fun a b => u8 (add16 a (asr16 (mul16 b (sub16 255 (cw i))) 8))) i o)
  | 4 => Some (fun i o => zip4 (fun a b => u8 (add16 b (asr16 (mul16 a (sub16 255 (cw o))) 8))) i o)
  | 5 => Some (fun i o => map4 (fun a => u8 (asr16 (mul16 a (cw o)) 8)) i)
  | 6 => Some (fun i o => map4 (fun b => u8 (asr16 (mul16 b (cw i)) 8)) o)
  | 7 => Some (fun i o => map4 (fun a => u8 (asr16 (mul16 a (sub16 255 (cw o))) 8)) i)
  | 8 => Some (fun i o => map4 (fun b => u8 (asr16 (mul16 b (sub16 255 (cw i))) 8)) o)
  | 9 => Some (fun i o => let f a b := u8 (asr16 (add16 (mul16 a (cw o)) (mul16 b (sub16 255 (cw i)))) 8) in mk (f (cx i) (cx o)) (f (cy i) (cy o)) (f (cz i) (cz o)) (u8 (cw o)))
  | 10 => Some (fun i o => let f a b := u8 (asr16 (add16 (mul16 b (cw i)) (mul16 a (sub16 255 (cw o)))) 8) in mk (f (cx i) (cx o)) (f (cy i) (cy o)) (f (cz i) (cz o)) (u8 (cw o)))
  | 11 => Some (zip4 Z.lxor)
  | 14 => Some (zip4 (fun a b => u8 (asr16 (mul16 a b) 8)))
  | 34 => Some (zip4 (fun a b => u8 (if b + a >? 255 then 255 else b + a)))
  | 35 => Some (zip4 (fun a b => u8 (if b - a <? 0 then 0 else b - a)))
  | _ => None
  end.

(** [for (; x1 < x2; x1++, out++, in++)] over cells [k], [k + 1], ...: [ins] is the input, or nothing
    when it is the output. *)
Fixpoint pixel_loop (f : uchar4 -> uchar4 -> uchar4) (n : nat) (k : Z) (ins : option (list uchar4)) (out : list uchar4) : outcome (list uchar4) :=
  match n with
  | O => Ok out
  | S n => i ← znth (default out ins) k; o ← znth out k; out ← zset out k (f i o); pixel_loop f n (k + 1) ins out
  end.

(** [BLEND_CLEAR] does not read the input. *)
Definition blend_kernel (slot xstart xend : Z) (ins : option (list uchar4)) (out : list uchar4) : outcome (list uchar4) :=
  match blend slot with
  | Some f => pixel_loop f (Z.to_nat (xend - xstart)) 0 (if slot =? 0 then None else ins) out
  | None => Ok out
  end.

(** ** Table lookup *)

Definition tab (lut : list Z) (t v : Z) : Z := default 0 (lut !! Z.to_nat (256 * t + v)).

Definition lut_pixel (lut : list Z) (p : uchar4) : uchar4 := mk (tab lut 0 (cx p)) (tab lut 1 (cy p)) (tab lut 2 (cz p)) (tab lut 3 (cw p)).

Definition lut_kernel (lut : list Z) (xstart xend : Z) (ins : option (list uchar4)) (out : list uchar4) : outcome (list uchar4) :=
  if zlen lut <? 1024 then Fault OutOfBounds else pixel_loop (fun i _ => lut_pixel lut i) (Z.to_nat (xend - xstart)) 0 ins out.

(** ** YUV *)

Definition clamp255 (v : Z) : Z := if v <? 0 then 0 else if v >? 255 then 255 else v.

Definition rsYuvToRGBA_uchar4 (y u v : Z) : uchar4 :=
  let Y := s16 (y - 16) in
  let U := s16 (u - 128) in
  let V := s16 (v - 128) in
  let x := s16 (Z.shiftr (Y * 298 + V * 409 + 128) 8) in
  let g := s16 (Z.shiftr (Y * 298 - U * 100 - V * 208 + 128) 8) in
  let b := s16 (Z.shiftr (Y * 298 + U * 516 + 128) 8) in
  mk (clamp255 x) (clamp255 g) (clamp255 b) 255.

(** The planes of the input: their bytes from the start of the allocation on. *)
Record yuv_input := mkYuv { planeY : list Z; planeU : option (list Z); planeV : list Z; strideY : Z; strideU : Z; strideV : Z; lod0_dimY : Z; step : Z }.

(** The pairs of pixels of a row. *)
Fixpoint yuv_pairs (fuel : nat) (Y u v : Z -> outcome Z) (cstep x1 x2 k : Z) (out : list uchar4) : outcome (list uchar4) :=
  match fuel with
  | O => Ok out
  | S fuel =>
      if x1 <? x2 then
        let c := (x1 / 2) * cstep in
        y0 ← Y x1; u0 ← u c; v0 ← v c;
        out ← zset out k (rsYuvToRGBA_uchar4 y0 u0 v0);
        y1 ← Y (x1 + 1); u1 ← u c; v1 ← v c;
        out ← zset out (k + 1) (rsYuvToRGBA_uchar4 y1 u1 v1);
        yuv_pairs fuel Y u v cstep (x1 + 2) x2 (k + 2) out
      else Ok out
  end.

(** The bytes of the row [y]: luma by position, chroma by offset, and the step of the chroma.
    Without a plane of their own the chroma values are behind the luma rows. *)
Definition yuv_access (a : yuv_input) (y dimX dimY : Z) : (Z -> outcome Z) * (Z -> outcome Z) * (Z -> outcome Z) * Z :=
  let sY := if lod0_dimY a =? 0 then dimX else strideY a in
  let Y := fun x => znth (planeY a) (y * sY + x) in
  match planeU a with
  | Some pu => (Y, fun c => znth pu ((y / 2) * strideU a + c), fun c => znth (planeV a) ((y / 2) * strideV a + c), step a)
  | None => (Y, fun c => znth (planeY a) (sY * dimY + (y / 2) * sY + 1 + c), fun c => znth (planeY a) (sY * dimY + (y / 2) * sY + c), 2)
  end.

(** Without an input, or without memory of its own, nothing is done. *)
Definition yuv_kernel (input : option yuv_input) (y dimX dimY xstart xend : Z) (out : list uchar4) : outcome (list uchar4) :=
  match input with
  | None => Ok out
  | Some a =>
      let '(Y, u, v, cstep) := yuv_access a y dimX dimY in
      if xend >? xstart then yuv_pairs (Z.to_nat (xend - xstart)) Y u v cstep xstart xend 0 out else Ok out
  end.

(** ** Lookup in three dimensions *)

Section lut3d.
(** The table, its row pitch and height; and [coordMul], which the code computes in floating point
    as [(dim - 1) / 255 * 0x8000] for each dimension. *)
Context (bp : list Z) (stride_y : Z) (dimY : Z) (coordMul : Z * Z * Z).

Definition stride_z : Z := stride_y * dimY.

Definition lut_at (off : Z) : outcome uchar4 := x ← znth bp off; y ← znth bp (off + 1); z ← znth bp (off + 2); w ← znth bp (off + 3); Ok (mk x y z w).

(** [((a * w1) + (b * w2)) >> shift] on [uint4]. *)
Definition lerp (shift w1 w2 : Z) (a b : uchar4) : uchar4 := zip4 (fun a b => Z.shiftr (u32 (u32 (a * w1) + u32 (b * w2))) shift) a b.

(** The eight cells from the offset [bp2] on, weighted. *)
Definition lut3d_cell (bp2 x2 y2 z2 alpha : Z) : outcome uchar4 :=
  let x1 := 0x8000 - x2 in let y1 := 0x8000 - y2 in let z1 := 0x8000 - z2 in
  v000 ← lut_at bp2; v100 ← lut_at (bp2 + 4);
  v010 ← lut_at (bp2 + stride_y); v110 ← lut_at (bp2 + stride_y + 4);
  v001 ← lut_at (bp2 + stride_z); v101 ← lut_at (bp2 + stride_z + 4);
  v011 ← lut_at (bp2 + stride_y + stride_z); v111 ← lut_at (bp2 + stride_y + stride_z + 4);
  let yz00 := lerp 7 x1 x2 v000 v100 in
  let yz10 := lerp 7 x1 x2 v010 v110 in
  let yz01 := lerp 7 x1 x2 v001 v101 in
  let yz11 := lerp 7 x1 x2 v011 v111 in
  let z0 := lerp 15 y1 y2 yz00 yz10 in
  let z1_ := lerp 15 y1 y2 yz01 yz11 in
  let v := lerp 15 z1 z2 z0 z1_ in
  let ret := map4 (fun v => u8 (Z.shiftr (u32 (v + 0x7f)) 8)) v in
  Ok (mk (cx ret) (cy ret) (cz ret) alpha).

Definition lut3d_pixel (p : uchar4) : outcome uchar4 :=
  let '(mx, my, mz) := coordMul in
  let bx := s32 (cx p * mx) in let by_ := s32 (cy p * my) in let bz := s32 (cz p * mz) in
  lut3d_cell (Z.shiftr bx 15 * 4 + Z.shiftr by_ 15 * stride_y + Z.shiftr bz 15 * stride_z) (Z.land bx 0x7fff) (Z.land by_ 0x7fff) (Z.land bz 0x7fff) (cw p).

Fixpoint lut3d_loop (n : nat) (k : Z) (ins : option (list uchar4)) (out : list uchar4) : outcome (list uchar4) :=
  match n with
  | O => Ok out
  | S n => i ← znth (default out ins) k; o ← lut3d_pixel i; out ← zset out k o; lut3d_loop n (k + 1) ins out
  end.

Definition lut3d_kernel (xstart xend : Z) (ins : option (list uchar4)) (out : list uchar4) : outcome (list uchar4) := lut3d_loop (Z.to_nat (xend - xstart)) 0 ins out.

End lut3d.

(** ** Loops over cells *)

Lemma pixel_loop_spec f n : forall k ins out, 0 <= k -> k + Z.of_nat n <= zlen out -> k + Z.of_nat n <= zlen (default out ins) ->
  exists out', pixel_loop f n k ins out = Ok out' /\ length out' = length out /\
    forall j, out' !! j = if decide (k <= Z.of_nat j < k + Z.of_nat n) then (i ← default out ins !! j; o ← out !! j; Some (f i o)) else out !! j.
Proof.
  induction n as [|n IH]; intros k ins out Hk Ho Hi; cbn [pixel_loop].
  { exists out. split_and!; [done..|]. intros j. rewrite decide_False by lia. done. }
  unfold zlen in *. destruct (lookup_lt_is_Some_2 (default out ins) (Z.to_nat k)) as [i Ei]; [lia|]. destruct (lookup_lt_is_Some_2 out (Z.to_nat k)) as [o Eo]; [lia|].
  pose proof (znth_lookup _ _ _ Ei) as Zi. pose proof (znth_lookup _ _ _ Eo) as Zo. rewrite Z2Nat.id in Zi, Zo by lia. rewrite Zi, Zo. cbn [mbind outcome_bind].
  pose proof (zset_Ok out (Z.to_nat k) (f i o) ltac:(lia)) as Zs. rewrite Z2Nat.id in Zs by lia. rewrite Zs. cbn [mbind outcome_bind].
  destruct (IH (k + 1) ins (<[Z.to_nat k := f i o]> out)) as (out' & -> & Hl & Hj); [lia|unfold zlen; rewrite length_insert; lia|unfold zlen; destruct ins; cbn in *; rewrite ?length_insert; lia|].
  exists out'. rewrite length_insert in Hl. split_and!; [done..|]. intros j. rewrite Hj. destruct (decide (j = Z.to_nat k)) as [->|Hne].
  - rewrite decide_False by lia. rewrite decide_True by lia. rewrite list_lookup_insert_eq by lia. by rewrite Ei, Eo.
  - destruct (decide (k + 1 <= Z.of_nat j < k + 1 + Z.of_nat n)); [rewrite decide_True by lia|rewrite decide_False by lia]; destruct ins; cbn; rewrite ?list_lookup_insert_ne by done; done.
Qed.

(** ** Blending: exact formulas *)

Definition byte (v : Z) : Prop := 0 <= v < 256.

(** A pixel whose colours are multiplied by its alpha. *)
Definition premultiplied (p : uchar4) : Prop := 0 <= cx p <= cw p /\ 0 <= cy p <= cw p /\ 0 <= cz p <= cw p /\ cw p < 256.

(** The formulas, with division rounding down. *)
Definition blend_ref (slot : Z) (i o : uchar4) : uchar4 :=
  match slot with
  | 0 => mk 0 0 0 0
  | 1 => i
  | 3 => zip4 (fun a b => a + b * (255 - cw i) / 256) i o
  | 4 => zip4 (fun a b => b + a * (255 - cw o) / 256) i o
  | 5 => map4 (fun a => a * cw o / 256) i
  | 6 => map4 (fun b => b * cw i / 256) o
  | 7 => map4 (fun a => a * (255 - cw o) / 256) i
  | 8 => map4 (fun b => b * (255 - cw i) / 256) o
  | 9 => let f a b := (a * cw o + b * (255 - cw i)) / 256 in mk (f (cx i) (cx o)) (f (cy i) (cy o)) (f (cz i) (cz o)) (cw o)
  | 10 => let f a b := (b * cw i + a * (255 - cw o)) / 256 in mk (f (cx i) (cx o)) (f (cy i) (cy o)) (f (cz i) (cz o)) (cw o)
  | 11 => zip4 Z.lxor i o
  | 14 => zip4 (fun a b => a * b / 256) i o
  | 34 => zip4 (fun a b => Z.min 255 (b + a)) i o
  | 35 => zip4 (fun a b => Z.max 0 (b - a)) i o
  | _ => o
  end.

(** The product of two bytes may be negative as a [short], but its upper byte is right. *)
Lemma upper_byte x : 0 <= x < 65536 -> u8 (asr16 (s16 x) 8) = x / 256.
Proof. intros Hx. unfold asr16. rewrite Z.shiftr_div_pow2 by lia. unfold u8, s16, wrap, swrap. change (2 ^ 8) with 256. Z.to_euclidean_division_equations; lia. Qed.

Lemma add_upper_byte a x : 0 <= x < 65536 -> 0 <= a + x / 256 < 256 -> u8 (add16 a (asr16 (s16 x) 8)) = a + x / 256.
Proof. intros Hx Ha. unfold add16, asr16. rewrite Z.shiftr_div_pow2 by lia. unfold u8, s16, wrap, swrap. change (2 ^ 8) with 256. Z.to_euclidean_division_equations; lia. Qed.

Lemma sub16_255 w : byte w -> sub16 255 w = 255 - w.
Proof. unfold byte. intros. unfold sub16, s16, swrap. rewrite Z.mod_small; lia. Qed.

Lemma add16_products x y : 0 <= x + y < 65536 -> add16 (s16 x) (s16 y) = s16 (x + y).
Proof. intros H. unfold add16, s16, swrap. Z.to_euclidean_division_equations; lia. Qed.

Lemma scaled b w k : 0 <= b <= w -> w < 256 -> 0 <= k < 256 -> 0 <= b * k < 65536 /\ 0 <= b * k / 256 <= w * k / 256 /\ w * k / 256 <= k.
Proof.
  intros Hb Hw Hk. split; [nia|]. split; [split; [apply Z.div_pos; nia|apply Z.div_le_mono; nia]|apply Z.div_le_upper_bound; nia].
Qed.

Lemma upper_product b k : 0 <= b * k < 65536 -> u8 (asr16 (mul16 b k) 8) = b * k / 256.
Proof. apply upper_byte. Qed.

Lemma over_channel a b wi wo : 0 <= a <= wi -> 0 <= b <= wo -> wi < 256 -> wo < 256 ->
  u8 (add16 a (asr16 (mul16 b (255 - wi)) 8)) = a + b * (255 - wi) / 256 /\ 0 <= a + b * (255 - wi) / 256 <= wi + wo * (255 - wi) / 256 /\ wi + wo * (255 - wi) / 256 < 256.
Proof.
  intros Ha Hb Hwi Hwo. destruct (scaled b wo (255 - wi)) as (H1 & H2 & H3); [lia..|]. split; [|lia]. apply add_upper_byte; lia.
Qed.

Lemma in_channel a w k : 0 <= a <= w -> w < 256 -> 0 <= k < 256 -> u8 (asr16 (mul16 a k) 8) = a * k / 256 /\ 0 <= a * k / 256 <= w * k / 256 /\ w * k / 256 < 256.
Proof. intros Ha Hw Hk. destruct (scaled a w k) as (H1 & H2 & H3); [done..|]. split; [by apply upper_product|lia]. Qed.

Lemma multiply_channel a b wi wo : 0 <= a <= wi -> 0 <= b <= wo -> wi < 256 -> wo < 256 -> u8 (asr16 (mul16 a b) 8) = a * b / 256 /\ 0 <= a * b / 256 <= wi * wo / 256 /\ wi * wo / 256 < 256.
Proof.
  intros Ha Hb Hwi Hwo. assert (0 <= a * b <= wi * wo) by nia. assert (wi * wo < 65536) by nia. split; [apply upper_product; lia|]. split; [split; [apply Z.div_pos; lia|apply Z.div_le_mono; lia]|apply Z.div_lt_upper_bound; lia].
Qed.

Ltac channels4 L1 L2 L3 L4 :=
  let E1 := fresh in let E2 := fresh in let E3 := fresh in let E4 := fresh in
  pose proof L1 as E1; pose proof L2 as E2; pose proof L3 as E3; pose proof L4 as E4;
  repeat match goal with H : _ <= _ <= _ -> _ |- _ => specialize (H ltac:(lia)) | H : _ <= _ < _ -> _ |- _ => specialize (H ltac:(lia)) | H : _ < _ -> _ |- _ => specialize (H ltac:(lia)) end;
  repeat match goal with H : _ /\ _ |- _ => destruct H end;
  repeat match goal with H : u8 _ = _ |- _ => rewrite H; clear H end; split; [done|intros; first [lia | discriminate]].

Lemma atop_channel a b wi wo : 0 <= a <= wi -> 0 <= b <= wo -> wi < 256 -> wo < 256 ->
  u8 (asr16 (add16 (mul16 a wo) (mul16 b (255 - wi))) 8) = (a * wo + b * (255 - wi)) / 256 /\ 0 <= (a * wo + b * (255 - wi)) / 256 <= wo.
Proof.
  intros Ha Hb Hwi Hwo. assert (0 <= a * wo <= wi * wo) by nia. assert (0 <= b * (255 - wi) <= wo * (255 - wi)) by nia. assert (a * wo + b * (255 - wi) <= 255 * wo) by nia.
  unfold mul16. rewrite add16_products by lia. split; [apply upper_byte; lia|]. split; [apply Z.div_pos; lia|apply Z.div_le_upper_bound; lia].
Qed.

Lemma u8_add a b : 0 <= a -> 0 <= b -> u8 (if b + a >? 255 then 255 else b + a) = Z.min 255 (b + a).
Proof. intros. destruct (Z.gtb_spec (b + a) 255); rewrite u8_small; lia. Qed.

Lemma u8_sub a b : byte a -> byte b -> u8 (if b - a <? 0 then 0 else b - a) = Z.max 0 (b - a).
Proof. unfold byte. intros. destruct (Z.ltb_spec (b - a) 0); rewrite u8_small; lia. Qed.

(** The slots after which a pixel is still multiplied by its alpha. *)
Definition keeps_alpha (slot : Z) : bool := negb ((slot =? 10) || (slot =? 11) || (slot =? 35)).

Definition slots : list Z := [0; 1; 3; 4; 5; 6; 7; 8; 9; 10; 11; 14; 34; 35].

Lemma blend_slots slot f : blend slot = Some f -> slot ∈ slots.
Proof.
  intros Hf. unfold blend in Hf. repeat match type of Hf with match ?p with _ => _ end = Some _ => destruct p; try discriminate Hf end.
  all: apply (bool_decide_unpack _); vm_compute; exact I.
Qed.

Lemma blend_exact slot f i o : blend slot = Some f -> premultiplied i -> premultiplied o -> f i o = blend_ref slot i o /\ (keeps_alpha slot = true -> premultiplied (f i o)).
Proof.
  intros Hf Hi Ho. pose proof (blend_slots _ _ Hf) as Hs. destruct i as [ix iy iz iw], o as [ox oy oz ow]. unfold premultiplied in Hi, Ho. cbn [cx cy cz cw] in Hi, Ho. destruct Hi as (Hx & Hy & Hz & Hw), Ho as (Gx & Gy & Gz & Gw).
  unfold slots in Hs. rewrite !elem_of_cons in Hs. assert (Bi : byte iw) by (unfold byte; lia). assert (Bo : byte ow) by (unfold byte; lia).
  destruct Hs as [->|[->|[->|[->|[->|[->|[->|[->|[->|[->|[->|[->|[->|[->|Hs]]]]]]]]]]]]]]; [..|by apply not_elem_of_nil in Hs]; cbn [blend] in Hf; apply (inj Some) in Hf; subst f; unfold zip4, map4, blend_ref, premultiplied; cbn [cx cy cz cw]; rewrite ?(sub16_255 iw), ?(sub16_255 ow) by done.
  - split; [done|lia].
  - split; [done|lia].
  - channels4 (over_channel ix ox iw ow) (over_channel iy oy iw ow) (over_channel iz oz iw ow) (over_channel iw ow iw ow).
  - channels4 (over_channel ox ix ow iw) (over_channel oy iy ow iw) (over_channel oz iz ow iw) (over_channel ow iw ow iw).
  - channels4 (in_channel ix iw ow) (in_channel iy iw ow) (in_channel iz iw ow) (in_channel iw iw ow).
  - channels4 (in_channel ox ow iw) (in_channel oy ow iw) (in_channel oz ow iw) (in_channel ow ow iw).
  - channels4 (in_channel ix iw (255 - ow)) (in_channel iy iw (255 - ow)) (in_channel iz iw (255 - ow)) (in_channel iw iw (255 - ow)).
  - channels4 (in_channel ox ow (255 - iw)) (in_channel oy ow (255 - iw)) (in_channel oz ow (255 - iw)) (in_channel ow ow (255 - iw)).
  - channels4 (atop_channel ix ox iw ow) (atop_channel iy oy iw ow) (atop_channel iz oz iw ow) (u8_small ow).
  - channels4 (atop_channel ox ix ow iw) (atop_channel oy iy ow iw) (atop_channel oz iz ow iw) (u8_small ow).
  - split; [done|discriminate].
  - channels4 (multiply_channel ix ox iw ow) (multiply_channel iy oy iw ow) (multiply_channel iz oz iw ow) (multiply_channel iw ow iw ow).
  - rewrite !u8_add by lia. split; [done|lia].
  - rewrite !u8_sub by (unfold byte; lia). split; [done|discriminate].
Qed.



(** A transparent source is not neutral: laid over a pixel it takes one from every channel that is
    not zero, because the weight 255 of the destination is divided by 256. *)
Lemma src_over_darkens o : byte (cx o) -> 0 < cx o -> forall f, blend 3 = Some f -> cx (f (mk 0 0 0 0) o) = cx o - 1.
Proof.
  intros Hb Hp f Hf. cbn [blend] in Hf. apply (inj Some) in Hf. subst f. unfold zip4. cbn [cx cw]. rewrite sub16_255 by (unfold byte; lia). unfold byte in Hb. unfold mul16. rewrite add_upper_byte; Z.to_euclidean_division_equations; lia.
Qed.

(** ** YUV *)

Definition yuv_ref (y u v : Z) : uchar4 :=
  let c e := Z.max 0 (Z.min 255 (e / 256)) in
  mk (c (298 * (y - 16) + 409 * (v - 128) + 128)) (c (298 * (y - 16) - 100 * (u - 128) - 208 * (v - 128) + 128)) (c (298 * (y - 16) + 516 * (u - 128) + 128)) 255.

Lemma clamp255_minmax v : clamp255 v = Z.max 0 (Z.min 255 v).
Proof. unfold clamp255. destruct (Z.ltb_spec v 0); [lia|]. destruct (Z.gtb_spec v 255); lia. Qed.

Lemma yuv_exact y u v : byte y -> byte u -> byte v -> rsYuvToRGBA_uchar4 y u v = yuv_ref y u v.
Proof.
  unfold byte. intros. unfold rsYuvToRGBA_uchar4, yuv_ref. cbv zeta. rewrite !clamp255_minmax. rewrite !Z.shiftr_div_pow2 by lia. change (2 ^ 8) with 256. rewrite (s16_small (y - 16)), (s16_small (u - 128)), (s16_small (v - 128)) by lia.
  replace (298 * (y - 16) + 409 * (v - 128) + 128) with ((y - 16) * 298 + (v - 128) * 409 + 128) by lia. replace (298 * (y - 16) - 100 * (u - 128) - 208 * (v - 128) + 128) with ((y - 16) * 298 - (u - 128) * 100 - (v - 128) * 208 + 128) by lia.
  replace (298 * (y - 16) + 516 * (u - 128) + 128) with ((y - 16) * 298 + (u - 128) * 516 + 128) by lia.
  rewrite !s16_small; [done|..]; Z.to_euclidean_division_equations; lia.
Qed.

Lemma yuv_pairs_spec (Y u v : Z -> outcome Z) (yv uv vv : Z -> Z) cstep x2 m : forall fuel x1 k out, (m <= fuel)%nat -> x1 mod 2 = 0 -> x2 <= x1 + 2 * Z.of_nat m -> x1 + 2 * Z.of_nat m <= x2 + 1 -> 0 <= k -> k + 2 * Z.of_nat m <= zlen out ->
  (forall x, x1 <= x < x1 + 2 * Z.of_nat m -> Y x = Ok (yv x) /\ u (x / 2 * cstep) = Ok (uv (x / 2)) /\ v (x / 2 * cstep) = Ok (vv (x / 2))) ->
  exists out', yuv_pairs fuel Y u v cstep x1 x2 k out = Ok out' /\ length out' = length out /\
    forall j, out' !! j = if decide (k <= Z.of_nat j < k + 2 * Z.of_nat m) then let x := x1 + (Z.of_nat j - k) in Some (rsYuvToRGBA_uchar4 (yv x) (uv (x / 2)) (vv (x / 2))) else out !! j.
Proof.
  induction m as [|m IH]; intros fuel x1 k out Hf He H1 H2 Hk Ho Hv.
  { exists out. destruct fuel; cbn [yuv_pairs]; [|destruct (Z.ltb_spec x1 x2); [lia|]]; (split_and!; [done..|]; intros j; by rewrite decide_False by lia). }
  destruct fuel as [|fuel]; [lia|]. cbn [yuv_pairs]. destruct (Z.ltb_spec x1 x2); [|lia]. destruct (Hv x1) as (-> & Eu & Ev); [lia|]. destruct (Hv (x1 + 1)) as (Ey1 & _ & _); [lia|]. cbv zeta. rewrite Eu, Ev. cbn [mbind outcome_bind]. unfold zlen in Ho.
  pose proof (zset_Ok out (Z.to_nat k) (rsYuvToRGBA_uchar4 (yv x1) (uv (x1 / 2)) (vv (x1 / 2))) ltac:(lia)) as Z1. rewrite Z2Nat.id in Z1 by lia. rewrite Z1. cbn [mbind outcome_bind]. rewrite Ey1. cbn [mbind outcome_bind]. set (o1 := <[_ := _]> out).
  pose proof (zset_Ok o1 (Z.to_nat (k + 1)) (rsYuvToRGBA_uchar4 (yv (x1 + 1)) (uv (x1 / 2)) (vv (x1 / 2))) ltac:(unfold o1; rewrite length_insert; lia)) as Z2. rewrite Z2Nat.id in Z2 by lia. rewrite Z2. cbn [mbind outcome_bind]. set (o2 := <[_ := _]> o1).
  assert (L2 : length o2 = length out) by (unfold o2, o1; by rewrite !length_insert). destruct (IH fuel (x1 + 2) (k + 2) o2) as (out' & -> & Hl & Hj); [lia|rewrite <- Z.add_mod_idemp_r by lia; by rewrite Z.add_0_r|lia|lia|lia|unfold zlen; lia|intros; apply Hv; lia|].
  exists out'. split_and!; [done|congruence|]. intros j. rewrite Hj. destruct (decide (k + 2 <= Z.of_nat j < k + 2 + 2 * Z.of_nat m)) as [Hin|Hin].
  - rewrite decide_True by lia. cbv zeta. replace (x1 + 2 + (Z.of_nat j - (k + 2))) with (x1 + (Z.of_nat j - k)) by lia. done.
  - unfold o2, o1. destruct (decide (j = Z.to_nat (k + 1))) as [->|H1']; [|destruct (decide (j = Z.to_nat k)) as [->|H0']].
    + rewrite list_lookup_insert_eq by (rewrite length_insert; lia). rewrite decide_True by lia. cbv zeta. replace (x1 + (Z.of_nat (Z.to_nat (k + 1)) - k)) with (x1 + 1) by lia. replace ((x1 + 1) / 2) with (x1 / 2) by (Z.to_euclidean_division_equations; lia). done.
    + rewrite list_lookup_insert_ne by lia. rewrite list_lookup_insert_eq by lia. rewrite decide_True by lia. cbv zeta. replace (x1 + (Z.of_nat (Z.to_nat k) - k)) with x1 by lia. done.
    + rewrite !list_lookup_insert_ne by lia. rewrite decide_False by lia. done.
Qed.

(** The sample of the picture at a pixel: one luma value for each, one pair of chroma values for
    each block of two by two, in planes of their own or behind the luma rows, V before U. *)
Definition sample (a : yuv_input) (dimX dimY x y : Z) : outcome (Z * Z * Z) :=
  let pitch := if lod0_dimY a =? 0 then dimX else strideY a in
  Y ← znth (planeY a) (y * pitch + x);
  match planeU a with
  | Some pu => U ← znth pu (y / 2 * strideU a + x / 2 * step a); V ← znth (planeV a) (y / 2 * strideV a + x / 2 * step a); Ok (Y, U, V)
  | None => U ← znth (planeY a) (pitch * dimY + y / 2 * pitch + 1 + x / 2 * 2); V ← znth (planeY a) (pitch * dimY + y / 2 * pitch + x / 2 * 2); Ok (Y, U, V)
  end.

Lemma access_sample a dimX dimY x y Y U V : sample a dimX dimY x y = Ok (Y, U, V) -> let '(fy, fu, fv, cstep) := yuv_access a y dimX dimY in fy x = Ok Y /\ fu (x / 2 * cstep) = Ok U /\ fv (x / 2 * cstep) = Ok V.
Proof.
  unfold sample, yuv_access. cbv zeta. destruct (planeU a) as [pu|]; intros E.
  all: repeat (match type of E with (?t ≫= _) = _ => destruct t eqn:?; [|done] end; cbn [mbind outcome_bind] in E); by simplify_eq.
Qed.

(** The kernel converts pixels in pairs, from an even position on: each pixel of the span is the
    conversion of its sample. When the span has an odd number of pixels, the pixel behind it is
    converted and stored as well. *)
Theorem yuv_row a dimX dimY y xstart xend out (val : Z -> Z * Z * Z) : let n := roundup 2 (xend - xstart) in
  xstart mod 2 = 0 -> xstart <= xend -> n <= zlen out ->
  (forall x, xstart <= x < xstart + n -> sample a dimX dimY x y = Ok (val x) /\ byte (val x).1.1 /\ byte (val x).1.2 /\ byte (val x).2) ->
  exists out', yuv_kernel (Some a) y dimX dimY xstart xend out = Ok out' /\ length out' = length out /\
    forall j, out' !! j = if decide (Z.of_nat j < n) then let '(Y, U, V) := val (xstart + Z.of_nat j) in Some (yuv_ref Y U V) else out !! j.
Proof.
  intros n He Hx Ho Hs. assert (Hn : exists m, n = 2 * Z.of_nat m /\ xend - xstart <= n <= xend - xstart + 1).
  { exists (Z.to_nat (n / 2)). unfold n, roundup in *. Z.to_euclidean_division_equations; lia. }
  destruct Hn as (m & Em & Hm). unfold yuv_kernel. pose proof (access_sample a dimX dimY) as Hacc. destruct (yuv_access a y dimX dimY) as [[[fy fu] fv] cstep] eqn:Ea.
  assert (Hread : forall x, xstart <= x < xstart + n -> fy x = Ok (val x).1.1 /\ fu (x / 2 * cstep) = Ok (val x).1.2 /\ fv (x / 2 * cstep) = Ok (val x).2).
  { intros x Hxs. destruct (Hs x Hxs) as (E & _). destruct (val x) as [[Y U] V]. specialize (Hacc x y _ _ _ E). rewrite Ea in Hacc. done. }
  set (uv := fun c => (val (2 * c)).1.2). set (vv := fun c => (val (2 * c)).2).
  assert (Hval : forall x, xstart <= x < xstart + n -> uv (x / 2) = (val x).1.2 /\ vv (x / 2) = (val x).2).
  { intros x Hxs. assert (Hc : xstart <= 2 * (x / 2) < xstart + n /\ 2 * (x / 2) / 2 = x / 2) by (Z.to_euclidean_division_equations; lia). destruct Hc as [Hc Ec]. destruct (Hread x Hxs) as (_ & E1 & E2). destruct (Hread _ Hc) as (_ & E3 & E4). rewrite Ec in E3, E4. unfold uv, vv. split; congruence. }
  destruct (Z.gtb_spec xend xstart) as [Hgt|Hle].
  - destruct (yuv_pairs_spec fy fu fv (fun x => (val x).1.1) uv vv cstep xend m (Z.to_nat (xend - xstart)) xstart 0 out) as (out' & -> & Hl & Hj); [lia|done|lia|lia|lia|lia|intros x Hxs; rewrite <- Em in Hxs; destruct (Hval x Hxs) as [-> ->]; by apply Hread|].
    exists out'. split_and!; [done..|]. intros j. rewrite Hj. destruct (decide (Z.of_nat j < n)); [rewrite decide_True by lia|by rewrite decide_False by lia]. cbv zeta. rewrite Z.sub_0_r. set (x := xstart + Z.of_nat j). assert (Hxs : xstart <= x < xstart + n) by lia.
    destruct (Hs x Hxs) as (_ & B1 & B2 & B3). destruct (Hval x Hxs) as [-> ->]. rewrite yuv_exact by done. by destruct (val x) as [[Y U] V].
  - exists out. split_and!; [done..|]. intros j. by rewrite decide_False by lia.
Qed.

(** The last row of a picture with an odd width is written past its end. *)
Lemma yuv_odd_overrun : exists a out, zlen out = 3 /\ yuv_kernel (Some a) 0 3 1 0 3 out = Fault OutOfBounds.
Proof. exists (mkYuv (replicate 12 128) None [] 3 0 0 1 1), (replicate 3 (mk 0 0 0 0)). split; vm_compute; reflexivity. Qed.

Lemma yuv_row_witness : exists out', yuv_kernel (Some (mkYuv [16; 235; 128; 128] (Some [128]) [200] 2 1 1 2 1)) 0 2 2 0 2 [mk 0 0 0 0; mk 0 0 0 0] = Ok out' /\ length out' = 2%nat /\
    forall j, out' !! j = if decide (Z.of_nat j < roundup 2 (2 - 0)) then let '(Y, U, V) := (if 0 + Z.of_nat j =? 0 then 16 else 235, 128, 200) in Some (yuv_ref Y U V) else [mk 0 0 0 0; mk 0 0 0 0] !! j.
Proof.
  apply (yuv_row (mkYuv [16; 235; 128; 128] (Some [128]) [200] 2 1 1 2 1) 2 2 0 0 2 [mk 0 0 0 0; mk 0 0 0 0] (fun x => (if x =? 0 then 16 else 235, 128, 200))); [done|lia|vm_compute; congruence|].
  intros x Hx. change (roundup 2 (2 - 0)) with 2 in Hx. assert (x = 0 \/ x = 1) as [-> | ->] by lia; vm_compute; split_and!; (reflexivity || congruence).
Defined.

(** ** Three dimensional lookup: trilinear interpolation *)

(** The exact interpolation of eight corners, in units of [2 ^ -45]. *)
Definition trilinear (v : Z -> Z -> Z -> Z) (x2 y2 z2 : Z) : Z :=
  let x1 := 0x8000 - x2 in let y1 := 0x8000 - y2 in let z1 := 0x8000 - z2 in
  ((v 0 0 0 * x1 + v 1 0 0 * x2) * y1 + (v 0 1 0 * x1 + v 1 1 0 * x2) * y2) * z1 + ((v 0 0 1 * x1 + v 1 0 1 * x2) * y1 + (v 0 1 1 * x1 + v 1 1 1 * x2) * y2) * z2.

Definition lerp1 (shift w2 a b : Z) : Z := Z.shiftr (u32 (u32 (a * (0x8000 - w2)) + u32 (b * w2))) shift.

(** One interpolation step: [a] and [b] approximate [A / M] and [B / M] from below with an error of
    at most [e / M], and the result the weighted mean. *)
Lemma lerp1_near shift w2 a b A B M e : 0 <= shift <= 15 -> 0 <= w2 < 0x8000 -> 0 <= a < 2 ^ 17 -> 0 <= b < 2 ^ 17 -> 0 < M -> A - e <= M * a <= A -> B - e <= M * b <= B ->
  let r := lerp1 shift w2 a b in let T := A * (0x8000 - w2) + B * w2 in
  T - (e * 0x8000 + M * (2 ^ shift - 1)) <= M * 2 ^ shift * r <= T.
Proof.
  intros Hs Hw Ha Hb HM HA HB r T. subst r. unfold lerp1. assert (Hsum : 0 <= a * (32768 - w2) /\ 0 <= b * w2 /\ a * (32768 - w2) + b * w2 < 2 ^ 32) by (change (2 ^ 17) with 131072 in *; change (2 ^ 32) with (131072 * 32768); nia).
  unfold u32, wrap. rewrite (Z.mod_small (a * _)), (Z.mod_small (b * w2)), Z.mod_small by lia. rewrite Z.shiftr_div_pow2 by lia.
  set (x := a * (32768 - w2) + b * w2). assert (Hp : 0 < 2 ^ shift) by (apply Z.pow_pos_nonneg; lia). pose proof (Z.div_mod x (2 ^ shift) ltac:(lia)) as Hd. pose proof (Z.mod_pos_bound x (2 ^ shift) Hp) as Hr.
  assert (Hx : T - e * 32768 <= M * x <= T) by (unfold T, x; nia). nia.
Qed.

(** The range of a step. *)
Lemma lerp1_range shift w2 a b hi : 0 <= shift <= 15 -> 0 <= w2 < 0x8000 -> 0 <= a <= hi -> 0 <= b <= hi -> hi < 2 ^ 17 -> 0 <= lerp1 shift w2 a b <= hi * 2 ^ (15 - shift).
Proof.
  intros Hs Hw Ha Hb Hh. destruct (lerp1_near shift w2 a b a b 1 0) as [_ H]; [lia..|]. assert (Hp : 0 < 2 ^ shift) by (apply Z.pow_pos_nonneg; lia).
  split; [unfold lerp1; apply Z.shiftr_nonneg; apply Z.mod_pos_bound; lia|]. apply (Z.mul_le_mono_pos_r _ _ (2 ^ shift)); [done|]. rewrite <- Z.mul_assoc, <- Z.pow_add_r by lia. replace (15 - shift + shift) with 15 by lia. change (2 ^ 15) with 32768. nia.
Qed.

(** The three stages and the final rounding of one channel. *)
Definition channel3 (v : Z -> Z -> Z -> Z) (x2 y2 z2 : Z) : Z :=
  let z0 := lerp1 15 y2 (lerp1 7 x2 (v 0 0 0) (v 1 0 0)) (lerp1 7 x2 (v 0 1 0) (v 1 1 0)) in
  let z1 := lerp1 15 y2 (lerp1 7 x2 (v 0 0 1) (v 1 0 1)) (lerp1 7 x2 (v 0 1 1) (v 1 1 1)) in
  u8 (Z.shiftr (u32 (lerp1 15 z2 z0 z1 + 0x7f)) 8).

Lemma stage_x x2 a b : 0 <= x2 < 0x8000 -> byte a -> byte b ->
  let r := lerp1 7 x2 a b in let T := a * (0x8000 - x2) + b * x2 in 0 <= r <= 65280 /\ T - 127 <= 128 * r <= T.
Proof.
  intros Hx Ha Hb r T. unfold byte in *. split; [apply (lerp1_range 7 x2 a b 255); lia|].
  pose proof (lerp1_near 7 x2 a b a b 1 0) as H. cbv zeta in H. change (1 * 2 ^ 7) with 128 in H. change (0 * 32768 + 1 * (2 ^ 7 - 1)) with 127 in H. apply H; lia.
Qed.

Lemma stage_yz w2 p q P Q M e : 0 <= w2 < 0x8000 -> 0 < M -> 0 <= p <= 65280 /\ P - e <= M * p <= P -> 0 <= q <= 65280 /\ Q - e <= M * q <= Q ->
  let r := lerp1 15 w2 p q in let T := P * (0x8000 - w2) + Q * w2 in 0 <= r <= 65280 /\ T - (e * 0x8000 + M * 0x7fff) <= M * 0x8000 * r <= T.
Proof.
  intros Hw HM [Hp HP] [Hq HQ] r T. split; [rewrite <- (Z.mul_1_r 65280); apply (lerp1_range 15 w2 p q 65280); lia|]. apply (lerp1_near 15 w2 p q P Q M e); lia.
Qed.

Lemma channel3_near v x2 y2 z2 : (forall i j k, byte (v i j k)) -> 0 <= x2 < 0x8000 -> 0 <= y2 < 0x8000 -> 0 <= z2 < 0x8000 ->
  Z.abs (2 ^ 45 * channel3 v x2 y2 z2 - trilinear v x2 y2 z2) <= 131 * 2 ^ 37.
Proof.
  intros Hv Hx Hy Hz.
  pose proof (fun j k => stage_x x2 (v 0 j k) (v 1 j k) Hx (Hv 0 j k) (Hv 1 j k)) as S1. cbv zeta in S1.
  pose proof (fun k => stage_yz y2 _ _ _ _ 128 127 Hy ltac:(lia) (S1 0 k) (S1 1 k)) as S2. cbv zeta in S2.
  pose proof (stage_yz z2 _ _ _ _ (128 * 0x8000) _ Hz ltac:(lia) (S2 0) (S2 1)) as [R E]. clear S1 S2. cbv zeta in R, E. unfold channel3, trilinear. cbv zeta.
  revert R E. generalize (lerp1 15 z2 (lerp1 15 y2 (lerp1 7 x2 (v 0 0 0) (v 1 0 0)) (lerp1 7 x2 (v 0 1 0) (v 1 1 0))) (lerp1 15 y2 (lerp1 7 x2 (v 0 0 1) (v 1 0 1)) (lerp1 7 x2 (v 0 1 1) (v 1 1 1)))).
  intros w R. match goal with |- _ <= _ <= ?t -> _ => generalize t end. intros T E.
  unfold u8, u32, wrap. rewrite (Z.mod_small (w + 127)) by lia. rewrite Z.shiftr_div_pow2 by lia. change (2 ^ 8) with 256. rewrite Z.mod_small by (Z.to_euclidean_division_equations; lia).
  Z.to_euclidean_division_equations; lia.
Qed.

(** A table of [dx * dy * dz] cells whose rows are [sy] bytes apart, with multipliers that keep the
    coordinates below the last cell in each dimension. *)
Record lut_fits (bp : list Z) (sy dx dy dz : Z) (m : Z * Z * Z) : Prop := {
  fits_bytes : Forall byte bp;
  fits_row : 4 * dx <= sy;
  fits_size : sy * dy * dz <= zlen bp;
  fits_x : 0 <= m.1.1 /\ 255 * m.1.1 < (dx - 1) * 0x8000;
  fits_y : 0 <= m.1.2 /\ 255 * m.1.2 < (dy - 1) * 0x8000;
  fits_z : 0 <= m.2 /\ 255 * m.2 < (dz - 1) * 0x8000;
  fits_width : dx <= 0x10000 /\ dy <= 0x10000 /\ dz <= 0x10000;
}.

Definition byte_at (bp : list Z) (off : Z) : Z := default 0 (bp !! Z.to_nat off).

Lemma byte_at_byte bp off : Forall byte bp -> byte (byte_at bp off).
Proof. intros H. unfold byte_at. destruct (bp !! Z.to_nat off) eqn:E; [exact (Forall_lookup_1 _ _ _ _ H E)|done]. Qed.

Lemma znth_byte_at bp off : 0 <= off < zlen bp -> znth bp off = Ok (byte_at bp off).
Proof. intros H. unfold zlen in H. destruct (lookup_lt_is_Some_2 bp (Z.to_nat off)) as [v E]; [lia|]. pose proof (znth_lookup _ _ _ E) as Zv. rewrite Z2Nat.id in Zv by lia. unfold byte_at. by rewrite E. Qed.

Lemma lut_at_Ok bp off : 0 <= off -> off + 3 < zlen bp -> lut_at bp off = Ok (mk (byte_at bp off) (byte_at bp (off + 1)) (byte_at bp (off + 2)) (byte_at bp (off + 3))).
Proof. intros. unfold lut_at. by rewrite !znth_byte_at by lia. Qed.

(** Cell and weight of a coordinate. *)
Lemma coordinate c m dim : byte c -> 0 <= m -> 255 * m < (dim - 1) * 0x8000 -> dim <= 0x10000 ->
  s32 (c * m) = c * m /\ 0 <= Z.shiftr (c * m) 15 <= dim - 2 /\ 0 <= Z.land (c * m) 0x7fff < 0x8000.
Proof.
  unfold byte. intros Hc Hm Hd Hw. assert (Hb : 0 <= c * m < (dim - 1) * 32768) by nia. split; [unfold s32, swrap; rewrite Z.mod_small; lia|].
  rewrite Z.shiftr_div_pow2 by lia. change 32767 with (Z.ones 15). rewrite Z.land_ones by lia. change (2 ^ 15) with 32768. Z.to_euclidean_division_equations; lia.
Qed.

(** The value of channel [ch] in the cell [(i, j, k)]. *)
Definition entry (bp : list Z) (sy dy ch i j k : Z) : Z := byte_at bp (i * 4 + j * sy + k * stride_z sy dy + ch).

(** The corners that the pixel [p] selects, relative to its cell, and the interpolation there. *)
Definition looked_up (bp : list Z) (sy dy : Z) (m : Z * Z * Z) (p : uchar4) (ch : Z) : Z :=
  let '(mx, my, mz) := m in
  trilinear (fun i j k => entry bp sy dy ch (cx p * mx / 0x8000 + i) (cy p * my / 0x8000 + j) (cz p * mz / 0x8000 + k)) (cx p * mx mod 0x8000) (cy p * my mod 0x8000) (cz p * mz mod 0x8000).

Definition near (v T : Z) : Prop := Z.abs (2 ^ 45 * v - T) <= 131 * 2 ^ 37.

Lemma lerp_cx s w a b : cx (lerp s (0x8000 - w) w a b) = lerp1 s w (cx a) (cx b).
Proof. reflexivity. Qed.

Lemma lerp_cy s w a b : cy (lerp s (0x8000 - w) w a b) = lerp1 s w (cy a) (cy b).
Proof. reflexivity. Qed.

Lemma lerp_cz s w a b : cz (lerp s (0x8000 - w) w a b) = lerp1 s w (cz a) (cz b).
Proof. reflexivity. Qed.

Lemma map4_cx f a : cx (map4 f a) = f (cx a).
Proof. reflexivity. Qed.

Lemma map4_cy f a : cy (map4 f a) = f (cy a).
Proof. reflexivity. Qed.

Lemma map4_cz f a : cz (map4 f a) = f (cz a).
Proof. reflexivity. Qed.

Lemma with_alpha ret alpha t0 t1 t2 : near (cx ret) t0 -> near (cy ret) t1 -> near (cz ret) t2 ->
  let q := mk (cx ret) (cy ret) (cz ret) alpha in cw q = alpha /\ near (cx q) t0 /\ near (cy q) t1 /\ near (cz q) t2.
Proof. done. Qed.

(** The mixture of eight corners. *)
Definition mix (c : Z -> Z -> Z -> uchar4) (x2 y2 z2 : Z) : uchar4 :=
  let z0 := lerp 15 (0x8000 - y2) y2 (lerp 7 (0x8000 - x2) x2 (c 0 0 0) (c 1 0 0)) (lerp 7 (0x8000 - x2) x2 (c 0 1 0) (c 1 1 0)) in
  let z1 := lerp 15 (0x8000 - y2) y2 (lerp 7 (0x8000 - x2) x2 (c 0 0 1) (c 1 0 1)) (lerp 7 (0x8000 - x2) x2 (c 0 1 1) (c 1 1 1)) in
  map4 (fun v => u8 (Z.shiftr (u32 (v + 0x7f)) 8)) (lerp 15 (0x8000 - z2) z2 z0 z1).

Lemma lut3d_cell_mix bp sy dy base x2 y2 z2 alpha c : let sz := stride_z sy dy in
  lut_at bp base = Ok (c 0 0 0) -> lut_at bp (base + 4) = Ok (c 1 0 0) -> lut_at bp (base + sy) = Ok (c 0 1 0) -> lut_at bp (base + sy + 4) = Ok (c 1 1 0) ->
  lut_at bp (base + sz) = Ok (c 0 0 1) -> lut_at bp (base + sz + 4) = Ok (c 1 0 1) -> lut_at bp (base + sy + sz) = Ok (c 0 1 1) -> lut_at bp (base + sy + sz + 4) = Ok (c 1 1 1) ->
  lut3d_cell bp sy dy base x2 y2 z2 alpha = Ok (mk (cx (mix c x2 y2 z2)) (cy (mix c x2 y2 z2)) (cz (mix c x2 y2 z2)) alpha).
Proof. intros sz E1 E2 E3 E4 E5 E6 E7 E8. unfold lut3d_cell. fold sz. by rewrite E1, E2, E3, E4, E5, E6, E7, E8. Qed.

Lemma mix_cx c x2 y2 z2 : cx (mix c x2 y2 z2) = channel3 (fun i j k => cx (c i j k)) x2 y2 z2.
Proof. unfold mix, channel3. cbv zeta. by rewrite map4_cx, !lerp_cx. Qed.

Lemma mix_cy c x2 y2 z2 : cy (mix c x2 y2 z2) = channel3 (fun i j k => cy (c i j k)) x2 y2 z2.
Proof. unfold mix, channel3. cbv zeta. by rewrite map4_cy, !lerp_cy. Qed.

Lemma mix_cz c x2 y2 z2 : cz (mix c x2 y2 z2) = channel3 (fun i j k => cz (c i j k)) x2 y2 z2.
Proof. unfold mix, channel3. cbv zeta. by rewrite map4_cz, !lerp_cz. Qed.

Lemma lut3d_cell_near bp sy dy X Y W x2 y2 z2 alpha : Forall byte bp -> 0 <= sy -> 0 <= stride_z sy dy ->
  let base := X * 4 + Y * sy + W * stride_z sy dy in 0 <= base -> base + sy + stride_z sy dy + 7 < zlen bp ->
  0 <= x2 < 0x8000 -> 0 <= y2 < 0x8000 -> 0 <= z2 < 0x8000 ->
  let T ch := trilinear (fun i j k => entry bp sy dy ch (X + i) (Y + j) (W + k)) x2 y2 z2 in
  exists q, lut3d_cell bp sy dy base x2 y2 z2 alpha = Ok q /\ cw q = alpha /\ near (cx q) (T 0) /\ near (cy q) (T 1) /\ near (cz q) (T 2).
Proof.
  intros HB O3 O4 base O1 O2 Lx Ly Lz T. set (V := fun ch i j k => entry bp sy dy ch (X + i) (Y + j) (W + k)).
  assert (Hl : forall i j k off, 0 <= i <= 1 -> 0 <= j <= 1 -> 0 <= k <= 1 -> off = base + i * 4 + j * sy + k * stride_z sy dy -> lut_at bp off = Ok (mk (V 0 i j k) (V 1 i j k) (V 2 i j k) (V 3 i j k))).
  { intros i j k off Hi Hj Hk ->. rewrite lut_at_Ok by nia. unfold V, entry, base. f_equal. f_equal; f_equal; ring. }
  assert (HC : forall ch, near (channel3 (V ch) x2 y2 z2) (T ch)) by (intros ch; apply (channel3_near (V ch)); [intros; by apply byte_at_byte|done..]).
  eexists. split; [apply (lut3d_cell_mix bp sy dy base x2 y2 z2 alpha (fun i j k => mk (V 0 i j k) (V 1 i j k) (V 2 i j k) (V 3 i j k))); apply Hl; lia|].
  apply with_alpha; [rewrite mix_cx; exact (HC 0)|rewrite mix_cy; exact (HC 1)|rewrite mix_cz; exact (HC 2)].
Qed.

Lemma lut3d_pixel_near bp sy dx dy dz m p : lut_fits bp sy dx dy dz m -> byte (cx p) -> byte (cy p) -> byte (cz p) ->
  exists q, lut3d_pixel bp sy dy m p = Ok q /\ cw q = cw p /\ near (cx q) (looked_up bp sy dy m p 0) /\ near (cy q) (looked_up bp sy dy m p 1) /\ near (cz q) (looked_up bp sy dy m p 2).
Proof.
  intros [HB Hrow Hsize Hmx Hmy Hmz (Wx & Wy & Wz)] Hx Hy Hz. destruct m as [[mx my] mz]. cbn [fst snd] in *.
  destruct (coordinate (cx p) mx dx) as (Ex & Ix & Lx); [tauto..|]. destruct (coordinate (cy p) my dy) as (Ey & Iy & Ly); [tauto..|]. destruct (coordinate (cz p) mz dz) as (Ez & Iz & Lz); [tauto..|].
  assert (Ediv : forall a, a / 32768 = Z.shiftr a 15) by (intros; by rewrite Z.shiftr_div_pow2 by lia). assert (Emod : forall a, a mod 32768 = Z.land a 32767) by (intros; change 32767 with (Z.ones 15); by rewrite Z.land_ones by lia).
  unfold lut3d_pixel, looked_up. cbv zeta. rewrite Ex, Ey, Ez, !Ediv, !Emod. clear Ex Ey Ez Ediv Emod Hmx Hmy Hmz.
  revert Ix Iy Iz Lx Ly Lz. generalize (Z.shiftr (cx p * mx) 15) (Z.shiftr (cy p * my) 15) (Z.shiftr (cz p * mz) 15) (Z.land (cx p * mx) 32767) (Z.land (cy p * my) 32767) (Z.land (cz p * mz) 32767).
  intros X Y W x2 y2 z2 Ix Iy Iz Lx Ly Lz. assert (0 <= sy /\ 0 <= stride_z sy dy) as [S0 S1] by (unfold stride_z; nia).
  assert (HZ : stride_z sy dy * (W + 2) <= stride_z sy dy * dz) by nia. assert (HY : sy * (Y + 2) <= sy * dy) by nia.
  apply (lut3d_cell_near bp sy dy X Y W x2 y2 z2 (cw p)); try done; unfold stride_z in *; nia.
Qed.

(** The loop: each cell is computed from the input cell. *)
Lemma lut3d_loop_spec bp sy dy m (P : uchar4 -> uchar4 -> Prop) n : forall k ins out, 0 <= k -> k + Z.of_nat n <= zlen out -> k + Z.of_nat n <= zlen (default out ins) ->
  (forall j i, k <= Z.of_nat j < k + Z.of_nat n -> default out ins !! j = Some i -> exists q, lut3d_pixel bp sy dy m i = Ok q /\ P i q) ->
  exists out', lut3d_loop bp sy dy m n k ins out = Ok out' /\ length out' = length out /\
    forall j, if decide (k <= Z.of_nat j < k + Z.of_nat n) then exists i q, default out ins !! j = Some i /\ out' !! j = Some q /\ P i q else out' !! j = out !! j.
Proof.
  induction n as [|n IH]; intros k ins out Hk Ho Hi Hp; cbn [lut3d_loop].
  { exists out. split_and!; [done..|]. intros j. by rewrite decide_False by lia. }
  unfold zlen in *. destruct (lookup_lt_is_Some_2 (default out ins) (Z.to_nat k)) as [i Ei]; [lia|]. destruct (Hp (Z.to_nat k) i) as (q & Eq & Pq); [lia|done|].
  pose proof (znth_lookup _ _ _ Ei) as Zi. pose proof (zset_Ok out (Z.to_nat k) q ltac:(lia)) as Zs. rewrite Z2Nat.id in Zi, Zs by lia. rewrite Zi. cbn [mbind outcome_bind]. rewrite Eq. cbn [mbind outcome_bind]. rewrite Zs. cbn [mbind outcome_bind].
  assert (Hsame : forall j, j <> Z.to_nat k -> default (<[Z.to_nat k := q]> out) ins !! j = default out ins !! j) by (intros j Hj; destruct ins; cbn; [done|by rewrite list_lookup_insert_ne by congruence]).
  destruct (IH (k + 1) ins (<[Z.to_nat k := q]> out)) as (out' & -> & Hl & Hj); [lia|rewrite length_insert; lia|destruct ins; cbn in *; rewrite ?length_insert; lia|intros j i' Hj; rewrite Hsame by lia; apply Hp; lia|].
  exists out'. rewrite length_insert in Hl. split_and!; [done..|]. intros j. specialize (Hj j). destruct (decide (j = Z.to_nat k)) as [->|Hne].
  - rewrite decide_False in Hj by lia. rewrite decide_True by lia. exists i, q. rewrite Hj. split_and!; [done|apply list_lookup_insert_eq; lia|done].
  - rewrite Hsame in Hj by done. rewrite list_lookup_insert_ne in Hj by congruence. destruct (decide (k + 1 <= Z.of_nat j < k + 1 + Z.of_nat n)); [rewrite decide_True by lia|rewrite decide_False by lia]; done.
Qed.


(** A table of 2 x 2 x 2 cells; each multiplier is [1 / 255 * 0x8000] truncated. *)
Definition demo_lut : list Z := [0; 0; 0; 255; 255; 0; 0; 255; 0; 255; 0; 255; 255; 255; 0; 255; 0; 0; 255; 255; 255; 0; 255; 255; 0; 255; 255; 255; 255; 255; 255; 255].


(** With 256 cells in a dimension the multiplier is exactly [0x8000]: the value 255 selects the
    last cell, whose neighbour is outside of the table. *)
Lemma lut3d_overrun : let bp := replicate (4 * 2 * 256 * 2) 0 in lut3d_pixel bp 8 256 (128, 0x8000, 128) (mk 0 255 255 255) = Fault OutOfBounds.
Proof. vm_compute. reflexivity. Qed.

End Pixels.
