(* ===== verification/Histogram.v ===== *)
(** * Histogram: counting pixel values on several threads

    [rsCpuIntrinsicHistogram.cpp]: the choice of the kernel and the clearing of the counters before a
    launch, the eight kernels, each of which counts in the slice of its thread, and the summation
    after the launch. *)

From S2P Require Import Prelude Pixels.
Import Pixels(byte, byte_at, byte_at_byte, znth_byte_at).

Module Histogram.

Inductive kernel := P1U1 | P1U2 | P1U3 | P1U4 | P1L1 | P1L2 | P1L3 | P1L4.

(** [mDotI], [mSums], the threads of the context and [mRootPtr]. *)
Record hist := mk { mDotI : Z * Z * Z * Z; mSums : list Z; threads : Z; mRootPtr : option kernel }.

Definition set_mSums (h : hist) (s : list Z) : hist := mk (mDotI h) s (threads h) (mRootPtr h).
Definition set_mRootPtr (h : hist) (k : kernel) : hist := mk (mDotI h) (mSums h) (threads h) (Some k).

(** ** Before the launch *)

(** [vOut] and [vIn] are the vector sizes of the output and the input element. *)
Definition preLaunch (slot vOut vIn : Z) (h : hist) : outcome hist :=
  let '(h, vSize) :=
    if slot =? 0 then
      match vOut with
      | 1 => (set_mRootPtr h P1U1, vOut)
      | 2 => (set_mRootPtr h P1U2, vOut)
      | 3 => (set_mRootPtr h P1U3, 4)
      | 4 => (set_mRootPtr h P1U4, vOut)
      | _ => (h, vOut)
      end
    else if slot =? 1 then
      match vIn with
      | 1 => (set_mRootPtr h P1L1, vOut)
      | 2 => (set_mRootPtr h P1L2, vOut)
      | 3 => (set_mRootPtr h P1L3, vOut)
      | 4 => (set_mRootPtr h P1L4, vOut)
      | _ => (h, vOut)
      end
    else (h, vOut) in
  s ← zwrite (mSums h) 0 (replicate (Z.to_nat (256 * threads h * vSize)) 0);
  Ok (set_mSums h s).

(** ** The kernels *)

(** [sums[i]++] where [sums] is [&mSums[base]]. *)
Definition bump (base i : Z) (s : list Z) : outcome (list Z) :=
  v ← znth s (base + i);
  if v =? 2 ^ 31 - 1 then Fault Overflow else zset s (base + i) (v + 1).

(** [for (x = xstart; x < xend; x++)] with [in += instep]: the body at each position of the input. *)
Fixpoint each (body : Z -> list Z -> outcome (list Z)) (instep : Z) (n : nat) (pos : Z) (s : list Z) : outcome (list Z) :=
  match n with
  | O => Ok s
  | S n => s ← body pos s; each body instep n (pos + instep) s
  end.

Definition kernelP1U4 (lid : Z) (inp : list Z) (pos : Z) (s : list Z) : outcome (list Z) :=
  let sums := 256 * 4 * lid in
  a ← znth inp pos; s ← bump sums (Z.shiftl a 2) s;
  b ← znth inp (pos + 1); s ← bump sums (Z.shiftl b 2 + 1) s;
  c ← znth inp (pos + 2); s ← bump sums (Z.shiftl c 2 + 2) s;
  d ← znth inp (pos + 3); bump sums (Z.shiftl d 2 + 3) s.

Definition kernelP1U3 (lid : Z) (inp : list Z) (pos : Z) (s : list Z) : outcome (list Z) :=
  let sums := 256 * 4 * lid in
  a ← znth inp pos; s ← bump sums (Z.shiftl a 2) s;
  b ← znth inp (pos + 1); s ← bump sums (Z.shiftl b 2 + 1) s;
  c ← znth inp (pos + 2); bump sums (Z.shiftl c 2 + 2) s.

Definition kernelP1U2 (lid : Z) (inp : list Z) (pos : Z) (s : list Z) : outcome (list Z) :=
  let sums := 256 * 2 * lid in
  a ← znth inp pos; s ← bump sums (Z.shiftl a 1) s;
  b ← znth inp (pos + 1); bump sums (Z.shiftl b 1 + 1) s.

Definition kernelP1U1 (lid : Z) (inp : list Z) (pos : Z) (s : list Z) : outcome (list Z) :=
  a ← znth inp pos; bump (256 * lid) a s.

(** [int] arithmetic of the products with the coefficients. *)
Definition int32 (v : Z) : outcome Z := if decide (- 2 ^ 31 <= v < 2 ^ 31) then Ok v else Fault Overflow.

Definition kernelP1L4 (dot : Z * Z * Z * Z) (lid : Z) (inp : list Z) (pos : Z) (s : list Z) : outcome (list Z) :=
  let '(d0, d1, d2, d3) := dot in
  a ← znth inp pos; b ← znth inp (pos + 1); c ← znth inp (pos + 2); d ← znth inp (pos + 3);
  p0 ← int32 (d0 * a); p1 ← int32 (d1 * b); t ← int32 (p0 + p1); p2 ← int32 (d2 * c); t ← int32 (t + p2); p3 ← int32 (d3 * d); t ← int32 (t + p3);
  r ← int32 (t + 0x7f); bump (256 * lid) (Z.shiftr r 8) s.

Definition kernelP1L3 (dot : Z * Z * Z * Z) (lid : Z) (inp : list Z) (pos : Z) (s : list Z) : outcome (list Z) :=
  let '(d0, d1, d2, _) := dot in
  a ← znth inp pos; b ← znth inp (pos + 1); c ← znth inp (pos + 2);
  p0 ← int32 (d0 * a); p1 ← int32 (d1 * b); t ← int32 (p0 + p1); p2 ← int32 (d2 * c); t ← int32 (t + p2);
  r ← int32 (t + 0x7f); bump (256 * lid) (Z.shiftr r 8) s.

Definition kernelP1L2 (dot : Z * Z * Z * Z) (lid : Z) (inp : list Z) (pos : Z) (s : list Z) : outcome (list Z) :=
  let '(d0, d1, _, _) := dot in
  a ← znth inp pos; b ← znth inp (pos + 1);
  p0 ← int32 (d0 * a); p1 ← int32 (d1 * b); t ← int32 (p0 + p1);
  r ← int32 (t + 0x7f); bump (256 * lid) (Z.shiftr r 8) s.

Definition kernelP1L1 (dot : Z * Z * Z * Z) (lid : Z) (inp : list Z) (pos : Z) (s : list Z) : outcome (list Z) :=
  let '(d0, _, _, _) := dot in
  a ← znth inp pos; t ← int32 (d0 * a);
  r ← int32 (t + 0x7f); bump (256 * lid) (Z.shiftr r 8) s.

Definition body (k : kernel) (dot : Z * Z * Z * Z) : Z -> list Z -> Z -> list Z -> outcome (list Z) :=
  match k with
  | P1U1 => kernelP1U1 | P1U2 => kernelP1U2 | P1U3 => kernelP1U3 | P1U4 => kernelP1U4
  | P1L1 => kernelP1L1 dot | P1L2 => kernelP1L2 dot | P1L3 => kernelP1L3 dot | P1L4 => kernelP1L4 dot
  end.

(** One call of the kernel: its thread, the bytes from [p->in] on, the step and the span. *)
Record call := mkCall { lid : Z; inp : list Z; instep : Z; xstart : Z; xend : Z }.

Definition run_call (h : hist) (c : call) : outcome hist :=
  match mRootPtr h with
  | None => Fault NullDeref
  | Some k => s ← each (body k (mDotI h) (lid c) (inp c)) (instep c) (Z.to_nat (xend c - xstart c)) 0 (mSums h); Ok (set_mSums h s)
  end.

(** ** After the launch *)

(** [o[ct] = mSums[ct]; for (t = 1; t < threads; t++) o[ct] += ...]. *)
Fixpoint sum_threads (s : list Z) (vSize ct t : Z) (n : nat) (acc : Z) : outcome Z :=
  match n with
  | O => Ok acc
  | S n => v ← znth s (ct + 256 * vSize * t); sum_threads s vSize ct (t + 1) n (u32 (acc + v))
  end.

Fixpoint sum_cells (h : hist) (vSize ct : Z) (n : nat) (o : list Z) : outcome (list Z) :=
  match n with
  | O => Ok o
  | S n =>
      v ← znth (mSums h) ct;
      v ← sum_threads (mSums h) vSize ct 1 (Z.to_nat (threads h - 1)) (u32 v);
      o ← zset o ct v;
      sum_cells h vSize (ct + 1) n o
  end.

Definition postLaunch (vOut : Z) (h : hist) (o : list Z) : outcome (list Z) :=
  let vSize := if vOut =? 3 then 4 else vOut in
  sum_cells h vSize 0 (Z.to_nat (256 * vSize)) o.

(** A launch: calls of the kernel in any order on any threads between the two hooks. *)
Definition launch (slot vOut vIn : Z) (calls : list call) (h : hist) (o : list Z) : outcome (hist * list Z) :=
  h ← preLaunch slot vOut vIn h;
  h ← foldl (fun r c => h ← r; run_call h c) (Ok h) calls;
  o ← postLaunch vOut h o;
  Ok (h, o).

(** ** What is counted *)

(** The pixels of the calls: the bytes of the input and a position in them. *)
Definition pixels (c : call) : list (list Z * Z) := (fun i => (inp c, Z.of_nat i * instep c)) <$> seq 0 (Z.to_nat (xend c - xstart c)).

Definition chan (p : list Z * Z) (i : Z) : Z := byte_at p.1 (p.2 + i).

Definition channels (k : kernel) : Z := match k with P1U1 | P1L1 => 1 | P1U2 | P1L2 => 2 | P1U3 | P1L3 => 3 | P1U4 | P1L4 => 4 end.
Definition width (k : kernel) : Z := match k with P1U2 => 2 | P1U3 | P1U4 => 4 | _ => 1 end.
Definition is_dot (k : kernel) : bool := match k with P1L1 | P1L2 | P1L3 | P1L4 => true | _ => false end.

(** The weighted sum of the first [n] channels, rounded. *)
Definition luma (dot : Z * Z * Z * Z) (n : Z) (p : list Z * Z) : Z :=
  let '(d0, d1, d2, d3) := dot in
  let w i d := if i <? n then d * chan p i else 0 in
  (w 0 d0 + w 1 d1 + w 2 d2 + w 3 d3 + 127) / 256.

(** Cell [v * width + c] counts the pixels with the value [v] in channel [c]; the cell [v] of a dot
    product those whose weighted sum is [v]. *)
Definition counted (k : kernel) (dot : Z * Z * Z * Z) (ct : Z) (p : list Z * Z) : bool :=
  if is_dot k then luma dot (channels k) p =? ct
  else (ct mod width k <? channels k) && (chan p (ct mod width k) =? ct / width k).

Fixpoint occ (x : Z) (l : list Z) : Z := match l with [] => 0 | y :: l => (if y =? x then 1 else 0) + occ x l end.

(** The cells that a pixel increments. *)
Definition targets (k : kernel) (dot : Z * Z * Z * Z) (p : list Z * Z) : list Z :=
  match k with
  | P1U1 => [chan p 0]
  | P1U2 => [chan p 0 * 2; chan p 1 * 2 + 1]
  | P1U3 => [chan p 0 * 4; chan p 1 * 4 + 1; chan p 2 * 4 + 2]
  | P1U4 => [chan p 0 * 4; chan p 1 * 4 + 1; chan p 2 * 4 + 2; chan p 3 * 4 + 3]
  | _ => [luma dot (channels k) p]
  end.

(** Coefficients that keep the weighted sum a byte. *)
Definition weights (dot : Z * Z * Z * Z) : Prop := let '(d0, d1, d2, d3) := dot in 0 <= d0 /\ 0 <= d1 /\ 0 <= d2 /\ 0 <= d3 /\ d0 + d1 + d2 + d3 <= 256.

Lemma chan_byte p i : Forall byte p.1 -> 0 <= chan p i < 256.
Proof. intros H. by apply byte_at_byte. Qed.

Ltac chans p H := pose proof (chan_byte p 0 H); pose proof (chan_byte p 1 H); pose proof (chan_byte p 2 H); pose proof (chan_byte p 3 H).

Lemma luma_range dot n p : weights dot -> Forall byte p.1 -> 0 <= luma dot n p < 256.
Proof.
  destruct dot as [[[d0 d1] d2] d3]. intros (H0 & H1 & H2 & H3 & Hs) Hb. chans p Hb. unfold luma.
  assert (Hw : forall i d, 0 <= d -> 0 <= (if i <? n then d * chan p i else 0) <= d * 255) by (intros i d Hd; pose proof (chan_byte p i Hb); destruct (i <? n); nia).
  pose proof (Hw 0 d0 H0). pose proof (Hw 1 d1 H1). pose proof (Hw 2 d2 H2). pose proof (Hw 3 d3 H3). Z.to_euclidean_division_equations; lia.
Qed.

Lemma targets_range k dot p : weights dot -> Forall byte p.1 -> Forall (fun i => 0 <= i < 256 * width k) (targets k dot p).
Proof. intros Hd Hb. chans p Hb. destruct k; cbn [targets width]; repeat constructor; try lia; apply luma_range; done. Qed.

(** One pixel counts in a cell at most once, and exactly when the specification says so. *)
Lemma targets_counted k dot p ct : Forall byte p.1 -> 0 <= ct -> occ ct (targets k dot p) = if counted k dot ct p then 1 else 0.
Proof.
  intros Hb Hct. chans p Hb. assert (Hm : forall w, 0 < w -> ct = w * (ct / w) + ct mod w /\ 0 <= ct mod w < w) by (intros w Hw; split; [apply Z.div_mod; lia|apply Z.mod_pos_bound; lia]).
  destruct k; unfold counted; cbn [targets is_dot width channels occ]; try lia.
  - rewrite Z.mod_1_r, Z.div_1_r. cbn. lia.
  - destruct (Hm 2 ltac:(lia)) as [E R]. assert (Hc : ct mod 2 = 0 \/ ct mod 2 = 1) by lia. destruct Hc as [Hc|Hc]; rewrite Hc in *; cbn [Z.ltb Z.compare Pos.compare Pos.compare_cont andb]; repeat (match goal with |- context [?a =? ?b] => destruct (Z.eqb_spec a b) end); lia.
  - destruct (Hm 4 ltac:(lia)) as [E R]. assert (Hc : ct mod 4 = 0 \/ ct mod 4 = 1 \/ ct mod 4 = 2 \/ ct mod 4 = 3) by lia. destruct Hc as [Hc|[Hc|[Hc|Hc]]]; rewrite Hc in *; cbn [Z.ltb Z.compare Pos.compare Pos.compare_cont andb]; repeat (match goal with |- context [?a =? ?b] => destruct (Z.eqb_spec a b) end); lia.
  - destruct (Hm 4 ltac:(lia)) as [E R]. assert (Hc : ct mod 4 = 0 \/ ct mod 4 = 1 \/ ct mod 4 = 2 \/ ct mod 4 = 3) by lia. destruct Hc as [Hc|[Hc|[Hc|Hc]]]; rewrite Hc in *; cbn [Z.ltb Z.compare Pos.compare Pos.compare_cont andb]; repeat (match goal with |- context [?a =? ?b] => destruct (Z.eqb_spec a b) end); lia.
Qed.

(** ** The kernels increment these cells *)

Fixpoint bumps (l : list Z) (s : list Z) : outcome (list Z) := match l with [] => Ok s | i :: l => s ← bump 0 i s; bumps l s end.

Lemma bumps_app l l' s : bumps (l ++ l') s = (s ← bumps l s; bumps l' s).
Proof. revert s. induction l as [|i l IH]; intros s; cbn [app bumps]; [done|]. destruct (bump 0 i s); [apply IH|done]. Qed.

Lemma bump_base base i s : bump base i s = bump 0 (base + i) s.
Proof. unfold bump. by rewrite Z.add_0_l. Qed.

(** The pixel lies inside the input. *)
Definition inside (k : kernel) (p : list Z * Z) : Prop := Forall byte p.1 /\ 0 <= p.2 /\ p.2 + channels k <= zlen p.1.

Lemma int32_Ok v : - 2 ^ 31 <= v < 2 ^ 31 -> int32 v = Ok v.
Proof. intros H. unfold int32. by rewrite decide_True. Qed.

Definition slice (k : kernel) (lid : Z) (l : list Z) : list Z := Z.add (256 * width k * lid) <$> l.

Lemma znth_chan inp pos i : 0 <= pos + i < zlen inp -> znth inp (pos + i) = Ok (chan (inp, pos) i).
Proof. intros H. by apply znth_byte_at. Qed.

Lemma body_bumps k dot lid inp pos s : weights dot -> inside k (inp, pos) -> body k dot lid inp pos s = bumps (slice k lid (targets k dot (inp, pos))) s.
Proof.
  intros Hd (Hb & Hp & Hl). cbn [fst snd] in *. chans (inp, pos) Hb. unfold slice.
  assert (Hz : 0 < channels k -> znth inp pos = Ok (chan (inp, pos) 0)) by (intros; rewrite <- (Z.add_0_r pos) at 1; apply znth_chan; lia).
  destruct k; cbn [body targets fmap list_fmap bumps width channels] in *; unfold kernelP1U1, kernelP1U2, kernelP1U3, kernelP1U4, kernelP1L1, kernelP1L2, kernelP1L3, kernelP1L4; cbv zeta; rewrite Hz by lia.
  1-4: rewrite ?znth_chan by lia; cbn [mbind outcome_bind]; rewrite ?Z.shiftl_mul_pow2 by lia; change (2 ^ 2) with 4; change (2 ^ 1) with 2; rewrite ?Z.mul_1_r.
  1-4: repeat (match goal with |- context [bump ?b ?i ?s] => lazymatch b with 0 => fail | _ => rewrite (bump_base b i s) end end; destruct (bump 0 _ _); cbn [mbind outcome_bind]; [|done]); try done.
  all: destruct dot as [[[d0 d1] d2] d3]; destruct Hd as (H0' & H1' & H2' & H3' & Hs).
  all: rewrite ?znth_chan by lia; cbn [mbind outcome_bind].
  all: repeat (rewrite int32_Ok by nia; cbn [mbind outcome_bind]).
  all: rewrite bump_base; unfold luma; cbn [channels Z.ltb Z.compare Pos.compare Pos.compare_cont]; rewrite Z.shiftr_div_pow2 by lia; change (2 ^ 8) with 256; rewrite ?Z.add_0_r.
  all: change (256 * 1) with 256; by destruct (bump 0 _ _).
Qed.

(** The cells that a call and all calls increment, with their threads. *)
Definition call_targets (k : kernel) (dot : Z * Z * Z * Z) (c : call) : list Z := concat (targets k dot <$> pixels c).
Definition pairs (k : kernel) (dot : Z * Z * Z * Z) (calls : list call) : list (Z * Z) := concat ((fun c => pair (lid c) <$> call_targets k dot c) <$> calls).
Definition absolute (k : kernel) (P : list (Z * Z)) : list Z := (fun x => 256 * width k * x.1 + x.2) <$> P.
Definition all_pixels (calls : list call) : list (list Z * Z) := concat (pixels <$> calls).

Lemma each_bumps k dot lid inp instep n : weights dot -> forall pos s, (forall i, (i < n)%nat -> inside k (inp, pos + Z.of_nat i * instep)) ->
  each (body k dot lid inp) instep n pos s = bumps (slice k lid (concat (targets k dot <$> ((fun i => (inp, pos + Z.of_nat i * instep)) <$> seq 0 n)))) s.
Proof.
  intros Hd. induction n as [|n IH]; intros pos s Hi; [done|]. cbn [each seq]. rewrite !fmap_cons. cbn [concat]. unfold slice in *. rewrite fmap_app, bumps_app.
  replace (pos + Z.of_nat 0 * instep) with pos by lia. pose proof (Hi 0%nat ltac:(lia)) as H0. replace (pos + Z.of_nat 0 * instep) with pos in H0 by lia. rewrite (body_bumps k dot lid inp pos s) by done. unfold slice.
  destruct (bumps _ s) as [s'|f]; cbn [mbind outcome_bind]; [|done]. rewrite IH.
  - f_equal. f_equal. f_equal. f_equal. rewrite <- fmap_S_seq, <- list_fmap_compose. apply list_fmap_ext. intros i x _. cbn. f_equal. lia.
  - intros i Hlt. replace (pos + instep + Z.of_nat i * instep) with (pos + Z.of_nat (S i) * instep) by lia. apply Hi. lia.
Qed.

Lemma run_call_bumps k h c : mRootPtr h = Some k -> weights (mDotI h) -> Forall (inside k) (pixels c) ->
  run_call h c = (s ← bumps (slice k (lid c) (call_targets k (mDotI h) c)) (mSums h); Ok (set_mSums h s)).
Proof.
  intros Hk Hd Hp. unfold run_call. rewrite Hk. unfold pixels in Hp. rewrite Forall_fmap, Forall_forall in Hp.
  rewrite (each_bumps k); [done|done|]. intros i Hi. apply (Hp i), elem_of_seq. lia.
Qed.

Lemma fold_fault f calls : foldl (fun r c => h ← r; run_call h c) (Fault f) calls = Fault f.
Proof. induction calls as [|c calls IH]; [done|exact IH]. Qed.

Lemma run_calls_bumps k calls : forall h, mRootPtr h = Some k -> weights (mDotI h) -> Forall (inside k) (all_pixels calls) ->
  foldl (fun r c => h ← r; run_call h c) (Ok h) calls = (s ← bumps (absolute k (pairs k (mDotI h) calls)) (mSums h); Ok (set_mSums h s)).
Proof.
  induction calls as [|c calls IH]; intros h Hk Hd Hp; [by destruct h|]. unfold all_pixels in Hp. rewrite fmap_cons in Hp. cbn [concat] in Hp. apply Forall_app in Hp as [Hp1 Hp2].
  cbn [foldl]. change (Ok h ≫= fun h => run_call h c) with (run_call h c). rewrite (run_call_bumps k) by done. unfold pairs. rewrite fmap_cons. cbn [concat]. unfold absolute. rewrite fmap_app, bumps_app, <- list_fmap_compose. unfold slice, call_targets.
  change ((fun x : Z * Z => 256 * width k * x.1 + x.2) ∘ pair (lid c)) with (Z.add (256 * width k * lid c)).
  destruct (bumps (_ <$> concat _) (mSums h)) as [s|f]; cbn [mbind outcome_bind]; [|apply fold_fault]. by rewrite IH by done.
Qed.

(** ** Counting *)

Lemma tally_app x l l' : occ x (l ++ l') = occ x l + occ x l'.
Proof. induction l as [|y l IH]; cbn [app occ]; lia. Qed.

Lemma occ_nonneg x l : 0 <= occ x l.
Proof. induction l as [|y l IH]; cbn [occ]; [lia|]. destruct (y =? x); lia. Qed.

Lemma bumps_spec l : forall s, Forall (fun i => 0 <= i < zlen s) l -> (forall (j : nat) v, s !! j = Some v -> 0 < occ (Z.of_nat j) l -> v + occ (Z.of_nat j) l < 2 ^ 31) ->
  exists s', bumps l s = Ok s' /\ length s' = length s /\ forall j : nat, s' !! j = (fun v => v + occ (Z.of_nat j) l) <$> s !! j.
Proof.
  induction l as [|i l IH]; intros s Hr Hv; cbn [bumps occ] in *.
  { exists s. split_and!; [done..|]. intros j. destruct (s !! j); cbn; [f_equal; lia|done]. }
  inversion_clear Hr as [|? ? Hi Hr']. unfold zlen in *. destruct (lookup_lt_is_Some_2 s (Z.to_nat i)) as [v Ev]; [lia|]. pose proof (Hv _ _ Ev) as Hlt. rewrite Z2Nat.id, Z.eqb_refl in Hlt by lia. pose proof (occ_nonneg i l). specialize (Hlt ltac:(lia)).
  unfold bump. rewrite Z.add_0_l. pose proof (znth_lookup _ _ _ Ev) as Zi. pose proof (zset_Ok s (Z.to_nat i) (v + 1) ltac:(lia)) as Zs. rewrite Z2Nat.id in Zi, Zs by lia. rewrite Zi. cbn [mbind outcome_bind]. destruct (Z.eqb_spec v (2 ^ 31 - 1)) as [E|_]; [lia|]. rewrite Zs. cbn [mbind outcome_bind].
  destruct (IH (<[Z.to_nat i := v + 1]> s)) as (s' & -> & Hl & Hj).
  - rewrite length_insert. done.
  - intros j w Hw Hpos. destruct (decide (j = Z.to_nat i)) as [->|Hne].
    + rewrite list_lookup_insert_eq in Hw by lia. injection Hw as <-. rewrite Z2Nat.id by lia. lia.
    + rewrite list_lookup_insert_ne in Hw by congruence. specialize (Hv _ _ Hw). destruct (Z.eqb_spec i (Z.of_nat j)); [lia|]. apply Hv. lia.
  - exists s'. rewrite length_insert in Hl. split_and!; [done..|]. intros j. rewrite Hj. destruct (decide (j = Z.to_nat i)) as [->|Hne].
    + rewrite list_lookup_insert_eq, Ev by lia. rewrite Z2Nat.id, Z.eqb_refl by lia. cbn. f_equal. lia.
    + rewrite list_lookup_insert_ne by congruence. destruct (Z.eqb_spec i (Z.of_nat j)); [lia|]. done.
Qed.

Fixpoint zsum (f : Z -> Z) (t : Z) (n : nat) : Z := match n with O => 0 | S n => f t + zsum f (t + 1) n end.

Lemma zsum_add f g n : forall t, zsum (fun t => f t + g t) t n = zsum f t n + zsum g t n.
Proof. induction n as [|n IH]; intros t; cbn [zsum]; [done|rewrite IH; lia]. Qed.

Lemma zsum_zero n : forall t, zsum (fun _ => 0) t n = 0.
Proof. induction n as [|n IH]; intros t; cbn [zsum]; [done|rewrite IH; lia]. Qed.

Lemma zsum_one W l r ct n : 0 <= r < W -> 0 <= ct < W -> forall t, zsum (fun t => if W * l + r =? ct + W * t then 1 else 0) t n = if (r =? ct) && (t <=? l) && (l <? t + Z.of_nat n) then 1 else 0.
Proof.
  intros Hr Hc. induction n as [|n IH]; intros t; cbn [zsum].
  { rewrite Z.add_0_r. destruct (Z.leb_spec t l), (Z.ltb_spec l t); try lia; by rewrite ?andb_false_r. }
  rewrite IH. assert (E : (W * l + r =? ct + W * t) = (r =? ct) && (l =? t)).
  { destruct (Z.eqb_spec (W * l + r) (ct + W * t)) as [E|E], (Z.eqb_spec r ct) as [E1|E1], (Z.eqb_spec l t) as [E2|E2]; try done; exfalso; subst; try lia; nia. }
  rewrite E. destruct (Z.eqb_spec r ct), (Z.eqb_spec l t), (Z.leb_spec (t + 1) l), (Z.leb_spec t l), (Z.ltb_spec l (t + 1 + Z.of_nat n)), (Z.ltb_spec l (t + Z.of_nat (S n))); cbn [andb]; lia.
Qed.

(** Over all threads, the counters of a cell sum up to the increments of that cell. *)
Lemma zsum_occ k ct P T : 0 <= ct < 256 * width k -> Forall (fun x => 0 <= x.1 < T /\ 0 <= x.2 < 256 * width k) P ->
  zsum (fun t => occ (ct + 256 * width k * t) (absolute k P)) 0 (Z.to_nat T) = occ ct (P.*2).
Proof.
  intros Hc. induction P as [|[l r] P IH]; intros HP; [apply zsum_zero|]. inversion_clear HP as [|? ? [Hl Hr] HP']. cbn [fst snd] in *.
  unfold absolute. rewrite !fmap_cons. cbn [occ fst snd]. rewrite zsum_add. fold (absolute k P). rewrite IH by done. rewrite zsum_one by done.
  destruct (Z.leb_spec 0 l), (Z.ltb_spec l (0 + Z.of_nat (Z.to_nat T))); try lia. by rewrite !andb_true_r.
Qed.

Lemma occ_absolute_le k j P T : 0 <= j -> Forall (fun x => 0 <= x.1 < T /\ 0 <= x.2 < 256 * width k) P -> occ j (absolute k P) <= occ (j mod (256 * width k)) (P.*2).
Proof.
  intros Hj. induction P as [|[l r] P IH]; intros HP; [done|]. inversion_clear HP as [|? ? [Hl Hr] HP']. cbn [fst snd] in *. unfold absolute in *. rewrite !fmap_cons. cbn [occ fst snd]. specialize (IH HP').
  destruct (Z.eqb_spec (256 * width k * l + r) j) as [E|E]; [|destruct (r =? _); lia]. assert (Em : j mod (256 * width k) = r) by (symmetry; apply (Z.mod_unique _ _ l); lia). rewrite Em, Z.eqb_refl in *. lia.
Qed.

Lemma occ_pixels k dot ct ps : Forall (inside k) ps -> 0 <= ct -> occ ct (concat (targets k dot <$> ps)) = Z.of_nat (length (filter (fun p => counted k dot ct p = true) ps)).
Proof.
  intros Hps Hct. induction Hps as [|p ps Hp Hps IH]; [done|]. rewrite fmap_cons. cbn [concat]. rewrite tally_app, IH, targets_counted, filter_cons by (done || apply Hp).
  destruct (counted k dot ct p); [rewrite decide_True by done|rewrite decide_False by done]; cbn [length]; lia.
Qed.

Lemma pairs_snd k dot calls : (pairs k dot calls).*2 = concat (targets k dot <$> all_pixels calls).
Proof.
  unfold pairs, all_pixels. induction calls as [|c calls IH]; [done|]. rewrite !fmap_cons. cbn [concat]. rewrite !fmap_app, concat_app, IH. f_equal. unfold call_targets. rewrite <- list_fmap_compose. apply list_fmap_id.
Qed.

(** The calls stay on the threads of the context and inside their input. *)
Definition calls_ok (k : kernel) (T : Z) (calls : list call) : Prop := Forall (fun c => 0 <= lid c < T) calls /\ Forall (inside k) (all_pixels calls).

Lemma pairs_range k dot T calls : weights dot -> calls_ok k T calls -> Forall (fun x => 0 <= x.1 < T /\ 0 <= x.2 < 256 * width k) (pairs k dot calls).
Proof.
  intros Hd [Hl Hp]. unfold pairs, all_pixels in *. induction calls as [|c calls IH]; [done|]. rewrite fmap_cons in *. cbn [concat] in *. apply Forall_app in Hp as [Hp1 Hp2]. inversion_clear Hl as [|? ? Hc Hl']. apply Forall_app. split; [|auto].
  rewrite Forall_fmap. unfold call_targets. apply Forall_concat. rewrite Forall_fmap. apply (Forall_impl _ _ _ Hp1). intros p [Hb _]. apply (Forall_impl _ _ _ (targets_range k dot p Hd Hb)). done.
Qed.

(** ** The hooks *)

(** The kernel of a slot, for the vector sizes of the output and the input. *)
Definition chosen (k : kernel) (slot vOut vIn : Z) : Prop := (slot = 0 /\ is_dot k = false /\ channels k = vOut) \/ (slot = 1 /\ vOut = 1 /\ is_dot k = true /\ channels k = vIn).

Lemma preLaunch_spec k slot vOut vIn h : chosen k slot vOut vIn -> 0 <= threads h -> 256 * 4 * threads h <= zlen (mSums h) ->
  exists s, preLaunch slot vOut vIn h = Ok (mk (mDotI h) s (threads h) (Some k)) /\ length s = length (mSums h) /\ forall j : nat, Z.of_nat j < 256 * width k * threads h -> s !! j = Some 0.
Proof.
  intros Hc Ht Hs. assert (Hw : 1 <= width k <= 4) by (destruct k; cbn; lia).
  destruct (zwrite_Ok (mSums h) 0 (replicate (Z.to_nat (256 * threads h * width k)) 0)) as [s Es]; [lia|rewrite zlen_replicate by lia; nia|].
  exists s. split_and!.
  - destruct Hc as [(-> & Hk & <-)|(-> & -> & Hk & <-)]; destruct k; try done; unfold preLaunch; cbn [Z.eqb Pos.eqb channels width] in *; cbn [mSums threads set_mRootPtr]; rewrite Es; done.
  - pose proof (zwrite_length _ _ _ _ Es) as E. unfold zlen in E. lia.
  - intros j Hj. rewrite (zwrite_lookup_in _ _ _ _ j Es) by (rewrite zlen_replicate by lia; lia). apply lookup_replicate. split; [done|lia].
Qed.

Lemma sum_threads_spec s vs ct g n : forall t acc, 0 <= acc < 2 ^ 32 -> (forall i, t <= i < t + Z.of_nat n -> znth s (ct + 256 * vs * i) = Ok (g i)) ->
  sum_threads s vs ct t n acc = Ok (u32 (acc + zsum g t n)).
Proof.
  induction n as [|n IH]; intros t acc Ha Hg; cbn [sum_threads zsum]. { rewrite Z.add_0_r. unfold u32, wrap. by rewrite Z.mod_small. }
  rewrite Hg by lia. cbn [mbind outcome_bind]. rewrite IH; [|apply Z.mod_pos_bound; lia|intros i Hi; apply Hg; lia]. f_equal. unfold u32, wrap. rewrite Z.add_mod_idemp_l by lia. f_equal. lia.
Qed.

Lemma sum_cells_spec h vs tot n : forall ct o, 0 <= ct -> ct + Z.of_nat n <= zlen o -> 1 <= threads h ->
  (forall c, ct <= c < ct + Z.of_nat n -> exists g, (forall t, 0 <= t < threads h -> znth (mSums h) (c + 256 * vs * t) = Ok (g t)) /\ u32 (zsum g 0 (Z.to_nat (threads h))) = tot c) ->
  exists o', sum_cells h vs ct n o = Ok o' /\ length o' = length o /\ forall j : nat, o' !! j = if decide (ct <= Z.of_nat j < ct + Z.of_nat n) then Some (tot (Z.of_nat j)) else o !! j.
Proof.
  induction n as [|n IH]; intros ct o Hct Ho HT Hc; cbn [sum_cells]. { exists o. split_and!; [done..|]. intros j. by rewrite decide_False by lia. }
  destruct (Hc ct) as (g & Hg & Et); [lia|]. pose proof (Hg 0 ltac:(lia)) as H0. rewrite Z.mul_0_r, Z.add_0_r in H0. rewrite H0. cbn [mbind outcome_bind].
  rewrite (sum_threads_spec _ _ _ g) by (try (apply Z.mod_pos_bound; lia); intros i Hi; apply Hg; lia). cbn [mbind outcome_bind].
  assert (Es : u32 (u32 (g 0) + zsum g 1 (Z.to_nat (threads h - 1))) = tot ct). { rewrite <- Et. replace (Z.to_nat (threads h)) with (S (Z.to_nat (threads h - 1))) by lia. cbn [zsum]. unfold u32, wrap. by rewrite Z.add_mod_idemp_l by lia. }
  rewrite Es. unfold zlen in *. pose proof (zset_Ok o (Z.to_nat ct) (tot ct) ltac:(lia)) as Zs. rewrite Z2Nat.id in Zs by lia. rewrite Zs. cbn [mbind outcome_bind].
  destruct (IH (ct + 1) (<[Z.to_nat ct := tot ct]> o)) as (o' & -> & Hl & Hj); [lia|rewrite length_insert; lia|done|intros c Hcc; apply Hc; lia|].
  exists o'. rewrite length_insert in Hl. split_and!; [done..|]. intros j. rewrite Hj. destruct (decide (j = Z.to_nat ct)) as [->|Hne].
  - rewrite decide_False, decide_True, list_lookup_insert_eq by lia. do 2 f_equal. lia.
  - rewrite list_lookup_insert_ne by congruence. destruct (decide (ct + 1 <= Z.of_nat j < ct + 1 + Z.of_nat n)); [rewrite decide_True by lia|rewrite decide_False by lia]; done.
Qed.

Lemma occ_outside b j l : Forall (fun i => 0 <= i < b) l -> b <= j -> occ j l = 0.
Proof. intros Hl Hj. induction Hl as [|i l Hi Hl IH]; [done|]. cbn [occ]. destruct (Z.eqb_spec i j); lia. Qed.

(** The counters after the calls: each cell of each thread holds its increments. *)
Lemma counters k h calls : mRootPtr h = Some k -> weights (mDotI h) -> calls_ok k (threads h) calls -> zlen (all_pixels calls) < 2 ^ 31 ->
  256 * width k * threads h <= zlen (mSums h) -> (forall j : nat, Z.of_nat j < 256 * width k * threads h -> mSums h !! j = Some 0) ->
  exists s, foldl (fun r c => h ← r; run_call h c) (Ok h) calls = Ok (set_mSums h s) /\
    forall j, 0 <= j < 256 * width k * threads h -> znth s j = Ok (occ j (absolute k (pairs k (mDotI h) calls))).
Proof.
  intros Hk Hd [Hl Hp] Hn Hsize H0. pose proof (pairs_range k (mDotI h) (threads h) calls Hd (conj Hl Hp)) as HR. set (P := pairs k (mDotI h) calls) in *.
  assert (Hw : 1 <= width k) by (destruct k; cbn; lia). rewrite (run_calls_bumps k) by done. fold P.
  assert (Hocc : forall j, 0 <= j -> occ j (absolute k P) < 2 ^ 31).
  { intros j Hj. pose proof (occ_absolute_le k j P (threads h) Hj HR) as Hle. unfold P in Hle at 2. rewrite pairs_snd, occ_pixels in Hle by (done || apply Z.mod_pos_bound; lia). pose proof (length_filter (fun p => counted k (mDotI h) (j mod (256 * width k)) p = true) (all_pixels calls)). unfold zlen in Hn. lia. }
  assert (Habs : Forall (fun i => 0 <= i < 256 * width k * threads h) (absolute k P)) by (unfold absolute; rewrite Forall_fmap; apply (Forall_impl _ _ _ HR); intros [l r] [A B]; cbn [compose fst snd] in *; nia).
  destruct (bumps_spec (absolute k P) (mSums h)) as (s & -> & Hls & Hs).
  - apply (Forall_impl _ _ _ Habs). intros i Hi. lia.
  - intros j v Hv Hpos. destruct (decide (Z.of_nat j < 256 * width k * threads h)) as [Hj|Hj]; [rewrite H0 in Hv by done; injection Hv as <-; apply Hocc; lia|].
    exfalso. rewrite (occ_outside (256 * width k * threads h)) in Hpos by (done || lia). lia.
  - exists s. split; [done|]. intros j Hj. specialize (Hs (Z.to_nat j)). rewrite H0, Z2Nat.id in Hs by lia. pose proof (znth_lookup _ _ _ Hs) as Zj. by rewrite Z2Nat.id in Zj by lia.
Qed.

(** C16: A launch counts the pixels of all calls, on whichever threads they ran and in whichever order:
    cell [v * width + c] of the output is the number of pixels with value [v] in channel [c], or
    whose weighted sum is [v]; nothing is read or written outside of the counters of the thread. *)
Theorem histogram_counts k slot vOut vIn h calls o : chosen k slot vOut vIn -> weights (mDotI h) -> 1 <= threads h -> 256 * 4 * threads h <= zlen (mSums h) ->
  calls_ok k (threads h) calls -> zlen (all_pixels calls) < 2 ^ 31 -> 256 * width k <= zlen o ->
  exists h' o', launch slot vOut vIn calls h o = Ok (h', o') /\ length o' = length o /\
    forall j : nat, o' !! j = if decide (Z.of_nat j < 256 * width k) then Some (Z.of_nat (length (filter (fun p => counted k (mDotI h) (Z.of_nat j) p = true) (all_pixels calls)))) else o !! j.
Proof.
  intros Hc Hd HT Hs Hcalls Hn Ho. assert (Hw : 1 <= width k <= 4) by (destruct k; cbn; lia).
  destruct (preLaunch_spec k slot vOut vIn h Hc ltac:(lia) Hs) as (s0 & E0 & L0 & Z0). unfold launch. rewrite E0. cbn [mbind outcome_bind]. set (h0 := mk (mDotI h) s0 (threads h) (Some k)).
  destruct (counters k h0 calls eq_refl Hd Hcalls Hn) as (s & -> & Hj); [unfold zlen in *; cbn [mSums threads h0]; nia|exact Z0|]. cbn [mbind outcome_bind mDotI h0] in *.
  pose proof (pairs_range k (mDotI h) (threads h) calls Hd Hcalls) as HR. destruct Hcalls as [_ Hp].
  assert (Ev : (if vOut =? 3 then 4 else vOut) = width k) by (destruct Hc as [(_ & Hk & <-)|(_ & -> & Hk & _)]; by destruct k).
  set (tot := fun ct => Z.of_nat (length (filter (fun p => counted k (mDotI h) ct p = true) (all_pixels calls)))).
  destruct (sum_cells_spec (set_mSums h0 s) (width k) tot (Z.to_nat (256 * width k)) 0 o) as (o' & Eo & Lo & Hoj); [lia|lia|done| |].
  { intros c Hcc. exists (fun t => occ (c + 256 * width k * t) (absolute k (pairs k (mDotI h) calls))). split; [intros t Ht; apply Hj; cbn [threads set_mSums h0] in *; nia|].
    change (threads (set_mSums h0 s)) with (threads h). rewrite zsum_occ by (done || lia). rewrite pairs_snd, occ_pixels by (done || lia). fold (tot c). unfold u32, wrap. apply Z.mod_small. pose proof (length_filter (fun p => counted k (mDotI h) c p = true) (all_pixels calls)). unfold zlen in Hn. unfold tot. lia. }
  unfold postLaunch. rewrite Ev, Eo. cbn [mbind outcome_bind]. eexists _, o'. split_and!; [done|done|]. intros j. rewrite Hoj. destruct (decide (Z.of_nat j < 256 * width k)); [rewrite decide_True by lia|rewrite decide_False by lia]; done.
Qed.

(** Coefficients that are rounded up one by one may exceed 256 in total: white pixels then count in
    the next slice, or outside of the counters. *)
Lemma rounded_weights_overrun : exists dot, (let '(d0, d1, d2, d3) := dot in d0 + d1 + d2 + d3 = 258) /\
  kernelP1L4 dot 0 [255; 255; 255; 255] 0 (replicate 256 0) = Fault OutOfBounds.
Proof. exists (64, 64, 65, 65). split; [done|vm_compute; reflexivity]. Qed.

Lemma histogram_counts_witness : exists h' o', launch 1 1 4 [mkCall 1 [255; 255; 255; 0; 0; 0; 0; 9] 4 0 2; mkCall 0 [255; 255; 255; 7] 4 2 3] (mk (77, 150, 29, 0) (replicate 2048 5) 2 None) (replicate 256 9) = Ok (h', o') /\ length o' = 256%nat /\
    forall j : nat, o' !! j = if decide (Z.of_nat j < 256 * width P1L4) then Some (Z.of_nat (length (filter (fun p => counted P1L4 (77, 150, 29, 0) (Z.of_nat j) p = true) (all_pixels [mkCall 1 [255; 255; 255; 0; 0; 0; 0; 9] 4 0 2; mkCall 0 [255; 255; 255; 7] 4 2 3])))) else replicate 256 9 !! j.
Proof.
  apply (histogram_counts P1L4 1 1 4 (mk (77, 150, 29, 0) (replicate 2048 5) 2 None) [mkCall 1 [255; 255; 255; 0; 0; 0; 0; 9] 4 0 2; mkCall 0 [255; 255; 255; 7] 4 2 3] (replicate 256 9)).
  - right. done.
  - cbn. lia.
  - cbn. lia.
  - vm_compute. congruence.
  - split; repeat constructor; vm_compute; congruence.
  - vm_compute. reflexivity.
  - vm_compute. congruence.
Defined.

End Histogram.
