(* ===== verification/InterPred.v ===== *)
(** * InterPred: inter prediction of VP9

    [convolve/convolve.c] with [convolve/vp9_common.h], and [rsCpuIntrinsicInterPred.cpp] with its
    header: the eight-tap filters in one and two dimensions, their averaging variants, the table of
    functions and the kernel that predicts the blocks of a frame. Source and destination lie in the
    same frame buffer; the temporary buffers of a call are regions of their own. *)

From S2P Require Import Prelude.

Module InterPred.

(** ** Memory *)

(** The frame, and the two temporary arrays: [temp] of [convolve] and of [vp9_convolve8_avg_c]. *)
Inductive region := Frame | Temp | TempAvg.
#[global] Instance region_eq_dec : EqDecision region.
Proof. solve_decision. Defined.

Definition mem : Type := region -> list Z.
Definition ptr : Type := region * Z.
Definition rd (m : mem) (p : ptr) : outcome Z := znth (m p.1) p.2.
Definition wr (m : mem) (p : ptr) (v : Z) : outcome mem := l ← zset (m p.1) p.2 v; Ok (fun r => if decide (r = p.1) then l else m r).
Definition padd (p : ptr) (o : Z) : ptr := (p.1, p.2 + o).

(** [for] loops over a counter. *)
Fixpoint for_each {A} (l : list A) (body : A -> mem -> outcome mem) (m : mem) : outcome mem :=
  match l with [] => Ok m | a :: l => m ← body a m; for_each l body m end.
Definition below (n : Z) : list Z := Z.of_nat <$> seq 0 (Z.to_nat n).

(** ** Filters *)

Definition inter_pred_filters : list Z :=
  [0; 0; 0; 128; 0; 0; 0; 0; 0; 1; -5; 126; 8; -3; 1; 0; -1; 3; -10; 122; 18; -6; 2; 0; -1; 4; -13; 118; 27; -9; 3; -1;
   -1; 4; -16; 112; 37; -11; 4; -1; -1; 5; -18; 105; 48; -14; 4; -1; -1; 5; -19; 97; 58; -16; 5; -1; -1; 6; -19; 88; 68; -18; 5; -1;
   -1; 6; -19; 78; 78; -19; 6; -1; -1; 5; -18; 68; 88; -19; 6; -1; -1; 5; -16; 58; 97; -19; 5; -1; -1; 4; -14; 48; 105; -18; 5; -1;
   -1; 4; -11; 37; 112; -16; 4; -1; -1; 3; -9; 27; 118; -13; 4; -1; 0; 2; -6; 18; 122; -10; 3; -1; 0; 1; -3; 8; 126; -5; 1; 0;
   0; 0; 0; 128; 0; 0; 0; 0; -3; -1; 32; 64; 38; 1; -3; 0; -2; -2; 29; 63; 41; 2; -3; 0; -2; -2; 26; 63; 43; 4; -4; 0;
   -2; -3; 24; 62; 46; 5; -4; 0; -2; -3; 21; 60; 49; 7; -4; 0; -1; -4; 18; 59; 51; 9; -4; 0; -1; -4; 16; 57; 53; 12; -4; -1;
   -1; -4; 14; 55; 55; 14; -4; -1; -1; -4; 12; 53; 57; 16; -4; -1; 0; -4; 9; 51; 59; 18; -4; -1; 0; -4; 7; 49; 60; 21; -3; -2;
   0; -4; 5; 46; 62; 24; -3; -2; 0; -4; 4; 43; 63; 26; -2; -2; 0; -3; 2; 41; 63; 29; -2; -2; 0; -3; 1; 38; 64; 32; -1; -3;
   0; 0; 0; 128; 0; 0; 0; 0; -1; 3; -7; 127; 8; -3; 1; 0; -2; 5; -13; 125; 17; -6; 3; -1; -3; 7; -17; 121; 27; -10; 5; -2;
   -4; 9; -20; 115; 37; -13; 6; -2; -4; 10; -23; 108; 48; -16; 8; -3; -4; 10; -24; 100; 59; -19; 9; -3; -4; 11; -24; 90; 70; -21; 10; -4;
   -4; 11; -23; 80; 80; -23; 11; -4; -4; 10; -21; 70; 90; -24; 11; -4; -3; 9; -19; 59; 100; -24; 10; -4; -3; 8; -16; 48; 108; -23; 10; -4;
   -2; 6; -13; 37; 115; -20; 9; -4; -2; 5; -10; 27; 121; -17; 7; -3; -1; 3; -6; 17; 125; -13; 5; -2; 0; 1; -3; 8; 127; -7; 3; -1;
   0; 0; 0; 128; 0; 0; 0; 0; 0; 0; 0; 120; 8; 0; 0; 0; 0; 0; 0; 112; 16; 0; 0; 0; 0; 0; 0; 104; 24; 0; 0; 0;
   0; 0; 0; 96; 32; 0; 0; 0; 0; 0; 0; 88; 40; 0; 0; 0; 0; 0; 0; 80; 48; 0; 0; 0; 0; 0; 0; 72; 56; 0; 0; 0;
   0; 0; 0; 64; 64; 0; 0; 0; 0; 0; 0; 56; 72; 0; 0; 0; 0; 0; 0; 48; 80; 0; 0; 0; 0; 0; 0; 40; 88; 0; 0; 0;
   0; 0; 0; 32; 96; 0; 0; 0; 0; 0; 0; 24; 104; 0; 0; 0; 0; 0; 0; 16; 112; 0; 0; 0; 0; 0; 0; 8; 120; 0; 0; 0].

Definition clip_pixel (val : Z) : Z := if val >? 255 then 255 else if val <? 0 then 0 else val.
Definition ROUND_POWER_OF_TWO (value n : Z) : Z := Z.shiftr (value + Z.shiftl 1 (n - 1)) n.

(** [sum += src_x[k] * x_filter[k]] for [k < SUBPEL_TAPS]. *)
Fixpoint taps (px fl : Z -> outcome Z) (k : Z) (n : nat) (sum : Z) : outcome Z :=
  match n with
  | O => Ok sum
  | S n => p ← px k; f ← fl k; taps px fl (k + 1) n (sum + p * f)
  end.

(** Kernel [i] of the filters at [f], which point into the table. *)
Definition tap (f i k : Z) : outcome Z := znth inter_pred_filters (f + 8 * i + k).

Definition filtered (px : Z -> outcome Z) (f q4 : Z) : outcome Z :=
  sum ← taps px (tap f (Z.land q4 15)) 0 8 0; Ok (clip_pixel (ROUND_POWER_OF_TWO sum 7)).

Definition average (m : mem) (d : ptr) (v : Z) : outcome Z := o ← rd m d; Ok (ROUND_POWER_OF_TWO (o + v) 1).

(** [x_q4] is [x0_q4 + x * x_step_q4]: it grows by [x_step_q4] with each [x]. *)
Definition convolve_horiz (src : ptr) (src_stride : Z) (dst : ptr) (dst_stride f x0_q4 x_step_q4 w h : Z) : mem -> outcome mem :=
  let src := padd src (-3) in
  for_each (below h) (fun y => for_each (below w) (fun x m =>
    let x_q4 := x0_q4 + x * x_step_q4 in
    v ← filtered (fun k => rd m (padd src (y * src_stride + Z.shiftr x_q4 4 + k))) f x_q4;
    wr m (padd dst (y * dst_stride + x)) v)).

Definition convolve_avg_horiz (src : ptr) (src_stride : Z) (dst : ptr) (dst_stride f x0_q4 x_step_q4 w h : Z) : mem -> outcome mem :=
  let src := padd src (-3) in
  for_each (below h) (fun y => for_each (below w) (fun x m =>
    let x_q4 := x0_q4 + x * x_step_q4 in
    v ← filtered (fun k => rd m (padd src (y * src_stride + Z.shiftr x_q4 4 + k))) f x_q4;
    v ← average m (padd dst (y * dst_stride + x)) v;
    wr m (padd dst (y * dst_stride + x)) v)).

Definition convolve_vert (src : ptr) (src_stride : Z) (dst : ptr) (dst_stride f y0_q4 y_step_q4 w h : Z) : mem -> outcome mem :=
  let src := padd src (- (src_stride * 3)) in
  for_each (below w) (fun x => for_each (below h) (fun y m =>
    let y_q4 := y0_q4 + y * y_step_q4 in
    v ← filtered (fun k => rd m (padd src (x + Z.shiftr y_q4 4 * src_stride + k * src_stride))) f y_q4;
    wr m (padd dst (y * dst_stride + x)) v)).

Definition convolve_avg_vert (src : ptr) (src_stride : Z) (dst : ptr) (dst_stride f y0_q4 y_step_q4 w h : Z) : mem -> outcome mem :=
  let src := padd src (- (src_stride * 3)) in
  for_each (below w) (fun x => for_each (below h) (fun y m =>
    let y_q4 := y0_q4 + y * y_step_q4 in
    v ← filtered (fun k => rd m (padd src (x + Z.shiftr y_q4 4 * src_stride + k * src_stride))) f y_q4;
    v ← average m (padd dst (y * dst_stride + x)) v;
    wr m (padd dst (y * dst_stride + x)) v)).

Definition intermediate_height (y_step_q4 h : Z) : Z :=
  let ih := Z.shiftr ((h - 1) * y_step_q4 + 15) 4 + 8 in if ih <? h then h else ih.

Definition convolve (src : ptr) (src_stride : Z) (dst : ptr) (dst_stride fx x0_q4 x_step_q4 fy y0_q4 y_step_q4 w h : Z) (m : mem) : outcome mem :=
  m ← convolve_horiz (padd src (- (src_stride * 3))) src_stride (Temp, 0) 64 fx x0_q4 x_step_q4 w (intermediate_height y_step_q4 h) m;
  convolve_vert (Temp, 64 * 3) 64 dst dst_stride fy y0_q4 y_step_q4 w h m.

(** The filters themselves are the base, and the offset is 0. *)
Definition get_filter_base (filter : Z) : Z := filter.
Definition get_filter_offset (f base : Z) : Z := 0.

(** ** The functions of the table *)

(** [convolve_fn_t]. *)
Definition convolve_fn_t : Type := ptr -> Z -> ptr -> Z -> Z -> Z -> Z -> Z -> Z -> Z -> mem -> outcome mem.

Definition vp9_convolve8_horiz_c : convolve_fn_t := fun src ss dst ds fx xs fy ys w h =>
  convolve_horiz src ss dst ds (get_filter_base fx) (get_filter_offset fx (get_filter_base fx)) xs w h.
Definition vp9_convolve8_avg_horiz_c : convolve_fn_t := fun src ss dst ds fx xs fy ys w h =>
  convolve_avg_horiz src ss dst ds (get_filter_base fx) (get_filter_offset fx (get_filter_base fx)) xs w h.
Definition vp9_convolve8_vert_c : convolve_fn_t := fun src ss dst ds fx xs fy ys w h =>
  convolve_vert src ss dst ds (get_filter_base fy) (get_filter_offset fy (get_filter_base fy)) ys w h.
Definition vp9_convolve8_avg_vert_c : convolve_fn_t := fun src ss dst ds fx xs fy ys w h =>
  convolve_avg_vert src ss dst ds (get_filter_base fy) (get_filter_offset fy (get_filter_base fy)) ys w h.
Definition vp9_convolve8_c : convolve_fn_t := fun src ss dst ds fx xs fy ys w h =>
  convolve src ss dst ds (get_filter_base fx) (get_filter_offset fx (get_filter_base fx)) xs (get_filter_base fy) (get_filter_offset fy (get_filter_base fy)) ys w h.

Definition vp9_convolve_avg_c : convolve_fn_t := fun src ss dst ds _ _ _ _ w h =>
  for_each (below h) (fun y => for_each (below w) (fun x m =>
    v ← rd m (padd src (y * ss + x)); v ← average m (padd dst (y * ds + x)) v; wr m (padd dst (y * ds + x)) v)).

Definition vp9_convolve8_avg_c : convolve_fn_t := fun src ss dst ds fx xs fy ys w h m =>
  m ← vp9_convolve8_c src ss (TempAvg, 0) 64 fx xs fy ys w h m;
  vp9_convolve_avg_c (TempAvg, 0) 64 dst ds 0 0 0 0 w h m.

(** [memcpy] of [n] bytes. *)
Definition memcpy (dst src : ptr) (n : Z) (m : mem) : outcome mem :=
  if bool_decide (dst.1 = src.1) && (Z.abs (dst.2 - src.2) <? n) then Fault Overlap
  else for_each (below n) (fun x m => v ← rd m (padd src x); wr m (padd dst x) v) m.

Definition vp9_convolve_copy_c : convolve_fn_t := fun src ss dst ds _ _ _ _ w h =>
  for_each (below h) (fun y => memcpy (padd dst (y * ds)) (padd src (y * ss)) w).

(** [mSwitchConvolve] of the portable build. *)
Definition mSwitchConvolve : list convolve_fn_t :=
  [vp9_convolve_copy_c; vp9_convolve_avg_c; vp9_convolve8_vert_c; vp9_convolve8_avg_vert_c; vp9_convolve8_horiz_c; vp9_convolve8_avg_horiz_c; vp9_convolve8_c; vp9_convolve8_avg_c;
   vp9_convolve8_vert_c; vp9_convolve8_avg_vert_c; vp9_convolve8_vert_c; vp9_convolve8_avg_vert_c; vp9_convolve8_c; vp9_convolve8_avg_c; vp9_convolve8_c; vp9_convolve8_avg_c;
   vp9_convolve8_horiz_c; vp9_convolve8_avg_horiz_c; vp9_convolve8_c; vp9_convolve8_avg_c; vp9_convolve8_horiz_c; vp9_convolve8_avg_horiz_c; vp9_convolve8_c; vp9_convolve8_avg_c;
   vp9_convolve8_c; vp9_convolve8_avg_c; vp9_convolve8_c; vp9_convolve8_avg_c; vp9_convolve8_c; vp9_convolve8_avg_c; vp9_convolve8_c; vp9_convolve8_avg_c].

(** ** The kernel *)

Record INTER_PRED_PARAM := mkParam { pred_mode : Z; src_mv : Z; src_stride : Z; dst_mv : Z; dst_stride : Z; filter_x_mv : Z; x_step_q4 : Z; filter_y_mv : Z; y_step_q4 : Z; w : Z; h : Z }.

(** [vp9_convolve_mode[x_step_q4 == 16][y_step_q4 == 16]]. *)
Definition mode_num (p : INTER_PRED_PARAM) : Z :=
  match x_step_q4 p =? 16, y_step_q4 p =? 16 with false, false => 24 | false, true => 16 | true, false => 8 | true, true => 0 end.

(** One block; [second] is 1 for the second prediction of a compound one. *)
Definition predict (second : Z) (p : INTER_PRED_PARAM) (m : mem) : outcome mem :=
  fn ← znth mSwitchConvolve (pred_mode p + mode_num p + second);
  fn (Frame, src_mv p) (src_stride p) (Frame, dst_mv p) (dst_stride p) (filter_x_mv p) (x_step_q4 p) (filter_y_mv p) (y_step_q4 p) (w p) (h p) m.

Definition kernel (fri sec : list INTER_PRED_PARAM) (m : mem) : outcome mem :=
  m ← for_each fri (predict 0) m; for_each sec (predict 1) m.

(** ** Cells of memory *)

Definition peek (m : mem) (p : ptr) : option Z := if decide (0 <= p.2) then m p.1 !! Z.to_nat p.2 else None.

Lemma rd_peek m p v : peek m p = Some v -> rd m p = Ok v.
Proof.
  unfold peek, rd. destruct (decide (0 <= p.2)); [|done]. intros E. pose proof (znth_lookup _ _ _ E) as Z1. by rewrite Z2Nat.id in Z1 by done.
Qed.

Lemma wr_peek m p v : is_Some (peek m p) -> exists m', wr m p v = Ok m' /\ forall q, peek m' q = if decide (q = p) then Some v else peek m q.
Proof.
  unfold peek, wr. destruct p as [r o]. cbn [fst snd]. intros [x E]. destruct (decide (0 <= o)) as [Ho|]; [|done]. pose proof (lookup_lt_Some _ _ _ E) as Hlt.
  pose proof (zset_Ok (m r) (Z.to_nat o) v Hlt) as Zs. rewrite Z2Nat.id in Zs by done. rewrite Zs. cbn [mbind outcome_bind]. eexists. split; [done|]. intros [r' o']. cbn [fst snd].
  destruct (decide (0 <= o')) as [Ho'|Ho']; [|rewrite decide_False by (intros [= -> ->]; done); done]. destruct (decide (r' = r)) as [->|]; [|rewrite decide_False by congruence; done].
  destruct (decide (o' = o)) as [->|]; [rewrite decide_True by done; by apply list_lookup_insert_eq|]. rewrite decide_False by congruence. apply list_lookup_insert_ne. lia.
Qed.

Lemma for_each_app {A} (l l' : list A) body m : for_each (l ++ l') body m = (m ← for_each l body m; for_each l' body m).
Proof. revert m. induction l as [|a l IH]; intros m; cbn [app for_each]; [done|]. destruct (body a m); [apply IH|done]. Qed.

Lemma for_each_ext {A} (l : list A) body body' m : (forall a m, body a m = body' a m) -> for_each l body m = for_each l body' m.
Proof. intros H. revert m. induction l as [|a l IH]; intros m; cbn [for_each]; [done|]. rewrite H. destruct (body' a m); [apply IH|done]. Qed.

Lemma for_each_rows {A} (l : list A) body body' m : (forall a m, a ∈ l -> body a m = body' a m) -> for_each l body m = for_each l body' m.
Proof.
  revert m. induction l as [|a l IH]; intros m H; cbn [for_each]; [done|]. rewrite H by (apply elem_of_cons; by left). destruct (body' a m); [|done]. cbn [mbind outcome_bind]. apply IH. intros b m' Hb. apply H, elem_of_cons. by right.
Qed.

Lemma for_each_fmap {A B} (f : A -> B) l body m : for_each (f <$> l) body m = for_each l (fun a => body (f a)) m.
Proof. revert m. induction l as [|a l IH]; intros m; [done|]. rewrite fmap_cons. cbn [for_each]. destruct (body (f a) m); [apply IH|done]. Qed.

(** The cells of a block in the order of two nested loops. *)
Definition grid (n1 n2 : Z) : list (Z * Z) := concat ((fun a => pair a <$> below n2) <$> below n1).

Lemma for_each_nested {A B} (l1 : list A) (l2 : list B) body m : for_each l1 (fun a => for_each l2 (body a)) m = for_each (concat ((fun a => pair a <$> l2) <$> l1)) (fun x => body x.1 x.2) m.
Proof.
  revert m. induction l1 as [|a l1 IH]; intros m; [done|]. rewrite fmap_cons. cbn [concat for_each]. rewrite for_each_app, for_each_fmap. cbn [fst snd]. destruct (for_each l2 (body a) m); [apply IH|done].
Qed.

Lemma elem_of_below n x : x ∈ below n <-> 0 <= x < n.
Proof. unfold below. rewrite list_elem_of_fmap. split; [intros (i & -> & H); apply elem_of_seq in H; lia|]. intros H. exists (Z.to_nat x). split; [lia|]. apply elem_of_seq. lia. Qed.

Lemma in_concat_iff {A} (x : A) ls : x ∈ concat ls <-> exists l, x ∈ l /\ l ∈ ls.
Proof.
  induction ls as [|l ls IH]; cbn [concat]; [split; [intros H; by apply elem_of_nil in H|intros (l & _ & H); by apply elem_of_nil in H]|]. rewrite elem_of_app, IH. split.
  - intros [H|(l' & H1 & H2)]; [exists l|exists l']; (split; [done|]); apply elem_of_cons; auto.
  - intros (l' & H1 & H2). apply elem_of_cons in H2 as [->|H2]; eauto.
Qed.

Lemma elem_of_grid n1 n2 a b : (a, b) ∈ grid n1 n2 <-> 0 <= a < n1 /\ 0 <= b < n2.
Proof.
  unfold grid. rewrite <- !elem_of_below. rewrite in_concat_iff. split.
  - intros (l & H1 & H2). apply list_elem_of_fmap in H2 as (a' & -> & H2). apply list_elem_of_fmap in H1 as (b' & [= -> ->] & H1). done.
  - intros [H1 H2]. exists (pair a <$> below n2). split; [apply list_elem_of_fmap; eauto|]. apply list_elem_of_fmap. eauto.
Qed.

Lemma NoDup_below n : NoDup (below n).
Proof. unfold below. apply NoDup_fmap_2; [apply _|apply NoDup_seq]. Qed.

Lemma NoDup_grid n1 n2 : NoDup (grid n1 n2).
Proof.
  unfold grid. pose proof (NoDup_below n1) as H. induction H as [|a l Ha Hl IH]; [constructor|]. rewrite fmap_cons. cbn [concat]. apply NoDup_app. split_and!; [apply NoDup_fmap_2; [intros ? ? [=]; done|apply NoDup_below]| |done].
  intros x H1 H2. apply list_elem_of_fmap in H1 as (b & -> & _). apply in_concat_iff in H2 as (l' & H2 & H3). apply list_elem_of_fmap in H3 as (a' & -> & H3). apply list_elem_of_fmap in H2 as (b' & [= <- _] & _). done.
Qed.

Section cells.
Context {A : Type} (d : A -> ptr) (val : A -> mem -> outcome Z) (v : A -> Z) (all : list A) (m0 : mem).
Hypothesis Hinj : forall a b, a ∈ all -> b ∈ all -> d a = d b -> a = b.
Hypothesis Hroom : forall a, a ∈ all -> is_Some (peek m0 (d a)).
(** The value of a cell does not depend on the other cells. *)
Hypothesis Hval : forall a m, a ∈ all -> (forall q, (forall b, b ∈ all -> q = d b -> b = a) -> peek m q = peek m0 q) -> val a m = Ok (v a).

Lemma cells_from_state l : forall m, NoDup l -> (forall a, a ∈ l -> a ∈ all) -> (forall q, (forall b, b ∈ all -> q = d b -> b ∈ l) -> peek m q = peek m0 q) ->
  (forall b, b ∈ all -> b ∉ l -> peek m (d b) = Some (v b)) ->
  exists m', for_each l (fun a m => x ← val a m; wr m (d a) x) m = Ok m' /\ (forall b, b ∈ all -> peek m' (d b) = Some (v b)) /\ (forall q, (forall b, b ∈ all -> q <> d b) -> peek m' q = peek m0 q).
Proof.
  induction l as [|a l IH]; intros m Hnd Hsub Hsame Hdone; cbn [for_each].
  { exists m. split_and!; [done|intros b Hb; apply Hdone; [done|apply not_elem_of_nil]|]. intros q Hq. apply Hsame. intros b Hb E. by destruct (Hq b). }
  apply NoDup_cons in Hnd as [Ha Hnd]. assert (Haa : a ∈ all) by (apply Hsub, elem_of_cons; by left).
  rewrite (Hval a m Haa). 2: { intros q Hq. apply Hsame. intros b Hb E. rewrite (Hq b Hb E). apply elem_of_cons. by left. }
  cbn [mbind outcome_bind]. destruct (wr_peek m (d a) (v a)) as (m1 & -> & Hm1). { rewrite Hsame; [by apply Hroom|]. intros b Hb E. rewrite (Hinj a b) by done. apply elem_of_cons. by left. }
  cbn [mbind outcome_bind]. apply IH; [done|intros b Hb; apply Hsub, elem_of_cons; by right| |].
  - intros q Hq. rewrite Hm1. destruct (decide (q = d a)) as [->|Hne]; [by destruct (Ha (Hq a Haa eq_refl))|]. apply Hsame. intros b Hb E. apply elem_of_cons. right. by apply Hq.
  - intros b Hb Hnb. rewrite Hm1. destruct (decide (d b = d a)) as [E|Hne]; [by rewrite (Hinj b a) by done|]. apply Hdone; [done|]. apply not_elem_of_cons. split; [congruence|done].
Qed.

Lemma cells_run : NoDup all -> exists m', for_each all (fun a m => x ← val a m; wr m (d a) x) m0 = Ok m' /\ (forall b, b ∈ all -> peek m' (d b) = Some (v b)) /\ (forall q, (forall b, b ∈ all -> q <> d b) -> peek m' q = peek m0 q).
Proof. intros Hnd. apply cells_from_state; [done|done|done|]. intros b Hb Hn. done. Qed.

End cells.

(** ** Blocks *)

(** [m'] is [m] with the block at [dst] set to [V]. *)
Definition block_set (m m' : mem) (dst : ptr) (ds w h : Z) (V : Z -> Z -> Z) : Prop :=
  (forall x y, 0 <= x < w -> 0 <= y < h -> peek m' (padd dst (y * ds + x)) = Some (V x y)) /\
  (forall q, (forall x y, 0 <= x < w -> 0 <= y < h -> q <> padd dst (y * ds + x)) -> peek m' q = peek m q).

Lemma block_set_ext m m' dst ds w h V V' : (forall x y, 0 <= x < w -> 0 <= y < h -> V x y = V' x y) -> block_set m m' dst ds w h V -> block_set m m' dst ds w h V'.
Proof. intros E [H1 H2]. split; [|done]. intros x y Hx Hy. rewrite <- E by done. by apply H1. Qed.

Lemma padd_inj dst ds w x y x' y' : 0 <= x < w -> 0 <= x' < w -> w <= ds -> padd dst (y * ds + x) = padd dst (y' * ds + x') -> x = x' /\ y = y'.
Proof. intros Hx Hx' Hw E. unfold padd in E. injection E as E. assert (y = y') by nia. split; [|done]. subst. lia. Qed.

Section block.
Context (dst : ptr) (ds w h : Z) (m : mem) (V : Z -> Z -> Z) (val : Z -> Z -> mem -> outcome Z).
Hypothesis Hw : w <= ds.
Hypothesis Hroom : forall x y, 0 <= x < w -> 0 <= y < h -> is_Some (peek m (padd dst (y * ds + x))).
Hypothesis Hval : forall x y m', 0 <= x < w -> 0 <= y < h ->
  (forall q, (forall x' y', 0 <= x' < w -> 0 <= y' < h -> q = padd dst (y' * ds + x') -> x' = x /\ y' = y) -> peek m' q = peek m q) -> val x y m' = Ok (V x y).

Lemma rows_run : exists m', for_each (below h) (fun y => for_each (below w) (fun x m => v ← val x y m; wr m (padd dst (y * ds + x)) v)) m = Ok m' /\ block_set m m' dst ds w h V.
Proof.
  rewrite for_each_nested. fold (grid h w).
  destruct (cells_run (fun a : Z * Z => padd dst (a.1 * ds + a.2)) (fun a m => val a.2 a.1 m) (fun a => V a.2 a.1) (grid h w) m) as (m' & E & H1 & H2).
  - intros [y x] [y' x'] H H' E. apply elem_of_grid in H as [Hy Hx], H' as [Hy' Hx']. cbn [fst snd] in E. by destruct (padd_inj dst ds w x y x' y' Hx Hx' Hw E) as [-> ->].
  - intros [y x] H. apply elem_of_grid in H as [Hy Hx]. by apply Hroom.
  - intros [y x] m' H Hq. apply elem_of_grid in H as [Hy Hx]. apply Hval; [done..|]. intros q Hq'. apply Hq. intros [y' x'] Hb Eq. apply elem_of_grid in Hb as [Hy' Hx']. by destruct (Hq' x' y' Hx' Hy' Eq) as [-> ->].
  - apply NoDup_grid.
  - exists m'. split; [exact E|]. split; [intros x y Hx Hy; apply (H1 (y, x)), elem_of_grid; done|]. intros q Hq. apply H2. intros [y x] Hb. apply elem_of_grid in Hb as [Hy Hx]. by apply Hq.
Qed.

Lemma cols_run : exists m', for_each (below w) (fun x => for_each (below h) (fun y m => v ← val x y m; wr m (padd dst (y * ds + x)) v)) m = Ok m' /\ block_set m m' dst ds w h V.
Proof.
  rewrite for_each_nested. fold (grid w h).
  destruct (cells_run (fun a : Z * Z => padd dst (a.2 * ds + a.1)) (fun a m => val a.1 a.2 m) (fun a => V a.1 a.2) (grid w h) m) as (m' & E & H1 & H2).
  - intros [x y] [x' y'] H H' E. apply elem_of_grid in H as [Hx Hy], H' as [Hx' Hy']. cbn [fst snd] in E. by destruct (padd_inj dst ds w x y x' y' Hx Hx' Hw E) as [-> ->].
  - intros [x y] H. apply elem_of_grid in H as [Hx Hy]. by apply Hroom.
  - intros [x y] m' H Hq. apply elem_of_grid in H as [Hx Hy]. apply Hval; [done..|]. intros q Hq'. apply Hq. intros [x' y'] Hb Eq. apply elem_of_grid in Hb as [Hx' Hy']. by destruct (Hq' x' y' Hx' Hy' Eq) as [-> ->].
  - apply NoDup_grid.
  - exists m'. split; [exact E|]. split; [intros x y Hx Hy; apply (H1 (x, y)), elem_of_grid; done|]. intros q Hq. apply H2. intros [x y] Hb. apply elem_of_grid in Hb as [Hx Hy]. by apply Hq.
Qed.

End block.

(** ** The filter *)

Definition coef (f i k : Z) : Z := default 0 (inter_pred_filters !! Z.to_nat (f + 8 * i + k)).

Fixpoint isum (g : Z -> Z) (k : Z) (n : nat) : Z := match n with O => 0 | S n => g k + isum g (k + 1) n end.

(** Eight taps around a position: [g 0] is the value there. *)
Definition fir (f i : Z) (g : Z -> Z) : Z := clip_pixel ((isum (fun k => g (k - 3) * coef f i k) 0 8 + 64) / 128).

Lemma taps_sum px fl a b n : forall k sum, (forall i, k <= i < k + Z.of_nat n -> px i = Ok (a i) /\ fl i = Ok (b i)) -> taps px fl k n sum = Ok (sum + isum (fun i => a i * b i) k n).
Proof.
  induction n as [|n IH]; intros k sum H; cbn [taps isum]; [f_equal; lia|]. destruct (H k ltac:(lia)) as [-> ->]. cbn [mbind outcome_bind]. rewrite IH by (intros i Hi; apply H; lia). f_equal. lia.
Qed.

Lemma filtered_spec px f q4 g : 0 <= f -> f + 8 * (q4 mod 16) + 7 < 512 -> (forall k, 0 <= k < 8 -> px k = Ok (g (k - 3))) -> filtered px f q4 = Ok (fir f (q4 mod 16) g).
Proof.
  intros Hf Hr Hp. unfold filtered. assert (E15 : Z.land q4 15 = q4 mod 16) by (change 15 with (Z.ones 4); by rewrite Z.land_ones by lia). rewrite E15. pose proof (Z.mod_pos_bound q4 16 ltac:(lia)).
  rewrite (taps_sum px _ (fun k => g (k - 3)) (coef f (q4 mod 16))).
  - cbn [mbind outcome_bind]. unfold ROUND_POWER_OF_TWO. rewrite Z.shiftr_div_pow2 by lia. done.
  - intros k Hk. split; [apply Hp; lia|]. unfold tap, coef. destruct (lookup_lt_is_Some_2 inter_pred_filters (Z.to_nat (f + 8 * (q4 mod 16) + k))) as [c Ec]; [cbn; lia|]. rewrite Ec. pose proof (znth_lookup _ _ _ Ec) as Zc. by rewrite Z2Nat.id in Zc by lia.
Qed.

Lemma fir_byte f i g : 0 <= fir f i g < 256.
Proof. unfold fir, clip_pixel. destruct (Z.gtb_spec ((isum (fun k => g (k - 3) * coef f i k) 0 8 + 64) / 128) 255), (Z.ltb_spec ((isum (fun k => g (k - 3) * coef f i k) 0 8 + 64) / 128) 0); lia. Qed.

Lemma isum_ext g g' n : forall k, (forall i, k <= i < k + Z.of_nat n -> g i = g' i) -> isum g k n = isum g' k n.
Proof. induction n as [|n IH]; intros k H; cbn [isum]; [done|]. rewrite H, (IH (k + 1)) by (intros; try apply H; lia). done. Qed.

Lemma fir_ext f i g g' : (forall j, -3 <= j < 5 -> g j = g' j) -> fir f i g = fir f i g'.
Proof. intros H. unfold fir. do 3 f_equal. apply isum_ext. intros k Hk. rewrite H by lia. done. Qed.

(** The kernel at an integer position copies the value there. *)
Definition copies (f i : Z) : Prop := forall k, 0 <= k < 8 -> coef f i k = if k =? 3 then 128 else 0.

Lemma fir_copies f i g : copies f i -> 0 <= g 0 < 256 -> fir f i g = g 0.
Proof.
  intros Hc Hg. unfold fir. rewrite (isum_ext _ (fun k => g (k - 3) * (if k =? 3 then 128 else 0))) by (intros k Hk; rewrite Hc by lia; done). 
  assert (E : isum (fun k => g (k - 3) * (if k =? 3 then 128 else 0)) 0 8 = g 0 * 128) by (change (g (-3) * 0 + (g (-2) * 0 + (g (-1) * 0 + (g 0 * 128 + (g 1 * 0 + (g 2 * 0 + (g 3 * 0 + (g 4 * 0 + 0))))))) = g 0 * 128); lia).
  rewrite E, Z.div_add_l by lia. change (64 / 128) with 0. unfold clip_pixel. destruct (Z.gtb_spec (g 0 + 0) 255), (Z.ltb_spec (g 0 + 0) 0); lia.
Qed.

(** Kernels sum up to 128, so flat areas stay flat. *)
Lemma kernels_normalised f i : (f mod 8 = 0 /\ 0 <= f /\ 0 <= i /\ f + 8 * i < 512) -> isum (coef f i) 0 8 = 128.
Proof.
  intros (H1 & H2 & H3 & H4). assert (Hn : exists n : nat, (n < 64)%nat /\ f + 8 * i = 8 * Z.of_nat n) by (exists (Z.to_nat (f / 8 + i)); Z.to_euclidean_division_equations; lia). destruct Hn as (n & Hn & E).
  assert (Hall : forallb (fun n => isum (fun k => default 0 (inter_pred_filters !! Z.to_nat (8 * Z.of_nat n + k))) 0 8 =? 128) (seq 0 64) = true) by (vm_compute; reflexivity).
  rewrite forallb_forall in Hall. specialize (Hall n ltac:(apply in_seq; lia)). apply Z.eqb_eq in Hall. rewrite <- Hall. unfold coef. by rewrite E.
Qed.

Lemma fir_flat f i c : isum (coef f i) 0 8 = 128 -> 0 <= c < 256 -> fir f i (fun _ => c) = c.
Proof.
  intros Hs Hc. unfold fir. assert (El : forall n k, isum (fun k => c * coef f i k) k n = c * isum (coef f i) k n) by (induction n as [|n IH]; intros k; cbn [isum]; [lia|rewrite IH; lia]). rewrite El, Hs, Z.div_add_l by lia. change (64 / 128) with 0. unfold clip_pixel. destruct (Z.gtb_spec (c + 0) 255), (Z.ltb_spec (c + 0) 0); lia.
Qed.

(** ** One dimension *)

(** The source shows the picture [P] in the given ranges, [m] holds the block [O] at the destination,
    and the destination is apart from these ranges. *)
Definition picture (m : mem) (p : ptr) (ss : Z) (P : Z -> Z -> Z) (x0 x1 y0 y1 : Z) : Prop := forall x y, x0 <= x < x1 -> y0 <= y < y1 -> peek m (padd p (y * ss + x)) = Some (P x y).

Definition apart (p : ptr) (ss x0 x1 y0 y1 : Z) (dst : ptr) (ds w h : Z) : Prop :=
  forall x y x' y', x0 <= x < x1 -> y0 <= y < y1 -> 0 <= x' < w -> 0 <= y' < h -> padd p (y * ss + x) <> padd dst (y' * ds + x').

Lemma padd_padd p a b : padd (padd p a) b = padd p (a + b).
Proof. unfold padd. cbn [fst snd]. f_equal. lia. Qed.

(** Kernels in the table, for each position that a step of [step] visits. *)
Definition kernels_in (f step n : Z) : Prop := 0 <= f /\ forall x, 0 <= x < n -> f + 8 * (x * step mod 16) + 7 < 512.

Lemma last_position step n x : 0 <= step -> 0 <= x < n -> 0 <= x * step / 16 <= (n - 1) * step / 16.
Proof. intros Hs Hx. split; [apply Z.div_pos; nia|apply Z.div_le_mono; nia]. Qed.

Section one_dimension.
Context (src : ptr) (ss : Z) (dst : ptr) (ds f step w h : Z) (m : mem) (P O : Z -> Z -> Z).
Hypothesis Hds : w <= ds.
Hypothesis Hstep : 0 <= step.
Hypothesis Hold : picture m dst ds O 0 w 0 h.

Lemma room_of_old x y : 0 <= x < w -> 0 <= y < h -> is_Some (peek m (padd dst (y * ds + x))).
Proof. intros Hx Hy. rewrite Hold by done. eauto. Qed.

Definition hval (x y : Z) : Z := fir f (x * step mod 16) (fun j => P (x * step / 16 + j) y).
Definition vval (x y : Z) : Z := fir f (y * step mod 16) (fun j => P x (y * step / 16 + j)).
Definition avg2 (a b : Z) : Z := (a + b + 1) / 2.

Lemma average_spec m' d o v : peek m' d = Some o -> average m' d v = Ok (avg2 o v).
Proof. intros H. unfold average. rewrite (rd_peek _ _ _ H). cbn [mbind outcome_bind]. unfold ROUND_POWER_OF_TWO, avg2. by rewrite Z.shiftr_div_pow2 by lia. Qed.

(** The source is not changed by the writes. *)
Lemma still x0 x1 y0 y1 x y m' sx sy : picture m src ss P x0 x1 y0 y1 -> apart src ss x0 x1 y0 y1 dst ds w h -> x0 <= sx < x1 -> y0 <= sy < y1 ->
  (forall q, (forall x' y', 0 <= x' < w -> 0 <= y' < h -> q = padd dst (y' * ds + x') -> x' = x /\ y' = y) -> peek m' q = peek m q) -> rd m' (padd src (sy * ss + sx)) = Ok (P sx sy).
Proof. intros HP HA Hx Hy Hq. apply rd_peek. rewrite Hq; [by apply HP|]. intros x' y' Hx' Hy' E. by destruct (HA sx sy x' y'). Qed.

Lemma own m' x y : 0 <= x < w -> 0 <= y < h -> (forall q, (forall x' y', 0 <= x' < w -> 0 <= y' < h -> q = padd dst (y' * ds + x') -> x' = x /\ y' = y) -> peek m' q = peek m q) -> peek m' (padd dst (y * ds + x)) = Some (O x y).
Proof. intros Hx Hy Hq. rewrite Hq; [by apply Hold|]. intros x' y' Hx' Hy' E. destruct (padd_inj dst ds w x y x' y' Hx Hx' Hds E) as [-> ->]. done. Qed.

Section horizontal.
Hypothesis Hk : kernels_in f step w.
Hypothesis HP : picture m src ss P (-3) ((w - 1) * step / 16 + 5) 0 h.
Hypothesis HA : apart src ss (-3) ((w - 1) * step / 16 + 5) 0 h dst ds w h.

Lemma horiz_value x y m' : 0 <= x < w -> 0 <= y < h -> (forall q, (forall x' y', 0 <= x' < w -> 0 <= y' < h -> q = padd dst (y' * ds + x') -> x' = x /\ y' = y) -> peek m' q = peek m q) ->
  filtered (fun k => rd m' (padd (padd src (-3)) (y * ss + Z.shiftr (0 + x * step) 4 + k))) f (0 + x * step) = Ok (hval x y).
Proof.
  intros Hx Hy Hq. rewrite Z.add_0_l. pose proof (last_position step w x Hstep Hx). destruct Hk as [Hf Hr]. apply filtered_spec; [done|by apply Hr|]. intros k Hk8. rewrite padd_padd, Z.shiftr_div_pow2 by lia. change (2 ^ 4) with 16.
  replace (-3 + (y * ss + x * step / 16 + k)) with (y * ss + (x * step / 16 + (k - 3))) by lia. apply (still _ _ _ _ x y m' _ _ HP HA); [lia|lia|done].
Qed.

Lemma horiz_spec : exists m', convolve_horiz src ss dst ds f 0 step w h m = Ok m' /\ block_set m m' dst ds w h hval.
Proof. unfold convolve_horiz. cbv zeta. apply rows_run; [done|apply room_of_old|]. intros x y m' Hx Hy Hq. by apply horiz_value. Qed.

Lemma avg_horiz_spec : exists m', convolve_avg_horiz src ss dst ds f 0 step w h m = Ok m' /\ block_set m m' dst ds w h (fun x y => avg2 (O x y) (hval x y)).
Proof.
  unfold convolve_avg_horiz. cbv zeta.
  destruct (rows_run dst ds w h m (fun x y => avg2 (O x y) (hval x y)) (fun x y m => v ← filtered (fun k => rd m (padd (padd src (-3)) (y * ss + Z.shiftr (0 + x * step) 4 + k))) f (0 + x * step); average m (padd dst (y * ds + x)) v)) as (m' & E & Hb); [done|apply room_of_old| |].
  - intros x y m' Hx Hy Hq. rewrite horiz_value by done. cbn [mbind outcome_bind]. apply average_spec. by apply own.
  - exists m'. split; [|done]. rewrite <- E. apply for_each_ext. intros y m1. apply for_each_ext. intros x m2. by destruct (filtered _ _ _).
Qed.

End horizontal.

Section vertical.
Hypothesis Hk : kernels_in f step h.
Hypothesis HP : picture m src ss P 0 w (-3) ((h - 1) * step / 16 + 5).
Hypothesis HA : apart src ss 0 w (-3) ((h - 1) * step / 16 + 5) dst ds w h.

Lemma vert_value x y m' : 0 <= x < w -> 0 <= y < h -> (forall q, (forall x' y', 0 <= x' < w -> 0 <= y' < h -> q = padd dst (y' * ds + x') -> x' = x /\ y' = y) -> peek m' q = peek m q) ->
  filtered (fun k => rd m' (padd (padd src (- (ss * 3))) (x + Z.shiftr (0 + y * step) 4 * ss + k * ss))) f (0 + y * step) = Ok (vval x y).
Proof.
  intros Hx Hy Hq. rewrite Z.add_0_l. pose proof (last_position step h y Hstep Hy). destruct Hk as [Hf Hr]. apply filtered_spec; [done|by apply Hr|]. intros k Hk8. rewrite padd_padd, Z.shiftr_div_pow2 by lia. change (2 ^ 4) with 16.
  replace (- (ss * 3) + (x + y * step / 16 * ss + k * ss)) with ((y * step / 16 + (k - 3)) * ss + x) by ring. apply (still _ _ _ _ x y m' _ _ HP HA); [lia|lia|done].
Qed.

Lemma vert_spec : exists m', convolve_vert src ss dst ds f 0 step w h m = Ok m' /\ block_set m m' dst ds w h vval.
Proof. unfold convolve_vert. cbv zeta. apply cols_run; [done|apply room_of_old|]. intros x y m' Hx Hy Hq. by apply vert_value. Qed.

Lemma avg_vert_spec : exists m', convolve_avg_vert src ss dst ds f 0 step w h m = Ok m' /\ block_set m m' dst ds w h (fun x y => avg2 (O x y) (vval x y)).
Proof.
  unfold convolve_avg_vert. cbv zeta.
  destruct (cols_run dst ds w h m (fun x y => avg2 (O x y) (vval x y)) (fun x y m => v ← filtered (fun k => rd m (padd (padd src (- (ss * 3))) (x + Z.shiftr (0 + y * step) 4 * ss + k * ss))) f (0 + y * step); average m (padd dst (y * ds + x)) v)) as (m' & E & Hb); [done|apply room_of_old| |].
  - intros x y m' Hx Hy Hq. rewrite vert_value by done. cbn [mbind outcome_bind]. apply average_spec. by apply own.
  - exists m'. split; [|done]. rewrite <- E. apply for_each_ext. intros x m1. apply for_each_ext. intros y m2. by destruct (filtered _ _ _).
Qed.

End vertical.

Section plain.
Hypothesis HP : picture m src ss P 0 w 0 h.
Hypothesis HA : apart src ss 0 w 0 h dst ds w h.

Lemma avg_spec fx xs fy ys : exists m', vp9_convolve_avg_c src ss dst ds fx xs fy ys w h m = Ok m' /\ block_set m m' dst ds w h (fun x y => avg2 (O x y) (P x y)).
Proof.
  unfold vp9_convolve_avg_c.
  destruct (rows_run dst ds w h m (fun x y => avg2 (O x y) (P x y)) (fun x y m => v ← rd m (padd src (y * ss + x)); average m (padd dst (y * ds + x)) v)) as (m' & E & Hb); [done|apply room_of_old| |].
  - intros x y m' Hx Hy Hq. rewrite (still _ _ _ _ x y m' x y HP HA Hx Hy Hq). cbn [mbind outcome_bind]. apply average_spec. by apply own.
  - exists m'. split; [|done]. rewrite <- E. apply for_each_ext. intros y m1. apply for_each_ext. intros x m2. by destruct (rd m2 _).
Qed.

Lemma copy_spec fx xs fy ys : 1 <= w -> exists m', vp9_convolve_copy_c src ss dst ds fx xs fy ys w h m = Ok m' /\ block_set m m' dst ds w h P.
Proof.
  intros Hw1. unfold vp9_convolve_copy_c, memcpy.
  destruct (rows_run dst ds w h m P (fun x y m => rd m (padd src (y * ss + x)))) as (m' & E & Hb); [done|apply room_of_old| |].
  - intros x y m' Hx Hy Hq. by apply (still _ _ _ _ x y m' x y HP HA).
  - exists m'. split; [|done]. rewrite <- E. apply for_each_rows. intros y m1 Hy. apply elem_of_below in Hy.
    assert (Hno : bool_decide ((padd dst (y * ds)).1 = (padd src (y * ss)).1) && (Z.abs ((padd dst (y * ds)).2 - (padd src (y * ss)).2) <? w) = false).
    { apply andb_false_iff. destruct (decide ((padd dst (y * ds)).1 = (padd src (y * ss)).1)) as [Er|]; [right|left; by apply bool_decide_eq_false]. apply Z.ltb_ge. apply Z.nlt_ge. intros Hlt. unfold padd in Er, Hlt. cbn [fst snd] in Er, Hlt.
      set (D := dst.2 + y * ds - (src.2 + y * ss)) in *. destruct (Z.le_gt_cases 0 D); [apply (HA D y 0 y); try lia|apply (HA 0 y (- D) y); try lia]; unfold padd; f_equal; try congruence; lia. }
    rewrite Hno. apply for_each_ext. intros x m2. by rewrite !padd_padd.
Qed.

End plain.
End one_dimension.

(** ** Two dimensions *)

(** The prediction of a block: rows are filtered with [fx], and then columns with [fy]. *)
Definition pred2 (fx xs fy ys : Z) (P : Z -> Z -> Z) (x y : Z) : Z :=
  fir fy (y * ys mod 16) (fun j => fir fx (x * xs mod 16) (fun i => P (x * xs / 16 + i) (y * ys / 16 + j))).

(** The temporary buffers have their sizes. *)
Definition sized (m : mem) : Prop := (forall o, 0 <= o < 64 * 324 -> is_Some (peek m (Temp, o))) /\ (forall o, 0 <= o < 64 * 64 -> is_Some (peek m (TempAvg, o))).

(** [m'] is [m] with the block set, apart from the contents of the temporary buffers. *)
Definition predicted (m m' : mem) (dst : ptr) (ds w h : Z) (V : Z -> Z -> Z) : Prop :=
  (forall x y, 0 <= x < w -> 0 <= y < h -> peek m' (padd dst (y * ds + x)) = Some (V x y)) /\
  (forall q, q.1 <> Temp -> q.1 <> TempAvg -> (forall x y, 0 <= x < w -> 0 <= y < h -> q <> padd dst (y * ds + x)) -> peek m' q = peek m q) /\ (sized m -> sized m').

Lemma block_set_some m m' dst ds w h V q : block_set m m' dst ds w h V -> is_Some (peek m q) -> is_Some (peek m' q).
Proof.
  intros [H1 H2] Hq. destruct (decide (Exists (fun xy => q = padd dst (xy.2 * ds + xy.1)) (grid w h))) as [Hex|Hno].
  - apply Exists_exists in Hex as ([x y] & Hin & ->). apply elem_of_grid in Hin as [Hx Hy]. cbn [fst snd]. rewrite H1 by done. eauto.
  - rewrite H2; [done|]. intros x y Hx Hy E. apply Hno, Exists_exists. exists (x, y). split; [by apply elem_of_grid|done].
Qed.

Lemma block_set_sized m m' dst ds w h V : block_set m m' dst ds w h V -> sized m -> sized m'.
Proof. intros Hb [H1 H2]. split; intros o Ho; eapply block_set_some; eauto. Qed.

Lemma block_set_predicted m m' dst ds w h V : block_set m m' dst ds w h V -> predicted m m' dst ds w h V.
Proof. intros Hb. split_and!; [apply Hb|intros q _ _; apply Hb|by eapply block_set_sized]. Qed.

Lemma predicted_ext m m' dst ds w h V V' : (forall x y, 0 <= x < w -> 0 <= y < h -> V x y = V' x y) -> predicted m m' dst ds w h V -> predicted m m' dst ds w h V'.
Proof. intros E (H1 & H2 & H3). split_and!; [|done..]. intros x y Hx Hy. rewrite <- E by done. by apply H1. Qed.

(** The rows that the second pass needs fit into the intermediate buffer. *)
Lemma intermediate_rows ys h : 1 <= h <= 64 -> 0 <= ys <= 80 -> let ih := intermediate_height ys h in (h - 1) * ys / 16 + 8 <= ih <= 324.
Proof.
  intros Hh Hs ih. unfold ih, intermediate_height. rewrite Z.shiftr_div_pow2 by lia. change (2 ^ 4) with 16. assert (0 <= (h - 1) * ys <= 63 * 80) by nia. destruct (Z.ltb_spec (((h - 1) * ys + 15) / 16 + 8) h); Z.to_euclidean_division_equations; lia.
Qed.

Section two_dimensions.
Context (src : ptr) (ss : Z) (dst : ptr) (ds fx xs fy ys w h : Z) (m : mem) (P O : Z -> Z -> Z).
Hypothesis Hw : 1 <= w <= 64.
Hypothesis Hh : 1 <= h <= 64.
Hypothesis Hds : w <= ds.
Hypothesis Hxs : 0 <= xs.
Hypothesis Hys : 0 <= ys <= 80.
Hypothesis Hkx : kernels_in fx xs w.
Hypothesis Hky : kernels_in fy ys h.
Hypothesis Hsize : sized m.
Hypothesis Hsrc : src.1 = Frame.
Hypothesis Hdst : dst.1 <> Temp.
Hypothesis HP : picture m src ss P (-3) ((w - 1) * xs / 16 + 5) (-3) (intermediate_height ys h - 3).
Hypothesis Hold : picture m dst ds O 0 w 0 h.

(** The rows of the source, filtered into the intermediate buffer. *)
Lemma first_pass : exists m1, convolve_horiz (padd src (- (ss * 3))) ss (Temp, 0) 64 fx 0 xs w (intermediate_height ys h) m = Ok m1 /\
  block_set m m1 (Temp, 0) 64 w (intermediate_height ys h) (fun x r => fir fx (x * xs mod 16) (fun i => P (x * xs / 16 + i) (r - 3))).
Proof.
  pose proof (intermediate_rows ys h Hh Hys) as Hih. cbv zeta in Hih. set (ih := intermediate_height ys h) in *. assert (0 <= (h - 1) * ys / 16) by (apply Z.div_pos; nia).
  apply (horiz_spec (padd src (- (ss * 3))) ss (Temp, 0) 64 fx xs w ih m (fun x r => P x (r - 3)) (fun x y => default 0 (peek m (Temp, y * 64 + x)))); [lia|done| |done| |].
  - intros x y Hx Hy. unfold padd. cbn [fst snd]. rewrite Z.add_0_l. destruct (proj1 Hsize (y * 64 + x)) as [v ->]; [nia|done].
  - intros x y Hx Hy. rewrite padd_padd. replace (- (ss * 3) + (y * ss + x)) with ((y - 3) * ss + x) by ring. apply HP; lia.
  - intros x y x' y' _ _ _ _ E. unfold padd in E. injection E as E _. congruence.
Qed.

Lemma second_pass m1 : block_set m m1 (Temp, 0) 64 w (intermediate_height ys h) (fun x r => fir fx (x * xs mod 16) (fun i => P (x * xs / 16 + i) (r - 3))) ->
  exists m2, convolve_vert (Temp, 64 * 3) 64 dst ds fy 0 ys w h m1 = Ok m2 /\ block_set m1 m2 dst ds w h (pred2 fx xs fy ys P).
Proof.
  pose proof (intermediate_rows ys h Hh Hys) as Hih. cbv zeta in Hih. set (ih := intermediate_height ys h) in *. assert (0 <= (h - 1) * ys / 16) by (apply Z.div_pos; nia). intros [H1 H2].
  destruct (vert_spec (Temp, 64 * 3) 64 dst ds fy ys w h m1 (fun x y => fir fx (x * xs mod 16) (fun i => P (x * xs / 16 + i) y)) O) as (m2 & E & Hb); [done|lia| |done| | |].
  - intros x y Hx Hy. rewrite H2; [by apply Hold|]. intros x' y' _ _ Eq. apply Hdst. unfold padd in Eq. by injection Eq as -> _.
  - intros x y Hx Hy. replace (padd (Temp, 64 * 3) (y * 64 + x)) with (padd (Temp, 0) ((y + 3) * 64 + x)) by (unfold padd; cbn [fst snd]; f_equal; lia). rewrite H1 by lia. do 2 f_equal. replace (y + 3 - 3) with y by lia. done.
  - intros x y x' y' _ _ _ _ Eq. apply Hdst. unfold padd in Eq. by injection Eq as <- _.
  - exists m2. split; [exact E|]. exact Hb.
Qed.

Lemma convolve_spec : exists m2, convolve src ss dst ds fx 0 xs fy 0 ys w h m = Ok m2 /\
  (forall x y, 0 <= x < w -> 0 <= y < h -> peek m2 (padd dst (y * ds + x)) = Some (pred2 fx xs fy ys P x y)) /\
  (forall q, q.1 <> Temp -> (forall x y, 0 <= x < w -> 0 <= y < h -> q <> padd dst (y * ds + x)) -> peek m2 q = peek m q) /\ sized m2.
Proof.
  unfold convolve. destruct first_pass as (m1 & -> & Hb1). cbn [mbind outcome_bind]. destruct (second_pass m1 Hb1) as (m2 & -> & Hb2). exists m2. split_and!; [done|apply Hb2| |eapply block_set_sized, block_set_sized; eauto].
  intros q Hq Hout. rewrite (proj2 Hb2) by done. apply (proj2 Hb1). intros x y _ _ ->. by apply Hq.
Qed.

End two_dimensions.

(** ** The functions of the table *)

Lemma picture_sub m p ss P x0 x1 y0 y1 x0' x1' y0' y1' : x0 <= x0' -> x1' <= x1 -> y0 <= y0' -> y1' <= y1 -> picture m p ss P x0 x1 y0 y1 -> picture m p ss P x0' x1' y0' y1'.
Proof. intros ? ? ? ? H x y Hx Hy. apply H; lia. Qed.

Lemma apart_sub p ss x0 x1 y0 y1 x0' x1' y0' y1' dst ds w h : x0 <= x0' -> x1' <= x1 -> y0 <= y0' -> y1' <= y1 -> apart p ss x0 x1 y0 y1 dst ds w h -> apart p ss x0' x1' y0' y1' dst ds w h.
Proof. intros ? ? ? ? H x y x' y' Hx Hy. apply H; lia. Qed.

(** A direction that is not filtered moves by whole pixels, and its kernel copies. *)
Definition untouched (f step : Z) : Prop := step = 16 /\ copies f 0.

Lemma pred2_x_untouched fx xs fy ys P x y : (forall x y, 0 <= P x y < 256) -> untouched fx xs -> pred2 fx xs fy ys P x y = vval fy ys P x y.
Proof.
  intros HB [-> Hc]. unfold pred2, vval. apply fir_ext. intros j _. rewrite Z.div_mul, Z.mod_mul by lia. rewrite fir_copies by (done || apply HB). by rewrite Z.add_0_r.
Qed.

Lemma pred2_y_untouched fx xs fy ys P x y : untouched fy ys -> pred2 fx xs fy ys P x y = hval fx xs P x y.
Proof.
  intros [-> Hc]. unfold pred2, hval. rewrite Z.div_mul, Z.mod_mul by lia. rewrite fir_copies by (done || apply fir_byte). by rewrite Z.add_0_r.
Qed.

Lemma pred2_untouched fx xs fy ys P x y : (forall x y, 0 <= P x y < 256) -> untouched fx xs -> untouched fy ys -> pred2 fx xs fy ys P x y = P x y.
Proof.
  intros HB Hux [-> Hc]. rewrite pred2_x_untouched by done. unfold vval. rewrite Z.div_mul, Z.mod_mul by lia. rewrite fir_copies by (done || apply HB). by rewrite Z.add_0_r.
Qed.

Section functions.
Context (src : ptr) (ss : Z) (dst : ptr) (ds fx xs fy ys w h : Z) (m : mem) (P O : Z -> Z -> Z).
Hypothesis Hw : 1 <= w <= 64.
Hypothesis Hh : 1 <= h <= 64.
Hypothesis Hds : w <= ds.
Hypothesis Hxs : 0 <= xs.
Hypothesis Hys : 0 <= ys <= 80.
Hypothesis Hkx : kernels_in fx xs w.
Hypothesis Hky : kernels_in fy ys h.
Hypothesis Hsize : sized m.
Hypothesis Hsrc : src.1 = Frame.
Hypothesis Hdst : dst.1 = Frame.
Hypothesis HP : picture m src ss P (-3) ((w - 1) * xs / 16 + 5) (-3) (intermediate_height ys h - 3).
Hypothesis HA : apart src ss (-3) ((w - 1) * xs / 16 + 5) (-3) (intermediate_height ys h - 3) dst ds w h.
Hypothesis HB : forall x y, 0 <= P x y < 256.
Hypothesis Hold : picture m dst ds O 0 w 0 h.

(** The prediction stored, or averaged with what is there. *)
Definition does (fn : convolve_fn_t) (V : Z -> Z -> Z) : Prop := exists m', fn src ss dst ds fx xs fy ys w h m = Ok m' /\ predicted m m' dst ds w h V.

Lemma does_of_block fn V V' : (exists m', fn src ss dst ds fx xs fy ys w h m = Ok m' /\ block_set m m' dst ds w h V) -> (forall x y, V x y = V' x y) -> does fn V'.
Proof. intros (m' & E & Hb) HV. exists m'. split; [done|]. apply (predicted_ext _ _ _ _ _ _ V); [intros; apply HV|by apply block_set_predicted]. Qed.

Lemma spans : 0 <= (w - 1) * xs / 16 /\ 0 <= (h - 1) * ys / 16 /\ (h - 1) * ys / 16 + 8 <= intermediate_height ys h.
Proof. pose proof (intermediate_rows ys h Hh Hys) as H. cbv zeta in H. split_and!; [apply Z.div_pos; nia|apply Z.div_pos; nia|lia]. Qed.

(** The spans of rows and columns that one direction alone reads. *)
Lemma rows_only : untouched fy ys -> picture m src ss P (-3) ((w - 1) * xs / 16 + 5) 0 h /\ apart src ss (-3) ((w - 1) * xs / 16 + 5) 0 h dst ds w h.
Proof.
  intros [E _]. pose proof spans as (H1 & H2 & H3). assert (E' : (h - 1) * ys / 16 = h - 1) by (rewrite E; apply Z.div_mul; lia).
  split; [eapply picture_sub; [..|exact HP]|eapply apart_sub; [..|exact HA]]; lia.
Qed.

Lemma columns_only : untouched fx xs -> picture m src ss P 0 w (-3) ((h - 1) * ys / 16 + 5) /\ apart src ss 0 w (-3) ((h - 1) * ys / 16 + 5) dst ds w h.
Proof.
  intros [E _]. pose proof spans as (H1 & H2 & H3). assert (E' : (w - 1) * xs / 16 = w - 1) by (rewrite E; apply Z.div_mul; lia).
  split; [eapply picture_sub; [..|exact HP]|eapply apart_sub; [..|exact HA]]; lia.
Qed.

Lemma block_only : untouched fx xs -> untouched fy ys -> picture m src ss P 0 w 0 h /\ apart src ss 0 w 0 h dst ds w h.
Proof.
  intros [E _] Hy. destruct (rows_only Hy) as [H1 H2]. assert (E' : (w - 1) * xs / 16 = w - 1) by (rewrite E; apply Z.div_mul; lia).
  split; [eapply picture_sub; [..|exact H1]|eapply apart_sub; [..|exact H2]]; lia.
Qed.

Lemma horiz_does : untouched fy ys -> does vp9_convolve8_horiz_c (pred2 fx xs fy ys P) /\ does vp9_convolve8_avg_horiz_c (fun x y => avg2 (O x y) (pred2 fx xs fy ys P x y)).
Proof.
  intros Hy. destruct (rows_only Hy) as [H1 H2]. split; (eapply does_of_block; [first [apply (horiz_spec src ss dst ds fx xs w h m P O)|apply (avg_horiz_spec src ss dst ds fx xs w h m P O)]; done|]); intros x y; cbv beta; by rewrite pred2_y_untouched.
Qed.

Lemma vert_does : untouched fx xs -> does vp9_convolve8_vert_c (pred2 fx xs fy ys P) /\ does vp9_convolve8_avg_vert_c (fun x y => avg2 (O x y) (pred2 fx xs fy ys P x y)).
Proof.
  intros Hx. destruct (columns_only Hx) as [H1 H2]. destruct Hys. split; (eapply does_of_block; [first [apply (vert_spec src ss dst ds fy ys w h m P O)|apply (avg_vert_spec src ss dst ds fy ys w h m P O)]; done|]); intros x y; cbv beta; by rewrite pred2_x_untouched.
Qed.

Lemma plain_does : untouched fx xs -> untouched fy ys -> does vp9_convolve_copy_c (pred2 fx xs fy ys P) /\ does vp9_convolve_avg_c (fun x y => avg2 (O x y) (pred2 fx xs fy ys P x y)).
Proof.
  intros Hx Hy. destruct (block_only Hx Hy) as [H1 H2]. destruct Hw. split; (eapply does_of_block; [first [apply (copy_spec src ss dst ds w h m P O)|apply (avg_spec src ss dst ds w h m P O)]; done|]); intros x y; cbv beta; by rewrite pred2_untouched.
Qed.

Lemma both_does : does vp9_convolve8_c (pred2 fx xs fy ys P).
Proof.
  destruct (convolve_spec src ss dst ds fx xs fy ys w h m P O) as (m2 & E & H1 & H2 & H3); [done..|congruence|done|done|]. exists m2. split; [done|]. split_and!; [done| |done]. intros q Hq _. by apply H2.
Qed.

Lemma both_avg_does : does vp9_convolve8_avg_c (fun x y => avg2 (O x y) (pred2 fx xs fy ys P x y)).
Proof.
  destruct (convolve_spec src ss (TempAvg, 0) 64 fx xs fy ys w h m P (fun x y => default 0 (peek m (TempAvg, y * 64 + x)))) as (m1 & E1 & H1 & H2 & H3); [done|done|lia|done|done|done|done|done|done|done|done| |].
  { intros x y Hx Hy. unfold padd. cbn [fst snd]. rewrite Z.add_0_l. destruct (proj2 Hsize (y * 64 + x)) as [v ->]; [nia|done]. }
  destruct (avg_spec (TempAvg, 0) 64 dst ds w h m1 (pred2 fx xs fy ys P) O) with (fx := 0) (xs := 0) (fy := 0) (ys := 0) as (m2 & E2 & Hb); [done| |done| |].
  - intros x y Hx Hy. rewrite H2; [by apply Hold|unfold padd; cbn [fst]; congruence|]. intros x' y' _ _ E. unfold padd in E. cbn [fst] in E. congruence.
  - intros x y x' y' _ _ _ _ E. unfold padd in E. cbn [fst] in E. congruence.
  - exists m2. unfold vp9_convolve8_avg_c, vp9_convolve8_c, get_filter_base, get_filter_offset. rewrite E1. cbn [mbind outcome_bind]. split; [exact E2|]. split_and!; [apply Hb| |intros _; by eapply block_set_sized].
    intros q Hq1 Hq2 Hout. rewrite (proj2 Hb) by done. apply H2; [done|]. intros x y _ _ ->. by apply Hq2.
Qed.

End functions.

(** ** One block of the kernel *)

Definition src_of (p : INTER_PRED_PARAM) : ptr := (Frame, src_mv p).
Definition dst_of (p : INTER_PRED_PARAM) : ptr := (Frame, dst_mv p).

(** The columns and rows around the source block that the filters may read. *)
Definition last_column (p : INTER_PRED_PARAM) : Z := (w p - 1) * x_step_q4 p / 16 + 5.
Definition last_row (p : INTER_PRED_PARAM) : Z := intermediate_height (y_step_q4 p) (h p) - 3.

(** A parameter block as the decoder writes it: sizes and steps in their bounds, kernels in the table,
    and [pred_mode] saying which directions have a fractional position (bit 2: x, bit 1: y). *)
Record valid (p : INTER_PRED_PARAM) : Prop := mkValid {
  v_w : 1 <= w p <= 64; v_h : 1 <= h p <= 64; v_ds : w p <= dst_stride p; v_xs : 0 <= x_step_q4 p; v_ys : 0 <= y_step_q4 p <= 80;
  v_kx : kernels_in (filter_x_mv p) (x_step_q4 p) (w p); v_ky : kernels_in (filter_y_mv p) (y_step_q4 p) (h p);
  v_mode : pred_mode p ∈ [0; 2; 4; 6];
  v_x : Z.testbit (pred_mode p) 2 = false -> x_step_q4 p = 16 -> copies (filter_x_mv p) 0;
  v_y : Z.testbit (pred_mode p) 1 = false -> y_step_q4 p = 16 -> copies (filter_y_mv p) 0 }.

Definition prediction (P : Z -> Z -> Z) (p : INTER_PRED_PARAM) : Z -> Z -> Z := pred2 (filter_x_mv p) (x_step_q4 p) (filter_y_mv p) (y_step_q4 p) P.

Definition shows (m : mem) (p : INTER_PRED_PARAM) (P : Z -> Z -> Z) : Prop := picture m (src_of p) (src_stride p) P (-3) (last_column p) (-3) (last_row p).
Definition holds (m : mem) (p : INTER_PRED_PARAM) (V : Z -> Z -> Z) : Prop := picture m (dst_of p) (dst_stride p) V 0 (w p) 0 (h p).

(** The reference pixels of [p] are not in the block of [p']. *)
Definition clear (p p' : INTER_PRED_PARAM) : Prop := apart (src_of p) (src_stride p) (-3) (last_column p) (-3) (last_row p) (dst_of p') (dst_stride p') (w p') (h p').

(** What the first or second pass stores. *)
Definition stored (second : Z) (O V : Z -> Z -> Z) (x y : Z) : Z := if second =? 0 then V x y else avg2 (O x y) (V x y).

Lemma table_second fn0 fn1 i second : (second = 0 \/ second = 1) -> znth mSwitchConvolve i = Ok fn0 -> znth mSwitchConvolve (i + 1) = Ok fn1 -> znth mSwitchConvolve (i + second) = Ok (if second =? 0 then fn0 else fn1).
Proof. intros [-> | ->] E0 E1; [by rewrite Z.add_0_r|done]. Qed.

(** Every entry of the table that a valid parameter selects computes the full prediction. *)
Lemma predict_block second p m P O : (second = 0 \/ second = 1) -> valid p -> sized m -> (forall x y, 0 <= P x y < 256) -> shows m p P -> clear p p -> holds m p O ->
  exists m', predict second p m = Ok m' /\ predicted m m' (dst_of p) (dst_stride p) (w p) (h p) (stored second O (prediction P p)).
Proof.
  intros Hs [Hw Hh Hds Hxs Hys Hkx Hky Hm Hx Hy] Hsz HB HP HA HO. unfold predict.
  pose (D fn V := does (src_of p) (src_stride p) (dst_of p) (dst_stride p) (filter_x_mv p) (x_step_q4 p) (filter_y_mv p) (y_step_q4 p) (w p) (h p) m fn V).
  assert (Hpick : forall fn0 fn1, znth mSwitchConvolve (pred_mode p + mode_num p) = Ok fn0 -> znth mSwitchConvolve (pred_mode p + mode_num p + 1) = Ok fn1 -> D fn0 (prediction P p) /\ D fn1 (fun x y => avg2 (O x y) (prediction P p x y)) ->
    exists m', (fn ← znth mSwitchConvolve (pred_mode p + mode_num p + second); fn (Frame, src_mv p) (src_stride p) (Frame, dst_mv p) (dst_stride p) (filter_x_mv p) (x_step_q4 p) (filter_y_mv p) (y_step_q4 p) (w p) (h p) m) = Ok m' /\ predicted m m' (dst_of p) (dst_stride p) (w p) (h p) (stored second O (prediction P p))).
  { intros fn0 fn1 E0 E1 [D0 D1]. rewrite (table_second fn0 fn1) by done. cbn [mbind outcome_bind]. unfold stored. by destruct Hs as [-> | ->]. }
  assert (Hhor : untouched (filter_y_mv p) (y_step_q4 p) -> D vp9_convolve8_horiz_c (prediction P p) /\ D vp9_convolve8_avg_horiz_c (fun x y => avg2 (O x y) (prediction P p x y))) by (intros; by apply horiz_does).
  assert (Hver : untouched (filter_x_mv p) (x_step_q4 p) -> D vp9_convolve8_vert_c (prediction P p) /\ D vp9_convolve8_avg_vert_c (fun x y => avg2 (O x y) (prediction P p x y))) by (intros; by apply vert_does).
  assert (Hpla : untouched (filter_x_mv p) (x_step_q4 p) -> untouched (filter_y_mv p) (y_step_q4 p) -> D vp9_convolve_copy_c (prediction P p) /\ D vp9_convolve_avg_c (fun x y => avg2 (O x y) (prediction P p x y))) by (intros; by apply plain_does).
  assert (Hbot : D vp9_convolve8_c (prediction P p) /\ D vp9_convolve8_avg_c (fun x y => avg2 (O x y) (prediction P p x y))) by (split; [by apply (both_does _ _ _ _ _ _ _ _ _ _ _ P O)|by apply both_avg_does]).
  clearbody D. unfold mode_num in *. revert Hpick. destruct (Z.eqb_spec (x_step_q4 p) 16) as [E16|E16], (Z.eqb_spec (y_step_q4 p) 16) as [F16|F16]; intros Hpick;
    rewrite !elem_of_cons in Hm; destruct Hm as [Em|[Em|[Em|[Em|Em]]]]; try (by apply elem_of_nil in Em); rewrite Em in *;
    (eapply Hpick; [reflexivity..|]); first [exact Hbot|apply Hpla; split; auto; done|apply Hhor; split; auto; done|apply Hver; split; auto; done].
Qed.

(** ** The kernel *)

Definition inside (p : INTER_PRED_PARAM) (q : ptr) : Prop := exists x y, 0 <= x < w p /\ 0 <= y < h p /\ q = padd (dst_of p) (y * dst_stride p + x).
Definition disjoint_blocks (p p' : INTER_PRED_PARAM) : Prop := forall q, inside p q -> inside p' q -> False.
Definition same_block (p p' : INTER_PRED_PARAM) : Prop := dst_mv p = dst_mv p' /\ dst_stride p = dst_stride p' /\ w p = w p' /\ h p = h p'.

Lemma holds_same_block m p p' V : same_block p p' -> holds m p V -> holds m p' V.
Proof. intros (E1 & E2 & E3 & E4) H x y. unfold dst_of. rewrite <- E1, <- E2, <- E3, <- E4. apply H. Qed.

Lemma inside_same p p' q : same_block p p' -> inside p q -> inside p' q.
Proof. intros (E1 & E2 & E3 & E4) (x & y & Hx & Hy & ->). exists x, y. unfold dst_of. rewrite E1, E2, <- E3, <- E4. done. Qed.

Lemma clear_same p p' p'' : same_block p' p'' -> clear p p' -> clear p p''.
Proof. intros (E1 & E2 & E3 & E4) H. unfold clear, dst_of. rewrite <- E1, <- E2, <- E3, <- E4. apply H. Qed.

(** What a list of parameters has changed in the frame. *)
Definition unchanged (l : list INTER_PRED_PARAM) (m m' : mem) : Prop := forall q, q.1 = Frame -> (forall p, p ∈ l -> ~ inside p q) -> peek m' q = peek m q.

Lemma shows_unchanged l m m' p P : unchanged l m m' -> (forall p', p' ∈ l -> clear p p') -> shows m p P -> shows m' p P.
Proof. intros Hu Hc H x y Hx Hy. rewrite Hu; [by apply H|done|]. intros p' Hp' (x' & y' & Hx' & Hy' & E). by apply (Hc p' Hp' x y x' y'). Qed.

Lemma holds_unchanged l m m' p V : unchanged l m m' -> (forall p', p' ∈ l -> disjoint_blocks p p') -> holds m p V -> holds m' p V.
Proof. intros Hu Hd H x y Hx Hy. rewrite Hu; [by apply H|done|]. intros p' Hp' Hin. eapply (Hd p' Hp'); [|exact Hin]. exists x, y. done. Qed.

Lemma predicted_unchanged p m m' V : predicted m m' (dst_of p) (dst_stride p) (w p) (h p) V -> unchanged [p] m m'.
Proof.
  intros (_ & H & _) q Hq Hin. apply H; [congruence..|]. intros x y Hx Hy E. apply (Hin p); [apply list_elem_of_singleton; done|]. exists x, y. done.
Qed.

Lemma unchanged_trans l l' m m' m'' : unchanged l m m' -> unchanged l' m' m'' -> unchanged (l ++ l') m m''.
Proof. intros H1 H2 q Hq Hin. rewrite H2, H1; [done|done| |done|]; intros p Hp; apply Hin, elem_of_app; auto. Qed.

Section pass.
Context (second : Z) (P O : INTER_PRED_PARAM -> Z -> Z -> Z).
Hypothesis Hsecond : second = 0 \/ second = 1.
Hypothesis HB : forall p x y, 0 <= P p x y < 256.

(** A pass over blocks that do not overlap: each block gets its own prediction. *)
Lemma pass_spec l : forall m, ForallOrdPairs disjoint_blocks l -> (forall p, p ∈ l -> valid p) -> (forall p p', p ∈ l -> p' ∈ l -> clear p p') -> sized m ->
  (forall p, p ∈ l -> shows m p (P p) /\ holds m p (O p)) ->
  exists m', for_each l (predict second) m = Ok m' /\ (forall p, p ∈ l -> holds m' p (stored second (O p) (prediction (P p) p))) /\ unchanged l m m' /\ sized m'.
Proof.
  induction l as [|p l IH]; intros m Hd Hv Hc Hsz Hm; cbn [for_each]. { exists m. split_and!; [done|intros p Hp; by apply elem_of_nil in Hp|done|done]. }
  inversion Hd as [|? ? Hp Hl]; subst. rewrite Forall_forall in Hp. assert (Hhd : p ∈ p :: l) by (apply elem_of_cons; by left). assert (Htl : forall p', p' ∈ l -> p' ∈ p :: l) by (intros; apply elem_of_cons; by right).
  destruct (Hm p Hhd) as [HP HO]. destruct (predict_block second p m (P p) (O p)) as (m1 & -> & Hpr); [done|by apply Hv|done|done|done|by apply Hc|done|]. cbn [mbind outcome_bind].
  pose proof (predicted_unchanged _ _ _ _ Hpr) as Hu. destruct Hpr as (Hset & _ & Hsz1).
  destruct (IH m1) as (m' & E & Hh & Hu' & Hsz'); [done|auto|auto|auto| |].
  { intros p' Hp'. destruct (Hm p' (Htl p' Hp')) as [HP' HO']. split; [eapply shows_unchanged; [done| |done]|eapply holds_unchanged; [done| |done]]; intros p'' Hp''; apply list_elem_of_singleton in Hp'' as ->; [by auto|]. intros q H1 H2. by apply (Hp p' Hp' q). }
  exists m'. split_and!; [done| |by apply (unchanged_trans [p] l m m1 m')|done]. intros p' Hp'. apply elem_of_cons in Hp' as [->|Hp']; [|by auto]. eapply holds_unchanged; [done| |intros x y Hx Hy; by apply Hset]. auto.
Qed.

End pass.

Lemma pairs_disjoint l p p' : ForallOrdPairs disjoint_blocks l -> p ∈ l -> p' ∈ l -> p = p' \/ disjoint_blocks p p'.
Proof.
  induction 1 as [|a l Ha Hl IH]; intros Hp Hp'; [by apply elem_of_nil in Hp|]. rewrite Forall_forall in Ha. apply elem_of_cons in Hp as [->|Hp], Hp' as [->|Hp']; [by left| | |by auto].
  - right. by apply Ha.
  - right. intros q H1 H2. by apply (Ha p Hp q).
Qed.

(** The block of [p] as it is in memory. *)
Definition current (m : mem) (p : INTER_PRED_PARAM) (x y : Z) : Z := default 0 (peek m (padd (dst_of p) (y * dst_stride p + x))).

Lemma holds_current m p : (forall q, inside p q -> is_Some (peek m q)) -> holds m p (current m p).
Proof. intros H x y Hx Hy. unfold current. destruct (H (padd (dst_of p) (y * dst_stride p + x))) as [v ->]; [by exists x, y|done]. Qed.

Lemma holds_room m p V q : holds m p V -> inside p q -> is_Some (peek m q).
Proof. intros H (x & y & Hx & Hy & ->). rewrite H by done. eauto. Qed.

Lemma current_holds m p V x y : holds m p V -> 0 <= x < w p -> 0 <= y < h p -> current m p x y = V x y.
Proof. intros H Hx Hy. unfold current. by rewrite H. Qed.

(** With a scaled step, kernels are counted from the selected one instead of from the start of its set:
    the last kernel of the table and a step of 20 read past the table at the second pixel. *)
Lemma scaled_overrun : predict 0 (mkParam 4 3 8 8 8 504 20 0 16 2 1) (fun r => match r with Frame => replicate 16 0 | Temp => replicate (64 * 324) 0 | TempAvg => [] end) = Fault OutOfBounds.
Proof. vm_compute. reflexivity. Qed.

(** C15: Inter prediction. The first list of parameters predicts blocks that do not overlap, the second list
    predicts some of these blocks again, and no source lies in a block. Then the kernel runs without a fault,
    reads and writes only memory that is there, and at the end each block holds the two-dimensional
    eight-tap prediction of its parameter, whichever of the 32 functions was selected; blocks with a second
    parameter hold the rounded average of both predictions, and the rest of the frame is as it was. *)
Theorem inter_prediction (P : INTER_PRED_PARAM -> Z -> Z -> Z) (fri sec : list INTER_PRED_PARAM) (m : mem)
  (HB : forall p x y, 0 <= P p x y < 256) (Hvalid : forall p, p ∈ fri ++ sec -> valid p)
  (Hfri : ForallOrdPairs disjoint_blocks fri) (Hsec : ForallOrdPairs disjoint_blocks sec) (Hsame : forall q, q ∈ sec -> exists p, p ∈ fri /\ same_block p q)
  (Hclear : forall q p, q ∈ fri ++ sec -> p ∈ fri -> clear q p) (Hsized : sized m)
  (Hshow : forall p, p ∈ fri ++ sec -> shows m p (P p)) (Hroom : forall p q, p ∈ fri -> inside p q -> is_Some (peek m q)) :
  exists m', kernel fri sec m = Ok m' /\
    (forall p, p ∈ fri -> (forall q, q ∈ sec -> ~ same_block p q) -> holds m' p (prediction (P p) p)) /\
    (forall p q, p ∈ fri -> q ∈ sec -> same_block p q -> holds m' p (fun x y => avg2 (prediction (P p) p x y) (prediction (P q) q x y))) /\
    unchanged fri m m'.
Proof.
  assert (Hl : forall p, p ∈ fri -> p ∈ fri ++ sec) by (intros; apply elem_of_app; auto). assert (Hr : forall p, p ∈ sec -> p ∈ fri ++ sec) by (intros; apply elem_of_app; auto).
  destruct (pass_spec 0 P (current m) (or_introl eq_refl) HB fri m) as (m1 & E1 & H1 & U1 & S1); [done|auto|auto|done|intros p Hp; split; [auto|apply holds_current; eauto]|].
  assert (Hc2 : forall q p, q ∈ fri ++ sec -> p ∈ sec -> clear q p) by (intros q p Hq Hp; destruct (Hsame p Hp) as (p' & Hp' & E); eapply clear_same; eauto).
  assert (H1' : forall p q, p ∈ fri -> q ∈ sec -> same_block p q -> holds m1 q (prediction (P p) p)) by (intros p q Hp Hq E; eapply holds_same_block; [exact E|]; exact (H1 p Hp)).
  destruct (pass_spec 1 P (current m1) (or_intror eq_refl) HB sec m1) as (m2 & E2 & H2 & U2 & S2); [done|auto|auto|done| |].
  { intros q Hq. destruct (Hsame q Hq) as (p & Hp & E). split; [eapply shows_unchanged; [exact U1|auto|auto]|]. apply holds_current. intros c Hc. eapply holds_room; [by apply (H1' p q)|done]. }
  exists m2. unfold kernel. rewrite E1. cbn [mbind outcome_bind]. split_and!; [done| | |].
  - intros p Hp Hno. eapply holds_unchanged; [exact U2| |exact (H1 p Hp)]. intros q Hq. destruct (Hsame q Hq) as (p' & Hp' & E). destruct (pairs_disjoint fri p p' Hfri Hp Hp') as [->|Hd]; [by destruct (Hno q Hq)|].
    intros c Hc Hc'. apply (Hd c Hc). eapply inside_same; [|exact Hc']. destruct E as (? & ? & ? & ?). by repeat split.
  - intros p q Hp Hq E. assert (Hq2 : holds m2 p (stored 1 (current m1 q) (prediction (P q) q))) by (eapply holds_same_block; [|exact (H2 q Hq)]; destruct E as (? & ? & ? & ?); by repeat split).
    intros x y Hx Hy. rewrite Hq2 by done. unfold stored. cbn [Z.eqb]. rewrite (current_holds m1 q (prediction (P p) p)); [done|by apply H1'|destruct E as (_ & _ & <- & _); done|destruct E as (_ & _ & _ & <-); done].
  - intros c Hc Hin. rewrite U2, U1; [done|done|done|done|]. intros q Hq Hqc. destruct (Hsame q Hq) as (p & Hp & E). apply (Hin p Hp). eapply inside_same; [|exact Hqc]. destruct E as (? & ? & ? & ?). by repeat split.
Qed.

(** Two references of 11 by 16 pixels, and a block of 4 by 4 behind them. *)
Definition frame0 : mem := fun r => match r with Frame => (fun n => Z.of_nat n * 37 mod 256) <$> seq 0 368 | Temp => replicate (64 * 324) 0 | TempAvg => replicate (64 * 64) 0 end.
Definition param0 : INTER_PRED_PARAM := mkParam 6 51 16 352 4 8 16 64 16 4 4.
Definition param1 : INTER_PRED_PARAM := mkParam 4 227 16 352 4 24 16 0 16 4 4.
Definition picture0 (p : INTER_PRED_PARAM) (x y : Z) : Z := default 0 (peek frame0 (padd (src_of p) (y * src_stride p + x))).

Lemma frame0_byte q v : peek frame0 q = Some v -> 0 <= v < 256.
Proof.
  unfold peek. destruct (decide (0 <= q.2)); [|done]. destruct q as [[| |] o]; cbn [fst snd frame0].
  - rewrite list_lookup_fmap. destruct (seq 0 368 !! Z.to_nat o); [|done]. intros [= <-]. apply Z.mod_pos_bound. lia.
  - intros E. apply lookup_replicate in E as [-> _]. lia.
  - intros E. apply lookup_replicate in E as [-> _]. lia.
Qed.

Lemma picture0_byte p x y : 0 <= picture0 p x y < 256.
Proof. unfold picture0. destruct (peek frame0 _) as [v|] eqn:E; cbn [default]; [by eapply frame0_byte|lia]. Qed.

Lemma frame0_room o : 0 <= o < 368 -> is_Some (peek frame0 (Frame, o)).
Proof. intros H. unfold peek. cbn [fst snd]. rewrite decide_True by lia. apply lookup_lt_is_Some. unfold frame0. rewrite length_fmap, length_seq. lia. Qed.

Lemma frame0_sized : sized frame0.
Proof. split; intros o Ho; unfold peek; cbn [fst snd]; rewrite decide_True by lia; eexists; (apply lookup_replicate; split; [reflexivity|lia]). Qed.

Lemma kernels_step16 f n : 0 <= f < 505 -> kernels_in f 16 n.
Proof. intros Hf. split; [lia|]. intros x _. rewrite Z.mod_mul by lia. lia. Qed.

Lemma param0_valid : valid param0.
Proof. constructor; cbn; try lia; try discriminate; [apply kernels_step16; lia..|]. rewrite !elem_of_cons. lia. Qed.

Lemma copies_0 : copies 0 0.
Proof.
  intros k Hk. assert (Hc : k = 0 \/ k = 1 \/ k = 2 \/ k = 3 \/ k = 4 \/ k = 5 \/ k = 6 \/ k = 7) by lia. by destruct Hc as [->|[->|[->|[->|[->|[->|[->| ->]]]]]]].
Qed.

Lemma param1_valid : valid param1.
Proof. constructor; cbn; try lia; try discriminate; [apply kernels_step16; lia..| |intros; apply copies_0]. rewrite !elem_of_cons. lia. Qed.

Lemma same_block01 : same_block param0 param1.
Proof. done. Qed.

Lemma inter_prediction_witness : exists m', kernel [param0] [param1] frame0 = Ok m' /\
  holds m' param0 (fun x y => avg2 (prediction (picture0 param0) param0 x y) (prediction (picture0 param1) param1 x y)).
Proof.
  destruct (inter_prediction picture0 [param0] [param1] frame0) as (m' & E & _ & H & _).
  - apply picture0_byte.
  - intros p Hp. cbn [app] in Hp; rewrite !elem_of_cons in Hp. destruct Hp as [->|[->|Hp]]; [apply param0_valid|apply param1_valid|by apply elem_of_nil in Hp].
  - by repeat constructor.
  - by repeat constructor.
  - intros q Hq. apply list_elem_of_singleton in Hq as ->. exists param0. split; [by apply list_elem_of_singleton|done].
  - intros q p Hq Hp. apply list_elem_of_singleton in Hp as ->. cbn [app] in Hq; rewrite !elem_of_cons in Hq. destruct Hq as [->|[->|Hq]]; [| |by apply elem_of_nil in Hq]; intros x y x' y' Hx Hy Hx' Hy' Eq; unfold padd in Eq; injection Eq as Eq; change (-3 <= x < 8) in Hx; change (-3 <= y < 8) in Hy; cbn in Hx', Hy', Eq; lia.
  - apply frame0_sized.
  - intros p Hp x y Hx Hy. assert (Hs : is_Some (peek frame0 (padd (src_of p) (y * src_stride p + x)))); [|unfold picture0; destruct Hs as [v ->]; done].
    cbn [app] in Hp; rewrite !elem_of_cons in Hp. destruct Hp as [->|[->|Hp]]; [| |by apply elem_of_nil in Hp]; apply frame0_room; change (-3 <= x < 8) in Hx; change (-3 <= y < 8) in Hy; cbn; lia.
  - intros p q Hp (x & y & Hx & Hy & ->). apply list_elem_of_singleton in Hp as ->. apply frame0_room. cbn in *. lia.
  - exists m'. split; [exact E|]. exact (H param0 param1 (proj2 (list_elem_of_singleton _ _) eq_refl) (proj2 (list_elem_of_singleton _ _) eq_refl) same_block01).
Defined.

End InterPred.
