(* ===== verification/Client.v ===== *)
(** * Client: the C++ client library

    [cpp/RenderScript.cpp] (the error state), [cpp/Element.cpp], [cpp/Type.cpp], [cpp/Allocation.cpp],
    [cpp/Script.cpp], [cpp/Sampler.cpp] and [cpp/BaseObj.cpp] on a 64-bit host.

    A client object is a value with the address it was allocated at; what the client does to the
    runtime is the sequence of calls it sends through [RS::dispatch]. The pointers that the runtime
    answers with are a parameter. *)

From S2P Require Import Prelude CppUtils Component Objects RsType.
Import CppUtils Objects RsType.
Import Component.Component(RsDataType(..), RsDataKind(..)).

Module Client.

(** ** The context *)

Definition RS_SUCCESS : Z := 0.
Definition RS_ERROR_INVALID_PARAMETER : Z := 1.
Definition RS_ERROR_RUNTIME_ERROR : Z := 2.
Definition RS_ERROR_INVALID_ELEMENT : Z := 3.

(** The elements that the context creates once: [CREATE_USER], [CREATE_VECTOR] and [CREATE_PIXEL]. *)
Inductive ename := USER (dt : RsDataType) | VECTOR (dt : RsDataType) (n : Z) | PIXEL (dt : RsDataType) (dk : RsDataKind).

#[global] Instance ename_eq_dec : EqDecision ename.
Proof. solve_decision. Defined.

(** [Element]: the object at [this], with the runtime object [id]. *)
Inductive Element := mkElement {
  this : Z; id : Z;
  mSizeBytes : Z; mType : RsDataType; mKind : RsDataKind; mVectorSize : Z;
  mElements : list Element; mElementNames : list (list Z); mArraySizes : list Z;
  mOffsetInBytes : list Z; mVisibleElementMap : list Z }.

(** The calls that reach the runtime. Bytes behind a pointer are a list, [NULL] is 0. *)
Inductive call :=
| ElementCreate (dt : RsDataType) (dk : RsDataKind) (norm : bool) (size : Z)
| ElementCreate2 (ids : list Z) (names : list (list Z)) (sizes : list Z)
| TypeCreate (eid dimX dimY dimZ : Z) (mips faces : bool) (yuv : Z)
| AllocationCreateTyped (tid mips usage ptr : Z)
| SamplerCreate (min mag wrapS wrapT wrapR aniso : Z)
| ScriptIntrinsicCreate (intrinsic eid : Z)
| AllocationSyncAll (aid src : Z)
| AllocationIoSend (aid : Z)
| AllocationIoReceive (aid : Z)
| AllocationGetPointer (aid lod face z array : Z)
| Allocation1DData (aid off lod count : Z) (data : list Z) (size : Z)
| Allocation1DRead (aid off lod count size : Z)
| Allocation2DData (aid xoff yoff lod face w h : Z) (data : list Z) (size stride : Z)
| Allocation2DRead (aid xoff yoff lod face w h size stride : Z)
| Allocation3DData (aid xoff yoff zoff lod w h d : Z) (data : list Z) (size stride : Z)
| AllocationCopy2DRange (aid xoff yoff lod face w h src srcX srcY srcLod srcFace : Z)
| AllocationCopy3DRange (aid xoff yoff zoff lod w h d src srcX srcY srcZ srcLod : Z)
| ScriptInvokeV (sid slot : Z) (v : list Z)
| ScriptForEach (sid slot inp out : Z) (usr : list Z)
| ScriptBindAllocation (sid aid slot : Z)
| ScriptSetVarObj (sid slot obj : Z)
| ScriptSetVarV (sid slot : Z) (v : list Z).

(** Calls that only make new objects; they are sent whatever the error state is. *)
Definition creates (c : call) : bool :=
  match c with ElementCreate _ _ _ _ | ElementCreate2 _ _ _ | TypeCreate _ _ _ _ _ _ _ | SamplerCreate _ _ _ _ _ _ => true | _ => false end.

(** [class RS]: the first error, the elements made so far, the calls sent, and the next free address. *)
Record RS := mkRS { mCurrentError : Z; statics : list (ename * Element); samplers : list (Z * Z * Z * Z * Z); log : list call; fresh : Z }.

Definition M (A : Type) : Type := RS -> outcome (A * RS).
#[global] Instance M_ret : MRet M := fun A a s => Ok (a, s).
#[global] Instance M_bind : MBind M := fun A B f m s => match m s with Ok (a, s') => f a s' | Fault e => Fault e end.
Definition fault {A} (e : fault) : M A := fun _ => Fault e.
Definition of_outcome {A} (o : outcome A) : M A := fun s => match o with Ok a => Ok (a, s) | Fault e => Fault e end.

Definition getError : M Z := fun s => Ok (mCurrentError s, s).

(** Only the first error is kept. *)
Definition throwError (error : Z) : M unit := fun s =>
  if mCurrentError s =? RS_SUCCESS then Ok (tt, mkRS error (statics s) (samplers s) (log s) (fresh s)) else Ok (tt, s).

Section client.
(** What the runtime answers to the last of the calls sent so far. *)
Context (answer : list call -> Z).

Definition send (c : call) : M Z := fun s =>
  let l := log s ++ [c] in Ok (answer l, mkRS (mCurrentError s) (statics s) (samplers s) l (fresh s)).

Definition tryDispatch (c : call) : M unit := e ← getError; if e =? RS_SUCCESS then _ ← send c; mret tt else mret tt.
Definition createDispatch (c : M call) : M Z := e ← getError; if e =? RS_SUCCESS then x ← c; send x else mret 0.

(** The arguments of the macro are evaluated only without an error. *)
Definition tryDispatchM (c : M call) : M unit := e ← getError; if e =? RS_SUCCESS then x ← c; _ ← send x; mret tt else mret tt.

(** [new]: an address for an object. *)
Definition alloc : M Z := fun s => Ok (fresh s, mkRS (mCurrentError s) (statics s) (samplers s) (log s) (fresh s + 1)).

(** ** Elements *)

Definition GetSizeInBytesForType (dt : RsDataType) : Z :=
  match dt with
  | RS_TYPE_NONE => 0
  | RS_TYPE_SIGNED_8 | RS_TYPE_UNSIGNED_8 | RS_TYPE_BOOLEAN => 1
  | RS_TYPE_FLOAT_16 | RS_TYPE_SIGNED_16 | RS_TYPE_UNSIGNED_16 | RS_TYPE_UNSIGNED_5_6_5 | RS_TYPE_UNSIGNED_5_5_5_1 | RS_TYPE_UNSIGNED_4_4_4_4 => 2
  | RS_TYPE_FLOAT_32 | RS_TYPE_SIGNED_32 | RS_TYPE_UNSIGNED_32 => 4
  | RS_TYPE_FLOAT_64 | RS_TYPE_SIGNED_64 | RS_TYPE_UNSIGNED_64 => 8
  | RS_TYPE_MATRIX_4X4 => 16 * 4
  | RS_TYPE_MATRIX_3X3 => 9 * 4
  | RS_TYPE_MATRIX_2X2 => 4 * 4
  | RS_TYPE_TYPE | RS_TYPE_ALLOCATION | RS_TYPE_SAMPLER | RS_TYPE_SCRIPT | RS_TYPE_MESH
  | RS_TYPE_PROGRAM_FRAGMENT | RS_TYPE_PROGRAM_VERTEX | RS_TYPE_PROGRAM_RASTER | RS_TYPE_PROGRAM_STORE => 4
  | _ => 0
  end.

(** The constructor of a basic element. *)
Definition Element_leaf (dt : RsDataType) (dk : RsDataKind) (size this id : Z) : Element :=
  let tsize := GetSizeInBytesForType dt in
  let bytes :=
    match dt with
    | RS_TYPE_UNSIGNED_5_6_5 | RS_TYPE_UNSIGNED_4_4_4_4 | RS_TYPE_UNSIGNED_5_5_5_1 => tsize
    | _ => if size =? 3 then tsize *u32 4 else tsize *u32 size
    end in
  mkElement this id bytes dt dk size [] [] [] [] [].

Definition newElement (dt : RsDataType) (dk : RsDataKind) (norm : bool) (size : Z) : M (option Element) :=
  id ← send (ElementCreate dt dk norm size); a ← alloc; mret (Some (Element_leaf dt dk size a id)).

Definition createUser (dt : RsDataType) : M (option Element) := newElement dt RS_KIND_USER false 1.

Definition refuse {A} (e : Z) (r : A) : M A := _ ← throwError e; mret r.

Definition createVector (dt : RsDataType) (size : Z) : M (option Element) :=
  if (size <? 2) || (size >? 4) then refuse RS_ERROR_INVALID_PARAMETER None else newElement dt RS_KIND_USER false size.

Definition createPixel (dt : RsDataType) (dk : RsDataKind) : M (option Element) :=
  if negb (bool_decide (dk ∈ [RS_KIND_PIXEL_L; RS_KIND_PIXEL_A; RS_KIND_PIXEL_LA; RS_KIND_PIXEL_RGB; RS_KIND_PIXEL_RGBA; RS_KIND_PIXEL_DEPTH])) then refuse RS_ERROR_INVALID_PARAMETER None
  else if negb (bool_decide (dt ∈ [RS_TYPE_UNSIGNED_8; RS_TYPE_UNSIGNED_16; RS_TYPE_UNSIGNED_5_6_5; RS_TYPE_UNSIGNED_4_4_4_4; RS_TYPE_UNSIGNED_5_5_5_1])) then refuse RS_ERROR_INVALID_PARAMETER None
  else if bool_decide (dt = RS_TYPE_UNSIGNED_5_6_5) && negb (bool_decide (dk = RS_KIND_PIXEL_RGB)) then refuse RS_ERROR_INVALID_PARAMETER None
  else if bool_decide (dt = RS_TYPE_UNSIGNED_5_5_5_1) && negb (bool_decide (dk = RS_KIND_PIXEL_RGBA)) then refuse RS_ERROR_INVALID_PARAMETER None
  else if bool_decide (dt = RS_TYPE_UNSIGNED_4_4_4_4) && negb (bool_decide (dk = RS_KIND_PIXEL_RGBA)) then refuse RS_ERROR_INVALID_PARAMETER None
  else if bool_decide (dt = RS_TYPE_UNSIGNED_16) && negb (bool_decide (dk = RS_KIND_PIXEL_DEPTH)) then refuse RS_ERROR_INVALID_PARAMETER None
  else newElement dt dk true (match dk with RS_KIND_PIXEL_LA => 2 | RS_KIND_PIXEL_RGB => 3 | RS_KIND_PIXEL_RGBA => 4 | RS_KIND_PIXEL_DEPTH => 2 | _ => 1 end).

(** [Element::U8(rs)] and the like: made on first use and then kept by the context. *)
Definition element_static (n : ename) : M (option Element) := fun s =>
  match list_find (fun x => x.1 = n) (statics s) with
  | Some (_, (_, e)) => Ok (Some e, s)
  | None =>
      match (match n with USER dt => createUser dt | VECTOR dt v => createVector dt v | PIXEL dt dk => createPixel dt dk end) s with
      | Ok (Some e, s) => Ok (Some e, mkRS (mCurrentError s) ((n, e) :: statics s) (samplers s) (log s) (fresh s))
      | r => r
      end
  end.

Definition U8 : M (option Element) := element_static (USER RS_TYPE_UNSIGNED_8).
Definition U8_4 : M (option Element) := element_static (VECTOR RS_TYPE_UNSIGNED_8 4).
Definition YUV : M (option Element) := element_static (PIXEL RS_TYPE_UNSIGNED_8 RS_KIND_PIXEL_YUV).
Definition RGBA_8888 : M (option Element) := element_static (PIXEL RS_TYPE_UNSIGNED_8 RS_KIND_PIXEL_RGBA).

(** The members of [e] are read unless it is the same object. *)
Definition isCompatible (t : Element) (e : option Element) : outcome bool :=
  match e with
  | None => Fault NullDeref
  | Some e =>
      if this t =? this e then Ok true
      else Ok ((mSizeBytes t =? mSizeBytes e) && negb (bool_decide (mType t = RS_TYPE_NONE)) && bool_decide (mType t = mType e) && (mVectorSize t =? mVectorSize e))
  end.

(** ** Structures *)

(** The indices of the fields whose name does not begin with [#]. *)
Fixpoint visible (names : list (list Z)) (ct : Z) : list Z :=
  match names with
  | [] => []
  | n :: names => match n with 35 :: _ => visible names (ct + 1) | _ => ct :: visible names (ct + 1) end
  end.

Definition updateVisibleSubElements (e : Element) : Element :=
  match mElements e with
  | [] => e
  | _ => mkElement (this e) (id e) (mSizeBytes e) (mType e) (mKind e) (mVectorSize e) (mElements e) (mElementNames e) (mArraySizes e) (mOffsetInBytes e) (visible (mElementNames e) 0)
  end.

(** Offsets and the size: [mOffsetInBytes.push_back(mSizeBytes); mSizeBytes += ...]. *)
Fixpoint layout (es : list Element) (sizes : list Z) (ct off : Z) : outcome (list Z * Z) :=
  match es with
  | [] => Ok ([], off)
  | e :: es => n ← znth sizes ct; '(offs, total) ← layout es sizes (ct + 1) (off +u64 (mSizeBytes e *u64 n)); Ok (u32 off :: offs, total)
  end.

Definition Element_struct (es : list Element) (names : list (list Z)) (sizes : list Z) (this id : Z) : outcome Element :=
  '(offs, total) ← layout es sizes 0 0;
  Ok (updateVisibleSubElements (mkElement this id total RS_TYPE_NONE RS_KIND_USER 1 es names sizes offs [])).

(** The accessors of the fields; [getSubElementOffsetBytes] tests the emptiness the other way round. *)
Definition sub_index (e : Element) (index : Z) : M (option Z) :=
  if zlen (mVisibleElementMap e) =? 0 then refuse RS_ERROR_INVALID_PARAMETER None
  else if index >=? zlen (mVisibleElementMap e) then refuse RS_ERROR_INVALID_PARAMETER None
  else i ← of_outcome (znth (mVisibleElementMap e) index); mret (Some i).

Definition getSubElement (e : Element) (index : Z) : M (option Element) :=
  i ← sub_index e index; match i with None => mret None | Some i => x ← of_outcome (znth (mElements e) i); mret (Some x) end.

Definition getSubElementName (e : Element) (index : Z) : M (option (list Z)) :=
  i ← sub_index e index; match i with None => mret None | Some i => x ← of_outcome (znth (mElementNames e) i); mret (Some x) end.

Definition getSubElementArraySize (e : Element) (index : Z) : M Z :=
  i ← sub_index e index; match i with None => mret 0 | Some i => of_outcome (znth (mArraySizes e) i) end.

Definition getSubElementOffsetBytes (e : Element) (index : Z) : M Z :=
  if negb (zlen (mVisibleElementMap e) =? 0) then refuse RS_ERROR_INVALID_PARAMETER 0
  else if index >=? zlen (mVisibleElementMap e) then refuse RS_ERROR_INVALID_PARAMETER 0
  else i ← of_outcome (znth (mVisibleElementMap e) index); of_outcome (znth (mOffsetInBytes e) i).

(** [Element::Builder]. *)
Record EBuilder := mkEBuilder { eb_elements : list Element; eb_names : list (list Z); eb_sizes : list Z; mSkipPadding : bool }.
Definition EBuilder_new : EBuilder := mkEBuilder [] [] [] false.

(** The characters of [#padding_]. *)
Definition padding_prefix : list Z := [35; 112; 97; 100; 100; 105; 110; 103; 95].

Definition EBuilder_add (b : EBuilder) (e : option Element) (name : list Z) (arraySize : Z) : outcome EBuilder :=
  if mSkipPadding b && bool_decide (take 9 name = padding_prefix) then Ok (mkEBuilder (eb_elements b) (eb_names b) (eb_sizes b) false)
  else
    e ← of_option NullDeref e;
    Ok (mkEBuilder (eb_elements b ++ [e]) (eb_names b ++ [name]) (eb_sizes b ++ [arraySize]) (mVectorSize e =? 3)).

(** The array of elements that goes to the runtime holds the addresses of the client objects. *)
Definition EBuilder_create (b : EBuilder) : M (option Element) :=
  id ← send (ElementCreate2 (this <$> eb_elements b) (eb_names b) (eb_sizes b));
  a ← alloc;
  e ← of_outcome (Element_struct (eb_elements b) (eb_names b) (eb_sizes b) a id);
  mret (Some e).

(** ** Types *)

Record Ty := mkTy { ty_id : Z; mDimX : Z; mDimY : Z; mDimZ : Z; mDimMipmaps : bool; mDimFaces : bool; mElementCount : Z; mElement : option Element }.

Definition halve1 (x : Z) : Z := if x >? 1 then Z.shiftr x 1 else x.

(** The loop over the levels; a dimension of 32 bits is halved at most 31 times. *)
Fixpoint count_levels (fuel : nat) (hasLod : bool) (x y z faces count : Z) : outcome Z :=
  if hasLod && ((x >? 1) || (y >? 1) || (z >? 1)) then
    match fuel with
    | O => Fault OutOfFuel
    | S fuel => let x := halve1 x in let y := halve1 y in let z := halve1 z in count_levels fuel hasLod x y z faces (count +u32 (((x *u32 y) *u32 z) *u32 faces))
    end
  else Ok count.

Definition one_if_zero (x : Z) : Z := if x =? 0 then 1 else x.

Definition calcElementCount (mips hasFaces : bool) (dimX dimY dimZ : Z) : outcome Z :=
  let faces := if hasFaces then 6 else 1 in
  let x := one_if_zero dimX in let y := one_if_zero dimY in let z := one_if_zero dimZ in
  count_levels 32 mips x y z faces (((x *u32 y) *u32 z) *u32 faces).

Definition getID (e : option Element) : M Z := e ← of_outcome (of_option NullDeref e); mret (id e).

Definition newType (e : option Element) (dimX dimY dimZ : Z) (mips faces : bool) : M Ty :=
  eid ← getID e;
  i ← send (TypeCreate eid dimX dimY dimZ mips faces 0);
  n ← of_outcome (calcElementCount mips faces dimX dimY dimZ);
  mret (mkTy i dimX dimY dimZ mips faces n e).

Definition Type_create (e : option Element) (dimX dimY dimZ : Z) : M Ty := newType e dimX dimY dimZ false false.

(** [Type::Builder]: the constructor leaves [mYuvFormat] unset. *)
Record TBuilder := mkTB { tb_e : option Element; tb_x : Z; tb_y : Z; tb_z : Z; tb_yuv : option Z; tb_mips : bool; tb_faces : bool }.
Definition TBuilder_new (e : option Element) : TBuilder := mkTB e 0 0 0 None false false.
Definition setX (b : TBuilder) (v : Z) : TBuilder := mkTB (tb_e b) v (tb_y b) (tb_z b) (tb_yuv b) (tb_mips b) (tb_faces b).
Definition setY (b : TBuilder) (v : Z) : TBuilder := mkTB (tb_e b) (tb_x b) v (tb_z b) (tb_yuv b) (tb_mips b) (tb_faces b).
Definition setZ (b : TBuilder) (v : Z) : TBuilder := mkTB (tb_e b) (tb_x b) (tb_y b) v (tb_yuv b) (tb_mips b) (tb_faces b).
Definition setMipmaps (b : TBuilder) (v : bool) : TBuilder := mkTB (tb_e b) (tb_x b) (tb_y b) (tb_z b) (tb_yuv b) v (tb_faces b).
Definition setFaces (b : TBuilder) (v : bool) : TBuilder := mkTB (tb_e b) (tb_x b) (tb_y b) (tb_z b) (tb_yuv b) (tb_mips b) v.

Definition setYuvFormat (b : TBuilder) (format : Z) : M TBuilder :=
  let set := if format >=? 3 then b else mkTB (tb_e b) (tb_x b) (tb_y b) (tb_z b) (Some format) (tb_mips b) (tb_faces b) in
  if format =? 0 then mret set
  else
    yuv ← YUV;
    e ← of_outcome (of_option NullDeref (tb_e b));
    ok ← of_outcome (isCompatible e yuv);
    mret (if ok : bool then set else b).

(** The checks of the dimensions only write to the log, and the pixel format that is computed from
    [mYuvFormat] is not passed on. *)
Definition TBuilder_create (b : TBuilder) : M Ty := newType (tb_e b) (tb_x b) (tb_y b) (tb_z b) (tb_mips b) (tb_faces b).

(** ** Allocations *)

Definition USAGE_SCRIPT : Z := 1.
Definition USAGE_GRAPHICS_TEXTURE : Z := 2.
Definition USAGE_GRAPHICS_VERTEX : Z := 4.
Definition USAGE_GRAPHICS_CONSTANTS : Z := 8.
Definition USAGE_IO_INPUT : Z := 0x20.
Definition USAGE_IO_OUTPUT : Z := 0x40.
Definition USAGE_SHARED : Z := 0x80.

(** An allocation without an adapter; level, face and slice stay as the constructor sets them. *)
Record Allocation := mkAllocation { a_id : Z; a_type : Ty; mUsage : Z; mSelectedLOD : Z; mSelectedFace : Z; mCurrentDimX : Z; mCurrentDimY : Z; mCurrentDimZ : Z; mCurrentCount : Z }.

Definition updateCacheInfo (t : Ty) : Z :=
  let n := mDimX t in
  let n := if mDimY t >? 1 then n *u32 mDimY t else n in
  if mDimZ t >? 1 then n *u32 mDimZ t else n.

Definition Allocation_new (i : Z) (t : Ty) (usage : Z) : Allocation := mkAllocation i t usage 0 0 (mDimX t) (mDimY t) (mDimZ t) (updateCacheInfo t).

Definition createTyped (t : Ty) (mips usage ptr : Z) : M (option Allocation) :=
  e ← getError;
  i ← (if e =? RS_SUCCESS then send (AllocationCreateTyped (ty_id t) mips usage ptr) else mret 0);
  if i =? 0 then refuse RS_ERROR_RUNTIME_ERROR None else mret (Some (Allocation_new i t usage)).

Definition createSized (e : option Element) (count usage : Z) : M (option Allocation) :=
  t ← TBuilder_create (setX (TBuilder_new e) (u32 count)); createTyped t 0 usage 0.

Definition createSized2D (e : option Element) (x y usage : Z) : M (option Allocation) :=
  t ← TBuilder_create (setY (setX (TBuilder_new e) (u32 x)) (u32 y)); createTyped t 0 usage 0.

Definition syncAll (a : Allocation) (src : Z) : M unit :=
  if bool_decide (src ∈ [USAGE_SCRIPT; USAGE_GRAPHICS_CONSTANTS; USAGE_GRAPHICS_TEXTURE; USAGE_GRAPHICS_VERTEX; USAGE_SHARED]) then tryDispatch (AllocationSyncAll (a_id a) src)
  else throwError RS_ERROR_INVALID_PARAMETER.

Definition ioSendOutput (a : Allocation) : M unit :=
  if Z.land (mUsage a) USAGE_IO_OUTPUT =? 0 then throwError RS_ERROR_INVALID_PARAMETER else tryDispatch (AllocationIoSend (a_id a)).

Definition ioGetInput (a : Allocation) : M unit :=
  if Z.land (mUsage a) USAGE_IO_INPUT =? 0 then throwError RS_ERROR_INVALID_PARAMETER else tryDispatch (AllocationIoReceive (a_id a)).

(** [present]: whether the runtime has the entry point, which older versions lack. *)
Definition getPointer (present : bool) (a : Allocation) : M Z :=
  if Z.land (mUsage a) USAGE_SHARED =? 0 then refuse RS_ERROR_INVALID_PARAMETER 0
  else if negb present then refuse RS_ERROR_RUNTIME_ERROR 0
  else
    p ← send (AllocationGetPointer (a_id a) 0 0 0 0);
    e ← getError;
    if e =? RS_SUCCESS then mret p else refuse RS_ERROR_RUNTIME_ERROR 0.

(** The size of an element of the allocation. *)
Definition elem_bytes (a : Allocation) : M Z := e ← of_outcome (of_option NullDeref (mElement (a_type a))); mret (mSizeBytes e).

(** [off + count] is computed with 64 bits. *)
Definition copy1DRangeFrom (a : Allocation) (off count : Z) (data : list Z) : M unit :=
  if count <? 1 then throwError RS_ERROR_INVALID_PARAMETER
  else if (off +u64 count) >? mCurrentCount a then throwError RS_ERROR_INVALID_PARAMETER
  else tryDispatchM (n ← elem_bytes a; mret (Allocation1DData (a_id a) off (mSelectedLOD a) count data (count *u64 n))).

Definition copy1DRangeTo (a : Allocation) (off count : Z) : M unit :=
  if count <? 1 then throwError RS_ERROR_INVALID_PARAMETER
  else if (off +u64 count) >? mCurrentCount a then throwError RS_ERROR_INVALID_PARAMETER
  else tryDispatchM (n ← elem_bytes a; mret (Allocation1DRead (a_id a) off (mSelectedLOD a) count (count *u64 n))).

Definition copy1DRangeFromAllocation (a : Allocation) (off count : Z) (src : Allocation) (dataOff : Z) : M unit :=
  tryDispatch (AllocationCopy2DRange (a_id a) off 0 (mSelectedLOD a) (mSelectedFace a) count 1 (a_id src) dataOff 0 (mSelectedLOD src) (mSelectedFace src)).

Definition copy1DFrom (a : Allocation) (data : list Z) : M unit := copy1DRangeFrom a 0 (mCurrentCount a) data.
Definition copy1DTo (a : Allocation) : M unit := copy1DRangeTo a 0 (mCurrentCount a).

(** The sums are computed with 32 bits. *)
Definition validate2DRange (a : Allocation) (xoff yoff w h : Z) : M unit :=
  if ((xoff +u32 w) >? mCurrentDimX a) || ((yoff +u32 h) >? mCurrentDimY a) then throwError RS_ERROR_INVALID_PARAMETER else mret tt.

Definition copy2DStridedFrom (a : Allocation) (xoff yoff w h : Z) (data : list Z) (stride : Z) : M unit :=
  _ ← validate2DRange a xoff yoff w h;
  tryDispatchM (n ← elem_bytes a; mret (Allocation2DData (a_id a) xoff yoff (mSelectedLOD a) (mSelectedFace a) w h data ((w *u32 h) *u64 n) stride)).

Definition copy2DStridedTo (a : Allocation) (xoff yoff w h stride : Z) : M unit :=
  _ ← validate2DRange a xoff yoff w h;
  tryDispatchM (n ← elem_bytes a; mret (Allocation2DRead (a_id a) xoff yoff (mSelectedLOD a) (mSelectedFace a) w h ((w *u32 h) *u64 n) stride)).

Definition copy2DRangeFrom (a : Allocation) (xoff yoff w h : Z) (data : list Z) : M unit :=
  _ ← validate2DRange a xoff yoff w h;
  tryDispatchM (n ← elem_bytes a; mret (Allocation2DData (a_id a) xoff yoff (mSelectedLOD a) (mSelectedFace a) w h data ((w *u32 h) *u64 n) (w *u64 n))).

Definition copy2DRangeTo (a : Allocation) (xoff yoff w h : Z) : M unit :=
  _ ← validate2DRange a xoff yoff w h;
  tryDispatchM (n ← elem_bytes a; mret (Allocation2DRead (a_id a) xoff yoff (mSelectedLOD a) (mSelectedFace a) w h ((w *u32 h) *u64 n) (w *u64 n))).

Definition copy2DRangeFromAllocation (a : Allocation) (xoff yoff w h : Z) (src : Allocation) (dataXoff dataYoff : Z) : M unit :=
  _ ← validate2DRange a xoff yoff w h;
  tryDispatch (AllocationCopy2DRange (a_id a) xoff yoff (mSelectedLOD a) (mSelectedFace a) w h (a_id src) dataXoff dataYoff (mSelectedLOD src) (mSelectedFace src)).

Definition validate3DRange (a : Allocation) (xoff yoff zoff w h d : Z) : M unit :=
  if ((xoff +u32 w) >? mCurrentDimX a) || ((yoff +u32 h) >? mCurrentDimY a) || ((zoff +u32 d) >? mCurrentDimZ a) then throwError RS_ERROR_INVALID_PARAMETER else mret tt.

Definition copy3DRangeFrom (a : Allocation) (xoff yoff zoff w h d : Z) (data : list Z) : M unit :=
  _ ← validate3DRange a xoff yoff zoff w h d;
  tryDispatchM (n ← elem_bytes a; mret (Allocation3DData (a_id a) xoff yoff zoff (mSelectedLOD a) w h d data (((w *u32 h) *u32 d) *u64 n) (w *u64 n))).

(** The extent that is validated is the position in the source. *)
Definition copy3DRangeFromAllocation (a : Allocation) (xoff yoff zoff w h d : Z) (src : Allocation) (dataXoff dataYoff dataZoff : Z) : M unit :=
  _ ← validate3DRange a xoff yoff zoff dataXoff dataYoff dataZoff;
  tryDispatch (AllocationCopy3DRange (a_id a) xoff yoff zoff (mSelectedLOD a) w h d (a_id src) dataXoff dataYoff dataZoff (mSelectedLOD src)).

(** ** Scripts and samplers *)

Definition objID (a : option Allocation) : Z := match a with None => 0 | Some a => a_id a end.

Definition invoke (sid slot : Z) (v : list Z) : M unit := tryDispatch (ScriptInvokeV sid slot v).
Definition bindAllocation (sid : Z) (va : option Allocation) (slot : Z) : M unit := tryDispatch (ScriptBindAllocation sid (objID va) slot).
Definition setVarObj (sid index : Z) (o : option Allocation) : M unit := tryDispatch (ScriptSetVarObj sid index (objID o)).
Definition setVar (sid index : Z) (v : list Z) : M unit := tryDispatch (ScriptSetVarV sid index v).

Definition forEach (sid slot : Z) (ain aout : option Allocation) (usr : list Z) : M unit :=
  _ ← (match ain, aout with None, None => throwError RS_ERROR_INVALID_PARAMETER | _, _ => mret tt end);
  tryDispatch (ScriptForEach sid slot (objID ain) (objID aout) usr).

Definition RS_SAMPLER_NEAREST : Z := 0.
Definition RS_SAMPLER_LINEAR : Z := 1.
Definition RS_SAMPLER_LINEAR_MIP_LINEAR : Z := 2.
Definition RS_SAMPLER_WRAP : Z := 3.
Definition RS_SAMPLER_CLAMP : Z := 4.
Definition RS_SAMPLER_MIRRORED_REPEAT : Z := 6.

Definition Sampler_create (min mag wrapS wrapT aniso : Z) : M Z := send (SamplerCreate min mag wrapS wrapT RS_SAMPLER_WRAP aniso).

(** [CREATE_SAMPLER(N, MIN, MAG, WRAPS, WRAPT)]: one sampler for each name, made on first use. *)
Definition sampler_static (MIN MAG WRAPS WRAPT : Z) : M Z := fun s =>
  match list_find (fun x => x.1 = (MIN, MAG, WRAPS, WRAPT)) (samplers s) with
  | Some (_, (_, i)) => Ok (i, s)
  | None =>
      match Sampler_create MIN MAG WRAPS WRAPT 0 s with
      | Ok (i, s) => Ok (i, mkRS (mCurrentError s) (statics s) ((MIN, MAG, WRAPS, WRAPT, i) :: samplers s) (log s) (fresh s))
      | Fault e => Fault e
      end
  end.

Definition CLAMP_NEAREST : M Z := sampler_static RS_SAMPLER_CLAMP RS_SAMPLER_CLAMP RS_SAMPLER_NEAREST RS_SAMPLER_NEAREST.
Definition CLAMP_LINEAR : M Z := sampler_static RS_SAMPLER_CLAMP RS_SAMPLER_CLAMP RS_SAMPLER_LINEAR RS_SAMPLER_LINEAR.
Definition WRAP_NEAREST : M Z := sampler_static RS_SAMPLER_WRAP RS_SAMPLER_WRAP RS_SAMPLER_NEAREST RS_SAMPLER_NEAREST.
Definition WRAP_LINEAR : M Z := sampler_static RS_SAMPLER_WRAP RS_SAMPLER_WRAP RS_SAMPLER_LINEAR RS_SAMPLER_LINEAR.

End client.

(** ** Element counts *)

(** A missing dimension counts as one cell. *)
Definition cells_dim (d : Z) (i : nat) : Z := Z.max 1 (lod_dim d i).

Lemma cells_dim_halve d i : 0 <= d -> halve1 (cells_dim d i) = cells_dim d (S i).
Proof.
  intros Hd. unfold cells_dim. rewrite <- halve_lod_dim by done. pose proof (lod_dim_range d i Hd). unfold halve1, halve.
  destruct (Z.gtb_spec (Z.max 1 (lod_dim d i)) 1), (Z.gtb_spec (lod_dim d i) 1); rewrite ?Z.shiftr_div_pow2 by lia; change (2 ^ 1) with 2; Z.to_euclidean_division_equations; lia.
Qed.

Lemma lod_dim_big d i : 0 < d -> Z.of_nat i < Z.log2 d -> 1 < lod_dim d i.
Proof.
  intros Hd Hi. unfold lod_dim. destruct (Z.eqb_spec d 0); [lia|]. pose proof (Z.log2_spec d Hd) as [H _]. assert (H2 : 2 ^ (Z.of_nat i + 1) <= d) by (etrans; [apply Z.pow_le_mono_r; [lia|]|exact H]; lia).
  rewrite Z.pow_add_r in H2 by lia. pose proof (Z.pow_pos_nonneg 2 (Z.of_nat i) ltac:(lia) ltac:(lia)). assert (2 <= d / 2 ^ Z.of_nat i) by (apply Z.div_le_lower_bound; lia). lia.
Qed.

Definition more (dx dy dz : Z) (i : nat) : bool := (cells_dim dx i >? 1) || (cells_dim dy i >? 1) || (cells_dim dz i >? 1).

(** The client stops at the last level of the runtime. *)
Lemma more_levels dx dy dz i : 1 <= dx < 2 ^ 32 -> 0 <= dy < 2 ^ 32 -> 0 <= dz < 2 ^ 32 -> let n := Z.to_nat (lod_count true dx dy dz) in
  (i <= pred n)%nat -> more dx dy dz i = bool_decide (i < pred n)%nat.
Proof.
  intros Hx Hy Hz n Hi. pose proof (last_level dx dy dz ltac:(lia) Hy Hz) as HL. cbv zeta in HL. fold n in HL. unfold more, cells_dim.
  case_bool_decide as E; [|assert (i = pred n) as -> by lia; destruct HL as (A & B & C); destruct (Z.gtb_spec (Z.max 1 (lod_dim dx (pred n))) 1), (Z.gtb_spec (Z.max 1 (lod_dim dy (pred n))) 1), (Z.gtb_spec (Z.max 1 (lod_dim dz (pred n))) 1); try lia; done].
  assert (Hlog : forall d, 0 <= d < 2 ^ 32 -> 0 <= Z.log2 d < 32). { intros d Hd. split; [apply Z.log2_nonneg|]. destruct (decide (d = 0)) as [->|]; [done|]. apply Z.log2_lt_pow2; lia. }
  pose proof (Hlog dx ltac:(lia)). pose proof (Hlog dy Hy). pose proof (Hlog dz Hz).
  assert (En : lod_count true dx dy dz = Z.max (Z.max (Z.log2 dx + 1) (Z.log2 dy + 1)) (Z.log2 dz + 1)) by (unfold lod_count; rewrite !rsFindHighBit_log2, !rsMax_spec, !u32_small by lia; done).
  assert (Hmax : Z.of_nat i < Z.log2 dx \/ Z.of_nat i < Z.log2 dy \/ Z.of_nat i < Z.log2 dz) by lia.
  assert (Hpos : forall d, Z.of_nat i < Z.log2 d -> 0 < d) by (intros d Hd; destruct (Z.le_gt_cases d 0); [rewrite Z.log2_nonpos in Hd by done; lia|done]).
  destruct Hmax as [H'|[H'|H']]; pose proof (lod_dim_big _ i (Hpos _ H') H');
    repeat match goal with |- context [Z.gtb ?a ?b] => destruct (Z.gtb_spec a b) end; cbn; done || lia.
Qed.

Lemma u32_mul3 a b c d : 0 <= a -> 0 <= b -> 0 <= c -> a * b * c < 2 ^ 32 -> 1 <= b -> 1 <= c -> u32 (u32 (u32 (a * b) * c) * d) = u32 (a * b * c * d).
Proof. intros. rewrite (u32_small (a * b)), (u32_small (a * b * c)) by nia. done. Qed.

Lemma cells_product dx dy dz i : 1 <= dx -> 0 <= dy -> 0 <= dz -> cells_dim dx i * cells_dim dy i * cells_dim dz i = lod_cells dx dy dz i.
Proof.
  intros Hx Hy Hz. unfold lod_cells, cells_dim. assert (1 <= lod_dim dx i) by (unfold lod_dim; destruct (Z.eqb_spec dx 0); lia). rewrite (Z.max_r 1 (lod_dim dx i)), (Z.max_comm 1 (lod_dim dy i)), (Z.max_comm 1 (lod_dim dz i)) by lia. done.
Qed.

Section count.
Context (dx dy dz F : Z) (Hx : 1 <= dx < 2 ^ 32) (Hy : 0 <= dy < 2 ^ 32) (Hz : 0 <= dz < 2 ^ 32) (Hsm : dx * Z.max dy 1 * Z.max dz 1 < 2 ^ 32).

Lemma level_product i : u32 (u32 (u32 (cells_dim dx i * cells_dim dy i) * cells_dim dz i) * F) = u32 (lod_cells dx dy dz i * F).
Proof.
  pose proof (cells_product dx dy dz i ltac:(lia) ltac:(lia) ltac:(lia)) as E. pose proof (lod_cells_range dx dy dz i ltac:(lia) ltac:(lia) ltac:(lia)). rewrite <- E in *. apply u32_mul3; unfold cells_dim in *; lia.
Qed.

Lemma count_levels_spec m : forall i fuel cnt, let n := Z.to_nat (lod_count true dx dy dz) in (i + m = pred n)%nat -> (m <= fuel)%nat -> 0 <= cnt < 2 ^ 32 ->
  count_levels fuel true (cells_dim dx i) (cells_dim dy i) (cells_dim dz i) F cnt = Ok (u32 (cnt + cells_from dx dy dz (S i) m * F)).
Proof.
  induction m as [|m IH]; intros i fuel cnt n Hi Hf Hc; pose proof (more_levels dx dy dz i Hx Hy Hz) as Hm; cbv zeta in Hm; fold n in Hm; specialize (Hm ltac:(lia)); unfold more in Hm.
  - destruct fuel; cbn [count_levels andb]; rewrite Hm, bool_decide_false by lia; cbn; rewrite Z.add_0_r, u32_small by lia; done.
  - destruct fuel as [|fuel]; [lia|]. cbn [count_levels andb]. rewrite Hm, bool_decide_true by lia. rewrite !cells_dim_halve by lia. rewrite level_product. rewrite IH; [|lia|lia|apply Z.mod_pos_bound; lia].
    f_equal. unfold cells_from. cbn [seq foldr]. unfold u32, wrap. rewrite Z.add_mod_idemp_r, Z.add_mod_idemp_l by lia. f_equal. lia.
Qed.

End count.

(** The client counts as many elements as the runtime, modulo [2 ^ 32]. *)
Theorem client_count_agrees t t' : let h := t_mHal t in 1 <= dimX h -> dims_ok t -> dimYuv h = 0 -> lodCount h = 0 ->
  dimX h * Z.max (dimY h) 1 * Z.max (dimZ h) 1 < 2 ^ 32 -> compute t = Ok t' ->
  calcElementCount (t_mDimLOD t) (faces h) (dimX h) (dimY h) (dimZ h) = Ok (u32 (t_mCellCount t')).
Proof.
  intros h H1 Hd Hyuv Hlc Hsm. rewrite compute_fresh by done. intros E. apply (inj Ok) in E. rewrite <- E. cbn [t_mCellCount laid_out]. fold h. destruct Hd as (Hx & Hy & Hz). fold h in Hx, Hy, Hz.
  set (F := if faces h then 6 else 1). set (n := Z.to_nat (lod_count (t_mDimLOD t) (dimX h) (dimY h) (dimZ h))). pose proof (lod_count_range (t_mDimLOD t) _ _ _ Hx Hy Hz) as Hn. assert (Hn' : (1 <= n <= 32)%nat) by lia. assert (Hp : (pred n <= 32)%nat) by lia.
  assert (Ecells : u32 (if faces h then add_cells (dimX h) (dimY h) (dimZ h) 0 n 0 *u64 6 else add_cells (dimX h) (dimY h) (dimZ h) 0 n 0) = u32 (cells_from (dimX h) (dimY h) (dimZ h) 0 n * F)).
  { rewrite add_cells_sum by lia. rewrite Z.add_0_l. pose proof (cells_from_range (dimX h) (dimY h) (dimZ h) n 0 ltac:(lia) ltac:(lia) ltac:(lia)) as Hr. unfold F. destruct (faces h); [rewrite u64_small by nia|]; f_equal; lia. }
  rewrite Ecells. assert (E1 : forall d, 0 <= d -> one_if_zero d = cells_dim d 0) by (intros d Hd; unfold one_if_zero, cells_dim; rewrite lod_dim_0 by done; destruct (Z.eqb_spec d 0); lia).
  unfold calcElementCount. rewrite !E1 by lia. fold F. rewrite level_product by lia. destruct (t_mDimLOD t).
  - rewrite (count_levels_spec (dimX h) (dimY h) (dimZ h) F ltac:(lia) Hy Hz Hsm (pred n) 0 32 (u32 (lod_cells (dimX h) (dimY h) (dimZ h) 0 * F)) eq_refl Hp (Z.mod_pos_bound _ (2 ^ 32) ltac:(lia))). f_equal. destruct n as [|n']; [lia|]. cbn [pred]. unfold cells_from. cbn [seq foldr]. unfold u32, wrap. rewrite Z.add_mod_idemp_l by lia. f_equal. lia.
  - change n with 1%nat. cbn [count_levels andb]. unfold cells_from. cbn [seq foldr]. by rewrite Z.add_0_r.
Qed.

Lemma client_count_agrees_witness : let t := mkType true None 0 (mkTypeHal None 5 3 0 [] [] [] 0 0 true) in exists t', compute t = Ok t' /\ calcElementCount true true 5 3 0 = Ok (u32 (t_mCellCount t')).
Proof.
  intros t. destruct (compute t) as [t'|f] eqn:E; [|vm_compute in E; discriminate E]. exists t'. split; [reflexivity|].
  apply (client_count_agrees t t'); [done|vm_compute; split_and!; congruence|done|done|done|exact E].
Defined.

(** ** Elements in the client and in the runtime *)

(** The types that the client can size, as a vector of [v] lanes or as a pixel. *)
Definition client_types : list RsDataType :=
  [RS_TYPE_FLOAT_16; RS_TYPE_FLOAT_32; RS_TYPE_FLOAT_64; RS_TYPE_SIGNED_8; RS_TYPE_SIGNED_16; RS_TYPE_SIGNED_32; RS_TYPE_SIGNED_64; RS_TYPE_UNSIGNED_8;
   RS_TYPE_UNSIGNED_16; RS_TYPE_UNSIGNED_32; RS_TYPE_UNSIGNED_64; RS_TYPE_BOOLEAN; RS_TYPE_MATRIX_4X4; RS_TYPE_MATRIX_3X3; RS_TYPE_MATRIX_2X2].
Definition object_types : list RsDataType :=
  [RS_TYPE_TYPE; RS_TYPE_ALLOCATION; RS_TYPE_SAMPLER; RS_TYPE_SCRIPT; RS_TYPE_MESH; RS_TYPE_PROGRAM_FRAGMENT; RS_TYPE_PROGRAM_VERTEX; RS_TYPE_PROGRAM_RASTER; RS_TYPE_PROGRAM_STORE].

(** What the client asks for agrees with what it keeps: the runtime lays out an element of as many
    bytes and lanes. *)
Definition agrees (dt : RsDataType) (dk : RsDataKind) (norm : bool) (size : Z) (e : Element) : Prop :=
  exists c, Component.set Component.Component_new dt dk norm size = Ok c /\ Component.mBits c = 8 * mSizeBytes e /\ Component.mVectorSize c = mVectorSize e /\ Component.mType c = mType e.

Lemma leaf_agrees dt dk norm size a i : (dt ∈ client_types /\ 1 <= size <= 4) \/ (dt ∈ object_types /\ size = 1) \/ (dt = RS_TYPE_UNSIGNED_5_6_5 /\ size = 3) \/ (dt ∈ [RS_TYPE_UNSIGNED_5_5_5_1; RS_TYPE_UNSIGNED_4_4_4_4] /\ size = 4) ->
  agrees dt dk norm size (Element_leaf dt dk size a i).
Proof.
  assert (Hobj : forall dt', dt' ∈ object_types -> agrees dt' dk norm 1 (Element_leaf dt' dk 1 a i)).
  { intros dt' H. unfold object_types in H. rewrite !elem_of_cons, elem_of_nil in H. destruct_or? H; try done; subst; eexists; split_and!; reflexivity. }
  intros [[Hd Hs]|[[Hd ->]|[[-> ->]|[Hd ->]]]]; [|by apply Hobj|eexists; split_and!; reflexivity|].
  - assert (size = 1 \/ size = 2 \/ size = 3 \/ size = 4) as Hsize by lia. unfold client_types in Hd. rewrite !elem_of_cons, elem_of_nil in Hd. destruct_or? Hd; try done; subst; destruct_or? Hsize; subst; eexists; split_and!; reflexivity.
  - rewrite !elem_of_cons, elem_of_nil in Hd. destruct_or? Hd; try done; subst; eexists; split_and!; reflexivity.
Qed.

Section agreement.
Context (answer : list call -> Z).

Lemma newElement_agrees dt dk norm size s r s' : newElement answer dt dk norm size s = Ok (r, s') ->
  exists a i, r = Some (Element_leaf dt dk size a i) /\ log s' = log s ++ [ElementCreate dt dk norm size].
Proof. intros E. injection E as <- <-. eauto. Qed.

Lemma refuse_none {A} e s (r : option A) s' : refuse e None s = Ok (r, s') -> r = None.
Proof. unfold refuse, throwError, mbind, M_bind. destruct (mCurrentError s =? RS_SUCCESS); intros E; by injection E as <- _. Qed.

(** Each element that the client makes, for any type it can size, is laid out by the runtime with the
    size and the number of lanes that the client computes for itself. *)
Theorem client_element_layout s r s' e : (exists dt, dt ∈ client_types ++ object_types /\ createUser answer dt s = Ok (r, s')) \/ (exists dt v, dt ∈ client_types /\ createVector answer dt v s = Ok (r, s')) \/ (exists dt dk, createPixel answer dt dk s = Ok (r, s')) ->
  r = Some e -> exists dt dk norm size, log s' = log s ++ [ElementCreate dt dk norm size] /\ agrees dt dk norm size e.
Proof.
  assert (Hnew : forall dt dk norm size, newElement answer dt dk norm size s = Ok (r, s') -> (dt ∈ client_types /\ 1 <= size <= 4) \/ (dt ∈ object_types /\ size = 1) \/ (dt = RS_TYPE_UNSIGNED_5_6_5 /\ size = 3) \/ (dt ∈ [RS_TYPE_UNSIGNED_5_5_5_1; RS_TYPE_UNSIGNED_4_4_4_4] /\ size = 4) -> r = Some e ->
    exists dt dk norm size, log s' = log s ++ [ElementCreate dt dk norm size] /\ agrees dt dk norm size e).
  { intros dt dk norm size E Hd Hr. destruct (newElement_agrees _ _ _ _ _ _ _ E) as (a & i & Er & El). exists dt, dk, norm, size. split; [done|]. rewrite Er in Hr. injection Hr as <-. by apply leaf_agrees. }
  intros [(dt & Hd & E)|[(dt & v & Hd & E)|(dt & dk & E)]] Hr.
  - apply elem_of_app in Hd. apply (Hnew _ _ _ _ E); [|done]. destruct Hd; [left; split; [done|lia]|right; left; done].
  - unfold createVector in E. destruct (Z.ltb_spec v 2), (Z.gtb_spec v 4); cbn [orb] in E; try (by rewrite (refuse_none _ _ _ _ E) in Hr). apply (Hnew _ _ _ _ E); [left; split; [done|lia]|done].
  - unfold createPixel in E. repeat match type of E with (if ?b then _ else _) _ = _ => destruct b eqn:?; [by rewrite (refuse_none _ _ _ _ E) in Hr|] end. apply (Hnew _ _ _ _ E); [|done].
    destruct dt; try discriminate; destruct dk; try discriminate; compute_done.
Qed.

End agreement.

Lemma client_element_layout_witness : exists e s', createPixel (fun _ => 7) RS_TYPE_UNSIGNED_5_6_5 RS_KIND_PIXEL_RGB (mkRS 0 [] [] [] 1) = Ok (Some e, s') /\
  exists dt dk norm size, log s' = [] ++ [ElementCreate dt dk norm size] /\ agrees dt dk norm size e.
Proof.
  eexists _, _. split; [vm_compute; reflexivity|]. eapply (client_element_layout (fun _ => 7) (mkRS 0 [] [] [] 1)); [right; right; exists RS_TYPE_UNSIGNED_5_6_5, RS_KIND_PIXEL_RGB; vm_compute; reflexivity|reflexivity].
Defined.

(** An element of type [ELEMENT] has no bytes for the client and four for the runtime. *)
Lemma element_element_size a i : mSizeBytes (Element_leaf RS_TYPE_ELEMENT RS_KIND_USER 1 a i) = 0 /\ exists c, Component.set Component.Component_new RS_TYPE_ELEMENT RS_KIND_USER false 1 = Ok c /\ Component.mBits c = 32.
Proof. split; [done|]. eexists. split; reflexivity. Qed.

(** ** After an error nothing is sent but requests for new objects *)

Definition effects (s : RS) : list call := filter (fun c => creates c = false) (log s).

Definition quiet {A} (m : M A) : Prop := forall s a s', mCurrentError s <> RS_SUCCESS -> m s = Ok (a, s') -> mCurrentError s' = mCurrentError s /\ effects s' = effects s.

Create HintDb quiet discriminated.

Lemma quiet_ret {A} (a : A) : quiet (mret a : M A).
Proof. intros s x s' _ E. by injection E as _ <-. Qed.

Lemma quiet_bind {A B} (m : M A) (f : A -> M B) : quiet m -> (forall a, quiet (f a)) -> quiet (m ≫= f).
Proof.
  intros Hm Hf s b s' He E. unfold mbind, M_bind in E. destruct (m s) as [[a s1]|] eqn:E1; [|done]. destruct (Hm _ _ _ He E1) as [H1 H2]. destruct (Hf a s1 b s') as [H3 H4]; [congruence|done|]. split; congruence.
Qed.

Lemma quiet_of_outcome {A} (o : outcome A) : quiet (of_outcome o).
Proof. intros s a s' _ E. unfold of_outcome in E. destruct o; [|done]. by injection E as _ <-. Qed.

Lemma quiet_getError : quiet getError.
Proof. intros s a s' _ E. by injection E as _ <-. Qed.

Lemma quiet_throwError e : quiet (throwError e).
Proof. intros s a s' He E. unfold throwError in E. destruct (Z.eqb_spec (mCurrentError s) RS_SUCCESS); [done|]. by injection E as _ <-. Qed.

Lemma quiet_refuse {A} e (r : A) : quiet (refuse e r).
Proof. apply quiet_bind; [apply quiet_throwError|intros; apply quiet_ret]. Qed.

Lemma quiet_alloc : quiet alloc.
Proof. intros s a s' _ E. by injection E as _ <-. Qed.

(** A test of the error state: only the branch for an error is taken. *)
Lemma quiet_guard {A} (m1 m2 : M A) : quiet m2 -> quiet (e ← getError; if e =? RS_SUCCESS then m1 else m2).
Proof. intros H s a s' He E. cbn in E. unfold mbind, M_bind, getError in E. destruct (Z.eqb_spec (mCurrentError s) RS_SUCCESS); [done|]. by apply (H s a s'). Qed.

Lemma quiet_if {A} (b : bool) (m1 m2 : M A) : quiet m1 -> quiet m2 -> quiet (if b then m1 else m2).
Proof. by destruct b. Qed.

#[export] Hint Resolve quiet_ret quiet_of_outcome quiet_getError quiet_throwError quiet_refuse quiet_alloc : quiet.

(** Goes through binds, tests and matches. *)
Ltac quiet := repeat first [progress eauto with quiet nocore | apply quiet_guard | apply quiet_bind; [|intros ?] | apply quiet_if | match goal with |- quiet (match ?x with _ => _ end) => destruct x end].

Section quiet.
Context (answer : list call -> Z).

Lemma quiet_send c : creates c = true -> quiet (send answer c).
Proof. intros Hc s a s' _ E. injection E as _ <-. split; [done|]. unfold effects. cbn [log]. rewrite filter_app, filter_cons, decide_False by congruence. by rewrite filter_nil, app_nil_r. Qed.

Lemma quiet_tryDispatch c : quiet (tryDispatch answer c).
Proof. unfold tryDispatch. quiet. Qed.

Lemma quiet_tryDispatchM c : quiet (tryDispatchM answer c).
Proof. unfold tryDispatchM. quiet. Qed.

Lemma quiet_createDispatch c : quiet (createDispatch answer c).
Proof. unfold createDispatch. quiet. Qed.

Lemma quiet_newElement dt dk norm size : quiet (newElement answer dt dk norm size).
Proof. unfold newElement. apply quiet_bind; [by apply quiet_send|]. intros. quiet. Qed.

Lemma quiet_element_static n : quiet (element_static answer n).
Proof.
  intros s a s' He E. unfold element_static in E. destruct (list_find _ (statics s)) as [[i [n' e]]|]; [by injection E as _ <-|].
  assert (Hq : quiet (match n with USER dt => createUser answer dt | VECTOR dt v => createVector answer dt v | PIXEL dt dk => createPixel answer dt dk end)) by (pose proof quiet_newElement; destruct n; unfold createUser, createVector, createPixel; quiet).
  destruct (_ s) as [[r s1]|] eqn:E1 in E; [|done]. destruct (Hq _ _ _ He E1) as [H1 H2]. destruct r; injection E as _ <-; done.
Qed.

Lemma quiet_newType e dx dy dz m f : quiet (newType answer e dx dy dz m f).
Proof. unfold newType, getID. apply quiet_bind; [quiet|]. intros. apply quiet_bind; [by apply quiet_send|]. intros. quiet. Qed.

(** ** Copies *)

Lemma throwError_Ok e s : mCurrentError s = RS_SUCCESS -> throwError e s = Ok (tt, mkRS e (statics s) (samplers s) (log s) (fresh s)).
Proof. intros H. unfold throwError. by rewrite H. Qed.

Lemma tryDispatch_Ok c s : mCurrentError s = RS_SUCCESS -> tryDispatch answer c s = Ok (tt, mkRS (mCurrentError s) (statics s) (samplers s) (log s ++ [c]) (fresh s)).
Proof. intros H. unfold tryDispatch, getError, mbind, M_bind. rewrite H. cbn. unfold mret, M_ret. by rewrite H. Qed.

Lemma tryDispatchM_Ok (m : M call) c s : mCurrentError s = RS_SUCCESS -> m s = Ok (c, s) -> tryDispatchM answer m s = Ok (tt, mkRS (mCurrentError s) (statics s) (samplers s) (log s ++ [c]) (fresh s)).
Proof. intros H E. unfold tryDispatchM, getError, mbind, M_bind. rewrite H. cbn. rewrite E. unfold send, mret, M_ret. by rewrite H. Qed.

Lemma elem_call a e (f : Z -> call) s : mElement (a_type a) = Some e -> (n ← elem_bytes a; mret (f n)) s = Ok (f (mSizeBytes e), s).
Proof. intros H. unfold elem_bytes, mbind, M_bind, of_outcome, mret, M_ret. by rewrite H. Qed.

(** C25: A copy of a range of cells is sent exactly when the range lies inside the allocation, with the
    number of bytes that the runtime expects for it; otherwise an error is recorded and nothing is
    sent. The sums do not wrap. *)
Theorem copies_in_range a e s data off count x y w h : mElement (a_type a) = Some e -> mCurrentError s = RS_SUCCESS -> 0 <= off -> 0 <= count -> off + count < 2 ^ 64 ->
  0 <= x -> 0 <= y -> 0 <= w -> 0 <= h -> x + w < 2 ^ 32 -> y + h < 2 ^ 32 -> 0 <= mSizeBytes e -> count * mSizeBytes e < 2 ^ 64 -> w * h < 2 ^ 32 -> w * h * mSizeBytes e < 2 ^ 64 ->
  (exists s1, copy1DRangeFrom answer a off count data s = Ok (tt, s1) /\
     if decide (1 <= count /\ off + count <= mCurrentCount a) then mCurrentError s1 = RS_SUCCESS /\ log s1 = log s ++ [Allocation1DData (a_id a) off (mSelectedLOD a) count data (count * mSizeBytes e)]
     else mCurrentError s1 = RS_ERROR_INVALID_PARAMETER /\ log s1 = log s) /\
  (exists s2, copy2DRangeFrom answer a x y w h data s = Ok (tt, s2) /\
     if decide (x + w <= mCurrentDimX a /\ y + h <= mCurrentDimY a) then mCurrentError s2 = RS_SUCCESS /\ log s2 = log s ++ [Allocation2DData (a_id a) x y (mSelectedLOD a) (mSelectedFace a) w h data (w * h * mSizeBytes e) (u64 (w * mSizeBytes e))]
     else mCurrentError s2 = RS_ERROR_INVALID_PARAMETER /\ log s2 = log s).
Proof.
  intros He Hs Ho Hc Hoc Hx Hy Hw Hh Hxw Hyh Hsz Hcs Hwh Hwhs. split.
  - unfold copy1DRangeFrom. rewrite (u64_small (off + count)) by lia. destruct (Z.ltb_spec count 1); [eexists; split; [by apply throwError_Ok|rewrite decide_False by lia; done]|].
    destruct (Z.gtb_spec (off + count) (mCurrentCount a)); [eexists; split; [by apply throwError_Ok|rewrite decide_False by lia; done]|].
    eexists. split; [apply tryDispatchM_Ok; [done|by apply elem_call]|]. rewrite decide_True by lia. cbn [mCurrentError log]. rewrite u64_small by nia. done.
  - unfold copy2DRangeFrom, validate2DRange. rewrite !u32_small by lia. unfold mbind at 1, M_bind at 1.
    destruct (Z.gtb_spec (x + w) (mCurrentDimX a)), (Z.gtb_spec (y + h) (mCurrentDimY a)); cbn [orb].
    4: { unfold mret at 1, M_ret at 1. eexists. split; [apply tryDispatchM_Ok; [done|by apply elem_call]|]. rewrite decide_True by lia. cbn [mCurrentError log]. rewrite (u64_small (w * h * _)) by nia. done. }
    all: rewrite throwError_Ok by done; eexists; split; [unfold tryDispatchM, getError, mbind, M_bind; cbn; reflexivity|]; rewrite decide_False by lia; done.
Qed.

(** The sums of the two-dimensional check wrap, and the three-dimensional copy between allocations
    checks the position in the source in place of the extent. *)
Lemma range_checks_pass a s src : mCurrentError s = RS_SUCCESS -> mCurrentDimX a = 4 -> mCurrentDimY a = 4 -> mCurrentDimZ a = 4 ->
  (exists s1, copy2DRangeFromAllocation answer a (2 ^ 32 - 1) 0 2 1 src 0 0 s = Ok (tt, s1) /\ log s1 = log s ++ [AllocationCopy2DRange (a_id a) (2 ^ 32 - 1) 0 (mSelectedLOD a) (mSelectedFace a) 2 1 (a_id src) 0 0 (mSelectedLOD src) (mSelectedFace src)]) /\
  (exists s2, copy3DRangeFromAllocation answer a 0 0 0 100 100 100 src 0 0 0 s = Ok (tt, s2) /\ log s2 = log s ++ [AllocationCopy3DRange (a_id a) 0 0 0 (mSelectedLOD a) 100 100 100 (a_id src) 0 0 0 (mSelectedLOD src)]).
Proof.
  intros Hs Hx Hy Hz. split; eexists; split.
  - unfold copy2DRangeFromAllocation, validate2DRange. rewrite Hx, Hy. change (((2 ^ 32 - 1) +u32 2 >? 4) || (0 +u32 1 >? 4)) with false. unfold mbind at 1, M_bind at 1, mret at 1, M_ret at 1. by apply tryDispatch_Ok.
  - reflexivity.
  - unfold copy3DRangeFromAllocation, validate3DRange. rewrite Hx, Hy, Hz. change ((0 +u32 0 >? 4) || (0 +u32 0 >? 4) || (0 +u32 0 >? 4)) with false. unfold mbind at 1, M_bind at 1, mret at 1, M_ret at 1. by apply tryDispatch_Ok.
  - reflexivity.
Qed.

(** A structure is requested with the addresses of the client objects of its fields, not with the
    identifiers that the runtime gave out. *)
Lemma struct_sends_addresses b s r s' : EBuilder_create answer b s = Ok (r, s') -> log s' = log s ++ [ElementCreate2 (this <$> eb_elements b) (eb_names b) (eb_sizes b)].
Proof. unfold EBuilder_create, send, alloc, mbind, M_bind, of_outcome, mret, M_ret. destruct (Element_struct _ _ _ _ _); intros E; [|done]. by injection E as _ <-. Qed.

(** The offset of a visible field is always refused. *)
Lemma offset_refused e index s : mVisibleElementMap e <> [] -> mCurrentError s = RS_SUCCESS -> exists s', getSubElementOffsetBytes e index s = Ok (0, s') /\ mCurrentError s' = RS_ERROR_INVALID_PARAMETER.
Proof.
  intros Hv Hs. unfold getSubElementOffsetBytes. destruct (mVisibleElementMap e) as [|i l]; [done|]. unfold zlen. destruct (Z.eqb_spec (Z.of_nat (length (i :: l))) 0); [cbn in *; lia|]. cbn [negb].
  unfold refuse, mbind, M_bind. rewrite throwError_Ok by done. eexists. split; reflexivity.
Qed.

End quiet.
#[export] Hint Resolve quiet_tryDispatch quiet_tryDispatchM quiet_createDispatch quiet_element_static quiet_newType : quiet.

Lemma copies_in_range_witness : let a := Allocation_new 20 (mkTy 15 4 4 0 false false 16 (Some (Element_leaf RS_TYPE_UNSIGNED_8 RS_KIND_USER 4 1 10))) 1 in
  (exists s1, copy1DRangeFrom (fun _ => 7) a 2 3 [] (mkRS 0 [] [] [] 2) = Ok (tt, s1) /\ log s1 = [Allocation1DData 20 2 0 3 [] 12]) /\
  (exists s2, copy2DRangeFrom (fun _ => 7) a 2 3 3 1 [] (mkRS 0 [] [] [] 2) = Ok (tt, s2) /\ mCurrentError s2 = RS_ERROR_INVALID_PARAMETER).
Proof.
  intros a. destruct (copies_in_range (fun _ => 7) a (Element_leaf RS_TYPE_UNSIGNED_8 RS_KIND_USER 4 1 10) (mkRS 0 [] [] [] 2) [] 2 3 2 3 3 1) as [(s1 & E1 & H1) (s2 & E2 & H2)]; [reflexivity|reflexivity|vm_compute; first [reflexivity|congruence]..|].
  split; [exists s1|exists s2]; (split; [assumption|]); [exact (proj2 H1)|exact (proj1 H2)].
Defined.

End Client.
