(* ===== verification/ClientIntrinsics.v ===== *)
(** * ClientIntrinsics: the intrinsics in the C++ client

    [cpp/ScriptIntrinsics.cpp]: what each method checks and which calls it sends. Allocations that
    are passed in are not [NULL]. *)

From Stdlib Require Import QArith.
From S2P Require Import Prelude Component Client Pixels.
Import Component.Component(RsDataType(..), RsDataKind(..)) Client.

Open Scope Z_scope.

Module ClientIntrinsics.

Section intrinsics.
Context (answer : list call -> Z).
Abbreviation tryDispatch := (tryDispatch answer).
Abbreviation forEach := (forEach answer).
Abbreviation setVar := (setVar answer).
Abbreviation setVarObj := (setVarObj answer).

(** The script object and the element it was made for. *)
Record Intrinsic := mkIntrinsic { sid : Z; element : option Element }.

Definition ScriptIntrinsic_new (intrinsic : Z) (e : option Element) : M Intrinsic :=
  i ← createDispatch answer (eid ← getID e; mret (ScriptIntrinsicCreate intrinsic eid)); mret (mkIntrinsic i e).

(** [a->getType()->getElement()->isCompatible(e)]. *)
Definition compatible (a : Allocation) (e : option Element) : M bool :=
  t ← of_outcome (of_option NullDeref (mElement (a_type a))); of_outcome (isCompatible t e).

(** [e->isCompatible(Element::N1(rs)) || e->isCompatible(Element::N2(rs)) || ...]: an element is made
    only when the test gets to it. *)
Fixpoint compatible_with_any (e : Element) (names : list ename) : M bool :=
  match names with
  | [] => mret false
  | n :: names => x ← element_static answer n; ok ← of_outcome (isCompatible e x); if ok : bool then mret true else compatible_with_any e names
  end.

Definition elementOf (a : Allocation) : M Element := of_outcome (of_option NullDeref (mElement (a_type a))).

Definition n_U8 : ename := USER RS_TYPE_UNSIGNED_8.
Definition n_U8_4 : ename := VECTOR RS_TYPE_UNSIGNED_8 4.
Definition pixel_names : list ename :=
  [n_U8; VECTOR RS_TYPE_UNSIGNED_8 2; VECTOR RS_TYPE_UNSIGNED_8 3; n_U8_4;
   USER RS_TYPE_FLOAT_32; VECTOR RS_TYPE_FLOAT_32 2; VECTOR RS_TYPE_FLOAT_32 3; VECTOR RS_TYPE_FLOAT_32 4].

(** [create]: the element must be compatible with one of [names]. *)
Definition create_checked (intrinsic : Z) (names : list ename) (e : Element) : M (option Intrinsic) :=
  ok ← compatible_with_any e names;
  if ok : bool then x ← ScriptIntrinsic_new intrinsic (Some e); mret (Some x) else refuse RS_ERROR_INVALID_ELEMENT None.

(** ** 3DLUT *)

Definition LUT3D_create : Element -> M (option Intrinsic) := create_checked 8 [n_U8_4].

Definition LUT3D_forEach (x : Intrinsic) (ain aout : Allocation) : M unit :=
  ok ← compatible ain (element x);
  ok ← (if ok : bool then compatible aout (element x) else mret false);
  if ok : bool then forEach (sid x) 0 (Some ain) (Some aout) [] else throwError RS_ERROR_INVALID_ELEMENT.

Definition setLUT (x : Intrinsic) (lut : Allocation) : M unit :=
  ok ← compatible lut (element x);
  if negb ok then throwError RS_ERROR_INVALID_ELEMENT
  else if mDimZ (a_type lut) =? 0 then throwError RS_ERROR_INVALID_PARAMETER
  else setVarObj (sid x) 0 (Some lut).

(** ** Variables *)

(** [int] values in a [FieldPacker]. *)
Definition pack_ints (l : list Z) : list Z := concat ((fun v => let v := u32 v in [v mod 256; v / 256 mod 256; v / 65536 mod 256; v / 16777216]) <$> l).

(** A method that stores a compatible allocation in a variable of the script. *)
Definition set_checked (x : Intrinsic) (slot : Z) (a : Allocation) : M unit :=
  ok ← compatible a (element x); if ok : bool then setVarObj (sid x) slot (Some a) else throwError RS_ERROR_INVALID_ELEMENT.

(** A launch over one compatible allocation. *)
Definition launch_in (x : Intrinsic) (a : Allocation) : M unit :=
  ok ← compatible a (element x); if ok : bool then forEach (sid x) 0 (Some a) None [] else throwError RS_ERROR_INVALID_ELEMENT.

Definition launch_out (x : Intrinsic) (a : Allocation) : M unit :=
  ok ← compatible a (element x); if ok : bool then forEach (sid x) 0 None (Some a) [] else throwError RS_ERROR_INVALID_ELEMENT.

(** ** VP9 inter prediction *)

Definition InterPred_create : Element -> M (option Intrinsic) := create_checked 10 [n_U8].
Definition InterPred_forEach (x : Intrinsic) (asize : Allocation) : M unit := launch_in x asize.
Definition setRef (x : Intrinsic) (ref : Allocation) : M unit := set_checked x 0 ref.
Definition setParam (x : Intrinsic) (param : Allocation) : M unit := set_checked x 1 param.
Definition setParamCount (x : Intrinsic) (fri sec offset : Z) : M unit := setVar (sid x) 2 (pack_ints [fri; sec; offset]).

(** ** Blend *)

Definition Blend_create : Element -> M (option Intrinsic) := create_checked 7 [n_U8_4].

(** After the error the launch is called all the same. *)
Definition blend_forEach (slot : Z) (x : Intrinsic) (ain aout : Allocation) : M unit :=
  ok ← compatible ain (element x);
  ok ← (if ok : bool then compatible aout (element x) else mret false);
  _ ← (if ok : bool then mret tt else throwError RS_ERROR_INVALID_ELEMENT);
  forEach (sid x) slot (Some ain) (Some aout) [].

Definition forEachClear := blend_forEach 0.
Definition forEachSrc := blend_forEach 1.
Definition forEachDst := blend_forEach 2.
Definition forEachSrcOver := blend_forEach 3.
Definition forEachDstOver := blend_forEach 4.
Definition forEachSrcIn := blend_forEach 5.
Definition forEachDstIn := blend_forEach 6.
Definition forEachSrcOut := blend_forEach 7.
Definition forEachDstOut := blend_forEach 8.
Definition forEachSrcAtop := blend_forEach 9.
Definition forEachDstAtop := blend_forEach 10.
Definition forEachXor := blend_forEach 11.
Definition forEachMultiply := blend_forEach 14.
Definition forEachAdd := blend_forEach 34.
Definition forEachSubtract := blend_forEach 35.

(** ** Blur *)

Definition Blur_create : Element -> M (option Intrinsic) := create_checked 5 [n_U8_4; n_U8].
Definition Blur_setInput (x : Intrinsic) (a : Allocation) : M unit := set_checked x 1 a.
Definition Blur_forEach (x : Intrinsic) (a : Allocation) : M unit := launch_out x a.

(** Numbers of type [float] are rationals; [bytes_of] is their encoding. *)
Context (bytes_of : Q -> list Z).
Definition floats (l : list Q) : list Z := concat (bytes_of <$> l).

Definition setRadius (x : Intrinsic) (radius : Q) : M unit :=
  if negb (Qle_bool radius 0) && Qle_bool radius 25 then setVar (sid x) 0 (floats [radius]) else throwError RS_ERROR_INVALID_PARAMETER.

(** ** Color matrix *)

Definition setAdd (x : Intrinsic) (add : list Q) : M unit := v ← of_outcome (zread add 0 4); setVar (sid x) 1 (floats v).

Definition ColorMatrix_create : M Intrinsic :=
  e ← RGBA_8888 answer; x ← ScriptIntrinsic_new 2 e; _ ← setAdd x [0; 0; 0; 0]%Q; mret x.

Definition ColorMatrix_forEach (x : Intrinsic) (ain aout : Allocation) : M unit :=
  ei ← elementOf ain; ok ← compatible_with_any ei pixel_names;
  if negb ok then throwError RS_ERROR_INVALID_ELEMENT
  else
    eo ← elementOf aout; ok ← compatible_with_any eo pixel_names;
    if ok : bool then forEach (sid x) 0 (Some ain) (Some aout) [] else throwError RS_ERROR_INVALID_ELEMENT.

Definition setColorMatrix4 (x : Intrinsic) (m : list Q) : M unit := v ← of_outcome (zread m 0 16); setVar (sid x) 0 (floats v).

Definition matrix3_to_4 (m : list Q) : outcome (list Q) :=
  a ← zread m 0 3; b ← zread m 3 3; c ← zread m 6 3; Ok (a ++ [0%Q] ++ b ++ [0%Q] ++ c ++ [0%Q] ++ [0; 0; 0; 1]%Q).

Definition setColorMatrix3 (x : Intrinsic) (m : list Q) : M unit := t ← of_outcome (matrix3_to_4 m); setColorMatrix4 x t.

Definition setGreyscale (x : Intrinsic) : M unit := setColorMatrix3 x [0.299; 0.299; 0.299; 0.587; 0.587; 0.587; 0.114; 0.114; 0.114]%Q.
Definition setRGBtoYUV (x : Intrinsic) : M unit := setColorMatrix3 x [0.299; -0.14713; 0.615; 0.587; -0.28886; -0.51499; 0.114; 0.436; -0.10001]%Q.
Definition setYUVtoRGB (x : Intrinsic) : M unit := setColorMatrix3 x [1; 1; 1; 0; -0.39465; 2.03211; 1.13983; -0.5806; 0]%Q.

(** ** Convolutions *)

Definition Convolve3x3_create : Element -> M (option Intrinsic) := create_checked 1 pixel_names.
Definition Convolve3x3_setInput (x : Intrinsic) (a : Allocation) : M unit := set_checked x 1 a.
Definition Convolve3x3_forEach (x : Intrinsic) (a : Allocation) : M unit := launch_out x a.
Definition Convolve3x3_setCoefficients (x : Intrinsic) (v : list Q) : M unit := v ← of_outcome (zread v 0 9); setVar (sid x) 0 (floats v).
Definition Convolve5x5_create : Element -> M (option Intrinsic) := create_checked 4 pixel_names.
Definition Convolve5x5_setInput (x : Intrinsic) (a : Allocation) : M unit := set_checked x 1 a.
Definition Convolve5x5_forEach (x : Intrinsic) (a : Allocation) : M unit := launch_out x a.
Definition Convolve5x5_setCoefficients (x : Intrinsic) (v : list Q) : M unit := v ← of_outcome (zread v 0 25); setVar (sid x) 0 (floats v).

(** ** Histogram *)

(** The intrinsic is made without an element. *)
Definition Histogram_create : M Intrinsic := ScriptIntrinsic_new 9 None.

Definition counter_names : list ename :=
  [USER RS_TYPE_UNSIGNED_32; VECTOR RS_TYPE_UNSIGNED_32 2; VECTOR RS_TYPE_UNSIGNED_32 3; VECTOR RS_TYPE_UNSIGNED_32 4;
   USER RS_TYPE_SIGNED_32; VECTOR RS_TYPE_SIGNED_32 2; VECTOR RS_TYPE_SIGNED_32 3; VECTOR RS_TYPE_SIGNED_32 4].

(** The new [mOut], if the output is accepted. *)
Definition setOutput (x : Intrinsic) (mOut : option Allocation) (out : Allocation) : M (option Allocation) :=
  e ← elementOf out; ok ← compatible_with_any e counter_names;
  if negb ok then refuse RS_ERROR_INVALID_ELEMENT mOut
  else if negb (mDimX (a_type out) =? 256) || negb (mDimY (a_type out) =? 0) || mDimMipmaps (a_type out) then refuse RS_ERROR_INVALID_PARAMETER mOut
  else _ ← setVarObj (sid x) 1 (Some out); mret (Some out).

Definition setDotCoefficients (x : Intrinsic) (r g b a : Q) : M unit :=
  if negb (Qle_bool 0 r && Qle_bool 0 g && Qle_bool 0 b && Qle_bool 0 a) then mret tt
  else if negb (Qle_bool (r + g + b + a) 1) then mret tt
  else setVar (sid x) 0 (floats [r; g; b; a]).

(** [!(e is U8) || !(e is U8_4)]. *)
Definition not_both (e : Element) : M bool :=
  u ← element_static answer n_U8; ok ← of_outcome (isCompatible e u);
  if negb ok then mret true else v ← element_static answer n_U8_4; ok ← of_outcome (isCompatible e v); mret (negb ok).

Definition vectorSizeOf (a : option Allocation) : M Z := a ← of_outcome (of_option NullDeref a); e ← elementOf a; mret (mVectorSize e).

Definition Histogram_forEach (x : Intrinsic) (mOut : option Allocation) (ain : Allocation) : M unit :=
  e ← elementOf ain; vo ← vectorSizeOf mOut;
  if mVectorSize e <? vo then throwError RS_ERROR_INVALID_PARAMETER
  else
    bad ← not_both e;
    if bad : bool then throwError RS_ERROR_INVALID_ELEMENT else forEach (sid x) 0 (Some ain) None [].

Definition Histogram_forEach_dot (x : Intrinsic) (mOut : option Allocation) (ain : Allocation) : M unit :=
  vo ← vectorSizeOf mOut;
  if negb (vo =? 1) then throwError RS_ERROR_INVALID_PARAMETER
  else
    e ← elementOf ain; bad ← not_both e;
    if bad : bool then throwError RS_ERROR_INVALID_ELEMENT else forEach (sid x) 1 (Some ain) None [].

(** ** LUT *)

Record Lut := mkLut { l_script : Intrinsic; LUT : option Allocation; mCache : list Z; mDirty : bool }.

Definition identity_cache : list Z := let t := Z.of_nat <$> seq 0 256 in t ++ t ++ t ++ t.

(** The table may be missing, when the allocation could not be made. *)
Definition LUT_create (e : Element) : M (option Lut) :=
  ok ← compatible_with_any e [n_U8_4];
  if negb ok then refuse RS_ERROR_INVALID_ELEMENT None
  else
    x ← ScriptIntrinsic_new 3 (Some e);
    u ← element_static answer n_U8;
    a ← createSized answer u 1024 (USAGE_SCRIPT);
    _ ← setVarObj (sid x) 0 a;
    mret (Some (mkLut x a identity_cache true)).

Definition LUT_forEach (l : Lut) (ain aout : Allocation) : M Lut :=
  l ← (if mDirty l then a ← of_outcome (of_option NullDeref (LUT l)); _ ← copy1DFrom answer a (mCache l); mret (mkLut (l_script l) (LUT l) (mCache l) false) else mret l);
  ei ← elementOf ain; ok ← compatible_with_any ei [n_U8_4];
  ok ← (if ok : bool then eo ← elementOf aout; compatible_with_any eo [n_U8_4] else mret false);
  _ ← (if ok : bool then forEach (sid (l_script l)) 0 (Some ain) (Some aout) [] else throwError RS_ERROR_INVALID_ELEMENT);
  mret l.

(** [mCache[offset + base + i] = lutValues[i]] for [i < length]. *)
Fixpoint set_entries (cache : list Z) (pos : Z) (values : list Z) (i : Z) (n : nat) : outcome (list Z) :=
  match n with
  | O => Ok cache
  | S n => v ← znth values i; cache ← zset cache (pos +u32 i) v; set_entries cache pos values (i + 1) n
  end.

(** [base + length] is computed with 32 bits. *)
Definition setTable (l : Lut) (offset base length : Z) (values : list Z) : M Lut :=
  if ((base +u32 length) >? 256) || (length =? 0) then refuse RS_ERROR_INVALID_PARAMETER l
  else cache ← of_outcome (set_entries (mCache l) (offset +u32 base) values 0 (Z.to_nat length)); mret (mkLut (l_script l) (LUT l) cache true).

Definition setRed (l : Lut) := setTable l 0.
Definition setGreen (l : Lut) := setTable l 256.
Definition setBlue (l : Lut) := setTable l 512.
Definition setAlpha (l : Lut) := setTable l 768.

(** ** YUV *)

Definition YuvToRGB_create : Element -> M (option Intrinsic) := create_checked 6 [n_U8_4].

Definition YuvToRGB_setInput (x : Intrinsic) (a : Allocation) : M unit :=
  e ← elementOf a; yuv ← YUV answer; ok ← of_outcome (isCompatible e yuv);
  if ok : bool then setVarObj (sid x) 0 (Some a) else throwError RS_ERROR_INVALID_ELEMENT.

Definition YuvToRGB_forEach (x : Intrinsic) (a : Allocation) : M unit := launch_out x a.

(** ** VP9 loop filter *)

Definition LoopFilter_create (e : Element) : M (option (Intrinsic * option Allocation)) :=
  ok ← compatible_with_any e [n_U8];
  if negb ok then refuse RS_ERROR_INVALID_ELEMENT None
  else x ← ScriptIntrinsic_new 11 (Some e); t ← Type_create answer (Some e) 1 0 0; a ← createTyped answer t 0 USAGE_SCRIPT 0; mret (Some (x, a)).

Definition setLoopFilterDomain (x : Intrinsic) (start stop numPlanes miRows miCols : Z) : M unit := setVar (sid x) 0 (pack_ints [start; stop; numPlanes; miRows; miCols]).
Definition setBufferInfo (x : Intrinsic) (info : list Z) : M unit := setVar (sid x) 1 info.
Definition setLoopFilterInfo (x : Intrinsic) (a : option Allocation) : M unit := setVarObj (sid x) 2 a.
Definition setLoopFilterMasks (x : Intrinsic) (a : option Allocation) : M unit := setVarObj (sid x) 3 a.

Definition LoopFilter_forEach (x : Intrinsic) (mPadAlloc : option Allocation) (frame : Allocation) : M unit :=
  ok ← compatible frame (element x);
  if ok : bool then _ ← setVarObj (sid x) 4 (Some frame); forEach (sid x) 0 mPadAlloc None [] else throwError RS_ERROR_INVALID_ELEMENT.

(** ** Requests *)

(** The methods of the client that act on existing objects. *)
Inductive request :=
| Rcopy1DRangeFrom (a : Allocation) (off count : Z) (data : list Z) | Rcopy1DRangeTo (a : Allocation) (off count : Z)
| Rcopy1DRangeFromAllocation (a : Allocation) (off count : Z) (src : Allocation) (dataOff : Z)
| Rcopy2DRangeFrom (a : Allocation) (xoff yoff w h : Z) (data : list Z) | Rcopy2DRangeTo (a : Allocation) (xoff yoff w h : Z)
| Rcopy2DStridedFrom (a : Allocation) (xoff yoff w h : Z) (data : list Z) (stride : Z) | Rcopy2DStridedTo (a : Allocation) (xoff yoff w h stride : Z)
| Rcopy2DRangeFromAllocation (a : Allocation) (xoff yoff w h : Z) (src : Allocation) (dx dy : Z)
| Rcopy3DRangeFrom (a : Allocation) (xoff yoff zoff w h d : Z) (data : list Z)
| Rcopy3DRangeFromAllocation (a : Allocation) (xoff yoff zoff w h d : Z) (src : Allocation) (dx dy dz : Z)
| RsyncAll (a : Allocation) (src : Z) | RioSendOutput (a : Allocation) | RioGetInput (a : Allocation)
| Rinvoke (sid slot : Z) (v : list Z) | RbindAllocation (sid : Z) (va : option Allocation) (slot : Z)
| RsetVar (sid slot : Z) (v : list Z) | RsetVarObj (sid slot : Z) (o : option Allocation) | RforEach (sid slot : Z) (ain aout : option Allocation) (usr : list Z)
| R3DLUT_forEach (x : Intrinsic) (ain aout : Allocation) | RsetLUT (x : Intrinsic) (lut : Allocation)
| RInterPred_forEach (x : Intrinsic) (a : Allocation) | RsetRef (x : Intrinsic) (a : Allocation) | RsetParam (x : Intrinsic) (a : Allocation) | RsetParamCount (x : Intrinsic) (fri sec offset : Z)
| RBlend (slot : Z) (x : Intrinsic) (ain aout : Allocation)
| RBlur_setInput (x : Intrinsic) (a : Allocation) | RBlur_forEach (x : Intrinsic) (a : Allocation) | RsetRadius (x : Intrinsic) (r : Q)
| RsetAdd (x : Intrinsic) (v : list Q) | RColorMatrix_forEach (x : Intrinsic) (ain aout : Allocation) | RsetColorMatrix3 (x : Intrinsic) (m : list Q) | RsetColorMatrix4 (x : Intrinsic) (m : list Q)
| RConvolve_setInput (x : Intrinsic) (a : Allocation) | RConvolve_forEach (x : Intrinsic) (a : Allocation) | RConvolve3x3_setCoefficients (x : Intrinsic) (v : list Q) | RConvolve5x5_setCoefficients (x : Intrinsic) (v : list Q)
| RsetOutput (x : Intrinsic) (o : option Allocation) (out : Allocation) | RsetDotCoefficients (x : Intrinsic) (r g b a : Q) | RHistogram_forEach (x : Intrinsic) (o : option Allocation) (ain : Allocation) | RHistogram_forEach_dot (x : Intrinsic) (o : option Allocation) (ain : Allocation)
| RLUT_forEach (l : Lut) (ain aout : Allocation) | RsetTable (l : Lut) (offset base length : Z) (values : list Z)
| RYuv_setInput (x : Intrinsic) (a : Allocation) | RYuv_forEach (x : Intrinsic) (a : Allocation)
| RsetLoopFilterDomain (x : Intrinsic) (v1 v2 v3 v4 v5 : Z) | RsetBufferInfo (x : Intrinsic) (info : list Z) | RLoopFilter_forEach (x : Intrinsic) (pad : option Allocation) (frame : Allocation).

Definition handle (r : request) : M unit :=
  match r with
  | Rcopy1DRangeFrom a off count data => copy1DRangeFrom answer a off count data
  | Rcopy1DRangeTo a off count => copy1DRangeTo answer a off count
  | Rcopy1DRangeFromAllocation a off count src dataOff => copy1DRangeFromAllocation answer a off count src dataOff
  | Rcopy2DRangeFrom a x y w h data => copy2DRangeFrom answer a x y w h data
  | Rcopy2DRangeTo a x y w h => copy2DRangeTo answer a x y w h
  | Rcopy2DStridedFrom a x y w h data st => copy2DStridedFrom answer a x y w h data st
  | Rcopy2DStridedTo a x y w h st => copy2DStridedTo answer a x y w h st
  | Rcopy2DRangeFromAllocation a x y w h src dx dy => copy2DRangeFromAllocation answer a x y w h src dx dy
  | Rcopy3DRangeFrom a x y z w h d data => copy3DRangeFrom answer a x y z w h d data
  | Rcopy3DRangeFromAllocation a x y z w h d src dx dy dz => copy3DRangeFromAllocation answer a x y z w h d src dx dy dz
  | RsyncAll a src => syncAll answer a src | RioSendOutput a => ioSendOutput answer a | RioGetInput a => ioGetInput answer a
  | Rinvoke s slot v => invoke answer s slot v | RbindAllocation s va slot => bindAllocation answer s va slot
  | RsetVar s slot v => setVar s slot v | RsetVarObj s slot o => setVarObj s slot o | RforEach s slot i o usr => forEach s slot i o usr
  | R3DLUT_forEach x i o => LUT3D_forEach x i o | RsetLUT x l => setLUT x l
  | RInterPred_forEach x a => InterPred_forEach x a | RsetRef x a => setRef x a | RsetParam x a => setParam x a | RsetParamCount x a b c => setParamCount x a b c
  | RBlend slot x i o => blend_forEach slot x i o
  | RBlur_setInput x a => Blur_setInput x a | RBlur_forEach x a => Blur_forEach x a | RsetRadius x r => setRadius x r
  | RsetAdd x v => setAdd x v | RColorMatrix_forEach x i o => ColorMatrix_forEach x i o | RsetColorMatrix3 x m => setColorMatrix3 x m | RsetColorMatrix4 x m => setColorMatrix4 x m
  | RConvolve_setInput x a => Convolve3x3_setInput x a | RConvolve_forEach x a => Convolve3x3_forEach x a | RConvolve3x3_setCoefficients x v => Convolve3x3_setCoefficients x v | RConvolve5x5_setCoefficients x v => Convolve5x5_setCoefficients x v
  | RsetOutput x o out => _ ← setOutput x o out; mret tt | RsetDotCoefficients x r g b a => setDotCoefficients x r g b a | RHistogram_forEach x o a => Histogram_forEach x o a | RHistogram_forEach_dot x o a => Histogram_forEach_dot x o a
  | RLUT_forEach l i o => _ ← LUT_forEach l i o; mret tt | RsetTable l off b n v => _ ← setTable l off b n v; mret tt
  | RYuv_setInput x a => YuvToRGB_setInput x a | RYuv_forEach x a => YuvToRGB_forEach x a
  | RsetLoopFilterDomain x a b c d e => setLoopFilterDomain x a b c d e | RsetBufferInfo x i => setBufferInfo x i | RLoopFilter_forEach x p f => LoopFilter_forEach x p f
  end.

(** A session: one request after the other. *)
Fixpoint session (rs : list request) : M unit := match rs with [] => mret tt | r :: rs => _ ← handle r; session rs end.

Lemma quiet_any e names : quiet (compatible_with_any e names).
Proof. induction names as [|n names IH]; cbn [compatible_with_any]; quiet. Qed.

Lemma quiet_forEach s slot i o usr : quiet (forEach s slot i o usr).
Proof. unfold Client.forEach. quiet. Qed.

Hint Resolve quiet_any quiet_forEach : quiet.

Lemma quiet_handle r : quiet (handle r).
Proof.
  destruct r; cbn [handle].
  all: unfold copy1DRangeFrom, copy1DRangeTo, copy1DRangeFromAllocation, copy2DRangeFrom, copy2DRangeTo, copy2DStridedFrom, copy2DStridedTo, copy2DRangeFromAllocation, copy3DRangeFrom, copy3DRangeFromAllocation, validate2DRange, validate3DRange, syncAll, ioSendOutput, ioGetInput, invoke, bindAllocation.
  all: unfold LUT3D_forEach, setLUT, InterPred_forEach, setRef, setParam, setParamCount, blend_forEach, Blur_setInput, Blur_forEach, setRadius, setAdd, ColorMatrix_forEach, setColorMatrix3, setColorMatrix4, Convolve3x3_setInput, Convolve3x3_forEach, Convolve3x3_setCoefficients, Convolve5x5_setCoefficients.
  all: unfold setOutput, setDotCoefficients, Histogram_forEach, Histogram_forEach_dot, not_both, vectorSizeOf, LUT_forEach, setTable, copy1DFrom, copy1DRangeFrom, YuvToRGB_setInput, YuvToRGB_forEach, YUV, setLoopFilterDomain, setBufferInfo, LoopFilter_forEach, set_checked, launch_in, launch_out, compatible, elementOf, Client.setVar, Client.setVarObj.
  all: quiet.
Qed.


(** ** Blending through the client *)

(** A blend method sends exactly one launch of its kernel when both allocations have the element of
    the script, and otherwise records an error and sends nothing. *)
Theorem blend_request slot x ain aout s ei eo e : mCurrentError s = RS_SUCCESS -> element x = Some e -> mElement (a_type ain) = Some ei -> mElement (a_type aout) = Some eo ->
  exists s', blend_forEach slot x ain aout s = Ok (tt, s') /\
    let ok := match isCompatible ei (Some e), isCompatible eo (Some e) with Ok true, Ok true => true | _, _ => false end in
    if ok then mCurrentError s' = RS_SUCCESS /\ log s' = log s ++ [ScriptForEach (sid x) slot (a_id ain) (a_id aout) []]
    else mCurrentError s' = RS_ERROR_INVALID_ELEMENT /\ log s' = log s.
Proof.
  intros He Hx Hi Ho. assert (Hc : forall t, exists b, isCompatible t (Some e) = Ok b) by (intros t; unfold isCompatible; destruct (this t =? this e); eauto).
  destruct (Hc ei) as [bi Ebi]. destruct (Hc eo) as [bo Ebo]. unfold blend_forEach, compatible, Client.forEach, Client.tryDispatch, throwError, getError, send, mbind, M_bind, mret, M_ret, of_outcome.
  rewrite Hx, Hi. cbn [of_option]. rewrite Ebi, Ebo. destruct bi; [rewrite Ho; cbn [of_option]; rewrite Ebo; destruct bo|]; rewrite ?He; cbn; rewrite ?He; cbn; eexists; (split; [reflexivity|]); rewrite ?He; done.
Qed.

(** ** Lookup tables through the client *)

Lemma set_entries_spec values n : forall cache pos i, 0 <= pos -> 0 <= i -> i + Z.of_nat n <= zlen values -> pos + i + Z.of_nat n <= zlen cache -> zlen cache < 2 ^ 32 ->
  exists cache', set_entries cache pos values i n = Ok cache' /\ zlen cache' = zlen cache /\
    forall j : nat, cache' !! j = if decide (pos + i <= Z.of_nat j < pos + i + Z.of_nat n) then values !! Z.to_nat (Z.of_nat j - pos) else cache !! j.
Proof.
  induction n as [|n IH]; intros cache pos i Hp Hi Hv Hc Hs; cbn [set_entries].
  { exists cache. split_and!; [done..|]. intros j. by rewrite decide_False by lia. }
  unfold zlen in *. destruct (lookup_lt_is_Some_2 values (Z.to_nat i)) as [v Ev]; [lia|]. pose proof (znth_lookup _ _ _ Ev) as Zv. rewrite Z2Nat.id in Zv by lia. rewrite Zv. cbn [mbind outcome_bind]. rewrite u32_small by lia.
  pose proof (zset_Ok cache (Z.to_nat (pos + i)) v ltac:(lia)) as Zs. rewrite Z2Nat.id in Zs by lia. rewrite Zs. cbn [mbind outcome_bind].
  destruct (IH (<[Z.to_nat (pos + i) := v]> cache) pos (i + 1)) as (c' & -> & Hl & Hj); [lia|lia|lia|rewrite length_insert; lia|rewrite length_insert; lia|].
  exists c'. rewrite length_insert in Hl. split_and!; [done..|]. intros j. rewrite Hj. destruct (decide (j = Z.to_nat (pos + i))) as [->|Hne].
  - rewrite decide_False, decide_True, list_lookup_insert_eq by lia. rewrite <- Ev. f_equal. lia.
  - rewrite list_lookup_insert_ne by congruence. destruct (decide (pos + (i + 1) <= Z.of_nat j < pos + (i + 1) + Z.of_nat n)); [rewrite decide_True by lia|rewrite decide_False by lia]; done.
Qed.

(** The table of channel [t] is changed between [base] and [base + length] and nowhere else. *)
Lemma setTable_spec l t base length values s : zlen (mCache l) = 1024 -> 0 <= t <= 3 -> 0 <= base < 256 -> 1 <= length -> base + length <= 256 -> length <= zlen values ->
  exists cache, setTable l (256 * t) base length values s = Ok (mkLut (l_script l) (LUT l) cache true, s) /\ zlen cache = 1024 /\
    forall t' v, 0 <= t' <= 3 -> 0 <= v < 256 ->
      Pixels.tab cache t' v = if decide (t' = t /\ base <= v < base + length) then Pixels.byte_at values (v - base) else Pixels.tab (mCache l) t' v.
Proof.
  intros Hc Ht Hb Hn Hsum Hv. unfold setTable. rewrite (u32_small (base + length)), (u32_small (256 * t + base)) by lia.
  destruct (Z.gtb_spec (base + length) 256), (Z.eqb_spec length 0); try lia. cbn [orb].
  destruct (set_entries_spec values (Z.to_nat length) (mCache l) (256 * t + base) 0) as (cache & E & Hl & Hj); [lia..|]. exists cache. unfold mbind, M_bind, of_outcome, mret, M_ret. rewrite E. split_and!; [done|lia|].
  intros t' v Ht' Hv'. unfold Pixels.tab, Pixels.byte_at. rewrite Hj. destruct (decide (t' = t /\ base <= v < base + length)) as [[-> Hr]|Hne].
  - rewrite decide_True by lia. do 2 f_equal. lia.
  - rewrite decide_False by lia. done.
Qed.

Lemma U8_4_cached s i x e4 : list_find (fun y => y.1 = n_U8_4) (statics s) = Some (i, (x, e4)) -> element_static answer n_U8_4 s = Ok (Some e4, s).
Proof. intros E. unfold element_static. by rewrite E. Qed.

(** C26: Changing a table and launching sends the whole table and then the launch, and the kernel maps a
    pixel through the new table. *)
Theorem lut_update l a eu e4 i x t base length values ain aout s : zlen (mCache l) = 1024 -> 0 <= t <= 3 -> 0 <= base < 256 -> 1 <= length -> base + length <= 256 -> length <= zlen values ->
  mCurrentError s = RS_SUCCESS -> LUT l = Some a -> mCurrentCount a = 1024 -> mSelectedLOD a = 0 -> mElement (a_type a) = Some eu -> mSizeBytes eu = 1 ->
  list_find (fun y => y.1 = n_U8_4) (statics s) = Some (i, (x, e4)) -> mElement (a_type ain) = Some e4 -> mElement (a_type aout) = Some e4 ->
  exists cache s', (l1 ← setTable l (256 * t) base length values; LUT_forEach l1 ain aout) s = Ok (mkLut (l_script l) (LUT l) cache false, s') /\
    log s' = log s ++ [Allocation1DData (a_id a) 0 0 1024 cache 1024; ScriptForEach (sid (l_script l)) 0 (a_id ain) (a_id aout) []] /\
    forall t' v, 0 <= t' <= 3 -> 0 <= v < 256 ->
      Pixels.tab cache t' v = if decide (t' = t /\ base <= v < base + length) then Pixels.byte_at values (v - base) else Pixels.tab (mCache l) t' v.
Proof.
  intros Hc Ht Hb Hn Hsum Hv He Ha Hcount Hlod Heu Hsz Hfind Hi Ho. destruct (setTable_spec l t base length values s Hc Ht Hb Hn Hsum Hv) as (cache & E & _ & Htab).
  assert (Hcomp : isCompatible e4 (Some e4) = Ok true) by (unfold isCompatible; by rewrite Z.eqb_refl).
  set (s1 := mkRS (mCurrentError s) (statics s) (samplers s) (log s ++ [Allocation1DData (a_id a) 0 0 1024 cache 1024]) (fresh s)).
  assert (Eup : copy1DFrom answer a cache s = Ok (tt, s1)).
  { unfold copy1DFrom, copy1DRangeFrom. rewrite Hcount, Hlod. cbn [Z.ltb Z.compare]. change (1024 <? 1) with false. change (0 +u64 1024 >? 1024) with false. unfold tryDispatchM, elem_bytes, getError, send, mbind, M_bind, mret, M_ret, of_outcome. rewrite Heu, He. cbn [of_option]. rewrite Hsz. reflexivity. }
  exists cache. eexists. split; [|split; [|exact Htab]].
  - unfold mbind at 1, M_bind at 1. rewrite E. unfold LUT_forEach. cbn [mDirty LUT mCache l_script]. rewrite Ha. cbn [of_option]. unfold mbind, M_bind, of_outcome, mret, M_ret. rewrite Eup. unfold elementOf, of_outcome. rewrite Hi, Ho. cbn [of_option compatible_with_any].
    unfold mbind, M_bind, of_outcome, mret, M_ret. rewrite (U8_4_cached s1 i x e4) by done. rewrite Hcomp. rewrite (U8_4_cached s1 i x e4) by done. rewrite Hcomp. unfold Client.forEach, Client.tryDispatch, getError, send, mbind, M_bind, mret, M_ret. cbn [mCurrentError s1]. rewrite He. reflexivity.
  - cbn [log]. unfold s1. cbn [log]. by rewrite <- app_assoc.
Qed.

Lemma set_entries_overrun values n : forall cache pos i, 0 <= pos -> 0 <= i -> zlen cache < pos + i + Z.of_nat n -> pos + i <= zlen cache < 2 ^ 32 -> set_entries cache pos values i n = Fault OutOfBounds.
Proof.
  induction n as [|n IH]; intros cache pos i Hp Hi Hn Hc; [lia|]. cbn [set_entries]. unfold znth. destruct (decide (0 <= i < zlen values)) as [Hv|]; [|done]. unfold zlen in *.
  destruct (lookup_lt_is_Some_2 values (Z.to_nat i)) as [v ->]; [lia|]. cbn [of_option mbind outcome_bind]. rewrite u32_small by lia. unfold zset, zlen. destruct (decide (0 <= pos + i < Z.of_nat (length cache))); [|done]. cbn [mbind outcome_bind]. apply IH; rewrite ?length_insert; lia.
Qed.

(** The sum of base and length wraps: a length that cannot be right passes the test. *)
Lemma setTable_overflow l values s : zlen (mCache l) = 1024 -> setTable l 0 1 (2 ^ 32 - 1) values s = Fault OutOfBounds.
Proof.
  intros Hc. unfold setTable. change ((1 +u32 (2 ^ 32 - 1) >? 256) || (2 ^ 32 - 1 =? 0)) with false. unfold mbind, M_bind, of_outcome. rewrite set_entries_overrun; [done|vm_compute; congruence|lia| |]; change (0 +u32 1) with 1; lia.
Qed.

(** ** Elements that the client never finds *)

(** The context never holds an element for YUV data, because [createPixel] refuses the kind. *)
Definition no_yuv (s : RS) : Prop := list_find (fun y => y.1 = PIXEL RS_TYPE_UNSIGNED_8 RS_KIND_PIXEL_YUV) (statics s) = None.

Lemma YUV_none s : no_yuv s -> exists s', YUV answer s = Ok (None, s') /\ mCurrentError s' <> RS_SUCCESS.
Proof.
  intros H. unfold YUV, element_static. unfold no_yuv in H. rewrite H. unfold createPixel. cbn [negb bool_decide]. change (negb (bool_decide (RS_KIND_PIXEL_YUV ∈ _))) with true. cbv iota. unfold refuse, throwError, mbind, M_bind, mret, M_ret.
  destruct (Z.eqb_spec (mCurrentError s) RS_SUCCESS); eexists; (split; [reflexivity|]); done.
Qed.

(** So the conversion from YUV cannot be given an input. *)
Theorem yuv_input_crashes x a s : no_yuv s -> YuvToRGB_setInput x a s = Fault NullDeref.
Proof.
  intros H. destruct (YUV_none s H) as (s' & E & _). unfold YuvToRGB_setInput, elementOf, mbind, M_bind, of_outcome. destruct (mElement (a_type a)) as [e|]; [|done]. cbn [of_option]. rewrite E. done.
Qed.

(** The histogram is created without an element, whose identifier is then read. *)
Theorem histogram_create_crashes s : mCurrentError s = RS_SUCCESS -> Histogram_create s = Fault NullDeref.
Proof. intros H. unfold Histogram_create, ScriptIntrinsic_new, createDispatch, getError, mbind, M_bind. by rewrite H. Qed.

(** ** Histogram launches *)

(** The elements in the context have the vector sizes of their names and addresses below the next
    free one. *)
Definition statics_ok (s : RS) : Prop := forall n x, (n, x) ∈ statics s -> this x < fresh s /\ (n = n_U8 -> mVectorSize x = 1) /\ (n = n_U8_4 -> mVectorSize x = 4).

(** An object that exists: another one at its address is the same one. *)
Definition known (s : RS) (e : Element) : Prop := this e < fresh s /\ forall n x, (n, x) ∈ statics s -> this x = this e -> x = e.

Lemma list_find_static n (l : list (ename * Element)) i y : list_find (fun y => y.1 = n) l = Some (i, y) -> y ∈ l /\ y.1 = n.
Proof. intros E. apply list_find_Some in E as (E & H & _). split; [by eapply list_elem_of_lookup_2|done]. Qed.

(** Looking up the two elements keeps the context consistent, sends no effect and finds the right
    vector size. *)
Lemma byte_static n e s x s' : n = n_U8 \/ n = n_U8_4 -> statics_ok s -> known s e -> element_static answer n s = Ok (x, s') ->
  statics_ok s' /\ known s' e /\ effects s' = effects s /\ mCurrentError s' = mCurrentError s /\
  exists y, x = Some y /\ mVectorSize y = (if decide (n = n_U8) then 1 else 4) /\ (this y = this e -> y = e).
Proof.
  intros Hn Hok Hk E. unfold element_static in E. destruct (list_find _ (statics s)) as [[i [n' y]]|] eqn:F.
  - injection E as <- <-. apply list_find_static in F as [Hin Hn']. cbn in Hn'. subst n'. split_and!; [done..|]. exists y. destruct (Hok _ _ Hin) as (_ & H1 & H4). destruct Hk as [_ Hk]. split_and!; [done| |by apply (Hk n)]. destruct Hn; subst; [by rewrite decide_True by done; apply H1|by rewrite decide_False by done; apply H4].
  - destruct Hk as [Hf Hk]. assert (exists y, this y = fresh s /\ mVectorSize y = (if decide (n = n_U8) then 1 else 4) /\ x = Some y /\ exists c, creates c = true /\ s' = mkRS (mCurrentError s) ((n, y) :: statics s) (samplers s) (log s ++ [c]) (fresh s + 1)) as (y & Hty & Hvy & -> & c & Hcr & ->).
    { destruct Hn as [-> | ->]; injection E as <- <-; [eexists (Element_leaf RS_TYPE_UNSIGNED_8 RS_KIND_USER 1 (fresh s) _)|eexists (Element_leaf RS_TYPE_UNSIGNED_8 RS_KIND_USER 4 (fresh s) _)]; (split_and!; [reflexivity|reflexivity|reflexivity|]); eexists; (split; [|reflexivity]); done. }
    split_and!.
    + intros n' z Hz. cbn [statics fresh] in *. apply elem_of_cons in Hz as [[= -> ->]|Hz]; [split; [lia|]|destruct (Hok _ _ Hz) as (A & B & C); split; [lia|done]]. rewrite Hvy. split; intros ->; [by rewrite decide_True|by rewrite decide_False].
    + split; [cbn; lia|]. intros n' z Hz Ht. cbn [statics] in Hz. apply elem_of_cons in Hz as [[= -> ->]|Hz]; [lia|by apply (Hk n')].
    + unfold effects. cbn [log]. by rewrite filter_app, filter_cons, decide_False, filter_nil, app_nil_r by congruence.
    + done.
    + exists y. split_and!; [done|done|lia].
Qed.

Lemma not_both_true e s b s' : statics_ok s -> known s e -> not_both e s = Ok (b, s') -> b = true /\ effects s' = effects s /\ mCurrentError s' = mCurrentError s.
Proof.
  intros Hok Hk E. unfold not_both, mbind, M_bind, of_outcome, mret, M_ret in E. destruct (element_static answer n_U8 s) as [[u s1]|] eqn:E1; [|done]. destruct (byte_static n_U8 e s u s1 (or_introl eq_refl) Hok Hk E1) as (Hok1 & Hk1 & Ef1 & Er1 & y & -> & Hv & Hy).
  unfold isCompatible in E at 1. destruct (this e =? this y) eqn:Et; [cbn [negb] in E|destruct (_ && _ && _ && (mVectorSize e =? mVectorSize y)) eqn:Ec; cbn [negb] in E; [|by injection E as <- <-]].
  all: destruct (element_static answer n_U8_4 s1) as [[v s2]|] eqn:E2; [|done]; destruct (byte_static n_U8_4 e s1 v s2 (or_intror eq_refl) Hok1 Hk1 E2) as (_ & _ & Ef2 & Er2 & z & -> & Hv4 & Hz); rewrite decide_True in Hv by done; rewrite decide_False in Hv4 by done.
  all: assert (He1 : mVectorSize e = 1) by (first [apply Z.eqb_eq in Et; rewrite <- (Hy (eq_sym Et)); exact Hv | apply andb_prop in Ec as [_ Ec]; apply Z.eqb_eq in Ec; lia]).
  all: assert (Ens : isCompatible e (Some z) = Ok false) by (unfold isCompatible; destruct (Z.eqb_spec (this e) (this z)) as [T|_]; [rewrite (Hz (eq_sym T)) in Hv4; lia|]; destruct (Z.eqb_spec (mVectorSize e) (mVectorSize z)); [lia|by rewrite andb_false_r]).
  all: rewrite Ens in E; injection E as <- <-; split_and!; [done|congruence|congruence].
Qed.

(** No input is both a byte and four bytes: a launch of the histogram is always refused. *)
Theorem histogram_never_runs (dot : bool) x mOut ain e s s' : mElement (a_type ain) = Some e -> mCurrentError s = RS_SUCCESS -> statics_ok s -> known s e ->
  (if dot then Histogram_forEach_dot x mOut ain else Histogram_forEach x mOut ain) s = Ok (tt, s') -> mCurrentError s' <> RS_SUCCESS /\ effects s' = effects s.
Proof.
  intros He Hs Hok Hk E. assert (Hthrow : forall err s1 s2, err <> RS_SUCCESS -> mCurrentError s1 = RS_SUCCESS -> throwError err s1 = Ok (tt, s2) -> mCurrentError s2 <> RS_SUCCESS /\ effects s2 = effects s1).
  { intros err s1 s2 H1 H2 H3. unfold throwError in H3. rewrite H2 in H3. injection H3 as <-. done. }
  destruct dot; unfold Histogram_forEach, Histogram_forEach_dot, elementOf, mbind, M_bind, of_outcome in E; rewrite ?He in E; cbn [of_option] in E; destruct (vectorSizeOf mOut s) as [[vo s0]|] eqn:Ev; try done.
  all: assert (s0 = s) as -> by (unfold vectorSizeOf, elementOf, mbind, M_bind, of_outcome, mret, M_ret in Ev; destruct mOut as [o|]; cbn [of_option] in Ev; [|done]; destruct (mElement (a_type o)); cbn [of_option] in Ev; [|done]; by injection Ev as _ <-).
  all: match type of E with (if ?b then _ else _) _ = _ => destruct b end; [by apply (Hthrow RS_ERROR_INVALID_PARAMETER s s')|].
  all: rewrite ?He in E; cbn [of_option] in E; destruct (not_both e s) as [[b s1]|] eqn:Eb; [|done]; destruct (not_both_true e s b s1 Hok Hk Eb) as (-> & Ef & Er); destruct (Hthrow RS_ERROR_INVALID_ELEMENT s1 s') as [H1 H2]; [done|congruence|done|split; [done|congruence]].
Qed.

End intrinsics.


Definition demo_element : Element := Element_leaf RS_TYPE_UNSIGNED_8 RS_KIND_USER 4 1 10.
Definition demo_alloc : Allocation := Allocation_new 20 (mkTy 15 4 4 0 false false 16 (Some demo_element)) 1.

Lemma blend_request_witness : exists s', blend_forEach (fun _ => 7) 3 (mkIntrinsic 30 (Some demo_element)) demo_alloc demo_alloc (mkRS 0 [] [] [] 2) = Ok (tt, s') /\ log s' = [] ++ [ScriptForEach 30 3 20 20 []].
Proof.
  destruct (blend_request (fun _ => 7) 3 (mkIntrinsic 30 (Some demo_element)) demo_alloc demo_alloc (mkRS 0 [] [] [] 2) demo_element demo_element demo_element) as (s' & E & H); [reflexivity..|]. exists s'. split; [exact E|exact (proj2 H)].
Defined.

(** Every blend method but the one that keeps the destination has a kernel. *)
Lemma blend_slots_implemented slot : slot ∈ [0; 1; 2; 3; 4; 5; 6; 7; 8; 9; 10; 11; 14; 34; 35] -> Pixels.blend slot = None <-> slot = 2.
Proof. intros H. rewrite !elem_of_cons, elem_of_nil in H. destruct_or? H; try done; subst; done. Qed.

Definition demo_context : RS := mkRS 0 [(n_U8_4, demo_element)] [] [] 2.
Definition demo_table : Allocation := Allocation_new 40 (mkTy 15 1024 0 0 false false 1024 (Some (Element_leaf RS_TYPE_UNSIGNED_8 RS_KIND_USER 1 1 11))) 1.
Definition demo_lut : Lut := mkLut (mkIntrinsic 30 (Some demo_element)) (Some demo_table) identity_cache true.

Lemma lut_update_witness : exists cache s', (l1 ← setTable demo_lut (256 * 2) 10 2 [7; 9]; LUT_forEach (fun _ => 7) l1 demo_alloc demo_alloc) demo_context = Ok (mkLut (l_script demo_lut) (LUT demo_lut) cache false, s') /\
  log s' = [] ++ [Allocation1DData 40 0 0 1024 cache 1024; ScriptForEach 30 0 20 20 []] /\
  forall t' v, 0 <= t' <= 3 -> 0 <= v < 256 -> Pixels.tab cache t' v = if decide (t' = 2 /\ 10 <= v < 10 + 2) then Pixels.byte_at [7; 9] (v - 10) else Pixels.tab identity_cache t' v.
Proof.
  apply (lut_update (fun _ => 7) demo_lut demo_table (Element_leaf RS_TYPE_UNSIGNED_8 RS_KIND_USER 1 1 11) demo_element 0 n_U8_4 2 10 2 [7; 9] demo_alloc demo_alloc demo_context); [reflexivity|lia|lia|lia|lia|vm_compute; congruence|reflexivity..].
Defined.

Lemma yuv_input_crashes_witness : no_yuv demo_context /\ YuvToRGB_setInput (fun _ => 7) (mkIntrinsic 30 None) demo_alloc demo_context = Fault NullDeref.
Proof. split; [reflexivity|]. apply yuv_input_crashes. reflexivity. Defined.

Lemma histogram_create_crashes_witness : Histogram_create (fun _ => 7) demo_context = Fault NullDeref.
Proof. apply histogram_create_crashes. reflexivity. Defined.

Lemma histogram_never_runs_witness : exists s', Histogram_forEach (fun _ => 7) (mkIntrinsic 30 None) (Some demo_alloc) demo_alloc demo_context = Ok (tt, s') /\ mCurrentError s' <> RS_SUCCESS /\ effects s' = [].
Proof.
  eexists. split; [vm_compute; reflexivity|]. apply (histogram_never_runs (fun _ => 7) false (mkIntrinsic 30 None) (Some demo_alloc) demo_alloc demo_element demo_context); [reflexivity|reflexivity| | |vm_compute; reflexivity].
  - intros n x Hx. apply elem_of_cons in Hx as [[= -> ->]|Hx]; [split; [reflexivity|split; [discriminate|reflexivity]]|by apply elem_of_nil in Hx].
  - split; [reflexivity|]. intros n x Hx _. apply elem_of_cons in Hx as [[= -> ->]|Hx]; [reflexivity|by apply elem_of_nil in Hx].
Defined.

End ClientIntrinsics.
