(* ===== verification/ClientInit.v ===== *)
(** * ClientInit: starting the C++ client

    [cpp/RenderScript.cpp]: loading the runtime library and its entry points, [RS::init] and the
    thread that receives messages. [dlopen], [dlsym] and the answers of the runtime are parameters. *)

From stdpp Require Import strings.
From S2P Require Import Prelude Client.
Import Client.
Open Scope string_scope.
Open Scope Z_scope.

Module ClientInit.

(** ** Entry points *)

(** The members of the table and the symbols they are loaded from, in the order of the code. *)
Definition required : list (string * string) :=
  [("AllocationGetType", "rsaAllocationGetType"); ("TypeGetNativeData", "rsaTypeGetNativeData"); ("ElementGetNativeData", "rsaElementGetNativeData");
   ("ElementGetSubElements", "rsaElementGetSubElements"); ("DeviceCreate", "rsDeviceCreate"); ("DeviceDestroy", "rsDeviceDestroy");
   ("DeviceSetConfig", "rsDeviceSetConfig"); ("ContextCreate", "rsContextCreate"); ("GetName", "rsaGetName");
   ("ContextDestroy", "rsContextDestroy"); ("ContextGetMessage", "rsContextGetMessage"); ("ContextPeekMessage", "rsContextPeekMessage");
   ("ContextSendMessage", "rsContextSendMessage"); ("ContextInitToClient", "rsContextInitToClient"); ("ContextDeinitToClient", "rsContextDeinitToClient");
   ("TypeCreate", "rsTypeCreate"); ("AllocationCreateTyped", "rsAllocationCreateTyped"); ("AllocationCreateFromBitmap", "rsAllocationCreateFromBitmap");
   ("AllocationCubeCreateFromBitmap", "rsAllocationCubeCreateFromBitmap"); ("AllocationGetSurface", "rsAllocationGetSurface"); ("AllocationSetSurface", "rsAllocationSetSurface");
   ("ContextFinish", "rsContextFinish"); ("ContextDump", "rsContextDump"); ("ContextSetPriority", "rsContextSetPriority");
   ("AssignName", "rsAssignName"); ("ObjDestroy", "rsObjDestroy"); ("ElementCreate", "rsElementCreate");
   ("ElementCreate2", "rsElementCreate2"); ("AllocationCopyToBitmap", "rsAllocationCopyToBitmap"); ("Allocation1DData", "rsAllocation1DData");
   ("Allocation1DElementData", "rsAllocation1DElementData"); ("Allocation2DData", "rsAllocation2DData"); ("Allocation3DData", "rsAllocation3DData");
   ("AllocationGenerateMipmaps", "rsAllocationGenerateMipmaps"); ("AllocationRead", "rsAllocationRead"); ("Allocation1DRead", "rsAllocation1DRead");
   ("Allocation2DRead", "rsAllocation2DRead"); ("AllocationSyncAll", "rsAllocationSyncAll"); ("AllocationResize1D", "rsAllocationResize1D");
   ("AllocationCopy2DRange", "rsAllocationCopy2DRange"); ("AllocationCopy3DRange", "rsAllocationCopy3DRange"); ("SamplerCreate", "rsSamplerCreate");
   ("ScriptBindAllocation", "rsScriptBindAllocation"); ("ScriptSetTimeZone", "rsScriptSetTimeZone"); ("ScriptInvoke", "rsScriptInvoke");
   ("ScriptInvokeV", "rsScriptInvokeV"); ("ScriptForEach", "rsScriptForEach"); ("ScriptSetVarI", "rsScriptSetVarI");
   ("ScriptSetVarObj", "rsScriptSetVarObj"); ("ScriptSetVarJ", "rsScriptSetVarJ"); ("ScriptSetVarF", "rsScriptSetVarF");
   ("ScriptSetVarD", "rsScriptSetVarD"); ("ScriptSetVarV", "rsScriptSetVarV"); ("ScriptGetVarV", "rsScriptGetVarV");
   ("ScriptSetVarVE", "rsScriptSetVarVE"); ("ScriptCCreate", "rsScriptCCreate"); ("ScriptIntrinsicCreate", "rsScriptIntrinsicCreate");
   ("ScriptKernelIDCreate", "rsScriptKernelIDCreate"); ("ScriptFieldIDCreate", "rsScriptFieldIDCreate"); ("ScriptGroupCreate", "rsScriptGroupCreate");
   ("ScriptGroupSetOutput", "rsScriptGroupSetOutput"); ("ScriptGroupSetInput", "rsScriptGroupSetInput"); ("ScriptGroupExecute", "rsScriptGroupExecute");
   ("AllocationIoSend", "rsAllocationIoSend"); ("AllocationIoReceive", "rsAllocationIoReceive")].
Definition optional : string * string := ("AllocationGetPointer", "rsAllocationGetPointer").

Section loading.
(** [dlopen] gives a handle or [NULL]; [dlsym] an address, 0 if there is no such symbol. *)
Context (dlopen : string -> option Z) (dlsym : Z -> string -> Z).

(** The table is written as far as the symbols are found. *)
Fixpoint load_required (handle : Z) (l : list (string * string)) (table : gmap string Z) : bool * gmap string Z :=
  match l with
  | [] => (true, table)
  | (field, sym) :: l =>
      let table := <[field := dlsym handle sym]> table in
      if dlsym handle sym =? 0 then (false, table) else load_required handle l table
  end.

Definition loadSymbols (handle : Z) (table : gmap string Z) : bool * gmap string Z :=
  let '(ok, table) := load_required handle required table in
  if ok then (true, <[optional.1 := dlsym handle optional.2]> table) else (false, table).

Definition loadSO (filename : string) (table : gmap string Z) : bool * gmap string Z :=
  match dlopen filename with None => (false, table) | Some handle => loadSymbols handle table end.

(** The static members of [RS] and [gInitError]. *)
Record globals := mkGlobals { gInitError : bool; gInitialized : bool; usingNative : bool; dispatch : option (gmap string Z) }.

(** [forcecompat] is the property [debug.rs.forcecompat]. *)
Definition initDispatch (forcecompat : bool) (g : globals) : bool * globals :=
  if gInitError g then (false, g)
  else if gInitialized g then (true, g)
  else
    let '(native, t) := if forcecompat then (usingNative g, ∅) else loadSO "libRS.so" ∅ in
    let '(ok, t) := if native then (true, t) else loadSO "libRSSupport.so" t in
    if ok then (true, mkGlobals false true native (Some t)) else (false, mkGlobals true false native (Some t)).

(** ** The context *)

Inductive event := DeviceCreate | ContextCreate (flags : Z) | ThreadStart | ContextDeinitToClient | ThreadJoin | ContextDestroy | DeviceDestroy.

Record context := mkContext { mDev : Z; mContext : Z; mInit : bool; trace : list event }.
Definition RS_new : context := mkContext 0 0 false [].

(** [dev], [ctx] and [status]: what the runtime and [pthread_create] answer. *)
Definition init (dev ctx status : Z) (forcecompat : bool) (flags : Z) (g : globals) (c : context) : bool * globals * context :=
  if mInit c then (true, g, c)
  else
    let '(ok, g) := initDispatch forcecompat g in
    if negb ok then (false, g, c)
    else
      let c := mkContext dev (mContext c) false (trace c ++ [DeviceCreate]) in
      if dev =? 0 then (false, g, c)
      else if flags >=? 4 then (false, g, c)
      else
        let c := mkContext dev ctx false (trace c ++ [ContextCreate flags]) in
        if ctx =? 0 then (false, g, c)
        else if negb (status =? 0) then (false, g, c)
        else (true, g, mkContext dev ctx true (trace c ++ [ThreadStart])).

Definition destroy (c : context) : context :=
  if mInit c then mkContext 0 0 (mInit c) (trace c ++ [ContextDeinitToClient; ThreadJoin; ContextDestroy; DeviceDestroy]) else c.

End loading.

(** ** Messages *)

Inductive msg_type := MSG_NONE | MSG_EXCEPTION | MSG_RESIZE | MSG_ERROR | MSG_USER | MSG_OTHER (v : Z).

(** What the thread does with a message: a handler is called with the data of the message. *)
Inductive reaction := CallError (usr : Z) (data : list Z) | CallMessage (usr : Z) (data : list Z) | Ignore.

(** The size of the receive buffer, and the two handlers: whether they are set. *)
Record receiver := mkReceiver { rbuf_size : Z; mErrorFunc : bool; mMessageFunc : bool }.

(** One turn of the loop. [data] is the pending message: [ContextPeekMessage] gives its length and
    [ContextGetMessage] copies it if it fits. *)
Definition receive (r : msg_type) (usr : Z) (data : list Z) (v : receiver) (s : RS) : outcome (reaction * receiver * RS) :=
  let receiveLen := zlen data in
  let v := if receiveLen >=? rbuf_size v then mkReceiver (receiveLen + 32) (mErrorFunc v) (mMessageFunc v) else v in
  if receiveLen >? rbuf_size v then Fault OutOfBounds
  else
    match r with
    | MSG_ERROR =>
        '(_, s) ← throwError RS_ERROR_RUNTIME_ERROR s;
        if mMessageFunc v then (if mErrorFunc v then Ok (CallError usr data, v, s) else Fault NullDeref) else Ok (Ignore, v, s)
    | MSG_USER => Ok (if mMessageFunc v then CallMessage usr data else Ignore, v, s)
    | _ => Ok (Ignore, v, s)
    end.

(** ** The table after loading *)

Section loaded.
Context (dlopen : string -> option Z) (dlsym : Z -> string -> Z).

Lemma load_required_spec h l : forall table t, NoDup l.*1 -> load_required dlsym h l table = (true, t) ->
  (forall f s, (f, s) ∈ l -> t !! f = Some (dlsym h s) /\ dlsym h s <> 0) /\ (forall f, f ∉ l.*1 -> t !! f = table !! f).
Proof.
  induction l as [|[f s] l IH]; intros table t Hnd E; cbn [load_required] in E; [injection E as <-; split; [intros ? ? H; by apply elem_of_nil in H|done]|].
  rewrite fmap_cons in *. cbn [fst] in *. apply NoDup_cons in Hnd as [Hf Hnd]. destruct (Z.eqb_spec (dlsym h s) 0); [done|]. destruct (IH _ _ Hnd E) as [H1 H2]. split.
  - intros f' s' Hin. apply elem_of_cons in Hin as [[= -> ->]|Hin]; [|by apply H1]. rewrite H2 by done. by rewrite lookup_insert_eq.
  - intros f' Hf'. apply not_elem_of_cons in Hf' as [Hne Hf']. rewrite H2 by done. by rewrite lookup_insert_ne by congruence.
Qed.

Lemma fields_distinct : NoDup required.*1 /\ optional.1 ∉ required.*1.
Proof. split; [apply (bool_decide_unpack _)|apply (bool_decide_unpack _)]; vm_compute; exact I. Qed.

(** The table holds the entry points of one library. *)
Definition table_of (h : Z) (t : gmap string Z) : Prop :=
  (forall f s, (f, s) ∈ required -> t !! f = Some (dlsym h s) /\ dlsym h s <> 0) /\ t !! optional.1 = Some (dlsym h optional.2).

Lemma loadSO_spec file table t : loadSO dlopen dlsym file table = (true, t) -> exists h, dlopen file = Some h /\ table_of h t.
Proof.
  unfold loadSO, loadSymbols. destruct (dlopen file) as [h|]; [|done]. destruct (load_required dlsym h required table) as [ok t1] eqn:E. destruct ok; [|done]. intros [= <-]. exists h. split; [done|].
  destruct fields_distinct as [Hnd Ho]. destruct (load_required_spec h required table t1 Hnd E) as [H1 _]. split; [|by rewrite lookup_insert_eq].
  intros f s Hin. rewrite lookup_insert_ne; [by apply H1|]. intros <-. apply Ho. apply list_elem_of_fmap. by exists (optional.1, s).
Qed.

(** When initialisation succeeds, every entry of the table is an entry point of one library, the
    system's if it could be used and else the support library, and all but one are present; when it
    fails, every later attempt fails. *)
Theorem initDispatch_table fc g g' : gInitError g = false -> gInitialized g = false -> usingNative g = false ->
  (initDispatch dlopen dlsym fc g = (true, g') -> gInitialized g' = true /\
     exists h t, dispatch g' = Some t /\ table_of h t /\ dlopen (if usingNative g' then "libRS.so" else "libRSSupport.so") = Some h) /\
  (initDispatch dlopen dlsym fc g = (false, g') -> forall fc', initDispatch dlopen dlsym fc' g' = (false, g')).
Proof.
  intros He Hi Hn. unfold initDispatch at 1 2. rewrite He, Hi, Hn.
  destruct (if fc then (false, ∅) else loadSO dlopen dlsym "libRS.so" ∅) as [native t1] eqn:E1. destruct (if native then (true, t1) else loadSO dlopen dlsym "libRSSupport.so" t1) as [ok t2] eqn:E2. split; intros E; destruct ok; try done; injection E as <-; [|done].
  cbn [gInitialized dispatch usingNative]. split; [done|]. destruct native.
  - injection E2 as <-. destruct fc; [done|]. destruct (loadSO_spec _ _ _ E1) as (h & H1 & H2). by exists h, t1.
  - destruct (loadSO_spec _ _ _ E2) as (h & H1 & H2). by exists h, t2.
Qed.

End loaded.

Lemma initDispatch_table_witness : exists g', initDispatch (fun f => if (f =? "libRS.so")%string then None else Some 5) (fun _ _ => 9) false (mkGlobals false false false None) = (true, g') /\ gInitialized g' = true /\
  exists h t, dispatch g' = Some t /\ table_of (fun _ _ => 9) h t /\ (if (if usingNative g' then "libRS.so" else "libRSSupport.so") =? "libRS.so" then None else Some 5)%string = Some h.
Proof.
  eexists. split; [reflexivity|]. apply (initDispatch_table (fun f => if (f =? "libRS.so")%string then None else Some 5) (fun _ _ => 9) false (mkGlobals false false false None)); reflexivity.
Defined.

(** ** Reception *)

(** A message fits into the buffer whatever its length, and reaches the handler for its type with
    its data; an error is recorded in the context. The error handler is called only when a message
    handler is set, and if there is no error handler then, its address is zero. *)
Theorem receive_delivers r usr data v s : 0 < rbuf_size v -> mCurrentError s = RS_SUCCESS ->
  match receive r usr data v s with
  | Ok (x, v', s') => zlen data < rbuf_size v' /\ rbuf_size v <= rbuf_size v' /\ mErrorFunc v' = mErrorFunc v /\ mMessageFunc v' = mMessageFunc v /\ log s' = log s /\
      mCurrentError s' = (match r with MSG_ERROR => RS_ERROR_RUNTIME_ERROR | _ => RS_SUCCESS end) /\
      x = (match r with MSG_ERROR => if mMessageFunc v then CallError usr data else Ignore | MSG_USER => if mMessageFunc v then CallMessage usr data else Ignore | _ => Ignore end)
  | Fault f => f = NullDeref /\ r = MSG_ERROR /\ mMessageFunc v = true /\ mErrorFunc v = false
  end.
Proof.
  intros Hb Hs. pose proof (zlen_nonneg data). unfold receive. set (v' := if zlen data >=? rbuf_size v then _ else v).
  assert (Hv : zlen data < rbuf_size v' /\ rbuf_size v <= rbuf_size v' /\ mErrorFunc v' = mErrorFunc v /\ mMessageFunc v' = mMessageFunc v) by (unfold v'; destruct (Z.geb_spec (zlen data) (rbuf_size v)); cbn; lia || (split_and!; (done || lia))).
  clearbody v'. destruct Hv as (H1 & H2 & H3 & H4). destruct (Z.gtb_spec (zlen data) (rbuf_size v')); [lia|]. rewrite <- H3, <- H4.
  destruct r; destruct (mMessageFunc v') eqn:?, (mErrorFunc v') eqn:?; unfold throwError; rewrite ?Hs; cbn; split_and!; done || congruence.
Qed.

Lemma receive_delivers_witness : 0 < 256 /\ exists x v' s', receive MSG_USER 3 (replicate 300 1) (mkReceiver 256 true true) (mkRS 0 [] [] [] 1) = Ok (x, v', s') /\ zlen (replicate 300 1) < rbuf_size v' /\ x = CallMessage 3 (replicate 300 1).
Proof.
  split; [lia|]. pose proof (receive_delivers MSG_USER 3 (replicate 300 1) (mkReceiver 256 true true) (mkRS 0 [] [] [] 1) ltac:(cbn; lia) eq_refl) as H.
  destruct (receive _ _ _ _ _) as [[[x v'] s']|f] eqn:E; [|vm_compute in E; discriminate E]. exists x, v', s'. split; [reflexivity|]. destruct H as (H1 & _ & _ & _ & _ & _ & H7). split; [exact H1|exact H7].
Defined.

End ClientInit.
